(* ===== verification/_CoqProject ===== *)
-Q . S2P
Prelude.v
RbtModel.v
RbtTree.v
RbtRotate.v
RbtInsert.v
RbtFixup.v
RbtDelete.v
RbtIter.v
RbtSearch.v
RbtProps.v
RbtClient.v
Kmalloc.v
IdxAlct.v
IdMap.v
DList.v
Slot.v
Machine.v
Mmu.v
Ptb.v
Phyops.v
Slab.v
Vm.v
Vslots.v
VmSpec.v
VmFree.v
Um.v
UmSpec.v
Kmem.v
Fault.v
Cstring.v
Buf.v
Log.v
Sync.v
Mutex.v
Schd.v
Words.v
Msg.v
MsgSpec.v
MsgTrip.v
Pm.v
PmSpec.v
PmOps.v
PmProps.v
Page.v
Physmem.v
Desc.v
Task.v
Cpu.v
Apic.v
Lapic.v
Trap.v
TrapSpec.v
Meminit.v
Mp.v
Tty.v
Printf.v
Elf.v
Blocks.v
Args.v
Thread.v
Proc.v
ProcSpec.v
ThreadSpec.v
Shell.v
Names.v
Fs.v
FsPath.v
FsTree.v
FsSpec.v
FsProps.v
Srv.v
SrvPack.v
SrvSpec.v
SrvMsg.v
SrvUser.v
FsSrv.v
SrvReg.v
SrvCall.v
SrvRpc.v
SrvTrip.v
