(* ===== verification/Prelude.v ===== *)
(** * Lanthorn: a verified model of the kernel

    Lanthorn is a small multiprocessor x86 microkernel in C. The kernel (src/kernel)
    manages memory, processes and threads, and lets processes send messages and call
    each other's services; src/lib holds its containers, strings and console; src/arch/x86
    the machine; src/usr the user library, the file server and the shell. This library
    models the kernel's core function by function and proves what it is meant to do.

    ** How code becomes Rocq

    A C function is a definition in the monad [M S A] (below): from a state it returns,
    panics (a failed [assert]), faults (a pointer to no object, an unset variable) or
    hangs (a spin lock its own CPU holds, a loop out of fuel). [wp m Q s] says that [m]
    returns and the result satisfies [Q]: the theorems are about total correctness
    unless they use [wlp], and say so; [wpp C m Q] lets [m] panic where [C] holds. An [int] or [uint] is a [Z] with its wrap-around
    written out ([u32], [add32], [s32]). A pointer is a [Z]; an object is looked up in the
    map of its kind, or in byte memory where the code looks at bytes; [container_of] of a
    node is the same address in the objects' map. An out-parameter is the second part of
    the result. Loops are [loop fuel body]: each theorem shows that the fuel the
    definition gives is enough ([wp_loop]), so that it proves termination. A lock of a
    sequential proof is a flag that must be free; the locks themselves are state
    machines under every interleaving.
    What a component needs of another one, of user memory or of the machine is a class
    with its laws (Kmalloc, IdMap, the page source of Ptb, Slab and Vm, the user memory of
    Msg and Srv), with a concrete instance on which the witnesses run.

    ** Files

    - Prelude: outcomes, [wp], machine arithmetic, error codes (include/error.h).
    - Rbt*: lib/rbt.c. RbtModel the code on a heap of nodes; RbtTree the trees a heap
      represents; RbtRotate, RbtInsert, RbtFixup, RbtDelete, RbtIter, RbtSearch its
      functions; RbtProps the theorems; RbtClient what clients use.
    - DList, Slot, IdxAlct: lib/list.c, lib/slot.c, lib/idx_alct.c. Later files take a
      list embedded in larger structures as the sequence of its nodes, which is what
      the theorems of DList and Slot say it is. IdMap is the interface of IdxAlct,
      Kmalloc that of the kernel heap.
    - Machine, Mmu, Ptb, Phyops: bytes of physical memory, arch/x86/src/mm/mmu.c (page
      tables, the two temporary windows), kernel/memory/ptb.c, arch/x86/src/mm/phyops.c.
    - Slab, Vm (VmSpec, VmFree), Um (UmSpec): kernel/memory/slab.c, vm.c, um.c.
    - Pm (PmSpec, PmOps, PmProps): kernel/memory/pm.c, the buddy allocator.
    - Cstring, Buf, Log: lib/string.c, lib/buf.c, lib/log.c.
    - Sync, Mutex: include/spinlock.h (ticket and reader-writer locks) and
      kernel/proc/thread/mutex.c. Schd: kernel/proc/thread/schd.c.
    - Msg (MsgSpec, MsgTrip): kernel/msg/msg.c.
    - Page, Kmem, Fault: kernel/memory/memory.c: page references, [kmalloc] and
      [kmalloc_page] over Vm, Ptb and Pm, the page fault handler. Vslots, Physmem: the
      slots and the buddy system as Vm, Ptb and Kmem ask for them. Meminit:
      [memory_init], and the memory map of arch/x86/src/setup/setup.c.
    - Words: little-endian words in byte memory. Desc, Task: the descriptor tables of
      arch/x86/src/setup/gdt.c and intr.c; the stacks of arch/x86/src/task/task.c.
    - Cpu: arch/x86/src/mp/cpu.c and the interrupt flag. Mp: setup/mp.c, the table of
      processors. Apic, Lapic: the interrupt
      controllers. Trap, TrapSpec: intr.c and kernel/syscall/syscall.c, with every
      registration of the kernel.
    - Tty: arch/x86/src/drives/uart.c and kernel/tmp.c, the terminal. Printf:
      usr/lib/stdio.c, the [printf] of user programs. Shell: usr/shell, the command line.
    - Elf: lib/elf.c. Blocks: a heap whose blocks are bytes of memory.
    - Args: the argument block of proc.c. Thread, Proc: kernel/proc/thread/thread.c and
      kernel/proc/proc.c; ProcSpec, ThreadSpec their theorems.
    - Names: the red-black tree with string keys. Fs: usr/fssrv/file.c; FsPath, FsTree,
      FsSpec, FsProps what it does to the tree of files. FsSrv: usr/fssrv/service.c and
      init.c, the services over it.
    - Srv: kernel/srv/srv.c. SrvPack and SrvSpec the packed requests and the registry,
      SrvMsg its use of Msg, SrvUser the user side, SrvReg registration, SrvCall the
      halves of a call, SrvRpc the call as a whole, SrvTrip the run of an example.

    ** Theorems

    - Containers: insertion and deletion keep a red-black tree and act on its in-order
      sequence as on a sorted list; the list functions refine sequences; slots are
      handed out once; an index is the least free one while the sums in the nodes are
      right, and otherwise the allocator stops the kernel, never handing one out twice.
    - Memory: page-table operations are the update of one translation; copies go through
      the windows without touching anything else; blocks of the buddy allocator never
      overlap, the memory it stands for is constant, free halves are merged; slab objects
      and virtual ranges stay disjoint and inside their pages, a range given back is fused
      exactly as [vm_merge] does it; a page fault is served exactly when there is memory
      for it.
    - Console and strings: what [printk] prints, that input comes out in order.
    - Concurrency: the ticket lock excludes and serves in order, the reader-writer lock
      never has a writer with company, the mutex hands itself to the waiter; every
      runnable thread is in the queue once and is reached.
    - Messages: the tables stay well-formed under every operation; what is sent to a box
      arrives once, in order, with its bytes.
    - Kernel memory: at boot the buddy system gets the whole pages of the range that was taken
      from the memory map, and the kernel's addresses are one free range, which with the
      arguments of setup.c runs past the end of the address space; a page is given back by the last of its references and not before;
      a block of [kmalloc] is mapped, on frames of its own; a fault in kernel memory
      makes the current directory agree with the kernel's, one in the heap of a process
      gives the page a frame, or changes no translation.
    - Machine: the processors the firmware lists are entered, in order, from a table that
      checks; a system call reaches the function registered for its number with the
      arguments of the caller; an interrupt leaves the nesting count as it was; sections
      with interrupts off nest.
    - Processes: a thread starts in the routine and with the arguments it was made for;
      arguments and environment reach the memory of a new process unchanged; the end of a
      process kills its threads, wakes its creator with the exit code and touches no
      other, or stops the kernel, and it is said exactly when.
    - Terminal: a line typed is the line read and the line echoed; [printf] of a user
      program stays in its array exactly when the text does; what the shell starts is the
      program, the arguments and the environment the line names.
    - Services: a call returns what the server answered, with both copies in the right
      address spaces; a registered name is found and no other entry changes.
    - Files and programs: a path creates and finds its file; what is written through the
      file service is read through it; a program is loaded as its headers say.

    ** Bounds

    CONFIG_NR_BUDDY_ORDER = 21, CONFIG_NR_CPU_MAX = 8 and the other constants are those
    of the default configuration. The fuel of a tree loop is the number of objects in the
    heap plus one, of a list loop its length, of a loop over an integer range the range's
    size; [buddy_alloc] recurses at most NR_BUDDY_ORDER times.

    ** Not modelled

    Assembly (boot code, context switch, the interrupt entry stubs) and inline assembly
    (cr2, cr3, invlpg, port I/O), which have no state of their own that can be stated
    without a model of the processor; the third-party
    configuration tool under scripts/kconfig; the test programs.
    The order of the initialisations in kernel/main.c, the other user programs, which only
    pass arguments to system calls, and usr/lib's copies of lib.

    ** Where the models meet

    Schd, Msg, Srv, Thread and Proc keep a state of their own each and use the others
    through the same definitions ([zoom]) or an interface they are proved to satisfy: Schd
    runs inside the state of Thread, Msg inside that of Srv, Cstring and Words inside byte
    memory, IdMap is met by IdxAlct. Kmalloc is a heap that reports lack of memory, which
    the kernel's does only for blocks of a page it has: [kmalloc] follows an unset pointer
    when [kmalloc_page] fails, and Kmem says so. The physical pages of Ptb and Kmem are an
    interface that the buddy system of Pm and Page is proved to satisfy (Physmem), the
    structures of Vm one that the slots of Slot are (Vslots), the pages of Slab one that
    [umalloc] (UmSpec) and [kmalloc] (Kmem) are. Meminit runs the initialisations of all of
    them on one state. *)
From stdpp Require Export base tactics numbers list gmap fin_maps.
From Stdlib Require Export ZArith Lia.

#[global] Open Scope Z_scope.

(** ** Outcomes of kernel code

    A C function is a state transformer with four outcomes: it returns, it
    reaches [panic] (or a failed [assert]), it does something C leaves
    undefined on this machine (dereferences NULL, follows a pointer to no
    object, reads a variable nobody wrote), or it never returns (spins on a lock
    its own CPU holds; a loop that has used up its fuel). *)
Inductive outcome (S A : Type) : Type :=
  | Ret (a : A) (s : S)
  | Panic
  | Fault
  | Hang.
Arguments Ret {S A} a s.
Arguments Panic {S A}.
Arguments Fault {S A}.
Arguments Hang {S A}.

Definition M (S A : Type) : Type := S → outcome S A.

Section monad.
Context {S : Type}.

Definition ret {A} (a : A) : M S A := λ s, Ret a s.

Definition bind {A B} (m : M S A) (k : A → M S B) : M S B := λ s,
  match m s with
  | Ret a s' => k a s'
  | Panic => Panic
  | Fault => Fault
  | Hang => Hang
  end.

Definition get : M S S := λ s, Ret s s.
Definition put (s' : S) : M S unit := λ _, Ret tt s'.
Definition gets {A} (f : S → A) : M S A := λ s, Ret (f s) s.
Definition modify (f : S → S) : M S unit := λ s, Ret tt (f s).
Definition panic {A} : M S A := λ _, Panic.
Definition fault {A} : M S A := λ _, Fault.
Definition hang {A} : M S A := λ _, Hang.

(** [assert(exp)] of include/log.h. *)
Definition assert_ (b : bool) : M S unit := if b then ret tt else panic.

(** A read through a pointer: [None] is an address with no object. *)
Definition deref {A} (o : option A) : M S A :=
  match o with Some a => ret a | None => fault end.

(** A loop whose body returns the next value of the locals ([inl]) or leaves
    the loop ([inr]). *)
Fixpoint loop {V A} (fuel : nat) (body : V → M S (V + A)) (v : V) : M S A :=
  match fuel with
  | O => hang
  | Datatypes.S n => bind (body v) (λ r,
      match r with inl v' => loop n body v' | inr a => ret a end)
  end.
End monad.

(** Running an operation on a component of a larger state. *)
Definition zoom {S T A} (getc : S → T) (setc : T → S → S) (m : M T A) : M S A := λ s,
  match m (getc s) with
  | Ret a t => Ret a (setc t s)
  | Panic => Panic
  | Fault => Fault
  | Hang => Hang
  end.

Declare Scope kernel_scope.
Delimit Scope kernel_scope with kernel.
Notation "x <- m ;; k" := (bind m (λ x, k))
  (at level 100, m at next level, right associativity) : kernel_scope.
Notation "m1 ;;; m2" := (bind m1 (λ _, m2))
  (at level 100, right associativity) : kernel_scope.
#[global] Open Scope kernel_scope.

(** ** Total weakest preconditions

    [wp m Q s]: run from [s], [m] returns, and the result satisfies [Q]. Panic,
    fault and non-termination are all excluded. *)
Definition wp {S A} (m : M S A) (Q : A → S → Prop) : S → Prop := λ s,
  match m s with Ret a s' => Q a s' | _ => False end.

(** Partial version: the kernel may stop, but if it returns, then [Q]. *)
Definition wlp {S A} (m : M S A) (Q : A → S → Prop) : S → Prop := λ s,
  match m s with Ret a s' => Q a s' | _ => True end.

Create HintDb lanthorn.
Create Rewrite HintDb lanthorn.

Section wp_rules.
Context {S : Type}.
Implicit Types s : S.

Lemma wp_ret {A} (a : A) (Q : A → S → Prop) s : wp (ret a) Q s ↔ Q a s.
Proof. done. Qed.

Lemma wp_bind {A B} (m : M S A) (k : A → M S B) Q s :
  wp (bind m k) Q s ↔ wp m (λ a, wp (k a) Q) s.
Proof. unfold wp, bind. by destruct (m s). Qed.

Lemma wp_mono {A} (m : M S A) (P Q : A → S → Prop) s :
  wp m P s → (∀ a s', P a s' → Q a s') → wp m Q s.
Proof. unfold wp. destruct (m s); naive_solver. Qed.

Lemma wp_get (Q : S → S → Prop) s : wp get Q s ↔ Q s s.
Proof. done. Qed.

Lemma wp_put s' (Q : unit → S → Prop) s : wp (put s') Q s ↔ Q tt s'.
Proof. done. Qed.

Lemma wp_gets {A} (f : S → A) (Q : A → S → Prop) s : wp (gets f) Q s ↔ Q (f s) s.
Proof. done. Qed.

Lemma wp_modify (f : S → S) (Q : unit → S → Prop) s : wp (modify f) Q s ↔ Q tt (f s).
Proof. done. Qed.

Lemma wp_assert (b : bool) (Q : unit → S → Prop) s :
  wp (assert_ b) Q s ↔ b = true ∧ Q tt s.
Proof. destruct b; unfold wp; simpl; naive_solver. Qed.

Lemma wp_deref {A} (o : option A) (Q : A → S → Prop) s :
  wp (deref o) Q s ↔ ∃ a, o = Some a ∧ Q a s.
Proof. destruct o; unfold wp; simpl; naive_solver. Qed.

Lemma wp_if {A} (b : bool) (m1 m2 : M S A) Q s :
  wp (if b then m1 else m2) Q s ↔
  (b = true → wp m1 Q s) ∧ (b = false → wp m2 Q s).
Proof. destruct b; naive_solver. Qed.

Lemma wp_Ret {A} (m : M S A) Q s :
  wp m Q s ↔ ∃ a s', m s = Ret a s' ∧ Q a s'.
Proof. unfold wp. destruct (m s); naive_solver. Qed.

Lemma wp_wlp {A} (m : M S A) Q s : wp m Q s → wlp m Q s.
Proof. unfold wp, wlp. by destruct (m s). Qed.

Lemma wlp_ret {A} (a : A) (Q : A → S → Prop) s : wlp (ret a) Q s ↔ Q a s.
Proof. done. Qed.

Lemma wlp_bind {A B} (m : M S A) (k : A → M S B) Q s :
  wlp (bind m k) Q s ↔ wlp m (λ a, wlp (k a) Q) s.
Proof. unfold wlp, bind. by destruct (m s). Qed.

(** One step of known result, in either logic. *)
Lemma wlp_step {A B} (m : M S A) (k : A → M S B) Q s a s' :
  m s = Ret a s' → wlp (k a) Q s' → wlp (bind m k) Q s.
Proof. intros Hm. unfold wlp, bind. by rewrite Hm. Qed.
Lemma wp_step {A B} (m : M S A) (k : A → M S B) Q s a s' :
  m s = Ret a s' → wp (k a) Q s' → wp (bind m k) Q s.
Proof. intros Hm. unfold wp, bind. by rewrite Hm. Qed.

Lemma wlp_mono {A} (m : M S A) (P Q : A → S → Prop) s :
  wlp m P s → (∀ a s', P a s' → Q a s') → wlp m Q s.
Proof. unfold wlp. destruct (m s); naive_solver. Qed.

Lemma wlp_always {A} (m : M S A) (Q : A → S → Prop) s : (∀ a s', Q a s') → wlp m Q s.
Proof. unfold wlp. destruct (m s); auto. Qed.

(** Code that does not change the state. *)
Definition read_only {A} (m : M S A) : Prop := ∀ s, wlp m (λ _ s', s' = s) s.

Lemma ro_ret {A} (a : A) : read_only (ret a).
Proof. done. Qed.
Lemma ro_hang {A} : read_only (@hang S A).
Proof. done. Qed.
Lemma ro_panic {A} : read_only (@panic S A).
Proof. done. Qed.
Lemma ro_fault {A} : read_only (@fault S A).
Proof. done. Qed.
Lemma ro_get : read_only (@get S).
Proof. done. Qed.
Lemma ro_gets {A} (f : S → A) : read_only (gets f).
Proof. done. Qed.
Lemma ro_assert b : read_only (@assert_ S b).
Proof. by destruct b. Qed.
Lemma ro_deref {A} (o : option A) : read_only (@deref S A o).
Proof. by destruct o. Qed.
Lemma ro_bind {A B} (m : M S A) (k : A → M S B) :
  read_only m → (∀ a, read_only (k a)) → read_only (bind m k).
Proof.
  intros Hm Hk s. apply wlp_bind. eapply wlp_mono; [apply Hm|]. intros a s' ->. apply Hk.
Qed.
Lemma ro_loop {V A} fuel (body : V → M S (V + A)) v :
  (∀ v, read_only (body v)) → read_only (loop fuel body v).
Proof.
  intros Hb. revert v. induction fuel as [|n IH]; intros v; [done|]. simpl.
  apply ro_bind; [apply Hb|]. intros [v'|a]; [apply IH|apply ro_ret].
Qed.

(** The loop rule: an invariant indexed by a variant that the body decreases;
    fuel above the variant is enough, so the loop terminates. *)
Lemma wp_loop {V A} (I : nat → V → S → Prop) (Q : A → S → Prop)
    (body : V → M S (V + A)) :
  (∀ n v s, I n v s →
     wp (body v) (λ r s', match r with
                          | inl v' => ∃ m, (m < n)%nat ∧ I m v' s'
                          | inr a => Q a s'
                          end) s) →
  ∀ fuel n v s, (n < fuel)%nat → I n v s → wp (loop fuel body v) Q s.
Proof.
  intros Hbody fuel. induction fuel as [|fuel IH]; intros n v s Hlt HI; [lia|].
  cbn [loop]. apply wp_bind. eapply wp_mono; [by apply (Hbody n)|].
  intros [v'|a] s' Hr; simpl in *; [|done].
  destruct Hr as (m & Hm & HI'). apply (IH m); [lia|done].
Qed.

Lemma wlp_zoom {T A} (getc : S → T) (setc : T → S → S) (m : M T A) Q s :
  wlp (zoom getc setc m) Q s ↔ wlp m (λ a t, Q a (setc t s)) (getc s).
Proof. unfold wlp, zoom. by destruct (m (getc s)). Qed.

Lemma wp_zoom {T A} (getc : S → T) (setc : T → S → S) (m : M T A) Q s :
  wp (zoom getc setc m) Q s ↔ wp m (λ a t, Q a (setc t s)) (getc s).
Proof. unfold wp, zoom. by destruct (m (getc s)). Qed.
End wp_rules.

(** ** With the cause of a stop: [wpp C m Q s]: run from [s], [m] returns and the result
    satisfies [Q], or panics and [C] holds; it never faults and always ends. *)
Definition wpp {S A} (C : Prop) (m : M S A) (Q : A → S → Prop) : S → Prop := λ s,
  match m s with Ret a s' => Q a s' | Panic => C | _ => False end.

Section wpp_rules.
Context {S : Type} (C : Prop).
Implicit Types s : S.

Lemma wpp_wlp {A} (m : M S A) Q s : wpp C m Q s → wlp m Q s.
Proof. unfold wpp, wlp. by destruct (m s). Qed.
Lemma wp_wpp {A} (m : M S A) Q s : wp m Q s → wpp C m Q s.
Proof. unfold wpp, wp. by destruct (m s). Qed.
Lemma wpp_bind {A B} (m : M S A) (k : A → M S B) Q s :
  wpp C (bind m k) Q s ↔ wpp C m (λ a, wpp C (k a) Q) s.
Proof. unfold wpp, bind. by destruct (m s). Qed.
Lemma wpp_mono {A} (m : M S A) (P Q : A → S → Prop) s :
  wpp C m P s → (∀ a s', P a s' → Q a s') → wpp C m Q s.
Proof. unfold wpp. destruct (m s); naive_solver. Qed.
Lemma wpp_mono' {A} (D : Prop) (m : M S A) (P Q : A → S → Prop) s :
  wpp D m P s → (D → C) → (∀ a s', P a s' → Q a s') → wpp C m Q s.
Proof. unfold wpp. destruct (m s); naive_solver. Qed.
Lemma wpp_step {A B} (m : M S A) (k : A → M S B) Q s a s' :
  m s = Ret a s' → wpp C (k a) Q s' → wpp C (bind m k) Q s.
Proof. intros Hm. unfold wpp, bind. by rewrite Hm. Qed.
Lemma wpp_assert (b : bool) (Q : unit → S → Prop) s :
  (b = true → Q tt s) → (b = false → C) → wpp C (assert_ b) Q s.
Proof. destruct b; unfold wpp; simpl; naive_solver. Qed.
Lemma wpp_loop {V A} (I : nat → V → S → Prop) (Q : A → S → Prop) (body : V → M S (V + A)) :
  (∀ n v s, I n v s →
     wpp C (body v) (λ r s', match r with
                             | inl v' => ∃ m, (m < n)%nat ∧ I m v' s'
                             | inr a => Q a s'
                             end) s) →
  ∀ fuel n v s, (n < fuel)%nat → I n v s → wpp C (loop fuel body v) Q s.
Proof.
  intros Hbody fuel. induction fuel as [|fuel IH]; intros n v s Hlt HI; [lia|].
  cbn [loop]. apply wpp_bind. eapply wpp_mono; [by apply (Hbody n)|].
  intros [v'|a] s' Hr; simpl in *; [|done].
  destruct Hr as (m & Hm & HI'). apply (IH m); [lia|done].
Qed.
End wpp_rules.

Lemma ro_zoom {S T A} (getc : S → T) setc (m : M T A) :
  (∀ s, setc (getc s) s = s) → read_only m → read_only (zoom getc setc m).
Proof.
  intros Hs Hm s. specialize (Hm (getc s)). unfold wlp, zoom in *.
  destruct (m (getc s)); naive_solver.
Qed.

#[export] Hint Resolve ro_ret ro_panic ro_fault ro_get ro_gets ro_assert ro_deref ro_bind
  ro_loop ro_zoom : lanthorn.

(** Case analysis on a read-only program. *)
Ltac ro_solve :=
  repeat (first [apply ro_bind; [|intros]|apply ro_ret|apply ro_panic|apply ro_fault|apply ro_get
    |apply ro_gets|apply ro_assert|apply ro_deref|apply ro_loop; intros|case_match]).

(** A computation that is proved to return, as a function. *)
Definition run_proved {S A} {m : M S A} {Q : A → S → Prop} {s} (H : wp m Q s) : { r : A * S | Q (fst r) (snd r) } :=
  match m s as o return match o with Ret a s' => Q a s' | _ => False end → { r : A * S | Q (fst r) (snd r) } with
  | Ret a s' => λ H, exist _ (a, s') H
  | Panic | Fault | Hang => λ H, False_rect _ H
  end H.

Lemma run_proved_run {S A} {m : M S A} {Q : A → S → Prop} {s} (H : wp m Q s) :
  m s = Ret (fst (proj1_sig (run_proved H))) (snd (proj1_sig (run_proved H))).
Proof. revert H. unfold run_proved, wp. by destruct (m s). Qed.

(** One step of a computation whose first part is known. *)
Lemma run_bind {S B C} (m : M S B) (k : B → M S C) s a s' : m s = Ret a s' → bind m k s = k a s'.
Proof. intros Hm. unfold bind. by rewrite Hm. Qed.
Lemma run_panic {S B C} (m : M S B) (k : B → M S C) s : m s = Panic → bind m k s = Panic.
Proof. intros Hm. unfold bind. by rewrite Hm. Qed.
Lemma bind_ret_r {S A} (m : M S A) s : bind m ret s = m s.
Proof. unfold bind, ret. by destruct (m s). Qed.

Lemma wp_bind_ret {S A} (m : M S A) Q s : wp (bind m ret) Q s ↔ wp m Q s.
Proof. unfold wp. by rewrite bind_ret_r. Qed.

#[export] Hint Rewrite @wp_ret @wp_bind @wp_get @wp_put @wp_gets @wp_modify
  @wp_assert @wp_deref @wp_zoom : lanthorn.

(** Symbolic execution of straight-line code. *)
Ltac wp_simp := repeat (progress (autorewrite with lanthorn in *; cbn beta iota in *)).

(** ** 32-bit machine arithmetic *)
Definition W32 : Z := 2 ^ 32.
Definition u32 (x : Z) : Z := x mod W32.
Definition add32 (a b : Z) : Z := u32 (a + b).
Definition sub32 (a b : Z) : Z := u32 (a - b).
Definition mul32 (a b : Z) : Z := u32 (a * b).
(** A 32-bit pattern read as [int]. *)
Definition s32 (x : Z) : Z := if u32 x <? 2 ^ 31 then u32 x else u32 x - W32.
Definition is_u32 (x : Z) : Prop := 0 ≤ x < W32.

Lemma u32_range x : is_u32 (u32 x).
Proof. unfold is_u32, u32, W32. apply Z.mod_pos_bound. lia. Qed.

Lemma u32_small x : is_u32 x → u32 x = x.
Proof. unfold is_u32, u32. apply Z.mod_small. Qed.

Lemma u32_idem x : u32 (u32 x) = u32 x.
Proof. apply u32_small, u32_range. Qed.

Lemma s32_small x : - 2 ^ 31 ≤ x < 2 ^ 31 → s32 x = x.
Proof.
  intros H. unfold s32, u32, W32. destruct (decide (0 ≤ x)).
  - rewrite Z.mod_small by lia. case_match; lia.
  - replace (x mod 2 ^ 32) with (x + 2 ^ 32).
    + case_match; lia.
    + symmetry. rewrite <- (Z_mod_plus_full x 1). apply Z.mod_small. lia.
Qed.

#[export] Hint Resolve u32_range : lanthorn.

(** ** Lists *)
Lemma NoDup_perm {A} (l1 l2 : list A) : l1 ≡ₚ l2 → NoDup l2 → NoDup l1.
Proof. by intros ->. Qed.

Lemma app_mid_inj {A} (l1 l2 l1' l2' : list A) a :
  NoDup (l1 ++ a :: l2) → l1 ++ a :: l2 = l1' ++ a :: l2' → l1 = l1' ∧ l2 = l2'.
Proof.
  revert l1'. induction l1 as [|x l1 IH]; intros [|y l1'] Hnd Heq; simplify_eq/=; [done|..].
  - apply NoDup_cons in Hnd as [Hn _]. set_solver.
  - apply NoDup_cons in Hnd as [Hn _]. set_solver.
  - apply NoDup_cons in Hnd as [_ Hnd]. destruct (IH l1' Hnd); naive_solver.
Qed.

(** Splitting [NoDup] hypotheses and non-memberships. *)
Ltac nodup_norm := repeat match goal with
  | H : NoDup (_ ++ _) |- _ => apply NoDup_app in H as (? & ? & ?)
  | H : NoDup (_ :: _) |- _ => apply NoDup_cons in H as [? ?]
  | H : _ ∉ _ ++ _ |- _ => apply not_elem_of_app in H as [? ?]
  | H : _ ∉ _ :: _ |- _ => apply not_elem_of_cons in H as [? ?]
  end.

(** ** Error codes (include/error.h) *)
Definition E_OK : Z := 0.
Definition E_NOMEM : Z := 1.
Definition E_FAULT : Z := 2.
Definition E_NOSLOT : Z := 3.
Definition E_NOCACHE : Z := 4.
Definition E_INVAL : Z := 5.
Definition E_AGAIN : Z := 6.
Definition E_NOTFOUND : Z := 7.
Definition E_EXIST : Z := 8.
Definition E_FAILE : Z := 9.
Definition E_NOMSG : Z := 10.
Definition E_BLOCK : Z := 11.
Definition E_TOOLONG : Z := 12.
Definition E_TOOBIG : Z := 13.
Definition E_MAX : Z := 14.
