(* ===== verification/RbtModel.v ===== *)
(** * Red-black trees (include/rbt.h, lib/rbt.c): the C code

    A heap of [rbt_node_t] structures keyed by their address, and the root
    pointer. NULL is the address 0 and never holds a structure. Every function
    is the C function of the same name, pointer write by pointer write. The
    augmenting functions take the callback [func] as an argument, as in C, and
    run on any state that holds a node heap. *)
From S2P Require Import Prelude.

Definition NULL : Z := 0.

Inductive color := RED | BLACK.

#[export] Instance color_eq_dec : EqDecision color.
Proof. solve_decision. Defined.

Definition is_red (c : color) : bool := match c with RED => true | BLACK => false end.

Record rbt_node := RbtNode { n_color : color; n_f : Z; n_l : Z; n_r : Z }.

Abbreviation nodes := (gmap Z rbt_node).

Record rbt := Rbt { rbt_root : Z; rbt_nodes : nodes }.

(** ** Field access through a pointer *)
Section fields.
Definition rd (p : Z) : M rbt rbt_node :=
  s <- get ;; deref (rbt_nodes s !! p).
Definition wr (p : Z) (n : rbt_node) : M rbt unit :=
  modify (λ s, Rbt (rbt_root s) (<[p := n]> (rbt_nodes s))).
Definition get_color (p : Z) : M rbt color := n <- rd p ;; ret (n_color n).
Definition get_f (p : Z) : M rbt Z := n <- rd p ;; ret (n_f n).
Definition get_l (p : Z) : M rbt Z := n <- rd p ;; ret (n_l n).
Definition get_r (p : Z) : M rbt Z := n <- rd p ;; ret (n_r n).
Definition set_color (p : Z) (c : color) : M rbt unit :=
  n <- rd p ;; wr p (RbtNode c (n_f n) (n_l n) (n_r n)).
Definition set_f (p q : Z) : M rbt unit :=
  n <- rd p ;; wr p (RbtNode (n_color n) q (n_l n) (n_r n)).
Definition set_l (p q : Z) : M rbt unit :=
  n <- rd p ;; wr p (RbtNode (n_color n) (n_f n) q (n_r n)).
Definition set_r (p q : Z) : M rbt unit :=
  n <- rd p ;; wr p (RbtNode (n_color n) (n_f n) (n_l n) q).
Definition get_root : M rbt Z := gets rbt_root.
Definition set_root (q : Z) : M rbt unit := modify (λ s, Rbt q (rbt_nodes s)).
End fields.

(** [node && node->color == RED] *)
Definition red_ptr (p : Z) : M rbt bool :=
  if p =? NULL then ret false else c <- get_color p ;; ret (is_red c).

(** [!node || node->color == BLACK] *)
Definition black_ptr (p : Z) : M rbt bool := b <- red_ptr p ;; ret (negb b).

(** The parameter [struct rbt_node_t **link]: which pointer it points to. *)
Inductive link := LinkRoot | LinkL (p : Z) | LinkR (p : Z).

Definition link_read (k : link) : M rbt Z :=
  match k with
  | LinkRoot => get_root
  | LinkL p => get_l p
  | LinkR p => get_r p
  end.

Definition link_write (k : link) (q : Z) : M rbt unit :=
  match k with
  | LinkRoot => set_root q
  | LinkL p => set_l p q
  | LinkR p => set_r p q
  end.

Definition rb_link_node (node parent : Z) (k : link) : M rbt unit :=
  set_f node parent ;;;
  set_r node NULL ;;; set_l node NULL ;;;
  link_write k node.

(** Fuel of a loop that walks the heap: one more than the number of nodes. *)
Definition heap_fuel : M rbt nat := gets (λ s, S (size (rbt_nodes s))).

(** ** lib/rbt.c *)

Definition rotate_left (node : Z) : M rbt unit :=
  r <- get_r node ;;
  f <- get_f node ;;
  rl <- get_l r ;;
  set_r node rl ;;;
  (if rl =? NULL then ret tt else rl' <- get_l r ;; set_f rl' node) ;;;
  set_f node r ;;;
  set_f r f ;;;
  set_l r node ;;;
  (if f =? NULL then set_root r
   else fl <- get_l f ;;
        if node =? fl then set_l f r else set_r f r).

Definition rotate_right (node : Z) : M rbt unit :=
  l <- get_l node ;;
  f <- get_f node ;;
  lr <- get_r l ;;
  set_l node lr ;;;
  (if lr =? NULL then ret tt else lr' <- get_r l ;; set_f lr' node) ;;;
  set_f node l ;;;
  set_f l f ;;;
  set_r l node ;;;
  (if f =? NULL then set_root l
   else fl <- get_l f ;;
        if node =? fl then set_l f l else set_r f l).

Definition rbt_init : M rbt unit := set_root NULL.

(** One turn of the [while] of [rbt_insert_color], the test included. *)
Definition insert_color_body (node : Z) : M rbt (Z + unit) :=
  f <- get_f node ;;
  b <- red_ptr f ;;
  if negb b then ret (inr tt) else
  g <- get_f f ;;
  gl <- get_l g ;;
  if f =? gl then
    u <- get_r g ;;
    ub <- red_ptr u ;;
    if ub then
      set_color u BLACK ;;; set_color f BLACK ;;; set_color g RED ;;;
      ret (inl g)
    else
      fr <- get_r f ;;
      p <- (if fr =? node then rotate_left f ;;; ret (node, f) else ret (f, node)) ;;
      set_color (fst p) BLACK ;;;
      set_color g RED ;;;
      rotate_right g ;;;
      ret (inl (snd p))
  else
    u <- get_l g ;;
    ub <- red_ptr u ;;
    if ub then
      set_color u BLACK ;;; set_color f BLACK ;;; set_color g RED ;;;
      ret (inl g)
    else
      fl <- get_l f ;;
      p <- (if fl =? node then rotate_right f ;;; ret (node, f) else ret (f, node)) ;;
      set_color (fst p) BLACK ;;;
      set_color g RED ;;;
      rotate_left g ;;;
      ret (inl (snd p)).

Definition rbt_insert_color (node : Z) : M rbt unit :=
  set_color node RED ;;;
  fuel <- heap_fuel ;;
  loop fuel insert_color_body node ;;;
  root <- get_root ;;
  set_color root BLACK.

(** The second half of a turn of the [while] of [rbt_delete_color], when [node] is
    the left child and its sibling [other] is black: both nephews black, or a
    terminal rotation. *)
Definition delete_black_l (parent other : Z) : M rbt (Z * Z + Z) :=
  ol <- get_l other ;; lb <- black_ptr ol ;;
  or <- get_r other ;; rb <- black_ptr or ;;
  if lb && rb then
    set_color other RED ;;;
    f <- get_f parent ;;
    ret (inl (parent, f))
  else
    other <- (if rb then
                ol <- get_l other ;;
                set_color ol BLACK ;;; set_color other RED ;;;
                rotate_right other ;;; get_r parent
              else ret other) ;;
    pc <- get_color parent ;;
    set_color other pc ;;;
    set_color parent BLACK ;;;
    or <- get_r other ;;
    set_color or BLACK ;;;
    rotate_left parent ;;;
    root <- get_root ;;
    ret (inr root).

(** The mirror image, [node] being the right child. *)
Definition delete_black_r (parent other : Z) : M rbt (Z * Z + Z) :=
  ol <- get_l other ;; lb <- black_ptr ol ;;
  or <- get_r other ;; rb <- black_ptr or ;;
  if lb && rb then
    set_color other RED ;;;
    f <- get_f parent ;;
    ret (inl (parent, f))
  else
    other <- (if lb then
                or <- get_r other ;;
                set_color or BLACK ;;; set_color other RED ;;;
                rotate_left other ;;; get_l parent
              else ret other) ;;
    pc <- get_color parent ;;
    set_color other pc ;;;
    set_color parent BLACK ;;;
    ol <- get_l other ;;
    set_color ol BLACK ;;;
    rotate_right parent ;;;
    root <- get_root ;;
    ret (inr root).

(** One turn of the [while] of [rbt_delete_color]; the locals are
    [(node, parent)]. A red sibling is first rotated away. *)
Definition delete_color_body (np : Z * Z) : M rbt (Z * Z + Z) :=
  let '(node, parent) := np in
  nb <- black_ptr node ;;
  root <- get_root ;;
  if negb (nb && negb (node =? root)) then ret (inr node) else
  pl <- get_l parent ;;
  if pl =? node then
    other <- get_r parent ;;
    oc <- get_color other ;;
    other <- (if is_red oc then
                set_color other BLACK ;;; set_color parent RED ;;;
                rotate_left parent ;;; get_r parent
              else ret other) ;;
    delete_black_l parent other
  else
    other <- get_l parent ;;
    oc <- get_color other ;;
    other <- (if is_red oc then
                set_color other BLACK ;;; set_color parent RED ;;;
                rotate_right parent ;;; get_l parent
              else ret other) ;;
    delete_black_r parent other.

Definition rbt_delete_color (node parent : Z) : M rbt unit :=
  fuel <- heap_fuel ;;
  node <- loop fuel delete_color_body (node, parent) ;;
  if node =? NULL then ret tt else set_color node BLACK.

(** [while (node->l) node = node->l;] and its mirror image. *)
Definition leftmost_body (node : Z) : M rbt (Z + Z) :=
  l <- get_l node ;; ret (if l =? NULL then inr node else inl l).
Definition rightmost_body (node : Z) : M rbt (Z + Z) :=
  r <- get_r node ;; ret (if r =? NULL then inr node else inl r).

(** [while ((parent = node->f) && node == parent->r) node = parent;] returns
    [parent]. *)
Definition climb_r_body (node : Z) : M rbt (Z + Z) :=
  parent <- get_f node ;;
  if parent =? NULL then ret (inr parent) else
  r <- get_r parent ;; ret (if node =? r then inl parent else inr parent).
Definition climb_l_body (node : Z) : M rbt (Z + Z) :=
  parent <- get_f node ;;
  if parent =? NULL then ret (inr parent) else
  l <- get_l parent ;; ret (if node =? l then inl parent else inr parent).

Definition rbt_next (node : Z) : M rbt Z :=
  fuel <- heap_fuel ;;
  r <- get_r node ;;
  if r =? NULL then loop fuel climb_r_body node else loop fuel leftmost_body r.

Definition rbt_prev (node : Z) : M rbt Z :=
  fuel <- heap_fuel ;;
  l <- get_l node ;;
  if l =? NULL then loop fuel climb_l_body node else loop fuel rightmost_body l.

(** [rbt_delete], the path of a node with two children, up to [goto color];
    the result is [(color, s, f)]. *)
Definition delete_two (old : Z) : M rbt (color * Z * Z) :=
  fuel <- heap_fuel ;;
  r <- get_r old ;;
  node <- loop fuel leftmost_body r ;;
  oldf <- get_f old ;;
  (if oldf =? NULL then set_root node
   else oldfl <- get_l oldf ;;
        if oldfl =? old then set_l oldf node else set_r oldf node) ;;;
  s <- get_r node ;;
  f <- get_f node ;;
  color <- get_color node ;;
  f <- (if f =? old then ret node
        else
          (if s =? NULL then ret tt else set_f s f) ;;;
          set_l f s ;;;
          oldr <- get_r old ;; set_r node oldr ;;;
          oldr <- get_r old ;; set_f oldr node ;;;
          ret f) ;;
  oldf <- get_f old ;; set_f node oldf ;;;
  oldc <- get_color old ;; set_color node oldc ;;;
  oldl <- get_l old ;; set_l node oldl ;;;
  oldl <- get_l old ;; set_f oldl node ;;;
  ret (color, s, f).

(** The path of a node with at most one child [s]. *)
Definition delete_one (node s : Z) : M rbt (color * Z * Z) :=
  f <- get_f node ;;
  color <- get_color node ;;
  (if s =? NULL then ret tt else set_f s f) ;;;
  (if f =? NULL then set_root s
   else fl <- get_l f ;;
        if fl =? node then set_l f s else set_r f s) ;;;
  ret (color, s, f).

Definition rbt_delete (node : Z) : M rbt unit :=
  l <- get_l node ;;
  r <- get_r node ;;
  p <- (if l =? NULL then delete_one node r
        else if r =? NULL then delete_one node l
        else delete_two node) ;;
  let '(color, s, f) := p in
  if is_red color then ret tt else rbt_delete_color s f.

Definition rbt_first : M rbt Z :=
  fuel <- heap_fuel ;;
  res <- get_root ;;
  if res =? NULL then ret res else
  loop fuel (λ res, tmp <- rbt_prev res ;;
                    ret (if tmp =? NULL then inr res else inl tmp)) res.

(** [rbt_rep(rbt, p)]: the addresses the iteration macro visits, in order. *)
Definition rbt_rep_list : M rbt (list Z) :=
  fuel <- heap_fuel ;;
  p <- rbt_first ;;
  loop fuel (λ st : Z * list Z, let '(p, acc) := st in
    if p =? NULL then ret (inr acc)
    else q <- rbt_next p ;; ret (inl (q, acc ++ [p]))) (p, []).

(** ** The augmenting walks, over any state with a node heap *)
Section augment.
Context {S : Type} (on_tree : ∀ A, M rbt A → M S A) (func : Z → M S unit).
#[local] Abbreviation tree := (on_tree _).

Definition rbt_update_body (node : Z) : M S (Z + unit) :=
  func node ;;;
  f <- tree (get_f node) ;;
  if f =? NULL then ret (inr tt) else
  fl <- tree (get_l f) ;;
  fr <- tree (get_r f) ;;
  (if (node =? fl) && negb (fr =? NULL) then func fr
   else if negb (fl =? NULL) then func fl else ret tt) ;;;
  ret (inl f).

Definition rbt_update (node : Z) : M S unit :=
  fuel <- tree heap_fuel ;;
  loop fuel rbt_update_body node.

Definition rbt_insert_update (node : Z) : M S unit :=
  l <- tree (get_l node) ;;
  r <- tree (get_r node) ;;
  rbt_update (if negb (l =? NULL) then l else if negb (r =? NULL) then r else node).

Definition rbt_delete_update_end (node : Z) : M S unit :=
  if node =? NULL then ret tt else rbt_update node.
End augment.

Definition rbt_delete_update_begin (node : Z) : M rbt Z :=
  l <- get_l node ;;
  r <- get_r node ;;
  if (r =? NULL) && (l =? NULL) then get_f node
  else if r =? NULL then ret l
  else if l =? NULL then ret r
  else
    deepest <- rbt_next node ;;
    dr <- get_r deepest ;;
    if negb (dr =? NULL) then ret dr
    else df <- get_f deepest ;;
         if negb (df =? node) then ret df else ret deepest.

(** ** The search loops of the clients

    Every client of the tree (lib/idx_alct.c, kernel/memory/pm.c and vm.c,
    kernel/srv/srv.c, usr/fssrv/file.c) repeats two loops, a descent to the
    place of a new node and a look-up, differing only in how the key of an
    object is compared. [cmp p] is the comparison of the searched key with the
    key of the object at [p]. *)
Section search.
Context (cmp : Z → comparison).

(** [while ( *p) ...] of [_rbt_insert]: the locals are [(parent, p)]; the result
    is the empty link found, or the node that already has the key. *)
Definition descend_body (pk : Z * link) : M rbt (Z * link + (Z * link + Z)) :=
  let '(parent, k) := pk in
  cur <- link_read k ;;
  if cur =? NULL then ret (inr (inl (parent, k))) else
  match cmp cur with
  | Lt => ret (inl (cur, LinkL cur))
  | Gt => ret (inl (cur, LinkR cur))
  | Eq => ret (inr (inr cur))
  end.

Definition descend : M rbt (Z * link + Z) :=
  fuel <- heap_fuel ;;
  loop fuel descend_body (NULL, LinkRoot).

(** [_rbt_insert]: link [node] unless the key is taken ([false]). *)
Definition bst_link (node : Z) : M rbt bool :=
  r <- descend ;;
  match r with
  | inl (parent, k) => rb_link_node node parent k ;;; ret true
  | inr _ => ret false
  end.

(** [rbt_find]: the node with the key. *)
Definition find_body (n : Z) : M rbt (Z + option Z) :=
  if n =? NULL then ret (inr None) else
  match cmp n with
  | Lt => l <- get_l n ;; ret (inl l)
  | Gt => r <- get_r n ;; ret (inl r)
  | Eq => ret (inr (Some n))
  end.

Definition bst_find : M rbt (option Z) :=
  fuel <- heap_fuel ;;
  root <- get_root ;;
  loop fuel find_body root.
End search.
