(* ===== verification/RbtTree.v ===== *)
(** * Red-black trees: the trees a node heap represents

    Functional trees of addresses, their contexts (zippers), the predicate
    that a node heap represents a tree, with the frame of addresses the tree
    code may touch, the red-black invariant, and the specification of one
    pointer write and of the two rotations. *)
From S2P Require Import Prelude RbtModel.

(** ** Trees and contexts *)
Inductive tree := E | T (c : color) (l : tree) (a : Z) (r : tree).

#[export] Instance tree_eq_dec : EqDecision tree.
Proof. solve_decision. Defined.

Fixpoint elems (t : tree) : list Z :=
  match t with E => [] | T _ l a r => elems l ++ a :: elems r end.

Definition addr (t : tree) : Z := match t with E => NULL | T _ _ a _ => a end.

Definition col (t : tree) : color := match t with E => BLACK | T c _ _ _ => c end.

(** One step from a hole to the root: the hole is the left child ([FL]) or the
    right child ([FR]) of [a]. *)
Inductive frame := FL (c : color) (a : Z) (r : tree) | FR (c : color) (l : tree) (a : Z).
Abbreviation ctx := (list frame).

Definition plug1 (fr : frame) (t : tree) : tree :=
  match fr with FL c a r => T c t a r | FR c l a => T c l a t end.
Fixpoint plug (k : ctx) (t : tree) : tree :=
  match k with [] => t | fr :: k => plug k (plug1 fr t) end.
Definition faddr (fr : frame) : Z := match fr with FL _ a _ | FR _ _ a => a end.
Definition fcol (fr : frame) : color := match fr with FL c _ _ | FR c _ _ => c end.
Definition fsib (fr : frame) : tree := match fr with FL _ _ r => r | FR _ l _ => l end.
Definition par (k : ctx) : Z := match k with [] => NULL | fr :: _ => faddr fr end.

(** The addresses of a context, to the left and to the right of the hole. *)
Fixpoint kl (k : ctx) : list Z :=
  match k with
  | [] => []
  | FL _ _ _ :: k => kl k
  | FR _ l a :: k => kl k ++ elems l ++ [a]
  end.
Fixpoint kr (k : ctx) : list Z :=
  match k with
  | [] => []
  | FL _ a r :: k => a :: elems r ++ kr k
  | FR _ _ _ :: k => kr k
  end.
Fixpoint kset (k : ctx) : list Z :=
  match k with [] => [] | fr :: k => faddr fr :: elems (fsib fr) ++ kset k end.

Lemma elems_plug k t : elems (plug k t) = kl k ++ elems t ++ kr k.
Proof.
  revert t. induction k as [|[c a r|c l a] k IH]; intros t; simpl.
  - by rewrite app_nil_r.
  - rewrite IH. simpl. by rewrite <- !(assoc_L (++)).
  - rewrite IH. simpl. by rewrite <- !(assoc_L (++)).
Qed.

Lemma kset_perm k : kset k ≡ₚ kl k ++ kr k.
Proof.
  induction k as [|[c a r|c l a] k IH]; simpl; [done|rewrite IH; solve_Permutation..].
Qed.

Lemma elems_plug_perm k t : elems (plug k t) ≡ₚ elems t ++ kset k.
Proof. rewrite elems_plug, kset_perm. solve_Permutation. Qed.

Lemma plug_app k1 k2 t : plug (k1 ++ k2) t = plug k2 (plug k1 t).
Proof. revert t. induction k1 as [|fr k1 IH]; intros t; simpl; auto. Qed.

Lemma kset_app k1 k2 : kset (k1 ++ k2) = kset k1 ++ kset k2.
Proof. induction k1 as [|fr k1 IH]; simpl; [done|]. by rewrite IH, (assoc_L (++)). Qed.

Lemma kl_app k1 k2 : kl (k1 ++ k2) = kl k2 ++ kl k1.
Proof.
  induction k1 as [|[c a r|c l a] k1 IH]; simpl; [by rewrite app_nil_r|done|].
  by rewrite IH, <- !(assoc_L (++)).
Qed.

Lemma kr_app k1 k2 : kr (k1 ++ k2) = kr k1 ++ kr k2.
Proof.
  induction k1 as [|[c a r|c l a] k1 IH]; simpl; [done| |done].
  by rewrite IH, <- !(assoc_L (++)).
Qed.

(** ** Representation *)
Fixpoint rep (h : nodes) (f : Z) (t : tree) : Prop :=
  match t with
  | E => True
  | T c l a r =>
      h !! a = Some (RbtNode c f (addr l) (addr r)) ∧ rep h a l ∧ rep h a r
  end.

Definition fnode (fr : frame) (f hole : Z) : rbt_node :=
  match fr with
  | FL c _ r => RbtNode c f hole (addr r)
  | FR c l _ => RbtNode c f (addr l) hole
  end.

Fixpoint repk (h : nodes) (root hole : Z) (k : ctx) : Prop :=
  match k with
  | [] => root = hole
  | fr :: k =>
      h !! faddr fr = Some (fnode fr (par k) hole) ∧
      rep h (faddr fr) (fsib fr) ∧ repk h root (faddr fr) k
  end.

Lemma rep_plug h root k t :
  (root = addr (plug k t) ∧ rep h NULL (plug k t)) ↔
  (repk h root (addr t) k ∧ rep h (par k) t).
Proof.
  revert t. induction k as [|[c a r|c l a] k IH]; intros t; simpl; [naive_solver|..];
    rewrite IH; simpl; naive_solver.
Qed.

(** Ownership of a tree inside the heap: [s] represents [t], whose nodes are
    distinct, not NULL and among [X]; outside [X] the heap is still [h0]. *)
Record R (h0 : nodes) (X : list Z) (t : tree) (s : rbt) : Prop := {
  R_root : rbt_root s = addr t;
  R_rep : rep (rbt_nodes s) NULL t;
  R_nodup : NoDup (elems t);
  R_null : NULL ∉ elems t;
  R_sub : elems t ⊆ X;
  R_frame : ∀ x, x ∉ X → rbt_nodes s !! x = h0 !! x;
}.

(** The same, focused on the subtree [t] under the context [k]. *)
Record RZ (h0 : nodes) (X : list Z) (k : ctx) (t : tree) (s : rbt) : Prop := {
  RZ_ctx : repk (rbt_nodes s) (rbt_root s) (addr t) k;
  RZ_rep : rep (rbt_nodes s) (par k) t;
  RZ_nodup : NoDup (elems t ++ kset k);
  RZ_null : NULL ∉ elems t ++ kset k;
  RZ_sub : elems t ++ kset k ⊆ X;
  RZ_frame : ∀ x, x ∉ X → rbt_nodes s !! x = h0 !! x;
}.

Lemma R_RZ h0 X k t s : R h0 X (plug k t) s ↔ RZ h0 X k t s.
Proof.
  pose proof (elems_plug_perm k t) as Hp.
  pose proof (rep_plug (rbt_nodes s) (rbt_root s) k t) as Hr.
  split; intros [H1 H2 H3 H4 H5 H6].
  - destruct (proj1 Hr (conj H1 H2)). split; try done; by rewrite <- Hp.
  - destruct (proj2 Hr (conj H1 H2)). split; try done; by rewrite Hp.
Qed.

(** A tree is represented by at most one root pointer, and reading is free. *)
Lemma rep_ext h h' f t : (∀ x, x ∈ elems t → h' !! x = h !! x) → rep h f t → rep h' f t.
Proof.
  revert f. induction t as [|c l IHl a r IHr]; intros f Hx; simpl; [done|].
  intros (Ha & Hl & Hr). simpl in Hx. split_and!.
  - rewrite Hx; [done|set_solver].
  - apply IHl; [|done]. set_solver.
  - apply IHr; [|done]. set_solver.
Qed.

Lemma rep_insert h f t x n : x ∉ elems t → rep (<[x := n]> h) f t ↔ rep h f t.
Proof.
  intros Hx. split; apply rep_ext; intros y Hy; rewrite lookup_insert_ne; set_solver.
Qed.

Lemma repk_insert h root hole k x n :
  x ∉ kset k → repk (<[x := n]> h) root hole k ↔ repk h root hole k.
Proof.
  revert hole. induction k as [|fr k IH]; intros hole Hx; simpl in *; [done|].
  rewrite not_elem_of_cons, not_elem_of_app in Hx. destruct Hx as (H1 & H2 & H3).
  by rewrite lookup_insert_ne, rep_insert, IH by done.
Qed.

Lemma rep_lookup h f t x : rep h f t → x ∈ elems t → is_Some (h !! x).
Proof.
  revert f. induction t as [|c l IHl a r IHr]; intros f; simpl; [set_solver|].
  intros (Ha & Hl & Hr) Hx.
  rewrite elem_of_app, elem_of_cons in Hx. destruct Hx as [?|[->|?]]; eauto.
Qed.

(** Enough fuel: a tree has at most as many nodes as the heap. *)
Lemma R_size h0 X t s : R h0 X t s → (length (elems t) ≤ size (rbt_nodes s))%nat.
Proof.
  intros [_ Hr Hnd _ _ _].
  rewrite <- (size_list_to_set (C := gset Z)) by done.
  rewrite <- size_dom. apply subseteq_size. intros x Hx.
  rewrite elem_of_list_to_set in Hx. apply elem_of_dom. by eapply rep_lookup.
Qed.

Lemma R_weaken h0 X t s : R h0 X t s → R (rbt_nodes s) (elems t) t s.
Proof. intros []. by split. Qed.
(** A tree only looks at its own nodes. *)
Lemma R_ext N N' t r : (∀ x, x ∈ elems t → N' !! x = N !! x) → R N (elems t) t (Rbt r N) → R N' (elems t) t (Rbt r N').
Proof.
  intros He [H1 H2 H3 H4 H5 H6]. split; [done| |done|done|done|done]. cbn [rbt_nodes] in *. by eapply rep_ext.
Qed.

(** ** Reading and writing one field *)
Section access.
Context {A : Type}.
Implicit Types (s : rbt) (p q : Z) (n : rbt_node) (Q : A → rbt → Prop).

Definition upd s p n : rbt := Rbt (rbt_root s) (<[p := n]> (rbt_nodes s)).

Lemma wp_get_color s p n (k : color → M rbt A) Q :
  rbt_nodes s !! p = Some n → wp (k (n_color n)) Q s → wp (x <- get_color p ;; k x) Q s.
Proof. intros H. unfold wp, bind, get_color, rd, get, bind, deref. by rewrite H. Qed.
Lemma wp_get_f s p n (k : Z → M rbt A) Q :
  rbt_nodes s !! p = Some n → wp (k (n_f n)) Q s → wp (x <- get_f p ;; k x) Q s.
Proof. intros H. unfold wp, bind, get_f, rd, get, bind, deref. by rewrite H. Qed.
Lemma wp_get_l s p n (k : Z → M rbt A) Q :
  rbt_nodes s !! p = Some n → wp (k (n_l n)) Q s → wp (x <- get_l p ;; k x) Q s.
Proof. intros H. unfold wp, bind, get_l, rd, get, bind, deref. by rewrite H. Qed.
Lemma wp_get_r s p n (k : Z → M rbt A) Q :
  rbt_nodes s !! p = Some n → wp (k (n_r n)) Q s → wp (x <- get_r p ;; k x) Q s.
Proof. intros H. unfold wp, bind, get_r, rd, get, bind, deref. by rewrite H. Qed.
Lemma wp_get_root s (k : Z → M rbt A) Q :
  wp (k (rbt_root s)) Q s → wp (x <- get_root ;; k x) Q s.
Proof. done. Qed.
Lemma wp_heap_fuel s (k : nat → M rbt A) Q :
  wp (k (S (size (rbt_nodes s)))) Q s → wp (x <- heap_fuel ;; k x) Q s.
Proof. done. Qed.
Lemma wp_set_root s q (k : unit → M rbt A) Q :
  wp (k tt) Q (Rbt q (rbt_nodes s)) → wp (x <- set_root q ;; k x) Q s.
Proof. done. Qed.

Lemma wp_set_color s p n c (k : unit → M rbt A) Q :
  rbt_nodes s !! p = Some n →
  wp (k tt) Q (upd s p (RbtNode c (n_f n) (n_l n) (n_r n))) →
  wp (x <- set_color p c ;; k x) Q s.
Proof. intros H. unfold wp, set_color, wr, rd, bind, get, deref. by rewrite H. Qed.
Lemma wp_set_f s p n q (k : unit → M rbt A) Q :
  rbt_nodes s !! p = Some n →
  wp (k tt) Q (upd s p (RbtNode (n_color n) q (n_l n) (n_r n))) →
  wp (x <- set_f p q ;; k x) Q s.
Proof. intros H. unfold wp, set_f, wr, rd, bind, get, deref. by rewrite H. Qed.
Lemma wp_set_l s p n q (k : unit → M rbt A) Q :
  rbt_nodes s !! p = Some n →
  wp (k tt) Q (upd s p (RbtNode (n_color n) (n_f n) q (n_r n))) →
  wp (x <- set_l p q ;; k x) Q s.
Proof. intros H. unfold wp, set_l, wr, rd, bind, get, deref. by rewrite H. Qed.
Lemma wp_set_r s p n q (k : unit → M rbt A) Q :
  rbt_nodes s !! p = Some n →
  wp (k tt) Q (upd s p (RbtNode (n_color n) (n_f n) (n_l n) q)) →
  wp (x <- set_r p q ;; k x) Q s.
Proof. intros H. unfold wp, set_r, wr, rd, bind, get, deref. by rewrite H. Qed.
End access.

(** [simpl_lookup] resolves a look-up under insertions at known addresses. *)
Ltac solve_lookup :=
  simpl; repeat first
    [ eassumption
    | rewrite lookup_insert_eq; reflexivity
    | rewrite lookup_insert_ne by congruence ].

Ltac step1 :=
  lazymatch goal with
  | |- wp (bind (get_color _) _) _ _ => eapply wp_get_color; [solve_lookup|]
  | |- wp (bind (get_f _) _) _ _ => eapply wp_get_f; [solve_lookup|]
  | |- wp (bind (get_l _) _) _ _ => eapply wp_get_l; [solve_lookup|]
  | |- wp (bind (get_r _) _) _ _ => eapply wp_get_r; [solve_lookup|]
  | |- wp (bind get_root _) _ _ => apply wp_get_root
  | |- wp (bind heap_fuel _) _ _ => apply wp_heap_fuel
  | |- wp (bind (set_root _) _) _ _ => apply wp_set_root
  | |- wp (bind (set_color _ _) _) _ _ => eapply wp_set_color; [solve_lookup|]
  | |- wp (bind (set_f _ _) _) _ _ => eapply wp_set_f; [solve_lookup|]
  | |- wp (bind (set_l _ _) _) _ _ => eapply wp_set_l; [solve_lookup|]
  | |- wp (bind (set_r _ _) _) _ _ => eapply wp_set_r; [solve_lookup|]
  | |- wp (bind (ret _) _) _ _ => apply wp_bind, wp_ret
  | |- wp (bind (bind _ _) _) _ _ => apply wp_bind; cbn beta
  | |- wp (ret _) _ _ => apply wp_ret
  | |- wp (set_root _) _ _ => apply wp_bind_ret, wp_set_root, wp_ret
  | |- wp (set_color _ _) _ _ => apply wp_bind_ret
  | |- wp (set_f _ _) _ _ => apply wp_bind_ret
  | |- wp (set_l _ _) _ _ => apply wp_bind_ret
  | |- wp (set_r _ _) _ _ => apply wp_bind_ret
  | |- wp (get_f _) _ _ => apply wp_bind_ret
  | |- wp (get_l _) _ _ => apply wp_bind_ret
  | |- wp (get_r _) _ _ => apply wp_bind_ret
  | |- wp (get_color _) _ _ => apply wp_bind_ret
  end; cbn [n_color n_f n_l n_r rbt_root rbt_nodes upd].
