(* ===== verification/RbtRotate.v ===== *)
(** * Red-black trees: rotations and recolouring as tree transformations *)
From S2P Require Import Prelude RbtModel RbtTree.

Lemma par_null k : NULL ∉ kset k → par k = NULL → k = [].
Proof. destruct k as [|fr k]; simpl; [done|]. intros H Heq. set_solver. Qed.

(** The heap after the parent of the focus (or the root pointer) has been
    redirected to [new]. *)
Definition relink (k : ctx) (new : Z) (s : rbt) : rbt :=
  match k with
  | [] => Rbt new (rbt_nodes s)
  | fr :: k' => upd s (faddr fr) (fnode fr (par k') new)
  end.

Lemma repk_relink k s old new :
  NoDup (kset k) → repk (rbt_nodes s) (rbt_root s) old k →
  repk (rbt_nodes (relink k new s)) (rbt_root (relink k new s)) new k.
Proof.
  destruct k as [|fr k]; simpl; [done|]. intros Hnd (H1 & H2 & H3).
  nodup_norm. split_and!.
  - by rewrite lookup_insert_eq.
  - by rewrite rep_insert.
  - by rewrite repk_insert.
Qed.

Lemma rep_relink k s new f t :
  (∀ x, x ∈ kset k → x ∉ elems t) →
  rep (rbt_nodes (relink k new s)) f t ↔ rep (rbt_nodes s) f t.
Proof.
  destruct k as [|fr k]; simpl; [done|]. intros H. apply rep_insert, H. set_solver.
Qed.

Lemma relink_lookup k s new x :
  x ∉ kset k → rbt_nodes (relink k new s) !! x = rbt_nodes s !! x.
Proof.
  destruct k as [|fr k]; simpl; [done|]. intros H. apply lookup_insert_ne. set_solver.
Qed.

(** The tail of both rotations. *)
Lemma wp_relink k s old new Q :
  NULL ∉ kset k → old ≠ NULL → old ∉ kset k →
  repk (rbt_nodes s) (rbt_root s) old k →
  Q tt (relink k new s) →
  wp (if par k =? NULL then set_root new
      else fl <- get_l (par k) ;;
           if old =? fl then set_l (par k) new else set_r (par k) new) Q s.
Proof.
  intros Hnull Hold Hnin Hk HQ. destruct k as [|fr k]; simpl in *; [done|].
  destruct Hk as (H1 & H2 & H3). rewrite not_elem_of_cons in Hnull, Hnin.
  destruct Hnull as [Hn1 Hn2], Hnin as [Hf Hnin].
  replace (faddr fr =? NULL) with false by (symmetry; apply Z.eqb_neq; done).
  destruct fr as [c a r|c l a]; simpl in *; step1.
  - rewrite Z.eqb_refl. step1. step1. done.
  - replace (old =? addr l) with false.
    + step1. step1. done.
    + symmetry. apply Z.eqb_neq. intros ->. destruct l; simpl in *; set_solver.
Qed.

(** The colour of the root of the focus. *)
Lemma set_color_spec h0 X k c c' l a r s :
  R h0 X (plug k (T c l a r)) s →
  wp (set_color a c') (λ _, R h0 X (plug k (T c' l a r))) s.
Proof.
  rewrite R_RZ. intros HZ. pose proof HZ as [Hk Hr Hnd _ Hsub Hfr].
  simpl in Hk, Hr, Hnd, Hsub. destruct Hr as (Ha & Hl & Hr).
  rewrite <- (assoc_L (++)) in Hnd. nodup_norm.
  step1. step1. apply R_RZ. split; simpl.
  - by rewrite repk_insert by set_solver.
  - split_and!; [by rewrite lookup_insert_eq|by rewrite rep_insert by set_solver..].
  - apply (RZ_nodup _ _ _ _ _ HZ).
  - apply (RZ_null _ _ _ _ _ HZ).
  - done.
  - intros x Hx. rewrite lookup_insert_ne; [by apply Hfr|]. set_solver.
Qed.

(** The heap after the parent pointer of the root of [t] has been set. *)
Definition adopt (f : Z) (t : tree) (s : rbt) : rbt :=
  match t with E => s | T c l a r => upd s a (RbtNode c f (addr l) (addr r)) end.

Lemma rep_adopt f f' t s :
  NoDup (elems t) → rep (rbt_nodes s) f t → rep (rbt_nodes (adopt f' t s)) f' t.
Proof.
  destruct t as [|c l a r]; simpl; [done|]. intros Hnd (Ha & Hl & Hr). nodup_norm.
  split_and!; [by rewrite lookup_insert_eq|by rewrite rep_insert by set_solver..].
Qed.

Lemma adopt_lookup f t s x :
  x ∉ elems t → rbt_nodes (adopt f t s) !! x = rbt_nodes s !! x.
Proof. destruct t; simpl; [done|]. intros. apply lookup_insert_ne. set_solver. Qed.

Lemma adopt_root f t s : rbt_root (adopt f t s) = rbt_root s.
Proof. by destruct t. Qed.

Lemma rep_adopt_ne f f' t t' s :
  (∀ x, x ∈ elems t' → x ∉ elems t) →
  rep (rbt_nodes (adopt f' t s)) f t' ↔ rep (rbt_nodes s) f t'.
Proof. destruct t; simpl; [done|]. intros H. apply rep_insert. set_solver. Qed.

Lemma repk_adopt root hole k f t s :
  (∀ x, x ∈ kset k → x ∉ elems t) →
  repk (rbt_nodes (adopt f t s)) root hole k ↔ repk (rbt_nodes s) root hole k.
Proof. destruct t; simpl; [done|]. intros H. apply repk_insert. set_solver. Qed.

Lemma addr_null t : NULL ∉ elems t → addr t = NULL → t = E.
Proof. destruct t; simpl; [done|]. set_solver. Qed.

(** [if (p) p->f = q;] *)
Lemma wp_adopt s f q t Q :
  rep (rbt_nodes s) f t → NULL ∉ elems t → Q tt (adopt q t s) →
  wp (if addr t =? NULL then ret tt else set_f (addr t) q) Q s.
Proof.
  destruct t as [|c l a r]; simpl; [done|]. intros (Ha & _) Hn HQ.
  replace (a =? NULL) with false by (symmetry; apply Z.eqb_neq; set_solver).
  step1. step1. done.
Qed.

(** The same, when [p] is read again from the structure [b] that points to it. *)
Lemma wp_adopt_l s b n f q t Q :
  rbt_nodes s !! b = Some n → n_l n = addr t →
  rep (rbt_nodes s) f t → NULL ∉ elems t → Q tt (adopt q t s) →
  wp (if addr t =? NULL then ret tt else x <- get_l b ;; set_f x q) Q s.
Proof.
  intros Hb Hl Hr Hn HQ. pose proof (wp_adopt s f q t Q Hr Hn HQ) as Hw.
  destruct (addr t =? NULL); [done|]. step1. by rewrite Hl.
Qed.
Lemma wp_adopt_r s b n f q t Q :
  rbt_nodes s !! b = Some n → n_r n = addr t →
  rep (rbt_nodes s) f t → NULL ∉ elems t → Q tt (adopt q t s) →
  wp (if addr t =? NULL then ret tt else x <- get_r b ;; set_f x q) Q s.
Proof.
  intros Hb Hl Hr Hn HQ. pose proof (wp_adopt s f q t Q Hr Hn HQ) as Hw.
  destruct (addr t =? NULL); [done|]. step1. by rewrite Hl.
Qed.

Lemma rotate_left_spec h0 X k c x a c2 y b z s :
  R h0 X (plug k (T c x a (T c2 y b z))) s →
  wp (rotate_left a) (λ _, R h0 X (plug k (T c2 (T c x a y) b z))) s.
Proof.
  rewrite R_RZ. intros HZ. pose proof HZ as [Hk Hr Hnd Hnull Hsub Hfr].
  simpl in Hk, Hr, Hnd, Hnull, Hsub. destruct Hr as (Ha & Hx & Hb & Hy & Hz).
  rewrite <- (assoc_L (++)) in Hnd. simpl in Hnd. rewrite <- (assoc_L (++)) in Hnd.
  simpl in Hnd. nodup_norm.
  assert (a ≠ b) by set_solver. assert (a ∉ elems y) by set_solver.
  assert (b ∉ elems y) by set_solver.
  assert (a ∉ elems x) by set_solver. assert (b ∉ elems x) by set_solver.
  assert (a ∉ elems z) by set_solver. assert (b ∉ elems z) by set_solver.
  assert (a ∉ kset k) by set_solver. assert (b ∉ kset k) by set_solver.
  unfold rotate_left. step1. step1. step1. step1. apply wp_bind.
  eapply wp_adopt_l; simpl; [solve_lookup|done|by rewrite rep_insert|done|].
  set (s1 := adopt _ _ _).
  assert (rbt_nodes s1 !! a = Some (RbtNode c (par k) (addr x) (addr y))).
  { unfold s1. rewrite adopt_lookup by done. by simplify_map_eq. }
  assert (rbt_nodes s1 !! b = Some (RbtNode c2 a (addr y) (addr z))).
  { unfold s1. rewrite adopt_lookup by done. by simplify_map_eq. }
  assert (repk (rbt_nodes s1) (rbt_root s1) a k).
  { unfold s1. rewrite adopt_root, repk_adopt by set_solver. simpl.
    by rewrite repk_insert. }
  assert (∀ x, x ∉ a :: elems y → rbt_nodes s1 !! x = rbt_nodes s !! x) as Hs1.
  { intros v Hv. unfold s1. rewrite adopt_lookup by set_solver.
    apply lookup_insert_ne. set_solver. }
  assert (rep (rbt_nodes s1) a y).
  { unfold s1. eapply rep_adopt; [done|]. simpl. by rewrite rep_insert. }
  step1. step1. step1.
  match goal with |- wp _ _ ?st => set (s2 := st) end.
  assert (repk (rbt_nodes s2) (rbt_root s2) a k) by (simpl; by rewrite !repk_insert).
  assert (∀ x, x ∉ kset k → rbt_nodes (relink k b s2) !! x = rbt_nodes s2 !! x) as Hs2
    by (intros; by apply relink_lookup).
  apply wp_relink; [done|set_solver|done|done|].
  apply R_RZ. split; simpl.
  - by apply repk_relink with (old := a).
  - rewrite !Hs2, !rep_relink by set_solver. simpl.
    rewrite !rep_insert by done. split_and!; [by simplify_map_eq..| |done|].
    + apply (rep_ext (rbt_nodes s)); [|done]. intros. apply Hs1. set_solver.
    + apply (rep_ext (rbt_nodes s)); [|done]. intros. apply Hs1. set_solver.
  - eapply NoDup_perm; [|apply (RZ_nodup _ _ _ _ _ HZ)]. simpl. solve_Permutation.
  - set_solver.
  - set_solver.
  - intros v Hv. rewrite Hs2 by set_solver. simpl.
    rewrite !lookup_insert_ne by set_solver. rewrite Hs1 by set_solver. by apply Hfr.
Qed.

Lemma rotate_right_spec h0 X k c x a c2 y b z s :
  R h0 X (plug k (T c (T c2 z b y) a x)) s →
  wp (rotate_right a) (λ _, R h0 X (plug k (T c2 z b (T c y a x)))) s.
Proof.
  rewrite R_RZ. intros HZ. pose proof HZ as [Hk Hr Hnd Hnull Hsub Hfr].
  simpl in Hk, Hr, Hnd, Hnull, Hsub. destruct Hr as (Ha & (Hb & Hz & Hy) & Hx).
  rewrite <- (assoc_L (++)) in Hnd. simpl in Hnd. rewrite <- (assoc_L (++)) in Hnd.
  simpl in Hnd. nodup_norm.
  assert (a ≠ b) by set_solver. assert (a ∉ elems y) by set_solver.
  assert (b ∉ elems y) by set_solver.
  assert (a ∉ elems x) by set_solver. assert (b ∉ elems x) by set_solver.
  assert (a ∉ elems z) by set_solver. assert (b ∉ elems z) by set_solver.
  assert (a ∉ kset k) by set_solver. assert (b ∉ kset k) by set_solver.
  unfold rotate_right. step1. step1. step1. step1. apply wp_bind.
  eapply wp_adopt_r; simpl; [solve_lookup|done|by rewrite rep_insert|done|].
  set (s1 := adopt _ _ _).
  assert (rbt_nodes s1 !! a = Some (RbtNode c (par k) (addr y) (addr x))).
  { unfold s1. rewrite adopt_lookup by done. by simplify_map_eq. }
  assert (rbt_nodes s1 !! b = Some (RbtNode c2 a (addr z) (addr y))).
  { unfold s1. rewrite adopt_lookup by done. by simplify_map_eq. }
  assert (repk (rbt_nodes s1) (rbt_root s1) a k).
  { unfold s1. rewrite adopt_root, repk_adopt by set_solver. simpl.
    by rewrite repk_insert. }
  assert (∀ x, x ∉ a :: elems y → rbt_nodes s1 !! x = rbt_nodes s !! x) as Hs1.
  { intros v Hv. unfold s1. rewrite adopt_lookup by set_solver.
    apply lookup_insert_ne. set_solver. }
  assert (rep (rbt_nodes s1) a y).
  { unfold s1. eapply rep_adopt; [done|]. simpl. by rewrite rep_insert. }
  step1. step1. step1.
  match goal with |- wp _ _ ?st => set (s2 := st) end.
  assert (repk (rbt_nodes s2) (rbt_root s2) a k) by (simpl; by rewrite !repk_insert).
  assert (∀ x, x ∉ kset k → rbt_nodes (relink k b s2) !! x = rbt_nodes s2 !! x) as Hs2
    by (intros; by apply relink_lookup).
  apply wp_relink; [done|set_solver|done|done|].
  apply R_RZ. split; simpl.
  - by apply repk_relink with (old := a).
  - rewrite !Hs2, !rep_relink by set_solver. simpl.
    rewrite !rep_insert by done. split_and!;  [by simplify_map_eq| |by simplify_map_eq|done|].
    + apply (rep_ext (rbt_nodes s)); [|done]. intros. apply Hs1. set_solver.
    + apply (rep_ext (rbt_nodes s)); [|done]. intros. apply Hs1. set_solver.
  - eapply NoDup_perm; [|apply (RZ_nodup _ _ _ _ _ HZ)]. simpl. solve_Permutation.
  - set_solver.
  - set_solver.
  - intros v Hv. rewrite Hs2 by set_solver. simpl.
    rewrite !lookup_insert_ne by set_solver. rewrite Hs1 by set_solver. by apply Hfr.
Qed.
