(* ===== verification/RbtInsert.v ===== *)
(** * Red-black trees: the colour invariant and insertion

    [rbt_insert_color] run on a heap in which a red leaf has just been linked
    rebalances it: the heap again represents a red-black tree, with the same
    nodes in the same order. *)
From S2P Require Import Prelude RbtModel RbtTree RbtRotate.

(** ** The red-black invariant, with the black height *)
Inductive rb : tree → nat → Prop :=
  | rb_E : rb E 0
  | rb_R l a r n :
      rb l n → rb r n → col l = BLACK → col r = BLACK → rb (T RED l a r) n
  | rb_B l a r n : rb l n → rb r n → rb (T BLACK l a r) (S n).

(** A context that completes a subtree of black height [n] into a red-black
    tree; the index says whether the subtree may have a red root. *)
Inductive rbk : ctx → bool → nat → Prop :=
  | rbk_nil n : rbk [] false n
  | rbk_R fr k n :
      fcol fr = RED → rb (fsib fr) n → col (fsib fr) = BLACK → rbk k true n →
      rbk (fr :: k) false n
  | rbk_B fr k b n :
      fcol fr = BLACK → rb (fsib fr) n → rbk k b (S n) → rbk (fr :: k) true n.

Definition rbtree (t : tree) : Prop := col t = BLACK ∧ ∃ n, rb t n.

#[export] Hint Constructors rb rbk : lanthorn.

Lemma rbk_plug k b n t :
  rbk k b n → rb t n → (b = false → col t = BLACK) → rbtree (plug k t).
Proof.
  intros Hk. revert t. induction Hk as [n|fr k n Hc Hs Hcs Hk IH|fr k b n Hc Hs Hk IH];
    intros t Ht Hcol; simpl.
  - split; [by apply Hcol|eauto].
  - apply IH; [|done]. destruct fr; simplify_eq/=; auto with lanthorn.
  - apply IH; [|by destruct fr; simplify_eq/=].
    destruct fr; simplify_eq/=; auto with lanthorn.
Qed.

(** A red-black tree around any subtree is a context around it. *)
Lemma rbk_of_plug k t m : rb (plug k t) m → col (plug k t) = BLACK →
  ∃ b n, rbk k b n ∧ rb t n ∧ (b = false → col t = BLACK).
Proof.
  revert t. induction k as [|fr k IH]; intros t Hm Hcol; simpl in *.
  - eauto 6 with lanthorn.
  - destruct (IH _ Hm Hcol) as (b & n & Hk & Hrb & Hb). clear IH.
    assert (fcol fr = RED → b = true) as Hb'.
    { intros Hf. destruct b; [done|]. specialize (Hb eq_refl).
      destruct fr; simplify_eq/=. }
    destruct fr as [c a r|c l a]; inversion Hrb; subst; simpl in *.
    1,3: rewrite Hb' in Hk by done; exists false, n; split_and!;
      [by apply rbk_R|done|done].
    all: exists true; eexists; split_and!; [by eapply rbk_B|done|done].
Qed.

(** ** Reading around the focus *)
Lemma R_focus h0 X k c l a r s :
  R h0 X (plug k (T c l a r)) s →
  rbt_nodes s !! a = Some (RbtNode c (par k) (addr l) (addr r)).
Proof. rewrite R_RZ. by intros [_ [? _] _ _ _ _]. Qed.

Lemma R_notin h0 X k t s x :
  R h0 X (plug k t) s → x ∈ elems t → (x ∉ kset k) ∧ (x ≠ NULL).
Proof. rewrite R_RZ. intros [_ _ Hnd Hnull _ _] Hx. nodup_norm. set_solver. Qed.

Lemma R_sib_ne h0 X fr k t s :
  R h0 X (plug (fr :: k) t) s → t ≠ E → addr (fsib fr) ≠ addr t.
Proof.
  intros HR Ht. destruct t as [|c l a r]; [done|]. simpl (addr (T _ _ _ _)).
  destruct (R_notin _ _ _ _ _ a HR) as [H1 H2]; [simpl; set_solver|].
  intros Heq. simpl in H1.
  destruct (fsib fr); simpl in *; [by subst|set_solver].
Qed.

Lemma R_par_ne h0 X fr k t s : R h0 X (plug (fr :: k) t) s → faddr fr ≠ NULL.
Proof. rewrite R_RZ. intros [_ _ _ Hnull _ _]. simpl in *. set_solver. Qed.

Lemma R_addr_null h0 X k t s : R h0 X (plug k t) s → addr t = NULL → t = E.
Proof. rewrite R_RZ. intros [_ _ _ Hnull _ _]. apply addr_null. set_solver. Qed.

Lemma wp_red_ptr {A} h0 X k t s (m : bool → M rbt A) Q :
  R h0 X (plug k t) s → wp (m (is_red (col t))) Q s →
  wp (x <- red_ptr (addr t) ;; m x) Q s.
Proof.
  intros HR HQ. destruct t as [|c l a r]; simpl; [done|].
  unfold red_ptr. destruct (R_notin _ _ _ _ _ a HR) as [_ Hn]; [simpl; set_solver|].
  replace (a =? NULL) with false by (symmetry; by apply Z.eqb_neq).
  apply R_focus in HR. step1. step1. done.
Qed.

Lemma wp_black_ptr {A} h0 X k t s (m : bool → M rbt A) Q :
  R h0 X (plug k t) s → wp (m (negb (is_red (col t)))) Q s →
  wp (x <- black_ptr (addr t) ;; m x) Q s.
Proof.
  intros HR HQ. unfold black_ptr. apply wp_bind. eapply wp_red_ptr; [done|].
  by apply wp_ret.
Qed.

(** Run a specified operation; name the resulting representation [H]. *)
Ltac wp_use lem s' H :=
  apply wp_bind; eapply wp_mono; [eapply lem; eassumption|];
  intros [] s' H; cbv beta in H.

Ltac elems_eq := rewrite ?elems_plug; simpl; repeat (rewrite <- app_assoc; simpl); reflexivity.

Lemma eqb_ne x y : x ≠ y → (x =? y) = false.
Proof. apply Z.eqb_neq. Qed.

Lemma set_root_black h0 X t s :
  R h0 X t s → rbtree t ∨ (∃ l a r n, t = T RED l a r ∧ rb l n ∧ rb r n) →
  t ≠ E →
  wp (root <- get_root ;; set_color root BLACK)
     (λ _ s', ∃ t', R h0 X t' s' ∧ elems t' = elems t ∧ rbtree t') s.
Proof.
  intros HR Ht HE. apply wp_get_root.
  destruct t as [|c l a r]; [done|].
  rewrite (R_root _ _ _ _ HR); simpl.
  eapply wp_mono; [by eapply (set_color_spec h0 X [])|]. simpl.
  intros _ s' HR'. eexists; split_and!; [done|done|]. split; [done|].
  destruct Ht as [[Hc [n Hn]]|(?&?&?&n&?&?&?)]; simplify_eq/=; [|eauto with lanthorn].
  inversion Hn; subst; simplify_eq/=; eauto with lanthorn.
Qed.

(** ** One turn of the loop of [rbt_insert_color] *)
Section insert_turn.
Context (h0 : nodes) (X : list Z).

(** The parent is NULL or black: the loop ends. *)
Lemma insert_turn_exit k l a r b n s Q :
  R h0 X (plug k (T RED l a r)) s → rbk k b n →
  (b = true ∨ k = []) → Q (inr tt) s → wp (insert_color_body a) Q s.
Proof.
  intros HR Hk Hb HQ. unfold insert_color_body. pose proof (R_focus _ _ _ _ _ _ _ _ HR).
  step1. destruct k as [|fr k]; simpl.
  - unfold red_ptr. simpl. step1. done.
  - destruct Hb as [->|?]; [|done]. inversion Hk; subst.
    assert (fcol fr = BLACK) as Hc by done.
    destruct fr as [c f sib|c sib f]; simpl in Hc |- *; subst c.
    + eapply (wp_red_ptr h0 X k (T BLACK (T RED l a r) f sib)); [exact HR|]. simpl.
      by step1.
    + eapply (wp_red_ptr h0 X k (T BLACK sib f (T RED l a r))); [exact HR|]. simpl.
      by step1.
Qed.
End insert_turn.

(** Tactics that run the code on the represented tree. [look K]: the fields of
    the node under the context [K]; [recolor]/[rotl]/[rotr]: one operation on
    the subtree under [K]; [red_at]/[black_at]: a colour test of that subtree. *)
Ltac look K :=
  lazymatch goal with HR : R ?h0 ?X _ ?s |- wp _ _ ?s =>
    let F := fresh "F" in
    pose proof (R_focus h0 X K _ _ _ _ _ HR) as F; simpl in F
  end.
Ltac sib_ne fr K t :=
  lazymatch goal with HR : R ?h0 ?X _ ?s |- wp _ _ ?s =>
    let F := fresh "F" in
    assert (F := R_sib_ne h0 X fr K t s HR ltac:(done)); simpl in F
  end.
Ltac recolor K c c' :=
  lazymatch goal with HR : R ?h0 ?X _ ?s |- wp (bind _ _) _ ?s =>
    apply wp_bind; eapply wp_mono; [exact (set_color_spec h0 X K c c' _ _ _ _ HR)|];
    clear HR; let s' := fresh "s" in let HR' := fresh "HR" in
    intros [] s' HR'; cbv beta in HR'
  end.
Ltac rotl K :=
  lazymatch goal with HR : R ?h0 ?X _ ?s |- wp (bind _ _) _ ?s =>
    apply wp_bind; eapply wp_mono;
    [exact (rotate_left_spec h0 X K _ _ _ _ _ _ _ _ HR)|];
    clear HR; let s' := fresh "s" in let HR' := fresh "HR" in
    intros [] s' HR'; cbv beta in HR'
  end.
Ltac rotr K :=
  lazymatch goal with HR : R ?h0 ?X _ ?s |- wp (bind _ _) _ ?s =>
    apply wp_bind; eapply wp_mono;
    [exact (rotate_right_spec h0 X K _ _ _ _ _ _ _ _ HR)|];
    clear HR; let s' := fresh "s" in let HR' := fresh "HR" in
    intros [] s' HR'; cbv beta in HR'
  end.
Ltac red_at K t :=
  lazymatch goal with HR : R ?h0 ?X _ ?s |- wp _ _ ?s =>
    eapply (wp_red_ptr h0 X K t); [exact HR|]; simpl (is_red _)
  end.
Ltac black_at K t :=
  lazymatch goal with HR : R ?h0 ?X _ ?s |- wp _ _ ?s =>
    eapply (wp_black_ptr h0 X K t); [exact HR|]; simpl (is_red _)
  end.

(** The parent recoloured black. *)
Definition black_frame (fr : frame) : frame :=
  match fr with FL _ a r => FL BLACK a r | FR _ l a => FR BLACK l a end.

Section insert_turns.
Context (h0 : nodes) (X : list Z).
Context (l : tree) (a : Z) (r : tree).
#[local] Abbreviation t := (T RED l a r).

(** The uncle is red: recolour, go on from the grandparent. *)
Lemma insert_turn_uncle_l fr f sib g k c2 ul u ur s Q :
  fr = FL RED f sib ∨ fr = FR RED sib f →
  R h0 X (plug (fr :: FL c2 g (T RED ul u ur) :: k) t) s →
  (∀ s', R h0 X (plug k (T RED (plug1 (black_frame fr) t) g (T BLACK ul u ur))) s' →
         Q (inl g) s') →
  wp (insert_color_body a) Q s.
Proof.
  intros [->| ->] HR HQ; unfold insert_color_body.
  - look (FL RED f sib :: FL c2 g (T RED ul u ur) :: k). step1.
    red_at (FL c2 g (T RED ul u ur) :: k) (T RED t f sib).
    look (FL c2 g (T RED ul u ur) :: k). look k. simpl.
    step1. step1. rewrite Z.eqb_refl. step1.
    red_at (FR c2 (T RED t f sib) g :: k) (T RED ul u ur). simpl.
    recolor (FR c2 (T RED t f sib) g :: k) RED BLACK.
    recolor (FL c2 g (T BLACK ul u ur) :: k) RED BLACK.
    recolor k c2 RED. step1. by apply HQ.
  - look (FR RED sib f :: FL c2 g (T RED ul u ur) :: k). step1.
    red_at (FL c2 g (T RED ul u ur) :: k) (T RED sib f t).
    look (FL c2 g (T RED ul u ur) :: k). look k. simpl.
    step1. step1. rewrite Z.eqb_refl. step1.
    red_at (FR c2 (T RED sib f t) g :: k) (T RED ul u ur). simpl.
    recolor (FR c2 (T RED sib f t) g :: k) RED BLACK.
    recolor (FL c2 g (T BLACK ul u ur) :: k) RED BLACK.
    recolor k c2 RED. step1. by apply HQ.
Qed.

(** The uncle is black, outer grandchild: one rotation. *)
Lemma insert_turn_outer_l f sib g u k c2 s Q :
  R h0 X (plug (FL RED f sib :: FL c2 g u :: k) t) s → col u = BLACK →
  (∀ s', R h0 X (plug (FL BLACK f (T RED sib g u) :: k) t) s' → Q (inl a) s') →
  wp (insert_color_body a) Q s.
Proof.
  intros HR Hu HQ; unfold insert_color_body.
  look (FL RED f sib :: FL c2 g u :: k). step1.
  red_at (FL c2 g u :: k) (T RED t f sib).
  look (FL c2 g u :: k). look k. simpl.
  sib_ne (FL RED f sib) (FL c2 g u :: k) (T RED l a r).
  step1. step1. rewrite Z.eqb_refl. step1.
  red_at (FR c2 (T RED t f sib) g :: k) u. rewrite Hu; simpl.
  step1. rewrite (eqb_ne (addr sib) a) by done. step1. simpl.
  recolor (FL c2 g u :: k) RED BLACK.
  recolor k c2 RED. rotr k. step1. by apply HQ.
Qed.

(** The uncle is black, inner grandchild: two rotations. *)
Lemma insert_turn_inner_l f sib g u k c2 s Q :
  R h0 X (plug (FR RED sib f :: FL c2 g u :: k) t) s → col u = BLACK →
  (∀ s', R h0 X (plug (FL BLACK a (T RED r g u) :: k) (T RED sib f l)) s' →
         Q (inl f) s') →
  wp (insert_color_body a) Q s.
Proof.
  intros HR Hu HQ; unfold insert_color_body.
  look (FR RED sib f :: FL c2 g u :: k). step1.
  red_at (FL c2 g u :: k) (T RED sib f t).
  look (FL c2 g u :: k). look k. simpl.
  step1. step1. rewrite Z.eqb_refl. step1.
  red_at (FR c2 (T RED sib f t) g :: k) u. rewrite Hu; simpl.
  step1. rewrite Z.eqb_refl. apply wp_bind.
  rotl (FL c2 g u :: k). step1. simpl.
  recolor (FL c2 g u :: k) RED BLACK.
  recolor k c2 RED. rotr k. step1. by apply HQ.
Qed.

Lemma insert_turn_uncle_r fr f sib g k c2 ul u ur s Q :
  fr = FL RED f sib ∨ fr = FR RED sib f →
  R h0 X (plug (fr :: FR c2 (T RED ul u ur) g :: k) t) s →
  (∀ s', R h0 X (plug k (T RED (T BLACK ul u ur) g (plug1 (black_frame fr) t))) s' →
         Q (inl g) s') →
  wp (insert_color_body a) Q s.
Proof.
  intros [->| ->] HR HQ; unfold insert_color_body.
  - look (FL RED f sib :: FR c2 (T RED ul u ur) g :: k). step1.
    red_at (FR c2 (T RED ul u ur) g :: k) (T RED t f sib).
    sib_ne (FR c2 (T RED ul u ur) g) k (T RED t f sib).
    look (FR c2 (T RED ul u ur) g :: k). look k. simpl.
    step1. step1. rewrite (eqb_ne f u) by done. step1.
    red_at (FL c2 g (T RED t f sib) :: k) (T RED ul u ur). simpl.
    recolor (FL c2 g (T RED t f sib) :: k) RED BLACK.
    recolor (FR c2 (T BLACK ul u ur) g :: k) RED BLACK.
    recolor k c2 RED. step1. by apply HQ.
  - look (FR RED sib f :: FR c2 (T RED ul u ur) g :: k). step1.
    red_at (FR c2 (T RED ul u ur) g :: k) (T RED sib f t).
    sib_ne (FR c2 (T RED ul u ur) g) k (T RED sib f t).
    look (FR c2 (T RED ul u ur) g :: k). look k. simpl.
    step1. step1. rewrite (eqb_ne f u) by done. step1.
    red_at (FL c2 g (T RED sib f t) :: k) (T RED ul u ur). simpl.
    recolor (FL c2 g (T RED sib f t) :: k) RED BLACK.
    recolor (FR c2 (T BLACK ul u ur) g :: k) RED BLACK.
    recolor k c2 RED. step1. by apply HQ.
Qed.

Lemma insert_turn_outer_r f sib g u k c2 s Q :
  R h0 X (plug (FR RED sib f :: FR c2 u g :: k) t) s → col u = BLACK →
  (∀ s', R h0 X (plug (FR BLACK (T RED u g sib) f :: k) t) s' → Q (inl a) s') →
  wp (insert_color_body a) Q s.
Proof.
  intros HR Hu HQ; unfold insert_color_body.
  look (FR RED sib f :: FR c2 u g :: k). step1.
  red_at (FR c2 u g :: k) (T RED sib f t).
  look (FR c2 u g :: k). look k. simpl.
  sib_ne (FR RED sib f) (FR c2 u g :: k) (T RED l a r).
  sib_ne (FR c2 u g) k (T RED sib f t).
  step1. step1. rewrite (eqb_ne f (addr u)) by done. step1.
  red_at (FL c2 g (T RED sib f t) :: k) u. rewrite Hu; simpl.
  step1. rewrite (eqb_ne (addr sib) a) by done. step1. simpl.
  recolor (FR c2 u g :: k) RED BLACK.
  recolor k c2 RED. rotl k. step1. by apply HQ.
Qed.

Lemma insert_turn_inner_r f sib g u k c2 s Q :
  R h0 X (plug (FL RED f sib :: FR c2 u g :: k) t) s → col u = BLACK →
  (∀ s', R h0 X (plug (FR BLACK (T RED u g l) a :: k) (T RED r f sib)) s' →
         Q (inl f) s') →
  wp (insert_color_body a) Q s.
Proof.
  intros HR Hu HQ; unfold insert_color_body.
  look (FL RED f sib :: FR c2 u g :: k). step1.
  red_at (FR c2 u g :: k) (T RED t f sib).
  look (FR c2 u g :: k). look k. simpl.
  sib_ne (FR c2 u g) k (T RED t f sib).
  step1. step1. rewrite (eqb_ne f (addr u)) by done. step1.
  red_at (FL c2 g (T RED t f sib) :: k) u. rewrite Hu; simpl.
  step1. rewrite Z.eqb_refl. apply wp_bind.
  rotr (FR c2 u g :: k). step1. simpl.
  recolor (FR c2 u g :: k) RED BLACK.
  recolor k c2 RED. rotl k. step1. by apply HQ.
Qed.
End insert_turns.

(** ** The loop, and [rbt_insert_color] *)
Lemma insert_loop h0 X fuel k b n l a r s :
  (length k < fuel)%nat →
  R h0 X (plug k (T RED l a r)) s →
  rbk k b n → rb l n → rb r n → col l = BLACK → col r = BLACK →
  wp (loop fuel insert_color_body a)
     (λ _ s', ∃ t', R h0 X t' s' ∧ t' ≠ E ∧
        elems t' = elems (plug k (T RED l a r)) ∧
        (rbtree t' ∨ ∃ l a r n, t' = T RED l a r ∧ rb l n ∧ rb r n)) s.
Proof.
  revert k b n l a r s. induction fuel as [|fuel IH]; intros k b n l a r s Hlt HR Hk Hl Hr Hcl Hcr;
    [lia|]. cbn [loop]. apply wp_bind.
  assert (k ≠ [] → b = true → rbtree (plug k (T RED l a r)) ∧ plug k (T RED l a r) ≠ E) as Hplug.
  { intros _ ->. split; [eapply rbk_plug; eauto with lanthorn; done|].
    intros HE. apply (f_equal elems) in HE. rewrite elems_plug in HE. simpl in HE.
    by destruct (kl k), (elems l). }
  inversion Hk as [n'|fr k1 n' Hc Hs Hcs Hk1|fr k1 b1 n' Hc Hs Hk1]; subst.
  - eapply insert_turn_exit; eauto. simpl. apply wp_ret. eexists; split_and!; eauto.
    right. do 4 eexists; split_and!; [done|exact Hl|exact Hr].
  - inversion Hk1 as [|?|fr2 k2 b2 n2 Hc2 Hs2 Hk2]; subst.
    destruct fr2 as [c2 g u|c2 u g]; simpl in Hc2, Hs2; subst c2;
      destruct (col u) eqn:Hu.
    + destruct u as [|cu ul u ur]; simplify_eq/=. inversion Hs2; subst.
      destruct fr as [c f sib|c sib f]; simplify_eq/=;
        [eapply (insert_turn_uncle_l _ _ _ _ _ (FL RED f sib))|eapply (insert_turn_uncle_l _ _ _ _ _ (FR RED sib f))];
        [by auto|exact HR| |by auto|exact HR|];
        intros s' HR'; simpl in HR'; simpl;
        (eapply wp_mono; [eapply IH; [|exact HR'|exact Hk2|..]; simpl in *; auto with lanthorn; lia|]);
        intros _ s2 (t' & ? & ? & He & ?); exists t'; split_and!; auto; rewrite He; elems_eq.
    + destruct fr as [c f sib|c sib f]; simplify_eq/=;
        [eapply insert_turn_outer_l|eapply insert_turn_inner_l]; [exact HR|done| |exact HR|done|];
        intros s' HR'; simpl;
        (eapply wp_mono; [eapply (IH _ true n); [|exact HR'|apply rbk_B with (b := b2)|..]; simpl in *; auto with lanthorn; lia|]);
        intros _ s2 (t' & ? & ? & He & ?); exists t'; split_and!; auto; rewrite He; elems_eq.
    + destruct u as [|cu ul u ur]; simplify_eq/=. inversion Hs2; subst.
      destruct fr as [c f sib|c sib f]; simplify_eq/=;
        [eapply (insert_turn_uncle_r _ _ _ _ _ (FL RED f sib))|eapply (insert_turn_uncle_r _ _ _ _ _ (FR RED sib f))];
        [by auto|exact HR| |by auto|exact HR|];
        intros s' HR'; simpl in HR'; simpl;
        (eapply wp_mono; [eapply IH; [|exact HR'|exact Hk2|..]; simpl in *; auto with lanthorn; lia|]);
        intros _ s2 (t' & ? & ? & He & ?); exists t'; split_and!; auto; rewrite He; elems_eq.
    + destruct fr as [c f sib|c sib f]; simplify_eq/=;
        [eapply insert_turn_inner_r|eapply insert_turn_outer_r]; [exact HR|done| |exact HR|done|];
        intros s' HR'; simpl;
        (eapply wp_mono; [eapply (IH _ true n); [|exact HR'|apply rbk_B with (b := b2)|..]; simpl in *; auto with lanthorn; lia|]);
        intros _ s2 (t' & ? & ? & He & ?); exists t'; split_and!; auto; rewrite He; elems_eq.
  - eapply insert_turn_exit; eauto. simpl. apply wp_ret.
    destruct Hplug; [done..|]. eexists; split_and!; eauto.
Qed.

Lemma depth_size h0 X k t s :
  R h0 X (plug k t) s → (length k ≤ size (rbt_nodes s))%nat.
Proof.
  intros HR. apply R_size in HR. rewrite elems_plug_perm, length_app in HR.
  enough (length k ≤ length (kset k))%nat by lia. clear.
  induction k; simpl; [lia|]. rewrite length_app. lia.
Qed.

(** [rbt_insert_color] on a freshly linked leaf: it returns, and the heap
    represents a red-black tree of the same nodes in the same order. *)
Lemma insert_color_spec h0 X k c a s :
  R h0 X (plug k (T c E a E)) s → rbtree (plug k E) →
  wp (rbt_insert_color a)
     (λ _ s', ∃ t', R h0 X t' s' ∧ elems t' = kl k ++ a :: kr k ∧ rbtree t') s.
Proof.
  intros HR [Hcol [m Hm]]. destruct (rbk_of_plug _ _ _ Hm Hcol) as (b & n & Hk & HE & _).
  inversion HE; subst. unfold rbt_insert_color.
  recolor k c RED. step1. apply wp_bind. eapply wp_mono.
  { eapply insert_loop; [|exact HR|exact Hk|auto with lanthorn..].
    apply depth_size in HR. simpl in *. lia. }
  intros _ s' (t' & HR' & HE' & He & Ht'). simpl.
  eapply wp_mono; [by eapply (set_root_black h0 X t')|].
  intros _ s2 (t2 & HR2 & He2 & Ht2). exists t2. split_and!; [done| |done].
  by rewrite He2, He, elems_plug.
Qed.
