(* ===== verification/RbtFixup.v ===== *)
(** * Red-black trees: the fix-up after a deletion

    [rbt_delete_color] started at a subtree that is one black node short restores
    the colour invariant, with the same nodes in the same order. *)
From S2P Require Import Prelude RbtModel RbtTree RbtRotate RbtInsert.

(** The subtree at the focus of [rbt_delete_color]: black height [n], its root
    black, or red with children that may be red as well. *)
Definition short (t : tree) (n : nat) : Prop :=
  (rb t n ∧ col t = BLACK) ∨ ∃ l a r, t = T RED l a r ∧ rb l n ∧ rb r n.

Lemma rb_short t n : rb t n → short t n.
Proof. destruct 1; unfold short; simpl; eauto 10 with lanthorn. Qed.

(** Fuel used from a focus. *)
Definition del_measure (k : ctx) (t : tree) : nat :=
  match k with [] => 0 | _ => length k + (if is_red (col t) then 0 else 1) end.

(** What one turn guarantees: go on from a focus that needs less fuel, or stop
    with a red-black tree whose root may have to be blackened. *)
Definition turn_post (h0 : nodes) (X : list Z) (es : list Z) (m : nat)
    (r : Z * Z + Z) (s : rbt) : Prop :=
  match r with
  | inl (node, parent) => ∃ k t b n, node = addr t ∧ parent = par k ∧
      R h0 X (plug k t) s ∧ elems (plug k t) = es ∧
      short t n ∧ rbk k b (S n) ∧ (del_measure k t < m)%nat
  | inr node => ∃ t, node = addr t ∧ R h0 X t s ∧ elems t = es ∧ rbtree t
  end.

Section turns.
Context (h0 : nodes) (X : list Z).

Lemma delete_black_l_spec k c t p ol x or b n s :
  R h0 X (plug k (T c t p (T BLACK ol x or))) s →
  rb t n → col t = BLACK → rb ol n → rb or n →
  rbk (FL c p (T BLACK ol x or) :: k) b (S n) →
  wp (delete_black_l p x)
     (turn_post h0 X (elems (plug k (T c t p (T BLACK ol x or))))
        (if is_red c then length k + 1 else length k + 2)) s.
Proof.
  intros HR Ht Hct Hol Hor Hk. unfold delete_black_l.
  assert (∃ b', rbk k b' (if is_red c then S n else S (S n)) ∧ (c = RED → b' = true))
    as (b' & Hk' & Hb').
  { inversion Hk; subst; simpl in *; subst c; simpl; naive_solver. }
  look (FR c t p :: k). step1.
  black_at (FL BLACK x or :: FR c t p :: k) ol. step1.
  black_at (FR BLACK ol x :: FR c t p :: k) or.
  destruct (col or) eqn:Hcor; [|destruct (col ol) eqn:Hcol]; simpl.
  - (* the far nephew is red *)
    rewrite andb_false_r. simpl. step1.
    destruct or as [|cr rl y rr]; simplify_eq/=. look k. step1.
    recolor (FR c t p :: k) BLACK c. recolor k c BLACK.
    look (FR BLACK t p :: k). step1.
    recolor (FR c ol x :: FR BLACK t p :: k) RED BLACK.
    rotl k. step1. step1.
    eexists; split_and!; [by eapply R_root|eassumption|elems_eq|].
    inversion Hor; subst. destruct c; simpl in Hk'.
    + rewrite Hb' in Hk' by done. eapply rbk_plug; [exact Hk'| |done].
      apply rb_R; auto with lanthorn.
    + eapply rbk_plug; [exact Hk'| |done]. apply rb_B; auto with lanthorn.
  - (* the near nephew is red *)
    destruct ol as [|cl a1 z a2]; simplify_eq/=.
    apply wp_bind. look (FR c t p :: k). step1.
    recolor (FL BLACK x or :: FR c t p :: k) RED BLACK.
    recolor (FR c t p :: k) BLACK RED.
    rotr (FR c t p :: k). look k. do 4 step1. look (FR c t p :: k).
    recolor (FR c t p :: k) BLACK c. recolor k c BLACK.
    look (FR BLACK t p :: k). step1.
    recolor (FR c a1 z :: FR BLACK t p :: k) RED BLACK.
    rotl k. step1. step1.
    eexists; split_and!; [by eapply R_root|eassumption|elems_eq|].
    inversion Hol; subst. destruct c; simpl in Hk'.
    + rewrite Hb' in Hk' by done. eapply rbk_plug; [exact Hk'| |done].
      apply rb_R; auto with lanthorn.
    + eapply rbk_plug; [exact Hk'| |done]. apply rb_B; auto with lanthorn.
  - (* both nephews are black *)
    recolor (FR c t p :: k) BLACK RED. look k. step1. step1.
    exists k, (T c t p (T RED ol x or)), b', (if is_red c then n else S n).
    split_and!; [done|done|done|elems_eq| |by destruct c|by destruct c, k; simpl; lia].
    destruct c; simpl.
    + right. do 3 eexists; split_and!; [done|done|by apply rb_R].
    + left. split; [|done]. by apply rb_B; [|apply rb_R].
Qed.
Lemma delete_black_r_spec k c t p ol x or b n s :
  R h0 X (plug k (T c (T BLACK ol x or) p t)) s →
  rb t n → col t = BLACK → rb ol n → rb or n →
  rbk (FR c (T BLACK ol x or) p :: k) b (S n) →
  wp (delete_black_r p x)
     (turn_post h0 X (elems (plug k (T c (T BLACK ol x or) p t)))
        (if is_red c then length k + 1 else length k + 2)) s.
Proof.
  intros HR Ht Hct Hol Hor Hk. unfold delete_black_r.
  assert (∃ b', rbk k b' (if is_red c then S n else S (S n)) ∧ (c = RED → b' = true))
    as (b' & Hk' & Hb').
  { inversion Hk; subst; simpl in *; subst c; simpl; naive_solver. }
  look (FL c p t :: k). step1.
  black_at (FL BLACK x or :: FL c p t :: k) ol. step1.
  black_at (FR BLACK ol x :: FL c p t :: k) or.
  destruct (col ol) eqn:Hcol; [|destruct (col or) eqn:Hcor]; simpl.
  - (* the far nephew is red *)
    step1.
    destruct ol as [|cr rl y rr]; simplify_eq/=. look k. step1.
    recolor (FL c p t :: k) BLACK c. recolor k c BLACK.
    look (FL BLACK p t :: k). step1.
    recolor (FL c x or :: FL BLACK p t :: k) RED BLACK.
    rotr k. step1. step1.
    eexists; split_and!; [by eapply R_root|eassumption|elems_eq|].
    inversion Hol; subst. destruct c; simpl in Hk'.
    + rewrite Hb' in Hk' by done. eapply rbk_plug; [exact Hk'| |done].
      apply rb_R; auto with lanthorn.
    + eapply rbk_plug; [exact Hk'| |done]. apply rb_B; auto with lanthorn.
  - (* the near nephew is red *)
    destruct or as [|cl a1 z a2]; simplify_eq/=.
    apply wp_bind. look (FL c p t :: k). step1.
    recolor (FR BLACK ol x :: FL c p t :: k) RED BLACK.
    recolor (FL c p t :: k) BLACK RED.
    rotl (FL c p t :: k). look k. do 4 step1. look (FL c p t :: k).
    recolor (FL c p t :: k) BLACK c. recolor k c BLACK.
    look (FL BLACK p t :: k). step1.
    recolor (FL c z a2 :: FL BLACK p t :: k) RED BLACK.
    rotr k. step1. step1.
    eexists; split_and!; [by eapply R_root|eassumption|elems_eq|].
    inversion Hor; subst. destruct c; simpl in Hk'.
    + rewrite Hb' in Hk' by done. eapply rbk_plug; [exact Hk'| |done].
      apply rb_R; auto with lanthorn.
    + eapply rbk_plug; [exact Hk'| |done]. apply rb_B; auto with lanthorn.
  - (* both nephews are black *)
    recolor (FL c p t :: k) BLACK RED. look k. step1. step1.
    exists k, (T c (T RED ol x or) p t), b', (if is_red c then n else S n).
    split_and!; [done|done|done|elems_eq| |by destruct c|by destruct c, k; simpl; lia].
    destruct c; simpl.
    + right. do 3 eexists; split_and!; [done|by apply rb_R|done].
    + left. split; [|done]. by apply rb_B; [apply rb_R|].
Qed.

Lemma turn_post_weaken es m m' r s :
  (m ≤ m')%nat → turn_post h0 X es m r s → turn_post h0 X es m' r s.
Proof.
  intros Hm. destruct r as [[node parent]|node]; simpl; [|done].
  intros (k & t & b & n & ? & ? & ? & ? & ? & ? & ?).
  exists k, t, b, n. split_and!; [done..|lia].
Qed.

Lemma repk_root h root hole fr k : repk h root hole (fr :: k) → root ∈ kset (fr :: k).
Proof.
  revert hole fr. induction k as [|fr2 k IH]; intros hole fr; simpl.
  - intros (_ & _ & ->). set_solver.
  - intros (_ & _ & H). apply IH in H. simpl in H. set_solver.
Qed.

Lemma R_root_ne fr k t s : R h0 X (plug (fr :: k) t) s → addr t ≠ rbt_root s.
Proof.
  rewrite R_RZ. intros [Hk _ Hnd Hnull _ _]. apply repk_root in Hk.
  intros Heq. rewrite <- Heq in Hk.
  destruct t as [|c l a r]; simpl in *; [set_solver|]. nodup_norm. set_solver.
Qed.

(** The loop stops on a red node, and at the root. *)
Lemma delete_turn_exit k t Q s :
  R h0 X (plug k t) s → (col t = RED ∨ k = []) → Q (inr (addr t)) s →
  wp (delete_color_body (addr t, par k)) Q s.
Proof.
  intros HR Hex HQ. unfold delete_color_body. black_at k t. step1.
  destruct Hex as [Hc| ->]; [by rewrite Hc|].
  rewrite (R_root _ _ _ _ HR). simpl. by rewrite Z.eqb_refl, andb_false_r.
Qed.

Lemma delete_turn_l c p o k t b n s :
  R h0 X (plug (FL c p o :: k) t) s → rb t n → col t = BLACK →
  rbk (FL c p o :: k) b (S n) →
  wp (delete_color_body (addr t, p))
     (turn_post h0 X (elems (plug (FL c p o :: k) t)) (length k + 2)) s.
Proof.
  intros HR Ht Hct Hk. unfold delete_color_body.
  black_at (FL c p o :: k) t. rewrite Hct; simpl. step1.
  assert (Hne := R_root_ne _ _ _ _ HR). rewrite (eqb_ne _ _ Hne); simpl.
  look k. step1. rewrite Z.eqb_refl. step1.
  assert (rb o (S n)) as Ho by (by inversion Hk; subst).
  inversion Ho as [|ol x or ? Hol Hor Hcl Hcr|ol x or ? Hol Hor]; subst.
  - (* a red sibling is rotated away *)
    look (FR c t p :: k). step1.
    assert (c = BLACK) as -> by (inversion Hk; subst; simplify_eq/=; done).
    assert (∃ b', rbk k b' (S (S n))) as [b' Hk'] by (inversion Hk; subst; simpl in *; [done|eauto]).
    cbn [is_red addr]. apply wp_bind.
    recolor (FR BLACK t p :: k) RED BLACK. recolor k BLACK RED. rotl k.
    look (FL BLACK x or :: k). do 3 step1.
    destruct ol as [|co a1 y a2]; [by inversion Hol|]; simpl in Hcl; subst co.
    simpl addr. inversion Hol; subst. cbn iota.
    eapply wp_mono.
    { eapply (delete_black_l_spec (FL BLACK x or :: k) RED t p a1 y a2); [eassumption|done..|].
      apply rbk_R; auto with lanthorn. eapply rbk_B; simpl; eauto. }
    intros r s' Hr. simpl in Hr.
    assert (elems (plug (FL BLACK p (T RED (T BLACK a1 y a2) x or) :: k) t) =
            elems (plug k (T BLACK (T RED t p (T BLACK a1 y a2)) x or))) as He by elems_eq.
    cbn [plug plug1] in He, Hr |- *. rewrite He.
    eapply turn_post_weaken; [|exact Hr]. lia.
  - look (FR c t p :: k). step1. cbn [is_red addr]. step1.
    eapply wp_mono; [by eapply (delete_black_l_spec k c t p ol x or)|].
    intros r s' Hr. eapply turn_post_weaken; [|exact Hr]. destruct c; simpl; lia.
Qed.

Lemma delete_turn_r c p o k t b n s :
  R h0 X (plug (FR c o p :: k) t) s → rb t n → col t = BLACK →
  rbk (FR c o p :: k) b (S n) →
  wp (delete_color_body (addr t, p))
     (turn_post h0 X (elems (plug (FR c o p :: k) t)) (length k + 2)) s.
Proof.
  intros HR Ht Hct Hk. unfold delete_color_body.
  black_at (FR c o p :: k) t. rewrite Hct; simpl. step1.
  assert (Hne := R_root_ne _ _ _ _ HR). rewrite (eqb_ne _ _ Hne); simpl.
  assert (rb o (S n)) as Ho by (by inversion Hk; subst).
  assert (addr o ≠ addr t) as Hne2.
  { destruct o as [|co ol x or]; [by inversion Ho|].
    apply not_eq_sym. destruct t as [|ct tl a tr]; simpl.
    - intros Hx. assert (R h0 X (plug (FL c p E :: k) (T co ol x or)) s) as HR' by exact HR.
      destruct (R_notin _ _ _ _ _ x HR') as [_ ?]; [simpl; set_solver|]. by apply H.
    - assert (Hs := R_sib_ne h0 X (FR c (T co ol x or) p) k (T ct tl a tr) s HR ltac:(done)).
      simpl in Hs. done. }
  look k. step1. rewrite (eqb_ne _ _ Hne2). step1.
  inversion Ho as [|ol x or ? Hol Hor Hcl Hcr|ol x or ? Hol Hor]; subst.
  - look (FL c p t :: k). step1.
    assert (c = BLACK) as -> by (inversion Hk; subst; simplify_eq/=; done).
    assert (∃ b', rbk k b' (S (S n))) as [b' Hk'] by (inversion Hk; subst; simpl in *; [done|eauto]).
    cbn [is_red addr]. apply wp_bind.
    recolor (FL BLACK p t :: k) RED BLACK. recolor k BLACK RED. rotr k.
    look (FR BLACK ol x :: k). do 3 step1.
    destruct or as [|co a1 y a2]; [by inversion Hor|]; simpl in Hcr; subst co.
    simpl addr. inversion Hor; subst. cbn iota.
    eapply wp_mono.
    { eapply (delete_black_r_spec (FR BLACK ol x :: k) RED t p a1 y a2); [eassumption|done..|].
      apply rbk_R; auto with lanthorn. eapply rbk_B; simpl; eauto. }
    intros r s' Hr. simpl in Hr.
    assert (elems (plug (FR BLACK (T RED ol x (T BLACK a1 y a2)) p :: k) t) =
            elems (plug k (T BLACK ol x (T RED (T BLACK a1 y a2) p t)))) as He by elems_eq.
    cbn [plug plug1] in He, Hr |- *. rewrite He.
    eapply turn_post_weaken; [|exact Hr]. lia.
  - look (FL c p t :: k). step1. cbn [is_red addr]. step1.
    eapply wp_mono; [by eapply (delete_black_r_spec k c t p ol x or)|].
    intros r s' Hr. eapply turn_post_weaken; [|exact Hr]. destruct c; simpl; lia.
Qed.
End turns.

(** ** [rbt_delete_color] *)
Definition blacken (t : tree) : tree :=
  match t with E => E | T _ l a r => T BLACK l a r end.

Lemma blacken_id t : col t = BLACK → blacken t = t.
Proof. destruct t; simpl; by intros; simplify_eq/=. Qed.

Lemma elems_blacken k t : elems (plug k (blacken t)) = elems (plug k t).
Proof. rewrite !elems_plug. by destruct t. Qed.

(** The loop may stop here: blackening the focus gives a red-black tree. *)
Definition stop_post (h0 : nodes) (X es : list Z) (node : Z) (s : rbt) : Prop :=
  ∃ k t, node = addr t ∧ R h0 X (plug k t) s ∧ elems (plug k t) = es ∧
         rbtree (plug k (blacken t)).

Lemma short_stop k t b n :
  short t n → rbk k b (S n) → col t = RED ∨ k = [] → rbtree (plug k (blacken t)).
Proof.
  intros Ht Hk Hex. destruct Ht as [[Ht Hc]|(l & a & r & -> & Hl & Hr)].
  - destruct Hex as [Hc'|Hk0]; [congruence|]. subst k. simpl. rewrite blacken_id by done.
    split; [done|eauto].
  - eapply rbk_plug; [exact Hk| |done]. simpl. by apply rb_B.
Qed.

Lemma delete_color_loop h0 X es fuel k t b n s :
  (del_measure k t < fuel)%nat → R h0 X (plug k t) s → elems (plug k t) = es →
  short t n → rbk k b (S n) →
  wp (loop fuel delete_color_body (addr t, par k)) (stop_post h0 X es) s.
Proof.
  revert k t b n s. induction fuel as [|fuel IH]; intros k t b n s Hlt HR Hes Ht Hk; [lia|].
  cbn [loop]. apply wp_bind.
  destruct (decide (col t = RED ∨ k = [])) as [Hex|Hex].
  { eapply delete_turn_exit; [exact HR|done|]. apply wp_ret. exists k, t.
    split_and!; [done..|by eapply short_stop]. }
  assert (col t = BLACK) as Hct by (destruct (col t); naive_solver).
  assert (rb t n) as Hrb.
  { destruct Ht as [[? _]|(? & ? & ? & -> & _)]; [done|simplify_eq/=]. }
  assert (k ≠ []) as Hk0 by naive_solver. clear Hex.
  destruct k as [|[c p o|c o p] k]; [done|..];
    (eapply wp_mono; [first [by eapply delete_turn_l|by eapply delete_turn_r]|]);
    intros [[node parent]|node] s' Hr; simpl in Hr.
  1,3: destruct Hr as (k' & t' & b' & n' & -> & -> & HR' & He & Ht' & Hk' & Hm);
    eapply IH; [|exact HR'|by rewrite He, <- Hes|done|exact Hk'];
    simpl in Hlt; rewrite Hct in Hlt; simpl in Hlt; lia.
  all: destruct Hr as (t' & -> & HR' & He & Ht'); apply wp_ret; exists [], t';
    split_and!; [done|done|by rewrite <- Hes|]; simpl;
    rewrite blacken_id by apply Ht'; done.
Qed.

Lemma del_measure_size h0 X k t b n s :
  R h0 X (plug k t) s → rbk k b (S n) → (del_measure k t ≤ size (rbt_nodes s))%nat.
Proof.
  intros HR Hk. apply R_size in HR. rewrite elems_plug_perm, length_app in HR.
  assert (∀ k : ctx, length k ≤ length (kset k))%nat as Hlen.
  { clear. induction k; simpl; [lia|]. rewrite length_app. lia. }
  destruct k as [|fr k]; simpl; [lia|]. specialize (Hlen k).
  assert (0 < length (elems (fsib fr)))%nat.
  { assert (rb (fsib fr) (S n)) as Ho by (by inversion Hk; subst).
    destruct (fsib fr); [by inversion Ho|]. simpl. rewrite length_app. simpl. lia. }
  simpl in HR. rewrite length_app in HR. destruct (is_red _); lia.
Qed.

Lemma rbt_delete_color_spec h0 X k t b n s :
  R h0 X (plug k t) s → short t n → rbk k b (S n) →
  wp (rbt_delete_color (addr t) (par k))
     (λ _ s', ∃ t', R h0 X t' s' ∧ elems t' = elems (plug k t) ∧ rbtree t') s.
Proof.
  intros HR Ht Hk. unfold rbt_delete_color. step1. apply wp_bind.
  eapply wp_mono.
  { eapply delete_color_loop; [|exact HR|done|exact Ht|exact Hk].
    pose proof (del_measure_size _ _ _ _ _ _ _ HR Hk). lia. }
  intros node s' (k' & t' & -> & HR' & He & Hrb). rewrite <- He.
  destruct t' as [|c l a r]; simpl.
  - by eexists; split_and!.
  - destruct (R_notin _ _ _ _ _ a HR') as [_ Hn]; [simpl; set_solver|].
    rewrite (eqb_ne _ _ Hn). eapply wp_mono; [by eapply (set_color_spec h0 X k')|].
    intros [] s2 HR2. eexists; split_and!; [exact HR2| |done].
    by rewrite !elems_plug.
Qed.

