(* ===== verification/RbtDelete.v ===== *)
(** * Red-black trees: deletion

    [rbt_delete] unlinks a node of a represented red-black tree: the heap then
    represents a red-black tree of the other nodes, in the same order. *)
From S2P Require Import Prelude RbtModel RbtTree RbtRotate RbtInsert RbtFixup.

(** ** Unlinking a node with at most one child *)
Lemma wp_relink' k s old new Q :
  NULL ∉ kset k → old ≠ NULL → old ∉ kset k →
  repk (rbt_nodes s) (rbt_root s) old k →
  Q tt (relink k new s) →
  wp (if par k =? NULL then set_root new
      else fl <- get_l (par k) ;;
           if fl =? old then set_l (par k) new else set_r (par k) new) Q s.
Proof.
  intros H1 H2 H3 Hk HQ. pose proof (wp_relink k s old new Q H1 H2 H3 Hk HQ) as Hw.
  destruct (par k =? NULL); [done|]. revert Hw. rewrite !wp_bind.
  intros Hw. eapply wp_mono; [exact Hw|]. intros fl s' H. by rewrite Z.eqb_sym.
Qed.

Lemma delete_one_spec h0 X k c l a r u s :
  R h0 X (plug k (T c l a r)) s → (l = E ∧ u = r) ∨ (r = E ∧ u = l) →
  wp (delete_one a (addr u))
     (λ res s', res = (c, addr u, par k) ∧ R h0 X (plug k u) s') s.
Proof.
  rewrite R_RZ. intros HZ Hu. pose proof HZ as [Hk Hr Hnd Hnull Hsub Hfr].
  simpl in Hk, Hr. destruct Hr as (Ha & Hl & Hr).
  assert (NoDup (elems u ++ kset k) ∧ elems u ++ kset k ⊆ X ∧
          (a ∉ elems u ++ kset k) ∧ a ≠ NULL ∧ (NULL ∉ elems u ++ kset k) ∧
          rep (rbt_nodes s) a u) as (Hnd' & Hsub' & Ha' & Han & Hnull' & Hru).
  { destruct Hu as [[-> ->]|[-> ->]]; simpl in *; nodup_norm; split_and!;
      try done; try apply NoDup_app; try split_and!; try done; set_solver. }
  clear Hnd Hsub Hnull Hl Hr Hu. nodup_norm.
  unfold delete_one. step1. step1. apply wp_bind.
  eapply wp_adopt; [exact Hru|done|].
  apply wp_bind. eapply wp_relink'; [done|done|done| |].
  { rewrite adopt_root, repk_adopt by set_solver. done. }
  apply wp_ret. split; [done|]. apply R_RZ. split.
  - apply repk_relink with (old := a); [done|].
    rewrite adopt_root, repk_adopt by set_solver. done.
  - rewrite rep_relink by set_solver. by eapply rep_adopt.
  - by apply NoDup_app.
  - set_solver.
  - done.
  - intros x Hx. rewrite relink_lookup, adopt_lookup by set_solver. by apply Hfr.
Qed.

(** ** The leftmost node of a subtree *)
Lemma leftmost_spec h0 X fuel k t s :
  R h0 X (plug k t) s → t ≠ E → (length (elems t) < fuel)%nat →
  wp (loop fuel leftmost_body (addr t))
     (λ b s', s' = s ∧ ∃ k2 c2 rr, t = plug k2 (T c2 E b rr) ∧ kl k2 = []) s.
Proof.
  revert k t. induction fuel as [|fuel IH]; intros k t HR HE Hlt; [lia|].
  destruct t as [|c l a r]; [done|]. cbn [loop addr]. unfold leftmost_body at 1.
  look k. do 2 step1. step1. destruct (decide (addr l = NULL)) as [Hl|Hl].
  - rewrite Hl. simpl. apply wp_ret. split; [done|].
    assert (l = E) as -> by (by eapply (R_addr_null h0 X (FL c a r :: k))).
    by exists [], c, r.
  - rewrite (eqb_ne _ _ Hl). eapply wp_mono.
    { eapply (IH (FL c a r :: k) l); [exact HR|by intros ->|].
      simpl in Hlt. rewrite length_app in Hlt. simpl in Hlt. lia. }
    intros b s' (-> & k2 & c2 & rr & Hl2 & Hk2). split; [done|].
    exists (k2 ++ [FL c a r]), c2, rr. rewrite plug_app, kl_app, Hl2. done.
Qed.

(** ** A segment of a context *)
Fixpoint repseg (h : nodes) (f0 hole : Z) (k : ctx) : Prop :=
  match k with
  | [] => True
  | fr :: k =>
      h !! faddr fr = Some (fnode fr (match k with [] => f0 | fr' :: _ => faddr fr' end) hole) ∧
      rep h (faddr fr) (fsib fr) ∧ repseg h f0 (faddr fr) k
  end.

Fixpoint top (hole : Z) (k : ctx) : Z :=
  match k with [] => hole | fr :: k => top (faddr fr) k end.

Lemma top_addr k t : top (addr t) k = addr (plug k t).
Proof.
  revert t. induction k as [|fr k IH]; intros t; simpl; [done|].
  rewrite <- IH. by destruct fr.
Qed.

Lemma repk_app h root hole k2 k :
  repk h root hole (k2 ++ k) ↔ repseg h (par k) hole k2 ∧ repk h root (top hole k2) k.
Proof.
  revert hole. induction k2 as [|fr k2 IH]; intros hole; simpl; [naive_solver|].
  rewrite IH. destruct k2; simpl; naive_solver.
Qed.

Lemma repseg_insert h f0 hole k x n :
  x ∉ kset k → repseg (<[x := n]> h) f0 hole k ↔ repseg h f0 hole k.
Proof.
  revert hole. induction k as [|fr k IH]; intros hole Hx; simpl in *; [done|].
  apply not_elem_of_cons in Hx as [? Hx]. apply not_elem_of_app in Hx as [? ?].
  by rewrite lookup_insert_ne, rep_insert, IH by done.
Qed.

Lemma repseg_hole h f0 hole hole' fr k :
  NoDup (kset (fr :: k)) → repseg h f0 hole (fr :: k) →
  repseg (<[faddr fr := fnode fr (match k with [] => f0 | fr' :: _ => faddr fr' end) hole']> h)
    f0 hole' (fr :: k).
Proof.
  intros Hnd (H1 & H2 & H3). simpl in Hnd. nodup_norm. split_and!.
  - by rewrite lookup_insert_eq.
  - by rewrite rep_insert.
  - by rewrite repseg_insert.
Qed.

Lemma top_in hole fr k : top hole (fr :: k) ∈ kset (fr :: k).
Proof.
  revert hole fr. induction k as [|fr2 k IH]; intros hole fr; simpl; [set_solver|].
  specialize (IH (faddr fr) fr2). simpl in IH. set_solver.
Qed.

Lemma repseg_top h f0 f1 hole fr k :
  NoDup (kset (fr :: k)) → repseg h f0 hole (fr :: k) →
  ∃ n, h !! top hole (fr :: k) = Some n ∧
    repseg (<[top hole (fr :: k) := RbtNode (n_color n) f1 (n_l n) (n_r n)]> h) f1 hole (fr :: k).
Proof.
  revert hole fr. induction k as [|fr2 k IH]; intros hole fr Hnd Hs.
  - destruct Hs as (H1 & H2 & _). simpl in Hnd. nodup_norm. eexists; split; [exact H1|]. simpl.
    split_and!; [|by rewrite rep_insert|done].
    rewrite lookup_insert_eq. by destruct fr.
  - destruct Hs as (H1 & H2 & H3). apply NoDup_cons in Hnd as [Hn1 Hnd].
    apply NoDup_app in Hnd as (_ & Hn2 & Hnd).
    destruct (IH (faddr fr) fr2) as (n & Hn & Hs'); [done|done|].
    pose proof (top_in (faddr fr) fr2 k) as Hin.
    exists n. split; [exact Hn|]. split_and!.
    + rewrite lookup_insert_ne; [done|]. intros Heq. apply Hn1.
      apply elem_of_app; right. rewrite <- Heq. exact Hin.
    + rewrite rep_insert; [done|]. intros Hx. by eapply Hn2.
    + exact Hs'.
Qed.

(** ** Unlinking a node with two children

    [k2] is the path from the right child of the unlinked node [old] down to its
    successor [b]; [DS] describes the heap while the pointers are being moved. *)
Section delete_two.
Context (h0 : nodes) (X : list Z) (k k2 : ctx) (l rr : tree) (old b : Z).

Definition ds_wf : Prop :=
  NoDup (elems rr ++ b :: kset k2 ++ old :: elems l ++ kset k) ∧
  (NULL ∉ elems rr ++ b :: kset k2 ++ old :: elems l ++ kset k) ∧
  (elems rr ++ b :: kset k2 ++ old :: elems l ++ kset k ⊆ X).

(** Who points to what: [kp] is the child the context [k] points to, [fl],
    [f0] and [fr] are the parents of [l], of the top of [k2] and of [rr],
    [hole] is the child the bottom of [k2] points to. *)
Record DS (kp fl f0 hole fr : Z) (no nb : rbt_node) (s : rbt) : Prop := {
  DS_k : repk (rbt_nodes s) (rbt_root s) kp k;
  DS_l : rep (rbt_nodes s) fl l;
  DS_seg : repseg (rbt_nodes s) f0 hole k2;
  DS_rr : rep (rbt_nodes s) fr rr;
  DS_old : rbt_nodes s !! old = Some no;
  DS_b : rbt_nodes s !! b = Some nb;
  DS_frame : ∀ x, x ∉ X → rbt_nodes s !! x = h0 !! x;
}.

(** The pieces are apart. *)
Record disj : Prop := {
  dj_rr : NoDup (elems rr); dj_k2 : NoDup (kset k2);
  dj_l : NoDup (elems l); dj_k : NoDup (kset k);
  dj_b : b ≠ old ∧ (b ∉ elems rr) ∧ (b ∉ kset k2) ∧ (b ∉ elems l) ∧ (b ∉ kset k);
  dj_old : (old ∉ elems rr) ∧ (old ∉ kset k2) ∧ (old ∉ elems l) ∧ (old ∉ kset k);
  dj_ink : ∀ x, x ∈ kset k → (x ∉ elems rr) ∧ (x ∉ kset k2) ∧ (x ∉ elems l);
  dj_inl : ∀ x, x ∈ elems l → (x ∉ elems rr) ∧ (x ∉ kset k2) ∧ (x ∉ kset k);
  dj_ink2 : ∀ x, x ∈ kset k2 → (x ∉ elems rr) ∧ (x ∉ elems l) ∧ (x ∉ kset k);
  dj_inrr : ∀ x, x ∈ elems rr → (x ∉ kset k2) ∧ (x ∉ elems l) ∧ (x ∉ kset k);
  dj_null : (NULL ∉ elems rr) ∧ b ≠ NULL ∧ (NULL ∉ kset k2) ∧ old ≠ NULL ∧
            (NULL ∉ elems l) ∧ (NULL ∉ kset k);
  dj_X : ∀ x, x ∉ X → x ≠ b ∧ x ≠ old ∧ (x ∉ elems rr) ∧ (x ∉ kset k2) ∧
            (x ∉ elems l) ∧ (x ∉ kset k);
}.

Lemma ds_disj : ds_wf → disj.
Proof.
  intros (Hnd & Hnull & Hsub).
  apply NoDup_app in Hnd as (? & Hd1 & Hnd). apply NoDup_cons in Hnd as [Hb Hnd].
  apply NoDup_app in Hnd as (? & Hd2 & Hnd). apply NoDup_cons in Hnd as [Ho Hnd].
  apply NoDup_app in Hnd as (? & Hd3 & ?).
  split; try done; set_solver.
Qed.

Hypothesis Hd : disj.

Lemma DS_set_b kp fl f0 hole fr no nb nb' s :
  DS kp fl f0 hole fr no nb s → DS kp fl f0 hole fr no nb' (upd s b nb').
Proof using Hd.
  intros []. destruct Hd; destruct_and!. split; simpl.
  - by rewrite repk_insert.
  - by rewrite rep_insert.
  - by rewrite repseg_insert.
  - by rewrite rep_insert.
  - by rewrite lookup_insert_ne.
  - by rewrite lookup_insert_eq.
  - intros x Hx. rewrite lookup_insert_ne; [auto|]. naive_solver.
Qed.

Lemma DS_relink kp kp' fl f0 hole fr no nb s :
  DS kp fl f0 hole fr no nb s → DS kp' fl f0 hole fr no nb (relink k kp' s).
Proof using Hd.
  intros []. destruct Hd; destruct_and!. split.
  - by eapply repk_relink.
  - rewrite rep_relink; [done|]. naive_solver.
  - destruct k as [|fk k']; simpl; [done|]. rewrite repseg_insert; [done|].
    apply dj_ink0. simpl. set_solver.
  - rewrite rep_relink; [done|]. naive_solver.
  - by rewrite relink_lookup.
  - by rewrite relink_lookup.
  - intros x Hx. rewrite relink_lookup; naive_solver.
Qed.

Lemma DS_adopt_rr kp fl f0 hole fr fr' no nb s :
  DS kp fl f0 hole fr no nb s → DS kp fl f0 hole fr' no nb (adopt fr' rr s).
Proof using Hd.
  intros []. destruct Hd; destruct_and!. split.
  - rewrite adopt_root, repk_adopt; naive_solver.
  - destruct rr; simpl; [done|]. rewrite rep_insert; [done|].
    apply dj_inrr0. simpl. set_solver.
  - destruct rr; simpl; [done|]. rewrite repseg_insert; [done|].
    apply dj_inrr0. simpl. set_solver.
  - by eapply rep_adopt.
  - by rewrite adopt_lookup.
  - by rewrite adopt_lookup.
  - intros x Hx. rewrite adopt_lookup; naive_solver.
Qed.

Lemma DS_adopt_l kp fl fl' f0 hole fr no nb s :
  DS kp fl f0 hole fr no nb s → DS kp fl' f0 hole fr no nb (adopt fl' l s).
Proof using Hd.
  intros []. destruct Hd; destruct_and!. split.
  - rewrite adopt_root, repk_adopt; naive_solver.
  - by eapply rep_adopt.
  - destruct l; simpl; [done|]. rewrite repseg_insert; [done|].
    apply dj_inl0. simpl. set_solver.
  - destruct l; simpl; [done|]. rewrite rep_insert; [done|].
    apply dj_inl0. simpl. set_solver.
  - by rewrite adopt_lookup.
  - by rewrite adopt_lookup.
  - intros x Hx. rewrite adopt_lookup; naive_solver.
Qed.

(** A write to a node [x] of [k2] that turns the segment into another one. *)
Lemma DS_seg_write kp fl f0 f0' hole hole' fr no nb s x n :
  DS kp fl f0 hole fr no nb s → x ∈ kset k2 →
  repseg (<[x := n]> (rbt_nodes s)) f0' hole' k2 →
  DS kp fl f0' hole' fr no nb (upd s x n).
Proof using Hd.
  intros [] Hx ?. destruct Hd; destruct_and!. destruct (dj_ink3 x Hx) as (? & ? & ?).
  split; simpl.
  - by rewrite repk_insert.
  - by rewrite rep_insert.
  - done.
  - by rewrite rep_insert.
  - rewrite lookup_insert_ne; congruence.
  - rewrite lookup_insert_ne; congruence.
  - intros y Hy. rewrite lookup_insert_ne; naive_solver.
Qed.
End delete_two.

Arguments DS_b {_ _ _ _ _ _ _ _ _ _ _ _ _ _ _ _} _.
Arguments DS_old {_ _ _ _ _ _ _ _ _ _ _ _ _ _ _ _} _.
Arguments DS_seg {_ _ _ _ _ _ _ _ _ _ _ _ _ _ _ _} _.
Arguments DS_rr {_ _ _ _ _ _ _ _ _ _ _ _ _ _ _ _} _.
Arguments DS_l {_ _ _ _ _ _ _ _ _ _ _ _ _ _ _ _} _.

Lemma DS_final h0 X k k2 l rr old b c no s :
  ds_wf X k k2 l rr old b →
  DS h0 X k k2 l rr old b b b b (addr rr) (par (k2 ++ FR c l b :: k)) no
     (RbtNode c (par k) (addr l) (top (addr rr) k2)) s →
  R h0 X (plug (k2 ++ FR c l b :: k) rr) s.
Proof.
  intros Hwf [Hk Hl Hseg Hrr Ho Hb Hfr]. destruct Hwf as (Hnd & Hnull & Hsub).
  apply R_RZ. split.
  - rewrite repk_app. split; [done|]. simpl. split_and!; [|done..].
    rewrite Hb. done.
  - done.
  - rewrite kset_app. simpl.
    assert (NoDup (old :: elems rr ++ kset k2 ++ b :: elems l ++ kset k)) as Hp.
    { eapply NoDup_perm; [|exact Hnd]. solve_Permutation. }
    by apply NoDup_cons in Hp as [_ Hp].
  - rewrite kset_app. simpl. set_solver.
  - rewrite kset_app. simpl. set_solver.
  - done.
Qed.

Lemma DS_init h0 X k k2 l rr old b c c2 s :
  R h0 X (plug (k2 ++ FR c l old :: k) (T c2 E b rr)) s →
  ds_wf X k k2 l rr old b ∧
  DS h0 X k k2 l rr old b old old old b b (RbtNode c (par k) (addr l) (top b k2))
     (RbtNode c2 (par (k2 ++ FR c l old :: k)) NULL (addr rr)) s.
Proof.
  rewrite R_RZ. intros [Hk Hr Hnd Hnull Hsub Hfr].
  rewrite kset_app in Hnd, Hnull, Hsub. simpl in *.
  apply repk_app in Hk as [Hseg (Ho & Hl & Hk)]. destruct Hr as (Hb & _ & Hrr).
  split; [|by split].
  split_and!; [|set_solver..].
  eapply NoDup_perm; [|exact Hnd]. solve_Permutation.
Qed.

Lemma wp_set_f_root s f q t Q :
  rep (rbt_nodes s) f t → t ≠ E → Q tt (adopt q t s) → wp (set_f (addr t) q) Q s.
Proof.
  destruct t as [|c l a r]; [done|]. intros (Ha & _) _ HQ. step1. step1. done.
Qed.

Lemma kl_nil_FL fr k : kl (fr :: k) = [] → ∃ c a r, fr = FL c a r ∧ kl k = [].
Proof.
  destruct fr as [c a r|c l a]; simpl; [naive_solver|].
  intros H. by destruct (kl k), (elems l).
Qed.

Lemma delete_two_spec h0 X k c l old r s :
  R h0 X (plug k (T c l old r)) s → l ≠ E → r ≠ E →
  wp (delete_two old)
     (λ res s', ∃ k2 c2 b rr, r = plug k2 (T c2 E b rr) ∧ kl k2 = [] ∧
        res = (c2, addr rr, par (k2 ++ FR c l b :: k)) ∧
        R h0 X (plug (k2 ++ FR c l b :: k) rr) s') s.
Proof.
  intros HR HlE HrE. unfold delete_two. step1. look k. step1. apply wp_bind.
  eapply wp_mono.
  { eapply (leftmost_spec h0 X _ (FR c l old :: k)); [exact HR|done|].
    apply R_size in HR. rewrite elems_plug in HR. simpl in HR.
    rewrite !length_app in HR. simpl in HR. lia. }
  intros b s' (-> & k2 & c2 & rr & -> & Hk2).
  assert (R h0 X (plug (k2 ++ FR c l old :: k) (T c2 E b rr)) s) as HR'
    by (by rewrite plug_app).
  apply DS_init in HR' as [Hwf HD]. pose proof (ds_disj _ _ _ _ _ _ _ Hwf) as Hd.
  assert (addr (plug k2 (T c2 E b rr)) = top b k2) as Htop by by rewrite <- top_addr.
  rewrite Htop in F. clear HR HrE.
  pose proof (dj_null _ _ _ _ _ _ _ Hd) as (? & ? & ? & ? & ? & ?).
  pose proof (dj_old _ _ _ _ _ _ _ Hd) as (? & ? & ? & ?).
  step1. apply wp_bind. eapply wp_relink'; [done|done|done|apply HD|].
  apply (DS_relink h0 X _ _ _ _ _ _ Hd _ b) in HD. clear F.
  set (s1 := relink k b s) in *. clearbody s1.
  pose proof (DS_b HD) as Hb.
  step1. step1. step1.
  enough (∀ s2, DS h0 X k k2 l rr old b b old b (addr rr) (par (k2 ++ FR c l b :: k))
            (RbtNode c (par k) (addr l) (top b k2))
            (RbtNode c2 (par (k2 ++ FR c l old :: k)) NULL (top (addr rr) k2)) s2 →
          wp (oldf <- get_f old ;; set_f b oldf ;;;
              oldc <- get_color old ;; set_color b oldc ;;;
              oldl <- get_l old ;; set_l b oldl ;;;
              oldl <- get_l old ;; set_f oldl b ;;;
              ret (c2, addr rr, par (k2 ++ FR c l b :: k)))
           (λ res s', ∃ k0 c0 b0 rr0, plug k2 (T c2 E b rr) = plug k0 (T c0 E b0 rr0) ∧
              kl k0 = [] ∧ res = (c0, addr rr0, par (k0 ++ FR c l b0 :: k)) ∧
              R h0 X (plug (k0 ++ FR c l b0 :: k) rr0) s') s2) as Hend.
  { destruct k2 as [|fr k3].
    - simpl (par _). rewrite Z.eqb_refl. step1.
      apply Hend. destruct HD. by split.
    - destruct (kl_nil_FL _ _ Hk2) as (cf & f & y & -> & Hk3).
      pose proof (dj_k2 _ _ _ _ _ _ _ Hd) as Hndk2.
      assert (f ≠ old) by (simpl in H6; set_solver).
      simpl (par _). rewrite (eqb_ne f old) by done. apply wp_bind. apply wp_bind.
      eapply wp_adopt; [apply (DS_rr HD)|done|].
      apply (DS_adopt_rr h0 X _ _ _ _ _ _ Hd _ _ _ _ _ f) in HD. clear Hb.
      set (s2 := adopt f rr s1) in *. clearbody s2.
      pose proof (DS_seg HD) as Hseg. pose proof (proj1 Hseg) as Hf. simpl in Hf.
      step1. eapply (DS_seg_write h0 X _ _ _ _ _ _ Hd) in HD;
        [|by left|eapply (repseg_hole _ _ _ (addr rr)); [exact Hndk2|exact Hseg]].
      simpl in HD |- *.
      match type of HD with DS _ _ _ _ _ _ _ _ _ _ _ _ _ _ _ ?st => set (s3 := st) in * end.
      clearbody s3. clear Hseg Hf.
      pose proof (DS_old HD) as Ho. pose proof (DS_b HD) as Hb.
      step1. step1.
      pose proof (DS_set_b h0 X _ _ _ _ _ _ Hd _ _ _ _ _ _ _
        (RbtNode c2 f NULL (top f k3)) _ HD) as HD4.
      match type of HD4 with DS _ _ _ _ _ _ _ _ _ _ _ _ _ _ _ ?st => set (s4 := st) in * end.
      clearbody s4. clear HD Ho Hb.
      pose proof (DS_old HD4) as Ho. step1.
      destruct (repseg_top _ _ b _ _ _ Hndk2 (DS_seg HD4)) as (nt & Hnt & Hseg).
      simpl top in Hnt, Hseg.
      eapply wp_set_f; [exact Hnt|].
      eapply (DS_seg_write h0 X _ _ _ _ _ _ Hd) in HD4; [|exact (top_in 0 _ _)|exact Hseg].
      apply wp_ret. apply (Hend _ HD4). }
  intros s2 HD2. pose proof (DS_old HD2) as Ho2.
  pose proof (DS_b HD2) as Hb2.
  pose proof (dj_b _ _ _ _ _ _ _ Hd) as (? & ? & ? & ? & ?).
  do 7 step1. apply wp_bind.
  apply (DS_set_b h0 X _ _ _ _ _ _ Hd _ _ _ _ _ _ _
    (RbtNode c2 (par k) NULL (top (addr rr) k2))) in HD2.
  apply (DS_set_b h0 X _ _ _ _ _ _ Hd _ _ _ _ _ _ _
    (RbtNode c (par k) NULL (top (addr rr) k2))) in HD2.
  apply (DS_set_b h0 X _ _ _ _ _ _ Hd _ _ _ _ _ _ _
    (RbtNode c (par k) (addr l) (top (addr rr) k2))) in HD2.
  step1. apply wp_bind. eapply wp_set_f_root; [exact (DS_l HD2)|done|].
  apply (DS_adopt_l h0 X _ _ _ _ _ _ Hd _ _ b) in HD2.
  apply wp_ret. exists k2, c2, b, rr. split_and!; [done..|].
  by eapply DS_final.
Qed.

(** ** [rbt_delete] *)
Lemma rbk_readdr k2 c l x y k b n :
  rbk (k2 ++ FR c l x :: k) b n → rbk (k2 ++ FR c l y :: k) b n.
Proof.
  revert b n. induction k2 as [|fr k2 IH]; simpl; intros b n H; inversion H; subst;
    [by apply rbk_R|by eapply rbk_B|apply rbk_R; auto|eapply rbk_B; eauto].
Qed.

Lemma elem_of_plug t a :
  a ∈ elems t → ∃ k c l r, t = plug k (T c l a r).
Proof.
  induction t as [|c l IHl x r IHr]; simpl; [set_solver|].
  rewrite elem_of_app, elem_of_cons. intros [H|[->|H]].
  - destruct (IHl H) as (k & c' & l' & r' & ->). exists (k ++ [FL c x r]), c', l', r'.
    by rewrite plug_app.
  - by exists [], c, l, r.
  - destruct (IHr H) as (k & c' & l' & r' & ->). exists (k ++ [FR c l x]), c', l', r'.
    by rewrite plug_app.
Qed.

Lemma rb_zero_black t : rb t 0 → col t = BLACK → t = E.
Proof. intros H. by inversion H. Qed.

(** After the unlinking: nothing to do if the unlinked node was red. *)
Lemma delete_finish h0 X kf u c b n s :
  R h0 X (plug kf u) s → rbk kf b n →
  (c = RED → rb u n ∧ col u = BLACK) → (c = BLACK → ∃ m, n = S m ∧ short u m) →
  wp (if is_red c then ret tt else rbt_delete_color (addr u) (par kf))
     (λ _ s', ∃ t', R h0 X t' s' ∧ elems t' = elems (plug kf u) ∧ rbtree t') s.
Proof.
  intros HR Hk Hred Hblack. destruct c; simpl.
  - destruct (Hred eq_refl). apply wp_ret. eexists; split_and!; [exact HR|done|].
    by eapply rbk_plug.
  - destruct (Hblack eq_refl) as (m & -> & Hs). by eapply rbt_delete_color_spec.
Qed.

Lemma rbt_delete_spec h0 X t a s :
  R h0 X t s → rbtree t → a ∈ elems t →
  wp (rbt_delete a)
     (λ _ s', ∃ t' l1 l2, R h0 X t' s' ∧ rbtree t' ∧
        elems t = l1 ++ a :: l2 ∧ elems t' = l1 ++ l2) s.
Proof.
  intros HR [Hcol [m Hm]] Ha. apply elem_of_plug in Ha as (k & c & l & r & ->).
  destruct (rbk_of_plug _ _ _ Hm Hcol) as (b & n & Hk & Hn & Hb).
  unfold rbt_delete. look k. step1. step1. apply wp_bind.
  destruct (decide (l = E)) as [->|Hl]; [|destruct (decide (r = E)) as [->|Hr]].
  - (* no left child *)
    simpl. eapply wp_mono; [eapply (delete_one_spec h0 X k c E a r r); [exact HR|by left]|].
    intros res s' [-> HR']. cbv beta iota.
    eapply wp_mono; [eapply delete_finish; [exact HR'|exact Hk|..]|].
    + intros ->. inversion Hn as [|? ? ? ? HE ? ? ?|]; subst. done.
    + intros ->. inversion Hn as [| |? ? ? n' HE ?]; subst. exists n'. split; [done|by apply rb_short].
    + intros _ s2 (t' & HR2 & He & Ht'). exists t', (kl k), (elems r ++ kr k).
      split_and!; [done|done|elems_eq|rewrite He; elems_eq].
  - (* no right child *)
    assert (addr l ≠ NULL) as Hln.
    { intros H. apply Hl. by eapply (R_addr_null h0 X (FL c a E :: k)). }
    rewrite (eqb_ne _ _ Hln). simpl.
    eapply wp_mono; [eapply (delete_one_spec h0 X k c l a E l); [exact HR|by right]|].
    intros res s' [-> HR']. cbv beta iota.
    eapply wp_mono; [eapply delete_finish; [exact HR'|exact Hk|..]|].
    + intros ->. inversion Hn as [|? ? ? ? ? HE ? ?|]; subst. done.
    + intros ->. inversion Hn as [| |? ? ? n' ? HE]; subst. exists n'. split; [done|by apply rb_short].
    + intros _ s2 (t' & HR2 & He & Ht'). exists t', (kl k ++ elems l), (kr k).
      split_and!; [done|done|elems_eq|rewrite He; elems_eq].
  - (* two children *)
    assert (addr l ≠ NULL ∧ addr r ≠ NULL) as [Hln Hrn].
    { split; intros H; [apply Hl; by eapply (R_addr_null h0 X (FL c a r :: k))|
                        apply Hr; by eapply (R_addr_null h0 X (FR c l a :: k))]. }
    rewrite (eqb_ne _ _ Hln), (eqb_ne _ _ Hrn).
    eapply wp_mono; [by eapply delete_two_spec|].
    intros res s' (k2 & c2 & b2 & rr & -> & Hk2 & -> & HR'). cbv beta iota.
    assert (plug k (T c l a (plug k2 (T c2 E b2 rr))) =
            plug (k2 ++ FR c l a :: k) (T c2 E b2 rr)) as Hp by (by rewrite plug_app).
    rewrite Hp in Hm, Hcol.
    destruct (rbk_of_plug _ _ _ Hm Hcol) as (b' & n' & Hk' & Hn' & Hb').
    eapply wp_mono;
      [eapply delete_finish; [exact HR'|eapply rbk_readdr; exact Hk'|..]|].
    + intros ->. inversion Hn' as [|? ? ? ? HE ? ? ?|]; subst. done.
    + intros ->. inversion Hn' as [| |? ? ? n2 HE ?]; subst. exists n2.
      split; [done|by apply rb_short].
    + intros _ s2 (t' & HR2 & He & Ht').
      exists t', (kl k ++ elems l), (b2 :: elems rr ++ kr k2 ++ kr k).
      split_and!; [done|done| |].
      * rewrite Hp, elems_plug, kl_app, kr_app, Hk2. simpl. by rewrite <- !(assoc_L (++)).
      * rewrite He, elems_plug, kl_app, kr_app, Hk2. simpl. by rewrite <- !(assoc_L (++)).
Qed.
