(* ===== verification/RbtIter.v ===== *)
(** * Red-black trees: iteration and search

    [rbt_next], [rbt_prev], [rbt_first] and the iteration macro follow the
    in-order list of the represented tree; the clients' descents find the key, or
    the place where it belongs. *)
From S2P Require Import Prelude RbtModel RbtTree RbtRotate RbtInsert RbtFixup RbtDelete.

Definition hd0 (l : list Z) : Z := match l with [] => NULL | x :: _ => x end.
Definition last0 (l : list Z) : Z := match last l with Some x => x | None => NULL end.

Lemma last0_app l x : last0 (l ++ [x]) = x.
Proof. unfold last0. by rewrite last_snoc. Qed.

(** ** Successor and predecessor *)
Lemma climb_r_spec h0 X fuel k t s :
  R h0 X (plug k t) s → t ≠ E → (length k < fuel)%nat →
  wp (loop fuel climb_r_body (addr t)) (λ b s', s' = s ∧ b = hd0 (kr k)) s.
Proof.
  revert k t. induction fuel as [|fuel IH]; intros k t HR HE Hlt; [lia|].
  cbn [loop]. destruct t as [|c l a r]; [done|]. simpl addr. unfold climb_r_body at 1.
  look k. do 2 step1. destruct k as [|[c2 p o|c2 o p] k]; cbn [par faddr].
  - rewrite Z.eqb_refl. step1. by apply wp_ret.
  - assert (Hp := R_par_ne _ _ _ _ _ _ HR). simpl in Hp. rewrite (eqb_ne _ _ Hp).
    sib_ne (FL c2 p o) k (T c l a r). look k.
    step1. step1. rewrite (eqb_ne a (addr o)) by done. by apply wp_ret.
  - assert (Hp := R_par_ne _ _ _ _ _ _ HR). simpl in Hp. rewrite (eqb_ne _ _ Hp).
    look k. step1. step1. rewrite Z.eqb_refl.
    eapply (IH k (T c2 o p (T c l a r))); [exact HR|done|simpl in Hlt; lia].
Qed.

Lemma climb_l_spec h0 X fuel k t s :
  R h0 X (plug k t) s → t ≠ E → (length k < fuel)%nat →
  wp (loop fuel climb_l_body (addr t)) (λ b s', s' = s ∧ b = last0 (kl k)) s.
Proof.
  revert k t. induction fuel as [|fuel IH]; intros k t HR HE Hlt; [lia|].
  cbn [loop]. destruct t as [|c l a r]; [done|]. simpl addr. unfold climb_l_body at 1.
  look k. do 2 step1. destruct k as [|[c2 p o|c2 o p] k]; cbn [par faddr].
  - rewrite Z.eqb_refl. step1. by apply wp_ret.
  - assert (Hp := R_par_ne _ _ _ _ _ _ HR). simpl in Hp. rewrite (eqb_ne _ _ Hp).
    look k. step1. step1. rewrite Z.eqb_refl.
    eapply (IH k (T c2 (T c l a r) p o)); [exact HR|done|simpl in Hlt; lia].
  - assert (Hp := R_par_ne _ _ _ _ _ _ HR). simpl in Hp. rewrite (eqb_ne _ _ Hp).
    sib_ne (FR c2 o p) k (T c l a r). look k.
    step1. step1. rewrite (eqb_ne a (addr o)) by done. apply wp_ret. split; [done|].
    simpl. by rewrite app_assoc, last0_app.
Qed.

Lemma rightmost_spec h0 X fuel k t s :
  R h0 X (plug k t) s → t ≠ E → (length (elems t) < fuel)%nat →
  wp (loop fuel rightmost_body (addr t)) (λ b s', s' = s ∧ b = last0 (elems t)) s.
Proof.
  revert k t. induction fuel as [|fuel IH]; intros k t HR HE Hlt; [lia|].
  destruct t as [|c l a r]; [done|]. cbn [loop addr]. unfold rightmost_body at 1.
  look k. do 2 step1. step1. destruct (decide (addr r = NULL)) as [Hr|Hr].
  - rewrite Hr. simpl. apply wp_ret. split; [done|].
    assert (r = E) as -> by (by eapply (R_addr_null h0 X (FR c l a :: k))).
    simpl. by rewrite last0_app.
  - rewrite (eqb_ne _ _ Hr). eapply wp_mono.
    { eapply (IH (FR c l a :: k) r); [exact HR|by intros ->|].
      simpl in Hlt. rewrite length_app in Hlt. simpl in Hlt. lia. }
    intros b s' [-> ->]. split; [done|]. simpl. unfold last0.
    rewrite last_app, last_cons. destruct r; [done|]. simpl.
    by destruct (last (elems r1 ++ a0 :: elems r2)) eqn:Heq;
      [|apply last_None in Heq; destruct (elems r1)].
Qed.

Lemma rbt_next_focus h0 X k c l a r s :
  R h0 X (plug k (T c l a r)) s →
  wp (rbt_next a) (λ b s', s' = s ∧ b = hd0 (elems r ++ kr k)) s.
Proof.
  intros HR. unfold rbt_next. step1. look k. step1.
  destruct (decide (addr r = NULL)) as [Hr|Hr].
  - rewrite Hr. assert (r = E) as -> by (by eapply (R_addr_null h0 X (FR c l a :: k))).
    rewrite Z.eqb_refl. cbn [elems app]. eapply wp_mono; [eapply (climb_r_spec h0 X _ k (T c l a E)); [exact HR|done|]|done].
    apply depth_size in HR. lia.
  - rewrite (eqb_ne _ _ Hr). eapply wp_mono.
    { eapply (leftmost_spec h0 X _ (FR c l a :: k)); [exact HR|by intros ->|].
      apply R_size in HR. rewrite elems_plug in HR. simpl in HR.
      rewrite !length_app in HR. simpl in HR. lia. }
    intros b s' (-> & k2 & c2 & rr & -> & Hk2). split; [done|].
    by rewrite elems_plug, Hk2.
Qed.

Lemma rbt_prev_focus h0 X k c l a r s :
  R h0 X (plug k (T c l a r)) s →
  wp (rbt_prev a) (λ b s', s' = s ∧ b = last0 (kl k ++ elems l)) s.
Proof.
  intros HR. unfold rbt_prev. step1. look k. step1.
  destruct (decide (addr l = NULL)) as [Hl|Hl].
  - rewrite Hl. assert (l = E) as -> by (by eapply (R_addr_null h0 X (FL c a r :: k))).
    rewrite Z.eqb_refl. cbn [elems]. rewrite app_nil_r.
    eapply wp_mono; [eapply (climb_l_spec h0 X _ k (T c E a r)); [exact HR|done|]|done].
    apply depth_size in HR. lia.
  - rewrite (eqb_ne _ _ Hl). eapply wp_mono.
    { eapply (rightmost_spec h0 X _ (FL c a r :: k)); [exact HR|by intros ->|].
      apply R_size in HR. rewrite elems_plug in HR. simpl in HR.
      rewrite !length_app in HR. simpl in HR. lia. }
    intros b s' [-> ->]. split; [done|]. unfold last0. rewrite last_app.
    destruct l; [done|]. simpl.
    by destruct (last (elems l1 ++ a0 :: elems l2)) eqn:Heq;
      [|apply last_None in Heq; destruct (elems l1)].
Qed.

Lemma R_decomp h0 X t s l1 a l2 :
  R h0 X t s → elems t = l1 ++ a :: l2 →
  ∃ k c l r, t = plug k (T c l a r) ∧ l1 = kl k ++ elems l ∧ l2 = elems r ++ kr k.
Proof.
  intros HR Ht. assert (a ∈ elems t) as Ha by (rewrite Ht; set_solver).
  apply elem_of_plug in Ha as (k & c & l & r & ->). exists k, c, l, r.
  split; [done|]. pose proof (R_nodup _ _ _ _ HR) as Hnd.
  rewrite elems_plug in Ht, Hnd. simpl in Ht, Hnd.
  assert ((kl k ++ elems l) ++ a :: elems r ++ kr k = l1 ++ a :: l2) as He
    by (rewrite <- Ht; by rewrite <- !(assoc_L (++))).
  apply app_mid_inj in He as [-> ->]; [done|].
  by rewrite <- !(assoc_L (++)) in *.
Qed.

(** [rbt_next] and [rbt_prev] move along the in-order list, NULL past its ends. *)
Lemma rbt_next_spec h0 X t s l1 a l2 :
  R h0 X t s → elems t = l1 ++ a :: l2 →
  wp (rbt_next a) (λ b s', s' = s ∧ b = hd0 l2) s.
Proof.
  intros HR Ht. destruct (R_decomp _ _ _ _ _ _ _ HR Ht) as (k & c & l & r & -> & -> & ->).
  by eapply rbt_next_focus.
Qed.

Lemma rbt_prev_spec h0 X t s l1 a l2 :
  R h0 X t s → elems t = l1 ++ a :: l2 →
  wp (rbt_prev a) (λ b s', s' = s ∧ b = last0 l1) s.
Proof.
  intros HR Ht. destruct (R_decomp _ _ _ _ _ _ _ HR Ht) as (k & c & l & r & -> & -> & ->).
  by eapply rbt_prev_focus.
Qed.

Lemma addr_elem t : t ≠ E → addr t ∈ elems t.
Proof. destruct t; simpl; [done|set_solver]. Qed.

Lemma rbt_first_spec h0 X t s :
  R h0 X t s → wp rbt_first (λ b s', s' = s ∧ b = hd0 (elems t)) s.
Proof.
  intros HR. unfold rbt_first. step1. step1. rewrite (R_root _ _ _ _ HR).
  destruct (decide (t = E)) as [->|HE]; [by apply wp_ret|].
  rewrite (eqb_ne (addr t) NULL).
  2: { intros H. apply HE. by eapply (R_addr_null h0 X []). }
  destruct (list_elem_of_split (elems t) (addr t)) as (l1 & l2 & Ht); [by apply addr_elem|].
  eapply (wp_loop (λ n v s', s' = s ∧ ∃ l1 l2, elems t = l1 ++ v :: l2 ∧ n = length l1));
    [| |split; [done|by exists l1, l2]].
  - clear l1 l2 Ht. intros n v s' (-> & l1 & l2 & Ht & ->). apply wp_bind.
    eapply wp_mono; [by eapply rbt_prev_spec|]. intros b s' [-> ->]. apply wp_ret.
    destruct l1 as [|x l1' _] using rev_ind; [by rewrite Ht|].
    rewrite last0_app. rewrite eqb_ne.
    + exists (length l1'). rewrite length_app. simpl. split; [lia|]. split; [done|].
      exists l1', (v :: l2). split; [|done]. rewrite Ht. by rewrite <- (assoc_L (++)).
    + intros ->. apply (R_null _ _ _ _ HR). rewrite Ht. set_solver.
  - apply R_size in HR. rewrite Ht, length_app in HR. simpl in HR. lia.
Qed.

Lemma rbt_rep_spec h0 X t s :
  R h0 X t s → wp rbt_rep_list (λ ls s', s' = s ∧ ls = elems t) s.
Proof.
  intros HR. unfold rbt_rep_list. step1. apply wp_bind.
  eapply wp_mono; [by eapply rbt_first_spec|]. intros p s' [-> ->].
  eapply (wp_loop (λ n '(p, acc) s', s' = s ∧ ∃ l2, elems t = acc ++ l2 ∧
                      p = hd0 l2 ∧ n = length l2));
    [| |split; [done|by exists (elems t)]].
  - intros n [q acc] s' (-> & l2 & Ht & -> & ->). destruct l2 as [|x l2]; simpl.
    + rewrite app_nil_r in Ht. by apply wp_ret.
    + rewrite eqb_ne.
      * apply wp_bind. eapply wp_mono; [by eapply rbt_next_spec|].
        intros b s' [-> ->]. apply wp_ret. exists (length l2). split; [lia|].
        split; [done|]. exists l2. rewrite <- (assoc_L (++)). done.
      * intros ->. apply (R_null _ _ _ _ HR). rewrite Ht. set_solver.
  - apply R_size in HR. lia.
Qed.
