(* ===== verification/RbtSearch.v ===== *)
(** * Red-black trees: the clients' descents, and insertion of a new node *)
From S2P Require Import Prelude RbtModel RbtTree RbtRotate RbtInsert RbtFixup RbtDelete RbtIter.

(** The in-order list [es], cut by the comparison of the searched key: smaller
    keys, the nodes with the key, larger keys. *)
Record cut (cmp : Z → comparison) (es l1 m l2 : list Z) : Prop := {
  cut_eq : es = l1 ++ m ++ l2;
  cut_lo : Forall (λ x, cmp x = Gt) l1;
  cut_mid : Forall (λ x, cmp x = Eq) m;
  cut_hi : Forall (λ x, cmp x = Lt) l2;
}.

Lemma cut_none_unique (cmp : Z → comparison) l1 l2 l1' l2' :
  Forall (λ x, cmp x = Gt) l1 → Forall (λ x, cmp x = Lt) l2 →
  Forall (λ x, cmp x = Gt) l1' → Forall (λ x, cmp x = Lt) l2' →
  l1 ++ l2 = l1' ++ l2' → l1 = l1' ∧ l2 = l2'.
Proof.
  revert l1'. induction l1 as [|x l1 IH]; intros [|y l1'] H1 H2 H1' H2' He; simplify_eq/=.
  - done.
  - exfalso. decompose_Forall_hyps. congruence.
  - exfalso. decompose_Forall_hyps. congruence.
  - decompose_Forall_hyps. destruct (IH l1'); naive_solver.
Qed.

Definition link_of (k : ctx) : link :=
  match k with
  | [] => LinkRoot
  | FL _ a _ :: _ => LinkL a
  | FR _ _ a :: _ => LinkR a
  end.

Section search.
Context (cmp : Z → comparison) (h0 : nodes) (X : list Z).

Lemma wp_link_read {A} k u s (m : Z → M rbt A) Q :
  R h0 X (plug k u) s → wp (m (addr u)) Q s →
  wp (x <- link_read (link_of k) ;; m x) Q s.
Proof using Type.
  intros HR HQ. destruct k as [|[c a r|c l a] k]; simpl.
  - apply wp_get_root. by rewrite (R_root _ _ _ _ HR).
  - look k. by step1.
  - look k. by step1.
Qed.

(** Everything after a larger key is larger, before a smaller key smaller. *)
Lemma cut_after l1 m l2 x a y :
  cut cmp (x ++ a :: y) l1 m l2 → cmp a = Lt → Forall (λ z, cmp z = Lt) y.
Proof using Type.
  intros [He Hlo Hmid Hhi] Ha. apply Forall_lookup. intros i z Hz.
  assert ((x ++ a :: y) !! (length x + S i)%nat = Some z) as Hz'.
  { rewrite lookup_app_r by lia. by replace (length x + S i - length x)%nat with (S i) by lia. }
  assert ((x ++ a :: y) !! length x = Some a) as Ha'.
  { rewrite lookup_app_r by lia. by rewrite Nat.sub_diag. }
  rewrite He in Hz', Ha'. rewrite Forall_lookup in Hlo, Hmid, Hhi.
  rewrite lookup_app in Ha', Hz'. destruct (l1 !! length x) eqn:E1.
  { simplify_eq. apply Hlo in E1. congruence. }
  apply lookup_ge_None in E1. rewrite lookup_app in Ha'.
  destruct (m !! (length x - length l1)%nat) eqn:E2.
  { simplify_eq. apply Hmid in E2. congruence. }
  apply lookup_ge_None in E2.
  rewrite (proj2 (lookup_ge_None l1 _)) in Hz' by lia.
  rewrite lookup_app, (proj2 (lookup_ge_None m _)) in Hz' by lia. eauto.
Qed.

Lemma cut_before l1 m l2 x a y :
  cut cmp (x ++ a :: y) l1 m l2 → cmp a = Gt → Forall (λ z, cmp z = Gt) x.
Proof using Type.
  intros [He Hlo Hmid Hhi] Ha. apply Forall_lookup. intros i z Hz.
  assert (i < length x)%nat as Hi by (by eapply lookup_lt_Some).
  assert ((x ++ a :: y) !! i = Some z) as Hz' by (by rewrite lookup_app_l).
  assert ((x ++ a :: y) !! length x = Some a) as Ha'.
  { rewrite lookup_app_r by lia. by rewrite Nat.sub_diag. }
  rewrite He in Hz', Ha'. rewrite Forall_lookup in Hlo, Hmid, Hhi.
  rewrite lookup_app in Ha', Hz'. destruct (l1 !! length x) eqn:E1.
  { apply lookup_lt_Some in E1. destruct (lookup_lt_is_Some_2 l1 i) as [? E]; [lia|].
    rewrite E in Hz'. simplify_eq. eauto. }
  rewrite lookup_app in Ha'. destruct (m !! (length x - length l1)%nat) eqn:E2; simplify_eq.
  { apply Hmid in E2. congruence. }
  apply Hhi in Ha'. congruence.
Qed.

(** A context the descent can be in. *)
Definition on_path (k : ctx) : Prop :=
  Forall (λ x, cmp x = Gt) (kl k) ∧ Forall (λ x, cmp x = Lt) (kr k).

Lemma path_left l1 m l2 k c l a r :
  cut cmp (elems (plug k (T c l a r))) l1 m l2 → cmp a = Lt →
  on_path k → on_path (FL c a r :: k).
Proof using Type.
  intros Hc Ha [Hk1 Hk2]. split; [done|]. simpl. constructor; [done|].
  assert (elems (plug k (T c l a r)) = (kl k ++ elems l) ++ a :: elems r ++ kr k)
    as He by elems_eq.
  rewrite He in Hc. by eapply cut_after.
Qed.

Lemma path_right l1 m l2 k c l a r :
  cut cmp (elems (plug k (T c l a r))) l1 m l2 → cmp a = Gt →
  on_path k → on_path (FR c l a :: k).
Proof using Type.
  intros Hc Ha [Hk1 Hk2]. split; [|done]. simpl. rewrite (assoc_L (++)).
  apply Forall_app; split; [|by constructor].
  assert (elems (plug k (T c l a r)) = (kl k ++ elems l) ++ a :: elems r ++ kr k)
    as He by elems_eq.
  rewrite He in Hc. by eapply cut_before.
Qed.

(** The descent ends at the node with the key, or at the empty place where
    the key belongs. *)
Lemma descend_spec t l1 m l2 s :
  R h0 X t s → cut cmp (elems t) l1 m l2 →
  wp (descend cmp) (λ res s', s' = s ∧
    match res with
    | inl (parent, lk) => m = [] ∧ ∃ k, t = plug k E ∧ parent = par k ∧
        lk = link_of k ∧ kl k = l1 ∧ kr k = l2
    | inr x => x ∈ m
    end) s.
Proof using Type.
  intros HR Hc. unfold descend. step1.
  apply (wp_loop (λ n '(parent, lk) s', s' = s ∧ ∃ k u, t = plug k u ∧
    parent = par k ∧ lk = link_of k ∧ on_path k ∧ n = length (elems u)))
    with (n := length (elems t)).
  3: { split; [done|]. exists [], t. by repeat constructor. }
  2: { apply R_size in HR. lia. }
  intros n [parent lk] s' (-> & k & u & -> & -> & -> & Hp & ->).
  unfold descend_body. eapply wp_link_read; [exact HR|].
  destruct u as [|c l a r]; simpl addr.
  - rewrite Z.eqb_refl. apply wp_ret. split; [done|].
    rewrite elems_plug in Hc. simpl in Hc. destruct Hp as [Hp1 Hp2], Hc as [He Hlo Hmid Hhi].
    assert (m = []) as ->.
    { destruct m as [|x m]; [done|]. exfalso. decompose_Forall_hyps.
      assert (x ∈ kl k ++ kr k) as Hx by (rewrite He; set_solver).
      rewrite elem_of_app in Hx. rewrite Forall_forall in Hp1, Hp2.
      destruct Hx as [Hx|Hx]; [apply Hp1 in Hx|apply Hp2 in Hx]; congruence. }
    split; [done|]. exists k. split_and!; [done..| |];
      destruct (cut_none_unique cmp (kl k) (kr k) l1 l2); naive_solver.
  - destruct (R_notin _ _ _ _ _ a HR) as [_ Hn]; [simpl; set_solver|].
    rewrite (eqb_ne _ _ Hn). destruct (cmp a) eqn:Ha; apply wp_ret.
    + split; [done|]. destruct Hc as [He Hlo Hmid Hhi].
      assert (a ∈ l1 ++ m ++ l2) as Hx by (rewrite <- He, elems_plug; simpl; set_solver).
      rewrite Forall_forall in Hlo, Hhi. rewrite !elem_of_app in Hx.
      destruct Hx as [Hx|[Hx|Hx]]; [apply Hlo in Hx; congruence|done|
        apply Hhi in Hx; congruence].
    + exists (length (elems l)). split; [simpl; rewrite length_app; simpl; lia|].
      split; [done|]. exists (FL c a r :: k), l.
      split_and!; [done..|by eapply path_left|done].
    + exists (length (elems r)). split; [simpl; rewrite length_app; simpl; lia|].
      split; [done|]. exists (FR c l a :: k), r.
      split_and!; [done..|by eapply path_right|done].
Qed.

(** [rbt_find] finds the node with the key if there is one. *)
Lemma bst_find_spec t l1 m l2 s :
  R h0 X t s → cut cmp (elems t) l1 m l2 →
  wp (bst_find cmp) (λ o s', s' = s ∧
    match o with Some x => x ∈ m | None => m = [] end) s.
Proof using Type.
  intros HR Hc. unfold bst_find. step1. step1. rewrite (R_root _ _ _ _ HR).
  apply (wp_loop (λ n v s', s' = s ∧ ∃ k u, t = plug k u ∧
    v = addr u ∧ on_path k ∧ n = length (elems u))) with (n := length (elems t)).
  3: { split; [done|]. exists [], t. by repeat constructor. }
  2: { apply R_size in HR. lia. }
  intros n v s' (-> & k & u & -> & -> & Hp & ->). unfold find_body.
  destruct u as [|c l a r]; simpl addr.
  - rewrite Z.eqb_refl. apply wp_ret. split; [done|].
    rewrite elems_plug in Hc. simpl in Hc. destruct Hp as [Hp1 Hp2], Hc as [He Hlo Hmid Hhi].
    destruct m as [|x m]; [done|]. exfalso. decompose_Forall_hyps.
    assert (x ∈ kl k ++ kr k) as Hx by (rewrite He; set_solver).
    rewrite elem_of_app in Hx. rewrite Forall_forall in Hp1, Hp2.
    destruct Hx as [Hx|Hx]; [apply Hp1 in Hx|apply Hp2 in Hx]; congruence.
  - destruct (R_notin _ _ _ _ _ a HR) as [_ Hn]; [simpl; set_solver|].
    rewrite (eqb_ne _ _ Hn). look k. destruct (cmp a) eqn:Ha.
    + apply wp_ret. split; [done|]. destruct Hc as [He Hlo Hmid Hhi].
      assert (a ∈ l1 ++ m ++ l2) as Hx by (rewrite <- He, elems_plug; simpl; set_solver).
      rewrite Forall_forall in Hlo, Hhi. rewrite !elem_of_app in Hx.
      destruct Hx as [Hx|[Hx|Hx]]; [apply Hlo in Hx; congruence|done|
        apply Hhi in Hx; congruence].
    + step1. apply wp_ret. exists (length (elems l)).
      split; [simpl; rewrite length_app; simpl; lia|].
      split; [done|]. exists (FL c a r :: k), l.
      split_and!; [done..|by eapply path_left|done].
    + step1. apply wp_ret. exists (length (elems r)).
      split; [simpl; rewrite length_app; simpl; lia|].
      split; [done|]. exists (FR c l a :: k), r.
      split_and!; [done..|by eapply path_right|done].
Qed.
End search.

(** ** Linking a new node *)

(** A structure [x] that is in memory but in no position of the tree yet. *)
Definition is_fresh (x : Z) (t : tree) (s : rbt) : Prop :=
  x ≠ NULL ∧ (x ∉ elems t) ∧ is_Some (rbt_nodes s !! x).

Lemma rb_link_spec h0 X k x s :
  R h0 X (plug k E) s → is_fresh x (plug k E) s →
  wp (rb_link_node x (par k) (link_of k))
     (λ _ s', ∃ c, R h0 (x :: X) (plug k (T c E x E)) s') s.
Proof.
  intros HR (Hx & Hnin & [n Hn]). unfold rb_link_node.
  pose proof HR as HR0. rewrite R_RZ in HR. destruct HR as [Hk _ Hnd Hnull Hsub Hfr].
  simpl in *. rewrite elems_plug_perm in Hnin. simpl in Hnin.
  step1. step1. step1.
  match goal with |- wp _ _ ?st => set (s1 := st) end.
  assert (rbt_nodes s1 !! x = Some (RbtNode (n_color n) (par k) NULL NULL)) as Hx1
    by (simpl; by rewrite lookup_insert_eq).
  assert (repk (rbt_nodes s1) (rbt_root s1) NULL k) as Hk1 by (simpl; by rewrite !repk_insert).
  assert (∀ y, y ≠ x → rbt_nodes s1 !! y = rbt_nodes s !! y) as Hy
    by (intros; simpl; by rewrite !lookup_insert_ne).
  assert (wp (link_write (link_of k) x) (λ _ s', s' = relink k x s1) s1) as Hw.
  { destruct k as [|[c a r|c l a] k]; simpl in *; [done|..].
    - destruct Hk1 as (Hf & _). step1. step1. done.
    - destruct Hk1 as (Hf & _). step1. step1. done. }
  eapply wp_mono; [exact Hw|]. intros _ s' ->. exists (n_color n). apply R_RZ. split; simpl.
  - by eapply repk_relink.
  - split; [|done]. by rewrite relink_lookup.
  - constructor; done.
  - set_solver.
  - set_solver.
  - intros y Hy'. rewrite relink_lookup by set_solver. rewrite Hy by set_solver.
    apply Hfr. set_solver.
Qed.

(** [_rbt_insert] followed by [rbt_insert_color]: the new node stands where its
    key belongs, in a red-black tree. *)
Definition tree_insert (cmp : Z → comparison) (x : Z) : M rbt bool :=
  b <- bst_link cmp x ;;
  if b : bool then rbt_insert_color x ;;; ret true else ret false.

Lemma tree_insert_spec cmp h0 X t l1 m l2 x s :
  R h0 X t s → rbtree t → cut cmp (elems t) l1 m l2 → is_fresh x t s →
  wp (tree_insert cmp x) (λ b s',
    match m with
    | [] => b = true ∧ ∃ t', R h0 (x :: X) t' s' ∧ rbtree t' ∧ elems t' = l1 ++ x :: l2
    | _ => b = false ∧ s' = s
    end) s.
Proof.
  intros HR Hrb Hc Hf. unfold tree_insert, bst_link. apply wp_bind, wp_bind.
  eapply wp_mono; [by eapply descend_spec|]. intros [[parent lk]|y] s' [-> Hres].
  - destruct Hres as (-> & k & -> & -> & -> & <- & <-). apply wp_bind.
    eapply wp_mono; [by apply (rb_link_spec h0 X)|]. intros _ s1 (c & HR1).
    apply wp_ret. apply wp_bind. eapply wp_mono; [by eapply insert_color_spec|].
    intros _ s2 (t' & HR2 & He & Hrb'). apply wp_ret. split; [done|]. by exists t'.
  - apply wp_ret. apply wp_ret. destruct m; [set_solver|done].
Qed.
