(* ===== verification/RbtProps.v ===== *)
(** * Red-black trees: what lib/rbt.c promises its clients

    The interface theorems of the tree: a heap of nodes that represents a
    red-black tree keeps doing so, and the in-order sequence of nodes changes as
    a sorted list would. *)
From S2P Require Import Prelude RbtModel RbtTree RbtInsert RbtDelete RbtIter RbtSearch.

(** The heap [s] holds the red-black tree [t]. *)
Definition is_rbt (t : tree) (s : rbt) : Prop := R (rbt_nodes s) (elems t) t s ∧ rbtree t.

(** Nothing outside the nodes [X] changed. *)
Definition untouched (X : list Z) (s s' : rbt) : Prop :=
  ∀ x, x ∉ X → rbt_nodes s' !! x = rbt_nodes s !! x.

(** The tree of three nodes at addresses 16, 32 and 48 the witnesses run on,
    with a detached node at 64; the key of a node is its address. *)
Section example.
Definition ex_tree : tree := T BLACK (T RED E 16 E) 32 (T RED E 48 E).
Definition ex_rbt : rbt := Rbt 32 (list_to_map
  [(16, RbtNode RED 32 0 0); (32, RbtNode BLACK 0 16 48); (48, RbtNode RED 32 0 0);
   (64, RbtNode RED 7 7 7)]).

Lemma ex_is_rbt : is_rbt ex_tree ex_rbt.
Proof.
  split; [split|].
  - done.
  - simpl. by repeat split.
  - apply (bool_decide_unpack _). by vm_compute.
  - apply (bool_decide_unpack _). by vm_compute.
  - done.
  - done.
  - split; [done|]. exists 1%nat. repeat constructor.
Qed.

Lemma ex_cut n l1 m l2 :
  [16; 32; 48] = l1 ++ m ++ l2 → Forall (λ x, (n ?= x) = Gt) l1 →
  Forall (λ x, (n ?= x) = Eq) m → Forall (λ x, (n ?= x) = Lt) l2 →
  cut (Z.compare n) (elems ex_tree) l1 m l2.
Proof. by split. Qed.
End example.

(** C1: Inserting a node with the descent of a client and [rbt_insert_color]
    terminates without a fault; when no node has the key, the node ends up at
    the place of its key in the in-order sequence, the result is a red-black
    tree, and no other object in memory changes; when the key is taken, the
    insertion reports it and nothing changes. *)
Theorem rbt_insert_correct cmp t l1 m l2 x s :
  is_rbt t s → cut cmp (elems t) l1 m l2 → is_fresh x t s →
  wp (tree_insert cmp x) (λ b s',
    match m with
    | [] => b = true ∧ ∃ t', is_rbt t' s' ∧ elems t' = l1 ++ x :: l2 ∧
              untouched (x :: elems t) s s'
    | _ => b = false ∧ s' = s
    end) s.
Proof.
  intros [HR Hrb] Hc Hf. eapply wp_mono; [by eapply tree_insert_spec|].
  intros b s'. destruct m; [|done]. intros (-> & t' & HR' & Hrb' & He).
  split; [done|]. exists t'. split_and!; [by split; [eapply R_weaken|]|done|].
  intros y Hy; eapply R_frame; [exact HR'|exact Hy].
Qed.

Lemma rbt_insert_correct_witness :
  wp (tree_insert (Z.compare 64) 64) (λ b s',
    b = true ∧ ∃ t', is_rbt t' s' ∧ elems t' = [16; 32; 48] ++ 64 :: [] ∧
      untouched (64 :: elems ex_tree) ex_rbt s') ex_rbt.
Proof.
  apply (rbt_insert_correct (Z.compare 64) ex_tree [16; 32; 48] [] [] 64 ex_rbt).
  - apply ex_is_rbt.
  - apply ex_cut; by repeat constructor.
  - split_and!; [done| |by eexists]. apply (bool_decide_unpack _). by vm_compute.
Defined.

(** C2: Deleting a node of a red-black tree terminates without a fault, removes
    exactly that node from the in-order sequence, leaves a red-black tree, and
    changes no object outside the tree. *)
Theorem rbt_delete_correct t a s :
  is_rbt t s → a ∈ elems t →
  wp (rbt_delete a) (λ _ s', ∃ t' l1 l2,
    is_rbt t' s' ∧ elems t = l1 ++ a :: l2 ∧ elems t' = l1 ++ l2 ∧
    untouched (elems t) s s') s.
Proof.
  intros [HR Hrb] Ha. eapply wp_mono; [by eapply rbt_delete_spec|].
  intros ? s' (t' & l1 & l2 & HR' & Hrb' & He & He'). exists t', l1, l2.
  split_and!; [split; [by eapply R_weaken|done]|done|done|]. intros y Hy; eapply R_frame; [exact HR'|exact Hy].
Qed.

Lemma rbt_delete_correct_witness :
  wp (rbt_delete 32) (λ _ s', ∃ t' l1 l2,
    is_rbt t' s' ∧ elems ex_tree = l1 ++ 32 :: l2 ∧ elems t' = l1 ++ l2 ∧
    untouched (elems ex_tree) ex_rbt s') ex_rbt.
Proof.
  apply (rbt_delete_correct ex_tree 32 ex_rbt); [apply ex_is_rbt|].
  apply (bool_decide_unpack _). by vm_compute.
Defined.

(** The look-up loop returns a node with the searched key exactly when the
    tree has one, and changes nothing. *)
Theorem bst_find_correct cmp t l1 m l2 s :
  is_rbt t s → cut cmp (elems t) l1 m l2 →
  wp (bst_find cmp) (λ o s', s' = s ∧
    match o with Some x => x ∈ elems t ∧ cmp x = Eq | None => ∀ x, x ∈ elems t → cmp x ≠ Eq end) s.
Proof.
  intros [HR Hrb] Hc. eapply wp_mono; [by eapply bst_find_spec|]. intros [x|] s' [-> Hx].
  - split; [done|]. destruct Hc as [-> _ Hm _]. rewrite Forall_forall in Hm.
    split; [set_solver|by apply Hm].
  - subst m. split; [done|]. intros x Hx Hcx. destruct Hc as [He Hlo _ Hhi].
    rewrite Forall_forall in Hlo, Hhi. rewrite He in Hx. simpl in Hx.
    apply elem_of_app in Hx as [Hx|Hx]; [apply Hlo in Hx|apply Hhi in Hx]; congruence.
Qed.

Lemma bst_find_correct_witness :
  bst_find (Z.compare 48) ex_rbt = Ret (Some 48) ex_rbt ∧
  wp (bst_find (Z.compare 48)) (λ o s', s' = ex_rbt ∧
    match o with
    | Some x => x ∈ elems ex_tree ∧ (48 ?= x) = Eq
    | None => ∀ x, x ∈ elems ex_tree → (48 ?= x) ≠ Eq
    end) ex_rbt.
Proof.
  split; [by vm_compute|].
  apply (bst_find_correct (Z.compare 48) ex_tree [16; 32] [48] [] ex_rbt); [apply ex_is_rbt|].
  apply ex_cut; by repeat constructor.
Defined.

(** [rbt_rep] visits every node of the tree once, in key order, and
    [rbt_next] and [rbt_prev] return the neighbours in that order (NULL at the
    ends). *)
Theorem rbt_iteration_correct t s :
  is_rbt t s →
  wp rbt_rep_list (λ ls s', ls = elems t ∧ s' = s) s ∧
  ∀ l1 a l2, elems t = l1 ++ a :: l2 →
    wp (rbt_next a) (λ b s', b = default NULL (head l2) ∧ s' = s) s ∧
    wp (rbt_prev a) (λ b s', b = default NULL (last l1) ∧ s' = s) s.
Proof.
  intros [HR Hrb]. split.
  - eapply wp_mono; [by eapply rbt_rep_spec|]. naive_solver.
  - intros l1 a l2 He. split.
    + eapply wp_mono; [by eapply rbt_next_spec|]. intros b s' [-> ->]. by destruct l2.
    + eapply wp_mono; [by eapply rbt_prev_spec|]. intros b s' [-> ->]. done.
Qed.

Lemma rbt_iteration_correct_witness :
  wp rbt_rep_list (λ ls s', ls = elems ex_tree ∧ s' = ex_rbt) ex_rbt.
Proof. apply (rbt_iteration_correct ex_tree ex_rbt), ex_is_rbt. Defined.
