(* ===== verification/RbtClient.v ===== *)
(** * Red-black trees: what clients use

    No operation loses an object; the augmenting walks [rbt_update] and those built on it
    call [func] on nodes of the tree only, and terminate; objects sorted by a key that the
    nodes do not hold give the cut that insertion and look-up need. *)
From S2P Require Import Prelude RbtModel RbtTree RbtInsert RbtDelete RbtIter RbtSearch RbtProps.
From stdpp Require Import sorting.
#[local] Open Scope Z_scope.

(** ** Every write of lib/rbt.c goes to an object that is there

    The set of objects in memory never shrinks, so that a deleted node is still an object
    its owner can free or reuse. *)
Definition keeps {A} (m : M rbt A) : Prop :=
  ∀ s, wlp m (λ _ s', ∀ x, is_Some (rbt_nodes s !! x) → is_Some (rbt_nodes s' !! x)) s.

Lemma keeps_ret {A} (a : A) : keeps (ret a).
Proof. intros s x Hx. exact Hx. Qed.
Lemma keeps_bind {A B} (m : M rbt A) (k : A → M rbt B) :
  keeps m → (∀ a, keeps (k a)) → keeps (bind m k).
Proof.
  intros Hm Hk s. apply wlp_bind. eapply wlp_mono; [apply Hm|]. intros a s' Hs. cbn beta.
  eapply wlp_mono; [apply Hk|]. intros b s'' Hs' x Hx. by apply Hs', Hs.
Qed.
Lemma keeps_loop {V A} fuel (body : V → M rbt (V + A)) v :
  (∀ v, keeps (body v)) → keeps (loop fuel body v).
Proof.
  intros Hb. revert v. induction fuel as [|n IH]; intros v; [done|]. cbn [loop].
  apply keeps_bind; [apply Hb|]. intros [v'|a]; [apply IH|apply keeps_ret].
Qed.
Lemma keeps_gets {A} (f : rbt → A) : keeps (gets f).
Proof. intros s x Hx. exact Hx. Qed.
Lemma keeps_rd p : keeps (RbtModel.rd p).
Proof.
  intros s. unfold RbtModel.rd, wlp, bind, get, deref.
  destruct (rbt_nodes s !! p); [intros x Hx; exact Hx|done].
Qed.
Lemma keeps_wr p n : keeps (RbtModel.wr p n).
Proof.
  intros s x Hx. cbn. destruct (decide (x = p)) as [->|]; [rewrite lookup_insert_eq; by eexists|].
  by rewrite lookup_insert_ne.
Qed.
Lemma keeps_set_root q : keeps (set_root q).
Proof. intros s x Hx. exact Hx. Qed.

Ltac keeps_solve := repeat first
  [ apply keeps_ret | apply keeps_gets | apply keeps_rd | apply keeps_wr | apply keeps_set_root
  | apply keeps_loop; intros ? | apply keeps_bind; [|intros ?] | case_match ].

Lemma keeps_rotate_left n : keeps (rotate_left n).
Proof. unfold rotate_left. keeps_solve. Qed.
Lemma keeps_rotate_right n : keeps (rotate_right n).
Proof. unfold rotate_right. keeps_solve. Qed.

Lemma keeps_rbt_delete p : keeps (rbt_delete p).
Proof.
  unfold rbt_delete, delete_one, delete_two, rbt_delete_color, delete_color_body, delete_black_l,
    delete_black_r, leftmost_body, heap_fuel, black_ptr, red_ptr, get_root.
  repeat first [apply keeps_rotate_left|apply keeps_rotate_right|progress keeps_solve].
Qed.

Lemma keeps_tree_insert cmp p : keeps (tree_insert cmp p).
Proof.
  unfold tree_insert, bst_link, descend, descend_body, rb_link_node, rbt_insert_color, insert_color_body, link_read, link_write,
    heap_fuel, black_ptr, red_ptr, get_root.
  repeat first [apply keeps_rotate_left|apply keeps_rotate_right|progress keeps_solve].
Qed.

(** A total and a partial result of the same run. *)
Lemma wp_and_wlp {S A} (m : M S A) P Q s :
  wp m P s → wlp m Q s → wp m (λ a s', P a s' ∧ Q a s') s.
Proof. unfold wp, wlp. by destruct (m s). Qed.

(** ** The augmenting walks: [func] may change anything but the shape of the tree *)
(** The children and the parent of a node of the tree are nodes of the tree. *)
Lemma child_in t k c l a r x :
  t = plug k (T c l a r) → (x = addr l ∨ x = addr r ∨ x = par k) → x ≠ NULL → x ∈ elems t.
Proof.
  intros -> Hx Hn. rewrite elems_plug_perm. simpl. destruct Hx as [-> | [-> | ->] ].
  - destruct l; [done|]. simpl. set_solver.
  - destruct r; [done|]. simpl. set_solver.
  - destruct k; [done|]. simpl. set_solver.
Qed.

Lemma depth_elems k u : (length k ≤ length (elems (plug k u)))%nat.
Proof.
  rewrite elems_plug_perm, length_app. enough (length k ≤ length (kset k))%nat by lia.
  induction k; simpl; [lia|]. rewrite length_app. lia.
Qed.

Section augment.
Context {S : Type} (getc : S → rbt) (setc : rbt → S → S).
Context (set_get : ∀ s, setc (getc s) s = s).
Context (h0 : nodes) (X : list Z) (t : tree).
Context (func : Z → M S unit) (P : S → Prop).
Context (P_R : ∀ s, P s → R h0 X t (getc s)).
Context (P_func : ∀ x s, P s → x ∈ elems t → wp (func x) (λ _ s', P s') s).

Lemma wp_zoom_read {A B} (m : M rbt A) (k : A → M S B) (Q : B → S → Prop) (r : A → Prop) s :
  wp m (λ a s', s' = getc s ∧ r a) (getc s) → (∀ a, r a → wp (k a) Q s) →
  wp (a <- zoom getc setc m ;; k a) Q s.
Proof using set_get.
  intros Hm Hk. apply wp_bind, wp_zoom. eapply wp_mono; [exact Hm|].
  intros a s' [-> Ha]. cbn beta. rewrite set_get. by apply Hk.
Qed.

Lemma zoom_field {B} (f : Z → M rbt Z) g p n (k : Z → M S B) (Q : B → S → Prop) s :
  f p = (x <- rd p ;; ret (g x)) → rbt_nodes (getc s) !! p = Some n →
  wp (k (g n)) Q s → wp (a <- zoom getc setc (f p) ;; k a) Q s.
Proof using set_get.
  intros Hf Hn Hk. apply (wp_zoom_read _ _ _ (λ a, a = g n)); [|by intros a ->].
  rewrite Hf. unfold wp, bind, rd, get, deref. cbn. by rewrite Hn.
Qed.

Lemma rbt_update_spec a s :
  P s → a ∈ elems t → wp (rbt_update (λ A, zoom getc setc) func a) (λ _ s', P s') s.
Proof using All.
  intros HP Ha. unfold rbt_update.
  apply (wp_zoom_read _ _ _ (λ n, n = Datatypes.S (size (rbt_nodes (getc s))))); [done|].
  intros fuel ->.
  eapply (wp_loop (λ n v s', P s' ∧ ∃ k c l r, t = plug k (T c l v r) ∧ (length k ≤ n)%nat)) with (n := length (elems t)).
  3:{ split; [done|]. apply elem_of_plug in Ha as (k & c & l & r & ->).
      exists k, c, l, r. split; [done|]. apply depth_elems. }
  2:{ pose proof (R_size _ _ _ _ (P_R _ HP)). lia. }
  intros n v s1 (HP1 & k & c & l & r & Ht & Hn). unfold rbt_update_body.
  assert (Hv : v ∈ elems t) by (rewrite Ht, elems_plug; simpl; set_solver).
  apply wp_bind. eapply wp_mono; [by apply P_func|]. intros ? s2 HP2; cbn beta.
  assert (HR := P_R _ HP2). pose proof (P_R _ HP2) as HRk. rewrite Ht in HRk.
  eapply (zoom_field _ n_f); [done|by eapply R_focus|]. simpl.
  destruct k as [|fr k]; [by apply wp_ret|]. simpl par.
  rewrite (eqb_ne (faddr fr) NULL) by (by eapply R_par_ne).
  assert (∃ c' l' r', t = plug k (T c' l' (faddr fr) r')) as (c' & l' & r' & Ht').
  { rewrite Ht. simpl. destruct fr; simpl; eauto. }
  pose proof (P_R _ HP2) as HRf. rewrite Ht' in HRf.
  eapply (zoom_field _ n_l); [done|by eapply R_focus|]. simpl.
  eapply (zoom_field _ n_r); [done|by eapply R_focus|]. simpl.
  apply wp_bind. eapply (wp_mono _ (λ _ s', P s')).
  - destruct ((v =? addr l') && negb (addr r' =? NULL)) eqn:E1.
    + apply P_func; [done|]. eapply (child_in _ k); [exact Ht'|by right; left|].
      apply andb_true_iff in E1 as [_ E1]. by apply negb_true_iff, Z.eqb_neq in E1.
    + destruct (negb (addr l' =? NULL)) eqn:E2; [|by apply wp_ret].
      apply P_func; [done|]. eapply (child_in _ k); [exact Ht'|by left|].
      by apply negb_true_iff, Z.eqb_neq in E2.
  - intros ? s3 HP3. apply wp_ret. exists (length k).
    split; [simpl in Hn; lia|]. split; [done|]. exists k, c', l', r'. split; [done|lia].
Qed.

Lemma rbt_insert_update_spec a s :
  P s → a ∈ elems t → wp (rbt_insert_update (λ A, zoom getc setc) func a) (λ _ s', P s') s.
Proof using All.
  intros HP Ha. pose proof Ha as Ha'. apply elem_of_plug in Ha' as (k & c & l & r & Ht).
  pose proof (P_R _ HP) as HR. rewrite Ht in HR. unfold rbt_insert_update.
  eapply (zoom_field _ n_l); [done|by eapply R_focus|]. simpl.
  eapply (zoom_field _ n_r); [done|by eapply R_focus|]. simpl.
  apply rbt_update_spec; [done|]. destruct (Z.eqb_spec (addr l) NULL); simpl.
  - destruct (Z.eqb_spec (addr r) NULL); simpl; [done|].
    eapply (child_in _ k); [exact Ht|by right; left|done].
  - eapply (child_in _ k); [exact Ht|by left|done].
Qed.

Lemma rbt_delete_update_end_spec a s :
  P s → (a = NULL ∨ a ∈ elems t) →
  wp (rbt_delete_update_end (λ A, zoom getc setc) func a) (λ _ s', P s') s.
Proof using All.
  intros HP Ha. unfold rbt_delete_update_end. destruct (Z.eqb_spec a NULL); [by apply wp_ret|].
  apply rbt_update_spec; naive_solver.
Qed.
End augment.

(** [rbt_delete_update_begin] picks a node that is still in the tree once [a] is
    deleted. *)
Lemma rbt_delete_update_begin_spec h0 X t a s :
  R h0 X t s → a ∈ elems t →
  wp (rbt_delete_update_begin a)
    (λ d s', s' = s ∧ (d = NULL ∨ d ∈ elems t ∧ d ≠ a)) s.
Proof.
  intros HR Ha. apply elem_of_plug in Ha as (k & c & l & r & ->).
  assert (Hne : ∀ x, x ∈ elems l ++ elems r ++ kset k → x ≠ a).
  { rewrite R_RZ in HR. destruct HR as [_ _ Hnd _ _ _]. simpl in Hnd. clear -Hnd.
    intros x Hx ->. revert Hnd. rewrite <- app_assoc. simpl. rewrite <- Permutation_middle.
    rewrite NoDup_cons. naive_solver. }
  assert (Hin : ∀ x, x ∈ elems l ++ elems r ++ kset k →
                     x ∈ elems (plug k (T c l a r)) ∧ x ≠ a).
  { intros x Hx. split; [|by apply Hne]. rewrite elems_plug_perm. simpl. set_solver. }
  unfold rbt_delete_update_begin. look k. step1. step1.
  assert (Hl : ∀ u, addr u ≠ NULL → addr u ∈ elems u) by (intros []; simpl; set_solver).
  destruct (Z.eqb_spec (addr r) NULL) as [Hr|Hr], (Z.eqb_spec (addr l) NULL) as [Hl0|Hl0]; simpl.
  - unfold wp, get_f, rd, bind, get, deref. rewrite F. split; [done|]. destruct k; [by left|right].
    apply Hin. simpl. set_solver.
  - apply wp_ret. split; [done|right]. apply Hin. apply Hl in Hl0. set_solver.
  - apply wp_ret. split; [done|right]. apply Hin. apply Hl in Hr. set_solver.
  - apply wp_bind. unfold rbt_next. step1. look k. step1. rewrite (eqb_ne _ _ Hr).
    eapply wp_mono.
    { eapply (leftmost_spec h0 X _ (FR c l a :: k)); [exact HR|by intros ->|].
      apply R_size in HR. rewrite elems_plug in HR. simpl in HR.
      rewrite !length_app in HR. simpl in HR. lia. }
    intros b s' (-> & k2 & c2 & rr & -> & Hk2). cbn beta.
    assert (HR2 : R h0 X (plug (k2 ++ FR c l a :: k) (T c2 E b rr)) s) by (by rewrite plug_app).
    look (k2 ++ FR c l a :: k). step1. destruct (Z.eqb_spec (addr rr) NULL) as [Hrr|Hrr]; simpl.
    + step1. destruct (Z.eqb_spec (par (k2 ++ FR c l a :: k)) a) as [Hp|Hp]; simpl; apply wp_ret.
      * split; [done|right]. apply Hin. rewrite elems_plug_perm. simpl. set_solver.
      * split; [done|right]. destruct k2 as [|fr k2]; simpl in *; [done|]. apply Hin.
        rewrite elems_plug_perm. simpl. destruct fr; simpl; set_solver.
    + apply wp_ret. split; [done|right]. apply Hin. rewrite elems_plug_perm. simpl.
      apply Hl in Hrr. set_solver.
Qed.

(** ** Trees ordered by a key *)
Section keyed.
Context (key : Z → Z).

(** Strictly increasing keys along the in-order sequence. *)
Definition key_sorted (es : list Z) : Prop := StronglySorted (λ x y, key x < key y) es.

Definition key_cmp (k : Z) (q : Z) : comparison := k ?= key q.

Lemma key_sorted_app l1 l2 :
  key_sorted (l1 ++ l2) ↔ key_sorted l1 ∧ key_sorted l2 ∧
    ∀ x y, x ∈ l1 → y ∈ l2 → key x < key y.
Proof.
  unfold key_sorted. induction l1 as [|a l1 IH]; simpl.
  - split; [|by intros (_ & ? & _)]. intros H. split_and!; [constructor|done|set_solver].
  - split.
    + intros H. apply StronglySorted_inv in H as [H1 H2]. apply IH in H1 as (H3 & H4 & H5).
      rewrite Forall_app in H2. destruct H2 as [H6 H7]. split_and!; [by constructor|done|].
      intros x y Hx Hy. apply elem_of_cons in Hx as [->|Hx]; [|by apply H5].
      rewrite Forall_forall in H7. by apply H7.
    + intros (H1 & H2 & H3). apply StronglySorted_inv in H1 as [H4 H5]. constructor.
      * apply IH. split_and!; [done|done|]. intros x y Hx Hy. apply H3; [by right|done].
      * apply Forall_app. split; [done|]. apply Forall_forall. intros y Hy. apply H3; [left|done].
Qed.

Lemma key_sorted_cons x l :
  key_sorted (x :: l) ↔ (∀ y, y ∈ l → key x < key y) ∧ key_sorted l.
Proof.
  change (x :: l) with ([x] ++ l). rewrite key_sorted_app. split.
  - intros (_ & ? & H). split; [|done]. intros y. apply H. left.
  - intros [H1 H2]. split_and!; [repeat constructor|done|].
    intros a y Ha%list_elem_of_singleton Hy. subst. by apply H1.
Qed.

Lemma key_sorted_cut es k :
  key_sorted es → ∃ l1 m l2, cut (key_cmp k) es l1 m l2.
Proof.
  induction es as [|x es IH]; intros Hs.
  - exists [], [], []. by split.
  - apply key_sorted_cons in Hs as [Hx Hs]. destruct (IH Hs) as (l1 & m & l2 & [He Hlo Hm Hhi]).
    unfold key_cmp in *.
    destruct (Z.compare_spec k (key x)) as [Heq|Hlt|Hgt].
    + (* equal: everything after is larger *)
      assert (Hgt : Forall (λ q, (k ?= key q) = Lt) es).
      { apply Forall_forall. intros y Hy. apply Z.compare_lt_iff. specialize (Hx y Hy). lia. }
      exists [], [x], es. split; [done|constructor|by repeat constructor; apply Z.compare_eq_iff|done].
    + assert (Hgt : Forall (λ q, (k ?= key q) = Lt) es).
      { apply Forall_forall. intros y Hy. apply Z.compare_lt_iff. specialize (Hx y Hy). lia. }
      exists [], [], (x :: es). split; [done|constructor|constructor|].
      constructor; [by apply Z.compare_lt_iff|done].
    + exists (x :: l1), m, l2. split; [by rewrite He| |done|done].
      constructor; [by apply Z.compare_gt_iff|done].
Qed.

(** A key occurs at most once. *)
Lemma cut_mid_unique es k l1 m l2 :
  key_sorted es → cut (key_cmp k) es l1 m l2 → m = [] ∨ ∃ p, m = [p] ∧ key p = k.
Proof.
  intros Hs [He _ Hm _]. destruct m as [|p [|q m]]; [by left| |].
  - right. exists p. split; [done|]. apply Forall_inv in Hm. symmetry. by apply Z.compare_eq_iff.
  - exfalso. rewrite He in Hs. apply key_sorted_app in Hs as (_ & Hs & _).
    apply key_sorted_cons in Hs as [Hs _]. specialize (Hs q ltac:(set_solver)).
    inversion Hm as [|? ? H1 H2]; inversion H2 as [|? ? H3 H4]; subst.
    apply Z.compare_eq_iff in H1, H3. lia.
Qed.

Lemma cut_insert_sorted es k l1 l2 x :
  key_sorted es → cut (key_cmp k) es l1 [] l2 → key x = k → key_sorted (l1 ++ x :: l2).
Proof.
  intros Hs [-> Hlo _ Hhi] Hx. simpl in Hs. apply key_sorted_app in Hs as (H1 & H2 & H3).
  rewrite Forall_forall in Hlo, Hhi. unfold key_cmp in *.
  apply key_sorted_app. split_and!; [done| |].
  - apply key_sorted_cons. split; [|done]. intros y Hy. apply Hhi in Hy.
    rewrite Z.compare_lt_iff in Hy. lia.
  - intros y z Hy Hz. apply Hlo in Hy. rewrite Z.compare_gt_iff in Hy.
    apply elem_of_cons in Hz as [->|Hz]; [lia|]. apply Hhi in Hz.
    rewrite Z.compare_lt_iff in Hz. lia.
Qed.

Lemma key_sorted_delete l1 x l2 : key_sorted (l1 ++ x :: l2) → key_sorted (l1 ++ l2).
Proof.
  rewrite !key_sorted_app, key_sorted_cons. intros (H1 & (H2 & H3) & H4).
  split_and!; [done|done|]. intros y z Hy Hz. apply H4; [done|by right].
Qed.
End keyed.

(** Sortedness only looks at the keys of the elements. *)
Lemma key_sorted_ext k1 k2 es :
  (∀ x, x ∈ es → k1 x = k2 x) → key_sorted k1 es → key_sorted k2 es.
Proof.
  induction es as [|x es IH]; intros Hk; [constructor|].
  rewrite !key_sorted_cons. intros [H1 H2]. split.
  - intros y Hy. rewrite <- !Hk by set_solver. by apply H1.
  - apply IH; [|done]. intros y Hy. apply Hk. by right.
Qed.

(** ** The two operations of a client, by key *)
Lemma client_find key h0 X t s k :
  R h0 X t s → key_sorted key (elems t) →
  wp (bst_find (key_cmp key k)) (λ o s', s' = s ∧
    match o with
    | Some p => p ∈ elems t ∧ key p = k
    | None => ∀ p, p ∈ elems t → key p ≠ k
    end) s.
Proof.
  intros HR Hs. destruct (key_sorted_cut key _ k Hs) as (l1 & m & l2 & Hc).
  eapply wp_mono; [by eapply bst_find_spec|]. destruct Hc as [He Hlo Hm Hhi].
  rewrite !Forall_forall in *. unfold key_cmp in *.
  intros [x|] s' [-> Hx]; (split; [done|]).
  - split; [rewrite He; set_solver|]. symmetry. by apply Z.compare_eq_iff, Hm.
  - subst m. intros p Hp Hk. rewrite He in Hp. simpl in Hp.
    apply elem_of_app in Hp as [Hp|Hp]; [apply Hlo in Hp|apply Hhi in Hp];
      by rewrite Hk, Z.compare_refl in Hp.
Qed.

Lemma client_insert key h0 X t s k x :
  R h0 X t s → rbtree t → key_sorted key (elems t) → is_fresh x t s → key x = k →
  wp (tree_insert (key_cmp key k) x) (λ b s',
    if b : bool then
      (∀ p, p ∈ elems t → key p ≠ k) ∧ ∃ t' l1 l2, R h0 (x :: X) t' s' ∧ rbtree t' ∧
        elems t = l1 ++ l2 ∧ elems t' = l1 ++ x :: l2 ∧ key_sorted key (elems t')
    else s' = s ∧ ∃ p, p ∈ elems t ∧ key p = k) s.
Proof.
  intros HR Hrb Hs Hf Hx. destruct (key_sorted_cut key _ k Hs) as (l1 & m & l2 & Hc).
  eapply wp_mono; [by eapply tree_insert_spec|]. intros b s'.
  destruct m as [|p m].
  - intros (-> & t' & HR' & Hrb' & He'). pose proof Hc as [He Hlo _ Hhi].
    rewrite !Forall_forall in *. unfold key_cmp in *. split.
    + intros p Hp Hk. rewrite He in Hp. simpl in Hp.
      apply elem_of_app in Hp as [Hp|Hp]; [apply Hlo in Hp|apply Hhi in Hp];
        by rewrite Hk, Z.compare_refl in Hp.
    + exists t', l1, l2. split_and!; [done..|]. rewrite He'. by eapply cut_insert_sorted.
  - intros [-> ->]. split; [done|]. destruct Hc as [He _ Hm _]. exists p.
    split; [rewrite He; set_solver|]. apply Forall_inv in Hm. symmetry. by apply Z.compare_eq_iff.
Qed.
