(* ===== verification/Kmalloc.v ===== *)
(** * The kernel heap as its clients see it (kmalloc of include/memory.h)

    What a client relies on: a successful [kmalloc] returns a block that is not
    NULL and was not live, a failed one an error code. The clients are parametrised by an
    instance, and what they are proved to do holds while the heap is one that reports lack
    of memory. The [kmalloc] of memory.c does so only for small blocks of a page it has:
    when [kmalloc_page] fails it follows a pointer nobody set (Kmem.kmalloc_correct), so
    that there the error branches of the clients are never reached. *)
From S2P Require Import Prelude.

Class Kmalloc (A : Type) := {
  (** [kmalloc(&p, size)]: the error code, or the address stored in [p]. *)
  kmalloc : Z → A → (Z + Z) * A;
  (** The blocks handed out and not freed. *)
  km_live : A → gset Z;
}.

Class KmallocLaws (A : Type) `{Kmalloc A} := {
  kmalloc_ok : ∀ sz a p a', kmalloc sz a = (inr p, a') →
    0 < p < W32 ∧ (p ∉ km_live a) ∧ km_live a' = {[p]} ∪ km_live a;
  kmalloc_err : ∀ sz a e a', kmalloc sz a = (inl e, a') →
    e ≠ E_OK ∧ km_live a' = km_live a;
}.

(** A heap that hands out [km_count] blocks one after the other, for the concrete
    runs: the smallest implementation of the interface. *)
Record bump := Bump { km_count : nat; km_limit : nat }.

#[export] Instance bump_kmalloc : Kmalloc bump := {
  kmalloc sz a :=
    if (km_count a <? km_limit a)%nat && (Z.of_nat (S (km_count a)) * 256 <? W32)
    then (inr (Z.of_nat (S (km_count a)) * 256), Bump (S (km_count a)) (km_limit a))
    else (inl E_NOMEM, a);
  km_live a := list_to_set ((λ i, Z.of_nat (S i) * 256) <$> seq 0 (km_count a));
}.

#[export] Instance bump_laws : KmallocLaws bump.
Proof.
  split.
  - intros sz [n m] p a'. cbn [kmalloc bump_kmalloc km_count km_limit].
    destruct (n <? m)%nat; simpl; [|done]. destruct (_ <? W32) eqn:E; [|done].
    apply Z.ltb_lt in E. intros Heq. simplify_eq.
    cbn [km_count]. rewrite seq_S. split_and!; [lia|lia| |].
    + rewrite elem_of_list_to_set, list_elem_of_fmap. intros (i & Hi & Hin%elem_of_seq). lia.
    + rewrite fmap_app, list_to_set_app_L. simpl. set_solver.
  - intros sz [n m] e a'. cbn [kmalloc bump_kmalloc km_count km_limit].
    destruct (_ && _); [done|]. intros Heq. by simplify_eq.
Qed.

(** [kmfree] of kernel/memory/memory.c: everything but the return is commented
    out. *)
Definition kmfree {S} (addr : Z) : M S Z := ret E_OK.
