(* ===== verification/IdxAlct.v ===== *)
(** * The index allocator (include/idx_aclt.h, lib/idx_alct.c)

    A map from small integers to addresses, kept as a red-black tree ordered by
    the integer and augmented with subtree sizes. *)
From S2P Require Import Prelude RbtModel RbtTree RbtInsert RbtDelete RbtIter RbtSearch RbtProps.
From S2P Require Import RbtClient Kmalloc.

(** [struct idx_node_t]; the tree node it embeds is in the tree's heap, at the
    same address. *)
Record idx_node := IdxNode { id : Z; addr : Z; rbt_node_sum : Z }.

(** [struct idx_alct_t], the objects it points to, and the kernel heap. *)
Record idx_alct (A : Type) := IdxAlct {
  rbt_ : rbt;
  mutex_held : bool;
  objs : gmap Z idx_node;
  heap : A;
}.
Arguments IdxAlct {A}.
Arguments rbt_ {A}.
Arguments mutex_held {A}.
Arguments objs {A}.
Arguments heap {A}.

Section code.
Context {A : Type} `{Kmalloc A}.
(** The words found at the offset of [rbt_node_sum] from a NULL container, and in
    a block [kmalloc] has just returned. *)
Context (null_sum junk : Z).
Abbreviation M := (M (idx_alct A)).

Definition set_rbt (t : rbt) (s : idx_alct A) : idx_alct A :=
  IdxAlct t (mutex_held s) (objs s) (heap s).
Definition on_rbt {B} (m : Prelude.M rbt B) : M B := zoom rbt_ set_rbt m.

Definition mutex_lock : M unit :=
  s <- get ;; assert_ (negb (mutex_held s)) ;;;
  put (IdxAlct (rbt_ s) true (objs s) (heap s)).
Definition mutex_unlock : M unit :=
  s <- get ;; assert_ (mutex_held s) ;;;
  put (IdxAlct (rbt_ s) false (objs s) (heap s)).

(** The structure a tree node is embedded in ([container_of]). *)
Definition idx_of (p : Z) : M idx_node := s <- get ;; deref (objs s !! p).
Definition sum_of (p : Z) : M Z :=
  if p =? NULL then ret null_sum else o <- idx_of p ;; ret (rbt_node_sum o).
Definition set_idx (p : Z) (o : idx_node) : M unit :=
  modify (λ s, IdxAlct (rbt_ s) (mutex_held s) (<[p := o]> (objs s)) (heap s)).

(** The second test reads the left child's sum, as in the source. *)
Definition update (node : Z) : M unit :=
  idx <- idx_of node ;;
  l <- on_rbt (get_l node) ;;
  r <- on_rbt (get_r node) ;;
  sum <- (if l =? NULL then ret 1 else x <- sum_of l ;; ret (add32 1 x)) ;;
  sum <- (if r =? NULL then ret sum else x <- sum_of l ;; ret (add32 sum x)) ;;
  set_idx node (IdxNode (id idx) (addr idx) (s32 sum)).

Definition id_of (s : idx_alct A) (p : Z) : Z := default 0 (id <$> objs s !! p).

(** [_rbt_insert] and [rbt_insert_color], then the augmenting walk. *)
Definition rbt_insert (idx : Z) : M unit :=
  s <- get ;;
  b <- on_rbt (tree_insert (key_cmp (id_of s) (id_of s idx)) idx) ;;
  if b : bool then rbt_insert_update (@on_rbt) update idx else panic.

Definition rbt_find (i : Z) : M (option Z) :=
  s <- get ;; on_rbt (bst_find (key_cmp (id_of s) i)).

Definition find_free_body (nb : Z * Z) : M (Z * Z + Z) :=
  let '(n, base) := nb in
  if n =? NULL then panic else
  idx <- idx_of n ;;
  l <- on_rbt (get_l n) ;;
  next <- (if negb (l =? NULL) then
             ls <- sum_of l ;;
             assert_ (s32 (ls + base) <=? id idx) ;;;
             ret (if s32 (ls + base) <? id idx then Some (inl (l, base)) else None)
           else ret (if base <? id idx then Some (inr base) else None)) ;;
  match next with
  | Some res => ret res
  | None =>
      r <- on_rbt (get_r n) ;;
      ret (if negb (r =? NULL) then inl (r, s32 (id idx + 1)) else inr (s32 (id idx + 1)))
  end.

Definition rbt_find_free_id : M Z :=
  n <- on_rbt get_root ;;
  if n =? NULL then ret 0 else
  fuel <- on_rbt heap_fuel ;;
  loop fuel find_free_body (n, 0).

Definition SZ_IDX_NODE : Z := 28.

(** [kmalloc(&idx, sizeof(struct idx_node_t))], the fields of the new block being
    whatever the memory held. *)
Definition alloc_idx : M (Z + Z) :=
  s <- get ;;
  match kmalloc SZ_IDX_NODE (heap s) with
  | (inl err, a) => put (IdxAlct (rbt_ s) (mutex_held s) (objs s) a) ;;; ret (inl err)
  | (inr p, a) =>
      put (IdxAlct (Rbt (rbt_root (rbt_ s))
                        (<[p := RbtNode RED junk junk junk]> (rbt_nodes (rbt_ s))))
                   (mutex_held s) (<[p := IdxNode junk junk junk]> (objs s)) a) ;;;
      ret (inr p)
  end.

(** Returns the error code and, on success, the new id. *)
Definition idx_alct_new (a : Z) : M (Z * option Z) :=
  mutex_lock ;;;
  _id <- rbt_find_free_id ;;
  idx <- alloc_idx ;;
  match idx with
  | inl err => mutex_unlock ;;; ret (err, None)
  | inr idx =>
      o <- idx_of idx ;;
      set_idx idx (IdxNode _id a (rbt_node_sum o)) ;;;
      rbt_insert idx ;;;
      mutex_unlock ;;;
      ret (E_OK, Some _id)
  end.

Definition idx_alct_find (i : Z) : M (Z * option Z) :=
  mutex_lock ;;;
  p <- rbt_find i ;;
  match p with
  | None => mutex_unlock ;;; ret (E_NOTFOUND, None)
  | Some p => o <- idx_of p ;; mutex_unlock ;;; ret (E_OK, Some (addr o))
  end.

Definition idx_alct_delete (i : Z) : M Z :=
  mutex_lock ;;;
  p <- rbt_find i ;;
  match p with
  | None => mutex_unlock ;;; ret E_NOTFOUND
  | Some p =>
      deepest <- on_rbt (rbt_delete_update_begin p) ;;
      on_rbt (rbt_delete p) ;;;
      rbt_delete_update_end (@on_rbt) update deepest ;;;
      mutex_unlock ;;;
      ret E_OK
  end.

Definition idx_aclt_init : M unit :=
  on_rbt rbt_init ;;;
  modify (λ s, IdxAlct (rbt_ s) false (objs s) (heap s)).
End code.

(** A sequence of calls: [inl addr] allocates, [inr id] deletes; the result of the
    last call, or [None] when the kernel stopped. *)
Fixpoint idx_run (w : Z) (ops : list (Z + Z)) (s : idx_alct bump) : option (idx_alct bump) :=
  match ops with
  | [] => Some s
  | inl a :: ops =>
      match idx_alct_new w 7 a s with Ret _ s' => idx_run w ops s' | _ => None end
  | inr i :: ops =>
      match idx_alct_delete w i s with Ret _ s' => idx_run w ops s' | _ => None end
  end.

Definition idx_empty (n : nat) : idx_alct bump := IdxAlct (Rbt NULL ∅) false ∅ (Bump 0 n).

(** ** The map an allocator represents *)
Section spec.
Context {A : Type} `{Kmalloc A}.
Context (null_sum junk : Z).
Implicit Types s : idx_alct A.

Definition addr_of s (p : Z) : Z := default 0 (addr <$> objs s !! p).

(** The ids and addresses of the tree's nodes, in order. *)
Definition contents (t : tree) s : list (Z * Z) := (λ p, (id_of s p, addr_of s p)) <$> elems t.

Record idx_ok (t : tree) s : Prop := {
  io_rbt : is_rbt t (rbt_ s);
  io_objs : ∀ p, p ∈ elems t → is_Some (objs s !! p);
  io_sorted : key_sorted (id_of s) (elems t);
  io_live : ∀ p, p ∈ elems t → p ∈ km_live (heap s);
}.

Definition represents s (m : gmap Z Z) : Prop :=
  mutex_held s = false ∧ ∃ t, idx_ok t s ∧ list_to_map (contents t s) = m.

(** What the augmenting walks keep: everything but the sums. *)
Definition pub (o : idx_node) : Z * Z := (id o, addr o).
Definition sums_only s0 s : Prop :=
  rbt_ s = rbt_ s0 ∧ mutex_held s = mutex_held s0 ∧ heap s = heap s0 ∧
  pub <$> objs s = pub <$> objs s0.

Lemma sums_only_refl s : sums_only s s.
Proof. done. Qed.

Lemma sums_only_obj s0 s p :
  sums_only s0 s → pub <$> objs s !! p = pub <$> objs s0 !! p.
Proof.
  intros (_ & _ & _ & Ho). by rewrite <- (lookup_fmap pub (objs s)), Ho, lookup_fmap.
Qed.

Lemma sums_only_view s0 s p :
  sums_only s0 s → id_of s p = id_of s0 p ∧ addr_of s p = addr_of s0 p ∧
    (is_Some (objs s !! p) ↔ is_Some (objs s0 !! p)).
Proof.
  intros Hs. apply (sums_only_obj _ _ p) in Hs. unfold id_of, addr_of.
  destruct (objs s !! p) as [o|], (objs s0 !! p) as [o0|]; simplify_eq/=; [|by split_and!].
  unfold pub in Hs. split_and!; [congruence|congruence|]. split; intros _; by eexists.
Qed.

Lemma sums_only_ok t s0 s : sums_only s0 s → idx_ok t s0 → idx_ok t s.
Proof.
  intros Hs [H1 H2 H3 H4]. pose proof Hs as (Hr & _ & Hh & _).
  split; [by rewrite Hr| | |by rewrite Hh].
  - intros p Hp. apply (sums_only_view _ _ p Hs), H2, Hp.
  - eapply key_sorted_ext; [|exact H3]. intros p _. symmetry. apply (sums_only_view _ _ p Hs).
Qed.

Lemma sums_only_contents t s0 s : sums_only s0 s → contents t s = contents t s0.
Proof.
  intros Hs. unfold contents. apply list_fmap_ext. intros _ p _.
  by destruct (sums_only_view _ _ p Hs) as (-> & -> & _).
Qed.

Lemma set_rbt_id s : set_rbt (rbt_ s) s = s.
Proof. by destruct s. Qed.

(** Reading a link of a node of the tree. *)
Lemma wp_link_field {B} t s f g p (k : Z → M (idx_alct A) B) Q :
  R (rbt_nodes (rbt_ s)) (elems t) t (rbt_ s) → p ∈ elems t →
  f p = (x <- rd p ;; ret (g x)) →
  (∀ n, rbt_nodes (rbt_ s) !! p = Some n → wp (k (g n)) Q s) →
  wp (a <- on_rbt (f p) ;; k a) Q s.
Proof.
  intros HR Hp Hf Hk. destruct (rep_lookup _ _ _ _ (R_rep _ _ _ _ HR) Hp) as [n Hn].
  eapply (zoom_field _ _ set_rbt_id); [exact Hf|exact Hn|]. by apply Hk.
Qed.

(** The children of a node of the tree are nodes of the tree or NULL. *)
Lemma links_in t s p n :
  R (rbt_nodes (rbt_ s)) (elems t) t (rbt_ s) → p ∈ elems t →
  rbt_nodes (rbt_ s) !! p = Some n →
  (n_l n = NULL ∨ n_l n ∈ elems t) ∧ (n_r n = NULL ∨ n_r n ∈ elems t).
Proof.
  intros HR Hp Hn. apply elem_of_plug in Hp as (k & c & l & r & ->).
  pose proof (R_focus _ _ _ _ _ _ _ _ HR) as Hn'. rewrite Hn in Hn'. simplify_eq/=.
  rewrite elems_plug. simpl. split; [destruct l; [by left|right]|destruct r; [by left|right]];
    simpl; set_solver.
Qed.

Lemma wp_sum_of {B} t s p (k : Z → M (idx_alct A) B) Q :
  (∀ q, q ∈ elems t → is_Some (objs s !! q)) → p = NULL ∨ p ∈ elems t →
  (∀ x, wp (k x) Q s) → wp (x <- sum_of null_sum p ;; k x) Q s.
Proof.
  intros Ho Hp Hk. unfold sum_of. destruct (Z.eqb_spec p NULL); [by apply Hk|].
  destruct (Ho p) as [o Hpo]; [naive_solver|].
  unfold idx_of, wp, bind, get, deref. rewrite Hpo. simpl. apply Hk.
Qed.

Lemma update_spec t s0 x s :
  idx_ok t s0 → sums_only s0 s → x ∈ elems t →
  wp (update null_sum x) (λ _ s', sums_only s0 s') s.
Proof.
  intros Hok0 Hs Hx. pose proof (sums_only_ok _ _ _ Hs Hok0) as [[HR _] Ho _ _].
  unfold update. destruct (Ho x Hx) as [o Hxo].
  apply wp_bind. unfold idx_of. apply wp_bind, wp_get, wp_deref. exists o. split; [done|].
  eapply wp_link_field; [exact HR|done|done|]. intros n Hn.
  eapply wp_link_field; [exact HR|done|done|]. intros n' Hn'. simplify_eq.
  destruct (links_in _ _ _ _ HR Hx Hn) as [Hl Hr].
  assert (Hset : ∀ sum, wp (set_idx x (IdxNode (id o) (addr o) sum)) (λ _ s', sums_only s0 s') s).
  { intros sum. apply wp_modify. destruct Hs as (H1 & H2 & H3 & H4).
    split_and!; [done..|]. simpl. rewrite fmap_insert, <- H4. apply insert_id.
    by rewrite lookup_fmap, Hxo. }
  apply wp_bind. destruct (n_l n =? NULL); [apply wp_ret|eapply wp_sum_of; [done..|intros y; apply wp_ret]].
  all: apply wp_bind; destruct (n_r n =? NULL);
    [apply wp_ret|eapply wp_sum_of; [done..|intros z; apply wp_ret]]; apply Hset.
Qed.

Lemma ids_NoDup t s : idx_ok t s → NoDup (contents t s).*1.
Proof.
  intros [_ _ Hs _]. unfold contents. rewrite <- list_fmap_compose.
  induction (elems t) as [|p es IH]; simpl; [constructor|].
  apply key_sorted_cons in Hs as [H1 H2]. apply NoDup_cons. split; [|by apply IH].
  rewrite list_elem_of_fmap. intros (q & Hq & Hin). simpl in Hq. apply H1 in Hin. lia.
Qed.

Lemma contents_lookup t s p :
  idx_ok t s → p ∈ elems t →
  (list_to_map (contents t s) : gmap Z Z) !! id_of s p = Some (addr_of s p).
Proof.
  intros Hok Hp. apply elem_of_list_to_map_1; [by apply ids_NoDup|].
  apply list_elem_of_fmap. by exists p.
Qed.

Lemma contents_none t s i :
  (∀ p, p ∈ elems t → id_of s p ≠ i) →
  (list_to_map (contents t s) : gmap Z Z) !! i = None.
Proof.
  intros Hi. apply not_elem_of_list_to_map_1. unfold contents.
  rewrite <- list_fmap_compose, list_elem_of_fmap. intros (p & -> & Hp). by eapply Hi.
Qed.

Lemma rbt_find_spec t s i :
  idx_ok t s →
  wp (rbt_find i) (λ o s', s' = s ∧
    match o with
    | Some p => p ∈ elems t ∧ id_of s p = i
    | None => ∀ p, p ∈ elems t → id_of s p ≠ i
    end) s.
Proof.
  intros [[HR _] _ Hs _]. unfold rbt_find. apply wp_bind, wp_get, wp_zoom.
  eapply wp_mono; [by eapply client_find|]. intros o r [-> Ho]. by rewrite set_rbt_id.
Qed.

Definition locked s : idx_alct A := IdxAlct (rbt_ s) true (objs s) (heap s).

Lemma wp_lock {B} s (k : unit → M (idx_alct A) B) Q :
  mutex_held s = false → wp (k tt) Q (locked s) → wp (x <- mutex_lock ;; k x) Q s.
Proof. intros Hm Hk. unfold mutex_lock, wp, bind, get, assert_. by rewrite Hm. Qed.

Lemma wp_unlock {B} s (k : unit → M (idx_alct A) B) Q :
  mutex_held s = true →
  wp (k tt) Q (IdxAlct (rbt_ s) false (objs s) (heap s)) → wp (x <- mutex_unlock ;; k x) Q s.
Proof. intros Hm Hk. unfold mutex_unlock, wp, bind, get, assert_. by rewrite Hm. Qed.

Lemma idx_find_spec s m i :
  represents s m →
  wp (idx_alct_find i) (λ r s', s' = s ∧
    r = match m !! i with Some a => (E_OK, Some a) | None => (E_NOTFOUND, None) end) s.
Proof.
  intros (Hm & t & Hok & <-). unfold idx_alct_find. apply wp_lock; [done|].
  apply wp_bind. eapply wp_mono; [apply (rbt_find_spec t); by destruct Hok|].
  intros o s' [-> Ho]. destruct s as [r b os hp]; simpl in *; subst b. destruct o as [p|].
  - destruct Ho as [Hp <-]. destruct (io_objs _ _ Hok p Hp) as [ob Hob]. simpl in Hob.
    unfold idx_of. apply wp_bind, wp_bind, wp_get, wp_deref. exists ob. split; [done|].
    apply wp_unlock; [done|]. apply wp_ret. split; [done|].
    pose proof (contents_lookup _ _ _ Hok Hp) as Hl. unfold addr_of in Hl. simpl in Hl.
    rewrite Hob in Hl. unfold id_of, contents in *. simpl in *. by rewrite Hl.
  - apply wp_unlock; [done|]. apply wp_ret. split; [done|]. by rewrite contents_none.
Qed.

(** Rebuilding the invariant around a changed tree. *)
Lemma idx_ok_tree t t' s r :
  idx_ok t s → is_rbt t' r → elems t' ⊆ elems t → key_sorted (id_of s) (elems t') →
  idx_ok t' (set_rbt r s).
Proof. intros [H1 H2 H3 H4] Hr Hsub Hs. split; [done|..|done|]; simpl; auto. Qed.

Lemma contents_map_delete t s l1 p l2 t' :
  idx_ok t s → elems t = l1 ++ p :: l2 → elems t' = l1 ++ l2 →
  (list_to_map (contents t' s) : gmap Z Z) =
  delete (id_of s p) (list_to_map (contents t s)).
Proof.
  intros Hok He He'. pose proof (ids_NoDup _ _ Hok) as Hnd. unfold contents in *.
  rewrite He in Hnd |- *. rewrite He'. rewrite !fmap_app in Hnd. simpl in Hnd.
  rewrite !fmap_app. simpl. rewrite !list_to_map_app, list_to_map_cons. apply NoDup_app in Hnd as (_ & H1 & H2).
  apply NoDup_cons in H2 as [H2 _].
  rewrite delete_union, delete_insert_eq, !delete_id; [done|..].
  - by apply not_elem_of_list_to_map_1.
  - apply not_elem_of_list_to_map_1. intros Hin. apply (H1 _ Hin). left.
Qed.

Lemma idx_delete_spec s m i :
  represents s m →
  wp (idx_alct_delete null_sum i) (λ r s', represents s' (delete i m) ∧
    r = match m !! i with Some _ => E_OK | None => E_NOTFOUND end ∧
    heap s' = heap s) s.
Proof.
  intros (Hm & t & Hok & <-). unfold idx_alct_delete. apply wp_lock; [done|].
  assert (Hokl : idx_ok t (locked s)) by (by destruct Hok).
  apply wp_bind. eapply wp_mono; [by apply (rbt_find_spec t)|].
  intros [p|] s' [-> Ho].
  - destruct Ho as [Hp <-]. pose proof (io_rbt _ _ Hokl) as [HR Hrb].
    eapply (wp_zoom_read _ _ set_rbt_id); [by eapply rbt_delete_update_begin_spec|].
    intros d Hd. cbn beta. apply wp_bind, wp_zoom.
    eapply wp_mono; [by eapply rbt_delete_spec|]. intros ? r (t' & l1 & l2 & HR' & Hrb' & He & He').
    set (s1 := set_rbt r (locked s)).
    assert (Hok1 : idx_ok t' s1).
    { apply (idx_ok_tree t); [done|split; [by eapply R_weaken|done]| |].
      - rewrite He, He'. set_solver.
      - rewrite He'. pose proof (io_sorted _ _ Hokl) as Hs. rewrite He in Hs.
        by eapply key_sorted_delete. }
    apply wp_bind. eapply wp_mono.
    { eapply (rbt_delete_update_end_spec rbt_ set_rbt set_rbt_id (rbt_nodes r) (elems t') t'
               (update null_sum) (sums_only s1)).
      - intros s2 (Hr & _). rewrite Hr. exact (proj1 (io_rbt _ _ Hok1)).
      - intros x s2 Hs2 Hx. by eapply update_spec.
      - apply sums_only_refl.
      - destruct Hd as [->|[Hd Hne]]; [by left|right]. rewrite He in Hd. rewrite He'. set_solver. }
    intros ? s2 Hs2. cbn beta. pose proof Hs2 as (_ & Hml & Hh & _).
    apply wp_unlock; [done|]. apply wp_ret. change (id_of (locked s) p) with (id_of s p).
    rewrite (contents_lookup _ _ _ Hok Hp). split_and!; [|done|by rewrite Hh].
    split; [done|]. exists t'. split.
    + pose proof (sums_only_ok _ _ _ Hs2 Hok1) as []. by split.
    + change (list_to_map (contents t' s2) = delete (id_of s p) (list_to_map (contents t s) : gmap Z Z)).
      change (contents t s) with (contents t (locked s)).
      rewrite (sums_only_contents _ _ _ Hs2).
      exact (contents_map_delete t (locked s) l1 p l2 t' Hokl He He').
  - apply wp_unlock; [done|]. apply wp_ret.
    assert (Hn : (list_to_map (contents t s) : gmap Z Z) !! i = None) by (by apply contents_none).
    rewrite Hn, delete_id by done. split_and!; [|done|done].
    split; [done|]. exists t. destruct Hok. by destruct s.
Qed.

(** *** The search for a free id

    Going left trusts the left child's sum. The sums are right when they count the
    subtrees; [update] reads the left child's sum for the right child too, so that they
    are not always. *)
Record sums_right (t : tree) s : Prop := {
  sr_sum : ∀ k c l p r, t = plug k (T c l p r) → l ≠ E →
    rbt_node_sum <$> objs s !! RbtTree.addr l = Some (Z.of_nat (length (elems l)));
  sr_id : ∀ p, p ∈ elems t → 0 ≤ id_of s p < 2 ^ 31 - 1;
}.

(** [i] is the smallest number that is not in use. *)
Definition least_free (t : tree) s (i : Z) : Prop :=
  0 ≤ i ∧ (∀ p, p ∈ elems t → id_of s p ≠ i) ∧ ∀ j, 0 ≤ j < i → ∃ p, p ∈ elems t ∧ id_of s p = j.

(** At a subtree [u] with the base [b]: everything below [b] is in use, and the ids
    between [b] and the next node to the right of [u] are more than [u] has nodes. *)
Record gap_in (t : tree) s (k : ctx) (u : tree) (b : Z) : Prop := {
  ga_low : ∀ j, 0 ≤ j < b → ∃ p, p ∈ elems t ∧ id_of s p = j;
  ga_base : 0 ≤ b;
  ga_sub : ∀ p, p ∈ elems u → b ≤ id_of s p;
  ga_left : ∀ p, p ∈ kl k → id_of s p < b;
  ga_right : ∀ p, p ∈ kr k → b + Z.of_nat (length (elems u)) < id_of s p;
}.

(** Strictly ascending keys of an interval: never more than it has numbers, and if as
    many then all of them. *)
Lemma sorted_fill (key : Z → Z) es lo hi :
  key_sorted key es → lo ≤ hi → (∀ p, p ∈ es → lo ≤ key p < hi) →
  Z.of_nat (length es) ≤ hi - lo ∧
  (hi - lo ≤ Z.of_nat (length es) → ∀ j, lo ≤ j < hi → ∃ p, p ∈ es ∧ key p = j).
Proof.
  revert lo. induction es as [|x es IH]; intros lo Hs Hle Hin; cbn [length].
  { split; [lia|]. intros Hl j Hj. lia. }
  apply key_sorted_cons in Hs as [Hx Hs]. pose proof (Hin x ltac:(left)) as Hxi.
  destruct (IH (key x + 1) Hs ltac:(lia)) as [H1 H2].
  { intros p Hp. specialize (Hx p Hp). specialize (Hin p ltac:(by right)). lia. }
  split; [lia|]. intros Hl j Hj. assert (key x = lo) as Ex by lia.
  destruct (decide (j = lo)) as [->|]; [exists x; split; [left|done]|].
  destruct (H2 ltac:(lia) j ltac:(lia)) as (p & Hp & Hj'). exists p. split; [by right|done].
Qed.

Lemma elem_of_node c l a r q : q ∈ elems (T c l a r) ↔ q ∈ elems l ∨ q = a ∨ q ∈ elems r.
Proof. simpl. by rewrite elem_of_app, elem_of_cons. Qed.

Section search.
Context (t : tree) (s : idx_alct A) (Hok : idx_ok t s).

Lemma focus_run k c l p r : t = plug k (T c l p r) →
  idx_of p s = Ret (default (IdxNode 0 0 0) (objs s !! p)) s ∧ is_Some (objs s !! p) ∧ p ≠ NULL ∧
  on_rbt (get_l p) s = Ret (RbtTree.addr l) s ∧ on_rbt (get_r p) s = Ret (RbtTree.addr r) s ∧
  (RbtTree.addr l = NULL ↔ l = E) ∧ (RbtTree.addr r = NULL ↔ r = E).
Proof using Hok.
  intros Ht. pose proof Hok as [[HR _] Ho _ _].
  assert (Hin : ∀ q, q ∈ elems (T c l p r) → q ∈ elems t).
  { intros q Hq. rewrite Ht, elems_plug. apply elem_of_app. right. apply elem_of_app. by left. }
  assert (Hp : p ∈ elems t) by (apply Hin; apply elem_of_node; auto).
  destruct (Ho p Hp) as [o Hpo]. pose proof HR as HR'. rewrite Ht in HR'. pose proof (R_focus _ _ _ _ _ _ _ _ HR') as Hn.
  assert (Hnull : ∀ u, elems u ⊆ elems t → RbtTree.addr u = NULL ↔ u = E).
  { intros u Hu. destruct u as [|c' l' q r']; [done|]. split; [|done]. simpl. intros ->.
    exfalso. apply (R_null _ _ _ _ HR), Hu. apply elem_of_node; auto. }
  split_and!; [|by eexists|..].
  - unfold idx_of, bind, get, deref. by rewrite Hpo.
  - intros ->. by apply (R_null _ _ _ _ HR).
  - destruct s as [rb ? ? ?]. unfold on_rbt, zoom, get_l, rd, bind, get, deref, ret. cbn in *. by rewrite Hn.
  - destruct s as [rb ? ? ?]. unfold on_rbt, zoom, get_r, rd, bind, get, deref, ret. cbn in *. by rewrite Hn.
  - apply Hnull. intros q Hq. apply Hin. apply elem_of_node; auto.
  - apply Hnull. intros q Hq. apply Hin. apply elem_of_node; auto.
Qed.

Lemma sum_run k c l p r : t = plug k (T c l p r) → l ≠ E →
  ∃ x, sum_of null_sum (RbtTree.addr l) s = Ret x s ∧ (sums_right t s → x = Z.of_nat (length (elems l))).
Proof using Hok.
  intros Ht Hl. destruct l as [|c' l' q r']; [done|]. cbn [RbtTree.addr].
  assert (t = plug (FL c p r :: k) (T c' l' q r')) as Ht' by done.
  destruct (focus_run _ _ _ _ _ Ht') as (H1 & [o Ho] & H3 & _).
  exists (rbt_node_sum o). split.
  - unfold sum_of. rewrite eqb_ne by done. rewrite Ho in H1. by rewrite (run_bind _ _ _ _ _ H1).
  - intros Hs. pose proof (sr_sum _ _ Hs _ _ _ _ _ Ht Hl) as Hq. cbn [RbtTree.addr] in Hq. rewrite Ho in Hq.
    by simplify_eq/=.
Qed.

(** The order of the ids around a subtree. *)
Lemma focus_order k c l p r : t = plug k (T c l p r) →
  key_sorted (id_of s) (elems l) ∧ (∀ q, q ∈ elems l → id_of s q < id_of s p) ∧
  (∀ q, q ∈ elems r → id_of s p < id_of s q) ∧ (∀ q, q ∈ kr k → id_of s p < id_of s q).
Proof using Hok.
  intros Ht. pose proof (io_sorted _ _ Hok) as Hs. rewrite Ht, elems_plug in Hs.
  apply key_sorted_app in Hs as (_ & Hs & _). apply key_sorted_app in Hs as (Hs & _ & Hkr).
  simpl in Hs. apply key_sorted_app in Hs as (H1 & H2 & H3). apply key_sorted_cons in H2 as [H2 _].
  split_and!; [done|intros q Hq; apply H3; [done|left]|done|].
  intros q Hq. apply Hkr; [|done]. simpl. set_solver.
Qed.

(** The four moves of the search. *)
Lemma gap_left k c l p r b : t = plug k (T c l p r) → gap_in t s k (T c l p r) b →
  b + Z.of_nat (length (elems l)) < id_of s p → gap_in t s (FL c p r :: k) l b.
Proof using Hok.
  intros Ht [G1 G2 G3 G4 G5] Hlt. destruct (focus_order _ _ _ _ _ Ht) as (_ & _ & Hr & Hk).
  split; [done|done|intros q Hq; apply G3; apply elem_of_node; auto|done|].
  intros q Hq. simpl in Hq. apply elem_of_cons in Hq as [->|Hq]; [done|].
  apply elem_of_app in Hq as [Hq|Hq]; [specialize (Hr q Hq)|specialize (Hk q Hq)]; lia.
Qed.

(** The left subtree fills the ids up to the node's own: the base moves behind it. *)
Lemma gap_full k c l p r b : t = plug k (T c l p r) → gap_in t s k (T c l p r) b →
  id_of s p ≤ b + Z.of_nat (length (elems l)) →
  id_of s p = b + Z.of_nat (length (elems l)) ∧ gap_in t s (FR c l p :: k) r (id_of s p + 1).
Proof using Hok.
  intros Ht [G1 G2 G3 G4 G5] Hge. destruct (focus_order _ _ _ _ _ Ht) as (Hs & Hl & Hr & _).
  assert (Hin : ∀ q, q ∈ elems (T c l p r) → q ∈ elems t).
  { intros q Hq. rewrite Ht, elems_plug. apply elem_of_app. right. apply elem_of_app. by left. }
  assert (b ≤ id_of s p) by (apply G3; apply elem_of_node; auto).
  destruct (sorted_fill (id_of s) (elems l) b (id_of s p) Hs) as [H1 H2]; [done| |].
  { intros q Hq. split; [apply G3; apply elem_of_node; auto|by apply Hl]. }
  assert (id_of s p = b + Z.of_nat (length (elems l))) as Ep by lia. split; [done|]. split.
  - intros j Hj. destruct (decide (j < b)); [apply G1; lia|]. destruct (decide (j = id_of s p)) as [->|].
    + exists p. split; [apply Hin; apply elem_of_node; auto|done].
    + destruct (H2 ltac:(lia) j ltac:(lia)) as (q & Hq & Ej). exists q. split; [apply Hin; apply elem_of_node; auto|done].
  - lia.
  - intros q Hq. specialize (Hr q Hq). lia.
  - intros q Hq. simpl in Hq. apply elem_of_app in Hq as [Hq|Hq]; [specialize (G4 q Hq); lia|].
    apply elem_of_app in Hq as [Hq|Hq%list_elem_of_singleton]; [specialize (Hl q Hq); lia|subst; lia].
  - intros q Hq. simpl in Hq. specialize (G5 q Hq). simpl in G5. rewrite length_app in G5. simpl in G5. lia.
Qed.

(** Out of the tree: the base is the smallest free id. *)
Lemma gap_out k b : t = plug k E → gap_in t s k E b → least_free t s b.
Proof using Hok.
  intros Ht [G1 G2 G3 G4 G5]. split_and!; [done| |done]. intros p Hp Hb.
  rewrite Ht, elems_plug in Hp. simpl in *. apply elem_of_app in Hp as [Hp|Hp]; [apply G4 in Hp|apply G5 in Hp]; lia.
Qed.
(** The sum of the left subtree and the base do not pass the node's id. *)
Lemma left_fits k c l p r b : t = plug k (T c l p r) → gap_in t s k (T c l p r) b →
  b + Z.of_nat (length (elems l)) ≤ id_of s p.
Proof using Hok.
  intros Ht [_ _ G3 _ _]. destruct (focus_order _ _ _ _ _ Ht) as (Hs & Hl & _).
  destruct (sorted_fill (id_of s) (elems l) b (id_of s p) Hs) as [H1 _]; [apply G3; apply elem_of_node; auto| |lia].
  intros q Hq. split; [apply G3; apply elem_of_node; auto|by apply Hl].
Qed.

(** One turn: down into a smaller subtree, out with the least free id, or the failed
    assertion, which wrong sums alone explain. *)
Lemma find_free_body_spec k u b : t = plug k u → u ≠ E → (sums_right t s → gap_in t s k u b) →
  wpp (¬ sums_right t s) (find_free_body null_sum (RbtTree.addr u, b)) (λ x s', s' = s ∧
    match x with
    | inl (n, b') => ∃ k' u', t = plug k' u' ∧ u' ≠ E ∧ n = RbtTree.addr u' ∧
        (length (elems u') < length (elems u))%nat ∧ (sums_right t s → gap_in t s k' u' b')
    | inr i => sums_right t s → least_free t s i
    end) s.
Proof using Hok.
  intros Ht Hu Hg. destruct u as [|c l p r]; [done|]. cbn [RbtTree.addr].
  destruct (focus_run _ _ _ _ _ Ht) as (Hidx & [o Ho] & Hp0 & Hl & Hr & Hl0 & Hr0).
  assert (Hpid : id_of s p = id o) by (unfold id_of; by rewrite Ho).
  assert (Hpin : p ∈ elems t) by (rewrite Ht, elems_plug; apply elem_of_app; right; apply elem_of_app; left; apply elem_of_node; auto).
  rewrite Ho in Hidx. change (default (IdxNode 0 0 0) (Some o)) with o in Hidx. unfold find_free_body. rewrite eqb_ne by done.
  eapply wpp_step; [exact Hidx|]. eapply wpp_step; [exact Hl|]. cbn beta.
  assert (Hright : (sums_right t s → gap_in t s (FR c l p :: k) r (id o + 1)) →
    wpp (¬ sums_right t s) (r <- on_rbt (get_r p) ;; ret (if negb (r =? NULL) then inl (r, s32 (id o + 1)) else inr (s32 (id o + 1))))
      (λ x s', s' = s ∧ match x with
        | inl (n, b') => ∃ k' u', t = plug k' u' ∧ u' ≠ E ∧ n = RbtTree.addr u' ∧
            (length (elems u') < length (elems (T c l p r)))%nat ∧ (sums_right t s → gap_in t s k' u' b')
        | inr i => sums_right t s → least_free t s i end) s).
  { intros Hgr. eapply wpp_step; [exact Hr|]. cbn beta.
    assert (Hs32 : sums_right t s → s32 (id o + 1) = id o + 1).
    { intros Hs. pose proof (sr_id _ _ Hs p Hpin). rewrite s32_small; lia. }
    destruct (decide (r = E)) as [->|Hre].
    - cbn. split; [done|]. intros Hs. rewrite Hs32 by done. apply (gap_out (FR c l p :: k)); [done|by apply Hgr].
    - rewrite eqb_ne by tauto. cbn. split; [done|]. exists (FR c l p :: k), r. split_and!; [done|done|done| |].
      + rewrite length_app. cbn [length]. lia.
      + intros Hs. rewrite Hs32 by done. by apply Hgr. }
  destruct (decide (l = E)) as [->|Hle].
  - change (negb (RbtTree.addr E =? NULL)) with false. cbv iota.
    destruct (Z.ltb_spec b (id o)) as [Hlt|Hge]; (eapply wpp_step; [done|]); cbn beta iota.
    + cbn. split; [done|]. intros Hs. apply (gap_out (FL c p r :: k)); [done|].
      eapply gap_left; [done|by apply Hg|]. simpl. rewrite Hpid. lia.
    + apply Hright. intros Hs. rewrite <- Hpid. eapply gap_full; [done|by apply Hg|].
      simpl. rewrite Hpid. lia.
  - rewrite eqb_ne by tauto. cbn [negb]. destruct (sum_run _ _ _ _ _ Ht Hle) as (x & Hx & Hxs).
    apply wpp_bind. eapply wpp_step; [exact Hx|]. cbn beta.
    assert (Hs32 : sums_right t s → s32 (x + b) = b + Z.of_nat (length (elems l)) ∧ b + Z.of_nat (length (elems l)) ≤ id o).
    { intros Hs. rewrite Hxs by done. pose proof (left_fits _ _ _ _ _ _ Ht (Hg Hs)) as Hf. rewrite Hpid in Hf.
      pose proof (sr_id _ _ Hs p Hpin) as Hi. rewrite Hpid in Hi. pose proof (ga_base _ _ _ _ _ (Hg Hs)).
      split; [rewrite s32_small; lia|done]. }
    apply wpp_bind. apply wpp_assert; [|intros Hf Hs; apply Z.leb_gt in Hf; destruct (Hs32 Hs); lia].
    intros _. destruct (Z.ltb_spec (s32 (x + b)) (id o)) as [Hlt|Hge]; unfold wpp at 1; cbn [ret].
    + cbn. split; [done|]. exists (FL c p r :: k), l. split_and!; [done|done|done| |].
      * rewrite length_app. cbn [length]. lia.
      * intros Hs. destruct (Hs32 Hs) as [E1 E2]. eapply gap_left; [done|by apply Hg|]. rewrite Hpid. lia.
    + apply Hright. intros Hs. destruct (Hs32 Hs) as [E1 E2].
      rewrite <- Hpid. eapply gap_full; [done|by apply Hg|]. rewrite Hpid. lia.
Qed.

(** The search ends, changes nothing, and with right sums finds the least free id. *)
Lemma find_free_spec :
  wpp (¬ sums_right t s) (rbt_find_free_id null_sum) (λ i s', s' = s ∧ (sums_right t s → least_free t s i)) s.
Proof using Hok.
  pose proof Hok as [[HR _] _ _ _].
  unfold rbt_find_free_id. eapply wpp_step.
  { instantiate (1 := s). instantiate (1 := RbtTree.addr t).
    rewrite <- (R_root _ _ _ _ HR). by destruct s. }
  cbn beta. destruct (decide (t = E)) as [Et|Hne].
  - rewrite Et. cbn. split; [done|]. intros _. split_and!; [done| |intros j Hj; lia].
    intros p Hp. by apply elem_of_nil in Hp.
  - assert (RbtTree.addr t ≠ NULL) as Hn.
    { assert (∃ c l p r, t = T c l p r) as (c & l & p & r & Et) by (destruct t; [done|by eauto]).
      rewrite Et. by destruct (focus_run [] c l p r Et) as (_ & _ & Hp & _). }
    rewrite eqb_ne by done. eapply wpp_step.
    { instantiate (1 := s). instantiate (1 := Datatypes.S (size (rbt_nodes (rbt_ s)))). by destruct s. }
    cbn beta. eapply (wpp_loop _ (λ n v s', s' = s ∧ ∃ k u, t = plug k u ∧ u ≠ E ∧ fst v = RbtTree.addr u ∧
      (length (elems u) ≤ n)%nat ∧ (sums_right t s → gap_in t s k u (snd v)))) with (n := length (elems t)).
    + intros n [m b] s' (-> & k & u & Ht & Hu & Hm & Hn' & Hg). cbn [fst snd] in *. subst m.
      eapply wpp_mono; [by apply (find_free_body_spec k u b)|]. intros [ [m b']|i] s' [-> Hx]; [|done].
      destruct Hx as (k' & u' & Ht' & Hu' & -> & Hlt & Hg'). exists (length (elems u')). split; [lia|].
      split; [done|]. by exists k', u'.
    + pose proof (R_size _ _ _ _ HR). lia.
    + split; [done|]. exists [], t. split_and!; [done|done|done|done|]. intros Hs. split; cbn.
      * intros j Hj. lia.
      * done.
      * intros p Hp. by apply (sr_id _ _ Hs).
      * intros p Hp. by apply elem_of_nil in Hp.
      * intros p Hp. by apply elem_of_nil in Hp.
Qed.
End search.

Context `{!KmallocLaws A}.

(** The state after [kmalloc] has returned the new object [p]. *)
Definition with_obj (p : Z) (o : idx_node) (nd : rbt_node) (a : A) s : idx_alct A :=
  IdxAlct (Rbt (rbt_root (rbt_ s)) (<[p := nd]> (rbt_nodes (rbt_ s)))) (mutex_held s)
          (<[p := o]> (objs s)) a.

Lemma with_obj_ok t p o nd a s :
  idx_ok t s → p ∉ km_live (heap s) → km_live a = {[p]} ∪ km_live (heap s) →
  let s' := with_obj p o nd a s in
  idx_ok t s' ∧ contents t s' = contents t s ∧ (p ∉ elems t) ∧ id_of s' p = id o ∧
  addr_of s' p = addr o.
Proof.
  intros Hok Hp Ha s'. pose proof Hok as [[HR Hrb] Ho Hs Hl].
  assert (Hpe : p ∉ elems t) by (intros Hpe; by apply Hp, Hl).
  assert (Hv : ∀ q, q ∈ elems t → objs s' !! q = objs s !! q).
  { intros q Hq. simpl. apply lookup_insert_ne. by intros ->. }
  split_and!; [split| |done| |].
  - split; [|done]. destruct HR as [H1 H2 H3 H4 H5 H6]. split; [done| |done..].
    eapply rep_ext; [|done]. intros q Hq. simpl. apply lookup_insert_ne. by intros ->.
  - intros q Hq. rewrite Hv by done. by apply Ho.
  - eapply key_sorted_ext; [|exact Hs]. intros q Hq. unfold id_of. by rewrite Hv.
  - intros q Hq. simpl. rewrite Ha. apply elem_of_union_r, Hl, Hq.
  - unfold contents. apply list_fmap_ext. intros i q Hq%list_elem_of_lookup_2.
    unfold id_of, addr_of. by rewrite Hv.
  - unfold id_of. simpl. by rewrite lookup_insert_eq.
  - unfold addr_of. simpl. by rewrite lookup_insert_eq.
Qed.

Lemma contents_map_insert t t' s l1 p l2 :
  idx_ok t' s → elems t = l1 ++ l2 → elems t' = l1 ++ p :: l2 →
  (list_to_map (contents t' s) : gmap Z Z) =
  <[id_of s p := addr_of s p]> (list_to_map (contents t s)).
Proof.
  intros Hok He He'. rewrite (contents_map_delete t' s l1 p l2 t Hok He' He).
  rewrite insert_delete_eq. symmetry. apply insert_id, contents_lookup; [done|].
  rewrite He'. set_solver.
Qed.

(** Inserting a new object, or the panic on a key that is taken. *)
Lemma rbt_insert_wpp t s p :
  idx_ok t s → p ≠ NULL → p ∉ elems t → is_Some (rbt_nodes (rbt_ s) !! p) →
  is_Some (objs s !! p) → p ∈ km_live (heap s) →
  wpp (∃ q, q ∈ elems t ∧ id_of s q = id_of s p) (rbt_insert null_sum p)
    (λ _ s', (∀ q, q ∈ elems t → id_of s q ≠ id_of s p) ∧
    mutex_held s' = mutex_held s ∧ ∃ t', idx_ok t' s' ∧
    (list_to_map (contents t' s') : gmap Z Z) =
      <[id_of s p := addr_of s p]> (list_to_map (contents t s))) s.
Proof.
  intros Hok Hp0 Hpe Hnd Hob Hl. pose proof Hok as [[HR Hrb] Ho Hs Hlv].
  unfold rbt_insert. eapply wpp_step; [done|]. apply wpp_bind, wp_wpp, wp_zoom.
  eapply wp_mono; [by eapply (client_insert (id_of s))|]. intros [] r; [|by intros [-> Hq]].
  intros (Hne & t' & l1 & l2 & HR' & Hrb' & He & He' & Hs'). apply wp_wpp.
  set (s1 := set_rbt r s). assert (Hok1 : idx_ok t' s1).
  { split; [by split; [eapply R_weaken|]|..|exact Hs'|]; cbn; intros q Hq.
    all: rewrite He' in Hq; apply elem_of_app in Hq as [Hq|Hq];
      [|apply elem_of_cons in Hq as [->|Hq]]; try done.
    all: apply Ho || apply Hlv; rewrite He; set_solver. }
  eapply wp_mono.
  { eapply (rbt_insert_update_spec rbt_ set_rbt set_rbt_id (rbt_nodes r) (elems t') t'
             (update null_sum) (sums_only s1)).
    - intros s2 (Hr & _). rewrite Hr. exact (proj1 (io_rbt _ _ Hok1)).
    - intros x s2 Hs2 Hx. by eapply update_spec.
    - apply sums_only_refl.
    - rewrite He'. set_solver. }
  intros ? s2 Hs2. cbn beta in *. split_and!; [done|by destruct Hs2 as (_ & -> & _)|].
  exists t'. split; [by eapply sums_only_ok|]. rewrite (sums_only_contents _ _ _ Hs2).
  exact (contents_map_insert t t' s1 l1 p l2 Hok1 He He').
Qed.

(** What a call leaves: the id it has given out, or the heap's error. *)
Definition new_post (t : tree) s (a : Z) (r : Z * option Z) s' : Prop :=
  let m := list_to_map (contents t s) in
  match r with
  | (e, Some i) => e = E_OK ∧ m !! i = None ∧ represents s' (<[i := a]> m) ∧
      (sums_right t s → 0 ≤ i ∧ ∀ j, 0 ≤ j < i → is_Some (m !! j))
  | (e, None) => e ≠ E_OK ∧ represents s' m ∧ fst (kmalloc SZ_IDX_NODE (heap s)) = inl e
  end.

Lemma idx_new_wpp t s a :
  idx_ok t s → mutex_held s = false →
  wpp (¬ sums_right t s) (idx_alct_new null_sum junk a) (new_post t s a) s.
Proof.
  intros Hok Hm. unfold idx_alct_new.
  assert (Hlk : mutex_lock s = Ret tt (locked s)).
  { unfold mutex_lock, bind, get, put, assert_. by rewrite Hm. }
  eapply wpp_step; [exact Hlk|]. cbn beta. apply wpp_bind.
  assert (Hokl : idx_ok t (locked s)) by (by destruct Hok).
  assert (Hsr : sums_right t s ↔ sums_right t (locked s)) by (by split; intros []; split).
  pose proof (find_free_spec t (locked s) Hokl) as Hfind. unfold wpp in Hfind at 1.
  unfold wpp at 1. destruct (rbt_find_free_id null_sum (locked s)) as [i s1| | |]; [|by rewrite Hsr|done|done].
  destruct Hfind as [-> Hleast]. rewrite <- Hsr in Hleast.
  destruct (kmalloc SZ_IDX_NODE (heap (locked s))) as [[err|p] hp] eqn:Hk.
  { eapply wpp_step; [unfold alloc_idx, bind, get; by rewrite Hk|]. cbn beta iota. pose proof Hk as Hk0.
    apply kmalloc_err in Hk as [He Hl]. unfold wpp; cbn. cbn in Hk0. split; [done|]. split; [|by rewrite Hk0].
    split; [done|].
    exists t. split; [|done]. destruct Hok as [H1 H2 H3 H4]. split; [done..|].
    cbn. cbn in Hl. by rewrite Hl. }
  set (o := IdxNode i a junk). set (nd := RbtNode RED junk junk junk).
  set (jk := IdxNode junk junk junk).
  eapply wpp_step.
  { instantiate (1 := with_obj p jk nd hp (locked s)). instantiate (1 := inr p).
    unfold alloc_idx, bind, get. by rewrite Hk. }
  cbn beta iota. apply kmalloc_ok in Hk as (Hp0' & Hpl & Hl). assert (p ≠ 0) as Hp0 by lia.
  destruct (with_obj_ok t p o nd hp _ Hokl Hpl Hl) as (Hok1 & Hc1 & Hpe & Hid & Had).
  set (s1 := with_obj p o nd hp (locked s)) in *.
  eapply wpp_step.
  { instantiate (1 := with_obj p jk nd hp (locked s)). instantiate (1 := jk).
    unfold idx_of, bind, get, deref, with_obj. cbn. by rewrite lookup_insert_eq. }
  cbn beta. eapply wpp_step.
  { instantiate (1 := s1). instantiate (1 := tt).
    unfold set_idx, modify, with_obj, s1, with_obj. cbn. by rewrite insert_insert_eq. }
  assert (Hids : ∀ q, q ∈ elems t → id_of s1 q = id_of s q).
  { intros q Hq. unfold id_of, s1, with_obj. cbn. rewrite lookup_insert_ne by (by intros <-). done. }
  assert (Hin : ∀ q, q ∈ elems t → is_Some ((list_to_map (contents t s) : gmap Z Z) !! id_of s q)).
  { intros q Hq. eexists. by apply contents_lookup. }
  apply wpp_bind. eapply wpp_mono'.
  { apply (rbt_insert_wpp t s1 p); [done|done|done|..]; cbn.
    - by rewrite lookup_insert_eq.
    - by rewrite lookup_insert_eq.
    - rewrite Hl. set_solver. }
  { intros (q & Hq & Hqi) Hs. destruct (Hleast Hs) as (_ & Hl2 & _). apply (Hl2 q Hq).
    by rewrite (Hids q Hq), Hid in Hqi. }
  intros ? s2 (Hne & Hml & t' & Hok2 & Hc2). cbn beta.
  apply wp_wpp, wp_unlock; [done|]. apply wp_ret. unfold new_post. cbn zeta. split; [done|].
  assert (Hm1 : (list_to_map (contents t s) : gmap Z Z) !! i = None).
  { apply contents_none. intros q Hq Hqi. apply (Hne q Hq). by rewrite (Hids q Hq), Hqi, Hid. }
  split; [done|]. split.
  - split; [done|]. exists t'. split; [by destruct Hok2|].
    change (list_to_map (contents t' s2) = <[i:=a]> (list_to_map (contents t (locked s)) : gmap Z Z)).
    by rewrite Hc2, <- Hc1, Hid, Had.
  - intros Hs. destruct (Hleast Hs) as (H0 & _ & H2). split; [done|]. intros j Hj.
    destruct (H2 j Hj) as (q & Hq & <-). by apply Hin.
Qed.

(** What the clients of the allocator rely on. *)
Lemma idx_new_spec s m a :
  represents s m →
  wlp (idx_alct_new null_sum junk a) (λ r s',
    match snd r with
    | Some i => fst r = E_OK ∧ m !! i = None ∧ represents s' (<[i := a]> m)
    | None => fst r ≠ E_OK ∧ represents s' m
    end) s.
Proof.
  intros (Hm & t & Hok & <-). eapply wlp_mono; [eapply wpp_wlp, (idx_new_wpp t s a Hok Hm)|].
  intros [e [i|]] s'; cbn; naive_solver.
Qed.
End spec.

(** ** The allocator as a finite map *)


(** One id, 0, at the object 256. *)
Definition idx_one : idx_alct bump :=
  IdxAlct (Rbt 256 {[256 := RbtNode BLACK 0 0 0]}) false {[256 := IdxNode 0 99 1]} (Bump 1 5).

Lemma idx_one_ok : idx_ok (T BLACK E 256 E) idx_one.
Proof.
  split.
  - split; [split|].
    + done.
    + simpl. by repeat split.
    + apply (bool_decide_unpack _). by vm_compute.
    + apply (bool_decide_unpack _). by vm_compute.
    + done.
    + done.
    + split; [done|]. exists 1%nat. repeat constructor.
  - intros p ->%list_elem_of_singleton. by eexists.
  - repeat constructor.
  - intros p ->%list_elem_of_singleton. apply (bool_decide_unpack _). by vm_compute.
Qed.
Lemma idx_one_represents : represents idx_one {[0 := 99]}.
Proof. split; [done|]. exists (T BLACK E 256 E). split; [apply idx_one_ok|done]. Qed.
Lemma idx_one_sums : sums_right (T BLACK E 256 E) idx_one.
Proof.
  split; [|by intros p ->%list_elem_of_singleton].
  intros k c [|c' l q r'] p r Ht Hl; [done|]. exfalso.
  apply (f_equal (λ t, length (elems t))) in Ht. rewrite elems_plug in Ht. cbn [elems] in Ht.
  repeat (rewrite length_app in Ht; cbn [length] in Ht). lia.
Qed.


Lemma idx_empty_represents n : represents (idx_empty n) ∅.
Proof.
  split; [done|]. exists E. split; [|done]. split.
  - split; [split|].
    + done.
    + simpl. by repeat split.
    + apply (bool_decide_unpack _). by vm_compute.
    + apply (bool_decide_unpack _). by vm_compute.
    + done.
    + done.
    + split; [done|]. exists 0%nat. repeat constructor.
  - intros p Hp. by apply elem_of_nil in Hp.
  - constructor.
  - intros p Hp. by apply elem_of_nil in Hp.
Qed.

(** [idx_alct_find] and [idx_alct_delete] never stop the kernel: the first
    returns the address of the id, the second removes the id and nothing else,
    and both return [E_NOTFOUND] for an id that is not in use; the mutex is
    released on every path. *)
Theorem idx_alct_find_delete_correct {A} `{Kmalloc A} null_sum (s : idx_alct A) m i :
  represents s m →
  wp (idx_alct_find i) (λ r s', s' = s ∧
    r = match m !! i with Some a => (E_OK, Some a) | None => (E_NOTFOUND, None) end) s ∧
  wp (idx_alct_delete null_sum i) (λ r s', represents s' (delete i m) ∧
    r = match m !! i with Some _ => E_OK | None => E_NOTFOUND end) s.
Proof.
  intros Hr. split; [by apply idx_find_spec|]. eapply wp_mono; [by apply idx_delete_spec|].
  naive_solver.
Qed.

Lemma idx_alct_find_delete_correct_witness :
  wp (idx_alct_find 0) (λ r s', s' = idx_one ∧ r = (E_OK, Some 99)) idx_one ∧
  wp (idx_alct_delete 0 0) (λ r s', represents s' (delete 0 {[0 := 99]}) ∧ r = E_OK) idx_one.
Proof.
  pose proof (idx_alct_find_delete_correct 0 idx_one {[0 := 99]} 0 idx_one_represents) as Hw.
  rewrite lookup_singleton_eq in Hw. exact Hw.
Defined.

(** After four allocations and the deletion of id 1, the second further allocation
    stops the kernel: the sum of a node with a right child only is read before
    address 0, and the search is sent to an id that is taken. *)
Lemma idx_alct_stops_after_delete :
  let ops := [inl 1; inl 1; inl 1; inl 1; inr 1; inl 1] in
  bool_decide (is_Some (idx_run 0 ops (idx_empty 9))) = true ∧
  idx_run 0 (ops ++ [inl 1]) (idx_empty 9) = None.
Proof. by vm_compute. Qed.
