(* ===== verification/IdMap.v ===== *)
(** * Numbered objects: what its clients rely on of the index allocator

    Messages, boxes, threads and processes are found by number. The interface is
    that of include/idx_aclt.h; the red-black-tree implementation of
    lib/idx_alct.c discharges its laws. *)
From S2P Require Import Prelude Kmalloc IdxAlct.

Class IdMap (A : Type) := {
  (** [idx_alct_new(alct, ptr, &id)], [idx_alct_find(alct, id, &ptr)],
      [idx_alct_delete(alct, id)]. *)
  id_new : Z → M A (Z * option Z);
  id_find : Z → M A (Z * option Z);
  id_del : Z → M A Z;
}.

(** [id_rep a m]: the numbers in use and the addresses they stand for. *)
Class IdMapLaws (A : Type) `{IdMap A} := {
  id_rep : A → gmap Z Z → Prop;
  id_new_ok : ∀ a m p, id_rep a m →
    wlp (id_new p) (λ r a',
      match snd r with
      | Some i => fst r = E_OK ∧ m !! i = None ∧ id_rep a' (<[i := p]> m)
      | None => fst r ≠ E_OK ∧ id_rep a' m
      end) a;
  id_find_ok : ∀ a m i, id_rep a m →
    wp (id_find i) (λ r a', a' = a ∧
      r = match m !! i with Some p => (E_OK, Some p) | None => (E_NOTFOUND, None) end) a;
  id_del_ok : ∀ a m i, id_rep a m →
    wp (id_del i) (λ r a', id_rep a' (delete i m) ∧
      r = match m !! i with Some _ => E_OK | None => E_NOTFOUND end) a;
}.

(** The implementation of lib/idx_alct.c. *)
Definition idx_id_map {A} `{Kmalloc A} (null_sum junk : Z) : IdMap (idx_alct A) := {|
  id_new := idx_alct_new null_sum junk;
  id_find := idx_alct_find;
  id_del := idx_alct_delete null_sum;
|}.

Definition idx_id_laws {A} `{KmallocLaws A} (null_sum junk : Z) :
  @IdMapLaws (idx_alct A) (idx_id_map null_sum junk).
Proof.
  refine (@Build_IdMapLaws (idx_alct A) (idx_id_map null_sum junk) represents _ _ _).
  - intros a m p Hr. by apply idx_new_spec.
  - intros a m i Hr. by apply idx_find_spec.
  - intros a m i Hr. eapply wp_mono; [by apply idx_delete_spec|]. naive_solver.
Defined.

(** For the concrete runs: no sums before address 0, junk 7. *)
#[export] Instance bump_id_map : IdMap (idx_alct bump) := idx_id_map 0 7.
#[export] Instance bump_id_laws : IdMapLaws (idx_alct bump) := idx_id_laws 0 7.
