(* ===== verification/DList.v ===== *)
(** * Circular doubly linked lists (include/list.h, lib/list.c) and the slot
    allocator built on them (lib/slot.c)

    The heap maps the address of a [list_node_t] to its two pointers. A list
    head with the nodes [xs] after it is the predicate [dlist]; every operation
    is proved to act on [xs] as the sequence operation it implements. *)
From S2P Require Import Prelude.

Record lnode := LNode { ln_p : Z; ln_n : Z }.
Abbreviation lheap := (gmap Z lnode).

Section code.
Definition lrd (a : Z) : M lheap lnode := h <- get ;; deref (h !! a).
Definition get_p (a : Z) : M lheap Z := x <- lrd a ;; ret (ln_p x).
Definition get_n (a : Z) : M lheap Z := x <- lrd a ;; ret (ln_n x).
Definition set_p (a b : Z) : M lheap unit :=
  x <- lrd a ;; modify (λ h, <[a := LNode b (ln_n x)]> h).
Definition set_n (a b : Z) : M lheap unit :=
  x <- lrd a ;; modify (λ h, <[a := LNode (ln_p x) b]> h).

Definition list_init (head : Z) : M lheap unit := set_n head head ;;; set_p head head.

Definition list_isempty (head : Z) : M lheap bool :=
  n <- get_n head ;; ret (n =? head).

Definition list_front (head : Z) : M lheap Z := get_n head.
Definition list_back (head : Z) : M lheap Z := get_p head.

Definition list_push_front (head node : Z) : M lheap unit :=
  hn <- get_n head ;; set_n node hn ;;;
  set_p node head ;;;
  hn <- get_n head ;; set_p hn node ;;;
  set_n head node.

Definition list_push_back (head node : Z) : M lheap unit :=
  hp <- get_p head ;; set_p node hp ;;;
  set_n node head ;;;
  hp <- get_p head ;; set_n hp node ;;;
  set_p head node.

Definition list_delete (node : Z) : M lheap unit :=
  p <- get_p node ;; n <- get_n node ;; set_n p n ;;;
  n <- get_n node ;; p <- get_p node ;; set_p n p.

Definition list_pop_front (head : Z) : M lheap Z :=
  front <- get_n head ;;
  fn <- get_n front ;; set_n head fn ;;;
  fn <- get_n front ;; set_p fn head ;;;
  ret front.

Definition list_pop_back (head : Z) : M lheap Z :=
  back <- get_p head ;;
  bp <- get_p back ;; set_p head bp ;;;
  bp <- get_p back ;; set_n bp head ;;;
  ret back.

(** [list_rep(head, p)]: the nodes the iteration macro visits. *)
Definition list_rep (head : Z) : M lheap (list Z) :=
  fuel <- gets (λ h : lheap, S (size h)) ;;
  p <- get_n head ;;
  loop fuel (λ st : Z * list Z, let '(p, acc) := st in
    if p =? head then ret (inr acc)
    else n <- get_n p ;; ret (inl (n, acc ++ [p]))) (p, []).
End code.

(** ** The represented sequence *)
Definition nx (h : lheap) (a b : Z) : Prop := ∃ p, h !! a = Some (LNode p b).
Definition pv (h : lheap) (a b : Z) : Prop := ∃ n, h !! a = Some (LNode b n).

(** [a]'s next is [b] and [b]'s previous is [a]. *)
Definition lnk (h : lheap) (a b : Z) : Prop := nx h a b ∧ pv h b a.

Fixpoint opath (h : lheap) (a : Z) (l : list Z) : Prop :=
  match l with [] => True | x :: l => lnk h a x ∧ opath h x l end.

Definition dlist (h : lheap) (head : Z) (xs : list Z) : Prop :=
  opath h head (xs ++ [head]) ∧ NoDup (head :: xs).

Definition lastd (a : Z) (l : list Z) : Z := default a (last l).

Lemma lastd_cons a x l : lastd a (x :: l) = lastd x l.
Proof. unfold lastd. rewrite last_cons. by destruct (last l). Qed.

Lemma lastd_snoc a l x : lastd a (l ++ [x]) = x.
Proof. unfold lastd. by rewrite last_snoc. Qed.

Lemma lastd_in a l : lastd a l ∈ a :: l.
Proof.
  destruct l as [|x l _] using rev_ind; [set_solver|]. rewrite lastd_snoc. set_solver.
Qed.

(** The nodes whose [next] pointer a path uses. *)
Fixpoint sources (a : Z) (l : list Z) : list Z :=
  match l with [] => [] | x :: l => a :: sources x l end.

Lemma sources_snoc a l x : sources a (l ++ [x]) = a :: l.
Proof. revert a. induction l as [|y l IH]; intros a; simpl; [done|]. by rewrite IH. Qed.

Lemma sources_sub a l x : x ∈ sources a l → x ∈ a :: l.
Proof.
  revert a. induction l as [|y l IH]; intros a; simpl; [set_solver|].
  rewrite elem_of_cons. intros [->|H]; [set_solver|]. apply IH in H. set_solver.
Qed.

Lemma sources_last a l : NoDup (a :: l) → lastd a l ∉ sources a l.
Proof.
  revert a. induction l as [|y l IH]; intros a; simpl; [set_solver|].
  intros [Ha Hnd]%NoDup_cons. rewrite lastd_cons, not_elem_of_cons. split; [|by apply IH].
  intros He. apply Ha. rewrite <- He. apply lastd_in.
Qed.

Lemma opath_app h a l1 x l2 :
  opath h a (l1 ++ x :: l2) ↔ opath h a l1 ∧ lnk h (lastd a l1) x ∧ opath h x l2.
Proof.
  revert a. induction l1 as [|y l1 IH]; intros a; simpl.
  - unfold lastd. simpl. naive_solver.
  - rewrite IH, lastd_cons. naive_solver.
Qed.

(** A path only depends on the [next] pointers of its sources and the [prev]
    pointers of its targets. *)
Lemma opath_ext h h' x l :
  (∀ a b, a ∈ sources x l → nx h a b → nx h' a b) →
  (∀ a b, a ∈ l → pv h a b → pv h' a b) →
  opath h x l → opath h' x l.
Proof.
  revert x. induction l as [|y l IH]; intros x Hn Hp; simpl; [done|].
  intros [[H1 H2] H3]. split_and!; [split|apply IH; [| |done]].
  - by apply Hn; [left|].
  - by apply Hp; [left|].
  - intros a b Ha. apply Hn. by right.
  - intros a b Ha. apply Hp. by right.
Qed.

(** ** One write *)
Lemma nx_get {A} h a b (k : Z → M lheap A) Q :
  nx h a b → wp (k b) Q h → wp (x <- get_n a ;; k x) Q h.
Proof. intros [p H]. unfold wp, get_n, lrd, bind, get, deref. by rewrite H. Qed.
Lemma pv_get {A} h a b (k : Z → M lheap A) Q :
  pv h a b → wp (k b) Q h → wp (x <- get_p a ;; k x) Q h.
Proof. intros [p H]. unfold wp, get_p, lrd, bind, get, deref. by rewrite H. Qed.

(** What a write to [a]'s [next] (or [prev]) leaves alone. *)
Record set_n_post (h : lheap) (a b : Z) (h' : lheap) : Prop := {
  sn_nx : nx h' a b;
  sn_ne : ∀ x y, x ≠ a → nx h x y → nx h' x y;
  sn_pv : ∀ x y, pv h x y → pv h' x y;
  sn_frame : ∀ x, x ≠ a → h' !! x = h !! x;
}.
Record set_p_post (h : lheap) (a b : Z) (h' : lheap) : Prop := {
  sp_pv : pv h' a b;
  sp_ne : ∀ x y, x ≠ a → pv h x y → pv h' x y;
  sp_nx : ∀ x y, nx h x y → nx h' x y;
  sp_frame : ∀ x, x ≠ a → h' !! x = h !! x;
}.

Lemma wp_set_n h a b :
  is_Some (h !! a) → wp (set_n a b) (λ _ h', set_n_post h a b h') h.
Proof.
  intros [[p n] H]. unfold wp, set_n, lrd, bind, get, deref. rewrite H. simpl. split.
  - exists p. by rewrite lookup_insert_eq.
  - intros x y Hx [q Hq]. exists q. by rewrite lookup_insert_ne.
  - intros x y [q Hq]. destruct (decide (x = a)) as [->|Hx].
    + rewrite H in Hq. simplify_eq. exists b. by rewrite lookup_insert_eq.
    + exists q. by rewrite lookup_insert_ne.
  - intros x Hx. by rewrite lookup_insert_ne.
Qed.
Lemma wp_set_p h a b :
  is_Some (h !! a) → wp (set_p a b) (λ _ h', set_p_post h a b h') h.
Proof.
  intros [[p n] H]. unfold wp, set_p, lrd, bind, get, deref. rewrite H. simpl. split.
  - exists n. by rewrite lookup_insert_eq.
  - intros x y Hx [q Hq]. exists q. by rewrite lookup_insert_ne.
  - intros x y [q Hq]. destruct (decide (x = a)) as [->|Hx].
    + rewrite H in Hq. simplify_eq. exists b. by rewrite lookup_insert_eq.
    + exists q. by rewrite lookup_insert_ne.
  - intros x Hx. by rewrite lookup_insert_ne.
Qed.

Lemma nx_some h a b : nx h a b → is_Some (h !! a).
Proof. intros [p H]. eauto. Qed.
Lemma pv_some h a b : pv h a b → is_Some (h !! a).
Proof. intros [p H]. eauto. Qed.
#[export] Hint Resolve nx_some pv_some : lanthorn.

(** ** Taking a node out and putting one in, anywhere in the circle *)

(** The heap relation of an unlinking: [p] and [q] now point to each other. *)
Lemma opath_unlink h h' a l1 x q r :
  NoDup (a :: l1) → NoDup (q :: r) → lastd a l1 ∉ sources q r → q ∉ l1 →
  opath h a (l1 ++ x :: q :: r) →
  nx h' (lastd a l1) q → pv h' q (lastd a l1) →
  (∀ u v, u ≠ lastd a l1 → nx h u v → nx h' u v) →
  (∀ u v, u ≠ q → pv h u v → pv h' u v) →
  opath h' a (l1 ++ q :: r).
Proof.
  intros Hnd Hndr Hp Hq Ho Hn Hv Hnx Hpv. apply opath_app in Ho as (Ho1 & Hl & Hl2 & Ho2).
  apply opath_app. split_and!; [|done|].
  - eapply opath_ext; [..|exact Ho1].
    + intros u v Hu. apply Hnx. intros ->. by apply (sources_last a l1).
    + intros u v Hu. apply Hpv. by intros ->.
  - apply NoDup_cons in Hndr as [Hqr _]. eapply opath_ext; [..|exact Ho2].
    + intros u v Hu. apply Hnx. by intros ->.
    + intros u v Hu. apply Hpv. by intros ->.
Qed.

Lemma opath_link h h' a l1 y q r :
  NoDup (a :: l1) → NoDup (q :: r) → lastd a l1 ∉ sources q r → q ∉ l1 →
  y ∉ a :: l1 → y ∉ q :: r →
  opath h a (l1 ++ q :: r) →
  lnk h' (lastd a l1) y → lnk h' y q →
  (∀ u v, u ≠ lastd a l1 → u ≠ y → nx h u v → nx h' u v) →
  (∀ u v, u ≠ q → u ≠ y → pv h u v → pv h' u v) →
  opath h' a (l1 ++ y :: q :: r).
Proof.
  intros Hnd Hndr Hp Hq Hy1 Hy2 Ho Hn Hv Hnx Hpv. apply opath_app in Ho as (Ho1 & _ & Ho2).
  apply opath_app. split_and!; [|done|split; [done|]].
  - eapply opath_ext; [..|exact Ho1].
    + intros u v Hu. apply Hnx; [intros ->; by apply (sources_last a l1)|].
      intros ->. apply sources_sub in Hu. done.
    + intros u v Hu. apply Hpv; [by intros ->|]. intros ->. set_solver.
  - apply NoDup_cons in Hndr as [Hqr _]. eapply opath_ext; [..|exact Ho2].
    + intros u v Hu. apply Hnx; [by intros ->|]. intros ->. apply sources_sub in Hu. done.
    + intros u v Hu. apply Hpv; [by intros ->|]. intros ->. set_solver.
Qed.

(** ** The circle around one node *)
Definition hdd (a : Z) (l : list Z) : Z := default a (head l).

Lemma dlist_around h hd l1 x l2 :
  dlist h hd (l1 ++ x :: l2) → lnk h (lastd hd l1) x ∧ lnk h x (hdd hd l2).
Proof.
  intros [Ho _]. rewrite <- app_assoc in Ho. apply opath_app in Ho as (_ & Hl & Ho).
  split; [done|]. destruct l2; by destruct Ho.
Qed.

Lemma dlist_ends h hd xs : dlist h hd xs → lnk h (lastd hd xs) hd ∧ lnk h hd (hdd hd xs).
Proof.
  intros [Ho _]. split; [by apply opath_app in Ho as (_ & Hl & _)|].
  destruct xs; by destruct Ho.
Qed.

(** The heap outside the nodes of a list is untouched. *)
Definition lframe (ns : list Z) (h h' : lheap) : Prop := ∀ x, x ∉ ns → h' !! x = h !! x.

Lemma two_writes h h1 h2 p q a b :
  set_n_post h p a h1 → set_p_post h1 q b h2 →
  nx h2 p a ∧ pv h2 q b ∧
  (∀ u v, u ≠ p → nx h u v → nx h2 u v) ∧ (∀ u v, u ≠ q → pv h u v → pv h2 u v).
Proof.
  intros [Hn1 Hn2 Hn3 Hn4] [Hp1 Hp2 Hp3 Hp4]. split_and!; eauto.
Qed.

Lemma dlist_unlink h h2 hd l1 x l2 :
  dlist h hd (l1 ++ x :: l2) →
  nx h2 (lastd hd l1) (hdd hd l2) → pv h2 (hdd hd l2) (lastd hd l1) →
  (∀ u v, u ≠ lastd hd l1 → nx h u v → nx h2 u v) →
  (∀ u v, u ≠ hdd hd l2 → pv h u v → pv h2 u v) →
  dlist h2 hd (l1 ++ l2).
Proof.
  intros [Ho Hnd] Hn Hp Hnx Hpv.
  assert (∃ q r, l2 ++ [hd] = q :: r ∧ q = hdd hd l2 ∧ (sources q r = l2) ∧ (q ∉ l1) ∧
            NoDup (q :: r)) as (q & r & Hqr & -> & Hs & Hq & Hndr).
  { exists (hdd hd l2), (tail (l2 ++ [hd])). clear -Hnd. nodup_norm.
    destruct l2 as [|y l2]; simpl; (split_and!; [done|done| | |]).
    - done.
    - done.
    - apply NoDup_singleton.
    - by rewrite sources_snoc.
    - intros Hy. apply (H1 y Hy). right. left.
    - apply NoDup_cons. nodup_norm. split; [by apply not_elem_of_app; split; [|set_solver]|].
      apply NoDup_app. split_and!; [done|set_solver|apply NoDup_singleton]. }
  rewrite <- app_assoc in Ho. simpl in Ho. rewrite Hqr in Ho. split.
  - rewrite <- app_assoc, Hqr. eapply opath_unlink; [| | | |exact Ho|done..]; [|done| |done].
    + nodup_norm. by apply NoDup_cons.
    + rewrite Hs. clear -Hnd. pose proof (lastd_in hd l1) as Hl. nodup_norm.
      intros Hin. apply elem_of_cons in Hl as [Hl|Hl]; [by rewrite Hl in Hin|].
      naive_solver set_solver.
  - apply (sublist_NoDup _ (hd :: l1 ++ x :: l2)); [done|].
    apply sublist_skip, sublist_app; [done|]. by apply sublist_cons.
Qed.

Lemma lastd_app_in hd l1 l2 : lastd hd l1 ∈ hd :: l1 ++ l2.
Proof. pose proof (lastd_in hd l1). set_solver. Qed.
Lemma hdd_in hd l1 l2 : hdd hd l2 ∈ hd :: l1 ++ l2.
Proof. destruct l2; set_solver. Qed.

Lemma two_frames h h1 h2 p q a b ns :
  set_n_post h p a h1 → set_p_post h1 q b h2 → p ∈ ns → q ∈ ns → lframe ns h h2.
Proof.
  intros [] [] Hp Hq x Hx. rewrite sp_frame0; [|by intros ->]. apply sn_frame0. by intros ->.
Qed.

(** ** Specifications of the operations *)
Lemma list_delete_spec h hd l1 x l2 :
  dlist h hd (l1 ++ x :: l2) →
  wp (list_delete x) (λ _ h', dlist h' hd (l1 ++ l2) ∧ lframe (hd :: l1 ++ l2) h h') h.
Proof.
  intros Hd. destruct (dlist_around _ _ _ _ _ Hd) as [[Hn1 Hp1] [Hn2 Hp2]].
  assert (Hpx : lastd hd l1 ≠ x).
  { pose proof (lastd_in hd l1) as Hl. intros He. rewrite He in Hl. destruct Hd as [_ Hnd].
    clear -Hnd Hl. nodup_norm. apply elem_of_cons in Hl. naive_solver set_solver. }
  unfold list_delete. eapply pv_get; [done|]. eapply nx_get; [done|].
  apply wp_bind. eapply wp_mono; [apply wp_set_n; eauto with lanthorn|]. intros ? h1 Hh1; cbn beta in *.
  eapply nx_get; [eapply sn_ne; eauto|]. eapply pv_get; [eapply sn_pv; eauto|].
  eapply wp_mono; [apply wp_set_p; eapply pv_some, sn_pv; eauto|]. intros ? h2 Hh2; cbn beta in *.
  destruct (two_writes _ _ _ _ _ _ _ Hh1 Hh2) as (H1 & H2 & H3 & H4).
  split; [by eapply dlist_unlink|].
  eapply two_frames; eauto using lastd_app_in, hdd_in.
Qed.

Lemma list_pop_front_spec h hd x xs :
  dlist h hd (x :: xs) →
  wp (list_pop_front hd) (λ a h', a = x ∧ dlist h' hd xs ∧ lframe (hd :: xs) h h') h.
Proof.
  intros Hd. destruct (dlist_around _ _ [] _ _ Hd) as [[Hn1 Hp1] [Hn2 Hp2]].
  assert (hd ≠ x). { intros <-. destruct Hd as [_ Hnd]. clear -Hnd. nodup_norm. set_solver. }
  unfold list_pop_front. eapply nx_get; [done|]. eapply nx_get; [done|].
  apply wp_bind. eapply wp_mono; [apply wp_set_n; eauto with lanthorn|]. intros ? h1 Hh1; cbn beta in *.
  eapply nx_get; [by eapply sn_ne; eauto|].
  apply wp_bind. eapply wp_mono; [apply wp_set_p; eapply pv_some, sn_pv; eauto|]. intros ? h2 Hh2; cbn beta in *.
  apply wp_ret. split; [done|].
  destruct (two_writes _ _ _ _ _ _ _ Hh1 Hh2) as (H1 & H2 & H3 & H4).
  split; [by eapply (dlist_unlink _ _ _ [])|].
  eapply two_frames; eauto; [left|apply (hdd_in _ [])].
Qed.

Lemma two_writes' h h1 h2 p q a b :
  set_p_post h q b h1 → set_n_post h1 p a h2 →
  nx h2 p a ∧ pv h2 q b ∧
  (∀ u v, u ≠ p → nx h u v → nx h2 u v) ∧ (∀ u v, u ≠ q → pv h u v → pv h2 u v).
Proof. intros [] []. split_and!; eauto. Qed.

Lemma list_pop_back_spec h hd x xs :
  dlist h hd (xs ++ [x]) →
  wp (list_pop_back hd) (λ a h', a = x ∧ dlist h' hd xs ∧ lframe (hd :: xs) h h') h.
Proof.
  intros Hd. destruct (dlist_around _ _ xs _ [] Hd) as [[Hn1 Hp1] [Hn2 Hp2]].
  assert (hd ≠ x). { intros <-. destruct Hd as [_ Hnd]. clear -Hnd. nodup_norm. set_solver. }
  unfold list_pop_back. eapply pv_get; [done|]. eapply pv_get; [done|].
  apply wp_bind. eapply wp_mono; [apply wp_set_p; eauto with lanthorn|]. intros ? h1 Hh1; cbn beta in *.
  eapply pv_get; [by eapply sp_ne; eauto|].
  apply wp_bind. eapply wp_mono; [apply wp_set_n; eapply nx_some, sp_nx; eauto|]. intros ? h2 Hh2; cbn beta in *.
  apply wp_ret. split; [done|].
  destruct (two_writes' _ _ _ _ _ _ _ Hh1 Hh2) as (H1 & H2 & H3 & H4). split.
  - rewrite <- (app_nil_r xs). by eapply dlist_unlink.
  - intros y Hy. destruct Hh1, Hh2. rewrite sn_frame0, sp_frame0; [done|..].
    + intros ->. set_solver.
    + intros ->. apply Hy, lastd_in.
Qed.

(** A path is a function of the heap's pointers, so writing a fresh node first
    does not disturb a list that does not contain it. *)
Lemma dlist_frame h h' hd xs : lframe [] h h' ∨ (∀ x, x ∈ hd :: xs → h' !! x = h !! x) →
  dlist h hd xs → dlist h' hd xs.
Proof.
  intros Hf. assert (∀ x, x ∈ hd :: xs → h' !! x = h !! x) as Hf'.
  { destruct Hf as [Hf|Hf]; [|done]. intros x _. apply Hf. set_solver. }
  intros [Ho Hnd]. split; [|done]. eapply opath_ext; [..|exact Ho].
  - rewrite sources_snoc. intros a b Ha [p Hp]. exists p. by rewrite Hf'.
  - intros a b Ha [p Hp]. exists p. rewrite Hf'; [done|]. set_solver.
Qed.

Lemma dlist_link h h2 hd l1 y l2 :
  dlist h hd (l1 ++ l2) → y ∉ hd :: l1 ++ l2 →
  lnk h2 (lastd hd l1) y → lnk h2 y (hdd hd l2) →
  (∀ u v, u ≠ lastd hd l1 → u ≠ y → nx h u v → nx h2 u v) →
  (∀ u v, u ≠ hdd hd l2 → u ≠ y → pv h u v → pv h2 u v) →
  dlist h2 hd (l1 ++ y :: l2).
Proof.
  intros [Ho Hnd] Hy Hl1 Hl2 Hnx Hpv.
  assert (∃ q r, l2 ++ [hd] = q :: r ∧ q = hdd hd l2 ∧ (sources q r = l2) ∧ (q ∉ l1) ∧
            NoDup (q :: r)) as (q & r & Hqr & -> & Hs & Hq & Hndr).
  { exists (hdd hd l2), (tail (l2 ++ [hd])). clear -Hnd. nodup_norm.
    destruct l2 as [|z l2]; simpl; (split_and!; [done|done| | |]).
    - done.
    - done.
    - apply NoDup_singleton.
    - by rewrite sources_snoc.
    - intros Hz. apply (H1 z Hz). left.
    - nodup_norm. apply NoDup_cons. split; [by apply not_elem_of_app; split; [|set_solver]|].
      apply NoDup_app. split_and!; [done|set_solver|apply NoDup_singleton]. }
  assert (Hperm : l1 ++ y :: l2 ≡ₚ y :: (l1 ++ l2)) by (symmetry; apply Permutation_middle).
  rewrite <- app_assoc in Ho. rewrite Hqr in Ho. split.
  - rewrite <- app_assoc. simpl. rewrite Hqr.
    eapply opath_link; [| | | | | |exact Ho|done..]; [|done| |done| |].
    + nodup_norm. by apply NoDup_cons.
    + rewrite Hs. clear -Hnd. pose proof (lastd_in hd l1) as Hl. nodup_norm.
      intros Hin. apply elem_of_cons in Hl as [Hl|Hl]; [by rewrite Hl in Hin|]. naive_solver.
    + clear -Hy. set_solver.
    + rewrite <- Hqr. clear -Hy. set_solver.
  - rewrite Hperm. apply NoDup_cons in Hnd as [Hn1 Hn2]. apply not_elem_of_cons in Hy as [Hy1 Hy2].
    apply NoDup_cons. split; [by apply not_elem_of_cons|by apply NoDup_cons].
Qed.

(** The four writes of an insertion between [p] and [q], in the order of
    [list_push_back] and of [list_push_front]. *)
Lemma four_writes h h1 h2 h3 h4 p q y :
  y ≠ p → y ≠ q →
  set_p_post h y p h1 → set_n_post h1 y q h2 → set_n_post h2 p y h3 → set_p_post h3 q y h4 →
  lnk h4 p y ∧ lnk h4 y q ∧
  (∀ u v, u ≠ p → u ≠ y → nx h u v → nx h4 u v) ∧
  (∀ u v, u ≠ q → u ≠ y → pv h u v → pv h4 u v) ∧ lframe [p; y; q] h h4.
Proof.
  intros Hp Hq [] [] [] []. unfold lnk. split_and!; eauto 8.
  intros x Hx. rewrite sp_frame1, sn_frame1, sn_frame0, sp_frame0; set_solver.
Qed.

Lemma four_writes' h h1 h2 h3 h4 p q y :
  y ≠ p → y ≠ q →
  set_n_post h y q h1 → set_p_post h1 y p h2 → set_p_post h2 q y h3 → set_n_post h3 p y h4 →
  lnk h4 p y ∧ lnk h4 y q ∧
  (∀ u v, u ≠ p → u ≠ y → nx h u v → nx h4 u v) ∧
  (∀ u v, u ≠ q → u ≠ y → pv h u v → pv h4 u v) ∧ lframe [p; y; q] h h4.
Proof.
  intros Hp Hq [] [] [] []. unfold lnk. split_and!; eauto 8.
  intros x Hx. rewrite sn_frame1, sp_frame1, sp_frame0, sn_frame0; set_solver.
Qed.

Lemma lframe_sub ns ns' h h' : lframe ns h h' → ns ⊆ ns' → lframe ns' h h'.
Proof. intros Hf Hs x Hx. apply Hf. set_solver. Qed.

Lemma list_push_back_spec h hd xs y :
  dlist h hd xs → is_Some (h !! y) → y ∉ hd :: xs →
  wp (list_push_back hd y)
    (λ _ h', dlist h' hd (xs ++ [y]) ∧ lframe (y :: hd :: xs) h h') h.
Proof.
  intros Hd Hs Hy. destruct (dlist_ends _ _ _ Hd) as [[Hn Hp] _].
  assert (Hy1 : y ≠ lastd hd xs) by (intros ->; apply Hy, lastd_in).
  assert (Hy2 : y ≠ hd) by set_solver.
  unfold list_push_back. eapply pv_get; [done|].
  apply wp_bind. eapply wp_mono; [by apply wp_set_p|]. intros ? h1 H1; cbn beta in *.
  apply wp_bind. eapply wp_mono; [apply wp_set_n; eapply pv_some, sp_pv; eauto|].
  intros ? h2 H2; cbn beta in *.
  eapply pv_get; [eapply sn_pv; [done|]; eapply sp_ne; eauto|].
  apply wp_bind. eapply wp_mono.
  { apply wp_set_n. eapply nx_some, sn_ne; [done|done|]. eapply sp_nx; eauto. }
  intros ? h3 H3; cbn beta in *. eapply wp_mono.
  { apply wp_set_p. eapply pv_some, sn_pv; [done|]. eapply sn_pv; [done|]. eapply sp_ne; eauto. }
  intros ? h4 H4; cbn beta in *.
  destruct (four_writes _ _ _ _ _ _ _ _ Hy1 Hy2 H1 H2 H3 H4) as (L1 & L2 & L3 & L4 & L5).
  split.
  - eapply (dlist_link _ _ _ xs _ []); eauto; by rewrite app_nil_r.
  - eapply lframe_sub; [done|]. pose proof (lastd_in hd xs). clear -H. set_solver.
Qed.

Lemma list_push_front_spec h hd xs y :
  dlist h hd xs → is_Some (h !! y) → y ∉ hd :: xs →
  wp (list_push_front hd y)
    (λ _ h', dlist h' hd (y :: xs) ∧ lframe (y :: hd :: xs) h h') h.
Proof.
  intros Hd Hs Hy. destruct (dlist_ends _ _ _ Hd) as [_ [Hn Hp]].
  pose proof (hdd_in hd [] xs) as Hin. simpl in Hin.
  assert (Hy1 : y ≠ hdd hd xs) by (intros ->; done).
  assert (Hy2 : y ≠ hd) by set_solver.
  unfold list_push_front. eapply nx_get; [done|].
  apply wp_bind. eapply wp_mono; [by apply wp_set_n|]. intros ? h1 H1; cbn beta in *.
  apply wp_bind. eapply wp_mono; [apply wp_set_p; eapply nx_some, sn_nx; eauto|].
  intros ? h2 H2; cbn beta in *.
  eapply nx_get; [eapply sp_nx; [done|]; eapply sn_ne; eauto|].
  apply wp_bind. eapply wp_mono.
  { apply wp_set_p. eapply pv_some, sp_ne; [done|done|]. eapply sn_pv; eauto. }
  intros ? h3 H3; cbn beta in *. eapply wp_mono.
  { apply wp_set_n. eapply nx_some, sp_nx; [done|]. eapply sp_nx; [done|]. eapply sn_ne; eauto. }
  intros ? h4 H4; cbn beta in *.
  destruct (four_writes' _ _ _ _ _ _ _ _ Hy2 Hy1 H1 H2 H3 H4) as (L1 & L2 & L3 & L4 & L5).
  split.
  - by eapply (dlist_link _ _ _ [] _ xs).
  - eapply lframe_sub; [done|]. clear -Hin. set_solver.
Qed.

Lemma list_init_spec h hd :
  is_Some (h !! hd) → wp (list_init hd) (λ _ h', dlist h' hd [] ∧ lframe [hd] h h') h.
Proof.
  intros Hs. unfold list_init. apply wp_bind. eapply wp_mono; [by apply wp_set_n|].
  intros ? h1 H1; cbn beta in *. eapply wp_mono; [apply wp_set_p; eapply nx_some, sn_nx; eauto|].
  intros ? h2 H2; cbn beta in *.
  destruct (two_writes _ _ _ _ _ _ _ H1 H2) as (L1 & L2 & _ & _). split.
  - split; [by repeat split|]. apply NoDup_singleton.
  - eapply two_frames; eauto; left.
Qed.

Lemma list_isempty_spec h hd xs :
  dlist h hd xs → wp (list_isempty hd) (λ b h', b = bool_decide (xs = []) ∧ h' = h) h.
Proof.
  intros Hd. destruct (dlist_ends _ _ _ Hd) as [_ [Hn _]]. unfold list_isempty.
  eapply nx_get; [done|]. apply wp_ret. split; [|done].
  destruct xs as [|x xs]; simpl; [by rewrite Z.eqb_refl|].
  apply Z.eqb_neq. intros He.
  destruct Hd as [_ Hnd]. apply NoDup_cons in Hnd as [Hnd _]. apply Hnd. rewrite <- He. left.
Qed.

Lemma list_front_spec h hd x xs :
  dlist h hd (x :: xs) → wp (list_front hd) (λ a h', a = x ∧ h' = h) h.
Proof.
  intros Hd. destruct (dlist_ends _ _ _ Hd) as [_ [[p Hn] _]].
  unfold list_front, get_n, lrd, wp, bind, get, deref. by rewrite Hn.
Qed.

Lemma list_back_spec h hd x xs :
  dlist h hd (xs ++ [x]) → wp (list_back hd) (λ a h', a = x ∧ h' = h) h.
Proof.
  intros Hd. destruct (dlist_ends _ _ _ Hd) as [[_ [p Hn]] _].
  unfold list_back, get_p, lrd, wp, bind, get, deref. rewrite Hn. by rewrite lastd_snoc.
Qed.

(** A list's nodes are in the heap, so it has fewer than [size h] of them. *)
Lemma dlist_size h hd xs : dlist h hd xs → (length xs < size h)%nat.
Proof.
  intros [Ho Hnd].
  assert (Hin : ∀ x, x ∈ hd :: xs → is_Some (h !! x)).
  { intros x Hx. rewrite <- (sources_snoc hd xs hd) in Hx. clear Hnd. revert x Hx Ho.
    generalize (xs ++ [hd]) as l. intros l. revert hd. induction l as [|y l IH]; intros a; simpl.
    - set_solver.
    - intros x Hx [[Hn _] Ho]. apply elem_of_cons in Hx as [->|Hx]; [by eapply nx_some|].
      by eapply IH. }
  change (S (length xs) ≤ size h)%nat. change (S (length xs)) with (length (hd :: xs)).
  rewrite <- size_dom, <- (size_list_to_set (C:=gset Z) (hd :: xs)) by done.
  apply subseteq_size. intros x Hx. apply elem_of_dom, Hin. by apply elem_of_list_to_set in Hx.
Qed.

Lemma list_rep_spec h hd xs :
  dlist h hd xs → wp (list_rep hd) (λ l h', l = xs ∧ h' = h) h.
Proof.
  intros Hd. pose proof (dlist_size _ _ _ Hd) as Hsz. unfold list_rep.
  apply wp_bind, wp_gets. destruct (dlist_ends _ _ _ Hd) as [_ [Hn _]].
  eapply nx_get; [done|].
  eapply (wp_loop (λ n v h', h' = h ∧ ∃ l1 l2, xs = l1 ++ l2 ∧ v = (hdd hd l2, l1) ∧ n = length l2)).
  2: instantiate (1 := length xs); lia. 2: split; [done|by exists [], xs].
  intros n v h' (-> & l1 & l2 & -> & -> & ->). cbn [snd fst]. apply wp_if. split.
  - intros He%Z.eqb_eq. apply wp_ret. destruct l2 as [|x l2]; [by rewrite app_nil_r|].
    change (x = hd) in He. subst x. destruct Hd as [_ Hnd]. apply NoDup_cons in Hnd as [Hnd _]. set_solver.
  - intros He%Z.eqb_neq. destruct l2 as [|x l2]; [done|]. simpl.
    destruct (dlist_around _ _ _ _ _ Hd) as [_ [Hx _]]. eapply nx_get; [done|]. apply wp_ret.
    exists (length l2). split; [lia|]. split; [done|]. exists (l1 ++ [x]), l2.
    by rewrite <- app_assoc.
Qed.

(** Popping an empty list hands out the head itself. *)
Lemma list_pop_front_empty h hd :
  dlist h hd [] → wp (list_pop_front hd) (λ a h', a = hd ∧ dlist h' hd []) h.
Proof.
  intros Hd. destruct (dlist_ends _ _ _ Hd) as [_ [Hn Hp]]. cbn in Hn, Hp.
  unfold list_pop_front. eapply nx_get; [done|]. eapply nx_get; [done|].
  apply wp_bind. eapply wp_mono; [apply wp_set_n; eauto with lanthorn|]. intros ? h1 H1; cbn beta in *.
  eapply nx_get; [by eapply sn_nx|].
  apply wp_bind. eapply wp_mono; [apply wp_set_p; eapply nx_some, sn_nx; eauto|].
  intros ? h2 H2; cbn beta in *. apply wp_ret. split; [done|].
  destruct (two_writes _ _ _ _ _ _ _ H1 H2) as (L1 & L2 & _ & _).
  split; [by repeat split|]. apply NoDup_singleton.
Qed.

(** C10: Every list operation acts on the circular list as its sequence operation
    does: [list_push_back]/[list_push_front] add a node at an end, [list_delete]
    takes a node out of the middle in constant time, the two pops remove and
    return an end, [list_isempty], and [list_rep] visits all nodes in order; a
    node that is in no list, and any other memory, is never touched. *)
Theorem list_ops_correct h hd xs :
  dlist h hd xs →
  wp (list_isempty hd) (λ b h', b = bool_decide (xs = []) ∧ h' = h) h ∧
  wp (list_rep hd) (λ l h', l = xs ∧ h' = h) h ∧
  (∀ y, is_Some (h !! y) → y ∉ hd :: xs →
    wp (list_push_back hd y)
      (λ _ h', dlist h' hd (xs ++ [y]) ∧ lframe (y :: hd :: xs) h h') h ∧
    wp (list_push_front hd y)
      (λ _ h', dlist h' hd (y :: xs) ∧ lframe (y :: hd :: xs) h h') h) ∧
  (∀ l1 x l2, xs = l1 ++ x :: l2 →
    wp (list_delete x) (λ _ h', dlist h' hd (l1 ++ l2) ∧ lframe (hd :: l1 ++ l2) h h') h) ∧
  (∀ x l, xs = x :: l →
    wp (list_pop_front hd) (λ a h', a = x ∧ dlist h' hd l ∧ lframe (hd :: l) h h') h) ∧
  (∀ x l, xs = l ++ [x] →
    wp (list_pop_back hd) (λ a h', a = x ∧ dlist h' hd l ∧ lframe (hd :: l) h h') h).
Proof.
  intros Hd. split_and!.
  - by apply list_isempty_spec.
  - by apply list_rep_spec.
  - intros y Hy Hni. split; [by apply list_push_back_spec|by apply list_push_front_spec].
  - intros l1 x l2 ->. by apply list_delete_spec.
  - intros x l ->. by apply list_pop_front_spec.
  - intros x l ->. by apply list_pop_back_spec.
Qed.

(** The list of the nodes 16 and 24 under the head 8, and a detached node 32. *)
Definition ex_list : lheap := list_to_map
  [(8, LNode 24 16); (16, LNode 8 24); (24, LNode 16 8); (32, LNode 0 0)].

Lemma ex_list_dlist : dlist ex_list 8 [16; 24].
Proof.
  split; [|apply (bool_decide_unpack _); by vm_compute].
  repeat split; by eexists.
Qed.

Lemma list_ops_correct_witness :
  wp (list_push_back 8 32) (λ _ h', dlist h' 8 [16; 24; 32] ∧ lframe [32; 8; 16; 24] ex_list h')
    ex_list.
Proof.
  destruct (list_ops_correct ex_list 8 [16; 24] ex_list_dlist) as (_ & _ & Hpush & _).
  apply (Hpush 32).
  - by eexists.
  - apply (bool_decide_unpack _). by vm_compute.
Defined.
