(* ===== verification/Slot.v ===== *)
(** * The slot allocator (lib/slot.c)

    A free list of equally sized slots threaded through the slots themselves,
    on the lists of DList. [slots] is the sequence of addresses a page of memory
    is cut into. *)
From S2P Require Import Prelude DList.

(** [sizeof(struct list_node_t)] *)
Definition SZ_LIST_NODE : Z := 8.

(** [struct slot_alct_t]; [free_slot_head] is the address of the embedded list
    head. *)
Record slot_alct := SlotAlct { slot_size : Z; free_slot_head : Z }.

Definition slot_init (head size : Z) : M lheap slot_alct :=
  let size := if size <? SZ_LIST_NODE then SZ_LIST_NODE else size in
  list_init head ;;; ret (SlotAlct size head).

(** Returns the error code and, when it is [E_OK], the slot. *)
Definition slot_alloc (alct : slot_alct) : M lheap (Z * option Z) :=
  e <- list_isempty (free_slot_head alct) ;;
  if e : bool then ret (E_NOSLOT, None)
  else a <- list_pop_front (free_slot_head alct) ;; ret (E_OK, Some a).

Definition slot_free (alct : slot_alct) (addr : Z) : M lheap unit :=
  list_push_back (free_slot_head alct) addr.

(** The loop runs while the next slot still fits; one more step than the number
    of slots in [size] sees the test fail. *)
Definition slot_insert (alct : slot_alct) (addr size : Z) : M lheap unit :=
  loop (S (Z.to_nat (size / slot_size alct))) (λ a,
    if add32 a (slot_size alct) <=? add32 addr size
    then slot_free alct a ;;; ret (inl (add32 a (slot_size alct)))
    else ret (inr tt)) addr.

(** ** The slots of a region *)
Definition slots (addr sz : Z) (n : nat) : list Z := (λ i, addr + sz * Z.of_nat i) <$> seq 0 n.

Lemma slots_S addr sz n : slots addr sz (S n) = slots addr sz n ++ [addr + sz * Z.of_nat n].
Proof. unfold slots. rewrite seq_S, fmap_app. done. Qed.

Lemma elem_of_slots addr sz n x :
  x ∈ slots addr sz n ↔ ∃ i, (i < n)%nat ∧ x = addr + sz * Z.of_nat i.
Proof.
  unfold slots. rewrite list_elem_of_fmap. setoid_rewrite elem_of_seq.
  split; intros (i & ? & ?); exists i; lia.
Qed.

Lemma slots_NoDup addr sz n : 0 < sz → NoDup (slots addr sz n).
Proof. intros H. apply NoDup_fmap_2_strong; [intros i j _ _; nia|apply NoDup_seq]. Qed.

Lemma slot_insert_spec h alct free addr size :
  0 < slot_size alct → 0 ≤ addr → 0 ≤ size → addr + size + slot_size alct < W32 →
  dlist h (free_slot_head alct) free →
  let n := Z.to_nat (size / slot_size alct) in
  (∀ x, x ∈ slots addr (slot_size alct) n → is_Some (h !! x) ∧ x ∉ free_slot_head alct :: free) →
  wp (slot_insert alct addr size)
    (λ _ h', dlist h' (free_slot_head alct) (free ++ slots addr (slot_size alct) n) ∧
       lframe (free_slot_head alct :: free ++ slots addr (slot_size alct) n) h h') h.
Proof.
  intros Hsz Ha Hs0 Hw Hd n Hin. set (sz := slot_size alct) in *. set (hd := free_slot_head alct) in *.
  assert (Hdiv : 0 ≤ size / sz) by (apply Z.div_pos; lia).
  assert (Hmul : sz * (size / sz) ≤ size) by (apply Z.mul_div_le; lia).
  assert (Hmod : size < sz * (size / sz) + sz) by (pose proof (Z.mod_pos_bound size sz Hsz); pose proof (Z.div_mod size sz); lia).
  unfold slot_insert.
  eapply (wp_loop (λ k a h', ∃ i, (i + k = n)%nat ∧ a = addr + sz * Z.of_nat i ∧
    dlist h' hd (free ++ slots addr sz i) ∧ lframe (hd :: free ++ slots addr sz i) h h')).
  2: instantiate (1 := n); unfold n, sz; lia.
  2:{ exists 0%nat. split_and!; [done|lia| |].
      - unfold slots; simpl. by rewrite app_nil_r.
      - by intros x _. }
  intros k a h' (i & Hk & -> & Hd' & Hf). fold sz.
  assert (Hi : sz * Z.of_nat i ≤ size) by nia.
  unfold add32. rewrite (u32_small (addr + size)) by (unfold is_u32; lia).
  rewrite (u32_small (addr + sz * Z.of_nat i + sz)) by (unfold is_u32; lia).
  apply wp_if. split.
  - intros Hle%Z.leb_le. destruct k as [|k].
    { exfalso. assert (Z.of_nat i = size / sz) by lia. nia. }
    destruct (Hin (addr + sz * Z.of_nat i)) as [Hs Hni]; [apply elem_of_slots; exists i; lia|].
    assert (Hfresh : addr + sz * Z.of_nat i ∉ hd :: free ++ slots addr sz i).
    { intros Hx. rewrite app_comm_cons, elem_of_app in Hx. destruct Hx as [Hx|Hx]; [done|].
      apply elem_of_slots in Hx as (j & ? & ?). nia. }
    apply wp_bind. unfold slot_free. fold hd. eapply wp_mono.
    { apply list_push_back_spec; [done| |done]. by rewrite Hf. }
    intros ? h'' [H1 H2]; cbn beta in *. apply wp_ret. exists k. split; [lia|].
    exists (S i). rewrite slots_S, app_assoc. split_and!; [lia|lia|done|].
    intros x Hx. rewrite H2, Hf; [done|..]; clear -Hx; set_solver.
  - intros Hle%Z.leb_gt. apply wp_ret. destruct k as [|k]; [|nia].
    assert (i = n) as -> by lia. done.
Qed.

(** [slot_insert] cuts a region into as many whole slots as fit and appends
    them to the free list, each once; [slot_alloc] then hands out the slot at the
    front of the free list, and [E_NOSLOT] exactly when it is empty; [slot_free]
    puts a slot back. *)
Theorem slot_ops_correct h alct free :
  0 < slot_size alct → dlist h (free_slot_head alct) free →
  (∀ addr size, 0 ≤ addr → 0 ≤ size → addr + size + slot_size alct < W32 →
    let ss := slots addr (slot_size alct) (Z.to_nat (size / slot_size alct)) in
    (∀ x, x ∈ ss → is_Some (h !! x) ∧ x ∉ free_slot_head alct :: free) →
    NoDup ss ∧ (∀ x, x ∈ ss → addr ≤ x ∧ x + slot_size alct ≤ addr + size) ∧
    wp (slot_insert alct addr size) (λ _ h', dlist h' (free_slot_head alct) (free ++ ss)) h) ∧
  wp (slot_alloc alct) (λ r h',
    match free with
    | [] => r = (E_NOSLOT, None) ∧ h' = h
    | x :: free' => r = (E_OK, Some x) ∧ dlist h' (free_slot_head alct) free'
    end) h ∧
  (∀ x, is_Some (h !! x) → x ∉ free_slot_head alct :: free →
    wp (slot_free alct x) (λ _ h', dlist h' (free_slot_head alct) (free ++ [x])) h).
Proof.
  intros Hsz Hd. split_and!.
  - intros a size Ha Hs Hw ss Hin. split_and!.
    + by apply slots_NoDup.
    + intros x Hx. apply elem_of_slots in Hx as (i & Hi & ->).
      assert (Z.of_nat i + 1 ≤ size / slot_size alct) by lia.
      pose proof (Z.mul_div_le size (slot_size alct) Hsz). nia.
    + eapply wp_mono; [by apply slot_insert_spec|]. naive_solver.
  - unfold slot_alloc. apply wp_bind. eapply wp_mono; [by apply list_isempty_spec|].
    intros b h' [-> ->]. destruct free as [|x free']; [by apply wp_ret|].
    apply wp_bind. eapply wp_mono; [by apply list_pop_front_spec|].
    intros a h' (-> & Hd' & _). by apply wp_ret.
  - intros x Hx Hni. eapply wp_mono; [by apply list_push_back_spec|]. naive_solver.
Qed.

Lemma slot_ops_correct_witness :
  let alct := SlotAlct 8 8 in
  wp (slot_alloc alct)
    (λ r h', r = (E_OK, Some 16) ∧ dlist h' (free_slot_head alct) [24]) ex_list.
Proof.
  apply (slot_ops_correct ex_list (SlotAlct 8 8) [16; 24]); [done|apply ex_list_dlist].
Defined.
