(* ===== verification/Machine.v ===== *)
(** * Machine words and physical memory

    Pages, bit fields of page-table entries, and byte-addressed physical memory
    with little-endian 32-bit words; what arch/x86 takes for granted of the
    machine. *)
From S2P Require Import Prelude.

Definition PAGE_SIZE : Z := 0x1000.
Definition KERN_BASE : Z := 0xC0000000.

(** include/util.h, on unsigned 32-bit operands *)
Definition ROUND_UP (x y : Z) : Z := mul32 (u32 (x + y - 1) / y) y.
Definition ROUND_DOWN (x y : Z) : Z := x / y * y.

(** ** Bits *)
Lemma land_low_zero a f n : 0 ≤ n → a mod 2 ^ n = 0 → 0 ≤ f < 2 ^ n → Z.land a f = 0.
Proof.
  intros Hn Ha Hf. apply Z.bits_inj'. intros i Hi. rewrite Z.land_spec, Z.bits_0.
  destruct (decide (i < n)) as [Hin|Hin].
  - rewrite <- (Z.mod_pow2_bits_low a n i) by lia. by rewrite Ha, Z.bits_0.
  - rewrite andb_comm. rewrite <- (Z.mod_small f (2 ^ n)) by done.
    by rewrite Z.mod_pow2_bits_high by lia.
Qed.

(** An aligned address and a field below the alignment. *)
Lemma lor_add a f n : 0 ≤ n → a mod 2 ^ n = 0 → 0 ≤ f < 2 ^ n → Z.lor a f = a + f.
Proof.
  intros Hn Ha Hf. pose proof (land_low_zero a f n Hn Ha Hf) as Hl.
  by rewrite <- Z.lxor_lor, Z.add_nocarry_lxor.
Qed.

Lemma ldiff_low x n : 0 ≤ n → Z.ldiff x (Z.ones n) = x - x mod 2 ^ n.
Proof.
  intros Hn. rewrite Z.ldiff_ones_r by done. rewrite Z.shiftl_mul_pow2, Z.shiftr_div_pow2 by done.
  pose proof (Z.div_mod x (2 ^ n)). lia.
Qed.

Lemma land_low x n : 0 ≤ n → Z.land x (Z.ones n) = x mod 2 ^ n.
Proof. intros Hn. by apply Z.land_ones. Qed.

Lemma round_down_eq x y : 0 < y → ROUND_DOWN x y = x - x mod y.
Proof. intros Hy. unfold ROUND_DOWN. pose proof (Z.div_mod x y). lia. Qed.

Lemma round_down_mod x y : 0 < y → ROUND_DOWN x y mod y = 0.
Proof. intros Hy. apply Z.mod_mul. lia. Qed.

Lemma round_up_spec x y :
  0 < y → 0 ≤ x → x + y - 1 < W32 →
  ROUND_UP x y mod y = 0 ∧ x ≤ ROUND_UP x y < x + y.
Proof.
  intros Hy Hx Hw. unfold ROUND_UP, mul32. rewrite (u32_small (x + y - 1)) by (unfold is_u32; lia).
  pose proof (Z.div_mod (x + y - 1) y ltac:(lia)) as Hd.
  pose proof (Z.mod_pos_bound (x + y - 1) y ltac:(lia)) as Hm.
  rewrite u32_small by (unfold is_u32; nia). split; [apply Z.mod_mul; lia|nia].
Qed.

(** ** Physical memory *)
Abbreviation pmem := (gmap Z Z).

Definition rd8 (m : pmem) (a : Z) : Z := default 0 (m !! a).
Definition wr8 (m : pmem) (a v : Z) : pmem := <[a := v mod 256]> m.

Definition rd32 (m : pmem) (a : Z) : Z :=
  rd8 m a + 2 ^ 8 * rd8 m (a + 1) + 2 ^ 16 * rd8 m (a + 2) + 2 ^ 24 * rd8 m (a + 3).
Definition wr32 (m : pmem) (a v : Z) : pmem :=
  wr8 (wr8 (wr8 (wr8 m a v) (a + 1) (v / 2 ^ 8)) (a + 2) (v / 2 ^ 16)) (a + 3) (v / 2 ^ 24).

(** Memory holds bytes. *)
Definition bytes (m : pmem) : Prop := ∀ a, 0 ≤ rd8 m a < 256.

Lemma rd_wr8 m a v : rd8 (wr8 m a v) a = v mod 256.
Proof. unfold rd8, wr8. by rewrite lookup_insert_eq. Qed.
Lemma rd_wr8_ne m a b v : a ≠ b → rd8 (wr8 m a v) b = rd8 m b.
Proof. intros H. unfold rd8, wr8. by rewrite lookup_insert_ne. Qed.

Lemma wr8_bytes m a v : bytes m → bytes (wr8 m a v).
Proof.
  intros Hb b. destruct (decide (a = b)) as [->|Hne].
  - rewrite rd_wr8. apply Z.mod_pos_bound. lia.
  - rewrite rd_wr8_ne by done. apply Hb.
Qed.
Lemma wr32_bytes m a v : bytes m → bytes (wr32 m a v).
Proof. intros Hb. unfold wr32. by repeat apply wr8_bytes. Qed.

Lemma rd32_range m a : bytes m → is_u32 (rd32 m a).
Proof.
  intros Hb. unfold rd32, is_u32, W32.
  pose proof (Hb a). pose proof (Hb (a + 1)). pose proof (Hb (a + 2)). pose proof (Hb (a + 3)). lia.
Qed.

Lemma rd_wr32 m a v : is_u32 v → rd32 (wr32 m a v) a = v.
Proof.
  intros [Hv1 Hv2]. unfold rd32, wr32, W32 in *.
  repeat first [rewrite rd_wr8|rewrite rd_wr8_ne by lia].
  pose proof (Z.div_mod v 256 ltac:(lia)).
  replace (v / 2 ^ 16) with (v / 256 / 256) by (by rewrite Z.div_div by lia).
  replace (v / 2 ^ 24) with (v / 256 / 256 / 256) by (by rewrite !Z.div_div by lia).
  replace (v / 2 ^ 8) with (v / 256) by done.
  pose proof (Z.div_mod (v / 256) 256 ltac:(lia)).
  pose proof (Z.div_mod (v / 256 / 256) 256 ltac:(lia)).
  assert (0 ≤ v / 256 / 256 / 256 < 256) as Hs.
  { rewrite !Z.div_div by lia. split; [apply Z.div_pos; lia|apply Z.div_lt_upper_bound; lia]. }
  rewrite (Z.mod_small (v / 256 / 256 / 256)) by done. lia.
Qed.

(** Words at different aligned addresses do not overlap. *)
Lemma rd_wr32_ne m a b v : a mod 4 = 0 → b mod 4 = 0 → a ≠ b → rd32 (wr32 m a v) b = rd32 m b.
Proof.
  intros Ha Hb Hne. unfold rd32, wr32.
  assert (a + 4 ≤ b ∨ b + 4 ≤ a) as Hd.
  { pose proof (Z.div_mod a 4 ltac:(lia)). pose proof (Z.div_mod b 4 ltac:(lia)). lia. }
  by repeat rewrite rd_wr8_ne by lia.
Qed.
