(* ===== verification/Mmu.v ===== *)
(** * Page tables (include/arch/mmu.h, arch/x86/src/mm/mmu.c)

    Two-level x86 page tables in physical memory, which the kernel reads and
    writes through two one-page windows. The contents of the window entries of
    the kernel's own page table are [tmp1_pte] and [tmp2_pte]; the translation
    lookaside buffer ([mmu_reflush]) has no state here. *)
From S2P Require Import Prelude Machine.

Definition PT_P : Z := 1.
Definition PT_W : Z := 2.
Definition PT_U : Z := 4.
Definition NR_PXE : Z := 1024.
(** Set in a directory entry that maps 4 MB itself. *)
Definition PDE_PS : Z := 128.
Definition PDE_MASK : Z := Z.shiftl (Z.shiftr 0xFFFFFFFF 22) 22.
Definition PTE_MASK : Z := Z.shiftl (Z.shiftr 0xFFFFFFFF 22) 12.
Definition PXE_ATTR_MASK : Z := Z.shiftr 0xFFFFFFFF 20.
Definition PDE_IDX (addr : Z) : Z := Z.shiftr (Z.land addr PDE_MASK) 22.
Definition PTE_IDX (addr : Z) : Z := Z.shiftr (Z.land addr PTE_MASK) 12.
Definition PDE_OFFSET (addr : Z) : Z := PDE_IDX addr * 4.
Definition PTE_OFFSET (addr : Z) : Z := PTE_IDX addr * 4.

Record mmu := Mmu {
  pm : pmem;
  tmp1_lock : bool; tmp2_lock : bool;
  tmp1_pte : Z; tmp2_pte : Z;
}.

Section code.
(** [spin_lock] on a lock this CPU holds never returns. *)
Definition lock_tmp1 : M mmu unit :=
  s <- get ;; if tmp1_lock s then hang else put (Mmu (pm s) true (tmp2_lock s) (tmp1_pte s) (tmp2_pte s)).
Definition unlock_tmp1 : M mmu unit :=
  modify (λ s, Mmu (pm s) false (tmp2_lock s) (tmp1_pte s) (tmp2_pte s)).
Definition lock_tmp2 : M mmu unit :=
  s <- get ;; if tmp2_lock s then hang else put (Mmu (pm s) (tmp1_lock s) true (tmp1_pte s) (tmp2_pte s)).
Definition unlock_tmp2 : M mmu unit :=
  modify (λ s, Mmu (pm s) (tmp1_lock s) false (tmp1_pte s) (tmp2_pte s)).
Definition set_tmp1_pte (w : Z) : M mmu unit :=
  modify (λ s, Mmu (pm s) (tmp1_lock s) (tmp2_lock s) w (tmp2_pte s)).
Definition set_tmp2_pte (w : Z) : M mmu unit :=
  modify (λ s, Mmu (pm s) (tmp1_lock s) (tmp2_lock s) (tmp1_pte s) w).
Definition set_pm (m : pmem) : M mmu unit :=
  modify (λ s, Mmu m (tmp1_lock s) (tmp2_lock s) (tmp1_pte s) (tmp2_pte s)).

(** The page a window shows; an access through a window that shows none faults. *)
Definition window (w : Z) : M mmu Z :=
  if Z.land w PT_P =? 0 then fault else ret (Z.ldiff w PXE_ATTR_MASK).

Definition window_pte (pa : Z) : Z := Z.lor (Z.lor (ROUND_DOWN pa PAGE_SIZE) PT_P) PT_W.

Definition mmu_pm_set (pa val : Z) : M mmu unit :=
  assert_ (pa mod 4 =? 0) ;;;
  lock_tmp1 ;;;
  set_tmp1_pte (window_pte pa) ;;;
  s <- get ;; p <- window (tmp1_pte s) ;;
  set_pm (wr32 (pm s) (p + pa mod PAGE_SIZE) val) ;;;
  unlock_tmp1.

Definition mmu_pm_get (pa : Z) : M mmu Z :=
  assert_ (pa mod 4 =? 0) ;;;
  lock_tmp1 ;;;
  set_tmp1_pte (window_pte pa) ;;;
  unlock_tmp1 ;;;
  s <- get ;; p <- window (tmp1_pte s) ;;
  ret (rd32 (pm s) (p + pa mod PAGE_SIZE)).

Definition mmu_pp_clean (pa : Z) : M mmu unit :=
  assert_ (pa mod PAGE_SIZE =? 0) ;;;
  lock_tmp1 ;;;
  set_tmp1_pte (window_pte pa) ;;;
  loop (S (Z.to_nat PAGE_SIZE)) (λ i,
    if i <? PAGE_SIZE
    then s <- get ;; p <- window (tmp1_pte s) ;; set_pm (wr8 (pm s) (p + i) 0) ;;; ret (inl (i + 1))
    else ret (inr tt)) 0 ;;;
  unlock_tmp1.

(** The two windows are handed out by the address they show; [TMP1] and [TMP2] are
    the addresses the linker gave them. *)
Definition mmu_get_tmp1 (pa : Z) : M mmu unit :=
  assert_ (pa mod PAGE_SIZE =? 0) ;;; lock_tmp1 ;;; set_tmp1_pte (window_pte pa).
Definition mmu_get_tmp2 (pa : Z) : M mmu unit :=
  assert_ (pa mod PAGE_SIZE =? 0) ;;; lock_tmp2 ;;; set_tmp2_pte (window_pte pa).
Definition mmu_put_tmp1 : M mmu unit := set_tmp1_pte 0 ;;; unlock_tmp1.
Definition mmu_put_tmp2 : M mmu unit := set_tmp2_pte 0 ;;; unlock_tmp2.

Definition flags (usr wtb : bool) : Z := Z.lor (if usr then PT_U else 0) (if wtb then PT_W else 0).

Definition mmu_map (pde va pa : Z) (usr wtb : bool) : M mmu Z :=
  assert_ ((pde mod PAGE_SIZE =? 0) && (va mod PAGE_SIZE =? 0) && (pa mod PAGE_SIZE =? 0)) ;;;
  pte <- mmu_pm_get (add32 pde (PDE_OFFSET va)) ;;
  if Z.land pte PT_P =? 0 then ret E_NOTFOUND else
  let pte := Z.ldiff pte PXE_ATTR_MASK in
  pg <- mmu_pm_get (add32 pte (PTE_OFFSET va)) ;;
  if negb (Z.land pg PT_P =? 0) then ret E_EXIST else
  mmu_pm_set (add32 pte (PTE_OFFSET va)) (Z.lor pa (Z.lor PT_P (flags usr wtb))) ;;;
  ret E_OK.

Definition mmu_unmap (pde va : Z) : M mmu Z :=
  assert_ ((pde mod PAGE_SIZE =? 0) && (va mod PAGE_SIZE =? 0)) ;;;
  pte <- mmu_pm_get (add32 pde (PDE_OFFSET va)) ;;
  if Z.land pte PT_P =? 0 then ret E_NOTFOUND else
  let pte := Z.ldiff pte PXE_ATTR_MASK in
  pg <- mmu_pm_get (add32 pte (PTE_OFFSET va)) ;;
  if Z.land pg PT_P =? 0 then ret E_NOTFOUND else
  mmu_pm_set (add32 pte (PTE_OFFSET va)) 0 ;;;
  ret E_OK.

(** The step of the loop is [PAGE_SIZE * PAGE_SIZE / sizeof(addr_t)], what one entry
    of the directory maps. *)
Definition SZ_PDE : Z := PAGE_SIZE * PAGE_SIZE / 4.

Definition mmu_sync_kern_space (kpde pde addr size : Z) : M mmu unit :=
  assert_ ((KERN_BASE <=? addr) &&
    negb ((0 <? add32 addr size) && (add32 addr size <? KERN_BASE))) ;;;
  loop (S (Z.to_nat NR_PXE)) (λ offset,
    if offset <? size then
      v <- mmu_pm_get (add32 kpde (PDE_OFFSET (add32 addr offset))) ;;
      mmu_pm_set (add32 pde (PDE_OFFSET (add32 addr offset))) v ;;;
      ret (inl (add32 offset SZ_PDE))
    else ret (inr tt)) 0.

(** The error code, and the frame address when it is [E_OK]. *)
Definition mmu_v2p (pde v : Z) : M mmu (Z * option Z) :=
  pte <- mmu_pm_get (add32 pde (PDE_OFFSET v)) ;;
  if Z.land pte PT_P =? 0 then ret (E_NOTFOUND, None) else
  let pte := Z.ldiff pte PXE_ATTR_MASK in
  pa <- mmu_pm_get (add32 pte (PTE_OFFSET v)) ;;
  if Z.land pa PT_P =? 0 then ret (E_NOTFOUND, None) else
  ret (E_OK, Some (Z.ldiff pa PXE_ATTR_MASK)).

Definition mmu_pte_exist (pde va : Z) : M mmu bool :=
  assert_ (pde mod PAGE_SIZE =? 0) ;;;
  e <- mmu_pm_get (add32 pde (PDE_OFFSET va)) ;; ret (negb (Z.land e PT_P =? 0)).

Definition mmu_pte_get (pde va : Z) : M mmu (Z * option Z) :=
  assert_ (pde mod PAGE_SIZE =? 0) ;;;
  _pte <- mmu_pm_get (add32 pde (PDE_OFFSET va)) ;;
  if Z.land _pte PT_P =? 0 then ret (E_NOTFOUND, None)
  else ret (E_OK, Some (Z.ldiff _pte PXE_ATTR_MASK)).

Definition mmu_pte_set (pde va pte : Z) (usr wtb : bool) : M mmu unit :=
  e <- mmu_pte_exist pde va ;;
  assert_ (negb e) ;;;
  mmu_pm_set (add32 pde (PDE_OFFSET va)) (Z.lor pte (Z.lor PT_P (flags usr wtb))).
End code.

(** ** Indices and entries *)
Lemma pde_offset_eq va : is_u32 va → PDE_OFFSET va = 4 * (va / 2 ^ 22).
Proof.
  intros [H1 H2]. unfold PDE_OFFSET, PDE_IDX, PDE_MASK. unfold W32 in H2.
  rewrite Z.shiftr_land, !Z.shiftr_div_pow2 by lia.
  replace (Z.shiftl (0xFFFFFFFF / 2 ^ 22) 22 / 2 ^ 22) with (Z.ones 10) by done.
  rewrite land_low by lia. rewrite Z.mod_small; [lia|].
  split; [apply Z.div_pos; lia|apply Z.div_lt_upper_bound; lia].
Qed.

Lemma pte_offset_eq va : PTE_OFFSET va = 4 * ((va / 2 ^ 12) mod 2 ^ 10).
Proof.
  unfold PTE_OFFSET, PTE_IDX, PTE_MASK. rewrite Z.shiftr_land, !Z.shiftr_div_pow2 by lia.
  replace (Z.shiftl (0xFFFFFFFF / 2 ^ 22) 12 / 2 ^ 12) with (Z.ones 10) by done.
  rewrite land_low by lia. lia.
Qed.

Lemma pde_offset_range va : is_u32 va → 0 ≤ PDE_OFFSET va < 4096 ∧ PDE_OFFSET va mod 4 = 0.
Proof.
  intros Hv. rewrite pde_offset_eq by done. destruct Hv as [H1 H2]. unfold W32 in H2.
  assert (0 ≤ va / 2 ^ 22 < 1024)
    by (split; [apply Z.div_pos; lia|apply Z.div_lt_upper_bound; lia]).
  split; [lia|]. rewrite Z.mul_comm. apply Z.mod_mul. lia.
Qed.

Lemma pte_offset_range va : 0 ≤ PTE_OFFSET va < 4096 ∧ PTE_OFFSET va mod 4 = 0.
Proof.
  rewrite pte_offset_eq. pose proof (Z.mod_pos_bound (va / 2 ^ 12) (2 ^ 10) ltac:(lia)).
  split; [lia|]. rewrite Z.mul_comm. apply Z.mod_mul. lia.
Qed.

Lemma attr_mask_ones : PXE_ATTR_MASK = Z.ones 12.
Proof. done. Qed.

Lemma frame_of_eq e : Z.ldiff e PXE_ATTR_MASK = e - e mod 4096.
Proof. by rewrite attr_mask_ones, ldiff_low. Qed.

Lemma frame_aligned e : (e - e mod 4096) mod 4096 = 0.
Proof.
  pose proof (Z.div_mod e 4096 ltac:(lia)).
  replace (e - e mod 4096) with (e / 4096 * 4096) by lia. apply Z.mod_mul. lia.
Qed.

Lemma frame_u32 e : is_u32 e → 0 ≤ e - e mod 4096 ∧ e - e mod 4096 + 4096 ≤ W32.
Proof.
  intros [H1 H2]. pose proof (Z.div_mod e 4096 ltac:(lia)). pose proof (Z.mod_pos_bound e 4096 ltac:(lia)).
  assert (0 ≤ e / 4096 < 2 ^ 20); [|unfold W32; lia].
  unfold W32 in H2. split; [apply Z.div_pos; lia|apply Z.div_lt_upper_bound; lia].
Qed.

(** An entry built from an aligned frame and attributes. *)
Lemma entry_eq pa f : pa mod 4096 = 0 → 0 ≤ f < 4096 → Z.lor pa f = pa + f.
Proof. intros. by apply (lor_add pa f 12). Qed.

Lemma entry_frame pa f : pa mod 4096 = 0 → 0 ≤ f < 4096 → Z.ldiff (Z.lor pa f) PXE_ATTR_MASK = pa.
Proof.
  intros Hp Hf. rewrite frame_of_eq, entry_eq by done.
  rewrite Z.add_mod, Hp, Z.add_0_l, Z.mod_mod, Z.mod_small by lia. lia.
Qed.

Lemma entry_present pa f :
  pa mod 4096 = 0 → 0 ≤ f < 4096 → Z.land (Z.lor pa f) PT_P = f mod 2.
Proof.
  intros Hp Hf. rewrite entry_eq by done. change PT_P with (Z.ones 1). rewrite land_low by lia.
  pose proof (Z.div_mod pa 4096 ltac:(lia)). rewrite Hp in *.
  replace (pa + f) with (f + pa / 4096 * 2048 * 2) by lia. by rewrite Z.mod_add by lia.
Qed.

Lemma pflags_range usr wtb :
  let f := Z.lor PT_P (flags usr wtb) in 0 ≤ f < 4096 ∧ f mod 2 = 1.
Proof. by destruct usr, wtb. Qed.

Lemma window_pte_spec pa :
  Z.land (window_pte pa) PT_P = 1 ∧ Z.ldiff (window_pte pa) PXE_ATTR_MASK = pa - pa mod 4096.
Proof.
  unfold window_pte. rewrite <- Z.lor_assoc. rewrite round_down_eq by done.
  change PAGE_SIZE with 4096. pose proof (frame_aligned pa).
  split; [by rewrite entry_present|by rewrite entry_frame].
Qed.

(** ** One word through the window *)

(** The window's lock is free, and the other window is as in [s]. *)
Definition idle (s s' : mmu) : Prop := tmp1_lock s' = false ∧ tmp2_lock s' = tmp2_lock s.

Lemma window_addr pa : pa - pa mod 4096 + pa mod PAGE_SIZE = pa.
Proof. change PAGE_SIZE with 4096. lia. Qed.

Lemma wp_pm_get {A} pa (k : Z → M mmu A) Q s :
  pa mod 4 = 0 → tmp1_lock s = false →
  (∀ s', pm s' = pm s → idle s s' → wp (k (rd32 (pm s) pa)) Q s') →
  wp (x <- mmu_pm_get pa ;; k x) Q s.
Proof.
  intros Ha Hl Hk. apply wp_bind. unfold mmu_pm_get. apply wp_bind, wp_assert.
  split; [by apply Z.eqb_eq|]. unfold lock_tmp1. apply wp_bind, wp_bind, wp_get. rewrite Hl.
  apply wp_put, wp_bind, wp_modify, wp_bind, wp_modify, wp_bind, wp_get. cbn [tmp1_pte].
  destruct (window_pte_spec pa) as [Hp Hf]. unfold window. rewrite Hp.
  apply wp_bind, wp_ret, wp_ret. cbn. rewrite Hf, window_addr. by apply Hk.
Qed.

Lemma wp_pm_set {A} pa v (k : unit → M mmu A) Q s :
  pa mod 4 = 0 → tmp1_lock s = false →
  (∀ s', pm s' = wr32 (pm s) pa v → idle s s' → wp (k tt) Q s') →
  wp (x <- mmu_pm_set pa v ;; k x) Q s.
Proof.
  intros Ha Hl Hk. apply wp_bind. unfold mmu_pm_set. apply wp_bind, wp_assert.
  split; [by apply Z.eqb_eq|]. unfold lock_tmp1. apply wp_bind, wp_bind, wp_get. rewrite Hl.
  apply wp_put, wp_bind, wp_modify, wp_bind, wp_get. cbn [tmp1_pte].
  destruct (window_pte_spec pa) as [Hp Hf]. unfold window. rewrite Hp.
  apply wp_bind, wp_ret, wp_bind, wp_modify, wp_modify. cbn. rewrite Hf, window_addr. by apply Hk.
Qed.

Lemma idle_trans s1 s2 s3 : idle s1 s2 → idle s2 s3 → idle s1 s3.
Proof. intros [_ H1] [H2 H3]. split; congruence. Qed.

(** ** Translation *)

(** The address of the entry of [va] in the directory, and in the table the
    directory entry [e] points to. *)
Definition pde_at (pde va : Z) : Z := add32 pde (PDE_OFFSET va).
Definition pte_at (e va : Z) : Z := add32 (Z.ldiff e PXE_ATTR_MASK) (PTE_OFFSET va).
Definition present (e : Z) : bool := negb (Z.land e PT_P =? 0).

(** The walk through directory and table, as the code does it; every entry of the
    directory that is present counts as a table. *)
Definition walk (m : pmem) (pde va : Z) : option Z :=
  let e := rd32 m (pde_at pde va) in
  if present e then
    let g := rd32 m (pte_at e va) in
    if present g then Some (Z.ldiff g PXE_ATTR_MASK) else None
  else None.

(** What the processor makes of [va]: an entry with [PDE_PS] maps the 4 MB around [va]
    without a table (the boot code's entry of address 0, [map_dev]'s entries). *)
Definition large (e : Z) : bool := present e && negb (Z.land e PDE_PS =? 0).
Definition cpu_walk (m : pmem) (pde va : Z) : option Z :=
  let e := rd32 m (pde_at pde va) in
  if large e then Some (Z.lor (Z.land e PDE_MASK) (Z.land va PTE_MASK)) else walk m pde va.

Lemma cpu_walk_small m pde va : large (rd32 m (pde_at pde va)) = false → cpu_walk m pde va = walk m pde va.
Proof. unfold cpu_walk. by intros ->. Qed.

(** The directory is a page and its tables are pages of their own. *)
Record tables_ok (m : pmem) (pde : Z) : Prop := {
  tb_pde : pde mod 4096 = 0 ∧ is_u32 pde;
  tb_bytes : bytes m;
  tb_not_pde : ∀ va, is_u32 va → present (rd32 m (pde_at pde va)) = true →
    Z.ldiff (rd32 m (pde_at pde va)) PXE_ATTR_MASK ≠ pde;
  tb_distinct : ∀ va va', is_u32 va → is_u32 va' → PDE_OFFSET va ≠ PDE_OFFSET va' →
    present (rd32 m (pde_at pde va)) = true → present (rd32 m (pde_at pde va')) = true →
    Z.ldiff (rd32 m (pde_at pde va)) PXE_ATTR_MASK ≠ Z.ldiff (rd32 m (pde_at pde va')) PXE_ATTR_MASK;
}.

Lemma pde_at_eq pde va :
  pde mod 4096 = 0 → is_u32 pde → is_u32 va →
  pde_at pde va = pde + PDE_OFFSET va ∧ pde_at pde va mod 4 = 0.
Proof.
  intros Hp Hpu Hv. destruct (pde_offset_range va Hv) as [Hr Hm].
  pose proof (frame_u32 pde Hpu) as Hf. rewrite Hp in Hf. unfold pde_at, add32.
  rewrite u32_small by (unfold is_u32; lia). split; [done|].
  pose proof (Z.div_mod pde 4096 ltac:(lia)). rewrite Hp in *.
  rewrite Z.add_mod, Hm by lia. replace pde with (pde / 4096 * 1024 * 4) by lia.
  rewrite Z.mod_mul by lia. done.
Qed.

Lemma pte_at_eq e va :
  is_u32 e → pte_at e va = Z.ldiff e PXE_ATTR_MASK + PTE_OFFSET va ∧ pte_at e va mod 4 = 0.
Proof.
  intros He. destruct (pte_offset_range va) as [Hr Hm]. destruct (frame_u32 e He) as [Hf1 Hf2].
  unfold pte_at, add32. rewrite frame_of_eq.
  rewrite u32_small by (unfold is_u32; lia). split; [done|].
  rewrite Z.add_mod, Hm by lia. pose proof (Z.div_mod e 4096 ltac:(lia)).
  replace (e - e mod 4096) with (e / 4096 * 1024 * 4) by lia. rewrite Z.mod_mul by lia. done.
Qed.

(** Two pages and an offset in each. *)
Lemma page_disjoint p q i j :
  p mod 4096 = 0 → q mod 4096 = 0 → 0 ≤ i < 4096 → 0 ≤ j < 4096 → p + i = q + j → p = q ∧ i = j.
Proof.
  intros Hp Hq Hi Hj He. pose proof (Z.div_mod p 4096 ltac:(lia)). pose proof (Z.div_mod q 4096 ltac:(lia)). lia.
Qed.

Lemma same_page va va' :
  is_u32 va → is_u32 va' → PDE_OFFSET va = PDE_OFFSET va' → PTE_OFFSET va = PTE_OFFSET va' →
  va / 4096 = va' / 4096.
Proof.
  intros Hv Hv'. rewrite !pde_offset_eq, !pte_offset_eq by done. intros H1 H2.
  assert (va / 2 ^ 22 = va / 4096 / 1024) as E1 by (by rewrite Z.div_div).
  assert (va' / 2 ^ 22 = va' / 4096 / 1024) as E2 by (by rewrite Z.div_div).
  change (2 ^ 12) with 4096 in *. change (2 ^ 10) with 1024 in *.
  pose proof (Z.div_mod (va / 4096) 1024 ltac:(lia)).
  pose proof (Z.div_mod (va' / 4096) 1024 ltac:(lia)). lia.
Qed.

(** Writing the table entry of [va] changes the translation of its page only. *)
Section entry.
Context (m : pmem) (pde va v : Z) (Hok : tables_ok m pde) (Hva : is_u32 va).
Let e := rd32 m (pde_at pde va).
Context (Hpres : present e = true).
Let m' := wr32 m (pte_at e va) v.

Lemma entry_pde va' : is_u32 va' → rd32 m' (pde_at pde va') = rd32 m (pde_at pde va').
Proof using Hok Hva Hpres.
  intros Hva'. destruct (tb_pde _ _ Hok) as [Hp Hpu].
  destruct (pde_at_eq pde va' Hp Hpu Hva') as [E1 A1].
  assert (Heu : is_u32 e) by (apply rd32_range, Hok).
  destruct (pte_at_eq e va Heu) as [E2 A2]. apply rd_wr32_ne; [done|done|].
  rewrite E1, E2. intros Heq. destruct (pde_offset_range va' Hva') as [R1 _].
  destruct (pte_offset_range va) as [R2 _].
  apply page_disjoint in Heq as [Heq _]; [|rewrite frame_of_eq; apply frame_aligned|done..].
  by apply (tb_not_pde _ _ Hok va).
Qed.

Lemma entry_tables_ok : tables_ok m' pde.
Proof using Hok Hva Hpres.
  split; [apply Hok|apply wr32_bytes, Hok|..].
  - intros va' Hv'. rewrite entry_pde by done. by apply Hok.
  - intros va1 va2 H1 H2. rewrite !entry_pde by done. by apply Hok.
Qed.

Lemma entry_other va' :
  is_u32 va' → va' / 4096 ≠ va / 4096 → walk m' pde va' = walk m pde va'.
Proof using Hok Hva Hpres.
  intros Hva' Hne. unfold walk. rewrite entry_pde by done.
  destruct (present (rd32 m (pde_at pde va'))) eqn:Hp'; [|done].
  replace (rd32 m' (pte_at (rd32 m (pde_at pde va')) va'))
    with (rd32 m (pte_at (rd32 m (pde_at pde va')) va')); [done|]. symmetry.
  assert (Heu : is_u32 e) by (apply rd32_range, Hok).
  assert (Heu' : is_u32 (rd32 m (pde_at pde va'))) by (apply rd32_range, Hok).
  destruct (pte_at_eq e va Heu) as [E1 A1]. destruct (pte_at_eq _ va' Heu') as [E2 A2].
  apply rd_wr32_ne; [done|done|]. rewrite E1, E2. intros Heq.
  destruct (pte_offset_range va) as [R1 _]. destruct (pte_offset_range va') as [R2 _].
  apply page_disjoint in Heq as [Hb Ho]; [|rewrite frame_of_eq; apply frame_aligned..|done|done].
  destruct (decide (PDE_OFFSET va = PDE_OFFSET va')) as [Hd|Hd].
  - apply Hne. symmetry. by apply same_page.
  - by apply (tb_distinct _ _ Hok va va').
Qed.

Lemma entry_cpu va' :
  is_u32 va' → va' / 4096 ≠ va / 4096 → cpu_walk m' pde va' = cpu_walk m pde va'.
Proof using Hok Hva Hpres.
  intros Hva' Hne. unfold cpu_walk. rewrite entry_pde by done. by rewrite entry_other.
Qed.

Lemma entry_self : is_u32 v →
  walk m' pde va = if present v then Some (Z.ldiff v PXE_ATTR_MASK) else None.
Proof using Hok Hva Hpres.
  intros Hv. unfold walk. rewrite entry_pde by done. fold e. rewrite Hpres.
  unfold m'. by rewrite rd_wr32.
Qed.
End entry.

(** ** The operations *)
Ltac words :=
  repeat match goal with
  | |- is_u32 (rd32 _ _) => apply rd32_range; solve [eauto using tb_bytes]
  | |- context [PAGE_SIZE] => change PAGE_SIZE with 4096
  end.

Lemma v2p_spec m pde v s :
  tables_ok m pde → is_u32 v → pm s = m → tmp1_lock s = false →
  wp (mmu_v2p pde v) (λ r s', pm s' = m ∧ idle s s' ∧
    r = match walk m pde v with Some p => (E_OK, Some p) | None => (E_NOTFOUND, None) end) s.
Proof.
  intros Hok Hv <- Hl. destruct (tb_pde _ _ Hok) as [Hp Hpu].
  unfold mmu_v2p, walk. apply wp_pm_get; [by apply pde_at_eq|done|]. intros s1 Hm1 Hi1.
  fold (pde_at pde v). unfold present.
  destruct (Z.land (rd32 (pm s) (pde_at pde v)) PT_P =? 0); simpl; [by apply wp_ret|].
  rewrite <- Hm1. apply wp_pm_get; [apply pte_at_eq, rd32_range; rewrite Hm1; apply Hok|apply Hi1|].
  intros s2 Hm2 Hi2. unfold pte_at. rewrite Hm1 in *.
  destruct (Z.land (rd32 (pm s) _) PT_P =? 0); simpl; apply wp_ret; eauto using idle_trans.
Qed.

Lemma map_spec m pde va pa usr wtb s :
  tables_ok m pde → is_u32 va → is_u32 pa → va mod 4096 = 0 → pa mod 4096 = 0 →
  pm s = m → tmp1_lock s = false →
  wp (mmu_map pde va pa usr wtb) (λ err s', idle s s' ∧
    let e := rd32 m (pde_at pde va) in
    if present e then
      match walk m pde va with
      | Some _ => err = E_EXIST ∧ pm s' = m
      | None => err = E_OK ∧ pm s' = wr32 m (pte_at e va) (Z.lor pa (Z.lor PT_P (flags usr wtb)))
      end
    else err = E_NOTFOUND ∧ pm s' = m) s.
Proof.
  intros Hok Hv Hpau Hva Hpa <- Hl. destruct (tb_pde _ _ Hok) as [Hp Hpu].
  unfold mmu_map, walk. apply wp_bind, wp_assert. change PAGE_SIZE with 4096.
  rewrite Hp, Hva, Hpa. split; [done|].
  apply wp_pm_get; [by apply pde_at_eq|done|]. intros s1 Hm1 Hi1. fold (pde_at pde va).
  unfold present. set (e := rd32 (pm s) (pde_at pde va)).
  destruct (Z.land e PT_P =? 0); simpl; [by apply wp_ret|].
  assert (Heu : is_u32 e) by apply rd32_range, Hok.
  rewrite <- Hm1. apply wp_pm_get; [by apply pte_at_eq|apply Hi1|].
  intros s2 Hm2 Hi2. unfold pte_at. rewrite Hm1 in *.
  destruct (Z.land (rd32 (pm s) _) PT_P =? 0); simpl;
    [|apply wp_ret; eauto using idle_trans].
  apply wp_pm_set; [by apply pte_at_eq|apply Hi2|]. intros s3 Hm3 Hi3. apply wp_ret.
  rewrite Hm3, Hm2. eauto using idle_trans.
Qed.

Lemma unmap_spec m pde va s :
  tables_ok m pde → is_u32 va → va mod 4096 = 0 → pm s = m → tmp1_lock s = false →
  wp (mmu_unmap pde va) (λ err s', idle s s' ∧
    match walk m pde va with
    | Some _ => err = E_OK ∧ pm s' = wr32 m (pte_at (rd32 m (pde_at pde va)) va) 0
    | None => err = E_NOTFOUND ∧ pm s' = m
    end) s.
Proof.
  intros Hok Hv Hva <- Hl. destruct (tb_pde _ _ Hok) as [Hp Hpu].
  unfold mmu_unmap, walk. apply wp_bind, wp_assert. change PAGE_SIZE with 4096.
  rewrite Hp, Hva. split; [done|].
  apply wp_pm_get; [by apply pde_at_eq|done|]. intros s1 Hm1 Hi1. fold (pde_at pde va).
  unfold present. set (e := rd32 (pm s) (pde_at pde va)).
  destruct (Z.land e PT_P =? 0); simpl; [by apply wp_ret|].
  assert (Heu : is_u32 e) by apply rd32_range, Hok.
  rewrite <- Hm1. apply wp_pm_get; [by apply pte_at_eq|apply Hi1|].
  intros s2 Hm2 Hi2. unfold pte_at. rewrite Hm1 in *.
  destruct (Z.land (rd32 (pm s) _) PT_P =? 0); simpl; [apply wp_ret; eauto using idle_trans|].
  apply wp_pm_set; [by apply pte_at_eq|apply Hi2|]. intros s3 Hm3 Hi3. apply wp_ret.
  rewrite Hm3, Hm2. eauto using idle_trans.
Qed.

(** C11: [mmu_map], [mmu_unmap] and [mmu_v2p], on well-formed tables with the window lock
    free and for an address whose directory entry does not map 4 MB itself: all three
    always return, leave the window lock free and keep the tables well-formed, and what
    they do is stated of the translation the processor makes ([cpu_walk], 4 MB entries
    included). [mmu_map] reports a missing table ([E_NOTFOUND]) or a page that is mapped
    already ([E_EXIST]) and changes nothing; otherwise the page then translates to the
    given frame, its entry holds the frame and exactly the attributes asked for, and no
    other page's translation changes. [mmu_unmap] removes the translation of one page and
    no other. [mmu_v2p] returns the processor's translation. (For a 4 MB entry the code
    takes the frame for a table: [mmu_v2p_large].) *)
Theorem mmu_map_correct m pde va pa usr wtb s :
  tables_ok m pde → is_u32 va → is_u32 pa → va mod PAGE_SIZE = 0 → pa mod PAGE_SIZE = 0 →
  large (rd32 m (pde_at pde va)) = false → pm s = m → tmp1_lock s = false →
  wp (mmu_map pde va pa usr wtb) (λ err s', idle s s' ∧ tables_ok (pm s') pde ∧
    if present (rd32 m (pde_at pde va)) then
      match cpu_walk m pde va with
      | Some _ => err = E_EXIST ∧ pm s' = m
      | None => err = E_OK ∧ cpu_walk (pm s') pde va = Some pa ∧
          rd32 (pm s') (pte_at (rd32 m (pde_at pde va)) va) =
            pa + 1 + (if usr then 4 else 0) + (if wtb then 2 else 0) ∧
          ∀ va', is_u32 va' → va' / 4096 ≠ va / 4096 → cpu_walk (pm s') pde va' = cpu_walk m pde va'
      end
    else err = E_NOTFOUND ∧ pm s' = m) s ∧
  wp (mmu_unmap pde va) (λ err s', idle s s' ∧ tables_ok (pm s') pde ∧
    cpu_walk (pm s') pde va = None ∧
    err = (match cpu_walk m pde va with Some _ => E_OK | None => E_NOTFOUND end) ∧
    ∀ va', is_u32 va' → va' / 4096 ≠ va / 4096 → cpu_walk (pm s') pde va' = cpu_walk m pde va') s ∧
  wp (mmu_v2p pde va) (λ r s', pm s' = m ∧ idle s s' ∧
    r = match cpu_walk m pde va with Some p => (E_OK, Some p) | None => (E_NOTFOUND, None) end) s.
Proof.
  intros Hok Hv Hpau Hva Hpa Hlg Hm Hl. rewrite (cpu_walk_small _ _ _ Hlg). split_and!; [| |by apply v2p_spec].
  - eapply wp_mono; [by apply map_spec|]. cbn beta zeta. intros err s' [Hi Hs]. split; [done|].
    destruct (present (rd32 m (pde_at pde va))) eqn:Hp.
    2:{ destruct Hs as [-> ->]. by split. }
    destruct (walk m pde va) eqn:Hw; destruct Hs as [-> ->]; [by split|].
    destruct (pflags_range usr wtb) as [Hf1 Hf2].
    set (v := Z.lor pa _). assert (Hpv : present v = true).
    { unfold present, v. rewrite entry_present by done. by rewrite Hf2. }
    assert (Hvu : is_u32 v).
    { unfold v. rewrite entry_eq by done. pose proof (frame_u32 pa Hpau) as Hfr.
      change PAGE_SIZE with 4096 in Hpa. rewrite Hpa in Hfr. unfold is_u32. destruct Hf1, Hpau. lia. }
    split; [by apply entry_tables_ok|]. split_and!; [done| | |].
    + rewrite cpu_walk_small by (by rewrite entry_pde). rewrite entry_self by done. rewrite Hpv. unfold v. by rewrite entry_frame.
    + rewrite rd_wr32 by done. unfold v. rewrite entry_eq by done.
      enough (Z.lor PT_P (flags usr wtb) = 1 + (if usr then 4 else 0) + (if wtb then 2 else 0)) by lia.
      by destruct usr, wtb.
    + intros va' Hv' Hne. by apply entry_cpu.
  - eapply wp_mono; [by apply unmap_spec|]. cbn beta zeta. intros err s' [Hi Hs]. split; [done|].
    destruct (walk m pde va) eqn:Hw; destruct Hs as [-> ->]; [|by rewrite cpu_walk_small].
    assert (Hp : present (rd32 m (pde_at pde va)) = true).
    { revert Hw. unfold walk. by destruct (present (rd32 m (pde_at pde va))). }
    split; [by apply entry_tables_ok|]. split_and!; [|done|].
    + rewrite cpu_walk_small by (by rewrite entry_pde). by rewrite entry_self.
    + intros va' Hv' Hne. by apply entry_cpu.
Qed.

Lemma rd32_empty a : rd32 ∅ a = 0.
Proof. unfold rd32, rd8. by rewrite !lookup_empty. Qed.

Lemma bytes_empty : bytes ∅.
Proof. intros a. unfold rd8. rewrite lookup_empty. simpl. lia. Qed.

(** A directory with one table. *)
Lemma one_table_ok pde va e :
  pde mod 4096 = 0 → is_u32 pde → is_u32 va → is_u32 e → Z.ldiff e PXE_ATTR_MASK ≠ pde →
  tables_ok (wr32 ∅ (pde_at pde va) e) pde.
Proof.
  intros Hp Hpu Hv He Hne. destruct (pde_at_eq pde va Hp Hpu Hv) as [E1 A1].
  assert (H : ∀ va', is_u32 va' → present (rd32 (wr32 ∅ (pde_at pde va) e) (pde_at pde va')) = true →
    PDE_OFFSET va' = PDE_OFFSET va ∧ rd32 (wr32 ∅ (pde_at pde va) e) (pde_at pde va') = e).
  { intros va' Hv' Hpr. destruct (pde_at_eq pde va' Hp Hpu Hv') as [E2 A2].
    destruct (decide (pde_at pde va = pde_at pde va')) as [Heq|Hn].
    - split; [lia|]. by rewrite Heq, rd_wr32.
    - rewrite rd_wr32_ne, rd32_empty in Hpr by done. done. }
  split; [done|apply wr32_bytes, bytes_empty|..].
  - intros va' Hv' Hpr. destruct (H va' Hv' Hpr) as [_ ->]. done.
  - intros va1 va2 H1 H2 Hd P1 P2. destruct (H _ H1 P1) as [D1 _], (H _ H2 P2) as [D2 _]. lia.
Qed.

Definition ex_pm : pmem := wr32 ∅ (pde_at 0x1000 0x400000) 0x2007.
Definition ex_mmu : mmu := Mmu ex_pm false false 0 0.

Lemma mmu_map_correct_witness :
  wp (mmu_map 0x1000 0x403000 0x9000 true false) (λ err s', idle ex_mmu s' ∧
    tables_ok (pm s') 0x1000 ∧ err = E_OK ∧ cpu_walk (pm s') 0x1000 0x403000 = Some 0x9000 ∧
    rd32 (pm s') (pte_at (rd32 ex_pm (pde_at 0x1000 0x403000)) 0x403000) = 0x9000 + 1 + 4 + 0 ∧
    ∀ va', is_u32 va' → va' / 4096 ≠ 0x403000 / 4096 →
      cpu_walk (pm s') 0x1000 va' = cpu_walk ex_pm 0x1000 va') ex_mmu.
Proof.
  destruct (mmu_map_correct ex_pm 0x1000 0x403000 0x9000 true false ex_mmu) as [Hw _];
    [|done..|exact Hw].
  by apply one_table_ok.
Defined.

(** The entry of [map_dev] for 0xFEC00000: the processor finds the frame of the device
    page, [mmu_v2p] takes what the device's memory holds for a table. *)
Definition ex_dev : mmu := Mmu (wr32 ∅ (pde_at 0x1000 0xFEC00000) 0xFEC00083) false false 0 0.
Lemma mmu_v2p_large :
  tables_ok (pm ex_dev) 0x1000 ∧ cpu_walk (pm ex_dev) 0x1000 0xFEE00000 = Some 0xFEE00000 ∧
  match mmu_v2p 0x1000 0xFEE00000 ex_dev with Ret r _ => r = (E_NOTFOUND, None) | _ => False end.
Proof. split; [by apply one_table_ok|]. split; by vm_compute. Qed.

(** ** Sharing the kernel's half of the directory *)
Lemma sync_spec m kpde pde s :
  pde mod 4096 = 0 → kpde mod 4096 = 0 → is_u32 pde → is_u32 kpde → pde ≠ kpde → bytes m →
  pm s = m → tmp1_lock s = false →
  wp (mmu_sync_kern_space kpde pde KERN_BASE (sub32 0 KERN_BASE)) (λ _ s', idle s s' ∧
    bytes (pm s') ∧
    (∀ k, 0 ≤ k < 1024 →
       rd32 (pm s') (pde + 4 * k) = rd32 m (if 768 <=? k then kpde + 4 * k else pde + 4 * k)) ∧
    (∀ a, a mod 4 = 0 → a < pde ∨ pde + 4096 ≤ a → rd32 (pm s') a = rd32 m a)) s.
Proof.
  intros Hp Hkp Hpu Hkpu Hne Hb <- Hl. unfold mmu_sync_kern_space. apply wp_bind, wp_assert.
  split; [by vm_compute|]. replace (sub32 0 KERN_BASE) with (256 * SZ_PDE) by (by vm_compute).
  assert (Hal : ∀ p k, p mod 4096 = 0 → (p + 4 * k) mod 4 = 0).
  { intros p k Hpp. pose proof (Z.div_mod p 4096 ltac:(lia)).
    replace (p + 4 * k) with ((p / 4096 * 1024 + k) * 4) by lia. apply Z.mod_mul. lia. }
  assert (Hoff : ∀ i, 0 ≤ i < 256 → PDE_OFFSET (add32 KERN_BASE (i * SZ_PDE)) = 4 * (768 + i)).
  { intros i Hi. change SZ_PDE with (2 ^ 22). change KERN_BASE with (768 * 2 ^ 22).
    unfold add32. rewrite u32_small by (unfold is_u32, W32; lia).
    rewrite pde_offset_eq by (unfold is_u32, W32; lia).
    rewrite <- Z.mul_add_distr_r, Z.div_mul by lia. lia. }
  assert (Hpg : ∀ p k, p mod 4096 = 0 → is_u32 p → 0 ≤ k < 1024 → add32 p (4 * k) = p + 4 * k).
  { intros p k Hpp Hpp2 Hk. pose proof (frame_u32 p Hpp2) as Hf. rewrite Hpp in Hf.
    unfold add32. apply u32_small. unfold is_u32. lia. }
  eapply (wp_loop (λ n off s', ∃ i, 0 ≤ i ≤ 256 ∧ n = Z.to_nat (256 - i) ∧ off = i * SZ_PDE ∧
    idle s s' ∧ bytes (pm s') ∧
    (∀ k, 0 ≤ k < 1024 → rd32 (pm s') (pde + 4 * k) =
       rd32 (pm s) (if (768 <=? k) && (k <? 768 + i) then kpde + 4 * k else pde + 4 * k)) ∧
    (∀ a, a mod 4 = 0 → a < pde ∨ pde + 4096 ≤ a → rd32 (pm s') a = rd32 (pm s) a)))
    with (n := 256%nat); [|unfold NR_PXE; lia|].
  2:{ exists 0. split_and!; [lia|lia|lia|lia|by split|done| |done]. intros k Hk.
      destruct (Z.leb_spec 768 k), (Z.ltb_spec k (768 + 0)); simpl; try done. lia. }
  intros n off s1 (i & Hi & -> & -> & Hid & Hb1 & Hin & Hout).
  destruct (Z.ltb_spec (i * SZ_PDE) (256 * SZ_PDE)) as [Hlt|Hge].
  - assert (Hi2 : 0 ≤ i < 256) by (change SZ_PDE with 4194304 in *; lia).
    rewrite Hoff, !Hpg by (done || lia).
    apply wp_pm_get; [by apply Hal|apply Hid|]. intros s2 Hm2 Hid2.
    apply wp_pm_set; [by apply Hal|apply Hid2|]. intros s3 Hm3 Hid3.
    apply wp_ret. exists (Z.to_nat (256 - (i + 1))). split; [lia|]. exists (i + 1).
    assert (Hkv : rd32 (pm s1) (kpde + 4 * (768 + i)) = rd32 (pm s) (kpde + 4 * (768 + i))).
    { apply Hout; [by apply Hal|]. pose proof (Z.div_mod pde 4096 ltac:(lia)).
      pose proof (Z.div_mod kpde 4096 ltac:(lia)). lia. }
    split_and!; [lia|lia|lia| |eauto using idle_trans| | |].
    + unfold add32. rewrite u32_small; [lia|]. unfold is_u32, W32. change SZ_PDE with 4194304. lia.
    + rewrite Hm3, Hm2. by apply wr32_bytes.
    + intros k Hk. rewrite Hm3, Hm2. destruct (decide (k = 768 + i)) as [->|Hk'].
      * rewrite rd_wr32 by (by apply rd32_range). rewrite Hkv.
        destruct (Z.leb_spec 768 (768 + i)), (Z.ltb_spec (768 + i) (768 + (i + 1))); cbn [andb]; (lia || done).
      * rewrite rd_wr32_ne by (by apply Hal || lia). rewrite Hin by done.
        destruct (Z.leb_spec 768 k), (Z.ltb_spec k (768 + i)), (Z.ltb_spec k (768 + (i + 1)));
          cbn [andb]; (lia || done).
    + intros a Ha Hd. rewrite Hm3, Hm2, rd_wr32_ne by (by apply Hal || lia). by apply Hout.
  - assert (i = 256) as -> by (change SZ_PDE with 4194304 in *; lia).
    apply wp_ret. split_and!; [done|done| |done]. intros k Hk. rewrite Hin by done.
    destruct (Z.leb_spec 768 k), (Z.ltb_spec k (768 + 256)); cbn [andb]; (lia || done).
Qed.

(** [mmu_sync_kern_space], called as [ptb_setup] and [ptb_fork] call it, makes
    the kernel half of a page directory the kernel's: every kernel address then
    translates as it does for the kernel, every user entry is what it was, and no
    word outside the directory changes. *)
Theorem mmu_sync_correct m kpde pde s :
  pde mod 4096 = 0 → kpde mod 4096 = 0 → is_u32 pde → is_u32 kpde → pde ≠ kpde → bytes m →
  (∀ va, is_u32 va → present (rd32 m (pde_at kpde va)) = true →
     Z.ldiff (rd32 m (pde_at kpde va)) PXE_ATTR_MASK ≠ pde) →
  pm s = m → tmp1_lock s = false →
  wp (mmu_sync_kern_space kpde pde KERN_BASE (sub32 0 KERN_BASE)) (λ _ s', idle s s' ∧
    (∀ va, is_u32 va → KERN_BASE ≤ va → walk (pm s') pde va = walk m kpde va) ∧
    (∀ va, is_u32 va → va < KERN_BASE → rd32 (pm s') (pde_at pde va) = rd32 m (pde_at pde va)) ∧
    (∀ a, a mod 4 = 0 → a < pde ∨ pde + 4096 ≤ a → rd32 (pm s') a = rd32 m a)) s.
Proof.
  intros Hp Hkp Hpu Hkpu Hne Hb Htab Hm Hl. eapply wp_mono; [by apply (sync_spec m)|].
  intros _ s' (Hid & Hb' & Hin & Hout).
  assert (Hk : ∀ va, is_u32 va → ∃ k, 0 ≤ k < 1024 ∧ k = va / 2 ^ 22 ∧
    pde_at pde va = pde + 4 * k ∧ pde_at kpde va = kpde + 4 * k).
  { intros va Hv. exists (va / 2 ^ 22). destruct (pde_at_eq pde va Hp Hpu Hv) as [-> _].
    destruct (pde_at_eq kpde va Hkp Hkpu Hv) as [-> _]. rewrite pde_offset_eq by done.
    split_and!; try done; [apply Z.div_pos; [apply Hv|lia]|].
    apply Z.div_lt_upper_bound; [lia|]. destruct Hv. unfold W32 in *. lia. }
  split_and!; [done| | |done].
  - intros va Hv Hkern. destruct (Hk va Hv) as (k & Hkr & Hke & E1 & E2).
    assert (768 ≤ k) by (subst k; apply Z.div_le_lower_bound; unfold KERN_BASE in *; lia).
    assert (He : rd32 (pm s') (pde_at pde va) = rd32 m (pde_at kpde va)).
    { rewrite E1, E2, Hin by done. destruct (Z.leb_spec 768 k); [done|lia]. }
    unfold walk. rewrite He. destruct (present (rd32 m (pde_at kpde va))) eqn:Hpr; [|done].
    replace (rd32 (pm s') (pte_at (rd32 m (pde_at kpde va)) va))
      with (rd32 m (pte_at (rd32 m (pde_at kpde va)) va)); [done|]. symmetry.
    assert (Heu : is_u32 (rd32 m (pde_at kpde va))) by by apply rd32_range.
    destruct (pte_at_eq _ va Heu) as [E3 A3]. apply Hout; [done|].
    pose proof (Htab va Hv Hpr) as Hf. rewrite frame_of_eq in *.
    destruct (pte_offset_range va) as [Hr _]. rewrite E3.
    pose proof (frame_aligned (rd32 m (pde_at kpde va))) as Hal.
    set (f := rd32 m (pde_at kpde va) - _) in *.
    pose proof (Z.div_mod f 4096 ltac:(lia)). pose proof (Z.div_mod pde 4096 ltac:(lia)). lia.
  - intros va Hv Huser. destruct (Hk va Hv) as (k & Hkr & Hke & E1 & E2).
    rewrite E1, Hin by done. destruct (Z.leb_spec 768 k) as [Hge|]; [|done].
    exfalso. assert (va / 2 ^ 22 < 768); [|lia].
    apply Z.div_lt_upper_bound; [lia|]. unfold KERN_BASE in *. lia.
Qed.

Lemma mmu_sync_correct_witness :
  wp (mmu_sync_kern_space 0x1000 0x5000 KERN_BASE (sub32 0 KERN_BASE)) (λ _ s',
    idle ex_mmu s' ∧
    (∀ va, is_u32 va → KERN_BASE ≤ va → walk (pm s') 0x5000 va = walk ex_pm 0x1000 va) ∧
    (∀ va, is_u32 va → va < KERN_BASE →
      rd32 (pm s') (pde_at 0x5000 va) = rd32 ex_pm (pde_at 0x5000 va)) ∧
    (∀ a, a mod 4 = 0 → a < 0x5000 ∨ 0x5000 + 4096 ≤ a → rd32 (pm s') a = rd32 ex_pm a)) ex_mmu.
Proof.
  apply (mmu_sync_correct ex_pm 0x1000 0x5000 ex_mmu); try done.
  - apply wr32_bytes, bytes_empty.
  - intros va Hv. unfold ex_pm. destruct (decide (pde_at 0x1000 0x400000 = pde_at 0x1000 va)) as [<-|Hn].
    + by rewrite rd_wr32.
    + destruct (pde_at_eq 0x1000 va) as [_ Ha]; [done..|].
      by rewrite rd_wr32_ne, rd32_empty.
Defined.
