(* ===== verification/Ptb.v ===== *)
(** * Page tables of a process (struct ptb_t of include/memory.h, kernel/memory/ptb.c)

    [ptb_map] adds a table on demand and maps a page under the lock of the page
    tables; [ptb_setup] builds the directory of a new process. The allocator of
    physical pages is an interface. *)
From S2P Require Import Prelude Machine Mmu.

(** What ptb.c relies on of [page_alloc] of kernel/memory/memory.c: a free,
    page-aligned frame, or an error code. *)
Class PageAlloc (A : Type) := {
  page_alloc : A → (Z + Z) * A;
  pg_used : A → gset Z;
}.

Class PageAllocLaws (A : Type) `{PageAlloc A} := {
  page_alloc_ok : ∀ a p a', page_alloc a = (inr p, a') →
    p mod 4096 = 0 ∧ is_u32 p ∧ (p ∉ pg_used a) ∧ pg_used a' = {[p]} ∪ pg_used a;
  page_alloc_err : ∀ a e a', page_alloc a = (inl e, a') →
    e ≠ E_OK ∧ pg_used a' = pg_used a;
}.

(** A list of free frames. *)
Record frames := Frames { fr_free : list Z; fr_used : gset Z }.
#[export] Instance frames_alloc : PageAlloc frames := {
  page_alloc a :=
    match fr_free a with
    | [] => (inl E_NOMEM, a)
    | p :: l =>
        if (p mod 4096 =? 0) && (0 <=? p) && (p <? W32) && bool_decide (p ∉ fr_used a)
        then (inr p, Frames l ({[p]} ∪ fr_used a)) else (inl E_NOMEM, a)
    end;
  pg_used := fr_used;
}.
#[export] Instance frames_laws : PageAllocLaws frames.
Proof.
  split; intros [l u]; simpl; (destruct l as [|q l]; [intros; by simplify_eq|]).
  - intros p a' Heq. case_match eqn:Hc; simplify_eq.
    apply andb_true_iff in Hc as [Hc Hc4]. apply andb_true_iff in Hc as [Hc Hc3].
    apply andb_true_iff in Hc as [Hc1 Hc2]. apply bool_decide_eq_true in Hc4.
    unfold is_u32. split_and!; [lia|lia|lia|done|done].
  - intros e a'. case_match; intros; by simplify_eq.
Qed.

(** One process's tables: the machine, the lock, and the frame allocator. *)
Record ptb_st (A : Type) := PtbSt { pt_mmu : mmu; ptb_lock : bool; pt_pages : A }.
Arguments PtbSt {A}.
Arguments pt_mmu {A}.
Arguments ptb_lock {A}.
Arguments pt_pages {A}.

Section code.
Context {A : Type} `{PageAlloc A}.
Abbreviation M := (M (ptb_st A)).

Definition set_mmu (m : mmu) (s : ptb_st A) : ptb_st A := PtbSt m (ptb_lock s) (pt_pages s).
Definition on_mmu {B} (m : Prelude.M mmu B) : M B := zoom pt_mmu set_mmu m.
Definition spin_lock : M unit :=
  s <- get ;; if ptb_lock s then hang else put (PtbSt (pt_mmu s) true (pt_pages s)).
Definition spin_unlock : M unit := modify (λ s, PtbSt (pt_mmu s) false (pt_pages s)).
Definition alloc_page : M (Z + Z) :=
  s <- get ;; let '(r, a) := page_alloc (pt_pages s) in
  put (PtbSt (pt_mmu s) (ptb_lock s) a) ;;; ret r.

Definition ptb_map (pde va pa : Z) (usr wtb : bool) : M Z :=
  assert_ ((va mod PAGE_SIZE =? 0) && (pa mod PAGE_SIZE =? 0)) ;;;
  spin_lock ;;;
  r <- on_mmu (mmu_pte_get pde va) ;;
  grown <- (if fst r =? E_NOTFOUND then
              p <- alloc_page ;;
              match p with
              | inl err => ret (inl err)
              | inr pte => on_mmu (mmu_pp_clean pte) ;;;
                           on_mmu (mmu_pte_set pde va pte usr true) ;;; ret (inr tt)
              end
            else ret (inr tt)) ;;
  match grown with
  | inl err => ret err
  | inr _ => err <- on_mmu (mmu_map pde va pa usr wtb) ;; spin_unlock ;;; ret err
  end.

(** The result of [mmu_unmap] is overwritten by that of [mmu_pte_get]. *)
Definition ptb_unmap (pde va : Z) : M Z :=
  assert_ (va mod PAGE_SIZE =? 0) ;;;
  spin_lock ;;;
  on_mmu (mmu_unmap pde va) ;;;
  r <- on_mmu (mmu_pte_get pde va) ;;
  spin_unlock ;;;
  ret (fst r).

(** [ptb_init]; the directory's address is the result. *)
Definition ptb_init (pde : Z) : M (Z * option Z) := spin_unlock ;;; ret (E_OK, Some pde).

Definition ptb_setup (kpde : Z) : M (Z * option Z) :=
  p <- alloc_page ;;
  match p with
  | inl err => ret (err, None)
  | inr pde =>
      on_mmu (mmu_pp_clean pde) ;;;
      spin_unlock ;;;
      on_mmu (mmu_sync_kern_space kpde pde KERN_BASE (sub32 0 KERN_BASE)) ;;;
      ret (E_OK, Some pde)
  end.

(** Unlike [ptb_setup], the new directory is not cleared. *)
Definition ptb_fork (kpde : Z) : M (Z * option Z) :=
  p <- alloc_page ;;
  match p with
  | inl err => ret (err, None)
  | inr pden =>
      r <- ptb_init pden ;;
      on_mmu (mmu_sync_kern_space kpde pden KERN_BASE (sub32 0 KERN_BASE)) ;;;
      ret (E_OK, Some pden)
  end.
End code.

(** ** Clearing a page *)
Definition cleared (p : Z) (m m' : pmem) : Prop :=
  ∀ a, rd8 m' a = if (p <=? a) && (a <? p + 4096) then 0 else rd8 m a.

Lemma pp_clean_spec p s :
  p mod 4096 = 0 → tmp1_lock s = false →
  wp (mmu_pp_clean p) (λ _ s', cleared p (pm s) (pm s') ∧ idle s s') s.
Proof.
  intros Hp Hl. unfold mmu_pp_clean. apply wp_bind, wp_assert. change PAGE_SIZE with 4096.
  rewrite Hp. split; [done|]. unfold lock_tmp1. apply wp_bind, wp_bind, wp_get. rewrite Hl.
  apply wp_put, wp_bind, wp_modify. apply wp_bind. cbn [pm tmp1_lock tmp2_lock tmp2_pte].
  destruct (window_pte_spec p) as [Hpp Hf]. rewrite Hp, Z.sub_0_r in Hf.
  eapply (wp_mono _ (λ _ s', cleared p (pm s) (pm s') ∧ tmp2_lock s' = tmp2_lock s)).
  2:{ intros ? s' [Hc Ht]. apply wp_modify. by split. }
  eapply (wp_loop (λ n i s', 0 ≤ i ≤ 4096 ∧ n = Z.to_nat (4096 - i) ∧ tmp2_lock s' = tmp2_lock s ∧
    tmp1_pte s' = window_pte p ∧
    ∀ a, rd8 (pm s') a = if (p <=? a) && (a <? p + i) then 0 else rd8 (pm s) a))
    with (n := Z.to_nat 4096); [|lia|].
  - intros n i s' (Hi & -> & Ht & Hw & Hm). destruct (Z.ltb_spec i 4096).
    + apply wp_bind, wp_get. unfold window. rewrite Hw, Hpp. apply wp_bind, wp_ret, wp_bind, wp_modify.
      apply wp_ret. exists (Z.to_nat (4096 - (i + 1))). split; [lia|]. cbn.
      split_and!; [lia|lia|lia|done|done|]. intros a. rewrite Hf.
      destruct (decide (a = p + i)) as [->|Hne].
      * rewrite rd_wr8. destruct (Z.leb_spec p (p + i)), (Z.ltb_spec (p + i) (p + (i + 1))); cbn [andb]; (lia || done).
      * rewrite rd_wr8_ne, Hm by done.
        destruct (Z.leb_spec p a), (Z.ltb_spec a (p + i)), (Z.ltb_spec a (p + (i + 1))); cbn [andb]; (lia || done).
    + apply wp_ret. split; [|done]. intros a. rewrite Hm. by replace i with 4096 by lia.
  - cbn. split_and!; [lia|lia|lia|done|done|]. intros a.
    destruct (Z.leb_spec p a), (Z.ltb_spec a (p + 0)); cbn [andb]; (lia || done).
Qed.

Lemma cleared_in p m m' a : cleared p m m' → p ≤ a → a + 4 ≤ p + 4096 → rd32 m' a = 0.
Proof.
  intros Hc H1 H2. unfold rd32. rewrite !Hc.
  repeat match goal with |- context [(?b <=? ?c) && (?d <? ?e)] =>
    replace ((b <=? c) && (d <? e)) with true by (symmetry; apply andb_true_iff; lia) end. done.
Qed.

Lemma cleared_out p m m' a : cleared p m m' → a + 4 ≤ p ∨ p + 4096 ≤ a → rd32 m' a = rd32 m a.
Proof.
  intros Hc Hd. unfold rd32. rewrite !Hc.
  repeat match goal with |- context [(?b <=? ?c) && (?d <? ?e)] =>
    replace ((b <=? c) && (d <? e)) with false by (symmetry; apply andb_false_iff; lia) end. done.
Qed.

Lemma cleared_bytes p m m' : cleared p m m' → bytes m → bytes m'.
Proof. intros Hc Hb a. rewrite Hc. case_match; [lia|apply Hb]. Qed.

(** ** A new table for [va] *)
Section grow.
Context (m m1 : pmem) (pde va p f : Z) (Hok : tables_ok m pde) (Hva : is_u32 va).
Context (Hp : p mod 4096 = 0) (Hpu : is_u32 p) (Hf : 0 ≤ f < 4096) (Hfp : f mod 2 = 1).
Context (Habs : present (rd32 m (pde_at pde va)) = false) (Hpd : p ≠ pde).
Context (Hfresh : ∀ va', is_u32 va' → present (rd32 m (pde_at pde va')) = true →
  Z.ldiff (rd32 m (pde_at pde va')) PXE_ATTR_MASK ≠ p).
Context (Hc : cleared p m m1).
Let e := Z.lor p f.
Let m2 := wr32 m1 (pde_at pde va) e.

Lemma grow_e : is_u32 e ∧ present e = true ∧ Z.ldiff e PXE_ATTR_MASK = p.
Proof using Hp Hpu Hf Hfp.
  pose proof (frame_u32 p Hpu) as Hfr. rewrite Hp in Hfr. unfold e. split_and!.
  - rewrite entry_eq by done. unfold is_u32. lia.
  - unfold present. by rewrite entry_present, Hfp.
  - by apply entry_frame.
Qed.

Lemma grow_pde va' : is_u32 va' →
  rd32 m2 (pde_at pde va') = if decide (PDE_OFFSET va' = PDE_OFFSET va) then e else rd32 m (pde_at pde va').
Proof using Hok Hva Hp Hpu Hf Hfp Hpd Hc.
  intros Hv'. destruct (tb_pde _ _ Hok) as [Hpp Hpdu].
  destruct (pde_at_eq pde va Hpp Hpdu Hva) as [E1 A1].
  destruct (pde_at_eq pde va' Hpp Hpdu Hv') as [E2 A2]. destruct (decide _) as [Hd|Hd].
  - unfold m2. replace (pde_at pde va') with (pde_at pde va) by congruence. apply rd_wr32, grow_e.
  - unfold m2. rewrite rd_wr32_ne by (done || lia). eapply cleared_out; [exact Hc|].
    destruct (pde_offset_range va' Hv') as [Hr _]. pose proof (Z.div_mod p 4096 ltac:(lia)).
    pose proof (Z.div_mod pde 4096 ltac:(lia)). rewrite E2. pose proof A2 as A3.
    rewrite E2 in A3. pose proof (Z.div_mod (pde + PDE_OFFSET va') 4 ltac:(lia)). lia.
Qed.

Lemma grow_tables_ok : tables_ok m2 pde.
Proof using Hok Hva Hp Hpu Hf Hfp Hpd Hc Hfresh.
  destruct grow_e as (He1 & He2 & He3).
  split; [apply Hok|apply wr32_bytes; eapply cleared_bytes, Hok; exact Hc|..].
  - intros va' Hv'. rewrite grow_pde by done. case_decide; [by rewrite He3|by apply Hok].
  - intros va1 va2 H1 H2 Hd. rewrite !grow_pde by done. repeat case_decide; try congruence.
    + rewrite He3. intros _ P2 Heq. by apply (Hfresh va2 H2 P2).
    + rewrite He3. intros P1 _ Heq. by apply (Hfresh va1 H1 P1).
    + by apply Hok.
Qed.

Lemma grow_present : present (rd32 m2 (pde_at pde va)) = true.
Proof using Hok Hva Hp Hpu Hf Hfp Hpd Hc.
  rewrite grow_pde by done. rewrite decide_True by done. apply grow_e.
Qed.

(** A word of a page other than the directory's is not touched by the new entry. *)
Lemma grow_word q off :
  q mod 4096 = 0 → q ≠ pde → 0 ≤ off < 4096 → off mod 4 = 0 →
  rd32 m2 (q + off) = rd32 m1 (q + off).
Proof using Hok Hva.
  intros Hq Hne Hoff Ho4. destruct (tb_pde _ _ Hok) as [Hpp Hpdu].
  destruct (pde_at_eq pde va Hpp Hpdu Hva) as [E1 A1]. apply rd_wr32_ne; [done| |].
  - rewrite Z.add_mod, Ho4 by lia. pose proof (Z.div_mod q 4096 ltac:(lia)).
    replace q with (q / 4096 * 1024 * 4) by lia. by rewrite Z.mod_mul by lia.
  - rewrite E1. intros Heq. destruct (pde_offset_range va Hva) as [Hr _].
    symmetry in Heq. by apply page_disjoint in Heq as [? _].
Qed.

Lemma grow_walk va' : is_u32 va' → walk m2 pde va' = walk m pde va'.
Proof using Hok Hva Hp Hpu Hf Hfp Habs Hpd Hfresh Hc.
  intros Hv'. destruct grow_e as (He1 & He2 & He3). unfold walk. rewrite grow_pde by done.
  destruct (tb_pde _ _ Hok) as [Hpp Hpdu]. destruct (pte_offset_range va') as [Hr Hr4].
  case_decide as Hd.
  - destruct (pde_at_eq pde va Hpp Hpdu Hva) as [E1 _].
    destruct (pde_at_eq pde va' Hpp Hpdu Hv') as [E2 _].
    replace (pde_at pde va') with (pde_at pde va) by congruence.
    rewrite Habs, He2. destruct (pte_at_eq e va' He1) as [-> _]. rewrite He3.
    rewrite grow_word by done. rewrite (cleared_in p m m1); [done|exact Hc|lia|].
    pose proof (Z.div_mod (PTE_OFFSET va') 4 ltac:(lia)). lia.
  - destruct (present (rd32 m (pde_at pde va'))) eqn:Hpr; [|done].
    assert (Heu : is_u32 (rd32 m (pde_at pde va'))) by (apply rd32_range, Hok).
    destruct (pte_at_eq _ va' Heu) as [-> _].
    pose proof (Hfresh va' Hv' Hpr) as Hn1. pose proof (tb_not_pde _ _ Hok va' Hv' Hpr) as Hn2.
    rewrite frame_of_eq in *. pose proof (frame_aligned (rd32 m (pde_at pde va'))) as Hfa.
    rewrite grow_word by done. rewrite (cleared_out p m m1); [done|exact Hc|].
    set (q := rd32 m (pde_at pde va') - _) in *.
    pose proof (Z.div_mod p 4096 ltac:(lia)). pose proof (Z.div_mod q 4096 ltac:(lia)).
    pose proof (Z.div_mod (PTE_OFFSET va') 4 ltac:(lia)). lia.
Qed.
End grow.

(** ** The operations on a process's tables *)
Section spec.
Context {A : Type} `{PageAlloc A}.
Implicit Types s : ptb_st A.

(** The lock is free, the tables are well-formed, and their frames are in use. *)
Record ptb_inv (pde : Z) s : Prop := {
  pi_lock : ptb_lock s = false;
  pi_tmp : tmp1_lock (pt_mmu s) = false;
  pi_tables : tables_ok (pm (pt_mmu s)) pde;
  pi_pde : pde ∈ pg_used (pt_pages s);
  pi_frames : ∀ va, is_u32 va → present (rd32 (pm (pt_mmu s)) (pde_at pde va)) = true →
    Z.ldiff (rd32 (pm (pt_mmu s)) (pde_at pde va)) PXE_ATTR_MASK ∈ pg_used (pt_pages s);
}.

Definition translate s pde va : option Z := walk (pm (pt_mmu s)) pde va.

Lemma wp_on_mmu {B C} (m : Prelude.M mmu B) (k : B → M (ptb_st A) C) Q s :
  wp m (λ b t, wp (k b) Q (set_mmu t s)) (pt_mmu s) → wp (b <- on_mmu m ;; k b) Q s.
Proof. intros Hw. by apply wp_bind, wp_zoom. Qed.

Lemma pte_get_spec m pde va t :
  tables_ok m pde → is_u32 va → pm t = m → tmp1_lock t = false →
  wp (mmu_pte_get pde va) (λ r t', pm t' = m ∧ idle t t' ∧
    r = (if present (rd32 m (pde_at pde va)) then (E_OK, Some (Z.ldiff (rd32 m (pde_at pde va)) PXE_ATTR_MASK))
         else (E_NOTFOUND, None))) t.
Proof.
  intros Hok Hv <- Hl. destruct (tb_pde _ _ Hok) as [Hp Hpu]. unfold mmu_pte_get.
  apply wp_bind, wp_assert. change PAGE_SIZE with 4096. rewrite Hp. split; [done|].
  apply wp_pm_get; [by apply pde_at_eq|done|]. intros t1 Hm1 Hi1. fold (pde_at pde va). unfold present.
  destruct (Z.land (rd32 (pm t) (pde_at pde va)) PT_P =? 0); by apply wp_ret.
Qed.

Lemma pte_set_spec m pde va pte usr wtb t :
  pde mod 4096 = 0 → is_u32 pde → is_u32 va → present (rd32 m (pde_at pde va)) = false →
  pm t = m → tmp1_lock t = false →
  wp (mmu_pte_set pde va pte usr wtb) (λ _ t', idle t t' ∧
    pm t' = wr32 m (pde_at pde va) (Z.lor pte (Z.lor PT_P (flags usr wtb)))) t.
Proof.
  intros Hp Hpu Hv Hpr <- Hl. unfold mmu_pte_set, mmu_pte_exist. apply wp_bind, wp_bind, wp_assert.
  change PAGE_SIZE with 4096. rewrite Hp. split; [done|].
  apply wp_pm_get; [by apply pde_at_eq|done|]. intros t1 Hm1 Hi1. apply wp_ret. cbn beta.
  change (negb (Z.land (rd32 (pm t) (add32 pde (PDE_OFFSET va))) PT_P =? 0)) with
    (present (rd32 (pm t) (pde_at pde va))). rewrite Hpr. apply wp_bind, wp_assert. split; [done|].
  apply wp_bind_ret, wp_pm_set; [by apply pde_at_eq|apply Hi1|]. intros t2 Hm2 Hi2.
  apply wp_ret. rewrite Hm2, Hm1. split; [by eapply idle_trans|done].
Qed.

(** What [ptb_map] promises when a table is there or a frame for one is. *)
Definition map_post (pde va pa : Z) (usr wtb : bool) s (err : Z) s' : Prop :=
  ptb_inv pde s' ∧
  match translate s pde va with
  | Some _ => err = E_EXIST ∧ ∀ va', is_u32 va' → translate s' pde va' = translate s pde va'
  | None => err = E_OK ∧ translate s' pde va = Some pa ∧
      ∀ va', is_u32 va' → va' / 4096 ≠ va / 4096 → translate s' pde va' = translate s pde va'
  end.

(** The last step: the table is there. *)
Lemma map_present pde va pa usr wtb s s1 :
  is_u32 va → is_u32 pa → va mod 4096 = 0 → pa mod 4096 = 0 →
  ptb_inv pde (PtbSt (pt_mmu s1) false (pt_pages s1)) →
  present (rd32 (pm (pt_mmu s1)) (pde_at pde va)) = true →
  (∀ va', is_u32 va' → translate s1 pde va' = translate s pde va') →
  wp (err <- on_mmu (mmu_map pde va pa usr wtb) ;; spin_unlock ;;; ret err)
    (map_post pde va pa usr wtb s) s1.
Proof.
  intros Hv Hpau Hva Hpa [H1 H2 H3 H4 H5] Hpr Htr. cbn in H1, H2, H3, H4, H5.
  apply wp_on_mmu. eapply wp_mono; [by eapply map_spec|]. cbn beta zeta. rewrite Hpr.
  intros err t [[Hi1 Hi2] Hr]. apply wp_bind, wp_modify, wp_ret.
  destruct (pflags_range usr wtb) as [Hf1 Hf2].
  unfold map_post. rewrite <- (Htr va) by done. unfold translate in *. cbn.
  destruct (walk (pm (pt_mmu s1)) pde va) eqn:Hw; destruct Hr as [-> Hm].
  - split; [split; cbn; rewrite ?Hm; done|]. split; [done|]. intros va' Hv'. rewrite Hm. by apply Htr.
  - pose proof (entry_present pa (Z.lor PT_P (flags usr wtb)) Hpa Hf1) as Hep. rewrite Hf2 in Hep.
    assert (Hvu : is_u32 (Z.lor pa (Z.lor PT_P (flags usr wtb)))).
    { rewrite entry_eq by done. pose proof (frame_u32 pa Hpau). rewrite Hpa in *. unfold is_u32. lia. }
    split.
    + split; cbn; rewrite ?Hm; [done|done|by apply entry_tables_ok|done|].
      intros va' Hv'. rewrite entry_pde by done. by apply H5.
    + split_and!; [done| |].
      * rewrite Hm, entry_self by done. unfold present. rewrite Hep. cbn. by rewrite entry_frame.
      * intros va' Hv' Hne. rewrite Hm, entry_other by done. by apply Htr.
Qed.

Context `{!PageAllocLaws A}.

Lemma ptb_map_spec pde va pa usr wtb s :
  is_u32 va → is_u32 pa → va mod 4096 = 0 → pa mod 4096 = 0 → ptb_inv pde s →
  wp (ptb_map pde va pa usr wtb) (λ err s',
    if present (rd32 (pm (pt_mmu s)) (pde_at pde va)) then map_post pde va pa usr wtb s err s'
    else match fst (page_alloc (pt_pages s)) with
         | inr _ => map_post pde va pa usr wtb s err s'
         | inl e => err = e ∧ ptb_lock s' = true ∧ pm (pt_mmu s') = pm (pt_mmu s)
         end) s.
Proof.
  intros Hv Hpau Hva Hpa [H1 H2 H3 H4 H5]. destruct (tb_pde _ _ H3) as [Hp Hpu].
  unfold ptb_map. apply wp_bind, wp_assert. change PAGE_SIZE with 4096. rewrite Hva, Hpa.
  split; [done|]. unfold spin_lock. apply wp_bind, wp_bind, wp_get. rewrite H1. apply wp_put.
  apply wp_on_mmu. cbn. eapply wp_mono; [by eapply pte_get_spec|].
  intros r t (Hm & [Hi1 Hi2] & ->). destruct (present (rd32 (pm (pt_mmu s)) (pde_at pde va))) eqn:Hpr; cbn.
  - apply wp_bind, wp_ret. apply map_present; try done; cbn; [|by rewrite Hm|].
    + split; cbn; rewrite ?Hm; done.
    + intros va' Hv'. unfold translate. cbn. by rewrite Hm.
  - apply wp_bind. unfold alloc_page. apply wp_bind, wp_bind, wp_get.
    cbn [set_mmu pt_pages pt_mmu ptb_lock]. destruct (page_alloc (pt_pages s)) as [[e|p] a] eqn:Hpa2.
    + by split_and!.
    + apply page_alloc_ok in Hpa2 as (Hpp & Hppu & Hfresh & Hused).
      apply wp_bind, wp_put, wp_ret. apply wp_on_mmu.
      eapply wp_mono; [by apply pp_clean_spec|]. intros ? t1 (Hc & Hj1 & Hj2). cbn in Hc, Hj2.
      rewrite Hm in Hc.
      assert (Hpde : p ≠ pde) by (by intros ->).
      apply wp_on_mmu.
      assert (Habs1 : present (rd32 (pm t1) (pde_at pde va)) = false).
      { rewrite (cleared_out p _ _ _ Hc); [done|]. destruct (pde_at_eq pde va Hp Hpu Hv) as [E1 A1].
        destruct (pde_offset_range va Hv) as [Hr Hr4]. rewrite E1.
        pose proof (Z.div_mod p 4096 ltac:(lia)). pose proof (Z.div_mod pde 4096 ltac:(lia)).
        pose proof (Z.div_mod (PDE_OFFSET va) 4 ltac:(lia)). lia. }
      eapply wp_mono; [by eapply pte_set_spec|]. intros ? t2 [[Hk1 Hk2] Hm2]. apply wp_ret. cbn beta in Hm2.
      destruct (pflags_range usr true) as [Hf1 Hf2].
      assert (Hfr : ∀ va', is_u32 va' → present (rd32 (pm (pt_mmu s)) (pde_at pde va')) = true →
        Z.ldiff (rd32 (pm (pt_mmu s)) (pde_at pde va')) PXE_ATTR_MASK ≠ p).
      { intros va' Hv' Hpr' Heq. apply Hfresh. rewrite <- Heq. by apply H5. }
      apply map_present; try done; cbn.
      * split; cbn; [done|done| |rewrite Hused; set_solver|].
        -- rewrite Hm2. by eapply (grow_tables_ok (pm (pt_mmu s))).
        -- intros va' Hv'. rewrite Hm2, (grow_pde (pm (pt_mmu s)) _ pde va p) by done.
           case_decide.
           ++ intros _. rewrite entry_frame by done. rewrite Hused. set_solver.
           ++ intros Hpr'. rewrite Hused. apply elem_of_union_r. by apply H5.
      * rewrite Hm2. by eapply (grow_present (pm (pt_mmu s))).
      * intros va' Hv'. unfold translate. cbn. rewrite Hm2. by apply grow_walk.
Qed.
End spec.

Section setup.
Context {A : Type} `{PageAllocLaws A}.
Implicit Types s : ptb_st A.

(** A new address space: the kernel's half as the kernel sees it. *)
Definition new_space (kpde pde : Z) s s' : Prop :=
  pde mod 4096 = 0 ∧ is_u32 pde ∧ (pde ∉ pg_used (pt_pages s)) ∧ ptb_lock s' = false ∧
  (∀ va, is_u32 va → KERN_BASE ≤ va → translate s' pde va = translate s kpde va).

Lemma ptb_setup_spec kpde s :
  ptb_inv kpde s →
  wp (ptb_setup kpde) (λ r s',
    match snd r with
    | Some pde => fst r = E_OK ∧ new_space kpde pde s s' ∧
        ∀ va, is_u32 va → va < KERN_BASE → translate s' pde va = None
    | None => fst r ≠ E_OK ∧ pt_mmu s' = pt_mmu s ∧ ptb_lock s' = false
    end) s.
Proof.
  intros [H1 H2 H3 H4 H5]. destruct (tb_pde _ _ H3) as [Hp Hpu]. unfold ptb_setup.
  apply wp_bind. unfold alloc_page. apply wp_bind, wp_get.
  destruct (page_alloc (pt_pages s)) as [[e|p] a] eqn:Hpa.
  { apply page_alloc_err in Hpa as [He _]. by split. }
  apply page_alloc_ok in Hpa as (Hpp & Hppu & Hfresh & Hused).
  apply wp_bind, wp_put, wp_ret. apply wp_on_mmu.
  eapply wp_mono; [by apply pp_clean_spec|]. intros ? t (Hc & Hj1 & Hj2). cbn in Hc.
  apply wp_bind, wp_modify. apply wp_on_mmu.
  assert (Hne : p ≠ kpde) by (by intros ->).
  assert (Hsame : ∀ q off, q mod 4096 = 0 → q ≠ p → 0 ≤ off < 4096 → off mod 4 = 0 →
    rd32 (pm t) (q + off) = rd32 (pm (pt_mmu s)) (q + off)).
  { intros q off Hq Hqp Ho Ho4. eapply cleared_out; [exact Hc|].
    pose proof (Z.div_mod p 4096 ltac:(lia)). pose proof (Z.div_mod q 4096 ltac:(lia)).
    pose proof (Z.div_mod off 4 ltac:(lia)). lia. }
  assert (Hkp : ∀ va, is_u32 va → rd32 (pm t) (pde_at kpde va) = rd32 (pm (pt_mmu s)) (pde_at kpde va)).
  { intros va Hv. destruct (pde_at_eq kpde va Hp Hpu Hv) as [-> _].
    destruct (pde_offset_range va Hv). by apply Hsame. }
  eapply wp_mono; [apply (sync_spec (pm t)); try done; eapply cleared_bytes, H3; exact Hc|].
  intros ? t2 (_ & Hb2 & Hin & Hout). apply wp_ret. cbn [fst snd].
  assert (Hidx : ∀ va, is_u32 va → 0 ≤ va / 2 ^ 22 < 1024).
  { intros va [Hv1 Hv2]. unfold W32 in Hv2.
    split; [apply Z.div_pos; lia|apply Z.div_lt_upper_bound; lia]. }
  split; [done|]. split; [split_and!; try done|].
  - intros va Hv Hkern. unfold translate, walk. cbn.
    destruct (pde_at_eq p va Hpp Hppu Hv) as [E1 _]. destruct (pde_at_eq kpde va Hp Hpu Hv) as [E2 _].
    assert (768 ≤ va / 2 ^ 22) by (apply Z.div_le_lower_bound; unfold KERN_BASE in *; lia).
    assert (He : rd32 (pm t2) (pde_at p va) = rd32 (pm (pt_mmu s)) (pde_at kpde va)).
    { rewrite <- Hkp by done. rewrite E1, E2, pde_offset_eq, Hin by auto.
      destruct (Z.leb_spec 768 (va / 2 ^ 22)); [done|lia]. }
    rewrite He. destruct (present (rd32 (pm (pt_mmu s)) (pde_at kpde va))) eqn:Hpr; [|done].
    assert (Heu : is_u32 (rd32 (pm (pt_mmu s)) (pde_at kpde va))) by (apply rd32_range, H3).
    destruct (pte_at_eq _ va Heu) as [E3 A3]. pose proof (H5 va Hv Hpr) as Hfr.
    rewrite frame_of_eq in E3, Hfr. pose proof (frame_aligned (rd32 (pm (pt_mmu s)) (pde_at kpde va))) as Hal.
    destruct (pte_offset_range va) as [Hr Hr4].
    assert (Hfp : rd32 (pm (pt_mmu s)) (pde_at kpde va) - rd32 (pm (pt_mmu s)) (pde_at kpde va) mod 4096 ≠ p).
    { intros Heq. apply Hfresh. by rewrite <- Heq. }
    rewrite Hout; [rewrite E3, Hsame by done; done|done|].
    rewrite E3. set (f := rd32 (pm (pt_mmu s)) (pde_at kpde va) - _) in *.
    pose proof (Z.div_mod f 4096 ltac:(lia)). pose proof (Z.div_mod p 4096 ltac:(lia)). lia.
  - intros va Hv Huser. unfold translate, walk. cbn.
    destruct (pde_at_eq p va Hpp Hppu Hv) as [E1 _].
    assert (va / 2 ^ 22 < 768) by (apply Z.div_lt_upper_bound; unfold KERN_BASE in *; lia).
    rewrite E1, pde_offset_eq, Hin by auto. destruct (Z.leb_spec 768 (va / 2 ^ 22)); [lia|].
    pose proof (Hidx va Hv). rewrite (cleared_in p (pm (pt_mmu s)) (pm t)); [done|exact Hc|lia|lia].
Qed.
End setup.


Definition ex_ptb : ptb_st frames := PtbSt ex_mmu false (Frames [0x7000] {[0x1000; 0x2000]}).

Lemma ex_ptb_inv : ptb_inv 0x1000 ex_ptb.
Proof.
  split; [done|done|by apply one_table_ok|apply (bool_decide_unpack _); by vm_compute|].
  intros va Hv. change (pm (pt_mmu ex_ptb)) with (wr32 ∅ (pde_at 0x1000 0x400000) 0x2007).
  destruct (decide (pde_at 0x1000 0x400000 = pde_at 0x1000 va)) as [<-|Hn].
  - intros _. rewrite rd_wr32 by done. apply (bool_decide_unpack _). by vm_compute.
  - destruct (pde_at_eq 0x1000 va) as [_ Ha]; [done..|]. by rewrite rd_wr32_ne, rd32_empty.
Qed.


(** Once [ptb_map] has failed for want of a frame, every later [ptb_map] or
    [ptb_unmap] of the same tables spins forever. *)
Theorem ptb_map_failure_blocks {A} `{PageAllocLaws A} pde va pa usr wtb (s : ptb_st A) e :
  is_u32 va → is_u32 pa → va mod PAGE_SIZE = 0 → pa mod PAGE_SIZE = 0 → ptb_inv pde s →
  present (rd32 (pm (pt_mmu s)) (pde_at pde va)) = false → fst (page_alloc (pt_pages s)) = inl e →
  wp (ptb_map pde va pa usr wtb) (λ err s', err = e ∧
    ∀ va' pa' usr' wtb', va' mod PAGE_SIZE = 0 → pa' mod PAGE_SIZE = 0 →
      ptb_map pde va' pa' usr' wtb' s' = Hang ∧ ptb_unmap pde va' s' = Hang) s.
Proof.
  intros Hv Hpu Hva Hpa Hi Hpr Hpg. eapply wp_mono; [by apply ptb_map_spec|].
  intros err s'. rewrite Hpr, Hpg. intros (-> & Hl & _). split; [done|].
  intros va' pa' usr' wtb' Hva' Hpa'. unfold ptb_map, ptb_unmap, spin_lock, bind, get, assert_, ret.
  rewrite Hva', Hpa'. cbn. by rewrite Hl.
Qed.

Definition ex_ptb_empty : ptb_st frames := PtbSt ex_mmu false (Frames [] {[0x1000; 0x2000]}).

Lemma ptb_map_failure_blocks_witness :
  wp (ptb_map 0x1000 0x8000000 0x9000 true true) (λ err s', err = E_NOMEM ∧
    ∀ va' pa' usr' wtb', va' mod PAGE_SIZE = 0 → pa' mod PAGE_SIZE = 0 →
      ptb_map 0x1000 va' pa' usr' wtb' s' = Hang ∧ ptb_unmap 0x1000 va' s' = Hang) ex_ptb_empty.
Proof.
  apply ptb_map_failure_blocks; try done.
  destruct ex_ptb_inv as [H1 H2 H3 H4 H5]. by split.
Defined.

(** [ptb_setup] gives a new process a directory in a fresh frame in which no
    user address is mapped and every kernel address translates as for the kernel;
    without a frame it returns an error and changes nothing. *)
Theorem ptb_setup_correct {A} `{PageAllocLaws A} kpde (s : ptb_st A) :
  ptb_inv kpde s →
  wp (ptb_setup kpde) (λ r s',
    match snd r with
    | Some pde => fst r = E_OK ∧ new_space kpde pde s s' ∧
        ∀ va, is_u32 va → va < KERN_BASE → translate s' pde va = None
    | None => fst r ≠ E_OK ∧ pt_mmu s' = pt_mmu s ∧ ptb_lock s' = false
    end) s.
Proof. intros Hi. by apply ptb_setup_spec. Qed.

Lemma ptb_setup_correct_witness :
  wp (ptb_setup 0x1000) (λ r s',
    match snd r with
    | Some pde => fst r = E_OK ∧ new_space 0x1000 pde ex_ptb s' ∧
        ∀ va, is_u32 va → va < KERN_BASE → translate s' pde va = None
    | None => fst r ≠ E_OK ∧ pt_mmu s' = pt_mmu ex_ptb ∧ ptb_lock s' = false
    end) ex_ptb.
Proof. apply ptb_setup_correct, ex_ptb_inv. Defined.
