(* ===== verification/Phyops.v ===== *)
(** * Copies to and from physical memory (include/arch/phyops.h,
    arch/x86/src/mm/phyops.c)

    Byte loops that move the window to the next frame when they reach the end of
    one. Physical memory is reached through the windows of Mmu; the virtual
    buffer of a copy is [vmem]. *)
From S2P Require Import Prelude Machine Mmu.

Record phys := Phys { ph_mmu : mmu; vmem : pmem }.

Section code.
Definition set_ph_mmu (m : mmu) (s : phys) : phys := Phys m (vmem s).
Definition on_mmu {B} (m : M mmu B) : M phys B := zoom ph_mmu set_ph_mmu m.

(** [if (i + pa >= pp + PAGE_SIZE) { put; pp += PAGE_SIZE; get; }] *)
Definition next_tmp1 (i pa pp : Z) : M phys Z :=
  if add32 pp PAGE_SIZE <=? add32 i pa then
    on_mmu mmu_put_tmp1 ;;;
    on_mmu (mmu_get_tmp1 (add32 pp PAGE_SIZE)) ;;; ret (add32 pp PAGE_SIZE)
  else ret pp.
Definition next_tmp2 (i pa pp : Z) : M phys Z :=
  if add32 pp PAGE_SIZE <=? add32 i pa then
    on_mmu mmu_put_tmp2 ;;;
    on_mmu (mmu_get_tmp2 (add32 pp PAGE_SIZE)) ;;; ret (add32 pp PAGE_SIZE)
  else ret pp.

(** [tmp[(i + pa) % PAGE_SIZE]] through a window. *)
Definition wr_tmp1 (off v : Z) : M phys unit :=
  on_mmu (s <- get ;; p <- window (tmp1_pte s) ;; set_pm (wr8 (pm s) (p + off) v)).
Definition rd_tmp1 (off : Z) : M phys Z :=
  on_mmu (s <- get ;; p <- window (tmp1_pte s) ;; ret (rd8 (pm s) (p + off))).
Definition rd_tmp2 (off : Z) : M phys Z :=
  on_mmu (s <- get ;; p <- window (tmp2_pte s) ;; ret (rd8 (pm s) (p + off))).

Definition phyops_memcpy_v2p (pa va size : Z) : M phys unit :=
  let pp := ROUND_DOWN pa PAGE_SIZE in
  on_mmu (mmu_get_tmp1 pp) ;;;
  loop (S (Z.to_nat size)) (λ st : Z * Z, let '(i, pp) := st in
    if i <? size then
      pp <- next_tmp1 i pa pp ;;
      v <- gets (λ s, rd8 (vmem s) (add32 va i)) ;;
      wr_tmp1 (add32 i pa mod PAGE_SIZE) v ;;;
      ret (inl (i + 1, pp))
    else ret (inr tt)) (0, pp) ;;;
  on_mmu mmu_put_tmp1.

Definition phyops_memcpy_p2p (pad pas size : Z) : M phys unit :=
  let ppd := ROUND_DOWN pad PAGE_SIZE in
  let pps := ROUND_DOWN pas PAGE_SIZE in
  on_mmu (mmu_get_tmp1 ppd) ;;;
  on_mmu (mmu_get_tmp2 pps) ;;;
  loop (S (Z.to_nat size)) (λ st : Z * Z * Z, let '(i, ppd, pps) := st in
    if i <? size then
      pps <- next_tmp2 i pas pps ;;
      ppd <- next_tmp1 i pad ppd ;;
      v <- rd_tmp2 (add32 i pas mod PAGE_SIZE) ;;
      wr_tmp1 (add32 i pad mod PAGE_SIZE) v ;;;
      ret (inl (i + 1, ppd, pps))
    else ret (inr tt)) (0, ppd, pps) ;;;
  on_mmu mmu_put_tmp2 ;;;
  on_mmu mmu_put_tmp1.

Definition phyops_memcpy_p2v (va pa size : Z) : M phys unit :=
  let pp := ROUND_DOWN pa PAGE_SIZE in
  on_mmu (mmu_get_tmp1 pp) ;;;
  loop (S (Z.to_nat size)) (λ st : Z * Z, let '(i, pp) := st in
    if i <? size then
      pp <- next_tmp1 i pa pp ;;
      v <- rd_tmp1 (add32 i pa mod PAGE_SIZE) ;;
      modify (λ s, Phys (ph_mmu s) (wr8 (vmem s) (add32 va i) v)) ;;;
      ret (inl (i + 1, pp))
    else ret (inr tt)) (0, pp) ;;;
  on_mmu mmu_put_tmp1.
End code.

(** ** The windows during a copy *)
Definition mem (s : phys) : pmem := pm (ph_mmu s).
Definition frees (s : phys) : Prop :=
  tmp1_lock (ph_mmu s) = false ∧ tmp2_lock (ph_mmu s) = false.

(** Window 1 (2) is held and shows the page [pp]. *)
Definition shows1 (pp : Z) (s : phys) : Prop :=
  tmp1_lock (ph_mmu s) = true ∧ tmp1_pte (ph_mmu s) = window_pte pp.
Definition shows2 (pp : Z) (s : phys) : Prop :=
  tmp2_lock (ph_mmu s) = true ∧ tmp2_pte (ph_mmu s) = window_pte pp.

(** [pp] is the frame of the last byte before [x], or of [x] itself. *)
Definition near (pp x : Z) : Prop := pp mod 4096 = 0 ∧ 0 ≤ pp ∧ pp ≤ x ≤ pp + 4096.

Lemma near_start pa : 0 ≤ pa → near (ROUND_DOWN pa PAGE_SIZE) pa.
Proof.
  intros Hp. rewrite round_down_eq by done. change PAGE_SIZE with 4096. split; [apply frame_aligned|].
  pose proof (Z.mod_pos_bound pa 4096 ltac:(lia)). pose proof (Z.div_mod pa 4096 ltac:(lia)).
  pose proof (Z.div_pos pa 4096). lia.
Qed.

Lemma near_offset pp x : pp mod 4096 = 0 → pp ≤ x < pp + 4096 → pp + x mod 4096 = x.
Proof.
  intros Hp Hx. pose proof (Z.div_mod pp 4096 ltac:(lia)). rewrite Hp in *.
  replace x with (x - pp + pp / 4096 * 4096) at 1 by lia.
  rewrite Z.mod_add by lia. rewrite Z.mod_small; lia.
Qed.

Lemma window_of (pp : Z) : pp mod 4096 = 0 → ∀ s : mmu, window (window_pte pp) s = Ret pp s.
Proof.
  intros Hp s. destruct (window_pte_spec pp) as [Hw Hf]. unfold window. rewrite Hw. cbn.
  unfold ret. by rewrite Hf, Hp, Z.sub_0_r.
Qed.

(** One turn's move of window 1: the byte [x = i + pa] is then in the window. *)
Lemma wp_next_tmp1 {B} i pa pp (k : Z → M phys B) Q s :
  near pp (i + pa) → i + pa + 4096 < W32 → 0 ≤ i → 0 ≤ pa → shows1 pp s →
  (∀ pp' s', near pp' (i + pa + 1) → pp' ≤ i + pa → shows1 pp' s' → mem s' = mem s → vmem s' = vmem s →
     (tmp2_lock (ph_mmu s'), tmp2_pte (ph_mmu s')) = (tmp2_lock (ph_mmu s), tmp2_pte (ph_mmu s)) →
     wp (k pp') Q s') →
  wp (pp <- next_tmp1 i pa pp ;; k pp) Q s.
Proof.
  intros (Ha & H0 & Hr) Hw Hi Hpa [Hl Hs] Hk. apply wp_bind. unfold next_tmp1, add32.
  change PAGE_SIZE with 4096. rewrite !u32_small by (unfold is_u32, W32 in *; lia).
  destruct (Z.leb_spec (pp + 4096) (i + pa)).
  - apply wp_bind, wp_zoom, wp_bind, wp_modify, wp_modify.
    unfold on_mmu, mmu_get_tmp1. apply wp_bind, wp_zoom, wp_bind, wp_assert. change PAGE_SIZE with 4096.
    assert (Ha' : (pp + 4096) mod 4096 = 0) by (rewrite <- (Z_mod_plus_full pp 1 4096) in Ha; by rewrite Z.mul_1_l in Ha).
    rewrite Ha'. split; [done|]. unfold lock_tmp1. apply wp_bind, wp_bind, wp_get. cbn [tmp1_lock].
    apply wp_put, wp_modify, wp_ret. apply Hk; [|lia|by split|done..].
    split; [done|lia].
  - apply wp_ret. apply Hk; [split; [done|lia]|lia|by split|done..].
Qed.

Lemma wp_next_tmp2 {B} i pa pp (k : Z → M phys B) Q s :
  near pp (i + pa) → i + pa + 4096 < W32 → 0 ≤ i → 0 ≤ pa → shows2 pp s →
  (∀ pp' s', near pp' (i + pa + 1) → pp' ≤ i + pa → shows2 pp' s' → mem s' = mem s → vmem s' = vmem s →
     (tmp1_lock (ph_mmu s'), tmp1_pte (ph_mmu s')) = (tmp1_lock (ph_mmu s), tmp1_pte (ph_mmu s)) →
     wp (k pp') Q s') →
  wp (pp <- next_tmp2 i pa pp ;; k pp) Q s.
Proof.
  intros (Ha & H0 & Hr) Hw Hi Hpa [Hl Hs] Hk. apply wp_bind. unfold next_tmp2, add32.
  change PAGE_SIZE with 4096. rewrite !u32_small by (unfold is_u32, W32 in *; lia).
  destruct (Z.leb_spec (pp + 4096) (i + pa)).
  - apply wp_bind, wp_zoom, wp_bind, wp_modify, wp_modify.
    unfold on_mmu, mmu_get_tmp2. apply wp_bind, wp_zoom, wp_bind, wp_assert. change PAGE_SIZE with 4096.
    assert (Ha' : (pp + 4096) mod 4096 = 0) by (rewrite <- (Z_mod_plus_full pp 1 4096) in Ha; by rewrite Z.mul_1_l in Ha).
    rewrite Ha'. split; [done|]. unfold lock_tmp2. apply wp_bind, wp_bind, wp_get. cbn [tmp2_lock].
    apply wp_put, wp_modify, wp_ret. apply Hk; [|lia|by split|done..].
    split; [done|lia].
  - apply wp_ret. apply Hk; [split; [done|lia]|lia|by split|done..].
Qed.

(** Access to byte [x] through a window that shows its frame. *)
Lemma wp_wr_tmp1 {B} pp x v (k : unit → M phys B) Q s :
  shows1 pp s → pp mod 4096 = 0 → pp ≤ x < pp + 4096 →
  (∀ s', mem s' = wr8 (mem s) x v → vmem s' = vmem s → shows1 pp s' →
     (tmp2_lock (ph_mmu s'), tmp2_pte (ph_mmu s')) = (tmp2_lock (ph_mmu s), tmp2_pte (ph_mmu s)) →
     wp (k tt) Q s') →
  wp (y <- wr_tmp1 (x mod PAGE_SIZE) v ;; k y) Q s.
Proof.
  intros [Hl Hs] Ha Hx Hk. apply wp_bind, wp_zoom, wp_bind, wp_get, wp_bind.
  rewrite Hs. unfold wp at 1. rewrite window_of by done. apply wp_modify. cbn beta.
  change PAGE_SIZE with 4096. rewrite near_offset by done. by apply Hk.
Qed.

Lemma wp_rd_tmp1 {B} pp x (k : Z → M phys B) Q s :
  shows1 pp s → pp mod 4096 = 0 → pp ≤ x < pp + 4096 →
  wp (k (rd8 (mem s) x)) Q s → wp (y <- rd_tmp1 (x mod PAGE_SIZE) ;; k y) Q s.
Proof.
  intros [Hl Hs] Ha Hx Hk. apply wp_bind, wp_zoom, wp_bind, wp_get, wp_bind.
  rewrite Hs. unfold wp at 1. rewrite window_of by done. apply wp_ret.
  change PAGE_SIZE with 4096. rewrite near_offset by done. by destruct s.
Qed.

Lemma wp_rd_tmp2 {B} pp x (k : Z → M phys B) Q s :
  shows2 pp s → pp mod 4096 = 0 → pp ≤ x < pp + 4096 →
  wp (k (rd8 (mem s) x)) Q s → wp (y <- rd_tmp2 (x mod PAGE_SIZE) ;; k y) Q s.
Proof.
  intros [Hl Hs] Ha Hx Hk. apply wp_bind, wp_zoom, wp_bind, wp_get, wp_bind.
  rewrite Hs. unfold wp at 1. rewrite window_of by done. apply wp_ret.
  change PAGE_SIZE with 4096. rewrite near_offset by done. by destruct s.
Qed.

Lemma wp_get_tmp1 {B} pp (k : unit → M phys B) Q s :
  pp mod 4096 = 0 → tmp1_lock (ph_mmu s) = false →
  (∀ s', mem s' = mem s → vmem s' = vmem s → shows1 pp s' →
     (tmp2_lock (ph_mmu s'), tmp2_pte (ph_mmu s')) = (tmp2_lock (ph_mmu s), tmp2_pte (ph_mmu s)) →
     wp (k tt) Q s') →
  wp (y <- on_mmu (mmu_get_tmp1 pp) ;; k y) Q s.
Proof.
  intros Ha Hl Hk. apply wp_bind, wp_zoom, wp_bind, wp_assert. change PAGE_SIZE with 4096.
  rewrite Ha. split; [done|]. apply wp_bind, wp_bind, wp_get. rewrite Hl. apply wp_put, wp_modify.
  by apply Hk.
Qed.

(** The memory after a copy of [n] bytes to [d], byte [i] being [src i]. *)
Definition copied (d n : Z) (src : Z → Z) (m m' : pmem) : Prop :=
  ∀ x, rd8 m' x = if (d <=? x) && (x <? d + n) then src (x - d) else rd8 m x.

Lemma copied_0 d src m : copied d 0 src m m.
Proof. intros x. destruct (Z.leb_spec d x), (Z.ltb_spec x (d + 0)); cbn [andb]; (lia || done). Qed.

Lemma copied_step d i src m m1 m2 v :
  0 ≤ i → copied d i src m m1 → m2 = wr8 m1 (d + i) v → v = src i → 0 ≤ v < 256 →
  copied d (i + 1) src m m2.
Proof.
  intros Hi Hc -> -> Hv x. destruct (decide (x = d + i)) as [->|Hne].
  - rewrite rd_wr8, Z.mod_small by done. replace (d + i - d) with i by lia.
    destruct (Z.leb_spec d (d + i)), (Z.ltb_spec (d + i) (d + (i + 1))); cbn [andb]; (lia || done).
  - rewrite rd_wr8_ne, Hc by done.
    destruct (Z.leb_spec d x), (Z.ltb_spec x (d + i)), (Z.ltb_spec x (d + (i + 1))); cbn [andb]; (lia || done).
Qed.

Lemma memcpy_v2p_spec pa va size s :
  0 ≤ pa → 0 ≤ va → 0 ≤ size → pa + size + 4096 ≤ W32 → va + size ≤ W32 → bytes (vmem s) →
  tmp1_lock (ph_mmu s) = false →
  wp (phyops_memcpy_v2p pa va size) (λ _ s', vmem s' = vmem s ∧
    tmp1_lock (ph_mmu s') = false ∧ tmp2_lock (ph_mmu s') = tmp2_lock (ph_mmu s) ∧
    copied pa size (λ i, rd8 (vmem s) (va + i)) (mem s) (mem s')) s.
Proof.
  intros Hpa Hva Hsz Hw Hvw Hb Hl. unfold phyops_memcpy_v2p.
  pose proof (near_start pa Hpa) as Hn0. apply wp_get_tmp1; [apply Hn0|done|].
  intros s0 Hm0 Hv0 Hs0 Ht0. apply pair_eq in Ht0 as [Ht0 _].
  apply wp_bind. eapply (wp_mono _ (λ _ s', ∃ pp, shows1 pp s' ∧ vmem s' = vmem s ∧
    tmp2_lock (ph_mmu s') = tmp2_lock (ph_mmu s) ∧
    copied pa size (λ i, rd8 (vmem s) (va + i)) (mem s) (mem s'))).
  2:{ intros ? s' (pp & [Hl' _] & Hv & Ht & Hc). apply wp_zoom, wp_bind, wp_modify, wp_modify. by split_and!. }
  eapply (wp_loop (λ n '(i, pp) s', 0 ≤ i ≤ size ∧ n = Z.to_nat (size - i) ∧ near pp (pa + i) ∧
    shows1 pp s' ∧ vmem s' = vmem s ∧ tmp2_lock (ph_mmu s') = tmp2_lock (ph_mmu s) ∧
    copied pa i (λ i, rd8 (vmem s) (va + i)) (mem s) (mem s'))) with (n := Z.to_nat size); [|lia|].
  - intros n [i pp] s1 (Hi & -> & Hn & Hs1 & Hv1 & Ht1 & Hc1). destruct (Z.ltb_spec i size).
    + rewrite Z.add_comm in Hn. eapply wp_next_tmp1; [exact Hn|lia|lia|done|done|].
      intros pp' s2 Hn2 Hle Hs2 Hm2 Hv2 Ht2. apply pair_eq in Ht2 as [Ht2 _]. apply wp_bind, wp_gets.
      assert (Hin : pp' ≤ i + pa < pp' + 4096) by (destruct Hn2; lia).
      unfold add32. rewrite !u32_small by (unfold is_u32, W32 in *; lia).
      eapply wp_wr_tmp1; [exact Hs2|apply Hn2|exact Hin|]. intros s3 Hm3 Hv3 Hs3 Ht3. apply pair_eq in Ht3 as [Ht3 _].
      apply wp_ret. exists (Z.to_nat (size - (i + 1))). split; [lia|].
      split_and!; [lia|lia|lia| |done|congruence|congruence|].
      * by replace (pa + (i + 1)) with (i + pa + 1) by lia.
      * eapply copied_step; [lia|exact Hc1| | |].
        -- rewrite Hm3, Hm2. by rewrite (Z.add_comm pa i).
        -- by rewrite Hv2, Hv1.
        -- rewrite Hv2, Hv1. apply Hb.
    + apply wp_ret. exists pp. replace size with i by lia. by split_and!.
  - rewrite Z.add_0_r. split_and!; [lia|lia|lia|done|done|done|done|]. rewrite Hm0. apply copied_0.
Qed.

Lemma memcpy_p2v_spec va pa size s :
  0 ≤ pa → 0 ≤ va → 0 ≤ size → pa + size + 4096 ≤ W32 → va + size ≤ W32 → bytes (mem s) →
  tmp1_lock (ph_mmu s) = false →
  wp (phyops_memcpy_p2v va pa size) (λ _ s', mem s' = mem s ∧
    tmp1_lock (ph_mmu s') = false ∧ tmp2_lock (ph_mmu s') = tmp2_lock (ph_mmu s) ∧
    copied va size (λ i, rd8 (mem s) (pa + i)) (vmem s) (vmem s')) s.
Proof.
  intros Hpa Hva Hsz Hw Hvw Hb Hl. unfold phyops_memcpy_p2v.
  pose proof (near_start pa Hpa) as Hn0. apply wp_get_tmp1; [apply Hn0|done|].
  intros s0 Hm0 Hv0 Hs0 Ht0. apply pair_eq in Ht0 as [Ht0 _].
  apply wp_bind. eapply (wp_mono _ (λ _ s', ∃ pp, shows1 pp s' ∧ mem s' = mem s ∧
    tmp2_lock (ph_mmu s') = tmp2_lock (ph_mmu s) ∧
    copied va size (λ i, rd8 (mem s) (pa + i)) (vmem s) (vmem s'))).
  2:{ intros ? s' (pp & [Hl' _] & Hv & Ht & Hc). apply wp_zoom, wp_bind, wp_modify, wp_modify. by split_and!. }
  eapply (wp_loop (λ n '(i, pp) s', 0 ≤ i ≤ size ∧ n = Z.to_nat (size - i) ∧ near pp (pa + i) ∧
    shows1 pp s' ∧ mem s' = mem s ∧ tmp2_lock (ph_mmu s') = tmp2_lock (ph_mmu s) ∧
    copied va i (λ i, rd8 (mem s) (pa + i)) (vmem s) (vmem s'))) with (n := Z.to_nat size); [|lia|].
  - intros n [i pp] s1 (Hi & -> & Hn & Hs1 & Hv1 & Ht1 & Hc1). destruct (Z.ltb_spec i size).
    + rewrite Z.add_comm in Hn. eapply wp_next_tmp1; [exact Hn|lia|lia|done|done|].
      intros pp' s2 Hn2 Hle Hs2 Hm2 Hv2 Ht2. apply pair_eq in Ht2 as [Ht2 _].
      assert (Hin : pp' ≤ i + pa < pp' + 4096) by (destruct Hn2; lia).
      unfold add32. rewrite !u32_small by (unfold is_u32, W32 in *; lia).
      eapply wp_rd_tmp1; [exact Hs2|apply Hn2|exact Hin|]. apply wp_bind, wp_modify.
      apply wp_ret. exists (Z.to_nat (size - (i + 1))). split; [lia|].
      split_and!; [lia|lia|lia| |done|change (mem s2 = mem s); congruence|cbn; congruence|].
      * by replace (pa + (i + 1)) with (i + pa + 1) by lia.
      * cbn. eapply copied_step; [lia|exact Hc1| | |].
        -- by rewrite Hv2.
        -- rewrite Hm2, Hv1. by rewrite (Z.add_comm pa i).
        -- rewrite Hm2, Hv1. apply Hb.
    + apply wp_ret. exists pp. replace size with i by lia. by split_and!.
  - rewrite Z.add_0_r. split_and!; [lia|lia|lia|done|done|done|done|]. rewrite Hv0. apply copied_0.
Qed.

Lemma wp_get_tmp2 {B} pp (k : unit → M phys B) Q s :
  pp mod 4096 = 0 → tmp2_lock (ph_mmu s) = false →
  (∀ s', mem s' = mem s → vmem s' = vmem s → shows2 pp s' →
     (tmp1_lock (ph_mmu s'), tmp1_pte (ph_mmu s')) = (tmp1_lock (ph_mmu s), tmp1_pte (ph_mmu s)) →
     wp (k tt) Q s') →
  wp (y <- on_mmu (mmu_get_tmp2 pp) ;; k y) Q s.
Proof.
  intros Ha Hl Hk. apply wp_bind, wp_zoom, wp_bind, wp_assert. change PAGE_SIZE with 4096.
  rewrite Ha. split; [done|]. apply wp_bind, wp_bind, wp_get. rewrite Hl. apply wp_put, wp_modify.
  by apply Hk.
Qed.

Lemma shows1_eq pp s s' :
  (tmp1_lock (ph_mmu s'), tmp1_pte (ph_mmu s')) = (tmp1_lock (ph_mmu s), tmp1_pte (ph_mmu s)) →
  shows1 pp s → shows1 pp s'.
Proof. intros [H1 H2]%pair_eq [H3 H4]. split; congruence. Qed.
Lemma shows2_eq pp s s' :
  (tmp2_lock (ph_mmu s'), tmp2_pte (ph_mmu s')) = (tmp2_lock (ph_mmu s), tmp2_pte (ph_mmu s)) →
  shows2 pp s → shows2 pp s'.
Proof. intros [H1 H2]%pair_eq [H3 H4]. split; congruence. Qed.

Lemma memcpy_p2p_spec pad pas size s :
  0 ≤ pad → 0 ≤ pas → 0 ≤ size → pad + size + 4096 ≤ W32 → pas + size + 4096 ≤ W32 →
  pad + size ≤ pas ∨ pas + size ≤ pad → bytes (mem s) → frees s →
  wp (phyops_memcpy_p2p pad pas size) (λ _ s', vmem s' = vmem s ∧ frees s' ∧
    copied pad size (λ i, rd8 (mem s) (pas + i)) (mem s) (mem s')) s.
Proof.
  intros Hpd Hps Hsz Hwd Hws Hdis Hb [Hl1 Hl2]. unfold phyops_memcpy_p2p.
  pose proof (near_start pad Hpd) as Hnd. pose proof (near_start pas Hps) as Hns.
  apply wp_get_tmp1; [apply Hnd|done|]. intros s0 Hm0 Hv0 Hs0 Ht0.
  pose proof Ht0 as [Ht0' _]%pair_eq.
  apply wp_get_tmp2; [apply Hns|congruence|]. intros s1 Hm1 Hv1 Hs1 Ht1.
  apply (shows1_eq _ _ _ Ht1) in Hs0.
  apply wp_bind. eapply (wp_mono _ (λ _ s', vmem s' = vmem s ∧
    copied pad size (λ i, rd8 (mem s) (pas + i)) (mem s) (mem s'))).
  2:{ intros ? s' (Hv & Hc). apply wp_bind, wp_zoom, wp_bind, wp_modify, wp_modify.
      apply wp_zoom, wp_bind, wp_modify, wp_modify. by split. }
  eapply (wp_loop (λ n '(i, ppd, pps) s', 0 ≤ i ≤ size ∧ n = Z.to_nat (size - i) ∧
    near ppd (pad + i) ∧ near pps (pas + i) ∧ shows1 ppd s' ∧ shows2 pps s' ∧ vmem s' = vmem s ∧
    copied pad i (λ i, rd8 (mem s) (pas + i)) (mem s) (mem s'))) with (n := Z.to_nat size); [|lia|].
  - intros n [[i ppd] pps] s2 (Hi & -> & Hd & Hs & H1 & H2 & Hv2 & Hc). destruct (Z.ltb_spec i size).
    + rewrite Z.add_comm in Hd, Hs. eapply wp_next_tmp2; [exact Hs|lia|lia|done|done|].
      intros pps' s3 Hn3 Hle3 Hs3 Hm3 Hv3 Ht3. apply (shows1_eq _ _ _ Ht3) in H1.
      eapply wp_next_tmp1; [exact Hd|lia|lia|done|done|].
      intros ppd' s4 Hn4 Hle4 Hs4 Hm4 Hv4 Ht4. apply (shows2_eq _ _ _ Ht4) in Hs3.
      assert (Hin2 : pps' ≤ i + pas < pps' + 4096) by (destruct Hn3; lia).
      assert (Hin1 : ppd' ≤ i + pad < ppd' + 4096) by (destruct Hn4; lia).
      unfold add32. rewrite !u32_small by (unfold is_u32, W32 in *; lia).
      eapply wp_rd_tmp2; [exact Hs3|apply Hn3|exact Hin2|].
      eapply wp_wr_tmp1; [exact Hs4|apply Hn4|exact Hin1|]. intros s5 Hm5 Hv5 Hs5 Ht5.
      apply (shows2_eq _ _ _ Ht5) in Hs3.
      assert (Hsrc : rd8 (mem s4) (i + pas) = rd8 (mem s) (pas + i)).
      { rewrite Hm4, Hm3, Hc, (Z.add_comm pas i).
        destruct (Z.leb_spec pad (i + pas)), (Z.ltb_spec (i + pas) (pad + i)); cbn [andb]; (lia || done). }
      apply wp_ret. exists (Z.to_nat (size - (i + 1))). split; [lia|].
      split_and!; [lia|lia|lia| | |done|done|congruence|].
      * by replace (pad + (i + 1)) with (i + pad + 1) by lia.
      * by replace (pas + (i + 1)) with (i + pas + 1) by lia.
      * eapply (copied_step _ _ _ _ (mem s2) _ (rd8 (mem s4) (i + pas))); [lia|exact Hc| |exact Hsrc|].
        -- rewrite Hm5, (Z.add_comm pad i). by replace (mem s2) with (mem s4) by congruence.
        -- rewrite Hsrc. apply Hb.
    + apply wp_ret. replace size with i by lia. by split.
  - rewrite !Z.add_0_r. split_and!; [lia|lia|lia|done|done|done|done|congruence|].
    rewrite Hm1, Hm0. apply copied_0.
Qed.

(** The physical copies are flat byte copies, whatever frame boundaries they
    cross: [phyops_memcpy_v2p] and [phyops_memcpy_p2p] put byte [i] of the source at
    byte [i] of the destination and change no other byte of physical memory,
    [phyops_memcpy_p2v] does so for the virtual buffer, and every window is given
    back. *)
Theorem phyops_memcpy_correct pa pb va size s :
  0 ≤ pa → 0 ≤ pb → 0 ≤ va → 0 ≤ size → pa + size + PAGE_SIZE ≤ W32 → pb + size + PAGE_SIZE ≤ W32 →
  va + size ≤ W32 → bytes (mem s) → bytes (vmem s) → frees s →
  wp (phyops_memcpy_v2p pa va size) (λ _ s', vmem s' = vmem s ∧ frees s' ∧
    copied pa size (λ i, rd8 (vmem s) (va + i)) (mem s) (mem s')) s ∧
  wp (phyops_memcpy_p2v va pa size) (λ _ s', mem s' = mem s ∧ frees s' ∧
    copied va size (λ i, rd8 (mem s) (pa + i)) (vmem s) (vmem s')) s ∧
  (pa + size ≤ pb ∨ pb + size ≤ pa →
   wp (phyops_memcpy_p2p pa pb size) (λ _ s', vmem s' = vmem s ∧ frees s' ∧
    copied pa size (λ i, rd8 (mem s) (pb + i)) (mem s) (mem s')) s).
Proof.
  intros Hpa Hpb Hva Hsz Hw1 Hw2 Hw3 Hb1 Hb2 [Hl1 Hl2]. change PAGE_SIZE with 4096 in *. split_and!.
  - eapply wp_mono; [by apply memcpy_v2p_spec|]. intros ? s' (H1 & H2 & H3 & H4).
    split_and!; [done|split; congruence|done].
  - eapply wp_mono; [by apply memcpy_p2v_spec|]. intros ? s' (H1 & H2 & H3 & H4).
    split_and!; [done|split; congruence|done].
  - intros Hd. by apply memcpy_p2p_spec.
Qed.

(** A copy of three bytes across the end of a frame. *)
Definition ex_phys : phys := Phys (Mmu ∅ false false 0 0) (list_to_map [(100, 11); (101, 22); (102, 33)]).

Lemma ex_phys_bytes : bytes (vmem ex_phys).
Proof.
  intros a. unfold rd8. cbn [ex_phys vmem]. cbn [list_to_map foldr curry fst snd].
  destruct (decide (a = 100)) as [->|]; [by vm_compute|].
  destruct (decide (a = 101)) as [->|]; [by vm_compute|].
  destruct (decide (a = 102)) as [->|]; [by vm_compute|].
  rewrite !lookup_insert_ne by congruence. rewrite lookup_empty. simpl. lia.
Qed.

Lemma phyops_memcpy_correct_witness :
  wp (phyops_memcpy_v2p 0x1FFF 100 3) (λ _ s', vmem s' = vmem ex_phys ∧ frees s' ∧
    copied 0x1FFF 3 (λ i, rd8 (vmem ex_phys) (100 + i)) (mem ex_phys) (mem s')) ex_phys.
Proof.
  refine (proj1 (phyops_memcpy_correct 0x1FFF 0 100 3 ex_phys _ _ _ _ _ _ _ _ _ _));
    [lia|lia|lia|lia|by vm_compute|by vm_compute|by vm_compute|apply bytes_empty
    |apply ex_phys_bytes|by split].
Defined.
