(* ===== verification/Slab.v ===== *)
(** * The slab allocator (struct slab_alct_t, kernel/memory/slab.c)

    Small blocks are cut off the front of a page, whose first word counts the
    blocks in use; a page whose count returns to zero is given back. The source
    of pages is an interface: [kmalloc]/[kmfree] for the kernel's allocator,
    [umalloc]/[umfree] for a process's. *)
From S2P Require Import Prelude Machine.

Definition SZ_UINT : Z := 4.
Definition CONFIG_SZ_SLAB_ALLOC_MAX : Z := 256.
Definition NULLP : Z := 0.

(** [alct->alloc(&_addr, PAGE_SIZE)] and [alct->free(addr)]. *)
Class PageSource (A : Type) := {
  ps_alloc : M A (Z + Z);
  ps_free : Z → M A Z;
}.
(** The invariant of a source names the pages its client holds. A page that the source
    hands out is aligned, below 4 GB and not one of them; giving one back is always
    possible. Nothing is said of a request that fails: it may report an error, with the
    source in any state, or not come back at all. The two sources of the kernel satisfy
    this: [umalloc] and [umfree] of a process (UmSpec), [kmalloc] and [kmfree] (Kmem),
    where both frees do nothing. *)
Class PageSourceLaws (A : Type) `{PageSource A} := {
  ps_inv : A → gset Z → Prop;
  ps_alloc_ok : ∀ a X p a', ps_inv a X → ps_alloc a = Ret (inr p) a' →
    p mod PAGE_SIZE = 0 ∧ 0 ≤ p ∧ p + PAGE_SIZE < W32 ∧ (p ∉ X) ∧ ps_inv a' ({[p]} ∪ X);
  ps_free_ok : ∀ a X p, ps_inv a X → p ∈ X → wp (ps_free p) (λ _ a', ps_inv a' (X ∖ {[p]})) a;
}.

Record slab (A : Type) := Slab {
  freep : Z;
  slab_lock : bool;
  cnts : gmap Z Z;      (** the word at the start of each page *)
  pages : A;
}.
Arguments Slab {A}.
Arguments freep {A}.
Arguments slab_lock {A}.
Arguments cnts {A}.
Arguments pages {A}.

Section code.
Context {A : Type} `{PageSource A}.
Abbreviation M := (M (slab A)).

Definition get_cnt (addr : Z) : Z := ROUND_DOWN addr PAGE_SIZE.
Definition rd_cnt (p : Z) : M Z := s <- get ;; deref (cnts s !! p).
Definition wr_cnt (p v : Z) : M unit :=
  modify (λ s, Slab (freep s) (slab_lock s) (<[p := v]> (cnts s)) (pages s)).
Definition set_freep (p : Z) : M unit :=
  modify (λ s, Slab p (slab_lock s) (cnts s) (pages s)).
Definition new_page : M (Z + Z) :=
  zoom pages (λ a s, Slab (freep s) (slab_lock s) (cnts s) a) ps_alloc.
Definition give_back (p : Z) : M Z :=
  zoom pages (λ a s, Slab (freep s) (slab_lock s) (cnts s) a) (ps_free p).

Definition slab_alloc (size : Z) : M (Z * option Z) :=
  f <- gets freep ;;
  r <- (if (f =? NULLP) || (ROUND_UP f PAGE_SIZE <=? add32 f size) then
          p <- new_page ;;
          match p with
          | inl err => ret (inl err)
          | inr _addr => set_freep (add32 _addr SZ_UINT) ;;; wr_cnt _addr 0 ;;; ret (inr tt)
          end
        else ret (inr tt)) ;;
  match r with
  | inl err => ret (err, None)
  | inr _ =>
      addr <- gets freep ;;
      let cnt := get_cnt addr in
      c <- rd_cnt cnt ;; wr_cnt cnt (add32 c 1) ;;;
      set_freep (add32 addr size) ;;;
      ret (E_OK, Some addr)
  end.

Definition slab_free (addr : Z) : M Z :=
  let cnt := get_cnt addr in
  c <- rd_cnt cnt ;; wr_cnt cnt (sub32 c 1) ;;;
  c <- rd_cnt cnt ;;
  if c =? 0 then
    f <- gets freep ;;
    (if ROUND_DOWN f PAGE_SIZE =? cnt then set_freep NULLP else ret tt) ;;;
    give_back cnt
  else ret E_OK.

Definition slab_init : M Z :=
  modify (λ s, Slab NULLP false (cnts s) (pages s)) ;;; ret E_OK.

(** The new allocator's [freep]; the old one's lock is taken around the read. *)
Definition slab_fork : M (Z * Z) :=
  s <- get ;; if slab_lock s then hang else
  put (Slab (freep s) true (cnts s) (pages s)) ;;;
  f <- gets freep ;;
  modify (λ s, Slab (freep s) false (cnts s) (pages s)) ;;;
  ret (E_OK, f).
End code.

(** ** The blocks in use *)
Definition page_of (a : Z) : Z := a - a mod 4096.

(** A block of [n] bytes at [a] lies in its page, after the counter. *)
Definition block_ok (b : Z * Z) : Prop :=
  1 ≤ snd b ∧ page_of (fst b) + 4 ≤ fst b ∧ fst b + snd b ≤ page_of (fst b) + 4096.

Definition disjoint_blocks (b c : Z * Z) : Prop :=
  fst b + snd b ≤ fst c ∨ fst c + snd c ≤ fst b.

Definition on_page (p : Z) (L : list (Z * Z)) : list (Z * Z) :=
  filter (λ b, page_of (fst b) = p) L.

Section spec.
Context {A : Type} `{PageSource A}.
Implicit Types s : slab A.

(** The blocks [L] are in pages of [X], the pages the allocator holds. *)
Record slab_inv (L : list (Z * Z)) (X : gset Z) s : Prop := {
  si_blocks : Forall (λ b, block_ok b ∧ page_of (fst b) ∈ X) L;
  si_disjoint : ForallOrdPairs disjoint_blocks L;
  si_cnt : ∀ p, p ∈ X → cnts s !! p = Some (Z.of_nat (length (on_page p L))) ;
  si_bound : ∀ p, Z.of_nat (length (on_page p L)) ≤ 4092;
  si_freep : freep s = NULLP ∨
    (page_of (freep s) ∈ X ∧ page_of (freep s) + 4 ≤ freep s ∧ 0 ≤ page_of (freep s) ∧
     page_of (freep s) + 4096 < W32 ∧
     Z.of_nat (length (on_page (page_of (freep s)) L)) ≤ freep s - (page_of (freep s) + 4) ∧
     ∀ b, b ∈ L → page_of (fst b) = page_of (freep s) → fst b + snd b ≤ freep s);
}.

Lemma page_of_spec a : page_of a mod 4096 = 0 ∧ page_of a ≤ a < page_of a + 4096.
Proof using Type.
  unfold page_of. split; [|pose proof (Z.mod_pos_bound a 4096 ltac:(lia)); lia].
  pose proof (Z.div_mod a 4096 ltac:(lia)). replace (a - a mod 4096) with (a / 4096 * 4096) by lia.
  apply Z.mod_mul. lia.
Qed.

Lemma page_of_unique a p : p mod 4096 = 0 → p ≤ a < p + 4096 → page_of a = p.
Proof using Type.
  intros Hp Ha. destruct (page_of_spec a) as [H1 H2].
  pose proof (Z.div_mod p 4096 ltac:(lia)). pose proof (Z.div_mod (page_of a) 4096 ltac:(lia)). lia.
Qed.

Lemma get_cnt_page a : get_cnt a = page_of a.
Proof using Type. unfold get_cnt. by rewrite round_down_eq. Qed.

(** The test of [slab_alloc]: the block does not fit strictly before the end of
    the page. *)
Lemma fit_test f n :
  0 ≤ page_of f → page_of f + 4 ≤ f → page_of f + 4096 < W32 → 1 ≤ n ≤ 256 →
  (ROUND_UP f PAGE_SIZE <=? add32 f n) = (page_of f + 4096 <=? f + n).
Proof using Type.
  intros Hp H4 Hw Hn. destruct (page_of_spec f) as [Ha Hr].
  unfold ROUND_UP, mul32, add32. change PAGE_SIZE with 4096.
  pose proof (Z.div_mod (page_of f) 4096 ltac:(lia)) as Hd. rewrite Ha in Hd.
  assert (Hw2 : page_of f + 8192 ≤ W32) by (unfold W32 in *; lia).
  rewrite (u32_small (f + 4096 - 1)) by (unfold is_u32; lia).
  rewrite (u32_small (f + n)) by (unfold is_u32; lia).
  replace ((f + 4096 - 1) / 4096) with (page_of f / 4096 + 1).
  - rewrite u32_small by (unfold is_u32; lia). f_equal. lia.
  - symmetry. replace (f + 4096 - 1) with (f - page_of f - 1 + (page_of f / 4096 + 1) * 4096) by lia.
    rewrite Z.div_add by lia. rewrite Z.div_small by lia. lia.
Qed.

Lemma on_page_cons p b L :
  on_page p (b :: L) = if decide (page_of (fst b) = p) then b :: on_page p L else on_page p L.
Proof using Type. unfold on_page. by rewrite filter_cons. Qed.

(** Cutting [n] bytes at [f] off a page with room. *)
Lemma cut_block L X s n f c :
  slab_inv L X (Slab f (slab_lock s) (cnts s) (pages s)) → f ≠ NULLP → 1 ≤ n ≤ 256 →
  f + n < page_of f + 4096 → c = Z.of_nat (length (on_page (page_of f) L)) →
  cnts s !! page_of f = Some c ∧
  slab_inv ((f, n) :: L) X
    (Slab (add32 f n) (slab_lock s) (<[page_of f := add32 c 1]> (cnts s)) (pages s)) ∧
  Forall (disjoint_blocks (f, n)) L.
Proof using Type.
  intros [H1 H2 H3 H4 H5] Hf Hn Hfit ->. cbn [freep cnts pages] in *.
  destruct H5 as [H5|(Hl & Hp4 & Hp0 & Hpw & Hb & Hlt)]; [done|].
  pose proof (H4 (page_of f)) as Hb2. destruct (page_of_spec f) as [Ha Hr].
  assert (Hd : Forall (disjoint_blocks (f, n)) L).
  { apply Forall_forall. intros b Hin. unfold disjoint_blocks. simpl.
    rewrite Forall_forall in H1. destruct (H1 b Hin) as [(Hb1 & Hb3 & Hb4) _].
    destruct (decide (page_of (fst b) = page_of f)) as [He|He]; [right; by apply Hlt|].
    destruct (page_of_spec (fst b)) as [Hba Hbr].
    pose proof (Z.div_mod (page_of f) 4096 ltac:(lia)). pose proof (Z.div_mod (page_of (fst b)) 4096 ltac:(lia)).
    lia. }
  split; [by apply H3|]. split; [|done].
  assert (Hadd : add32 f n = f + n) by (unfold add32; apply u32_small; unfold is_u32; lia).
  assert (Hpg : page_of (f + n) = page_of f) by (apply page_of_unique; lia).
  split; cbn [freep cnts pages].
  - constructor; [|done]. split; [|done]. unfold block_ok. simpl. lia.
  - by constructor.
  - intros p Hp. rewrite on_page_cons. cbn [fst].
    destruct (decide (page_of f = p)) as [<-|Hne].
    + rewrite lookup_insert_eq. f_equal. unfold add32. cbn [length]. rewrite u32_small; [lia|].
      unfold is_u32, W32. lia.
    + rewrite lookup_insert_ne by done. by apply H3.
  - intros p. rewrite on_page_cons. cbn [fst]. case_decide; [|done]. subst p. cbn [length]. lia.
  - right. rewrite Hadd, Hpg. split_and!; try done; [lia| |].
    + rewrite on_page_cons. cbn [fst]. rewrite decide_True by done. cbn [length]. lia.
    + intros b [->|Hin]%elem_of_cons He; [done|]. specialize (Hlt b Hin He). lia.
Qed.

(** The request is served from the page in use. *)
Definition has_room s n : Prop := freep s ≠ NULLP ∧ freep s + n < page_of (freep s) + 4096.
#[export] Instance has_room_dec s n : Decision (has_room s n).
Proof. unfold has_room. apply _. Defined.

Definition take_block (size : Z) : M (slab A) (Z * option Z) :=
  addr <- gets freep ;; c <- rd_cnt (get_cnt addr) ;; wr_cnt (get_cnt addr) (add32 c 1) ;;;
  set_freep (add32 addr size) ;;; ret (E_OK, Some addr).

Lemma take_block_spec L X s n : slab_inv L X s → has_room s n → 1 ≤ n ≤ 256 →
  wp (take_block n) (λ r s', r = (E_OK, Some (freep s)) ∧ slab_inv ((freep s, n) :: L) X s' ∧
    Forall (disjoint_blocks (freep s, n)) L ∧ slab_lock s' = slab_lock s ∧ pages s' = pages s) s.
Proof using Type.
  intros Hi [Hf Hfit] Hn. unfold take_block. apply wp_bind, wp_gets. rewrite get_cnt_page.
  destruct (cut_block L X s n (freep s) _ ltac:(by destruct s) Hf Hn Hfit eq_refl) as (Hc & Hi2 & Hd).
  apply wp_bind. unfold rd_cnt. apply wp_bind, wp_get, wp_deref. eexists; split; [exact Hc|].
  apply wp_bind, wp_modify, wp_bind, wp_modify, wp_ret. by split_and!.
Qed.

(** A new page, empty, becomes the page in use. *)
Lemma new_page_inv L X s p a' : slab_inv L X s → (p ∉ X) → p mod 4096 = 0 → 0 ≤ p → p + 4096 < W32 →
  slab_inv L ({[p]} ∪ X) (Slab (p + 4) (slab_lock s) (<[p := 0]> (cnts s)) a').
Proof using Type.
  intros [H1 H2 H3 H4 H5] Hfr Hpa Hp0 Hpw.
  assert (Hpg : page_of (p + 4) = p) by (apply page_of_unique; lia).
  assert (Hnone : on_page p L = []).
  { destruct (on_page p L) as [|b l] eqn:Hfl; [done|]. exfalso.
    assert (Hb : b ∈ on_page p L) by (rewrite Hfl; left).
    apply list_elem_of_filter in Hb as [Hb1 Hb2]. rewrite Forall_forall in H1.
    destruct (H1 b Hb2) as [_ Hb3]. by rewrite Hb1 in Hb3. }
  split; cbn [freep slab_lock cnts pages].
  - eapply Forall_impl; [exact H1|]. intros b [Hb1 Hb2]. split; [done|]. set_solver.
  - done.
  - intros q Hq. destruct (decide (p = q)) as [<-|Hne].
    + by rewrite lookup_insert_eq, Hnone.
    + rewrite lookup_insert_ne by done. apply H3. set_solver.
  - done.
  - right. rewrite Hpg, Hnone. simpl. split_and!; try lia; [set_solver|].
    intros b Hb He. rewrite Forall_forall in H1. destruct (H1 b Hb) as [_ Hb3]. by rewrite He in Hb3.
Qed.

(** What [slab_alloc] comes down to. *)
Lemma slab_alloc_run L X s n : slab_inv L X s → 1 ≤ n ≤ 256 →
  slab_alloc n s = if decide (has_room s n) then take_block n s else
    match ps_alloc (pages s) with
    | Ret (inr p) a' => take_block n (Slab (add32 p SZ_UINT) (slab_lock s) (<[p := 0]> (cnts s)) a')
    | Ret (inl err) a' => Ret (err, None) (Slab (freep s) (slab_lock s) (cnts s) a')
    | Panic => Panic | Fault => Fault | Hang => Hang
    end.
Proof using Type.
  intros Hi Hn. unfold slab_alloc. unfold bind at 1, gets at 1.
  assert (((freep s =? NULLP) || (ROUND_UP (freep s) PAGE_SIZE <=? add32 (freep s) n)) =
    negb (bool_decide (has_room s n))) as ->.
  { unfold has_room. destruct (Z.eqb_spec (freep s) NULLP) as [Hf|Hf]; cbn [orb].
    - rewrite bool_decide_eq_false_2; [done|]. by intros [? _].
    - destruct (si_freep _ _ _ Hi) as [He|(Hl & Hp4 & Hp0 & Hpw & Hb & Hlt)]; [done|]. rewrite fit_test by done.
      destruct (Z.leb_spec (page_of (freep s) + 4096) (freep s + n));
        [rewrite bool_decide_eq_false_2 by lia|rewrite bool_decide_eq_true_2 by lia]; done. }
  case_decide as Hr; [by rewrite bool_decide_eq_true_2|rewrite bool_decide_eq_false_2 by done].
  cbn [negb]. unfold bind at 1 2, new_page, zoom. by destruct (ps_alloc (pages s)) as [[e|p] a'| | |].
Qed.

Lemma slab_alloc_spec `{!PageSourceLaws A} L X s n :
  slab_inv L X s → ps_inv (pages s) X → 1 ≤ n ≤ CONFIG_SZ_SLAB_ALLOC_MAX →
  match slab_alloc n s with
  | Ret (err, Some a) s' => err = E_OK ∧ slab_lock s' = slab_lock s ∧ Forall (disjoint_blocks (a, n)) L ∧ ∃ X',
      slab_inv ((a, n) :: L) X' s' ∧ ps_inv (pages s') X' ∧
      if decide (has_room s n) then X' = X ∧ pages s' = pages s
      else ∃ p, ps_alloc (pages s) = Ret (inr p) (pages s') ∧ X' = {[p]} ∪ X ∧ a = p + 4
  | Ret (err, None) s' => ¬ has_room s n ∧ ∃ a', ps_alloc (pages s) = Ret (inl err) a' ∧
      s' = Slab (freep s) (slab_lock s) (cnts s) a'
  | _ => ¬ has_room s n ∧ ∀ r a', ps_alloc (pages s) ≠ Ret r a'
  end.
Proof.
  intros Hi Hps Hn. unfold CONFIG_SZ_SLAB_ALLOC_MAX in Hn. rewrite (slab_alloc_run L X) by done.
  case_decide as Hr.
  - pose proof (take_block_spec L X s n Hi Hr Hn) as Hb. unfold wp in Hb.
    destruct (take_block n s) as [r s'| | |]; [|done..]. destruct Hb as (-> & Hi' & Hd & Hl & Hp).
    split_and!; [done..|]. exists X. by rewrite Hp.
  - destruct (ps_alloc (pages s)) as [[e|p] a'| | |] eqn:Hal; [split; [done|]; by exists a'| |done..].
    destruct (ps_alloc_ok _ _ _ _ Hps Hal) as (Hpa & Hp0 & Hpw & Hfr & Hps'). change PAGE_SIZE with 4096 in *.
    assert (add32 p SZ_UINT = p + 4) as -> by (unfold add32, SZ_UINT; apply u32_small; unfold is_u32; lia).
    set (s1 := Slab _ _ _ _). assert (Hi1 : slab_inv L ({[p]} ∪ X) s1) by by apply new_page_inv.
    assert (Hr1 : has_room s1 n).
    { split; [unfold s1, NULLP; cbn; lia|]. change (freep s1) with (p + 4).
      rewrite (page_of_unique (p + 4) p) by lia. lia. }
    pose proof (take_block_spec L _ s1 n Hi1 Hr1 Hn) as Hb. unfold wp in Hb.
    destruct (take_block n s1) as [r s'| | |]; [|done..]. destruct Hb as (-> & Hi' & Hd & Hl & Hp).
    split_and!; [done..|]. exists ({[p]} ∪ X). rewrite Hp. split_and!; [done..|]. by exists p.
Qed.

Lemma on_page_app p L1 L2 : on_page p (L1 ++ L2) = on_page p L1 ++ on_page p L2.
Proof using Type. unfold on_page. by rewrite filter_app. Qed.

Lemma pairs_remove (L1 L2 : list (Z * Z)) b :
  ForallOrdPairs disjoint_blocks (L1 ++ b :: L2) → ForallOrdPairs disjoint_blocks (L1 ++ L2).
Proof using Type.
  induction L1 as [|c L1 IH]; simpl; intros Hp; inversion Hp as [|? ? H1 H2]; subst; [done|].
  constructor; [|by apply IH]. rewrite Forall_app, Forall_cons in *. naive_solver.
Qed.

Lemma slab_free_spec `{!PageSourceLaws A} L1 L2 X s a n :
  slab_inv (L1 ++ (a, n) :: L2) X s → ps_inv (pages s) X →
  wp (slab_free a) (λ err s', slab_lock s' = slab_lock s ∧
    if decide (on_page (page_of a) (L1 ++ L2) = []) then
      ps_free (page_of a) (pages s) = Ret err (pages s') ∧
      slab_inv (L1 ++ L2) (X ∖ {[page_of a]}) s' ∧ ps_inv (pages s') (X ∖ {[page_of a]})
    else err = E_OK ∧ pages s' = pages s ∧ slab_inv (L1 ++ L2) X s') s.
Proof.
  intros [H1 H2 H3 H4 H5] H6. set (P := page_of a) in *.
  assert (Hlen : length (on_page P (L1 ++ (a, n) :: L2)) = S (length (on_page P (L1 ++ L2)))).
  { rewrite !on_page_app, on_page_cons. cbn [fst]. rewrite decide_True by done.
    rewrite !length_app. simpl. lia. }
  assert (Hother : ∀ p, p ≠ P → on_page p (L1 ++ (a, n) :: L2) = on_page p (L1 ++ L2)).
  { intros p Hne. rewrite !on_page_app, on_page_cons. cbn [fst]. rewrite decide_False; [done|]. intros He. by apply Hne. }
  rewrite Forall_app, Forall_cons in H1. destruct H1 as (H1a & [Hbk Hlv] & H1b). cbn [fst snd] in *.
  pose proof (H4 P) as Hb. rewrite Hlen in Hb.
  set (c := Z.of_nat (length (on_page P (L1 ++ L2)))) in *.
  pose proof (H3 P Hlv) as Hc. rewrite Hlen in Hc.
  unfold slab_free. rewrite get_cnt_page. fold P. unfold rd_cnt at 1.
  apply wp_bind, wp_bind, wp_get, wp_deref. eexists; split; [exact Hc|].
  assert (Hsub : sub32 (Z.of_nat (S (length (on_page P (L1 ++ L2))))) 1 = c).
  { unfold sub32. rewrite u32_small; [lia|]. unfold is_u32, W32. lia. }
  rewrite Hsub. apply wp_bind, wp_modify. unfold rd_cnt. apply wp_bind, wp_bind, wp_get, wp_deref.
  exists c. split; [apply lookup_insert_eq|].
  assert (Hblocks : Forall (λ b, block_ok b ∧ page_of (fst b) ∈ X) (L1 ++ L2))
    by (by apply Forall_app).
  destruct (Z.eqb_spec c 0) as [Hz|Hz].
  - (* the page is empty *)
    assert (Hnil : on_page P (L1 ++ L2) = []) by (apply length_zero_iff_nil; lia).
    apply wp_bind, wp_gets. cbn [freep].
    apply wp_bind. eapply (wp_mono _ (λ _ s', pages s' = pages s ∧ cnts s' = <[P:=c]> (cnts s) ∧
      slab_lock s' = slab_lock s ∧ freep s' = if decide (page_of (freep s) = P) then NULLP else freep s)).
    { rewrite round_down_eq by done. change PAGE_SIZE with 4096. fold (page_of (freep s)).
      destruct (Z.eqb_spec (page_of (freep s)) P); [apply wp_modify|apply wp_ret]; cbn;
        split_and!; try done; by case_decide. }
    intros ? s1 (Hp1 & Hc1 & Hl1 & Hf1). unfold give_back. apply wp_zoom. rewrite Hp1.
    pose proof (ps_free_ok (pages s) X P H6 Hlv) as Hfree. unfold wp in Hfree |- *.
    destruct (ps_free P (pages s)) as [e a'| | |]; [|done..]. cbn [pages slab_lock]. rewrite decide_True by done.
    split_and!; [done|done| |done].
    assert (Hnp : ∀ b, b ∈ L1 ++ L2 → page_of (fst b) ≠ P).
    { intros b Hbin He. assert (Hin : b ∈ on_page P (L1 ++ L2)) by (by apply list_elem_of_filter).
      rewrite Hnil in Hin. by apply not_elem_of_nil in Hin. }
    split; cbn [freep slab_lock cnts pages].
    + rewrite Forall_forall in Hblocks |- *. intros b Hbin. destruct (Hblocks b Hbin) as [Hb1 Hb2].
      split; [done|]. specialize (Hnp b Hbin). set_solver.
    + by eapply pairs_remove.
    + intros p Hp. apply elem_of_difference in Hp as [Hp Hne].
      apply not_elem_of_singleton in Hne. rewrite Hc1, lookup_insert_ne by done.
      rewrite H3, Hother by done. done.
    + intros p. destruct (decide (p = P)) as [->|Hne]; [lia|]. rewrite <- Hother by done. apply H4.
    + rewrite Hf1. case_decide as He; [by left|]. destruct H5 as [H5|(G1 & G2 & G3 & G4 & G5 & G6)]; [by left|right].
      rewrite Hother in G5 by done. split_and!; try done.
      * set_solver.
      * intros b Hbin. apply G6. set_solver.
  - apply wp_ret. cbn [pages slab_lock].
    rewrite decide_False by (intros Hn; unfold c in Hz; by rewrite Hn in Hz).
    split_and!; [done..|]. split; cbn [freep slab_lock cnts pages].
    + done.
    + by eapply pairs_remove.
    + intros p Hp. destruct (decide (P = p)) as [<-|Hne]; [by rewrite lookup_insert_eq|].
      rewrite lookup_insert_ne by done. rewrite H3, Hother by done. done.
    + intros p. destruct (decide (p = P)) as [->|Hne]; [lia|]. rewrite <- Hother by done. apply H4.
    + destruct H5 as [H5|(G1 & G2 & G3 & G4 & G5 & G6)]; [by left|right]. split_and!; try done.
      * destruct (decide (page_of (freep s) = P)) as [He|Hne]; [|by rewrite Hother in G5].
        rewrite He in *. rewrite Hlen in G5. lia.
      * intros b Hbin. apply G6. set_solver.
Qed.
End spec.

(** Pages handed out one after the other. *)
Record page_pool := Pool { pp_next : Z; pp_live : gset Z }.
#[export] Instance pool_source : PageSource page_pool := {
  ps_alloc :=
    a <- get ;; let p := pp_next a in
    if (p mod PAGE_SIZE =? 0) && (0 <? p) && (p + PAGE_SIZE <? W32) && bool_decide (p ∉ pp_live a)
    then put (Pool (p + PAGE_SIZE) ({[p]} ∪ pp_live a)) ;;; ret (inr p) else ret (inl E_NOMEM);
  ps_free p := modify (λ a, Pool (pp_next a) (pp_live a ∖ {[p]})) ;;; ret E_OK;
}.
#[export] Instance pool_laws : PageSourceLaws page_pool.
Proof.
  refine (Build_PageSourceLaws _ _ (λ a X, X ⊆ pp_live a) _ _).
  - intros [n l] X p a' Hx Hal. cbn in *. unfold bind, get, put, ret in Hal. cbn in Hal. case_match eqn:Hc; [|done].
    apply andb_true_iff in Hc as [Hc Hc4]. apply andb_true_iff in Hc as [Hc Hc3].
    apply andb_true_iff in Hc as [Hc1 Hc2]. apply bool_decide_eq_true in Hc4.
    apply Z.eqb_eq in Hc1. apply Z.ltb_lt in Hc2, Hc3. simplify_eq. cbn. split_and!; [done|lia|done|set_solver|set_solver].
  - intros [n l] X p Hx _. apply wp_bind, wp_modify, wp_ret. cbn in *. set_solver.
Defined.

(** C13: The slab allocator hands out blocks that do not overlap. With room in the page in
    use, [slab_alloc] takes the block from it and asks its source for nothing; otherwise
    the block is the first of a new page. Either way the block lies inside one page of the
    allocator's, clear of the page's counter and of every block in use. It fails only when
    the source reports an error, with that error and the slabs as they were, and it does
    not return only when the source does not. [slab_free] takes exactly its block out of
    use and asks the source to take the page back exactly when its last block goes; the
    counter of each page is the number of its blocks in use, so that no block in use ever
    loses its page. The source is any that hands out pages the allocator does not hold. *)
Theorem slab_correct {A} `{PageSourceLaws A} (L : list (Z * Z)) X (s : slab A) :
  slab_inv L X s → ps_inv (pages s) X →
  (∀ n, 1 ≤ n ≤ CONFIG_SZ_SLAB_ALLOC_MAX →
    match slab_alloc n s with
    | Ret (err, Some a) s' => err = E_OK ∧ slab_lock s' = slab_lock s ∧ Forall (disjoint_blocks (a, n)) L ∧ ∃ X',
        slab_inv ((a, n) :: L) X' s' ∧ ps_inv (pages s') X' ∧
        if decide (has_room s n) then X' = X ∧ pages s' = pages s
        else ∃ p, ps_alloc (pages s) = Ret (inr p) (pages s') ∧ X' = {[p]} ∪ X ∧ a = p + 4
    | Ret (err, None) s' => ¬ has_room s n ∧ ∃ a', ps_alloc (pages s) = Ret (inl err) a' ∧
        s' = Slab (freep s) (slab_lock s) (cnts s) a'
    | _ => ¬ has_room s n ∧ ∀ r a', ps_alloc (pages s) ≠ Ret r a'
    end) ∧
  (∀ L1 a n L2, L = L1 ++ (a, n) :: L2 →
    wp (slab_free a) (λ err s', slab_lock s' = slab_lock s ∧
      if decide (on_page (page_of a) (L1 ++ L2) = []) then
        ps_free (page_of a) (pages s) = Ret err (pages s') ∧
        slab_inv (L1 ++ L2) (X ∖ {[page_of a]}) s' ∧ ps_inv (pages s') (X ∖ {[page_of a]})
      else err = E_OK ∧ pages s' = pages s ∧ slab_inv (L1 ++ L2) X s') s).
Proof.
  intros Hi Hps. split.
  - intros n Hn. by apply slab_alloc_spec.
  - intros L1 a n L2 ->. by eapply slab_free_spec.
Qed.

Definition ex_slab : slab page_pool := Slab 0 false ∅ (Pool 0x2000 ∅).

Lemma ex_slab_inv : slab_inv [] ∅ ex_slab.
Proof. split; try constructor; done. Qed.

Lemma slab_correct_witness :
  match slab_alloc 40 ex_slab with
  | Ret (_, Some a) s' => a = 0x2004 ∧ slab_inv [(a, 40)] {[0x2000]} s'
  | _ => False
  end.
Proof.
  pose proof (proj1 (slab_correct [] ∅ ex_slab ex_slab_inv ltac:(cbn; set_solver)) 40 ltac:(done)) as H.
  assert (ps_alloc (pages ex_slab) = Ret (inr 0x2000) (Pool 0x3000 ({[0x2000]} ∪ ∅))) as Ha by done.
  destruct (slab_alloc 40 ex_slab) as [[err [a|]] s'| | |].
  - destruct H as (_ & _ & _ & X & Hi & _ & Hx). rewrite decide_False in Hx by (intros [? _]; done).
    destruct Hx as (p & Hp & -> & ->). rewrite Ha in Hp. simplify_eq. split; [done|]. by rewrite union_empty_r_L in Hi.
  - destruct H as (_ & a' & H & _). by rewrite Ha in H.
  - destruct H as [_ H]. by destruct (H _ _ Ha).
  - destruct H as [_ H]. by destruct (H _ _ Ha).
  - destruct H as [_ H]. by destruct (H _ _ Ha).
Defined.
