(* ===== verification/Vm.v ===== *)
(** * Virtual address ranges (struct vpage_t, struct vpage_alct_t of
    include/memory.h, kernel/memory/vm.c): the C code

    Free and allocated ranges of an address space, each kind in a red-black tree
    ordered by address; the free tree is augmented with the largest size below a
    node. The nodes of both trees live in one heap, as the structures they are
    embedded in do. The allocator of the structures is an interface. *)
From S2P Require Import Prelude Machine RbtModel RbtTree RbtInsert RbtDelete RbtIter RbtSearch RbtProps.
From S2P Require Import RbtClient.

Inductive vp_type := KM_NORMAL | UM_NORMAL | UM_NOPM | UM_RCU.
#[export] Instance vp_type_eq_dec : EqDecision vp_type.
Proof. solve_decision. Defined.

Record vpage := VPage { vaddr : Z; vsize : Z; mx_size : Z; vtype : vp_type; map_page : Z }.

(** [alct->mm_ops]: [alloc] and [free] of the structures. *)
Class MmOps (A : Type) := {
  mm_alloc : A → (Z + Z) * A;
  mm_free : Z → A → Z * A;
  mm_live : A → gset Z;
}.
Class MmOpsLaws (A : Type) `{MmOps A} := {
  mm_alloc_ok : ∀ a p a', mm_alloc a = (inr p, a') →
    p ≠ NULL ∧ (p ∉ mm_live a) ∧ mm_live a' = {[p]} ∪ mm_live a;
  mm_alloc_err : ∀ a e a', mm_alloc a = (inl e, a') → e ≠ E_OK ∧ mm_live a' = mm_live a;
  mm_free_ok : ∀ p a e a', mm_free p a = (e, a') → mm_live a ∖ {[p]} ⊆ mm_live a';
}.

Record vm (A : Type) := Vm {
  free_root : Z;
  alloced_root : Z;
  vnodes : nodes;
  vps : gmap Z vpage;
  vm_lock : bool;
  vm_mm : A;
}.
Arguments Vm {A}.
Arguments free_root {A}.
Arguments alloced_root {A}.
Arguments vnodes {A}.
Arguments vps {A}.
Arguments vm_lock {A}.
Arguments vm_mm {A}.

Section code.
Context {A : Type} `{MmOps A}.
(** What a new structure holds in the fields nobody has written. *)
Context (junk : Z) (junk_type : vp_type).
Abbreviation M := (M (vm A)).

Definition free_rbt (s : vm A) : rbt := Rbt (free_root s) (vnodes s).
Definition set_free (t : rbt) (s : vm A) : vm A :=
  Vm (rbt_root t) (alloced_root s) (rbt_nodes t) (vps s) (vm_lock s) (vm_mm s).
Definition alloced_rbt (s : vm A) : rbt := Rbt (alloced_root s) (vnodes s).
Definition set_alloced (t : rbt) (s : vm A) : vm A :=
  Vm (free_root s) (rbt_root t) (rbt_nodes t) (vps s) (vm_lock s) (vm_mm s).
Definition on_free {B} (m : Prelude.M rbt B) : M B := zoom free_rbt set_free m.
Definition on_alloced {B} (m : Prelude.M rbt B) : M B := zoom alloced_rbt set_alloced m.

Definition spin_lock : M unit :=
  s <- get ;; if vm_lock s then hang else
  put (Vm (free_root s) (alloced_root s) (vnodes s) (vps s) true (vm_mm s)).
Definition spin_unlock : M unit :=
  modify (λ s, Vm (free_root s) (alloced_root s) (vnodes s) (vps s) false (vm_mm s)).

Definition vp_of (p : Z) : M vpage := s <- get ;; deref (vps s !! p).
Definition set_vp (p : Z) (v : vpage) : M unit :=
  modify (λ s, Vm (free_root s) (alloced_root s) (vnodes s) (<[p := v]> (vps s)) (vm_lock s) (vm_mm s)).

Definition alloc_vp : M (Z + Z) :=
  s <- get ;;
  match mm_alloc (vm_mm s) with
  | (inl err, a) =>
      put (Vm (free_root s) (alloced_root s) (vnodes s) (vps s) (vm_lock s) a) ;;; ret (inl err)
  | (inr p, a) =>
      put (Vm (free_root s) (alloced_root s) (<[p := RbtNode RED junk junk junk]> (vnodes s))
              (<[p := VPage junk junk junk junk_type junk]> (vps s)) (vm_lock s) a) ;;;
      ret (inr p)
  end.

Definition vpage_new (addr size : Z) : M (Z + Z) :=
  p <- alloc_vp ;;
  match p with
  | inl err => ret (inl err)
  | inr p =>
      v <- vp_of p ;;
      set_vp p (VPage addr size (mx_size v) (vtype v) (map_page v)) ;;;
      ret (inr p)
  end.

(** [update], run by the augmenting walks of the free tree. *)
Definition update (node : Z) : M unit :=
  vpage <- vp_of node ;;
  l <- on_free (get_l node) ;;
  mx <- (if l =? NULL then ret 0 else v <- vp_of l ;; ret (Z.max 0 (mx_size v))) ;;
  r <- on_free (get_r node) ;;
  mx <- (if r =? NULL then ret mx else v <- vp_of r ;; ret (Z.max mx (mx_size v))) ;;
  set_vp node (VPage (vaddr vpage) (vsize vpage) (Z.max mx (vsize vpage)) (vtype vpage) (map_page vpage)).

Definition addr_of (s : vm A) (p : Z) : Z := default 0 (vaddr <$> vps s !! p).

(** [rbt_insert] on either tree: the error code. *)
Definition rbt_insert (on_tree : ∀ B, Prelude.M rbt B → M B) (vp : Z) : M Z :=
  s <- get ;;
  b <- on_tree _ (tree_insert (key_cmp (addr_of s) (addr_of s vp)) vp) ;;
  ret (if b : bool then E_OK else E_EXIST).

Definition free_vp (vp : Z) : M Z :=
  s <- get ;; let '(e, a) := mm_free vp (vm_mm s) in
  put (Vm (free_root s) (alloced_root s) (vnodes s) (vps s) (vm_lock s) a) ;;; ret e.

Definition vm_delete_free (vp : Z) : M Z :=
  deepest <- on_free (rbt_delete_update_begin vp) ;;
  on_free (rbt_delete vp) ;;;
  rbt_delete_update_end (@on_free) update deepest ;;;
  free_vp vp.

(** The two loops of [vm_merge]: absorb the ranges that start where [now] ends, then
    those that end where it starts. *)
Definition merge_next_body (now : Z) (u : unit) : M (unit + bool) :=
  tmp <- on_free (rbt_next now) ;;
  if tmp =? NULL then ret (inr false) else
  nowvp <- vp_of now ;; tmpvp <- vp_of tmp ;;
  if negb (add32 (vaddr nowvp) (vsize nowvp) =? vaddr tmpvp) then ret (inr true) else
  set_vp now (VPage (vaddr nowvp) (add32 (vsize nowvp) (vsize tmpvp)) (mx_size nowvp)
                    (vtype nowvp) (map_page nowvp)) ;;;
  vm_delete_free tmp ;;;
  rbt_update (@on_free) update now ;;;
  ret (inl tt).

Definition merge_prev_body (now : Z) (u : unit) : M (unit + bool) :=
  tmp <- on_free (rbt_prev now) ;;
  if tmp =? NULL then ret (inr false) else
  nowvp <- vp_of now ;; tmpvp <- vp_of tmp ;;
  if negb (add32 (vaddr tmpvp) (vsize tmpvp) =? vaddr nowvp) then ret (inr true) else
  set_vp now (VPage (vaddr tmpvp) (add32 (vsize nowvp) (vsize tmpvp)) (mx_size nowvp)
                    (vtype nowvp) (map_page nowvp)) ;;;
  vm_delete_free tmp ;;;
  rbt_update (@on_free) update now ;;;
  ret (inl tt).

(** The first loop leaves the function ([return E_OK]) when it meets a gap. *)
Definition vm_merge (now : Z) : M Z :=
  fuel <- on_free heap_fuel ;;
  done <- loop fuel (merge_next_body now) tt ;;
  if done : bool then ret E_OK else
  loop fuel (merge_prev_body now) tt ;;;
  ret E_OK.

Definition vm_insert_free (vp : Z) : M Z :=
  err <- rbt_insert (@on_free) vp ;;
  if negb (err =? E_OK) then ret err else
  rbt_insert_update (@on_free) update vp ;;;
  vm_merge vp.

Definition vm_insert_alloced (vp : Z) : M Z := rbt_insert (@on_alloced) vp.

Definition search_addr_body (addr : Z) (n : Z) : M (Z + option Z) :=
  if n =? NULL then ret (inr None) else
  v <- vp_of n ;;
  if addr <? vaddr v then l <- on_alloced (get_l n) ;; ret (inl l)
  else if add32 (vaddr v) (vsize v) <=? addr then r <- on_alloced (get_r n) ;; ret (inl r)
  else ret (inr (Some n)).

Definition vm_search_addr (addr : Z) : M (Z * option Z) :=
  spin_lock ;;;
  n <- on_alloced get_root ;;
  fuel <- on_alloced heap_fuel ;;
  r <- loop fuel (search_addr_body addr) n ;;
  spin_unlock ;;;
  ret (match r with Some p => (E_OK, Some p) | None => (E_NOTFOUND, None) end).

(** A child whose subtree may hold a tighter fit. *)
Definition better (size : Z) (c : Z) (best : Z * Z) : M (Z * Z) :=
  let '(mx, _n) := best in
  if c =? NULL then ret best else
  v <- vp_of c ;;
  ret (if (size <=? mx_size v) && (mx_size v <? mx) then (mx_size v, c) else best).

Definition search_size_body (size : Z) (n : Z) : M (Z + option Z) :=
  if n =? NULL then ret (inr None) else
  l <- on_free (get_l n) ;;
  best <- better size l (u32 (-1), NULL) ;;
  r <- on_free (get_r n) ;;
  best <- better size r best ;;
  v <- vp_of n ;;
  ret (if (size <=? vsize v) && (vsize v <? fst best) then inr (Some n) else inl (snd best)).

Definition rbt_search_size (size : Z) : M (option Z) :=
  n <- on_free get_root ;;
  fuel <- on_free heap_fuel ;;
  loop fuel (search_size_body size) n.

Definition vm_insert (addr size : Z) : M Z :=
  assert_ ((addr mod PAGE_SIZE =? 0) && (size mod PAGE_SIZE =? 0)) ;;;
  spin_lock ;;;
  vp <- vpage_new addr size ;;
  err <- match vp with inl err => ret err | inr vp => vm_insert_free vp end ;;
  spin_unlock ;;;
  ret err.

Definition vm_alloc (size : Z) : M (Z * option Z) :=
  spin_lock ;;;
  let size := ROUND_UP size PAGE_SIZE in
  res <- rbt_search_size size ;;
  match res with
  | None => spin_unlock ;;; ret (E_NOMEM, None)
  | Some res =>
      rv <- vp_of res ;;
      vp <- vpage_new (vaddr rv) size ;;
      match vp with
      | inl err => spin_unlock ;;; ret (err, None)
      | inr vp =>
          rv <- vp_of res ;;
          (if vsize rv =? size then vm_delete_free res ;;; ret tt
           else
             set_vp res (VPage (add32 (vaddr rv) size) (sub32 (vsize rv) size) (mx_size rv)
                               (vtype rv) (map_page rv)) ;;;
             rbt_update (@on_free) update res) ;;;
          vm_insert_alloced vp ;;;
          spin_unlock ;;;
          ret (E_OK, Some vp)
      end
  end.

Definition vm_free (vp : Z) : M Z :=
  spin_lock ;;;
  on_alloced (rbt_delete vp) ;;;
  err <- vm_insert_free vp ;;
  spin_unlock ;;;
  ret err.

(** [_vm_slice]: the two parts, or the error code. *)
Definition _vm_slice (vpo bound : Z) : M (Z + Z * Z) :=
  v <- vp_of vpo ;;
  assert_ ((vaddr v <? bound) && (bound <? sub32 (add32 (vaddr v) (vsize v)) 1) &&
           (bound mod PAGE_SIZE =? 0)) ;;;
  on_alloced (rbt_delete vpo) ;;;
  r <- vpage_new bound (sub32 (add32 (vaddr v) (vsize v)) bound) ;;
  match r with
  | inl err => ret (inl err)
  | inr vpr =>
      v <- vp_of vpo ;;
      set_vp vpo (VPage (vaddr v) (sub32 bound (vaddr v)) (mx_size v) (vtype v) (map_page v)) ;;;
      vr <- vp_of vpr ;;
      set_vp vpr (VPage (vaddr vr) (vsize vr) (mx_size vr) (vtype v) (map_page vr)) ;;;
      err <- vm_insert_alloced vpo ;; assert_ (err =? E_OK) ;;;
      err <- vm_insert_alloced vpr ;; assert_ (err =? E_OK) ;;;
      ret (inr (vpo, vpr))
  end.

Definition vm_slice (vpage addr size : Z) : M (Z * option Z) :=
  v <- vp_of vpage ;;
  assert_ (bool_decide (vtype v = UM_NOPM)) ;;;
  spin_lock ;;;
  assert_ ((addr mod PAGE_SIZE =? 0) && (size mod PAGE_SIZE =? 0)) ;;;
  assert_ ((vaddr v <=? addr) && (add32 addr size <=? add32 (vaddr v) (vsize v))) ;;;
  left <- (if vaddr v <? addr then
             r <- _vm_slice vpage addr ;;
             ret (match r with inl err => inl err | inr lr => inr (snd lr) end)
           else ret (inr vpage)) ;;
  match left with
  | inl err => spin_unlock ;;; ret (err, None)
  | inr vpage =>
      v <- vp_of vpage ;;
      right <- (if add32 addr size <? add32 (vaddr v) (vsize v) then
                  r <- _vm_slice vpage (add32 addr size) ;;
                  ret (match r with inl err => inl err | inr lr => inr (fst lr) end)
                else ret (inr vpage)) ;;
      match right with
      | inl err => spin_unlock ;;; ret (err, None)
      | inr vpage =>
          v <- vp_of vpage ;;
          assert_ ((vaddr v =? addr) && (vsize v =? size)) ;;;
          spin_unlock ;;;
          ret (E_OK, Some vpage)
      end
  end.

Definition vm_init : M Z :=
  spin_unlock ;;; on_free rbt_init ;;; on_alloced rbt_init ;;; ret E_OK.
End code.
