(* ===== verification/Vslots.v ===== *)
(** * The slots of kernel/memory/memory.c are the structures of Vm

    What Vm asks for its [struct vpage_t] ([MmOps]) is what [kvm_slot_alloc] and
    [kvm_slot_free] get from the slot allocator (Slot): the free list with its invariant,
    and the slots handed out. *)
From S2P Require Import Prelude RbtModel DList Slot Vm.

(** The free slots are in the list once, the slots handed out are not; slots are nodes
    of the heap and not NULL. *)
Definition pool_ok (h : lheap) (alct : slot_alct) (live : gset Z) : Prop :=
  ∃ free, dlist h (free_slot_head alct) free ∧ (∀ x, x ∈ free → (x ∉ live) ∧ x ≠ NULL) ∧
    ∀ x, x ∈ live → is_Some (h !! x) ∧ x ≠ NULL ∧ x ≠ free_slot_head alct.

Record slot_pool := SlotPool {
  sp_heap : lheap; sp_alct : slot_alct; sp_live : gset Z; sp_ok : pool_ok sp_heap sp_alct sp_live }.

Definition kvm_slot_alloc (alct : slot_alct) : M lheap (Z * option Z) := slot_alloc alct.
Definition kvm_slot_free (alct : slot_alct) (addr : Z) : M lheap Z := slot_free alct addr ;;; ret 0.

Lemma kvm_slot_alloc_spec h alct live : pool_ok h alct live →
  wp (kvm_slot_alloc alct) (λ r h', match snd r with
    | Some x => fst r = E_OK ∧ x ≠ NULL ∧ (x ∉ live) ∧ pool_ok h' alct ({[x]} ∪ live)
    | None => fst r = E_NOSLOT ∧ h' = h
    end) h.
Proof.
  intros (free & Hd & Hf & Hl). unfold kvm_slot_alloc, slot_alloc. apply wp_bind.
  eapply wp_mono; [by apply list_isempty_spec|]. intros b h1 [-> ->]. destruct free as [|x free]; [by apply wp_ret|].
  cbn [bool_decide]. pose proof Hd as [_ Hnd]. apply NoDup_cons in Hnd as [Hhd Hnd]. apply NoDup_cons in Hnd as [Hx _].
  destruct (dlist_around _ _ [] _ _ Hd) as [_ Hl2].
  assert (is_Some (h !! x)) as Hsx by (destruct Hl2; eauto with lanthorn).
  destruct (Hf x ltac:(left)) as [Hxl Hx0].
  apply wp_bind. eapply wp_mono; [by apply list_pop_front_spec|]. intros a h' (-> & Hd' & Hfr). apply wp_ret. cbn [fst snd].
  rewrite not_elem_of_cons in Hhd. destruct Hhd as [Hhx Hhf].
  split_and!; [done|done|done|]. exists free. split; [done|]. split.
  - intros y Hy. destruct (Hf y ltac:(by right)) as [Hyl Hy0]. split; [|done]. rewrite elem_of_union, elem_of_singleton.
    intros [->|?]; done.
  - intros y [->%elem_of_singleton|Hy]%elem_of_union.
    + split_and!; [|done|done]. rewrite Hfr; [done|]. rewrite not_elem_of_cons. done.
    + destruct (Hl y Hy) as (Hs & Hy0 & Hyh). split_and!; [|done|done]. rewrite Hfr; [done|].
      rewrite not_elem_of_cons. split; [done|]. intros Hin. by destruct (Hf y ltac:(by right)).
Qed.

Lemma kvm_slot_free_spec h alct live x : pool_ok h alct live → x ∈ live →
  wp (kvm_slot_free alct x) (λ e h', e = E_OK ∧ pool_ok h' alct (live ∖ {[x]})) h.
Proof.
  intros (free & Hd & Hf & Hl) Hx. destruct (Hl x Hx) as (Hs & Hx0 & Hxh).
  assert (x ∉ free_slot_head alct :: free) as Hn.
  { rewrite not_elem_of_cons. split; [done|]. intros Hin. by destruct (Hf x Hin). }
  unfold kvm_slot_free, slot_free. apply wp_bind. eapply wp_mono; [by apply list_push_back_spec|].
  intros _ h' [Hd' Hfr]. apply wp_ret. split; [done|]. exists (free ++ [x]). split; [done|]. split.
  - intros y [Hy| ->%list_elem_of_singleton]%elem_of_app; [|split; [|done]; rewrite elem_of_difference, elem_of_singleton; tauto].
    destruct (Hf y Hy) as [Hyl Hy0]. split; [|done]. rewrite elem_of_difference. tauto.
  - intros y [Hy Hne%not_elem_of_singleton]%elem_of_difference. destruct (Hl y Hy) as (Hsy & Hy0 & Hyh). split_and!; [|done|done].
    rewrite Hfr; [done|]. rewrite !not_elem_of_cons. split_and!; [done|done|]. intros Hin. by destruct (Hf y Hin).
Qed.

(** A slot that is not in use is not given back. *)
Definition pool_alloc (a : slot_pool) : (Z + Z) * slot_pool :=
  let '(exist _ r H) := run_proved (kvm_slot_alloc_spec (sp_heap a) (sp_alct a) (sp_live a) (sp_ok a)) in
  match r as r return match snd (fst r) with
      | Some x => fst (fst r) = E_OK ∧ x ≠ NULL ∧ (x ∉ sp_live a) ∧ pool_ok (snd r) (sp_alct a) ({[x]} ∪ sp_live a)
      | None => fst (fst r) = E_NOSLOT ∧ snd r = sp_heap a
      end → (Z + Z) * slot_pool with
  | ((_, Some x), h') => λ H, (inr x, SlotPool h' (sp_alct a) ({[x]} ∪ sp_live a) (proj2 (proj2 (proj2 H))))
  | ((err, None), h') => λ _, (inl err, a)
  end H.
Definition pool_free (x : Z) (a : slot_pool) : Z * slot_pool :=
  match decide (x ∈ sp_live a) with
  | right _ => (E_FAULT, a)
  | left Hx =>
      let '(exist _ r H) := run_proved (kvm_slot_free_spec (sp_heap a) (sp_alct a) (sp_live a) x (sp_ok a) Hx) in
      (fst r, SlotPool (snd r) (sp_alct a) (sp_live a ∖ {[x]}) (proj2 H))
  end.

#[export] Instance slot_pool_ops : MmOps slot_pool := { mm_alloc := pool_alloc; mm_free := pool_free; mm_live := sp_live }.
#[export] Instance slot_pool_laws : MmOpsLaws slot_pool.
Proof.
  split; cbn [mm_alloc mm_free mm_live slot_pool_ops].
  - intros a x a'. unfold pool_alloc. destruct (run_proved _) as [[[err [y|]] h'] H]; [|done]. intros He. simplify_eq.
    cbn [fst snd sp_live] in *. by destruct H as (_ & ? & ? & _).
  - intros a e a'. unfold pool_alloc. destruct (run_proved _) as [[[err [y|]] h'] H]; [done|]. intros He. simplify_eq.
    cbn [fst snd] in *. by destruct H as [-> _].
  - intros x a e a'. unfold pool_free. destruct (decide _); [|intros He; simplify_eq; set_solver].
    destruct (run_proved _) as [r H]. intros He. by simplify_eq.
Qed.

(** ** What [memory_init] does with the slots *)
Definition CONFIG_NR_KVMM_BUDDY_SLOT_PG : Z := 128.
(** [sizeof(struct vpage_t)] *)
Definition SZ_VPAGE : Z := 48.
Definition SZ_KVM_SLOT : Z := CONFIG_NR_KVMM_BUDDY_SLOT_PG * 4096.

Definition slots_setup (head kvm_slot : Z) : M lheap slot_alct :=
  alct <- slot_init head SZ_VPAGE ;;
  slot_insert alct kvm_slot SZ_KVM_SLOT ;;; ret alct.

Definition kvm_slots (kvm_slot : Z) : list Z := slots kvm_slot SZ_VPAGE (Z.to_nat (SZ_KVM_SLOT / SZ_VPAGE)).

(** The list head and the array are memory of the program. *)
Record slots_blank (head kvm_slot : Z) (h : lheap) : Prop := {
  sz_head : is_Some (h !! head) ∧ (head ∉ kvm_slots kvm_slot);
  sz_range : 0 < kvm_slot ∧ kvm_slot + 2 * SZ_KVM_SLOT < W32;
  sz_mem : ∀ x, x ∈ kvm_slots kvm_slot → is_Some (h !! x);
}.
(** A slot is free. *)
Definition has_slot (h : lheap) (alct : slot_alct) : Prop := ∃ x l, dlist h (free_slot_head alct) (x :: l).

Lemma slots_setup_spec head kvm_slot h : slots_blank head kvm_slot h →
  wp (slots_setup head kvm_slot) (λ alct h', pool_ok h' alct ∅ ∧ has_slot h' alct) h.
Proof.
  intros [[Hh Hn] [Hp Hw] Hm]. assert (W32 = 4294967296 ∧ SZ_KVM_SLOT = 524288) as [E1 E2] by done.
  unfold slots_setup, slot_init. apply wp_bind, wp_bind. eapply wp_mono; [by apply list_init_spec|].
  intros [] h1 [Hd Hf]. apply wp_ret. change (SZ_VPAGE <? SZ_LIST_NODE) with false. cbv iota.
  assert (∀ x, x ∈ kvm_slots kvm_slot → x ≠ head) as Hne by (intros x Hx ->; done).
  apply wp_bind. eapply wp_mono.
  { apply (slot_insert_spec h1 (SlotAlct SZ_VPAGE head) []); cbn [slot_size free_slot_head]; try done; try (unfold SZ_VPAGE; lia).
    intros x Hx. change (x ∈ kvm_slots kvm_slot) in Hx. rewrite Hf by (rewrite list_elem_of_singleton; by apply Hne).
    split; [by apply Hm|]. rewrite list_elem_of_singleton. by apply Hne. }
  cbn [slot_size free_slot_head app]. intros [] h2 [Hd2 Hf2]. fold (kvm_slots kvm_slot) in Hd2. apply wp_ret. split.
  - exists (kvm_slots kvm_slot). split; [done|]. split; [|by intros x ?%elem_of_empty].
    intros x Hx. split; [by intros ?%elem_of_empty|]. apply elem_of_slots in Hx as (i & _ & ->). unfold NULL, SZ_VPAGE. lia.
  - exists kvm_slot, (tail (kvm_slots kvm_slot)). cbn [free_slot_head].
    assert (kvm_slots kvm_slot = kvm_slot :: tail (kvm_slots kvm_slot)) as <-; [|done].
    unfold kvm_slots, slots. change (Z.to_nat (SZ_KVM_SLOT / SZ_VPAGE)) with (S (Z.to_nat (SZ_KVM_SLOT / SZ_VPAGE - 1))).
    cbn [seq fmap list_fmap tail]. f_equal. lia.
Qed.

Definition pool_boot head kvm_slot h (H : slots_blank head kvm_slot h) : slot_pool :=
  let r := run_proved (slots_setup_spec head kvm_slot h H) in
  SlotPool (snd (proj1_sig r)) (fst (proj1_sig r)) ∅ (proj1 (proj2_sig r)).

Lemma pool_boot_spec head kvm_slot h H : let a := pool_boot head kvm_slot h H in
  slots_setup head kvm_slot h = Ret (sp_alct a) (sp_heap a) ∧ sp_live a = ∅ ∧ ∃ x a', mm_alloc a = (inr x, a').
Proof.
  split; [apply (run_proved_run (slots_setup_spec head kvm_slot h H))|]. split; [done|].
  pose proof (proj2 (proj2_sig (run_proved (slots_setup_spec head kvm_slot h H)))) as Hs.
  cbn [mm_alloc slot_pool_ops]. set (a := pool_boot head kvm_slot h H).
  assert (has_slot (sp_heap a) (sp_alct a)) as (x & l & Hd) by exact Hs. clearbody a. clear Hs.
  unfold pool_alloc. pose proof (run_proved_run (kvm_slot_alloc_spec (sp_heap a) (sp_alct a) (sp_live a) (sp_ok a))) as Hrun.
  destruct (run_proved _) as [[[err [y|]] h'] Hq]; [by eexists _, _|]. exfalso. cbn [proj1_sig fst snd] in Hrun.
  unfold kvm_slot_alloc, slot_alloc in Hrun. pose proof (list_isempty_spec _ _ _ Hd) as He. unfold wp in He.
  unfold bind at 1 in Hrun. destruct (list_isempty _ _) as [b h1| | |]; [|done..]. destruct He as [-> ->].
  rewrite bool_decide_false in Hrun by done. unfold bind in Hrun.
  destruct (list_pop_front _ _); unfold ret in Hrun; by simplify_eq.
Qed.
