(* ===== verification/VmSpec.v ===== *)
(** * Virtual address ranges: the specification of kernel/memory/vm.c

    The two trees as two sorted lists of ranges that never overlap; searching,
    allocating, slicing and freeing act on the lists. *)
From S2P Require Import Prelude Machine RbtModel RbtTree RbtInsert RbtDelete RbtIter RbtSearch RbtProps.
From S2P Require Import RbtClient Vm.

(** ** Ranges *)
Definition rng_ok (r : Z * Z) : Prop :=
  0 ≤ fst r ∧ 0 < snd r ∧ fst r + snd r < W32 ∧ fst r mod 4096 = 0 ∧ snd r mod 4096 = 0.
Definition rng_disj (r q : Z * Z) : Prop := fst r + snd r ≤ fst q ∨ fst q + snd q ≤ fst r.

(** Every range is well-formed and no two overlap. *)
Definition geom (l : list (Z * Z)) : Prop := Forall rng_ok l ∧ ForallOrdPairs rng_disj l.

Lemma rng_disj_sym r q : rng_disj r q → rng_disj q r.
Proof. unfold rng_disj. naive_solver. Qed.

Lemma ordpairs_perm (l l' : list (Z * Z)) :
  l ≡ₚ l' → ForallOrdPairs rng_disj l → ForallOrdPairs rng_disj l'.
Proof.
  induction 1 as [|x l l' Hp IH|x y l|]; intros Hf; auto.
  - inversion Hf as [|? ? H1 H2]; subst. constructor; [by rewrite <- Hp|auto].
  - inversion Hf as [|? ? H1 H2]; subst. inversion H2 as [|? ? H3 H4]; subst.
    inversion H1 as [|? ? H5 H6]; subst.
    constructor; [constructor; [by apply rng_disj_sym|done]|by constructor].
Qed.

Lemma geom_perm l l' : l ≡ₚ l' → geom l → geom l'.
Proof. intros Hp [H1 H2]. split; [by rewrite <- Hp|by eapply ordpairs_perm]. Qed.

Lemma geom_cons r l : geom (r :: l) ↔ rng_ok r ∧ Forall (rng_disj r) l ∧ geom l.
Proof.
  unfold geom. rewrite Forall_cons. split.
  - intros [[H1 H2] H3]. by inversion H3.
  - intros (H1 & H2 & H3 & H4). split; [done|by constructor].
Qed.

(** Cutting a range in two. *)
Lemma geom_split a m n l :
  geom ((a, m) :: l) → 0 < n < m → n mod 4096 = 0 → geom ((a, n) :: (a + n, m - n) :: l).
Proof.
  rewrite !geom_cons. intros ((H1 & H2 & H3 & H4 & H5) & H6 & H7) Hn Hn4. simpl in *.
  assert (Ha : (a + n) mod 4096 = 0) by (by rewrite Z.add_mod, H4, Hn4).
  assert (Hs : (m - n) mod 4096 = 0) by (by rewrite Zminus_mod, H5, Hn4).
  unfold rng_ok, rng_disj in *. simpl. split_and!; try lia; try done.
  - constructor; [simpl; lia|]. eapply Forall_impl; [exact H6|]. intros [b k]. simpl. lia.
  - eapply Forall_impl; [exact H6|]. intros [b k]. simpl. lia.
Qed.

Section spec.
Context {A : Type} `{MmOps A}.
Context (junk : Z) (junk_type : vp_type).
Implicit Types s : vm A.

Definition size_of s (p : Z) : Z := default 0 (vsize <$> vps s !! p).
Definition rng s (p : Z) : Z * Z := (addr_of s p, size_of s p).

Record vm_okb (b : bool) (tf ta : tree) s : Prop := {
  vo_free : is_rbt tf (free_rbt s);
  vo_al : is_rbt ta (alloced_rbt s);
  vo_disj : ∀ p, p ∈ elems tf → p ∉ elems ta;
  vo_vps : ∀ p, p ∈ elems tf ++ elems ta → is_Some (vps s !! p);
  vo_live : ∀ p, p ∈ elems tf ++ elems ta → p ∈ mm_live (vm_mm s);
  vo_sf : b = true → key_sorted (addr_of s) (elems tf);
  vo_sa : key_sorted (addr_of s) (elems ta);
}.
Arguments vo_free {b}. Arguments vo_al {b}. Arguments vo_disj {b}. Arguments vo_vps {b}.
Arguments vo_live {b}. Arguments vo_sf {b}. Arguments vo_sa {b}.
(** With the free ranges in address order; [vm_merge] breaks the order for a moment. *)
Abbreviation vm_ok := (vm_okb true).

Lemma set_free_id s : set_free (free_rbt s) s = s.
Proof. by destruct s. Qed.
Lemma set_alloced_id s : set_alloced (alloced_rbt s) s = s.
Proof. by destruct s. Qed.

Lemma vp_get {B} s p v (k : vpage → M (vm A) B) Q :
  vps s !! p = Some v → wp (k v) Q s → wp (x <- vp_of p ;; k x) Q s.
Proof. intros Hp Hk. unfold vp_of, wp, bind, get, deref. by rewrite Hp. Qed.

Lemma vp_some {b} tf ta s p :
  vm_okb b tf ta s → p ∈ elems tf ++ elems ta →
  ∃ v, vps s !! p = Some v ∧ addr_of s p = vaddr v ∧ size_of s p = vsize v.
Proof.
  intros Hok Hp. destruct (vo_vps _ _ _ Hok p Hp) as [v Hv]. exists v. unfold addr_of, size_of.
  by rewrite Hv.
Qed.

(** ** Looking an address up *)
Lemma free_field {B} {b} tf ta s f g p (k : Z → M (vm A) B) Q :
  vm_okb b tf ta s → p ∈ elems tf → f p = (x <- rd p ;; ret (g x)) →
  (∀ n, vnodes s !! p = Some n → wp (k (g n)) Q s) → wp (x <- on_free (f p) ;; k x) Q s.
Proof.
  intros Hok Hp Hf Hk.
  destruct (rep_lookup _ _ _ _ (R_rep _ _ _ _ (proj1 (vo_free _ _ _ Hok))) Hp) as [n Hn].
  eapply (zoom_field _ _ set_free_id); [exact Hf|exact Hn|]. by apply Hk.
Qed.

Lemma search_addr_loop {b} tf ta s addr fuel k u :
  vm_okb b tf ta s → geom (rng s <$> elems ta) →
  ta = plug k u → (length (elems u) < fuel)%nat →
  (∀ p, p ∈ elems ta → p ∉ elems u → ¬ (addr_of s p ≤ addr < addr_of s p + size_of s p)) →
  wp (loop fuel (search_addr_body addr) (RbtTree.addr u)) (λ r s', s' = s ∧
    match r with
    | Some p => p ∈ elems ta ∧ addr_of s p ≤ addr < addr_of s p + size_of s p
    | None => ∀ p, p ∈ elems ta → ¬ (addr_of s p ≤ addr < addr_of s p + size_of s p)
    end) s.
Proof.
  intros Hok Hg. revert k u. induction fuel as [|fuel IH]; intros k u Hta Hf Hout; [lia|].
  destruct u as [|c l a r]; simpl loop; unfold search_addr_body at 1; simpl RbtTree.addr.
  - rewrite Z.eqb_refl. apply wp_bind, wp_ret, wp_ret. split; [done|]. intros p Hp.
    apply Hout; [done|]. apply not_elem_of_nil.
  - pose proof (proj1 (vo_al _ _ _ Hok)) as HR. rewrite Hta in HR.
    destruct (R_notin _ _ _ _ _ a HR) as [_ Hn]; [simpl; set_solver|]. rewrite (eqb_ne _ _ Hn).
    assert (Hin : a ∈ elems ta) by (rewrite Hta, elems_plug; simpl; set_solver).
    destruct (vp_some _ _ _ a Hok) as (v & Hv & Ha & Hs); [set_solver|].
    assert (Hrng : rng_ok (addr_of s a, size_of s a)).
    { destruct Hg as [Hg _]. rewrite Forall_fmap, Forall_forall in Hg. by apply (Hg a). }
    destruct Hrng as (G1 & G2 & G3 & _). simpl in G1, G2, G3.
    apply wp_bind. eapply vp_get; [exact Hv|].
    assert (Hadd : add32 (vaddr v) (vsize v) = vaddr v + vsize v).
    { unfold add32. apply u32_small. unfold is_u32. lia. }
    pose proof (vo_sa _ _ _ Hok) as Hsrt. rewrite Hta, elems_plug in Hsrt. simpl in Hsrt.
    assert (Helems : ∀ p, p ∈ elems ta ↔ p ∈ kl k ++ kr k ∨ p = a ∨ p ∈ elems l ∨ p ∈ elems r)
      by (intros p; rewrite Hta, elems_plug; simpl; set_solver).
    apply key_sorted_app in Hsrt as (_ & Hsrt & _). rewrite <- app_assoc in Hsrt. simpl in Hsrt.
    apply key_sorted_app in Hsrt as (_ & Hsrt & Hlt). apply key_sorted_cons in Hsrt as [Hgt _].
    pose proof (R_focus _ _ _ _ _ _ _ _ HR) as Hfoc.
    destruct (Z.ltb_spec addr (vaddr v)); [|destruct (Z.leb_spec (add32 (vaddr v) (vsize v)) addr)].
    + eapply (zoom_field _ _ set_alloced_id); [done|exact Hfoc|]. apply wp_ret. simpl.
      apply (IH (FL c a r :: k) l); [by rewrite Hta|simpl in Hf; rewrite length_app in Hf; simpl in Hf; lia|].
      intros p Hp Hpl. destruct (decide (p ∈ elems (T c l a r))) as [Hpt|Hpt]; [|by apply Hout].
      simpl in Hpt. assert (Hpar : p = a ∨ p ∈ elems r) by (clear -Hpt Hpl; set_solver).
      destruct Hpar as [->|Hpr]; [lia|]. specialize (Hgt p ltac:(clear -Hpr; set_solver)). lia.
    + eapply (zoom_field _ _ set_alloced_id); [done|exact Hfoc|]. apply wp_ret. simpl.
      apply (IH (FR c l a :: k) r); [by rewrite Hta|simpl in Hf; rewrite length_app in Hf; simpl in Hf; lia|].
      intros p Hp Hpr. destruct (decide (p ∈ elems (T c l a r))) as [Hpt|Hpt]; [|by apply Hout].
      simpl in Hpt. assert (Hpal : p = a ∨ p ∈ elems l) by (clear -Hpt Hpr; set_solver).
      destruct Hpal as [->|Hpl]; [lia|].
      specialize (Hlt p a Hpl ltac:(left)).
      (* ranges do not overlap, so p ends before a starts *)
      assert (Hne : p ≠ a) by (intros ->; lia).
      assert (Hd : rng_disj (rng s p) (rng s a)).
      { destruct (list_elem_of_split _ _ Hp) as (x1 & x2 & He).
        assert (Ha2 : a ∈ x1 ++ x2) by (rewrite He in Hin; clear -Hin Hne; set_solver).
        assert (Hperm : elems ta ≡ₚ p :: x1 ++ x2) by (rewrite He; symmetry; apply Permutation_middle).
        apply (geom_perm _ (rng s <$> p :: x1 ++ x2)) in Hg; [|by rewrite Hperm].
        rewrite fmap_cons, geom_cons in Hg. destruct Hg as (_ & Hg & _).
        rewrite Forall_fmap, Forall_forall in Hg. by apply Hg. }
      assert (Hrp : rng_ok (rng s p)).
      { destruct Hg as [Hg _]. rewrite Forall_fmap, Forall_forall in Hg. by apply (Hg p). }
      destruct Hrp as (P1 & P2 & P3 & _). unfold rng_disj, rng in *. simpl in *. lia.
    + apply wp_ret, wp_ret. split; [done|]. split; [done|]. lia.
Qed.

(** ** The augmenting walks change the largest sizes only *)
Definition vpub (v : vpage) : Z * Z * vp_type * Z := (vaddr v, vsize v, vtype v, map_page v).
Definition mx_only s0 s : Prop :=
  free_root s = free_root s0 ∧ alloced_root s = alloced_root s0 ∧ vnodes s = vnodes s0 ∧
  vm_lock s = vm_lock s0 ∧ vm_mm s = vm_mm s0 ∧ vpub <$> vps s = vpub <$> vps s0.

Lemma mx_only_obj s0 s p : mx_only s0 s → vpub <$> vps s !! p = vpub <$> vps s0 !! p.
Proof.
  intros (_ & _ & _ & _ & _ & Ho). by rewrite <- (lookup_fmap vpub (vps s)), Ho, lookup_fmap.
Qed.

Lemma mx_only_view s0 s p :
  mx_only s0 s → addr_of s p = addr_of s0 p ∧ size_of s p = size_of s0 p ∧
    (is_Some (vps s !! p) ↔ is_Some (vps s0 !! p)).
Proof.
  intros Hs. apply (mx_only_obj _ _ p) in Hs. unfold addr_of, size_of.
  destruct (vps s !! p) as [o|], (vps s0 !! p) as [o0|]; simplify_eq/=; [|by split_and!].
  unfold vpub in Hs. simplify_eq. split_and!; [congruence|congruence|].
  split; intros _; by eexists.
Qed.

Lemma mx_only_rng s0 s p : mx_only s0 s → rng s p = rng s0 p.
Proof. intros Hs. unfold rng. by destruct (mx_only_view _ _ p Hs) as (-> & -> & _). Qed.

Lemma mx_only_ok {b} tf ta s0 s : mx_only s0 s → vm_okb b tf ta s0 → vm_okb b tf ta s.
Proof.
  intros Hs [H1 H2 H3 H4 H5 H6 H7]. pose proof Hs as (Hr & Ha & Hn & _ & Hm & _).
  assert (Hk : ∀ p, addr_of s0 p = addr_of s p) by (intros p; by destruct (mx_only_view _ _ p Hs)).
  split.
  - unfold free_rbt. by rewrite Hr, Hn.
  - unfold alloced_rbt. by rewrite Ha, Hn.
  - done.
  - intros p Hp. apply (mx_only_view _ _ p Hs), H4, Hp.
  - intros p Hp. rewrite Hm. by apply H5.
  - intros Hb. by eapply key_sorted_ext; [|exact (H6 Hb)].
  - by eapply key_sorted_ext; [|exact H7].
Qed.

Lemma wp_child {B} {b} tf ta s p (k : Z → M (vm A) B) (f : vpage → Z) (d : Z) Q :
  vm_okb b tf ta s → p = NULL ∨ p ∈ elems tf → (∀ x, wp (k x) Q s) →
  wp (x <- (if p =? NULL then ret d else v <- vp_of p ;; ret (f v)) ;; k x) Q s.
Proof.
  intros Hok Hp Hk. destruct (Z.eqb_spec p NULL); apply wp_bind; [by apply wp_ret|].
  destruct (vp_some _ _ _ p Hok) as (v & Hv & _); [destruct Hp; [done|set_solver]|].
  eapply vp_get; [exact Hv|]. by apply wp_ret.
Qed.

Lemma links_free {b} tf ta s p n :
  vm_okb b tf ta s → p ∈ elems tf → vnodes s !! p = Some n →
  (n_l n = NULL ∨ n_l n ∈ elems tf) ∧ (n_r n = NULL ∨ n_r n ∈ elems tf).
Proof.
  intros Hok Hp Hn. pose proof (proj1 (vo_free _ _ _ Hok)) as HR.
  apply elem_of_plug in Hp as (k & c & l & r & ->).
  pose proof (R_focus _ _ _ _ _ _ _ _ HR) as Hn'. simpl in Hn'. rewrite Hn in Hn'. simplify_eq/=.
  rewrite elems_plug. simpl. split; [destruct l; [by left|right]|destruct r; [by left|right]];
    simpl; set_solver.
Qed.

Lemma vm_update_spec {b} tf ta s0 x s :
  vm_okb b tf ta s0 → mx_only s0 s → x ∈ elems tf → wp (update x) (λ _ s', mx_only s0 s') s.
Proof.
  intros Hok0 Hs Hx. pose proof (mx_only_ok _ _ _ _ Hs Hok0) as Hok.
  destruct (vp_some _ _ _ x Hok) as (v & Hv & _); [set_solver|].
  unfold update. eapply vp_get; [exact Hv|].
  eapply free_field; [exact Hok|exact Hx|done|]. intros n Hn.
  destruct (links_free _ _ _ _ _ Hok Hx Hn) as [Hl Hr].
  eapply wp_child; [exact Hok|exact Hl|]. intros mx1.
  eapply free_field; [exact Hok|exact Hx|done|]. intros n' Hn'. simplify_eq.
  eapply wp_child; [exact Hok|exact Hr|]. intros mx2.
  apply wp_modify. destruct Hs as (H1 & H2 & H3 & H4 & H5 & H6). split_and!; [done..|].
  simpl. rewrite fmap_insert, <- H6. apply insert_id. by rewrite lookup_fmap, Hv.
Qed.

(** What the walks of [rbt_update] and its relatives need. *)
Lemma walk_P {b} tf ta s0 :
  vm_okb b tf ta s0 →
  (∀ s, mx_only s0 s → R (vnodes s0) (elems tf) tf (free_rbt s)) ∧
  (∀ x s, mx_only s0 s → x ∈ elems tf → wp (update x) (λ _ s', mx_only s0 s') s).
Proof.
  intros Hok. split; [|by intros x s Hs Hx; eapply vm_update_spec].
  intros s (Hr & _ & Hn & _). unfold free_rbt. rewrite Hr, Hn. apply (vo_free _ _ _ Hok).
Qed.

Lemma mx_only_refl s : mx_only s s.
Proof. done. Qed.

Lemma upd_free {b} tf ta s0 a s :
  vm_okb b tf ta s0 → mx_only s0 s → a ∈ elems tf →
  wp (rbt_update (@on_free A) update a) (λ _ s', mx_only s0 s') s.
Proof.
  intros Hok Hs Ha. destruct (walk_P tf ta s0 Hok) as [HR Hu].
  by apply (rbt_update_spec free_rbt set_free set_free_id (vnodes s0) (elems tf) tf update (mx_only s0) HR Hu).
Qed.

(** ** The largest-size search *)
Lemma wp_better {B} {b} tf ta s n c best (k : Z * Z → M (vm A) B) Q :
  vm_okb b tf ta s → c = NULL ∨ c ∈ elems tf →
  (∀ best', best' = best ∨ snd best' = c → wp (k best') Q s) →
  wp (x <- better n c best ;; k x) Q s.
Proof.
  intros Hok Hc Hk. unfold better. destruct best as [mx bst].
  destruct (Z.eqb_spec c NULL); [apply wp_bind, wp_ret, Hk; by left|].
  destruct (vp_some _ _ _ c Hok) as (v & Hv & _); [destruct Hc; [done|set_solver]|].
  apply wp_bind. eapply vp_get; [exact Hv|]. apply wp_ret, Hk. case_match; [by right|by left].
Qed.

Lemma search_size_loop {b} tf ta s n fuel k u :
  vm_okb b tf ta s → tf = plug k u → (length (elems u) < fuel)%nat →
  wp (loop fuel (search_size_body n) (RbtTree.addr u)) (λ r s', s' = s ∧
    match r with Some p => p ∈ elems tf ∧ n ≤ size_of s p | None => True end) s.
Proof.
  intros Hok. revert k u. induction fuel as [|fuel IH]; intros k u Htf Hf; [lia|].
  pose proof (proj1 (vo_free _ _ _ Hok)) as HR. rewrite Htf in HR.
  destruct u as [|c l a r]; cbn [loop]; unfold search_size_body at 1; cbn [RbtTree.addr].
  - rewrite Z.eqb_refl. by apply wp_bind, wp_ret, wp_ret.
  - destruct (R_notin _ _ _ _ _ a HR) as [_ Hn]; [simpl; set_solver|]. rewrite (eqb_ne _ _ Hn).
    assert (Hin : a ∈ elems tf) by (rewrite Htf, elems_plug; simpl; set_solver).
    pose proof (R_focus _ _ _ _ _ _ _ _ HR) as Hfoc. simpl in Hfoc.
    destruct (links_free _ _ _ _ _ Hok Hin Hfoc) as [Hl Hr]. simpl in Hl, Hr.
    apply wp_bind. eapply (zoom_field _ _ set_free_id); [done|exact Hfoc|]. cbn [n_l n_r].
    eapply wp_better; [exact Hok|exact Hl|]. intros b1 Hb1.
    eapply (zoom_field _ _ set_free_id); [done|exact Hfoc|]. cbn [n_l n_r].
    eapply wp_better; [exact Hok|exact Hr|]. intros b2 Hb2.
    destruct (vp_some _ _ _ a Hok) as (v & Hv & _ & Hsz); [set_solver|].
    eapply vp_get; [exact Hv|]. apply wp_ret.
    destruct (Z.leb_spec n (vsize v)), (Z.ltb_spec (vsize v) (fst b2)); cbn [andb].
    1: { apply wp_ret. split; [done|]. split; [done|lia]. }
    all: assert (Hs : snd b2 = NULL ∨ snd b2 = RbtTree.addr l ∨ snd b2 = RbtTree.addr r)
           by (destruct Hb2 as [->|]; [destruct Hb1 as [->|]|]; auto).
    all: simpl in Hf; rewrite length_app in Hf; simpl in Hf.
    all: destruct Hs as [Hs | [Hs|Hs] ]; rewrite Hs;
      [destruct fuel; [lia|]; cbn [loop]; unfold search_size_body at 1; rewrite Z.eqb_refl;
       by apply wp_bind, wp_ret, wp_ret
      |apply (IH (FL c a r :: k) l); [by rewrite Htf|lia]
      |apply (IH (FR c l a :: k) r); [by rewrite Htf|lia] ].
Qed.

Lemma search_size_spec {b} tf ta s n :
  vm_okb b tf ta s →
  wp (rbt_search_size n) (λ r s', s' = s ∧
    match r with Some p => p ∈ elems tf ∧ n ≤ size_of s p | None => True end) s.
Proof.
  intros Hok. pose proof (proj1 (vo_free _ _ _ Hok)) as HR. unfold rbt_search_size.
  apply wp_bind, wp_zoom. apply wp_gets. rewrite set_free_id.
  apply wp_bind, wp_zoom. apply wp_gets. rewrite set_free_id.
  rewrite (R_root _ _ _ _ HR). eapply (search_size_loop tf ta s n _ []); [done|done|].
  pose proof (R_size _ _ _ _ HR). lia.
Qed.

(** ** Changes of one tree seen from the other *)
Lemma is_rbt_frame t root h h' :
  (∀ x, x ∈ elems t → h' !! x = h !! x) → is_rbt t (Rbt root h) → is_rbt t (Rbt root h').
Proof.
  intros Hx [[H1 H2 H3 H4 H5 H6] Hrb]. split; [|done]. split; try done. by eapply rep_ext.
Qed.

(** Everything but one tree is as it was. *)
Definition same_vps s0 s : Prop :=
  vm_lock s = vm_lock s0 ∧ ∀ q, rng s q = rng s0 q ∧ (is_Some (vps s0 !! q) → is_Some (vps s !! q)).

Lemma same_vps_trans s1 s2 s3 : same_vps s1 s2 → same_vps s2 s3 → same_vps s1 s3.
Proof.
  intros [H1 H2] [H3 H4]. split; [congruence|]. intros q. destruct (H2 q), (H4 q). split; [congruence|auto].
Qed.

Lemma mx_only_same s0 s : mx_only s0 s → same_vps s0 s.
Proof.
  intros Hs. split; [apply Hs|]. intros q. split; [by apply mx_only_rng|].
  intros Hq. by apply (mx_only_view _ _ q Hs).
Qed.

(** The range of [p] leaves the free list. *)
Lemma delete_free_spec `{!MmOpsLaws A} {b} tf ta s p :
  vm_okb b tf ta s → p ∈ elems tf →
  wp (vm_delete_free p) (λ _ s', ∃ tf' l1 l2, elems tf = l1 ++ p :: l2 ∧ elems tf' = l1 ++ l2 ∧
    vm_okb b tf' ta s' ∧ same_vps s s' ∧ mm_live (vm_mm s) ∖ {[p]} ⊆ mm_live (vm_mm s') ∧
    (∀ x, x ∉ elems tf → vnodes s' !! x = vnodes s !! x)) s.
Proof.
  intros Hok Hp. pose proof Hok as [[HR Hrb] Hal Hdis Hvp Hlv Hsf Hsa]. unfold vm_delete_free.
  eapply (wp_zoom_read _ _ set_free_id); [by eapply rbt_delete_update_begin_spec|].
  intros d Hd. cbn beta. apply wp_bind, wp_zoom. eapply wp_mono; [by eapply rbt_delete_spec|].
  intros ? r (tf' & l1 & l2 & HR' & Hrb' & He & He'). set (s1 := set_free r s).
  assert (Hfr : ∀ x, x ∉ elems tf → vnodes s1 !! x = vnodes s !! x)
    by (intros x Hx; by apply (R_frame _ _ _ _ HR')).
  assert (Hsub : ∀ q, q ∈ elems tf' → q ∈ elems tf) by (intros q; rewrite He, He'; clear; set_solver).
  assert (Hok1 : vm_okb b tf' ta s1).
  { split.
    - split; [|done]. unfold free_rbt. destruct r. by eapply R_weaken.
    - eapply is_rbt_frame; [|exact Hal]. intros x Hx. apply Hfr. intros Hxf. by eapply Hdis.
    - intros q Hq. apply Hdis. auto.
    - intros q Hq. apply Hvp. rewrite elem_of_app in *. naive_solver.
    - intros q Hq. apply Hlv. rewrite elem_of_app in *. naive_solver.
    - intros Hb. specialize (Hsf Hb). change (addr_of s1) with (addr_of s). rewrite He'. rewrite He in Hsf. by eapply key_sorted_delete.
    - done. }
  destruct (walk_P tf' ta s1 Hok1) as [HPR HPu].
  apply wp_bind. eapply wp_mono.
  { eapply (rbt_delete_update_end_spec free_rbt set_free set_free_id _ _ tf' update (mx_only s1) HPR HPu);
      [apply mx_only_refl|].
    destruct Hd as [->|[Hd Hne]]; [by left|right]. rewrite He in Hd. rewrite He'. clear -Hd Hne. set_solver. }
  intros ? s2 Hs2. cbn beta in *. pose proof (mx_only_ok _ _ _ _ Hs2 Hok1) as Hok2.
  unfold free_vp. apply wp_bind, wp_get. destruct (mm_free p (vm_mm s2)) as [e mm2] eqn:Hfree.
  apply mm_free_ok in Hfree. pose proof Hs2 as (_ & _ & Hn2 & _ & Hm2 & _). rewrite Hm2 in Hfree.
  apply wp_bind, wp_put, wp_ret. exists tf', l1, l2.
  assert (Hnp : p ∉ elems tf' ++ elems ta).
  { rewrite not_elem_of_app. split; [|by apply Hdis]. rewrite He'.
    pose proof (R_nodup _ _ _ _ HR) as Hnd. rewrite He in Hnd. rewrite <- Permutation_middle in Hnd.
    by apply NoDup_cons in Hnd as [? _]. }
  split_and!; [done|done| |by apply mx_only_same in Hs2|done|intros x Hx; cbn; rewrite Hn2; by apply Hfr].
  destruct Hok2 as [G1 G2 G3 G4 G5 G6 G7]. split; try done.
  intros q Hq. cbn. apply Hfree. apply elem_of_difference. split.
  - rewrite Hm2 in G5. by apply G5.
  - apply not_elem_of_singleton. by intros ->.
Qed.

(** [p] is a structure in memory that is in no tree. *)
Definition loose tf ta s p : Prop :=
  p ≠ NULL ∧ (p ∉ elems tf ++ elems ta) ∧ is_Some (vnodes s !! p) ∧ is_Some (vps s !! p) ∧
  p ∈ mm_live (vm_mm s).

Lemma insert_alloced_spec tf ta s p :
  vm_ok tf ta s → loose tf ta s p → (∀ q, q ∈ elems ta → addr_of s q ≠ addr_of s p) →
  wp (vm_insert_alloced p) (λ err s', err = E_OK ∧ ∃ ta' l1 l2, elems ta = l1 ++ l2 ∧
    elems ta' = l1 ++ p :: l2 ∧ vm_ok tf ta' s' ∧ same_vps s s') s.
Proof.
  intros Hok (Hp0 & Hpn & Hnd & Hvp & Hlv) Hkey. pose proof Hok as [Hfr [HR Hrb] Hdis Hvps Hlive Hsf Hsa].
  apply not_elem_of_app in Hpn as [Hpf Hpa].
  unfold vm_insert_alloced, rbt_insert. apply wp_bind, wp_get. apply wp_bind, wp_zoom.
  eapply wp_mono; [by eapply (client_insert (addr_of s))|].
  intros [] r; [|intros (_ & q & Hq & Hqe); by destruct (Hkey q Hq)].
  intros (_ & ta' & l1 & l2 & HR' & Hrb' & He & He' & Hs').
  apply wp_ret. split; [done|]. exists ta', l1, l2. split_and!; [done|done| |by split].
  assert (Hin : ∀ q, q ∈ elems ta' ↔ q = p ∨ q ∈ elems ta) by (intros q; rewrite He, He'; clear; set_solver).
  split.
  - eapply is_rbt_frame; [|exact Hfr]. intros x Hx. apply (R_frame _ _ _ _ HR').
    apply not_elem_of_cons. split; [by intros ->|by apply Hdis].
  - split; [|done]. unfold alloced_rbt. destruct r. by eapply R_weaken.
  - intros q Hq Hqa. apply Hin in Hqa as [->|Hqa]; [done|]. by eapply Hdis.
  - intros q Hq. rewrite elem_of_app, Hin in Hq. destruct Hq as [Hq|[->|Hq]]; [|done|];
      apply Hvps; apply elem_of_app; auto.
  - intros q Hq. rewrite elem_of_app, Hin in Hq. destruct Hq as [Hq|[->|Hq]]; [|done|];
      apply Hlive; apply elem_of_app; auto.
  - done.
  - done.
Qed.

(** A new structure for the range [(a, n)], in no tree yet. *)
Lemma vpage_new_spec `{!MmOpsLaws A} tf ta s a n :
  vm_ok tf ta s →
  wp (vpage_new junk junk_type a n) (λ r s',
    vm_ok tf ta s' ∧ vm_lock s' = vm_lock s ∧
    (∀ q, q ∈ elems tf ++ elems ta → rng s' q = rng s q ∧ vps s' !! q = vps s !! q) ∧
    match r with
    | inl err => err ≠ E_OK
    | inr p => loose tf ta s' p ∧ rng s' p = (a, n)
    end) s.
Proof.
  intros Hok. pose proof Hok as [Hfr Hal Hdis Hvps Hlive Hsf Hsa]. unfold vpage_new, alloc_vp.
  apply wp_bind, wp_bind, wp_get. destruct (mm_alloc (vm_mm s)) as [[e|p] m] eqn:Hm.
  { apply mm_alloc_err in Hm as [He Hl]. apply wp_bind, wp_put, wp_ret. apply wp_ret.
    split_and!; [|done|done|done]. split; try done. intros q Hq. cbn. rewrite Hl. by apply Hlive. }
  apply mm_alloc_ok in Hm as (Hp0 & Hpl & Hl).
  apply wp_bind, wp_put, wp_ret.
  eapply vp_get; [apply lookup_insert_eq|]. apply wp_bind, wp_modify. apply wp_ret.
  cbn [free_root alloced_root vnodes vps vm_lock vm_mm mx_size vtype map_page]. rewrite insert_insert_eq.
  assert (Hne : ∀ q, q ∈ elems tf ++ elems ta → p ≠ q).
  { intros q Hq ->. by apply Hpl, Hlive. }
  set (v := VPage a n junk junk_type junk). set (s' := Vm _ _ _ _ _ _).
  assert (Hv : ∀ q, q ∈ elems tf ++ elems ta → vps s' !! q = vps s !! q).
  { intros q Hq. cbn. by rewrite lookup_insert_ne by auto. }
  assert (Hr : ∀ q, q ∈ elems tf ++ elems ta → addr_of s' q = addr_of s q ∧ size_of s' q = size_of s q).
  { intros q Hq. unfold addr_of, size_of. by rewrite Hv. }
  assert (Hn : ∀ q, q ∈ elems tf ++ elems ta → vnodes s' !! q = vnodes s !! q).
  { intros q Hq. cbn. by rewrite lookup_insert_ne by auto. }
  split; [split|split; [done|split; [|split] ] ].
  - eapply is_rbt_frame; [|exact Hfr]. intros q Hq. apply Hn. by apply elem_of_app; left.
  - eapply is_rbt_frame; [|exact Hal]. intros q Hq. apply Hn. by apply elem_of_app; right.
  - done.
  - intros q Hq. rewrite Hv by done. by apply Hvps.
  - intros q Hq. cbn. rewrite Hl. apply elem_of_union_r, Hlive, Hq.
  - intros _. specialize (Hsf eq_refl). eapply key_sorted_ext; [|exact Hsf]. intros q Hq. symmetry. apply Hr. by apply elem_of_app; left.
  - eapply key_sorted_ext; [|exact Hsa]. intros q Hq. symmetry. apply Hr. by apply elem_of_app; right.
  - intros q Hq. split; [|by apply Hv]. unfold rng. by destruct (Hr q Hq) as [-> ->].
  - split_and!; [done| | | |].
    + intros Hq. by apply (Hne p Hq).
    + cbn. rewrite lookup_insert_eq. by eexists.
    + cbn. rewrite lookup_insert_eq. by eexists.
    + cbn. rewrite Hl. set_solver.
  - unfold rng, addr_of, size_of. cbn. by rewrite lookup_insert_eq.
Qed.

(** ** The address space as two lists of ranges *)
Definition vm_inv (F Al : list (Z * Z)) s : Prop :=
  vm_lock s = false ∧ ∃ tf ta, vm_ok tf ta s ∧ rng s <$> elems tf = F ∧ rng s <$> elems ta = Al ∧
    geom (F ++ Al).

(** [p] is the structure of the allocated range [r]. *)
Definition vm_at (F A1 : list (Z * Z)) (p : Z) (r : Z * Z) (A2 : list (Z * Z)) s : Prop :=
  vm_lock s = false ∧ ∃ tf ta l1 l2, vm_ok tf ta s ∧ elems ta = l1 ++ p :: l2 ∧
    rng s <$> elems tf = F ∧ rng s <$> l1 = A1 ∧ rng s p = r ∧ rng s <$> l2 = A2 ∧
    geom (F ++ A1 ++ r :: A2).

Lemma vm_at_inv F A1 p r A2 s : vm_at F A1 p r A2 s → vm_inv F (A1 ++ r :: A2) s.
Proof.
  intros (Hlk & tf & ta & l1 & l2 & Hok & He & HF & <- & <- & <- & Hg). split; [done|].
  exists tf, ta. split; [done|]. split; [done|]. by rewrite He, fmap_app, fmap_cons.
Qed.

Definition locked s : vm A := Vm (free_root s) (alloced_root s) (vnodes s) (vps s) true (vm_mm s).
Definition unlocked s : vm A := Vm (free_root s) (alloced_root s) (vnodes s) (vps s) false (vm_mm s).

Lemma vm_ok_lock tf ta s : vm_ok tf ta s → vm_ok tf ta (locked s) ∧ vm_ok tf ta (unlocked s).
Proof. intros [H1 H2 H3 H4 H5 H6 H7]. by split; split. Qed.

Lemma vm_wp_lock {B} s (k : unit → M (vm A) B) Q :
  vm_lock s = false → wp (k tt) Q (locked s) → wp (x <- spin_lock ;; k x) Q s.
Proof. intros Hl Hk. unfold spin_lock, wp, bind, get, put. by rewrite Hl. Qed.

Lemma fmap_same (f g : Z → Z * Z) (l : list Z) : (∀ x, x ∈ l → f x = g x) → f <$> l = g <$> l.
Proof. intros Hf. apply list_fmap_ext. intros i x Hx. apply Hf. by eapply list_elem_of_lookup_2. Qed.

(** Moving the start of the free range [p] up to [b]. *)
Lemma shrink_ok tf ta s p v b m x1 x2 :
  vm_ok tf ta s → elems tf = x1 ++ p :: x2 → vps s !! p = Some v → addr_of s p ≤ b →
  (∀ q, q ∈ x2 → b < addr_of s q) →
  let s' := Vm (free_root s) (alloced_root s) (vnodes s)
              (<[p := VPage b m (mx_size v) (vtype v) (map_page v)]> (vps s)) (vm_lock s) (vm_mm s) in
  vm_ok tf ta s' ∧ rng s' p = (b, m) ∧ ∀ q, q ≠ p → rng s' q = rng s q.
Proof.
  intros Hok He Hv Hb Hx2 s'. pose proof Hok as [H1 H2 H3 H4 H5 H6 H7].
  assert (Hp : p ∈ elems tf) by (rewrite He; clear; set_solver).
  assert (Hq : ∀ q, q ≠ p → addr_of s' q = addr_of s q ∧ size_of s' q = size_of s q).
  { intros q Hne. unfold addr_of, size_of. cbn. by rewrite lookup_insert_ne. }
  assert (Hpp : addr_of s' p = b) by (unfold addr_of; cbn; by rewrite lookup_insert_eq).
  split; [|split].
  - split; try done.
    + intros q Hqin. destruct (decide (q = p)) as [->|Hne]; cbn; [rewrite lookup_insert_eq; by eexists|].
      rewrite lookup_insert_ne by done. by apply H4.
    + intros _. specialize (H6 eq_refl). rewrite He in H6 |- *. apply key_sorted_app in H6 as (G1 & G2 & G3). apply key_sorted_cons in G2 as [G4 G5].
      pose proof (R_nodup _ _ _ _ (proj1 H1)) as Hnd. rewrite He in Hnd. rewrite <- Permutation_middle in Hnd.
      apply NoDup_cons in Hnd as [Hnd _]. rewrite not_elem_of_app in Hnd. destruct Hnd as [Hn1 Hn2].
      assert (Hk1 : ∀ q, q ∈ x1 → addr_of s q = addr_of s' q).
      { intros q Hqi. symmetry. apply Hq. by intros ->. }
      assert (Hk2 : ∀ q, q ∈ x2 → addr_of s q = addr_of s' q).
      { intros q Hqi. symmetry. apply Hq. by intros ->. }
      apply key_sorted_app. split_and!.
      * by eapply key_sorted_ext; [exact Hk1|].
      * apply key_sorted_cons. split; [|by eapply key_sorted_ext; [exact Hk2|]].
        intros y Hy. rewrite Hpp, <- Hk2 by done. by apply Hx2.
      * intros x y Hx Hy. rewrite <- Hk1 by done. apply elem_of_cons in Hy as [->|Hy].
        -- rewrite Hpp. specialize (G3 x p Hx ltac:(left)). lia.
        -- rewrite <- Hk2 by done. apply G3; [done|by right].
    + eapply key_sorted_ext; [|exact H7]. intros q Hqa. symmetry. apply Hq. intros ->. by apply (H3 p).
  - unfold rng, addr_of, size_of. cbn. by rewrite lookup_insert_eq.
  - intros q Hne. unfold rng. by destruct (Hq q Hne) as [-> ->].
Qed.

Context `{!MmOpsLaws A}.

(** The tail of [vm_alloc]: the new range goes into the allocated tree. *)
Lemma alloc_tail tf ta s p a n F Al :
  vm_ok tf ta s → loose tf ta s p → rng s p = (a, n) → rng s <$> elems tf = F →
  rng s <$> elems ta = Al → geom ((a, n) :: F ++ Al) →
  wp (vm_insert_alloced p ;;; spin_unlock ;;; ret (E_OK, Some p)) (λ r s',
    r = (E_OK, Some p) ∧ rng s' p = (a, n) ∧
    ∃ A1 A2, Al = A1 ++ A2 ∧ vm_at F A1 p (a, n) A2 s') s.
Proof.
  intros Hok Hl Hr HF HA Hg. apply wp_bind. eapply wp_mono.
  { eapply insert_alloced_spec; [exact Hok|exact Hl|]. intros q Hq Heq.
    apply geom_cons in Hg as ((G1 & G2 & _) & Hg2 & Hg3). simpl in G1, G2.
    assert (Hin : rng s q ∈ Al) by (rewrite <- HA; by apply list_elem_of_fmap_2).
    rewrite Forall_app, !Forall_forall in Hg2. destruct Hg2 as [_ Hg2]. apply Hg2 in Hin as Hd.
    destruct Hg3 as [Hg3 _]. rewrite Forall_app, !Forall_forall in Hg3. destruct Hg3 as [_ Hg3].
    apply Hg3 in Hin as (_ & P2 & _). unfold rng in *. simplify_eq. unfold rng_disj in Hd. simpl in *. lia. }
  intros err s' (-> & ta' & l1 & l2 & He & He' & Hok' & Hlk & Hsame).
  apply wp_bind, wp_modify, wp_ret. split; [done|]. change (rng (unlocked s')) with (rng s').
  assert (Hrs : ∀ q, rng s' q = rng s q) by (intros q; apply Hsame).
  fold (unlocked s').
  split; [by change (rng s' p = (a, n)); rewrite Hrs|].
  rewrite He, fmap_app in HA. exists (rng s <$> l1), (rng s <$> l2). split; [done|]. split; [done|].
  exists tf, ta', l1, l2. change (rng (unlocked s')) with (rng s').
  split; [by apply vm_ok_lock|]. split; [done|]. split; [rewrite <- HF; by apply fmap_same|].
  rewrite (fmap_same (rng s') (rng s) l1), (fmap_same (rng s') (rng s) l2), Hrs by done.
  split_and!; [done|done|done|].
  eapply geom_perm; [|exact Hg]. rewrite <- HA. solve_Permutation.
Qed.

Lemma fmap_split (f : Z → Z * Z) (l : list Z) p :
  p ∈ l → ∃ x1 x2, l = x1 ++ p :: x2 ∧ f <$> l = (f <$> x1) ++ f p :: (f <$> x2).
Proof.
  intros Hp. destruct (list_elem_of_split _ _ Hp) as (x1 & x2 & ->). exists x1, x2.
  by rewrite fmap_app, fmap_cons.
Qed.

Lemma loose_same tf tf' ta s s' res p :
  loose tf ta s p → p ≠ res → (∀ q, q ∈ elems tf' → q ∈ elems tf) → same_vps s s' →
  mm_live (vm_mm s) ∖ {[res]} ⊆ mm_live (vm_mm s') →
  (∀ x, x ∉ elems tf → vnodes s' !! x = vnodes s !! x) → loose tf' ta s' p.
Proof.
  intros (H1 & H2 & H3 & H4 & H5) Hne Hsub [_ Hv] Hlv Hn. rewrite not_elem_of_app in H2.
  split_and!; [done| | | |].
  - rewrite not_elem_of_app. naive_solver.
  - rewrite Hn; naive_solver.
  - by apply Hv.
  - apply Hlv. clear -H5 Hne. set_solver.
Qed.

Lemma vm_alloc_spec F Al s size :
  vm_inv F Al s → 0 < size → size + PAGE_SIZE ≤ W32 →
  let n := ROUND_UP size PAGE_SIZE in
  wp (vm_alloc junk junk_type size) (λ r s',
    match snd r with
    | Some p => fst r = E_OK ∧ ∃ F1 a m F2 A1 A2, F = F1 ++ (a, m) :: F2 ∧ Al = A1 ++ A2 ∧
        n ≤ m ∧ rng s' p = (a, n) ∧
        vm_at (F1 ++ (if decide (m = n) then [] else [(a + n, m - n)]) ++ F2) A1 p (a, n) A2 s'
    | None => fst r ≠ E_OK ∧ vm_inv F Al s'
    end) s.
Proof.
  intros (Hlk & tf & ta & Hok & HF & HA & Hg) Hsz Hw n. change PAGE_SIZE with 4096 in *.
  destruct (round_up_spec size 4096) as [Hn4 Hn]; [lia|lia|unfold W32 in *; lia|].
  fold n in Hn4, Hn. unfold vm_alloc. apply vm_wp_lock; [done|]. change PAGE_SIZE with 4096. fold n.
  assert (Hokl : vm_ok tf ta (locked s)) by by apply vm_ok_lock.
  apply wp_bind. eapply wp_mono; [by eapply search_size_spec|]. intros [res|] s0 [-> Hres].
  2:{ apply wp_bind, wp_modify, wp_ret. split; [done|]. split; [done|]. exists tf, ta.
      split; [by apply vm_ok_lock in Hok as [_ ?]|done]. }
  destruct Hres as [Hin Hfit].
  destruct (vp_some _ _ _ res Hokl) as (v & Hv & Hva & Hvs); [set_solver|].
  eapply vp_get; [exact Hv|]. apply wp_bind. eapply wp_mono; [by apply (vpage_new_spec tf ta)|].
  intros [err|p] s1 (Hok1 & Hlk1 & Hsame & Hr).
  { apply wp_bind, wp_modify, wp_ret. split; [done|]. split; [done|]. exists tf, ta.
    split; [by apply vm_ok_lock in Hok1 as [_ ?]|]. change (rng (unlocked s1)) with (rng s1).
    split; [rewrite <- HF|split; [rewrite <- HA|done] ]; apply fmap_same; intros q Hq;
      apply Hsame; set_solver. }
  destruct Hr as [Hloose Hrp]. destruct (Hsame res) as [Hrr Hvr]; [set_solver|].
  assert (Hpne : p ≠ res) by (intros ->; destruct Hloose as (_ & Hx & _); apply Hx; set_solver).
  destruct (fmap_split (rng s1) _ _ Hin) as (x1 & x2 & He & Hf).
  assert (HF1 : rng s1 <$> elems tf = F) by (rewrite <- HF; apply fmap_same; intros q Hq; apply Hsame; set_solver).
  assert (HA1 : rng s1 <$> elems ta = Al) by (rewrite <- HA; apply fmap_same; intros q Hq; apply Hsame; set_solver).
  assert (Hres1 : rng s1 res = (vaddr v, vsize v)).
  { rewrite Hrr. unfold rng. by rewrite Hva, Hvs. }
  set (a := vaddr v) in *. set (m := vsize v) in *. rewrite Hres1 in Hf.
  set (F1 := rng s1 <$> x1) in *. set (F2 := rng s1 <$> x2) in *.
  assert (HFe : F = F1 ++ (a, m) :: F2) by congruence.
  assert (Hgp : geom ((a, m) :: (F1 ++ F2) ++ Al)).
  { eapply geom_perm; [|exact Hg]. rewrite HFe. solve_Permutation. }
  pose proof Hgp as Hgp'. apply geom_cons in Hgp' as ((G1 & G2 & G3 & G4 & G5) & Hdj & Hgr). simpl in G1, G2, G3.
  assert (Hnm : n ≤ m) by lia.
  eapply vp_get; [rewrite Hvr; exact Hv|]. fold a m. apply wp_bind.
  destruct (Z.eqb_spec m n) as [Hmn|Hmn].
  - apply wp_bind. eapply wp_mono; [by eapply delete_free_spec|].
    intros e s2 (tf' & l1 & l2 & He1 & He2 & Hok2 & Hsv & Hlv & Hfr). apply wp_ret.
    assert (l1 = x1 ∧ l2 = x2) as [-> ->].
    { apply (app_mid_inj l1 l2 x1 x2 res); [rewrite <- He1; apply (R_nodup _ _ _ _ (proj1 (vo_free _ _ _ Hok)))|congruence]. }
    eapply wp_mono; [eapply (alloc_tail tf' ta s2 p a n (F1 ++ F2) Al); [exact Hok2| | | | |]|].
    + eapply loose_same; [exact Hloose|exact Hpne| |exact Hsv|exact Hlv|exact Hfr].
      intros q. rewrite He1, He2. clear. set_solver.
    + rewrite <- Hrp. apply Hsv.
    + rewrite He2, fmap_app. f_equal; apply fmap_same; intros q _; apply Hsv.
    + rewrite <- HA1. apply fmap_same. intros q _. apply Hsv.
    + by rewrite <- Hmn.
    + intros r s' (-> & Hrs & A1 & A2 & HAe & Hinv). split; [done|].
      exists F1, a, m, F2, A1, A2. by rewrite decide_True.
  - assert (Hadd : add32 a n = a + n) by (unfold add32; apply u32_small; unfold is_u32; lia).
    assert (Hsub : sub32 m n = m - n) by (unfold sub32; apply u32_small; unfold is_u32; lia).
    rewrite Hadd, Hsub. apply wp_bind, wp_modify.
    destruct (shrink_ok tf ta s1 res v (a + n) (m - n) x1 x2 Hok1 He) as (Hok2 & Hr2 & Hq2).
    { by rewrite Hvr. }
    { unfold rng in Hres1. simplify_eq. lia. }
    { intros q Hq. pose proof (vo_sf _ _ _ Hok1 eq_refl) as Hs. rewrite He in Hs.
      apply key_sorted_app in Hs as (_ & Hs & _). apply key_sorted_cons in Hs as [Hs _].
      specialize (Hs q Hq). assert (Hd : rng_disj (a, m) (rng s1 q)).
      { rewrite Forall_forall in Hdj. apply Hdj. unfold F2.
        rewrite !elem_of_app. left; right. by apply list_elem_of_fmap_2. }
      assert (Hqok : rng_ok (rng s1 q)).
      { destruct Hg as [Hg _]. rewrite Forall_forall in Hg. apply Hg. rewrite HFe. unfold F2.
        rewrite !elem_of_app, elem_of_cons. left; right; right. by apply list_elem_of_fmap_2. }
      destruct Hqok as (_ & P2 & _). unfold rng in *. simplify_eq. unfold rng_disj in Hd. simpl in *. lia. }
    set (s2 := Vm _ _ _ _ _ _) in *. eapply wp_mono; [by eapply upd_free; [exact Hok2|apply mx_only_refl|]|].
    intros ? s3 Hs3. cbn beta in Hs3. pose proof (mx_only_ok _ _ _ _ Hs3 Hok2) as Hok3.
    pose proof (mx_only_same _ _ Hs3) as Hsv3. pose proof Hs3 as (_ & _ & Hn3 & _ & Hm3 & _).
    assert (Hxr : ∀ x, x ∈ x1 ∨ x ∈ x2 → x ≠ res).
    { pose proof (R_nodup _ _ _ _ (proj1 (vo_free _ _ _ Hok))) as Hnd. rewrite He in Hnd.
      rewrite <- Permutation_middle in Hnd. apply NoDup_cons in Hnd as [Hnd _].
      intros x Hx ->. apply Hnd. by apply elem_of_app. }
    eapply wp_mono; [eapply (alloc_tail tf ta s3 p a n (F1 ++ (a + n, m - n) :: F2) Al); [exact Hok3| | | | |]|].
    + destruct Hloose as (L1 & L2 & L3 & L4 & L5). split_and!; [done|done|by rewrite Hn3| |by rewrite Hm3].
      apply Hsv3. cbn. by rewrite lookup_insert_ne.
    + rewrite (proj1 (proj2 Hsv3 p)), Hq2 by done. done.
    + rewrite He, fmap_app, fmap_cons. f_equal; [|f_equal].
      * apply fmap_same. intros q Hq. rewrite (proj1 (proj2 Hsv3 q)). apply Hq2. auto.
      * by rewrite (proj1 (proj2 Hsv3 res)).
      * apply fmap_same. intros q Hq. rewrite (proj1 (proj2 Hsv3 q)). apply Hq2. auto.
    + rewrite <- HA1. apply fmap_same. intros q Hq. rewrite (proj1 (proj2 Hsv3 q)). apply Hq2.
      intros ->. by apply (vo_disj _ _ _ Hok res).
    + eapply geom_perm; [|apply (geom_split a m n _ Hgp); [lia|done] ]. solve_Permutation.
    + intros r s' (-> & Hrs & A1 & A2 & HAe & Hinv). split; [done|].
      exists F1, a, m, F2, A1, A2. by rewrite decide_False.
Qed.
End spec.
Arguments vo_free {A H b}. Arguments vo_al {A H b}. Arguments vo_disj {A H b}. Arguments vo_vps {A H b}.
Arguments vo_live {A H b}. Arguments vo_sf {A H b}. Arguments vo_sa {A H b}.

(** C14: [vm_alloc] cuts a page-aligned range of the rounded size off the front of
    a free range and gives it a structure of its own: the free and the allocated
    ranges together never overlap, before or after, no other range changes, and
    the remainder stays free. When it fails (no range, or no structure) nothing
    changes. It always returns and releases the lock. *)
Theorem vm_alloc_correct {A} `{MmOpsLaws A} junk junk_type F Al (s : vm A) size :
  vm_inv F Al s → 0 < size → size + PAGE_SIZE ≤ W32 →
  let n := ROUND_UP size PAGE_SIZE in
  wp (vm_alloc junk junk_type size) (λ r s',
    match snd r with
    | Some p => fst r = E_OK ∧ ∃ F1 a m F2 A1 A2, F = F1 ++ (a, m) :: F2 ∧ Al = A1 ++ A2 ∧
        n ≤ m ∧ rng s' p = (a, n) ∧
        vm_inv (F1 ++ (if decide (m = n) then [] else [(a + n, m - n)]) ++ F2) (A1 ++ (a, n) :: A2) s'
    | None => fst r ≠ E_OK ∧ vm_inv F Al s'
    end) s.
Proof.
  intros Hi Hs Hw n. eapply wp_mono; [by apply vm_alloc_spec|].
  intros [e [p|]] s' Hr; [|done]. destruct Hr as (? & F1 & a & m & F2 & A1 & A2 & ? & ? & ? & ? & Hat).
  split; [done|]. exists F1, a, m, F2, A1, A2. split_and!; try done. by eapply vm_at_inv.
Qed.

(** One free range of four pages at 0x10000, one allocated page at 0x20000. *)
Record vp_pool := VpPool { vpp_next : Z; vpp_live : gset Z }.
#[export] Instance vp_pool_ops : MmOps vp_pool := {
  mm_alloc a :=
    if bool_decide (vpp_next a ∉ vpp_live a) && (0 <? vpp_next a)
    then (inr (vpp_next a), VpPool (vpp_next a + 64) ({[vpp_next a]} ∪ vpp_live a))
    else (inl E_NOSLOT, a);
  mm_free p a := (E_OK, VpPool (vpp_next a) (vpp_live a ∖ {[p]}));
  mm_live := vpp_live;
}.
#[export] Instance vp_pool_laws : MmOpsLaws vp_pool.
Proof.
  split.
  - intros [n l] p a'. cbn. case_match eqn:Hc; intros Heq; simplify_eq.
    apply andb_true_iff in Hc as [Hc1 Hc2]. apply bool_decide_eq_true in Hc1.
    split_and!; [unfold NULL; lia|done|done].
  - intros [n l] e a'. cbn. case_match; intros Heq; by simplify_eq.
  - intros p [n l] e a' Heq. simplify_eq/=. done.
Qed.

Definition ex_vm : vm vp_pool := Vm 64 128
  (list_to_map [(64, RbtNode BLACK 0 0 0); (128, RbtNode BLACK 0 0 0)])
  (list_to_map [(64, VPage 0x10000 0x4000 0x4000 UM_NOPM 0); (128, VPage 0x20000 0x1000 0 UM_NOPM 0)])
  false (VpPool 192 {[64; 128]}).

Lemma ex_one_rbt a h :
  a ≠ 0 → h !! a = Some (RbtNode BLACK 0 0 0) → is_rbt (T BLACK E a E) (Rbt a h).
Proof.
  intros Ha Hh. split; [split; simpl|].
  - done.
  - by split_and!.
  - apply NoDup_singleton.
  - intros Hn%list_elem_of_singleton. by apply Ha.
  - done.
  - done.
  - split; [done|]. exists 1%nat. repeat constructor.
Qed.

Lemma ex_vm_inv : vm_inv [(0x10000, 0x4000)] [(0x20000, 0x1000)] ex_vm.
Proof.
  split; [done|]. exists (T BLACK E 64 E), (T BLACK E 128 E). split; [|split; [done|split; [done|] ] ].
  - split.
    + by apply ex_one_rbt.
    + by apply ex_one_rbt.
    + intros p ->%list_elem_of_singleton. by intros ?%list_elem_of_singleton.
    + intros p [->| ->%list_elem_of_singleton]%elem_of_cons; by eexists.
    + intros p [->| ->%list_elem_of_singleton]%elem_of_cons; apply (bool_decide_unpack _); by vm_compute.
    + repeat constructor.
    + repeat constructor.
  - split; [repeat (apply Forall_cons_2; [by split_and!|]); constructor|].
    constructor; [|repeat constructor]. constructor; [by left|constructor].
Qed.

Lemma vm_alloc_correct_witness :
  let n := ROUND_UP 0x1234 PAGE_SIZE in
  wp (vm_alloc 7 UM_NOPM 0x1234) (λ r s',
    match snd r with
    | Some p => fst r = E_OK ∧ ∃ F1 a m F2 A1 A2, [(0x10000, 0x4000)] = F1 ++ (a, m) :: F2 ∧
        [(0x20000, 0x1000)] = A1 ++ A2 ∧ n ≤ m ∧ rng s' p = (a, n) ∧
        vm_inv (F1 ++ (if decide (m = n) then [] else [(a + n, m - n)]) ++ F2)
               (A1 ++ (a, n) :: A2) s'
    | None => fst r ≠ E_OK ∧ vm_inv [(0x10000, 0x4000)] [(0x20000, 0x1000)] s'
    end) ex_vm.
Proof.
  exact (vm_alloc_correct 7 UM_NOPM [(0x10000, 0x4000)] [(0x20000, 0x1000)] ex_vm 0x1234
    ex_vm_inv ltac:(lia) ltac:(by vm_compute)).
Defined.

(** The look-up on explicit trees. *)
Lemma vm_search_spec {A} `{MmOps A} tf ta (s : vm A) x :
  vm_lock s = false → vm_okb true tf ta s → geom (rng s <$> elems ta) →
  wp (vm_search_addr x) (λ r s', s' = s ∧
    match snd r with
    | Some p => fst r = E_OK ∧ p ∈ elems ta ∧ addr_of s p ≤ x < addr_of s p + size_of s p
    | None => fst r = E_NOTFOUND ∧ ∀ p, p ∈ elems ta → ¬ (addr_of s p ≤ x < addr_of s p + size_of s p)
    end) s.
Proof.
  intros Hlk Hok Hga. unfold vm_search_addr. apply vm_wp_lock; [done|].
  assert (Hokl : vm_okb true tf ta (locked s)) by by apply vm_ok_lock.
  apply wp_bind, wp_zoom, wp_gets. rewrite set_alloced_id.
  apply wp_bind, wp_zoom, wp_gets. rewrite set_alloced_id.
  pose proof (proj1 (vo_al _ _ _ Hokl)) as HR. rewrite (R_root _ _ _ _ HR).
  apply wp_bind. eapply wp_mono.
  { eapply (search_addr_loop tf ta (locked s) x _ []); [exact Hokl|exact Hga|done| |].
    - pose proof (R_size _ _ _ _ HR). simpl in *. lia.
    - intros p Hp Hn. done. }
  intros r s' [-> Hr]. apply wp_bind, wp_modify, wp_ret.
  split; [destruct s; simpl in Hlk; by rewrite Hlk|].
  change (addr_of (locked s)) with (addr_of s) in Hr. change (size_of (locked s)) with (size_of s) in Hr.
  destruct r as [p|]; simpl; (split; [done|exact Hr]).
Qed.

(** [vm_search_addr] finds the allocated range that contains an address, if
    there is one, and changes nothing. *)
Theorem vm_search_addr_correct {A} `{MmOps A} F Al (s : vm A) x :
  vm_inv F Al s →
  wp (vm_search_addr x) (λ r s', s' = s ∧
    match snd r with
    | Some p => fst r = E_OK ∧ ∃ a n, (a, n) ∈ Al ∧ rng s p = (a, n) ∧ a ≤ x < a + n
    | None => fst r = E_NOTFOUND ∧ ∀ a n, (a, n) ∈ Al → ¬ (a ≤ x < a + n)
    end) s.
Proof.
  intros (Hlk & tf & ta & Hok & HF & HA & Hg). eapply wp_mono.
  { eapply (vm_search_spec tf ta); [done|done|]. rewrite HA. destruct Hg as [G1 G2]. split.
    - by apply Forall_app in G1 as [_ ?].
    - clear -G2. induction F as [|f F IH]; [done|]. inversion G2; auto. }
  intros [err [p|]] s' [-> Hr]; cbn [fst snd] in *; (split; [done|]).
  - destruct Hr as (-> & Hp & Hx). split; [done|]. exists (addr_of s p), (size_of s p).
    split; [|by split]. rewrite <- HA. change (addr_of s p, size_of s p) with (rng s p).
    by apply list_elem_of_fmap_2.
  - destruct Hr as [-> Hr]. split; [done|]. intros a n Hin. rewrite <- HA in Hin.
    apply list_elem_of_fmap in Hin as (p & Hpr & Hp). unfold rng in Hpr. simplify_eq. by apply Hr.
Qed.

Lemma vm_search_addr_correct_witness :
  wp (vm_search_addr 0x20010) (λ r s', s' = ex_vm ∧
    match snd r with
    | Some p => fst r = E_OK ∧ ∃ a n, (a, n) ∈ [(0x20000, 0x1000)] ∧ rng ex_vm p = (a, n) ∧
        a ≤ 0x20010 < a + n
    | None => fst r = E_NOTFOUND ∧ ∀ a n, (a, n) ∈ [(0x20000, 0x1000)] → ¬ (a ≤ 0x20010 < a + n)
    end) ex_vm.
Proof. apply (vm_search_addr_correct [(0x10000, 0x4000)]), ex_vm_inv. Defined.
