(* ===== verification/VmFree.v ===== *)
(** * Virtual address ranges: giving ranges back

    [vm_insert], [vm_free] and the merging of neighbours, and the slicing of an
    allocated range. *)
From S2P Require Import Prelude Machine RbtModel RbtTree RbtInsert RbtDelete RbtIter RbtSearch RbtProps.
From S2P Require Import RbtClient Vm VmSpec.

(** ** Contiguous runs of ranges *)

(** The ranges of [L], in order and without gaps, cover exactly [r]. *)
Inductive joined : list (Z * Z) → Z * Z → Prop :=
  | joined_one r : joined [r] r
  | joined_next L a n m : joined L (a, n) → joined (L ++ [(a + n, m)]) (a, n + m)
  | joined_prev L a n b m : joined L (a, n) → b + m = a → joined ((b, m) :: L) (b, n + m).

Lemma joined_covers L r : joined L r → Forall (λ q, 0 ≤ snd q) L →
  0 ≤ snd r ∧ ∀ x, (fst r ≤ x < fst r + snd r ↔ ∃ q, q ∈ L ∧ fst q ≤ x < fst q + snd q).
Proof.
  induction 1 as [r|L a n m Hj IH|L a n b m Hj IH Hb]; intros Hpos.
  - apply Forall_inv in Hpos. split; [done|]. intros x. split; [intros Hx; exists r; split; [left|done]|].
    by intros (q & ->%list_elem_of_singleton & Hq).
  - apply Forall_app in Hpos as [H1 H2%Forall_inv]. destruct (IH H1) as [Hn Hc]. simpl in *.
    split; [lia|]. intros x. split.
    + intros Hx. destruct (decide (x < a + n)).
      * destruct (proj1 (Hc x) ltac:(lia)) as (q & Hq & ?). exists q. set_solver.
      * exists (a + n, m). simpl. split; [set_solver|lia].
    + intros (q & [Hq| ->%list_elem_of_singleton]%elem_of_app & Hx); simpl in *; [|lia].
      pose proof (proj2 (Hc x) ltac:(by exists q)). lia.
  - apply Forall_cons in Hpos as [H2 H1]. destruct (IH H1) as [Hn Hc]. simpl in *.
    split; [lia|]. intros x. split.
    + intros Hx. destruct (decide (a ≤ x)).
      * destruct (proj1 (Hc x) ltac:(lia)) as (q & Hq & ?). exists q. set_solver.
      * exists (b, m). simpl. split; [set_solver|lia].
    + intros (q & [->|Hq]%elem_of_cons & Hx); simpl in *; [lia|].
      pose proof (proj2 (Hc x) ltac:(by exists q)). lia.
Qed.

(** Two neighbours that become one range. *)
Lemma geom_join a n m l : geom ((a, n) :: (a + n, m) :: l) → geom ((a, n + m) :: l).
Proof.
  rewrite !geom_cons. intros ((H1 & H2 & H3 & H4 & H5) & H6 & (G1 & G2 & G3 & G4 & G5) & G6 & G7).
  simpl in *. unfold rng_ok, rng_disj in *. simpl. split_and!; try lia; try done.
  - by rewrite Z.add_mod, H5, G5 by lia.
  - apply Forall_cons in H6 as [_ H6]. destruct G7 as [G7 _].
    rewrite Forall_forall in *. intros [b k] Hb.
    specialize (H6 _ Hb). specialize (G6 _ Hb). specialize (G7 _ Hb) as (_ & G7 & _). simpl in *. lia.
Qed.

(** ** What [vm_merge] makes of the free list

    The ranges that follow without a gap are fused into the new one; those before it,
    nearest first ([G] is reversed), only when nothing is left above: the first loop
    leaves the function at a gap. *)
Fixpoint fuse_next (r : Z * Z) (F : list (Z * Z)) : (Z * Z) * list (Z * Z) :=
  match F with
  | (b, m) :: F' => if fst r + snd r =? b then fuse_next (fst r, snd r + m) F' else (r, F)
  | [] => (r, [])
  end.
Fixpoint fuse_prev (r : Z * Z) (G : list (Z * Z)) : (Z * Z) * list (Z * Z) :=
  match G with
  | (b, m) :: G' => if b + m =? fst r then fuse_prev (b, snd r + m) G' else (r, G)
  | [] => (r, [])
  end.
Definition merge_ranges (F1 : list (Z * Z)) (r : Z * Z) (F2 : list (Z * Z)) : list (Z * Z) :=
  let '(r1, G2) := fuse_next r F2 in
  match G2 with
  | [] => let '(r2, G1) := fuse_prev r1 (rev F1) in rev G1 ++ [r2]
  | _ => F1 ++ r1 :: G2
  end.

(** [r] has its place between [F1] and [F2] in address order. *)
Definition merged (F1 : list (Z * Z)) (r : Z * Z) (F2 F' : list (Z * Z)) : Prop :=
  Forall (λ q, fst q < fst r) F1 ∧ Forall (λ q, fst r < fst q) F2 ∧ F' = merge_ranges F1 r F2.

Lemma fuse_next_joined L r F : joined L r →
  let '(r', G) := fuse_next r F in ∃ L', F = L' ++ G ∧ joined (L ++ L') r'.
Proof.
  revert L r. induction F as [|[b m] F IH]; intros L [a n] Hj; cbn [fuse_next fst snd].
  { exists []. split; [done|by rewrite app_nil_r]. }
  destruct (Z.eqb_spec (a + n) b) as [<-|]; [|exists []; split; [done|by rewrite app_nil_r]].
  pose proof (IH (L ++ [(a + n, m)]) (a, n + m) (joined_next _ _ _ _ Hj)) as H'.
  destruct (fuse_next _ F) as [r' G]. destruct H' as (L' & -> & HL). exists ((a + n, m) :: L').
  split; [done|]. by rewrite <- app_assoc in HL.
Qed.
Lemma fuse_prev_joined L r G : joined L r →
  let '(r', G') := fuse_prev r G in ∃ L', rev G = rev G' ++ L' ∧ joined (L' ++ L) r'.
Proof.
  revert L r. induction G as [|[b m] G IH]; intros L [a n] Hj; cbn [fuse_prev fst snd].
  { by exists []. }
  destruct (Z.eqb_spec (b + m) a) as [Hb|]; [|exists []; by rewrite app_nil_r].
  pose proof (IH ((b, m) :: L) (b, n + m) (joined_prev _ _ _ _ _ Hj Hb)) as H'.
  destruct (fuse_prev _ G) as [r' G']. destruct H' as (L' & He & HL). exists (L' ++ [(b, m)]). cbn [rev].
  split; [by rewrite He, <- app_assoc|]. by rewrite <- app_assoc.
Qed.

(** One run of neighbours around [r] has become one range; the others are as they were. *)
Lemma merged_run F1 r F2 F' : merged F1 r F2 F' →
  ∃ G1 L G2 r', F1 ++ r :: F2 = G1 ++ L ++ G2 ∧ F' = G1 ++ r' :: G2 ∧ joined L r'.
Proof.
  intros (_ & _ & ->). unfold merge_ranges. pose proof (fuse_next_joined [r] r F2 (joined_one r)) as Hn.
  destruct (fuse_next r F2) as [r1 G2]. destruct Hn as (L & -> & Hj). destruct G2 as [|q G2].
  - pose proof (fuse_prev_joined _ r1 (rev F1) Hj) as Hp. destruct (fuse_prev r1 (rev F1)) as [r2 G1].
    destruct Hp as (L' & He & Hj'). rewrite rev_involutive in He. exists (rev G1), (L' ++ [r] ++ L), [], r2.
    split; [|done]. by rewrite He, !app_nil_r, <- app_assoc.
  - by exists F1, ([r] ++ L), (q :: G2), r1.
Qed.

(** With a gap above, the range below is not fused even when it touches. *)
Lemma vm_merge_misses_below :
  merge_ranges [(0x1000, 0x1000)] (0x2000, 0x1000) [(0x8000, 0x1000)] =
    [(0x1000, 0x1000); (0x2000, 0x1000); (0x8000, 0x1000)] ∧
  merge_ranges [(0x1000, 0x1000)] (0x2000, 0x1000) [(0x3000, 0x1000)] = [(0x1000, 0x3000)].
Proof. done. Qed.

Lemma key_sorted_fmap (k1 k2 : Z → Z) es1 es2 :
  k1 <$> es1 = k2 <$> es2 → key_sorted k1 es1 → key_sorted k2 es2.
Proof.
  revert es2. induction es1 as [|x es1 IH]; intros [|y es2] He; simplify_eq/=; [constructor|].
  rewrite !key_sorted_cons. intros [H1 H2]. split; [|by apply IH].
  intros z Hz. assert (k2 z ∈ k2 <$> es2) as Hin by by apply list_elem_of_fmap_2.
  rewrite <- H0 in Hin. apply list_elem_of_fmap in Hin as (w & -> & Hw). rewrite <- H. by apply H1.
Qed.

Section spec.
Context {A : Type} `{MmOpsLaws A}.
Context (junk : Z) (junk_type : vp_type).
Implicit Types s : vm A.
Abbreviation vm_ok := (vm_okb true).

Lemma okb_restore tf ta s : vm_okb false tf ta s → key_sorted (addr_of s) (elems tf) → vm_ok tf ta s.
Proof. intros [H1 H2 H3 H4 H5 _ H7] Hs. by split. Qed.

(** Writing the fields of a free range keeps everything but the order. *)
Lemma set_range_ok tf ta s p v a n :
  vm_ok tf ta s → p ∈ elems tf → vps s !! p = Some v →
  let s' := Vm (free_root s) (alloced_root s) (vnodes s)
              (<[p := VPage a n (mx_size v) (vtype v) (map_page v)]> (vps s)) (vm_lock s) (vm_mm s) in
  vm_okb false tf ta s' ∧ rng s' p = (a, n) ∧ ∀ q, q ≠ p → rng s' q = rng s q.
Proof.
  intros [H1 H2 H3 H4 H5 H6 H7] Hp Hv s'.
  assert (Hq : ∀ q, q ≠ p → addr_of s' q = addr_of s q ∧ size_of s' q = size_of s q).
  { intros q Hne. unfold addr_of, size_of. cbn. by rewrite lookup_insert_ne. }
  split; [|split].
  - split; try done.
    + intros q Hqin. destruct (decide (q = p)) as [->|Hne]; cbn; [rewrite lookup_insert_eq; by eexists|].
      rewrite lookup_insert_ne by done. by apply H4.
    + eapply key_sorted_ext; [|exact H7]. intros q Hqa. symmetry. apply Hq. intros ->. by apply (H3 p).
  - unfold rng, addr_of, size_of. cbn. by rewrite lookup_insert_eq.
  - intros q Hne. unfold rng. by destruct (Hq q Hne) as [-> ->].
Qed.

(** The free range [now] becomes [(a, n)] and the free range [q] goes away. *)
Lemma absorb_spec tf ta s now q v a n x1 x2 :
  vm_ok tf ta s → elems tf = x1 ++ q :: x2 → now ∈ x1 ++ x2 → vps s !! now = Some v →
  key_sorted (λ x, if decide (x = now) then a else addr_of s x) (x1 ++ x2) →
  wp (set_vp now (VPage a n (mx_size v) (vtype v) (map_page v)) ;;;
      vm_delete_free q ;;; rbt_update (@on_free A) update now ;;; ret (inl tt : unit + bool))
    (λ r s', r = inl tt ∧ ∃ tf', elems tf' = x1 ++ x2 ∧ vm_ok tf' ta s' ∧ vm_lock s' = vm_lock s ∧
      rng s' now = (a, n) ∧ ∀ x, x ≠ now → rng s' x = rng s x) s.
Proof.
  intros Hok He Hnow Hv Hsrt.
  assert (Hin : now ∈ elems tf) by (rewrite He; clear -Hnow; set_solver).
  pose proof (R_nodup _ _ _ _ (proj1 (vo_free _ _ _ Hok))) as Hnd.
  destruct (set_range_ok tf ta s now v a n Hok Hin Hv) as (Hok1 & Hr1 & Ho1).
  apply wp_bind, wp_modify. set (s1 := Vm _ _ _ _ _ _) in *.
  apply wp_bind. eapply wp_mono; [eapply delete_free_spec; [exact Hok1|rewrite He; clear; set_solver]|].
  intros e s2 (tf' & l1 & l2 & He1 & He2 & Hok2 & [Hlk2 Hsv] & _ & _).
  assert (l1 = x1 ∧ l2 = x2) as [-> ->] by (apply (app_mid_inj l1 l2 x1 x2 q); congruence).
  assert (Hr2 : ∀ x, rng s2 x = rng s1 x) by (intros x; apply Hsv).
  assert (Hok2' : vm_ok tf' ta s2).
  { apply okb_restore; [done|]. rewrite He2. eapply key_sorted_ext; [|exact Hsrt].
    intros x _. specialize (Hr2 x). unfold rng in Hr2, Hr1, Ho1. simplify_eq. case_decide as Hx.
    - subst x. congruence.
    - specialize (Ho1 x Hx). congruence. }
  apply wp_bind. eapply wp_mono; [eapply upd_free; [exact Hok2'|apply mx_only_refl|by rewrite He2]|].
  intros ? s3 Hs3. cbn beta in Hs3. apply wp_ret. split; [done|]. exists tf'. split; [done|].
  split; [by eapply mx_only_ok|]. split; [by destruct Hs3 as (_ & _ & _ & -> & _)|].
  split; [by rewrite (mx_only_rng _ _ _ Hs3), Hr2|].
  intros x Hx. by rewrite (mx_only_rng _ _ _ Hs3), Hr2, Ho1.
Qed.

(** ** Merging *)

(** [now] is the range [r] of the free list [F1 ++ r :: F2]. *)
Definition at_free ta (now : Z) (F1 : list (Z * Z)) (r : Z * Z) (F2 : list (Z * Z)) s : Prop :=
  ∃ tf l1 l2, vm_ok tf ta s ∧ elems tf = l1 ++ now :: l2 ∧ rng s <$> l1 = F1 ∧ rng s now = r ∧
    rng s <$> l2 = F2.

Lemma at_free_vp ta now F1 r F2 s : at_free ta now F1 r F2 s →
  ∃ v, vps s !! now = Some v ∧ r = (vaddr v, vsize v).
Proof.
  intros (tf & l1 & l2 & Hok & He & _ & <- & _).
  destruct (vp_some _ _ _ now Hok) as (v & Hv & Ha & Hs); [rewrite He; clear; set_solver|].
  exists v. split; [done|]. unfold rng. by rewrite Ha, Hs.
Qed.

Lemma merge_next_step ta now F1 a n F2 Al s :
  at_free ta now F1 (a, n) F2 s → geom ((F1 ++ (a, n) :: F2) ++ Al) →
  wp (merge_next_body now tt) (λ r s',
    match r with
    | inr stop => s' = s ∧ fuse_next (a, n) F2 = ((a, n), F2) ∧ (stop = false ↔ F2 = [])
    | inl _ => ∃ m F2', F2 = (a + n, m) :: F2' ∧ at_free ta now F1 (a, n + m) F2' s' ∧
        geom ((F1 ++ (a, n + m) :: F2') ++ Al) ∧ vm_lock s' = vm_lock s ∧
        rng s' <$> elems ta = rng s <$> elems ta
    end) s.
Proof.
  intros Hat Hg. destruct (at_free_vp _ _ _ _ _ _ Hat) as (v & Hv & Hva). simplify_eq.
  destruct Hat as (tf & l1 & l2 & Hok & He & <- & Hr & <-).
  pose proof (proj1 (vo_free _ _ _ Hok)) as HR.
  unfold merge_next_body. eapply (wp_zoom_read _ _ set_free_id); [by eapply rbt_next_spec|].
  intros t ->. destruct l2 as [|q l2]; cbn [hd0]; [by apply wp_ret|].
  assert (Hq : rng s q = (addr_of s q, size_of s q)) by done.
  assert (Hqin : q ∈ elems tf) by (rewrite He; clear; set_solver).
  rewrite (proj2 (Z.eqb_neq _ _)) by (intros ->; by apply (R_null _ _ _ _ HR)).
  destruct (vp_some _ _ _ q Hok) as (w & Hw & Hwa & Hws); [set_solver|].
  eapply vp_get; [exact Hv|]. eapply vp_get; [exact Hw|].
  assert (Hgp : geom ((vaddr v, vsize v) :: rng s q :: (rng s <$> l1) ++ (rng s <$> l2) ++ Al)).
  { eapply geom_perm; [|exact Hg]. rewrite fmap_cons. solve_Permutation. }
  pose proof Hgp as Hgp'. apply geom_cons in Hgp' as ((A1 & A2 & A3 & _) & _ & Hgq). simpl in A1, A2, A3.
  apply geom_cons in Hgq as ((B1 & B2 & B3 & _) & _). simpl in B1, B2, B3.
  rewrite Hwa in B1, B3. rewrite Hws in B2, B3.
  assert (Hadd : add32 (vaddr v) (vsize v) = vaddr v + vsize v)
    by (unfold add32; apply u32_small; unfold is_u32; lia).
  rewrite Hadd. destruct (Z.eqb_spec (vaddr v + vsize v) (vaddr w)) as [Hadj|Hgap]; cbn [negb].
  2:{ apply wp_ret. split; [done|]. split; [|done]. cbn [fmap list_fmap]. rewrite Hq. cbn [fuse_next fst snd].
      rewrite Hwa. by rewrite (proj2 (Z.eqb_neq _ _)). }
  clear Hq.
  assert (Hsum : add32 (vsize v) (vsize w) = vsize v + vsize w)
    by (unfold add32; apply u32_small; unfold is_u32; lia).
  rewrite Hsum.
  assert (He2 : elems tf = (l1 ++ [now]) ++ q :: l2) by (by rewrite <- app_assoc).
  pose proof (R_nodup _ _ _ _ HR) as Hnd. rewrite He in Hnd. nodup_norm.
  eapply wp_mono; [eapply (absorb_spec tf ta s now q v _ _ (l1 ++ [now]) l2 Hok He2)|].
  - clear; set_solver.
  - done.
  - pose proof (vo_sf _ _ _ Hok eq_refl) as Hs. rewrite He2 in Hs. apply key_sorted_delete in Hs.
    eapply key_sorted_ext; [|exact Hs]. intros x _. case_decide; [subst x|done].
    unfold rng in Hr. by simplify_eq.
  - intros r s' (-> & tf' & He' & Hok' & Hlk & Hnow & Hoth).
    assert (Hq : rng s q = (vaddr v + vsize v, vsize w)) by (unfold rng; by rewrite Hwa, Hws, Hadj).
    exists (vsize w), (rng s <$> l2). rewrite fmap_cons, Hq. split; [done|].
    split; [|split; [|split; [done|]]].
    + exists tf', l1, l2. rewrite <- app_assoc in He'.
      split_and!; [done|done| |done|]; apply fmap_same; intros x Hx; apply Hoth; intros ->; set_solver.
    + rewrite Hq in Hgp. apply geom_join in Hgp. eapply geom_perm; [|exact Hgp]. solve_Permutation.
    + apply fmap_same. intros x Hx. apply Hoth. intros ->. eapply (vo_disj _ _ _ Hok now); [|done].
      rewrite He. clear; set_solver.
Qed.

Lemma merge_prev_step ta now F1 a n F2 Al s :
  at_free ta now F1 (a, n) F2 s → geom ((F1 ++ (a, n) :: F2) ++ Al) →
  wp (merge_prev_body now tt) (λ r s',
    match r with
    | inr _ => s' = s ∧ fuse_prev (a, n) (rev F1) = ((a, n), rev F1)
    | inl _ => ∃ b m F1', F1 = F1' ++ [(b, m)] ∧ b + m = a ∧ at_free ta now F1' (b, n + m) F2 s' ∧
        geom ((F1' ++ (b, n + m) :: F2) ++ Al) ∧ vm_lock s' = vm_lock s ∧
        rng s' <$> elems ta = rng s <$> elems ta
    end) s.
Proof.
  intros Hat Hg. destruct (at_free_vp _ _ _ _ _ _ Hat) as (v & Hv & Hva). simplify_eq.
  destruct Hat as (tf & l1 & l2 & Hok & He & <- & Hr & <-).
  pose proof (proj1 (vo_free _ _ _ Hok)) as HR.
  unfold merge_prev_body. eapply (wp_zoom_read _ _ set_free_id); [by eapply rbt_prev_spec|].
  intros t ->. destruct l1 as [|q l1' _] using rev_ind; [by apply wp_ret|]. rewrite last0_app.
  assert (Hqin : q ∈ elems tf) by (rewrite He; clear; set_solver).
  rewrite (proj2 (Z.eqb_neq _ _)) by (intros ->; by apply (R_null _ _ _ _ HR)).
  destruct (vp_some _ _ _ q Hok) as (w & Hw & Hwa & Hws); [set_solver|].
  eapply vp_get; [exact Hv|]. eapply vp_get; [exact Hw|].
  assert (Hgp : geom (rng s q :: (vaddr v, vsize v) :: (rng s <$> l1') ++ (rng s <$> l2) ++ Al)).
  { eapply geom_perm; [|exact Hg]. rewrite fmap_app. solve_Permutation. }
  pose proof Hgp as Hgp'. apply geom_cons in Hgp' as ((B1 & B2 & B3 & _) & _ & Hgq). simpl in B1, B2, B3.
  apply geom_cons in Hgq as ((A1 & A2 & A3 & _) & _). simpl in A1, A2, A3.
  rewrite Hwa in B1, B3. rewrite Hws in B2, B3.
  assert (Hadd : add32 (vaddr w) (vsize w) = vaddr w + vsize w)
    by (unfold add32; apply u32_small; unfold is_u32; lia).
  rewrite Hadd. destruct (Z.eqb_spec (vaddr w + vsize w) (vaddr v)) as [Hadj|Hgap]; cbn [negb].
  2:{ apply wp_ret. split; [done|]. rewrite fmap_app, rev_app_distr. cbn [fmap list_fmap rev app].
      assert (Hq : rng s q = (vaddr w, vsize w)) by (unfold rng; by rewrite Hwa, Hws). rewrite Hq.
      cbn [fuse_prev fst]. by rewrite (proj2 (Z.eqb_neq _ _)). }
  assert (Hsum : add32 (vsize v) (vsize w) = vsize v + vsize w)
    by (unfold add32; apply u32_small; unfold is_u32; lia).
  rewrite Hsum.
  assert (He2 : elems tf = l1' ++ q :: now :: l2) by (by rewrite He, <- app_assoc).
  pose proof (R_nodup _ _ _ _ HR) as Hnd. rewrite He2 in Hnd. nodup_norm.
  eapply wp_mono; [eapply (absorb_spec tf ta s now q v (vaddr w) _ l1' (now :: l2) Hok He2)|].
  - clear; set_solver.
  - done.
  - pose proof (vo_sf _ _ _ Hok eq_refl) as Hs. rewrite He2 in Hs.
    replace (l1' ++ q :: now :: l2) with ((l1' ++ [q]) ++ now :: l2) in Hs by (by rewrite <- app_assoc).
    apply key_sorted_delete in Hs. rewrite <- app_assoc in Hs.
    eapply key_sorted_fmap; [|exact Hs]. rewrite !fmap_app. cbn [fmap list_fmap app].
    rewrite decide_True by done. f_equal; [|f_equal; [done|]]; apply list_fmap_ext;
      intros i x Hx%list_elem_of_lookup_2; rewrite decide_False; [done| |done|]; intros ->; set_solver.
  - intros r s' (-> & tf' & He' & Hok' & Hlk & Hnow & Hoth).
    assert (Hq : rng s q = (vaddr w, vsize w)) by (unfold rng; by rewrite Hwa, Hws).
    exists (vaddr w), (vsize w), (rng s <$> l1'). rewrite fmap_app. cbn [fmap list_fmap]. rewrite Hq.
    split; [done|]. split; [done|]. split; [|split; [|split; [done|]]].
    + exists tf', l1', l2.
      split_and!; [done|done| |done|]; apply fmap_same; intros x Hx; apply Hoth; intros ->; set_solver.
    + rewrite Hq, <- Hadj in Hgp. apply geom_join in Hgp. rewrite Z.add_comm in Hgp.
      eapply geom_perm; [|exact Hgp]. solve_Permutation.
    + apply fmap_same. intros x Hx. apply Hoth. intros ->. eapply (vo_disj _ _ _ Hok now); [|done].
      rewrite He2. clear; set_solver.
Qed.

Lemma merge_spec ta now F1 r F2 Al s :
  at_free ta now F1 r F2 s → geom ((F1 ++ r :: F2) ++ Al) → rng s <$> elems ta = Al →
  wp (vm_merge now) (λ err s', err = E_OK ∧ vm_lock s' = vm_lock s ∧ ∃ tf',
    vm_ok tf' ta s' ∧ rng s' <$> elems tf' = merge_ranges F1 r F2 ∧ rng s' <$> elems ta = Al ∧
    geom (merge_ranges F1 r F2 ++ Al)) s.
Proof.
  intros Hat Hg HA. unfold vm_merge.
  eapply (wp_zoom_read _ _ set_free_id _ _ _ (λ n, (length F1 < n ∧ length F2 < n)%nat)).
  { apply wp_gets. split; [done|]. destruct Hat as (tf & l1 & l2 & Hok & He & <- & _ & <-).
    pose proof (R_size _ _ _ _ (proj1 (vo_free _ _ _ Hok))) as Hsz. rewrite He, length_app in Hsz.
    simpl in *. rewrite !length_fmap. lia. }
  intros fuel [Hf1 Hf2].
  (* the state both loops keep *)
  set (I := λ (s' : vm A) G1 r' G2, at_free ta now G1 r' G2 s' ∧ geom ((G1 ++ r' :: G2) ++ Al) ∧
    vm_lock s' = vm_lock s ∧ rng s' <$> elems ta = Al).
  assert (Hend : ∀ s' G1 r' G2, I s' G1 r' G2 → merge_ranges F1 r F2 = G1 ++ r' :: G2 →
    wp (ret E_OK) (λ err s'', err = E_OK ∧ vm_lock s'' = vm_lock s ∧ ∃ tf', vm_ok tf' ta s'' ∧
      rng s'' <$> elems tf' = merge_ranges F1 r F2 ∧ rng s'' <$> elems ta = Al ∧
      geom (merge_ranges F1 r F2 ++ Al)) s').
  { intros s' G1 r' G2 ((tf & l1 & l2 & Hok & He & <- & <- & <-) & Hgg & Hlk & HAs) ->.
    apply wp_ret. split; [done|]. split; [done|]. exists tf.
    split; [done|]. split; [by rewrite He, fmap_app, fmap_cons|done]. }
  apply wp_bind. eapply wp_mono.
  { apply (wp_loop (λ n _ s', ∃ r' G2, n = length G2 ∧ I s' F1 r' G2 ∧ fuse_next r' G2 = fuse_next r F2)
      (λ stop s', ∃ r' G2, I s' F1 r' G2 ∧ fuse_next r F2 = (r', G2) ∧ (stop = false ↔ G2 = []))) with (n := length F2); [|done|].
    - intros n [] s' ([a k] & G2 & -> & (Hat' & Hg' & Hlk & HAs) & Hfu).
      eapply wp_mono; [by eapply merge_next_step|]. intros [?|stop] s'' Hr.
      + destruct Hr as (m & G2' & -> & Hat'' & Hg'' & Hlk' & HA'). exists (length G2').
        split; [simpl; lia|]. exists (a, k + m), G2'. split; [done|].
        split; [split_and!; [done|done|congruence|congruence]|]. cbn [fuse_next fst snd] in Hfu.
        by rewrite Z.eqb_refl in Hfu.
      + destruct Hr as (-> & Hfu' & Hst). exists (a, k), G2. split; [by split_and!|]. by rewrite <- Hfu.
    - by exists r, F2. }
  intros stop s1 (r1 & G2 & HI & Hfu & Hst). cbn beta. unfold merge_ranges in Hend. rewrite Hfu in Hend.
  unfold merge_ranges. rewrite Hfu. destruct stop.
  { eapply Hend; [done|]. destruct G2; [by assert (true = false) by by apply Hst|done]. }
  assert (G2 = []) as -> by by apply Hst. apply wp_bind. eapply wp_mono.
  { apply (wp_loop (λ n _ s', ∃ r' G1, n = length G1 ∧ I s' G1 r' [] ∧ fuse_prev r' (rev G1) = fuse_prev r1 (rev F1))
      (λ _ s', ∃ r' G1, I s' G1 r' [] ∧ fuse_prev r1 (rev F1) = (r', rev G1))) with (n := length F1); [|done|].
    - intros n [] s' ([a k] & G1 & -> & (Hat' & Hg' & Hlk & HAs) & Hfp).
      eapply wp_mono; [by eapply merge_prev_step|]. intros [?|stop] s'' Hr.
      + destruct Hr as (b & m & G1' & -> & Hb & Hat'' & Hg'' & Hlk' & HA'). exists (length G1').
        split; [rewrite length_app; simpl; lia|]. exists (b, k + m), G1'. split; [done|].
        split; [split_and!; [done|done|congruence|congruence]|].
        rewrite rev_app_distr in Hfp. cbn [rev app fuse_prev fst snd] in Hfp. by rewrite Hb, Z.eqb_refl in Hfp.
      + destruct Hr as [-> Hfp']. exists (a, k), G1. split; [by split_and!|]. by rewrite <- Hfp.
    - by exists r1, F1. }
  intros ? s2 (r' & G1 & HI' & Hfp). cbn beta. rewrite Hfp, rev_involutive in Hend |- *. by eapply Hend.
Qed.

(** ** Inserting a free range *)
Lemma insert_free_spec tf ta s p :
  vm_ok tf ta s → loose tf ta s p → (∀ q, q ∈ elems tf → addr_of s q ≠ addr_of s p) →
  wp (rbt_insert (@on_free A) p) (λ err s', err = E_OK ∧ ∃ tf' l1 l2, elems tf = l1 ++ l2 ∧
    elems tf' = l1 ++ p :: l2 ∧ vm_ok tf' ta s' ∧ same_vps s s') s.
Proof.
  intros Hok (Hp0 & Hpn & Hnd & Hvp & Hlv) Hkey. pose proof Hok as [[HR Hrb] Hal Hdis Hvps Hlive Hsf Hsa].
  apply not_elem_of_app in Hpn as [Hpf Hpa]. specialize (Hsf eq_refl).
  unfold rbt_insert. apply wp_bind, wp_get. apply wp_bind, wp_zoom.
  eapply wp_mono; [by eapply (client_insert (addr_of s))|].
  intros [] r; [|intros (_ & q & Hq & Hqe); by destruct (Hkey q Hq)].
  intros (_ & tf' & l1 & l2 & HR' & Hrb' & He & He' & Hs').
  apply wp_ret. split; [done|]. exists tf', l1, l2. split_and!; [done|done| |by split].
  assert (Hin : ∀ q, q ∈ elems tf' ↔ q = p ∨ q ∈ elems tf) by (intros q; rewrite He, He'; clear; set_solver).
  split.
  - split; [|done]. unfold free_rbt. destruct r. by eapply R_weaken.
  - eapply is_rbt_frame; [|exact Hal]. intros x Hx. apply (R_frame _ _ _ _ HR').
    apply not_elem_of_cons. split; [by intros ->|]. intros Hxf. by eapply Hdis.
  - intros q Hq Hqa. apply Hin in Hq as [->|Hq]; [done|]. by eapply Hdis.
  - intros q Hq. rewrite elem_of_app, Hin in Hq. destruct Hq as [[->|Hq]|Hq]; [done| |];
      apply Hvps; apply elem_of_app; auto.
  - intros q Hq. rewrite elem_of_app, Hin in Hq. destruct Hq as [[->|Hq]|Hq]; [done| |];
      apply Hlive; apply elem_of_app; auto.
  - done.
  - done.
Qed.

Lemma geom_starts a n l q : geom ((a, n) :: l) → q ∈ l → fst q ≠ a.
Proof using Type.
  intros ((_ & H2 & _) & Hd & Hg & _)%geom_cons Hq He. rewrite Forall_forall in Hd, Hg.
  specialize (Hd _ Hq). specialize (Hg _ Hq) as (_ & Hg & _). unfold rng_disj in Hd. simpl in *. lia.
Qed.

Lemma vm_insert_free_spec tf ta s p r F Al :
  vm_ok tf ta s → loose tf ta s p → rng s p = r → rng s <$> elems tf = F →
  rng s <$> elems ta = Al → geom (r :: F ++ Al) →
  wp (vm_insert_free p) (λ err s', err = E_OK ∧ vm_lock s' = vm_lock s ∧ ∃ tf' F1 F2 F',
    F = F1 ++ F2 ∧ merged F1 r F2 F' ∧ vm_ok tf' ta s' ∧ rng s' <$> elems tf' = F' ∧
    rng s' <$> elems ta = Al ∧ geom (F' ++ Al)) s.
Proof.
  intros Hok Hl Hr HF HA Hg. destruct r as [a n]. unfold vm_insert_free. apply wp_bind.
  eapply wp_mono; [eapply insert_free_spec; [exact Hok|exact Hl|]|].
  { intros q Hq Heq. eapply (geom_starts a n _ (rng s q) Hg).
    - apply elem_of_app; left. rewrite <- HF. by apply list_elem_of_fmap_2.
    - unfold rng in *. by simplify_eq. }
  intros err s1 (-> & tf1 & l1 & l2 & He & He1 & Hok1 & [Hlk1 Hsv]). cbn [negb Z.eqb].
  change (negb (E_OK =? E_OK)) with false. cbv iota.
  destruct (walk_P tf1 ta s1 Hok1) as [HPR HPu].
  apply wp_bind. eapply wp_mono.
  { eapply (rbt_insert_update_spec free_rbt set_free set_free_id _ _ tf1 update (mx_only s1) HPR HPu);
      [apply mx_only_refl|rewrite He1; clear; set_solver]. }
  intros ? s2 Hs2. cbn beta in Hs2.
  assert (Hrs : ∀ q, rng s2 q = rng s q) by (intros q; rewrite (mx_only_rng _ _ _ Hs2); apply Hsv).
  rewrite He, fmap_app in HF. subst F.
  assert (Hplace : Forall (λ q, fst q < a) (rng s <$> l1) ∧ Forall (λ q, a < fst q) (rng s <$> l2)).
  { pose proof (vo_sf _ _ _ Hok1 eq_refl) as Hsrt. rewrite He1 in Hsrt.
    apply key_sorted_app in Hsrt as (_ & Hsrt & Hlt). apply key_sorted_cons in Hsrt as [Hgt _].
    assert (Ha : ∀ q, addr_of s1 q = fst (rng s q)) by (intros q; change (addr_of s1 q) with (fst (rng s1 q)); f_equal; apply Hsv).
    assert (Hap : addr_of s1 p = a) by (by rewrite Ha, Hr).
    rewrite !Forall_fmap, !Forall_forall. split; intros q Hq; cbn.
    - specialize (Hlt q p Hq ltac:(left)). rewrite Hap, Ha in Hlt. done.
    - specialize (Hgt q Hq). rewrite Hap, Ha in Hgt. done. }
  eapply wp_mono; [eapply (merge_spec ta p (rng s <$> l1) (a, n) (rng s <$> l2) Al)|].
  - exists tf1, l1, l2. split; [by eapply mx_only_ok|]. split; [done|].
    split_and!; [by apply fmap_same|by rewrite Hrs|by apply fmap_same].
  - eapply geom_perm; [|exact Hg]. solve_Permutation.
  - rewrite <- HA. by apply fmap_same.
  - intros err s' (-> & Hlk & tf' & Hok' & HF' & HA' & Hg'). split; [done|].
    split. { rewrite Hlk. destruct Hs2 as (_ & _ & _ & -> & _). done. }
    destruct Hplace. by exists tf', (rng s <$> l1), (rng s <$> l2), (merge_ranges (rng s <$> l1) (a, n) (rng s <$> l2)).
Qed.

(** A node leaves the allocated tree and stays an object of its own. *)
Lemma delete_alloced_spec tf ta s p l1 l2 :
  vm_ok tf ta s → elems ta = l1 ++ p :: l2 →
  wp (on_alloced (rbt_delete p)) (λ _ s', ∃ ta', elems ta' = l1 ++ l2 ∧ vm_ok tf ta' s' ∧
    loose tf ta' s' p ∧ vps s' = vps s ∧ vm_lock s' = vm_lock s ∧ vm_mm s' = vm_mm s) s.
Proof.
  intros Hok He. pose proof Hok as [Hfr [HR Hrb] Hdis Hvp Hlv Hsf Hsa].
  assert (Hp : p ∈ elems ta) by (rewrite He; clear; set_solver).
  pose proof (R_nodup _ _ _ _ HR) as Hnd.
  destruct (rep_lookup _ _ _ _ (R_rep _ _ _ _ HR) Hp) as [n Hn].
  apply wp_zoom. eapply wp_mono; [apply wp_and_wlp; [by eapply rbt_delete_spec|apply keeps_rbt_delete]|].
  intros ? t [(ta' & k1 & k2 & HR' & Hrb' & Hk & Hk') Hkeep].
  assert (k1 = l1 ∧ k2 = l2) as [-> ->] by (apply (app_mid_inj k1 k2 l1 l2 p); congruence).
  rewrite He in Hnd. pose proof Hnd as Hnd'. rewrite <- Permutation_middle in Hnd'.
  apply NoDup_cons in Hnd' as [Hpn _].
  assert (Hsub : ∀ q, q ∈ elems ta' → q ∈ elems ta) by (intros q; rewrite He, Hk'; clear; set_solver).
  exists ta'. split; [done|]. split; [|split; [|done]].
  - split.
    + eapply is_rbt_frame; [|exact Hfr]. intros x Hx. apply (R_frame _ _ _ _ HR'). by apply Hdis.
    + split; [|done]. unfold alloced_rbt. destruct t. by eapply R_weaken.
    + intros q Hq Hqa. by apply (Hdis q), Hsub.
    + intros q Hq. apply Hvp. rewrite elem_of_app in *. naive_solver.
    + intros q Hq. apply Hlv. rewrite elem_of_app in *. naive_solver.
    + done.
    + rewrite Hk'. rewrite He in Hsa. by eapply key_sorted_delete.
  - split_and!.
    + intros ->. by apply (R_null _ _ _ _ HR).
    + rewrite not_elem_of_app, Hk'. split; [intros Hpf; by apply (Hdis p)|done].
    + apply Hkeep. by eexists.
    + apply Hvp. apply elem_of_app; by right.
    + apply Hlv. apply elem_of_app; by right.
Qed.

Lemma rng_vps s s' q : vps s' = vps s → rng s' q = rng s q.
Proof using Type. unfold rng, addr_of, size_of. by intros ->. Qed.

Lemma unlock_inv tf ta s F Al :
  vm_ok tf ta s → rng s <$> elems tf = F → rng s <$> elems ta = Al → geom (F ++ Al) →
  vm_inv F Al (unlocked s).
Proof.
  intros Hok HF HA Hg. split; [done|]. exists tf, ta. split; [by apply vm_ok_lock|done].
Qed.

(** What is live keeps its contents when a structure is made. *)
Lemma vpage_new_live s a n :
  wlp (vpage_new junk junk_type a n) (λ r s', ∀ q, q ∈ mm_live (vm_mm s) →
    vps s' !! q = vps s !! q ∧ vnodes s' !! q = vnodes s !! q ∧ q ∈ mm_live (vm_mm s') ∧
    r ≠ inr q) s.
Proof.
  unfold vpage_new, alloc_vp, wlp, bind, get, put, ret.
  destruct (mm_alloc (vm_mm s)) as [[e|p] m] eqn:Hm.
  - apply mm_alloc_err in Hm as [He Hl]. intros q Hq. cbn. by rewrite Hl.
  - apply mm_alloc_ok in Hm as (_ & Hpl & Hl). unfold vp_of, set_vp, modify, bind, get, deref. cbn.
    rewrite lookup_insert_eq. cbn. intros q Hq. assert (p ≠ q) by (intros ->; done).
    rewrite Hl, !lookup_insert_ne by done. split_and!; [done|done|set_solver|congruence].
Qed.

Lemma loose_rng_at tf ta s p : loose tf ta s p → ∃ v, vps s !! p = Some v ∧ rng s p = (vaddr v, vsize v).
Proof. intros (_ & _ & _ & [v Hv] & _). exists v. unfold rng, addr_of, size_of. by rewrite Hv. Qed.

(** Writing the fields of a structure in no tree. *)
Lemma set_loose tf ta s p v : vm_ok tf ta s → loose tf ta s p →
  let s' := Vm (free_root s) (alloced_root s) (vnodes s) (<[p := v]> (vps s)) (vm_lock s) (vm_mm s) in
  vm_ok tf ta s' ∧ loose tf ta s' p ∧ (∀ q, q ≠ p → rng s' q = rng s q) ∧
  (∀ q, loose tf ta s q → loose tf ta s' q).
Proof.
  intros [H1 H2 H3 H4 H5 H6 H7] (L1 & L2 & L3 & L4 & L5) s'.
  assert (Hne : ∀ q, q ∈ elems tf ++ elems ta → q ≠ p) by (intros q Hq ->; done).
  assert (Hq : ∀ q, q ≠ p → addr_of s' q = addr_of s q ∧ size_of s' q = size_of s q).
  { intros q Hn. unfold addr_of, size_of. cbn. by rewrite lookup_insert_ne. }
  assert (Hs : ∀ q, is_Some (vps s !! q) → is_Some (vps s' !! q)).
  { intros q Hn. cbn. destruct (decide (q = p)) as [->|]; [rewrite lookup_insert_eq; by eexists|].
    by rewrite lookup_insert_ne. }
  split; [|split; [|split]].
  - split; try done.
    + intros q Hi. by apply Hs, H4.
    + intros _. eapply key_sorted_ext; [|exact (H6 eq_refl)]. intros q Hi. symmetry. apply Hq, Hne.
      apply elem_of_app; by left.
    + eapply key_sorted_ext; [|exact H7]. intros q Hi. symmetry. apply Hq, Hne. apply elem_of_app; by right.
  - split_and!; try done. by apply Hs.
  - intros q Hn. unfold rng. by destruct (Hq q Hn) as [-> ->].
  - intros q (M1 & M2 & M3 & M4 & M5). split_and!; try done. by apply Hs.
Qed.

Lemma insert_alloced_at tf ta s p r Al F :
  vm_ok tf ta s → loose tf ta s p → rng s p = r → rng s <$> elems ta = Al → geom (r :: F ++ Al) →
  wp (vm_insert_alloced p) (λ err s', err = E_OK ∧ ∃ ta' l1 l2, elems ta = l1 ++ l2 ∧
    elems ta' = l1 ++ p :: l2 ∧ vm_ok tf ta' s' ∧ same_vps s s') s.
Proof.
  intros Hok Hl Hr HA Hg. apply insert_alloced_spec; [done|done|]. destruct r as [a n].
  intros q Hq Heq. eapply (geom_starts a n _ (rng s q) Hg).
  - apply elem_of_app; right. rewrite <- HA. by apply list_elem_of_fmap_2.
  - unfold rng in *. by simplify_eq.
Qed.

Lemma vm_free_spec F A1 p r A2 s :
  vm_at F A1 p r A2 s →
  wp (vm_free p) (λ err s', err = E_OK ∧ ∃ F1 F2 F', F = F1 ++ F2 ∧ merged F1 r F2 F' ∧
    vm_inv F' (A1 ++ A2) s') s.
Proof.
  intros (Hlk & tf & ta & l1 & l2 & Hok & He & HF & <- & Hr & <- & Hg).
  unfold vm_free. apply vm_wp_lock; [done|]. assert (Hokl : vm_ok tf ta (locked s)) by by apply vm_ok_lock.
  apply wp_bind. eapply wp_mono; [by eapply delete_alloced_spec|].
  intros ? s1 (ta' & He' & Hok1 & Hl1 & Hv1 & Hlk1 & _).
  assert (Hrs : ∀ q, rng s1 q = rng s q) by (intros q; by apply (rng_vps (locked s))).
  apply wp_bind. eapply wp_mono.
  { eapply (vm_insert_free_spec tf ta' s1 p r F); [done|done|by rewrite Hrs| | |].
    - rewrite <- HF. by apply fmap_same.
    - by rewrite He'.
    - rewrite fmap_app, (fmap_same (rng s1) (rng s) l1), (fmap_same (rng s1) (rng s) l2) by done.
      eapply geom_perm; [|exact Hg]. solve_Permutation. }
  intros err s2 (-> & _ & tf' & F1 & F2 & F' & HF' & HM & Hok2 & Hf2 & Ha2 & Hg2).
  apply wp_bind, wp_modify, wp_ret. split; [done|]. exists F1, F2, F'. split; [done|]. split; [done|].
  rewrite fmap_app in Ha2, Hg2.
  rewrite (fmap_same (rng s1) (rng s) l1), (fmap_same (rng s1) (rng s) l2) in Ha2, Hg2 by done.
  by apply (unlock_inv tf' ta').
Qed.

(** The structures are all a new range needs. *)
Lemma vpage_new_err a n s :
  wlp (vpage_new junk junk_type a n) (λ r _, match r with inl e => fst (mm_alloc (vm_mm s)) = inl e | inr _ => True end) s.
Proof.
  unfold vpage_new, alloc_vp, wlp, bind, get. destruct (mm_alloc (vm_mm s)) as [[e|p] m]; [done|].
  cbn. rewrite lookup_insert_eq. done.
Qed.

Lemma vm_insert_spec F Al s a n :
  vm_inv F Al s → geom ((a, n) :: F ++ Al) →
  wp (vm_insert junk junk_type a n) (λ err s',
    if err =? E_OK then ∃ F1 F2 F', F = F1 ++ F2 ∧ merged F1 (a, n) F2 F' ∧ vm_inv F' Al s'
    else vm_inv F Al s' ∧ fst (mm_alloc (vm_mm s)) = inl err) s.
Proof.
  intros (Hlk & tf & ta & Hok & HF & HA & _) Hg. unfold vm_insert.
  pose proof Hg as ((G1 & G2 & G3 & G4 & G5) & _ & Hg0)%geom_cons. simpl in *. change PAGE_SIZE with 4096.
  rewrite G4, G5. apply wp_bind, wp_assert. split; [done|].
  apply vm_wp_lock; [done|]. assert (Hokl : vm_ok tf ta (locked s)) by by apply vm_ok_lock.
  apply wp_bind. eapply wp_mono.
  { apply wp_and_wlp; [by apply (vpage_new_spec junk junk_type tf ta)|apply vpage_new_err]. }
  intros [e|p] s1 [(Hok1 & _ & Hsame & Hr) He].
  - apply wp_bind, wp_ret, wp_bind, wp_modify, wp_ret. rewrite (proj2 (Z.eqb_neq _ _)) by done. split; [|done].
    apply (unlock_inv tf ta); [done| | |done]; [rewrite <- HF|rewrite <- HA]; apply fmap_same;
      intros q Hq; apply Hsame; set_solver.
  - destruct Hr as [Hl Hrp]. apply wp_bind. eapply wp_mono.
    { eapply (vm_insert_free_spec tf ta s1 p (a, n) F Al); try done; [rewrite <- HF|rewrite <- HA];
        apply fmap_same; intros q Hq; apply Hsame; set_solver. }
    intros err s2 (-> & _ & tf' & F1 & F2 & F' & HF' & HM & Hok2 & Hf2 & Ha2 & Hg2).
    apply wp_bind, wp_modify, wp_ret. change (E_OK =? E_OK) with true. cbv iota.
    exists F1, F2, F'. split; [done|]. split; [done|]. by apply (unlock_inv tf' ta).
Qed.

(** ** Slicing *)
Lemma geom_cut a b n l : geom ((a, n) :: l) → a < b < a + n → b mod 4096 = 0 →
  geom ((a, b - a) :: (b, a + n - b) :: l).
Proof using Type.
  intros Hg Hb Hm. pose proof Hg as ((G1 & G2 & G3 & G4 & G5) & _)%geom_cons. simpl in *.
  apply (geom_split a n (b - a)) in Hg; [|lia|by rewrite Zminus_mod, Hm, G4].
  by replace (a + (b - a)) with b in Hg by lia; replace (n - (b - a)) with (a + n - b) in Hg by lia.
Qed.

(** The state while [vm_slice] holds the lock. *)
Definition cut_at F (A1 : list (Z * Z)) (p : Z) (r : Z * Z) (A2 : list (Z * Z)) s : Prop :=
  ∃ tf ta l1 l2, vm_ok tf ta s ∧ elems ta = l1 ++ p :: l2 ∧ rng s <$> elems tf = F ∧
    rng s <$> l1 = A1 ∧ rng s p = r ∧ rng s <$> l2 = A2 ∧ geom (F ++ A1 ++ r :: A2).
Definition cut_lost F (Al : list (Z * Z)) s : Prop :=
  ∃ tf ta, vm_ok tf ta s ∧ rng s <$> elems tf = F ∧ rng s <$> elems ta = Al ∧ geom (F ++ Al).

Lemma key_sorted_unique (k : Z → Z) l1 l2 : key_sorted k l1 → key_sorted k l2 → l1 ≡ₚ l2 → l1 = l2.
Proof using Type.
  revert l2. induction l1 as [|x l1 IH]; intros l2 H1 H2 Hp.
  - by apply Permutation_nil_l in Hp.
  - destruct l2 as [|y l2]; [by apply Permutation_nil_r in Hp|].
    apply key_sorted_cons in H1 as [H1 H1']. apply key_sorted_cons in H2 as [H2 H2'].
    assert (Hx : x ∈ y :: l2) by (rewrite <- Hp; left).
    assert (Hy : y ∈ x :: l1) by (rewrite Hp; left).
    assert (x = y) as ->.
    { apply elem_of_cons in Hx as [Hx|Hx]; [done|]. apply elem_of_cons in Hy as [Hy|Hy]; [done|].
      specialize (H1 y Hy). specialize (H2 x Hx). lia. }
    f_equal. apply IH; [done|done|]. by apply Permutation_cons_inv in Hp.
Qed.

Lemma cut_sorted (k : Z → Z) l1 p q l2 : key_sorted k (l1 ++ p :: l2) → k p < k q →
  (∀ x, x ∈ l2 → k q < k x) → key_sorted k (l1 ++ p :: q :: l2).
Proof using Type.
  rewrite !key_sorted_app, !key_sorted_cons. intros (S1 & (S2 & S3) & S4) Hpq Hq.
  split_and!; try done.
  - intros y [->|Hy]%elem_of_cons; [done|]. by apply S2.
  - intros x y Hx. rewrite !elem_of_cons. intros [->|[->|Hy]].
    + apply S4; [done|left].
    + specialize (S4 x p Hx ltac:(left)). lia.
    + apply S4; [done|by right].
Qed.

(** The type of a range. *)
Definition type_of s p : option vp_type := vtype <$> vps s !! p.

Lemma insert_alloced_frame s p :
  wlp (vm_insert_alloced p) (λ _ s', vps s' = vps s ∧ vm_lock s' = vm_lock s ∧ vm_mm s' = vm_mm s ∧
    ∀ x, is_Some (vnodes s !! x) → is_Some (vnodes s' !! x)) s.
Proof using Type.
  unfold vm_insert_alloced, rbt_insert. eapply wlp_step; [done|].
  apply wlp_bind, wlp_zoom. eapply wlp_mono; [apply keeps_tree_insert|]. intros b r Hk. by split_and!.
Qed.

Lemma cut_finish F A1 p q a b n A2 tf ta l1 l2 s t :
  vm_ok tf ta s → elems ta = l1 ++ l2 → loose tf ta s p → loose tf ta s q → q ≠ p →
  rng s p = (a, b - a) → rng s q = (b, a + n - b) → geom ((a, b - a) :: (b, a + n - b) :: F ++ A1 ++ A2) →
  rng s <$> elems tf = F → rng s <$> l1 = A1 → rng s <$> l2 = A2 →
  key_sorted (addr_of s) (l1 ++ p :: l2) → type_of s p = Some t → type_of s q = Some t →
  wp (err <- vm_insert_alloced p ;; assert_ (err =? E_OK) ;;;
      err <- vm_insert_alloced q ;; assert_ (err =? E_OK) ;;; ret (inr (p, q) : Z + Z * Z)) (λ r s',
    match r with
    | inl e => e ≠ E_OK ∧ cut_lost F (A1 ++ A2) s'
    | inr (pl, q) => pl = p ∧ type_of s' p = Some t ∧ type_of s' q = Some t ∧
        cut_at F A1 p (a, b - a) ((b, a + n - b) :: A2) s' ∧
        cut_at F (A1 ++ [(a, b - a)]) q (b, a + n - b) A2 s'
    end) s.
Proof.
  intros Hok He Hlp Hlq Hqp Hp Hq Hg HF H1 H2 Hsrt Htp Htq.
  assert (HA : rng s <$> elems ta = A1 ++ A2) by (by rewrite He, fmap_app, H1, H2).
  apply wp_bind. eapply wp_mono.
  { apply wp_and_wlp; [|apply insert_alloced_frame].
    eapply insert_alloced_at; [exact Hok|exact Hlp|exact Hp|exact HA|].
    apply geom_cons in Hg as (G1 & [_ G2]%Forall_cons & [_ G3]%geom_cons). apply geom_cons. exact (conj G1 (conj G2 (proj2 G3))). }
  intros e1 s1 [(-> & ta1 & k1 & k2 & Hk & Hk1 & Hok1 & _) (Hv1 & Hlk1 & Hm1 & Hn1)].
  apply wp_bind, wp_assert. split; [done|].
  assert (Hr1 : ∀ x, rng s1 x = rng s x) by (intros x; by apply rng_vps).
  assert (Hlq1 : loose tf ta1 s1 q).
  { destruct Hlq as (Q1 & Q2 & Q3 & Q4 & Q5). split_and!; [done| |by apply Hn1|by rewrite Hv1|by rewrite Hm1].
    rewrite Hk1. rewrite Hk in Q2. rewrite !not_elem_of_app, not_elem_of_cons in *. naive_solver. }
  apply wp_bind. eapply wp_mono.
  { apply wp_and_wlp; [|apply insert_alloced_frame].
    eapply (insert_alloced_at tf ta1 s1 q _ (rng s <$> elems ta1) F); [done|done|by rewrite Hr1| |].
    - by apply fmap_same.
    - eapply geom_perm; [|exact Hg]. rewrite <- HA, Hk, Hk1, !fmap_app, fmap_cons, Hp. solve_Permutation. }
  intros e2 s2 [(-> & ta2 & j1 & j2 & Hj & Hj1 & Hok2 & _) (Hv2 & Hlk2 & Hm2 & Hn2)].
  apply wp_bind, wp_assert. split; [done|]. apply wp_ret.
  assert (Hr2 : ∀ x, rng s2 x = rng s x) by (intros x; apply rng_vps; congruence).
  assert (Ha2 : ∀ x, addr_of s x = addr_of s2 x) by (intros x; specialize (Hr2 x); unfold rng in Hr2; congruence).
  assert (Hpa : addr_of s p = a) by (unfold rng in Hp; congruence).
  assert (Hqa : addr_of s q = b) by (unfold rng in Hq; congruence).
  assert (Hel : elems ta2 = l1 ++ p :: q :: l2).
  { apply (key_sorted_unique (addr_of s)).
    - eapply key_sorted_ext; [|exact (vo_sa _ _ _ Hok2)]. intros x _. by rewrite Ha2.
    - apply cut_sorted; [done| |].
      + apply geom_cons in Hg as ((_ & Hg & _) & _). simpl in Hg. lia.
      + intros x Hx. rewrite Hqa. apply key_sorted_app in Hsrt as (_ & [Hs _]%key_sorted_cons & _).
        specialize (Hs x Hx). rewrite Hpa in Hs.
        assert (Hin : rng s x ∈ F ++ A1 ++ A2) by (rewrite !elem_of_app, <- H2; right; right; by apply list_elem_of_fmap_2).
        apply geom_cons in Hg as ((_ & P2 & _) & [_ D1]%Forall_cons & ((_ & P3 & _) & D2 & [D3 _])%geom_cons).
        rewrite Forall_forall in D1, D2, D3. specialize (D1 _ Hin). specialize (D2 _ Hin).
        specialize (D3 _ Hin) as (_ & D3 & _). unfold rng, rng_disj in *. simpl in *. lia.
    - rewrite Hj1, <- Permutation_middle, <- Hj, Hk1, <- Permutation_middle, <- Hk, He. solve_Permutation. }
  split; [done|]. unfold type_of. rewrite Hv2, Hv1. split; [done|]. split; [done|].
  assert (HX : ∀ l : list Z, rng s2 <$> l = rng s <$> l) by (intros l; by apply fmap_same).
  split.
  - exists tf, ta2, l1, (q :: l2). rewrite fmap_cons, !HX, !Hr2, Hp, Hq, H2.
    split_and!; try done. eapply geom_perm; [|exact Hg]. solve_Permutation.
  - exists tf, ta2, (l1 ++ [p]), l2. rewrite fmap_app, fmap_cons, !HX, !Hr2, Hp, Hq, H1.
    split; [done|]. split; [by rewrite Hel, <- app_assoc|]. split_and!; try done.
    eapply geom_perm; [|exact Hg]. solve_Permutation.
Qed.

(** [_vm_slice] cuts the range of [p] at [b], or loses it. *)
Lemma cut_spec F A1 p a n A2 b s t :
  cut_at F A1 p (a, n) A2 s → type_of s p = Some t → a < b < a + n → b mod 4096 = 0 →
  wp (_vm_slice junk junk_type p b) (λ r s',
    match r with
    | inl e => e ≠ E_OK ∧ cut_lost F (A1 ++ A2) s'
    | inr (pl, q) => pl = p ∧ type_of s' p = Some t ∧ type_of s' q = Some t ∧
        cut_at F A1 p (a, b - a) ((b, a + n - b) :: A2) s' ∧
        cut_at F (A1 ++ [(a, b - a)]) q (b, a + n - b) A2 s'
    end) s.
Proof.
  intros (tf & ta & l1 & l2 & Hok & He & HF & H1 & Hr & H2 & Hg) Ht Hb Hbm.
  assert (Hpg : geom ((a, n) :: F ++ A1 ++ A2)) by (eapply geom_perm; [|exact Hg]; solve_Permutation).
  pose proof Hpg as ((G1 & G2 & G3 & G4 & G5) & _ & Hg0)%geom_cons. simpl in G1, G2, G3, G4, G5.
  pose proof (geom_cut a b n _ Hpg Hb Hbm) as Hgc.
  destruct (vp_some _ _ _ p Hok) as (v & Hv & Hva & Hvs); [rewrite He, !elem_of_app; right; right; left|].
  unfold rng in Hr. rewrite Hva, Hvs in Hr. injection Hr as Ha Hn.
  unfold type_of in Ht. rewrite Hv in Ht. simpl in Ht. injection Ht as Ht.
  unfold _vm_slice. eapply vp_get; [exact Hv|]. rewrite Ha, Hn.
  assert (Hadd : add32 a n = a + n) by (unfold add32; apply u32_small; unfold is_u32; lia).
  rewrite Hadd. unfold sub32. rewrite !u32_small by (unfold is_u32; lia).
  apply wp_bind, wp_assert. change PAGE_SIZE with 4096. split.
  { rewrite Hbm. pose proof (Z.div_mod b 4096 ltac:(lia)). pose proof (Z.div_mod (a + n) 4096 ltac:(lia)) as Hd.
    rewrite (Z.add_mod a n), G4, G5 in Hd by lia. change ((0 + 0) mod 4096) with 0 in Hd.
    rewrite !andb_true_iff, !Z.ltb_lt. split; [lia|done]. }
  apply wp_bind. eapply wp_mono; [by eapply delete_alloced_spec|].
  intros ? s1 (ta1 & He1 & Hok1 & Hl1 & Hv1 & _ & Hm1).
  assert (Hr1 : ∀ x, rng s1 x = rng s x) by (intros x; by apply rng_vps).
  apply wp_bind. eapply wp_mono; [apply wp_and_wlp; [by apply (vpage_new_spec _ _ tf ta1)|apply vpage_new_live]|].
  intros [e|q] s2 [(Hok2 & _ & Hsame & Hq) Hlive].
  { apply wp_ret. split; [done|]. exists tf, ta1. split; [done|]. rewrite He1, fmap_app.
    assert (HX : ∀ l : list Z, (∀ x, x ∈ l → x ∈ elems tf ++ elems ta1) → rng s2 <$> l = rng s <$> l).
    { intros l Hx. apply fmap_same. intros x Hxl. rewrite <- Hr1. apply Hsame, Hx, Hxl. }
    rewrite !HX, HF, H1, H2; [done|..]; intros x Hx; rewrite ?He1, !elem_of_app; auto. }
  destruct Hq as [Hl2 Hq].
  assert (Hplive : p ∈ mm_live (vm_mm s1)) by apply Hl1.
  destruct (Hlive p Hplive) as (Hpv & Hpn & Hpl & Hpq).
  assert (Hpq' : q ≠ p) by congruence.
  assert (Hlp2 : loose tf ta1 s2 p).
  { destruct Hl1 as (L1 & L2 & L3 & L4 & L5). split_and!; [done|done|by rewrite Hpn|by rewrite Hpv|done]. }
  assert (Hp2 : vps s2 !! p = Some v) by (by rewrite Hpv, Hv1).
  eapply vp_get; [exact Hp2|]. rewrite Ha, Ht, u32_small by (unfold is_u32; lia).
  set (v' := VPage a (b - a) (mx_size v) t (map_page v)).
  destruct (set_loose tf ta1 s2 p v' Hok2 Hlp2) as (Hok3 & Hlp3 & Ho3 & Hk3).
  apply wp_bind, wp_modify. set (s3 := Vm _ _ _ (<[p:=v']> _) _ _) in *.
  destruct Hl2 as (Q1 & Q2 & Q3 & [w Hw] & Q5).
  eapply vp_get; [unfold s3; cbn; by rewrite lookup_insert_ne|].
  assert (Hwq : vaddr w = b ∧ vsize w = a + n - b).
  { unfold rng, addr_of, size_of in Hq. rewrite Hw in Hq. simpl in Hq. by simplify_eq. }
  destruct Hwq as [-> ->].
  set (w' := VPage b (a + n - b) (mx_size w) t (map_page w)).
  assert (Hlq3 : loose tf ta1 s3 q) by (apply Hk3; by split_and!).
  destruct (set_loose tf ta1 s3 q w' Hok3 Hlq3) as (Hok4 & Hlq4 & Ho4 & Hk4).
  apply wp_bind, wp_modify. set (s4 := Vm _ _ _ (<[q:=w']> _) _ _) in *.
  assert (Hlp4 : loose tf ta1 s4 p) by by apply Hk4.
  assert (Hp4 : rng s4 p = (a, b - a)).
  { rewrite Ho4 by done. unfold rng, addr_of, size_of, s3. cbn. by rewrite lookup_insert_eq. }
  assert (Hq4 : rng s4 q = (b, a + n - b)).
  { unfold rng, addr_of, size_of, s4. cbn. by rewrite lookup_insert_eq. }
  assert (Ho : ∀ x, x ∈ elems tf ++ elems ta1 → rng s4 x = rng s x).
  { intros x Hx. assert (x ≠ p ∧ x ≠ q) as [? ?].
    { split; intros ->; [by apply (proj1 (proj2 Hlp2))|done]. }
    rewrite Ho4, Ho3 by done. rewrite (proj1 (Hsame x Hx)). apply Hr1. }
  assert (HX : ∀ l : list Z, (∀ x, x ∈ l → x ∈ elems tf ++ elems ta1) → rng s4 <$> l = rng s <$> l).
  { intros l Hx. apply fmap_same. intros x Hxl. apply Ho, Hx, Hxl. }
  apply (cut_finish F A1 p q a b n A2 tf ta1 l1 l2 s4 t); try done.
  - by rewrite HX, HF by (intros x; rewrite elem_of_app; auto).
  - by rewrite HX, H1 by (intros x; rewrite He1, !elem_of_app; auto).
  - by rewrite HX, H2 by (intros x; rewrite He1, !elem_of_app; auto).
  - pose proof (vo_sa _ _ _ Hok) as Hs. rewrite He in Hs. eapply key_sorted_ext; [|exact Hs].
    intros x Hx. apply elem_of_app in Hx. destruct (decide (x = p)) as [->|Hne].
    + unfold rng in Hp4. injection Hp4 as -> _. by rewrite Hva.
    + assert (rng s4 x = rng s x) as Hxx.
      { apply Ho. rewrite He1, !elem_of_app. rewrite elem_of_cons in Hx. naive_solver. }
      unfold rng in Hxx. congruence.
  - unfold type_of, s4, s3. cbn. by rewrite lookup_insert_ne, lookup_insert_eq by done.
  - unfold type_of, s4. cbn. by rewrite lookup_insert_eq.
Qed.

Lemma cut_unlock F A1 p r A2 s : cut_at F A1 p r A2 s → vm_at F A1 p r A2 (unlocked s).
Proof.
  intros (tf & ta & l1 & l2 & Hok & Hrest). split; [done|]. exists tf, ta, l1, l2.
  split; [by apply vm_ok_lock|exact Hrest].
Qed.
Lemma lost_unlock F Al s : cut_lost F Al s → vm_inv F Al (unlocked s).
Proof.
  intros (tf & ta & Hok & HF & HA & Hg). by apply (unlock_inv tf ta).
Qed.

Lemma cut_vp F A1 p r A2 s t : cut_at F A1 p r A2 s → type_of s p = Some t →
  ∃ v, vps s !! p = Some v ∧ vaddr v = fst r ∧ vsize v = snd r ∧ vtype v = t ∧ rng_ok r.
Proof.
  intros (tf & ta & l1 & l2 & Hok & He & _ & _ & <- & _ & Hg) Ht.
  destruct (vp_some _ _ _ p Hok) as (v & Hv & Hva & Hvs); [rewrite He, !elem_of_app; right; right; left|].
  exists v. unfold type_of in Ht. rewrite Hv in Ht. simplify_eq/=. split_and!; try done.
  assert (Hp : geom (rng s p :: F ++ A1 ++ A2))
    by (eapply geom_perm; [|exact Hg]; solve_Permutation).
  by apply geom_cons in Hp as [? _].
Qed.

(** The pieces left over on either side. *)
Definition left_over (a addr : Z) : list (Z * Z) := if a <? addr then [(a, addr - a)] else [].
Definition right_over (e e' : Z) : list (Z * Z) := if e <? e' then [(e, e' - e)] else [].

Lemma vm_slice_spec F A1 p a n A2 addr size s :
  vm_at F A1 p (a, n) A2 s → type_of s p = Some UM_NOPM →
  a ≤ addr → addr + size ≤ a + n → 0 < size → addr mod 4096 = 0 → size mod 4096 = 0 →
  wp (vm_slice junk junk_type p addr size) (λ r s',
    match snd r with
    | Some q => fst r = E_OK ∧ type_of s' q = Some UM_NOPM ∧
        vm_at F (A1 ++ left_over a addr) q (addr, size) (right_over (addr + size) (a + n) ++ A2) s'
    | None => fst r ≠ E_OK ∧ ∃ X, X ⊆ left_over a addr ∧ vm_inv F (A1 ++ X ++ A2) s'
    end) s.
Proof.
  intros (Hlk & tf & ta & l1 & l2 & Hat) Ht Ha Hn Hs Had Hsz.
  assert (Hcut : cut_at F A1 p (a, n) A2 (locked s)).
  { exists tf, ta, l1, l2. destruct Hat as [Hok Hat]. split; [by apply vm_ok_lock|exact Hat]. }
  change (type_of (locked s) p = Some UM_NOPM) in Ht.
  destruct (cut_vp _ _ _ _ _ _ _ Hcut Ht) as (v & Hv & Hva & Hvs & Hvt & (R1 & R2 & R3 & R4 & R5)).
  simpl in *. unfold vm_slice. eapply vp_get; [exact Hv|]. rewrite Hva, Hvs, Hvt.
  assert (Hadd : add32 addr size = addr + size) by (unfold add32; apply u32_small; unfold is_u32; lia).
  assert (Hadd' : add32 a n = a + n) by (unfold add32; apply u32_small; unfold is_u32; lia).
  rewrite Hadd, Hadd'. apply wp_bind, wp_assert. split; [by apply bool_decide_eq_true|].
  apply vm_wp_lock; [done|]. change PAGE_SIZE with 4096. rewrite Had, Hsz.
  apply wp_bind, wp_assert. split; [done|]. apply wp_bind, wp_assert. split; [lia|].
  (* the right cut, from any position of the range *)
  assert (Htail : ∀ p' B1 a' n' s1, cut_at F B1 p' (a', n') A2 s1 → type_of s1 p' = Some UM_NOPM →
    a' = addr → a' + n' = a + n → B1 = A1 ++ left_over a addr →
    wp (v <- vp_of p' ;;
        right <- (if addr + size <? add32 (vaddr v) (vsize v) then
                    r <- _vm_slice junk junk_type p' (addr + size) ;;
                    ret (match r with inl err => inl err | inr lr => inr (fst lr) end)
                  else ret (inr p')) ;;
        match right with
        | inl err => spin_unlock ;;; ret (err, None)
        | inr vpage =>
            v <- vp_of vpage ;;
            assert_ ((vaddr v =? addr) && (vsize v =? size)) ;;; spin_unlock ;;; ret (E_OK, Some vpage)
        end) (λ r s', match snd r with
          | Some q => fst r = E_OK ∧ type_of s' q = Some UM_NOPM ∧
              vm_at F (A1 ++ left_over a addr) q (addr, size) (right_over (addr + size) (a + n) ++ A2) s'
          | None => fst r ≠ E_OK ∧ ∃ X, X ⊆ left_over a addr ∧ vm_inv F (A1 ++ X ++ A2) s'
          end) s1).
  { intros p' B1 a' n' s1 Hc1 Ht1 -> Hend ->.
    destruct (cut_vp _ _ _ _ _ _ _ Hc1 Ht1) as (v1 & Hv1 & Hva1 & Hvs1 & _ & (_ & _ & Q3 & _)).
    simpl in *. eapply vp_get; [exact Hv1|]. rewrite Hva1, Hvs1.
    assert (Hadd1 : add32 addr n' = a + n) by (unfold add32; rewrite <- Hend; apply u32_small; unfold is_u32; lia).
    rewrite Hadd1. unfold right_over. destruct (Z.ltb_spec (addr + size) (a + n)) as [Hlt|Hge].
    - apply wp_bind, wp_bind. eapply wp_mono.
      { eapply (cut_spec F (A1 ++ left_over a addr) p' addr n' A2 (addr + size)); [done|done|lia|].
        by rewrite Z.add_mod, Had, Hsz by lia. }
      intros [e|[pl q]] s2 Hr.
      + destruct Hr as [He Hl]. apply wp_ret, wp_bind, wp_modify, wp_ret. split; [done|].
        exists (left_over a addr). split; [done|]. rewrite app_assoc. by apply lost_unlock.
      + destruct Hr as (-> & Htp & _ & Hc2 & _). apply wp_ret. cbn [fst].
        destruct (cut_vp _ _ _ _ _ _ _ Hc2 Htp) as (v2 & Hv2 & Hva2 & Hvs2 & _). simpl in *.
        eapply vp_get; [exact Hv2|]. apply wp_bind, wp_assert. split; [lia|].
        apply wp_bind, wp_modify, wp_ret. split; [done|]. split; [done|].
        replace (addr + size - addr) with size in Hc2 by lia.
        replace (addr + n') with (a + n) in Hc2 by lia. by apply cut_unlock.
    - apply wp_bind, wp_ret. eapply vp_get; [exact Hv1|]. assert (n' = size) as -> by lia.
      apply wp_bind, wp_assert. split; [lia|].
      apply wp_bind, wp_modify, wp_ret. split; [done|]. split; [done|]. by apply cut_unlock. }
  destruct (Z.ltb_spec a addr) as [Hlt|Hge].
  - apply wp_bind, wp_bind. eapply wp_mono.
    { eapply (cut_spec F A1 p a n A2 addr (locked s)); [done|done|lia|done]. }
    intros [e|[pl q]] s2 Hr; apply wp_ret; cbn [snd].
    + destruct Hr as [He Hl]. apply wp_bind, wp_modify, wp_ret. split; [done|].
      exists []. split; [set_solver|]. by apply lost_unlock.
    + destruct Hr as (-> & _ & Htq & _ & Hc2). eapply Htail; [exact Hc2|done|done|lia|].
      unfold left_over. by rewrite (proj2 (Z.ltb_lt _ _)).
  - apply wp_bind, wp_ret. assert (addr = a) as -> by lia. eapply Htail; [exact Hcut|done|done|done|].
    unfold left_over. by rewrite Z.ltb_irrefl, app_nil_r.
Qed.
End spec.

(** The ranges a merge fuses cover the addresses of those they replace. *)
Lemma merged_addresses F1 r F2 F' x : merged F1 r F2 F' → Forall (λ q, 0 ≤ snd q) (F1 ++ r :: F2) →
  (∃ q, q ∈ F' ∧ fst q ≤ x < fst q + snd q) ↔ (∃ q, q ∈ F1 ++ r :: F2 ∧ fst q ≤ x < fst q + snd q).
Proof.
  intros (G1 & L & G2 & r' & He & -> & Hj)%merged_run Hp. rewrite He in Hp |- *.
  apply Forall_app in Hp as [_ [Hp _]%Forall_app]. destruct (joined_covers L r' Hj Hp) as [_ Hc].
  assert (∀ l, (∃ q, q ∈ G1 ++ l ++ G2 ∧ fst q ≤ x < fst q + snd q) ↔
    (∃ q, q ∈ G1 ∧ fst q ≤ x < fst q + snd q) ∨ (∃ q, q ∈ l ∧ fst q ≤ x < fst q + snd q) ∨
    (∃ q, q ∈ G2 ∧ fst q ≤ x < fst q + snd q)) as Hs.
  { intros l. setoid_rewrite elem_of_app. setoid_rewrite elem_of_app. naive_solver. }
  rewrite (Hs [r']), (Hs L), <- (Hc x). do 2 f_equiv. split.
  - by intros (q & ->%list_elem_of_singleton & Hx).
  - intros Hx. exists r'. split; [by apply list_elem_of_singleton|done].
Qed.

(** C15: [vm_free] gives a range back. It leaves the allocated ranges, and the free list
    becomes exactly [merge_ranges] of it: the range at its place in address order, fused
    with all the ranges that follow it without a gap, and, when no range is left above,
    with all those that precede it without a gap. (With a gap above, the code leaves
    before it looks below.) The free addresses are those that were free and the range's;
    free and allocated ranges still never overlap. [vm_insert] does the same with a new
    range that overlaps none, or, only when there is no structure for it, fails and
    changes nothing. Both always return and release the lock. *)
Theorem vm_free_correct {A} `{MmOpsLaws A} junk junk_type F A1 p r A2 (s : vm A) a n :
  vm_at F A1 p r A2 s →
  wp (vm_free p) (λ err s', err = E_OK ∧ ∃ F1 F2, F = F1 ++ F2 ∧
    Forall (λ q, fst q < fst r) F1 ∧ Forall (λ q, fst r < fst q) F2 ∧
    vm_inv (merge_ranges F1 r F2) (A1 ++ A2) s' ∧
    ∀ x, (∃ q, q ∈ merge_ranges F1 r F2 ∧ fst q ≤ x < fst q + snd q) ↔
      (∃ q, q ∈ r :: F ∧ fst q ≤ x < fst q + snd q)) s ∧
  (geom ((a, n) :: F ++ A1 ++ r :: A2) →
   wp (vm_insert junk junk_type a n) (λ err s',
     if err =? E_OK then ∃ F1 F2, F = F1 ++ F2 ∧
       Forall (λ q, fst q < a) F1 ∧ Forall (λ q, a < fst q) F2 ∧
       vm_inv (merge_ranges F1 (a, n) F2) (A1 ++ r :: A2) s'
     else vm_inv F (A1 ++ r :: A2) s' ∧ fst (mm_alloc (vm_mm s)) = inl err) s).
Proof.
  intros Hat. split.
  - assert (Hpos : Forall (λ q, 0 ≤ snd q) (r :: F)).
    { destruct Hat as (_ & tf & ta & l1 & l2 & _ & _ & _ & _ & _ & _ & Hg & _).
      assert (Hp : (F ++ A1 ++ r :: A2) ≡ₚ (r :: F) ++ A1 ++ A2) by solve_Permutation.
      rewrite Hp in Hg. apply Forall_app in Hg as [Hg _]. eapply Forall_impl; [exact Hg|].
      intros q (_ & Hq & _). lia. }
    eapply wp_mono; [by apply vm_free_spec|]. intros err s' (-> & F1 & F2 & F' & -> & HM & Hv). split; [done|].
    pose proof HM as (H1 & H2 & ->). exists F1, F2. split_and!; [done..|]. intros x.
    rewrite (merged_addresses _ _ _ _ _ HM); [|by rewrite <- Permutation_middle].
    split; intros (q & Hq & Hx); exists q; (split; [|done]); clear -Hq; set_solver.
  - intros Hg. eapply wp_mono; [apply vm_insert_spec; [by eapply vm_at_inv|done]|].
    intros err s'. cbn beta. destruct (err =? E_OK); [|intros Hr; exact Hr]. intros (F1 & F2 & F' & -> & (H1 & H2 & ->) & Hv). by exists F1, F2.
Qed.

Lemma ex_vm_at : vm_at [(0x10000, 0x4000)] [] 128 (0x20000, 0x1000) [] ex_vm.
Proof.
  destruct ex_vm_inv as (Hlk & tf & ta & Hok & HF & HA & Hg). split; [done|].
  exists (T BLACK E 64 E), (T BLACK E 128 E), [], []. split.
  { split; try done.
    - by apply ex_one_rbt.
    - by apply ex_one_rbt.
    - intros q ->%list_elem_of_singleton. by intros ?%list_elem_of_singleton.
    - intros q [->| ->%list_elem_of_singleton]%elem_of_cons; by eexists.
    - intros q [->| ->%list_elem_of_singleton]%elem_of_cons; apply (bool_decide_unpack _); by vm_compute.
    - repeat constructor.
    - repeat constructor. }
  by split_and!.
Qed.

(** The range at 0x20000 has its place behind the one at 0x10000. *)
Lemma vm_free_correct_witness :
  wp (vm_free 128) (λ err s', err = E_OK ∧ ∃ F1 F2, [(0x10000, 0x4000)] = F1 ++ F2 ∧
    Forall (λ q, fst q < 0x20000) F1 ∧ Forall (λ q, 0x20000 < fst q) F2 ∧
    vm_inv (merge_ranges F1 (0x20000, 0x1000) F2) ([] ++ []) s' ∧
    ∀ x, (∃ q, q ∈ merge_ranges F1 (0x20000, 0x1000) F2 ∧ fst q ≤ x < fst q + snd q) ↔
      (∃ q, q ∈ [(0x20000, 0x1000); (0x10000, 0x4000)] ∧ fst q ≤ x < fst q + snd q)) ex_vm.
Proof.
  exact (proj1 (vm_free_correct 7 UM_NOPM _ _ _ _ _ ex_vm 0 0 ex_vm_at)).
Defined.

(** [vm_slice] cuts the sub-range asked for out of an allocated range without a
    page: it returns a structure for exactly that sub-range, of the same type, and
    the pieces on either side stay allocated in its place; nothing else changes
    and the lock is released. When a structure cannot be allocated it fails, and
    then the range, or what is right of the first cut, is in neither tree any
    more. *)
Theorem vm_slice_correct {A} `{MmOpsLaws A} junk junk_type F A1 p a n A2 addr size (s : vm A) :
  vm_at F A1 p (a, n) A2 s → type_of s p = Some UM_NOPM →
  a ≤ addr → addr + size ≤ a + n → 0 < size → addr mod 4096 = 0 → size mod 4096 = 0 →
  wp (vm_slice junk junk_type p addr size) (λ r s',
    match snd r with
    | Some q => fst r = E_OK ∧ type_of s' q = Some UM_NOPM ∧
        vm_at F (A1 ++ left_over a addr) q (addr, size) (right_over (addr + size) (a + n) ++ A2) s'
    | None => fst r ≠ E_OK ∧ ∃ X, X ⊆ left_over a addr ∧ vm_inv F (A1 ++ X ++ A2) s'
    end) s.
Proof. intros. by apply vm_slice_spec. Qed.

(** An allocated range of three pages, cut to its middle page. *)
Definition ex_vm3 : vm vp_pool := Vm 64 128
  (list_to_map [(64, RbtNode BLACK 0 0 0); (128, RbtNode BLACK 0 0 0)])
  (list_to_map [(64, VPage 0x10000 0x4000 0x4000 UM_NOPM 0); (128, VPage 0x20000 0x3000 0 UM_NOPM 0)])
  false (VpPool 192 {[64; 128]}).

Lemma ex_vm3_at : vm_at [(0x10000, 0x4000)] [] 128 (0x20000, 0x3000) [] ex_vm3.
Proof.
  split; [done|]. exists (T BLACK E 64 E), (T BLACK E 128 E), [], []. split.
  { split; try done.
    - by apply ex_one_rbt.
    - by apply ex_one_rbt.
    - intros q ->%list_elem_of_singleton. by intros ?%list_elem_of_singleton.
    - intros q [->| ->%list_elem_of_singleton]%elem_of_cons; by eexists.
    - intros q [->| ->%list_elem_of_singleton]%elem_of_cons; apply (bool_decide_unpack _); by vm_compute.
    - repeat constructor.
    - repeat constructor. }
  split_and!; try done.
  - split; [repeat (apply Forall_cons_2; [by split_and!|]); constructor|].
    constructor; [|repeat constructor]. constructor; [by left|constructor].
Qed.

Lemma vm_slice_correct_witness :
  wp (vm_slice 7 UM_NOPM 128 0x21000 0x1000) (λ r s',
    match snd r with
    | Some q => fst r = E_OK ∧ type_of s' q = Some UM_NOPM ∧
        vm_at [(0x10000, 0x4000)] [(0x20000, 0x1000)] q (0x21000, 0x1000) [(0x22000, 0x1000)] s'
    | None => fst r ≠ E_OK ∧ ∃ X, X ⊆ [(0x20000, 0x1000)] ∧
        vm_inv [(0x10000, 0x4000)] ([] ++ X ++ []) s'
    end) ex_vm3.
Proof.
  exact (vm_slice_correct 7 UM_NOPM _ _ _ _ _ _ 0x21000 0x1000 ex_vm3 ex_vm3_at eq_refl
    ltac:(lia) ltac:(lia) ltac:(lia) eq_refl eq_refl).
Defined.
