(* ===== verification/Um.v ===== *)
(** * The memory of a process (struct um_t, kernel/memory/um.c; vm_fork of
    kernel/memory/vm.c)

    The layout of the address space, the allocator of virtual ranges, and the slab
    allocator fed by [umalloc] itself; the page-fault handler that gives a page its
    frame; the copy of an address space. A frame is known by its address. *)
From S2P Require Import Prelude Machine Mmu Ptb Slab.
From S2P Require Import RbtModel RbtProps Phyops Vm.

Record layout := Layout {
  exe_s : Z; exe_e : Z; heap_s : Z; heap_e : Z; free_s : Z; free_e : Z;
  stk_s : Z; stk_e : Z; args_s : Z; args_e : Z;
}.

Definition init_uvmlo : layout := Layout 0 0 0 0 0 (KERN_BASE - PAGE_SIZE)
  (KERN_BASE - PAGE_SIZE) (KERN_BASE - PAGE_SIZE) (KERN_BASE - PAGE_SIZE) KERN_BASE.

(** [um_t] without its slab allocator. *)
Record um_core (A : Type) := UmCore { lay : layout; vp_alct : vm A }.
Arguments UmCore {A}.
Arguments lay {A}.
Arguments vp_alct {A}.

Section core.
Context {A : Type} `{MmOps A}.
Context (junk : Z) (junk_type : vp_type).
Abbreviation M := (Prelude.M (um_core A)).

Definition on_vm {B} (m : Prelude.M (vm A) B) : M B :=
  zoom vp_alct (λ v s, UmCore (lay s) v) m.
Definition set_lay (l : layout) : M unit := modify (λ s, UmCore l (vp_alct s)).

Definition um_stack_alloc (size : Z) : M (Z * option Z) :=
  assert_ (size mod PAGE_SIZE =? 0) ;;;
  l <- gets lay ;;
  if free_e l <? add32 (free_s l) size then ret (E_NOMEM, None) else
  set_lay (Layout (exe_s l) (exe_e l) (heap_s l) (heap_e l) (free_s l) (sub32 (free_e l) size)
             (sub32 (stk_s l) size) (stk_e l) (args_s l) (args_e l)) ;;;
  ret (E_OK, Some (sub32 (stk_s l) size)).

Definition um_heap_alloc (size : Z) : M (Z * option Z) :=
  assert_ (size mod PAGE_SIZE =? 0) ;;;
  l <- gets lay ;;
  if free_e l <? add32 (free_s l) size then ret (E_NOMEM, None) else
  set_lay (Layout (exe_s l) (exe_e l) (heap_s l) (add32 (heap_e l) size) (add32 (free_s l) size)
             (free_e l) (stk_s l) (stk_e l) (args_s l) (args_e l)) ;;;
  ret (E_OK, Some (heap_e l)).

(** The end of [umalloc_page]: [vp->type = UM_NOPM], and its address. *)
Definition take_vp (vp : Z) : M (Z * option Z) :=
  v <- on_vm (vp_of vp) ;;
  on_vm (set_vp vp (VPage (vaddr v) (vsize v) (mx_size v) UM_NOPM (map_page v))) ;;;
  ret (E_OK, Some (vaddr v)).

Definition umalloc_page (size : Z) : M (Z * option Z) :=
  assert_ (size mod PAGE_SIZE =? 0) ;;;
  r <- on_vm (vm_alloc junk junk_type size) ;;
  match r with
  | (err, Some vp) => take_vp vp
  | (err, None) =>
      if err =? E_NOMEM then
        r <- um_heap_alloc size ;;
        match r with
        | (err, None) => ret (err, None)
        | (_, Some nm) =>
            err <- on_vm (vm_insert junk junk_type nm size) ;;
            if negb (err =? E_OK) then ret (err, None) else
            r <- on_vm (vm_alloc junk junk_type size) ;;
            match r with
            | (err, None) => ret (err, None)
            | (_, Some vp) => take_vp vp
            end
        end
      else ret (err, None)
  end.

(** [umalloc_slab] and [umfree_slab]: a page for the slab allocator is larger than
    [CONFIG_SZ_SLAB_ALLOC_MAX], so [umalloc] takes it from [umalloc_page]. *)
#[export] Instance um_source : PageSource (um_core A) := {
  ps_alloc :=
    r <- umalloc_page (ROUND_UP PAGE_SIZE PAGE_SIZE) ;;
    ret (match r with (_, Some p) => inr p | (err, None) => inl err end);
  ps_free _ := ret E_OK;
}.

(** [um_t]: the slab allocator over the rest. *)
Definition umalloc (size : Z) : Prelude.M (slab (um_core A)) (Z * option Z) :=
  if size =? 0 then ret (E_INVAL, None)
  else if size <=? CONFIG_SZ_SLAB_ALLOC_MAX then slab_alloc size
  else zoom pages (λ c s, Slab (freep s) (slab_lock s) (cnts s) c)
         (umalloc_page (ROUND_UP size PAGE_SIZE)).

Definition umfree (addr : Z) : Prelude.M (slab (um_core A)) Z := ret E_OK.

(** [um_init]; registering the system call is the caller's [syscall_register]. *)
Definition um_init (syscall_register : Prelude.M (slab (um_core A)) Z) :
    Prelude.M (slab (um_core A)) Z :=
  err <- zoom pages (λ c s, Slab (freep s) (slab_lock s) (cnts s) c) (on_vm vm_init) ;;
  if negb (err =? E_OK) then ret err else
  zoom pages (λ c s, Slab (freep s) (slab_lock s) (cnts s) c) (set_lay init_uvmlo) ;;;
  slab_init ;;;
  syscall_register.
End core.

(** ** Page faults *)

(** The process's memory, its page tables, and the bytes seen through them. *)
Record proc_mm (A P : Type) := ProcMm {
  pm_um : slab (um_core A); pm_ptb : ptb_st P; pm_vmem : pmem;
}.
Arguments ProcMm {A P}.
Arguments pm_um {A P}.
Arguments pm_ptb {A P}.
Arguments pm_vmem {A P}.

Section fault.
Context {A P : Type} `{MmOps A} `{PageAlloc P}.
Context (junk : Z) (junk_type : vp_type).
Abbreviation M := (Prelude.M (proc_mm A P)).

Definition um_vm {B} (m : Prelude.M (vm A) B) : M B :=
  zoom (λ s, vp_alct (pages (pm_um s)))
    (λ v s, ProcMm (Slab (freep (pm_um s)) (slab_lock (pm_um s)) (cnts (pm_um s))
                      (UmCore (lay (pages (pm_um s))) v)) (pm_ptb s) (pm_vmem s)) m.
Definition on_ptb {B} (m : Prelude.M (ptb_st P) B) : M B :=
  zoom pm_ptb (λ t s, ProcMm (pm_um s) t (pm_vmem s)) m.
Definition on_phys {B} (m : Prelude.M phys B) : M B :=
  zoom (λ s, Phys (pt_mmu (pm_ptb s)) (pm_vmem s))
    (λ h s, ProcMm (pm_um s) (set_mmu (ph_mmu h) (pm_ptb s)) (vmem h)) m.
Definition um_layout : M layout := gets (λ s, lay (pages (pm_um s))).

(** [vp->map_page = page; vp->type = UM_NORMAL;] *)
Definition own_page (vp page : Z) : M unit :=
  v <- um_vm (vp_of vp) ;;
  um_vm (set_vp vp (VPage (vaddr v) (vsize v) (mx_size v) UM_NORMAL page)).

Definition um_page_fault_hdl (pde errva : Z) : M Z :=
  l <- um_layout ;;
  if (args_s l <=? errva) && (errva <? args_e l) then
    page <- on_ptb alloc_page ;;
    match page with
    | inl err => ret err
    | inr page => on_ptb (ptb_map pde (args_s l) page true true)
    end
  else if (errva <? heap_s l) || (heap_e l <=? errva) then panic
  else
  r <- um_vm (vm_search_addr errva) ;;
  match r with
  | (err, None) => ret err
  | (_, Some vp) =>
      v <- um_vm (vp_of vp) ;;
      match vtype v with
      | UM_NOPM =>
          r <- um_vm (vm_slice junk junk_type vp (ROUND_DOWN errva PAGE_SIZE) PAGE_SIZE) ;;
          match r with
          | (err, None) => ret err
          | (_, Some vp) =>
              page <- on_ptb alloc_page ;;
              match page with
              | inl err => ret err
              | inr page =>
                  v <- um_vm (vp_of vp) ;;
                  err <- on_ptb (ptb_map pde (vaddr v) page true true) ;;
                  if negb (err =? E_OK) then ret err else
                  own_page vp page ;;; ret err
              end
          end
      | UM_NORMAL => hang
      | UM_RCU =>
          page <- on_ptb alloc_page ;;
          match page with
          | inl err => ret err
          | inr page =>
              on_phys (phyops_memcpy_v2p page (ROUND_DOWN errva PAGE_SIZE) PAGE_SIZE) ;;;
              err <- on_ptb (ptb_unmap pde (vaddr v)) ;;
              assert_ (err =? E_OK) ;;;
              err <- on_ptb (ptb_map pde (vaddr v) page true true) ;;
              if negb (err =? E_OK) then ret err else
              own_page vp page ;;; ret err
          end
      | KM_NORMAL => panic
      end
  end.
End fault.

(** ** Copying an address space *)

(** Parent, child, and the child's page tables. *)
Record fork_st (A P : Type) := ForkSt {
  fk_old : slab (um_core A); fk_new : slab (um_core A); fk_ptb : ptb_st P; fk_vmem : pmem;
}.
Arguments ForkSt {A P}.
Arguments fk_old {A P}.
Arguments fk_new {A P}.
Arguments fk_ptb {A P}.
Arguments fk_vmem {A P}.

Section fork.
Context {A P : Type} `{MmOps A} `{PageAlloc P}.
Context (junk : Z) (junk_type : vp_type).
Abbreviation M := (Prelude.M (fork_st A P)).

Definition with_vm (u : slab (um_core A)) (v : vm A) : slab (um_core A) :=
  Slab (freep u) (slab_lock u) (cnts u) (UmCore (lay (pages u)) v).
Definition vm_of (u : slab (um_core A)) : vm A := vp_alct (pages u).
Definition with_mm (v : vm A) (m : A) : vm A :=
  Vm (free_root v) (alloced_root v) (vnodes v) (vps v) (vm_lock v) m.

Definition old_vm {B} (m : Prelude.M (vm A) B) : M B :=
  zoom (λ s, vm_of (fk_old s))
    (λ v s, ForkSt (with_vm (fk_old s) v) (fk_new s) (fk_ptb s) (fk_vmem s)) m.
(** The two allocators take their structures from the same [kmalloc], whose state
    the parent's record holds. *)
Definition new_vm {B} (m : Prelude.M (vm A) B) : M B :=
  zoom (λ s, with_mm (vm_of (fk_new s)) (vm_mm (vm_of (fk_old s))))
    (λ v s, ForkSt (with_vm (fk_old s) (with_mm (vm_of (fk_old s)) (vm_mm v)))
              (with_vm (fk_new s) v) (fk_ptb s) (fk_vmem s)) m.
Definition child_ptb {B} (m : Prelude.M (ptb_st P) B) : M B :=
  zoom fk_ptb (λ t s, ForkSt (fk_old s) (fk_new s) t (fk_vmem s)) m.
Definition child_phys {B} (m : Prelude.M phys B) : M B :=
  zoom (λ s, Phys (pt_mmu (fk_ptb s)) (fk_vmem s))
    (λ h s, ForkSt (fk_old s) (fk_new s) (set_mmu (ph_mmu h) (fk_ptb s)) (vmem h)) m.

(** [rbt_rep] with a body that may leave the function; the bodies do not touch the
    tree that is walked. *)
Fixpoint rep_until (l : list Z) (body : Z → M (option Z)) : M (option Z) :=
  match l with
  | [] => ret None
  | p :: l' => r <- body p ;; match r with Some err => ret (Some err) | None => rep_until l' body end
  end.

Definition fork_alloced (pde p : Z) : M (option Z) :=
  vpo <- old_vm (vp_of p) ;;
  r <- new_vm (alloc_vp junk junk_type) ;;
  match r with
  | inl err => ret (Some err)
  | inr vpn =>
      v <- new_vm (vp_of vpn) ;;
      new_vm (set_vp vpn (VPage (vaddr vpo) (vsize vpo) (mx_size v) (vtype vpo) (map_page v))) ;;;
      r <- (match vtype vpo with
            | UM_NORMAL =>
                page <- child_ptb alloc_page ;;
                match page with
                | inl err => ret (Some err)
                | inr page =>
                    new_vm (set_vp vpn (VPage (vaddr vpo) (vsize vpo) (mx_size v) (vtype vpo) page)) ;;;
                    child_phys (phyops_memcpy_p2p page (map_page vpo) PAGE_SIZE) ;;;
                    child_ptb (ptb_map pde (vaddr vpo) page true true) ;;;
                    ret None
                end
            | _ => ret None
            end) ;;
      match r with
      | Some err => ret (Some err)
      | None => new_vm (vm_insert_alloced vpn) ;;; ret None
      end
  end.

Definition fork_free (p : Z) : M (option Z) :=
  vpo <- old_vm (vp_of p) ;;
  r <- new_vm (alloc_vp junk junk_type) ;;
  match r with
  | inl err => ret (Some err)
  | inr vpn =>
      v <- new_vm (vp_of vpn) ;;
      new_vm (set_vp vpn (VPage (vaddr vpo) (vsize vpo) (mx_size vpo) (vtype v) (map_page v))) ;;;
      new_vm (vm_insert_free vpn) ;;;
      ret None
  end.

Definition vm_fork (pde : Z) : M Z :=
  old_vm spin_lock ;;;
  new_vm vm_init ;;;
  l <- old_vm (on_alloced rbt_rep_list) ;;
  r <- rep_until l (fork_alloced pde) ;;
  match r with
  | Some err => ret err
  | None =>
      l <- old_vm (on_free rbt_rep_list) ;;
      r <- rep_until l fork_free ;;
      match r with
      | Some err => ret err
      | None => old_vm spin_unlock ;;; ret E_OK
      end
  end.

Definition um_fork (pde : Z) : M Z :=
  modify (λ s, ForkSt (fk_old s)
    (Slab (freep (fk_new s)) (slab_lock (fk_new s)) (cnts (fk_new s))
       (UmCore (lay (pages (fk_old s))) (vm_of (fk_new s)))) (fk_ptb s) (fk_vmem s)) ;;;
  err <- vm_fork pde ;;
  if negb (err =? E_OK) then ret err else
  r <- zoom fk_old (λ u s, ForkSt u (fk_new s) (fk_ptb s) (fk_vmem s)) slab_fork ;;
  modify (λ s, ForkSt (fk_old s)
    (Slab (snd r) false (cnts (fk_new s)) (pages (fk_new s))) (fk_ptb s) (fk_vmem s)) ;;;
  ret (fst r).
End fork.
