(* ===== verification/UmSpec.v ===== *)
(** * The memory of a process: the specification of kernel/memory/um.c

    The layout stays ordered and its areas never overlap; [umalloc_page] hands out
    ranges of the heap that overlap nothing; a fault on a page of the heap gives
    exactly that page a frame. *)
From S2P Require Import Prelude Machine Mmu Ptb Slab.
From S2P Require Import RbtModel RbtTree RbtProps RbtClient Phyops Vm VmSpec VmFree Um.

(** ** The layout *)
Record layout_ok (l : layout) : Prop := {
  lo_heap : 0 ≤ heap_s l ≤ heap_e l; lo_free_s : free_s l = heap_e l;
  lo_free : free_s l ≤ free_e l; lo_stk_s : stk_s l = free_e l;
  lo_stk : stk_s l ≤ stk_e l; lo_args : stk_e l ≤ args_s l ≤ args_e l;
  lo_top : args_e l ≤ KERN_BASE;
  lo_align : heap_e l mod 4096 = 0 ∧ free_e l mod 4096 = 0;
}.

Lemma init_layout_ok : layout_ok init_uvmlo.
Proof. by split. Qed.

Lemma mod_add_page x y : x mod 4096 = 0 → y mod 4096 = 0 → (x + y) mod 4096 = 0 ∧ (x - y) mod 4096 = 0.
Proof. intros Hx Hy. rewrite Z.add_mod, Zminus_mod, Hx, Hy by lia. done. Qed.

Section lay.
Context {A : Type} `{MmOps A}.
Implicit Types s : um_core A.

Lemma stack_alloc_spec s size :
  layout_ok (lay s) → 0 ≤ size → size mod 4096 = 0 → free_s (lay s) + size < W32 →
  wp (um_stack_alloc size) (λ r s', vp_alct s' = vp_alct s ∧
    match snd r with
    | Some a => fst r = E_OK ∧ layout_ok (lay s') ∧ a = stk_s (lay s') ∧ a + size = stk_s (lay s) ∧
        heap_e (lay s') = heap_e (lay s) ∧ free_s (lay s) ≤ a ∧ stk_e (lay s') = stk_e (lay s)
    | None => fst r = E_NOMEM ∧ s' = s ∧ free_e (lay s) < free_s (lay s) + size
    end) s.
Proof.
  intros [L1 L2 L3 L4 L5 L6 L7 [L8 L9]] Hs Hm Hw. unfold um_stack_alloc.
  apply wp_bind, wp_assert. change PAGE_SIZE with 4096. rewrite Hm. split; [done|].
  apply wp_bind, wp_gets. unfold add32. rewrite u32_small by (unfold is_u32; lia).
  case_match; [apply wp_ret; split; [done|]; cbn; split_and!; [done|done|lia]|].
  assert (KERN_BASE < W32) by done.
  unfold sub32. rewrite !u32_small by (unfold is_u32; lia).
  apply wp_bind, wp_modify, wp_ret. cbn. split; [done|]. split; [done|].
  destruct (mod_add_page (free_e (lay s)) size L9 Hm) as [_ Hm'].
  split_and!; try lia. split; cbn; try lia; done.
Qed.

Lemma heap_alloc_spec s size :
  layout_ok (lay s) → 0 ≤ size → size mod 4096 = 0 → free_s (lay s) + size < W32 →
  wp (um_heap_alloc size) (λ r s', vp_alct s' = vp_alct s ∧
    match snd r with
    | Some a => fst r = E_OK ∧ layout_ok (lay s') ∧ a = heap_e (lay s) ∧ heap_e (lay s') = a + size ∧
        heap_s (lay s') = heap_s (lay s) ∧ heap_e (lay s') ≤ free_e (lay s') ∧
        free_e (lay s') = free_e (lay s)
    | None => fst r = E_NOMEM ∧ s' = s ∧ free_e (lay s) < free_s (lay s) + size
    end) s.
Proof.
  intros [L1 L2 L3 L4 L5 L6 L7 [L8 L9]] Hs Hm Hw. unfold um_heap_alloc.
  apply wp_bind, wp_assert. change PAGE_SIZE with 4096. rewrite Hm. split; [done|].
  apply wp_bind, wp_gets. unfold add32. rewrite <- L2, !u32_small by (unfold is_u32; lia).
  case_match; [apply wp_ret; split; [done|]; cbn; split_and!; [done|done|lia]|].
  apply wp_bind, wp_modify, wp_ret. cbn. split; [done|]. split; [done|].
  destruct (mod_add_page (free_s (lay s)) size ltac:(congruence) Hm) as [Hm' _].
  split_and!; try lia. split; cbn; try lia; done.
Qed.

(** The sum in the test wraps: a request of almost 4 GiB passes it. *)
Lemma heap_alloc_wraps s size :
  layout_ok (lay s) → is_u32 size → size mod 4096 = 0 → W32 ≤ free_s (lay s) + size →
  wp (um_heap_alloc size) (λ r s', r = (E_OK, Some (heap_e (lay s))) ∧
    heap_e (lay s') = heap_e (lay s) + size - W32 ∧ heap_e (lay s') < heap_e (lay s)) s.
Proof.
  intros [L1 L2 L3 L4 L5 L6 L7 [L8 L9]] Hs Hm Hw. unfold um_heap_alloc, is_u32 in *.
  apply wp_bind, wp_assert. change PAGE_SIZE with 4096. rewrite Hm. split; [done|].
  assert (KERN_BASE < W32) by done.
  assert (Hadd : add32 (free_s (lay s)) size = free_s (lay s) + size - W32).
  { unfold add32, u32. symmetry. apply Z.mod_unique_pos with 1; lia. }
  apply wp_bind, wp_gets. cbv beta zeta. rewrite <- L2, Hadd, (proj2 (Z.ltb_ge _ _)) by lia.
  apply wp_bind, wp_modify, wp_ret. cbn. split; [done|lia].
Qed.
End lay.

(** The areas of an address space stay in order and apart:
    [um_stack_alloc] grows the stack down and [um_heap_alloc] grows the heap up, each
    by exactly the size asked for, out of the gap between them and never past the
    other; when the gap is too small they fail with [E_NOMEM] and change nothing. The
    guarantee holds for requests whose end does not wrap round 2^32: any larger
    request passes the test of [um_heap_alloc] and shrinks the heap. *)
Theorem um_layout_correct {A} `{MmOps A} (s : um_core A) size :
  layout_ok (lay s) → is_u32 size → size mod 4096 = 0 →
  (free_s (lay s) + size < W32 →
   wp (um_stack_alloc size) (λ r s', vp_alct s' = vp_alct s ∧
     match snd r with
     | Some a => fst r = E_OK ∧ layout_ok (lay s') ∧ a = stk_s (lay s') ∧ a + size = stk_s (lay s) ∧
         heap_e (lay s') = heap_e (lay s) ∧ free_s (lay s) ≤ a ∧ stk_e (lay s') = stk_e (lay s)
     | None => fst r = E_NOMEM ∧ s' = s ∧ free_e (lay s) < free_s (lay s) + size
     end) s ∧
   wp (um_heap_alloc size) (λ r s', vp_alct s' = vp_alct s ∧
     match snd r with
     | Some a => fst r = E_OK ∧ layout_ok (lay s') ∧ a = heap_e (lay s) ∧
         heap_e (lay s') = a + size ∧ heap_s (lay s') = heap_s (lay s) ∧
         heap_e (lay s') ≤ free_e (lay s') ∧ free_e (lay s') = free_e (lay s)
     | None => fst r = E_NOMEM ∧ s' = s ∧ free_e (lay s) < free_s (lay s) + size
     end) s) ∧
  (W32 ≤ free_s (lay s) + size →
   wp (um_heap_alloc size) (λ r s', r = (E_OK, Some (heap_e (lay s))) ∧
     heap_e (lay s') = heap_e (lay s) + size - W32 ∧ heap_e (lay s') < heap_e (lay s)) s).
Proof.
  intros Hl Hs Hm. split.
  - intros Hw. split; [apply stack_alloc_spec|apply heap_alloc_spec]; try done; unfold is_u32 in Hs; lia.
  - intros Hw. by apply heap_alloc_wraps.
Qed.

(** An empty heap at 0x1000. *)
Definition ex_layout : layout := Layout 0 0x1000 0x1000 0x1000 0x1000 (KERN_BASE - PAGE_SIZE)
  (KERN_BASE - PAGE_SIZE) (KERN_BASE - PAGE_SIZE) (KERN_BASE - PAGE_SIZE) KERN_BASE.
Lemma ex_layout_ok : layout_ok ex_layout.
Proof. by split. Qed.

Lemma um_layout_correct_witness :
  wp (um_heap_alloc 0xFFFFF000) (λ r s', r = (E_OK, Some 0x1000) ∧
     heap_e (lay s') = 0x1000 + 0xFFFFF000 - W32 ∧ heap_e (lay s') < 0x1000) (UmCore ex_layout ex_vm).
Proof.
  exact (proj2 (um_layout_correct (UmCore ex_layout ex_vm) 0xFFFFF000 ex_layout_ok ltac:(done)
    eq_refl) ltac:(done)).
Defined.

(** ** Ranges of the heap *)

(** All ranges lie in [lo .. hi). *)
Definition inside (lo hi : Z) (l : list (Z * Z)) : Prop :=
  Forall (λ r, lo ≤ fst r ∧ fst r + snd r ≤ hi) l.

Lemma inside_app lo hi l1 l2 : inside lo hi (l1 ++ l2) ↔ inside lo hi l1 ∧ inside lo hi l2.
Proof. apply Forall_app. Qed.
Lemma inside_cons lo hi r l :
  inside lo hi (r :: l) ↔ (lo ≤ fst r ∧ fst r + snd r ≤ hi) ∧ inside lo hi l.
Proof. unfold inside. by rewrite Forall_cons. Qed.
Lemma inside_mono lo hi hi' l : hi ≤ hi' → inside lo hi l → inside lo hi' l.
Proof. intros Hh Hl. eapply Forall_impl; [exact Hl|]. intros r Hr. simpl in *. lia. Qed.

Lemma joined_inside lo hi L r : joined L r → inside lo hi L → inside lo hi [r].
Proof.
  induction 1 as [r|L a n m Hj IH|L a n b m Hj IH Hb]; [done|..].
  - rewrite inside_app, !inside_cons. intros [[H1 H2]%IH%inside_cons [H3 _]]. simpl in *.
    rewrite inside_cons in *. split; [simpl; lia|constructor].
  - rewrite !inside_cons. intros [H1 [H2 _]%IH%inside_cons]. simpl in *. split; [lia|constructor].
Qed.

Lemma merged_inside lo hi F1 r F2 F' : merged F1 r F2 F' → inside lo hi (F1 ++ r :: F2) → inside lo hi F'.
Proof.
  intros (G1 & L & G2 & r' & -> & -> & Hj)%merged_run. rewrite !inside_app, inside_cons.
  intros (H1 & H2 & H3). split; [done|]. split; [|done]. by eapply joined_inside in H2 as [H2 _]%inside_cons.
Qed.

Section heap.
Context {A : Type} `{MmOpsLaws A}.
Context (junk : Z) (junk_type : vp_type).
Implicit Types s : um_core A.

(** The free and the allocated ranges of the process are ranges of its heap. *)
Record um_inv (F Al : list (Z * Z)) s : Prop := {
  ui_lay : layout_ok (lay s);
  ui_vm : vm_inv F Al (vp_alct s);
  ui_heap : inside (heap_s (lay s)) (heap_e (lay s)) (F ++ Al);
}.

(** Fields of a structure other than its range may change. *)
Lemma retype_inv F Al (v : vm A) p w w' :
  vm_inv F Al v → vps v !! p = Some w → vaddr w' = vaddr w → vsize w' = vsize w →
  vm_inv F Al (Vm (free_root v) (alloced_root v) (vnodes v) (<[p := w']> (vps v)) (vm_lock v) (vm_mm v)).
Proof.
  intros (Hlk & tf & ta & [H1 H2 H3 H4 H5 H6 H7] & HF & HA & Hg) Hw Ha Hs.
  set (v' := Vm _ _ _ _ _ _).
  assert (Hq : ∀ q, addr_of v' q = addr_of v q ∧ size_of v' q = size_of v q).
  { intros q. unfold addr_of, size_of. cbn. destruct (decide (q = p)) as [->|Hn].
    - rewrite lookup_insert_eq, Hw. simpl. by rewrite Ha, Hs.
    - by rewrite lookup_insert_ne. }
  assert (Hr : ∀ q, rng v' q = rng v q) by (intros q; unfold rng; by destruct (Hq q) as [-> ->]).
  split; [done|]. exists tf, ta. split; [split; try done|].
  - intros q Hi. cbn. destruct (decide (q = p)) as [->|]; [rewrite lookup_insert_eq; by eexists|].
    rewrite lookup_insert_ne by done. by apply H4.
  - intros _. eapply key_sorted_ext; [|exact (H6 eq_refl)]. intros q _. by rewrite (proj1 (Hq q)).
  - eapply key_sorted_ext; [|exact H7]. intros q _. by rewrite (proj1 (Hq q)).
  - split; [rewrite <- HF|split; [rewrite <- HA|done]]; by apply fmap_same.
Qed.

Lemma rng_vp (v : vm A) p a n : rng v p = (a, n) → n ≠ 0 →
  ∃ w, vps v !! p = Some w ∧ vaddr w = a ∧ vsize w = n.
Proof using Type.
  unfold rng, addr_of, size_of. destruct (vps v !! p) as [w|]; simpl; intros Hr Hn; simplify_eq. by exists w.
Qed.

Lemma take_vp_spec F Al s p a n :
  um_inv F Al s → rng (vp_alct s) p = (a, n) → n ≠ 0 →
  wp (take_vp p) (λ r s', r = (E_OK, Some a) ∧ um_inv F Al s' ∧ lay s' = lay s) s.
Proof.
  intros [Hl Hv Hh] Hr Hn. destruct (rng_vp _ _ _ _ Hr Hn) as (w & Hw & <- & <-).
  unfold take_vp. apply wp_bind, wp_zoom. unfold vp_of.
  apply wp_bind, wp_get, wp_deref. exists w. split; [done|].
  apply wp_bind, wp_zoom, wp_modify, wp_ret. split; [done|]. split; [|done]. split; [done| |done]. by eapply retype_inv.
Qed.

(** [vm_alloc] on the ranges of the heap. *)
Lemma alloc_in_heap F Al s size :
  um_inv F Al s → 0 < size → size mod 4096 = 0 → size + 4096 ≤ W32 →
  wp (on_vm (vm_alloc junk junk_type size)) (λ r s', lay s' = lay s ∧
    match r with
    | (err, Some p) => err = E_OK ∧ ∃ F' A1 A2 a, Al = A1 ++ A2 ∧ rng (vp_alct s') p = (a, size) ∧
        um_inv F' (A1 ++ (a, size) :: A2) s'
    | (err, None) => err ≠ E_OK ∧ um_inv F Al s'
    end) s.
Proof.
  intros [Hl Hv Hh] Hs Hm Hw.
  assert (Hru : ROUND_UP size PAGE_SIZE = size).
  { destruct (round_up_spec size PAGE_SIZE) as (H1 & H2 & H3); [done|lia|change PAGE_SIZE with 4096; lia|].
    change PAGE_SIZE with 4096 in *. pose proof (Z.div_mod (ROUND_UP size 4096) 4096 ltac:(lia)).
    pose proof (Z.div_mod size 4096 ltac:(lia)). lia. }
  apply wp_zoom. eapply wp_mono; [by apply (vm_alloc_spec junk junk_type F Al)|].
  cbv zeta. rewrite Hru. intros [err [p|]] v Hr; cbn [fst snd] in Hr; (split; [done|]).
  - destruct Hr as (-> & F1 & a & m & F2 & A1 & A2 & -> & -> & Hnm & Hrp & Hi%vm_at_inv). split; [done|].
    eexists _, A1, A2, a. split; [done|]. split; [done|]. split; [done|exact Hi|]. cbn.
    rewrite !inside_app, !inside_cons in *. destruct Hh as ((H1 & H2 & H3) & H4 & H5). simpl in *.
    split; [|split; [done|split; [lia|done]]]. split; [done|]. split; [|done].
    case_decide; [constructor|]. constructor; [simpl; lia|constructor].
  - destruct Hr as [He Hi]. split; [done|]. by split.
Qed.

Lemma umalloc_page_spec F Al s size :
  um_inv F Al s → 0 < size → size mod 4096 = 0 → free_s (lay s) + size < W32 →
  wp (umalloc_page junk junk_type size) (λ r s',
    match snd r with
    | Some a => fst r = E_OK ∧ ∃ F' A1 A2, Al = A1 ++ A2 ∧ um_inv F' (A1 ++ (a, size) :: A2) s'
    | None => fst r ≠ E_OK ∧ ∃ F', um_inv F' Al s'
    end) s.
Proof.
  intros Hi Hs Hm Hw. pose proof (ui_lay _ _ _ Hi) as Hlo.
  assert (Hsz : size + 4096 ≤ W32).
  { destruct Hlo. assert (0 ≤ free_s (lay s)) by lia.
    pose proof (Z.div_mod size 4096 ltac:(lia)). unfold W32 in *. lia. }
  unfold umalloc_page. apply wp_bind, wp_assert. change PAGE_SIZE with 4096. rewrite Hm. split; [done|].
  apply wp_bind. eapply wp_mono; [by apply (alloc_in_heap F Al)|].
  intros [err [p|]] s1 [Hl1 Hr].
  - destruct Hr as (-> & F' & A1 & A2 & a & -> & Hrp & Hi1).
    eapply wp_mono; [eapply take_vp_spec; [exact Hi1|exact Hrp|lia]|].
    intros r s2 (-> & Hi2 & _). split; [done|]. by exists F', A1, A2.
  - destruct Hr as [He Hi1]. destruct (Z.eqb_spec err E_NOMEM); [|apply wp_ret; split; [done|by exists F]].
    apply wp_bind. eapply wp_mono; [apply heap_alloc_spec; [apply Hi1|lia|done|by rewrite Hl1]|].
    intros [err2 [nm|]] s2 [Hv2 Hr2]; cbn [fst snd] in Hr2.
    2:{ destruct Hr2 as (-> & -> & _). apply wp_ret. split; [done|by exists F]. }
    destruct Hr2 as (-> & Hlo2 & -> & Hhe & Hhs & Hfe & Hfe2).
    destruct Hi1 as [Hlo1 Hv1 Hh1]. pose proof Hv1 as (_ & _ & _ & _ & _ & _ & Hg1).
    assert (HKB : KERN_BASE < W32) by done.
    assert (Hgeo : geom ((heap_e (lay s1), size) :: F ++ Al)).
    { apply geom_cons. split_and!; [|simpl|exact Hg1].
      - pose proof Hlo1 as [G1 G2 G3 G4 G5 G6 G7 [G8 G9]]. pose proof Hlo2 as [K1 K2 K3 K4 K5 K6 K7 _].
        unfold rng_ok. simpl. split_and!; try lia; done.
      - eapply Forall_impl; [exact Hh1|]. intros q Hq. unfold rng_disj. simpl in *. lia. }
    apply wp_bind, wp_zoom. rewrite Hv2.
    eapply wp_mono; [by eapply (vm_insert_spec junk junk_type F Al)|]. intros err3 v3 Hr3. cbn beta in *.
    assert (Hmono : inside (heap_s (lay s2)) (heap_e (lay s2)) (F ++ Al)).
    { rewrite Hhs. eapply inside_mono; [|exact Hh1]. lia. }
    revert Hr3. destruct (Z.eqb_spec err3 E_OK) as [->|Hne3]; intros Hr3; cbn [negb].
    2:{ destruct Hr3 as [Hr3 _]. apply wp_ret. split; [done|]. exists F. by split. }
    destruct Hr3 as (F1 & F2 & F' & -> & HM & Hv3).
    assert (Hi3 : um_inv F' Al (UmCore (lay s2) v3)).
    { split; [done|done|]. cbn. rewrite <- app_assoc, !inside_app in Hmono. destruct Hmono as (M1 & M2 & M3).
      apply inside_app. split; [|done]. eapply merged_inside; [exact HM|].
      rewrite inside_app, inside_cons. split; [done|]. split; [simpl; destruct Hlo1; lia|done]. }
    apply wp_bind. eapply wp_mono; [by apply (alloc_in_heap F' Al)|].
    intros [err4 [p|]] s4 [Hl4 Hr4].
    + destruct Hr4 as (-> & F'' & A1 & A2 & a & -> & Hrp & Hi4).
      eapply wp_mono; [eapply take_vp_spec; [exact Hi4|exact Hrp|lia]|].
      intros r s5 (-> & Hi5 & _). split; [done|]. by exists F'', A1, A2.
    + destruct Hr4 as [He4 Hi4]. apply wp_ret. split; [done|]. by exists F'.
Qed.
End heap.

(** [umalloc] as the source of the slabs' pages. *)
#[export] Instance um_source_laws {A} `{MmOpsLaws A} junk junk_type :
  @PageSourceLaws (um_core A) (um_source junk junk_type).
Proof.
  refine (@Build_PageSourceLaws _ (um_source junk junk_type)
    (λ c X, ∃ F Al, um_inv F Al c ∧ ∀ p, p ∈ X → ∃ n, (p, n) ∈ Al) _ _).
  - intros c X p c' (F & Al & HI & HX) Hal. pose proof (ui_lay _ _ _ HI) as [L1 L2 L3 L4 L5 L6 L7 [L8 L9]].
    pose proof (umalloc_page_spec junk junk_type F Al c (ROUND_UP PAGE_SIZE PAGE_SIZE) HI ltac:(done) ltac:(done)) as Hk.
    change (ROUND_UP PAGE_SIZE PAGE_SIZE) with 4096 in *. change PAGE_SIZE with 4096 in *.
    cbn [ps_alloc um_source] in Hal. change (ROUND_UP PAGE_SIZE PAGE_SIZE) with 4096 in Hal. unfold wp, bind, ret in *.
    assert (KERN_BASE + 4096 < W32) by done. specialize (Hk ltac:(lia)).
    destruct (umalloc_page _ _ _ c) as [[err [a|]] c1| | |]; [|done..]. cbn in Hk. injection Hal as <- <-.
    destruct Hk as (_ & F' & A1 & A2 & -> & HI').
    pose proof (ui_vm _ _ _ HI') as (_ & _ & _ & _ & _ & _ & Hg).
    assert (geom ((a, 4096) :: F' ++ A1 ++ A2)) as Hg' by (eapply geom_perm; [|exact Hg]; solve_Permutation).
    pose proof Hg' as ((G1 & G2 & G3 & G4 & _) & _)%geom_cons. cbn in G1, G3, G4.
    split_and!; [done|done|done| |].
    + intros (n & Hin)%HX. apply (geom_starts a 4096 _ (a, n) Hg'); [|done]. rewrite !elem_of_app in *. tauto.
    + exists F', (A1 ++ (a, 4096) :: A2). split; [done|]. intros q [->%elem_of_singleton|(n & Hin)%HX]%elem_of_union.
      * exists 4096. rewrite elem_of_app. right. left.
      * exists n. rewrite elem_of_app, elem_of_cons in *. tauto.
  - intros c X p (F & Al & HI & HX) _. apply wp_ret. exists F, Al. split; [done|]. intros q [Hq _]%elem_of_difference. by apply HX.
Defined.


(** A heap of six pages with one allocated range. *)
Definition ex_um : slab (um_core vp_pool) := Slab 0 false ∅
  (UmCore (Layout 0 0x10000 0x10000 0x21000 0x21000 (KERN_BASE - PAGE_SIZE) (KERN_BASE - PAGE_SIZE)
             (KERN_BASE - PAGE_SIZE) (KERN_BASE - PAGE_SIZE) KERN_BASE) ex_vm).

Lemma ex_um_inv : um_inv [(0x10000, 0x4000)] [(0x20000, 0x1000)] (pages ex_um).
Proof.
  split; [by split|apply ex_vm_inv|]. repeat (apply Forall_cons_2; [by split|]). constructor.
Qed.


(** ** Page faults *)
Lemma geom_distinct {A} (s : vm A) l p q :
  geom (rng s <$> l) → p ∈ l → q ∈ l → p ≠ q → rng_disj (rng s p) (rng s q).
Proof.
  intros [_ Hg]. induction l as [|x l IH]; [by intros ?%elem_of_nil|].
  inversion Hg as [|? ? H1 H2]; subst. rewrite Forall_forall in H1.
  intros [->|Hp]%elem_of_cons [->|Hq]%elem_of_cons Hne; [done|..].
  - apply H1. by apply list_elem_of_fmap_2.
  - apply rng_disj_sym, H1. by apply list_elem_of_fmap_2.
  - by apply IH.
Qed.

Lemma search_at {A} `{MmOps A} F A1 p a n A2 (v : vm A) x :
  vm_at F A1 p (a, n) A2 v → a ≤ x < a + n →
  wp (vm_search_addr x) (λ r v', v' = v ∧ r = (E_OK, Some p)) v.
Proof.
  intros (Hlk & tf & ta & l1 & l2 & Hok & He & HF & H1 & Hr & H2 & Hg) Hx.
  assert (Hga : geom (rng v <$> elems ta)).
  { rewrite He, fmap_app, fmap_cons, H1, H2, Hr. destruct Hg as [G1 G2]. split.
    - by apply Forall_app in G1 as [_ ?].
    - clear -G2. induction F as [|f F IH]; [done|]. inversion G2; auto. }
  assert (Hp : p ∈ elems ta) by (rewrite He, elem_of_app; right; left).
  unfold rng in Hr. injection Hr as Ha Hn.
  eapply wp_mono; [by eapply (vm_search_spec tf ta)|]. intros [err [q|]] v' [-> Hq]; cbn [fst snd] in Hq.
  - destruct Hq as (-> & Hq & Hqx). split; [done|]. destruct (decide (p = q)) as [->|Hne]; [done|].
    pose proof (geom_distinct v _ p q Hga Hp Hq Hne) as Hd. unfold rng_disj, rng in Hd. simpl in Hd. lia.
  - destruct Hq as [_ Hq]. exfalso. apply (Hq p Hp). lia.
Qed.

Lemma at_retype {A} `{MmOps A} F A1 p r A2 (v : vm A) w w' :
  vm_at F A1 p r A2 v → vps v !! p = Some w → vaddr w' = vaddr w → vsize w' = vsize w →
  vm_at F A1 p r A2 (Vm (free_root v) (alloced_root v) (vnodes v) (<[p := w']> (vps v)) (vm_lock v) (vm_mm v)).
Proof.
  intros (Hlk & tf & ta & l1 & l2 & [H1 H2 H3 H4 H5 H6 H7] & He & HF & HA1 & Hr & HA2 & Hg) Hw Ha Hs.
  set (v' := Vm _ _ _ _ _ _).
  assert (Hq : ∀ q, addr_of v' q = addr_of v q ∧ size_of v' q = size_of v q).
  { intros q. unfold addr_of, size_of. cbn. destruct (decide (q = p)) as [->|Hn].
    - rewrite lookup_insert_eq, Hw. simpl. by rewrite Ha, Hs.
    - by rewrite lookup_insert_ne. }
  assert (Hrr : ∀ q, rng v' q = rng v q) by (intros q; unfold rng; by destruct (Hq q) as [-> ->]).
  split; [done|]. exists tf, ta, l1, l2. split; [split; try done|].
  - intros q Hi. cbn. destruct (decide (q = p)) as [->|]; [rewrite lookup_insert_eq; by eexists|].
    rewrite lookup_insert_ne by done. by apply H4.
  - intros _. eapply key_sorted_ext; [|exact (H6 eq_refl)]. intros q _. by rewrite (proj1 (Hq q)).
  - eapply key_sorted_ext; [|exact H7]. intros q _. by rewrite (proj1 (Hq q)).
  - split; [done|]. rewrite <- HF, <- HA1, <- HA2, Hrr.
    split; [by apply fmap_same|]. split; [by apply fmap_same|]. split; [done|].
    split; [by apply fmap_same|]. by rewrite HF, HA1, HA2.
Qed.

Lemma vp_get_end {A} (v : vm A) p w Q : vps v !! p = Some w → Q w v → wp (vp_of p) Q v.
Proof. intros Hp HQ. unfold vp_of. apply wp_bind, wp_get, wp_deref. eauto. Qed.

Section fault.
Context {A P : Type} `{MmOpsLaws A} `{PageAllocLaws P}.
Context (junk : Z) (junk_type : vp_type).
Implicit Types s : proc_mm A P.

Definition vm_part s : vm A := vp_alct (pages (pm_um s)).
Definition lay_part s : layout := lay (pages (pm_um s)).

(** What a served fault leaves behind: the page has a frame that nobody used, and a
    structure of its own that says so. *)
Record served pde F A1 a n A2 pg s s' : Prop := {
  sv_lay : lay_part s' = lay_part s;
  sv_ptb : ptb_inv pde (pm_ptb s');
  sv_page : ∃ q w fr, (fr ∉ pg_used (pt_pages (pm_ptb s))) ∧ translate (pm_ptb s') pde pg = Some fr ∧
    vm_at F (A1 ++ left_over a pg) q (pg, 4096) (right_over (pg + 4096) (a + n) ++ A2) (vm_part s') ∧
    vps (vm_part s') !! q = Some w ∧ vtype w = UM_NORMAL ∧ map_page w = fr;
  sv_other : ∀ va, is_u32 va → va / 4096 ≠ pg / 4096 →
    translate (pm_ptb s') pde va = translate (pm_ptb s) pde va;
}.

Lemma more_frames pde (t : ptb_st P) u r :
  ptb_inv pde t → page_alloc (pt_pages t) = (r, u) → ptb_inv pde (PtbSt (pt_mmu t) (ptb_lock t) u).
Proof.
  intros [I1 I2 I3 I4 I5] Hal.
  assert (Hsub : pg_used (pt_pages t) ⊆ pg_used u).
  { destruct r as [e|p]; [apply page_alloc_err in Hal as [_ ->]|apply page_alloc_ok in Hal as (_ & _ & _ & ->)];
      set_solver. }
  split; cbn; try done; [by apply Hsub|]. intros va Hv Hp. by apply Hsub, I5.
Qed.

(** What a fault on the page [pg] of the range [p] is refused for: the range cannot be cut
    ([vm_slice] gets no structure), there is no frame, or none for a page table that is
    missing. *)
Definition refused (pde p pg : Z) s : Prop :=
  (∃ e v, vm_slice junk junk_type p pg PAGE_SIZE (vm_part s) = Ret (e, None) v) ∨
  (∃ e u, page_alloc (pt_pages (pm_ptb s)) = (inl e, u)) ∨
  (∃ fr u e u', page_alloc (pt_pages (pm_ptb s)) = (inr fr, u) ∧ page_alloc u = (inl e, u') ∧
     present (rd32 (pm (pt_mmu (pm_ptb s))) (pde_at pde pg)) = false).

Lemma page_fault_spec pde errva F A1 p a n A2 s :
  layout_ok (lay_part s) → heap_s (lay_part s) ≤ errva < heap_e (lay_part s) →
  vm_at F A1 p (a, n) A2 (vm_part s) → type_of (vm_part s) p = Some UM_NOPM → a ≤ errva < a + n →
  ptb_inv pde (pm_ptb s) → translate (pm_ptb s) pde (errva - errva mod 4096) = None →
  wp (um_page_fault_hdl junk junk_type pde errva) (λ err s',
    (err = E_OK ∧ ¬ refused pde p (errva - errva mod 4096) s ∧ served pde F A1 a n A2 (errva - errva mod 4096) s s') ∨
    (err ≠ E_OK ∧ refused pde p (errva - errva mod 4096) s ∧
      ∀ va, is_u32 va → translate (pm_ptb s') pde va = translate (pm_ptb s) pde va)) s.
Proof.
  intros Hlo Hh Hat Hty Hx Hpt Htr. set (pg := errva - errva mod 4096) in *.
  pose proof Hlo as [L1 L2 L3 L4 L5 L6 L7 L8].
  pose proof (vm_at_inv _ _ _ _ _ _ Hat) as (_ & _ & _ & _ & _ & _ & [Hgok _]).
  apply Forall_app in Hgok as [_ [_ [Hrng _]%Forall_cons]%Forall_app].
  destruct Hrng as (R1 & R2 & R3 & R4 & R5). simpl in R1, R2, R3, R4, R5.
  pose proof (Z.mod_pos_bound errva 4096 ltac:(lia)) as Hmb.
  assert (Hpm : pg mod 4096 = 0) by (unfold pg; rewrite Zminus_mod, Z.mod_mod, Z.sub_diag by lia; done).
  assert (Hpa : a ≤ pg ∧ pg + 4096 ≤ a + n).
  { pose proof (Z.div_mod pg 4096 ltac:(lia)). pose proof (Z.div_mod a 4096 ltac:(lia)).
    pose proof (Z.div_mod n 4096 ltac:(lia)). unfold pg in *. lia. }
  assert (Hru : ROUND_DOWN errva PAGE_SIZE = pg).
  { unfold ROUND_DOWN. change PAGE_SIZE with 4096. unfold pg. pose proof (Z.div_mod errva 4096 ltac:(lia)). lia. }
  unfold um_page_fault_hdl. apply wp_bind, wp_gets. cbv beta. change (lay (pages (pm_um s))) with (lay_part s).
  replace (args_s (lay_part s) <=? errva) with false by (symmetry; apply Z.leb_gt; lia). cbn [andb].
  replace (errva <? heap_s (lay_part s)) with false by (symmetry; apply Z.ltb_ge; lia).
  replace (heap_e (lay_part s) <=? errva) with false by (symmetry; apply Z.leb_gt; lia). cbn [orb].
  apply wp_bind, wp_zoom. fold (vm_part s). eapply wp_mono; [by eapply search_at|].
  intros ? ? [-> ->]. cbv beta iota.
  destruct (type_of (vm_part s) p) as [t|] eqn:Htp; [|done]. injection Hty as ->.
  unfold type_of in Htp. destruct (vps (vm_part s) !! p) as [w|] eqn:Hw; [|done]. injection Htp as Hwt.
  apply wp_bind, wp_zoom. cbn [pm_um pages vp_alct]. eapply vp_get_end; [exact Hw|].
  rewrite Hwt, Hru.
  (* slicing *)
  apply wp_bind, wp_zoom. cbn [pm_um pages vp_alct]. change (vp_alct (pages (pm_um s))) with (vm_part s).
  assert (wp (vm_slice junk junk_type p pg PAGE_SIZE) (λ r v', match snd r with
    | Some q => fst r = E_OK ∧ type_of v' q = Some UM_NOPM ∧
        vm_at F (A1 ++ left_over a pg) q (pg, PAGE_SIZE) (right_over (pg + PAGE_SIZE) (a + n) ++ A2) v'
    | None => fst r ≠ E_OK ∧ ∃ X, X ⊆ left_over a pg ∧ vm_inv F (A1 ++ X ++ A2) v'
    end) (vm_part s)) as Hr1.
  { eapply (vm_slice_spec junk junk_type F A1 p a n A2 pg PAGE_SIZE); change PAGE_SIZE with 4096;
      [exact Hat|unfold type_of; rewrite Hw; by rewrite <- Hwt|lia|lia|lia|done|done]. }
  unfold wp at 1. unfold wp in Hr1. destruct (vm_slice junk junk_type p pg PAGE_SIZE (vm_part s)) as [[err [q|]] v1| | |] eqn:Hsl;
    cbn [fst snd] in Hr1; [|destruct Hr1 as [He _]; apply wp_ret; right; split; [done|]; split; [left; by exists err, v1|done]|done..].
  destruct Hr1 as (-> & Htq & Hat1). change PAGE_SIZE with 4096 in Hat1.
  (* the frame *)
  apply wp_bind, wp_zoom. cbn [pm_ptb]. unfold alloc_page. apply wp_bind, wp_get.
  destruct (page_alloc (pt_pages (pm_ptb s))) as [[e|fr] u] eqn:Hal; apply wp_bind, wp_put, wp_ret.
  { apply wp_ret. right. split; [by apply page_alloc_err in Hal as [He _]|]. split; [right; left; by exists e, u|done]. }
  pose proof (more_frames _ _ _ _ Hpt Hal) as Hpt1. pose proof Hal as (Hf4 & Hfu & Hfn & _)%page_alloc_ok.
  (* the mapping *)
  unfold type_of in Htq. destruct (vps v1 !! q) as [w1|] eqn:Hw1; [|done]. injection Htq as Htq.
  assert (Hw1a : vaddr w1 = pg ∧ vsize w1 = 4096).
  { destruct Hat1 as (_ & tf & ta & l1 & l2 & _ & _ & _ & _ & Hr & _). unfold rng, addr_of, size_of in Hr.
    rewrite Hw1 in Hr. simpl in Hr. by simplify_eq. }
  apply wp_bind, wp_zoom. cbn [pm_um pages vp_alct]. eapply vp_get_end; [exact Hw1|].
  destruct Hw1a as [Hwa Hws]. rewrite Hwa.
  apply wp_bind, wp_zoom. cbn [pm_ptb]. eapply wp_mono.
  { apply (ptb_map_spec pde pg fr true true); try done. unfold is_u32. lia. }
  intros err t' Hm. cbv beta in Hm. cbn [pt_pages pt_mmu] in Hm.
  assert (HmP : (err ≠ E_OK ∧ refused pde p pg s ∧ pm (pt_mmu t') = pm (pt_mmu (pm_ptb s))) ∨
    (¬ refused pde p pg s ∧ map_post pde pg fr true true (PtbSt (pt_mmu (pm_ptb s)) (ptb_lock (pm_ptb s)) u) err t')).
  { unfold refused. destruct (present _) eqn:Hpr; [|destruct (page_alloc u) as [[e|f] u'] eqn:Hal2; cbn [fst] in Hm].
    - right. split; [|done]. rewrite Hsl, Hal. intros [(?&?&?)|[(?&?&?)|(?&?&?&?&?&?&?)]]; done.
    - left. destruct Hm as (-> & _ & Hm). split; [by apply page_alloc_err in Hal2 as [He _]|]. split; [|done].
      right; right. by exists fr, u, e, u'.
    - right. split; [|done]. rewrite Hsl, Hal. intros [(?&?&?)|[(?&?&?)|(?&?&?&?&?&?&?)]]; simplify_eq; congruence. }
  clear Hm. destruct HmP as [(He & Href & Hm)|(Href & Hpt2 & Hm)].
  { rewrite (proj2 (Z.eqb_neq _ _) He). cbn [negb]. apply wp_ret. right. split; [done|]. split; [done|].
    intros va _. unfold translate. cbn. by rewrite Hm. }
  unfold translate in Hm at 1. cbn [pt_mmu] in Hm. unfold translate in Htr. rewrite Htr in Hm.
  destruct Hm as (-> & Hm1 & Hm2). change (negb (E_OK =? E_OK)) with false. cbv iota.
  unfold own_page. apply wp_bind, wp_bind, wp_zoom. cbn [pm_um pages vp_alct]. eapply vp_get_end; [exact Hw1|].
  apply wp_zoom, wp_modify. cbn [pm_um pages vp_alct]. apply wp_ret. left. split; [done|]. split; [done|].
  split; [done|done| |].
  - exists q, (VPage (vaddr w1) (vsize w1) (mx_size w1) UM_NORMAL fr), fr. split; [done|]. split; [done|].
    split; [by eapply at_retype|]. split; [|done]. cbn. by rewrite lookup_insert_eq.
  - intros va Hva Hne. exact (Hm2 va Hva Hne).
Qed.
End fault.

(** A fault on an unmapped page of the heap gives that page, and no other, a
    frame: [um_page_fault_hdl] maps exactly the faulting page to a frame
    nobody used, cuts the page's structure out of its range, records the frame and
    the new type in it, keeps tables and ranges well-formed and returns [E_OK]; only
    when there is no structure, no frame or no page for a table it reports an error, and
    then no translation changes. It never panics and never spins on such a fault. *)
Theorem um_page_fault_correct {A P} `{MmOpsLaws A} `{PageAllocLaws P} junk junk_type
    pde errva F A1 p a n A2 (s : proc_mm A P) :
  layout_ok (lay_part s) → heap_s (lay_part s) ≤ errva < heap_e (lay_part s) →
  vm_at F A1 p (a, n) A2 (vm_part s) → type_of (vm_part s) p = Some UM_NOPM → a ≤ errva < a + n →
  ptb_inv pde (pm_ptb s) → translate (pm_ptb s) pde (errva - errva mod 4096) = None →
  wp (um_page_fault_hdl junk junk_type pde errva) (λ err s',
    (err = E_OK ∧ ¬ refused junk junk_type pde p (errva - errva mod 4096) s ∧ served pde F A1 a n A2 (errva - errva mod 4096) s s') ∨
    (err ≠ E_OK ∧ refused junk junk_type pde p (errva - errva mod 4096) s ∧
      ∀ va, is_u32 va → translate (pm_ptb s') pde va = translate (pm_ptb s) pde va)) s.
Proof. intros. by eapply page_fault_spec. Qed.

(** A fault in the middle of an allocated range of three pages. *)
Definition ex_proc : proc_mm vp_pool frames := ProcMm
  (Slab 0 false ∅ (UmCore (Layout 0 0x10000 0x10000 0x23000 0x23000 (KERN_BASE - PAGE_SIZE)
     (KERN_BASE - PAGE_SIZE) (KERN_BASE - PAGE_SIZE) (KERN_BASE - PAGE_SIZE) KERN_BASE) ex_vm3))
  (PtbSt ex_mmu false (Frames [0x7000; 0x8000] {[0x1000; 0x2000]})) ∅.

Lemma um_page_fault_correct_witness :
  wp (um_page_fault_hdl 7 UM_NOPM 0x1000 0x21234) (λ err s',
    (err = E_OK ∧ ¬ refused 7 UM_NOPM 0x1000 128 0x21000 ex_proc ∧
       served 0x1000 [(0x10000, 0x4000)] [] 0x20000 0x3000 [] 0x21000 ex_proc s') ∨
    (err ≠ E_OK ∧ refused 7 UM_NOPM 0x1000 128 0x21000 ex_proc ∧ ∀ va, is_u32 va →
       translate (pm_ptb s') 0x1000 va = translate (pm_ptb ex_proc) 0x1000 va)) ex_proc.
Proof.
  refine (um_page_fault_correct 7 UM_NOPM 0x1000 0x21234 _ _ 128 _ _ _ ex_proc _ _ ex_vm3_at eq_refl _ _ _).
  - by split.
  - by vm_compute.
  - lia.
  - destruct ex_ptb_inv as [I1 I2 I3 I4 I5]. by split.
  - by vm_compute.
Defined.
