(* ===== verification/Kmem.v ===== *)
(** * Kernel memory: kernel/memory/memory.c

    [kmalloc_page] joins the three allocators of the kernel's memory: a block of frames
    from the buddy system (here an interface), a range of kernel addresses (Vm) and the
    kernel's page tables (Ptb). [kmalloc] serves small sizes from the slabs. *)
From S2P Require Import Prelude Machine Mmu RbtModel RbtTree RbtClient Ptb Slab Vm VmSpec VmFree Um UmSpec.

(** What memory.c relies on of [pm_alloc] and [pm_free], beside [page_alloc]: a new
    block is page-aligned frames nobody uses; the address of its structure and its
    physical address are the result. [pm_block] are the frames of a structure's block. *)
Class PhysMem (P : Type) `{PageAlloc P} := {
  pm_alloc : Z → P → (Z + Z * Z) * P;
  pm_free : Z → P → Z * P;
  pm_block : P → Z → gset Z;
}.
Class PhysMemLaws (P : Type) `{PhysMem P} := {
  pm_alloc_ok : ∀ n a pp pa a', 0 < n → n mod 4096 = 0 → pm_alloc n a = (inr (pp, pa), a') →
    pa mod 4096 = 0 ∧ 0 ≤ pa ∧ pa + n ≤ W32 ∧
    (∀ i, 0 ≤ i < n / 4096 → pa + 4096 * i ∈ pm_block a' pp) ∧
    pm_block a' pp ## pg_used a ∧ pg_used a' = pm_block a' pp ∪ pg_used a;
  pm_alloc_err : ∀ n a e a', pm_alloc n a = (inl e, a') → e ≠ E_OK ∧ a' = a;
  pm_free_ok : ∀ a pp e a', pm_free pp a = (e, a') → pg_used a ∖ pm_block a pp ⊆ pg_used a';
  pm_page_block : ∀ a r a' pp, page_alloc a = (r, a') → pm_block a pp ≠ ∅ → pm_block a' pp = pm_block a pp;
}.

(** The kernel's addresses and its page tables; the frames are those of the tables'
    allocator. *)
Record kmem (A P : Type) := KMem { k_vm : vm A; k_ptb : ptb_st P }.
Arguments KMem {A P}.
Arguments k_vm {A P}.
Arguments k_ptb {A P}.

Section code.
Context {A P : Type} `{MmOps A} `{PhysMem P}.
(** The directory of process 0, and what a new [struct vpage_t] holds. *)
Context (pde junk : Z) (junk_type : vp_type).
Abbreviation M := (Prelude.M (kmem A P)).

Definition on_vm {B} (m : Prelude.M (vm A) B) : M B := zoom k_vm (λ v s, KMem v (k_ptb s)) m.
Definition on_ptb {B} (m : Prelude.M (ptb_st P) B) : M B := zoom k_ptb (λ t s, KMem (k_vm s) t) m.
Definition set_pm (a : P) : M unit :=
  on_ptb (modify (λ t, PtbSt (pt_mmu t) (ptb_lock t) a)).
Definition get_pm : M P := gets (λ s, pt_pages (k_ptb s)).

Definition block_alloc (size : Z) : M (Z + Z * Z) :=
  a <- get_pm ;; let '(r, a) := pm_alloc size a in set_pm a ;;; ret r.
Definition block_free (pp : Z) : M Z :=
  a <- get_pm ;; let '(e, a) := pm_free pp a in set_pm a ;;; ret e.

(** The loop that maps the pages: [None] when all are. *)
Definition map_body (vp pa size s : Z) : M (Z + option Z) :=
  if s <? size then
    v <- on_vm (vp_of vp) ;;
    err <- on_ptb (ptb_map pde (add32 (vaddr v) s) (add32 pa s) false true) ;;
    if negb (err =? E_OK) then ret (inr (Some err)) else ret (inl (add32 s PAGE_SIZE))
  else ret (inr None).

(** The second part is what [*vp] holds afterwards, if it was set. *)
Definition kmalloc_page (size : Z) : M (Z * option Z) :=
  let size := ROUND_UP size PAGE_SIZE in
  r <- block_alloc size ;;
  match r with
  | inl err => ret (err, None)
  | inr (pp, pa) =>
      r <- on_vm (vm_alloc junk junk_type size) ;;
      match r with
      | (err, None) => block_free pp ;;; ret (err, None)
      | (_, Some vp) =>
          v <- on_vm (vp_of vp) ;;
          on_vm (set_vp vp (VPage (vaddr v) (vsize v) (mx_size v) KM_NORMAL (map_page v))) ;;;
          r <- loop (S (S (Z.to_nat (size / PAGE_SIZE)))) (map_body vp pa size) 0 ;;
          match r with
          | Some err => on_vm (vm_free vp) ;;; block_free pp ;;; ret (err, Some vp)
          | None =>
              v <- on_vm (vp_of vp) ;;
              on_vm (set_vp vp (VPage (vaddr v) (vsize v) (mx_size v) (vtype v) pp)) ;;;
              ret (E_OK, Some vp)
          end
      end
  end.

(** The branch of [kmalloc] for more than CONFIG_SZ_SLAB_ALLOC_MAX bytes: [vp->addr]
    is read whether [vp] was set or not. *)
Definition kmalloc_big (size : Z) : M (Z * option Z) :=
  r <- kmalloc_page (ROUND_UP size PAGE_SIZE) ;;
  vp <- deref (snd r) ;;
  v <- on_vm (vp_of vp) ;;
  ret (fst r, Some (vaddr v)).

(** The slabs take their pages from [kmalloc] itself; [kmfree] does nothing. *)
#[export] Instance kmem_source : PageSource (kmem A P) := {
  ps_alloc := r <- kmalloc_big PAGE_SIZE ;;
    match r with (err, Some a) => ret (if err =? E_OK then inr a else inl err) | (err, None) => ret (inl err) end;
  ps_free _ := ret E_OK;
}.

Definition kmalloc (size : Z) : Prelude.M (slab (kmem A P)) (Z * option Z) :=
  if size =? 0 then ret (E_INVAL, None) else
  if size <=? CONFIG_SZ_SLAB_ALLOC_MAX then slab_alloc size
  else zoom pages (λ a s, Slab (freep s) (slab_lock s) (cnts s) a) (kmalloc_big size).

(** Its body is commented out. *)
Definition kmfree (addr : Z) : Prelude.M (slab (kmem A P)) Z := ret E_OK.
End code.

(** ** What the kernel's memory promises *)
Definition within (l : list (Z * Z)) (x : Z) : Prop := ∃ r, r ∈ l ∧ fst r ≤ x < fst r + snd r.

Section spec.
Context {A P : Type} `{MmOpsLaws A} `{PageAllocLaws P} `{!PhysMem P} `{!PhysMemLaws P}.
Context (pde junk : Z) (junk_type : vp_type).
Implicit Types s : kmem A P.

Definition kmap s (va : Z) : option Z := translate (k_ptb s) pde va.

(** Free addresses are unmapped; an address in use has a frame in use of its own. *)
Record kmem_inv (F Al : list (Z * Z)) s : Prop := {
  ki_vm : vm_inv F Al (k_vm s);
  ki_ptb : ptb_inv pde (k_ptb s);
  ki_free : ∀ va, within F va → kmap s va = None;
  ki_used : ∀ va, within Al va → ∃ pa, kmap s va = Some pa ∧ pa ∈ pg_used (pt_pages (k_ptb s));
  ki_inj : ∀ va va' pa, within Al va → within Al va' → kmap s va = Some pa → kmap s va' = Some pa →
    va / 4096 = va' / 4096;
}.

(** [ptb_map] takes at most one frame, from [page_alloc]. *)
Lemma ptb_map_pages va pa usr wtb (t : ptb_st P) : wlp (ptb_map pde va pa usr wtb) (λ _ t',
  pt_pages t' = pt_pages t ∨ pt_pages t' = snd (page_alloc (pt_pages t))) t.
Proof.
  assert (∀ B (m : Prelude.M mmu B) Q (t1 : ptb_st P), (∀ b m1, Q b (set_mmu m1 t1)) → wlp (on_mmu m) Q t1) as Hm.
  { intros B m Q t1 HQ. apply wlp_zoom. apply wlp_always. intros. apply HQ. }
  unfold ptb_map. apply wlp_bind. destruct (_ && _); [|done]. apply wlp_ret.
  unfold Ptb.spin_lock. apply wlp_bind. unfold wlp at 1, bind, get. destruct (ptb_lock t); [done|]. cbn.
  apply wlp_bind, Hm. intros r m1. apply wlp_bind.
  destruct (fst r =? E_NOTFOUND).
  - unfold alloc_page. apply wlp_bind, wlp_bind. unfold wlp at 1, bind, get. cbn.
    destruct (page_alloc (pt_pages t)) as [[e|p] a]; cbn.
    + apply wlp_ret, wlp_ret. by right.
    + apply wlp_bind, Hm. intros ? m2. apply wlp_bind, Hm. intros ? m3. apply wlp_ret, wlp_bind, Hm.
      intros e m4. by right.
  - apply wlp_ret, wlp_bind, Hm. intros e m2. by left.
Qed.

Lemma walk_page m p va va' : is_u32 va → is_u32 va' → va / 4096 = va' / 4096 → walk m p va = walk m p va'.
Proof.
  intros Hva Hva' He. unfold walk, pde_at, pte_at. rewrite !pde_offset_eq, !pte_offset_eq by done.
  assert (va / 2 ^ 22 = va' / 2 ^ 22) as ->.
  { change (2 ^ 22) with (4096 * 1024). rewrite <- !Z.div_div by lia. by rewrite He. }
  change (2 ^ 12) with 4096. by rewrite He.
Qed.

(** What other users of the frames may rely on. *)
Definition grown (a a' : P) : Prop := pg_used a ⊆ pg_used a' ∧ ∀ pp, pm_block a pp ≠ ∅ → pm_block a' pp = pm_block a pp.

Lemma grown_page a r a' : page_alloc a = (r, a') → grown a a'.
Proof.
  intros Hp. split; [|intros pp; by eapply pm_page_block].
  destruct r as [e|p]; [apply page_alloc_err in Hp as [_ ->]|apply page_alloc_ok in Hp as (_ & _ & _ & ->)]; set_solver.
Qed.

(** The first [4096 * i] bytes from [a] are mapped to those from [pa]; all else is as in [t0]. *)
Definition mapped (t0 : ptb_st P) (a pa i : Z) (t : ptb_st P) : Prop := ∀ va, is_u32 va →
  translate t pde va = if (a <=? va) && (va <? a + 4096 * i) then Some (pa + 4096 * ((va - a) / 4096))
                       else translate t0 pde va.

Lemma mapped_next t0 a pa i t t' : 0 ≤ i → a mod 4096 = 0 → is_u32 (a + 4096 * i) →
  a + 4096 * i + 4096 < W32 → mapped t0 a pa i t → translate t' pde (a + 4096 * i) = Some (pa + 4096 * i) →
  (∀ va', is_u32 va' → va' / 4096 ≠ (a + 4096 * i) / 4096 → translate t' pde va' = translate t pde va') →
  mapped t0 a pa (i + 1) t'.
Proof.
  intros Hi Ha Hau Hw Hm Hh Ho va Hv.
  pose proof (Z.div_mod a 4096 ltac:(lia)) as Hda. rewrite Ha in Hda.
  pose proof (Z.div_mod va 4096 ltac:(lia)) as Hdv. pose proof (Z.mod_pos_bound va 4096 ltac:(lia)).
  assert ((a + 4096 * i) / 4096 = a / 4096 + i) as Hd.
  { rewrite (Z.mul_comm 4096 i), Z.div_add by lia. done. }
  assert ((va - a) / 4096 = va / 4096 - a / 4096) as Hq.
  { replace (va - a) with (va + (- (a / 4096)) * 4096) by lia. rewrite Z.div_add by lia. lia. }
  destruct (decide (va / 4096 = a / 4096 + i)) as [He|Hne].
  - unfold translate in *. rewrite (walk_page _ pde va (a + 4096 * i)), Hh by (done || lia).
    replace ((a <=? va) && (va <? a + 4096 * (i + 1))) with true by (symmetry; apply andb_true_intro; lia).
    do 2 f_equal. lia.
  - rewrite Ho, Hm by (done || lia).
    destruct (Z.leb_spec a va); [|done]. simpl.
    destruct (Z.ltb_spec va (a + 4096 * i)), (Z.ltb_spec va (a + 4096 * (i + 1))); try done; lia.
Qed.

Lemma map_loop_spec vp w a pa n N s :
  vps (k_vm s) !! vp = Some w → vaddr w = a → 0 < N → n = 4096 * N → 0 ≤ a → a + n < W32 → a mod 4096 = 0 →
  0 ≤ pa → pa + n ≤ W32 → pa mod 4096 = 0 → ptb_inv pde (k_ptb s) →
  (∀ va, a ≤ va < a + n → kmap s va = None) →
  wp (loop (S (S (Z.to_nat N))) (map_body pde vp pa n) 0) (λ r s', k_vm s' = k_vm s ∧
    grown (pt_pages (k_ptb s)) (pt_pages (k_ptb s')) ∧
    match r with
    | None => ptb_inv pde (k_ptb s') ∧ mapped (k_ptb s) a pa N (k_ptb s')
    | Some e => e ≠ E_OK ∧ ptb_lock (k_ptb s') = true ∧ ∃ i, 0 ≤ i < N ∧ mapped (k_ptb s) a pa i (k_ptb s')
    end) s.
Proof.
  intros Hw Hwa HN -> Ha Haw Ham Hpa Hpaw Hpam Hinv Hnone.
  apply (wp_loop (λ m v s1, ∃ i, v = 4096 * i ∧ 0 ≤ i ≤ N ∧ (m = Z.to_nat (N - i) + 1)%nat ∧ k_vm s1 = k_vm s ∧
    grown (pt_pages (k_ptb s)) (pt_pages (k_ptb s1)) ∧ ptb_inv pde (k_ptb s1) ∧
    mapped (k_ptb s) a pa i (k_ptb s1)) _) with (n := (Z.to_nat N + 1)%nat); [|lia|].
  2:{ exists 0. split_and!; try done; try lia. intros va Hv. by destruct (Z.leb_spec a va), (Z.ltb_spec va (a + 4096 * 0)); try lia. }
  intros m v s1 (i & -> & Hi & Hm & Hv1 & Hg1 & Hp1 & Hmp). unfold map_body.
  destruct (Z.ltb_spec (4096 * i) (4096 * N)).
  2:{ apply wp_ret. split_and!; try done. by replace N with i by lia. }
  assert (is_u32 (a + 4096 * i) ∧ is_u32 (pa + 4096 * i)) as [Hu1 Hu2] by (unfold is_u32; lia).
  assert (add32 (vaddr w) (4096 * i) = a + 4096 * i) as Ea by (unfold add32; rewrite Hwa; by apply u32_small).
  assert (add32 pa (4096 * i) = pa + 4096 * i) as Ep by (by apply u32_small).
  assert (∀ x, x mod 4096 = 0 → (x + 4096 * i) mod 4096 = 0) as Hmod.
  { intros x Hx. rewrite (Z.mul_comm 4096), Z.mod_add by lia. done. }
  apply wp_bind, wp_zoom. eapply vp_get_end; [by rewrite Hv1|]. rewrite Ea, Ep.
  apply wp_bind, wp_zoom. eapply wp_mono.
  { apply wp_and_wlp; [apply ptb_map_spec; [done..|by apply Hmod|by apply Hmod|exact Hp1]|apply ptb_map_pages]. }
  intros err t' [Hr Hpg]. cbn [k_ptb k_vm] in *.
  assert (grown (pt_pages (k_ptb s)) (pt_pages t')) as Hg'.
  { destruct Hg1 as [G1 G2]. destruct Hpg as [->| ->]; [by split|].
    destruct (page_alloc (pt_pages (k_ptb s1))) as [r a'] eqn:Hpa'.
    destruct (grown_page _ _ _ Hpa') as [G3 G4]. simpl. split; [set_solver|]. intros pp Hpp. rewrite G4; [by apply G2|by rewrite G2]. }
  assert (translate (k_ptb s1) pde (a + 4096 * i) = None) as Hn1.
  { rewrite Hmp by done. destruct (Z.ltb_spec (a + 4096 * i) (a + 4096 * i)); [lia|]. rewrite andb_false_r.
    apply Hnone. lia. }
  assert (map_post pde (a + 4096 * i) (pa + 4096 * i) false true (k_ptb s1) err t' →
    wp (if negb (err =? E_OK) then ret (inr (Some err)) else ret (inl (add32 (4096 * i) PAGE_SIZE)))
      (λ r s', match r with
        | inl v' => ∃ m', (m' < m)%nat ∧ ∃ i, v' = 4096 * i ∧ 0 ≤ i ≤ N ∧ (m' = Z.to_nat (N - i) + 1)%nat ∧
            k_vm s' = k_vm s ∧ grown (pt_pages (k_ptb s)) (pt_pages (k_ptb s')) ∧ ptb_inv pde (k_ptb s') ∧
            mapped (k_ptb s) a pa i (k_ptb s')
        | inr o => k_vm s' = k_vm s ∧ grown (pt_pages (k_ptb s)) (pt_pages (k_ptb s')) ∧
            match o with
            | Some e => e ≠ E_OK ∧ ptb_lock (k_ptb s') = true ∧ ∃ i, 0 ≤ i < N ∧ mapped (k_ptb s) a pa i (k_ptb s')
            | None => ptb_inv pde (k_ptb s') ∧ mapped (k_ptb s) a pa N (k_ptb s')
            end
        end) (KMem (k_vm s1) t')) as Hok.
  { intros [Hi' Hp']. rewrite Hn1 in Hp'. destruct Hp' as (-> & Hh & Ho). cbn [negb Z.eqb E_OK]. apply wp_ret.
    exists (m - 1)%nat. split; [lia|]. exists (i + 1).
    assert (add32 (4096 * i) PAGE_SIZE = 4096 * (i + 1)) as ->.
    { unfold add32. change PAGE_SIZE with 4096. rewrite u32_small; unfold is_u32; lia. }
    split_and!; [done|lia|lia|lia|done|done|done|]. eapply mapped_next; try done; lia. }
  destruct (present _); [by apply Hok|].
  destruct (fst (page_alloc (pt_pages (k_ptb s1)))) as [e|p] eqn:Hfp; [|by apply Hok].
  destruct Hr as (-> & Hl & Hpm).
  destruct (page_alloc (pt_pages (k_ptb s1))) as [r a'] eqn:Hpa'. simpl in Hfp. subst r.
  apply page_alloc_err in Hpa' as [He _]. rewrite (proj2 (Z.eqb_neq _ _) He). apply wp_ret.
  split_and!; [done|done|done|done|]. exists i. split; [lia|]. intros va Hv.
  rewrite <- Hmp by done. unfold translate. cbn [k_ptb]. by rewrite Hpm.
Qed.

(** ** [kmalloc_page] *)
Lemma within_app l1 l2 x : within (l1 ++ l2) x ↔ within l1 x ∨ within l2 x.
Proof. unfold within. setoid_rewrite elem_of_app. naive_solver. Qed.
Lemma within_cons r l x : within (r :: l) x ↔ fst r ≤ x < fst r + snd r ∨ within l x.
Proof. unfold within. setoid_rewrite elem_of_cons. naive_solver. Qed.
Lemma within_nil x : ¬ within [] x.
Proof. intros (r & Hr & _). by apply elem_of_nil in Hr. Qed.

(** A range of a well-formed list, and an address of another. *)
Lemma geom_apart r l x : geom (r :: l) → within l x → ¬ (fst r ≤ x < fst r + snd r).
Proof.
  intros (_ & Hd & _)%geom_cons (q & Hq & Hx) Hr. rewrite Forall_forall in Hd.
  specialize (Hd q Hq). unfold rng_disj in Hd. lia.
Qed.
Lemma geom_u32 l x : geom l → within l x → is_u32 x.
Proof.
  intros [Hf _] (q & Hq & Hx). rewrite Forall_forall in Hf. destruct (Hf q Hq) as (? & ? & ? & _).
  unfold is_u32. lia.
Qed.
Lemma vm_inv_geom F Al (v : vm A) : vm_inv F Al v → geom (F ++ Al).
Proof. by intros (_ & tf & ta & _ & _ & _ & Hg). Qed.

(** What is left of the free range [(a, m)]. *)
Definition rest (a m n : Z) : list (Z * Z) := if decide (m = n) then [] else [(a + n, m - n)].

Lemma within_rest a m n x : 0 < n ≤ m → within [(a, m)] x ↔ a ≤ x < a + n ∨ within (rest a m n) x.
Proof.
  intros Hn. rewrite within_cons. unfold rest. case_decide as Hd; rewrite ?within_cons; simpl;
    pose proof (within_nil x); intuition lia.
Qed.

(** The pages of the new range lie in frames nobody used. *)
Lemma block_pages pp (u : P) a' pa n va a : pa mod 4096 = 0 → 0 < n → n mod 4096 = 0 → a ≤ va < a + n →
  (∀ i, 0 ≤ i < n / 4096 → pa + 4096 * i ∈ pm_block a' pp) → pm_block a' pp ## pg_used u →
  pa + 4096 * ((va - a) / 4096) ∈ pm_block a' pp ∧ (pa + 4096 * ((va - a) / 4096) ∉ pg_used u).
Proof.
  intros Hp Hn Hnm Hv Hb Hd.
  assert (0 ≤ (va - a) / 4096 < n / 4096) as Hi.
  { split; [apply Z.div_pos; lia|]. apply Z.div_lt_upper_bound; [lia|].
    pose proof (Z.div_mod n 4096 ltac:(lia)). lia. }
  specialize (Hb _ Hi). split; [done|]. set_solver.
Qed.

Definition page_post (F Al : list (Z * Z)) (n : Z) s (r : Z * option Z) s' : Prop :=
  match r with
  | (err, Some vp) =>
      if err =? E_OK then
        ∃ a pa pp F' A1 A2, Al = A1 ++ A2 ∧ rng (k_vm s') vp = (a, n) ∧
          (map_page <$> vps (k_vm s') !! vp) = Some pp ∧ (vtype <$> vps (k_vm s') !! vp) = Some KM_NORMAL ∧
          kmem_inv F' (A1 ++ (a, n) :: A2) s' ∧
          mapped (k_ptb s) a pa (n / 4096) (k_ptb s') ∧
          (∀ va, a ≤ va < a + n → pa + 4096 * ((va - a) / 4096) ∉ pg_used (pt_pages (k_ptb s))) ∧
          pg_used (pt_pages (k_ptb s)) ⊆ pg_used (pt_pages (k_ptb s'))
      else
        ptb_lock (k_ptb s') = true ∧ (∃ F', vm_inv F' Al (k_vm s') ∧ ∀ x, within F' x ↔ within F x) ∧
        pg_used (pt_pages (k_ptb s)) ⊆ pg_used (pt_pages (k_ptb s'))
  | (err, None) => err ≠ E_OK ∧ kmem_inv F Al s' ∧ k_ptb s' = PtbSt (pt_mmu (k_ptb s)) false (pt_pages (k_ptb s')) ∧
      pg_used (pt_pages (k_ptb s)) ⊆ pg_used (pt_pages (k_ptb s'))
  end.

Lemma merged_within F1 r F2 F' x : merged F1 r F2 F' → geom (r :: F1 ++ F2) →
  within F' x ↔ within (F1 ++ r :: F2) x.
Proof.
  intros (G1 & L & G2 & r' & He & -> & Hj)%merged_run Hg.
  assert (Forall (λ q, 0 ≤ snd q) L) as Hp.
  { assert (geom (F1 ++ r :: F2)) as [Hf _] by (eapply geom_perm; [|exact Hg]; solve_Permutation).
    rewrite He in Hf. apply Forall_app in Hf as [_ [Hf _]%Forall_app]. eapply Forall_impl; [exact Hf|].
    intros q (? & ? & _). lia. }
  destruct (joined_covers L r' Hj Hp) as [_ Hc]. rewrite He, !within_app, within_cons, (Hc x). done.
Qed.

Lemma grown_refl a : grown a a.
Proof. by split. Qed.

Lemma wp_block_free {B} (t : ptb_st P) pp (k : Z → M (kmem A P) B) Q s : k_ptb s = t →
  (∀ e u', pm_free pp (pt_pages t) = (e, u') → wp (k e) Q (KMem (k_vm s) (PtbSt (pt_mmu t) (ptb_lock t) u'))) →
  wp (e <- block_free pp ;; k e) Q s.
Proof.
  intros <- Hk. apply wp_bind. unfold block_free. apply wp_bind, wp_gets.
  destruct (pm_free pp (pt_pages (k_ptb s))) as [e u'] eqn:Hf.
  apply wp_bind, wp_zoom, wp_modify, wp_ret. by apply Hk.
Qed.

(** More frames in use, and the same ranges. *)
Lemma kmem_more F Al s (v' : vm A) u' : kmem_inv F Al s → vm_inv F Al v' →
  pg_used (pt_pages (k_ptb s)) ⊆ pg_used u' →
  kmem_inv F Al (KMem v' (PtbSt (pt_mmu (k_ptb s)) (ptb_lock (k_ptb s)) u')).
Proof.
  intros [K1 [P1 P2 P3 P4 P5] K3 K4 K5] Hv Hs. split; cbn; try done.
  - split; cbn; try done; [by apply Hs|]. intros va Hva Hpr. by apply Hs, P5.
  - intros va Hva. destruct (K4 va Hva) as (pa & ? & ?). exists pa. split; [done|by apply Hs].
Qed.

Lemma geom_prefix l1 l2 : geom (l1 ++ l2) → geom l1.
Proof.
  intros [Hf Hd]. apply Forall_app in Hf as [Hf _]. split; [done|]. clear Hf.
  induction l1 as [|x l IH]; [constructor|]. inversion Hd as [|? ? Hx Hd']; subst.
  apply Forall_app in Hx as [Hx _]. constructor; auto.
Qed.

(** A new range, mapped to a new block. *)
Lemma kmem_grow F Al s s' a n pa pp u F1 F2 m A1 A2 : kmem_inv F Al s →
  F = F1 ++ (a, m) :: F2 → Al = A1 ++ A2 → 0 < n ≤ m → n mod 4096 = 0 → a mod 4096 = 0 → pa mod 4096 = 0 →
  geom ((a, n) :: (F1 ++ rest a m n ++ F2) ++ Al) →
  (∀ i, 0 ≤ i < n / 4096 → pa + 4096 * i ∈ pm_block u pp) → pm_block u pp ## pg_used (pt_pages (k_ptb s)) →
  pm_block u pp ∪ pg_used (pt_pages (k_ptb s)) ⊆ pg_used (pt_pages (k_ptb s')) →
  vm_inv (F1 ++ rest a m n ++ F2) (A1 ++ (a, n) :: A2) (k_vm s') → ptb_inv pde (k_ptb s') →
  mapped (k_ptb s) a pa (n / 4096) (k_ptb s') →
  kmem_inv (F1 ++ rest a m n ++ F2) (A1 ++ (a, n) :: A2) s'.
Proof.
  intros [K1 K2 K3 K4 K5] HF HA Hn Hn4 Ha4 Hpam Hg Hblk Hdj Hsub Hv Hp Hm.
  pose proof (vm_inv_geom _ _ _ Hv) as Hgv. pose proof (Z.div_mod n 4096 ltac:(lia)) as Hdn.
  assert (∀ va, is_u32 va → kmap s' va = if (a <=? va) && (va <? a + n) then Some (pa + 4096 * ((va - a) / 4096))
    else kmap s va) as Hk.
  { intros va Hva. unfold kmap. rewrite (Hm va Hva). by replace (a + 4096 * (n / 4096)) with (a + n) by lia. }
  assert (∀ va, within (A1 ++ (a, n) :: A2) va → is_u32 va ∧ (a ≤ va < a + n ∨ ¬ (a ≤ va < a + n) ∧ within Al va)) as Hcase.
  { intros va Hva. split; [eapply geom_u32; [exact Hgv|]; apply within_app; by right|].
    destruct (decide (a ≤ va < a + n)); [by left|right]. split; [done|]. rewrite HA.
    rewrite within_app in *. rewrite within_cons in Hva. cbn in Hva. tauto. }
  assert (∀ va, within Al va → ¬ (a ≤ va < a + n)) as Hout.
  { intros va Hva. eapply (geom_apart (a, n)); [exact Hg|]. apply within_app. by right. }
  assert (∀ va, a ≤ va < a + n → ((a <=? va) && (va <? a + n)) = true) as Ht
    by (intros va ?; apply andb_true_intro; lia).
  assert (∀ va, ¬ (a ≤ va < a + n) → ((a <=? va) && (va <? a + n)) = false) as Hf
    by (intros va ?; apply andb_false_iff; lia).
  split; [done|done|..].
  - intros va Hva. assert (is_u32 va) by (eapply geom_u32; [exact Hgv|]; apply within_app; by left).
    rewrite Hk by done. rewrite Hf.
    + apply K3. rewrite HF. rewrite !within_app in Hva. rewrite within_app, within_cons. cbn.
      pose proof (within_rest a m n va) as Hwr. rewrite within_cons in Hwr. pose proof (within_nil va). cbn in *.
      destruct Hwr; [lia|]. tauto.
    + eapply (geom_apart (a, n)); [exact Hg|]. apply within_app. by left.
  - intros va [Hu [Hva|[Hno Hva]]]%Hcase; rewrite Hk by done.
    + rewrite Ht by done. eexists. split; [done|]. apply Hsub, elem_of_union_l.
      apply (block_pages pp (pt_pages (k_ptb s)) u pa n va a); (done || lia).
    + rewrite Hf by done. destruct (K4 va Hva) as (q & ? & ?). exists q. split; [done|]. by apply Hsub, elem_of_union_r.
  - assert (∀ va va' q, a ≤ va < a + n → within Al va' → pa + 4096 * ((va - a) / 4096) = q → kmap s va' = Some q → False) as Hx.
    { intros va va' q Hva Hva' <- Hq. destruct (K4 va' Hva') as (q' & Hq' & Hin). simplify_eq.
      destruct (block_pages pp (pt_pages (k_ptb s)) u pa n va a) as [_ Hno]; try done; lia. }
    intros va va' q [Hu [Hva|[Hno Hva]]]%Hcase [Hu' [Hva'|[Hno' Hva']]]%Hcase; rewrite !Hk by done.
    + rewrite !Ht by done. intros [= E1] [= E2].
      pose proof (Z.div_mod a 4096 ltac:(lia)).
      assert (∀ x, (x - a) / 4096 = x / 4096 - a / 4096) as Hd.
      { intros x. replace (x - a) with (x + (- (a / 4096)) * 4096) by lia. rewrite Z.div_add by lia. lia. }
      rewrite !Hd in *. lia.
    + rewrite Ht, Hf by done. intros [= E1] E2. destruct (Hx va va' q); done.
    + rewrite Hf, Ht by done. intros E1 [= E2]. destruct (Hx va' va q); done.
    + rewrite !Hf by done. by apply K5.
Qed.

Lemma round_up_pages n : 0 ≤ n → n + 4096 ≤ W32 → n mod 4096 = 0 → ROUND_UP n PAGE_SIZE = n.
Proof using Type.
  intros Hn Hw Hn4. destruct (round_up_spec n PAGE_SIZE) as (R1 & R2); [done|lia|change PAGE_SIZE with 4096; lia|].
  change PAGE_SIZE with 4096 in *. pose proof (Z.div_mod (ROUND_UP n 4096) 4096 ltac:(lia)).
  pose proof (Z.div_mod n 4096 ltac:(lia)). lia.
Qed.

Lemma kmalloc_page_spec F Al s size : kmem_inv F Al s → 0 < size → size + 2 * 4096 ≤ W32 →
  let n := ROUND_UP size PAGE_SIZE in
  wp (kmalloc_page pde junk junk_type size) (page_post F Al n s) s.
Proof.
  intros HI Hsz Hsw n. pose proof HI as [Hvm Hptb Hfree _ _]. unfold kmalloc_page. fold n.
  destruct (round_up_spec size PAGE_SIZE) as [Hn4 Hnb]; [done|lia|change PAGE_SIZE with 4096; lia|].
  fold n in Hn4, Hnb. change PAGE_SIZE with 4096 in Hn4, Hnb.
  pose proof (round_up_pages n ltac:(lia) ltac:(lia) Hn4) as Hru.
  pose proof (Z.div_mod n 4096 ltac:(lia)) as Hdn.
  apply wp_bind. unfold block_alloc. apply wp_bind, wp_gets.
  destruct (pm_alloc n (pt_pages (k_ptb s))) as [[err|[pp pa]] u] eqn:Hpa.
  { apply pm_alloc_err in Hpa as [He ->]. apply wp_bind, wp_zoom, wp_modify, wp_ret, wp_ret.
    unfold page_post. cbn. destruct s as [v [m l a]]. cbn in *. 
    assert (l = false) as -> by apply Hptb. split_and!; [done|exact HI|done|done]. }
  apply pm_alloc_ok in Hpa as (Hpam & Hpa0 & Hpaw & Hblk & Hdj & Hu); [|lia|done].
  apply wp_bind, wp_zoom, wp_modify, wp_ret.
  set (t0 := PtbSt (pt_mmu (k_ptb s)) (ptb_lock (k_ptb s)) u).
  assert (ptb_inv pde t0) as Hp0.
  { destruct Hptb as [P1 P2 P3 P4 P5]. split; cbn; try done; rewrite Hu; [set_solver|].
    intros va Hva Hpr. apply elem_of_union_r. by apply P5. }
  assert (∀ (v' : vm A) (t : ptb_st P) e u', pm_free pp (pt_pages t) = (e, u') → grown u (pt_pages t) →
    pg_used (pt_pages (k_ptb s)) ⊆ pg_used u') as Hback.
  { intros v' t e u' Hf%pm_free_ok [Hg1 Hg2]. etrans; [|exact Hf]. rewrite Hg2. 2:{ specialize (Hblk 0). intros Hem. rewrite Hem in Hblk. apply (not_elem_of_empty (C := gset Z) (pa + 4096 * 0)), Hblk. lia. }
    clear -Hg1 Hu Hdj. set_solver. }
  apply wp_bind, wp_zoom. cbn [k_vm k_ptb].
  eapply wp_mono; [apply (vm_alloc_spec junk junk_type F Al); [done|lia|change PAGE_SIZE with 4096; lia]|].
  cbv zeta. rewrite Hru. intros [err [vp|]] v1; cbn [fst snd].
  2:{ intros [He Hv1]. eapply (wp_block_free t0); [done|]. intros e u' Hf. apply wp_ret.
      pose proof (Hback v1 t0 e u' Hf (grown_refl u)) as Hsub.
      assert (ptb_lock (k_ptb s) = false) as Hlk by apply Hptb.
      split_and!; [done|by apply (kmem_more F Al s)|by unfold t0; cbn; rewrite Hlk|done]. }
  intros (-> & F1 & a & m & F2 & A1 & A2 & HF & HA & Hnm & Hr & Hat).
  fold (rest a m n) in Hat.
  assert (geom ((a, n) :: (F1 ++ rest a m n ++ F2) ++ Al)) as Hg.
  { pose proof (vm_inv_geom _ _ _ (vm_at_inv _ _ _ _ _ _ Hat)) as Hg. eapply geom_perm; [|exact Hg].
    rewrite HA. solve_Permutation. }
  pose proof Hg as ((G1 & _ & G2 & G3 & _) & _)%geom_cons. cbn [fst snd] in G1, G2, G3.
  destruct (rng_vp _ _ _ _ Hr) as (w & Hw & Hwa & Hws); [lia|].
  apply wp_bind, wp_zoom. eapply vp_get_end; [exact Hw|].
  apply wp_bind, wp_zoom, wp_modify. cbn [k_ptb k_vm].
  set (w1 := VPage (vaddr w) (vsize w) (mx_size w) KM_NORMAL (map_page w)).
  set (v2 := Vm _ _ _ (<[vp := w1]> (vps v1)) _ _).
  assert (Hat2 : vm_at (F1 ++ rest a m n ++ F2) A1 vp (a, n) A2 v2) by by eapply at_retype.
  assert (∀ va, a ≤ va < a + n → within F va) as Hin.
  { intros va Hva. rewrite HF. apply within_app. right. apply within_cons. left. simpl. lia. }
  apply wp_bind. change (n / PAGE_SIZE) with (n / 4096).
  eapply wp_mono.
  { apply (map_loop_spec vp w1 a pa n (n / 4096) (KMem v2 t0)); try done; try lia.
    - cbn. by rewrite lookup_insert_eq.
    - intros va Hva. by apply Hfree, Hin. }
  intros [e|] s2; cbn [k_vm k_ptb]; intros (Hv2 & Hgr & Hres).
  - destruct Hres as (He & Hlk & _). apply wp_bind, wp_zoom. rewrite Hv2.
    eapply wp_mono; [exact (vm_free_spec _ _ _ _ _ _ Hat2)|].
    intros e' v3 (-> & Fa & Fb & F' & HFe & Hmg & Hv3).
    eapply wp_block_free; [done|]. intros e' u' Hf. apply wp_ret. unfold page_post.
    rewrite (proj2 (Z.eqb_neq _ _) He). cbn [k_ptb k_vm ptb_lock pt_pages]. split_and!; [done| |].
    + exists F'. rewrite HA. split; [done|]. intros x. rewrite (merged_within Fa (a, n) Fb) by
        (done || (eapply geom_perm; [|exact (geom_prefix ((a, n) :: F1 ++ rest a m n ++ F2) Al Hg)]; rewrite HFe; solve_Permutation)).
      rewrite within_app, within_cons. transitivity (a ≤ x < a + n ∨ within (Fa ++ Fb) x);
        [rewrite within_app; cbn; tauto|]. rewrite <- HFe, HF, !within_app, within_cons.
      pose proof (within_rest a m n x) as Hwr. rewrite within_cons in Hwr. pose proof (within_nil x). cbn in *.
      destruct Hwr; [lia|]. tauto.
    + by eapply (Hback v3).
  - destruct Hres as [Hp2 Hm2]. apply wp_bind, wp_zoom. rewrite Hv2.
    eapply vp_get_end; [cbn; by rewrite lookup_insert_eq|]. apply wp_bind, wp_zoom, wp_modify, wp_ret.
    cbn [k_vm k_ptb]. rewrite ?Hv2. unfold page_post. cbn [Z.eqb E_OK].
    exists a, pa, pp, (F1 ++ rest a m n ++ F2), A1, A2. cbn [k_vm k_ptb vps v2].
    rewrite lookup_insert_eq. cbn.
    assert (Hat3 := at_retype _ _ _ _ _ v2 w1 (VPage (vaddr w1) (vsize w1) (mx_size w1) (vtype w1) pp) Hat2
      ltac:(cbn; by rewrite lookup_insert_eq) eq_refl eq_refl).
    split_and!; [done| |done|done| |done| |].
    + by destruct Hat3 as (_ & ? & ? & ? & ? & _ & _ & _ & _ & ? & _).
    + eapply (kmem_grow F Al s _ a n pa pp u F1 F2 m A1 A2);
        first [done|lia|exact (vm_at_inv _ _ _ _ _ _ Hat3)|rewrite <- Hu; apply Hgr].
    + intros va Hva. apply (block_pages pp (pt_pages (k_ptb s)) u pa n va a); (done || lia).
    + etrans; [|apply Hgr]. cbn. rewrite Hu. apply union_subseteq_r.
Qed.
End spec.

(** [kmalloc] as the source of the slabs' pages: they are ranges in use of its own. *)
#[export] Instance kmem_source_laws {A P} `{MmOpsLaws A} `{PageAllocLaws P} `{!PhysMem P} `{!PhysMemLaws P}
    (pde junk : Z) junk_type : @PageSourceLaws (kmem A P) (kmem_source pde junk junk_type).
Proof.
  refine (@Build_PageSourceLaws _ (kmem_source pde junk junk_type)
    (λ k X, ∃ F Al, kmem_inv pde F Al k ∧ ∀ p, p ∈ X → ∃ n, (p, n) ∈ Al) _ _).
  - intros k X p k' (F & Al & HI & HX) Hal.
    pose proof (kmalloc_page_spec pde junk junk_type F Al k (ROUND_UP PAGE_SIZE PAGE_SIZE) HI ltac:(done) ltac:(done)) as Hk.
    cbn [ps_alloc kmem_source] in Hal. unfold kmalloc_big, wp, bind in *.
    destruct (kmalloc_page _ _ _ _ k) as [[err [vp|]] k1| | |]; [|done..].
    unfold deref, ret, on_vm, zoom, vp_of, bind, get in Hal. cbn [snd fst] in Hal.
    destruct (vps (k_vm k1) !! vp) as [w|] eqn:Hw; [|done]. cbn in Hk, Hal.
    destruct (err =? E_OK); [|done]. cbn in Hal. injection Hal as <- <-.
    destruct Hk as (a & pa & pp & F' & A1 & A2 & -> & Hr & _ & _ & HI' & _).
    unfold rng, addr_of, size_of in Hr. rewrite Hw in Hr. cbn in Hr. injection Hr as -> Hn.
    change (ROUND_UP (ROUND_UP PAGE_SIZE PAGE_SIZE) PAGE_SIZE) with 4096 in *.
    pose proof (vm_inv_geom _ _ _ (ki_vm _ _ _ _ HI')) as Hg.
    assert (geom ((a, 4096) :: F' ++ A1 ++ A2)) as Hg' by (eapply geom_perm; [|exact Hg]; solve_Permutation).
    pose proof Hg' as ((G1 & G2 & G3 & G4 & _) & _)%geom_cons. cbn in G1, G3, G4.
    split_and!; [done|done|done| |].
    + intros (n & Hin)%HX. apply (geom_starts a 4096 _ (a, n) Hg'); [|done]. rewrite !elem_of_app in *. tauto.
    + assert (KMem (k_vm k1) (k_ptb k1) = k1) as -> by by destruct k1.
      exists F', (A1 ++ (a, 4096) :: A2). split; [done|]. intros q [->%elem_of_singleton|(n & Hin)%HX]%elem_of_union.
      * exists 4096. rewrite elem_of_app. right. left.
      * exists n. rewrite elem_of_app, elem_of_cons in *. tauto.
  - intros k X p (F & Al & HI & HX) _. apply wp_ret. exists F, Al. split; [done|]. intros q [Hq _]%elem_of_difference. by apply HX.
Defined.


(** Frames handed out one after the other, and their blocks. *)
Record blocks := Blocks { bk_next : Z; bk_used : gset Z; bk_of : gmap Z (gset Z) }.
Definition frames_of (pa n : Z) : gset Z := list_to_set ((λ i, pa + 4096 * i) <$> seqZ 0 (n / 4096)).
Definition bk_fits (n : Z) (b : blocks) : bool :=
  (bk_next b mod 4096 =? 0) && (0 <=? bk_next b) && (bk_next b + n <? W32) &&
  bool_decide (frames_of (bk_next b) n ## bk_used b).
#[export] Instance blocks_pages : PageAlloc blocks := {
  page_alloc b := if bk_fits 4096 b
    then (inr (bk_next b), Blocks (bk_next b + 4096) ({[bk_next b]} ∪ bk_used b) (bk_of b)) else (inl E_NOMEM, b);
  pg_used := bk_used;
}.
#[export] Instance blocks_phys : PhysMem blocks := {
  pm_alloc n b := if bk_fits n b
    then let p := bk_next b in
      (inr (p, p), Blocks (p + n) (frames_of p n ∪ bk_used b) (<[p := frames_of p n]> (bk_of b)))
    else (inl E_NOMEM, b);
  pm_free pp b := (E_OK, Blocks (bk_next b) (bk_used b ∖ default ∅ (bk_of b !! pp)) (bk_of b));
  pm_block b pp := default ∅ (bk_of b !! pp);
}.
Lemma bk_fits_spec n b : bk_fits n b = true → bk_next b mod 4096 = 0 ∧ 0 ≤ bk_next b ∧ bk_next b + n < W32 ∧
  frames_of (bk_next b) n ## bk_used b.
Proof.
  unfold bk_fits. intros [[[H1 H2]%andb_true_iff H3]%andb_true_iff H4%bool_decide_eq_true]%andb_true_iff.
  split_and!; [lia..|done].
Qed.
#[export] Instance blocks_laws : PageAllocLaws blocks.
Proof.
  split; intros b; cbn; destruct (bk_fits 4096 b) eqn:Hf; try (intros; by simplify_eq).
  - intros p b' [= <- <-]. apply bk_fits_spec in Hf as (H1 & H2 & H3 & H4). unfold is_u32.
    split_and!; [done|lia..| |done]. change (frames_of (bk_next b) 4096) with ({[bk_next b + 0]} ∪ ∅ : gset Z) in H4.
    rewrite Z.add_0_r in H4. set_solver.
Qed.
#[export] Instance blocks_phys_laws : PhysMemLaws blocks.
Proof.
  split; cbn.
  - intros n b pp pa b' Hn Hn4. destruct (bk_fits n b) eqn:Hf; [|done]. intros [= <- <- <-].
    apply bk_fits_spec in Hf as (H1 & H2 & H3 & H4). cbn. rewrite lookup_insert_eq. cbn.
    split_and!; [done|done|lia| |done|done]. intros i Hi. unfold frames_of. apply elem_of_list_to_set, list_elem_of_fmap.
    exists i. split; [done|]. apply elem_of_seqZ. lia.
  - intros n b e b'. destruct (bk_fits n b); intros; by simplify_eq.
  - intros b pp e b' [= _ <-]. done.
  - intros b r b' pp. destruct (bk_fits 4096 b); intros; by simplify_eq.
Qed.

(** Kernel addresses from 0xC1000000 free, one directory at 0x1000. *)
Definition ex_kvm : vm vp_pool := Vm 64 0 {[64 := RbtNode BLACK 0 0 0]}
  {[64 := VPage 0xC1000000 0x40000 0x40000 UM_NOPM 0]} false (VpPool 192 {[64]}).
Definition ex_kmem : kmem vp_pool blocks := KMem ex_kvm (PtbSt ex_mmu false (Blocks 0x7000 {[0x1000; 0x2000]} ∅)).
Definition ex_kslab : slab (kmem vp_pool blocks) := Slab 0 false ∅ ex_kmem.

Lemma ex_kmem_inv : kmem_inv 0x1000 [(0xC1000000, 0x40000)] [] ex_kmem.
Proof.
  assert (∀ va, ¬ within [] va) as Hnil by apply within_nil.
  split.
  - split; [done|]. exists (T BLACK E 64 E), E. split; [|split; [done|split; [done|]]].
    + split; [by apply ex_one_rbt| |set_solver|..].
      * split; [|split; [done|by exists 0%nat; constructor]].
        split; cbn [elems rep RbtTree.addr rbt_root rbt_nodes]; [done|done|constructor|set_solver|set_solver|done].
      * intros p Hp. apply list_elem_of_singleton in Hp as ->. by eexists.
      * intros p Hp. apply list_elem_of_singleton in Hp as ->. apply (bool_decide_unpack _). by vm_compute.
      * repeat constructor.
      * constructor.
    + split; [apply Forall_singleton; by split_and!|repeat constructor].
  - destruct ex_ptb_inv as [H1 H2 H3 H4 H5]. by split.
  - intros va (r & ->%list_elem_of_singleton & Hva). cbn in Hva. unfold kmap, translate, walk.
    assert (is_u32 va) as Hu by (unfold is_u32, W32; lia).
    destruct (pde_at_eq 0x1000 va) as [_ Ha]; [done..|].
    assert (pde_at 0x1000 0x400000 ≠ pde_at 0x1000 va) as Hne.
    { destruct (pde_at_eq 0x1000 va) as [-> _]; [done..|].
      change (pde_at 0x1000 0x400000) with 0x1004. rewrite pde_offset_eq by done.
      assert (0xC1000000 / 2 ^ 22 ≤ va / 2 ^ 22) by (apply Z.div_le_mono; lia). change (0xC1000000 / 2 ^ 22) with 772 in *. lia. }
    change (pm (pt_mmu (k_ptb ex_kmem))) with (wr32 ∅ (pde_at 0x1000 0x400000) 0x2007).
    by rewrite rd_wr32_ne, rd32_empty.
  - intros va Hva. by apply Hnil in Hva.
  - intros va va' pa Hva. by apply Hnil in Hva.
Qed.


(** And it succeeds there. *)
Example ex_kmalloc : match kmalloc 0x1000 7 UM_NOPM 0x1800 ex_kslab with
  | Ret (err, Some a) s' => err = E_OK ∧ a = 0xC1000000 ∧
      kmap 0x1000 (pages s') 0xC1001234 = Some 0x8000 | _ => False end.
Proof. by vm_compute. Qed.
