(* ===== verification/Fault.v ===== *)
(** * Page faults: page_fault_hdl of kernel/memory/memory.c

    A fault above KERN_BASE copies the entry of the kernel's directory into the
    current one; a fault below goes to the process's memory (Um). *)
From S2P Require Import Prelude Machine Mmu Ptb Slab Vm VmSpec VmFree Um UmSpec.

Definition PF_P : Z := 1.
Definition PF_W : Z := 2.

Section code.
Context {A P : Type} `{MmOps A} `{PageAlloc P}.
Context (junk : Z) (junk_type : vp_type).
(** The directory of process 0, the current one ([mmu_get_pde]), that of the current
    process's page tables, and the faulting address ([mmu_err_addr]). *)
Definition page_fault_hdl (kpde cr3 pde cr2 errno : Z) : Prelude.M (proc_mm A P) Z :=
  (if Z.land errno PF_P =? 0 then
     if KERN_BASE <=? cr2 then on_ptb (on_mmu (mmu_sync_kern_space kpde cr3 cr2 PAGE_SIZE))
     else um_page_fault_hdl junk junk_type pde cr2 ;;; ret tt
   else if negb (Z.land errno PF_W =? 0) then panic else panic) ;;;
  ret E_OK.
End code.

Lemma pde_off_mod va : is_u32 va → PDE_OFFSET va mod 4 = 0 ∧ 0 ≤ PDE_OFFSET va < 4096.
Proof. intros Hv. destruct (pde_offset_range va Hv). done. Qed.

(** One entry is copied for a range inside one 4 MB region. *)
Lemma sync_one kpde pde va size s :
  kpde mod 4096 = 0 → is_u32 kpde → pde mod 4096 = 0 → is_u32 pde → is_u32 va → KERN_BASE ≤ va →
  0 < size ≤ SZ_PDE → va + size ≤ W32 → tmp1_lock s = false →
  wp (mmu_sync_kern_space kpde pde va size) (λ _ s', idle s s' ∧
    pm s' = wr32 (pm s) (pde_at pde va) (rd32 (pm s) (pde_at kpde va))) s.
Proof.
  intros Hk Hku Hp Hpu Hv Hkb Hsz Hw Hl. unfold mmu_sync_kern_space. apply wp_bind, wp_assert.
  change SZ_PDE with 4194304 in Hsz.
  assert (add32 va size = if decide (va + size = W32) then 0 else va + size) as Hadd.
  { unfold add32, u32, is_u32 in *. case_decide as Hd; [by rewrite Hd|]. apply Z.mod_small. lia. }
  split.
  { apply andb_true_intro. split; [lia|]. rewrite Hadd. case_decide; [done|].
    apply negb_true_iff, andb_false_iff. right. unfold KERN_BASE in *. lia. }
  change (S (Z.to_nat NR_PXE)) with (S (S 1023)). cbn [loop].
  assert (add32 va 0 = va) as Hv0 by (unfold add32; rewrite Z.add_0_r; by apply u32_small).
  destruct (Z.ltb_spec 0 size); [|lia]. rewrite Hv0. fold (pde_at kpde va) (pde_at pde va).
  apply wp_bind. apply wp_pm_get; [by apply pde_at_eq|done|]. intros s1 Hm1 Hi1.
  apply wp_pm_set; [by apply pde_at_eq|apply Hi1|]. intros s2 Hm2 Hi2. apply wp_ret.
  change (add32 0 SZ_PDE) with 4194304. apply wp_bind.
  destruct (Z.ltb_spec 4194304 size); [lia|]. apply wp_ret, wp_ret.
  split; [by eapply idle_trans|]. by rewrite Hm2, Hm1.
Qed.

(** Two directories of one machine: pages of their own, and the current one is no
    table of the kernel's. *)
Record two_spaces (m : pmem) (kpde pde : Z) : Prop := {
  ts_kern : tables_ok m kpde;
  ts_cur : tables_ok m pde;
  ts_ne : kpde ≠ pde;
  ts_table : ∀ va, is_u32 va → present (rd32 m (pde_at kpde va)) = true →
    Z.ldiff (rd32 m (pde_at kpde va)) PXE_ATTR_MASK ≠ pde;
}.

Section copy.
Context (m : pmem) (kpde pde va0 : Z) (HT : two_spaces m kpde pde) (Hv0 : is_u32 va0).
Let m' : pmem := wr32 m (pde_at pde va0) (rd32 m (pde_at kpde va0)).

(** The tables do not change. *)
Lemma table_kept e va : is_u32 e → Z.ldiff e PXE_ATTR_MASK ≠ pde → rd32 m' (pte_at e va) = rd32 m (pte_at e va).
Proof using HT Hv0.
  intros Heu Hne. destruct (tb_pde _ _ (ts_cur _ _ _ HT)) as [Hp Hpu]. unfold m'.
  destruct (pte_at_eq e va Heu) as [He He4]. destruct (pte_offset_range va) as [Hr Hr4].
  destruct (pde_at_eq pde va0 Hp Hpu Hv0) as [Hd Hd4]. destruct (pde_off_mod va0 Hv0) as [_ Ho].
  apply rd_wr32_ne; [done|done|]. rewrite He, Hd. intros Heq. apply Hne. rewrite frame_of_eq in *.
  pose proof (frame_aligned e). pose proof (Z.div_mod pde 4096 ltac:(lia)).
  pose proof (Z.div_mod (e - e mod 4096) 4096 ltac:(lia)). lia.
Qed.

Lemma kern_pde_kept va : is_u32 va → rd32 m' (pde_at kpde va) = rd32 m (pde_at kpde va).
Proof using HT Hv0.
  intros Hv. destruct (tb_pde _ _ (ts_cur _ _ _ HT)) as [Hp Hpu]. destruct (tb_pde _ _ (ts_kern _ _ _ HT)) as [Hk Hku].
  destruct (pde_at_eq pde va0 Hp Hpu Hv0) as [Hd Hd4]. destruct (pde_off_mod va0 Hv0) as [_ Ho].
  destruct (pde_at_eq kpde va Hk Hku Hv) as [Hd' Hd4']. destruct (pde_off_mod va Hv) as [_ Ho'].
  apply rd_wr32_ne; [done|done|]. rewrite Hd, Hd'. intros Heq. apply (ts_ne _ _ _ HT).
  pose proof (Z.div_mod pde 4096 ltac:(lia)). pose proof (Z.div_mod kpde 4096 ltac:(lia)). lia.
Qed.

Lemma copy_walk_kern va : is_u32 va → walk m' kpde va = walk m kpde va.
Proof using HT Hv0.
  intros Hv. unfold walk. rewrite kern_pde_kept by done.
  destruct (present (rd32 m (pde_at kpde va))) eqn:Hpr; [|done].
  rewrite table_kept; [done|by apply rd32_range, (ts_kern _ _ _ HT)|by apply (ts_table _ _ _ HT)].
Qed.

Lemma copy_walk_cur va : is_u32 va →
  walk m' pde va = if va / 2 ^ 22 =? va0 / 2 ^ 22 then walk m kpde va else walk m pde va.
Proof using HT Hv0.
  intros Hv. destruct (tb_pde _ _ (ts_cur _ _ _ HT)) as [Hp Hpu]. destruct (tb_pde _ _ (ts_kern _ _ _ HT)) as [Hk Hku].
  pose proof (pde_offset_eq va Hv) as E1. pose proof (pde_offset_eq va0 Hv0) as E0.
  assert (is_u32 (rd32 m (pde_at kpde va0))) as Heu by apply rd32_range, (ts_kern _ _ _ HT).
  destruct (Z.eqb_spec (va / 2 ^ 22) (va0 / 2 ^ 22)) as [He|He].
  - assert (pde_at pde va = pde_at pde va0 ∧ pde_at kpde va = pde_at kpde va0) as [Ep Ek].
    { unfold pde_at. by rewrite E1, E0, He. }
    unfold walk. rewrite Ep, Ek. unfold m' at 1. rewrite rd_wr32 by done.
    destruct (present (rd32 m (pde_at kpde va0))) eqn:Hpr; [|done].
    assert (rd32 m' (pde_at pde va0) = rd32 m (pde_at kpde va0)) as -> by by apply rd_wr32.
    rewrite table_kept; [done|done|by apply (ts_table _ _ _ HT)].
  - assert (rd32 m' (pde_at pde va) = rd32 m (pde_at pde va)) as Hsame.
    { destruct (pde_at_eq pde va Hp Hpu Hv) as [Hd Hd4], (pde_at_eq pde va0 Hp Hpu Hv0) as [Hd0 Hd40].
      apply rd_wr32_ne; [done|done|]. rewrite Hd, Hd0, E1, E0. lia. }
    unfold walk. rewrite Hsame. destruct (present (rd32 m (pde_at pde va))) eqn:Hpr; [|done].
    rewrite table_kept; [done|by apply rd32_range, (ts_cur _ _ _ HT)|].
    by apply (tb_not_pde _ _ (ts_cur _ _ _ HT)).
Qed.

(** The same of the processor's translation, 4 MB entries included. *)
Lemma copy_cpu_kern va : is_u32 va → cpu_walk m' kpde va = cpu_walk m kpde va.
Proof using HT Hv0. intros Hv. unfold cpu_walk. by rewrite kern_pde_kept, copy_walk_kern. Qed.
Lemma copy_cpu_cur va : is_u32 va →
  cpu_walk m' pde va = if va / 2 ^ 22 =? va0 / 2 ^ 22 then cpu_walk m kpde va else cpu_walk m pde va.
Proof using HT Hv0.
  intros Hv. destruct (tb_pde _ _ (ts_cur _ _ _ HT)) as [Hp Hpu]. destruct (tb_pde _ _ (ts_kern _ _ _ HT)) as [Hk Hku].
  pose proof (copy_walk_cur va Hv) as Hw. pose proof (pde_offset_eq va Hv) as E1. pose proof (pde_offset_eq va0 Hv0) as E0.
  destruct (Z.eqb_spec (va / 2 ^ 22) (va0 / 2 ^ 22)) as [He|He].
  - assert (pde_at pde va = pde_at pde va0 ∧ pde_at kpde va = pde_at kpde va0) as [Ep Ek].
    { unfold pde_at. by rewrite E1, E0, He. }
    assert (rd32 m' (pde_at pde va) = rd32 m (pde_at kpde va)) as Hsame.
    { rewrite Ep, Ek. apply rd_wr32, rd32_range, (ts_kern _ _ _ HT). }
    unfold cpu_walk. by rewrite Hsame, Hw.
  - assert (rd32 m' (pde_at pde va) = rd32 m (pde_at pde va)) as Hsame.
    { destruct (pde_at_eq pde va Hp Hpu Hv) as [Hd Hd4], (pde_at_eq pde va0 Hp Hpu Hv0) as [Hd0 Hd40].
      apply rd_wr32_ne; [done|done|]. rewrite Hd, Hd0, E1, E0. lia. }
    unfold cpu_walk. by rewrite Hsame, Hw.
Qed.
End copy.

(** The fault is on an unmapped page of a range of the process's heap, [(a, n)], that has
    no pages yet. *)
Record heap_fault {A P} `{MmOps A} `{PageAlloc P} pde cr2 F A1 p a n A2 (s : proc_mm A P) : Prop := {
  hf_lay : layout_ok (lay_part s);
  hf_heap : heap_s (lay_part s) ≤ cr2 < heap_e (lay_part s);
  hf_at : vm_at F A1 p (a, n) A2 (vm_part s);
  hf_type : type_of (vm_part s) p = Some UM_NOPM;
  hf_rng : a ≤ cr2 < a + n;
  hf_ptb : ptb_inv pde (pm_ptb s);
  hf_none : translate (pm_ptb s) pde (cr2 - cr2 mod 4096) = None;
}.

(** C9: [page_fault_hdl]. A fault that is not a protection fault always returns [E_OK] (the
    code drops the error of [um_page_fault_hdl]), for two kinds of addresses. On an address
    of the kernel's, with two well-formed directories, neither a table of the kernel's
    ([two_spaces]), and the window lock free, every address of the same 4 MB region then
    means to the processor in the current address space what it means in the kernel's, and
    no other address of either space changes. (Behind the beginning of the last page of the
    address space an assertion stops the kernel.) On an unmapped page of a range of the
    process's heap that has no pages yet ([heap_fault]), the tables give the page, and no
    other, a frame nobody used, and it gets a structure of its own, exactly unless the
    range cannot be cut, or there is no frame, or none for a missing page table; then no
    translation changes. A protection fault panics. *)
Theorem page_fault_hdl_correct {A P} `{MmOpsLaws A} `{PageAllocLaws P} junk junk_type
    kpde cr3 pde cr2 (s : proc_mm A P) F A1 p a n A2 :
  is_u32 cr2 →
  (KERN_BASE ≤ cr2 → cr2 + PAGE_SIZE ≤ W32 ∧ two_spaces (pm (pt_mmu (pm_ptb s))) kpde cr3 ∧
     tmp1_lock (pt_mmu (pm_ptb s)) = false) →
  (cr2 < KERN_BASE → heap_fault pde cr2 F A1 p a n A2 s) →
  let m := pm (pt_mmu (pm_ptb s)) in
  (∀ errno, Z.land errno PF_P = 0 →
    wp (page_fault_hdl junk junk_type kpde cr3 pde cr2 errno) (λ err s', err = E_OK ∧
      let m' := pm (pt_mmu (pm_ptb s')) in
      if KERN_BASE <=? cr2 then ∀ va, is_u32 va →
        cpu_walk m' kpde va = cpu_walk m kpde va ∧
        cpu_walk m' cr3 va = cpu_walk m (if va / 2 ^ 22 =? cr2 / 2 ^ 22 then kpde else cr3) va
      else
        (¬ refused junk junk_type pde p (cr2 - cr2 mod 4096) s ∧ served pde F A1 a n A2 (cr2 - cr2 mod 4096) s s') ∨
        (refused junk junk_type pde p (cr2 - cr2 mod 4096) s ∧
          ∀ va, is_u32 va → translate (pm_ptb s') pde va = translate (pm_ptb s) pde va)) s) ∧
  (∀ errno, Z.land errno PF_P ≠ 0 → page_fault_hdl junk junk_type kpde cr3 pde cr2 errno s = Panic).
Proof.
  intros Hcu HK HP m. split.
  - intros errno Hz. unfold page_fault_hdl. rewrite Hz. cbn [Z.eqb]. apply wp_bind.
    destruct (Z.leb_spec KERN_BASE cr2) as [Hk|Hk].
    + destruct (HK Hk) as (Hw & HT & Hl). apply wp_zoom, wp_zoom. pose proof (tb_pde _ _ (ts_kern _ _ _ HT)) as [? ?].
      pose proof (tb_pde _ _ (ts_cur _ _ _ HT)) as [? ?]. eapply wp_mono; [by apply sync_one|].
      intros u t [_ Hm]. apply wp_ret. split; [done|]. cbv zeta. intros va Hva.
      cbn [pm_ptb set_mmu pt_mmu]. rewrite Hm. split.
      * by apply copy_cpu_kern.
      * unfold m. rewrite copy_cpu_cur by done. by destruct (_ =? _).
    + destruct (HP Hk). apply wp_bind. eapply wp_mono; [by eapply page_fault_spec|].
      intros err s' Hr. apply wp_ret, wp_ret. split; [done|].
      destruct Hr as [[_ Hr]|[_ Hr]]; [by left|by right].
  - intros errno Hz. unfold page_fault_hdl. rewrite (proj2 (Z.eqb_neq _ _) Hz). unfold bind.
    by destruct (negb _).
Qed.

Lemma ex_empty_dir va : is_u32 va → rd32 ex_pm (pde_at 0x3000 va) = 0.
Proof.
  intros Hv. destruct (pde_at_eq 0x3000 va) as [Ha Ha4]; [done..|]. destruct (pde_off_mod va Hv) as [_ Ho].
  unfold ex_pm. rewrite rd_wr32_ne, rd32_empty; [done|done|done|]. rewrite Ha.
  change (pde_at 0x1000 0x400000) with 0x1004. lia.
Qed.

Lemma ex_two_spaces : two_spaces ex_pm 0x1000 0x3000.
Proof.
  split; [by apply one_table_ok| |done|].
  - split; [done|by apply one_table_ok|..].
    + intros va Hv. by rewrite ex_empty_dir.
    + intros va va' Hv Hv' _. by rewrite ex_empty_dir.
  - intros va Hv. unfold ex_pm. destruct (decide (pde_at 0x1000 0x400000 = pde_at 0x1000 va)) as [<-|Hn].
    + by rewrite rd_wr32.
    + destruct (pde_at_eq 0x1000 va) as [_ Ha]; [done..|]. by rewrite rd_wr32_ne, rd32_empty.
Qed.

Lemma page_fault_hdl_correct_witness :
  wp (page_fault_hdl 7 UM_NOPM 0x1000 0x3000 0x1000 0x21234 0) (λ err s', err = E_OK ∧
    ((¬ refused 7 UM_NOPM 0x1000 128 0x21000 ex_proc ∧
      served 0x1000 [(0x10000, 0x4000)] [] 0x20000 0x3000 [] 0x21000 ex_proc s') ∨
     (refused 7 UM_NOPM 0x1000 128 0x21000 ex_proc ∧
       ∀ va, is_u32 va → translate (pm_ptb s') 0x1000 va = translate (pm_ptb ex_proc) 0x1000 va))) ex_proc.
Proof.
  refine (proj1 (page_fault_hdl_correct 7 UM_NOPM 0x1000 0x3000 0x1000 0x21234 ex_proc [(0x10000, 0x4000)] [] 128
    0x20000 0x3000 [] _ _ _) 0 eq_refl).
  - done.
  - intros Hk. by destruct (Hk eq_refl).
  - intros _. split; [by split|by vm_compute|exact ex_vm3_at|done|lia| |by vm_compute].
    destruct ex_ptb_inv as [I1 I2 I3 I4 I5]. by split.
Defined.
