(* ===== verification/Cstring.v ===== *)
(** * C strings and byte copies: lib/string.c

    Memory is a finite map from addresses to bytes; reading or writing an
    address outside it is a page fault. Pointers and [size_t] wrap at 32 bits;
    [char] is signed, as gcc has it on x86. *)
From S2P Require Import Prelude.

Abbreviation mem := (gmap Z Z).
Definition rd (a : Z) : M mem Z := m <- get ;; deref (m !! a).
Definition wr (a v : Z) : M mem unit :=
  m <- get ;; _ <- deref (m !! a) ;; put (<[a := v mod 256]> m).
(** A byte read as [char]. *)
Definition s8 (b : Z) : Z := if b <? 128 then b else b - 256.

Definition memset (s c size : Z) : M mem unit :=
  loop (S (Z.to_nat size)) (λ '(sc, size),
    if size =? 0 then ret (inr tt)
    else wr sc c ;;; ret (inl (add32 sc 1, size - 1))) (s, size).

Definition memcpy (dst src size : Z) : M mem unit :=
  loop (S (Z.to_nat size)) (λ '(dstc, srcc, size),
    if size =? 0 then ret (inr tt)
    else v <- rd srcc ;; wr dstc v ;;; ret (inl (add32 dstc 1, add32 srcc 1, size - 1)))
    (dst, src, size).

Definition strcpy (dst src size : Z) : M mem unit :=
  loop (S (Z.to_nat size)) (λ '(dst, src, size),
    if size =? 0 then ret (inr tt)
    else v <- rd src ;; wr dst v ;;; ret (inl (add32 dst 1, add32 src 1, size - 1)))
    (dst, src, size).

Definition memcmp (s1 s2 len : Z) : M mem Z :=
  loop (S (Z.to_nat len)) (λ i,
    if i <? len then
      a <- rd (add32 s1 i) ;; b <- rd (add32 s2 i) ;;
      if b <? a then ret (inr 1) else if a <? b then ret (inr (-1)) else ret (inl (i + 1))
    else ret (inr 0)) 0.

(** The scan stops at a zero byte or at a page fault; with every address of the
    machine mapped and no zero byte it goes round for ever, which is what fuel
    above the size of the memory leaves as [Hang]. *)
Definition strlen (s : Z) : M mem Z :=
  m <- get ;;
  loop (S (size m)) (λ p,
    b <- rd p ;;
    if b =? 0 then ret (inr (sub32 p s)) else ret (inl (add32 p 1))) s.

Definition strlen_s (s maxlen : Z) : M mem Z :=
  loop (S (Z.to_nat maxlen)) (λ i,
    if i <? maxlen then
      b <- rd (add32 s i) ;; if b =? 0 then ret (inr i) else ret (inl (i + 1))
    else ret (inr maxlen)) 0.

Definition strcmp (s1 s2 : Z) : M mem Z :=
  len1 <- strlen s1 ;;
  len2 <- strlen s2 ;;
  let len := if len1 <? len2 then len1 else len2 in
  r <- loop (S (Z.to_nat len)) (λ i,
    if i <? len then
      a <- rd (add32 s1 i) ;; b <- rd (add32 s2 i) ;;
      if s8 a <? s8 b then ret (inr (Some (-1)))
      else if s8 b <? s8 a then ret (inr (Some 1)) else ret (inl (i + 1))
    else ret (inr None)) 0 ;;
  match r with
  | Some v => ret v
  | None => ret (if len1 <? len2 then -1 else if len2 <? len1 then 1 else 0)
  end.

(** ** What the memory holds *)

(** The bytes [l] from address [p] on. *)
Definition holds (m : mem) (p : Z) (l : list Z) : Prop :=
  ∀ i b, l !! i = Some b → m !! (p + Z.of_nat i) = Some b.

(** A zero-terminated string that does not run off the address space. *)
Record cstr (m : mem) (p : Z) (l : list Z) : Prop := {
  cs_holds : holds m p (l ++ [0]);
  cs_chars : Forall (λ b, 0 < b < 256) l;
  cs_range : 0 ≤ p ∧ p + Z.of_nat (length l) < W32;
}.

(** The order of names: lexicographic on signed characters, a prefix first. *)
Fixpoint lex (l1 l2 : list Z) : comparison :=
  match l1, l2 with
  | [], [] => Eq
  | [], _ :: _ => Lt
  | _ :: _, [] => Gt
  | a :: l1', b :: l2' =>
      match s8 a ?= s8 b with Eq => lex l1' l2' | c => c end
  end.

Definition cmp_int (c : comparison) : Z := match c with Lt => -1 | Eq => 0 | Gt => 1 end.

(** ** Bytes in memory *)
Lemma holds_cons m p b l : holds m p (b :: l) ↔ m !! p = Some b ∧ holds m (p + 1) l.
Proof.
  split.
  - intros H. split.
    + rewrite <- (H 0%nat b eq_refl). f_equal. lia.
    + intros i c Hi. rewrite <- (H (S i) c Hi). f_equal. lia.
  - intros [H0 H] [|i] c Hi; simpl in Hi.
    + simplify_eq. rewrite <- H0. f_equal. lia.
    + rewrite <- (H i c Hi). f_equal. lia.
Qed.

Lemma holds_app m p l1 l2 :
  holds m p (l1 ++ l2) ↔ holds m p l1 ∧ holds m (p + Z.of_nat (length l1)) l2.
Proof.
  revert p. induction l1 as [|b l1 IH]; intros p; simpl.
  - rewrite Z.add_0_r. split; [split; [intros ??; set_solver|done]|by intros [_ ?]].
  - rewrite !holds_cons, IH. replace (p + 1 + Z.of_nat (length l1))
      with (p + Z.of_nat (S (length l1))) by lia. tauto.
Qed.

Lemma holds_size m p l : holds m p l → (length l ≤ size m)%nat.
Proof.
  revert m p. induction l as [|b l IH]; intros m p H; simpl; [lia|].
  apply holds_cons in H as [Hp H].
  assert (holds (delete p m) (p + 1) l) as H'.
  { intros i c Hi. rewrite lookup_delete_ne by lia. by apply H. }
  apply IH in H'. rewrite map_size_delete_Some in H' by eauto.
  assert (size m ≠ 0%nat); [|lia].
  intros Hz. apply map_size_empty_inv in Hz. subst m. by rewrite lookup_empty in Hp.
Qed.

Lemma holds_wr m p l a v : holds m p l → (a < p ∨ p + Z.of_nat (length l) ≤ a) →
  holds (<[a:=v]> m) p l.
Proof.
  intros H Ha i b Hi. pose proof (lookup_lt_Some _ _ _ Hi).
  rewrite lookup_insert_ne by lia. by apply H.
Qed.

Lemma wp_rd m a b (Q : Z → mem → Prop) : m !! a = Some b → Q b m → wp (rd a) Q m.
Proof. intros H HQ. unfold rd. wp_simp. eauto. Qed.

Lemma wp_wr m a v (Q : unit → mem → Prop) :
  is_Some (m !! a) → Q tt (<[a:=v mod 256]> m) → wp (wr a v) Q m.
Proof. intros [b H] HQ. unfold wr. wp_simp. eauto. Qed.

Lemma cstr_byte m p l i : cstr m p l → 0 ≤ i ≤ Z.of_nat (length l) →
  ∃ b, (l ++ [0]) !! Z.to_nat i = Some b ∧ m !! add32 p i = Some b ∧ (b = 0 ↔ i = Z.of_nat (length l))
    ∧ 0 ≤ b < 256.
Proof.
  intros [Hh Hc Hr] Hi. unfold add32. rewrite u32_small by (unfold is_u32; lia).
  destruct (lookup_lt_is_Some_2 (l ++ [0]) (Z.to_nat i)) as [b Hb];
    [rewrite length_app; simpl; lia|].
  exists b. split; [done|]. pose proof (Hh _ _ Hb) as Hm. rewrite Z2Nat.id in Hm by lia.
  split; [done|]. apply lookup_app_Some in Hb as [Hb|[Hlen Hb]].
  - pose proof (lookup_lt_Some _ _ _ Hb). rewrite Forall_lookup in Hc.
    specialize (Hc _ _ Hb). lia.
  - destruct (Z.to_nat i - length l)%nat eqn:E; simpl in Hb; [|done]. simplify_eq. lia.
Qed.

(** ** Strings *)
Lemma strlen_spec m p l : cstr m p l → wp (strlen p) (λ n m', m' = m ∧ n = Z.of_nat (length l)) m.
Proof.
  intros Hs. pose proof (cs_range _ _ _ Hs) as Hr.
  pose proof (holds_size _ _ _ (cs_holds _ _ _ Hs)) as Hsz. rewrite length_app in Hsz; simpl in Hsz.
  unfold strlen. apply wp_bind, wp_get.
  apply (wp_loop (λ n q m', m' = m ∧ ∃ i, q = p + i ∧ 0 ≤ i ≤ Z.of_nat (length l) ∧
    n = (length l - Z.to_nat i)%nat)) with (n := length l).
  - intros n q m' (-> & i & -> & Hi & ->). apply wp_bind.
    destruct (cstr_byte m p l i Hs Hi) as (b & _ & Hb & H0 & _).
    unfold add32 in Hb. rewrite u32_small in Hb by (unfold is_u32; lia).
    apply (wp_rd _ _ b _ Hb). case_match eqn:E; simpl.
    + split; [done|]. unfold sub32. rewrite u32_small by (unfold is_u32; lia). lia.
    + exists (length l - Z.to_nat (i + 1))%nat. assert (i ≠ Z.of_nat (length l)) by lia.
      split; [lia|]. split; [done|]. exists (i + 1). unfold add32.
      rewrite u32_small by (unfold is_u32; lia). lia.
  - lia.
  - split; [done|]. exists 0. lia.
Qed.

Lemma strlen_s_spec m p l n : cstr m p l → 0 ≤ n →
  wp (strlen_s p n) (λ r m', m' = m ∧ r = Z.min n (Z.of_nat (length l))) m.
Proof.
  intros Hs Hn. unfold strlen_s.
  apply (wp_loop (λ k i m', m' = m ∧ 0 ≤ i ≤ n ∧ i ≤ Z.of_nat (length l) ∧
    k = (Z.to_nat n - Z.to_nat i)%nat)) with (n := Z.to_nat n); [|lia|split; [done|lia]].
  intros k i m' (-> & Hi & Hl & ->). case_match eqn:E; [|split; [done|lia]].
  destruct (cstr_byte m p l i Hs ltac:(lia)) as (b & _ & Hb & H0 & _).
  apply wp_bind, (wp_rd _ _ b _ Hb). case_match; simpl; [split; [done|lia]|].
  exists (Z.to_nat n - Z.to_nat (i + 1))%nat. split; [lia|]. split; [done|lia].
Qed.

Lemma lex_refl l : lex l l = Eq.
Proof. induction l as [|a l IH]; simpl; [done|]. by rewrite Z.compare_refl. Qed.

Lemma lex_antisym l1 l2 : lex l2 l1 = CompOpp (lex l1 l2).
Proof.
  revert l2. induction l1 as [|a l1 IH]; intros [|b l2]; simpl; try done.
  rewrite (Z.compare_antisym (s8 a) (s8 b)). by destruct (s8 a ?= s8 b); simpl.
Qed.

Lemma s8_inj a b : 0 ≤ a < 256 → 0 ≤ b < 256 → s8 a = s8 b → a = b.
Proof. unfold s8. intros. repeat case_match; lia. Qed.

Lemma lex_eq l1 l2 : Forall (λ b, 0 < b < 256) l1 → Forall (λ b, 0 < b < 256) l2 →
  lex l1 l2 = Eq → l1 = l2.
Proof.
  intros H1. revert l2. induction H1 as [|a l1 Ha H1 IH]; intros [|b l2] H2; simpl; try done.
  apply Forall_cons in H2 as [Hb H2]. destruct (s8 a ?= s8 b) eqn:E; try done.
  rewrite Z.compare_eq_iff in E. apply s8_inj in E; [|lia..]. intros H. f_equal; [done|auto].
Qed.

Lemma lex_trans l1 l2 l3 : lex l1 l2 = Lt → lex l2 l3 = Lt → lex l1 l3 = Lt.
Proof.
  revert l2 l3. induction l1 as [|a l1 IH]; intros [|b l2] [|c l3]; simpl; try done.
  destruct (s8 a ?= s8 b) eqn:E1; try done; destruct (s8 b ?= s8 c) eqn:E2; try done;
    rewrite ?Z.compare_eq_iff, ?Z.compare_lt_iff in *.
  - replace (s8 a) with (s8 c) by lia. rewrite Z.compare_refl. eauto.
  - intros _ _. rewrite E1, <- Z.compare_lt_iff in *. by rewrite E2.
  - intros _ _. assert (s8 a < s8 c) as H by lia. rewrite <- Z.compare_lt_iff in H. by rewrite H.
  - intros _ _. assert (s8 a < s8 c) as H by lia. rewrite <- Z.compare_lt_iff in H. by rewrite H.
Qed.

Lemma lex_skip l1 l2 i : lex (take i l1) (take i l2) = Eq → (i ≤ length l1)%nat →
  (i ≤ length l2)%nat → lex l1 l2 = lex (drop i l1) (drop i l2).
Proof.
  revert i l2. induction l1 as [|a l1 IH]; intros [|i] [|b l2]; simpl; try (done || lia).
  destruct (s8 a ?= s8 b); try done. intros. apply IH; [done|lia..].
Qed.

Lemma lex_take_snoc l1 l2 i a b : lex (take i l1) (take i l2) = Eq → l1 !! i = Some a →
  l2 !! i = Some b → s8 a = s8 b → lex (take (S i) l1) (take (S i) l2) = Eq.
Proof.
  revert i l2. induction l1 as [|c l1 IH]; intros [|i] [|d l2]; simpl; try done.
  - intros _ ? ? Hs. simplify_eq. by rewrite Hs, Z.compare_refl.
  - destruct (s8 c ?= s8 d); try done. intros. by apply IH.
Qed.

Lemma strcmp_spec m p1 p2 l1 l2 : cstr m p1 l1 → cstr m p2 l2 →
  wp (strcmp p1 p2) (λ r m', m' = m ∧ r = cmp_int (lex l1 l2)) m.
Proof.
  intros H1 H2. unfold strcmp. apply wp_bind. eapply wp_mono; [by apply strlen_spec|].
  intros ?? [-> ->]. apply wp_bind. eapply wp_mono; [by apply strlen_spec|]. intros ?? [-> ->].
  set (len := if _ <? _ then _ else _).
  assert (len ≤ Z.of_nat (length l1) ∧ len ≤ Z.of_nat (length l2) ∧
    (len = Z.of_nat (length l1) ∨ len = Z.of_nat (length l2)) ∧ 0 ≤ len) as Hlen
    by (unfold len; case_match; lia).
  clearbody len. apply wp_bind.
  apply (wp_loop (λ k i m', m' = m ∧ 0 ≤ i ≤ len ∧ k = (Z.to_nat len - Z.to_nat i)%nat ∧
    lex (take (Z.to_nat i) l1) (take (Z.to_nat i) l2) = Eq)) with (n := Z.to_nat len); [|lia|].
  2:{ split_and!; [done|lia..|done]. }
  intros k i m' (-> & Hi & -> & Hlex). case_match eqn:E.
  - destruct (cstr_byte m p1 l1 i H1 ltac:(lia)) as (a & Ha' & Ha & _ & _).
    destruct (cstr_byte m p2 l2 i H2 ltac:(lia)) as (b & Hb' & Hb & _ & _).
    rewrite lookup_app_l in Ha' by lia. rewrite lookup_app_l in Hb' by lia.
    apply wp_bind, (wp_rd _ _ a _ Ha), wp_bind, (wp_rd _ _ b _ Hb).
    pose proof (lex_skip l1 l2 (Z.to_nat i) Hlex ltac:(lia) ltac:(lia)) as Hsk.
    rewrite (drop_S _ _ _ Ha'), (drop_S _ _ _ Hb') in Hsk. simpl in Hsk.
    destruct (s8 a ?= s8 b) eqn:Ec; rewrite ?Z.compare_eq_iff, ?Z.compare_lt_iff, ?Z.compare_gt_iff in Ec.
    + rewrite !(proj2 (Z.ltb_ge _ _)) by lia. apply wp_ret.
      exists (Z.to_nat len - Z.to_nat (i + 1))%nat. split_and!; [lia|done|lia..|].
      replace (Z.to_nat (i + 1)) with (S (Z.to_nat i)) by lia. by eapply lex_take_snoc.
    + rewrite (proj2 (Z.ltb_lt _ _)) by lia. apply wp_ret, wp_ret. by rewrite Hsk.
    + rewrite (proj2 (Z.ltb_ge _ _)), (proj2 (Z.ltb_lt _ _)) by lia. apply wp_ret, wp_ret.
      by rewrite Hsk.
  - apply wp_ret. assert (i = len) as -> by lia. apply wp_ret. split; [done|].
    rewrite (lex_skip l1 l2 (Z.to_nat len)) by (done || lia).
    destruct (drop (Z.to_nat len) l1) as [|a r1] eqn:E1, (drop (Z.to_nat len) l2) as [|b r2] eqn:E2;
      simpl; apply (f_equal length) in E1, E2; rewrite length_drop in E1, E2; simpl in E1, E2;
      repeat case_match; try done; try lia.
Qed.

(** ** Copies and fills *)
Definition mapped (m : mem) (p n : Z) : Prop := ∀ a, p ≤ a < p + n → is_Some (m !! a).
Definition all_bytes (m : mem) : Prop := ∀ a b, m !! a = Some b → 0 ≤ b < 256.
(** [m'] is [m] with the bytes [d .. d+n) replaced by those [f] gives. *)
Definition filled (d n : Z) (f : Z → option Z) (m m' : mem) : Prop :=
  ∀ a, m' !! a = if decide (d ≤ a < d + n) then f (a - d) else m !! a.

Lemma filled_0 d f m : filled d 0 f m m.
Proof. intros a. case_decide; [lia|done]. Qed.

Lemma filled_step d n f m m' v : filled d n f m m' → 0 ≤ n → 0 ≤ v < 256 → f n = Some v →
  filled d (n + 1) f m (<[d + n := v mod 256]> m').
Proof.
  intros H Hn Hv Hf a. rewrite Z.mod_small by lia.
  destruct (decide (a = d + n)) as [->|Hne].
  - rewrite lookup_insert_eq, decide_True by lia. rewrite <- Hf. f_equal. lia.
  - rewrite lookup_insert_ne by done. rewrite (H a). repeat case_decide; (done || lia).
Qed.

Lemma filled_out d n f m m' a : filled d n f m m' → (a < d ∨ d + n ≤ a) → m' !! a = m !! a.
Proof. intros H Ha. rewrite (H a). case_decide; [lia|done]. Qed.

Lemma memset_spec m s c n : 0 ≤ c < 256 → 0 ≤ s → 0 ≤ n → s + n < W32 → mapped m s n →
  wp (memset s c n) (λ _ m', filled s n (λ _, Some c) m m') m.
Proof.
  intros Hc Hs Hn Hr Hm. unfold memset.
  apply (wp_loop (λ k v m', filled s (n - v.2) (λ _, Some c) m m' ∧ v.1 = s + (n - v.2) ∧
    0 ≤ v.2 ≤ n ∧ k = Z.to_nat v.2)) with (n := Z.to_nat n); [|lia|].
  2:{ simpl. rewrite Z.sub_diag. split; [apply filled_0|lia]. }
  intros k [sc v] m'. cbn [fst snd]. intros (Hf & -> & Hv & ->). case_match eqn:E.
  - assert (v = 0) as -> by lia. apply wp_ret. by rewrite Z.sub_0_r in Hf.
  - apply wp_bind, wp_wr.
    + rewrite (filled_out _ _ _ _ _ _ Hf) by lia. apply Hm. lia.
    + apply wp_ret. exists (Z.to_nat (v - 1)). split; [lia|]. cbn [fst snd]. split; [|split; [|lia]].
      * cbn [fst snd]. replace (n - (v - 1)) with (n - v + 1) by lia. apply filled_step; [done|lia|lia|done].
      * cbn [fst snd]. unfold add32. rewrite u32_small by (unfold is_u32; lia). lia.
Qed.

Lemma memcpy_spec m d s n : 0 ≤ d → 0 ≤ s → 0 ≤ n → d + n < W32 → s + n < W32 →
  all_bytes m → mapped m d n → mapped m s n → d ≤ s ∨ s + n ≤ d →
  wp (memcpy d s n) (λ _ m', filled d n (λ i, m !! (s + i)) m m') m.
Proof.
  intros Hd Hs Hn Hrd Hrs Hb Hmd Hms Hov. unfold memcpy.
  apply (wp_loop (λ k v m', filled d (n - v.2) (λ i, m !! (s + i)) m m' ∧
    v.1 = (d + (n - v.2), s + (n - v.2)) ∧ 0 ≤ v.2 ≤ n ∧ k = Z.to_nat v.2))
    with (n := Z.to_nat n); [|lia|].
  2:{ simpl. rewrite Z.sub_diag. split; [apply filled_0|]. rewrite !Z.add_0_r. split; [done|lia]. }
  intros k [[dc sc] v] m'. cbn [fst snd]. intros (Hf & [= -> ->] & Hv & ->). case_match eqn:E.
  - assert (v = 0) as -> by lia. apply wp_ret. by rewrite Z.sub_0_r in Hf.
  - destruct (Hms (s + (n - v))) as [b Hsb]; [lia|].
    apply wp_bind, (wp_rd _ _ b).
    { rewrite (filled_out _ _ _ _ _ _ Hf) by lia. done. }
    apply wp_bind, wp_wr.
    + rewrite (filled_out _ _ _ _ _ _ Hf) by lia. apply Hmd. lia.
    + apply wp_ret. exists (Z.to_nat (v - 1)). split; [lia|]. cbn [fst snd]. split; [|split; [|lia]].
      * cbn [fst snd]. replace (n - (v - 1)) with (n - v + 1) by lia.
        apply filled_step; [done|lia|by eapply Hb|done].
      * cbn [fst snd]. unfold add32. rewrite !u32_small by (unfold is_u32; lia). f_equal; lia.
Qed.

(** The outcome of a byte comparison: the first difference decides. *)
Definition bytes_cmp (l1 l2 : list Z) (r : Z) : Prop :=
  (r = 0 ∧ l1 = l2) ∨
  ∃ i a b, take i l1 = take i l2 ∧ l1 !! i = Some a ∧ l2 !! i = Some b ∧
    ((b < a ∧ r = 1) ∨ (a < b ∧ r = -1)).

Lemma memcmp_spec m p1 p2 l1 l2 : length l1 = length l2 →
  0 ≤ p1 → p1 + Z.of_nat (length l1) ≤ W32 → 0 ≤ p2 → p2 + Z.of_nat (length l2) ≤ W32 →
  holds m p1 l1 → holds m p2 l2 →
  wp (memcmp p1 p2 (Z.of_nat (length l1))) (λ r m', m' = m ∧ bytes_cmp l1 l2 r) m.
Proof.
  intros Hlen H1 H1' H2 H2' Hh1 Hh2. unfold memcmp.
  apply (wp_loop (λ k i m', m' = m ∧ 0 ≤ i ≤ Z.of_nat (length l1) ∧
    k = (length l1 - Z.to_nat i)%nat ∧ take (Z.to_nat i) l1 = take (Z.to_nat i) l2))
    with (n := length l1); [|lia|].
  2:{ split_and!; [done|lia..|done]. }
  intros k i m' (-> & Hi & -> & Ht). case_match eqn:E.
  - destruct (lookup_lt_is_Some_2 l1 (Z.to_nat i)) as [a Ha]; [lia|].
    destruct (lookup_lt_is_Some_2 l2 (Z.to_nat i)) as [b Hb]; [lia|].
    pose proof (Hh1 _ _ Ha) as Ha'. pose proof (Hh2 _ _ Hb) as Hb'.
    rewrite Z2Nat.id in Ha', Hb' by lia.
    unfold add32. rewrite !u32_small by (unfold is_u32; lia).
    apply wp_bind, (wp_rd _ _ a _ Ha'), wp_bind, (wp_rd _ _ b _ Hb').
    case_match; [|case_match]; apply wp_ret.
    + split; [done|]. right. exists (Z.to_nat i), a, b. split_and!; [done..|lia].
    + split; [done|]. right. exists (Z.to_nat i), a, b. split_and!; [done..|lia].
    + exists (length l1 - Z.to_nat (i + 1))%nat. split_and!; [lia|done|lia..|].
      replace (Z.to_nat (i + 1)) with (S (Z.to_nat i)) by lia.
      rewrite (take_S_r _ _ _ Ha), (take_S_r _ _ _ Hb), Ht. by replace b with a by lia.
  - apply wp_ret. split; [done|]. left. split; [done|].
    by rewrite !firstn_all2 in Ht by lia.
Qed.

(** ** The properties *)

(** [strcmp] is a total order on names: it always returns on terminated
    strings, changes nothing, and its result is -1, 0 or 1 as the first string is
    before, equal to or after the second in the lexicographic order of signed
    characters, which is antisymmetric, transitive and decides equality; [strlen]
    and [strlen_s] return the length and the bounded length. *)
Theorem strcmp_correct m p1 p2 p3 l1 l2 l3 n :
  cstr m p1 l1 → cstr m p2 l2 → cstr m p3 l3 → 0 ≤ n →
  wp (strcmp p1 p2) (λ r m', m' = m ∧ r = cmp_int (lex l1 l2)) m ∧
  (cmp_int (lex l1 l2) = 0 ↔ l1 = l2) ∧
  cmp_int (lex l2 l1) = - cmp_int (lex l1 l2) ∧
  (cmp_int (lex l1 l2) = -1 → cmp_int (lex l2 l3) = -1 → cmp_int (lex l1 l3) = -1) ∧
  wp (strlen p1) (λ r m', m' = m ∧ r = Z.of_nat (length l1)) m ∧
  wp (strlen_s p1 n) (λ r m', m' = m ∧ r = Z.min n (Z.of_nat (length l1))) m.
Proof.
  intros H1 H2 H3 Hn. split_and!.
  - by apply strcmp_spec.
  - split; [|intros ->; by rewrite lex_refl].
    intros H. apply lex_eq; [apply H1|apply H2|]. by destruct (lex l1 l2).
  - rewrite lex_antisym. by destruct (lex l1 l2).
  - intros H H'. rewrite (lex_trans l1 l2 l3); [done|by destruct (lex l1 l2)|by destruct (lex l2 l3)].
  - by apply strlen_spec.
  - by apply strlen_s_spec.
Qed.

(** Three names: "ab", "b" and the empty string. *)
Definition ex_names : mem := list_to_map [(10, 97); (11, 98); (12, 0); (20, 98); (21, 0); (30, 0)].

Lemma holds_forallb m p l :
  forallb (λ '(i, b), bool_decide (m !! (p + Z.of_nat i) = Some b)) (zip (seq 0 (length l)) l) = true →
  holds m p l.
Proof.
  rewrite forallb_forall. intros H i b Hi. specialize (H (i, b)).
  rewrite bool_decide_eq_true in H. apply H. apply list_elem_of_In, list_elem_of_lookup.
  exists i. apply lookup_zip_with_Some. exists i, b. split_and!; [done| |done].
  apply lookup_seq. split; [lia|by eapply lookup_lt_Some].
Qed.

Lemma strcmp_correct_witness :
  wp (strcmp 10 20) (λ r m', m' = ex_names ∧ r = -1) ex_names.
Proof.
  assert (cstr ex_names 10 [97; 98]) as H1.
  { split; [by apply holds_forallb; vm_compute|repeat constructor|by vm_compute]. }
  assert (cstr ex_names 20 [98]) as H2.
  { split; [by apply holds_forallb; vm_compute|repeat constructor|by vm_compute]. }
  assert (cstr ex_names 30 []) as H3.
  { split; [by apply holds_forallb; vm_compute|repeat constructor|by vm_compute]. }
  exact (proj1 (strcmp_correct ex_names 10 20 30 _ _ _ 5 H1 H2 H3 ltac:(lia))).
Defined.

(** The byte operations do what their names say on mapped memory:
    [memset] fills the range with the character and [memcpy] and [strcpy] copy
    exactly [n] bytes (they agree, and a copy downwards may overlap), each leaving
    every other byte as it was; [memcmp] decides by the first unsigned byte that
    differs. *)
Theorem mem_ops_correct m d s c n :
  all_bytes m → 0 ≤ c < 256 → 0 ≤ d → 0 ≤ s → 0 ≤ n → d + n < W32 → s + n < W32 →
  mapped m d n → mapped m s n →
  wp (memset d c n) (λ _ m', filled d n (λ _, Some c) m m') m ∧
  (d ≤ s ∨ s + n ≤ d →
   wp (memcpy d s n) (λ _ m', filled d n (λ i, m !! (s + i)) m m') m ∧
   wp (strcpy d s n) (λ _ m', filled d n (λ i, m !! (s + i)) m m') m) ∧
  ∀ l1 l2, length l1 = length l2 → n = Z.of_nat (length l1) → holds m d l1 → holds m s l2 →
    wp (memcmp d s n) (λ r m', m' = m ∧ bytes_cmp l1 l2 r) m.
Proof.
  intros Hb Hc Hd Hs Hn Hrd Hrs Hmd Hms. split_and!.
  - by apply memset_spec.
  - intros Hov. split; by apply memcpy_spec.
  - intros l1 l2 Hl -> H1 H2. apply memcmp_spec; (done || lia).
Qed.

Lemma mem_ops_correct_witness :
  wp (memcpy 10 11 2) (λ _ m', filled 10 2 (λ i, ex_names !! (11 + i)) ex_names m') ex_names.
Proof.
  assert (all_bytes ex_names) as Hb.
  { intros a b H. apply elem_of_list_to_map_2 in H.
    set_unfold in H. destruct_or! H; simplify_eq; lia. }
  assert (mapped ex_names 10 2) as H1.
  { intros a Ha. assert (a = 10 ∨ a = 11) as [-> | ->] by lia; (vm_compute; eauto). }
  assert (mapped ex_names 11 2) as H2.
  { intros a Ha. assert (a = 11 ∨ a = 12) as [-> | ->] by lia; (vm_compute; eauto). }
  exact (proj1 (proj1 (proj2 (mem_ops_correct ex_names 10 11 7 2 Hb ltac:(lia) ltac:(lia) ltac:(lia)
    ltac:(lia) ltac:(done) ltac:(done) H1 H2)) (or_introl (ltac:(lia) : 10 ≤ 11)))).
Defined.
