(* ===== verification/Buf.v ===== *)
(** * Bounded character queues: lib/buf.c

    The ring of [buf_t]. [schd_block] gives the processor away until another
    thread passes this one to [schd_run]: what the other threads do to the
    buffer meanwhile is the parameter [others]. A mutex is a held flag; taking
    one that is held waits for ever, since nothing here releases it. *)
From S2P Require Import Prelude.

Record buf := Buf {
  cache : gmap Z Z; size : Z; freesz : Z;
  readlock : bool; writelock : bool;
  b : Z; e : Z;
  wblkt : Z; rblkt : Z;
  (** the threads passed to [schd_run], the last one first *)
  woken : list Z;
}.

Section buf.
(** [thread_now()], and what happens until [schd_run] wakes it. *)
Variable thread_now : Z.
Variable others : M buf unit.

Definition set_readlock (v : bool) : M buf unit := modify (λ s,
  Buf (cache s) (size s) (freesz s) v (writelock s) (b s) (e s) (wblkt s) (rblkt s) (woken s)).
Definition set_writelock (v : bool) : M buf unit := modify (λ s,
  Buf (cache s) (size s) (freesz s) (readlock s) v (b s) (e s) (wblkt s) (rblkt s) (woken s)).
Definition lock_read : M buf unit :=
  s <- get ;; if readlock s then hang else set_readlock true.
Definition lock_write : M buf unit :=
  s <- get ;; if writelock s then hang else set_writelock true.
Definition set_blocked (w r : Z) : M buf unit := modify (λ s,
  Buf (cache s) (size s) (freesz s) (readlock s) (writelock s) (b s) (e s) w r (woken s)).
Definition schd_run (t : Z) : M buf unit := modify (λ s,
  Buf (cache s) (size s) (freesz s) (readlock s) (writelock s) (b s) (e s) (wblkt s) (rblkt s)
    (t :: woken s)).
Definition set_cell (i c : Z) : M buf unit := modify (λ s,
  Buf (<[i := c]> (cache s)) (size s) (freesz s) (readlock s) (writelock s) (b s) (e s)
    (wblkt s) (rblkt s) (woken s)).
Definition set_ends (b' e' freesz' : Z) : M buf unit := modify (λ s,
  Buf (cache s) (size s) freesz' (readlock s) (writelock s) b' e' (wblkt s) (rblkt s) (woken s)).
Definition mod_size (x n : Z) : M buf Z := if n =? 0 then fault else ret (x mod n).

(** The rest of [buf_read] once there is a character. *)
Definition read_char : M buf (Z * Z) :=
  s <- get ;;
  assert_ (freesz s <? size s) ;;;
  c <- deref (cache s !! b s) ;;
  b' <- mod_size (add32 (b s) 1) (size s) ;;
  set_ends b' (e s) (add32 (freesz s) 1) ;;;
  s <- get ;;
  (if negb (wblkt s =? 0) then set_blocked 0 (rblkt s) ;;; schd_run (wblkt s) else ret tt) ;;;
  set_readlock false ;;;
  ret (E_OK, c).

Definition buf_read : M buf (Z * Z) :=
  lock_read ;;;
  s <- get ;;
  (if freesz s =? size s then set_blocked (wblkt s) thread_now ;;; others else ret tt) ;;;
  read_char.

(** The rest of [buf_write] once there is room. *)
Definition write_char (c : Z) : M buf Z :=
  s <- get ;;
  assert_ (0 <? freesz s) ;;;
  set_cell (e s) c ;;;
  e' <- mod_size (add32 (e s) 1) (size s) ;;
  set_ends (b s) e' (sub32 (freesz s) 1) ;;;
  s <- get ;;
  (if negb (rblkt s =? 0) then set_blocked (wblkt s) 0 ;;; schd_run (rblkt s) else ret tt) ;;;
  set_writelock false ;;;
  ret E_OK.

Definition buf_write (c : Z) : M buf Z :=
  lock_write ;;;
  s <- get ;;
  (if freesz s =? 0 then set_blocked thread_now (rblkt s) ;;; others else ret tt) ;;;
  write_char c.
End buf.

(** [buf_init] over the bytes [kmalloc] gave for the cache, whatever they hold. *)
Definition buf_init (kmalloc : Z → option (gmap Z Z)) (n : Z) : M buf Z :=
  match kmalloc n with
  | None => ret E_NOMEM
  | Some cells => put (Buf cells n n false false 0 0 0 0 []) ;;; ret E_OK
  end.

(** ** The queue a buffer represents *)
Record ring (l : list Z) (s : buf) : Prop := {
  ring_size : 0 < size s < W32;
  ring_free : freesz s = size s - Z.of_nat (length l) ∧ 0 ≤ freesz s;
  ring_b : 0 ≤ b s < size s;
  ring_e : e s = (b s + Z.of_nat (length l)) mod size s;
  ring_cells : ∀ i c, l !! i = Some c → cache s !! ((b s + Z.of_nat i) mod size s) = Some c;
}.

(** Who was waiting is passed to the scheduler and no longer waits. *)
Definition wakes (t : Z) (w : list Z) : list Z := if t =? 0 then w else t :: w.

Record read_post (l : list Z) (s s' : buf) : Prop := {
  rp_ring : ring l s'; rp_size : size s' = size s;
  rp_locks : readlock s' = false ∧ writelock s' = writelock s;
  rp_wait : wblkt s' = 0 ∧ rblkt s' = rblkt s;
  rp_woken : woken s' = wakes (wblkt s) (woken s);
}.
Record write_post (l : list Z) (s s' : buf) : Prop := {
  wo_ring : ring l s'; wo_size : size s' = size s;
  wo_locks : writelock s' = false ∧ readlock s' = readlock s;
  wo_wait : rblkt s' = 0 ∧ wblkt s' = wblkt s;
  wo_woken : woken s' = wakes (rblkt s) (woken s);
}.

Lemma mod_size_spec x n (Q : Z → buf → Prop) s :
  0 < n < W32 → 0 ≤ x < n → Q ((x + 1) mod n) s → wp (mod_size (add32 x 1) n) Q s.
Proof.
  intros Hn Hx HQ. unfold mod_size. rewrite (proj2 (Z.eqb_neq _ _)) by lia. apply wp_ret.
  unfold add32. by rewrite u32_small by (unfold is_u32; lia).
Qed.

Lemma ring_idx n x i : 0 < n → ((x + 1) mod n + i) mod n = (x + (1 + i)) mod n.
Proof. intros Hn. rewrite Z.add_mod_idemp_l by lia. f_equal. lia. Qed.

Lemma ring_idx_ne n x i j : 0 < n → 0 ≤ i < n → 0 ≤ j < n → i ≠ j → (x + i) mod n ≠ (x + j) mod n.
Proof.
  intros Hn Hi Hj Hne Heq.
  assert ((i - j) mod n = 0) as H.
  { replace (i - j) with ((x + i) - (x + j)) by lia. rewrite Zminus_mod, Heq.
    by rewrite Z.sub_diag, Z.mod_0_l by lia. }
  apply Z.mod_divide in H as [k Hk]; [|lia].
  assert (k < 1) by (apply Z.nle_gt; intros ?; assert (n ≤ k * n) by nia; lia).
  assert (-1 < k) by (apply Z.nle_gt; intros ?; assert (k * n ≤ - n) by nia; lia).
  assert (k = 0) as -> by lia. lia.
Qed.

Lemma ring_same l s s' : ring l s → cache s' = cache s → size s' = size s →
  freesz s' = freesz s → b s' = b s → e s' = e s → ring l s'.
Proof. intros [] Hc Hs Hf Hb He. split; rewrite ?Hc, ?Hs, ?Hf, ?Hb, ?He; done. Qed.

Lemma read_char_spec c l s : ring (c :: l) s →
  wp read_char (λ r s', r = (E_OK, c) ∧ read_post l s s') s.
Proof.
  intros [Hsz [Hfr Hf0] Hb He Hc]. simpl in Hfr, He. unfold read_char.
  apply wp_bind, wp_get, wp_bind, wp_assert. split; [lia|].
  apply wp_bind, wp_deref. exists c. split.
  { rewrite <- (Hc 0%nat c eq_refl). rewrite Z.add_0_r, Z.mod_small by lia. done. }
  apply wp_bind, mod_size_spec; [done|done|].
  apply wp_bind. cbv [set_ends]. apply wp_modify, wp_bind, wp_get.
  assert (∀ w r rl k, ring l (Buf (cache s) (size s) (add32 (freesz s) 1) rl (writelock s)
    ((b s + 1) mod size s) (e s) w r k)) as Hring.
  { intros w r rl k. split; cbn.
    - done.
    - unfold add32. rewrite u32_small by (unfold is_u32; lia). lia.
    - apply Z.mod_pos_bound. lia.
    - rewrite ring_idx by lia. rewrite He. f_equal. lia.
    - intros i c' Hi. rewrite ring_idx by lia. rewrite <- (Hc (S i) c' Hi). f_equal. f_equal. lia. }
  apply wp_bind, wp_if. unfold set_readlock, set_blocked, schd_run, wakes.
  split; intros Hw; cbn in Hw; unfold wp, bind, modify, ret; cbn; (split; [done|]); split; cbn; first
    [apply Hring|done|split; (done || lia)|unfold wakes; case_match; (done || lia)].
Qed.

Lemma write_char_spec c l s : ring l s → Z.of_nat (length l) < size s →
  wp (write_char c) (λ r s', r = E_OK ∧ write_post (l ++ [c]) s s') s.
Proof.
  intros [Hsz [Hfr Hf0] Hb He Hc] Hroom. unfold write_char.
  pose proof (Z.mod_pos_bound (b s + Z.of_nat (length l)) (size s) ltac:(lia)) as Hmod.
  apply wp_bind, wp_get, wp_bind, wp_assert. split; [lia|].
  apply wp_bind. cbv [set_cell]. apply wp_modify. apply wp_bind, mod_size_spec; [done|lia|].
  apply wp_bind. cbv [set_ends]. apply wp_modify, wp_bind, wp_get. cbn.
  assert (∀ w r wl k, ring (l ++ [c]) (Buf (<[e s := c]> (cache s)) (size s) (sub32 (freesz s) 1)
    (readlock s) wl (b s) ((e s + 1) mod size s) w r k)) as Hring.
  { intros w r wl k. split; cbn; rewrite ?length_app; cbn.
    - done.
    - unfold sub32. rewrite u32_small by (unfold is_u32; lia). lia.
    - done.
    - rewrite He, Z.add_mod_idemp_l by lia. f_equal. lia.
    - intros i c' Hi. pose proof (lookup_lt_Some _ _ _ Hi) as Hlt. rewrite length_app in Hlt; cbn in Hlt.
      apply lookup_app_Some in Hi as [Hi|[Hge Hi]].
      + pose proof (lookup_lt_Some _ _ _ Hi). rewrite lookup_insert_ne; [by apply Hc|].
        rewrite He. apply ring_idx_ne; lia.
      + replace i with (length l) in * by lia. rewrite Nat.sub_diag in Hi. simplify_eq/=.
        by rewrite He, lookup_insert_eq. }
  apply wp_bind, wp_if. unfold set_writelock, set_blocked, schd_run, wakes.
  split; intros Hw; cbn in Hw; unfold wp, bind, modify, ret; cbn; (split; [done|]); split; cbn; first
    [apply Hring|done|split; (done || lia)|unfold wakes; case_match; (done || lia)].
Qed.

Lemma buf_read_spec t o c l s : ring (c :: l) s → readlock s = false →
  wp (buf_read t o) (λ r s', r = (E_OK, c) ∧ read_post l s s') s.
Proof.
  intros Hr Hl. pose proof (ring_free _ _ Hr) as [Hf _]. simpl in Hf.
  unfold buf_read, lock_read. apply wp_bind, wp_bind, wp_get. rewrite Hl. unfold set_readlock.
  apply wp_modify, wp_bind, wp_get. cbn. apply wp_bind.
  rewrite (proj2 (Z.eqb_neq _ _)) by lia. apply wp_ret.
  eapply wp_mono; [by apply read_char_spec, (ring_same _ s)|]. intros r s' [-> []].
  split; [done|]. by split.
Qed.

Lemma buf_write_spec t o c l s : ring l s → Z.of_nat (length l) < size s → writelock s = false →
  wp (buf_write t o c) (λ r s', r = E_OK ∧ write_post (l ++ [c]) s s') s.
Proof.
  intros Hr Hroom Hl. pose proof (ring_free _ _ Hr) as [Hf _].
  unfold buf_write, lock_write. apply wp_bind, wp_bind, wp_get. rewrite Hl. unfold set_writelock.
  apply wp_modify, wp_bind, wp_get. cbn. apply wp_bind.
  rewrite (proj2 (Z.eqb_neq _ _)) by lia. apply wp_ret.
  eapply wp_mono; [apply write_char_spec; [by apply (ring_same _ s)|done]|]. intros r s' [-> []].
  split; [done|]. by split.
Qed.

(** A reader that finds the buffer empty sleeps until a writer has put a
    character in and passed it to the scheduler. *)
Lemma buf_read_blocks t t' o c s : ring [] s → readlock s = false → writelock s = false → t ≠ 0 →
  wp (buf_read t (buf_write t' o c ;;; ret tt)) (λ r s', r = (E_OK, c) ∧ ring [] s' ∧
    readlock s' = false ∧ writelock s' = false ∧ t ∈ woken s') s.
Proof.
  intros Hr Hl Hw Ht. pose proof (ring_free _ _ Hr) as [Hf _]. cbn in Hf.
  pose proof (ring_size _ _ Hr).
  unfold buf_read, lock_read. apply wp_bind, wp_bind, wp_get. rewrite Hl. unfold set_readlock.
  apply wp_modify, wp_bind, wp_get. cbn. apply wp_bind.
  rewrite (proj2 (Z.eqb_eq _ _)) by lia. unfold set_blocked. apply wp_bind, wp_modify. cbn.
  apply wp_bind. eapply wp_mono; [apply (buf_write_spec t' o c []); cbn; [by apply (ring_same _ s)|lia|done]|].
  intros r s1 [-> [R1 S1 [L1 L1'] [W1 W1'] K1]]. cbn in *. apply wp_ret.
  eapply wp_mono; [by apply (read_char_spec c [])|].
  intros r s2 [-> [R2 S2 [L2 L2'] [W2 W2'] K2]]. split_and!; [done|done|done|by rewrite L2'|].
  rewrite K2, K1. unfold wakes. rewrite (proj2 (Z.eqb_neq t 0)) by done. case_match; set_solver.
Qed.

(** A writer that finds it full sleeps until a reader has made room. *)
Lemma buf_write_blocks t t' o c d l s : ring (d :: l) s → freesz s = 0 → readlock s = false →
  writelock s = false → t ≠ 0 →
  wp (buf_write t (buf_read t' o ;;; ret tt) c) (λ r s', r = E_OK ∧ ring (l ++ [c]) s' ∧
    readlock s' = false ∧ writelock s' = false ∧ t ∈ woken s') s.
Proof.
  intros Hr Hfull Hl Hw Ht. pose proof (ring_free _ _ Hr) as [Hf _]. cbn in Hf.
  pose proof (ring_size _ _ Hr).
  unfold buf_write, lock_write. apply wp_bind, wp_bind, wp_get. rewrite Hw. unfold set_writelock.
  apply wp_modify, wp_bind, wp_get. cbn. apply wp_bind.
  rewrite (proj2 (Z.eqb_eq _ _)) by lia. unfold set_blocked. apply wp_bind, wp_modify. cbn.
  apply wp_bind. eapply wp_mono; [apply (buf_read_spec t' o d l); cbn; [by apply (ring_same _ s)|done]|].
  intros r s1 [-> [R1 S1 [L1 L1'] [W1 W1'] K1]]. cbn in *. apply wp_ret.
  eapply wp_mono; [apply (write_char_spec c l); [done|rewrite S1; lia]|].
  intros r s2 [-> [R2 S2 [L2 L2'] [W2 W2'] K2]]. split_and!; [done|done|by rewrite L2'|done|].
  rewrite K2, K1. unfold wakes. rewrite (proj2 (Z.eqb_neq t 0)) by done.
  case_match; set_solver.
Qed.

Lemma buf_init_spec kmalloc n cells s0 : 0 < n < W32 → kmalloc n = Some cells →
  wp (buf_init kmalloc n) (λ r s', r = E_OK ∧ ring [] s' ∧ size s' = n ∧
    readlock s' = false ∧ writelock s' = false) s0.
Proof.
  intros Hn Hk. unfold buf_init. rewrite Hk. unfold wp, bind, put, ret; cbn.
  split_and!; try done. split; cbn; (done || lia).
Qed.

(** A buffer is a bounded first-in first-out queue. [buf_init] makes it empty;
    [buf_write] on a buffer with room appends its character and wakes the reader
    that waits; [buf_read] on a buffer with characters takes the first and wakes
    the writer that waits; a read of an empty buffer returns the character of the
    write that runs while it sleeps, a write to a full one succeeds after the read
    that runs while it sleeps, and in both cases the sleeper has been handed to the
    scheduler. Every lock taken is released. *)
Theorem buf_fifo kmalloc n cells t t' o c d l s :
  0 < n < W32 → kmalloc n = Some cells → ring (d :: l) s →
  readlock s = false → writelock s = false → t ≠ 0 →
  wp (buf_init kmalloc n) (λ r s', r = E_OK ∧ ring [] s' ∧ size s' = n ∧
    readlock s' = false ∧ writelock s' = false) s ∧
  wp (buf_read t o) (λ r s', r = (E_OK, d) ∧ read_post l s s') s ∧
  (Z.of_nat (length (d :: l)) < size s →
   wp (buf_write t o c) (λ r s', r = E_OK ∧ write_post (d :: l ++ [c]) s s') s) ∧
  (freesz s = 0 →
   wp (buf_write t (buf_read t' o ;;; ret tt) c) (λ r s', r = E_OK ∧ ring (l ++ [c]) s' ∧
     readlock s' = false ∧ writelock s' = false ∧ t ∈ woken s') s) ∧
  ∀ s0, ring [] s0 → readlock s0 = false → writelock s0 = false →
    wp (buf_read t (buf_write t' o c ;;; ret tt)) (λ r s', r = (E_OK, c) ∧ ring [] s' ∧
      readlock s' = false ∧ writelock s' = false ∧ t ∈ woken s') s0.
Proof.
  intros Hn Hk Hr Hl Hw Ht. split_and!.
  - by eapply buf_init_spec.
  - by apply buf_read_spec.
  - intros Hroom. by apply (buf_write_spec t o c (d :: l)).
  - intros Hf. by apply (buf_write_blocks t t' o c d l).
  - intros s0 Hr0 Hl0 Hw0. by apply buf_read_blocks.
Qed.

(** A buffer of two cells that is full and wraps round. *)
Definition ex_buf : buf := Buf {[0 := 98; 1 := 97]} 2 0 false false 1 1 0 0 [].

Lemma ex_buf_ring : ring [97; 98] ex_buf.
Proof.
  split; try (by vm_compute).
  intros [|[|i]] c Hi; simplify_eq/=; by vm_compute.
Qed.

Lemma buf_fifo_witness :
  wp (buf_read 7 hang) (λ r s', r = (E_OK, 97) ∧ read_post [98] ex_buf s') ex_buf ∧
  wp (buf_write 7 (buf_read 9 hang ;;; ret tt) 99) (λ r s', r = E_OK ∧ ring [98; 99] s' ∧
     readlock s' = false ∧ writelock s' = false ∧ 7 ∈ woken s') ex_buf.
Proof.
  pose proof (buf_fifo (λ _, Some ∅) 2 ∅ 7 9 hang 99 97 [98] ex_buf ltac:(done) eq_refl ex_buf_ring
    eq_refl eq_refl ltac:(done)) as (_ & H1 & _ & H2 & _).
  exact (conj H1 (H2 eq_refl)).
Defined.
