(* ===== verification/Log.v ===== *)
(** * Console output: lib/log.c

    [printk] and its number printing. The state is the memory the strings are in
    and the characters sent to the serial port; the variable arguments are the
    words pushed after the format. [char s[15]] is the list of the characters
    stored so far: a write past it is a fault. *)
From S2P Require Import Prelude.
From S2P Require Import Cstring.

Record console := Console { cmem : mem; out : list Z }.

Definition uart_putc (c : Z) : M console unit :=
  modify (λ s, Console (cmem s) (out s ++ [c mod 256])).
Definition on_mem {A} (m : M mem A) : M console A :=
  zoom cmem (λ m s, Console m (out s)) m.

(** The string literal [0123456789abcdef]. *)
Definition DIGITS : list Z :=
  [48; 49; 50; 51; 52; 53; 54; 55; 56; 57; 97; 98; 99; 100; 101; 102].

(** [for (; x > 0; x /= redix, ++p) *p = ...[x % redix]] *)
Definition digits_loop (x redix : Z) : M console (list Z) :=
  loop 17 (λ '(x, s),
    if 0 <? x then
      c <- deref (DIGITS !! Z.to_nat (x mod redix)) ;;
      if Z.of_nat (length s) <? 15 then ret (inl (x / redix, s ++ [c])) else fault
    else ret (inr s)) (x, []).

(** [for (--p; p >= s; --p) uart_putc( *p)] *)
Definition put_back (s : list Z) : M console unit :=
  loop (S (length s)) (λ p,
    if 0 <=? p then c <- deref (s !! Z.to_nat p) ;; uart_putc c ;;; ret (inl (p - 1))
    else ret (inr tt)) (Z.of_nat (length s) - 1).

Definition itoa (x redix : Z) : M console unit :=
  if x =? 0 then uart_putc 48
  else
    x <- (if x <? 0 then uart_putc 45 ;;; ret (s32 (- x)) else ret x) ;;
    s <- digits_loop x redix ;;
    put_back s.

Definition uitoa (x redix : Z) : M console unit :=
  if x =? 0 then uart_putc 48
  else s <- digits_loop x redix ;; put_back s.

Definition console_put_str (s : Z) : M console unit :=
  m <- gets cmem ;;
  loop (S (size m)) (λ s,
    c <- on_mem (rd s) ;;
    if c =? 0 then ret (inr tt) else uart_putc c ;;; ret (inl (add32 s 1))) s.

(** [va_arg]: the next word of the arguments. *)
Definition va_arg (args : list Z) : M console (Z * list Z) :=
  match args with a :: args => ret (a, args) | [] => fault end.

Definition printk_body (st : Z * list Z) : M console (Z * list Z + unit) :=
  let '(fmt, args) := st in
  c <- on_mem (rd fmt) ;;
  if c =? 0 then ret (inr tt)
  else if negb (c =? 37) then uart_putc c ;;; ret (inl (add32 fmt 1, args))
  else
    let fmt := add32 fmt 1 in
    c <- on_mem (rd fmt) ;;
    args <-
      (if c =? 111 then r <- va_arg args ;; itoa (s32 r.1) 8 ;;; ret r.2
       else if c =? 100 then r <- va_arg args ;; itoa (s32 r.1) 10 ;;; ret r.2
       else if c =? 120 then r <- va_arg args ;; itoa (s32 r.1) 16 ;;; ret r.2
       else if c =? 112 then r <- va_arg args ;; uitoa (u32 r.1) 16 ;;; ret r.2
       else if c =? 99 then r <- va_arg args ;; uart_putc r.1 ;;; ret r.2
       else if c =? 115 then r <- va_arg args ;; console_put_str r.1 ;;; ret r.2
       else if c =? 37 then uart_putc 37 ;;; ret args
       else ret args) ;;
    ret (inl (add32 fmt 1, args)).

Definition printk (fmt : Z) (args : list Z) : M console unit :=
  m <- gets cmem ;; loop (S (size m)) printk_body (fmt, args).

(** ** Numerals *)

(** The digits of [x], least significant first. *)
Fixpoint digits (fuel : nat) (base x : Z) : list Z :=
  match fuel with
  | O => []
  | S n => if 0 <? x then x mod base :: digits n base (x / base) else []
  end.
Definition digit_char (d : Z) : Z := if d <? 10 then 48 + d else 87 + d.
Definition numeral (base x : Z) : list Z :=
  if x =? 0 then [48] else reverse (map digit_char (digits 15 base x)).
Definition int_text (base x : Z) : list Z :=
  if x <? 0 then 45 :: numeral base (- x) else numeral base x.

(** Reading a numeral back. *)
Definition char_digit (c : Z) : Z := if c <? 58 then c - 48 else c - 87.
Definition read_num (base : Z) (l : list Z) : Z := foldl (λ v c, v * base + char_digit c) 0 l.
Definition read_int (base : Z) (l : list Z) : Z :=
  match l with 45 :: l' => - read_num base l' | _ => read_num base l end.

Lemma digit_char_inv d : 0 ≤ d < 16 → char_digit (digit_char d) = d ∧ 48 ≤ digit_char d < 256.
Proof. intros Hd. unfold char_digit, digit_char. repeat case_match; lia. Qed.

Lemma digits_range n base x : 2 ≤ base ≤ 16 → 0 ≤ x → Forall (λ d, 0 ≤ d < 16) (digits n base x).
Proof.
  intros Hb. revert x. induction n as [|n IH]; intros x Hx; simpl; [done|].
  case_match; [|done]. constructor; [pose proof (Z.mod_pos_bound x base); lia|].
  apply IH, Z.div_pos; lia.
Qed.

Lemma digits_length n base x : (length (digits n base x) ≤ n)%nat.
Proof. revert x. induction n as [|n IH]; intros x; simpl; [lia|]. case_match; simpl; [|lia]. specialize (IH (x / base)). lia. Qed.

Lemma foldr_foldl base l : foldl (λ v c, v * base + char_digit c) 0 (reverse l) =
  foldr (λ c v, v * base + char_digit c) 0 l.
Proof. induction l as [|c l IH]; [done|]. rewrite reverse_cons, foldl_snoc. simpl. by rewrite IH. Qed.

Lemma digits_value n base x : 2 ≤ base ≤ 16 → 0 ≤ x < base ^ Z.of_nat n →
  foldr (λ c v, v * base + char_digit c) 0 (map digit_char (digits n base x)) = x.
Proof.
  intros Hb. revert x. induction n as [|n IH]; intros x Hx; simpl; [simpl in Hx; lia|].
  rewrite Nat2Z.inj_succ, Z.pow_succ_r in Hx by lia.
  case_match; simpl; [|lia]. rewrite IH.
  - pose proof (Z.mod_pos_bound x base ltac:(lia)).
    destruct (digit_char_inv (x mod base)) as [-> _]; [lia|]. pose proof (Z_div_mod_eq_full x base). lia.
  - split; [apply Z.div_pos; lia|]. apply Z.div_lt_upper_bound; lia.
Qed.

Lemma pow_bound base : 8 ≤ base → 2 ^ 32 ≤ base ^ 15.
Proof. intros Hb. etrans; [|apply (Z.pow_le_mono_l 8); lia]. by vm_compute. Qed.

Lemma numeral_value base x : 8 ≤ base ≤ 16 → is_u32 x → read_num base (numeral base x) = x.
Proof.
  intros Hb Hx. unfold numeral. case_match; [unfold read_num, char_digit; simpl; lia|].
  unfold read_num. rewrite foldr_foldl. apply digits_value; [lia|].
  pose proof (pow_bound base ltac:(lia)). unfold is_u32, W32 in Hx. lia.
Qed.

Lemma numeral_chars base x : 8 ≤ base ≤ 16 → is_u32 x → Forall (λ c, 48 ≤ c < 256) (numeral base x).
Proof.
  intros Hb Hx. unfold numeral. case_match; [repeat constructor; lia|].
  apply Forall_reverse, Forall_map. eapply Forall_impl; [apply digits_range; [lia|unfold is_u32 in Hx; lia]|].
  intros d Hd. apply digit_char_inv, Hd.
Qed.

Lemma int_text_value base x : 8 ≤ base ≤ 16 → - 2 ^ 31 ≤ x < 2 ^ 31 → read_int base (int_text base x) = x.
Proof.
  intros Hb Hx. unfold int_text. case_match.
  - unfold read_int. rewrite numeral_value by (unfold is_u32, W32; lia). lia.
  - pose proof (numeral_chars base x Hb ltac:(unfold is_u32, W32; lia)) as Hc.
    pose proof (numeral_value base x Hb ltac:(unfold is_u32, W32; lia)) as Hv.
    unfold read_int. destruct (numeral base x) as [|c l]; [done|].
    apply Forall_cons in Hc as [Hc _]. destruct (decide (c = 45)) as [->|Hne]; [lia|].
    repeat case_match; congruence.
Qed.

(** ** What the functions print *)
Definition prints {A} (a : A) (l : list Z) (s : console) (r : A) (s' : console) : Prop :=
  r = a ∧ s' = Console (cmem s) (out s ++ l).

Lemma wp_putc c (Q : unit → console → Prop) s :
  0 ≤ c < 256 → Q tt (Console (cmem s) (out s ++ [c])) → wp (uart_putc c) Q s.
Proof. intros Hc HQ. unfold uart_putc. apply wp_modify. by rewrite Z.mod_small by lia. Qed.

Lemma wp_on_mem_rd p c (Q : Z → console → Prop) s :
  cmem s !! p = Some c → Q c s → wp (on_mem (rd p)) Q s.
Proof. intros Hp HQ. apply wp_zoom, (wp_rd _ _ c _ Hp). by destruct s. Qed.

Lemma DIGITS_char d : 0 ≤ d < 16 → DIGITS !! Z.to_nat d = Some (digit_char d).
Proof.
  intros Hd. assert (d = 0 ∨ d = 1 ∨ d = 2 ∨ d = 3 ∨ d = 4 ∨ d = 5 ∨ d = 6 ∨ d = 7 ∨ d = 8 ∨ d = 9
    ∨ d = 10 ∨ d = 11 ∨ d = 12 ∨ d = 13 ∨ d = 14 ∨ d = 15) as H by lia.
  destruct_or! H; by subst d.
Qed.

Lemma digits_S n base x : 0 < x → digits (S n) base x = x mod base :: digits n base (x / base).
Proof. intros Hx. simpl. by rewrite (proj2 (Z.ltb_lt _ _)). Qed.

Lemma digits_loop_spec base x s : 8 ≤ base ≤ 16 → is_u32 x →
  wp (digits_loop x base) (λ r s', s' = s ∧ r = map digit_char (digits 15 base x)) s.
Proof.
  intros Hb Hx. unfold digits_loop.
  apply (wp_loop (λ n '(y, l) s', s' = s ∧ (n ≤ 15)%nat ∧ 0 ≤ y < base ^ Z.of_nat n ∧
    length l = (15 - n)%nat ∧ map digit_char (digits 15 base x) = l ++ map digit_char (digits n base y)))
    with (n := 15%nat); [|lia|].
  - intros n [y l] s1 (-> & Hn & Hy & Hl & Heq). case_match eqn:E.
    + destruct n as [|n]; [rewrite Z.pow_0_r in Hy; lia|].
      pose proof (Z.mod_pos_bound y base ltac:(lia)).
      apply wp_bind, wp_deref. exists (digit_char (y mod base)). split; [apply DIGITS_char; lia|].
      rewrite (proj2 (Z.ltb_lt _ _)) by lia. apply wp_ret. exists n. split; [lia|].
      split_and!; [done|lia|apply Z.div_pos; lia| |rewrite length_app; simpl; lia|].
      * apply Z.div_lt_upper_bound; [lia|]. rewrite Nat2Z.inj_succ, Z.pow_succ_r in Hy by lia. lia.
      * rewrite Heq, digits_S by lia. by rewrite <- app_assoc.
    + apply wp_ret. split; [done|]. rewrite Heq.
      replace (digits n base y) with (@nil Z); [by rewrite app_nil_r|].
      destruct n; simpl; [done|]. by rewrite E.
  - split_and!; [done|lia|unfold is_u32 in Hx; lia| |done|done].
    pose proof (pow_bound base ltac:(lia)). unfold is_u32, W32 in Hx. simpl Z.of_nat. lia.
Qed.

Lemma put_back_spec l s : Forall (λ c, 0 ≤ c < 256) l →
  wp (put_back l) (prints tt (reverse l) s) s.
Proof.
  intros Hl. unfold put_back.
  apply (wp_loop (λ n p s', p = Z.of_nat n - 1 ∧ (n ≤ length l)%nat ∧
    s' = Console (cmem s) (out s ++ reverse (drop n l)))) with (n := length l); [|lia|].
  - intros n p s' (-> & Hn & ->). case_match eqn:E.
    + destruct n as [|n]; [done|]. replace (Z.of_nat (S n) - 1) with (Z.of_nat n) by lia.
      rewrite Nat2Z.id. destruct (lookup_lt_is_Some_2 l n) as [c Hc]; [lia|].
      apply wp_bind, wp_deref. exists c. split; [done|].
      apply wp_bind, wp_putc; [by rewrite Forall_lookup in Hl; eapply Hl|].
      apply wp_ret. exists n. split_and!; [lia|lia|lia|]. cbn [cmem out].
      by rewrite (drop_S _ _ _ Hc), reverse_cons, app_assoc.
    + destruct n; [|rewrite Z.leb_gt in E; lia]. by rewrite drop_0.
  - split_and!; [done|lia|]. rewrite drop_all. simpl. rewrite reverse_nil, app_nil_r. by destruct s.
Qed.

Lemma number_spec base x s : 8 ≤ base ≤ 16 → is_u32 x → x ≠ 0 →
  wp (l <- digits_loop x base ;; put_back l) (prints tt (numeral base x) s) s.
Proof.
  intros Hb Hx Hx0. apply wp_bind. eapply wp_mono; [by apply digits_loop_spec|].
  intros l s' [-> ->]. unfold numeral. rewrite (proj2 (Z.eqb_neq _ _)) by done.
  apply put_back_spec, Forall_map.
  eapply Forall_impl; [apply digits_range; [lia|unfold is_u32 in Hx; lia]|].
  intros d Hd. pose proof (digit_char_inv d Hd). lia.
Qed.

Lemma uitoa_spec base x s : 8 ≤ base ≤ 16 → is_u32 x →
  wp (uitoa x base) (prints tt (numeral base x) s) s.
Proof.
  intros Hb Hx. unfold uitoa. case_match eqn:E.
  - unfold numeral. rewrite E. by apply wp_putc.
  - apply number_spec; [done..|lia].
Qed.

Lemma itoa_spec base x s : 8 ≤ base ≤ 16 → - 2 ^ 31 < x < 2 ^ 31 →
  wp (itoa x base) (prints tt (int_text base x) s) s.
Proof.
  intros Hb Hx. unfold itoa, int_text. case_match eqn:E.
  { rewrite (proj2 (Z.ltb_ge _ _)) by lia. unfold numeral. rewrite E. by apply wp_putc. }
  apply wp_bind. destruct (x <? 0) eqn:Es.
  - apply wp_bind, wp_putc; [lia|]. apply wp_ret. rewrite s32_small by lia.
    eapply wp_mono; [apply number_spec; [done|unfold is_u32, W32; lia|lia]|].
    intros r s' [-> ->]. split; [done|]. cbn. by rewrite <- app_assoc.
  - apply wp_ret. apply number_spec; [done|unfold is_u32, W32; lia|lia].
Qed.

(** The one number whose negation is not an [int] prints as a bare sign. *)
Lemma itoa_int_min base s : itoa (- 2 ^ 31) base s = Ret tt (Console (cmem s) (out s ++ [45])).
Proof. done. Qed.

Lemma cstr_app m p l1 l2 : cstr m p (l1 ++ l2) → cstr m (p + Z.of_nat (length l1)) l2.
Proof.
  intros [Hh Hc Hr]. rewrite <- app_assoc, holds_app in Hh. apply Forall_app in Hc as [_ Hc].
  rewrite length_app in Hr. split; [apply Hh|done|lia].
Qed.

Lemma cstr_head m p c l : cstr m p (c :: l) → m !! p = Some c ∧ 0 < c < 256 ∧ cstr m (add32 p 1) l
  ∧ add32 p 1 = p + 1.
Proof.
  intros H. pose proof (cstr_app m p [c] l H) as Ht. destruct H as [Hh Hc Hr].
  apply holds_cons in Hh as [Hp _]. apply Forall_cons in Hc as [Hc _]. simpl in Hr.
  assert (add32 p 1 = p + 1) as Ha.
  { unfold add32. rewrite u32_small by (unfold is_u32; lia). done. }
  rewrite Ha. done.
Qed.

Lemma cstr_end m p : cstr m p [] → m !! p = Some 0.
Proof. intros [Hh _ _]. by apply holds_cons in Hh as [? _]. Qed.

Lemma cstr_fuel m p l : cstr m p l → (length l < S (size m))%nat.
Proof. intros [Hh _ _]. apply holds_size in Hh. rewrite length_app in Hh. simpl in Hh. lia. Qed.

Lemma put_str_spec p l s : cstr (cmem s) p l → wp (console_put_str p) (prints tt l s) s.
Proof.
  intros Hs. unfold console_put_str. apply wp_bind, wp_gets.
  apply (wp_loop (λ n p s', ∃ l1 l2, l = l1 ++ l2 ∧ n = length l2 ∧ cstr (cmem s) p l2 ∧
    s' = Console (cmem s) (out s ++ l1))) with (n := length l); [|by eapply cstr_fuel|].
  - intros n q s' (l1 & l2 & -> & -> & Hc & ->). apply wp_bind. destruct l2 as [|c l2].
    + eapply (wp_on_mem_rd _ _ _ _); [by apply cstr_end|]. simpl. apply wp_ret.
      split; [done|]. by rewrite app_nil_r.
    + destruct (cstr_head _ _ _ _ Hc) as (Hp & Hcr & Ht & _).
      eapply wp_on_mem_rd; [done|]. rewrite (proj2 (Z.eqb_neq _ _)) by lia.
      apply wp_bind, wp_putc; [lia|]. apply wp_ret. exists (length l2). split; [simpl; lia|].
      exists (l1 ++ [c]), l2. cbn. rewrite <- !app_assoc. done.
  - exists [], l. rewrite app_nil_r. by destruct s.
Qed.

(** ** Formats *)

(** The pieces of a format, with the value each conversion shows. *)
Inductive item :=
  | Lit (c : Z) | Oct (x : Z) | Dec (x : Z) | Hex (x : Z) | Ptr (x : Z) | Chr (x : Z)
  | Str (p : Z) (l : list Z) | Percent | Other (c : Z).

Definition item_fmt (i : item) : list Z :=
  match i with
  | Lit c => [c] | Oct _ => [37; 111] | Dec _ => [37; 100] | Hex _ => [37; 120] | Ptr _ => [37; 112]
  | Chr _ => [37; 99] | Str _ _ => [37; 115] | Percent => [37; 37] | Other c => [37; c]
  end.
Definition item_args (i : item) : list Z :=
  match i with
  | Oct x | Dec x | Hex x | Ptr x => [u32 x] | Chr x => [x] | Str p _ => [p]
  | Lit _ | Percent | Other _ => []
  end.
Definition item_text (i : item) : list Z :=
  match i with
  | Lit c => [c] | Oct x => int_text 8 x | Dec x => int_text 10 x | Hex x => int_text 16 x
  | Ptr x => numeral 16 x | Chr x => [x] | Str _ l => l | Percent => [37] | Other _ => []
  end.
Definition item_ok (m : mem) (i : item) : Prop :=
  match i with
  | Lit c => c ≠ 37
  | Oct x | Dec x | Hex x => - 2 ^ 31 < x < 2 ^ 31
  | Ptr x => is_u32 x
  | Chr x => 0 ≤ x < 256
  | Str p l => cstr m p l
  | Percent => True
  | Other c => c ∉ [37; 99; 100; 111; 112; 115; 120]
  end.

Definition next (fmt : Z) (args : list Z) (l : list Z) (s : console) (r : Z * list Z + unit)
    (s' : console) : Prop :=
  r = inl (fmt, args) ∧ s' = Console (cmem s) (out s ++ l).

Lemma s32_u32 x : - 2 ^ 31 ≤ x < 2 ^ 31 → s32 (u32 x) = x.
Proof. intros Hx. unfold s32. rewrite u32_idem. fold (s32 x). by apply s32_small. Qed.

(** One conversion of [printk]: the code of its letter has printed [l]. *)
Lemma wp_conv {A} (f : M console unit) (l : list Z) (args : A) s (Q : A → console → Prop) :
  wp f (prints tt l s) s → Q args (Console (cmem s) (out s ++ l)) → wp (f ;;; ret args) Q s.
Proof. intros Hf HQ. apply wp_bind. eapply wp_mono; [done|]. by intros r s' [-> ->]. Qed.

Lemma putc_prints c s : 0 ≤ c < 256 → wp (uart_putc c) (prints tt [c] s) s.
Proof. intros Hc. by apply wp_putc. Qed.

Ltac conv_step := repeat (rewrite (proj2 (Z.eqb_neq _ _)) by (done || lia)); cbn [Z.eqb Pos.eqb].

Lemma printk_body_spec i fmt args rest s :
  cstr (cmem s) fmt (item_fmt i ++ rest) → item_ok (cmem s) i →
  wp (printk_body (fmt, item_args i ++ args))
    (next (fmt + Z.of_nat (length (item_fmt i))) args (item_text i) s) s.
Proof.
  intros Hf Hok. unfold printk_body.
  assert ((∃ c, i = Lit c) ∨ ∃ c, item_fmt i = [37; c]) as [[c ->]|[c Hi]]
    by (destruct i; simpl; eauto).
  - destruct (cstr_head _ _ _ _ Hf) as (Hp & Hc & _ & Ha). simpl in Hok.
    eapply wp_bind, wp_on_mem_rd; [done|]. rewrite !(proj2 (Z.eqb_neq _ _)) by lia. cbn [negb].
    apply wp_bind, wp_putc; [lia|]. apply wp_ret. by rewrite Ha.
  - rewrite Hi in Hf. destruct (cstr_head _ _ _ _ Hf) as (Hp & Hc & Ht & Ha).
    destruct (cstr_head _ _ _ _ Ht) as (Hp' & Hc' & _ & Ha').
    eapply wp_bind, wp_on_mem_rd; [done|]. cbn [Z.eqb Pos.eqb negb].
    eapply wp_bind, wp_on_mem_rd; [done|]. rewrite Hi, Ha', Ha. cbn [length].
    replace (fmt + Z.of_nat 2) with (fmt + 1 + 1) by lia.
    apply wp_bind. unfold next.
    destruct i; simpl in Hi; simplify_eq; simpl in Hok; cbn [item_args item_text app];
      try (rewrite !not_elem_of_cons in Hok; destruct_and! Hok); conv_step.
    all: try (apply (wp_conv _ [37]); [by apply putc_prints|by apply wp_ret]).
    all: try (apply wp_bind; cbn [va_arg]; apply wp_ret; cbn [fst snd];
      rewrite ?s32_u32, ?u32_idem, ?(u32_small x) by (done || lia)).
    all: try (eapply wp_conv; [first [apply itoa_spec|apply uitoa_spec|apply put_str_spec|apply putc_prints];
      (done || lia)|by apply wp_ret]).
    all: try (apply wp_ret, wp_ret; split; [done|]; rewrite app_nil_r; by destruct s).
Qed.

Lemma item_fmt_length i : (0 < length (item_fmt i))%nat.
Proof. destruct i; simpl; lia. Qed.

Lemma printk_spec items fmt s :
  cstr (cmem s) fmt (flat_map item_fmt items) → Forall (item_ok (cmem s)) items →
  wp (printk fmt (flat_map item_args items)) (prints tt (flat_map item_text items) s) s.
Proof.
  intros Hf Hok. unfold printk. apply wp_bind, wp_gets.
  apply (wp_loop (λ n '(p, args) s', ∃ i1 i2, items = i1 ++ i2 ∧ n = length i2 ∧
    args = flat_map item_args i2 ∧ cstr (cmem s) p (flat_map item_fmt i2) ∧
    s' = Console (cmem s) (out s ++ flat_map item_text i1))) with (n := length items).
  - intros n [p args] s' (i1 & i2 & -> & -> & -> & Hc & ->). destruct i2 as [|i i2]; cbn [flat_map] in *.
    + eapply wp_bind, wp_on_mem_rd; [by apply cstr_end|]. cbn. apply wp_ret.
      split; [done|]. by rewrite app_nil_r.
    + apply Forall_app in Hok as [_ [Hi _]%Forall_cons].
      eapply wp_mono; [by apply (printk_body_spec i p _ (flat_map item_fmt i2))|].
      intros r s' [-> ->]. exists (length i2). split; [simpl; lia|].
      exists (i1 ++ [i]), i2. cbn [cmem out]. split_and!; [by rewrite <- app_assoc|done|done| |].
      * by apply cstr_app in Hc.
      * by rewrite flat_map_app, <- app_assoc; cbn [flat_map]; rewrite app_nil_r.
  - apply cstr_fuel in Hf. eapply Nat.le_lt_trans; [|exact Hf].
    clear. induction items as [|i items IH]; simpl; [lia|].
    rewrite length_app. pose proof (item_fmt_length i). lia.
  - exists [], items. split_and!; try done. rewrite app_nil_r. by destruct s.
Qed.

(** C17: [printk] prints its format: on any sequence of literal characters and
    conversions whose arguments match, it terminates, changes no memory, stays
    within its digit buffer, and sends exactly the concatenation of the pieces to
    the serial port; the numerals it prints read back as the numbers, in every
    radix it uses. The single exception is [%d], [%o] and [%x] of the least
    [int], which print a bare minus sign. *)
Theorem printk_correct items fmt s x base :
  cstr (cmem s) fmt (flat_map item_fmt items) → Forall (item_ok (cmem s)) items →
  8 ≤ base ≤ 16 →
  wp (printk fmt (flat_map item_args items)) (prints tt (flat_map item_text items) s) s ∧
  (- 2 ^ 31 ≤ x < 2 ^ 31 → read_int base (int_text base x) = x) ∧
  (is_u32 x → read_num base (numeral base x) = x) ∧
  wp (itoa (- 2 ^ 31) base) (prints tt [45] s) s.
Proof.
  intros Hf Hok Hb. split_and!.
  - by apply printk_spec.
  - intros Hx. by apply int_text_value.
  - intros Hx. by apply numeral_value.
  - unfold wp. by rewrite itoa_int_min.
Qed.

(** [printk("n=%d %s", -42, "ab")]. *)
Definition ex_console : console :=
  Console (list_to_map [(10, 110); (11, 61); (12, 37); (13, 100); (14, 32); (15, 37); (16, 115);
    (17, 0); (20, 97); (21, 98); (22, 0)]) [].
Definition ex_items : list item := [Lit 110; Lit 61; Dec (-42); Lit 32; Str 20 [97; 98]].

Lemma printk_correct_witness :
  wp (printk 10 [u32 (-42); 20]) (prints tt [110; 61; 45; 52; 50; 32; 97; 98] ex_console) ex_console.
Proof.
  assert (cstr (cmem ex_console) 10 (flat_map item_fmt ex_items)) as Hf.
  { split; [by apply holds_forallb; vm_compute|repeat constructor|by vm_compute]. }
  assert (Forall (item_ok (cmem ex_console)) ex_items) as Hok.
  { repeat constructor; try (by vm_compute). by apply holds_forallb; vm_compute. }
  exact (proj1 (printk_correct ex_items 10 ex_console 0 10 Hf Hok ltac:(lia))).
Defined.
