(* ===== verification/Sync.v ===== *)
(** * Locks under interleaving: include/spinlock.h and kernel/proc/thread/mutex.c

    Each lock is a step function: [step t s] runs the next atomic instruction of
    thread [t], so that every interleaving of the processors is a sequence of
    steps. A spinning thread's step leaves the state as it is; [None] is a failed
    assertion or a panic. The program points are the atomic accesses of the
    source, named after them. *)
From stdpp Require Import functions.
From S2P Require Import Prelude.

(** ** The ticket lock: spin_lock, spin_unlock *)
Inductive spc :=
  | SIdle                (** outside *)
  | SSpin (ticket : Z)   (** has drawn a ticket; [while (ticket_now != ticket)] *)
  | SOwn                 (** the loop is left; [owner = thread_now()] is next *)
  | SCrit                (** [spin_lock] has returned *)
  | SClear.              (** [spin_unlock] has advanced [ticket_now]; [owner = NULL] is next *)
#[export] Instance spc_dec : EqDecision spc.
Proof. solve_decision. Defined.

Record spinlock_t := Spin {
  ticket_get : Z; ticket_now : Z; sp_owner : option Z; spcs : Z → spc }.

(** Words of 32 bits; the tests compare them for equality only. *)
Definition spin_init : spinlock_t := Spin 0 0 None (λ _, SIdle).

Definition goto (t : Z) (p : spc) (s : spinlock_t) : spinlock_t :=
  Spin (ticket_get s) (ticket_now s) (sp_owner s) (<[t := p]> (spcs s)).

(** [spin_lock] of a thread that is outside or in the loop. *)
Definition spin_lock_step (t : Z) (s : spinlock_t) : spinlock_t :=
  match spcs s t with
  | SIdle => goto t (SSpin (ticket_get s))
      (Spin (add32 (ticket_get s) 1) (ticket_now s) (sp_owner s) (spcs s))
  | SSpin k => if ticket_now s =? k then goto t SOwn s else s
  | SOwn => goto t SCrit (Spin (ticket_get s) (ticket_now s) (Some t) (spcs s))
  | _ => s
  end.

(** [spin_unlock] of a thread that holds the lock. *)
Definition spin_unlock_step (t : Z) (s : spinlock_t) : spinlock_t :=
  match spcs s t with
  | SCrit => goto t SClear
      (Spin (ticket_get s) (add32 (ticket_now s) 1) (sp_owner s) (spcs s))
  | SClear => goto t SIdle (Spin (ticket_get s) (ticket_now s) None (spcs s))
  | _ => s
  end.

Definition spin_step (t : Z) (s : spinlock_t) : spinlock_t :=
  match spcs s t with
  | SCrit | SClear => spin_unlock_step t s
  | _ => spin_lock_step t s
  end.

(** A schedule is the sequence of the threads that step. *)
Definition spin_run (ts : list Z) (s : spinlock_t) : spinlock_t :=
  fold_left (λ s t, spin_step t s) ts s.

(** [t] holds the lock. *)
Definition sp_in (s : spinlock_t) (t : Z) : Prop := spcs s t = SOwn ∨ spcs s t = SCrit.

(** The threads in the order of their tickets, the holder (or next holder)
    first; [ticket_get] may have gone round. *)
Record sp_queue (s : spinlock_t) (q : list Z) : Prop := {
  sq_get : ticket_get s = u32 (ticket_now s + Z.of_nat (length q));
  sq_now : is_u32 (ticket_now s);
  sq_short : Z.of_nat (length q) < W32;
  sq_nodup : NoDup q;
  sq_in : ∀ t, t ∈ q ↔ spcs s t ≠ SIdle ∧ spcs s t ≠ SClear;
  sq_ticket : ∀ i t k, q !! i = Some t → spcs s t = SSpin k →
    k = u32 (ticket_now s + Z.of_nat i);
  sq_head : ∀ i t, q !! i = Some t → sp_in s t → i = 0%nat;
}.

Section spin.
(** Fewer threads than tickets. *)
Context (threads : list Z) (Hthreads : Z.of_nat (length threads) < W32).

Lemma spc_here s t p : spcs (goto t p s) t = p.
Proof. unfold goto. simpl. apply fn_lookup_insert. Qed.
Lemma spc_there s t p u : u ≠ t → spcs (goto t p s) u = spcs s u.
Proof. intros Hu. unfold goto. simpl. by rewrite fn_lookup_insert_ne. Qed.

Lemma u32_add_inj a i j : 0 ≤ i < W32 → 0 ≤ j < W32 → u32 (a + i) = u32 (a + j) → i = j.
Proof.
  unfold u32. intros Hi Hj H.
  assert ((i - j) mod W32 = 0) as Hz.
  { replace (i - j) with ((a + i) - (a + j)) by lia. rewrite Zminus_mod, H, Z.sub_diag. done. }
  apply Z.mod_divide in Hz as [k Hk]; [|unfold W32; lia]. unfold W32 in *. nia.
Qed.

(** The spinning thread at place [i] finds its number called when it is first, and
    only then. *)
Lemma sq_called s q i t k : sp_queue s q → q !! i = Some t → spcs s t = SSpin k →
  ticket_now s = k ↔ i = 0%nat.
Proof.
  intros Hq Hi Hk. pose proof (sq_ticket _ _ Hq _ _ _ Hi Hk) as ->.
  pose proof (sq_now _ _ Hq) as Hn. pose proof (sq_short _ _ Hq).
  pose proof (lookup_lt_Some _ _ _ Hi).
  split; [|intros ->; rewrite Z.add_0_r; by rewrite u32_small].
  intros He. rewrite <- (u32_small _ Hn) in He at 1. rewrite <- (Z.add_0_r (ticket_now s)) in He at 1.
  apply u32_add_inj in He; lia.
Qed.

Lemma fn_in s t p (q : list Z) u : t ∉ q → u ∈ q → (<[t := p]> (spcs s)) u = spcs s u.
Proof. intros Ht Hu. apply fn_lookup_insert_ne. by intros ->. Qed.

(** A step that moves nobody in the queue. *)
Lemma sq_stay s s' q t p : sp_queue s q → ticket_get s' = ticket_get s →
  ticket_now s' = ticket_now s → spcs s' = <[t := p]> (spcs s) →
  (t ∈ q ↔ p ≠ SIdle ∧ p ≠ SClear) → (∀ k, p ≠ SSpin k) →
  (p = SOwn ∨ p = SCrit → ∀ i, q !! i = Some t → i = 0%nat) → sp_queue s' q.
Proof.
  intros [Hg Hn Hs Hnd Hin Htk Hh] Eg En Ep Ht Hp Hp0.
  split; rewrite ?Eg, ?En; try done.
  - intros u. rewrite Ep. destruct (decide (u = t)) as [->|Hu].
    + by rewrite fn_lookup_insert.
    + by rewrite fn_lookup_insert_ne.
  - intros i u j Hi. rewrite Ep. destruct (decide (u = t)) as [->|Hut].
    + rewrite fn_lookup_insert. intros ->. by destruct (Hp j).
    + rewrite fn_lookup_insert_ne by done. eauto.
  - intros i u Hi. unfold sp_in. rewrite Ep. destruct (decide (u = t)) as [->|Hut].
    + rewrite fn_lookup_insert. eauto.
    + rewrite fn_lookup_insert_ne by done. by apply Hh.
Qed.

Lemma sq_join s q t : sp_queue s q → q ⊆ threads → t ∈ threads → spcs s t = SIdle →
  sp_queue (spin_lock_step t s) (q ++ [t]) ∧ q ++ [t] ⊆ threads.
Proof.
  intros [Hg Hn Hs Hnd Hin Htk Hh] Hsub Ht Et.
  assert (t ∉ q) as Htq by (rewrite Hin, Et; by intros [? ?]).
  assert (NoDup (q ++ [t])) as Hnd'.
  { apply NoDup_app. split_and!; [done| |apply NoDup_singleton].
    intros x Hx ->%list_elem_of_singleton. done. }
  assert (q ++ [t] ⊆ threads) as Hsub'.
  { intros x [Hx| ->%list_elem_of_singleton]%elem_of_app; auto. }
  assert (length (q ++ [t]) ≤ length threads)%nat as Hlen
    by by apply submseteq_length, NoDup_submseteq.
  split; [|done]. unfold spin_lock_step. rewrite Et. rewrite length_app in Hlen. simpl in Hlen.
  assert (∀ i u, (q ++ [t]) !! i = Some u →
    (q !! i = Some u ∧ u ∈ q) ∨ (u = t ∧ i = length q)) as Hc.
  { intros i u [Hi|[Hi Hi']]%lookup_app_Some.
    - left. split; [done|]. by eapply list_elem_of_lookup_2.
    - right. destruct (i - length q)%nat eqn:E; [|done]. simpl in Hi'. simplify_eq. split; [done|lia]. }
  split; simpl; rewrite ?length_app; simpl; try done; try lia.
  - unfold add32. rewrite Hg. unfold u32. rewrite Zplus_mod_idemp_l. f_equal. lia.
  - intros u. rewrite elem_of_app, list_elem_of_singleton.
    destruct (decide (u = t)) as [->|Hu].
    + rewrite fn_lookup_insert. split; [done|by right].
    + rewrite fn_lookup_insert_ne by done. rewrite <- Hin. split; [by intros [?|?]|by left].
  - intros i u k [[Hi Hu]|[-> ->]]%Hc.
    + rewrite (fn_in _ _ _ q) by done. eauto.
    + rewrite fn_lookup_insert. intros [= <-]. done.
  - intros i u [[Hi Hu]|[-> ->]]%Hc; unfold sp_in; simpl.
    + rewrite (fn_in _ _ _ q) by done. by apply Hh.
    + rewrite fn_lookup_insert. by intros [?|?].
Qed.

Lemma sq_leave s q t : sp_queue s q → spcs s t = SCrit →
  ∃ q', q = t :: q' ∧ sp_queue (spin_unlock_step t s) q'.
Proof.
  intros [Hg Hn Hs Hnd Hin Htk Hh] Et.
  assert (t ∈ q) as Htq by (by rewrite Hin, Et).
  apply list_elem_of_lookup in Htq as [i Hi]. assert (i = 0%nat) as -> by (eapply Hh; [done|by right]).
  destruct q as [|x q]; simpl in Hi; simplify_eq. exists q. split; [done|].
  apply NoDup_cons in Hnd as [Htq Hnd]. cbn [length] in *.
  assert (add32 (ticket_now s) 1 = u32 (ticket_now s + 1)) as Ha by done.
  unfold spin_unlock_step. rewrite Et. split; simpl; try done; try lia.
  - rewrite Hg, Ha. unfold u32. rewrite Zplus_mod_idemp_l. f_equal. lia.
  - apply u32_range.
  - intros u. destruct (decide (u = t)) as [->|Hu].
    + rewrite fn_lookup_insert. split; [done|by intros [_ []]].
    + rewrite fn_lookup_insert_ne by done. rewrite <- Hin, elem_of_cons.
      split; [by right|by intros [?|?]].
  - intros i u k Hi. rewrite (fn_in _ _ _ q) by (done || by eapply list_elem_of_lookup_2).
    intros Hu. rewrite Ha, (Htk (S i) u k Hi Hu). unfold u32. rewrite Zplus_mod_idemp_l.
    f_equal. lia.
  - intros i u Hi. unfold sp_in. simpl.
    rewrite (fn_in _ _ _ q) by (done || by eapply list_elem_of_lookup_2).
    intros Hu. by specialize (Hh (S i) u Hi Hu).
Qed.

(** One step: a thread joins at the back, the first leaves, or nobody moves. *)
Definition queue_step (s : spinlock_t) (t : Z) (q q' : list Z) : Prop :=
  match spcs s t with
  | SIdle => q' = q ++ [t]
  | SCrit => q = t :: q'
  | _ => q' = q
  end.

Lemma sp_step_queue s q t : sp_queue s q → q ⊆ threads → t ∈ threads →
  ∃ q', sp_queue (spin_step t s) q' ∧ q' ⊆ threads ∧ queue_step s t q q'.
Proof.
  intros Hq Hsub Ht. unfold spin_step, queue_step.
  pose proof (sq_in _ _ Hq t) as Hin. destruct (spcs s t) as [|k| | |] eqn:Et.
  - exists (q ++ [t]). destruct (sq_join s q t); done.
  - exists q. split_and!; [|done|done]. unfold spin_lock_step. rewrite Et.
    destruct (_ =? _) eqn:Ek; [|done]. apply Z.eqb_eq in Ek.
    eapply (sq_stay s); [done..| |done|]; [by rewrite Hin|].
    intros _ i Hi. by apply (sq_called _ _ _ _ _ Hq Hi Et).
  - exists q. split_and!; [|done|done]. unfold spin_lock_step. rewrite Et.
    eapply (sq_stay s); [done..| |done|]; [by rewrite Hin|].
    intros _ i Hi. eapply (sq_head _ _ Hq); [done|by left].
  - destruct (sq_leave s q t Hq Et) as (q' & -> & Hq'). exists q'. split_and!; [done| |done].
    intros x Hx. apply Hsub. by right.
  - exists q. split_and!; [|done|done]. unfold spin_unlock_step. rewrite Et.
    eapply (sq_stay s); [done..| |done|by intros []]. rewrite Hin. by split; intros [? ?].
Qed.

Lemma spin_init_queue : sp_queue spin_init [].
Proof.
  split; simpl; try done; try constructor.
  - by intros ?%elem_of_nil.
  - by intros [? ?].
Qed.

Lemma spin_run_queue ts s q : sp_queue s q → q ⊆ threads → ts ⊆ threads →
  ∃ q', sp_queue (spin_run ts s) q' ∧ q' ⊆ threads.
Proof.
  revert s q. induction ts as [|t ts IH]; intros s q Hq Hsub Hts; [by exists q|].
  destruct (sp_step_queue s q t Hq Hsub) as (q' & Hq' & Hsub' & _); [apply Hts; left|].
  apply (IH _ _ Hq' Hsub'). intros x Hx. apply Hts. by right.
Qed.

(** How many times the lock is released. *)
Fixpoint releases (ts : list Z) (s : spinlock_t) : nat :=
  match ts with
  | [] => 0
  | t :: ts => (if bool_decide (spcs s t = SCrit) then 1 else 0) + releases ts (spin_step t s)
  end.

Lemma spin_step_other s t u : u ≠ t → spcs (spin_step t s) u = spcs s u.
Proof.
  intros Hu. unfold spin_step, spin_lock_step, spin_unlock_step.
  destruct (spcs s t); try done; simpl; try (by rewrite fn_lookup_insert_ne).
  destruct (_ =? _); [|done]. by apply spc_there.
Qed.

Lemma spin_wait ts : ∀ s q i t k, sp_queue s q → q ⊆ threads → ts ⊆ threads →
  q !! i = Some t → spcs s t = SSpin k →
  (∀ n, spcs (spin_run (take n ts) s) t ≠ SOwn) →
  ∃ q' j, sp_queue (spin_run ts s) q' ∧ q' ⊆ threads ∧ q' !! j = Some t ∧
    spcs (spin_run ts s) t = SSpin k ∧ (releases ts s + j = i)%nat.
Proof.
  induction ts as [|u ts IH]; intros s q i t k Hq Hsub Hts Hi Hk Hw.
  { exists q, i. split_and!; done. }
  assert (∀ q' i', sp_queue (spin_step u s) q' → q' ⊆ threads → q' !! i' = Some t →
    spcs (spin_step u s) t = SSpin k →
    (i = (if bool_decide (spcs s u = SCrit) then 1 else 0) + i')%nat →
    ∃ q' j, sp_queue (spin_run (u :: ts) s) q' ∧ q' ⊆ threads ∧ q' !! j = Some t ∧
      spcs (spin_run (u :: ts) s) t = SSpin k ∧ (releases (u :: ts) s + j = i)%nat) as Hgo.
  { intros q' i' Hq' Hsub' Hi' Hk' ->.
    destruct (IH _ _ _ _ _ Hq' Hsub' ltac:(intros x Hx; apply Hts; by right) Hi' Hk')
      as (q2 & j & H1 & H2 & H3 & H4 & H5); [intros n; by apply (Hw (S n))|].
    exists q2, j. split_and!; try done. cbn [releases]. lia. }
  destruct (sp_step_queue s q u Hq Hsub) as (q' & Hq' & Hsub' & Hs); [apply Hts; left|].
  unfold queue_step in Hs. destruct (decide (u = t)) as [->|Hut].
  - rewrite Hk in Hs. subst q'. apply (Hgo q i); try done; [|by rewrite Hk].
    pose proof (Hw 1%nat) as H1. simpl in H1.
    unfold spin_step, spin_lock_step in *. rewrite Hk in *. destruct (_ =? _); [|done].
    by rewrite spc_here in H1.
  - pose proof (spin_step_other s u t ltac:(done)) as He. rewrite Hk in He.
    destruct (spcs s u) eqn:Eu; subst.
    + apply (Hgo (q ++ [u]) i); try done. by apply lookup_app_l_Some.
    + by apply (Hgo q i).
    + by apply (Hgo q i).
    + destruct i as [|i]; simpl in Hi; [by simplify_eq|]. by apply (Hgo q' i).
    + by apply (Hgo q i).
Qed.

(** The first of the queue gets in and out by its own steps. *)
Lemma spin_first s q x : sp_queue s (x :: q) → ∃ n, (n ≤ 3)%nat ∧
  sp_queue (spin_run (replicate n x) s) q ∧ ∀ u, u ≠ x →
    spcs (spin_run (replicate n x) s) u = spcs s u.
Proof.
  intros Hq.
  assert (∀ s, sp_queue s (x :: q) → spcs s x = SCrit → sp_queue (spin_step x s) q) as H1.
  { intros s0 Hq0 Hc. destruct (sq_leave s0 _ x Hq0 Hc) as (q' & [= <-] & Hq').
    unfold spin_step. by rewrite Hc. }
  assert (∀ s, sp_queue s (x :: q) → spcs s x = SOwn →
    sp_queue (spin_step x s) (x :: q) ∧ spcs (spin_step x s) x = SCrit) as H2.
  { intros s0 Hq0 Hc. unfold spin_step, spin_lock_step. rewrite Hc.
    split; [|by rewrite spc_here]. eapply (sq_stay s0); [done..| |done|].
    - rewrite (sq_in _ _ Hq0), Hc. by split.
    - intros _ i Hi. eapply (sq_head _ _ Hq0); [done|by left]. }
  assert (∀ n u, u ≠ x → spcs (spin_run (replicate n x) s) u = spcs s u) as Ho.
  { intros n u Hu. clear Hq. revert s. induction n as [|n IH]; intros s; [done|].
    cbn [replicate spin_run fold_left]. rewrite IH. by apply spin_step_other. }
  assert (spcs s x ≠ SIdle ∧ spcs s x ≠ SClear) as [Hn1 Hn2] by (apply (sq_in _ _ Hq); left).
  destruct (spcs s x) as [|k| | |] eqn:Ex; try done.
  - exists 3%nat. split; [done|]. split; [|apply Ho]. cbn [replicate spin_run fold_left].
    assert (spin_step x s = goto x SOwn s) as ->.
    { unfold spin_step, spin_lock_step. rewrite Ex.
      replace (_ =? _) with true; [done|]. symmetry. apply Z.eqb_eq.
      by apply (sq_called s (x :: q) 0 x k Hq). }
    assert (sp_queue (goto x SOwn s) (x :: q)) as Hq1.
    { eapply (sq_stay s); [done..| |done|].
      - rewrite (sq_in _ _ Hq), Ex. by split.
      - intros _ i Hi. pose proof (sq_nodup _ _ Hq) as Hnd.
        by apply (NoDup_lookup _ i 0%nat x Hnd Hi). }
    destruct (H2 _ Hq1) as [Hq2 Hc2]; [by rewrite spc_here|]. by apply H1.
  - exists 2%nat. split; [lia|]. split; [|apply Ho]. cbn [replicate spin_run fold_left].
    destruct (H2 _ Hq Ex) as [Hq2 Hc2]. by apply H1.
  - exists 1%nat. split; [lia|]. split; [|apply Ho]. by apply H1.
Qed.

Lemma spin_gets_in : ∀ q1 s t q2 k, sp_queue s (q1 ++ t :: q2) → spcs s t = SSpin k →
  ∃ ts, ts ⊆ q1 ++ [t] ∧ (length ts ≤ 3 * length q1 + 1)%nat ∧ spcs (spin_run ts s) t = SOwn.
Proof.
  induction q1 as [|x q1 IH]; intros s t q2 k Hq Hk.
  - exists [t]. split; [done|]. split; [simpl; lia|]. simpl. unfold spin_step, spin_lock_step.
    rewrite Hk. replace (_ =? _) with true; [by rewrite spc_here|]. symmetry. apply Z.eqb_eq.
    by apply (sq_called s (t :: q2) 0 t k Hq).
  - destruct (spin_first s (q1 ++ t :: q2) x Hq) as (n & Hn & Hq1 & Ho).
    assert (t ≠ x) as Htx.
    { pose proof (sq_nodup _ _ Hq) as Hnd. apply NoDup_cons in Hnd as [Hnd _]. intros ->.
      apply Hnd, elem_of_app. right. left. }
    destruct (IH _ t q2 k Hq1) as (ts & Hts & Hl & Hown); [by rewrite Ho|].
    exists (replicate n x ++ ts). split_and!.
    + intros y [Hy|Hy]%elem_of_app.
      * apply elem_of_replicate in Hy as [-> _]. left.
      * right. by apply Hts.
    + rewrite length_app, length_replicate. simpl. lia.
    + unfold spin_run in *. by rewrite fold_left_app.
Qed.

(** C24: A spin lock is never held by two threads: whatever schedule of fewer than
    2^32 threads has run since [spin_init], two threads that are past the loop of
    [spin_lock] and have not released the lock are the same thread, although the
    ticket counters wrap around. *)
Theorem spin_lock_exclusive ts t u : ts ⊆ threads → let s := spin_run ts spin_init in
  sp_in s t → sp_in s u → t = u.
Proof.
  intros Hts s Ht Hu. destruct (spin_run_queue ts spin_init [] spin_init_queue) as (q & Hq & _);
    [by intros ? ?%elem_of_nil|done|]. fold s in Hq.
  assert (∀ x, sp_in s x → q !! 0%nat = Some x) as Hx.
  { intros x Hx. assert (x ∈ q) as Hin by (rewrite (sq_in _ _ Hq); destruct Hx as [-> | ->]; done).
    apply list_elem_of_lookup in Hin as [i Hi]. by rewrite <- (sq_head _ _ Hq _ _ Hi Hx). }
  apply Hx in Ht, Hu. by simplify_eq.
Qed.

(** C25: A thread that waits for a spin lock gets it, in the order of the tickets:
    after any schedule, a thread in the loop of [spin_lock] has a number [n] of
    threads before it such that, however the threads are scheduled, while it has
    not left the loop the lock has been released at most [n] times, and once it has
    been released [n] times the thread's next test leaves the loop; and from any
    such state some [3 * n + 1] further steps of these threads do make it leave. *)
Theorem spin_lock_fair ts t k : ts ⊆ threads → let s := spin_run ts spin_init in
  spcs s t = SSpin k → ∃ n, (n < length threads)%nat ∧
  (∀ ts', ts' ⊆ threads → (∀ m, spcs (spin_run (take m ts') s) t ≠ SOwn) →
     (releases ts' s ≤ n)%nat ∧
     (releases ts' s = n → spcs (spin_step t (spin_run ts' s)) t = SOwn)) ∧
  ∃ ts', ts' ⊆ threads ∧ (length ts' ≤ 3 * n + 1)%nat ∧ spcs (spin_run ts' s) t = SOwn.
Proof.
  intros Hts s Hk.
  destruct (spin_run_queue ts spin_init [] spin_init_queue) as (q & Hq & Hsub);
    [by intros ? ?%elem_of_nil|done|]. fold s in Hq.
  assert (t ∈ q) as Hin by (by rewrite (sq_in _ _ Hq), Hk).
  apply list_elem_of_lookup in Hin as [n Hn]. exists n.
  assert (length q ≤ length threads)%nat as Hlen
    by (apply submseteq_length, NoDup_submseteq; [apply (sq_nodup _ _ Hq)|done]).
  pose proof (lookup_lt_Some _ _ _ Hn). split; [lia|]. split.
  - intros ts' Hts' Hw. destruct (spin_wait ts' s q n t k Hq Hsub Hts' Hn Hk Hw)
      as (q' & j & Hq' & _ & Hj & Hk' & Hr). split; [lia|]. intros Hr'.
    assert (j = 0%nat) as -> by lia. unfold spin_step, spin_lock_step. rewrite Hk'.
    replace (_ =? _) with true; [by rewrite spc_here|]. symmetry. apply Z.eqb_eq.
    by apply (sq_called _ _ _ _ _ Hq' Hj Hk').
  - apply list_elem_of_split_length in Hn as (q1 & q2 & -> & ->).
    destruct (spin_gets_in q1 s t q2 k Hq Hk) as (ts' & Hts' & Hl & Ho). exists ts'.
    split_and!; [|lia|done]. intros x Hx%Hts'. apply Hsub.
    apply elem_of_app in Hx as [Hx| ->%list_elem_of_singleton]; apply elem_of_app; [by left|].
    right. left.
Qed.
End spin.

(** Three threads; thread 1 holds the lock, 3 and then 2 wait. *)
Definition ex_sched : list Z := [1; 3; 2; 1; 1].
Definition ex_threads : list Z := [1; 2; 3].
Definition ex_spin : spinlock_t := spin_run ex_sched spin_init.

Lemma ex_sched_threads : ex_sched ⊆ ex_threads.
Proof. unfold ex_sched, ex_threads. set_solver. Qed.
Lemma spin_lock_exclusive_witness :
  sp_in ex_spin 1 ∧
  (sp_in ex_spin 1 →
   sp_in ex_spin 1 → 1 = 1).
Proof.
  split; [by right|]. apply (spin_lock_exclusive ex_threads); [by vm_compute|].
  intros x Hx. repeat (apply elem_of_cons in Hx as [-> | Hx]; [set_solver|]). set_solver.
Defined.

Lemma spin_lock_fair_witness : ∃ n, (n < 3)%nat ∧
  (∀ ts', ts' ⊆ ex_threads →
    (∀ m, spcs (spin_run (take m ts') ex_spin) 2 ≠ SOwn) →
     (releases ts' ex_spin ≤ n)%nat ∧
     (releases ts' ex_spin = n →
      spcs (spin_step 2 (spin_run ts' ex_spin)) 2 = SOwn)) ∧
  ∃ ts', ts' ⊆ ex_threads ∧ (length ts' ≤ 3 * n + 1)%nat ∧
    spcs (spin_run ts' ex_spin) 2 = SOwn.
Proof.
  apply (spin_lock_fair ex_threads ltac:(by vm_compute) ex_sched 2 2); [|by vm_compute]. apply ex_sched_threads.
Defined.

(** [owner] says nothing: [spin_unlock] clears it after it has let the next thread
    in. *)
Lemma spin_owner_lost : let s := spin_run [1; 1; 1; 2; 1; 2; 2; 1] spin_init in
  spcs s 2 = SCrit ∧ sp_owner s = None.
Proof. by vm_compute. Qed.

(** ** The reader-writer lock: spin_read_lock and the rest, on a cmpxchg loop *)
Inductive rpc :=
  | RIdle
  | RdCas (c : Z)   (** [atomic_add_unless], [c] last read *)
  | RdChk           (** [assert(atomic_read > 0)] is next *)
  | Reading
  | RdRel           (** [spin_read_unlock], past its assertion *)
  | WrCas (c : Z)   (** [atomic_add_if], [c] last read *)
  | WrChk
  | Writing
  | WrRel.
#[export] Instance rpc_dec : EqDecision rpc.
Proof. solve_decision. Defined.

Record rwlock_t := RwLock { rw_lock : Z; rpcs : Z → rpc }.
Definition spin_rwlock_init : rwlock_t := RwLock 0 (λ _, RIdle).
Definition rw_goto (v t : Z) (p : rpc) (s : rwlock_t) : rwlock_t := RwLock v (<[t := p]> (rpcs s)).

(** Thread [t] steps; one that is outside asks for the lock to write or to read. *)
Definition rw_step (t : Z) (write : bool) (s : rwlock_t) : option rwlock_t :=
  let v := rw_lock s in
  match rpcs s t with
  | RIdle => Some (rw_goto v t (if write then WrCas v else RdCas v) s)
  | RdCas c =>
      if c =? -1 then Some (rw_goto v t (RdCas v) s)
      else if v =? c then Some (rw_goto (s32 (c + 1)) t RdChk s)
      else Some (rw_goto v t (RdCas v) s)
  | RdChk => if 0 <? v then Some (rw_goto v t Reading s) else None
  | Reading => if 0 <? v then Some (rw_goto v t RdRel s) else None
  | RdRel => Some (rw_goto (s32 (v - 1)) t RIdle s)
  | WrCas c =>
      if negb (c =? 0) then Some (rw_goto v t (WrCas v) s)
      else if v =? c then Some (rw_goto (s32 (c - 1)) t WrChk s)
      else Some (rw_goto v t (WrCas v) s)
  | WrChk => if v =? -1 then Some (rw_goto v t Writing s) else None
  | Writing => if v =? -1 then Some (rw_goto v t WrRel s) else None
  | WrRel => Some (rw_goto 0 t RIdle s)
  end.

Fixpoint rw_run (es : list (Z * bool)) (s : rwlock_t) : option rwlock_t :=
  match es with
  | [] => Some s
  | (t, w) :: es => match rw_step t w s with Some s' => rw_run es s' | None => None end
  end.

Definition is_reader (p : rpc) : bool := match p with RdChk | Reading | RdRel => true | _ => false end.
Definition is_writer (p : rpc) : bool := match p with WrChk | Writing | WrRel => true | _ => false end.

(** [rs] are the threads that hold the lock to read, [ws] to write. *)
Record rw_inv (threads rs ws : list Z) (s : rwlock_t) : Prop := {
  rw_rnodup : NoDup rs;
  rw_rsub : rs ⊆ threads;
  rw_rin : ∀ t, t ∈ rs ↔ is_reader (rpcs s t) = true;
  rw_win : ∀ t, t ∈ ws ↔ is_writer (rpcs s t) = true;
  rw_val : (ws = [] ∧ rw_lock s = Z.of_nat (length rs)) ∨
           (∃ w, ws = [w] ∧ rs = [] ∧ rw_lock s = -1);
}.

Section rw.
Context (threads : list Z) (Hthreads : Z.of_nat (length threads) < 2 ^ 31).

(** A step that takes no lock and gives none back. *)
Lemma rw_same rs ws s t p : rw_inv threads rs ws s → is_reader p = is_reader (rpcs s t) →
  is_writer p = is_writer (rpcs s t) → rw_inv threads rs ws (rw_goto (rw_lock s) t p s).
Proof.
  intros [Hnd Hsub Hr Hw Hv] Hp Hq. split; try done; intros u; simpl.
  - destruct (decide (u = t)) as [->|]; [by rewrite fn_lookup_insert, Hp|].
    by rewrite fn_lookup_insert_ne.
  - destruct (decide (u = t)) as [->|]; [by rewrite fn_lookup_insert, Hq|].
    by rewrite fn_lookup_insert_ne.
Qed.

Lemma rw_readers rs ws s : rw_inv threads rs ws s → (length rs ≤ length threads)%nat.
Proof. intros [Hnd Hsub _ _ _]. by apply submseteq_length, NoDup_submseteq. Qed.

Lemma rw_step_inv rs ws s t w : rw_inv threads rs ws s → t ∈ threads →
  ∃ s' rs' ws', rw_step t w s = Some s' ∧ rw_inv threads rs' ws' s'.
Proof.
  intros HI Ht. pose proof (rw_readers _ _ _ HI) as Hlen. pose proof HI as [Hnd Hsub Hr Hw Hv].
  specialize (Hr t) as Hrt. specialize (Hw t) as Hwt. unfold rw_step.
  destruct (rpcs s t) as [|c| | | |c| | |] eqn:Et.
  - eexists _, rs, ws. split; [done|]. apply rw_same; rewrite ?Et; by destruct w.
  - destruct (c =? -1) eqn:Ec.
    { eexists _, rs, ws. split; [done|]. by apply rw_same; rewrite ?Et. }
    destruct (rw_lock s =? c) eqn:Ev.
    2:{ eexists _, rs, ws. split; [done|]. by apply rw_same; rewrite ?Et. }
    apply Z.eqb_eq in Ev. subst c. destruct Hv as [[-> Hv]|(x & -> & -> & Hv)]; [|lia].
    assert (t ∉ rs) as Htr by (rewrite Hrt; done).
    assert (length (t :: rs) ≤ length threads)%nat as Hlen'.
    { apply submseteq_length, NoDup_submseteq; [by constructor|]. intros x [-> | ?]%elem_of_cons; auto. }
    eexists _, (t :: rs), []. split; [done|]. split; simpl in *.
    + by constructor.
    + intros x [-> | ?]%elem_of_cons; auto.
    + intros u. rewrite elem_of_cons. destruct (decide (u = t)) as [->|].
      * rewrite fn_lookup_insert. split; [done|by left].
      * rewrite fn_lookup_insert_ne by done. rewrite <- Hr. split; [by intros [?|?]|by right].
    + intros u. destruct (decide (u = t)) as [->|].
      * rewrite fn_lookup_insert. by split; [intros ?%elem_of_nil|].
      * rewrite fn_lookup_insert_ne by done. apply Hw.
    + left. split; [done|]. rewrite s32_small by lia. lia.
  - assert (t ∈ rs) as Htr by by apply Hrt.
    destruct Hv as [[-> Hv]|(x & -> & -> & Hv)]; [|by apply elem_of_nil in Htr].
    destruct rs as [|y rs]; [by apply elem_of_nil in Htr|]. rewrite Hv. simpl.
    eexists _, (y :: rs), []. split; [done|].
    pose proof (rw_same _ _ _ t Reading HI) as Hs. rewrite Et, Hv in Hs. by apply Hs.
  - assert (t ∈ rs) as Htr by by apply Hrt.
    destruct Hv as [[-> Hv]|(x & -> & -> & Hv)]; [|by apply elem_of_nil in Htr].
    destruct rs as [|y rs]; [by apply elem_of_nil in Htr|]. rewrite Hv. simpl.
    eexists _, (y :: rs), []. split; [done|].
    pose proof (rw_same _ _ _ t RdRel HI) as Hs. rewrite Et, Hv in Hs. by apply Hs.
  - assert (t ∈ rs) as Htr by by apply Hrt.
    destruct Hv as [[-> Hv]|(x & -> & -> & Hv)]; [|by apply elem_of_nil in Htr].
    apply list_elem_of_split in Htr as (r1 & r2 & ->).
    apply NoDup_app in Hnd as (Hn1 & Hn12 & Hn2). apply NoDup_cons in Hn2 as [Hn Hn2].
    rewrite length_app in *. cbn [length] in *.
    assert (t ∉ r1 ++ r2) as Htr.
    { rewrite elem_of_app. intros [Hx|Hx]; [|done]. apply (Hn12 _ Hx). left. }
    eexists _, (r1 ++ r2), []. split; [done|]. split; simpl.
    + apply NoDup_app. split_and!; try done. intros x Hx Hx'. apply (Hn12 _ Hx). by right.
    + intros x Hx. apply Hsub. rewrite elem_of_app, elem_of_cons. apply elem_of_app in Hx. tauto.
    + intros u. destruct (decide (u = t)) as [->|].
      * rewrite fn_lookup_insert. by split; [intros ?|].
      * rewrite fn_lookup_insert_ne by done. rewrite <- Hr, !elem_of_app, elem_of_cons. tauto.
    + intros u. destruct (decide (u = t)) as [->|].
      * rewrite fn_lookup_insert. by split; [intros ?%elem_of_nil|].
      * rewrite fn_lookup_insert_ne by done. apply Hw.
    + left. split; [done|]. rewrite length_app, s32_small by lia. lia.
  - destruct (c =? 0) eqn:Ec; simpl.
    2:{ eexists _, rs, ws. split; [done|]. by apply rw_same; rewrite ?Et. }
    destruct (rw_lock s =? c) eqn:Ev.
    2:{ eexists _, rs, ws. split; [done|]. by apply rw_same; rewrite ?Et. }
    apply Z.eqb_eq in Ec, Ev. destruct Hv as [[-> Hv]|(x & -> & -> & Hv)]; [|lia].
    destruct rs as [|y rs]; [|simpl in Hv; lia].
    eexists _, [], [t]. split; [done|]. split; simpl; try done.
    + intros u. destruct (decide (u = t)) as [->|].
      * rewrite fn_lookup_insert. by split; [intros ?%elem_of_nil|].
      * rewrite fn_lookup_insert_ne by done. apply Hr.
    + intros u. rewrite list_elem_of_singleton. destruct (decide (u = t)) as [->|].
      * rewrite fn_lookup_insert. by split.
      * rewrite fn_lookup_insert_ne by done. rewrite <- Hw. split; [done|by intros ?%elem_of_nil].
    + right. exists t. split_and!; [done..|]. subst c. by rewrite s32_small by lia.
  - assert (t ∈ ws) as Htw by by apply Hwt.
    destruct Hv as [[-> Hv]|(x & -> & -> & Hv)]; [by apply elem_of_nil in Htw|]. rewrite Hv. simpl.
    eexists _, [], [x]. split; [done|].
    pose proof (rw_same _ _ _ t Writing HI) as Hs. rewrite Et, Hv in Hs. by apply Hs.
  - assert (t ∈ ws) as Htw by by apply Hwt.
    destruct Hv as [[-> Hv]|(x & -> & -> & Hv)]; [by apply elem_of_nil in Htw|]. rewrite Hv. simpl.
    eexists _, [], [x]. split; [done|].
    pose proof (rw_same _ _ _ t WrRel HI) as Hs. rewrite Et, Hv in Hs. by apply Hs.
  - assert (t ∈ ws) as Htw by by apply Hwt.
    destruct Hv as [[-> Hv]|(x & -> & -> & Hv)]; [by apply elem_of_nil in Htw|].
    apply list_elem_of_singleton in Htw as <-. eexists _, [], []. split; [done|]. split; simpl; try done.
    + intros u. destruct (decide (u = t)) as [->|].
      * rewrite fn_lookup_insert. by split; [intros ?%elem_of_nil|].
      * rewrite fn_lookup_insert_ne by done. apply Hr.
    + intros u. destruct (decide (u = t)) as [->|].
      * rewrite fn_lookup_insert. by split; [intros ?%elem_of_nil|].
      * rewrite fn_lookup_insert_ne by done. rewrite <- Hw, list_elem_of_singleton.
        split; [by intros ?%elem_of_nil|done].
    + by left.
Qed.

Lemma rw_run_inv es rs ws s : rw_inv threads rs ws s → es.*1 ⊆ threads →
  ∃ s' rs' ws', rw_run es s = Some s' ∧ rw_inv threads rs' ws' s'.
Proof.
  revert rs ws s. induction es as [|[t w] es IH]; intros rs ws s HI Hes; [by eexists _, _, _|].
  destruct (rw_step_inv rs ws s t w HI) as (s1 & rs1 & ws1 & Hs & HI1); [apply Hes; left|].
  simpl. rewrite Hs. apply (IH _ _ _ HI1). intros x Hx. apply Hes. by right.
Qed.

Lemma rw_init_inv : rw_inv threads [] [] spin_rwlock_init.
Proof.
  split; simpl.
  - constructor.
  - by intros ? ?%elem_of_nil.
  - by split; [intros ?%elem_of_nil|].
  - by split; [intros ?%elem_of_nil|].
  - by left.
Qed.

(** C26: Readers and writers exclude each other and no assertion of the
    reader-writer lock ever fails: whatever fewer than 2^31 threads do, each asking
    to read or to write in any interleaving of the compare-and-swap loops, a thread
    that holds the lock to write is the only one that holds it, and the lock word
    is minus one then and the number of readers otherwise. *)
Theorem rwlock_safe es : es.*1 ⊆ threads → ∃ s, rw_run es spin_rwlock_init = Some s ∧
  (∀ t u, is_writer (rpcs s t) = true →
     is_writer (rpcs s u) = true ∨ is_reader (rpcs s u) = true → t = u) ∧
  ∃ rs, NoDup rs ∧ (∀ t, t ∈ rs ↔ is_reader (rpcs s t) = true) ∧
    (rw_lock s = -1 ∧ rs = [] ∨ rw_lock s = Z.of_nat (length rs)).
Proof.
  intros Hes. destruct (rw_run_inv es [] [] _ rw_init_inv Hes) as (s & rs & ws & Hs & [Hnd _ Hr Hw Hv]).
  exists s. split; [done|]. split.
  - intros t u Ht Hu. apply Hw in Ht. rewrite <- Hw, <- Hr in Hu.
    destruct Hv as [[-> _]|(w & -> & -> & _)]; [by apply elem_of_nil in Ht|].
    apply list_elem_of_singleton in Ht as ->.
    destruct Hu as [->%list_elem_of_singleton|Hu%elem_of_nil]; done.
  - exists rs. split_and!; try done. destruct Hv as [[_ ?]|(w & _ & -> & ?)]; auto.
Qed.
End rw.

Definition ex_rw : list (Z * bool) :=
  [(1, true); (2, false); (1, true); (2, false); (1, true); (1, true); (1, true); (2, false);
   (2, false); (2, false); (3, false); (3, false); (3, false)].

Lemma rwlock_safe_witness :
  (rw_lock <$> rw_run ex_rw spin_rwlock_init) = Some 2 ∧
  ∃ s, rw_run ex_rw spin_rwlock_init = Some s ∧
  (∀ t u, is_writer (rpcs s t) = true →
     is_writer (rpcs s u) = true ∨ is_reader (rpcs s u) = true → t = u) ∧
  ∃ rs, NoDup rs ∧ (∀ t, t ∈ rs ↔ is_reader (rpcs s t) = true) ∧
    (rw_lock s = -1 ∧ rs = [] ∨ rw_lock s = Z.of_nat (length rs)).
Proof.
  split; [by vm_compute|]. apply (rwlock_safe [1; 2; 3]); [by vm_compute|].
  intros x Hx. unfold ex_rw in Hx. simpl in Hx. set_solver.
Defined.
