(* ===== verification/Mutex.v ===== *)
(** * The sleeping mutex under interleaving: kernel/proc/thread/mutex.c

    [mutex_step t s] runs the next atomic access of thread [t]; the program points
    are those of [mutex_lock] and [mutex_unlock] in the order of the source. The
    inner spin lock is its holder (Sync.v shows that a spin lock has one); a thread
    that finds it taken stays where it is. Blocking marks the thread BLOCKED and
    releases the inner lock inside one critical section of the scheduler's lock, so
    it is one step. [None] is a failed assertion, the panic of [schd_run] on a
    thread that is not BLOCKED, or a NULL waiter. *)
From stdpp Require Import functions.
From S2P Require Import Prelude.

Inductive mpc :=
  | MIdle            (** outside; [mutex_lock] starts with [spin_lock] *)
  | L1               (** [assert(owner != thread_now())] *)
  | L2               (** [atomic_sub_and_test] *)
  | L3               (** [owner = thread_now()] *)
  | L4               (** [spin_unlock], return *)
  | L5               (** [list_push_back] *)
  | L6               (** [schd_block] *)
  | LBlk             (** BLOCKED *)
  | L7               (** runs again: [assert(owner == thread_now())] *)
  | MCrit            (** holds the mutex; [mutex_unlock] asserts [owner] first *)
  | U1               (** [owner = NULL] *)
  | U2               (** [atomic_add_return] *)
  | U3               (** [spin_lock] *)
  | U4               (** [list_pop_front] *)
  | U5 (w : Z)       (** [owner = thread] *)
  | U6 (w : Z)       (** [spin_unlock] *)
  | U7 (w : Z).      (** [schd_run(thread)] *)
#[export] Instance mpc_dec : EqDecision mpc.
Proof. solve_decision. Defined.

Record mutex_t := Mutex {
  count : Z; m_spin : option Z; wait_ls : list Z; owner : option Z; mpcs : Z → mpc }.

Definition mutex_init : mutex_t := Mutex 1 None [] None (λ _, MIdle).

Definition at_pc (t : Z) (p : mpc) (s : mutex_t) : mutex_t :=
  Mutex (count s) (m_spin s) (wait_ls s) (owner s) (<[t := p]> (mpcs s)).
Definition set_count c (s : mutex_t) := Mutex c (m_spin s) (wait_ls s) (owner s) (mpcs s).
Definition set_spin l (s : mutex_t) := Mutex (count s) l (wait_ls s) (owner s) (mpcs s).
Definition set_wait l (s : mutex_t) := Mutex (count s) (m_spin s) l (owner s) (mpcs s).
Definition set_owner o (s : mutex_t) := Mutex (count s) (m_spin s) (wait_ls s) o (mpcs s).

Definition mutex_lock_step (t : Z) (s : mutex_t) : option mutex_t :=
  match mpcs s t with
  | MIdle => match m_spin s with
             | None => Some (at_pc t L1 (set_spin (Some t) s))
             | Some _ => Some s
             end
  | L1 => if bool_decide (owner s = Some t) then None else Some (at_pc t L2 s)
  | L2 => let c := s32 (count s - 1) in
          Some (at_pc t (if c =? 0 then L3 else L5) (set_count c s))
  | L3 => Some (at_pc t L4 (set_owner (Some t) s))
  | L4 => Some (at_pc t MCrit (set_spin None s))
  | L5 => Some (at_pc t L6 (set_wait (wait_ls s ++ [t]) s))
  | L6 => Some (at_pc t LBlk (set_spin None s))
  | LBlk => Some s
  | L7 => if bool_decide (owner s = Some t) then Some (at_pc t MCrit s) else None
  | _ => Some s
  end.

Definition mutex_unlock_step (t : Z) (s : mutex_t) : option mutex_t :=
  match mpcs s t with
  | MCrit => if bool_decide (owner s = Some t) then Some (at_pc t U1 s) else None
  | U1 => Some (at_pc t U2 (set_owner None s))
  | U2 => let c := s32 (count s + 1) in
          Some (at_pc t (if c =? 1 then MIdle else U3) (set_count c s))
  | U3 => match m_spin s with
          | None => Some (at_pc t U4 (set_spin (Some t) s))
          | Some _ => Some s
          end
  | U4 => match wait_ls s with
          | w :: l => Some (at_pc t (U5 w) (set_wait l s))
          | [] => None
          end
  | U5 w => Some (at_pc t (U6 w) (set_owner (Some w) s))
  | U6 w => Some (at_pc t (U7 w) (set_spin None s))
  | U7 w => if bool_decide (mpcs s w = LBlk) then Some (at_pc t MIdle (at_pc w L7 s)) else None
  | _ => Some s
  end.

Definition in_unlock (p : mpc) : bool :=
  match p with MCrit | U1 | U2 | U3 | U4 | U5 _ | U6 _ | U7 _ => true | _ => false end.

Definition mutex_step (t : Z) (s : mutex_t) : option mutex_t :=
  if in_unlock (mpcs s t) then mutex_unlock_step t s else mutex_lock_step t s.

Fixpoint mutex_run (ts : list Z) (s : mutex_t) : option mutex_t :=
  match ts with
  | [] => Some s
  | t :: ts => match mutex_step t s with Some s' => mutex_run ts s' | None => None end
  end.

(** ** The invariant *)

Definition passing (p : mpc) : bool := match p with U3 | U4 => true | _ => false end.
Definition gives (p : mpc) : option Z :=
  match p with U5 w | U6 w | U7 w => Some w | _ => None end.
Definition given (p : mpc) : bool := match p with U6 _ | U7 _ => true | _ => false end.

(** What each point says of its thread: whether it holds the inner lock, whether
    the mutex is its own, whether it is on the list. A sleeping thread is on the
    list until the mutex is given to it. *)
Definition expected (p : mpc) (spin tok wait : bool) : bool :=
  match p with
  | MIdle | U7 _ => negb spin && negb tok && negb wait
  | L1 | L2 | L5 | U5 _ | U6 _ => spin && negb tok && negb wait
  | L3 | L4 | U4 => spin && tok && negb wait
  | L6 => spin && negb tok && wait
  | LBlk => negb spin && xorb tok wait
  | L7 | MCrit | U1 | U2 | U3 => negb spin && tok && negb wait
  end.

Definition loc (s : mutex_t) (tok : option Z) (t : Z) : Prop :=
  expected (mpcs s t) (bool_decide (m_spin s = Some t)) (bool_decide (tok = Some t))
    (bool_decide (t ∈ wait_ls s)) = true.

(** [owner] as the point of the thread whose mutex it is says. *)
Definition own_ok (p : mpc) (t : Z) (o : option Z) : Prop :=
  match p with
  | L4 | L7 | MCrit | U1 => o = Some t
  | L3 | U2 | U3 | U4 => o = None
  | _ => True
  end.

(** Waiters that [count] has been lowered for and that are not on the list yet. *)
Definition pending (s : mutex_t) : Z :=
  match m_spin s with Some t => if bool_decide (mpcs s t = L5) then 1 else 0 | None => 0 end.
Definition taken (s : mutex_t) (tok : option Z) : Z :=
  match tok with Some t => if passing (mpcs s t) then 0 else 1 | None => 0 end.

Record mutex_inv (threads : list Z) (tok : option Z) (s : mutex_t) : Prop := {
  mi_loc : ∀ t, loc s tok t;
  mi_nodup : NoDup (wait_ls s);
  mi_threads : wait_ls s ⊆ threads;
  mi_count : count s = 1 - taken s tok - Z.of_nat (length (wait_ls s)) - pending s;
  mi_wait : match tok with
            | None => owner s = None ∧ wait_ls s = [] ∧ pending s = 0
            | Some x => own_ok (mpcs s x) x (owner s) ∧
                (passing (mpcs s x) = true → 1 ≤ Z.of_nat (length (wait_ls s)) + pending s) ∧
                (mpcs s x = LBlk → ∃ g, gives (mpcs s g) = Some x)
            end;
  mi_gives : ∀ t w, gives (mpcs s t) = Some w → tok = Some w ∧ mpcs s w = LBlk ∧
    owner s = (if given (mpcs s t) then Some w else None);
  mi_giver : ∀ t u w, gives (mpcs s t) = Some w → gives (mpcs s u) = Some w → t = u;
}.

Section mutex.
Context (threads : list Z) (Hthreads : Z.of_nat (length threads) < 2 ^ 30).

Lemma pc_here s t p : mpcs (at_pc t p s) t = p.
Proof. apply fn_lookup_insert. Qed.
Lemma pc_there s t p u : u ≠ t → mpcs (at_pc t p s) u = mpcs s u.
Proof. intros Hu. by apply fn_lookup_insert_ne. Qed.

Lemma mi_len tok s : mutex_inv threads tok s → (length (wait_ls s) ≤ length threads)%nat.
Proof. intros HI. apply submseteq_length, NoDup_submseteq; apply HI. Qed.

(** Threads that did not move see what they saw. *)
Lemma loc_frame s s' tok tok' u : loc s tok u → mpcs s' u = mpcs s u →
  (m_spin s' = Some u ↔ m_spin s = Some u) → (tok' = Some u ↔ tok = Some u) →
  (u ∈ wait_ls s' ↔ u ∈ wait_ls s) → loc s' tok' u.
Proof.
  unfold loc. intros Hl -> H1 H2 H3.
  by rewrite (bool_decide_ext _ _ H1), (bool_decide_ext _ _ H2), (bool_decide_ext _ _ H3).
Qed.

(** A step of [t] that gives nothing and changes neither the list nor whose mutex
    it is. *)
Lemma inv_step tok s t s' p c : mutex_inv threads tok s →
  mpcs s' = <[t := p]> (mpcs s) → wait_ls s' = wait_ls s → owner s' = owner s →
  count s' = c → loc s' tok t → gives p = None → gives (mpcs s t) = None →
  (∀ u, u ≠ t → m_spin s' = Some u ↔ m_spin s = Some u) →
  c + taken s' tok + pending s' = count s + taken s tok + pending s →
  (mpcs s t = LBlk ↔ p = LBlk ∧ tok = Some t) →
  match tok with
  | Some x => (x = t → own_ok p x (owner s)) ∧
      (passing (mpcs s' x) = true → 1 ≤ Z.of_nat (length (wait_ls s)) + pending s')
  | None => pending s' = 0
  end → mutex_inv threads tok s'.
Proof.
  intros [Hl Hnd Hth Hct Hw Hgv Hgg] Ep Ew Eo Ec Hlt Hp Hpt Hsp Hcnt Hb Htok.
  assert (∀ u, u ≠ t → mpcs s' u = mpcs s u) as Hpc.
  { intros u Hu. rewrite Ep. by apply fn_lookup_insert_ne. }
  assert (mpcs s' t = p) as Hpt' by (rewrite Ep; apply fn_lookup_insert).
  assert (∀ u w, gives (mpcs s' u) = Some w → u ≠ t ∧ gives (mpcs s u) = Some w) as Hg.
  { intros u w Hu. destruct (decide (u = t)) as [->|Hut]; [by rewrite Hpt', Hp in Hu|].
    by rewrite Hpc in Hu. }
  split; rewrite ?Ew, ?Eo.
  - intros u. destruct (decide (u = t)) as [->|Hu]; [done|].
    apply (loc_frame s _ tok); auto; by rewrite ?Ew.
  - done.
  - done.
  - lia.
  - destruct tok as [x|]; [|naive_solver]. destruct Hw as (Ho & Hps & Hbl). destruct Htok as [Ht1 Ht2].
    split; [|split; [done|]].
    + destruct (decide (x = t)) as [->|Hx]; [rewrite Hpt'; auto|by rewrite Hpc].
    + intros Hx. assert (mpcs s x = LBlk) as Hx'.
      { destruct (decide (x = t)) as [->|Hxt]; [|by rewrite <- Hpc]. apply Hb.
        by rewrite Hpt' in Hx. }
      destruct (Hbl Hx') as [g Hgx]. exists g. rewrite Hpc; [done|]. intros ->. by rewrite Hpt in Hgx.
  - intros u w [Hu Hgu]%Hg. destruct (Hgv _ _ Hgu) as (H1 & H2 & H3).
    split; [done|]. rewrite (Hpc u) by done. split; [|done].
    destruct (decide (w = t)) as [->|Hwt]; [|by rewrite Hpc].
    rewrite Hpt'. by apply Hb in H2 as [? _].
  - intros u v w [Hu Hgu]%Hg [Hv Hgv']%Hg. by eapply Hgg.
Qed.

Lemma no_giver tok s : mutex_inv threads tok s →
  (∀ x, tok = Some x → mpcs s x ≠ LBlk) → ∀ u, gives (mpcs s u) = None.
Proof.
  intros HI Hx u. destruct (gives (mpcs s u)) as [w|] eqn:E; [|done].
  destruct (mi_gives _ _ _ HI _ _ E) as (H1 & H2 & _). by destruct (Hx w).
Qed.

(** A step of [t] that takes or gives up the mutex, or writes [owner]. *)
Lemma inv_tok tok s t s' tok' p : mutex_inv threads tok s →
  mpcs s' = <[t := p]> (mpcs s) → wait_ls s' = wait_ls s → m_spin s' = m_spin s →
  loc s' tok' t → gives p = None → (∀ u, gives (mpcs s u) = None) → p ≠ LBlk →
  (∀ u, u ≠ t → tok' = Some u ↔ tok = Some u) →
  count s' = 1 - taken s' tok' - Z.of_nat (length (wait_ls s)) - pending s' →
  match tok' with
  | Some x => x = t ∧ own_ok p x (owner s') ∧
      (passing p = true → 1 ≤ Z.of_nat (length (wait_ls s)) + pending s')
  | None => owner s' = None ∧ wait_ls s = [] ∧ pending s' = 0
  end → mutex_inv threads tok' s'.
Proof.
  intros [Hl Hnd Hth Hct Hw Hgv Hgg] Ep Ew Es Hlt Hp Hng Hb Htk Hcnt Htok.
  assert (∀ u, u ≠ t → mpcs s' u = mpcs s u) as Hpc.
  { intros u Hu. rewrite Ep. by apply fn_lookup_insert_ne. }
  assert (mpcs s' t = p) as Hpt' by (rewrite Ep; apply fn_lookup_insert).
  assert (∀ u, gives (mpcs s' u) = None) as Hg.
  { intros u. destruct (decide (u = t)) as [->|Hut]; [by rewrite Hpt'|by rewrite Hpc]. }
  split; rewrite ?Ew; try done.
  - intros u. destruct (decide (u = t)) as [->|Hu]; [done|].
    apply (loc_frame s _ tok); auto; by rewrite ?Ew, ?Es.
  - destruct tok' as [x|]; [|done]. destruct Htok as (-> & Ho & Hps). rewrite Hpt'. done.
  - intros u w Hu. by rewrite Hg in Hu.
  - intros u v w Hu. by rewrite Hg in Hu.
Qed.

(** Facts about the thread that steps. *)
Lemma loc_at tok s t : mutex_inv threads tok s →
  expected (mpcs s t) (bool_decide (m_spin s = Some t)) (bool_decide (tok = Some t))
    (bool_decide (t ∈ wait_ls s)) = true.
Proof. intros HI. apply (mi_loc _ _ _ HI). Qed.

Lemma taken_other tok s s' t p : mpcs s' = <[t := p]> (mpcs s) → tok ≠ Some t →
  taken s' tok = taken s tok.
Proof.
  intros Ep Ht. unfold taken. destruct tok as [x|]; [|done].
  rewrite Ep, fn_lookup_insert_ne by congruence. done.
Qed.
Lemma taken_self s s' t p : mpcs s' = <[t := p]> (mpcs s) →
  taken s' (Some t) = if passing p then 0 else 1.
Proof. intros Ep. unfold taken. by rewrite Ep, fn_lookup_insert. Qed.
Lemma pending_self s' s t p : mpcs s' = <[t := p]> (mpcs s) → m_spin s' = Some t →
  pending s' = if bool_decide (p = L5) then 1 else 0.
Proof. intros Ep Es. unfold pending. by rewrite Es, Ep, fn_lookup_insert. Qed.
Lemma pending_none s' : m_spin s' = None → pending s' = 0.
Proof. intros Es. unfold pending. by rewrite Es. Qed.
Lemma pending_other s' s t p : mpcs s' = <[t := p]> (mpcs s) → m_spin s' = m_spin s →
  m_spin s ≠ Some t → pending s' = pending s.
Proof.
  intros Ep Es Ht. unfold pending. rewrite Es. destruct (m_spin s) as [x|]; [|done].
  by rewrite Ep, fn_lookup_insert_ne by congruence.
Qed.
Lemma taken_le tok s : 0 ≤ taken s tok ≤ 1.
Proof. unfold taken. destruct tok; [destruct (passing _)|]; lia. Qed.
Lemma pending_le s : 0 ≤ pending s ≤ 1.
Proof. unfold pending. destruct (m_spin s); [case_bool_decide|]; lia. Qed.

Ltac facts H := repeat (case_bool_decide; simpl in H; try discriminate H).
Ltac solve_loc := unfold loc; simpl; rewrite ?fn_lookup_insert; simpl;
  repeat (case_bool_decide; simpl); try done; try congruence.

(** The thread's step leaves whose mutex it is, the other is at its point. *)
Lemma tok_other tok s s' t p x : mutex_inv threads tok s → tok = Some x → x ≠ t →
  mpcs s' = <[t := p]> (mpcs s) → pending s' = pending s →
  (x = t → own_ok p x (owner s)) ∧
  (passing (mpcs s' x) = true → 1 ≤ Z.of_nat (length (wait_ls s)) + pending s').
Proof.
  intros HI -> Hx Ep ->. split; [done|]. rewrite Ep, fn_lookup_insert_ne by done.
  by destruct (mi_wait _ _ _ HI) as (_ & Hp & _).
Qed.

Lemma step_enter tok s t : mutex_inv threads tok s → mpcs s t = MIdle → m_spin s = None →
  mutex_inv threads tok (at_pc t L1 (set_spin (Some t) s)).
Proof.
  intros HI Et Es. pose proof (loc_at _ _ t HI) as Hl. rewrite Et in Hl. simpl in Hl. facts Hl.
  pose proof (mi_wait _ _ _ HI) as Hw.
  assert (pending (at_pc t L1 (set_spin (Some t) s)) = 0) as Hp
    by by erewrite (pending_self _ s) by done.
  pose proof (pending_none s Es) as Hp0.
  eapply (inv_step tok s t _ L1); try done.
  - solve_loc.
  - by rewrite Et.
  - intros u Hu. simpl. rewrite Es. split; congruence.
  - rewrite Hp, Hp0. by erewrite (taken_other tok s) by done.
  - rewrite Et. split; [done|by intros [? ?]].
  - destruct tok as [x|]; [|done]. eapply tok_other; [done..| |done|lia]. congruence.
Qed.

Lemma step_assert tok s t : mutex_inv threads tok s → mpcs s t = L1 →
  owner s ≠ Some t ∧ mutex_inv threads tok (at_pc t L2 s).
Proof.
  intros HI Et. pose proof (loc_at _ _ t HI) as Hl. rewrite Et in Hl. simpl in Hl. facts Hl.
  pose proof (mi_wait _ _ _ HI) as Hw.
  assert (pending (at_pc t L2 s) = 0) as Hp by by erewrite (pending_self _ s) by done.
  assert (pending s = 0) as Hp0 by (unfold pending; by rewrite H, Et).
  split.
  { intros Ho. destruct tok as [x|]; [|destruct Hw; congruence].
    assert (x ≠ t) by congruence. destruct Hw as (Hok & _ & Hb).
    pose proof (loc_at _ _ x HI) as Hlx. destruct (mpcs s x) eqn:Ex; simpl in Hok, Hlx;
      try congruence; try (exfalso; facts Hlx; congruence).
    destruct (Hb eq_refl) as [g Hg]. destruct (mi_gives _ _ _ HI _ _ Hg) as (_ & _ & Hog).
    destruct (given _); congruence. }
  eapply (inv_step tok s t _ L2); try done.
  - solve_loc.
  - by rewrite Et.
  - rewrite Hp, Hp0. by erewrite (taken_other tok s) by done.
  - rewrite Et. split; [done|by intros [? ?]].
  - destruct tok as [x|]; [|done]. eapply tok_other; [done..| |done|lia]. congruence.
Qed.

Lemma count_range tok s : mutex_inv threads tok s → - 2 ^ 30 - 1 ≤ count s ≤ 1.
Proof.
  intros HI. rewrite (mi_count _ _ _ HI). pose proof (mi_len _ _ HI).
  pose proof (taken_le tok s). pose proof (pending_le s). lia.
Qed.

(** A thread whose mutex it is and that does not sleep excludes givers. *)
Lemma no_giver_has s t : mutex_inv threads (Some t) s → mpcs s t ≠ LBlk →
  ∀ u, gives (mpcs s u) = None.
Proof. intros HI Ht. eapply no_giver; [done|]. by intros x [= <-]. Qed.

Lemma step_sub tok s t : mutex_inv threads tok s → mpcs s t = L2 →
  let c := s32 (count s - 1) in
  ∃ tok', mutex_inv threads tok' (at_pc t (if c =? 0 then L3 else L5) (set_count c s)).
Proof.
  intros HI Et. pose proof (loc_at _ _ t HI) as Hl. rewrite Et in Hl. simpl in Hl. facts Hl.
  pose proof (mi_wait _ _ _ HI) as Hw. pose proof (mi_count _ _ _ HI) as Hc.
  pose proof (count_range _ _ HI). pose proof (taken_le tok s).
  assert (pending s = 0) as Hp0 by (unfold pending; by rewrite H, Et).
  cbn zeta. rewrite s32_small by lia. destruct (_ =? 0) eqn:E0.
  - apply Z.eqb_eq in E0. destruct tok as [x|].
    { exfalso. destruct Hw as (_ & Hps & _). unfold taken in *. destruct (passing (mpcs s x)).
      - specialize (Hps eq_refl). lia.
      - lia. }
    destruct Hw as (Ho & Hwl & _). exists (Some t).
    set (s' := at_pc t L3 (set_count (count s - 1) s)).
    assert (pending s' = 0) as Hp by by erewrite (pending_self s' s) by done.
    eapply (inv_tok None s t s' (Some t) L3); try done.
    + solve_loc.
    + eapply no_giver; [done|]. by intros.
    + intros u Hu. split; congruence.
    + erewrite (taken_self s s') by done. simpl. rewrite Hp, Hwl. simpl. lia.
  - apply Z.eqb_neq in E0. exists tok. set (s' := at_pc t L5 (set_count (count s - 1) s)).
    assert (pending s' = 1) as Hp by by erewrite (pending_self s' s) by done.
    eapply (inv_step tok s t s' L5); try done.
    + solve_loc.
    + by rewrite Et.
    + erewrite (taken_other tok s s') by done. simpl. lia.
    + rewrite Et. split; [done|by intros [? ?]].
    + destruct tok as [x|].
      * split; [congruence|]. intros _. lia.
      * destruct Hw as (_ & Hwl & _). rewrite Hwl in Hc. simpl in Hc. lia.
Qed.

Lemma step_own tok s t : mutex_inv threads tok s → mpcs s t = L3 →
  mutex_inv threads tok (at_pc t L4 (set_owner (Some t) s)).
Proof.
  intros HI Et. pose proof (loc_at _ _ t HI) as Hl. rewrite Et in Hl. simpl in Hl. facts Hl. subst tok.
  pose proof (mi_wait _ _ _ HI) as Hw. pose proof (mi_count _ _ _ HI) as Hc.
  set (s' := at_pc t L4 (set_owner (Some t) s)).
  assert (pending s' = 0) as Hp by by erewrite (pending_self s' s) by done.
  assert (pending s = 0) as Hp0 by (unfold pending; by rewrite H, Et).
  eapply (inv_tok (Some t) s t s' (Some t) L4); try done.
  - solve_loc.
  - eapply no_giver_has; [done|]. by rewrite Et.
  - erewrite (taken_self s s') by done. unfold taken in Hc. rewrite Et in Hc. simpl in *. lia.
Qed.

Lemma step_leave tok s t : mutex_inv threads tok s → mpcs s t = L4 →
  mutex_inv threads tok (at_pc t MCrit (set_spin None s)).
Proof.
  intros HI Et. pose proof (loc_at _ _ t HI) as Hl. rewrite Et in Hl. simpl in Hl. facts Hl. subst tok.
  pose proof (mi_wait _ _ _ HI) as Hw.
  set (s' := at_pc t MCrit (set_spin None s)).
  assert (pending s' = 0) as Hp by by apply pending_none.
  assert (pending s = 0) as Hp0 by (unfold pending; by rewrite H, Et).
  eapply (inv_step (Some t) s t s' MCrit); try done.
  - solve_loc.
  - by rewrite Et.
  - intros u Hu. simpl. rewrite H. split; congruence.
  - erewrite (taken_self s s') by done. unfold taken. rewrite Et. simpl. lia.
  - rewrite Et. split; [done|by intros [? ?]].
  - cbn beta iota in Hw. rewrite Et in Hw. split; [intros _; apply Hw|]. simpl. by rewrite fn_lookup_insert.
Qed.

Lemma step_push tok s t : mutex_inv threads tok s → mpcs s t = L5 → t ∈ threads →
  mutex_inv threads tok (at_pc t L6 (set_wait (wait_ls s ++ [t]) s)).
Proof.
  intros HI Et Ht. pose proof (loc_at _ _ t HI) as Hl. rewrite Et in Hl. simpl in Hl. facts Hl.
  pose proof HI as [Hlo Hnd Hth Hct Hw Hgv Hgg].
  set (s' := at_pc t L6 (set_wait (wait_ls s ++ [t]) s)).
  assert (pending s' = 0) as Hp by by erewrite (pending_self s' s) by done.
  assert (pending s = 1) as Hp0 by (unfold pending; by rewrite H, Et).
  assert (∀ u, u ≠ t → mpcs s' u = mpcs s u) as Hpc by (intros u Hu; by apply fn_lookup_insert_ne).
  assert (∀ u w, gives (mpcs s' u) = Some w → gives (mpcs s u) = Some w) as Hg.
  { intros u w. destruct (decide (u = t)) as [->|Hu]; [unfold s'; by rewrite pc_here|by rewrite Hpc]. }
  assert (∀ u w, gives (mpcs s' u) = Some w → given (mpcs s' u) = given (mpcs s u)) as Hg'.
  { intros u w. destruct (decide (u = t)) as [->|Hu]; [unfold s'; by rewrite pc_here|by rewrite Hpc]. }
  split.
  - intros u. destruct (decide (u = t)) as [->|Hu].
    + assert (t ∈ wait_ls s ++ [t]) by (apply elem_of_app; right; left). solve_loc.
    + apply (loc_frame s s' tok tok); [apply Hlo|by apply Hpc|done|done|]. simpl.
      rewrite elem_of_app, list_elem_of_singleton. split; [by intros [?|?]|by left].
  - simpl. apply NoDup_app. split_and!; [done| |apply NoDup_singleton].
    intros x Hx ->%list_elem_of_singleton. done.
  - simpl. intros x [Hx| ->%list_elem_of_singleton]%elem_of_app; auto.
  - erewrite (taken_other tok s s') by done. rewrite Hp. simpl. rewrite length_app. simpl. lia.
  - destruct tok as [x|]; [|destruct Hw as (_ & _ & Hx); lia].
    assert (x ≠ t) as Hx by congruence. rewrite (Hpc x Hx). destruct Hw as (Ho & Hps & Hb).
    split; [done|]. split.
    + intros _. simpl. rewrite length_app. simpl. lia.
    + intros Hx'. destruct (Hb Hx') as [g Hgx]. exists g.
      destruct (decide (g = t)) as [->|Hgt]; [by rewrite Et in Hgx|by rewrite Hpc].
  - intros u w Hu. pose proof (Hg' _ _ Hu) as ->. apply Hg in Hu.
    destruct (Hgv _ _ Hu) as (H3 & H4 & H5). split; [done|]. split; [|done].
    rewrite Hpc; [done|]. congruence.
  - intros u v w Hu Hv. eapply Hgg; eauto.
Qed.

Lemma step_block tok s t : mutex_inv threads tok s → mpcs s t = L6 →
  mutex_inv threads tok (at_pc t LBlk (set_spin None s)).
Proof.
  intros HI Et. pose proof (loc_at _ _ t HI) as Hl. rewrite Et in Hl. simpl in Hl. facts Hl.
  pose proof (mi_wait _ _ _ HI) as Hw.
  set (s' := at_pc t LBlk (set_spin None s)).
  assert (pending s' = 0) as Hp by by apply pending_none.
  assert (pending s = 0) as Hp0 by (unfold pending; by rewrite H, Et).
  eapply (inv_step tok s t s' LBlk); try done.
  - solve_loc.
  - by rewrite Et.
  - intros u Hu. simpl. rewrite H. split; congruence.
  - erewrite (taken_other tok s s') by done. simpl. lia.
  - rewrite Et. split; [done|by intros [_ ?]].
  - destruct tok as [x|]; [|done]. eapply tok_other; [done..| |done|lia]. congruence.
Qed.

(** The mutex is this thread's, awake: it goes on with the mutex. *)
Lemma step_keep s t p q (sp : option Z) : mutex_inv threads (Some t) s → mpcs s t = p →
  p ≠ LBlk → q ≠ LBlk → gives p = None → gives q = None → passing p = passing q →
  m_spin s ≠ Some t → sp = m_spin s ∨ (m_spin s = None ∧ sp = Some t ∧ q = U4) →
  expected q (bool_decide (sp = Some t)) true false = true →
  (own_ok p t (owner s) → own_ok q t (owner s)) →
  mutex_inv threads (Some t) (at_pc t q (set_spin sp s)).
Proof.
  intros HI Et Hpb Hqb Hgp Hgq Hpq Hns Hsp Hexp Hown.
  pose proof (loc_at _ _ t HI) as Hl. pose proof (mi_wait _ _ _ HI) as Hw.
  cbn beta iota in Hw. rewrite Et in Hw.
  set (s' := at_pc t q (set_spin sp s)).
  assert (t ∉ wait_ls s) as Hnw.
  { intros Hx. rewrite Et, (bool_decide_eq_true_2 (Some t = Some t)) in Hl by done.
    rewrite (bool_decide_eq_true_2 (t ∈ _)) in Hl by done.
    by destruct p, (bool_decide (m_spin s = Some t)). }
  assert (pending s' = pending s) as Hp.
  { destruct Hsp as [->|(Hn & -> & ->)].
    - by eapply pending_other.
    - rewrite (pending_none s) by done. by erewrite (pending_self s' s) by done. }
  eapply (inv_step (Some t) s t s' q); try done.
  - unfold loc, s'. rewrite pc_here. simpl.
    rewrite (bool_decide_eq_true_2 (Some t = Some t)), (bool_decide_eq_false_2 (t ∈ _)) by done. done.
  - by rewrite Et.
  - intros u Hu. simpl. destruct Hsp as [->|(Hn & -> & ->)]; [done|]. rewrite Hn. split; congruence.
  - erewrite (taken_self s s') by done. unfold taken. rewrite Et, Hpq. simpl. lia.
  - rewrite Et. split; [done|by intros [? ?]].
  - split; [intros _; apply Hown, Hw|]. unfold s'. rewrite pc_here. fold s'. rewrite Hp, <- Hpq. apply Hw.
Qed.

Lemma step_rel tok s t : mutex_inv threads tok s → mpcs s t = U1 →
  mutex_inv threads tok (at_pc t U2 (set_owner None s)).
Proof.
  intros HI Et. pose proof (loc_at _ _ t HI) as Hl. rewrite Et in Hl. simpl in Hl. facts Hl. subst tok.
  pose proof (mi_count _ _ _ HI) as Hc. set (s' := at_pc t U2 (set_owner None s)).
  assert (pending s' = pending s) as Hp by by eapply pending_other.
  eapply (inv_tok (Some t) s t s' (Some t) U2); try done.
  - solve_loc.
  - eapply no_giver_has; [done|]. by rewrite Et.
  - erewrite (taken_self s s') by done. unfold taken in Hc. rewrite Et in Hc. simpl in *. lia.
Qed.

Lemma step_add tok s t : mutex_inv threads tok s → mpcs s t = U2 →
  let c := s32 (count s + 1) in
  ∃ tok', mutex_inv threads tok' (at_pc t (if c =? 1 then MIdle else U3) (set_count c s)).
Proof.
  intros HI Et. pose proof (loc_at _ _ t HI) as Hl. rewrite Et in Hl. simpl in Hl. facts Hl. subst tok.
  pose proof (mi_wait _ _ _ HI) as Hw. pose proof (mi_count _ _ _ HI) as Hc.
  cbn beta iota in Hw. rewrite Et in Hw. simpl in Hw. destruct Hw as (Ho & _).
  pose proof (count_range _ _ HI). cbn zeta. rewrite s32_small by lia.
  unfold taken in Hc. rewrite Et in Hc. simpl in Hc.
  pose proof (pending_le s) as Hpl.
  assert (∀ u, gives (mpcs s u) = None) as Hng by (eapply no_giver_has; [done|]; by rewrite Et).
  destruct (_ =? 1) eqn:E1.
  - apply Z.eqb_eq in E1. exists None. set (s' := at_pc t MIdle (set_count (count s + 1) s)).
    assert (pending s' = pending s) as Hp by by eapply pending_other.
    eapply (inv_tok (Some t) s t s' None MIdle); try done.
    + solve_loc.
    + intros u Hu. split; congruence.
    + simpl. lia.
    + split; [done|]. split; [apply nil_length_inv; lia|lia].
  - apply Z.eqb_neq in E1. exists (Some t). set (s' := at_pc t U3 (set_count (count s + 1) s)).
    assert (pending s' = pending s) as Hp by by eapply pending_other.
    eapply (inv_tok (Some t) s t s' (Some t) U3); try done.
    + solve_loc.
    + erewrite (taken_self s s') by done. simpl. lia.
    + split; [done|]. split; [done|]. intros _. lia.
Qed.

(** The first waiter is taken off the list: the mutex becomes its own. *)
Lemma step_pop tok s t : mutex_inv threads tok s → mpcs s t = U4 →
  ∃ w l, wait_ls s = w :: l ∧ mutex_inv threads (Some w) (at_pc t (U5 w) (set_wait l s)).
Proof.
  intros HI Et. pose proof (loc_at _ _ t HI) as Hl. rewrite Et in Hl. simpl in Hl. facts Hl. subst tok.
  pose proof HI as [Hlo Hnd Hth Hct Hw Hgv Hgg].
  cbn beta iota in Hw. rewrite Et in Hw. simpl in Hw. destruct Hw as (Ho & Hps & _).
  assert (pending s = 0) as Hp0 by (unfold pending; by rewrite H, Et).
  specialize (Hps eq_refl). rewrite Hp0 in *.
  destruct (wait_ls s) as [|w l] eqn:El; [simpl in Hps; lia|]. exists w, l. split; [done|].
  assert (t ≠ w) as Htw by (intros ->; by apply H1; left).
  apply NoDup_cons in Hnd as [Hwl Hnd].
  assert (mpcs s w = LBlk) as Ew.
  { pose proof (loc_at _ _ w HI) as Hlw. rewrite El in Hlw.
    rewrite (bool_decide_eq_true_2 (w ∈ w :: l)) in Hlw by left.
    rewrite (bool_decide_eq_false_2 (m_spin s = Some w)) in Hlw by congruence.
    rewrite (bool_decide_eq_false_2 (Some t = Some w)) in Hlw by congruence.
    by destruct (mpcs s w). }
  set (s' := at_pc t (U5 w) (set_wait l s)).
  assert (∀ u, u ≠ t → mpcs s' u = mpcs s u) as Hpc by (intros u Hu; by apply fn_lookup_insert_ne).
  assert (∀ u, gives (mpcs s u) = None) as Hng by (eapply no_giver_has; [done|]; by rewrite Et).
  assert (pending s' = 0) as Hp by by erewrite (pending_self s' s) by done.
  assert (mpcs s' t = U5 w) as Et' by apply fn_lookup_insert.
  assert (∀ u v, gives (mpcs s' u) = Some v → u = t ∧ v = w) as Hg.
  { intros u v. destruct (decide (u = t)) as [->|Hu].
    - rewrite Et'. by intros [= ->].
    - rewrite Hpc by done. by rewrite Hng. }
  split.
  - intros u. destruct (decide (u = t)) as [->|Hu]; [|destruct (decide (u = w)) as [->|Huw]].
    + assert (t ∉ l) by (intros ?; apply H1; by right). solve_loc.
    + pose proof (loc_at _ _ w HI) as Hlw. unfold loc. rewrite Hpc, Ew by done. simpl.
      rewrite (bool_decide_eq_false_2 (m_spin s = Some w)) by congruence.
      rewrite (bool_decide_eq_true_2 (Some w = Some w)) by done.
      by rewrite (bool_decide_eq_false_2 (w ∈ l)).
    + apply (loc_frame s s' (Some t) (Some w)); [apply Hlo|by apply Hpc|done| |].
      * split; congruence.
      * rewrite El. simpl. rewrite elem_of_cons. split; [by right|by intros [?|?]].
  - done.
  - simpl. intros x Hx. apply Hth. by right.
  - rewrite Hp. unfold taken. cbn beta iota. rewrite Hpc, Ew by done.
    unfold taken in Hct. rewrite Et in Hct. simpl in *. lia.
  - rewrite Hpc, Ew by done. split; [done|]. split; [done|]. intros _. exists t. by rewrite Et'.
  - intros u v [-> ->]%Hg. split; [done|]. rewrite Hpc by done. split; [done|]. by rewrite Et'.
  - intros u v x [-> _]%Hg [-> _]%Hg. done.
Qed.

(** Writing the new owner, and letting go of the inner lock. *)
Lemma step_give tok s t w p q o sp : mutex_inv threads tok s → mpcs s t = p →
  gives p = Some w → gives q = Some w → o = (if given q then Some w else None) →
  m_spin s ≠ None ∨ sp = None → (sp = m_spin s ∨ m_spin s = Some t ∧ sp = None) →
  p ≠ L5 → q ≠ L5 →
  expected q (bool_decide (sp = Some t)) false false = true →
  mutex_inv threads tok (at_pc t q (set_spin sp (set_owner o s))).
Proof.
  intros HI Et Hp Hq Ho _ Hsp Hp5 Hq5 Hexp.
  pose proof HI as [Hlo Hnd Hth Hct Hw Hgv Hgg].
  destruct (Hgv t w) as (-> & Ew & _); [by rewrite Et|].
  assert (t ≠ w) as Htw by (intros ->; rewrite Ew in Et; by subst).
  set (s' := at_pc t q (set_spin sp (set_owner o s))).
  assert (∀ u, u ≠ t → mpcs s' u = mpcs s u) as Hpc by (intros u Hu; by apply fn_lookup_insert_ne).
  assert (mpcs s' t = q) as Et' by apply fn_lookup_insert.
  assert (t ∉ wait_ls s) as Hnw.
  { intros Hx. pose proof (loc_at _ _ t HI) as Hl. rewrite Et in Hl.
    rewrite (bool_decide_eq_true_2 (t ∈ _)) in Hl by done.
    rewrite (bool_decide_eq_false_2 (Some w = Some t)) in Hl by congruence.
    by destruct p, (bool_decide (m_spin s = Some t)). }
  assert (pending s' = pending s) as Hpd.
  { destruct Hsp as [->|[Hs ->]].
    - unfold pending. simpl. destruct (m_spin s) as [x|]; [|done]. fold s'.
      destruct (decide (x = t)) as [->|Hx].
      + rewrite fn_lookup_insert, Et. by rewrite !bool_decide_eq_false_2.
      + by rewrite fn_lookup_insert_ne.
    - rewrite pending_none by done. unfold pending. by rewrite Hs, Et, bool_decide_eq_false_2. }
  assert (∀ u v, gives (mpcs s' u) = Some v → u = t ∧ v = w) as Hg.
  { intros u v. destruct (decide (u = t)) as [->|Hu].
    - rewrite Et', Hq. by intros [= ->].
    - rewrite Hpc by done. intros Hv. destruct (Hgv u v Hv) as ([= <-] & _).
      destruct Hu. eapply Hgg; [done|]. by rewrite Et. }
  split.
  - intros u. destruct (decide (u = t)) as [->|Hu].
    + unfold loc. rewrite Et'. simpl.
      rewrite (bool_decide_eq_false_2 (Some w = Some t)) by congruence.
      by rewrite (bool_decide_eq_false_2 (t ∈ _)).
    + apply (loc_frame s s' (Some w) (Some w)); [apply Hlo|by apply Hpc| |done|done].
      simpl. destruct Hsp as [->|[Hs ->]]; [done|]. rewrite Hs. split; congruence.
  - done.
  - done.
  - rewrite Hpd. change (count s') with (count s). rewrite Hct. unfold taken. cbn beta iota.
    by rewrite Hpc.
  - rewrite Hpc, Ew by done. split; [done|]. split; [done|]. intros _. exists t. by rewrite Et'.
  - intros u v [-> ->]%Hg. split; [done|]. rewrite Hpc, Et' by done. split; [done|]. by subst o.
  - intros u v x [-> _]%Hg [-> _]%Hg. done.
Qed.

(** The waiter wakes. *)
Lemma step_wake tok s t w : mutex_inv threads tok s → mpcs s t = U7 w →
  mpcs s w = LBlk ∧ mutex_inv threads tok (at_pc t MIdle (at_pc w L7 s)).
Proof.
  intros HI Et. pose proof HI as [Hlo Hnd Hth Hct Hw Hgv Hgg].
  destruct (Hgv t w) as (-> & Ew & Ho); [by rewrite Et|]. rewrite Et in Ho. simpl in Ho.
  split; [done|].
  assert (t ≠ w) as Htw by (intros ->; by rewrite Ew in Et).
  pose proof (loc_at _ _ t HI) as Hl. rewrite Et in Hl. simpl in Hl. facts Hl.
  pose proof (loc_at _ _ w HI) as Hlw. rewrite Ew in Hlw.
  rewrite (bool_decide_eq_true_2 (Some w = Some w)) in Hlw by done. simpl in Hlw. facts Hlw.
  set (s' := at_pc t MIdle (at_pc w L7 s)).
  assert (mpcs s' t = MIdle) as Et' by apply fn_lookup_insert.
  assert (mpcs s' w = L7) as Ew'.
  { unfold s'. simpl. rewrite fn_lookup_insert_ne by done. apply fn_lookup_insert. }
  assert (∀ u, u ≠ t → u ≠ w → mpcs s' u = mpcs s u) as Hpc.
  { intros u Hu Hu'. unfold s'. simpl. by rewrite !fn_lookup_insert_ne. }
  assert (pending s' = pending s) as Hpd.
  { unfold pending. change (m_spin s') with (m_spin s). destruct (m_spin s) as [x|] eqn:Es; [|done].
    rewrite Hpc by congruence. done. }
  assert (∀ u v, gives (mpcs s' u) = Some v → False) as Hg.
  { intros u v. destruct (decide (u = t)) as [->|Hu]; [by rewrite Et'|].
    destruct (decide (u = w)) as [->|Huw]; [by rewrite Ew'|]. rewrite Hpc by done.
    intros Hv. destruct (Hgv u v Hv) as ([= <-] & _). apply Hu.
    eapply Hgg; [done|]. by rewrite Et. }
  split.
  - intros u. destruct (decide (u = t)) as [->|Hu]; [|destruct (decide (u = w)) as [->|Huw]].
    + unfold loc. rewrite Et'. simpl. rewrite !bool_decide_eq_false_2; done.
    + unfold loc. rewrite Ew'. simpl.
      rewrite (bool_decide_eq_true_2 (Some w = Some w)), !bool_decide_eq_false_2; done.
    + apply (loc_frame s s' (Some w) (Some w)); [apply Hlo|by apply Hpc|done|done|done].
  - done.
  - done.
  - rewrite Hpd. change (count s') with (count s). rewrite Hct. unfold taken. cbn beta iota.
    by rewrite Ew', Ew.
  - rewrite Ew'. split; [done|]. by split.
  - by intros u v ?%Hg.
  - by intros u v x ?%Hg.
Qed.

(** L7 to MCrit and MCrit to U1: the assertion holds. *)
Lemma step_named tok s t p q : mutex_inv threads tok s → mpcs s t = p →
  (p = L7 ∧ q = MCrit) ∨ (p = MCrit ∧ q = U1) →
  owner s = Some t ∧ mutex_inv threads tok (at_pc t q s).
Proof.
  intros HI Et Hpq. pose proof (loc_at _ _ t HI) as Hl. pose proof (mi_wait _ _ _ HI) as Hw.
  assert (tok = Some t ∧ m_spin s ≠ Some t) as [-> Hs].
  { rewrite Et in Hl. destruct Hpq as [[-> _]|[-> _]]; simpl in Hl; by facts Hl. }
  cbn beta iota in Hw. rewrite Et in Hw. destruct Hw as (Ho & _).
  split; [by destruct Hpq as [[-> _]|[-> _]]|].
  assert (at_pc t q s = at_pc t q (set_spin (m_spin s) s)) as -> by by destruct s.
  destruct Hpq as [[-> ->]|[-> ->]]; eapply step_keep; try done; try (by left);
    by rewrite bool_decide_eq_false_2.
Qed.

Lemma step_take tok s t : mutex_inv threads tok s → mpcs s t = U3 → m_spin s = None →
  mutex_inv threads tok (at_pc t U4 (set_spin (Some t) s)).
Proof.
  intros HI Et Hs. pose proof (loc_at _ _ t HI) as Hl. rewrite Et in Hl. simpl in Hl. facts Hl. subst tok.
  eapply step_keep; try done; [by right|]. by rewrite bool_decide_eq_true_2.
Qed.

Lemma step_named_giver tok s t w p q o sp : mutex_inv threads tok s → mpcs s t = p →
  (p = U5 w ∧ q = U6 w ∧ o = Some w ∧ sp = m_spin s) ∨
  (p = U6 w ∧ q = U7 w ∧ o = owner s ∧ sp = None) →
  mutex_inv threads tok (at_pc t q (set_spin sp (set_owner o s))).
Proof.
  intros HI Et Hpq. pose proof (loc_at _ _ t HI) as Hl.
  pose proof (mi_gives _ _ _ HI t w) as Hg. rewrite Et in Hl, Hg.
  assert (m_spin s = Some t) as Hs.
  { destruct Hpq as [(-> & _)|(-> & _)]; simpl in Hl; by facts Hl. }
  destruct Hpq as [(-> & -> & -> & ->)|(-> & -> & -> & ->)].
  - eapply (step_give tok s t w (U5 w)); try done; [left; congruence|by left|].
    simpl. by rewrite bool_decide_eq_true_2.
  - destruct (Hg eq_refl) as (_ & _ & Ho).
    eapply (step_give tok s t w (U6 w)); try done; [by right|by right].
Qed.

Lemma mutex_step_inv tok s t : mutex_inv threads tok s → t ∈ threads →
  ∃ s' tok', mutex_step t s = Some s' ∧ mutex_inv threads tok' s'.
Proof.
  intros HI Ht. unfold mutex_step, mutex_lock_step, mutex_unlock_step.
  destruct (mpcs s t) as [| | | | | | | | | | | | | |w|w|w] eqn:Et; cbn [in_unlock].
  - destruct (m_spin s) eqn:Es; [by eauto|]. eexists _, tok. split; [done|]. by apply step_enter.
  - destruct (step_assert _ _ _ HI Et) as [Ho HI']. rewrite bool_decide_eq_false_2 by done. eauto.
  - destruct (step_sub _ _ _ HI Et) as [tok' HI']. eauto.
  - eexists _, tok. split; [done|]. by apply step_own.
  - eexists _, tok. split; [done|]. by apply step_leave.
  - eexists _, tok. split; [done|]. by apply step_push.
  - eexists _, tok. split; [done|]. by apply step_block.
  - eauto.
  - destruct (step_named _ _ _ _ MCrit HI Et) as [Ho HI']; [by left|].
    rewrite bool_decide_eq_true_2 by done. eauto.
  - destruct (step_named _ _ _ _ U1 HI Et) as [Ho HI']; [by right|].
    rewrite bool_decide_eq_true_2 by done. eauto.
  - eexists _, tok. split; [done|]. by apply step_rel.
  - destruct (step_add _ _ _ HI Et) as [tok' HI']. eauto.
  - destruct (m_spin s) eqn:Es; [by eauto|]. eexists _, tok. split; [done|]. by apply step_take.
  - destruct (step_pop _ _ _ HI Et) as (w & l & -> & HI'). eauto.
  - eexists _, tok. split; [done|].
    pose proof (step_named_giver _ _ _ w _ (U6 w) (Some w) (m_spin s) HI Et) as Hs.
    destruct s. apply Hs. by left.
  - eexists _, tok. split; [done|].
    pose proof (step_named_giver _ _ _ w _ (U7 w) (owner s) None HI Et) as Hs.
    destruct s. apply Hs. by right.
  - destruct (step_wake _ _ _ _ HI Et) as [Hw HI']. rewrite bool_decide_eq_true_2 by done. eauto.
Qed.

Lemma mutex_run_inv ts tok s : mutex_inv threads tok s → ts ⊆ threads →
  ∃ s' tok', mutex_run ts s = Some s' ∧ mutex_inv threads tok' s'.
Proof.
  revert tok s. induction ts as [|t ts IH]; intros tok s HI Hts; [by eexists _, _|].
  destruct (mutex_step_inv tok s t HI) as (s1 & tok1 & Hs & HI1); [apply Hts; left|].
  simpl. rewrite Hs. apply (IH _ _ HI1). intros x Hx. apply Hts. by right.
Qed.

Lemma mutex_init_inv : mutex_inv threads None mutex_init.
Proof. split; simpl; try done; [constructor|]. by intros x ?%elem_of_nil. Qed.

(** C18: The mutex is sound: whatever fewer than 2^30 threads do in any
    interleaving of the atomic accesses of [mutex_lock] and [mutex_unlock], no
    assertion of the two functions fails, [schd_run] is only called on a thread that
    is BLOCKED, the list of waiters is never popped when empty, at most one thread
    is between the return of [mutex_lock] and the end of its [owner = NULL], and
    that thread is the [owner]. When nobody has the mutex nobody waits for it. *)
Theorem mutex_sound ts : ts ⊆ threads → ∃ s, mutex_run ts mutex_init = Some s ∧
  (∀ t, mpcs s t = MCrit ∨ mpcs s t = U1 → owner s = Some t) ∧
  (∀ t u, mpcs s t = MCrit → mpcs s u = MCrit ∨ mpcs s u = U1 → t = u) ∧
  ((∀ t, mpcs s t = MIdle ∨ mpcs s t = LBlk) → ∀ t, mpcs s t = MIdle) ∧
  NoDup (wait_ls s) ∧ ∀ t, t ∈ wait_ls s → mpcs s t = LBlk ∨ mpcs s t = L6.
Proof.
  intros Hts. destruct (mutex_run_inv ts None _ mutex_init_inv Hts) as (s & tok & Hs & HI).
  exists s. split; [done|].
  assert (∀ t, mpcs s t = MCrit ∨ mpcs s t = U1 → owner s = Some t) as Hown.
  { intros t Ht. pose proof (loc_at _ _ t HI) as Hl. pose proof (mi_wait _ _ _ HI) as Hw.
    assert (tok = Some t) as ->.
    { destruct Ht as [Et|Et]; rewrite Et in Hl; simpl in Hl; by facts Hl. }
    destruct Hw as (Ho & _). by destruct Ht as [Et|Et]; rewrite Et in Ho. }
  split; [done|]. split.
  { intros t u Ht Hu. apply Hown in Hu. rewrite (Hown t) in Hu by by left. by simplify_eq. }
  split.
  { intros Hall. pose proof (mi_wait _ _ _ HI) as Hw. destruct tok as [x|].
    - exfalso. destruct Hw as (_ & _ & Hb). pose proof (loc_at _ _ x HI) as Hl.
      destruct (Hall x) as [Ex|Ex]; [rewrite Ex in Hl; simpl in Hl; by facts Hl|].
      destruct (Hb Ex) as [g Hg]. by destruct (Hall g) as [Eg|Eg]; rewrite Eg in Hg.
    - destruct Hw as (_ & Hwl & _). intros t. destruct (Hall t) as [Et|Et]; [done|].
      pose proof (loc_at _ _ t HI) as Hl. rewrite Et, Hwl in Hl. simpl in Hl. facts Hl. }
  split; [apply HI|]. intros t Ht. pose proof (loc_at _ _ t HI) as Hl.
  rewrite (bool_decide_eq_true_2 (t ∈ _)) in Hl by done.
  destruct (mpcs s t), (bool_decide (m_spin s = Some t)), (bool_decide (tok = Some t)); auto; done.
Qed.
End mutex.

(** Thread 1 locks; 2 finds it locked and sleeps; 1 unlocks, which gives 2 the
    mutex and wakes it. *)
Definition ex_mutex_ts : list Z :=
  [1; 1; 1; 1; 1; 2; 2; 2; 2; 2; 2; 1; 1; 1; 1; 1; 1; 1; 1; 2].

Lemma mutex_sound_witness :
  ((λ s, (mpcs s 1, mpcs s 2, owner s)) <$> mutex_run ex_mutex_ts mutex_init)
    = Some (MIdle, MCrit, Some 2) ∧
  ∃ s, mutex_run ex_mutex_ts mutex_init = Some s ∧
  (∀ t, mpcs s t = MCrit ∨ mpcs s t = U1 → owner s = Some t) ∧
  (∀ t u, mpcs s t = MCrit → mpcs s u = MCrit ∨ mpcs s u = U1 → t = u) ∧
  ((∀ t, mpcs s t = MIdle ∨ mpcs s t = LBlk) → ∀ t, mpcs s t = MIdle) ∧
  NoDup (wait_ls s) ∧ ∀ t, t ∈ wait_ls s → mpcs s t = LBlk ∨ mpcs s t = L6.
Proof.
  split; [by vm_compute|]. apply (mutex_sound [1; 2]); [by vm_compute|].
  unfold ex_mutex_ts. set_solver.
Defined.
