(* ===== verification/Schd.v ===== *)
(** * The scheduler: kernel/proc/thread/schd.c

    One queue of runnable threads under one lock, shared by the processors. The
    lock is taken by the code that decides to switch and released by the code that
    the switch resumes (the scheduler's loop, or the thread after its own
    [task_switch]), so that an operation here runs from taking the lock to the
    release on the other side of the switch. [cur] is what each processor runs:
    a thread, or its scheduler loop. [schd_ln] nodes are the sequence [runnable]. *)
From S2P Require Import Prelude.

Inductive T_STATE := UNSCHDED | RUNNABEL | RUNNING | SLEEPING | BLOCKED | KILLED.
#[export] Instance t_state_dec : EqDecision T_STATE.
Proof. solve_decision. Defined.

(** The fields of [struct thread_t] the scheduler uses; [t_pde] is the page
    directory of the thread's process. *)
Record thread_t := Thread { cpuid : Z; t_state : T_STATE; t_pde : Z }.

(** [struct schd_t], the threads, what each processor runs and its page directory. *)
Record schd_t := Schd {
  s_lock : bool; runnable : list Z; sleeping : list Z;
  threads : gmap Z thread_t; cur : gmap Z (option Z); cr3 : gmap Z Z }.

Section code.
(** The processor that executes. *)
Context (cpu : Z).
Abbreviation M := (Prelude.M schd_t).

Definition thread_at (t : Z) : M thread_t := s <- get ;; deref (threads s !! t).
Definition set_thread (t : Z) (x : thread_t) : M unit := modify (λ s,
  Schd (s_lock s) (runnable s) (sleeping s) (<[t := x]> (threads s)) (cur s) (cr3 s)).
Definition set_state (t : Z) (x : T_STATE) : M unit :=
  th <- thread_at t ;; set_thread t (Thread (cpuid th) x (t_pde th)).
Definition set_lists (l1 l2 : list Z) : M unit := modify (λ s,
  Schd (s_lock s) l1 l2 (threads s) (cur s) (cr3 s)).
Definition spin_lock : M unit := s <- get ;;
  if s_lock s then hang
  else put (Schd true (runnable s) (sleeping s) (threads s) (cur s) (cr3 s)).
Definition spin_unlock : M unit := modify (λ s,
  Schd false (runnable s) (sleeping s) (threads s) (cur s) (cr3 s)).
Definition cpu_set_task (x : option Z) : M unit := modify (λ s,
  Schd (s_lock s) (runnable s) (sleeping s) (threads s) (<[cpu := x]> (cur s)) (cr3 s)).
(** [proc_switch] loads the page directory of the process. *)
Definition proc_switch (pde : Z) : M unit := modify (λ s,
  Schd (s_lock s) (runnable s) (sleeping s) (threads s) (cur s) (<[cpu := pde]> (cr3 s))).
(** On a processor in its scheduler loop the task is in no thread. *)
Definition thread_now : M Z := s <- get ;; x <- deref (cur s !! cpu) ;; deref x.

Definition schd_init : M unit := spin_unlock ;;; set_lists [] [].

Definition set_runnable (t : Z) : M unit :=
  set_state t RUNNABEL ;;;
  s <- get ;; set_lists (runnable s ++ [t]) (sleeping s).

Definition schd_run (t : Z) : M Z :=
  spin_lock ;;;
  th <- thread_at t ;;
  (if bool_decide (t_state th = RUNNABEL) || bool_decide (t_state th = RUNNING) ||
      bool_decide (t_state th = SLEEPING) || bool_decide (t_state th = KILLED)
   then panic
   else if bool_decide (t_state th = UNSCHDED) || bool_decide (t_state th = BLOCKED)
   then set_runnable t else panic) ;;;
  spin_unlock ;;;
  ret E_OK.

(** The two switches to the processor's scheduler loop: the code between the
    stacks, then the loop's [spin_unlock]. *)
Definition schd_kill_mid_func : M unit := cpu_set_task None.
Definition schd_block_mid_func : M unit := cpu_set_task None.

(** [list_delete(&thread->schd_ln)]: out of the list it is in. *)
Definition list_delete (t : Z) : M unit :=
  s <- get ;; set_lists (filter (λ x, x ≠ t) (runnable s)) (filter (λ x, x ≠ t) (sleeping s)).

(** [None]: the caller was switched away and does not continue. *)
Definition schd_kill (t : Z) : M (option Z) :=
  spin_lock ;;;
  th <- thread_at t ;;
  match t_state th with
  | KILLED => panic
  | RUNNABEL | SLEEPING =>
      set_state t KILLED ;;; list_delete t ;;; spin_unlock ;;; ret (Some E_OK)
  | RUNNING =>
      now <- thread_now ;;
      assert_ (t =? now) ;;;
      set_state t KILLED ;;; schd_kill_mid_func ;;; spin_unlock ;;; ret None
  | UNSCHDED => panic
  | BLOCKED => panic
  end.

(** The bodies of these two are commented out in the source. *)
Definition schd_sleep (t wake_sig : Z) : M Z := ret E_OK.
Definition schd_wake (wake_sig : Z) : M Z := ret E_OK.

(** Up to the switch away; [unlock] is [spin_unlock(lock)] of the caller's lock.
    The thread returns from it when the scheduler picks it again. *)
Definition schd_block (t : Z) (unlock : M unit) : M unit :=
  now <- thread_now ;;
  assert_ (t =? now) ;;;
  th <- thread_at t ;;
  assert_ (bool_decide (t_state th = RUNNING)) ;;;
  spin_lock ;;;
  set_state t BLOCKED ;;;
  unlock ;;;
  schd_block_mid_func ;;;
  spin_unlock.

(** The code also asserts that interrupts are off; their state is in Cpu and not part of
    the scheduler's. *)
Definition schd_schdule_mid_func (t : Z) : M unit :=
  set_state t RUNNING ;;;
  th <- thread_at t ;;
  proc_switch (t_pde th) ;;;
  set_thread t (Thread cpu (t_state th) (t_pde th)) ;;;
  cpu_set_task (Some t).

(** One turn of the loop of [schd_schdule]; the thread picked releases the lock. *)
Definition schd_schdule : M (option Z) :=
  spin_lock ;;;
  s <- get ;;
  match runnable s with
  | t :: l =>
      set_lists l (sleeping s) ;;;
      schd_schdule_mid_func t ;;;
      spin_unlock ;;;
      ret (Some t)
  | [] => spin_unlock ;;; ret None
  end.

Definition schd_intr_mid_func : M unit :=
  t <- thread_now ;;
  spin_lock ;;;
  th <- thread_at t ;;
  assert_ (bool_decide (t_state th = RUNNING)) ;;;
  set_runnable t ;;;
  cpu_set_task None.

(** The timer. *)
Definition schd_intr : M unit := schd_intr_mid_func ;;; spin_unlock.

(** [thread_new] and the assignment of the process, as the scheduler sees them. *)
Definition thread_new (t pde : Z) : M unit := set_thread t (Thread 0 UNSCHDED pde).
End code.

(** ** The invariant *)

(** The queue is the RUNNABEL threads, each once; a processor runs a thread exactly
    when the thread is RUNNING there, with its process's page directory loaded. *)
Record schd_inv (s : schd_t) : Prop := {
  si_lock : s_lock s = false;
  si_nodup : NoDup (runnable s);
  si_queue : ∀ t, t ∈ runnable s ↔ ∃ th, threads s !! t = Some th ∧ t_state th = RUNNABEL;
  si_asleep : sleeping s = [];
  si_cur : ∀ c t, cur s !! c = Some (Some t) ↔
    ∃ th, threads s !! t = Some th ∧ t_state th = RUNNING ∧ cpuid th = c;
  si_pde : ∀ c t th, cur s !! c = Some (Some t) → threads s !! t = Some th →
    cr3 s !! c = Some (t_pde th);
  si_sleep : ∀ t th, threads s !! t = Some th → t_state th ≠ SLEEPING;
}.

(** What each operation leaves. *)
Definition with_state (th : thread_t) (x : T_STATE) := Thread (cpuid th) x (t_pde th).
Definition queued (t : Z) (th : thread_t) (s : schd_t) : schd_t :=
  Schd false (runnable s ++ [t]) (sleeping s) (<[t := with_state th RUNNABEL]> (threads s))
    (cur s) (cr3 s).
(** [t] leaves processor [c] for its scheduler loop. *)
Definition off (c t : Z) (th : thread_t) (x : T_STATE) (l : list Z) (s : schd_t) : schd_t :=
  Schd false l (sleeping s) (<[t := with_state th x]> (threads s)) (<[c := None]> (cur s)) (cr3 s).
Definition on (c t : Z) (th : thread_t) (l : list Z) (s : schd_t) : schd_t :=
  Schd false l (sleeping s) (<[t := Thread c RUNNING (t_pde th)]> (threads s))
    (<[c := Some t]> (cur s)) (<[c := t_pde th]> (cr3 s)).

Definition run_result (t : Z) (s : schd_t) : outcome schd_t Z :=
  match threads s !! t with
  | Some th => if bool_decide (t_state th = UNSCHDED) || bool_decide (t_state th = BLOCKED)
               then Ret E_OK (queued t th s) else Panic
  | None => Fault
  end.

Lemma run_schd_run t s : schd_inv s → schd_run t s = run_result t s.
Proof.
  intros HI. destruct s as [lk q sl ths cu pd]. pose proof (si_lock _ HI) as Hl. simpl in Hl. subst lk.
  unfold schd_run, run_result, spin_lock, thread_at, bind, get, put, deref. simpl.
  destruct (ths !! t) as [th|] eqn:Et; [|done]. simpl.
  destruct (t_state th) eqn:Es; simpl; try done;
    unfold set_runnable, set_state, thread_at, set_thread, set_lists, spin_unlock, modify, bind, get,
      deref; simpl; by rewrite Et.
Qed.

Definition kill_result (c t : Z) (s : schd_t) : outcome schd_t (option Z) :=
  match threads s !! t with
  | Some th =>
      match t_state th with
      | RUNNABEL => Ret (Some E_OK) (Schd false (filter (λ x, x ≠ t) (runnable s)) []
          (<[t := with_state th KILLED]> (threads s)) (cur s) (cr3 s))
      | RUNNING => match cur s !! c with
                   | Some (Some u) => if t =? u then Ret None (off c t th KILLED (runnable s) s) else Panic
                   | _ => Fault
                   end
      | _ => Panic
      end
  | None => Fault
  end.

Lemma run_schd_kill c t s : schd_inv s → schd_kill c t s = kill_result c t s.
Proof.
  intros HI. pose proof (si_sleep _ HI t) as Hsl. pose proof (si_asleep _ HI) as Ha.
  destruct s as [lk q sl ths cu pd]. pose proof (si_lock _ HI) as Hl. simpl in *. subst lk sl.
  unfold schd_kill, kill_result, spin_lock, thread_at, bind, get, put, deref. simpl.
  destruct (ths !! t) as [th|] eqn:Et; [|done]. specialize (Hsl th eq_refl). simpl.
  destruct (t_state th) eqn:Es; simpl; try done;
    unfold thread_now, set_state, thread_at, set_thread, list_delete, set_lists, schd_kill_mid_func,
      cpu_set_task, spin_unlock, modify, bind, get, deref; simpl; try (by rewrite Et).
  destruct (cu !! c) as [[u|]|]; simpl; try done. destruct (t =? u); simpl; [|done]. by rewrite Et.
Qed.

(** The thread a processor runs blocks; it is RUNNING, so the assertions hold. *)
Lemma run_schd_block c t s : schd_inv s → cur s !! c = Some (Some t) →
  ∃ th, threads s !! t = Some th ∧ t_state th = RUNNING ∧ cpuid th = c ∧
    schd_block c t (ret tt) s = Ret tt (off c t th BLOCKED (runnable s) s).
Proof.
  intros HI Hc. pose proof Hc as (th & Ht & Hs & Hcp)%(si_cur _ HI).
  exists th. split_and!; [done..|].
  destruct s as [lk q sl ths cu pd]. pose proof (si_lock _ HI) as Hl. simpl in *. subst lk.
  unfold schd_block, thread_now, thread_at, spin_lock, set_state, set_thread, schd_block_mid_func,
    thread_at, cpu_set_task, spin_unlock, modify, bind, get, put, deref. simpl.
  rewrite Hc. simpl. rewrite Z.eqb_refl. simpl. rewrite Ht. simpl.
  rewrite bool_decide_eq_true_2 by done. simpl. by rewrite Ht.
Qed.

Lemma run_schd_intr c t s : schd_inv s → cur s !! c = Some (Some t) →
  ∃ th, threads s !! t = Some th ∧ t_state th = RUNNING ∧ cpuid th = c ∧
    schd_intr c s = Ret tt (off c t th RUNNABEL (runnable s ++ [t]) s).
Proof.
  intros HI Hc. pose proof Hc as (th & Ht & Hs & Hcp)%(si_cur _ HI).
  exists th. split_and!; [done..|].
  destruct s as [lk q sl ths cu pd]. pose proof (si_lock _ HI) as Hl. simpl in *. subst lk.
  unfold schd_intr, schd_intr_mid_func, thread_now, thread_at, spin_lock, set_runnable, set_state,
    set_thread, set_lists, thread_at, cpu_set_task, spin_unlock, modify, bind, get, put, deref. simpl.
  rewrite Hc. simpl. rewrite Ht. simpl.
  rewrite bool_decide_eq_true_2 by done. simpl. by rewrite Ht.
Qed.

Lemma run_schd_schdule c s : schd_inv s →
  match runnable s with
  | [] => schd_schdule c s = Ret None s
  | t :: l => ∃ th, threads s !! t = Some th ∧ t_state th = RUNNABEL ∧
      schd_schdule c s = Ret (Some t) (on c t th l s)
  end.
Proof.
  intros HI. destruct (runnable s) as [|t l] eqn:Eq.
  - destruct s as [lk q sl ths cu pd]. pose proof (si_lock _ HI) as Hl. simpl in *. by subst.
  - assert (t ∈ runnable s) as (th & Ht & Hs)%(si_queue _ HI) by (rewrite Eq; left).
    exists th. split_and!; [done..|].
    destruct s as [lk q sl ths cu pd]. pose proof (si_lock _ HI) as Hl. simpl in *. subst lk q.
    unfold schd_schdule, schd_schdule_mid_func, thread_at, spin_lock, set_state, set_thread,
      set_lists, thread_at, cpu_set_task, proc_switch, spin_unlock, modify, bind, get, put, deref.
    simpl. rewrite Ht. simpl. rewrite !lookup_insert_eq. simpl. unfold ret, on. simpl.
    by rewrite insert_insert_eq.
Qed.

(** ** The operations keep the invariant *)
Lemma inv_queued t th s : schd_inv s → threads s !! t = Some th →
  t_state th = UNSCHDED ∨ t_state th = BLOCKED → schd_inv (queued t th s).
Proof.
  intros [Hl Hnd Hq Ha Hc Hp Hsl] Ht Hs.
  assert (t ∉ runnable s) as Htq.
  { rewrite Hq. intros (x & ? & ?). simplify_eq. destruct Hs; congruence. }
  split; simpl; try done.
  - apply NoDup_app. split_and!; [done| |apply NoDup_singleton].
    by intros x Hx ->%list_elem_of_singleton.
  - intros u. rewrite elem_of_app, list_elem_of_singleton, Hq. destruct (decide (u = t)) as [->|Hu].
    + rewrite lookup_insert_eq. split; [eauto|by right].
    + rewrite lookup_insert_ne by done. split; [by intros [?|?]|by left].
  - intros c u. rewrite Hc. destruct (decide (u = t)) as [->|Hu].
    + rewrite lookup_insert_eq. split; intros (x & Hx & Hr & _); simplify_eq/=.
      destruct Hs; congruence.
    + by rewrite lookup_insert_ne.
  - intros c u x Hcu. destruct (decide (u = t)) as [->|Hu].
    + apply Hc in Hcu as (y & ? & ? & _). simplify_eq. destruct Hs; congruence.
    + rewrite lookup_insert_ne by done. by apply Hp.
  - intros u x. destruct (decide (u = t)) as [->|Hu].
    + rewrite lookup_insert_eq. by intros [= <-].
    + rewrite lookup_insert_ne by done. by apply Hsl.
Qed.

(** A thread leaves a processor: to the queue, BLOCKED or KILLED. *)
Lemma inv_off c t th x l s : schd_inv s → cur s !! c = Some (Some t) →
  threads s !! t = Some th → t_state th = RUNNING → cpuid th = c →
  (x = RUNNABEL ∧ l = runnable s ++ [t]) ∨ ((x = BLOCKED ∨ x = KILLED) ∧ l = runnable s) →
  schd_inv (off c t th x l s).
Proof.
  intros [Hl Hnd Hq Ha Hc Hp Hsl] Hct Ht Hs Hcp Hx.
  assert (t ∉ runnable s) as Htq.
  { rewrite Hq. intros (y & ? & ?). simplify_eq. congruence. }
  assert (NoDup l ∧ ∀ u, u ∈ l ↔ u ∈ runnable s ∨ (u = t ∧ x = RUNNABEL)) as [Hndl Hlx].
  { destruct Hx as [[-> ->]|[Hx ->]].
    - split.
      + apply NoDup_app. split_and!; [done| |apply NoDup_singleton].
        by intros y Hy ->%list_elem_of_singleton.
      + intros u. rewrite elem_of_app, list_elem_of_singleton. tauto.
    - split; [done|]. intros u. split; [by left|]. intros [?|[_ ->]]; [done|by destruct Hx]. }
  assert (x ≠ RUNNING ∧ x ≠ SLEEPING) as [Hx1 Hx2] by (by destruct Hx as [[-> _]|[[-> | ->] _]]).
  split; simpl; try done.
  - intros u. rewrite Hlx, Hq. destruct (decide (u = t)) as [->|Hu].
    + rewrite lookup_insert_eq. split.
      * intros [(y & ? & ?)|[_ ->]]; [simplify_eq; congruence|eauto].
      * intros (y & Hy & Hr). simplify_eq/=. by right.
    + rewrite lookup_insert_ne by done. split; [by intros [?|[? _]]|by left].
  - intros d u. destruct (decide (u = t)) as [->|Hu].
    + rewrite lookup_insert_eq. split.
      * destruct (decide (d = c)) as [->|Hd]; [by rewrite lookup_insert_eq|].
        rewrite lookup_insert_ne by done. rewrite Hc. intros (y & ? & _ & Hy). congruence.
      * intros (y & Hy & Hr & _). by simplify_eq/=.
    + rewrite (lookup_insert_ne _ t u) by done. destruct (decide (d = c)) as [->|Hd].
      * rewrite lookup_insert_eq. split; [done|]. intros Hy. apply Hc in Hy. congruence.
      * rewrite lookup_insert_ne by done. apply Hc.
  - intros d u y. destruct (decide (d = c)) as [->|Hd]; [by rewrite lookup_insert_eq|].
    rewrite lookup_insert_ne by done. intros Hd'. destruct (decide (u = t)) as [->|Hu].
    + apply Hc in Hd' as (z & ? & _ & ?). congruence.
    + rewrite lookup_insert_ne by done. by apply Hp.
  - intros u y. destruct (decide (u = t)) as [->|Hu].
    + rewrite lookup_insert_eq. by intros [= <-].
    + rewrite lookup_insert_ne by done. by apply Hsl.
Qed.

Lemma inv_on c t th l s : schd_inv s → cur s !! c = Some None → runnable s = t :: l →
  threads s !! t = Some th → t_state th = RUNNABEL → schd_inv (on c t th l s).
Proof.
  intros [Hl Hnd Hq Ha Hc Hp Hsl] Hct Hr Ht Hs.
  rewrite Hr in Hnd. apply NoDup_cons in Hnd as [Htl Hnd].
  split; simpl; try done.
  - intros u. destruct (decide (u = t)) as [->|Hu].
    + rewrite lookup_insert_eq. split; [done|]. intros (y & Hy & Hyr). by simplify_eq/=.
    + rewrite lookup_insert_ne by done. rewrite <- Hq, Hr, elem_of_cons.
      split; [by right|by intros [?|?]].
  - intros d u. destruct (decide (u = t)) as [->|Hu].
    + rewrite lookup_insert_eq. destruct (decide (d = c)) as [->|Hd].
      * rewrite lookup_insert_eq. split; [eauto|done].
      * rewrite lookup_insert_ne by done. split.
        -- intros (y & ? & ? & _)%Hc. simplify_eq. congruence.
        -- intros (y & Hy & _ & Hyc). by simplify_eq/=.
    + rewrite (lookup_insert_ne _ t u) by done. destruct (decide (d = c)) as [->|Hd].
      * rewrite lookup_insert_eq. split; [congruence|]. intros Hy. apply Hc in Hy. congruence.
      * rewrite lookup_insert_ne by done. apply Hc.
  - intros d u y. destruct (decide (d = c)) as [->|Hd].
    + rewrite !lookup_insert_eq. intros [= <-]. rewrite lookup_insert_eq. by intros [= <-].
    + rewrite !(lookup_insert_ne _ c d) by done. intros Hd'.
      destruct (decide (u = t)) as [->|Hu].
      * apply Hc in Hd' as (z & ? & ? & _). congruence.
      * rewrite lookup_insert_ne by done. by apply Hp.
  - intros u y. destruct (decide (u = t)) as [->|Hu].
    + rewrite lookup_insert_eq. by intros [= <-].
    + rewrite lookup_insert_ne by done. by apply Hsl.
Qed.

Lemma inv_kill_queued t th s : schd_inv s → threads s !! t = Some th → t_state th = RUNNABEL →
  schd_inv (Schd false (filter (λ x, x ≠ t) (runnable s)) []
    (<[t := with_state th KILLED]> (threads s)) (cur s) (cr3 s)).
Proof.
  intros [Hl Hnd Hq Ha Hc Hp Hsl] Ht Hs. split; simpl; try done.
  - by apply NoDup_filter.
  - intros u. rewrite list_elem_of_filter, Hq. destruct (decide (u = t)) as [->|Hu].
    + rewrite lookup_insert_eq. split; [by intros [? _]|]. intros (y & Hy & Hr). by simplify_eq/=.
    + rewrite lookup_insert_ne by done. tauto.
  - intros c u. rewrite Hc. destruct (decide (u = t)) as [->|Hu].
    + rewrite lookup_insert_eq. split; intros (x & Hx & Hr & _); simplify_eq/=. congruence.
    + by rewrite lookup_insert_ne.
  - intros c u x Hcu. destruct (decide (u = t)) as [->|Hu].
    + apply Hc in Hcu as (y & ? & ? & _). simplify_eq. congruence.
    + rewrite lookup_insert_ne by done. by apply Hp.
  - intros u x. destruct (decide (u = t)) as [->|Hu].
    + rewrite lookup_insert_eq. by intros [= <-].
    + rewrite lookup_insert_ne by done. by apply Hsl.
Qed.

Lemma inv_new t pde s : schd_inv s → threads s !! t = None →
  schd_inv (Schd (s_lock s) (runnable s) (sleeping s) (<[t := Thread 0 UNSCHDED pde]> (threads s))
    (cur s) (cr3 s)).
Proof.
  intros [Hl Hnd Hq Ha Hc Hp Hsl] Ht. split; simpl; try done.
  - intros u. rewrite Hq. destruct (decide (u = t)) as [->|Hu].
    + rewrite lookup_insert_eq. split; intros (y & Hy & Hr); simplify_eq/=.
    + by rewrite lookup_insert_ne.
  - intros c u. rewrite Hc. destruct (decide (u = t)) as [->|Hu].
    + rewrite lookup_insert_eq. split; intros (x & Hx & Hr & _); simplify_eq/=.
    + by rewrite lookup_insert_ne.
  - intros c u x Hcu. destruct (decide (u = t)) as [->|Hu].
    + apply Hc in Hcu as (y & ? & ? & _). simplify_eq.
    + rewrite lookup_insert_ne by done. by apply Hp.
  - intros u x. destruct (decide (u = t)) as [->|Hu].
    + rewrite lookup_insert_eq. by intros [= <-].
    + rewrite lookup_insert_ne by done. by apply Hsl.
Qed.

(** ** Any sequence of scheduling events, on any processors *)
Inductive sev :=
  | ENew (t pde : Z)    (** a new thread, UNSCHDED *)
  | ERun (t : Z)        (** [schd_run(t)], by anybody *)
  | EKill (c t : Z)     (** [schd_kill(t)] by the thread on processor [c] *)
  | EBlock (c : Z)      (** the thread on [c] blocks *)
  | ETimer (c : Z)      (** the timer interrupts the thread on [c] *)
  | ESched (c : Z).     (** a turn of the scheduler loop on [c] *)

(** Blocking and the timer concern a processor that runs a thread, a turn of the
    loop one that runs none. *)
Definition sexec (e : sev) (s : schd_t) : outcome schd_t unit :=
  match e with
  | ENew t pde => match threads s !! t with None => thread_new t pde s | Some _ => Fault end
  | ERun t => (schd_run t ;;; ret tt) s
  | EKill c t => (schd_kill c t ;;; ret tt) s
  | EBlock c => match cur s !! c with Some (Some t) => schd_block c t (ret tt) s | _ => Fault end
  | ETimer c => match cur s !! c with Some (Some _) => schd_intr c s | _ => Fault end
  | ESched c => match cur s !! c with Some None => (schd_schdule c ;;; ret tt) s | _ => Fault end
  end.

Definition srun (es : list sev) : Prelude.M schd_t unit :=
  fold_right (λ e m, sexec e ;;; m) (ret tt) es.

Definition schd_start (cpus : list Z) : schd_t :=
  Schd false [] [] ∅ (list_to_map ((λ c, (c, None)) <$> cpus)) ∅.

Lemma start_inv cpus : schd_inv (schd_start cpus).
Proof.
  split; simpl; try done.
  - constructor.
  - intros t. rewrite lookup_empty. split; [by intros ?%elem_of_nil|by intros (? & ? & _)].
  - intros c t. rewrite lookup_empty. split; [|by intros (? & ? & _)].
    intros Hc%list_to_map_lookup_2%list_elem_of_fmap || intros Hc%elem_of_list_to_map_2%list_elem_of_fmap.
    destruct Hc as (? & ? & _). by simplify_eq.
Qed.

Lemma sexec_inv e s : schd_inv s → wlp (sexec e) (λ _ s', schd_inv s') s.
Proof.
  intros HI. unfold wlp. destruct e as [t pde|t|c t|c|c|c]; simpl.
  - destruct (threads s !! t) eqn:Et; [done|]. by apply inv_new.
  - unfold bind. rewrite run_schd_run by done. unfold run_result.
    destruct (threads s !! t) as [th|] eqn:Et; [|done].
    destruct (t_state th) eqn:Es; simpl; try done; by (apply inv_queued; auto).
  - unfold bind. rewrite run_schd_kill by done. unfold kill_result.
    destruct (threads s !! t) as [th|] eqn:Et; [|done].
    destruct (t_state th) eqn:Es; try done; simpl.
    + by apply inv_kill_queued.
    + destruct (cur s !! c) as [[u|]|] eqn:Ec; try done. destruct (t =? u) eqn:Eu; [|done].
      apply Z.eqb_eq in Eu as <-. pose proof Ec as (x & ? & ? & ?)%(si_cur _ HI). simplify_eq.
      apply inv_off; auto.
  - destruct (cur s !! c) as [[t|]|] eqn:Ec; try done.
    destruct (run_schd_block c t s HI Ec) as (th & Ht & Hs & Hc & ->). apply inv_off; auto.
  - destruct (cur s !! c) as [[t|]|] eqn:Ec; try done.
    destruct (run_schd_intr c t s HI Ec) as (th & Ht & Hs & Hc & ->). apply inv_off; auto.
  - destruct (cur s !! c) as [[t|]|] eqn:Ec; try done. unfold bind.
    pose proof (run_schd_schdule c s HI) as Hr. destruct (runnable s) as [|t l] eqn:Eq.
    + by rewrite Hr.
    + destruct Hr as (th & Ht & Hs & ->). simpl. by apply inv_on.
Qed.

Lemma srun_inv es s : schd_inv s → wlp (srun es) (λ _ s', schd_inv s') s.
Proof.
  revert s. induction es as [|e es IH]; intros s HI; [done|].
  apply wlp_bind. eapply wlp_mono; [by apply sexec_inv|]. intros [] s' HI'. by apply IH.
Qed.

(** C22: The scheduler's bookkeeping is exact: after any sequence of thread
    creations, wake-ups, blocks, timer interrupts, kills and scheduling turns on any
    processors, the lock is free, the queue holds exactly the RUNNABEL threads and
    each once, and a processor runs a thread exactly when the thread is RUNNING with
    that [cpuid], so that no thread runs on two processors; the page directory in
    force is the one of the running thread's process. *)
Theorem schd_consistent cpus es : wlp (srun es) (λ _ s', schd_inv s' ∧
  ∀ c d t, cur s' !! c = Some (Some t) → cur s' !! d = Some (Some t) → c = d) (schd_start cpus).
Proof.
  eapply wlp_mono; [apply srun_inv, start_inv|]. intros [] s' HI. split; [done|].
  intros c d t (x & Hx & _ & Hc)%(si_cur _ HI) (y & Hy & _ & Hd)%(si_cur _ HI). congruence.
Qed.

(** [schd_run] makes an UNSCHDED or a BLOCKED thread RUNNABEL, at the back of
    the queue, and stops the kernel on a thread in any other state; [schd_kill]
    takes a RUNNABEL thread out of the queue, takes the caller itself off its
    processor, and stops the kernel on a thread that is BLOCKED, UNSCHDED, KILLED
    or running on another processor. *)
Theorem schd_run_kill_correct s c t : schd_inv s →
  schd_run t s = run_result t s ∧ schd_kill c t s = kill_result c t s ∧
  (∀ th, threads s !! t = Some th → t_state th = BLOCKED →
     schd_run t s = Ret E_OK (queued t th s) ∧ schd_kill c t s = Panic).
Proof.
  intros HI. split; [by apply run_schd_run|]. split; [by apply run_schd_kill|].
  intros th Ht Hs. rewrite run_schd_run, run_schd_kill by done.
  unfold run_result, kill_result. by rewrite Ht, Hs.
Qed.

(** ** Fairness *)

(** How often a processor takes a thread from the queue. *)
Fixpoint picks (es : list sev) (s : schd_t) : nat :=
  match es with
  | [] => 0
  | e :: es =>
      (match e with ESched _ => 1 | _ => 0 end) +
      match sexec e s with Ret _ s' => picks es s' | _ => 0 end
  end.

Definition kills (t : Z) (es : list sev) : Prop := ∃ c, EKill c t ∈ es.

(** A thread's place in the queue only gets better. *)
Lemma place_step e s s' t i : schd_inv s → runnable s !! i = Some t → sexec e s = Ret tt s' →
  (∀ c, e ≠ EKill c t) →
  match e with
  | ESched c => match i with
                | O => cur s' !! c = Some (Some t)
                | S j => runnable s' !! j = Some t
                end
  | _ => ∃ j, (j ≤ i)%nat ∧ runnable s' !! j = Some t
  end.
Proof.
  intros HI Hi He Hk. destruct e as [u pde|u|c u|c|c|c]; simpl in He.
  - destruct (threads s !! u); [done|]. unfold thread_new, set_thread, modify in He.
    simplify_eq/=. eauto.
  - unfold bind in He. rewrite run_schd_run in He by done. unfold run_result in He.
    destruct (threads s !! u) as [th|]; [|done]. destruct (_ || _); [|done]. simpl in He.
    unfold ret in He. simplify_eq/=. exists i. split; [done|]. by apply lookup_app_l_Some.
  - unfold bind in He. rewrite run_schd_kill in He by done. unfold kill_result in He.
    destruct (threads s !! u) as [th|]; [|done]. destruct (t_state th); try done; simpl in He.
    + unfold ret in He. simplify_eq/=. assert (t ≠ u) as Htu by (intros ->; by eapply Hk).
      apply list_elem_of_split_length in Hi as (l1 & l2 & Hl & Hil). rewrite Hl, filter_app.
      rewrite filter_cons_True by done. exists (length (filter (λ x, x ≠ u) l1)).
      split; [rewrite Hil; apply length_filter|].
      rewrite lookup_app_r, Nat.sub_diag by done. done.
    + destruct (cur s !! c) as [[v|]|]; try done. destruct (u =? v); [|done].
      unfold ret in He. simplify_eq/=. eauto.
  - destruct (cur s !! c) as [[u|]|] eqn:Ec; try done.
    destruct (run_schd_block c u s HI Ec) as (th & _ & _ & _ & Hr). rewrite Hr in He.
    simplify_eq/=. eauto.
  - destruct (cur s !! c) as [[u|]|] eqn:Ec; try done.
    destruct (run_schd_intr c u s HI Ec) as (th & _ & _ & _ & Hr). rewrite Hr in He.
    simplify_eq/=. exists i. split; [done|]. by apply lookup_app_l_Some.
  - destruct (cur s !! c) as [[u|]|] eqn:Ec; try done. unfold bind in He.
    pose proof (run_schd_schdule c s HI) as Hr. destruct (runnable s) as [|u l] eqn:Eq; [done|].
    destruct Hr as (th & _ & _ & Hr). rewrite Hr in He. unfold ret in He. simplify_eq/=.
    destruct i as [|j]; simpl in *; [|done]. simplify_eq. by rewrite lookup_insert_eq.
Qed.

(** C23: Nobody waits for ever: a RUNNABEL thread that is at place [i] of the queue
    and is not killed runs by the time the processors have taken a thread from the
    queue [i + 1] times, whatever else happens in between. *)
Theorem schd_fair es s t i : schd_inv s → runnable s !! i = Some t → ¬ kills t es →
  wlp (srun es) (λ _ _, (i < picks es s)%nat →
    ∃ es1 c es2 s1, es = es1 ++ ESched c :: es2 ∧ srun (es1 ++ [ESched c]) s = Ret tt s1 ∧
      cur s1 !! c = Some (Some t) ∧ (picks (es1 ++ [ESched c]) s ≤ i + 1)%nat) s.
Proof.
  revert s i. induction es as [|e es IH]; intros s i HI Hi Hk; [unfold wlp; simpl; lia|].
  apply wlp_bind. unfold wlp at 1. destruct (sexec e s) as [[] s1| | |] eqn:Ee; try done.
  assert (∀ c, e ≠ EKill c t) as Hke by (intros c ->; apply Hk; exists c; left).
  pose proof (place_step e s s1 t i HI Hi Ee Hke) as Hp.
  pose proof (sexec_inv e s HI) as HI1. unfold wlp in HI1. rewrite Ee in HI1.
  assert (∀ j, runnable s1 !! j = Some t → ((match e with ESched _ => 1 | _ => 0 end) + j ≤ i)%nat →
    wlp (srun es) (λ _ _, (i < picks (e :: es) s)%nat →
      ∃ es1 c es2 s1, e :: es = es1 ++ ESched c :: es2 ∧ srun (es1 ++ [ESched c]) s = Ret tt s1 ∧
        cur s1 !! c = Some (Some t) ∧ (picks (es1 ++ [ESched c]) s ≤ i + 1)%nat) s1) as Hgo.
  { intros j Hj Hle. eapply wlp_mono.
    { apply (IH s1 j HI1 Hj). intros [c Hc]. apply Hk. exists c. by right. }
    intros [] s2 Hi2 Hlt. cbn [picks] in Hlt. rewrite Ee in Hlt.
    destruct Hi2 as (es1 & c & es2 & s3 & -> & Hr & Hc & Hle2); [destruct e; lia|].
    exists (e :: es1), c, es2, s3. split; [done|]. split.
    { cbn [app srun fold_right]. unfold bind at 1. rewrite Ee. exact Hr. }
    split; [done|]. cbn [app picks]. rewrite Ee. destruct e; lia. }
  destruct e as [u pde|u|c u|c|c|c]; try (destruct Hp as (j & Hj & Hp); by apply (Hgo j)).
  destruct i as [|i]; [|apply (Hgo i Hp); lia].
  apply wlp_always. intros _ _ _. exists [], c, es, s1.
  split; [done|]. split; [|split; [done|]].
  - cbn [app srun fold_right]. unfold bind at 1. by rewrite Ee.
  - cbn [app picks]. rewrite Ee. lia.
Qed.

(** Two processors, three threads. *)
Definition ex_events : list sev :=
  [ENew 100 8; ENew 200 8; ENew 300 9; ERun 100; ERun 200; ERun 300; ESched 0; ESched 1;
   ETimer 0; EBlock 1; ERun 200; ESched 1].

Lemma schd_consistent_witness :
  (match srun ex_events (schd_start [0; 1]) with
   | Ret _ s => Some (runnable s, cur s !! 0, cur s !! 1, cr3 s !! 1) | _ => None end)
    = Some ([100; 200], Some None, Some (Some 300), Some 9) ∧
  wlp (srun ex_events) (λ _ s', schd_inv s' ∧
    ∀ c d t, cur s' !! c = Some (Some t) → cur s' !! d = Some (Some t) → c = d) (schd_start [0; 1]).
Proof. split; [by vm_compute|]. apply schd_consistent. Defined.

Definition ex_schd : schd_t :=
  match srun ex_events (schd_start [0; 1]) with Ret _ s => s | _ => schd_start [] end.

Lemma ex_schd_inv : schd_inv ex_schd.
Proof.
  pose proof (srun_inv ex_events _ (start_inv [0; 1])) as H. unfold wlp in H.
  unfold ex_schd. destruct (srun _ _) eqn:E; [done|by vm_compute in E..].
Qed.

(** Killing a thread that waits stops the kernel. *)
Lemma schd_run_kill_correct_witness :
  schd_kill 1 100 ex_schd = kill_result 1 100 ex_schd ∧
  match srun [EBlock 1; ESched 1; EKill 1 300] ex_schd with Panic => True | _ => False end.
Proof.
  split; [apply (schd_run_kill_correct ex_schd 1 100 ex_schd_inv)|by vm_compute].
Defined.

Lemma schd_fair_witness :
  (1 < picks [ESched 0; ETimer 0; ETimer 1; ESched 1] ex_schd)%nat ∧
  wlp (srun [ESched 0; ETimer 0; ETimer 1; ESched 1])
    (λ _ _, (1 < picks [ESched 0; ETimer 0; ETimer 1; ESched 1] ex_schd)%nat →
    ∃ es1 c es2 s1, [ESched 0; ETimer 0; ETimer 1; ESched 1] = es1 ++ ESched c :: es2 ∧
      srun (es1 ++ [ESched c]) ex_schd = Ret tt s1 ∧
      cur s1 !! c = Some (Some 200) ∧ (picks (es1 ++ [ESched c]) ex_schd ≤ 1 + 1)%nat) ex_schd.
Proof.
  split; [vm_compute; lia|].
  apply (schd_fair [ESched 0; ETimer 0; ETimer 1; ESched 1] ex_schd 200 1 ex_schd_inv).
  - by vm_compute.
  - intros [c Hc]. set_solver.
Defined.
