(* ===== verification/Words.v ===== *)
(** * Bytes and machine words in memory

    Runs of bytes copied out of and into the byte memory of lib/string.c, and the
    little-endian words and half words that fields of structures on a stack or in a
    message are. *)
From S2P Require Import Prelude Cstring.

(** [memcpy] from the caller's memory into a block, and from a block into the
    caller's memory. *)
Fixpoint fetch (a : Z) (n : nat) : Prelude.M mem (list Z) :=
  match n with
  | O => ret []
  | S n => v <- rd (u32 a) ;; l <- fetch (a + 1) n ;; ret (v :: l)
  end.
Fixpoint store (a : Z) (l : list Z) : Prelude.M mem unit :=
  match l with
  | [] => ret tt
  | v :: l => wr (u32 a) v ;;; store (a + 1) l
  end.

Lemma fetch_spec m a l : holds m a l → 0 ≤ a → a + Z.of_nat (length l) ≤ W32 →
  fetch a (length l) m = Ret l m.
Proof.
  revert a. induction l as [|v l IH]; intros a Hl Ha Hw; [done|]. apply holds_cons in Hl as [Hv Hl].
  cbn [fetch length] in *. rewrite u32_small by (unfold is_u32; lia).
  unfold bind at 1, rd, bind at 1, get, deref. rewrite Hv. unfold ret at 1, bind at 1.
  by rewrite IH by (done || lia).
Qed.

Lemma fetch_wlp m a n : wlp (fetch a n) (λ l m', m' = m ∧ length l = n) m.
Proof.
  revert a. induction n as [|n IH]; intros a; [done|]. cbn [fetch].
  unfold wlp, bind at 1, rd, bind at 1, get, deref. destruct (m !! u32 a); [|done].
  unfold ret at 1, bind at 1. specialize (IH (a + 1)). unfold wlp in IH.
  destruct (fetch (a + 1) n m); [|done..]. simpl. naive_solver.
Qed.

Lemma store_spec m a l : (∀ i, 0 ≤ i < Z.of_nat (length l) → is_Some (m !! (a + i))) →
  0 ≤ a → a + Z.of_nat (length l) ≤ W32 → Forall (λ b, 0 ≤ b < 256) l →
  ∃ m', store a l m = Ret tt m' ∧ holds m' a l ∧
    ∀ x, x < a ∨ a + Z.of_nat (length l) ≤ x → m' !! x = m !! x.
Proof.
  revert m a. induction l as [|v l IH]; intros m a Hd Ha Hw Hb; [by exists m|].
  cbn [length] in *. apply Forall_cons in Hb as [Hv Hb].
  destruct (Hd 0 ltac:(lia)) as [w Hw0]. rewrite Z.add_0_r in Hw0.
  destruct (IH (<[a:=v]> m) (a + 1)) as (m' & Hs & Hh & Hf); [|lia|lia|done|].
  { intros i Hi. rewrite lookup_insert_ne by lia.
    replace (a + 1 + i) with (a + (i + 1)) by lia. apply Hd. lia. }
  exists m'. split_and!.
  - cbn [store]. rewrite u32_small by (unfold is_u32; lia).
    unfold bind at 1, wr, bind at 1, get, bind at 1, deref. rewrite Hw0. unfold ret at 1, put.
    by rewrite Z.mod_small by lia.
  - apply holds_cons. split; [|done]. rewrite Hf by lia. apply lookup_insert_eq.
  - intros x Hx. rewrite Hf by lia. by rewrite lookup_insert_ne by lia.
Qed.

(** ** Words *)
Definition bytes4 (v : Z) : list Z :=
  [v mod 256; v / 2 ^ 8 mod 256; v / 2 ^ 16 mod 256; v / 2 ^ 24 mod 256].
Definition bytes2 (v : Z) : list Z := [v mod 256; v / 2 ^ 8 mod 256].
Fixpoint le (l : list Z) : Z := match l with [] => 0 | b :: l => b + 256 * le l end.

(** Loads and stores of a [u32_t], and of a [u16_t]. *)
Definition rdw (a : Z) : M mem Z := l <- fetch a 4 ;; ret (le l).
Definition wrw (a v : Z) : M mem unit := store a (bytes4 v).
Definition rdh (a : Z) : M mem Z := l <- fetch a 2 ;; ret (le l).
Definition wrh (a v : Z) : M mem unit := store a (bytes2 v).

Definition word (m : mem) (a v : Z) : Prop := holds m a (bytes4 v).
Definition half (m : mem) (a v : Z) : Prop := holds m a (bytes2 v).

(** Only the [n] bytes at [a] may differ; no byte is unmapped, and bytes are bytes. *)
Record only (a n : Z) (m m' : mem) : Prop := {
  on_frame : ∀ x, x < a ∨ a + n ≤ x → m' !! x = m !! x;
  on_mapped : ∀ x, is_Some (m !! x) → is_Some (m' !! x);
  on_bytes : all_bytes m → all_bytes m';
}.

Lemma le_bytes4 v : is_u32 v → le (bytes4 v) = v.
Proof. unfold is_u32, W32, bytes4, le. intros H. Z.to_euclidean_division_equations. lia. Qed.
Lemma le_bytes2 v : 0 ≤ v < 2 ^ 16 → le (bytes2 v) = v.
Proof. unfold bytes2, le. intros H. Z.to_euclidean_division_equations. lia. Qed.

Lemma only_refl a n m : only a n m m.
Proof. by split. Qed.
Lemma only_trans a n b k c j m1 m2 m3 : only a n m1 m2 → only b k m2 m3 →
  c ≤ a → c ≤ b → a + n ≤ c + j → b + k ≤ c + j → only c j m1 m3.
Proof.
  intros [H1 H2 H5] [H3 H4 H6] ? ? ? ?. split; [|by auto|by auto].
  intros x Hx. rewrite H3 by lia. apply H1. lia.
Qed.
Lemma only_wider c k a n m m' : only a n m m' → c ≤ a → a + n ≤ c + k → only c k m m'.
Proof. intros [H1 H2 H3] ? ?. split; [|done|done]. intros x Hx. apply H1. lia. Qed.
Lemma only_seq c k m1 m2 m3 : only c k m1 m2 → only c k m2 m3 → only c k m1 m3.
Proof. intros H1 H2. eapply only_trans; [exact H1|exact H2|lia..]. Qed.
Lemma only_holds a n m m' b l : only a n m m' → holds m b l →
  b + Z.of_nat (length l) ≤ a ∨ a + n ≤ b → holds m' b l.
Proof.
  intros [H1 _ _] Hl Hd i x Hi. pose proof (lookup_lt_Some _ _ _ Hi). rewrite H1 by lia. by apply Hl.
Qed.
Lemma only_mapped a n m m' b k : only a n m m' → mapped m b k → mapped m' b k.
Proof. intros [_ H _] Hm x Hx. by apply H, Hm. Qed.

Lemma store_only m a l : mapped m a (Z.of_nat (length l)) → 0 ≤ a → a + Z.of_nat (length l) ≤ W32 →
  Forall (λ b, 0 ≤ b < 256) l → ∃ m', store a l m = Ret tt m' ∧ holds m' a l ∧ only a (Z.of_nat (length l)) m m'.
Proof.
  intros Hm Ha Hw Hb. destruct (store_spec m a l) as (m' & Hs & Hh & Hf); try done.
  { intros i Hi. apply Hm. lia. }
  exists m'. split; [done|]. split; [done|]. split; [done| |].
  2:{ intros Hbm x b Hx. destruct (decide (a ≤ x < a + Z.of_nat (length l))) as [Hin|Hout].
      - destruct (lookup_lt_is_Some_2 l (Z.to_nat (x - a))) as [c Hc]; [lia|].
        rewrite Forall_forall in Hb. apply Hb, (list_elem_of_lookup_2 _ (Z.to_nat (x - a))).
        rewrite Hc, <- (Hh _ _ Hc), <- Hx. f_equal. lia.
      - rewrite Hf in Hx by lia. by apply (Hbm x). }
  intros x Hx.
  destruct (decide (a ≤ x < a + Z.of_nat (length l))) as [Hin|Hout].
  - destruct (lookup_lt_is_Some_2 l (Z.to_nat (x - a))) as [b Hxb]; [lia|].
    exists b. rewrite <- (Hh _ _ Hxb). f_equal. lia.
  - rewrite Hf by lia. done.
Qed.

Lemma bytes4_ok v : Forall (λ b, 0 ≤ b < 256) (bytes4 v).
Proof. unfold bytes4. repeat constructor; apply Z.mod_pos_bound; lia. Qed.
Lemma bytes2_ok v : Forall (λ b, 0 ≤ b < 256) (bytes2 v).
Proof. unfold bytes2. repeat constructor; apply Z.mod_pos_bound; lia. Qed.

Lemma wp_rdw m a v (Q : Z → mem → Prop) : word m a v → is_u32 v → 0 ≤ a → a + 4 ≤ W32 → Q v m → wp (rdw a) Q m.
Proof.
  intros Hw Hv Ha Haw HQ. unfold rdw. eapply wp_step.
  { apply (fetch_spec m a (bytes4 v)); done. }
  apply wp_ret. by rewrite le_bytes4.
Qed.
Lemma wp_rdh m a v (Q : Z → mem → Prop) : half m a v → 0 ≤ v < 2 ^ 16 → 0 ≤ a → a + 2 ≤ W32 → Q v m → wp (rdh a) Q m.
Proof.
  intros Hw Hv Ha Haw HQ. unfold rdh. eapply wp_step.
  { apply (fetch_spec m a (bytes2 v)); done. }
  apply wp_ret. by rewrite le_bytes2.
Qed.
Lemma wp_wrw m a v (Q : unit → mem → Prop) : mapped m a 4 → 0 ≤ a → a + 4 ≤ W32 →
  (∀ m', word m' a v → only a 4 m m' → Q tt m') → wp (wrw a v) Q m.
Proof.
  intros Hm Ha Haw HQ. destruct (store_only m a (bytes4 v)) as (m' & Hs & Hh & Ho); try done; [apply bytes4_ok|].
  unfold wrw, wp. rewrite Hs. by apply HQ.
Qed.
Lemma wp_wrh m a v (Q : unit → mem → Prop) : mapped m a 2 → 0 ≤ a → a + 2 ≤ W32 →
  (∀ m', half m' a v → only a 2 m m' → Q tt m') → wp (wrh a v) Q m.
Proof.
  intros Hm Ha Haw HQ. destruct (store_only m a (bytes2 v)) as (m' & Hs & Hh & Ho); try done; [apply bytes2_ok|].
  unfold wrh, wp. rewrite Hs. by apply HQ.
Qed.

(** [memcpy] of a known run of bytes to somewhere else. *)
Lemma wp_memcpy m d s l (Q : unit → mem → Prop) : holds m s l → all_bytes m →
  mapped m d (Z.of_nat (length l)) → 0 ≤ d → 0 ≤ s → d + Z.of_nat (length l) < W32 →
  s + Z.of_nat (length l) < W32 → d ≤ s ∨ s + Z.of_nat (length l) ≤ d →
  (∀ u m', holds m' d l → only d (Z.of_nat (length l)) m m' → Q u m') →
  wp (memcpy d s (Z.of_nat (length l))) Q m.
Proof.
  intros Hl Hb Hm Hd Hs Hdw Hsw Hov HQ.
  assert (∀ i, 0 ≤ i < Z.of_nat (length l) → ∃ v, l !! Z.to_nat i = Some v ∧ m !! (s + i) = Some v) as Hsrc.
  { intros i Hi. destruct (lookup_lt_is_Some_2 l (Z.to_nat i)) as [v Hv]; [lia|]. exists v. split; [done|].
    rewrite <- (Hl _ _ Hv). f_equal. lia. }
  eapply wp_mono; [apply memcpy_spec; try done; try lia|].
  { intros a Ha. destruct (Hsrc (a - s)) as (v & _ & Hv); [lia|]. exists v. rewrite <- Hv. f_equal. lia. }
  intros u m' Hf. apply HQ.
  - intros i v Hv. pose proof (lookup_lt_Some _ _ _ Hv). rewrite (Hf _), decide_True by lia.
    rewrite <- (Hl _ _ Hv). f_equal. lia.
  - split.
    + intros x Hx. rewrite (Hf x), decide_False by lia. done.
    + intros x Hx. rewrite (Hf x). case_decide; [|done]. destruct (Hsrc (x - d)) as (v & _ & Hv); [lia|by exists v].
    + intros _ x b. rewrite (Hf x). case_decide; apply Hb.
Qed.

Lemma add32_small a b : 0 ≤ a + b < W32 → add32 a b = a + b.
Proof. apply u32_small. Qed.
Lemma sub32_small a b : 0 ≤ a - b < W32 → sub32 a b = a - b.
Proof. apply u32_small. Qed.
Lemma mul32_small a b : 0 ≤ a * b < W32 → mul32 a b = a * b.
Proof. apply u32_small. Qed.

(** After a store, what was known of other bytes holds of the new memory. *)
Ltac after_write Ho := repeat match type of Ho with only _ _ ?m _ =>
  match goal with
  | H : word m _ _ |- _ => apply (only_holds _ _ _ _ _ _ Ho) in H; [|cbn [length bytes4]; lia]
  | H : half m _ _ |- _ => apply (only_holds _ _ _ _ _ _ Ho) in H; [|cbn [length bytes2]; lia]
  | H : holds m _ _ |- _ => apply (only_holds _ _ _ _ _ _ Ho) in H; [|cbn [length bytes2 bytes4]; lia]
  | H : mapped m _ _ |- _ => apply (only_mapped _ _ _ _ _ _ Ho) in H
  | H : all_bytes m |- _ => apply (on_bytes _ _ _ _ Ho) in H
  end end.

(** Cleared memory, for the concrete runs. *)
Definition ram (a : Z) (n : nat) : mem := list_to_map ((λ i, (a + Z.of_nat i, 0)) <$> seq 0 n).

Lemma ram_lookup a n x : a ≤ x < a + Z.of_nat n → ram a n !! x = Some 0.
Proof.
  intros Hx. apply elem_of_list_to_map_1.
  - rewrite <- list_fmap_compose. apply NoDup_fmap_2_strong; [|apply NoDup_seq].
    intros i j _ _. simpl. lia.
  - apply list_elem_of_fmap. exists (Z.to_nat (x - a)). split; [f_equal; lia|]. apply elem_of_seq. lia.
Qed.
Lemma ram_mapped a n b k : a ≤ b → b + k ≤ a + Z.of_nat n → mapped (ram a n) b k.
Proof. intros H1 H2 x Hx. rewrite ram_lookup by lia. by eexists. Qed.
Lemma ram_bytes a n : all_bytes (ram a n).
Proof.
  intros x b Hx. apply elem_of_list_to_map_2, list_elem_of_fmap in Hx as (i & Hi & _). simplify_eq. lia.
Qed.
Lemma ram_holds a n b k : a ≤ b → b + Z.of_nat k ≤ a + Z.of_nat n → holds (ram a n) b (replicate k 0).
Proof. intros H1 H2 i v [-> Hi]%lookup_replicate. apply ram_lookup. lia. Qed.

Lemma run_rdw m a v : word m a v → is_u32 v → 0 ≤ a → a + 4 ≤ W32 → rdw a m = Ret v m.
Proof.
  intros Hw Hv Ha Haw. pose proof (fetch_spec m a (bytes4 v) Hw Ha Haw) as Hf. cbn [length bytes4] in Hf.
  unfold rdw, bind. rewrite Hf. unfold ret. by rewrite le_bytes4.
Qed.

Lemma holds_sub m a l k n : holds m a l → holds m (a + Z.of_nat k) (take n (drop k l)).
Proof.
  intros Hl i x Hx. apply lookup_take_Some in Hx as [Hx _]. rewrite lookup_drop in Hx.
  rewrite <- (Hl _ _ Hx). f_equal. lia.
Qed.

(** Bytes placed at an address of some memory. *)
Definition place (a : Z) (l : list Z) (m : mem) : mem :=
  list_to_map (imap (λ i b, (a + Z.of_nat i, b)) l) ∪ m.

Lemma place_in a l m i b : l !! i = Some b → place a l m !! (a + Z.of_nat i) = Some b.
Proof.
  intros Hi. apply lookup_union_Some_l, elem_of_list_to_map_1.
  - rewrite fmap_imap. apply NoDup_alt. intros j k x Hj Hk. rewrite list_lookup_imap in Hj, Hk.
    destruct (l !! j), (l !! k); simpl in *; simplify_eq. lia.
  - apply list_elem_of_lookup. exists i. rewrite list_lookup_imap, Hi. done.
Qed.
Lemma place_holds a l m k l' : take (length l') (drop k l) = l' → holds (place a l m) (a + Z.of_nat k) l'.
Proof.
  intros Heq i b Hi. rewrite <- Z.add_assoc, <- Nat2Z.inj_add. apply place_in.
  rewrite <- lookup_drop, <- Hi, <- Heq. symmetry. apply lookup_take_lt. by apply lookup_lt_Some in Hi.
Qed.
Lemma place_bytes a l m : Forall (λ b, 0 ≤ b < 256) l → all_bytes m → all_bytes (place a l m).
Proof.
  intros Hl Hm x b [Hx|[_ Hx]]%lookup_union_Some_raw; [|by eapply Hm].
  apply elem_of_list_to_map_2, list_elem_of_lookup in Hx as [i Hi]. rewrite list_lookup_imap in Hi.
  destruct (l !! i) as [c|] eqn:Hc; simplify_eq/=. exact (Forall_lookup_1 _ _ _ _ Hl Hc).
Qed.
Lemma place_mapped a l m b n : mapped m b n → mapped (place a l m) b n.
Proof.
  intros Hm x Hx. unfold place. rewrite lookup_union. destruct (Hm x Hx) as [v ->].
  destruct (list_to_map _ !! x); by eexists.
Qed.

Lemma filled_only d n f m m' : filled d n f m m' → (∀ j, 0 ≤ j < n → ∃ b, f j = Some b ∧ 0 ≤ b < 256) → only d n m m'.
Proof.
  intros Hf Hb. split.
  - intros x Hx. by apply (filled_out _ _ _ _ _ _ Hf).
  - intros x Hx. rewrite (Hf x). case_decide; [|done]. destruct (Hb (x - d)) as (b & -> & _); [lia|by eexists].
  - intros Hm x b. rewrite (Hf x). case_decide; [|apply Hm]. destruct (Hb (x - d)) as (b' & -> & ?); [lia|]. by intros [= <-].
Qed.

(** A name into a cleared field, as [memset] and the kernel's [strcpy] do it. *)
Lemma clear_then_name m d name l n : cstr m name l → Z.of_nat (length l) < n → all_bytes m → mapped m d n →
  0 < d → d + n < W32 → d + n ≤ name ∨ name + Z.of_nat (length l) + 1 ≤ d →
  wp (memset d 0 n) (λ _ m1, cstr m1 name l ∧
    wp (strcpy d name (Z.of_nat (length l))) (λ _ m', only d n m m' ∧ cstr m' d l) m1) m.
Proof.
  intros Hs Hw Hby Hm Hp Hpw Hd. pose proof (cs_range _ _ _ Hs) as Hr.
  eapply wp_mono; [apply memset_spec; [lia..|done]|]. intros [] m1 Hf1.
  assert (only d n m m1) as Ho1 by (eapply filled_only; [exact Hf1|]; intros j _; exists 0; split; [done|lia]).
  pose proof (only_holds _ _ _ _ _ _ Ho1 (cs_holds _ _ _ Hs)) as Hh1.
  assert (holds m1 name (l ++ [0])) as Hh by (apply Hh1; rewrite length_app; cbn [length]; lia). clear Hh1.
  split; [split; [done|apply Hs|apply Hs]|]. apply holds_app in Hh as [Hh _].
  eapply wp_mono; [apply (memcpy_spec m1 d name (Z.of_nat (length l)) ltac:(lia) ltac:(lia) ltac:(lia) ltac:(lia) ltac:(lia))|].
  { by apply (on_bytes _ _ _ _ Ho1). }
  { intros x Hx. apply (on_mapped _ _ _ _ Ho1), Hm. lia. }
  { intros x Hx. destruct (lookup_lt_is_Some_2 l (Z.to_nat (x - name))) as [b Hb]; [lia|]. exists b. rewrite <- (Hh _ _ Hb). f_equal. lia. }
  { lia. }
  intros u m2 Hf2. split.
  - eapply only_trans; [exact Ho1|eapply filled_only; [exact Hf2|]|lia..]. intros j Hj.
    destruct (lookup_lt_is_Some_2 l (Z.to_nat j)) as [b Hb]; [lia|]. exists b. split.
    + rewrite <- (Hh _ _ Hb). f_equal. lia.
    + pose proof (cs_chars _ _ _ Hs) as Hc. rewrite Forall_lookup in Hc. specialize (Hc _ _ Hb). lia.
  - split; [|apply Hs|lia]. apply holds_app. split.
    + intros i b Hi. pose proof (lookup_lt_Some _ _ _ Hi). rewrite (Hf2 _), decide_True by lia.
      rewrite <- (Hh _ _ Hi). f_equal. lia.
    + apply holds_cons. split; [|intros i b Hi; by rewrite lookup_nil in Hi].
      rewrite (filled_out _ _ _ _ _ _ Hf2), (Hf1 _), decide_True by lia. done.
Qed.
