(* ===== verification/Msg.v ===== *)
(** * Messages and boxes: kernel/msg/msg.c

    A message is a private copy of a range of bytes; it is created UNSEND, sent to
    a box (SENDED) and received from it once (RECIEVED), which makes the receiver
    its owner. The structures live at addresses handed out by [kmalloc] and are
    found by number through the two index allocators. A mutex is its owner: taking
    one this thread holds fails the assertion of mutex.c; one that another thread
    holds when an operation starts has been left locked for good, since no
    operation blocks while it holds one, so waiting for it is [Hang]. The nodes
    linked into a box ([msg_ls], [box_ln]) are the sequence of the messages'
    addresses, as the list operations implement it (DList). *)
From S2P Require Import Prelude Kmalloc IdxAlct IdMap Cstring Words.

Inductive MSG_STATE := MSG_UNSEND | MSG_SENDED | MSG_RECIEVED.
Inductive BOX_STATE := BOX_RCVABLE | BOX_RCV_BLK.
#[export] Instance msg_state_dec : EqDecision MSG_STATE.
Proof. solve_decision. Defined.
#[export] Instance box_state_dec : EqDecision BOX_STATE.
Proof. solve_decision. Defined.

Record msg_t := Msg {
  m_id : Z; m_state : MSG_STATE; m_addr : Z; m_size : Z; m_owner : Z; m_lock : option Z }.

Record msgbox_t := Box {
  b_id : Z; b_state : BOX_STATE; nmsg : Z; b_owner : Z; blk_thread : Z;
  b_lock : option Z; msg_ls : list Z }.

(** The structures by address, the blocks that hold the messages' bytes, the two
    index allocators, the kernel heap, the memory the callers pass pointers into,
    and the threads made runnable, the latest last. *)
Record ipc (A K : Type) := Ipc {
  msgs : gmap Z msg_t; boxes : gmap Z msgbox_t; blocks : gmap Z (list Z);
  msg_alct : A; box_alct : A; kheap : K; umem : mem; woken : list Z }.
Arguments Ipc {A K}.
Arguments msgs {A K}.
Arguments boxes {A K}.
Arguments blocks {A K}.
Arguments msg_alct {A K}.
Arguments box_alct {A K}.
Arguments kheap {A K}.
Arguments umem {A K}.
Arguments woken {A K}.

Section code.
Context {A K : Type} `{IdMap A} `{Kmalloc K}.
(** The running thread and its process; the words a fresh block holds. *)
Context (thread_now proc_now : Z) (junk : Z).
Abbreviation st := (ipc A K).
Abbreviation M := (Prelude.M st).
Implicit Types s : st.

Definition set_msgs f s : st :=
  Ipc (f (msgs s)) (boxes s) (blocks s) (msg_alct s) (box_alct s) (kheap s) (umem s) (woken s).
Definition set_boxes f s : st :=
  Ipc (msgs s) (f (boxes s)) (blocks s) (msg_alct s) (box_alct s) (kheap s) (umem s) (woken s).
Definition set_blocks f s : st :=
  Ipc (msgs s) (boxes s) (f (blocks s)) (msg_alct s) (box_alct s) (kheap s) (umem s) (woken s).
Definition set_msg_alct a s : st :=
  Ipc (msgs s) (boxes s) (blocks s) a (box_alct s) (kheap s) (umem s) (woken s).
Definition set_box_alct a s : st :=
  Ipc (msgs s) (boxes s) (blocks s) (msg_alct s) a (kheap s) (umem s) (woken s).
Definition set_kheap a s : st :=
  Ipc (msgs s) (boxes s) (blocks s) (msg_alct s) (box_alct s) a (umem s) (woken s).
Definition set_umem a s : st :=
  Ipc (msgs s) (boxes s) (blocks s) (msg_alct s) (box_alct s) (kheap s) a (woken s).
Definition set_woken a s : st :=
  Ipc (msgs s) (boxes s) (blocks s) (msg_alct s) (box_alct s) (kheap s) (umem s) a.

Definition msg_at (p : Z) : M msg_t := s <- get ;; deref (msgs s !! p).
Definition box_at (p : Z) : M msgbox_t := s <- get ;; deref (boxes s !! p).
(** Stores through a pointer to a structure. *)
Definition upd_msg (p : Z) (f : msg_t → msg_t) : M unit :=
  m <- msg_at p ;; modify (set_msgs (insert p (f m))).
Definition upd_box (p : Z) (f : msgbox_t → msgbox_t) : M unit :=
  b <- box_at p ;; modify (set_boxes (insert p (f b))).

Definition ms_id i (m : msg_t) := Msg i (m_state m) (m_addr m) (m_size m) (m_owner m) (m_lock m).
Definition ms_state x (m : msg_t) := Msg (m_id m) x (m_addr m) (m_size m) (m_owner m) (m_lock m).
Definition ms_addr x (m : msg_t) := Msg (m_id m) (m_state m) x (m_size m) (m_owner m) (m_lock m).
Definition ms_size x (m : msg_t) := Msg (m_id m) (m_state m) (m_addr m) x (m_owner m) (m_lock m).
Definition ms_owner x (m : msg_t) := Msg (m_id m) (m_state m) (m_addr m) (m_size m) x (m_lock m).
Definition ms_lock x (m : msg_t) := Msg (m_id m) (m_state m) (m_addr m) (m_size m) (m_owner m) x.

Definition bx_id x (b : msgbox_t) :=
  Box x (b_state b) (nmsg b) (b_owner b) (blk_thread b) (b_lock b) (msg_ls b).
Definition bx_state x (b : msgbox_t) :=
  Box (b_id b) x (nmsg b) (b_owner b) (blk_thread b) (b_lock b) (msg_ls b).
Definition bx_nmsg x (b : msgbox_t) :=
  Box (b_id b) (b_state b) x (b_owner b) (blk_thread b) (b_lock b) (msg_ls b).
Definition bx_owner x (b : msgbox_t) :=
  Box (b_id b) (b_state b) (nmsg b) x (blk_thread b) (b_lock b) (msg_ls b).
Definition bx_blk x (b : msgbox_t) :=
  Box (b_id b) (b_state b) (nmsg b) (b_owner b) x (b_lock b) (msg_ls b).
Definition bx_lock x (b : msgbox_t) :=
  Box (b_id b) (b_state b) (nmsg b) (b_owner b) (blk_thread b) x (msg_ls b).
Definition bx_ls x (b : msgbox_t) :=
  Box (b_id b) (b_state b) (nmsg b) (b_owner b) (blk_thread b) (b_lock b) x.

(** [mutex_lock] and [mutex_unlock] on the [lock] field of a structure. *)
Definition take_lock (o : option Z) : M unit :=
  match o with
  | None => ret tt
  | Some t => if t =? thread_now then panic else hang
  end.
Definition drop_lock (o : option Z) : M unit :=
  assert_ (bool_decide (o = Some thread_now)).
Definition lock_msg (p : Z) : M unit :=
  m <- msg_at p ;; take_lock (m_lock m) ;;; upd_msg p (ms_lock (Some thread_now)).
Definition unlock_msg (p : Z) : M unit :=
  m <- msg_at p ;; drop_lock (m_lock m) ;;; upd_msg p (ms_lock None).
Definition lock_box (p : Z) : M unit :=
  b <- box_at p ;; take_lock (b_lock b) ;;; upd_box p (bx_lock (Some thread_now)).
Definition unlock_box (p : Z) : M unit :=
  b <- box_at p ;; drop_lock (b_lock b) ;;; upd_box p (bx_lock None).

Definition on_msg_alct {B} (m : Prelude.M A B) : M B := zoom msg_alct set_msg_alct m.
Definition on_box_alct {B} (m : Prelude.M A B) : M B := zoom box_alct set_box_alct m.

Definition on_mem {B} (m : Prelude.M mem B) : M B := zoom umem set_umem m.

Definition alloc (sz : Z) : M (Z + Z) := s <- get ;;
  let '(r, k) := kmalloc sz (kheap s) in put (set_kheap k s) ;;; ret r.

Definition SZ_MSG : Z := 56.
Definition SZ_BOX : Z := 52.

(** [schd_run] as the tables see it: NULL is no thread, and the thread is woken. The states
    of threads are in Schd; that [schd_run] panics for a thread that is running, queued or
    killed is not modelled here: a box names the thread that went to sleep on it. *)
Definition schd_run (t : Z) : M unit :=
  if t =? 0 then fault else modify (λ s, set_woken (woken s ++ [t]) s).

(** The functions return the error code and what they store through their out
    parameter. *)
Definition msg_newmsg (addr size : Z) : M (Z * option Z) :=
  r <- alloc SZ_MSG ;;
  match r with
  | inl err => ret (err, None)
  | inr p =>
      modify (set_msgs (insert p (Msg junk MSG_UNSEND junk junk junk None))) ;;;
      lock_msg p ;;;
      r <- on_msg_alct (id_new p) ;;
      match r with
      | (_, Some i) =>
          upd_msg p (ms_id i) ;;;
          r <- alloc size ;;
          match r with
          | inl err => on_msg_alct (id_del i) ;;; kmfree p ;;; ret (err, None)
          | inr a =>
              upd_msg p (ms_addr a) ;;;
              l <- on_mem (fetch addr (Z.to_nat size)) ;;
              modify (set_blocks (insert a l)) ;;;
              upd_msg p (ms_size size) ;;;
              upd_msg p (ms_owner proc_now) ;;;
              upd_msg p (ms_state MSG_UNSEND) ;;;
              unlock_msg p ;;;
              ret (E_OK, Some i)
          end
      | (err, None) => kmfree p ;;; ret (err, None)
      end
  end.

Definition msg_newbox : M (Z * option Z) :=
  r <- alloc SZ_BOX ;;
  match r with
  | inl err => ret (err, None)
  | inr p =>
      modify (set_boxes (insert p (Box junk BOX_RCVABLE junk junk junk None []))) ;;;
      lock_box p ;;;
      r <- on_box_alct (id_new p) ;;
      match r with
      | (_, Some i) =>
          upd_box p (bx_id i) ;;;
          upd_box p (bx_nmsg 0) ;;;
          upd_box p (bx_blk 0) ;;;
          upd_box p (bx_state BOX_RCVABLE) ;;;
          upd_box p (bx_owner proc_now) ;;;
          upd_box p (bx_ls []) ;;;
          unlock_box p ;;;
          ret (E_OK, Some i)
      | (err, None) => kmfree p ;;; ret (err, None)
      end
  end.

(** The lines from the two checks to [MSG_SENDED], with both locks held. *)
Definition send_locked (msg box : Z) : M Z :=
  m <- msg_at msg ;;
  if negb (m_owner m =? proc_now) then ret E_INVAL else
  if bool_decide (m_state m ≠ MSG_UNSEND) then ret E_INVAL else
  upd_box box (λ b, bx_ls (msg_ls b ++ [msg]) b) ;;;
  upd_box box (λ b, bx_nmsg (add32 (nmsg b) 1) b) ;;;
  b <- box_at box ;;
  (if bool_decide (b_state b = BOX_RCV_BLK)
   then schd_run (blk_thread b) ;;; upd_box box (bx_blk 0) else ret tt) ;;;
  upd_msg msg (ms_state MSG_SENDED) ;;;
  ret E_OK.

Definition msg_send (box_id msg_id : Z) : M Z :=
  r <- on_msg_alct (id_find msg_id) ;;
  match r with
  | (_, Some msg) =>
      lock_msg msg ;;;
      r <- on_box_alct (id_find box_id) ;;
      match r with
      | (_, Some box) =>
          lock_box box ;;;
          err <- send_locked msg box ;;
          unlock_box box ;;;
          unlock_msg msg ;;;
          ret err
      | (err, None) => unlock_msg msg ;;; ret err
      end
  | (err, None) => ret err
  end.

(** The three checks of [msg_read] and [msg_size]. *)
Definition check_read (msg : Z) (ok : msg_t → bool) : M Z :=
  m <- msg_at msg ;;
  if negb (m_owner m =? proc_now) then ret E_INVAL else
  if bool_decide (m_state m ≠ MSG_RECIEVED) then ret E_INVAL else
  ret (if ok m then E_OK else E_INVAL).

Definition msg_read (msg_id cache offset size : Z) : M Z :=
  r <- on_msg_alct (id_find msg_id) ;;
  match r with
  | (_, Some msg) =>
      lock_msg msg ;;;
      err <- check_read msg (λ m, add32 offset size <=? m_size m) ;;
      (if negb (err =? E_OK) then ret tt else
       m <- msg_at msg ;;
       s <- get ;;
       block <- deref (blocks s !! m_addr m) ;;
       l <- (if Z.of_nat (length block) <? offset + size then fault
             else ret (take (Z.to_nat size) (drop (Z.to_nat offset) block))) ;;
       on_mem (store cache l)) ;;;
      unlock_msg msg ;;;
      ret err
  | (err, None) => ret err
  end.

Definition msg_size (msg_id : Z) : M (Z * option Z) :=
  r <- on_msg_alct (id_find msg_id) ;;
  match r with
  | (_, Some msg) =>
      lock_msg msg ;;;
      err <- check_read msg (λ _, true) ;;
      m <- msg_at msg ;;
      unlock_msg msg ;;;
      ret (err, if err =? E_OK then Some (m_size m) else None)
  | (err, None) => ret (err, None)
  end.

(** The lines from [list_pop_front] to [*msgid = msg->id]. *)
Definition take_msg (box : Z) : M Z :=
  b <- box_at box ;;
  match msg_ls b with
  | [] => fault
  | msg :: rest =>
      upd_box box (bx_ls rest) ;;;
      m <- msg_at msg ;;
      assert_ (bool_decide (m_state m = MSG_SENDED)) ;;;
      upd_msg msg (ms_state MSG_RECIEVED) ;;;
      upd_box box (λ b, bx_nmsg (sub32 (nmsg b) 1) b) ;;;
      upd_msg msg (ms_owner proc_now) ;;;
      ret (m_id m)
  end.

(** The box is marked and unlocked before the thread blocks, and locked again when
    another has run it. *)
Definition sleep_on (box : Z) : M unit :=
  upd_box box (bx_state BOX_RCV_BLK) ;;;
  upd_box box (bx_blk thread_now) ;;;
  unlock_box box.
Definition wake_on (box : Z) : M unit := lock_box box ;;; upd_box box (bx_state BOX_RCVABLE).

(** The lines before [schd_block]: an answer, or the box and whether to wait. *)
Definition recieve_enter (boxid is_block : Z) : M ((Z * option Z) + (Z * bool)) :=
  r <- on_box_alct (id_find boxid) ;;
  match r with
  | (err, None) => unlock_box 0 ;;; ret (inl (err, None))
  | (_, Some box) =>
      lock_box box ;;;
      b <- box_at box ;;
      if negb (b_owner b =? proc_now) then unlock_box box ;;; ret (inl (E_INVAL, None)) else
      if bool_decide (b_state b = BOX_RCV_BLK) then unlock_box box ;;; ret (inl (E_BLOCK, None)) else
      assert_ (bool_decide (b_state b = BOX_RCVABLE)) ;;;
      if (nmsg b =? 0) && (is_block =? 0) then unlock_box box ;;; ret (inl (E_NOMSG, None)) else
      if nmsg b =? 0 then sleep_on box ;;; ret (inr (box, true)) else ret (inr (box, false))
  end.

(** The lines after it. *)
Definition recieve_leave (box : Z) (waited : bool) : M (Z * option Z) :=
  (if waited then wake_on box else ret tt) ;;;
  b <- box_at box ;;
  assert_ (0 <? nmsg b) ;;;
  i <- take_msg box ;;
  unlock_box box ;;;
  ret (E_OK, Some i).

(** What the other threads do from the moment this one is BLOCKED to the moment
    the scheduler resumes it. *)
Context (others : M unit).

Definition msg_recieve (boxid is_block : Z) : M (Z * option Z) :=
  r <- recieve_enter boxid is_block ;;
  match r with
  | inl out => ret out
  | inr (box, waits) => (if waits : bool then others else ret tt) ;;; recieve_leave box waits
  end.

(** Deleting leaves the structure locked; nothing finds it by number again. *)
Definition msg_delmsg (msg_id : Z) : M Z :=
  r <- on_msg_alct (id_find msg_id) ;;
  match r with
  | (_, Some msg) =>
      lock_msg msg ;;;
      m <- msg_at msg ;;
      if negb (m_owner m =? proc_now) then unlock_msg msg ;;; ret E_INVAL else
      if bool_decide (m_state m = MSG_SENDED) then unlock_msg msg ;;; ret E_INVAL else
      err <- on_msg_alct (id_del (m_id m)) ;;
      assert_ (err =? E_OK) ;;;
      kmfree msg ;;;
      ret err
  | (err, None) => ret err
  end.

Definition msg_delbox (box_id : Z) : M Z :=
  r <- on_box_alct (id_find box_id) ;;
  match r with
  | (_, Some box) =>
      lock_box box ;;;
      b <- box_at box ;;
      if negb (b_owner b =? proc_now) then unlock_box box ;;; ret E_INVAL else
      if bool_decide (b_state b = BOX_RCV_BLK) then unlock_box box ;;; ret E_INVAL else
      if 0 <? nmsg b then unlock_box box ;;; ret E_INVAL else
      err <- on_box_alct (id_del (b_id b)) ;;
      assert_ (err =? E_OK) ;;;
      kmfree box ;;;
      ret err
  | (err, None) => ret err
  end.
End code.
