(* ===== verification/MsgSpec.v ===== *)
(** * What message passing guarantees: theorems about Msg.v

    The invariant of the message tables, that every system call keeps it, the
    functional behaviour of sending and receiving on every branch, and the round
    trip of a message's bytes from one process to another. *)
From S2P Require Import Prelude Kmalloc IdxAlct IdMap Cstring Words Msg.

(** [inv mm bm ms bs bl live]: with [mm] and [bm] the numbers in use, every
    registered structure is unlocked and carries its number; a message's block has
    its size; a box counts its queue; what is queued
    is a registered SENDED message, in one box, once; and a registered SENDED
    message is queued somewhere. *)
Record inv (mm bm : gmap Z Z) (ms : gmap Z msg_t) (bs : gmap Z msgbox_t)
    (bl : gmap Z (list Z)) (live : gset Z) : Prop := {
  inv_msg : ∀ i p, mm !! i = Some p → ∃ m, ms !! p = Some m ∧ m_id m = i ∧ m_lock m = None ∧
    ∃ l, bl !! m_addr m = Some l ∧ m_size m = Z.of_nat (length l);
  inv_box : ∀ i p, bm !! i = Some p → ∃ b, bs !! p = Some b ∧ b_id b = i ∧ b_lock b = None ∧
    nmsg b = Z.of_nat (length (msg_ls b)) ∧ NoDup (msg_ls b);
  inv_queued : ∀ i p b q, bm !! i = Some p → bs !! p = Some b → q ∈ msg_ls b →
    ∃ m, ms !! q = Some m ∧ m_state m = MSG_SENDED ∧ mm !! m_id m = Some q;
  inv_one : ∀ i p b i' p' b' q, bm !! i = Some p → bs !! p = Some b → q ∈ msg_ls b →
    bm !! i' = Some p' → bs !! p' = Some b' → q ∈ msg_ls b' → p = p';
  inv_sent : ∀ i q m, mm !! i = Some q → ms !! q = Some m → m_state m = MSG_SENDED →
    ∃ j p b, bm !! j = Some p ∧ bs !! p = Some b ∧ q ∈ msg_ls b;
  inv_live : ∀ p, is_Some (ms !! p) ∨ is_Some (bs !! p) ∨ is_Some (bl !! p) → p ∈ live;
  inv_addr : ∀ p, p ∈ live → 0 < p < W32;
}.

Section inv.
Context {mm bm : gmap Z Z} {ms : gmap Z msg_t} {bs : gmap Z msgbox_t}.
Context {bl : gmap Z (list Z)} {live : gset Z}.

Lemma inv_mono live' : inv mm bm ms bs bl live → live ⊆ live' → (∀ p, p ∈ live' → 0 < p < W32) → inv mm bm ms bs bl live'.
Proof. intros [] ? ?. split; eauto. Qed.

Lemma inv_msg_inj i j p : inv mm bm ms bs bl live → mm !! i = Some p → mm !! j = Some p → i = j.
Proof.
  intros HI Hi Hj. destruct (inv_msg _ _ _ _ _ _ HI _ _ Hi) as (m & Hm & <- & _).
  destruct (inv_msg _ _ _ _ _ _ HI _ _ Hj) as (m' & Hm' & <- & _). by simplify_eq.
Qed.

Lemma inv_box_inj i j p : inv mm bm ms bs bl live → bm !! i = Some p → bm !! j = Some p → i = j.
Proof.
  intros HI Hi Hj. destruct (inv_box _ _ _ _ _ _ HI _ _ Hi) as (m & Hm & <- & _).
  destruct (inv_box _ _ _ _ _ _ HI _ _ Hj) as (m' & Hm' & <- & _). by simplify_eq.
Qed.

(** A structure nothing refers to. *)
Lemma inv_junk_msg p m : inv mm bm ms bs bl live → p ∉ live → 0 < p < W32 →
  inv mm bm (<[p := m]> ms) bs bl ({[p]} ∪ live).
Proof.
  intros HI Hp Hp0.
  assert (ms !! p = None) as Hn.
  { apply eq_None_not_Some. intros Hs. apply Hp, (inv_live _ _ _ _ _ _ HI). eauto. }
  destruct HI as [H1 H2 H3 H4 H5 H6 H7]. split; [| done | | done | | |intros x [->%elem_of_singleton|?]%elem_of_union; eauto].
  - intros i q Hi. destruct (H1 i q Hi) as (m' & Hm' & ?). exists m'.
    rewrite lookup_insert_ne by naive_solver. done.
  - intros i q b x Hi Hq Hx. destruct (H3 i q b x Hi Hq Hx) as (m' & Hm' & ?). exists m'.
    rewrite lookup_insert_ne by naive_solver. done.
  - intros i q m' Hi Hm'. destruct (H1 i q Hi) as (m'' & Hm'' & _).
    rewrite lookup_insert_ne in Hm' by naive_solver. eauto.
  - intros q [Hq|Hq]; [|set_solver]. destruct (decide (q = p)) as [->|]; [set_solver|].
    rewrite lookup_insert_ne in Hq by done. set_solver.
Qed.

Lemma inv_junk_box p b : inv mm bm ms bs bl live → p ∉ live → 0 < p < W32 →
  inv mm bm ms (<[p := b]> bs) bl ({[p]} ∪ live).
Proof.
  intros HI Hp Hp0.
  assert (bs !! p = None) as Hn.
  { apply eq_None_not_Some. intros Hs. apply Hp, (inv_live _ _ _ _ _ _ HI). eauto. }
  assert (∀ i, bm !! i ≠ Some p) as Hne.
  { intros i Hi. destruct (inv_box _ _ _ _ _ _ HI _ _ Hi) as (? & ? & _). congruence. }
  destruct HI as [H1 H2 H3 H4 H5 H6 H7]. split; [done| | | | | |set_unfold; naive_solver].
  - intros i q Hi. rewrite lookup_insert_ne by (intros ->; by eapply Hne). eauto.
  - intros i q b' x Hi Hq. rewrite lookup_insert_ne in Hq by (intros ->; by eapply Hne). eauto.
  - intros i q b1 i' q' b2 x Hi Hq Hx Hi' Hq'.
    rewrite lookup_insert_ne in Hq by (intros ->; by eapply Hne).
    rewrite lookup_insert_ne in Hq' by (intros ->; by eapply Hne). eauto.
  - intros i q m Hi Hm Hs. destruct (H5 i q m Hi Hm Hs) as (j & x & b' & Hj & Hx & ?).
    exists j, x, b'. rewrite lookup_insert_ne by (intros ->; by eapply Hne). done.
  - intros q [Hq|[Hq|Hq]]; [set_solver| |set_solver].
    destruct (decide (q = p)) as [->|]; [set_solver|].
    rewrite lookup_insert_ne in Hq by done. set_solver.
Qed.

Lemma inv_block a l : inv mm bm ms bs bl live → a ∉ live → 0 < a < W32 →
  inv mm bm ms bs (<[a := l]> bl) ({[a]} ∪ live).
Proof.
  intros HI Hp Hp0.
  assert (bl !! a = None) as Hn.
  { apply eq_None_not_Some. intros Hs. apply Hp, (inv_live _ _ _ _ _ _ HI). eauto. }
  destruct HI as [H1 H2 H3 H4 H5 H6 H7]. split; try done; [| |set_unfold; naive_solver].
  - intros i q Hi. destruct (H1 i q Hi) as (m' & Hm' & ? & ? & l' & Hl' & ?). exists m'.
    split_and!; try done. exists l'. rewrite lookup_insert_ne by naive_solver. done.
  - intros q [Hq|[Hq|Hq]]; [set_solver..|].
    destruct (decide (q = a)) as [->|]; [set_solver|].
    rewrite lookup_insert_ne in Hq by done. set_solver.
Qed.

(** Registering a message under a new number, with its block. *)
Lemma inv_reg_msg i p m m0 l : inv mm bm ms bs bl live → mm !! i = None →
  ms !! p = Some m0 → (∀ j, mm !! j ≠ Some p) →
  m_id m = i → m_lock m = None → m_state m = MSG_UNSEND →
  bl !! m_addr m = Some l → m_size m = Z.of_nat (length l) →
  inv (<[i := p]> mm) bm (<[p := m]> ms) bs bl live.
Proof.
  intros HI Hi Hp Hno Hid Hl Hst Hb Hsz. destruct HI as [H1 H2 H3 H4 H5 H6 H7].
  split; [|done| |done| | |done].
  - intros j q Hj. destruct (decide (j = i)) as [->|].
    + rewrite lookup_insert_eq in Hj. simplify_eq. exists m. rewrite lookup_insert_eq. naive_solver.
    + rewrite lookup_insert_ne in Hj by done. destruct (H1 j q Hj) as (m' & ? & ?). exists m'.
      rewrite lookup_insert_ne; [done|]. intros ->. by eapply Hno.
  - intros j q b x Hj Hq Hx. destruct (H3 j q b x Hj Hq Hx) as (m' & Hm' & ? & Hx').
    exists m'. rewrite lookup_insert_ne; [|intros ->; by eapply Hno].
    split_and!; [done..|]. rewrite lookup_insert_ne; [done|]. intros ->. congruence.
  - intros j q m' Hj Hq Hs. destruct (decide (q = p)) as [->|].
    + rewrite lookup_insert_eq in Hq. simplify_eq. congruence.
    + rewrite lookup_insert_ne in Hq by done. eapply H5; [|done..].
      destruct (decide (j = i)) as [->|]; [by rewrite lookup_insert_eq in Hj; simplify_eq|].
      by rewrite lookup_insert_ne in Hj.
  - intros q [Hq|Hq]; [|by apply H6; right]. apply H6; left.
    destruct (decide (q = p)) as [->|]; [by eauto|]. by rewrite lookup_insert_ne in Hq.
Qed.

Lemma inv_reg_box i p b b0 : inv mm bm ms bs bl live → bm !! i = None →
  bs !! p = Some b0 → (∀ j, bm !! j ≠ Some p) →
  b_id b = i → b_lock b = None → nmsg b = 0 → msg_ls b = [] →
  inv mm (<[i := p]> bm) ms (<[p := b]> bs) bl live.
Proof.
  intros HI Hi Hp Hno Hid Hl Hn Hls. destruct HI as [H1 H2 H3 H4 H5 H6 H7].
  assert (∀ j q b', <[i:=p]> bm !! j = Some q → <[p:=b]> bs !! q = Some b' →
    (q = p ∧ b' = b) ∨ (q ≠ p ∧ bm !! j = Some q ∧ bs !! q = Some b')) as Hc.
  { intros j q b' Hj Hq. destruct (decide (q = p)) as [->|Hqp].
    - rewrite lookup_insert_eq in Hq. simplify_eq. by left.
    - rewrite lookup_insert_ne in Hq by done. right.
      rewrite lookup_insert_ne in Hj; [done|]. intros ->.
      rewrite lookup_insert_eq in Hj. congruence. }
  split; [done| | | | | |set_unfold; naive_solver].
  - intros j q Hj. destruct (decide (j = i)) as [->|].
    + rewrite lookup_insert_eq in Hj. simplify_eq. exists b. rewrite lookup_insert_eq, Hls.
      split_and!; first [done|by rewrite Hn|constructor].
    + rewrite lookup_insert_ne in Hj by done. destruct (H2 j q Hj) as (b' & ? & ?). exists b'.
      rewrite lookup_insert_ne; [done|]. intros ->. by eapply Hno.
  - intros j q b' x Hj Hq Hx. destruct (Hc _ _ _ Hj Hq) as [[-> ->]|(? & ? & ?)]; [|by eauto].
    rewrite Hls in Hx. by apply elem_of_nil in Hx.
  - intros j q b1 j' q' b2 x Hj Hq Hx Hj' Hq' Hx'.
    destruct (Hc _ _ _ Hj Hq) as [[-> ->]|(? & ? & ?)];
      [rewrite Hls in Hx; by apply elem_of_nil in Hx|].
    destruct (Hc _ _ _ Hj' Hq') as [[-> ->]|(? & ? & ?)];
      [rewrite Hls in Hx'; by apply elem_of_nil in Hx'|]. eauto.
  - intros j q m Hj Hm Hs. destruct (H5 j q m Hj Hm Hs) as (k & x & b' & Hk & ?).
    exists k, x, b'. rewrite lookup_insert_ne by congruence.
    rewrite lookup_insert_ne; [done|]. intros ->. by eapply Hno.
  - intros q [Hq|[Hq|Hq]]; [by apply H6; left| |by apply H6; right; right].
    apply H6; right; left.
    destruct (decide (q = p)) as [->|]; [by eauto|]. by rewrite lookup_insert_ne in Hq.
Qed.

(** Updating a registered box without touching its queue. *)
Lemma inv_upd_box i p b b' : inv mm bm ms bs bl live → bm !! i = Some p → bs !! p = Some b →
  b_id b' = b_id b → b_lock b' = None → nmsg b' = nmsg b → msg_ls b' = msg_ls b →
  inv mm bm ms (<[p := b']> bs) bl live.
Proof.
  intros HI Hi Hp Hid Hl Hn Hls. destruct HI as [H1 H2 H3 H4 H5 H6 H7].
  assert (∀ q x, <[p:=b']> bs !! q = Some x → ∃ y, bs !! q = Some y ∧ msg_ls x = msg_ls y) as Hc.
  { intros q x Hq. destruct (decide (q = p)) as [->|].
    - rewrite lookup_insert_eq in Hq. naive_solver.
    - rewrite lookup_insert_ne in Hq by done. eauto. }
  split; [done| | | | | |set_unfold; naive_solver].
  - intros j q Hj. destruct (H2 j q Hj) as (x & Hx & Hr). destruct (decide (q = p)) as [->|].
    + simplify_eq. exists b'. rewrite lookup_insert_eq, Hid, Hn, Hls. naive_solver.
    + exists x. by rewrite lookup_insert_ne.
  - intros j q x y Hj Hq. destruct (Hc _ _ Hq) as (z & Hz & ->). eauto.
  - intros j q x j' q' x' y Hj Hq Hy Hj' Hq' Hy'.
    destruct (Hc _ _ Hq) as (z & Hz & Hzl). destruct (Hc _ _ Hq') as (z' & Hz' & Hzl').
    rewrite Hzl in Hy. rewrite Hzl' in Hy'. eauto.
  - intros j q m Hj Hm Hs. destruct (H5 j q m Hj Hm Hs) as (k & x & y & Hk & Hx & Hy).
    destruct (decide (x = p)) as [->|].
    + simplify_eq. exists k, p, b'. by rewrite lookup_insert_eq, Hls.
    + exists k, x, y. by rewrite lookup_insert_ne.
  - intros q [Hq|[Hq|Hq]]; [by apply H6; left| |by apply H6; right; right].
    apply H6; right; left.
    destruct (decide (q = p)) as [->|]; [by eauto|]. by rewrite lookup_insert_ne in Hq.
Qed.
End inv.

(** A list of distinct addresses is shorter than the address space. *)
Lemma NoDup_bounded (l : list Z) : NoDup l → (∀ x, x ∈ l → 0 < x < W32) →
  Z.of_nat (length l) < W32.
Proof.
  intros Hnd Hl. assert (l ⊆+ seqZ 1 (W32 - 1)) as Hs.
  { apply NoDup_submseteq; [done|]. intros x Hx%Hl. apply elem_of_seqZ. lia. }
  apply submseteq_length in Hs. rewrite length_seqZ in Hs. unfold W32 in *. lia.
Qed.

Lemma inv_queue_live mm bm ms bs bl live i p b q : inv mm bm ms bs bl live →
  bm !! i = Some p → bs !! p = Some b → q ∈ msg_ls b → 0 < q < W32.
Proof.
  intros HI Hi Hp Hq. apply (inv_addr _ _ _ _ _ _ HI), (inv_live _ _ _ _ _ _ HI). left.
  destruct (inv_queued _ _ _ _ _ _ HI _ _ _ _ Hi Hp Hq) as (m & ? & _). eauto.
Qed.

(** Queueing, taking out and deleting. *)
Section queue.
Context {mm bm : gmap Z Z} {ms : gmap Z msg_t} {bs : gmap Z msgbox_t}.
Context {bl : gmap Z (list Z)} {live : gset Z}.

(** What a message keeps when it is sent or received. *)
Definition same_msg (m m' : msg_t) : Prop :=
  m_id m' = m_id m ∧ m_lock m' = None ∧ m_addr m' = m_addr m ∧ m_size m' = m_size m.

(** A box and a message updated together; [q] is the message, and every queue but
    the box's is as before. *)
Lemma inv_move i p j q b b' m m' : inv mm bm ms bs bl live →
  bm !! i = Some p → bs !! p = Some b → mm !! j = Some q → ms !! q = Some m →
  b_id b' = b_id b → b_lock b' = None → nmsg b' = Z.of_nat (length (msg_ls b')) →
  NoDup (msg_ls b') → same_msg m m' →
  (∀ x, x ∈ msg_ls b' ↔ if bool_decide (x = q) then m_state m' = MSG_SENDED else x ∈ msg_ls b) →
  (∀ k r c, bm !! k = Some r → bs !! r = Some c → q ∈ msg_ls c → r = p) →
  inv mm bm (<[q := m']> ms) (<[p := b']> bs) bl live.
Proof.
  intros HI Hi Hp Hj Hq Hid Hlk Hn Hnd (Hmid & Hmlk & Hmad & Hmsz) Hls Hnq.
  destruct HI as [H1 H2 H3 H4 H5 H6 H7].
  assert (∀ k r c x, bm !! k = Some r → <[p:=b']> bs !! r = Some c → x ∈ msg_ls c → x ≠ q →
    ∃ c0, bs !! r = Some c0 ∧ x ∈ msg_ls c0) as Hold.
  { intros k r c x Hk Hr Hx Hxq. destruct (decide (r = p)) as [->|Hrp].
    - rewrite lookup_insert_eq in Hr. simplify_eq. apply Hls in Hx.
      rewrite bool_decide_eq_false_2 in Hx by done. eauto.
    - rewrite lookup_insert_ne in Hr by done. eauto. }
  assert (∀ k r c, bm !! k = Some r → <[p:=b']> bs !! r = Some c → q ∈ msg_ls c →
    r = p ∧ m_state m' = MSG_SENDED) as Hnew.
  { intros k r c Hk Hr Hx. destruct (decide (r = p)) as [->|Hrp].
    - rewrite lookup_insert_eq in Hr. simplify_eq. apply Hls in Hx.
      by rewrite bool_decide_eq_true_2 in Hx.
    - rewrite lookup_insert_ne in Hr by done. exfalso. by eapply Hrp, Hnq. }
  assert (m_id m = j) as Hjm by (destruct (H1 _ _ Hj) as (? & ? & ? & _); by simplify_eq).
  split.
  - intros k r Hk. destruct (H1 _ _ Hk) as (x & Hx & Hr). destruct (decide (r = q)) as [->|].
    + simplify_eq. exists m'. rewrite lookup_insert_eq, Hmid, Hmad, Hmsz. naive_solver.
    + exists x. by rewrite lookup_insert_ne.
  - intros k r Hk. destruct (decide (r = p)) as [->|].
    + exists b'. rewrite lookup_insert_eq, Hid.
      destruct (H2 _ _ Hk) as (x & Hx & Hr). simplify_eq. naive_solver.
    + rewrite lookup_insert_ne by done. eauto.
  - intros k r c x Hk Hr Hx. destruct (decide (x = q)) as [->|Hxq].
    + exists m'. rewrite lookup_insert_eq, Hmid, Hjm. destruct (Hnew _ _ _ Hk Hr Hx). naive_solver.
    + destruct (Hold _ _ _ _ Hk Hr Hx Hxq) as (c0 & Hc0 & Hx0).
      destruct (H3 _ _ _ _ Hk Hc0 Hx0) as (m0 & ? & ?). exists m0. by rewrite lookup_insert_ne.
  - intros k r c k' r' c' x Hk Hr Hx Hk' Hr' Hx'. destruct (decide (x = q)) as [->|Hxq].
    + destruct (Hnew _ _ _ Hk Hr Hx) as [-> _]. by destruct (Hnew _ _ _ Hk' Hr' Hx') as [-> _].
    + destruct (Hold _ _ _ _ Hk Hr Hx Hxq) as (c0 & Hc0 & Hx0).
      destruct (Hold _ _ _ _ Hk' Hr' Hx' Hxq) as (c1 & Hc1 & Hx1). eauto.
  - intros k x m0 Hk Hx Hs. destruct (decide (x = q)) as [->|Hxq].
    + rewrite lookup_insert_eq in Hx. simplify_eq. exists i, p, b'.
      rewrite lookup_insert_eq. split_and!; [done..|]. apply Hls.
      by rewrite bool_decide_eq_true_2.
    + rewrite lookup_insert_ne in Hx by done.
      destruct (H5 _ _ _ Hk Hx Hs) as (l & r & c & Hl & Hr & Hc).
      destruct (decide (r = p)) as [->|Hrp].
      * simplify_eq. exists i, p, b'. rewrite lookup_insert_eq. split_and!; [done..|]. apply Hls.
        by rewrite bool_decide_eq_false_2.
      * exists l, r, c. by rewrite lookup_insert_ne.
  - intros r [Hr|[Hr|Hr]]; [| |by apply H6; right; right].
    + apply H6; left. destruct (decide (r = q)) as [->|]; [by eauto|].
      by rewrite lookup_insert_ne in Hr.
    + apply H6; right; left. destruct (decide (r = p)) as [->|]; [by eauto|].
      by rewrite lookup_insert_ne in Hr.
  - done.
Qed.

(** A message outside every queue leaves the table; its structure may change. *)
Lemma inv_del_msg i p m m' : inv mm bm ms bs bl live → mm !! i = Some p → ms !! p = Some m →
  m_state m ≠ MSG_SENDED → inv (delete i mm) bm (<[p := m']> ms) bs bl live.
Proof.
  intros HI Hi Hp Hs. assert (∀ j, delete i mm !! j ≠ Some p) as Hno.
  { intros j Hj. apply lookup_delete_Some in Hj as [Hne Hj]. apply Hne.
    by eapply (inv_msg_inj _ _ _ HI). }
  destruct HI as [H1 H2 H3 H4 H5 H6 H7].
  assert (∀ j q, delete i mm !! j = Some q → q ≠ p) as Hqp.
  { intros j q Hj ->. by eapply Hno. }
  split; [|done| |done| | |done].
  - intros j q Hj. pose proof (Hqp _ _ Hj). apply lookup_delete_Some in Hj as [_ Hj].
    rewrite lookup_insert_ne by done. eauto.
  - intros j q b x Hj Hq Hx. destruct (H3 _ _ _ _ Hj Hq Hx) as (m0 & Hm0 & Hs0 & Hx0).
    assert (x ≠ p) as Hxp by naive_solver. exists m0. rewrite lookup_insert_ne by done.
    split_and!; [done..|]. rewrite lookup_delete_ne; [done|]. intros ->. congruence.
  - intros j q m0 Hj Hq. pose proof (Hqp _ _ Hj). apply lookup_delete_Some in Hj as [_ Hj].
    rewrite lookup_insert_ne in Hq by done. eauto.
  - intros q [Hq|Hq]; [|by apply H6; right]. apply H6; left.
    destruct (decide (q = p)) as [->|]; [by eauto|]. by rewrite lookup_insert_ne in Hq.
Qed.

(** An empty box leaves the table. *)
Lemma inv_del_box i p b b' : inv mm bm ms bs bl live → bm !! i = Some p → bs !! p = Some b →
  msg_ls b = [] → inv mm (delete i bm) ms (<[p := b']> bs) bl live.
Proof.
  intros HI Hi Hp Hs. assert (∀ j, delete i bm !! j ≠ Some p) as Hno.
  { intros j Hj. apply lookup_delete_Some in Hj as [Hne Hj]. apply Hne.
    by eapply (inv_box_inj _ _ _ HI). }
  destruct HI as [H1 H2 H3 H4 H5 H6 H7].
  assert (∀ j q, delete i bm !! j = Some q → bm !! j = Some q ∧ q ≠ p) as Hqp.
  { intros j q Hj. split; [by apply lookup_delete_Some in Hj as [_ ?]|]. intros ->. by eapply Hno. }
  split; [done| | | | | |set_unfold; naive_solver].
  - intros j q [Hj Hq]%Hqp. rewrite lookup_insert_ne by done. eauto.
  - intros j q c x [Hj Hq]%Hqp Hc. rewrite lookup_insert_ne in Hc by done. eauto.
  - intros j q c j' q' c' x [Hj Hq]%Hqp Hc Hx [Hj' Hq']%Hqp Hc'.
    rewrite lookup_insert_ne in Hc, Hc' by done. eauto.
  - intros j q m Hj Hq Hms. destruct (H5 _ _ _ Hj Hq Hms) as (k & r & c & Hk & Hr & Hc).
    assert (r ≠ p).
    { intros ->. simplify_eq. rewrite Hs in Hc. by apply elem_of_nil in Hc. }
    exists k, r, c. rewrite lookup_insert_ne by done. split_and!; [|done..].
    rewrite lookup_delete_ne; [done|]. intros ->. congruence.
  - intros q [Hq|[Hq|Hq]]; [by apply H6; left| |by apply H6; right; right].
    apply H6; right; left. destruct (decide (q = p)) as [->|]; [by eauto|].
    by rewrite lookup_insert_ne in Hq.
Qed.
End queue.

(** ** Copies *)
(** ** The operations *)
Section ops.
Context {A K : Type} `{IdMapLaws A} `{KmallocLaws K}.
Context (t pr junk : Z).
Abbreviation st := (ipc A K).
Implicit Types s : st.

(** The tables, the allocators that hold their numbers, the invariant. *)
Record ipc_ok (mm bm : gmap Z Z) s : Prop := {
  ok_ms : id_rep (msg_alct s) mm;
  ok_bs : id_rep (box_alct s) bm;
  ok_inv : inv mm bm (msgs s) (boxes s) (blocks s) (km_live (kheap s));
}.

Lemma st_ext s s' : msgs s = msgs s' → boxes s = boxes s' → blocks s = blocks s' →
  msg_alct s = msg_alct s' → box_alct s = box_alct s' → kheap s = kheap s' →
  umem s = umem s' → woken s = woken s' → s = s'.
Proof. destruct s, s'. simpl. by intros -> -> -> -> -> -> -> ->. Qed.

Lemma set_msgs_back s p m m' : msgs s !! p = Some m →
  set_msgs (insert p m) (set_msgs (insert p m') s) = s.
Proof. destruct s. unfold set_msgs. simpl. intros Hm. by rewrite insert_insert_eq, insert_id. Qed.
Lemma set_boxes_back s p b b' : boxes s !! p = Some b →
  set_boxes (insert p b) (set_boxes (insert p b') s) = s.
Proof. destruct s. unfold set_boxes. simpl. intros Hm. by rewrite insert_insert_eq, insert_id. Qed.
Lemma set_msgs_twice s p m m' :
  set_msgs (insert p m) (set_msgs (insert p m') s) = set_msgs (insert p m) s.
Proof. destruct s. unfold set_msgs. simpl. by rewrite insert_insert_eq. Qed.
Lemma set_boxes_twice s p m m' :
  set_boxes (insert p m) (set_boxes (insert p m') s) = set_boxes (insert p m) s.
Proof. destruct s. unfold set_boxes. simpl. by rewrite insert_insert_eq. Qed.

Lemma run_msg_at s p m : msgs s !! p = Some m → msg_at p s = Ret m s.
Proof. intros Hm. unfold msg_at, bind, get, deref. by rewrite Hm. Qed.
Lemma run_box_at s p m : boxes s !! p = Some m → box_at p s = Ret m s.
Proof. intros Hm. unfold box_at, bind, get, deref. by rewrite Hm. Qed.
Lemma run_upd_msg s p m f : msgs s !! p = Some m →
  upd_msg p f s = Ret tt (set_msgs (insert p (f m)) s).
Proof. intros Hm. unfold upd_msg, bind. by rewrite (run_msg_at _ _ _ Hm). Qed.
Lemma run_upd_box s p m f : boxes s !! p = Some m →
  upd_box p f s = Ret tt (set_boxes (insert p (f m)) s).
Proof. intros Hm. unfold upd_box, bind. by rewrite (run_box_at _ _ _ Hm). Qed.
Lemma run_lock_msg s p m : msgs s !! p = Some m → m_lock m = None →
  lock_msg t p s = Ret tt (set_msgs (insert p (ms_lock (Some t) m)) s).
Proof.
  intros Hm Hl. unfold lock_msg, bind. rewrite (run_msg_at _ _ _ Hm), Hl. simpl.
  by rewrite (run_upd_msg _ _ _ _ Hm).
Qed.
Lemma run_unlock_msg s p m : msgs s !! p = Some m → m_lock m = Some t →
  unlock_msg t p s = Ret tt (set_msgs (insert p (ms_lock None m)) s).
Proof.
  intros Hm Hl. unfold unlock_msg, bind, drop_lock. rewrite (run_msg_at _ _ _ Hm), Hl.
  rewrite bool_decide_eq_true_2 by done. simpl. by rewrite (run_upd_msg _ _ _ _ Hm).
Qed.
Lemma run_lock_box s p m : boxes s !! p = Some m → b_lock m = None →
  lock_box t p s = Ret tt (set_boxes (insert p (bx_lock (Some t) m)) s).
Proof.
  intros Hm Hl. unfold lock_box, bind. rewrite (run_box_at _ _ _ Hm), Hl. simpl.
  by rewrite (run_upd_box _ _ _ _ Hm).
Qed.
Lemma run_unlock_box s p m : boxes s !! p = Some m → b_lock m = Some t →
  unlock_box t p s = Ret tt (set_boxes (insert p (bx_lock None m)) s).
Proof.
  intros Hm Hl. unfold unlock_box, bind, drop_lock. rewrite (run_box_at _ _ _ Hm), Hl.
  rewrite bool_decide_eq_true_2 by done. simpl. by rewrite (run_upd_box _ _ _ _ Hm).
Qed.

Lemma run_find_msg mm s i : id_rep (msg_alct s) mm →
  on_msg_alct (id_find i) s =
  Ret (match mm !! i with Some p => (E_OK, Some p) | None => (E_NOTFOUND, None) end) s.
Proof.
  intros Hr. pose proof (id_find_ok _ _ i Hr) as Hf. apply wp_Ret in Hf as (r & a & Hf & -> & ->).
  unfold on_msg_alct, zoom. rewrite Hf. by destruct s.
Qed.
Lemma run_find_box bm s i : id_rep (box_alct s) bm →
  on_box_alct (id_find i) s =
  Ret (match bm !! i with Some p => (E_OK, Some p) | None => (E_NOTFOUND, None) end) s.
Proof.
  intros Hr. pose proof (id_find_ok _ _ i Hr) as Hf. apply wp_Ret in Hf as (r & a & Hf & -> & ->).
  unfold on_box_alct, zoom. rewrite Hf. by destruct s.
Qed.

(** One step of known result. *)
Lemma run_to {B C} (c : M st B) (k : B → M st C) s b s' r :
  c s = Ret b s' → k b s' = r → bind c k s = r.
Proof. intros Hc <-. unfold bind. by rewrite Hc. Qed.

(** What [msg_send] leaves: the message queued last, the receiver woken if it
    waited. *)
Definition sent (q p : Z) (m : msg_t) (b : msgbox_t) s : st :=
  set_woken (woken s ++ if bool_decide (b_state b = BOX_RCV_BLK) then [blk_thread b] else [])
    (set_msgs (insert q (ms_state MSG_SENDED m))
      (set_boxes (insert p (Box (b_id b) (b_state b) (add32 (nmsg b) 1) (b_owner b)
        (if bool_decide (b_state b = BOX_RCV_BLK) then 0 else blk_thread b) None
        (msg_ls b ++ [q]))) s)).

Lemma run_send_locked s q p m b : msgs s !! q = Some m → boxes s !! p = Some b →
  send_locked pr q p s =
  if negb ((m_owner m =? pr) && bool_decide (m_state m = MSG_UNSEND)) then Ret E_INVAL s else
  if bool_decide (b_state b = BOX_RCV_BLK) && (blk_thread b =? 0) then Fault else
  Ret E_OK (set_woken (woken s ++ if bool_decide (b_state b = BOX_RCV_BLK) then [blk_thread b] else [])
    (set_msgs (insert q (ms_state MSG_SENDED m))
      (set_boxes (insert p (Box (b_id b) (b_state b) (add32 (nmsg b) 1) (b_owner b)
        (if bool_decide (b_state b = BOX_RCV_BLK) then 0 else blk_thread b) (b_lock b)
        (msg_ls b ++ [q]))) s))).
Proof.
  intros Hm Hb. unfold send_locked. eapply run_to; [by apply run_msg_at|].
  destruct (m_owner m =? pr); simpl; [|done].
  destruct (m_state m) eqn:Es; [|done..]. simpl.
  eapply run_to; [by apply run_upd_box|].
  eapply run_to; [apply run_upd_box; simpl; apply lookup_insert_eq|]. rewrite set_boxes_twice.
  eapply run_to; [apply run_box_at; simpl; apply lookup_insert_eq|]. simpl.
  destruct (b_state b) eqn:Eb; simpl.
  - eapply run_to; [done|]. eapply run_to; [by apply run_upd_msg|].
    unfold ret. f_equal. destruct s. simpl. unfold bx_nmsg, bx_ls, set_woken. simpl.
    by rewrite app_nil_r, Eb.
  - destruct (blk_thread b =? 0) eqn:Ez; unfold schd_run; [by rewrite Ez|]. rewrite Ez.
    eapply run_to; [eapply run_to; [done|]; apply run_upd_box; simpl; apply lookup_insert_eq|].
    eapply run_to; [by apply run_upd_msg|].
    unfold ret. f_equal. destruct s. simpl. unfold bx_nmsg, bx_ls, set_woken, set_boxes, set_msgs.
    simpl. by rewrite insert_insert_eq, Eb.
Qed.

Lemma set_msgs_boxes s f g : set_msgs f (set_boxes g s) = set_boxes g (set_msgs f s).
Proof. done. Qed.

(** [msg_send] on every branch. *)
Definition send_result (mm bm : gmap Z Z) s (bi mi : Z) : outcome st Z :=
  match mm !! mi, bm !! bi with
  | Some q, Some p =>
      match msgs s !! q, boxes s !! p with
      | Some m, Some b =>
          if negb ((m_owner m =? pr) && bool_decide (m_state m = MSG_UNSEND)) then Ret E_INVAL s else
          if bool_decide (b_state b = BOX_RCV_BLK) && (blk_thread b =? 0) then Fault else
          Ret E_OK (sent q p m b s)
      | _, _ => Fault
      end
  | _, _ => Ret E_NOTFOUND s
  end.

Lemma run_msg_send mm bm s bi mi : ipc_ok mm bm s → msg_send t pr bi mi s = send_result mm bm s bi mi.
Proof.
  intros [Hmm Hbm HI]. unfold msg_send, send_result.
  eapply run_to; [by apply run_find_msg|].
  destruct (mm !! mi) as [q|] eqn:Eq; [|done].
  destruct (inv_msg _ _ _ _ _ _ HI _ _ Eq) as (m & Hm & _ & Hml & _). rewrite Hm.
  eapply run_to; [by apply run_lock_msg|].
  eapply run_to; [by apply run_find_box|].
  destruct (bm !! bi) as [p|] eqn:Ep.
  2:{ eapply run_to; [apply run_unlock_msg; [apply lookup_insert_eq|done]|].
      unfold ret. f_equal. destruct m. simpl in *. subst. by apply set_msgs_back. }
  destruct (inv_box _ _ _ _ _ _ HI _ _ Ep) as (b & Hb & _ & Hbl & _). rewrite Hb.
  eapply run_to; [by apply run_lock_box|].
  set (ml := ms_lock (Some t) m). set (bl := bx_lock (Some t) b).
  set (s1 := set_boxes (insert p bl) (set_msgs (insert q ml) s)).
  assert (msgs s1 !! q = Some ml) as Hm1 by apply lookup_insert_eq.
  assert (boxes s1 !! p = Some bl) as Hb1 by apply lookup_insert_eq.
  pose proof (run_send_locked _ _ _ _ _ Hm1 Hb1) as Hl. simpl in Hl.
  destruct (negb _) eqn:Ec.
  - eapply run_to; [exact Hl|].
    eapply run_to; [apply run_unlock_box; [exact Hb1|done]|].
    eapply run_to; [apply run_unlock_msg; [exact Hm1|done]|]. unfold ret. f_equal.
    destruct m, b. simpl in *. subst. unfold s1. simpl. rewrite set_boxes_twice.
    unfold ms_lock, bx_lock. simpl. destruct s. unfold set_msgs, set_boxes. simpl in *.
    by rewrite insert_insert_eq, !insert_id.
  - destruct (bool_decide _ && _) eqn:Ew.
    + unfold bind. rewrite Hl. done.
    + eapply run_to; [exact Hl|].
      eapply run_to; [apply run_unlock_box; [apply lookup_insert_eq|done]|].
      eapply run_to; [apply run_unlock_msg; [apply lookup_insert_eq|done]|].
      unfold ret. f_equal. destruct m, b. simpl in *. subst.
      apply st_ext; try done; simpl; by rewrite !insert_insert_eq.
Qed.

(** Box counters count, sent messages arrive. *)
Lemma ok_sent mm bm s bi mi q p m b : ipc_ok mm bm s → mm !! mi = Some q → bm !! bi = Some p →
  msgs s !! q = Some m → boxes s !! p = Some b → m_state m = MSG_UNSEND →
  ipc_ok mm bm (sent q p m b s).
Proof.
  intros [Hmm Hbm HI] Hq Hp Hm Hb Hs. split; [done..|]. simpl.
  destruct (inv_box _ _ _ _ _ _ HI _ _ Hp) as (b' & ? & _ & Hbl & Hn & Hnd). simplify_eq.
  destruct (inv_msg _ _ _ _ _ _ HI _ _ Hq) as (m' & ? & _ & Hml & _). simplify_eq.
  assert (∀ k r c, bm !! k = Some r → boxes s !! r = Some c → q ∉ msg_ls c) as Hnq.
  { intros k r c Hk Hr Hx. destruct (inv_queued _ _ _ _ _ _ HI _ _ _ _ Hk Hr Hx) as (? & ? & ? & _).
    congruence. }
  assert (NoDup (msg_ls b ++ [q])) as Hnd'.
  { apply NoDup_app. split_and!; [done| |apply NoDup_singleton].
    intros x Hx ->%list_elem_of_singleton. by eapply Hnq. }
  apply (inv_move bi p mi q b _ m _ HI); try done; simpl.
  - assert (Z.of_nat (length (msg_ls b ++ [q])) < W32) as Hlt.
    { apply NoDup_bounded; [done|]. intros x [Hx| ->%list_elem_of_singleton]%elem_of_app.
      - by eapply inv_queue_live.
      - apply (inv_addr _ _ _ _ _ _ HI), (inv_live _ _ _ _ _ _ HI). eauto. }
    rewrite length_app in *. simpl in *. unfold add32. rewrite u32_small; unfold is_u32; lia.
  - intros x. rewrite elem_of_app, list_elem_of_singleton. case_bool_decide; naive_solver.
  - intros k r c Hk Hr Hx. exfalso. by eapply Hnq.
Qed.

(** ** Receiving *)
Definition taken (q p : Z) (m : msg_t) (b : msgbox_t) (rest : list Z) s : st :=
  set_msgs (insert q (Msg (m_id m) MSG_RECIEVED (m_addr m) (m_size m) pr (m_lock m)))
    (set_boxes (insert p (Box (b_id b) BOX_RCVABLE (sub32 (nmsg b) 1) (b_owner b) (blk_thread b)
      None rest)) s).

Definition waiting (p : Z) (b : msgbox_t) s : st :=
  set_boxes (insert p (Box (b_id b) BOX_RCV_BLK (nmsg b) (b_owner b) t None (msg_ls b))) s.

Lemma run_take_msg s p b q rest m : boxes s !! p = Some b → msg_ls b = q :: rest →
  msgs s !! q = Some m → m_state m = MSG_SENDED →
  take_msg pr p s = Ret (m_id m)
    (set_msgs (insert q (Msg (m_id m) MSG_RECIEVED (m_addr m) (m_size m) pr (m_lock m)))
      (set_boxes (insert p (Box (b_id b) (b_state b) (sub32 (nmsg b) 1) (b_owner b)
        (blk_thread b) (b_lock b) rest)) s)).
Proof.
  intros Hb Hl Hm Hs. unfold take_msg. eapply run_to; [by apply run_box_at|]. rewrite Hl.
  eapply run_to; [by apply run_upd_box|].
  eapply run_to; [apply run_msg_at, Hm|]. rewrite bool_decide_eq_true_2 by done.
  eapply run_to; [done|].
  eapply run_to; [apply run_upd_msg, Hm|].
  eapply run_to; [apply run_upd_box; simpl; apply lookup_insert_eq|].
  eapply run_to; [apply run_upd_msg; simpl; apply lookup_insert_eq|].
  unfold ret. f_equal. apply st_ext; try done; simpl; by rewrite insert_insert_eq.
Qed.

(** From the wake-up, or with a message there, to the return. *)
Definition recv_rest (p : Z) s : outcome st (Z * option Z) :=
  match boxes s !! p with
  | Some b =>
      if nmsg b =? 0 then Panic else
      match msg_ls b with
      | q :: rest =>
          match msgs s !! q with
          | Some m => Ret (E_OK, Some (m_id m)) (taken q p m b rest s)
          | None => Fault
          end
      | [] => Fault
      end
  | None => Fault
  end.

(** [msg_recieve] on every branch; the state others leave is found unlocked. *)
Definition recv_result (bm : gmap Z Z) s (others : M st unit) (bi blk : Z) :
    outcome st (Z * option Z) :=
  match bm !! bi with
  | None => Fault
  | Some p =>
      match boxes s !! p with
      | None => Fault
      | Some b =>
          if negb (b_owner b =? pr) then Ret (E_INVAL, None) s else
          if bool_decide (b_state b = BOX_RCV_BLK) then Ret (E_BLOCK, None) s else
          if nmsg b =? 0 then
            if blk =? 0 then Ret (E_NOMSG, None) s
            else match others (waiting p b s) with
                 | Ret _ s' => recv_rest p s'
                 | Panic => Panic
                 | Fault => Fault
                 | Hang => Hang
                 end
          else recv_rest p s
      end
  end.

(** The end of [msg_recieve], the box locked. *)
Lemma run_recv_rest mm bm s bi p b : ipc_ok mm bm s → bm !! bi = Some p → boxes s !! p = Some b →
  bind (box_at p) (λ b, bind (assert_ (0 <? nmsg b)) (λ _, bind (take_msg pr p) (λ i,
    bind (unlock_box t p) (λ _, ret (E_OK, Some i)))))
    (set_boxes (insert p (Box (b_id b) BOX_RCVABLE (nmsg b) (b_owner b) (blk_thread b)
      (Some t) (msg_ls b))) s) = recv_rest p s.
Proof.
  intros [Hmm Hbm HI] Hp Hb. destruct (inv_box _ _ _ _ _ _ HI _ _ Hp) as (b' & ? & _ & Hbl & Hn & _).
  simplify_eq. unfold recv_rest. rewrite Hb.
  eapply run_to; [apply run_box_at, lookup_insert_eq|]. simpl.
  destruct (nmsg b =? 0) eqn:E0.
  { replace (0 <? nmsg b) with false by lia. done. }
  replace (0 <? nmsg b) with true by lia. eapply run_to; [done|].
  destruct (msg_ls b) as [|q rest] eqn:El; [simpl in *; rewrite Hn in E0; done|].
  destruct (inv_queued _ _ _ _ _ _ HI _ _ _ q Hp Hb) as (m & Hm & Hs & _); [rewrite El; left|].
  rewrite Hm.
  eapply run_to; [eapply run_take_msg; [apply lookup_insert_eq|done|exact Hm|done]|].
  eapply run_to; [apply run_unlock_box; [apply lookup_insert_eq|done]|].
  unfold ret. f_equal. apply st_ext; try done; simpl; by rewrite !insert_insert_eq.
Qed.

Definition locked (p : Z) (b : msgbox_t) s : st := set_boxes (insert p (bx_lock (Some t) b)) s.

(** What [msg_recieve] has found when it does not wait, or starts to. *)
Definition enter_result (bm : gmap Z Z) s (bi blk : Z) : outcome st ((Z * option Z) + (Z * bool)) :=
  match bm !! bi with
  | None => Fault
  | Some p =>
      match boxes s !! p with
      | None => Fault
      | Some b =>
          if negb (b_owner b =? pr) then Ret (inl (E_INVAL, None)) s else
          if bool_decide (b_state b = BOX_RCV_BLK) then Ret (inl (E_BLOCK, None)) s else
          if nmsg b =? 0 then
            if blk =? 0 then Ret (inl (E_NOMSG, None)) s else Ret (inr (p, true)) (waiting p b s)
          else Ret (inr (p, false)) (locked p b s)
      end
  end.

Lemma run_recieve_enter mm bm s bi blk : ipc_ok mm bm s → recieve_enter t pr bi blk s = enter_result bm s bi blk.
Proof.
  intros Hok. pose proof Hok as [Hmm Hbm HI]. unfold recieve_enter, enter_result.
  eapply run_to; [by apply run_find_box|].
  destruct (bm !! bi) as [p|] eqn:Ep.
  2:{ unfold unlock_box, box_at, bind, get, deref. destruct (boxes s !! 0) eqn:E0; [|done].
      assert (0 < 0 < W32); [|lia]. apply (inv_addr _ _ _ _ _ _ HI), (inv_live _ _ _ _ _ _ HI). eauto. }
  destruct (inv_box _ _ _ _ _ _ HI _ _ Ep) as (b & Hb & _ & Hbl & Hn & _). rewrite Hb.
  eapply run_to; [by apply run_lock_box|].
  eapply run_to; [apply run_box_at, lookup_insert_eq|]. cbn [bx_lock b_owner b_state nmsg].
  assert (∀ r : (Z * option Z) + (Z * bool), bind (unlock_box t p) (λ _, ret r)
    (set_boxes (insert p (bx_lock (Some t) b)) s) = Ret r s) as Hout.
  { intros r. eapply run_to; [apply run_unlock_box; [apply lookup_insert_eq|done]|].
    unfold ret. f_equal. destruct b. simpl in *. subst. by apply set_boxes_back. }
  destruct (b_owner b =? pr); [|apply Hout]. simpl.
  destruct (b_state b) eqn:Es; [|apply Hout]. simpl.
  eapply run_to; [done|].
  destruct (nmsg b =? 0) eqn:E0; simpl; [|done].
  destruct (blk =? 0) eqn:Ek; [apply Hout|]. unfold sleep_on.
  unfold bind at 1. unfold bind at 1.
  erewrite run_upd_box by apply lookup_insert_eq. rewrite set_boxes_twice.
  unfold bind at 1. erewrite run_upd_box by apply lookup_insert_eq. rewrite set_boxes_twice.
  erewrite run_unlock_box by (try apply lookup_insert_eq; done).
  by rewrite set_boxes_twice.
Qed.

Lemma run_recieve_locked mm bm s bi p b : ipc_ok mm bm s → bm !! bi = Some p → boxes s !! p = Some b →
  b_state b = BOX_RCVABLE → recieve_leave t pr p false (locked p b s) = recv_rest p s.
Proof.
  intros Hok Ep Hb Es. unfold recieve_leave. eapply run_to; [done|].
  rewrite <- (run_recv_rest mm bm s bi p b Hok Ep Hb). unfold locked, bx_lock. by rewrite Es.
Qed.

Lemma run_recieve_woken mm bm s bi p : ipc_ok mm bm s → bm !! bi = Some p →
  recieve_leave t pr p true s = recv_rest p s.
Proof.
  intros Hok Hp. destruct (inv_box _ _ _ _ _ _ (ok_inv _ _ _ Hok) _ _ Hp) as (b & Hb & _ & Hbl & _).
  unfold recieve_leave, wake_on. eapply run_to.
  { eapply run_to; [by apply run_lock_box|]. by apply run_upd_box, lookup_insert_eq. }
  rewrite set_boxes_twice. exact (run_recv_rest mm bm s bi p b Hok Hp Hb).
Qed.

Lemma run_msg_recieve mm bm s others bi blk : ipc_ok mm bm s →
  (∀ p b s', bm !! bi = Some p → boxes s !! p = Some b → nmsg b = 0 → blk ≠ 0 →
     others (waiting p b s) = Ret tt s' → ∃ mm' bm', ipc_ok mm' bm' s' ∧ bm' !! bi = Some p) →
  msg_recieve t pr others bi blk s = recv_result bm s others bi blk.
Proof.
  intros Hok Hoth. unfold msg_recieve, recv_result.
  unfold bind at 1. rewrite (run_recieve_enter mm bm) by done. unfold enter_result.
  destruct (bm !! bi) as [p|] eqn:Ep; [|done]. destruct (boxes s !! p) as [b|] eqn:Hb; [|done].
  destruct (negb _); [done|]. case_bool_decide as Es; [done|].
  assert (b_state b = BOX_RCVABLE) as Es' by (by destruct (b_state b)). clear Es.
  destruct (nmsg b =? 0) eqn:E0.
  - destruct (blk =? 0) eqn:Ek; [done|]. cbv beta iota. unfold bind at 1.
    destruct (others (waiting p b s)) as [[] s'| | |] eqn:Eo; [|done..].
    destruct (Hoth p b s' eq_refl Hb ltac:(lia) ltac:(lia) Eo) as (mm' & bm' & Hok' & Hp').
    by eapply run_recieve_woken.
  - eapply run_to; [done|]. by eapply run_recieve_locked.
Qed.

Lemma ok_taken mm bm s bi p b q rest m : ipc_ok mm bm s → bm !! bi = Some p →
  boxes s !! p = Some b → msg_ls b = q :: rest → msgs s !! q = Some m →
  ipc_ok mm bm (taken q p m b rest s).
Proof.
  intros [Hmm Hbm HI] Hp Hb Hl Hm. split; [done..|]. simpl.
  destruct (inv_queued _ _ _ _ _ _ HI _ _ _ q Hp Hb) as (m' & ? & Hs & Hq); [rewrite Hl; left|].
  destruct (inv_box _ _ _ _ _ _ HI _ _ Hp) as (b' & ? & _ & Hbl & Hn & Hnd).
  destruct (inv_msg _ _ _ _ _ _ HI _ _ Hq) as (m'' & ? & _ & Hml & _). simplify_eq.
  rewrite Hl in Hn, Hnd. apply NoDup_cons in Hnd as [Hnr Hnd].
  apply (inv_move bi p (m_id m) q b _ m _ HI); try done; simpl.
  - assert (Z.of_nat (length (msg_ls b)) < W32) as Hlt.
    { apply NoDup_bounded; [rewrite Hl; by constructor|]. intros x Hx. by eapply inv_queue_live. }
    rewrite Hl in Hlt. rewrite Hn. cbn [length] in *. unfold sub32.
    rewrite u32_small; unfold is_u32; lia.
  - intros x. rewrite Hl. case_bool_decide; [subst x|]; split; try done; [by right|].
    rewrite elem_of_cons. naive_solver.
  - intros k r c Hk Hr Hx. eapply (inv_one _ _ _ _ _ _ HI k r c bi p b q); try done.
    rewrite Hl. left.
Qed.

Lemma ok_waiting mm bm s bi p b : ipc_ok mm bm s → bm !! bi = Some p → boxes s !! p = Some b →
  ipc_ok mm bm (waiting p b s).
Proof.
  intros [Hmm Hbm HI] Hp Hb. split; [done..|]. simpl. by eapply inv_upd_box.
Qed.

(** ** Reading, deleting, creating *)
Definition readable (m : msg_t) : bool :=
  (m_owner m =? pr) && bool_decide (m_state m = MSG_RECIEVED).

Lemma run_check_read s q m ok : msgs s !! q = Some m →
  check_read pr q ok s = Ret (if readable m && ok m then E_OK else E_INVAL) s.
Proof.
  intros Hm. unfold check_read, readable. eapply run_to; [by apply run_msg_at|].
  destruct (m_owner m =? pr); [|done]. by destruct (m_state m).
Qed.

(** The copy of [msg_read] and what it returns. *)
Definition read_result (mm : gmap Z Z) s (mi cache off sz : Z) : outcome st Z :=
  match mm !! mi with
  | None => Ret E_NOTFOUND s
  | Some q =>
      match msgs s !! q with
      | None => Fault
      | Some m =>
          if negb (readable m && (add32 off sz <=? m_size m)) then Ret E_INVAL s else
          match blocks s !! m_addr m with
          | None => Fault
          | Some l =>
              if Z.of_nat (length l) <? off + sz then Fault else
              match store cache (take (Z.to_nat sz) (drop (Z.to_nat off) l)) (umem s) with
              | Ret _ u => Ret E_OK (set_umem u s)
              | Panic => Panic
              | Fault => Fault
              | Hang => Hang
              end
          end
      end
  end.

Lemma run_msg_read mm bm s mi cache off sz : ipc_ok mm bm s →
  msg_read t pr mi cache off sz s = read_result mm s mi cache off sz.
Proof.
  intros [Hmm Hbm HI]. unfold msg_read, read_result.
  eapply run_to; [by apply run_find_msg|].
  destruct (mm !! mi) as [q|] eqn:Eq; [|done].
  destruct (inv_msg _ _ _ _ _ _ HI _ _ Eq) as (m & Hm & _ & Hml & l & Hl & _). rewrite Hm, Hl.
  eapply run_to; [by apply run_lock_msg|].
  eapply run_to; [apply run_check_read, lookup_insert_eq|].
  change (readable (ms_lock (Some t) m)) with (readable m). cbn [ms_lock m_size].
  destruct (readable m && _); simpl.
  - unfold bind at 1. unfold bind at 1. rewrite (run_msg_at _ _ _ (lookup_insert_eq _ _ _)).
    unfold bind at 1, get at 1. unfold bind at 1, deref. simpl. rewrite Hl. unfold ret at 1.
    destruct (_ <? _); [done|]. unfold bind at 1, ret at 1, on_mem, zoom. simpl.
    destruct (store _ _ _); [|done..].
    eapply run_to; [apply run_unlock_msg; [apply lookup_insert_eq|done]|].
    unfold ret. f_equal. apply st_ext; try done. simpl. rewrite insert_insert_eq.
    apply insert_id. destruct m. simpl in *. by subst.
  - eapply run_to; [done|].
    eapply run_to; [apply run_unlock_msg; [apply lookup_insert_eq|done]|].
    unfold ret. f_equal. destruct m. simpl in *. subst. by apply set_msgs_back.
Qed.

Definition size_result (mm : gmap Z Z) s (mi : Z) : outcome st (Z * option Z) :=
  match mm !! mi with
  | None => Ret (E_NOTFOUND, None) s
  | Some q =>
      match msgs s !! q with
      | None => Fault
      | Some m => Ret (if readable m then (E_OK, Some (m_size m)) else (E_INVAL, None)) s
      end
  end.

Lemma run_msg_size mm bm s mi : ipc_ok mm bm s → msg_size t pr mi s = size_result mm s mi.
Proof.
  intros [Hmm Hbm HI]. unfold msg_size, size_result.
  eapply run_to; [by apply run_find_msg|].
  destruct (mm !! mi) as [q|] eqn:Eq; [|done].
  destruct (inv_msg _ _ _ _ _ _ HI _ _ Eq) as (m & Hm & _ & Hml & _). rewrite Hm.
  eapply run_to; [by apply run_lock_msg|].
  eapply run_to; [apply run_check_read, lookup_insert_eq|].
  change (readable (ms_lock (Some t) m)) with (readable m). rewrite andb_true_r.
  eapply run_to; [apply run_msg_at, lookup_insert_eq|].
  eapply run_to; [apply run_unlock_msg; [apply lookup_insert_eq|done]|].
  unfold ret. f_equal; [by destruct (readable m)|].
  destruct m. simpl in *. subst. by apply set_msgs_back.
Qed.

Definition delmsg_post (mm bm : gmap Z Z) s (mi : Z) (err : Z) s' : Prop :=
  match mm !! mi with
  | None => err = E_NOTFOUND ∧ s' = s
  | Some q => ∃ m, msgs s !! q = Some m ∧
      if (m_owner m =? pr) && bool_decide (m_state m ≠ MSG_SENDED)
      then err = E_OK ∧ ipc_ok (delete mi mm) bm s' ∧ boxes s' = boxes s
      else err = E_INVAL ∧ s' = s
  end.

Lemma wp_msg_delmsg mm bm s mi : ipc_ok mm bm s →
  wp (msg_delmsg t pr mi) (delmsg_post mm bm s mi) s.
Proof.
  intros [Hmm Hbm HI]. unfold msg_delmsg, delmsg_post.
  eapply wp_step; [by apply run_find_msg|].
  destruct (mm !! mi) as [q|] eqn:Eq; [|done].
  destruct (inv_msg _ _ _ _ _ _ HI _ _ Eq) as (m & Hm & Hid & Hml & _).
  eapply wp_step; [by apply run_lock_msg|].
  eapply wp_step; [apply run_msg_at, lookup_insert_eq|]. cbn [ms_lock m_owner m_state m_id].
  destruct (m_owner m =? pr) eqn:Eo; simpl.
  2:{ eapply wp_step; [apply run_unlock_msg; [apply lookup_insert_eq|done]|]. apply wp_ret.
      exists m. split; [done|]. rewrite Eo. split; [done|]. destruct m. simpl in *. subst. by apply set_msgs_back. }
  case_bool_decide as Es.
  { eapply wp_step; [apply run_unlock_msg; [apply lookup_insert_eq|done]|]. apply wp_ret.
    exists m. rewrite bool_decide_eq_false_2 by naive_solver.
    split; [done|]. rewrite Eo. split; [done|]. destruct m. simpl in *. subst. by apply set_msgs_back. }
  apply wp_bind, wp_zoom. simpl. eapply wp_mono; [apply (id_del_ok _ mm), Hmm|].
  intros err a [Ha ->]. rewrite Hid, Eq in *. cbn beta. apply wp_bind, wp_assert. split; [done|].
  apply wp_bind, wp_ret, wp_ret. exists m. rewrite Eo, bool_decide_eq_true_2 by done.
  split; [done|]. split; [done|]. split; [|done].
  split; simpl; [done..|]. by eapply inv_del_msg.
Qed.

Definition delbox_post (mm bm : gmap Z Z) s (bi : Z) (err : Z) s' : Prop :=
  match bm !! bi with
  | None => err = E_NOTFOUND ∧ s' = s
  | Some p => ∃ b, boxes s !! p = Some b ∧
      if (b_owner b =? pr) && bool_decide (b_state b = BOX_RCVABLE) && (nmsg b =? 0)
      then err = E_OK ∧ ipc_ok mm (delete bi bm) s' ∧
           (∀ r, r ≠ p → boxes s' !! r = boxes s !! r)
      else err = E_INVAL ∧ s' = s
  end.

Lemma wp_msg_delbox mm bm s bi : ipc_ok mm bm s →
  wp (msg_delbox t pr bi) (delbox_post mm bm s bi) s.
Proof.
  intros [Hmm Hbm HI]. unfold msg_delbox, delbox_post.
  eapply wp_step; [by apply run_find_box|].
  destruct (bm !! bi) as [p|] eqn:Ep; [|done].
  destruct (inv_box _ _ _ _ _ _ HI _ _ Ep) as (b & Hb & Hid & Hbl & Hn & _).
  eapply wp_step; [by apply run_lock_box|].
  eapply wp_step; [apply run_box_at, lookup_insert_eq|]. cbn [bx_lock b_owner b_state b_id nmsg].
  assert (wp (bind (unlock_box t p) (λ _, ret E_INVAL)) (λ err s', err = E_INVAL ∧ s' = s)
    (set_boxes (insert p (bx_lock (Some t) b)) s)) as Hout.
  { eapply wp_step; [apply run_unlock_box; [apply lookup_insert_eq|done]|]. apply wp_ret.
    split; [done|]. destruct b. simpl in *. subst. by apply set_boxes_back. }
  destruct (b_owner b =? pr) eqn:Eo; simpl.
  2:{ eapply wp_mono; [apply Hout|]. intros err s' Hs. exists b. by rewrite Eo. }
  case_bool_decide as Es.
  { eapply wp_mono; [apply Hout|]. intros err s' Hs. exists b.
    by rewrite Eo, bool_decide_eq_false_2 by congruence. }
  destruct (0 <? nmsg b) eqn:E0.
  { eapply wp_mono; [apply Hout|]. intros err s' Hs. exists b.
    replace (nmsg b =? 0) with false by lia. by rewrite andb_false_r. }
  apply wp_bind, wp_zoom. simpl. eapply wp_mono; [apply (id_del_ok _ bm), Hbm|].
  intros err a [Ha ->]. rewrite Hid, Ep in *. cbn beta. apply wp_bind, wp_assert. split; [done|].
  apply wp_bind, wp_ret, wp_ret. exists b. rewrite Eo, bool_decide_eq_true_2 by (by destruct (b_state b)).
  replace (nmsg b =? 0) with true by lia. simpl.
  split; [done|]. split; [done|]. split; [|intros r Hr'; by rewrite lookup_insert_ne].
  split; simpl; [done..|]. eapply inv_del_box; [done..|]. apply nil_length_inv. lia.
Qed.

Lemma wlp_alloc s sz (Q : Z + Z → st → Prop) :
  (∀ e k, e ≠ E_OK → km_live k = km_live (kheap s) → Q (inl e) (set_kheap k s)) →
  (∀ p k, 0 < p < W32 → p ∉ km_live (kheap s) → km_live k = {[p]} ∪ km_live (kheap s) →
     Q (inr p) (set_kheap k s)) →
  wlp (alloc sz) Q s.
Proof.
  intros He Hp. unfold alloc, wlp, bind, get. destruct (kmalloc sz (kheap s)) as [[e|p] k] eqn:E; simpl.
  - destruct (kmalloc_err _ _ _ _ E). auto.
  - destruct (kmalloc_ok _ _ _ _ E) as (? & ? & ?). auto.
Qed.

Lemma wlp_new_msg mm s p (Q : Z * option Z → st → Prop) : id_rep (msg_alct s) mm →
  (∀ i a, mm !! i = None → id_rep a (<[i := p]> mm) → Q (E_OK, Some i) (set_msg_alct a s)) →
  (∀ e a, e ≠ E_OK → id_rep a mm → Q (e, None) (set_msg_alct a s)) →
  wlp (on_msg_alct (id_new p)) Q s.
Proof.
  intros Hr Hs Hn. apply wlp_zoom. eapply wlp_mono; [by apply id_new_ok|].
  intros [e [i|]] a; simpl; [intros (-> & ? & ?)|intros [? ?]]; auto.
Qed.

Lemma wlp_new_box bm s p (Q : Z * option Z → st → Prop) : id_rep (box_alct s) bm →
  (∀ i a, bm !! i = None → id_rep a (<[i := p]> bm) → Q (E_OK, Some i) (set_box_alct a s)) →
  (∀ e a, e ≠ E_OK → id_rep a bm → Q (e, None) (set_box_alct a s)) →
  wlp (on_box_alct (id_new p)) Q s.
Proof.
  intros Hr Hs Hn. apply wlp_zoom. eapply wlp_mono; [by apply id_new_ok|].
  intros [e [i|]] a; simpl; [intros (-> & ? & ?)|intros [? ?]]; auto.
Qed.

(** What [msg_newmsg] leaves: a message of this process with a private copy of the
    bytes; on an error the tables stand for the same messages. *)
Definition newmsg_post (mm bm : gmap Z Z) s (addr size : Z) (r : Z * option Z) s' : Prop :=
  boxes s' = boxes s ∧ umem s' = umem s ∧
  match snd r with
  | Some i => fst r = E_OK ∧ mm !! i = None ∧ ∃ p a l, ipc_ok (<[i := p]> mm) bm s' ∧
      msgs s' !! p = Some (Msg i MSG_UNSEND a size pr None) ∧ blocks s' !! a = Some l ∧
      fetch addr (Z.to_nat size) (umem s) = Ret l (umem s)
  | None => fst r ≠ E_OK ∧ ipc_ok mm bm s'
  end.

Lemma wlp_msg_newmsg mm bm s addr size : ipc_ok mm bm s → 0 ≤ size →
  wlp (msg_newmsg t pr junk addr size) (newmsg_post mm bm s addr size) s.
Proof.
  intros [Hmm Hbm HI] Hsz. unfold msg_newmsg. apply wlp_bind, wlp_alloc.
  { intros e k He Hk. split; [done|]. split; [done|]. split; [done|].
    split; [exact Hmm|exact Hbm|]. simpl. by rewrite Hk. }
  intros p k Hp Hpl Hk. eapply wlp_step; [done|].
  eapply wlp_step; [apply run_lock_msg; [apply lookup_insert_eq|done]|].
  set (jm := Msg junk MSG_UNSEND junk junk junk None).
  rewrite set_msgs_twice. set (m0 := ms_lock (Some t) jm).
  set (s1 := set_msgs (insert p m0) (set_kheap k s)).
  assert (inv mm bm (msgs s1) (boxes s1) (blocks s1) (km_live (kheap s1))) as HI1.
  { simpl. rewrite Hk. by apply inv_junk_msg. }
  assert (∀ j, mm !! j ≠ Some p) as Hno.
  { intros j Hj. destruct (inv_msg _ _ _ _ _ _ HI _ _ Hj) as (m & Hm & _). apply Hpl.
    apply (inv_live _ _ _ _ _ _ HI). eauto. }
  apply wlp_bind, (wlp_new_msg mm); [done| |].
  2:{ intros e a He Ha. split; [done|]. split; [done|]. split; [done|].
      split; [exact Ha|exact Hbm|exact HI1]. }
  intros i a Hi Ha. cbn beta iota. set (m1 := ms_id i m0).
  eapply wlp_step; [apply run_upd_msg, lookup_insert_eq|].
  apply wlp_bind, wlp_alloc.
  - intros e k' He Hk'. apply wlp_bind, wlp_zoom.
    apply wp_wlp. eapply wp_mono; [apply (id_del_ok _ _ i Ha)|]. intros err a' [Ha' ->].
    rewrite delete_insert_id in Ha' by done.
    unfold wlp, bind, kmfree, ret. split; [done|]. split; [done|]. split; [done|].
    split; [exact Ha'|exact Hbm|]. simpl in *. rewrite insert_insert_eq, Hk', Hk. by apply inv_junk_msg.
  - intros d k' Hd Hdl Hk'. simpl in Hdl, Hk'.
    eapply wlp_step; [apply run_upd_msg, lookup_insert_eq|].
    apply wlp_bind, wlp_zoom. eapply wlp_mono.
    { pose proof (fetch_wlp (umem s) addr (Z.to_nat size)) as Hf. simpl.
      instantiate (1 := λ l m', m' = umem s ∧ length l = Z.to_nat size ∧
        fetch addr (Z.to_nat size) (umem s) = Ret l (umem s)).
      unfold wlp in *. destruct (fetch _ _ _); naive_solver. }
    intros l u (-> & Hl & Hf). cbn beta.
    eapply wlp_step; [done|].
    eapply wlp_step; [apply run_upd_msg, lookup_insert_eq|].
    eapply wlp_step; [apply run_upd_msg, lookup_insert_eq|].
    eapply wlp_step; [apply run_upd_msg, lookup_insert_eq|].
    eapply wlp_step; [apply run_unlock_msg; [apply lookup_insert_eq|done]|].
    unfold wlp, ret. split; [done|]. split; [done|]. cbn [fst snd]. split; [done|]. split; [done|].
    exists p, d, l. split_and!; [|apply lookup_insert_eq|apply lookup_insert_eq|done].
    split; [done|done|]. simpl. rewrite !insert_insert_eq, Hk'.
    apply (inv_block d l) in HI1; [|exact Hdl|done]. simpl in HI1.
    apply (inv_reg_msg i p (Msg i MSG_UNSEND d size pr None) m0 l) in HI1;
      [|done|apply lookup_insert_eq|done..|apply lookup_insert_eq|simpl; lia].
    by rewrite insert_insert_eq in HI1.
Qed.

Definition newbox_post (mm bm : gmap Z Z) s (r : Z * option Z) s' : Prop :=
  match snd r with
  | Some i => fst r = E_OK ∧ bm !! i = None ∧ ∃ p, ipc_ok mm (<[i := p]> bm) s' ∧
      boxes s' = <[p := Box i BOX_RCVABLE 0 pr 0 None []]> (boxes s) ∧ boxes s !! p = None
  | None => fst r ≠ E_OK ∧ ipc_ok mm bm s' ∧
      ∀ i p, bm !! i = Some p → boxes s' !! p = boxes s !! p
  end.

Lemma wlp_msg_newbox mm bm s : ipc_ok mm bm s →
  wlp (msg_newbox t pr junk) (newbox_post mm bm s) s.
Proof.
  intros [Hmm Hbm HI]. unfold msg_newbox. apply wlp_bind, wlp_alloc.
  { intros e k He Hk. split; [done|]. split; [|done].
    split; [exact Hmm|exact Hbm|]. simpl. by rewrite Hk. }
  intros p k Hp Hpl Hk. eapply wlp_step; [done|].
  eapply wlp_step; [apply run_lock_box; [apply lookup_insert_eq|done]|].
  rewrite set_boxes_twice.
  set (m0 := bx_lock (Some t) _).
  set (s1 := set_boxes (insert p m0) (set_kheap k s)).
  assert (inv mm bm (msgs s1) (boxes s1) (blocks s1) (km_live (kheap s1))) as HI1.
  { simpl. rewrite Hk. by apply inv_junk_box. }
  assert (boxes s !! p = None) as Hn.
  { apply eq_None_not_Some. intros Hs. apply Hpl, (inv_live _ _ _ _ _ _ HI). eauto. }
  assert (∀ j, bm !! j ≠ Some p) as Hno.
  { intros j Hj. destruct (inv_box _ _ _ _ _ _ HI _ _ Hj) as (m & Hm & _). congruence. }
  apply wlp_bind, (wlp_new_box bm); [done| |].
  2:{ intros e a He Ha. split; [done|]. split; [split; [exact Hmm|exact Ha|exact HI1]|].
      intros i q Hq. simpl.
      rewrite lookup_insert_ne; [done|]. intros ->. by eapply Hno. }
  intros i a Hi Ha. cbn beta iota.
  do 6 (eapply wlp_step; [apply run_upd_box, lookup_insert_eq|]).
  eapply wlp_step; [apply run_unlock_box; [apply lookup_insert_eq|done]|].
  unfold wlp, ret. unfold newbox_post. cbn [fst snd]. split; [done|]. split; [done|].
  exists p. split_and!; [|simpl; by rewrite !insert_insert_eq|done].
  split; [done|done|]. simpl. rewrite !insert_insert_eq, Hk.
  apply (inv_reg_box i p (Box i BOX_RCVABLE 0 pr 0 None []) m0) in HI1;
    [|done|apply lookup_insert_eq|done..].
  simpl in HI1. by rewrite insert_insert_eq, Hk in HI1.
Qed.
End ops.

(** ** Any calls, from any threads *)

(** The system calls; a receive that waits carries what the others call in the
    meantime, each with its thread and process. *)
Inductive call :=
  | CNewmsg (addr size : Z)
  | CNewbox
  | CSend (box msg : Z)
  | CRecieve (box blk : Z) (during : list (Z * Z * call))
  | CRead (msg cache off size : Z)
  | CSize (msg : Z)
  | CDelmsg (msg : Z)
  | CDelbox (box : Z).

Section calls.
Context {A K : Type} `{IdMapLaws A} `{KmallocLaws K}.
Context (junk : Z).
Abbreviation st := (ipc A K).
Implicit Types s : st.

Definition void {B} (c : M st B) : M st unit := bind c (λ _, ret tt).

(** Arguments are machine words. *)
Fixpoint exec (t pr : Z) (c : call) : M st unit :=
  match c with
  | CNewmsg a n => void (msg_newmsg t pr junk a (u32 n))
  | CNewbox => void (msg_newbox t pr junk)
  | CSend b m => void (msg_send t pr b m)
  | CRecieve b blk during =>
      void (msg_recieve t pr ((fix runs l :=
        match l with [] => ret tt | (t', pr', c') :: l => exec t' pr' c' ;;; runs l end) during) b blk)
  | CRead m a o n => void (msg_read t pr m a (u32 o) (u32 n))
  | CSize m => void (msg_size t pr m)
  | CDelmsg m => void (msg_delmsg t pr m)
  | CDelbox b => void (msg_delbox t pr b)
  end.

Fixpoint runs (l : list (Z * Z * call)) : M st unit :=
  match l with [] => ret tt | (t', pr', c') :: l => exec t' pr' c' ;;; runs l end.

(** A box some thread waits at. *)
Definition blocked s (p : Z) : Prop := ∃ b, boxes s !! p = Some b ∧ b_state b = BOX_RCV_BLK.

Definition tables_kept (bm : gmap Z Z) s s' : Prop := ∃ mm' bm', ipc_ok mm' bm' s' ∧
  ∀ i p, bm !! i = Some p → blocked s p → bm' !! i = Some p ∧ blocked s' p.

Definition keeps (c : M st unit) : Prop := ∀ mm bm s, ipc_ok mm bm s →
  wlp c (λ _ s', tables_kept bm s s') s.

Lemma kept_same mm bm s s' : ipc_ok mm bm s' → boxes s' = boxes s → tables_kept bm s s'.
Proof. intros Hok Hb. exists mm, bm. unfold blocked. by rewrite Hb. Qed.

Lemma kept_trans mm bm s1 s2 (c : M st unit) : ipc_ok mm bm s1 → tables_kept bm s1 s2 → keeps c →
  wlp c (λ _ s', tables_kept bm s1 s') s2.
Proof.
  intros H1' (mm2 & bm2 & Hok2 & H12) Hc. eapply wlp_mono; [by apply (Hc mm2 bm2)|].
  intros _ s3 (mm3 & bm3 & Hok3 & H23). exists mm3, bm3. split; [done|].
  intros i p Hi Hb. destruct (H12 i p Hi Hb). by apply H23.
Qed.

Lemma keeps_unit : keeps (ret tt).
Proof. intros mm bm s Hok. by eapply kept_same. Qed.

Lemma keeps_seq c1 c2 : keeps c1 → keeps c2 → keeps (c1 ;;; c2).
Proof.
  intros Hc1 Hc2 mm bm s Hok. apply wlp_bind. eapply wlp_mono; [by apply (Hc1 mm bm)|].
  intros [] s' Hk. by eapply kept_trans.
Qed.

Lemma keeps_void {B} (c : M st B) :
  (∀ mm bm s, ipc_ok mm bm s → wlp c (λ _ s', tables_kept bm s s') s) → keeps (void c).
Proof. intros Hc mm bm s Hok. apply wlp_bind. by apply (Hc mm bm). Qed.

Lemma wlp_outcome {B} (c : M st B) s r Q : c s = r →
  match r with Ret a s' => Q a s' | _ => True end → wlp c Q s.
Proof. intros <-. done. Qed.

Lemma keeps_send t pr bi mi : keeps (void (msg_send t pr bi mi)).
Proof.
  apply keeps_void. intros mm bm s Hok.
  eapply wlp_outcome; [by eapply run_msg_send|]. unfold send_result.
  destruct (mm !! mi) as [q|] eqn:Eq; [|by eapply kept_same].
  destruct (bm !! bi) as [p|] eqn:Ep; [|by eapply kept_same].
  destruct (msgs s !! q) as [m|] eqn:Em; [|done]. destruct (boxes s !! p) as [b|] eqn:Eb; [|done].
  destruct (negb _) eqn:Ec; [by eapply kept_same|]. destruct (bool_decide (b_state b = BOX_RCV_BLK) && (blk_thread b =? 0)); [done|].
  exists mm, bm. split.
  { eapply ok_sent; try done. destruct (m_state m); [done|..];
      cbn in Ec; by rewrite andb_false_r in Ec. }
  intros i r Hi (c & Hc & Hs). split; [done|]. unfold blocked, sent. simpl.
  destruct (decide (r = p)) as [->|].
  - rewrite lookup_insert_eq. simplify_eq. eauto.
  - rewrite lookup_insert_ne by done. eauto.
Qed.

Lemma kept_recv_rest pr mm bm s0 s p : ipc_ok mm bm s → (∃ i, bm !! i = Some p) →
  (∀ i r, bm !! i = Some r → r ≠ p → blocked s0 r → blocked s r) → ¬ blocked s0 p →
  match recv_rest pr p s with Ret _ s' => tables_kept bm s0 s' | _ => True end.
Proof.
  intros Hok [bi Hp] Hb0 Hnb. unfold recv_rest.
  destruct (boxes s !! p) as [b|] eqn:Eb; [|done]. destruct (_ =? 0); [done|].
  destruct (msg_ls b) as [|q rest] eqn:El; [done|]. destruct (msgs s !! q) as [m|] eqn:Em; [|done].
  exists mm, bm. split; [by eapply ok_taken|]. intros i r Hi Hr. split; [done|].
  destruct (decide (r = p)) as [->|]; [done|]. unfold blocked, taken. simpl.
  rewrite lookup_insert_ne by done. by apply (Hb0 i).
Qed.

Lemma keeps_recieve t pr others bi blk : keeps others →
  keeps (void (msg_recieve t pr others bi blk)).
Proof.
  intros Ho. apply keeps_void. intros mm bm s Hok.
  assert (∀ p b s', bm !! bi = Some p → boxes s !! p = Some b →
    others (waiting t p b s) = Ret tt s' → tables_kept bm (waiting t p b s) s') as Hw.
  { intros p b s' Hp Hb Hr. pose proof (Ho mm bm _ (ok_waiting t _ _ _ _ _ _ Hok Hp Hb)) as Hk.
    unfold wlp in Hk. by rewrite Hr in Hk. }
  assert (∀ p b, blocked (waiting t p b s) p) as Hbw.
  { intros p b. unfold blocked, waiting. simpl. rewrite lookup_insert_eq. eauto. }
  eapply wlp_outcome; [eapply run_msg_recieve; [done|]|].
  { intros p b s' Hp Hb _ _ Hr. destruct (Hw p b s' Hp Hb Hr) as (mm' & bm' & Hok' & Hk).
    exists mm', bm'. split; [done|]. by apply (Hk bi p). }
  unfold recv_result. destruct (bm !! bi) as [p|] eqn:Ep; [|done].
  destruct (boxes s !! p) as [b|] eqn:Eb; [|done].
  destruct (negb _); [by eapply kept_same|]. case_bool_decide as Es; [by eapply kept_same|].
  assert (¬ blocked s p) as Hnb by (intros (? & ? & ?); naive_solver).
  destruct (nmsg b =? 0); [|by eapply kept_recv_rest; eauto].
  destruct (blk =? 0); [by eapply kept_same|].
  destruct (others _) as [[] s'| | |] eqn:Eo; [|done..].
  destruct (Hw p b s' eq_refl Eb Eo) as (mm' & bm' & Hok' & Hk).
  destruct (Hk bi p Ep (Hbw p b)) as [Hp' _].
  pose proof (kept_recv_rest pr mm' bm' s' s' p Hok' (ex_intro _ bi Hp')) as Hr.
  unfold recv_rest in *. destruct (boxes s' !! p) as [b'|] eqn:Eb'; [|done].
  destruct (_ =? 0); [done|]. destruct (msg_ls b') as [|q rest] eqn:El; [done|].
  destruct (msgs s' !! q) as [m|] eqn:Em; [|done]. exists mm', bm'.
  split; [by eapply ok_taken|]. intros i r Hi Hr'.
  assert (r ≠ p) as Hrp by (intros ->; done).
  destruct (Hk i r Hi) as [Hi' Hb']; [unfold blocked, waiting; simpl; by rewrite lookup_insert_ne|].
  split; [done|]. unfold blocked, taken. simpl. by rewrite lookup_insert_ne.
Qed.

Lemma keeps_newmsg t pr a n : keeps (void (msg_newmsg t pr junk a (u32 n))).
Proof.
  apply keeps_void. intros mm bm s Hok. eapply wlp_mono.
  { apply wlp_msg_newmsg; [done|apply u32_range]. }
  intros [e [i|]] s' (Hb & _ & Hp); cbn [fst snd] in Hp.
  - destruct Hp as (_ & _ & p & d & l & Hok' & _). by eapply kept_same.
  - destruct Hp as [_ Hok']. by eapply kept_same.
Qed.

Lemma keeps_newbox t pr : keeps (void (msg_newbox t pr junk)).
Proof.
  apply keeps_void. intros mm bm s Hok. eapply wlp_mono; [by apply wlp_msg_newbox|].
  intros [e [i|]] s' Hp; cbn [newbox_post fst snd] in Hp.
  - destruct Hp as (_ & Hi & p & Hok' & Hb & Hn). exists mm, (<[i:=p]> bm). split; [done|].
    intros j q Hj (b & Hq & Hs). split; [by rewrite lookup_insert_ne by congruence|].
    unfold blocked. rewrite Hb, lookup_insert_ne by congruence. eauto.
  - destruct Hp as (_ & Hok' & Hb). exists mm, bm. split; [done|].
    intros j q Hj (b & Hq & Hs). split; [done|]. unfold blocked. rewrite (Hb j) by done. eauto.
Qed.

Lemma keeps_read t pr mi a o n : keeps (void (msg_read t pr mi a o n)).
Proof.
  apply keeps_void. intros mm bm s Hok. eapply wlp_outcome; [by eapply run_msg_read|].
  unfold read_result. destruct (mm !! mi) as [q|]; [|by eapply kept_same].
  destruct (msgs s !! q) as [m|]; [|done]. destruct (negb _); [by eapply kept_same|].
  destruct (blocks s !! m_addr m); [|done]. destruct (_ <? _); [done|].
  destruct (store _ _ _); [|done..]. apply (kept_same mm bm); [|done].
  destruct Hok. by split.
Qed.

Lemma keeps_size t pr mi : keeps (void (msg_size t pr mi)).
Proof.
  apply keeps_void. intros mm bm s Hok. eapply wlp_outcome; [by eapply run_msg_size|].
  unfold size_result. destruct (mm !! mi) as [q|]; [|by eapply kept_same].
  destruct (msgs s !! q) as [m|]; [|done]. by eapply kept_same.
Qed.

Lemma keeps_delmsg t pr mi : keeps (void (msg_delmsg t pr mi)).
Proof.
  apply keeps_void. intros mm bm s Hok. apply wp_wlp. eapply wp_mono; [by eapply wp_msg_delmsg|].
  intros err s' Hp. unfold delmsg_post in Hp. destruct (mm !! mi) as [q|].
  2:{ destruct Hp as [_ ->]. by eapply kept_same. }
  destruct Hp as (m & _ & Hp). destruct (_ && _).
  - destruct Hp as (_ & Hok' & Hb). by eapply kept_same.
  - destruct Hp as [_ ->]. by eapply kept_same.
Qed.

Lemma keeps_delbox t pr bi : keeps (void (msg_delbox t pr bi)).
Proof.
  apply keeps_void. intros mm bm s Hok. apply wp_wlp. eapply wp_mono; [by eapply wp_msg_delbox|].
  intros err s' Hp. unfold delbox_post in Hp. destruct (bm !! bi) as [p|] eqn:Ep.
  2:{ destruct Hp as [_ ->]. by eapply kept_same. }
  destruct Hp as (b & Hb & Hp). destruct (b_owner b =? pr); [|destruct Hp as [_ ->]; by eapply kept_same].
  destruct (b_state b) eqn:Es; [|destruct Hp as [_ ->]; by eapply kept_same].
  destruct (nmsg b =? 0); [|destruct Hp as [_ ->]; by eapply kept_same].
  destruct Hp as (_ & Hok' & Hr). exists mm, (delete bi bm). split; [done|].
  intros j r Hj (c & Hc & Hs). assert (r ≠ p) as Hrp by (intros ?; subst; congruence).
  split; [rewrite lookup_delete_ne; [done|]; intros ?; subst; congruence|].
  unfold blocked. rewrite Hr by done. eauto.
Qed.

Fixpoint exec_keeps (c : call) : ∀ t pr, keeps (exec t pr c).
Proof.
  intros t pr. destruct c as [a n| |b m|b blk during|m a o n|m|m|b].
  - apply keeps_newmsg.
  - apply keeps_newbox.
  - apply keeps_send.
  - apply keeps_recieve. induction during as [|[[t' pr'] c'] l IH]; [apply keeps_unit|].
    apply keeps_seq; [apply exec_keeps|apply IH].
  - apply keeps_read.
  - apply keeps_size.
  - apply keeps_delmsg.
  - apply keeps_delbox.
Qed.

Lemma runs_keep l : keeps (runs l).
Proof.
  induction l as [|[[t pr] c] l IH]; [apply keeps_unit|].
  apply keeps_seq; [apply exec_keeps|apply IH].
Qed.

(** Before the first call. *)
Definition ipc_empty (a b : A) (k : K) (u : mem) : st := Ipc ∅ ∅ ∅ a b k u [].

Lemma ok_empty a b k u : id_rep a ∅ → id_rep b ∅ → (∀ p, p ∈ km_live k → 0 < p < W32) →
  ipc_ok ∅ ∅ (ipc_empty a b k u).
Proof. intros Ha Hb Hk. split; [done..|]. split; try done; simpl.
  by intros p [[? ?]|[[? ?]|[? ?]]].
Qed.

(** C19: Whatever system calls any threads make, in any order and also while other
    threads wait for messages, the message tables stay consistent between calls:
    every number in use stands for an unlocked structure that carries it, every
    box's counter is the length of its queue, and the SENDED messages are exactly
    the queued ones, each in one box and once. *)
Theorem msg_tables_safe a b k u (l : list (Z * Z * call)) :
  id_rep a ∅ → id_rep b ∅ → (∀ p, p ∈ km_live k → 0 < p < W32) →
  wlp (runs l) (λ _ s', ∃ mm bm, ipc_ok mm bm s') (ipc_empty a b k u).
Proof.
  intros Ha Hb Hk. eapply wlp_mono; [apply (runs_keep l ∅ ∅), ok_empty; done|].
  intros [] s' (mm & bm & Hok & _). eauto.
Qed.

(** C21: [msg_send] on every branch: an unknown number gives E_NOTFOUND, a message
    of another process or one already sent E_INVAL, both with nothing changed and
    nothing left locked; otherwise the message goes to the back of the box's queue,
    becomes SENDED, and a thread waiting at the box is made runnable. A second
    message to a box whose waiting thread has been woken and has not run yet makes
    [schd_run] follow NULL. *)
Theorem msg_send_correct t pr mm bm s bi mi : ipc_ok mm bm s →
  msg_send t pr bi mi s = send_result pr mm bm s bi mi ∧
  match send_result pr mm bm s bi mi with
  | Ret err s' => ipc_ok mm bm s' ∧ (err = E_NOTFOUND ∨ err = E_INVAL → s' = s)
  | Fault => ∃ p b, bm !! bi = Some p ∧ boxes s !! p = Some b ∧
      b_state b = BOX_RCV_BLK ∧ blk_thread b = 0
  | _ => False
  end.
Proof.
  intros Hok. split; [by apply run_msg_send|]. unfold send_result.
  destruct (mm !! mi) as [q|] eqn:Eq; [|by auto]. destruct (bm !! bi) as [p|] eqn:Ep; [|by auto].
  destruct (inv_msg _ _ _ _ _ _ (ok_inv _ _ _ Hok) _ _ Eq) as (m & Hm & _). rewrite Hm.
  destruct (inv_box _ _ _ _ _ _ (ok_inv _ _ _ Hok) _ _ Ep) as (b & Hb & _). rewrite Hb.
  destruct (m_owner m =? pr); [|by auto]. destruct (m_state m) eqn:Es; [|by auto..]. simpl.
  case_bool_decide as Ew; simpl; [|split; [by eapply ok_sent|intros []; done]].
  destruct (blk_thread b =? 0) eqn:E0; [apply Z.eqb_eq in E0; eauto 10|].
  split; [by eapply ok_sent|intros []; done].
Qed.

(** [msg_recieve] on every branch, when what runs while the thread waits keeps
    the tables and the box: a box of another process gives E_INVAL, a box some
    thread already waits at E_BLOCK, an empty box without [is_block] E_NOMSG, each
    with nothing changed; a box with messages gives the oldest one and makes this
    process its owner; an empty box makes the thread wait with the box unlocked and
    marked, and take the oldest message when it resumes. An unknown box number ends
    in unlocking NULL. *)
Theorem msg_recieve_correct t pr mm bm s others bi blk : ipc_ok mm bm s → keeps others →
  msg_recieve t pr others bi blk s = recv_result t pr bm s others bi blk ∧
  wlp (msg_recieve t pr others bi blk) (λ r s', ∃ mm' bm', ipc_ok mm' bm' s' ∧
    match snd r with
    | Some i => fst r = E_OK ∧ ∃ q m, mm' !! i = Some q ∧ msgs s' !! q = Some m ∧
        m_state m = MSG_RECIEVED ∧ m_owner m = pr ∧
        ∀ j p b, bm' !! j = Some p → boxes s' !! p = Some b → q ∉ msg_ls b
    | None => s' = s ∧ (fst r = E_INVAL ∨ fst r = E_BLOCK ∨ fst r = E_NOMSG)
    end) s.
Proof.
  intros Hok Ho.
  assert (∀ p b s', bm !! bi = Some p → boxes s !! p = Some b →
    others (waiting t p b s) = Ret tt s' →
    ∃ mm' bm', ipc_ok mm' bm' s' ∧ bm' !! bi = Some p) as Hw.
  { intros p b s' Hp Hb Hr. pose proof (Ho mm bm _ (ok_waiting t _ _ _ _ _ _ Hok Hp Hb)) as Hk.
    unfold wlp in Hk. rewrite Hr in Hk. destruct Hk as (mm' & bm' & Hok' & Hk).
    exists mm', bm'. split; [done|]. apply (Hk bi p Hp). unfold blocked, waiting. simpl.
    rewrite lookup_insert_eq. eauto. }
  assert (msg_recieve t pr others bi blk s = recv_result t pr bm s others bi blk) as Hr
    by (eapply run_msg_recieve; eauto).
  split; [done|]. eapply wlp_outcome; [exact Hr|]. clear Hr. unfold recv_result.
  destruct (bm !! bi) as [p|] eqn:Ep; [|done]. destruct (boxes s !! p) as [b|] eqn:Eb; [|done].
  destruct (negb _); [by (exists mm, bm; cbn [fst snd]; auto)|]. case_bool_decide; [by (exists mm, bm; cbn [fst snd]; auto)|].
  assert (∀ mm' bm' s2, ipc_ok mm' bm' s2 → bm' !! bi = Some p →
    match recv_rest pr p s2 with
    | Ret r s' => ∃ mm' bm', ipc_ok mm' bm' s' ∧
        match snd r with
        | Some i => fst r = E_OK ∧ ∃ q m, mm' !! i = Some q ∧ msgs s' !! q = Some m ∧
            m_state m = MSG_RECIEVED ∧ m_owner m = pr ∧
            ∀ j p b, bm' !! j = Some p → boxes s' !! p = Some b → q ∉ msg_ls b
        | None => s' = s ∧ (fst r = E_INVAL ∨ fst r = E_BLOCK ∨ fst r = E_NOMSG)
        end
    | _ => True
    end) as Hrest.
  { intros mm' bm' s2 Hok2 Hp2. unfold recv_rest.
    destruct (boxes s2 !! p) as [b2|] eqn:Eb2; [|done]. destruct (_ =? 0); [done|].
    destruct (msg_ls b2) as [|q rest] eqn:El; [done|].
    destruct (msgs s2 !! q) as [m|] eqn:Em; [|done].
    assert (ipc_ok mm' bm' (taken pr q p m b2 rest s2)) as Hok3 by by eapply ok_taken.
    exists mm', bm'. split; [done|]. split; [done|]. cbn [fst snd].
    destruct (inv_queued _ _ _ _ _ _ (ok_inv _ _ _ Hok2) _ _ _ q Hp2 Eb2) as (m' & ? & _ & Hq);
      [rewrite El; left|]. simplify_eq. eexists q, _. split; [done|].
    split; [simpl; apply lookup_insert_eq|]. split; [done|]. split; [done|].
    intros j x c Hj Hc Hx.
    destruct (inv_queued _ _ _ _ _ _ (ok_inv _ _ _ Hok3) _ _ _ q Hj Hc Hx) as (m2 & Hm2 & Hs2 & _).
    simpl in Hm2. rewrite lookup_insert_eq in Hm2. by simplify_eq. }
  destruct (nmsg b =? 0); [|by eapply Hrest].
  destruct (blk =? 0); [by (exists mm, bm; cbn [fst snd]; auto)|].
  destruct (others _) as [[] s'| | |] eqn:Eo; [|done..].
  destruct (Hw p b s' eq_refl Eb Eo) as (mm' & bm' & Hok' & Hp'). by eapply Hrest.
Qed.
End calls.
