(* ===== verification/MsgTrip.v ===== *)
(** * From one process to another: the bytes of a message, and concrete runs

    The round trip of a message through new, send, receive and read, and the runs
    on which the theorems of MsgSpec.v are applied. *)
From S2P Require Import Prelude Kmalloc IdxAlct IdMap Cstring Words Msg MsgSpec.

Section trip.
Context {A K : Type} `{IdMapLaws A} `{KmallocLaws K}.
Context (junk : Z).
Implicit Types s : ipc A K.

(** A buffer of [n] bytes of user memory at [a]. *)
Definition room (u : gmap Z Z) (a n : Z) : Prop := ∀ k, 0 ≤ k < n → is_Some (u !! (a + k)).

(** C20: What one process puts into a message another gets out: when [msg_newmsg]
    has made a message of the bytes at [addr] and a box of the receiver is empty and
    nobody waits at it, sending the message there, receiving from the box and
    reading the message at offset 0 all succeed, and the receiver's buffer holds
    the sender's bytes, whatever the sender has since done with its own copy. *)
Theorem msg_round_trip t1 pr1 t2 pr2 others mm bm s bi p b addr l i s1 u cache :
  ipc_ok mm bm s → bm !! bi = Some p → boxes s !! p = Some b → b_owner b = pr2 →
  b_state b = BOX_RCVABLE → msg_ls b = [] →
  holds (umem s) addr l → 0 ≤ addr → addr + Z.of_nat (length l) ≤ W32 →
  Z.of_nat (length l) < W32 →
  Forall (λ b, 0 ≤ b < 256) l →
  msg_newmsg t1 pr1 junk addr (Z.of_nat (length l)) s = Ret (E_OK, Some i) s1 →
  0 ≤ cache → cache + Z.of_nat (length l) ≤ W32 →
  room u cache (Z.of_nat (length l)) →
  ∃ s2 s3 s4,
    msg_send t1 pr1 bi i s1 = Ret E_OK s2 ∧
    msg_recieve t2 pr2 others bi 0 (set_umem u s2) = Ret (E_OK, Some i) s3 ∧
    msg_read t2 pr2 i cache 0 (Z.of_nat (length l)) s3 = Ret E_OK s4 ∧
    holds (umem s4) cache l.
Proof.
  intros Hok Hp Hb Ho Hst Hls Hl Ha Haw Hlw Hby Hnew Hc Hcw Hm.
  pose proof (wlp_msg_newmsg t1 pr1 junk mm bm s addr (Z.of_nat (length l)) Hok ltac:(lia)) as Hn.
  unfold wlp in Hn. rewrite Hnew in Hn. destruct Hn as (Hbs & Hu & Hn). cbn [fst snd] in Hn.
  destruct Hn as (_ & Hi & q & a & l' & Hok1 & Hq & Hbl & Hf).
  rewrite Nat2Z.id, (fetch_spec _ _ _ Hl Ha Haw) in Hf. injection Hf as <-.
  destruct (inv_box _ _ _ _ _ _ (ok_inv _ _ _ Hok) _ _ Hp) as (b' & ? & _ & _ & Hnb & _).
  simplify_eq. set (m := Msg i MSG_UNSEND a (Z.of_nat (length l)) pr1 None) in *.
  assert (<[i:=q]> mm !! i = Some q) as Hiq by apply lookup_insert_eq.
  rewrite <- Hbs in Hb. exists (sent q p m b s1).
  assert (msg_send t1 pr1 bi i s1 = Ret E_OK (sent q p m b s1)) as Hsend.
  { rewrite (run_msg_send t1 pr1 _ _ _ _ _ Hok1). unfold send_result. rewrite Hiq, Hp, Hq, Hb.
    cbn [m_owner m_state m]. rewrite Z.eqb_refl, Hst. done. }
  assert (ipc_ok (<[i:=q]> mm) bm (set_umem u (sent q p m b s1))) as Hok2.
  { destruct (ok_sent _ _ _ _ _ _ _ _ _ Hok1 Hiq Hp Hq Hb eq_refl). by split. }
  set (s2 := set_umem u (sent q p m b s1)) in *.
  set (b2 := Box (b_id b) BOX_RCVABLE 1 (b_owner b) (blk_thread b) None [q]).
  assert (boxes s2 !! p = Some b2) as Hb2.
  { unfold s2, sent, b2. simpl. rewrite lookup_insert_eq, Hst, Hls, Hnb, Hls. done. }
  assert (msgs s2 !! q = Some (ms_state MSG_SENDED m)) as Hq2 by apply lookup_insert_eq.
  set (s3 := taken (b_owner b) q p (ms_state MSG_SENDED m) b2 [] s2).
  assert (msg_recieve t2 (b_owner b) others bi 0 s2 = Ret (E_OK, Some i) s3) as Hrecv.
  { erewrite (run_msg_recieve _ _ _ _ _ _ _ _ Hok2).
    - unfold recv_result, recv_rest. rewrite Hp, Hb2. unfold b2.
      cbn [b_owner b_state nmsg msg_ls]. rewrite Z.eqb_refl. cbn [negb Z.eqb].
      rewrite bool_decide_eq_false_2 by done. by rewrite Hq2.
    - by intros. }
  assert (ipc_ok (<[i:=q]> mm) bm s3) as Hok3 by by eapply ok_taken.
  assert (msgs s3 !! q = Some (Msg i MSG_RECIEVED a (Z.of_nat (length l)) (b_owner b) None)) as Hq3
    by apply lookup_insert_eq.
  destruct (store_spec u cache l Hm Hc Hcw Hby) as (u' & Hs & Hh & _).
  exists s3, (set_umem u' s3). split_and!; [done|exact Hrecv| |exact Hh].
  rewrite (run_msg_read _ _ _ _ _ _ _ _ _ Hok3). unfold read_result. rewrite Hiq, Hq3.
  unfold readable. cbn [m_owner m_state m_size m_addr].
  rewrite Z.eqb_refl, bool_decide_eq_true_2 by done. unfold add32.
  rewrite Z.add_0_l, u32_small by (unfold is_u32; lia). rewrite Z.leb_refl. cbn [andb negb].
  replace (blocks s3 !! a) with (Some l) by done.
  rewrite Z.ltb_irrefl, Nat2Z.id, drop_0, firstn_all. change (umem s3) with u. by rewrite Hs.
Qed.
End trip.

(** ** Concrete runs: two index allocators and a heap with room for nine blocks
    each, two bytes at 4096 and a two-byte buffer at 8192. *)
Definition ex_mem : mem := {[4096 := 72; 4097 := 105; 8192 := 0; 8193 := 0]}.
Definition ex_start : ipc (idx_alct bump) bump :=
  ipc_empty (idx_empty 9) (idx_empty 9) (Bump 0 9) ex_mem.

(** Process 200 makes a box; 100 makes two messages; thread 2 of process 200 waits
    and 100 sends to it meanwhile; then the rest is received, read and deleted. *)
Definition ex_calls : list (Z * Z * call) :=
  [(2, 200, CNewbox); (1, 100, CNewmsg 4096 2); (1, 100, CNewmsg 4096 1);
   (2, 200, CRecieve 0 1 [(1, 100, CSend 0 1)]); (1, 100, CSend 0 0);
   (2, 200, CRecieve 0 0 []); (2, 200, CRead 1 8192 0 1); (2, 200, CSize 0);
   (2, 200, CDelmsg 0); (2, 200, CDelbox 0)].

Definition returns {S B} (o : outcome S B) : bool := match o with Ret _ _ => true | _ => false end.

Lemma ex_start_ok : ipc_ok ∅ ∅ ex_start.
Proof. apply ok_empty; [apply idx_empty_represents..|]. intros p Hp. by apply elem_of_empty in Hp. Qed.

Lemma msg_tables_safe_witness :
  returns (runs 7 ex_calls ex_start) = true ∧
  wlp (runs 7 ex_calls) (λ _ s', ∃ mm bm, ipc_ok mm bm s') ex_start.
Proof.
  split; [by vm_compute|].
  apply msg_tables_safe; [apply idx_empty_represents..|].
  intros p Hp. by apply elem_of_empty in Hp.
Defined.

(** The state after process 200 has made box 0. *)
Definition ex_box : ipc (idx_alct bump) bump :=
  match msg_newbox 2 200 7 ex_start with Ret _ s => s | _ => ex_start end.

Lemma ex_box_ok : ∃ p, ipc_ok ∅ {[0 := p]} ex_box ∧
  boxes ex_box !! p = Some (Box 0 BOX_RCVABLE 0 200 0 None []).
Proof.
  pose proof (wlp_msg_newbox 2 200 7 ∅ ∅ ex_start ex_start_ok) as Hw. unfold wlp in Hw.
  assert (∃ s, msg_newbox 2 200 7 ex_start = Ret (E_OK, Some 0) s ∧ s = ex_box) as (s & Hs & ->)
    by (eexists; split; [vm_compute; reflexivity|vm_compute; reflexivity]).
  rewrite Hs in Hw. destruct Hw as (_ & _ & p & Hok & Hb & _). exists p. split; [done|].
  rewrite Hb. apply lookup_insert_eq.
Qed.

(** And after process 100 has made message 0 of two bytes. *)
Definition ex_msg : ipc (idx_alct bump) bump :=
  match msg_newmsg 1 100 7 4096 2 ex_box with Ret _ s => s | _ => ex_box end.

Lemma msg_round_trip_witness : ∃ s2 s3 s4,
  msg_send 1 100 0 0 ex_msg = Ret E_OK s2 ∧
  msg_recieve 2 200 (ret tt) 0 0 (set_umem ex_mem s2) = Ret (E_OK, Some 0) s3 ∧
  msg_read 2 200 0 8192 0 2 s3 = Ret E_OK s4 ∧
  holds (umem s4) 8192 [72; 105].
Proof.
  destruct ex_box_ok as (p & Hok & Hb).
  refine (msg_round_trip 7 1 100 2 200 (ret tt) ∅ {[0 := p]} ex_box 0 p
    (Box 0 BOX_RCVABLE 0 200 0 None []) 4096 [72; 105] 0
    ex_msg ex_mem 8192 Hok _ Hb eq_refl eq_refl eq_refl _ _ _ _ _ _ _ _ _).
  - apply lookup_singleton_eq.
  - apply holds_cons. split; [by vm_compute|]. apply holds_cons. split; [by vm_compute|].
    intros k c Hk. by rewrite lookup_nil in Hk.
  - lia.
  - by vm_compute.
  - by vm_compute.
  - repeat constructor; lia.
  - by vm_compute.
  - lia.
  - by vm_compute.
  - intros k Hk. assert (k = 0 ∨ k = 1) as [->| ->] by (simpl in Hk; lia); by eexists.
Defined.

Lemma msg_send_correct_witness : ∃ mm bm s', ipc_ok mm bm ex_msg ∧
  msg_send 1 100 0 0 ex_msg = send_result 100 mm bm ex_msg 0 0 ∧
  msg_send 1 100 0 0 ex_msg = Ret E_OK s'.
Proof.
  destruct ex_box_ok as (p & Hok & Hb).
  pose proof (wlp_msg_newmsg 1 100 7 ∅ {[0:=p]} ex_box 4096 2 Hok ltac:(lia)) as Hw.
  unfold wlp in Hw.
  assert (msg_newmsg 1 100 7 4096 2 ex_box = Ret (E_OK, Some 0) ex_msg) as Hn by by vm_compute.
  rewrite Hn in Hw. destruct Hw as (_ & _ & _ & _ & q & a & l & Hok1 & _).
  exists (<[0:=q]> ∅), {[0:=p]}. eexists. split; [exact Hok1|].
  split; [|by vm_compute].
  exact (proj1 (msg_send_correct 1 100 _ _ ex_msg 0 0 Hok1)).
Defined.

Lemma msg_recieve_correct_witness : ∃ p,
  msg_recieve 2 200 (runs 7 [(1, 100, CNewmsg 4096 2); (1, 100, CSend 0 0)]) 0 1 ex_box =
    recv_result 2 200 {[0 := p]} ex_box (runs 7 [(1, 100, CNewmsg 4096 2); (1, 100, CSend 0 0)]) 0 1 ∧
  match msg_recieve 2 200 (runs 7 [(1, 100, CNewmsg 4096 2); (1, 100, CSend 0 0)]) 0 1 ex_box with
  | Ret r _ => r = (E_OK, Some 0) | _ => False end.
Proof.
  destruct ex_box_ok as (p & Hok & Hb). exists p. split; [|by vm_compute].
  exact (proj1 (msg_recieve_correct 2 200 _ _ ex_box _ 0 1 Hok (runs_keep 7 _))).
Defined.

(** A second message to a box whose waiting thread has been woken and has not run
    yet: [schd_run(NULL)]. *)
Lemma second_send_faults :
  runs 7 [(2, 200, CNewbox); (1, 100, CNewmsg 4096 2); (1, 100, CNewmsg 4096 1);
    (2, 200, CRecieve 0 1 [(1, 100, CSend 0 0); (1, 100, CSend 0 1)])] ex_start = Fault.
Proof. by vm_compute. Qed.
