(* ===== verification/Pm.v ===== *)
(** * Physical pages: the buddy allocator of kernel/memory/pm.c

    Blocks of 2^order pages. A block that has been divided is VIRT and has two
    halves that name it as their father and each other as their buddy; the undivided
    ones are FREE, and in the list of their order, or ALLOCED, and those handed out
    are in a red-black tree ordered by address. The structures [struct page_t] are
    slots (lib/slot.c): [slots] is the free list, the rest of the slot memory keeps
    what was written last (the link of a free slot lies over [addr] and [size], which
    are written before they are read again; the tree node is not touched). The nodes linked into [head[order]] and into the slot
    list are the sequences of their addresses (DList, Slot). *)
From S2P Require Import Prelude RbtModel RbtTree RbtInsert RbtDelete RbtIter RbtSearch RbtProps.
From S2P Require Import RbtClient DList Slot Machine.

Inductive BUD_POS := BUD_NOBUD | BUD_LEFT | BUD_RIGHT.
Inductive BUD_STATE := BUD_FREE | BUD_ALLOCED | BUD_VIRT.
#[export] Instance bud_pos_dec : EqDecision BUD_POS.
Proof. solve_decision. Defined.
#[export] Instance bud_state_dec : EqDecision BUD_STATE.
Proof. solve_decision. Defined.

(** [struct page_t] with its [struct buddy_t]; the tree node is in the tree's heap. *)
Record page_t := Page {
  addr : Z; size : Z; cnt : Z;
  order : Z; bud_f : Z; bud_b : Z; pos : BUD_POS; state : BUD_STATE }.

(** [struct page_alct_t] and the memory of the page structures. *)
Record page_alct_t := PageAlct {
  slots : list Z; pages : gmap Z page_t; head : list (list Z);
  alloced_rbt : rbt; pm_lock : bool }.

(** CONFIG_NR_BUDDY_ORDER *)
Definition NR_BUDDY_ORDER : nat := 21.

Section code.
Abbreviation M := (M page_alct_t).

Definition set_slots x s := PageAlct x (pages s) (head s) (alloced_rbt s) (pm_lock s).
Definition set_pages x s := PageAlct (slots s) x (head s) (alloced_rbt s) (pm_lock s).
Definition set_head x s := PageAlct (slots s) (pages s) x (alloced_rbt s) (pm_lock s).
Definition set_tree x s := PageAlct (slots s) (pages s) (head s) x (pm_lock s).
Definition set_lock x s := PageAlct (slots s) (pages s) (head s) (alloced_rbt s) x.
Definition on_tree {B} (m : Prelude.M rbt B) : M B := zoom alloced_rbt set_tree m.

Definition page_at (p : Z) : M page_t := s <- get ;; deref (pages s !! p).
Definition upd (p : Z) (f : page_t → page_t) : M unit :=
  x <- page_at p ;; modify (λ s, set_pages (<[p := f x]> (pages s)) s).
Definition pg_range a z x := Page a z (cnt x) (order x) (bud_f x) (bud_b x) (pos x) (state x).
Definition pg_cnt c x := Page (addr x) (size x) c (order x) (bud_f x) (bud_b x) (pos x) (state x).
Definition pg_bud o f b ps st x := Page (addr x) (size x) (cnt x) o f b ps st.
Definition pg_state st x :=
  Page (addr x) (size x) (cnt x) (order x) (bud_f x) (bud_b x) (pos x) st.

Definition head_of (o : Z) : M (list Z) := s <- get ;; deref (head s !! Z.to_nat o).
Definition set_head_of (o : Z) (l : list Z) : M unit :=
  modify (λ s, set_head (<[Z.to_nat o := l]> (head s)) s).

(** Returns the error code and the slot; on an error the caller's variable is as it
    was. *)
Definition new_page : M (Z * option Z) :=
  s <- get ;;
  match slots s with
  | [] => ret (E_NOSLOT, None)
  | p :: l => put (set_slots l s) ;;; upd p (pg_cnt 0) ;;; ret (E_OK, Some p)
  end.

Definition free_page (p : Z) : M unit := modify (λ s, set_slots (slots s ++ [p]) s).

(** The father of two halves becomes one block again. *)
Definition merge_page (p1 p2 : Z) : M Z :=
  x1 <- page_at p1 ;; x2 <- page_at p2 ;;
  assert_ (bool_decide (state x1 = BUD_ALLOCED) && bool_decide (state x2 = BUD_ALLOCED)) ;;;
  assert_ ((bud_b x1 =? p2) && (bud_b x2 =? p1)) ;;;
  assert_ (bud_f x1 =? bud_f x2) ;;;
  f <- page_at (bud_f x1) ;;
  assert_ (bool_decide (state f = BUD_VIRT)) ;;;
  upd (bud_f x1) (pg_state BUD_ALLOCED) ;;;
  ret (bud_f x1).

Definition divide_page (f l r : Z) : M Z :=
  xf <- page_at f ;;
  if order xf =? 0 then ret E_NOMEM else
  let half := size xf / 2 in
  upd l (pg_range (addr xf) half) ;;;
  upd r (pg_range (add32 (addr xf) half) half) ;;;
  upd l (pg_bud (order xf - 1) f r BUD_LEFT BUD_ALLOCED) ;;;
  upd r (pg_bud (order xf - 1) f l BUD_RIGHT BUD_ALLOCED) ;;;
  upd f (pg_state BUD_VIRT) ;;;
  ret E_OK.

Definition buddy_get (o : Z) : M (Z * option Z) :=
  assert_ (o <? Z.of_nat NR_BUDDY_ORDER) ;;;
  l <- head_of o ;;
  match l with
  | [] => ret (E_NOMEM, None)
  | p :: l => set_head_of o l ;;; upd p (pg_state BUD_ALLOCED) ;;; ret (E_OK, Some p)
  end.

(** Takes the block [p] itself out of its list. *)
Definition buddy_get_ptc (p : Z) : M Z :=
  x <- page_at p ;;
  if bool_decide (state x ≠ BUD_FREE) then ret E_FAILE else
  l <- head_of (order x) ;;
  set_head_of (order x) (filter (λ y, y ≠ p) l) ;;;
  upd p (pg_state BUD_ALLOCED) ;;;
  ret E_OK.

(** The loop merges while the buddy is FREE; the order grows at each turn. *)
Definition put_body (p : Z) : M (Z + Z) :=
  x <- page_at p ;;
  if bool_decide (pos x = BUD_NOBUD) then ret (inr p) else
  err <- buddy_get_ptc (bud_b x) ;;
  if negb (err =? E_OK) then ret (inr p) else
  f <- merge_page p (bud_b x) ;;
  free_page (bud_b x) ;;;
  free_page p ;;;
  ret (inl f).

Definition buddy_put (p : Z) : M Z :=
  x <- page_at p ;;
  assert_ (order x <? Z.of_nat NR_BUDDY_ORDER) ;;;
  assert_ (bool_decide (state x = BUD_ALLOCED)) ;;;
  p <- loop (S NR_BUDDY_ORDER) put_body p ;;
  upd p (pg_state BUD_FREE) ;;;
  x <- page_at p ;;
  l <- head_of (order x) ;;
  set_head_of (order x) (l ++ [p]) ;;;
  ret E_OK.

(** The recursion ends at [NR_BUDDY_ORDER]; a variable [new_page] has not set is
    followed where the code follows it. *)
Fixpoint buddy_alloc (fuel : nat) (o : Z) : M (Z * option Z) :=
  match fuel with
  | O => hang
  | S fuel =>
      if Z.of_nat NR_BUDDY_ORDER <=? o then ret (E_NOMEM, None) else
      r <- buddy_get o ;;
      match r with
      | (_, Some p) => ret (E_OK, Some p)
      | (_, None) =>
          r <- buddy_alloc fuel (o + 1) ;;
          match r with
          | (err, None) => ret (err, None)
          | (_, Some f) =>
              l <- new_page ;;
              r <- new_page ;;
              l <- deref (snd l) ;;
              r <- deref (snd r) ;;
              err <- divide_page f l r ;;
              if negb (err =? E_OK) then
                free_page l ;;; free_page r ;;; buddy_put f ;;; ret (err, None)
              else
                buddy_put r ;;; ret (E_OK, Some l)
          end
      end
  end.

Definition addr_of (s : page_alct_t) (p : Z) : Z := default 0 (addr <$> pages s !! p).

(** [_rbt_insert] and [rbt_insert_color]; [rbt_find]. *)
Definition rbt_insert (p : Z) : M Z :=
  s <- get ;;
  b <- on_tree (tree_insert (key_cmp (addr_of s) (addr_of s p)) p) ;;
  ret (if b : bool then E_OK else E_EXIST).
Definition rbt_find (pa : Z) : M (option Z) :=
  assert_ (pa mod PAGE_SIZE =? 0) ;;;
  s <- get ;; on_tree (bst_find (key_cmp (addr_of s) pa)).

(** For each bit of the number of pages, a block of that order. *)
Definition insert_body (pgs : Z) (ia : nat * Z) : M (nat * Z + Z) :=
  let '(i, a) := ia in
  if (NR_BUDDY_ORDER <=? i)%nat then ret (inr E_OK) else
  if negb (Z.testbit pgs (Z.of_nat i)) then ret (inl (S i, a)) else
  r <- new_page ;;
  match r with
  | (err, None) => ret (inr err)
  | (_, Some p) =>
      upd p (pg_range a (2 ^ Z.of_nat i * PAGE_SIZE)) ;;;
      upd p (λ x, pg_bud (Z.of_nat i) (bud_f x) (bud_b x) BUD_NOBUD BUD_ALLOCED x) ;;;
      buddy_put p ;;;
      ret (inl (S i, add32 a (2 ^ Z.of_nat i * PAGE_SIZE)))
  end.

Definition pm_insert (a sz : Z) : M Z :=
  assert_ ((sz mod PAGE_SIZE =? 0) && (0 <? sz) && (a mod PAGE_SIZE =? 0)) ;;;
  loop (S (S NR_BUDDY_ORDER)) (insert_body (sz / PAGE_SIZE)) (0%nat, a).

(** The search for the order, from the largest down: [None] leaves the variable
    unset. *)
Fixpoint find_order (pgs : Z) (i : nat) (o : option Z) : option Z :=
  match i with
  | O => o
  | S i => if pgs <=? 2 ^ Z.of_nat i then find_order pgs i (Some (Z.of_nat i)) else o
  end.

Definition spin_lock : M unit := s <- get ;; if pm_lock s then hang else put (set_lock true s).
Definition spin_unlock : M unit := modify (set_lock false).

Definition pm_alloc (sz : Z) : M (Z * option Z) :=
  if sz =? 0 then ret (E_INVAL, None) else
  o <- deref (find_order (ROUND_UP sz PAGE_SIZE / PAGE_SIZE) NR_BUDDY_ORDER None) ;;
  spin_lock ;;;
  r <- buddy_alloc (S NR_BUDDY_ORDER) o ;;
  match r with
  | (err, None) => spin_unlock ;;; ret (err, None)
  | (_, Some p) =>
      err <- rbt_insert p ;;
      assert_ (err =? E_OK) ;;;
      spin_unlock ;;;
      ret (E_OK, Some p)
  end.

Definition pm_free (p : Z) : M Z :=
  spin_lock ;;;
  err <- buddy_put p ;;
  if negb (err =? E_OK) then spin_unlock ;;; ret err else
  on_tree (rbt_delete p) ;;;
  spin_unlock ;;;
  ret err.

(** [sizeof(struct page_t)] *)
Definition SZ_PAGE : Z := 68.

(** The list heads come first in the region, the slots after them. *)
Definition pm_init (a sz : Z) : M Z :=
  let slot_addr := add32 a (Z.of_nat NR_BUDDY_ORDER * SZ_LIST_NODE) in
  if add32 a sz <? slot_addr then ret E_NOMEM else
  let slot_size := sub32 (add32 a sz) slot_addr in
  modify (set_slots (Slot.slots slot_addr SZ_PAGE (Z.to_nat (slot_size / SZ_PAGE)))) ;;;
  modify (set_head (replicate NR_BUDDY_ORDER [])) ;;;
  spin_unlock ;;;
  on_tree rbt_init ;;;
  ret E_OK.

Definition pm_get_page (a : Z) : M (Z * option Z) :=
  assert_ (a mod PAGE_SIZE =? 0) ;;;
  spin_lock ;;;
  r <- rbt_find a ;;
  spin_unlock ;;;
  ret (match r with Some p => (E_OK, Some p) | None => (E_NOTFOUND, None) end).
End code.
