(* ===== verification/PmSpec.v ===== *)
(** * The buddy allocator keeps memory apart: theorems about Pm.v

    The invariant of the blocks, the effect of dividing, merging, taking and giving
    back on it, and the theorems about [pm_alloc] and [pm_free]. *)
From S2P Require Import Prelude RbtModel RbtTree RbtInsert RbtDelete RbtIter RbtSearch RbtProps.
From S2P Require Import RbtClient DList Slot Machine Pm.

Definition page_of (ps : gmap Z page_t) (p : Z) : page_t :=
  default (Page 0 0 0 0 0 0 BUD_NOBUD BUD_VIRT) (ps !! p).
(** An undivided block and the bytes it stands for. *)
Definition leaf (x : page_t) : Prop := state x ≠ BUD_VIRT.
Definition inside (x : page_t) (a : Z) : Prop := addr x ≤ a < addr x + size x.
Definition opp (d : BUD_POS) : BUD_POS :=
  match d with BUD_LEFT => BUD_RIGHT | BUD_RIGHT => BUD_LEFT | BUD_NOBUD => BUD_NOBUD end.

(** The shape of a block: [2 ^ order] pages inside the address space. *)
Definition sized (x : page_t) : Prop :=
  0 ≤ order x < Z.of_nat NR_BUDDY_ORDER ∧ size x = 2 ^ order x * PAGE_SIZE ∧
  0 ≤ addr x ∧ addr x + size x ≤ W32 ∧ addr x mod PAGE_SIZE = 0.

(** [x] at [p] and its buddy [y] are the two halves of [f]. *)
Definition halves (p : Z) (x y f : page_t) : Prop :=
  state f = BUD_VIRT ∧ order f = order x + 1 ∧ order y = order x ∧
  bud_b y = p ∧ bud_f y = bud_f x ∧ pos y = opp (pos x) ∧
  match pos x with
  | BUD_LEFT => addr x = addr f ∧ addr y = addr x + size x
  | BUD_RIGHT => addr y = addr f ∧ addr x = addr y + size y
  | BUD_NOBUD => True
  end.

(** The number of elements; [size] is a field of [page_t] here. *)
Abbreviation card := stdpp.base.size.

(** The undivided blocks among the structures in use. *)
Definition leaves (L : gset Z) (ps : gmap Z page_t) : gset Z :=
  filter (λ p, state (page_of ps p) ≠ BUD_VIRT) L.

(** [L] are the structures in use, [A] the ALLOCED blocks. *)
Record bud (L A : gset Z) (ps : gmap Z page_t) (sl : list Z) (hd : list (list Z)) : Prop := {
  b_page : ∀ p, p ∈ L → is_Some (ps !! p) ∧ sized (page_of ps p);
  b_slots : NoDup sl ∧ ∀ p, p ∈ sl → (p ∉ L) ∧ is_Some (ps !! p);
  b_alloc : ∀ p, p ∈ A ↔ p ∈ L ∧ state (page_of ps p) = BUD_ALLOCED;
  b_heads : length hd = NR_BUDDY_ORDER ∧ ∀ o l, hd !! o = Some l → NoDup l ∧
    ∀ p, p ∈ l ↔ p ∈ L ∧ state (page_of ps p) = BUD_FREE ∧ order (page_of ps p) = Z.of_nat o;
  b_fam : ∀ p, p ∈ L → pos (page_of ps p) ≠ BUD_NOBUD →
    bud_f (page_of ps p) ∈ L ∧ bud_b (page_of ps p) ∈ L ∧ bud_b (page_of ps p) ≠ p ∧
    halves p (page_of ps p) (page_of ps (bud_b (page_of ps p))) (page_of ps (bud_f (page_of ps p)));
  b_kids : ∀ p q, p ∈ L → q ∈ L → pos (page_of ps p) ≠ BUD_NOBUD → pos (page_of ps q) ≠ BUD_NOBUD →
    bud_f (page_of ps p) = bud_f (page_of ps q) → q = p ∨ q = bud_b (page_of ps p);
  b_coal : ∀ p, p ∈ L → pos (page_of ps p) ≠ BUD_NOBUD → state (page_of ps p) = BUD_FREE →
    state (page_of ps (bud_b (page_of ps p))) ≠ BUD_FREE;
  b_disj : ∀ p q a, p ∈ L → q ∈ L → leaf (page_of ps p) → leaf (page_of ps q) →
    inside (page_of ps p) a → inside (page_of ps q) a → p = q;
  b_count : (card L ≤ 2 * card (leaves L ps))%nat;
}.

Lemma elem_leaves L ps p : p ∈ leaves L ps ↔ p ∈ L ∧ leaf (page_of ps p).
Proof. unfold leaves, leaf. rewrite elem_of_filter. tauto. Qed.
Lemma leaves_ext L ps ps' : (∀ q, q ∈ L → leaf (page_of ps' q) ↔ leaf (page_of ps q)) →
  leaves L ps' = leaves L ps.
Proof. intros H. apply set_eq. intros q. rewrite !elem_leaves. split; intros [Hq ?]; (split; [done|]); by apply (H q). Qed.
(** Two elements out, or in. *)
Lemma size_minus2 (X : gset Z) p q : p ∈ X → q ∈ X → p ≠ q → card X = (2 + card (X ∖ {[p; q]}))%nat.
Proof.
  intros Hp Hq Hpq. rewrite (union_difference_L {[p; q]} X) at 1 by set_solver.
  rewrite size_union by set_solver. rewrite size_union by set_solver. by rewrite !size_singleton.
Qed.
Lemma size_plus2 (X : gset Z) p q : p ∉ X → q ∉ X → p ≠ q → card ({[p; q]} ∪ X) = (2 + card X)%nat.
Proof.
  intros Hp Hq Hpq. rewrite size_union by set_solver. rewrite size_union by set_solver. by rewrite !size_singleton.
Qed.
Lemma size_minus1 (X : gset Z) p : p ∈ X → card X = S (card (X ∖ {[p]})).
Proof.
  intros Hp. rewrite (union_difference_L {[p]} X) at 1 by set_solver.
  rewrite size_union by set_solver. by rewrite size_singleton.
Qed.
Lemma size_plus1 (X : gset Z) p : p ∉ X → card ({[p]} ∪ X) = S (card X).
Proof. intros Hp. rewrite size_union by set_solver. by rewrite size_singleton. Qed.

(** What the allocator stands for: the bytes of the undivided blocks. *)
Definition covers (L : gset Z) (ps : gmap Z page_t) (a : Z) : Prop :=
  ∃ p, p ∈ L ∧ leaf (page_of ps p) ∧ inside (page_of ps p) a.

Lemma page_here ps p x : page_of (<[p := x]> ps) p = x.
Proof. unfold page_of. by rewrite lookup_insert_eq. Qed.
Lemma page_there ps p q x : q ≠ p → page_of (<[p := x]> ps) q = page_of ps q.
Proof. intros H. unfold page_of. by rewrite lookup_insert_ne. Qed.
Lemma page_some ps p x : ps !! p = Some x → page_of ps p = x.
Proof. intros H. unfold page_of. by rewrite H. Qed.

Lemma size_pos x : sized x → 0 < size x.
Proof. intros (Ho & -> & _). pose proof (Z.pow_pos_nonneg 2 (order x)). unfold PAGE_SIZE. nia. Qed.

(** A block is divided only at most at one place above it; nothing names itself as
    its father. *)
Lemma fam_ne L A ps sl hd p : bud L A ps sl hd → p ∈ L → pos (page_of ps p) ≠ BUD_NOBUD →
  bud_f (page_of ps p) ≠ p ∧ bud_f (page_of ps p) ≠ bud_b (page_of ps p).
Proof.
  intros HB Hp Hps. destruct (b_fam _ _ _ _ _ HB p Hp Hps) as (_ & _ & Hbp & Hs & Ho & Hob & _).
  split; intros He; rewrite He in *; lia.
Qed.

(** Everything but the state. *)
Definition same_shape (x y : page_t) : Prop :=
  addr x = addr y ∧ size x = size y ∧ order x = order y ∧ bud_f x = bud_f y ∧
  bud_b x = bud_b y ∧ pos x = pos y.

Lemma shape_sized x y : same_shape x y → sized y → sized x.
Proof. unfold sized, same_shape. by intros (-> & -> & -> & _). Qed.
Lemma shape_inside x y a : same_shape x y → inside x a ↔ inside y a.
Proof. unfold inside. by intros (-> & -> & _). Qed.
Lemma shape_halves p x y f x' y' f' : same_shape x x' → same_shape y y' → same_shape f f' →
  state f = state f' → halves p x' y' f' → halves p x y f.
Proof.
  unfold halves, same_shape. intros (E1 & E2 & E3 & E4 & E5 & E6) (F1 & F2 & F3 & F4 & F5 & F6)
    (G1 & G2 & G3 & G4 & G5 & G6) Es.
  by rewrite E1, E2, E3, E4, E6, F1, F2, F3, F4, F5, F6, G1, G3, Es.
Qed.

Section bud.
Context {L A : gset Z} {ps : gmap Z page_t} {sl : list Z} {hd : list (list Z)}.
Abbreviation pg := (page_of ps).

(** Writing to structures that are not in use. *)
Lemma bud_ext ps' sl' : bud L A ps sl hd → (∀ q, q ∈ L → page_of ps' q = pg q ∧ is_Some (ps' !! q)) →
  (NoDup sl' ∧ ∀ p, p ∈ sl' → (p ∉ L) ∧ is_Some (ps' !! p)) → bud L A ps' sl' hd.
Proof.
  intros [H1 H2 H3 H4 H5 H6 H7 H8 H9] He Hs.
  assert (∀ q, q ∈ L → page_of ps' q = pg q) as Hq by (intros q Hq; by apply He).
  split; try done.
  - intros p Hp. rewrite Hq by done. split; [by apply He|by apply H1].
  - intros p. rewrite H3. split; intros [Hp ?]; [by rewrite Hq|by rewrite Hq in *].
  - split; [apply H4|]. intros o l Hl. destruct (proj2 H4 o l Hl) as [Hnd Hin]. split; [done|].
    intros p. rewrite Hin. split; intros [Hp ?]; [by rewrite Hq|by rewrite Hq in *].
  - intros p Hp. rewrite (Hq p Hp). intros Hps. destruct (H5 p Hp Hps) as (Hf & Hb & Hr).
    by rewrite !Hq.
  - intros p q Hp Hq'. rewrite !Hq by done. by apply H6.
  - intros p Hp. rewrite (Hq p Hp). intros Hps. destruct (H5 p Hp Hps) as (Hf & Hb & Hr).
    rewrite Hq by done. by apply H7.
  - intros p q a Hp Hq'. rewrite !Hq by done. by apply H8.
  - rewrite (leaves_ext L ps ps'); [done|]. intros q Hq'. by rewrite Hq.
Qed.

(** An undivided block changes between FREE and ALLOCED. *)
Lemma bud_restate p st A' hd' : bud L A ps sl hd → p ∈ L → leaf (pg p) → st ≠ BUD_VIRT →
  (∀ q, q ∈ A' ↔ if bool_decide (q = p) then st = BUD_ALLOCED else q ∈ A) →
  (length hd' = length hd ∧ ∀ o l', hd' !! o = Some l' → NoDup l' ∧ ∃ l, hd !! o = Some l ∧
    ∀ q, q ∈ l' ↔ if bool_decide (q = p) then st = BUD_FREE ∧ order (pg p) = Z.of_nat o else q ∈ l) →
  (st = BUD_FREE → pos (pg p) ≠ BUD_NOBUD → state (pg (bud_b (pg p))) ≠ BUD_FREE) →
  bud L A' (<[p := pg_state st (pg p)]> ps) sl hd'.
Proof.
  intros [H1 H2 H3 H4 H5 H6 H7 H8 H9] Hp Hlf Hst HA Hhd Hco. set (ps' := <[p := pg_state st (pg p)]> ps).
  assert (∀ q, same_shape (page_of ps' q) (pg q)) as Hsh.
  { intros q. unfold ps'. destruct (decide (q = p)) as [->|Hq].
    - by rewrite page_here.
    - by rewrite page_there. }
  assert (∀ q, q ≠ p → page_of ps' q = pg q) as Hne by (intros q Hq; by apply page_there).
  assert (state (page_of ps' p) = st) as Hsp by (unfold ps'; by rewrite page_here).
  assert (∀ q, leaf (page_of ps' q) ↔ leaf (pg q)) as Hleaf.
  { intros q. destruct (decide (q = p)) as [->|Hq]; [|by rewrite Hne].
    unfold leaf. rewrite Hsp. by split. }
  assert (∀ q, pos (page_of ps' q) = pos (pg q)) as Hpo by (intros q; apply (Hsh q)).
  assert (∀ q, bud_b (page_of ps' q) = bud_b (pg q)) as Hbb by (intros q; apply (Hsh q)).
  assert (∀ q, bud_f (page_of ps' q) = bud_f (pg q)) as Hbf by (intros q; apply (Hsh q)).
  split.
  - intros q Hq. split.
    + unfold ps'. destruct (decide (q = p)) as [->|Hqp]; [by rewrite lookup_insert_eq|].
      rewrite lookup_insert_ne by done. by apply H1.
    + eapply shape_sized; [apply Hsh|]. by apply H1.
  - split; [apply H2|]. intros q Hq. destruct (proj2 H2 q Hq) as [Hql Hs]. split; [done|].
    unfold ps'. rewrite lookup_insert_ne; [done|]. by intros ->.
  - intros q. rewrite HA. case_bool_decide as Hqp; [subst q; rewrite Hsp; tauto|].
    rewrite Hne by done. apply H3.
  - destruct Hhd as [Hlen Hhd]. split; [rewrite Hlen; apply H4|]. intros o l' Hl'.
    destruct (Hhd o l' Hl') as (Hnd & l & Hl & Hin). split; [done|]. intros q. rewrite Hin.
    case_bool_decide as Hqp.
    + subst q. rewrite Hsp. replace (order (page_of ps' p)) with (order (pg p)) by (symmetry; apply Hsh).
      tauto.
    + rewrite Hne by done. by apply (proj2 H4 o l Hl).
  - intros q Hq. rewrite Hpo, Hbf, Hbb. intros Hqp. destruct (H5 q Hq Hqp) as (Hf & Hb & Hbq & Hh).
    split_and!; try done. eapply shape_halves; [apply Hsh..| |exact Hh].
    destruct (decide (bud_f (pg q) = p)) as [He|He]; [|by rewrite Hne].
    exfalso. apply Hlf. destruct Hh as (Hh & _). by rewrite He in Hh.
  - intros q r Hq Hr. rewrite !Hpo, !Hbf, Hbb. by apply H6.
  - intros q Hq. rewrite Hpo, Hbb. intros Hqp Hqs. destruct (H5 q Hq Hqp) as (Hf & Hb & Hbq & Hh).
    destruct (decide (q = p)) as [->|Hqp'].
    + rewrite Hsp in Hqs. rewrite Hne by done. by apply Hco.
    + rewrite Hne in Hqs by done. destruct (decide (bud_b (pg q) = p)) as [He|He].
      * rewrite He, Hsp. intros ->. destruct Hh as (_ & _ & _ & Hbb' & _ & Hpb & _).
        rewrite He in Hbb', Hpb. apply (Hco eq_refl); [|by rewrite Hbb'].
        rewrite Hpb. by destruct (pos (pg q)).
      * rewrite Hne by done. by apply H7.
  - intros q r a Hq Hr. rewrite !Hleaf, !(shape_inside _ _ a (Hsh _)). by apply H8.
  - by rewrite (leaves_ext L ps ps').
Qed.

Lemma covers_restate p st a : bud L A ps sl hd → leaf (pg p) → st ≠ BUD_VIRT →
  covers L (<[p := pg_state st (pg p)]> ps) a ↔ covers L ps a.
Proof.
  intros HB Hlf Hst. unfold covers.
  assert (∀ q, (leaf (page_of (<[p := pg_state st (pg p)]> ps) q) ↔ leaf (pg q)) ∧
    (inside (page_of (<[p := pg_state st (pg p)]> ps) q) a ↔ inside (pg q) a)) as Hq.
  { intros q. destruct (decide (q = p)) as [->|Hq].
    - rewrite page_here. split; [by split|done].
    - by rewrite page_there. }
  split; intros (q & Hql & Hl & Hi); exists q; split; try done; by apply Hq in Hl, Hi || (split; by apply Hq).
Qed.
End bud.

(** ** Dividing and merging *)
Lemma halves_inside p x y f a : sized x → sized y → sized f → halves p x y f →
  pos x ≠ BUD_NOBUD → inside f a ↔ inside x a ∨ inside y a.
Proof.
  intros Hx Hy Hf (_ & Ho & Hoy & _ & _ & _ & Hp) Hps. unfold inside.
  assert (size f = 2 * size x ∧ size y = size x) as [Hsf Hsy].
  { destruct Hx as (Hx & -> & _), Hy as (_ & -> & _), Hf as (_ & -> & _).
    rewrite Ho, Hoy, Z.pow_add_r by lia. split; [lia|done]. }
  pose proof (size_pos x Hx). destruct (pos x); [done|destruct Hp as [H1 H2]; lia..].
Qed.

Section split.
Context {L A : gset Z} {ps : gmap Z page_t} {sl : list Z} {hd : list (list Z)}.
Abbreviation pg := (page_of ps).

Lemma bud_leaf p : bud L A ps sl hd → p ∈ A → p ∈ L ∧ state (pg p) = BUD_ALLOCED ∧ leaf (pg p).
Proof.
  intros HB [Hp Hs]%(b_alloc _ _ _ _ _ HB). split_and!; [done..|]. unfold leaf. by rewrite Hs.
Qed.

(** A leaf is nobody's father. *)
Lemma not_father p q : bud L A ps sl hd → leaf (pg p) → q ∈ L → pos (pg q) ≠ BUD_NOBUD →
  bud_f (pg q) ≠ p.
Proof.
  intros HB Hl Hq Hps <-. destruct (b_fam _ _ _ _ _ HB q Hq Hps) as (_ & _ & _ & Hs & _). by apply Hl.
Qed.

(** The buddy's buddy. *)
Lemma buddy_back q : bud L A ps sl hd → q ∈ L → pos (pg q) ≠ BUD_NOBUD →
  bud_b (pg (bud_b (pg q))) = q ∧ bud_f (pg (bud_b (pg q))) = bud_f (pg q) ∧
  pos (pg (bud_b (pg q))) ≠ BUD_NOBUD.
Proof.
  intros HB Hq Hps. destruct (b_fam _ _ _ _ _ HB q Hq Hps) as (_ & _ & _ & _ & _ & _ & H1 & H2 & H3 & _).
  split_and!; [done..|]. rewrite H3. by destruct (pos (pg q)).
Qed.

Lemma bud_merge p : bud L A ps sl hd → p ∈ A → pos (pg p) ≠ BUD_NOBUD → bud_b (pg p) ∈ A →
  bud (L ∖ {[p; bud_b (pg p)]}) ({[bud_f (pg p)]} ∪ A ∖ {[p; bud_b (pg p)]})
    (<[bud_f (pg p) := pg_state BUD_ALLOCED (pg (bud_f (pg p)))]> ps)
    (sl ++ [bud_b (pg p)] ++ [p]) hd ∧
  (bud_f (pg p) ∉ A) ∧ order (pg (bud_f (pg p))) = order (pg p) + 1 ∧
  ∀ a, covers (L ∖ {[p; bud_b (pg p)]})
    (<[bud_f (pg p) := pg_state BUD_ALLOCED (pg (bud_f (pg p)))]> ps) a ↔ covers L ps a.
Proof.
  intros HB HpA Hps HbA. set (f := bud_f (pg p)). set (b := bud_b (pg p)) in *.
  destruct (bud_leaf p HB HpA) as (HpL & Hpst & Hpl). destruct (bud_leaf b HB HbA) as (HbL & Hbst & Hbl).
  pose proof (b_fam _ _ _ _ _ HB p HpL Hps) as (HfL & _ & Hbp & Hh). fold b f in HfL, Hbp, Hh.
  pose proof Hh as (Hfv & Hfo & _).
  destruct (fam_ne _ _ _ _ _ p HB HpL Hps) as [Hfp Hfb]. fold b f in Hfp, Hfb.
  destruct (buddy_back p HB HpL Hps) as (Hbb & Hbf & Hbps). fold b f in Hbb, Hbf, Hbps.
  set (ps' := <[f := _]> ps).
  assert (page_of ps' f = pg_state BUD_ALLOCED (pg f)) as Hpf by apply page_here.
  assert (∀ q, q ≠ f → page_of ps' q = pg q) as Hne by (intros q Hq; by apply page_there).
  assert (∀ q, same_shape (page_of ps' q) (pg q)) as Hsh.
  { intros q. destruct (decide (q = f)) as [->|Hq]; [by rewrite Hpf|by rewrite Hne]. }
  assert (∀ q, pos (page_of ps' q) = pos (pg q)) as Hpo by (intros q; apply (Hsh q)).
  assert (∀ q, bud_b (page_of ps' q) = bud_b (pg q)) as Hqb by (intros q; apply (Hsh q)).
  assert (∀ q, bud_f (page_of ps' q) = bud_f (pg q)) as Hqf by (intros q; apply (Hsh q)).
  assert (∀ q, q ∈ L ∖ {[p; b]} ↔ q ∈ L ∧ q ≠ p ∧ q ≠ b) as HL'
    by (intros q; by rewrite elem_of_difference, not_elem_of_union, !not_elem_of_singleton).
  assert (∀ a, inside (pg f) a ↔ inside (pg p) a ∨ inside (pg b) a) as Hin.
  { intros a. eapply halves_inside; [apply (b_page _ _ _ _ _ HB); done..|exact Hh|done]. }
  assert (f ∉ A) as HfA by (rewrite (b_alloc _ _ _ _ _ HB), Hfv; by intros [_ ?]).
  pose proof HB as [H1 H2 H3 H4 H5 H6 H7 H8 H9].
  split; [|split_and!; [done|done|]].
  - split.
    + intros q (Hq & _)%HL'. split; [|eapply shape_sized; [apply Hsh|by apply H1]].
      unfold ps'. destruct (decide (q = f)) as [->|Hqf']; [by rewrite lookup_insert_eq|].
      rewrite lookup_insert_ne by done. by apply H1.
    + split.
      * apply NoDup_app. split_and!; [apply H2| |].
        -- intros x Hx. destruct (proj2 H2 x Hx) as [HxL _]. simpl.
           rewrite elem_of_cons, list_elem_of_singleton. intros [-> | ->]; done.
        -- simpl. apply NoDup_cons. split; [by rewrite list_elem_of_singleton|apply NoDup_singleton].
      * intros x Hx. unfold ps'. assert (x ≠ f → is_Some (ps !! x) → is_Some (<[f:=pg_state BUD_ALLOCED (pg f)]> ps !! x))
          as Hs by (intros; by rewrite lookup_insert_ne).
        apply elem_of_app in Hx as [Hx|Hx].
        -- destruct (proj2 H2 x Hx) as [HxL Hsx]. split; [by intros [? _]%HL'|]. apply Hs; [|done]. by intros ->.
        -- simpl in Hx. apply elem_of_cons in Hx as [->|Hx%list_elem_of_singleton]; [|subst x].
           ++ split; [by rewrite HL'; intros (_ & ? & ?)|]. apply Hs; [done|by apply H1].
           ++ split; [by rewrite HL'; intros (_ & ? & ?)|]. apply Hs; [done|by apply H1].
    + intros q. rewrite elem_of_union, elem_of_singleton, elem_of_difference, H3, HL',
        not_elem_of_union, !not_elem_of_singleton.
      destruct (decide (q = f)) as [->|Hqf'].
      * rewrite Hpf. split; [intros _|by left]. by split.
      * rewrite Hne by done. tauto.
    + split; [apply H4|]. intros o l Hl. destruct (proj2 H4 o l Hl) as [Hnd Hinl]. split; [done|].
      intros q. rewrite Hinl, HL'. destruct (decide (q = f)) as [->|Hqf'].
      * rewrite Hpf, Hfv. split; [by intros (_ & ? & _)|by intros (_ & ? & _)].
      * rewrite Hne by done. split; [|tauto]. intros (Hq & Hqs & Hqo). split_and!; try done; congruence.
    + intros q (Hq & Hqp & Hqb')%HL'. rewrite Hpo, Hqf, Hqb. intros Hqps.
      destruct (H5 q Hq Hqps) as (Hf' & Hb' & Hbq & Hh').
      destruct (buddy_back q HB Hq Hqps) as (Hqbb & _ & _).
      split; [apply HL'; split_and!; [done|by apply not_father..]|].
      split; [apply HL'; split_and!; [done|..]; intros He; rewrite He in Hqbb; [by apply Hqb'|];
        rewrite Hbb in Hqbb; by apply Hqp|]. split; [done|].
      eapply shape_halves; [apply Hsh..| |exact Hh'].
      destruct (decide (bud_f (pg q) = f)) as [He|He]; [|by rewrite Hne].
      exfalso. destruct (H6 p q HpL Hq Hps Hqps (eq_sym He)) as [-> | ->]; done.
    + intros q r (Hq & _)%HL' (Hr & _)%HL'. rewrite !Hpo, !Hqf, Hqb. by apply H6.
    + intros q (Hq & Hqp & Hqb')%HL'. rewrite Hpo, Hqb. intros Hqps.
      destruct (decide (q = f)) as [->|Hqf']; [by rewrite Hpf|]. rewrite (Hne q) by done. intros Hqs.
      destruct (decide (bud_b (pg q) = f)) as [He|He]; [by rewrite He, Hpf|]. rewrite Hne by done.
      by apply H7.
    + assert (∀ q a, q ∈ L → q ≠ p → q ≠ b → q ≠ f → leaf (pg q) → inside (pg q) a → ¬ inside (pg f) a) as Hd.
      { intros q a Hq Hqp Hqb' Hqf' Hl Hi [Hi'|Hi']%Hin.
        - apply Hqp. by eapply H8. - apply Hqb'. by eapply H8. }
      intros q r a (Hq & Hqp & Hqb')%HL' (Hr & Hrp & Hrb)%HL'.
      rewrite !(shape_inside _ _ a (Hsh _)). intros Hlq Hlr Hiq Hir.
      destruct (decide (q = f)) as [->|Hqf'], (decide (r = f)) as [->|Hrf']; [done|..].
      * rewrite Hne in Hlr by done. by destruct (Hd r a Hr Hrp Hrb Hrf' Hlr Hir).
      * rewrite Hne in Hlq by done. by destruct (Hd q a Hq Hqp Hqb' Hqf' Hlq Hiq).
      * rewrite Hne in Hlq, Hlr by done. by eapply H8.
    + assert (leaves (L ∖ {[p; b]}) ps' = {[f]} ∪ leaves L ps ∖ {[p; b]}) as ->.
      { apply set_eq. intros q. rewrite elem_leaves, HL', elem_of_union, elem_of_difference, elem_leaves,
          not_elem_of_union, !elem_of_singleton.
        destruct (decide (q = f)) as [->|Hqf']; [rewrite Hpf; split; [by left|by intros _]|].
        rewrite Hne by done. tauto. }
      rewrite size_plus1 by (rewrite elem_of_difference, elem_leaves; unfold leaf; rewrite Hfv; by intros [[_ ?] _]).
      pose proof (size_minus2 L p b HpL HbL (not_eq_sym Hbp)).
      pose proof (size_minus2 (leaves L ps) p b). rewrite !elem_leaves in *.
      specialize (H0 (conj HpL Hpl) (conj HbL Hbl) (not_eq_sym Hbp)). lia.
  - intros a. unfold covers. split.
    + intros (q & (Hq & Hqp & Hqb')%HL' & Hl & Hi). apply (shape_inside _ _ a (Hsh q)) in Hi.
      destruct (decide (q = f)) as [->|Hqf'].
      * apply Hin in Hi as [Hi|Hi]; [by exists p|by exists b].
      * rewrite (Hne q) in Hl by done. by exists q.
    + assert (inside (pg f) a → ∃ q, q ∈ L ∖ {[p; b]} ∧ leaf (page_of ps' q) ∧ inside (page_of ps' q) a) as Hf.
      { intros Hi. exists f. split; [by apply HL'|]. rewrite Hpf. done. }
      intros (q & Hq & Hl & Hi). destruct (decide (q = p)) as [->|Hqp]; [apply Hf, Hin; by left|].
      destruct (decide (q = b)) as [->|Hqb']; [apply Hf, Hin; by right|].
      exists q. split; [by apply HL'|]. rewrite Hne; [done|]. intros ->. by apply Hl.
Qed.

(** The two halves of [f] as [divide_page] writes them. *)
Definition left_half (f r : Z) (x : page_t) (c : Z) : page_t :=
  Page (addr x) (size x / 2) c (order x - 1) f r BUD_LEFT BUD_ALLOCED.
Definition right_half (f l : Z) (x : page_t) (c : Z) : page_t :=
  Page (addr x + size x / 2) (size x / 2) c (order x - 1) f l BUD_RIGHT BUD_ALLOCED.

Lemma half_size x : sized x → 0 < order x →
  size x / 2 = 2 ^ (order x - 1) * PAGE_SIZE ∧ size x = 2 * (size x / 2).
Proof.
  intros (Ho & Hs & _) Hp. rewrite Hs.
  replace (2 ^ order x) with (2 * 2 ^ (order x - 1))
    by (rewrite <- (Z.pow_succ_r 2) by lia; f_equal; lia).
  rewrite <- Z.mul_assoc, (Z.mul_comm 2), Z.div_mul by lia. lia.
Qed.

Lemma sized_half x y : sized x → 0 < order x → size y = size x / 2 → order y = order x - 1 →
  addr y = addr x ∨ addr y = addr x + size x / 2 → sized y.
Proof.
  intros Hx Hp Hs Ho Ha. destruct (half_size x Hx Hp) as [H1 H2].
  pose proof (size_pos x Hx). destruct Hx as (Hxo & _ & H3 & H4 & H5).
  unfold sized. rewrite Hs, Ho, H1. split_and!; [lia|lia|done|lia|lia|].
  destruct Ha as [-> | ->]; [done|]. rewrite H1.
  rewrite Z.add_mod, H5, Z.mod_mul by (unfold PAGE_SIZE; lia). done.
Qed.

Lemma bud_divide f l r cl cr : bud L A ps sl hd → f ∈ A → 0 < order (pg f) → l ≠ r →
  l ∉ L → r ∉ L → l ∉ sl → r ∉ sl → is_Some (ps !! l) → is_Some (ps !! r) →
  bud ({[l; r]} ∪ L) ({[l; r]} ∪ A ∖ {[f]})
    (<[f := pg_state BUD_VIRT (pg f)]> (<[r := right_half f l (pg f) cr]>
      (<[l := left_half f r (pg f) cl]> ps))) sl hd ∧
  ∀ a, covers ({[l; r]} ∪ L) (<[f := pg_state BUD_VIRT (pg f)]> (<[r := right_half f l (pg f) cr]>
      (<[l := left_half f r (pg f) cl]> ps))) a ↔ covers L ps a.
Proof.
  intros HB HfA Ho Hlr HlL HrL Hls Hrs Hsl Hsr.
  destruct (bud_leaf f HB HfA) as (HfL & Hfst & Hfl).
  assert (f ≠ l ∧ f ≠ r) as [Hfnl Hfnr] by (split; by intros ->).
  pose proof HB as [H1 H2 H3 H4 H5 H6 H7 H8 H9].
  destruct (H1 f HfL) as [_ Hfsz]. destruct (half_size _ Hfsz Ho) as [Hsz1 Hsz2].
  set (ps' := <[f := _]> _).
  assert (page_of ps' f = pg_state BUD_VIRT (pg f)) as Hpf by apply page_here.
  assert (page_of ps' l = left_half f r (pg f) cl) as Hpl.
  { unfold ps'. rewrite page_there, page_there by done. apply page_here. }
  assert (page_of ps' r = right_half f l (pg f) cr) as Hpr.
  { unfold ps'. rewrite page_there by done. apply page_here. }
  assert (∀ q, q ∈ L → q ≠ f → page_of ps' q = pg q) as Hne.
  { intros q Hq Hqf. unfold ps'. rewrite !page_there; [done|..]; [by intros -> ..|done]. }
  assert (∀ q, q ∈ L → same_shape (page_of ps' q) (pg q)) as Hsh.
  { intros q Hq. destruct (decide (q = f)) as [->|Hqf]; [by rewrite Hpf|by rewrite Hne]. }
  assert (∀ q, q ∈ {[l; r]} ∪ L ↔ q = l ∨ q = r ∨ q ∈ L) as HL'.
  { intros q. rewrite !elem_of_union, !elem_of_singleton. tauto. }
  assert (∀ a, inside (pg f) a ↔ inside (page_of ps' l) a ∨ inside (page_of ps' r) a) as Hin.
  { intros a. rewrite Hpl, Hpr. unfold inside, left_half, right_half. simpl. lia. }
  assert (sized (page_of ps' l) ∧ sized (page_of ps' r)) as [Hszl Hszr].
  { rewrite Hpl, Hpr. split; (eapply sized_half; [exact Hfsz|done|done|done|]); [by left|by right]. }
  assert (∀ q, q ∈ L → pos (pg q) ≠ BUD_NOBUD → bud_f (pg q) ≠ f) as Hnf
    by (intros q Hq Hqp; by apply not_father).
  assert (∀ q, q ∈ L → pos (page_of ps' q) = pos (pg q) ∧ bud_b (page_of ps' q) = bud_b (pg q) ∧
    bud_f (page_of ps' q) = bud_f (pg q)) as Hq3.
  { intros q Hq. destruct (Hsh q Hq) as (_ & _ & _ & ? & ? & ?). done. }
  split.
  - split.
    + intros q [-> |[-> |Hq]]%HL'.
      * split; [|done]. unfold ps'. by rewrite lookup_insert_ne, lookup_insert_ne, lookup_insert_eq.
      * split; [|done]. unfold ps'. by rewrite lookup_insert_ne, lookup_insert_eq.
      * split; [|eapply shape_sized; [by apply Hsh|by apply H1]]. unfold ps'.
        destruct (decide (q = f)) as [->|Hqf]; [by rewrite lookup_insert_eq|].
        rewrite !lookup_insert_ne; [by apply H1|..]; [by intros -> ..|done].
    + split; [apply H2|]. intros q Hq. destruct (proj2 H2 q Hq) as [HqL Hqs].
      split; [rewrite HL'; intros [-> |[-> |?]]; done|]. unfold ps'.
      rewrite !lookup_insert_ne; [done|..]; by intros ->.
    + intros q. rewrite elem_of_union, elem_of_difference, elem_of_union, !elem_of_singleton, H3, HL'.
      destruct (decide (q = l)) as [->|Hql]; [rewrite Hpl; split; [auto|by left; left]|].
      destruct (decide (q = r)) as [->|Hqr]; [rewrite Hpr; split; [auto|by left; right]|].
      destruct (decide (q = f)) as [->|Hqf].
      * rewrite Hpf. split; [intros [[?|?]|[_ ?]]; done|]. by intros [_ ?].
      * split; [intros [[?|?]|[[Hq ?] _]]; [done..|]; by rewrite Hne; auto|].
        intros [[?|[?|Hq]] Hs]; [done..|]. rewrite Hne in Hs by done. auto.
    + split; [apply H4|]. intros o ll Hll. destruct (proj2 H4 o ll Hll) as [Hnd Hinl].
      split; [done|]. intros q. rewrite Hinl, HL'. split.
      * intros (Hq & Hqs & Hqo). rewrite Hne; [by auto|done|]. intros ->. congruence.
      * intros ([-> |[-> |Hq]] & Hqs & Hqo); [by rewrite Hpl in Hqs|by rewrite Hpr in Hqs|].
        destruct (decide (q = f)) as [->|Hqf]; [by rewrite Hpf in Hqs|].
        by rewrite Hne in Hqs, Hqo.
    + intros q [-> |[-> |Hq]]%HL' Hqp.
      * rewrite Hpl. cbn [left_half bud_f bud_b]. rewrite !HL', Hpr, Hpf. split_and!; auto.
        unfold halves, left_half, right_half. simpl. split_and!; try done; lia.
      * rewrite Hpr. cbn [right_half bud_f bud_b]. rewrite !HL', Hpl, Hpf. split_and!; auto.
        unfold halves, left_half, right_half. simpl. split_and!; try done; lia.
      * destruct (Hq3 q Hq) as (E1 & E2 & E3). rewrite E1 in Hqp. rewrite E2, E3.
        destruct (H5 q Hq Hqp) as (Hf' & Hb' & Hbq & Hh'). rewrite !HL'.
        split; [by auto|]. split; [by auto|]. split; [done|].
        eapply shape_halves; [by apply Hsh|by apply Hsh|by apply Hsh| |exact Hh'].
        rewrite Hne; [done|done|by apply Hnf].
    + intros q u [Hq|[Hq|Hq]]%HL' [Hu|[Hu|Hu]]%HL'; try subst q; try subst u.
      * auto.
      * rewrite Hpl. cbn [left_half bud_b]. auto.
      * rewrite Hpl. destruct (Hq3 u Hu) as (-> & _ & ->). cbn [left_half bud_f]. intros _ Hup He.
        by destruct (Hnf u Hu Hup).
      * rewrite Hpr. cbn [right_half bud_b]. auto.
      * auto.
      * rewrite Hpr. destruct (Hq3 u Hu) as (-> & _ & ->). cbn [right_half bud_f]. intros _ Hup He.
        by destruct (Hnf u Hu Hup).
      * rewrite Hpl. destruct (Hq3 q Hq) as (-> & _ & ->). cbn [left_half bud_f]. intros Hqp _ He.
        by destruct (Hnf q Hq Hqp).
      * rewrite Hpr. destruct (Hq3 q Hq) as (-> & _ & ->). cbn [right_half bud_f]. intros Hqp _ He.
        by destruct (Hnf q Hq Hqp).
      * destruct (Hq3 q Hq) as (-> & -> & ->). destruct (Hq3 u Hu) as (-> & _ & ->). by apply H6.
    + intros q [-> |[-> |Hq]]%HL' Hqp; [by rewrite Hpl|by rewrite Hpr|].
      destruct (Hq3 q Hq) as (E1 & -> & _). rewrite E1 in Hqp.
      destruct (H5 q Hq Hqp) as (_ & Hb' & _).
      destruct (decide (q = f)) as [->|Hqf]; [by rewrite Hpf|]. rewrite (Hne q) by done. intros Hqs.
      destruct (decide (bud_b (pg q) = f)) as [->|He]; [by rewrite Hpf|]. rewrite Hne by done.
      by apply H7.
    + assert (∀ q a, q ∈ L → leaf (page_of ps' q) → inside (page_of ps' q) a → ¬ inside (pg f) a) as Hd.
      { intros q a Hq Hl Hi Hi'. assert (q ≠ f) as Hqf by (intros ->; rewrite Hpf in Hl; by apply Hl).
        rewrite Hne in Hl, Hi by done. apply Hqf. by eapply H8. }
      assert (∀ a, inside (page_of ps' l) a → inside (page_of ps' r) a → False) as Hlr'.
      { intros a. rewrite Hpl, Hpr. unfold inside, left_half, right_half. simpl. lia. }
      intros q u a [-> |[-> |Hq]]%HL' [-> |[-> |Hu]]%HL' Hl1 Hl2 Hi1 Hi2; try done.
      * by destruct (Hlr' a).
      * destruct (Hd u a Hu Hl2 Hi2). apply Hin. by left.
      * by destruct (Hlr' a).
      * destruct (Hd u a Hu Hl2 Hi2). apply Hin. by right.
      * destruct (Hd q a Hq Hl1 Hi1). apply Hin. by left.
      * destruct (Hd q a Hq Hl1 Hi1). apply Hin. by right.
      * assert (q ≠ f) as Hqf by (intros ->; rewrite Hpf in Hl1; by apply Hl1).
        assert (u ≠ f) as Huf by (intros ->; rewrite Hpf in Hl2; by apply Hl2).
        rewrite Hne in Hl1, Hi1 by done. rewrite Hne in Hl2, Hi2 by done. by eapply H8.
    + assert (leaves ({[l; r]} ∪ L) ps' = {[l; r]} ∪ leaves L ps ∖ {[f]}) as ->.
      { apply set_eq. intros q. rewrite elem_leaves, HL', !elem_of_union, elem_of_difference, elem_leaves, !elem_of_singleton.
        destruct (decide (q = l)) as [->|Hql]; [rewrite Hpl; split; [by left; left|by split; [left|]]|].
        destruct (decide (q = r)) as [->|Hqr]; [rewrite Hpr; split; [by left; right|by split; [right; left|]]|].
        destruct (decide (q = f)) as [->|Hqf]; [rewrite Hpf; split; [by intros [_ ?]|by intros [[?|?]|[_ ?]]]|].
        split; [intros [[?|[?|Hq]] Hlq]; [done..|]; rewrite Hne in Hlq by done; tauto|].
        intros [[?|?]|[[Hq ?] _]]; [done..|]. rewrite Hne by done. tauto. }
      rewrite (size_plus2 L l r) by done.
      rewrite (size_plus2 (leaves L ps ∖ {[f]}) l r) by (rewrite ?elem_of_difference, ?elem_leaves; tauto).
      pose proof (size_minus1 (leaves L ps) f ltac:(by rewrite elem_leaves)). lia.
  - intros a. unfold covers. split.
    + intros (q & Hq & Hl & Hi). apply HL' in Hq as [-> |[-> |Hq]].
      * exists f. split_and!; [done..|]. apply Hin. by left.
      * exists f. split_and!; [done..|]. apply Hin. by right.
      * assert (q ≠ f) as Hqf by (intros ->; rewrite Hpf in Hl; by apply Hl).
        rewrite Hne in Hl, Hi by done. by exists q.
    + intros (q & Hq & Hl & Hi). destruct (decide (q = f)) as [->|Hqf].
      * apply Hin in Hi as [Hi|Hi]; [exists l|exists r].
        -- split; [apply HL'; auto|]. split; [by rewrite Hpl|done].
        -- split; [apply HL'; auto|]. split; [by rewrite Hpr|done].
      * exists q. rewrite Hne by done. split; [apply HL'; auto|done].
Qed.
End split.
