(* ===== verification/PmOps.v ===== *)
(** * The buddy operations on the invariant: [buddy_put] and [buddy_alloc] *)
From S2P Require Import Prelude RbtModel RbtTree RbtInsert RbtDelete RbtIter RbtSearch RbtProps.
From S2P Require Import RbtClient DList Slot Machine Pm PmSpec.

Definition good (L A : gset Z) (s : page_alct_t) : Prop := bud L A (pages s) (slots s) (head s).
Abbreviation pg s := (page_of (pages s)).

(** The bytes stood for, the structures, the tree and the lock are as before. *)
Record eff (L : gset Z) (s : page_alct_t) (L' : gset Z) (s' : page_alct_t) : Prop := {
  ef_covers : ∀ a, covers L' (pages s') a ↔ covers L (pages s) a;
  ef_structs : ∀ p, p ∈ L' ∨ p ∈ slots s' ↔ p ∈ L ∨ p ∈ slots s;
  ef_tree : alloced_rbt s' = alloced_rbt s;
  ef_lock : pm_lock s' = pm_lock s;
}.
Definition kept (A : gset Z) (s s' : page_alct_t) : Prop := ∀ q, q ∈ A → pg s' q = pg s q.

Lemma eff_refl L s : eff L s L s.
Proof. by split. Qed.
Lemma eff_trans L s L1 s1 L2 s2 : eff L s L1 s1 → eff L1 s1 L2 s2 → eff L s L2 s2.
Proof.
  intros [H1 H2 H3 H4] [G1 G2 G3 G4]. split.
  - intros a. by rewrite G1.
  - intros p. by rewrite G2.
  - by rewrite G3.
  - by rewrite G4.
Qed.

Lemma run_page_at s p : is_Some (pages s !! p) → page_at p s = Ret (pg s p) s.
Proof.
  intros [x Hx]. unfold page_at, bind, get, deref. by rewrite Hx, (page_some _ _ _ Hx).
Qed.
Lemma run_upd s p f : is_Some (pages s !! p) →
  upd p f s = Ret tt (set_pages (<[p := f (pg s p)]> (pages s)) s).
Proof. intros Hp. unfold upd, bind. by rewrite run_page_at. Qed.
Lemma run_head_of s o l : head s !! Z.to_nat o = Some l → head_of o s = Ret l s.
Proof. intros Hl. unfold head_of, bind, get, deref. by rewrite Hl. Qed.

Lemma run_step {B C} (c : M page_alct_t B) (k : B → M page_alct_t C) s b s' r :
  c s = Ret b s' → k b s' = r → bind c k s = r.
Proof. intros Hc <-. unfold bind. by rewrite Hc. Qed.

Section ops.
Implicit Types (s : page_alct_t) (L A : gset Z).

Lemma good_page L A s p : good L A s → p ∈ L → is_Some (pages s !! p).
Proof. intros HG Hp. by apply (b_page _ _ _ _ _ HG). Qed.
Lemma good_order L A s p : good L A s → p ∈ L → 0 ≤ order (pg s p) < Z.of_nat NR_BUDDY_ORDER.
Proof. intros HG Hp. by destruct (b_page _ _ _ _ _ HG p Hp) as [_ [? _]]. Qed.
Lemma good_head L A s o : good L A s → 0 ≤ o < Z.of_nat NR_BUDDY_ORDER →
  ∃ l, head s !! Z.to_nat o = Some l ∧ NoDup l ∧
    ∀ p, p ∈ l ↔ p ∈ L ∧ state (pg s p) = BUD_FREE ∧ order (pg s p) = o.
Proof.
  intros HG Ho. destruct (b_heads _ _ _ _ _ HG) as [Hlen Hh].
  destruct (lookup_lt_is_Some_2 (head s) (Z.to_nat o)) as [l Hl]; [rewrite Hlen; lia|].
  exists l. split; [done|]. destruct (Hh _ _ Hl) as [Hnd Hin]. split; [done|].
  intros p. rewrite Hin, Z2Nat.id by lia. done.
Qed.

(** A FREE block leaves its list: [l'] is the list without it. *)
Lemma take_free L A s p l l' : good L A s → p ∈ L → state (pg s p) = BUD_FREE →
  head s !! Z.to_nat (order (pg s p)) = Some l → NoDup l' → (∀ q, q ∈ l' ↔ q ∈ l ∧ q ≠ p) →
  let s' := set_pages (<[p := pg_state BUD_ALLOCED (pg s p)]> (pages s))
              (set_head (<[Z.to_nat (order (pg s p)) := l']> (head s)) s) in
  good L ({[p]} ∪ A) s' ∧ eff L s L s' ∧ (∀ q, q ≠ p → pg s' q = pg s q) ∧
  pg s' p = pg_state BUD_ALLOCED (pg s p) ∧ p ∉ A.
Proof.
  intros HG Hp Hst Hl Hnd Hl'. assert (leaf (pg s p)) as Hlf by (unfold leaf; by rewrite Hst).
  pose proof (good_order _ _ _ _ HG Hp) as Ho.
  split_and!.
  - apply (bud_restate p BUD_ALLOCED ({[p]} ∪ A) _ HG); try done; simpl.
    + intros q. rewrite elem_of_union, elem_of_singleton. case_bool_decide; [naive_solver|tauto].
    + split; [apply length_insert|]. intros o k Hk.
      destruct (decide (o = Z.to_nat (order (pg s p)))) as [->|Hno].
      * rewrite list_lookup_insert_eq in Hk by (by eapply lookup_lt_Some). simplify_eq.
        split; [done|]. exists l. split; [done|]. intros q. rewrite Hl'.
        case_bool_decide; [naive_solver|tauto].
      * rewrite list_lookup_insert_ne in Hk by done.
        destruct (proj2 (b_heads _ _ _ _ _ HG) _ _ Hk) as [Hndk Hink].
        split; [done|]. exists k. split; [done|]. intros q. case_bool_decide as Hq; [|done].
        subst q. rewrite Hink, Hst. split; [|by intros [? _]]. intros (_ & _ & Hoo). lia.
  - split; simpl; try done. intros a. eapply covers_restate; [exact HG|done|done].
  - intros q Hq. by apply page_there.
  - apply page_here.
  - rewrite (b_alloc _ _ _ _ _ HG), Hst. by intros [_ ?].
Qed.

Lemma run_buddy_get L A s o : good L A s → 0 ≤ o < Z.of_nat NR_BUDDY_ORDER →
  (buddy_get o s = Ret (E_NOMEM, None) s ∧
     ∀ p, p ∈ L → state (pg s p) = BUD_FREE → order (pg s p) ≠ o) ∨
  ∃ p s', buddy_get o s = Ret (E_OK, Some p) s' ∧ good L ({[p]} ∪ A) s' ∧ eff L s L s' ∧
    (∀ q, q ≠ p → pg s' q = pg s q) ∧ pg s' p = pg_state BUD_ALLOCED (pg s p) ∧ (p ∉ A) ∧
    order (pg s p) = o ∧ slots s' = slots s.
Proof.
  intros HG Ho. destruct (good_head _ _ _ _ HG Ho) as (l & Hl & Hnd & Hin).
  unfold buddy_get. replace (o <? _) with true by lia. destruct l as [|p l].
  - left. split; [eapply run_step; [done|]; eapply run_step; [by apply run_head_of|done]|].
    intros p Hp Hst Hpo. by apply (not_elem_of_nil p), Hin.
  - right. destruct (Hin p) as [(HpL & Hps & Hpo) _]; [left|].
    apply NoDup_cons in Hnd as [Hpl Hnd]. subst o.
    destruct (take_free L A s p (p :: l) l HG HpL Hps Hl Hnd) as (H1 & H2 & H3 & H4 & H5).
    { intros q. rewrite elem_of_cons. split; [|by intros [[?|?] ?]].
      intros Hq. split; [by right|]. by intros ->. }
    exists p. eexists. split; [|split_and!; [exact H1|exact H2|exact H3|exact H4|exact H5|done|done]].
    eapply run_step; [done|]. eapply run_step; [apply run_head_of; exact Hl|].
    eapply run_step; [done|]. eapply run_step; [apply run_upd; exact (good_page _ _ _ _ HG HpL)|]. done.
Qed.

Lemma run_ptc L A s b : good L A s → b ∈ L →
  (state (pg s b) ≠ BUD_FREE ∧ buddy_get_ptc b s = Ret E_FAILE s) ∨
  ∃ s', state (pg s b) = BUD_FREE ∧ buddy_get_ptc b s = Ret E_OK s' ∧ good L ({[b]} ∪ A) s' ∧
    eff L s L s' ∧ (∀ q, q ≠ b → pg s' q = pg s q) ∧ pg s' b = pg_state BUD_ALLOCED (pg s b) ∧
    (b ∉ A) ∧ slots s' = slots s.
Proof.
  intros HG Hb. pose proof (good_page _ _ _ _ HG Hb) as Hs. unfold buddy_get_ptc.
  destruct (decide (state (pg s b) = BUD_FREE)) as [Hst|Hst].
  - right. destruct (good_head _ _ _ _ HG (good_order _ _ _ _ HG Hb)) as (l & Hl & Hnd & Hin).
    destruct (take_free L A s b l (filter (λ y, y ≠ b) l) HG Hb Hst Hl) as (H1 & H2 & H3 & H4 & H5).
    { by apply NoDup_filter. }
    { intros q. rewrite list_elem_of_filter. tauto. }
    eexists. split; [done|]. split; [|split_and!; [exact H1|exact H2|exact H3|exact H4|exact H5|done]].
    eapply run_step; [by apply run_page_at|]. rewrite bool_decide_eq_false_2 by (by intros ?).
    eapply run_step; [by apply run_head_of|]. eapply run_step; [done|].
    eapply run_step; [by apply run_upd|]. done.
  - left. split; [done|]. eapply run_step; [by apply run_page_at|].
    by rewrite bool_decide_eq_true_2.
Qed.

(** ** Giving a block back *)
Lemma put_body_spec L A s p : good L A s → p ∈ A →
  wp (put_body p) (λ r s', match r with
    | inr q => q = p ∧ s' = s ∧ (pos (pg s p) ≠ BUD_NOBUD → state (pg s (bud_b (pg s p))) ≠ BUD_FREE)
    | inl f => ∃ L' A', good L' A' s' ∧ f ∈ A' ∧ A' ∖ {[f]} = A ∖ {[p]} ∧ eff L s L' s' ∧
        kept (A ∖ {[p]}) s s' ∧ order (pg s' f) = order (pg s p) + 1 ∧
        (length (slots s) ≤ length (slots s'))%nat
    end) s.
Proof.
  intros HG HpA. destruct (bud_leaf p HG HpA) as (HpL & Hpst & _).
  pose proof (good_page _ _ _ _ HG HpL) as Hps. unfold put_body.
  eapply wp_step; [by apply run_page_at|]. case_bool_decide as Hn; [by apply wp_ret|].
  destruct (b_fam _ _ _ _ _ HG p HpL Hn) as (_ & HbL & Hbp & _). set (b := bud_b (pg s p)) in *.
  destruct (run_ptc L A s b HG HbL) as [[Hst Hr]|(s1 & Hst & Hr & HG1 & He1 & Hq1 & Hb1 & HbA & Hsl1)].
  { eapply wp_step; [exact Hr|]. by apply wp_ret. }
  eapply wp_step; [exact Hr|]. cbn [negb Z.eqb E_OK].
  assert (pg s1 p = pg s p) as Hp1 by (by apply Hq1).
  assert (bud_b (pg s1 p) = b) as Hpb by (by rewrite Hp1).
  assert (pos (pg s1 p) ≠ BUD_NOBUD) as Hn1 by (by rewrite Hp1).
  assert (p ∈ {[b]} ∪ A ∧ b ∈ {[b]} ∪ A) as [HpA1 HbA1] by set_solver.
  destruct (bud_merge p HG1 HpA1 Hn1) as (HG2 & HfA & Hfo & Hcov); [by rewrite Hpb|].
  rewrite Hpb in *. set (f := bud_f (pg s1 p)) in *.
  destruct (b_fam _ _ _ _ _ HG1 p HpL Hn1) as (HfL & _ & _ & Hh). rewrite Hpb in Hh. fold f in Hh, HfL.
  pose proof Hh as (Hfv & _ & _ & Hbb & Hbf & _).
  set (s2 := set_pages (<[f := pg_state BUD_ALLOCED (pg s1 f)]> (pages s1)) s1).
  assert (merge_page p b s1 = Ret f s2) as Hmg.
  { unfold merge_page. eapply run_step; [apply run_page_at; by eapply good_page|].
    eapply run_step; [apply run_page_at; by eapply good_page|].
    rewrite Hpb, Hbb, Hbf. fold f.
    rewrite (bool_decide_eq_true_2 (state (pg s1 p) = _)) by by rewrite Hp1.
    rewrite (bool_decide_eq_true_2 (state (pg s1 b) = _)) by by rewrite Hb1.
    rewrite !Z.eqb_refl.
    eapply run_step; [done|]. eapply run_step; [done|]. eapply run_step; [done|].
    eapply run_step; [apply run_page_at; by eapply good_page|].
    rewrite bool_decide_eq_true_2 by done. eapply run_step; [done|].
    eapply run_step; [apply run_upd; by eapply good_page|]. done. }
  eapply wp_step; [exact Hmg|]. eapply wp_step; [done|]. eapply wp_step; [done|]. apply wp_ret.
  exists (L ∖ {[p; b]}), ({[f]} ∪ ({[b]} ∪ A) ∖ {[p; b]}).
  assert (f ≠ p ∧ f ≠ b) as [Hfp Hfb] by (split; intros ->; by apply HfA).
  split; [|split; [set_solver|split; [|split; [|split; [|split]]]]].
  - unfold good. simpl. by rewrite <- app_assoc.
  - apply set_eq. intros q.
    assert (q ∈ A → q ≠ b ∧ q ≠ f) as Hqa.
    { intros Hq. split; intros ->; [done|]. apply HfA, elem_of_union. by right. }
    rewrite !elem_of_difference, !elem_of_union, elem_of_difference, elem_of_union.
    rewrite not_elem_of_union, !elem_of_singleton. tauto.
  - eapply eff_trans; [exact He1|]. split; simpl; try done.
    intros q. rewrite !elem_of_app, elem_of_difference, not_elem_of_union, !list_elem_of_singleton,
      !elem_of_singleton. destruct (decide (q = p)) as [Hx|], (decide (q = b)) as [Hy|];
      try rewrite Hx; try rewrite Hy; tauto.
  - intros q [Hq Hqp]%elem_of_difference.
    rewrite <- (Hq1 q) by (by intros ->). simpl. apply page_there.
    intros ->. apply HfA. set_solver.
  - simpl. rewrite page_here. simpl. by rewrite Hfo, Hp1.
  - simpl. rewrite !length_app, Hsl1. lia.
Qed.

Lemma buddy_put_spec L A s p : good L A s → p ∈ A →
  wp (buddy_put p) (λ err s', err = E_OK ∧ ∃ L', good L' (A ∖ {[p]}) s' ∧ eff L s L' s' ∧
    kept (A ∖ {[p]}) s s' ∧ (length (slots s) ≤ length (slots s'))%nat) s.
Proof.
  intros HG HpA. destruct (bud_leaf p HG HpA) as (HpL & Hpst & _). unfold buddy_put.
  eapply wp_step; [apply run_page_at; by eapply good_page|].
  pose proof (good_order _ _ _ _ HG HpL) as Ho. replace (_ <? _) with true by lia.
  rewrite bool_decide_eq_true_2 by done. eapply wp_step; [done|]. eapply wp_step; [done|].
  apply wp_bind.
  eapply wp_mono.
  { apply (wp_loop (λ n q s1, ∃ L1 A1, good L1 A1 s1 ∧ q ∈ A1 ∧ A1 ∖ {[q]} = A ∖ {[p]} ∧ eff L s L1 s1 ∧
      kept (A ∖ {[p]}) s s1 ∧ (length (slots s) ≤ length (slots s1))%nat ∧ (n + Z.to_nat (order (pg s1 q)) = NR_BUDDY_ORDER)%nat)
      (λ q s1, ∃ L1 A1, good L1 A1 s1 ∧ q ∈ A1 ∧ A1 ∖ {[q]} = A ∖ {[p]} ∧ eff L s L1 s1 ∧
      kept (A ∖ {[p]}) s s1 ∧ (length (slots s) ≤ length (slots s1))%nat ∧ (pos (pg s1 q) ≠ BUD_NOBUD → state (pg s1 (bud_b (pg s1 q))) ≠ BUD_FREE)))
      with (n := (NR_BUDDY_ORDER - Z.to_nat (order (pg s p)))%nat).
    - intros n q s1 (L1 & A1 & HG1 & Hq & HA & He & Hk & Hsl & Hn).
      destruct (bud_leaf q HG1 Hq) as (HqL & _). pose proof (good_order _ _ _ _ HG1 HqL) as Hoq.
      eapply wp_mono; [by apply (put_body_spec L1 A1)|]. intros [f|q'] s2; simpl.
      + intros (L2 & A2 & HG2 & Hf & HA2 & He2 & Hk2 & Ho2 & Hsl2).
        exists (n - 1)%nat. split; [lia|]. exists L2, A2.
        split_and!; [done|done|by rewrite HA2|by eapply eff_trans| |lia|].
        * intros x Hx. rewrite Hk2; [by apply Hk|]. by rewrite HA.
        * rewrite Ho2. lia.
      + intros (-> & -> & Hnb). by exists L1, A1.
    - lia.
    - exists L, A. split_and!; try done. lia. }
  intros q s1 (L1 & A1 & HG1 & Hq & HA & He & Hk & Hsl & Hnb). cbn beta.
  destruct (bud_leaf q HG1 Hq) as (HqL & Hqst & Hql).
  pose proof (good_order _ _ _ _ HG1 HqL) as Hoq.
  destruct (good_head _ _ _ _ HG1 Hoq) as (l & Hl & Hnd & Hin).
  eapply wp_step; [apply run_upd; by eapply good_page|].
  set (s2 := set_pages (<[q := pg_state BUD_FREE (pg s1 q)]> (pages s1)) s1).
  assert (pg s2 q = pg_state BUD_FREE (pg s1 q)) as Hq2 by apply page_here.
  eapply wp_step.
  { apply run_page_at. unfold s2. simpl. rewrite lookup_insert_eq. eauto. }
  rewrite Hq2. cbn [pg_state order].
  eapply wp_step; [apply run_head_of; exact Hl|]. eapply wp_step; [done|]. apply wp_ret.
  split; [done|]. exists L1. split; [|split; [|split; [|exact Hsl]]].
  - unfold good. simpl. rewrite <- HA.
    apply (bud_restate q BUD_FREE _ _ HG1); try done.
    + intros x. rewrite elem_of_difference, elem_of_singleton. case_bool_decide; [naive_solver|tauto].
    + split; [apply length_insert|]. intros o k Hko.
      destruct (decide (o = Z.to_nat (order (pg s1 q)))) as [->|Hno].
      * rewrite list_lookup_insert_eq in Hko by (by eapply lookup_lt_Some). simplify_eq.
        split.
        { apply NoDup_app. split_and!; [done| |apply NoDup_singleton].
          intros x Hx ->%list_elem_of_singleton. apply Hin in Hx as (_ & ? & _). congruence. }
        exists l. split; [done|]. intros x. rewrite elem_of_app, list_elem_of_singleton.
        case_bool_decide; [|tauto]. subst x. split; [intros _; split; [done|lia]|by right].
      * rewrite list_lookup_insert_ne in Hko by done.
        destruct (proj2 (b_heads _ _ _ _ _ HG1) _ _ Hko) as [Hndk Hink].
        split; [done|]. exists k. split; [done|]. intros x. case_bool_decide as Hx; [|done].
        subst x. rewrite Hink, Hqst. split; [by intros (_ & ? & _)|]. intros (_ & Hoo). lia.
  - eapply eff_trans; [exact He|]. split; simpl; try done.
    intros a. eapply covers_restate; [exact HG1|done|done].
  - intros x Hx. rewrite <- (Hk x Hx). rewrite <- HA in Hx. simpl. apply page_there. set_solver.
Qed.

(** ** Taking a block *)
Lemma run_new_page L A s p l : good L A s → slots s = p :: l →
  ∃ s', new_page s = Ret (E_OK, Some p) s' ∧ good L A s' ∧ slots s' = l ∧ (p ∉ L) ∧ (p ∉ l) ∧
    is_Some (pages s' !! p) ∧ (∀ q, q ≠ p → pages s' !! q = pages s !! q) ∧
    alloced_rbt s' = alloced_rbt s ∧ pm_lock s' = pm_lock s.
Proof.
  intros HG Hs. destruct (b_slots _ _ _ _ _ HG) as [Hnd Hin]. rewrite Hs in Hnd, Hin.
  apply NoDup_cons in Hnd as [Hpl Hnd]. destruct (Hin p) as [HpL Hsp]; [left|].
  eexists. split; [|split_and!].
  - unfold new_page. eapply run_step; [done|]. rewrite Hs. eapply run_step; [done|].
    eapply run_step; [by apply run_upd|]. done.
  - apply (bud_ext _ _ HG); simpl.
    + intros q Hq. rewrite page_there by (by intros ->). split; [done|].
      rewrite lookup_insert_ne by (by intros ->). by eapply good_page.
    + split; [done|]. intros q Hq. destruct (Hin q) as [HqL Hqs]; [by right|]. split; [done|].
      rewrite lookup_insert_ne; [done|]. by intros ->.
  - done.
  - done.
  - done.
  - simpl. rewrite lookup_insert_eq. eauto.
  - intros q Hq. simpl. by apply lookup_insert_ne.
  - done.
  - done.
Qed.

(** [divide_page] on two fresh structures, and the right half given back. *)
Lemma run_divide L A s f l r : good L A s → f ∈ A → 0 < order (pg s f) → l ≠ r →
  l ∉ L → r ∉ L → l ∉ slots s → r ∉ slots s → is_Some (pages s !! l) → is_Some (pages s !! r) →
  ∃ s', divide_page f l r s = Ret E_OK s' ∧ good ({[l; r]} ∪ L) ({[l; r]} ∪ A ∖ {[f]}) s' ∧
    (∀ a, covers ({[l; r]} ∪ L) (pages s') a ↔ covers L (pages s) a) ∧
    kept (A ∖ {[f]}) s s' ∧ slots s' = slots s ∧ alloced_rbt s' = alloced_rbt s ∧
    pm_lock s' = pm_lock s ∧ order (pg s' l) = order (pg s f) - 1.
Proof.
  intros HG HfA Ho Hlr HlL HrL Hls Hrs Hsl Hsr.
  destruct (bud_leaf f HG HfA) as (HfL & Hfst & _).
  assert (f ≠ l ∧ f ≠ r) as [Hfl Hfr] by (split; by intros ->).
  destruct (bud_divide f l r (cnt (pg s l)) (cnt (pg s r)) HG HfA Ho Hlr HlL HrL Hls Hrs Hsl Hsr) as [HG' Hc].
  set (ps' := <[f := pg_state BUD_VIRT (pg s f)]> (<[r := right_half f l (pg s f) (cnt (pg s r))]>
      (<[l := left_half f r (pg s f) (cnt (pg s l))]> (pages s)))) in *.
  exists (set_pages ps' s). split; [|split_and!; [exact HG'|exact Hc| |done|done|done|]].
  - destruct (b_page _ _ _ _ _ HG f HfL) as [Hsf Hsz].
    destruct (half_size _ Hsz Ho) as [Hh1 Hh2]. pose proof (size_pos _ Hsz).
    destruct Hsz as (_ & _ & Ha & Haw & _).
    unfold divide_page. eapply run_step; [by apply run_page_at|].
    replace (order (pg s f) =? 0) with false by lia.
    eapply run_step; [by apply run_upd|]. eapply run_step; [apply run_upd|].
    { simpl. by rewrite lookup_insert_ne. }
    eapply run_step; [apply run_upd|].
    { simpl. rewrite lookup_insert_ne, lookup_insert_eq by done. eauto. }
    eapply run_step; [apply run_upd|].
    { simpl. rewrite lookup_insert_ne, lookup_insert_eq by done. eauto. }
    eapply run_step; [apply run_upd|].
    { simpl. rewrite !lookup_insert_ne by done. by eapply good_page. }
    unfold ret. f_equal. unfold set_pages. simpl. f_equal. unfold ps'.
    repeat (rewrite page_here || rewrite page_there by done).
    unfold add32. rewrite (u32_small (addr (pg s f) + size (pg s f) / 2)) by (unfold is_u32; lia).
    apply map_eq. intros q.
    destruct (decide (q = f)) as [->|Hqf]; [by rewrite !lookup_insert_eq|].
    rewrite !(lookup_insert_ne _ f q) by done.
    destruct (decide (q = r)) as [->|Hqr]; [rewrite !lookup_insert_eq; done|].
    rewrite !(lookup_insert_ne _ r q) by done.
    destruct (decide (q = l)) as [->|Hql]; [by rewrite !lookup_insert_eq|].
    rewrite !lookup_insert_ne by (by apply not_eq_sym). done.
  - intros q [Hq Hqf]%elem_of_difference. simpl. unfold ps'.
    assert (q ∈ L) as HqL by by apply (bud_leaf q HG).
    rewrite !page_there; [done|..]; try (by intros ->). intros ->. apply Hqf. by apply elem_of_singleton.
  - simpl. unfold ps'. rewrite !page_there by done. by rewrite page_here.
Qed.


Definition NR : Z := Z.of_nat NR_BUDDY_ORDER.

(** Two structures for the halves of [f], and the division. *)
Lemma run_split L A s f l0 r0 ls : good L A s → f ∈ A → 0 < order (pg s f) →
  slots s = l0 :: r0 :: ls →
  ∃ s', (∀ B (K : Z → Z → Z → M page_alct_t B) Q, wp (K E_OK l0 r0) Q s' →
      wp (l <- new_page ;; r <- new_page ;; l <- deref (snd l) ;; r <- deref (snd r) ;;
         err <- divide_page f l r ;; K err l r) Q s) ∧
    good ({[l0; r0]} ∪ L) ({[l0; r0]} ∪ A ∖ {[f]}) s' ∧ eff L s ({[l0; r0]} ∪ L) s' ∧
    kept (A ∖ {[f]}) s s' ∧ slots s' = ls ∧ l0 ≠ r0 ∧ (l0 ∉ L) ∧ (r0 ∉ L) ∧
    order (pg s' l0) = order (pg s f) - 1.
Proof.
  intros HG HfA Ho Hs. destruct (bud_leaf f HG HfA) as (HfL & _).
  destruct (run_new_page L A s _ _ HG Hs) as (s1 & R1 & HG1 & Hs1 & HlL & Hll & Hl1 & Hq1 & Ht1 & Hk1).
  destruct (run_new_page L A s1 _ _ HG1 Hs1) as (s2 & R2 & HG2 & Hs2 & HrL & Hrl & Hr2 & Hq2 & Ht2 & Hk2).
  apply not_elem_of_cons in Hll as [Hlr Hll].
  assert (∀ q, q ∈ L → pg s2 q = pg s q) as Hkeep.
  { intros q Hq. unfold page_of. rewrite Hq2, Hq1; [done|by intros ->..]. }
  destruct (run_divide L A s2 f l0 r0 HG2 HfA) as (s3 & R3 & HG3 & Hc & Hk & Hs3 & Ht3 & Hk3 & Hor);
    try done; try (by rewrite Hs2).
  { by rewrite Hkeep. }
  { by rewrite Hq2. }
  exists s3. split; [|split_and!; [exact HG3| | |by rewrite Hs3|done|done|done|by rewrite Hor, Hkeep]].
  - intros B K Q HQ. eapply wp_step; [exact R1|]. eapply wp_step; [exact R2|]. eapply wp_step; [done|].
    eapply wp_step; [done|]. by eapply wp_step.
  - split.
    + intros a. rewrite Hc. unfold covers.
      split; intros (q & Hq & Hqq); exists q; (split; [done|]); revert Hqq; by rewrite Hkeep.
    + intros q. rewrite Hs3, Hs2, Hs, !elem_of_cons, !elem_of_union, !elem_of_singleton. tauto.
    + by rewrite Ht3, Ht2.
    + by rewrite Hk3, Hk2.
  - intros q Hq. rewrite (Hk q Hq). apply Hkeep. apply (bud_leaf q HG). set_solver.
Qed.

Lemma buddy_alloc_spec fuel : ∀ L A s o, good L A s → 0 ≤ o ≤ NR → NR - o < Z.of_nat fuel →
  2 * (NR - o) ≤ Z.of_nat (length (slots s)) →
  wp (buddy_alloc fuel o) (λ r s',
    match snd r with
    | None => fst r = E_NOMEM ∧ s' = s ∧
        ∀ p, p ∈ L → state (pg s p) = BUD_FREE → order (pg s p) < o
    | Some p => fst r = E_OK ∧ ∃ L', good L' ({[p]} ∪ A) s' ∧ (p ∉ A) ∧ eff L s L' s' ∧ kept A s s' ∧
        order (pg s' p) = o ∧ Z.of_nat (length (slots s)) - 2 * (NR - o) ≤ Z.of_nat (length (slots s'))
    end) s.
Proof.
  induction fuel as [|fuel IH]; intros L A s o HG Ho Hf Hsl; cbn [buddy_alloc]; [lia|].
  fold NR. destruct (NR <=? o) eqn:HNR.
  { apply wp_ret. split_and!; [done..|]. intros p Hp _. pose proof (good_order _ _ _ _ HG Hp).
    unfold NR in *. lia. }
  destruct (run_buddy_get L A s o HG) as [[R Hnone]|(p & s1 & R & HG1 & He1 & Hq1 & Hp1 & HpA & Hpo & Hsl1)].
  { fold NR. lia. }
  2:{ eapply wp_step; [exact R|]. apply wp_ret. cbn [fst snd]. split; [done|]. exists L.
      split_and!; try done.
      - intros q Hq. apply Hq1. by intros ->.
      - by rewrite Hp1.
      - rewrite Hsl1. lia. }
  eapply wp_step; [exact R|]. cbv beta iota. apply wp_bind.
  eapply wp_mono; [apply (IH L A s (o + 1) HG); lia|].
  intros [e [f|]] s1; cbn [fst snd].
  2:{ intros (-> & -> & Hall). apply wp_ret. split_and!; [done..|]. intros p Hp Hst.
      specialize (Hall p Hp Hst). specialize (Hnone p Hp Hst). lia. }
  intros (-> & L1 & HG1 & HfA & He1 & Hk1 & Hfo & Hsl1).
  destruct (slots s1) as [|l0 [|r0 ls]] eqn:Hs1; cbn [length] in Hsl1; [lia..|].
  assert (f ∈ {[f]} ∪ A) as Hff by set_solver.
  destruct (run_split L1 _ s1 f l0 r0 ls HG1 Hff) as
    (s2 & R2 & HG2 & He2 & Hk2 & Hs2 & Hlr & HlL & HrL & Hlo); [lia|done|].
  assert (∀ q, q ∈ A → q ∈ L1) as HAL.
  { intros q Hq. apply (bud_leaf q HG1). set_solver. }
  apply (R2 _ (λ err l r, if negb (err =? E_OK) then _ else _)). cbn [negb Z.eqb E_OK].
  apply wp_bind. eapply wp_mono; [apply (buddy_put_spec _ _ s2 r0 HG2); set_solver|].
  intros e s3 (-> & L3 & HG3 & He3 & Hk3 & Hsl3). apply wp_ret. cbn [fst snd]. split; [done|].
  assert (({[l0; r0]} ∪ ({[f]} ∪ A) ∖ {[f]}) ∖ {[r0]} = {[l0]} ∪ A) as HA.
  { apply set_eq. intros q. assert (q ∈ A → q ≠ r0 ∧ q ≠ f) by (intros Hq; split; intros ->; auto).
    rewrite !elem_of_difference, !elem_of_union, !elem_of_difference, !elem_of_union, !elem_of_singleton.
    destruct (decide (q = l0)) as [->|]; tauto. }
  rewrite HA in HG3, Hk3. exists L3. split_and!; try done.
  - intros Hl. by apply HlL, HAL.
  - eapply eff_trans; [exact He1|]. by eapply eff_trans.
  - intros q Hq. rewrite Hk3 by set_solver. rewrite Hk2; [by apply Hk1|].
    apply elem_of_difference. split; [set_solver|]. intros ->%elem_of_singleton. done.
  - rewrite Hk3 by set_solver. rewrite Hlo, Hfo. lia.
  - rewrite Hs2 in Hsl3. lia.
Qed.
End ops.
