(* ===== verification/PmProps.v ===== *)
(** * What pm_alloc, pm_free and pm_insert do: the theorems about Pm.v

    The invariant joins the blocks (PmSpec), the tree of the blocks handed out and
    the lock. *)
From S2P Require Import Prelude RbtModel RbtTree RbtInsert RbtDelete RbtIter RbtSearch RbtProps.
From S2P Require Import RbtClient DList Slot Machine Pm PmSpec PmOps.

Record pm_ok (L A : gset Z) (t : tree) (s : page_alct_t) : Prop := {
  po_bud : good L A s;
  po_lock : pm_lock s = false;
  po_tree : is_rbt t (alloced_rbt s);
  po_elems : ∀ p, p ∈ elems t ↔ p ∈ A;
  po_sorted : key_sorted (λ p, addr (pg s p)) (elems t);
  po_nodes : ∀ p, p ∈ L ∨ p ∈ slots s → p ≠ NULL ∧ is_Some (rbt_nodes (alloced_rbt s) !! p);
}.

(** The bytes of the allocator, free or handed out, are those of [s0]; what is in [A]
    is as it was. *)
Definition same_memory (L : gset Z) (s : page_alct_t) (L' : gset Z) (s' : page_alct_t) : Prop :=
  ∀ a, covers L' (pages s') a ↔ covers L (pages s) a.

Lemma addr_of_pg s p : addr_of s p = addr (pg s p).
Proof. unfold addr_of, page_of. by destruct (pages s !! p). Qed.

Lemma find_order_spec pgs i : ∀ o0, pgs ≤ 2 ^ Z.of_nat i →
  ∃ o, find_order pgs (S i) o0 = Some o ∧ 0 ≤ o ≤ Z.of_nat i ∧ pgs ≤ 2 ^ o ∧ (o = 0 ∨ 2 ^ (o - 1) < pgs).
Proof.
  induction i as [|i IH]; intros o0 Hp.
  - cbn [find_order]. rewrite (proj2 (Z.leb_le _ _) Hp). exists 0. simpl in Hp. split; [done|]. lia.
  - change (find_order pgs (S (S i)) o0) with
      (if pgs <=? 2 ^ Z.of_nat (S i) then find_order pgs (S i) (Some (Z.of_nat (S i))) else o0).
    rewrite (proj2 (Z.leb_le _ _) Hp).
    destruct (Z.leb_spec pgs (2 ^ Z.of_nat i)) as [H|H].
    + destruct (IH (Some (Z.of_nat (S i))) H) as (o & Hf & Ho & ?). exists o. split; [done|]. lia.
    + exists (Z.of_nat (S i)). cbn [find_order]. rewrite (proj2 (Z.leb_gt _ _) H). split; [done|].
      replace (Z.of_nat (S i) - 1) with (Z.of_nat i) by lia. lia.
Qed.

(** Handing the tree operations what they need. *)
Lemma wp_on_tree {B} (m : M rbt B) Q s :
  wp m (λ b t, Q b (set_tree t s)) (alloced_rbt s) → wp (on_tree m) Q s.
Proof. unfold on_tree. by rewrite wp_zoom. Qed.

(** ** Allocation *)
Lemma rbt_insert_spec L A A0 t s p : good L A s → A = {[p]} ∪ A0 → (p ∉ A0) → is_rbt t (alloced_rbt s) →
  (∀ q, q ∈ elems t ↔ q ∈ A0) → key_sorted (λ p, addr (pg s p)) (elems t) →
  (∀ q, q ∈ L ∨ q ∈ slots s → q ≠ NULL ∧ is_Some (rbt_nodes (alloced_rbt s) !! q)) →
  wp (rbt_insert p) (λ err s', err = E_OK ∧ ∃ t' r, s' = set_tree r s ∧ is_rbt t' r ∧
    (∀ q, q ∈ elems t' ↔ q ∈ A) ∧ key_sorted (λ p, addr (pg s p)) (elems t') ∧
    (∀ q, is_Some (rbt_nodes (alloced_rbt s) !! q) → is_Some (rbt_nodes r !! q))) s.
Proof.
  intros HG -> Hp [HR Hrb] Hel Hs Hn. destruct (bud_leaf p HG) as (HpL & Hst & Hlf); [set_solver|].
  unfold rbt_insert. eapply wp_step; [done|]. apply wp_bind, wp_on_tree.
  assert (key_sorted (addr_of s) (elems t)) as Hs'.
  { eapply key_sorted_ext; [|exact Hs]. intros x _. symmetry. apply addr_of_pg. }
  destruct (Hn p (or_introl HpL)) as [Hp0 Hpn].
  eapply wp_mono; [apply wp_and_wlp; [|apply keeps_tree_insert]|].
  { eapply (client_insert (addr_of s)); [exact HR|exact Hrb|exact Hs'| |done].
    split_and!; [done|by rewrite Hel|done]. }
  intros b r [Hb Hd]. apply wp_ret. destruct b.
  - destruct Hb as (_ & t' & l1 & l2 & HR' & Hrb' & He & He' & Hs1). split; [done|].
    exists t', r. split_and!; [done| | | |].
    + split; [by eapply R_weaken|done].
    + intros q. rewrite He', elem_of_app, elem_of_cons, elem_of_union, elem_of_singleton, <- Hel, He, elem_of_app. tauto.
    + eapply key_sorted_ext; [|exact Hs1]. intros x _. apply addr_of_pg.
    + done.
  - exfalso. destruct Hb as (_ & q & Hq & Hk). apply Hel in Hq. apply Hp.
    destruct (bud_leaf q HG) as (HqL & _ & Hqf); [set_solver|].
    enough (q = p) by by subst. rewrite !addr_of_pg in Hk.
    apply (b_disj _ _ _ _ _ HG q p (addr (pg s p))); try done.
    + destruct (b_page _ _ _ _ _ HG q HqL) as [_ Hz]. pose proof (size_pos _ Hz). unfold inside. lia.
    + destruct (b_page _ _ _ _ _ HG p HpL) as [_ Hz]. pose proof (size_pos _ Hz). unfold inside. lia.
Qed.

(** The structures are the same ones. *)
Definition same_structs (L : gset Z) (s : page_alct_t) (L' : gset Z) (s' : page_alct_t) : Prop :=
  ∀ q, q ∈ L' ∨ q ∈ slots s' ↔ q ∈ L ∨ q ∈ slots s.

Lemma pm_alloc_spec L A t s sz :
  pm_ok L A t s → 0 < sz ≤ W32 - PAGE_SIZE → 2 * NR ≤ Z.of_nat (length (slots s)) →
  wp (pm_alloc sz) (λ r s',
    match snd r with
    | Some p => fst r = E_OK ∧ (p ∉ A) ∧ sz ≤ size (pg s' p) ∧
        (size (pg s' p) = PAGE_SIZE ∨ size (pg s' p) < 2 * ROUND_UP sz PAGE_SIZE) ∧
        kept A s s' ∧ ∃ L' t', pm_ok L' ({[p]} ∪ A) t' s' ∧ same_memory L s L' s' ∧ same_structs L s L' s'
    | None => fst r = E_NOMEM ∧ s' = s ∧
        ∀ p, p ∈ L → state (pg s p) = BUD_FREE → size (pg s p) < ROUND_UP sz PAGE_SIZE
    end) s.
Proof.
  intros Hok Hsz Hsl. pose proof Hok as [HG Hl Ht Hel Hs Hn].
  destruct (round_up_spec sz PAGE_SIZE) as [Hm Hr]; [unfold PAGE_SIZE, W32 in *; lia..|].
  set (rs := ROUND_UP sz PAGE_SIZE) in *.
  pose proof (Z_div_exact_full_2 rs PAGE_SIZE ltac:(done) Hm) as Hrs.
  set (pgs := rs / PAGE_SIZE) in *.
  assert (0 < pgs ≤ 2 ^ Z.of_nat 20) as Hpg by (unfold PAGE_SIZE, W32 in *; simpl; lia).
  destruct (find_order_spec pgs 20 None (proj2 Hpg)) as (o & Ho & Hob & Hpo & Hmin).
  unfold pm_alloc. replace (sz =? 0) with false by lia. fold rs pgs.
  change (find_order pgs NR_BUDDY_ORDER None) with (find_order pgs 21 None). rewrite Ho.
  eapply wp_step; [done|]. eapply wp_step.
  { unfold spin_lock, bind, get. by rewrite Hl. }
  set (s1 := set_lock true s). apply wp_bind.
  eapply wp_mono; [apply (buddy_alloc_spec _ L A s1 o HG); unfold NR, NR_BUDDY_ORDER in *; simpl in *; lia|].
  intros [e [p|]] s2; cbn [fst snd].
  - intros (-> & L' & HG2 & HpA & He & Hk & Hpo2 & _). destruct He as [Hc Hst Htr Hlk].
    apply wp_bind. eapply wp_mono.
    { apply (rbt_insert_spec L' _ A t s2 p HG2 eq_refl HpA); [by rewrite Htr|done|..].
      - eapply key_sorted_ext; [|exact Hs]. intros x Hx. by rewrite Hk by by apply Hel.
      - intros q Hq. rewrite Htr. apply Hn. by apply Hst. }
    intros e s3 (-> & t' & r & -> & Ht' & Hel' & Hs' & Hd). cbn [Z.eqb E_OK].
    eapply wp_step; [done|]. eapply wp_step; [done|]. apply wp_ret. cbn [fst snd].
    destruct (b_page _ _ _ _ _ HG2 p) as [_ (Hz1 & Hz2 & _)]; [apply (bud_leaf p HG2); set_solver|].
    rewrite Hpo2 in *. simpl. split_and!; try done.
    + rewrite Hz2. unfold PAGE_SIZE in *. nia.
    + rewrite Hz2. destruct (decide (o = 0)) as [->|Ho0]; [by left|right].
      destruct Hmin as [?|Hmin]; [done|].
      assert (2 ^ o = 2 * 2 ^ (o - 1)) as -> by (rewrite <- Z.pow_succ_r by lia; f_equal; lia).
      rewrite Hrs. unfold PAGE_SIZE in *. nia.
    + exists L', t'. split; [|by split]. split; try done.
      intros q Hq. simpl in *. destruct (Hn q) as [? ?]; [by apply Hst|]. split; [done|].
      apply Hd. by rewrite Htr.
  - intros (-> & -> & Hall). eapply wp_step; [done|]. apply wp_ret. cbn [fst snd].
    split_and!; [done|by destruct s; simpl in *; subst|].
    intros p Hp Hst. specialize (Hall p Hp Hst). change (pg s1 p) with (pg s p) in Hall.
    destruct (b_page _ _ _ _ _ HG p Hp) as [_ (Hz1 & Hz2 & _)]. rewrite Hz2.
    destruct Hmin as [->|Hmin]; [lia|].
    pose proof (Z.pow_le_mono_r 2 (order (pg s p)) (o - 1) ltac:(lia) ltac:(lia)).
    unfold PAGE_SIZE in *. nia.
Qed.

(** C3: Where enough page structures are left, [pm_alloc] of a size whose rounding
    up to pages does not wrap either hands out a block that was not handed out before,
    of the least power of two of pages that holds the size, and leaves every other
    block in use as it was; or it returns E_NOMEM with nothing changed, and then no
    free block is large enough. The memory the allocator stands for stays the same,
    and all blocks remain disjoint and in the tree exactly when in use. *)
Theorem pm_alloc_correct L A t s sz :
  pm_ok L A t s → 0 < sz ≤ W32 - PAGE_SIZE → 2 * NR ≤ Z.of_nat (length (slots s)) →
  wp (pm_alloc sz) (λ r s',
    match snd r with
    | Some p => fst r = E_OK ∧ (p ∉ A) ∧ sz ≤ size (pg s' p) ∧
        (size (pg s' p) = PAGE_SIZE ∨ size (pg s' p) < 2 * ROUND_UP sz PAGE_SIZE) ∧
        kept A s s' ∧ ∃ L' t', pm_ok L' ({[p]} ∪ A) t' s' ∧ same_memory L s L' s'
    | None => fst r = E_NOMEM ∧ s' = s ∧
        ∀ p, p ∈ L → state (pg s p) = BUD_FREE → size (pg s p) < ROUND_UP sz PAGE_SIZE
    end) s.
Proof.
  intros Hok Hsz Hsl. eapply wp_mono; [by apply (pm_alloc_spec L A t s sz)|].
  intros [e [p|]] s' H; [|done]. destruct H as (? & ? & ? & ? & ? & L' & t' & ? & ? & _).
  split_and!; try done. by exists L', t'.
Qed.

Lemma pm_free_spec L A t s p :
  pm_ok L A t s → p ∈ A →
  wp (pm_free p) (λ err s', err = E_OK ∧ kept (A ∖ {[p]}) s s' ∧
    ∃ L' t', pm_ok L' (A ∖ {[p]}) t' s' ∧ same_memory L s L' s' ∧ same_structs L s L' s') s.
Proof.
  intros [HG Hl Ht Hel Hs Hn] Hp. unfold pm_free. eapply wp_step.
  { unfold spin_lock, bind, get. by rewrite Hl. }
  set (s1 := set_lock true s). apply wp_bind.
  eapply wp_mono; [by apply (buddy_put_spec L A s1 p)|].
  intros e s2 (-> & L' & HG2 & He & Hk & _). destruct He as [Hc Hst Htr Hlk]. cbn [negb Z.eqb E_OK].
  destruct Ht as [HR Hrb]. apply wp_bind, wp_on_tree. rewrite Htr.
  eapply wp_mono; [apply wp_and_wlp; [|apply keeps_rbt_delete]|].
  { eapply rbt_delete_spec; [exact HR|exact Hrb|by apply Hel]. }
  intros [] r [(t' & l1 & l2 & HR' & Hrb' & Het & Het') Hd].
  eapply wp_step; [done|]. apply wp_ret.
  assert (∀ q, q ∈ elems t' ↔ q ∈ A ∖ {[p]}) as Hel'.
  { intros q. pose proof (R_nodup _ _ _ _ HR) as Hnd. rewrite Het in Hnd.
    rewrite elem_of_difference, elem_of_singleton, <- Hel, Het, Het', !elem_of_app, elem_of_cons.
    apply NoDup_app in Hnd as (_ & Hx & Hy). apply NoDup_cons in Hy as [Hy _].
    specialize (Hx p). split; [|tauto].
    intros [Hq|Hq]; (split; [tauto|]); intros ->; [|done]. apply Hx; [done|left]. }
  split_and!; [done|exact Hk|]. exists L', t'. split; [|by split]. split; simpl; try done.
  - split; [by eapply R_weaken|done].
  - rewrite Het' in *. rewrite Het in Hs. apply key_sorted_delete in Hs.
    eapply key_sorted_ext; [|exact Hs]. intros x Hx. simpl. by rewrite Hk by by apply Hel'.
  - intros q Hq. destruct (Hn q) as [? Hq']; [by apply Hst|]. split; [done|]. by apply Hd.
Qed.

(** C4: [pm_free] of a block in use takes it out of the tree and gives its bytes back:
    the memory the allocator stands for is the same, every other block in use is as it
    was, and no two free halves of one block are left side by side. *)
Theorem pm_free_correct L A t s p :
  pm_ok L A t s → p ∈ A →
  wp (pm_free p) (λ err s', err = E_OK ∧ kept (A ∖ {[p]}) s s' ∧
    ∃ L' t', pm_ok L' (A ∖ {[p]}) t' s' ∧ same_memory L s L' s') s.
Proof.
  intros Hok Hp. eapply wp_mono; [by apply (pm_free_spec L A t s p)|].
  intros e s' (? & ? & L' & t' & ? & ? & _). split_and!; try done. by exists L', t'.
Qed.

(** ** Memory handed to the allocator *)
Lemma bud_add L A ps sl hd p : bud L A ps sl hd → p ∉ L → p ∉ sl → is_Some (ps !! p) →
  sized (page_of ps p) → pos (page_of ps p) = BUD_NOBUD → state (page_of ps p) = BUD_ALLOCED →
  (∀ a, inside (page_of ps p) a → ¬ covers L ps a) →
  bud ({[p]} ∪ L) ({[p]} ∪ A) ps sl hd ∧
  ∀ a, covers ({[p]} ∪ L) ps a ↔ covers L ps a ∨ inside (page_of ps p) a.
Proof.
  intros [H1 H2 H3 H4 H5 H6 H7 H8 H9] HpL Hps Hsm Hsz Hpos Hst Hfr.
  assert (leaf (page_of ps p)) as Hlf by (unfold leaf; by rewrite Hst).
  assert (∀ q, q ∈ {[p]} ∪ L ↔ q = p ∨ q ∈ L) as HL by (intros q; set_solver).
  split; [split|].
  - intros q [->|Hq]%HL; [done|by apply H1].
  - split; [apply H2|]. intros q Hq. destruct (proj2 H2 q Hq). split; [|done].
    intros [->|?]%HL; done.
  - intros q. rewrite HL, elem_of_union, elem_of_singleton, H3. split; [|tauto].
    intros [->|[? ?]]; [by split; [left|]|tauto].
  - split; [apply H4|]. intros o l Hl. destruct (proj2 H4 o l Hl) as [? Hin]. split; [done|].
    intros q. rewrite HL, Hin. split; [tauto|]. intros ([->|?] & ? & ?); [congruence|done].
  - intros q [->|Hq]%HL Hqp; [done|]. rewrite !HL. destruct (H5 q Hq Hqp) as (? & ? & ? & ?). auto.
  - intros q u [->|Hq]%HL [->|Hu]%HL; try done. by apply H6.
  - intros q [->|Hq]%HL; [done|]. by apply H7.
  - intros q u a [->|Hq]%HL [->|Hu]%HL Hl1 Hl2 Hi1 Hi2; [done| | |by eapply H8].
    + destruct (Hfr a Hi1). by exists u.
    + destruct (Hfr a Hi2). by exists q.
  - assert (leaves ({[p]} ∪ L) ps = {[p]} ∪ leaves L ps) as ->.
    { apply set_eq. intros q. rewrite elem_leaves, HL, elem_of_union, elem_leaves, elem_of_singleton.
      split; [tauto|]. intros [->|?]; [by split; [left|]|tauto]. }
    rewrite !size_plus1; [lia| |done]. rewrite elem_leaves. tauto.
  - intros a. unfold covers. split.
    + intros (q & [->|Hq]%HL & ? & ?); [by right|]. left. by exists q.
    + intros [(q & Hq & ?)|Hi]; [exists q|exists p]; by rewrite HL; auto.
Qed.

(** The pages whose bits are below [i]. *)
Definition low (pgs : Z) (i : nat) : Z := pgs mod 2 ^ Z.of_nat i.
Lemma low_S pgs i : low pgs (S i) =
  low pgs i + (if Z.testbit pgs (Z.of_nat i) then 2 ^ Z.of_nat i else 0).
Proof.
  unfold low. rewrite Nat2Z.inj_succ, Z.pow_succ_r, (Z.mul_comm 2) by lia.
  rewrite Z.rem_mul_r by lia. rewrite <- Z.testbit_spec' by lia.
  by destruct (Z.testbit pgs (Z.of_nat i)); simpl Z.b2z; lia.
Qed.

(** A new block of the allocator, not yet given to it. *)
Lemma run_fresh_block L A s p l a i : good L A s → slots s = p :: l → (i < NR_BUDDY_ORDER)%nat →
  0 ≤ a → a mod PAGE_SIZE = 0 → a + 2 ^ Z.of_nat i * PAGE_SIZE ≤ W32 →
  (∀ x, a ≤ x < a + 2 ^ Z.of_nat i * PAGE_SIZE → ¬ covers L (pages s) x) →
  ∃ s', (∀ B (K : Z * option Z → M page_alct_t B) Q,
      wp (buddy_put p ;;; K (E_OK, Some p)) Q s' →
      wp (r <- new_page ;; match r with
          | (err, None) => K (err, None)
          | (_, Some p) => upd p (pg_range a (2 ^ Z.of_nat i * PAGE_SIZE)) ;;;
              upd p (λ x, pg_bud (Z.of_nat i) (bud_f x) (bud_b x) BUD_NOBUD BUD_ALLOCED x) ;;;
              buddy_put p ;;; K (E_OK, Some p) end) Q s) ∧
    good ({[p]} ∪ L) ({[p]} ∪ A) s' ∧ slots s' = l ∧ (p ∉ L) ∧ kept L s s' ∧
    (∀ x, covers ({[p]} ∪ L) (pages s') x ↔
       covers L (pages s) x ∨ a ≤ x < a + 2 ^ Z.of_nat i * PAGE_SIZE) ∧
    alloced_rbt s' = alloced_rbt s ∧ pm_lock s' = pm_lock s.
Proof.
  intros HG Hs Hi Ha Ham Haw Hfr.
  destruct (run_new_page L A s _ _ HG Hs) as (s1 & R1 & HG1 & Hs1 & HpL & Hpl & Hp1 & Hq1 & Ht1 & Hk1).
  set (x := Page a (2 ^ Z.of_nat i * PAGE_SIZE) (cnt (pg s1 p)) (Z.of_nat i) (bud_f (pg s1 p))
    (bud_b (pg s1 p)) BUD_NOBUD BUD_ALLOCED).
  exists (set_pages (<[p := x]> (pages s1)) s1).
  assert (∀ q, q ∈ L → page_of (<[p := x]> (pages s1)) q = pg s q) as Hkeep.
  { intros q Hq. assert (q ≠ p) by by intros ->. rewrite page_there by done. unfold page_of.
    by rewrite Hq1. }
  assert (∀ y, covers L (<[p := x]> (pages s1)) y ↔ covers L (pages s) y) as Hcov.
  { intros y. unfold covers. split; intros (q & Hq & H); exists q; (split; [done|]); revert H; by rewrite Hkeep. }
  destruct (bud_add L A (<[p := x]> (pages s1)) (slots s1) (head s1) p) as [HG2 Hc2].
  - apply (bud_ext _ _ HG1).
    + intros q Hq. assert (q ≠ p) by by intros ->. rewrite page_there, lookup_insert_ne by done.
      split; [done|]. by eapply good_page.
    + destruct (b_slots _ _ _ _ _ HG1) as [Hnd Hin]. split; [done|]. intros q Hq. destruct (Hin q Hq).
      split; [done|]. rewrite lookup_insert_ne; [done|]. intros ->. by rewrite Hs1 in Hq.
  - done.
  - by rewrite Hs1.
  - rewrite lookup_insert_eq. by eexists.
  - rewrite page_here. unfold x, sized, NR_BUDDY_ORDER in *. simpl. split_and!; try done; lia.
  - by rewrite page_here.
  - by rewrite page_here.
  - intros y. rewrite page_here, Hcov. apply Hfr.
  - split; [|split_and!; try done].
    + intros B K Q HQ. eapply wp_step; [exact R1|]. cbv beta iota.
      eapply wp_step; [by apply run_upd|]. eapply wp_step; [apply run_upd|].
      { simpl. rewrite lookup_insert_eq. by eexists. }
      simpl. rewrite page_here, insert_insert_eq. exact HQ.
    + intros y. rewrite (Hc2 y), Hcov, page_here. done.
Qed.

Lemma pm_insert_loop L0 A s0 a pgs : good L0 A s0 → is_u32 a → a mod PAGE_SIZE = 0 → 0 ≤ pgs →
  a + pgs * PAGE_SIZE ≤ W32 →
  (∀ x, a ≤ x < a + pgs * PAGE_SIZE → ¬ covers L0 (pages s0) x) →
  Z.of_nat NR_BUDDY_ORDER ≤ Z.of_nat (length (slots s0)) →
  wp (loop (S (S NR_BUDDY_ORDER)) (insert_body pgs) (0%nat, a)) (λ err s', err = E_OK ∧ kept A s0 s' ∧
    ∃ L, good L A s' ∧ (∀ x, covers L (pages s') x ↔
      covers L0 (pages s0) x ∨ a ≤ x < a + low pgs NR_BUDDY_ORDER * PAGE_SIZE) ∧
      (∀ q, q ∈ L ∨ q ∈ slots s' ↔ q ∈ L0 ∨ q ∈ slots s0) ∧
      alloced_rbt s' = alloced_rbt s0 ∧ pm_lock s' = pm_lock s0) s0.
Proof.
  intros HG0 Ha32 Ham Hpg Haw Hfr Hsl. pose proof Ha32 as [Ha0 _].
  assert (∀ i, low pgs i ≤ pgs ∧ 0 ≤ low pgs i) as Hlow.
  { intros i. unfold low. pose proof (Z.mod_pos_bound pgs (2 ^ Z.of_nat i) ltac:(lia)).
    pose proof (Z.mod_le pgs (2 ^ Z.of_nat i) Hpg ltac:(lia)). lia. }
  apply (wp_loop (λ n v s, ∃ L, good L A s ∧ kept A s0 s ∧ (n + fst v = NR_BUDDY_ORDER)%nat ∧
      snd v = u32 (a + low pgs (fst v) * PAGE_SIZE) ∧
      (∀ x, covers L (pages s) x ↔ covers L0 (pages s0) x ∨ a ≤ x < a + low pgs (fst v) * PAGE_SIZE) ∧
      (∀ q, q ∈ L ∨ q ∈ slots s ↔ q ∈ L0 ∨ q ∈ slots s0) ∧
      alloced_rbt s = alloced_rbt s0 ∧ pm_lock s = pm_lock s0 ∧ (n ≤ length (slots s))%nat) _) with (n := NR_BUDDY_ORDER).
  - intros n [i c] s (L & HG & Hk & Hn & Hv & Hc & Hst & Ht & Hlk & Hs). cbn [fst snd] in *. subst c.
    unfold insert_body. destruct (Nat.leb_spec NR_BUDDY_ORDER i) as [Hi|Hi].
    { apply wp_ret. split; [done|]. split; [done|]. exists L. replace i with NR_BUDDY_ORDER in Hc by lia. done. }
    pose proof (low_S pgs i) as HS. pose proof (Hlow (S i)) as HSb. pose proof (Hlow i) as Hib.
    destruct (Z.testbit pgs (Z.of_nat i)) eqn:Hbit; cbn [negb].
    2:{ apply wp_ret. exists (n - 1)%nat. split; [lia|]. exists L. cbn [fst snd].
        rewrite HS, Z.add_0_r. split_and!; try done; lia. }
    pose proof (Z.pow_pos_nonneg 2 (Z.of_nat i) ltac:(lia) ltac:(lia)) as H2i.
    set (z := 2 ^ Z.of_nat i * PAGE_SIZE) in *.
    assert (a + low pgs i * PAGE_SIZE + z ≤ W32) as Hz by (unfold z, PAGE_SIZE in *; nia).
    rewrite (u32_small (a + low pgs i * PAGE_SIZE)) by (unfold is_u32, z, PAGE_SIZE in *; nia).
    destruct (slots s) as [|p l] eqn:Hsp; [simpl in *; lia|].
    destruct (run_fresh_block L A s p l (a + low pgs i * PAGE_SIZE) i HG Hsp Hi) as
      (s1 & R & HG1 & Hs1 & HpL & Hk1 & Hc1 & Ht1 & Hlk1); fold z.
    { unfold PAGE_SIZE in *; nia. }
    { by rewrite Z.mod_add. }
    { done. }
    { intros x Hx [Hcx|Hcx]%Hc; [|lia]. revert Hcx. apply Hfr. unfold z, PAGE_SIZE in *. nia. }
    apply (R _ (λ r, match r with (err, None) => ret (inr err)
      | (_, Some p) => ret (inl (S i, add32 (a + low pgs i * PAGE_SIZE) z)) end)).
    apply wp_bind. eapply wp_mono; [apply (buddy_put_spec _ _ s1 p HG1); set_solver|].
    intros e s2 (_ & L2 & HG2 & He & Hk2 & Hlen). apply wp_ret.
    destruct He as [Hc2 Hst2 Ht2 Hlk2].
    assert (p ∉ A) as HpA by (intros Hp; by apply HpL, (bud_leaf p HG)).
    assert (({[p]} ∪ A) ∖ {[p]} = A) as HA by set_solver.
    rewrite HA in HG2, Hk2. exists (n - 1)%nat. split; [lia|]. exists L2. cbn [fst snd].
    split_and!; [done| |lia| | | | | |].
    + intros q Hq. rewrite (Hk2 q Hq), <- (Hk q Hq). apply Hk1. by apply (bud_leaf q HG).
    + rewrite HS. unfold add32. f_equal. unfold z. lia.
    + intros x. rewrite Hc2, Hc1, Hc, HS. unfold z, PAGE_SIZE in *. split.
      * intros [[?|?]|?]; [by left|right; nia|right; nia].
      * intros [?|?]; [by do 2 left|].
        destruct (decide (x < a + low pgs i * 4096)); [left; right; lia|right; lia].
    + intros q. rewrite Hst2, Hs1, <- Hst, elem_of_union, elem_of_singleton, elem_of_cons. tauto.
    + by rewrite Ht2, Ht1.
    + by rewrite Hlk2, Hlk1.
    + rewrite Hs1 in Hlen. simpl in Hs. lia.
  - unfold NR_BUDDY_ORDER. lia.
  - exists L0. cbn [fst snd]. unfold low. simpl. rewrite Z.mod_1_r, Z.mul_0_l, Z.add_0_r.
    split_and!; try done.
    + symmetry. by apply u32_small.
    + intros x. split; [by left|]. intros [?|?]; [done|lia].
    + lia.
Qed.

Lemma pm_insert_spec L A t s a sz :
  pm_ok L A t s → is_u32 a → a mod PAGE_SIZE = 0 → 0 < sz < W32 → sz mod PAGE_SIZE = 0 →
  a + sz ≤ W32 → (∀ x, a ≤ x < a + sz → ¬ covers L (pages s) x) → NR ≤ Z.of_nat (length (slots s)) →
  wp (pm_insert a sz) (λ err s', err = E_OK ∧ kept A s s' ∧ ∃ L', pm_ok L' A t s' ∧ same_structs L s L' s' ∧
    ∀ x, covers L' (pages s') x ↔ covers L (pages s) x ∨ a ≤ x < a + sz) s.
Proof.
  intros [HG Hl Ht Hel Hs Hn] Ha Ham Hsz Hszm Haw Hfr Hsl.
  pose proof (Z_div_exact_full_2 sz PAGE_SIZE ltac:(done) Hszm) as Hpg.
  set (pgs := sz / PAGE_SIZE) in *.
  assert (low pgs NR_BUDDY_ORDER = pgs) as Hlow.
  { unfold low. apply Z.mod_small. unfold PAGE_SIZE, W32, NR_BUDDY_ORDER in *. simpl. lia. }
  unfold pm_insert. fold pgs.
  replace ((sz mod PAGE_SIZE =? 0) && (0 <? sz) && (a mod PAGE_SIZE =? 0)) with true
    by (rewrite Hszm, Ham; symmetry; apply andb_true_intro; split; [apply andb_true_intro|]; split; lia).
  eapply wp_step; [done|]. eapply wp_mono.
  { apply (pm_insert_loop L A s a pgs HG Ha Ham); [unfold PAGE_SIZE in *; lia|lia| |done].
    intros x Hx. apply Hfr. lia. }
  intros e s' (-> & Hk & L' & HG' & Hc & Hst & Htr & Hlk). split; [done|]. split; [done|].
  rewrite Hlow in Hc. exists L'. split.
  - split; try done.
    + by rewrite Hlk.
    + by rewrite Htr.
    + eapply key_sorted_ext; [|exact Hs]. intros x Hx. simpl. by rewrite Hk by by apply Hel.
    + intros q Hq. rewrite Htr. apply Hn. by apply Hst.
  - split; [done|]. intros x. rewrite Hc. replace (pgs * PAGE_SIZE) with sz by lia. done.
Qed.

(** [pm_insert] of a page-aligned range the allocator does not hold yet makes
    exactly the bytes of the range available, for any number of pages: what it stands
    for afterwards is what it stood for, and the range; nothing in use changes, and the
    invariant holds. *)
Theorem pm_insert_correct L A t s a sz :
  pm_ok L A t s → is_u32 a → a mod PAGE_SIZE = 0 → 0 < sz < W32 → sz mod PAGE_SIZE = 0 →
  a + sz ≤ W32 → (∀ x, a ≤ x < a + sz → ¬ covers L (pages s) x) → NR ≤ Z.of_nat (length (slots s)) →
  wp (pm_insert a sz) (λ err s', err = E_OK ∧ kept A s s' ∧ ∃ L', pm_ok L' A t s' ∧
    ∀ x, covers L' (pages s') x ↔ covers L (pages s) x ∨ a ≤ x < a + sz) s.
Proof.
  intros Hok Ha Ham Hsz Hszm Haw Hfr Hsl. eapply wp_mono; [by eapply (pm_insert_spec L A t s a sz)|].
  intros err s' (-> & Hk & L' & Hok' & _ & Hc). split; [done|]. split; [done|]. by exists L'.
Qed.

(** [pm_init] makes an allocator that stands for no memory, in the invariant, whose
    free page structures are the slots of the region behind the list heads; a region
    too small for the heads is refused and nothing changes. *)
Theorem pm_init_correct s a sz :
  0 ≤ a → 0 ≤ sz → a + sz + Z.of_nat NR_BUDDY_ORDER * SZ_LIST_NODE < W32 →
  (∀ p, p ∈ Slot.slots (a + Z.of_nat NR_BUDDY_ORDER * SZ_LIST_NODE) SZ_PAGE
       (Z.to_nat ((sz - Z.of_nat NR_BUDDY_ORDER * SZ_LIST_NODE) / SZ_PAGE)) →
     p ≠ NULL ∧ is_Some (pages s !! p) ∧ is_Some (rbt_nodes (alloced_rbt s) !! p)) →
  wp (pm_init a sz) (λ err s',
    if sz <? Z.of_nat NR_BUDDY_ORDER * SZ_LIST_NODE then err = E_NOMEM ∧ s' = s else
    err = E_OK ∧ pm_ok ∅ ∅ E s' ∧ (∀ x, ¬ covers ∅ (pages s') x) ∧
    slots s' = Slot.slots (a + Z.of_nat NR_BUDDY_ORDER * SZ_LIST_NODE) SZ_PAGE
       (Z.to_nat ((sz - Z.of_nat NR_BUDDY_ORDER * SZ_LIST_NODE) / SZ_PAGE))) s.
Proof.
  intros Ha Hsz Hw Hin. unfold pm_init. set (hs := Z.of_nat NR_BUDDY_ORDER * SZ_LIST_NODE) in *.
  assert (hs = 168) as Hhs by done.
  assert (add32 a hs = a + hs) as -> by (apply u32_small; unfold is_u32; lia).
  assert (add32 a sz = a + sz) as -> by (apply u32_small; unfold is_u32; lia).
  destruct (Z.ltb_spec sz hs) as [H|H].
  { replace (a + sz <? a + hs) with true by lia. by apply wp_ret. }
  replace (a + sz <? a + hs) with false by lia.
  assert (sub32 (a + sz) (a + hs) = sz - hs) as ->.
  { unfold sub32. replace (a + sz - (a + hs)) with (sz - hs) by lia. apply u32_small. unfold is_u32. lia. }
  set (sl := Slot.slots _ _ _) in *.
  do 3 (eapply wp_step; [done|]). eapply wp_step; [done|]. apply wp_ret.
  split_and!; [done| |by intros x (p & ? & _)|done]. split; simpl; try done.
  - split; simpl; try done.
    + split; [by apply slots_NoDup|]. intros p Hp. split; [done|]. by apply Hin.
    + intros p. split; [done|]. by intros [? _].
    + split; [done|]. intros o l Hl. apply (lookup_replicate_1 NR_BUDDY_ORDER) in Hl as [-> _].
      split; [constructor|]. intros p. split; [by intros ?%elem_of_nil|by intros [? _]].
  - split; [|split; [done|by exists 0%nat; constructor]]. split; simpl; [done|done|constructor|set_solver|set_solver|done].
  - intros p. split; [by intros ?%elem_of_nil|done].
  - constructor.
  - intros q [?|Hq]; [done|]. by apply Hin in Hq as (? & _ & ?).
Qed.

(** ** An allocator of eight pages at 1 MB, as one block at 0x2000, free or in use *)
Section example.
Definition ex_p : Z := 0x2000.
Definition ex_slots : list Z := Slot.slots 0x2044 SZ_PAGE 60.
Definition ex_page (st : BUD_STATE) : page_t := Page 0x100000 0x8000 0 3 0 0 BUD_NOBUD st.
Definition ex_heads (st : BUD_STATE) : list (list Z) :=
  <[3%nat := if bool_decide (st = BUD_FREE) then [ex_p] else []]> (replicate NR_BUDDY_ORDER []).
Definition ex_nodes (l : list Z) : nodes := list_to_map ((λ p, (p, RbtNode BLACK 0 0 0)) <$> l).
Definition ex_pm (st : BUD_STATE) : page_alct_t :=
  PageAlct ex_slots (<[ex_p := ex_page st]> (list_to_map ((λ p, (p, ex_page st)) <$> ex_slots)))
    (ex_heads st) (Rbt (if bool_decide (st = BUD_FREE) then NULL else ex_p) (ex_nodes (ex_p :: ex_slots))) false.

Lemma list_to_map_some {X} (f : Z → X) l p : p ∈ l →
  is_Some ((list_to_map ((λ p, (p, f p)) <$> l) : gmap Z X) !! p).
Proof.
  intros Hp. induction Hp as [p l|p q l Hp IH]; simpl.
  - rewrite lookup_insert_eq. by eexists.
  - destruct (decide (p = q)) as [->|?]; [rewrite lookup_insert_eq; by eexists|]. by rewrite lookup_insert_ne.
Qed.

Lemma ex_page_at st : page_of (pages (ex_pm st)) ex_p = ex_page st.
Proof. apply page_here. Qed.

Lemma ex_slots_ne p : p ∈ ex_slots → p ≠ ex_p ∧ p ≠ NULL.
Proof. intros (i & ? & ->)%elem_of_slots. unfold ex_p, NULL, SZ_PAGE. lia. Qed.

Lemma ex_good st : st ≠ BUD_VIRT →
  good {[ex_p]} (if bool_decide (st = BUD_FREE) then ∅ else {[ex_p]}) (ex_pm st).
Proof.
  intros Hst. split.
  - intros p ->%elem_of_singleton. rewrite ex_page_at. split; [cbn [ex_pm pages]; rewrite lookup_insert_eq; by eexists|].
    unfold sized, ex_page, W32, PAGE_SIZE, NR_BUDDY_ORDER. cbn [order size addr]. split_and!; try done; lia.
  - split; [by apply slots_NoDup|]. intros p Hp. destruct (ex_slots_ne p Hp). split; [set_solver|].
    cbn [ex_pm pages]. rewrite lookup_insert_ne by done. by apply (list_to_map_some (λ _, ex_page st)).
  - intros p. case_bool_decide as H; [subst|]; (split; [intros Hp|intros [Hp Hs]]).
    + by apply elem_of_empty in Hp.
    + apply elem_of_singleton in Hp as ->. by rewrite ex_page_at in Hs.
    + split; [done|]. apply elem_of_singleton in Hp as ->. rewrite ex_page_at. by destruct st.
    + done.
  - split; [done|]. intros o l Hl. cbn [ex_pm Pm.head] in Hl. unfold ex_heads in Hl.
    destruct (decide (o = 3%nat)) as [->|Ho].
    + rewrite list_lookup_insert_eq in Hl by (rewrite length_replicate; unfold NR_BUDDY_ORDER; lia). simplify_eq.
      case_bool_decide as H; subst; (split; [apply NoDup_singleton || constructor|]); intros p.
      * rewrite list_elem_of_singleton, elem_of_singleton. split; [intros ->|by intros [? _]].
        by rewrite ex_page_at.
      * split; [by intros ?%elem_of_nil|]. intros (->%elem_of_singleton & Hs & _). by rewrite ex_page_at in Hs.
    + rewrite list_lookup_insert_ne in Hl by done. apply lookup_replicate in Hl as [-> _].
      split; [constructor|]. intros p. split; [by intros ?%elem_of_nil|].
      intros (->%elem_of_singleton & _ & Hoo). rewrite ex_page_at in Hoo. simpl in Hoo. lia.
  - intros p ->%elem_of_singleton. by rewrite ex_page_at.
  - intros p q ->%elem_of_singleton _. by rewrite ex_page_at.
  - intros p ->%elem_of_singleton. by rewrite ex_page_at.
  - intros p q a ->%elem_of_singleton ->%elem_of_singleton. done.
  - assert (leaves {[ex_p]} (pages (ex_pm st)) = {[ex_p]}) as ->; [|lia].
    apply set_eq. intros q. rewrite elem_leaves, elem_of_singleton. split; [tauto|]. intros ->.
    split; [done|]. by rewrite ex_page_at.
Qed.

Definition ex_pm_tree (st : BUD_STATE) : tree :=
  if bool_decide (st = BUD_FREE) then E else T BLACK E ex_p E.

Lemma ex_pm_ok st : st ≠ BUD_VIRT →
  pm_ok {[ex_p]} (if bool_decide (st = BUD_FREE) then ∅ else {[ex_p]}) (ex_pm_tree st) (ex_pm st).
Proof.
  intros Hst. split; [by apply ex_good|done|..].
  - unfold ex_pm_tree, ex_pm. cbn [alloced_rbt]. case_bool_decide as H.
    + split; [|split; [done|by exists 0%nat; constructor]].
      split; cbn [elems rep RbtTree.addr rbt_root rbt_nodes]; [done|done|constructor|set_solver|set_solver|done].
    + split; [|split; [done|by exists 1%nat; repeat constructor]].
      split; cbn [elems rep RbtTree.addr rbt_root rbt_nodes app]; [done| |apply NoDup_singleton|by intros ?%list_elem_of_singleton|done|done].
      split_and!; try done.
  - intros p. unfold ex_pm_tree. case_bool_decide; simpl; set_solver.
  - unfold ex_pm_tree, key_sorted. case_bool_decide; cbn [elems app]; [apply Sorted.SSorted_nil|].
    apply Sorted.SSorted_cons; [apply Sorted.SSorted_nil|apply Forall_nil_2].
  - intros q Hq. cbn [ex_pm slots] in Hq. split.
    + destruct Hq as [->%elem_of_singleton|Hq]; [done|]. by apply ex_slots_ne.
    + apply (list_to_map_some (λ _, RbtNode BLACK 0 0 0)). rewrite elem_of_cons. set_solver.
Qed.
End example.

Lemma pm_alloc_correct_witness :
  wp (pm_alloc 0x1800) (λ r s',
    match snd r with
    | Some p => fst r = E_OK ∧ (p ∉ (∅ : gset Z)) ∧ 0x1800 ≤ size (pg s' p) ∧
        (size (pg s' p) = PAGE_SIZE ∨ size (pg s' p) < 2 * ROUND_UP 0x1800 PAGE_SIZE) ∧
        kept ∅ (ex_pm BUD_FREE) s' ∧ ∃ L' t', pm_ok L' ({[p]} ∪ ∅) t' s' ∧
        same_memory {[ex_p]} (ex_pm BUD_FREE) L' s'
    | None => fst r = E_NOMEM ∧ s' = ex_pm BUD_FREE ∧
        ∀ p, p ∈ ({[ex_p]} : gset Z) → state (pg (ex_pm BUD_FREE) p) = BUD_FREE →
          size (pg (ex_pm BUD_FREE) p) < ROUND_UP 0x1800 PAGE_SIZE
    end) (ex_pm BUD_FREE).
Proof.
  apply (pm_alloc_correct {[ex_p]} ∅ E (ex_pm BUD_FREE) 0x1800).
  - by apply (ex_pm_ok BUD_FREE).
  - done.
  - done.
Defined.

Lemma pm_free_correct_witness :
  wp (pm_free ex_p) (λ err s', err = E_OK ∧ kept ({[ex_p]} ∖ {[ex_p]}) (ex_pm BUD_ALLOCED) s' ∧
    ∃ L' t', pm_ok L' ({[ex_p]} ∖ {[ex_p]}) t' s' ∧ same_memory {[ex_p]} (ex_pm BUD_ALLOCED) L' s')
    (ex_pm BUD_ALLOCED).
Proof.
  apply (pm_free_correct {[ex_p]} {[ex_p]} (T BLACK E ex_p E) (ex_pm BUD_ALLOCED) ex_p).
  - by apply (ex_pm_ok BUD_ALLOCED).
  - by apply elem_of_singleton.
Defined.

Lemma pm_insert_correct_witness :
  wp (pm_insert 0x200000 0x3000) (λ err s', err = E_OK ∧ kept ∅ (ex_pm BUD_FREE) s' ∧
    ∃ L', pm_ok L' ∅ E s' ∧ ∀ x, covers L' (pages s') x ↔
      covers {[ex_p]} (pages (ex_pm BUD_FREE)) x ∨ 0x200000 ≤ x < 0x200000 + 0x3000) (ex_pm BUD_FREE).
Proof.
  apply (pm_insert_correct {[ex_p]} ∅ E (ex_pm BUD_FREE) 0x200000 0x3000);
    [by apply (ex_pm_ok BUD_FREE)|done|done|done|done|done| |done].
  intros x Hx (p & ->%elem_of_singleton & _ & Hi). rewrite ex_page_at in Hi. unfold inside in Hi. simpl in Hi. lia.
Defined.

Lemma pm_init_correct_witness :
  let s := ex_pm BUD_FREE in
  wp (pm_init (0x2044 - 168) (168 + 68 * 60)) (λ err s',
    if 168 + 68 * 60 <? 168 then err = E_NOMEM ∧ s' = s else
    err = E_OK ∧ pm_ok ∅ ∅ E s' ∧ (∀ x, ¬ covers ∅ (pages s') x) ∧ slots s' = ex_slots) s.
Proof.
  apply (pm_init_correct (ex_pm BUD_FREE) (0x2044 - 168) (168 + 68 * 60)); [done|done|done|].
  intros p Hp. change (p ∈ ex_slots) in Hp. destruct (ex_slots_ne p Hp). split; [done|]. split.
  - cbn [ex_pm pages]. rewrite lookup_insert_ne by done. by apply (list_to_map_some (λ _, ex_page BUD_FREE)).
  - apply (list_to_map_some (λ _, RbtNode BLACK 0 0 0)). by right.
Defined.
