(* ===== verification/Page.v ===== *)
(** * Page references (page_alloc, page_get, page_put of kernel/memory/memory.c)

    The kernel counts in [cnt] of a [struct page_t] how many address spaces map it;
    the last [page_put] gives the page back to the buddy system (Pm). *)
From S2P Require Import Prelude RbtModel RbtTree RbtInsert RbtDelete RbtProps RbtClient DList Slot Machine.
From S2P Require Import Pm PmSpec PmOps PmProps.

Section code.
Abbreviation M := (M page_alct_t).

(** [atomic_add]; the counter is an [int]. *)
Definition atomic_add (p i : Z) : M unit := upd p (λ x, pg_cnt (s32 (cnt x + i)) x).
(** [atomic_sub_and_test]: whether the result is zero. *)
Definition atomic_sub_and_test (p i : Z) : M bool :=
  upd p (λ x, pg_cnt (s32 (cnt x - i)) x) ;;;
  x <- page_at p ;; ret (cnt x =? 0).

Definition page_get_ptr (pa : Z) : M (Z * option Z) :=
  assert_ (pa mod PAGE_SIZE =? 0) ;;; pm_get_page pa.

Definition page_alloc : M (Z * option Z) :=
  r <- pm_alloc PAGE_SIZE ;;
  match r with
  | (err, None) => ret (err, None)
  | (err, Some p) =>
      x <- page_at p ;;
      assert_ (cnt x =? 0) ;;;
      atomic_add p 1 ;;;
      ret (err, Some p)
  end.

Definition page_free (p : Z) : M Z := pm_free p.

Definition page_get (p : Z) : M Z := atomic_add p 1 ;;; ret E_OK.

Definition page_put (p : Z) : M Z :=
  b <- atomic_sub_and_test p 1 ;;
  if b : bool then page_free p else ret E_OK.
End code.

(** ** The allocator does not run out of structures

    Every block stands for a page of its own, and there are at most twice as many
    structures in use as undivided blocks; so that a region of [2 m + 2 NR] slots is
    enough for [m] pages. *)
(** The memory handed to the allocator: [r_pages] pages from [r_lo]. *)
Record region := Region { r_lo : Z; r_pages : nat }.

Definition roomy (m : region) (L : gset Z) (s : page_alct_t) : Prop :=
  (2 * r_pages m + 2 * NR_BUDDY_ORDER ≤ card L + length (slots s))%nat ∧
  r_lo m mod PAGE_SIZE = 0 ∧ ∀ a, covers L (pages s) a → r_lo m ≤ a < r_lo m + Z.of_nat (r_pages m) * PAGE_SIZE.

Lemma leaves_bound L A ps sl hd m lo : bud L A ps sl hd → lo mod PAGE_SIZE = 0 →
  (∀ a, covers L ps a → lo ≤ a < lo + Z.of_nat m * PAGE_SIZE) → (card (leaves L ps) ≤ m)%nat.
Proof.
  intros HB Hlo Hc. set (f p := (addr (page_of ps p) - lo) / PAGE_SIZE).
  assert (∀ p, p ∈ elements (leaves L ps) → p ∈ L ∧ leaf (page_of ps p) ∧
    inside (page_of ps p) (addr (page_of ps p)) ∧ 0 ≤ f p < Z.of_nat m ∧
    addr (page_of ps p) = lo + f p * PAGE_SIZE) as Hin.
  { intros p Hp. apply elem_of_elements, elem_leaves in Hp as [HpL Hl].
    destruct (b_page _ _ _ _ _ HB p HpL) as [_ Hz]. pose proof (size_pos _ Hz).
    assert (inside (page_of ps p) (addr (page_of ps p))) as Hi by (unfold inside; lia).
    pose proof (Hc (addr (page_of ps p)) (ex_intro _ p (conj HpL (conj Hl Hi)))) as Hb.
    destruct Hz as (_ & _ & _ & _ & Hm). unfold f, PAGE_SIZE in *.
    split_and!; try done; [apply Z.div_pos; lia|apply Z.div_lt_upper_bound; lia|].
    assert ((addr (page_of ps p) - lo) mod 4096 = 0) as Hd.
    { rewrite Zminus_mod, Hm, Hlo. done. }
    pose proof (Z.div_mod (addr (page_of ps p) - lo) 4096 ltac:(lia)). lia. }
  assert (f <$> elements (leaves L ps) ⊆+ Z.of_nat <$> seq 0 m) as Hs.
  { apply NoDup_submseteq.
    - apply NoDup_fmap_2_strong; [|apply NoDup_elements]. intros p q Hp Hq Hf.
      destruct (Hin p Hp) as (? & ? & ? & _ & Ea), (Hin q Hq) as (? & ? & ? & _ & Eb).
      eapply (b_disj _ _ _ _ _ HB p q (addr (page_of ps p))); try done.
      rewrite Ea, Hf, <- Eb. done.
    - intros x (p & -> & Hp)%list_elem_of_fmap. destruct (Hin p Hp) as (_ & _ & _ & Hb & _).
      apply list_elem_of_fmap. exists (Z.to_nat (f p)). split; [lia|]. apply elem_of_seq. lia. }
  apply submseteq_length in Hs. rewrite !length_fmap, length_seq in Hs. done.
Qed.

Lemma roomy_slots m L A s : good L A s → roomy m L s → 2 * NR ≤ Z.of_nat (length (slots s)).
Proof.
  intros HG (Hn & Hlo & Hc). pose proof (leaves_bound _ _ _ _ _ (r_pages m) (r_lo m) HG Hlo Hc).
  pose proof (b_count _ _ _ _ _ HG). unfold NR. lia.
Qed.

Lemma structs_card L A s : good L A s → (card (L ∪ list_to_set (slots s)) = card L + length (slots s))%nat.
Proof.
  intros HG. destruct (b_slots _ _ _ _ _ HG) as [Hnd Hin].
  rewrite size_union; [by rewrite size_list_to_set|].
  intros q Hq Hs%elem_of_list_to_set. by destruct (Hin q Hs).
Qed.

Lemma roomy_moves m L A s L' A' s' : good L A s → good L' A' s' → same_memory L s L' s' →
  same_structs L s L' s' → roomy m L s → roomy m L' s'.
Proof.
  intros HG HG' Hm Hs (Hn & Hlo & Hc). split.
  - rewrite <- (structs_card L' A' s' HG'). rewrite <- (structs_card L A s HG) in Hn.
    replace (L' ∪ list_to_set (slots s')) with (L ∪ list_to_set (slots s)); [done|].
    apply set_eq. intros q. specialize (Hs q). rewrite !elem_of_union, !elem_of_list_to_set. tauto.
  - split; [done|]. intros a Ha. by apply Hc, Hm.
Qed.

(** ** Only the reference counts write [cnt] *)
Definition zeros (s s' : page_alct_t) : Prop := ∀ p, cnt (pg s p) = 0 → cnt (pg s' p) = 0.
(** The buddy system: a counter that is zero stays zero. *)
Definition uncounted {B} (m : M page_alct_t B) : Prop := ∀ s, wlp m (λ _ s', zeros s s') s.

Lemma un_bind {B C} (m : M page_alct_t B) (k : B → M page_alct_t C) :
  uncounted m → (∀ b, uncounted (k b)) → uncounted (bind m k).
Proof.
  intros Hm Hk s. apply wlp_bind. eapply wlp_mono; [apply Hm|]. intros b s1 H1.
  eapply wlp_mono; [apply Hk|]. intros c s2 H2 p Hp. by apply H2, H1.
Qed.
Lemma un_ro {B} (m : M page_alct_t B) : read_only m → uncounted m.
Proof. intros Hm s. eapply wlp_mono; [apply Hm|]. by intros b s' -> p. Qed.
Lemma un_pages {B} (m : M page_alct_t B) : (∀ s, wlp m (λ _ s', pages s' = pages s) s) → uncounted m.
Proof. intros Hm s. eapply wlp_mono; [apply Hm|]. intros b s' Hp p. by rewrite Hp. Qed.
Lemma un_modify f : (∀ s, pages (f s) = pages s) → uncounted (modify f).
Proof. intros Hf. apply un_pages. intros s. apply Hf. Qed.
Lemma un_upd p f : (∀ x, cnt (f x) = cnt x ∨ cnt (f x) = 0) → uncounted (upd p f).
Proof.
  intros Hf s. unfold wlp, upd, page_at, bind, get, deref. destruct (pages s !! p) as [x|] eqn:Hx; [|done].
  intros q Hq. simpl. destruct (decide (q = p)) as [->|Hn]; [|by rewrite page_there].
  rewrite page_here. rewrite (page_some _ _ _ Hx) in Hq. destruct (Hf x) as [-> | ->]; done.
Qed.
Lemma un_loop {V B} fuel (body : V → M page_alct_t (V + B)) v :
  (∀ v, uncounted (body v)) → uncounted (loop fuel body v).
Proof.
  intros Hb. revert v. induction fuel as [|n IH]; intros v; [done|]. simpl.
  apply un_bind; [apply Hb|]. intros [v'|a]; [apply IH|]. apply un_ro, ro_ret.
Qed.
Lemma un_tree {B} (m : M rbt B) : uncounted (on_tree m).
Proof. apply un_pages. intros s. apply wlp_zoom. by apply wlp_always. Qed.

Create HintDb uncounted.
Ltac un_step := first
  [ solve [auto with uncounted]
  | apply un_upd; intros ?; cbn; tauto
  | apply un_bind; [|intros ?]
  | apply un_modify; intros ?; reflexivity
  | apply un_tree
  | apply un_loop; intros ?
  | solve [apply un_ro; first [apply ro_ret | apply ro_get | apply ro_assert | apply ro_deref | apply ro_hang
      | apply ro_panic | apply ro_fault | apply ro_gets]]
  | match goal with |- uncounted (match ?x with _ => _ end) => destruct x
                  | |- uncounted (if ?x then _ else _) => destruct x end ].
Ltac un_solve := repeat un_step.

Lemma un_new_page : uncounted new_page.
Proof.
  intros s. unfold wlp, new_page, bind, get. destruct (slots s) as [|p l]; [by intros q|].
  pose proof (un_upd p (pg_cnt 0) (λ x, or_intror eq_refl) (set_slots l s)) as Hz. unfold wlp in Hz.
  cbn. by destruct (upd p (pg_cnt 0) (set_slots l s)).
Qed.
Lemma un_free_page p : uncounted (free_page p).
Proof. unfold free_page. un_solve. Qed.
Lemma un_page_at p : uncounted (page_at p).
Proof. unfold page_at. un_solve. Qed.
Lemma un_head_of o : uncounted (head_of o).
Proof. unfold head_of. un_solve. Qed.
Lemma un_set_head_of o l : uncounted (set_head_of o l).
Proof. unfold set_head_of. un_solve. Qed.
Lemma un_spin_lock : uncounted spin_lock.
Proof. intros s. unfold spin_lock, wlp, bind, get. destruct (pm_lock s); [done|]. by intros p. Qed.
#[export] Hint Resolve un_new_page un_free_page un_page_at un_head_of un_set_head_of un_spin_lock : uncounted.

Lemma un_buddy_get o : uncounted (buddy_get o).
Proof. unfold buddy_get. un_solve. Qed.
Lemma un_buddy_get_ptc p : uncounted (buddy_get_ptc p).
Proof. unfold buddy_get_ptc. un_solve. Qed.
Lemma un_merge_page p q : uncounted (merge_page p q).
Proof. unfold merge_page. un_solve. Qed.
Lemma un_divide_page f l r : uncounted (divide_page f l r).
Proof. unfold divide_page. un_solve. Qed.
#[export] Hint Resolve un_buddy_get un_buddy_get_ptc un_merge_page un_divide_page : uncounted.

Lemma un_buddy_put p : uncounted (buddy_put p).
Proof. unfold buddy_put, put_body. un_solve. Qed.
#[export] Hint Resolve un_buddy_put : uncounted.

Lemma un_buddy_alloc fuel o : uncounted (buddy_alloc fuel o).
Proof. revert o. induction fuel as [|n IH]; intros o; cbn [buddy_alloc]; un_solve. Qed.
#[export] Hint Resolve un_buddy_alloc : uncounted.

Lemma un_rbt_insert p : uncounted (rbt_insert p).
Proof. unfold rbt_insert. un_solve. Qed.
#[export] Hint Resolve un_rbt_insert : uncounted.

Lemma un_pm_alloc sz : uncounted (pm_alloc sz).
Proof. unfold pm_alloc, spin_unlock. un_solve. Qed.
Lemma un_pm_free p : uncounted (pm_free p).
Proof. unfold pm_free, spin_unlock. un_solve. Qed.
#[export] Hint Resolve un_pm_alloc un_pm_free : uncounted.

(** ** The counts and the blocks *)

(** Nothing in the buddy system depends on the counts. *)
Lemma bud_cnt L A ps sl hd ps' : bud L A ps sl hd →
  (∀ q, same_shape (page_of ps' q) (page_of ps q) ∧ state (page_of ps' q) = state (page_of ps q)) →
  (∀ q, is_Some (ps !! q) → is_Some (ps' !! q)) → bud L A ps' sl hd.
Proof.
  intros [H1 H2 H3 H4 H5 H6 H7 H8 H9] He Hs.
  assert (∀ q, same_shape (page_of ps' q) (page_of ps q)) as Hsh by (intros q; apply He).
  assert (∀ q, state (page_of ps' q) = state (page_of ps q)) as Hst by (intros q; apply He).
  assert (∀ q, order (page_of ps' q) = order (page_of ps q)) as Hor by (intros q; apply (Hsh q)).
  assert (∀ q, pos (page_of ps' q) = pos (page_of ps q)) as Hpo by (intros q; apply (Hsh q)).
  assert (∀ q, bud_b (page_of ps' q) = bud_b (page_of ps q)) as Hbb by (intros q; apply (Hsh q)).
  assert (∀ q, bud_f (page_of ps' q) = bud_f (page_of ps q)) as Hbf by (intros q; apply (Hsh q)).
  split.
  - intros p Hp. split; [by apply Hs, H1|]. eapply shape_sized; [apply Hsh|by apply H1].
  - split; [apply H2|]. intros p Hp. destruct (proj2 H2 p Hp). auto.
  - intros p. rewrite Hst. apply H3.
  - split; [apply H4|]. intros o l Hl. destruct (proj2 H4 o l Hl) as [Hnd Hin]. split; [done|].
    intros p. rewrite Hst, Hor. apply Hin.
  - intros p Hp. rewrite Hpo, Hbf, Hbb. intros Hps. destruct (H5 p Hp Hps) as (? & ? & ? & Hh).
    split_and!; try done. eapply shape_halves; [apply Hsh..|apply Hst|exact Hh].
  - intros p q. rewrite !Hpo, !Hbf, Hbb. apply H6.
  - intros p. rewrite Hpo, Hbb, !Hst. apply H7.
  - intros p q a. unfold leaf. rewrite !Hst, !(shape_inside _ _ a (Hsh _)). apply H8.
  - rewrite (leaves_ext L ps ps'); [done|]. intros q _. unfold leaf. by rewrite Hst.
Qed.

Definition count_page (p c : Z) (s : page_alct_t) : page_alct_t :=
  set_pages (<[p := pg_cnt c (pg s p)]> (pages s)) s.

Lemma count_shape p c s q : same_shape (pg (count_page p c s) q) (pg s q) ∧
  state (pg (count_page p c s) q) = state (pg s q).
Proof.
  unfold count_page. simpl. destruct (decide (q = p)) as [->|Hq].
  - by rewrite page_here.
  - by rewrite page_there.
Qed.
Lemma count_covers L p c s a : covers L (pages (count_page p c s)) a ↔ covers L (pages s) a.
Proof.
  unfold covers. f_equiv. intros q. destruct (count_shape p c s q) as [Hsh Hst].
  unfold leaf. by rewrite Hst, (shape_inside _ _ a Hsh).
Qed.

Lemma pm_ok_count L A t s p c : pm_ok L A t s → is_Some (pages s !! p) → pm_ok L A t (count_page p c s).
Proof.
  intros [HG Hl Ht Hel Hs Hn] Hp. split; try done.
  - apply (bud_cnt _ _ _ _ _ _ HG); [apply count_shape|]. intros q Hq. simpl.
    destruct (decide (q = p)) as [->|?]; [by rewrite lookup_insert_eq|]. by rewrite lookup_insert_ne.
  - eapply key_sorted_ext; [|exact Hs]. intros q _. symmetry. apply (count_shape p c s q).
Qed.
Lemma roomy_count m L s p c : roomy m L s → roomy m L (count_page p c s).
Proof.
  intros (Hn & Hlo & Hc). split; [done|]. split; [done|]. intros a. rewrite count_covers. apply Hc.
Qed.

(** [refs] gives the blocks in use their counts, on an allocator of at most [m] pages;
    every other structure's count is zero. *)
Definition refs_ok (m : region) (refs : gmap Z Z) (s : page_alct_t) : Prop :=
  (∃ L t, pm_ok L (dom refs) t s ∧ roomy m L s) ∧ (∀ p, cnt (pg s p) = default 0 (refs !! p)).

Lemma refs_count m refs s p c : refs_ok m refs s → is_Some (refs !! p) →
  refs_ok m (<[p := c]> refs) (count_page p c s) ∧ is_Some (pages s !! p).
Proof.
  intros ((L & t & Hok & Hr) & Hc) Hp.
  assert (is_Some (pages s !! p)) as Hps.
  { eapply good_page; [apply Hok|]. eapply (bud_leaf p); [apply Hok|]. by apply elem_of_dom. }
  split; [|done]. split.
  - exists L, t. split; [|by apply roomy_count].
    replace (dom (<[p := c]> refs)) with (dom refs); [by apply pm_ok_count|].
    rewrite dom_insert_L. apply elem_of_dom in Hp. set_solver.
  - intros q. simpl. destruct (decide (q = p)) as [->|Hq].
    + by rewrite page_here, lookup_insert_eq.
    + by rewrite page_there, lookup_insert_ne.
Qed.

Lemma refs_kept (refs : gmap Z Z) s s' (A : gset Z) : (∀ p, cnt (pg s p) = default 0 (refs !! p)) → zeros s s' →
  kept A s s' → ∀ q, q ∈ A ∨ default 0 (refs !! q) = 0 → cnt (pg s' q) = default 0 (refs !! q).
Proof. intros Hc Hz Hk q [Hq|Hq]; [by rewrite Hk|]. rewrite Hq. apply Hz. by rewrite Hc. Qed.

Lemma wp_count {B} m refs s p c (f : page_t → page_t) (k : unit → M page_alct_t B) Q : refs_ok m refs s →
  is_Some (refs !! p) → f (pg s p) = pg_cnt c (pg s p) →
  wp (k tt) Q (count_page p c s) → wp (u <- upd p f ;; k u) Q s.
Proof.
  intros HR Hp Hf Hk. destruct (refs_count m refs s p c HR Hp) as [_ Hs].
  eapply wp_step; [by apply run_upd|]. rewrite Hf. exact Hk.
Qed.

(** [pm_alloc] and [pm_free] of a block without references. *)
Lemma pm_alloc_refs m refs s sz : refs_ok m refs s → 0 < sz ≤ W32 - PAGE_SIZE →
  wp (pm_alloc sz) (λ r s',
    match snd r with
    | Some p => fst r = E_OK ∧ refs !! p = None ∧ refs_ok m (<[p := 0]> refs) s' ∧ sz ≤ size (pg s' p) ∧
        (size (pg s' p) = PAGE_SIZE ∨ size (pg s' p) < 2 * ROUND_UP sz PAGE_SIZE) ∧ kept (dom refs) s s'
    | None => fst r = E_NOMEM ∧ s' = s
    end) s.
Proof.
  intros ((L & t & Hok & Hr) & Hc) Hsz. eapply wp_mono.
  { apply wp_and_wlp; [|apply un_pm_alloc].
    apply (pm_alloc_spec L (dom refs) t s sz Hok); [done|]. eapply roomy_slots; [apply Hok|exact Hr]. }
  intros [e [p|]] s1 [H Hz]; cbn [fst snd] in *; [|by destruct H as (-> & -> & _)].
  destruct H as (-> & Hp & Hle & Hs & Hk & L' & t' & Hok' & Hm & Hst). apply not_elem_of_dom in Hp.
  assert (refs_ok m (<[p := 0]> refs) s1); [|done]. split.
  - exists L', t'. rewrite dom_insert_L. split; [done|]. eapply roomy_moves; [apply Hok|apply Hok'|done..].
  - intros q. rewrite (refs_kept refs s s1 (dom refs) Hc Hz Hk q).
    + destruct (decide (q = p)) as [->|Hq]; [by rewrite lookup_insert_eq, Hp|by rewrite lookup_insert_ne].
    + destruct (refs !! q) eqn:Hq; [left|by right]. apply elem_of_dom. by rewrite Hq.
Qed.

Lemma pm_free_refs m refs s p : refs_ok m refs s → refs !! p = Some 0 →
  wp (pm_free p) (λ e s', e = E_OK ∧ refs_ok m (delete p refs) s' ∧ kept (dom (delete p refs)) s s') s.
Proof.
  intros ((L & t & Hok & Hr) & Hc) Hp. eapply wp_mono.
  { apply wp_and_wlp; [|apply un_pm_free]. apply (pm_free_spec L _ t _ p Hok). apply elem_of_dom. by eexists. }
  intros e s2 [(-> & Hk & L' & t' & Hok' & Hm & Hst) Hz]. rewrite <- dom_delete_L in Hok', Hk.
  split_and!; [done| |done]. split.
  - exists L', t'. split; [done|]. eapply roomy_moves; [apply Hok|apply Hok'|done..].
  - intros q. rewrite (refs_kept refs _ s2 _ Hc Hz Hk q).
    + destruct (decide (q = p)) as [->|Hq]; [by rewrite lookup_delete_eq, Hp|by rewrite lookup_delete_ne].
    + destruct (decide (q = p)) as [->|Hq]; [right; by rewrite Hp|].
      destruct (refs !! q) eqn:Hq'; [left|by right]. apply elem_of_dom. by rewrite lookup_delete_ne, Hq'.
Qed.

Lemma page_alloc_spec m refs s : refs_ok m refs s →
  wp page_alloc (λ r s',
    match snd r with
    | Some p => fst r = E_OK ∧ refs !! p = None ∧ refs_ok m (<[p := 1]> refs) s' ∧
        size (pg s' p) = PAGE_SIZE ∧ kept (dom refs) s s'
    | None => fst r = E_NOMEM ∧ s' = s
    end) s.
Proof.
  intros HR. unfold page_alloc. apply wp_bind. eapply wp_mono; [by apply (pm_alloc_refs m refs)|].
  intros [e [p|]] s1; cbn [fst snd]; [|intros (-> & ->); by apply wp_ret].
  intros (-> & Hp & HR1 & _ & Hsz & Hk). pose proof HR1 as ((L' & t' & Hok' & _) & _). rewrite dom_insert_L in Hok'.
  assert (cnt (pg s1 p) = 0) as Hc0.
  { destruct HR1 as [_ ->]. by rewrite lookup_insert_eq. }
  destruct (refs_count m _ s1 p 1 HR1) as [HR2 Hps]; [rewrite lookup_insert_eq; by eexists|].
  rewrite insert_insert_eq in HR2.
  eapply wp_step; [by apply run_page_at|]. rewrite Hc0. eapply wp_step; [done|].
  unfold atomic_add. eapply wp_count; [exact HR1|rewrite lookup_insert_eq; by eexists|by rewrite Hc0|].
  apply wp_ret. cbn [fst snd]. split_and!; [done|done|exact HR2| |].
  - simpl. rewrite page_here. destruct Hsz as [Hsz|Hsz]; [done|].
    change (ROUND_UP PAGE_SIZE PAGE_SIZE) with PAGE_SIZE in Hsz. simpl.
    assert (p ∈ L') as HpL by (eapply (bud_leaf p); [apply Hok'|set_solver]).
    destruct (b_page _ _ _ _ _ (po_bud _ _ _ _ Hok') p HpL) as [_ (Ho & Hz1 & _)]. rewrite Hz1 in *.
    destruct (decide (order (pg s1 p) = 0)) as [->|Hn]; [done|].
    pose proof (Z.pow_le_mono_r 2 1 (order (pg s1 p)) ltac:(lia) ltac:(lia)). unfold PAGE_SIZE in *. lia.
  - intros q Hq. simpl. rewrite page_there; [by apply Hk|]. intros ->. apply elem_of_dom in Hq as [? Hq]. congruence.
Qed.

Lemma page_get_spec m refs s p n : refs_ok m refs s → refs !! p = Some n → 0 < n < 2 ^ 31 - 1 →
  wp (page_get p) (λ e s', e = E_OK ∧ refs_ok m (<[p := n + 1]> refs) s' ∧ s' = count_page p (n + 1) s) s.
Proof.
  intros HR Hp Hn. pose proof (refs_count m refs s p (n + 1) HR (ex_intro _ n Hp)) as [HR' Hs].
  unfold page_get, atomic_add.
  eapply wp_count; [exact HR|by eexists| |apply wp_ret; split_and!; [done|exact HR'|done]].
  destruct HR as [_ Hc]. rewrite Hc, Hp. simpl. by rewrite s32_small by lia.
Qed.

Lemma page_put_spec m refs s p n : refs_ok m refs s → refs !! p = Some n → 0 < n < 2 ^ 31 →
  wp (page_put p) (λ e s', e = E_OK ∧
    refs_ok m (if decide (n = 1) then delete p refs else <[p := n - 1]> refs) s' ∧
    ∀ q, q ∈ dom refs → q ≠ p ∨ n ≠ 1 → same_shape (pg s' q) (pg s q)) s.
Proof.
  intros HR Hp Hn. pose proof (refs_count m refs s p (n - 1) HR (ex_intro _ n Hp)) as [HR' Hs].
  assert (cnt (pg s p) = n) as Hcn by (destruct HR as [_ ->]; by rewrite Hp).
  unfold page_put, atomic_sub_and_test. apply wp_bind.
  eapply wp_count; [exact HR|by eexists|by rewrite Hcn, s32_small by lia|].
  eapply wp_step; [apply run_page_at; simpl; rewrite lookup_insert_eq; by eexists|].
  apply wp_ret. unfold count_page at 1. simpl. rewrite page_here. cbn [pg_cnt cnt].
  assert (∀ q, q ≠ p → pg (count_page p (n - 1) s) q = pg s q) as Hne by (intros q Hq; by apply page_there).
  destruct (Z.eqb_spec (n - 1) 0) as [Hn1|Hn1].
  2:{ rewrite decide_False by lia. apply wp_ret. split_and!; [done|done|]. intros q _ _. apply count_shape. }
  rewrite decide_True by lia. pose proof HR' as ((L & t & Hok & Hr) & Hc).
  unfold page_free. eapply wp_mono; [apply (pm_free_refs m _ _ p HR'); rewrite lookup_insert_eq; by rewrite Hn1|].
  intros e s2 (-> & HR2 & Hk). rewrite delete_insert_eq in HR2, Hk. split_and!; [done|done|].
  intros q Hq [Hqp|?]; [|lia]. rewrite Hk, Hne; [done|done|]. rewrite dom_delete_L. set_solver.
Qed.

Lemma page_get_ptr_spec m refs s pa : refs_ok m refs s → pa mod PAGE_SIZE = 0 →
  wp (page_get_ptr pa) (λ r s', s' = s ∧
    match snd r with
    | Some p => fst r = E_OK ∧ is_Some (refs !! p) ∧ addr (pg s p) = pa
    | None => fst r = E_NOTFOUND ∧ ∀ p, is_Some (refs !! p) → addr (pg s p) ≠ pa
    end) s.
Proof.
  intros ((L & t & [HG Hl [HR _] Hel Hs Hn] & _) & _) Hpa.
  unfold page_get_ptr, pm_get_page, rbt_find. rewrite Hpa.
  eapply wp_step; [done|]. eapply wp_step; [done|]. eapply wp_step.
  { unfold spin_lock, bind, get. by rewrite Hl. }
  apply wp_bind. eapply wp_step; [done|]. eapply wp_step; [done|]. apply wp_on_tree.
  eapply wp_mono.
  { eapply client_find; [exact HR|]. eapply key_sorted_ext; [|exact Hs]. intros x _. symmetry. apply (addr_of_pg (set_lock true s)). }
  intros o r [-> Ho]. eapply wp_step; [done|]. apply wp_ret.
  split; [by destruct s; simpl in *; subst|].
  assert (∀ p, is_Some (refs !! p) ↔ p ∈ elems t) as Hdom by (intros p; by rewrite Hel, elem_of_dom).
  destruct o as [p|]; simpl.
  - destruct Ho as [Hp Ha]. split_and!; [done|by apply Hdom|]. by rewrite <- addr_of_pg.
  - split; [done|]. intros p Hp%Hdom. rewrite <- addr_of_pg. by apply Ho.
Qed.

(** ** The contract: references are counted *)
Inductive page_op := OAlloc | OGet (p : Z) | OPut (p : Z).

Definition page_do (o : page_op) : M page_alct_t (Z * option Z) :=
  match o with
  | OAlloc => page_alloc
  | OGet p => e <- page_get p ;; ret (e, None)
  | OPut p => e <- page_put p ;; ret (e, None)
  end.

(** A client gives back what it holds, and does not overflow a count. *)
Definition legal (refs : gmap Z Z) (o : page_op) : Prop :=
  match o with
  | OAlloc => True
  | OGet p => ∃ n, refs !! p = Some n ∧ 0 < n < 2 ^ 31 - 1
  | OPut p => ∃ n, refs !! p = Some n ∧ 0 < n < 2 ^ 31
  end.

Inductive page_step (refs : gmap Z Z) : page_op → Z * option Z → gmap Z Z → Prop :=
  | st_alloc p : refs !! p = None → page_step refs OAlloc (E_OK, Some p) (<[p := 1]> refs)
  | st_nomem : page_step refs OAlloc (E_NOMEM, None) refs
  | st_get p n : refs !! p = Some n → page_step refs (OGet p) (E_OK, None) (<[p := n + 1]> refs)
  | st_put p n : refs !! p = Some n → 1 < n → page_step refs (OPut p) (E_OK, None) (<[p := n - 1]> refs)
  | st_last p : refs !! p = Some 1 → page_step refs (OPut p) (E_OK, None) (delete p refs).

(** Blocks in use do not share a byte. *)
Definition apart (refs : gmap Z Z) (s : page_alct_t) : Prop := ∀ p q a,
  is_Some (refs !! p) → is_Some (refs !! q) → inside (pg s p) a → inside (pg s q) a → p = q.

Lemma refs_apart m refs s : refs_ok m refs s → apart refs s.
Proof.
  intros ((L & t & Hok & _) & _) p q a Hp Hq. apply elem_of_dom in Hp, Hq.
  destruct (bud_leaf p (po_bud _ _ _ _ Hok) Hp) as (? & _ & ?), (bud_leaf q (po_bud _ _ _ _ Hok) Hq) as (? & _ & ?).
  by eapply b_disj; [apply Hok|..].
Qed.

(** A client program: operations whose choice may depend on the results so far. *)
Inductive client := Done | Op (o : page_op) (k : Z * option Z → client).

Fixpoint client_run (c : client) : M page_alct_t unit :=
  match c with
  | Done => ret tt
  | Op o k => r <- page_do o ;; client_run (k r)
  end.

(** Legal whatever the allocator answers, ending with the references in [K]. *)
Fixpoint safe_client (c : client) (K : gmap Z Z → Prop) (refs : gmap Z Z) : Prop :=
  match c with
  | Done => K refs
  | Op o k => legal refs o ∧ ∀ r refs', page_step refs o r refs' → safe_client (k r) K refs'
  end.

Lemma page_do_step m refs s o : refs_ok m refs s → legal refs o →
  wp (page_do o) (λ r s', ∃ refs', page_step refs o r refs' ∧ refs_ok m refs' s' ∧
    (∀ q, is_Some (refs !! q) → is_Some (refs' !! q) →
       addr (pg s' q) = addr (pg s q) ∧ size (pg s' q) = size (pg s q)) ∧
    (∀ p, snd r = Some p → size (pg s' p) = PAGE_SIZE)) s.
Proof.
  intros HR. destruct o as [|p|p]; simpl.
  - intros _. eapply wp_mono; [by apply (page_alloc_spec m refs)|].
    intros [e [p|]] s'; simpl.
    + intros (-> & Hp & HR' & Hz & Hk). exists (<[p := 1]> refs). split_and!; [by constructor|done| |by intros ? [= <-]].
      intros q Hq _. rewrite Hk by by apply elem_of_dom. done.
    + intros [-> ->]. exists refs. split_and!; [constructor|done|done|done].
  - intros (n & Hp & Hn). apply wp_bind. eapply wp_mono; [by apply (page_get_spec m refs s p n)|].
    intros e s' (-> & HR' & ->). apply wp_ret. exists (<[p := n + 1]> refs).
    split_and!; [by constructor|done| |done]. intros q _ _.
    destruct (count_shape p (n + 1) s q) as [(? & ? & _) _]. done.
  - intros (n & Hp & Hn). apply wp_bind. eapply wp_mono; [by apply (page_put_spec m refs s p n)|].
    intros e s' (-> & HR' & Hk). apply wp_ret. eexists. split_and!; [|exact HR'| |done].
    + case_decide; [subst; by constructor|]. constructor; [done|lia].
    + intros q Hq Hq'. destruct (Hk q) as (? & ? & _); [by apply elem_of_dom| |done].
      destruct (decide (q = p)) as [->|Hqp]; [right|by left]. intros ->. destruct Hq' as [x Hx].
      by rewrite decide_True, lookup_delete_eq in Hx.
Qed.


(** Eight free pages: a page is taken, shared, and given back twice. *)
Definition ex_region : region := Region 0x100000 8.
Lemma ex_refs : refs_ok ex_region ∅ (ex_pm BUD_FREE).
Proof.
  split.
  - exists {[ex_p]}, E. rewrite dom_empty_L. split; [by apply (ex_pm_ok BUD_FREE)|].
    split; [rewrite size_singleton; apply Nat.leb_le; by vm_compute|]. split; [done|]. intros a (p & ->%elem_of_singleton & _ & Hi).
    rewrite ex_page_at in Hi. unfold inside, PAGE_SIZE in *. simpl in *. lia.
  - intros p. rewrite lookup_empty. change (default 0 None) with 0. unfold page_of.
    destruct (pages (ex_pm BUD_FREE) !! p) as [x|] eqn:Hx; [|done].
    unfold ex_pm in Hx. cbn [pages] in Hx. apply lookup_insert_Some in Hx as [[_ <-]|[_ Hx]]; [done|].
    by apply elem_of_list_to_map_2, list_elem_of_fmap in Hx as (q & [= _ ->] & _).
Qed.

Definition ex_client : client :=
  Op OAlloc (λ r, match snd r with
    | None => Done
    | Some p => Op (OGet p) (λ _, Op (OPut p) (λ _, Op (OPut p) (λ _, Done)))
    end).

Lemma put_step_inv (refs refs' : gmap Z Z) p n r : page_step refs (OPut p) r refs' → refs !! p = Some n →
  refs' = if decide (n = 1) then delete p refs else <[p := n - 1]> refs.
Proof. intros Hs Hp. inversion Hs; subst; simplify_eq; case_decide; try lia; done. Qed.
Lemma get_step_inv (refs refs' : gmap Z Z) p n r : page_step refs (OGet p) r refs' → refs !! p = Some n →
  refs' = <[p := n + 1]> refs.
Proof. intros Hs Hp. inversion Hs; subst; by simplify_eq. Qed.

