(* ===== verification/Physmem.v ===== *)
(** * The buddy allocator is the page source of the kernel

    What Ptb and Kmem ask of physical memory ([PageAlloc], [PhysMem]) is what [page_alloc]
    (Page), [pm_alloc] and [pm_free] (Pm) do: the state of the allocator with its
    invariant, the blocks in use with their reference counts, and the frames of the boot
    tables, which are outside the memory it manages. *)
From S2P Require Import Prelude RbtModel RbtTree RbtInsert RbtDelete RbtProps RbtClient DList Slot Machine.
From S2P Require Import Pm PmSpec PmOps PmProps Page.
From S2P Require Ptb Kmem.

(** The frames of a block. *)
Definition frames_in (x : page_t) : gset Z := list_to_set ((λ i, addr x + 4096 * i) <$> seqZ 0 (size x / 4096)).
Definition blocks_used (refs : gmap Z Z) (s : page_alct_t) : gset Z :=
  ⋃ ((λ p, frames_in (pg s p)) <$> elements (dom refs)).

(** A frame that the allocator never hands out. *)
Definition reserved (m : region) (x : Z) : Prop := x < r_lo m ∨ r_lo m + Z.of_nat (r_pages m) * PAGE_SIZE ≤ x.

Record buddy := Buddy {
  bd_m : region; bd_rsv : gset Z; bd_st : page_alct_t; bd_refs : gmap Z Z;
  bd_ok : refs_ok bd_m bd_refs bd_st; bd_out : ∀ x, x ∈ bd_rsv → reserved bd_m x }.
Definition bd_used (b : buddy) : gset Z := bd_rsv b ∪ blocks_used (bd_refs b) (bd_st b).
Definition bd_block (b : buddy) (p : Z) : gset Z :=
  if decide (is_Some (bd_refs b !! p)) then frames_in (pg (bd_st b) p) else ∅.

Lemma elem_of_frames x a : sized x → a ∈ frames_in x ↔ inside x a ∧ a mod 4096 = 0.
Proof.
  intros (_ & Hs & _ & _ & Hm). unfold frames_in, inside, PAGE_SIZE in *. rewrite elem_of_list_to_set, list_elem_of_fmap.
  assert (size x / 4096 = 2 ^ order x) as Hd by (rewrite Hs; apply Z.div_mul; lia). split.
  - intros (i & -> & Hi%elem_of_seqZ). split; [lia|]. rewrite (Z.mul_comm 4096), Z.mod_add by lia. done.
  - intros [Hi Ha]. exists ((a - addr x) / 4096).
    assert ((a - addr x) mod 4096 = 0) as Hz by (by rewrite Zminus_mod, Ha, Hm).
    pose proof (Z.div_mod (a - addr x) 4096 ltac:(lia)). split; [lia|]. apply elem_of_seqZ. rewrite Hd.
    split; [apply Z.div_pos; lia|]. rewrite Z.add_0_l. apply Z.div_lt_upper_bound; lia.
Qed.

Lemma refs_sized m refs s p : refs_ok m refs s → is_Some (refs !! p) → sized (pg s p).
Proof.
  intros ((L & t & Hok & _) & _) Hp. apply elem_of_dom in Hp. destruct (bud_leaf p (po_bud _ _ _ _ Hok) Hp) as (HpL & _).
  by apply (b_page _ _ _ _ _ (po_bud _ _ _ _ Hok)).
Qed.

Lemma elem_of_used m refs s a : refs_ok m refs s →
  a ∈ blocks_used refs s ↔ ∃ p, is_Some (refs !! p) ∧ inside (pg s p) a ∧ a mod 4096 = 0.
Proof.
  intros HR. unfold blocks_used. rewrite elem_of_union_list. split.
  - intros (X & (p & -> & Hp)%list_elem_of_fmap & Ha). apply elem_of_elements, elem_of_dom in Hp.
    exists p. split; [done|]. apply elem_of_frames; [by eapply refs_sized|done].
  - intros (p & Hp & Ha). exists (frames_in (pg s p)). split.
    + apply list_elem_of_fmap. exists p. split; [done|]. by apply elem_of_elements, elem_of_dom.
    + apply elem_of_frames; [by eapply refs_sized|done].
Qed.

Lemma refs_inside m refs s p a : refs_ok m refs s → is_Some (refs !! p) → inside (pg s p) a → ¬ reserved m a.
Proof.
  intros ((L & t & Hok & (_ & _ & Hc)) & _) Hp Ha. apply elem_of_dom in Hp.
  destruct (bud_leaf p (po_bud _ _ _ _ Hok) Hp) as (HpL & _ & Hl). unfold reserved.
  assert (covers L (pages s) a) as H%Hc by (by exists p). lia.
Qed.

(** A new block: its frames are fresh and become used, and no other block moves. *)
Lemma used_new m refs s p c s' : refs_ok m refs s → refs !! p = None → refs_ok m (<[p := c]> refs) s' →
  kept (dom refs) s s' →
  blocks_used (<[p := c]> refs) s' = frames_in (pg s' p) ∪ blocks_used refs s ∧ frames_in (pg s' p) ## blocks_used refs s.
Proof.
  intros HR Hp HR' Hk. assert (∀ q, is_Some (refs !! q) → q ≠ p ∧ pg s' q = pg s q) as Hq.
  { intros q Hq. split; [intros ->; rewrite Hp in Hq; by destruct Hq|]. by apply Hk, elem_of_dom. }
  assert (is_Some (<[p := c]> refs !! p)) as Hps by (rewrite lookup_insert_eq; by eexists).
  pose proof (refs_sized _ _ _ _ HR' Hps) as Hsz. split.
  - apply set_eq. intros a. rewrite elem_of_union, (elem_of_used _ _ _ _ HR'), (elem_of_used _ _ _ _ HR), elem_of_frames by done.
    split.
    + intros (q & Hsq & Ha). destruct (decide (q = p)) as [->|Hn]; [by left|]. rewrite lookup_insert_ne in Hsq by done.
      right. exists q. by rewrite <- (proj2 (Hq q Hsq)).
    + intros [Ha|(q & Hsq & Ha)]; [by exists p|]. destruct (Hq q Hsq) as [Hn He]. exists q. rewrite lookup_insert_ne, He by done.
      done.
  - intros a Ha1%elem_of_frames Ha2; [|done]. apply (elem_of_used _ _ _ _ HR) in Ha2 as (q & Hsq & Ha2 & _).
    destruct (Hq q Hsq) as [Hn He]. apply Hn.
    assert (is_Some (<[p := c]> refs !! q)) as Hqs by (rewrite lookup_insert_ne; done).
    apply (refs_apart _ _ _ HR' q p a Hqs Hps); [by rewrite He|by destruct Ha1].
Qed.

Lemma new_fresh (b : buddy) p s' c : refs_ok (bd_m b) (<[p := c]> (bd_refs b)) s' → bd_refs b !! p = None →
  kept (dom (bd_refs b)) (bd_st b) s' →
  bd_rsv b ∪ blocks_used (<[p := c]> (bd_refs b)) s' = frames_in (pg s' p) ∪ bd_used b ∧ frames_in (pg s' p) ## bd_used b.
Proof.
  intros HR' Hp Hk. destruct (used_new _ _ _ _ _ _ (bd_ok b) Hp HR' Hk) as [-> Hd]. unfold bd_used.
  assert (is_Some (<[p := c]> (bd_refs b) !! p)) as Hps by (rewrite lookup_insert_eq; by eexists).
  assert (frames_in (pg s' p) ## bd_rsv b) as Hr.
  { intros a Ha%elem_of_frames Ho%bd_out; [|by eapply refs_sized]. exact (refs_inside _ _ _ p a HR' Hps (proj1 Ha) Ho). }
  clear - Hd Hr. split; [set_solver|]. set_solver.
Qed.

(** ** The operations *)
Definition buddy_page (b : buddy) : (Z + Z) * buddy :=
  let '(exist _ r H) := run_proved (page_alloc_spec (bd_m b) (bd_refs b) (bd_st b) (bd_ok b)) in
  match r as r return match snd (fst r) with
      | Some p => fst (fst r) = E_OK ∧ bd_refs b !! p = None ∧ refs_ok (bd_m b) (<[p := 1]> (bd_refs b)) (snd r) ∧
          size (pg (snd r) p) = PAGE_SIZE ∧ kept (dom (bd_refs b)) (bd_st b) (snd r)
      | None => fst (fst r) = E_NOMEM ∧ snd r = bd_st b
      end → (Z + Z) * buddy with
  | ((_, Some p), s') => λ H, (inr (addr (pg s' p)),
      Buddy (bd_m b) (bd_rsv b) s' (<[p := 1]> (bd_refs b)) (proj1 (proj2 (proj2 H))) (bd_out b))
  | ((err, None), s') => λ _, (inl err, b)
  end H.

(** Sizes for which the rounding of [pm_alloc] does not wrap; others are not asked for. *)
Definition pm_size (n : Z) : Prop := 0 < n ≤ W32 - PAGE_SIZE.
#[export] Instance pm_size_dec n : Decision (pm_size n).
Proof. unfold pm_size. apply _. Defined.

Definition buddy_block (n : Z) (b : buddy) : (Z + Z * Z) * buddy :=
  match decide (pm_size n) with
  | right _ => (inl E_NOMEM, b)
  | left Hn =>
      let '(exist _ r H) := run_proved (pm_alloc_refs (bd_m b) (bd_refs b) (bd_st b) n (bd_ok b) Hn) in
      match r as r return match snd (fst r) with
          | Some p => fst (fst r) = E_OK ∧ bd_refs b !! p = None ∧ refs_ok (bd_m b) (<[p := 0]> (bd_refs b)) (snd r) ∧
              n ≤ size (pg (snd r) p) ∧ (size (pg (snd r) p) = PAGE_SIZE ∨ size (pg (snd r) p) < 2 * ROUND_UP n PAGE_SIZE) ∧
              kept (dom (bd_refs b)) (bd_st b) (snd r)
          | None => fst (fst r) = E_NOMEM ∧ snd r = bd_st b
          end → (Z + Z * Z) * buddy with
      | ((_, Some p), s') => λ H, (inr (p, addr (pg s' p)),
          Buddy (bd_m b) (bd_rsv b) s' (<[p := 0]> (bd_refs b)) (proj1 (proj2 (proj2 H))) (bd_out b))
      | ((err, None), s') => λ _, (inl err, b)
      end H
  end.

(** Only a block nobody has a reference to is given back this way. *)
Definition buddy_release (p : Z) (b : buddy) : Z * buddy :=
  match decide (bd_refs b !! p = Some 0) with
  | right _ => (E_FAULT, b)
  | left Hp =>
      let '(exist _ r H) := run_proved (pm_free_refs (bd_m b) (bd_refs b) (bd_st b) p (bd_ok b) Hp) in
      (fst r, Buddy (bd_m b) (bd_rsv b) (snd r) (delete p (bd_refs b)) (proj1 (proj2 H)) (bd_out b))
  end.

#[export] Instance buddy_pages : Ptb.PageAlloc buddy := { Ptb.page_alloc := buddy_page; Ptb.pg_used := bd_used }.
#[export] Instance buddy_phys : Kmem.PhysMem buddy := {
  Kmem.pm_alloc := buddy_block; Kmem.pm_free := buddy_release; Kmem.pm_block := bd_block }.

(** ** The laws *)
Lemma buddy_page_spec b : match buddy_page b with
  | (inr x, b') => ∃ p, x = addr (pg (bd_st b') p) ∧ bd_refs b !! p = None ∧ size (pg (bd_st b') p) = PAGE_SIZE ∧
      bd_m b' = bd_m b ∧ bd_rsv b' = bd_rsv b ∧ bd_refs b' = <[p := 1]> (bd_refs b) ∧ kept (dom (bd_refs b)) (bd_st b) (bd_st b')
  | (inl e, b') => e = E_NOMEM ∧ b' = b
  end.
Proof.
  unfold buddy_page. destruct (run_proved _) as [[[err [p|]] s'] H]; cbn [fst snd] in H; [|by destruct H].
  pose proof H as (_ & Hp & _ & Hs & Hk). by exists p.
Qed.

Lemma buddy_block_spec n b : match buddy_block n b with
  | (inr (p, x), b') => x = addr (pg (bd_st b') p) ∧ bd_refs b !! p = None ∧ n ≤ size (pg (bd_st b') p) ∧
      bd_m b' = bd_m b ∧ bd_rsv b' = bd_rsv b ∧ bd_refs b' = <[p := 0]> (bd_refs b) ∧ kept (dom (bd_refs b)) (bd_st b) (bd_st b')
  | (inl e, b') => e = E_NOMEM ∧ b' = b
  end.
Proof.
  unfold buddy_block. destruct (decide (pm_size n)) as [Hn|]; [|done].
  destruct (run_proved _) as [[[err [p|]] s'] H]; cbn [fst snd] in H; [|by destruct H].
  pose proof H as (_ & Hp & _ & Hs & _ & Hk). done.
Qed.

Lemma grown_used b b' p c : bd_m b' = bd_m b → bd_rsv b' = bd_rsv b → bd_refs b' = <[p := c]> (bd_refs b) →
  bd_refs b !! p = None → kept (dom (bd_refs b)) (bd_st b) (bd_st b') →
  sized (pg (bd_st b') p) ∧ bd_used b' = frames_in (pg (bd_st b') p) ∪ bd_used b ∧ frames_in (pg (bd_st b') p) ## bd_used b.
Proof.
  intros Hm Hr Hrf Hp Hk. pose proof (bd_ok b') as HR. rewrite Hm, Hrf in HR.
  destruct (new_fresh b p _ c HR Hp Hk) as [Hu Hd]. split_and!; [|by unfold bd_used at 1; rewrite Hr, Hrf|done].
  eapply refs_sized; [exact HR|]. rewrite lookup_insert_eq. by eexists.
Qed.

#[export] Instance buddy_page_laws : Ptb.PageAllocLaws buddy.
Proof.
  split.
  - intros b x b' He. pose proof (buddy_page_spec b) as H. cbn in He. rewrite He in H.
    destruct H as (p & -> & Hp & Hs & Hm & Hr & Hrf & Hk). cbn [Ptb.pg_used buddy_pages].
    destruct (grown_used _ _ _ _ Hm Hr Hrf Hp Hk) as (Hz & -> & Hd).
    assert (frames_in (pg (bd_st b') p) = {[addr (pg (bd_st b') p)]}) as Hf.
    { unfold frames_in. rewrite Hs. change (seqZ 0 (PAGE_SIZE / 4096)) with [0].
      cbn [fmap list_fmap list_to_set]. rewrite Z.mul_0_r, Z.add_0_r. set_solver. }
    rewrite Hf in *. destruct Hz as (_ & _ & Ha & Hw & Hz). unfold is_u32, PAGE_SIZE in *. split_and!; [done|lia|lia|set_solver|done].
  - intros b e b' He. pose proof (buddy_page_spec b) as H. cbn in He. rewrite He in H. by destruct H as [-> ->].
Qed.

#[export] Instance buddy_phys_laws : Kmem.PhysMemLaws buddy.
Proof.
  split; cbn [Kmem.pm_alloc Kmem.pm_free Kmem.pm_block buddy_phys Ptb.pg_used buddy_pages Ptb.page_alloc].
  - intros n b p x b' Hn Hn4 He. pose proof (buddy_block_spec n b) as H. rewrite He in H.
    destruct H as (-> & Hp & Hs & Hm & Hr & Hrf & Hk). destruct (grown_used _ _ _ _ Hm Hr Hrf Hp Hk) as (Hz & -> & Hd).
    unfold bd_block. rewrite Hrf, lookup_insert_eq, decide_True by by eexists.
    pose proof Hz as (_ & _ & Ha & Hw & Hm4). split_and!; [done|done|lia| |done|done].
    intros i Hi. apply elem_of_frames; [done|]. unfold inside, PAGE_SIZE in *.
    pose proof (Z.mul_div_le n 4096 ltac:(lia)). rewrite (Z.mul_comm 4096), Z.mod_add by lia. split; [lia|done].
  - intros n b e b' He. pose proof (buddy_block_spec n b) as H. rewrite He in H. by destruct H as [-> ->].
  - intros b p e b' He. unfold buddy_release in He. destruct (decide _) as [Hp|]; [|simplify_eq; set_solver].
    destruct (run_proved _) as [[e1 s'] (H1 & HR & Hk)]. simplify_eq. cbn [fst snd] in *.
    unfold bd_used, bd_block. cbn [bd_rsv bd_refs bd_st]. rewrite decide_True by by eexists.
    intros a [Ha Hn]%elem_of_difference. apply elem_of_union in Ha as [Ha|Ha]; apply elem_of_union; [by left|right].
    apply (elem_of_used _ _ _ _ (bd_ok b)) in Ha as (q & Hq & Ha). apply (elem_of_used _ _ _ _ HR).
    assert (q ≠ p) as Hqp.
    { intros ->. apply Hn, elem_of_frames; [eapply refs_sized; [apply bd_ok|done]|done]. }
    assert (is_Some (delete p (bd_refs b) !! q)) as Hq' by (rewrite lookup_delete_ne; done).
    exists q. by rewrite (Hk q) by by apply elem_of_dom.
  - intros b r b' p He Hne. pose proof (buddy_page_spec b) as H. rewrite He in H. destruct r as [e|x]; [by destruct H as [_ ->]|].
    destruct H as (q & _ & Hq & _ & _ & _ & Hrf & Hk). unfold bd_block in *. case_decide as Hp; [|done].
    rewrite Hrf. assert (p ≠ q) by (intros ->; rewrite Hq in Hp; by destruct Hp).
    rewrite lookup_insert_ne, decide_True by done. by rewrite (Hk p) by by apply elem_of_dom.
Qed.

(** ** What [memory_init] does with physical memory *)
Definition CONFIG_NR_PMM_BUDDY_SLOT_PG : Z := 128.
Definition SZ_PM_SLOT : Z := CONFIG_NR_PMM_BUDDY_SLOT_PG * PAGE_SIZE.

Definition pm_setup (pm_slot start size : Z) : M page_alct_t Z :=
  err <- pm_init pm_slot SZ_PM_SLOT ;;
  if negb (err =? E_OK) then ret err else pm_insert start size.

(** The structures that fit in [pm_slot] behind the heads of the lists. *)
Definition NR_PM_SLOTS : nat := Z.to_nat ((SZ_PM_SLOT - Z.of_nat NR_BUDDY_ORDER * SZ_LIST_NODE) / SZ_PAGE).
Definition pm_slots (pm_slot : Z) : list Z :=
  Slot.slots (pm_slot + Z.of_nat NR_BUDDY_ORDER * SZ_LIST_NODE) SZ_PAGE NR_PM_SLOTS.

(** The array as the kernel is loaded: memory of the program, all zero. *)
Record pm_blank (pm_slot : Z) (s : page_alct_t) : Prop := {
  pz_range : 0 < pm_slot ∧ pm_slot + 2 * SZ_PM_SLOT < W32;
  pz_mem : ∀ p, p ∈ pm_slots pm_slot → is_Some (pages s !! p) ∧ is_Some (rbt_nodes (alloced_rbt s) !! p);
  pz_zero : ∀ p, cnt (pg s p) = 0;
}.
(** Whole pages, few enough for the structures. *)
Definition range_ok (start size : Z) : Prop :=
  0 ≤ start ∧ start mod PAGE_SIZE = 0 ∧ 0 < size ∧ size mod PAGE_SIZE = 0 ∧ start + size < W32 ∧
  2 * (size / PAGE_SIZE) + 2 * NR ≤ Z.of_nat NR_PM_SLOTS.

Lemma un_pm_setup pm_slot start size : uncounted (pm_setup pm_slot start size).
Proof. unfold pm_setup, pm_init, pm_insert, insert_body. un_solve. Qed.

Lemma pm_setup_spec pm_slot start size s : pm_blank pm_slot s → range_ok start size →
  wp (pm_setup pm_slot start size) (λ err s', err = E_OK ∧ refs_ok (Region start (Z.to_nat (size / PAGE_SIZE))) ∅ s') s.
Proof.
  intros [Hp Hm Hz] (Ha & Ham & Hs & Hsm & Hw & Hr). eapply wp_mono.
  { apply wp_and_wlp; [|apply un_pm_setup].
    apply (wp_mono _ (λ err s', err = E_OK ∧ ∃ L t, pm_ok L ∅ t s' ∧ roomy (Region start (Z.to_nat (size / PAGE_SIZE))) L s'));
      [|by intros err s' H; exact H].
    assert (SZ_PM_SLOT = 524288 ∧ Z.of_nat NR_BUDDY_ORDER * SZ_LIST_NODE = 168) as [E1 E2] by done.
    assert (W32 = 4294967296) as EW by done.
    unfold pm_setup. apply wp_bind. eapply wp_mono; [apply pm_init_correct; try lia|].
    - intros p Hin. split; [|by apply Hm]. apply elem_of_slots in Hin as (i & _ & ->). unfold NULL, SZ_PAGE. lia.
    - intros err s1. replace (SZ_PM_SLOT <? _) with false by (symmetry; apply Z.ltb_ge; lia).
      intros (-> & Hok & Hno & Hsl). cbn [negb Z.eqb E_OK].
      assert (length (slots s1) = NR_PM_SLOTS) as Hlen by (rewrite Hsl; unfold Slot.slots; by rewrite length_fmap, length_seq).
      pose proof (Z_div_exact_full_2 size PAGE_SIZE ltac:(done) Hsm). assert (0 ≤ size / PAGE_SIZE) by (apply Z.div_pos; [lia|done]).
      eapply wp_mono; [apply (pm_insert_spec ∅ ∅ E s1 start size Hok); try done; try (unfold is_u32; lia)|].
      intros err s2 (-> & _ & L & Hok2 & Hst & Hc). split; [done|]. exists L, E. split; [done|].
      split; [|split; [done|]].
      + rewrite <- (structs_card L ∅ s2 (po_bud _ _ _ _ Hok2)).
        replace (L ∪ list_to_set (slots s2)) with (∅ ∪ list_to_set (slots s1) : gset Z).
        { rewrite (structs_card ∅ ∅ s1 (po_bud _ _ _ _ Hok)), size_empty, Hlen. cbn [r_pages]. unfold NR in Hr. lia. }
        apply set_eq. intros q. specialize (Hst q). rewrite !elem_of_union, !elem_of_list_to_set. tauto.
      + intros a [Hx|Hx]%Hc; [by apply Hno in Hx|]. cbn [r_lo r_pages]. rewrite Z2Nat.id by done. unfold PAGE_SIZE in *. lia. }
  intros err s' [(-> & L & t & Hok & Hro) Hzs]. split; [done|]. split.
  - exists L, t. by rewrite dom_empty_L.
  - intros p. rewrite lookup_empty. by apply Hzs.
Qed.

(** The allocator it leaves: nothing is in use but the reserved frames. *)
Definition buddy_boot pm_slot start size s (Hz : pm_blank pm_slot s) (Hr : range_ok start size) (rsv : gset Z)
    (Ho : ∀ x, x ∈ rsv → reserved (Region start (Z.to_nat (size / PAGE_SIZE))) x) : buddy :=
  let r := run_proved (pm_setup_spec pm_slot start size s Hz Hr) in
  Buddy (Region start (Z.to_nat (size / PAGE_SIZE))) rsv (snd (proj1_sig r)) ∅ (proj2 (proj2_sig r)) Ho.

Lemma buddy_boot_spec pm_slot start size s Hz Hr rsv Ho : let b := buddy_boot pm_slot start size s Hz Hr rsv Ho in
  pm_setup pm_slot start size s = Ret E_OK (bd_st b) ∧ bd_used b = rsv.
Proof.
  split.
  - rewrite (run_proved_run (pm_setup_spec pm_slot start size s Hz Hr)). cbn [buddy_boot bd_st].
    by rewrite (proj1 (proj2_sig (run_proved (pm_setup_spec pm_slot start size s Hz Hr)))).
  - unfold bd_used, blocks_used. cbn [buddy_boot bd_rsv bd_refs]. rewrite dom_empty_L, elements_empty. cbn. set_solver.
Qed.
