(* ===== verification/Desc.v ===== *)
(** * Segment and gate descriptors: arch/x86/src/setup/gdt.c and intr.c

    The bit-fields of [struct seg_t] and [struct gate_t] with the truncation of a store
    to them, the tables the kernel builds, and what the processor reads in the eight
    bytes of a descriptor. *)
From S2P Require Import Prelude.

(** A store to a bit-field of [n] bits. *)
Definition bitf (n v : Z) : Z := v mod 2 ^ n.

Definition DPL_KERN : Z := 0.
Definition DPL_USER : Z := 3.
Definition SEL_KCODE : Z := Z.lor (Z.shiftl 1 3) DPL_KERN.
Definition SEL_KDATA : Z := Z.lor (Z.shiftl 2 3) DPL_KERN.
Definition SEL_UCODE : Z := Z.lor (Z.shiftl 3 3) DPL_USER.
Definition SEL_UDATA : Z := Z.lor (Z.shiftl 4 3) DPL_USER.
Definition SEL_TSS : Z := Z.shiftl 5 3.
Definition STA_X : Z := 0x8.
Definition STA_W : Z := 0x2.
Definition STA_R : Z := 0x2.
Definition STS_IG32 : Z := 0xE.
Definition STS_TG32 : Z := 0xF.
(** CONFIG_NR_SEG, NR_INTR, INTR_SYSCALL, [sizeof(struct tss_t)]. *)
Definition NR_SEG : nat := 6.
Definition NR_INTR : nat := 256.
Definition INTR_SYSCALL : Z := 128.
Definition SZ_TSS : Z := 104.

Record seg_t := Seg {
  lim_15_0 : Z; base_15_0 : Z; base_23_16 : Z; seg_type : Z; seg_s : Z; seg_dpl : Z; seg_p : Z;
  lim_19_16 : Z; avl : Z; rsv1 : Z; db : Z; g : Z; base_31_24 : Z }.

Definition set_seg (type base lim dpl : Z) : seg_t := Seg
  (bitf 16 (Z.land (Z.shiftr lim 12) 0xffff)) (bitf 16 (Z.land base 0xffff))
  (bitf 8 (Z.land (Z.shiftr base 16) 0xff)) (bitf 4 type) 1 (bitf 2 dpl) 1
  (bitf 4 (Z.shiftr lim 28)) 0 0 1 1 (bitf 8 (Z.shiftr base 24)).

Definition set_tss (type base lim dpl : Z) : seg_t := Seg
  (bitf 16 (Z.land lim 0xffff)) (bitf 16 (Z.land base 0xffff))
  (bitf 8 (Z.land (Z.shiftr base 16) 0xff)) (bitf 4 type) 0 (bitf 2 dpl) 1
  (bitf 4 (Z.shiftr lim 16)) 0 0 1 0 (bitf 8 (Z.shiftr base 24)).

Definition null_seg : seg_t := Seg 0 0 0 0 0 0 0 0 0 0 0 0 0.
Definition set_entry (i : Z) (x : seg_t) (l : list seg_t) : list seg_t := <[Z.to_nat i := x]> l.

(** [gdt_init] on the table [gdt] of a processor whose task state segment is at [tss];
    [lgdt] and [ltr] load the table and the selector. *)
Definition gdt_init (tss : Z) (gdt : list seg_t) : list seg_t :=
  let gdt := set_entry 0 null_seg gdt in
  let gdt := set_entry (Z.shiftr SEL_KCODE 3) (set_seg (Z.lor STA_X STA_R) 0 0xffffffff DPL_KERN) gdt in
  let gdt := set_entry (Z.shiftr SEL_KDATA 3) (set_seg STA_W 0 0xffffffff DPL_KERN) gdt in
  let gdt := set_entry (Z.shiftr SEL_UCODE 3) (set_seg (Z.lor STA_X STA_R) 0 0xffffffff DPL_USER) gdt in
  let gdt := set_entry (Z.shiftr SEL_UDATA 3) (set_seg STA_W 0 0xffffffff DPL_USER) gdt in
  set_entry (Z.shiftr SEL_TSS 3) (set_tss 0x9 tss (SZ_TSS - 1) DPL_KERN) gdt.

(** The six bytes [lgdt] and [lidt] load, as three 16-bit stores. *)
Definition pseudo_desc (addr size : Z) : list Z :=
  [bitf 16 (size - 1); bitf 16 addr; bitf 16 (Z.shiftr addr 16)].
Definition lgdt (seg size : Z) : list Z := pseudo_desc seg size.
Definition lidt (addr size : Z) : list Z := pseudo_desc addr size.

Record gate_t := Gate {
  off_15_0 : Z; gate_cs : Z; args : Z; grsv1 : Z; gate_type : Z; gate_s : Z; gate_dpl : Z;
  gate_p : Z; off_31_16 : Z }.

Definition set_gate (istrap : bool) (sel off dpl : Z) : gate_t := Gate
  (bitf 16 (Z.land off 0xffff)) (bitf 16 sel) 0 0 (bitf 4 (if istrap then STS_TG32 else STS_IG32)) 0
  (bitf 2 dpl) 1 (bitf 16 (Z.shiftr off 16)).

(** The descriptor table [intr_init] fills, from the entry points [intrx]. *)
Definition idt_init (intrx : nat → Z) : list gate_t :=
  <[Z.to_nat INTR_SYSCALL := set_gate true SEL_KCODE (intrx (Z.to_nat INTR_SYSCALL)) DPL_USER]>
    ((λ i, set_gate false SEL_KCODE (intrx i) 0) <$> seq 0 NR_INTR).

(** ** The bytes of a descriptor

    Bit-fields are allocated from the lowest bit up. *)
Fixpoint pack (l : list (Z * Z)) : Z :=
  match l with [] => 0 | (n, v) :: l => v mod 2 ^ n + 2 ^ n * pack l end.
Definition seg_raw (x : seg_t) : Z := pack
  [(16, lim_15_0 x); (16, base_15_0 x); (8, base_23_16 x); (4, seg_type x); (1, seg_s x);
   (2, seg_dpl x); (1, seg_p x); (4, lim_19_16 x); (1, avl x); (1, rsv1 x); (1, db x); (1, g x);
   (8, base_31_24 x)].
Definition gate_raw (x : gate_t) : Z := pack
  [(16, off_15_0 x); (16, gate_cs x); (5, args x); (3, grsv1 x); (4, gate_type x); (1, gate_s x);
   (2, gate_dpl x); (1, gate_p x); (16, off_31_16 x)].

(** What the processor reads in a descriptor (Intel SDM vol. 3, 3.4.5, 6.11 and 7.2.2). *)
Definition fld (raw off n : Z) : Z := raw / 2 ^ off mod 2 ^ n.
Definition hw_base raw : Z := fld raw 16 16 + 2 ^ 16 * fld raw 32 8 + 2 ^ 24 * fld raw 56 8.
Definition hw_limit raw : Z :=
  let l := fld raw 0 16 + 2 ^ 16 * fld raw 48 4 in
  if fld raw 55 1 =? 1 then l * 4096 + 4095 else l.
Definition hw_dpl raw : Z := fld raw 45 2.
Definition hw_present raw : Prop := fld raw 47 1 = 1.
(** Code or data (1), or a system segment (0), and the four bits of its kind. *)
Definition hw_kind raw : Z * Z := (fld raw 44 1, fld raw 40 4).
Definition hw_offset raw : Z := fld raw 0 16 + 2 ^ 16 * fld raw 48 16.
Definition hw_selector raw : Z := fld raw 16 16.

Lemma pack_nonneg l : Forall (λ x, 0 ≤ fst x) l → 0 ≤ pack l.
Proof.
  induction 1 as [|[n v] l Hn _ IH]; [done|]. simpl in *.
  pose proof (Z.mod_pos_bound v (2 ^ n)). pose proof (Z.pow_pos_nonneg 2 n). nia.
Qed.

Lemma fld_pack l1 n v l2 : Forall (λ x, 0 ≤ fst x) l1 → 0 ≤ n →
  fld (pack (l1 ++ (n, v) :: l2)) (foldr (λ x w, fst x + w) 0 l1) n = v mod 2 ^ n.
Proof.
  intros Hl Hn. unfold fld. induction Hl as [|[m w] l1 Hm Hl IH]; cbn [app foldr pack fst] in *.
  - rewrite Z.div_1_r, Z.mul_comm, Z.mod_add by (apply Z.pow_nonzero; lia). apply Z.mod_mod.
    apply Z.pow_nonzero; lia.
  - assert (0 ≤ foldr (λ x w, fst x + w) 0 l1) as Hs.
    { clear -Hl. induction Hl as [|[? ?] ? ? ? IH]; simpl in *; lia. }
    rewrite Z.pow_add_r, <- Z.div_div by (lia || apply Z.pow_nonzero; lia || apply Z.pow_pos_nonneg; lia).
    rewrite Z.mul_comm, Z.div_add by (apply Z.pow_nonzero; lia).
    rewrite (Z.div_small (w mod _)) by (apply Z.mod_pos_bound, Z.pow_pos_nonneg; lia). exact IH.
Qed.

Ltac field_of l := refine (fld_pack l _ _ _ _ _); [repeat constructor; simpl; lia|lia].
Lemma seg_fields x :
  fld (seg_raw x) 0 16 = lim_15_0 x mod 2 ^ 16 ∧ fld (seg_raw x) 16 16 = base_15_0 x mod 2 ^ 16 ∧
  fld (seg_raw x) 32 8 = base_23_16 x mod 2 ^ 8 ∧ fld (seg_raw x) 40 4 = seg_type x mod 2 ^ 4 ∧
  fld (seg_raw x) 44 1 = seg_s x mod 2 ^ 1 ∧ fld (seg_raw x) 45 2 = seg_dpl x mod 2 ^ 2 ∧
  fld (seg_raw x) 47 1 = seg_p x mod 2 ^ 1 ∧ fld (seg_raw x) 48 4 = lim_19_16 x mod 2 ^ 4 ∧
  fld (seg_raw x) 55 1 = g x mod 2 ^ 1 ∧ fld (seg_raw x) 56 8 = base_31_24 x mod 2 ^ 8.
Proof.
  unfold seg_raw.
  set (f0 := (16, lim_15_0 x)); set (f1 := (16, base_15_0 x)); set (f2 := (8, base_23_16 x));
  set (f3 := (4, seg_type x)); set (f4 := (1, seg_s x)); set (f5 := (2, seg_dpl x)); set (f6 := (1, seg_p x));
  set (f7 := (4, lim_19_16 x)); set (f8 := (1, avl x)); set (f9 := (1, rsv1 x)); set (fa := (1, db x)).
  split_and!; [field_of (@nil (Z * Z))|field_of [f0]|field_of [f0; f1]|field_of [f0; f1; f2]
    |field_of [f0; f1; f2; f3]|field_of [f0; f1; f2; f3; f4]|field_of [f0; f1; f2; f3; f4; f5]
    |field_of [f0; f1; f2; f3; f4; f5; f6]|field_of [f0; f1; f2; f3; f4; f5; f6; f7; f8; f9; fa]
    |field_of [f0; f1; f2; f3; f4; f5; f6; f7; f8; f9; fa; (1, g x)]].
Qed.

Lemma gate_fields x :
  fld (gate_raw x) 0 16 = off_15_0 x mod 2 ^ 16 ∧ fld (gate_raw x) 16 16 = gate_cs x mod 2 ^ 16 ∧
  fld (gate_raw x) 40 4 = gate_type x mod 2 ^ 4 ∧ fld (gate_raw x) 44 1 = gate_s x mod 2 ^ 1 ∧
  fld (gate_raw x) 45 2 = gate_dpl x mod 2 ^ 2 ∧ fld (gate_raw x) 47 1 = gate_p x mod 2 ^ 1 ∧
  fld (gate_raw x) 48 16 = off_31_16 x mod 2 ^ 16.
Proof.
  unfold gate_raw.
  set (f0 := (16, off_15_0 x)); set (f1 := (16, gate_cs x)); set (f2 := (5, args x));
  set (f3 := (3, grsv1 x)); set (f4 := (4, gate_type x)); set (f5 := (1, gate_s x));
  set (f6 := (2, gate_dpl x)); set (f7 := (1, gate_p x)).
  split_and!; [field_of (@nil (Z * Z))|field_of [f0]|field_of [f0; f1; f2; f3]
    |field_of [f0; f1; f2; f3; f4]|field_of [f0; f1; f2; f3; f4; f5]|field_of [f0; f1; f2; f3; f4; f5; f6]
    |field_of [f0; f1; f2; f3; f4; f5; f6; f7]].
Qed.

Lemma bitf_idem n v : 0 ≤ n → bitf n v mod 2 ^ n = bitf n v.
Proof. intros Hn. unfold bitf. apply Z.mod_mod, Z.pow_nonzero; lia. Qed.
Lemma land_ffff x : Z.land x 0xffff = x mod 2 ^ 16.
Proof. exact (Z.land_ones x 16 ltac:(lia)). Qed.
Lemma land_ff x : Z.land x 0xff = x mod 2 ^ 8.
Proof. exact (Z.land_ones x 8 ltac:(lia)). Qed.

(** The pieces of a base address put together again. *)
Lemma base_pieces b : is_u32 b →
  b mod 2 ^ 16 + 2 ^ 16 * (b / 2 ^ 16 mod 2 ^ 8) + 2 ^ 24 * (b / 2 ^ 24 mod 2 ^ 8) = b.
Proof. unfold is_u32, W32. intros Hb. Z.to_euclidean_division_equations. lia. Qed.
Lemma two_pieces b : is_u32 b → b mod 2 ^ 16 + 2 ^ 16 * (b / 2 ^ 16 mod 2 ^ 16) = b.
Proof. unfold is_u32, W32. intros Hb. Z.to_euclidean_division_equations. lia. Qed.

Lemma set_seg_reads type base lim dpl : is_u32 base → is_u32 lim →
  let r := seg_raw (set_seg type base lim dpl) in
  hw_base r = base ∧ hw_limit r = lim / 4096 * 4096 + 4095 ∧ hw_dpl r = dpl mod 4 ∧ hw_present r ∧
  hw_kind r = (1, type mod 16).
Proof.
  intros Hb Hl r. destruct (seg_fields (set_seg type base lim dpl)) as (E0 & E1 & E2 & E3 & E4 & E5 & E6 & E7 & E8 & E9).
  unfold hw_base, hw_limit, hw_dpl, hw_present, hw_kind, r. rewrite E0, E1, E2, E3, E4, E5, E6, E7, E8, E9.
  unfold set_seg. cbn [lim_15_0 base_15_0 base_23_16 seg_type seg_s seg_dpl seg_p lim_19_16 g base_31_24].
  rewrite !bitf_idem by lia. rewrite !land_ffff, land_ff. unfold bitf. rewrite !Z.shiftr_div_pow2 by lia.
  rewrite !(Z.mod_mod _ (2 ^ 16)), !(Z.mod_mod _ (2 ^ 8)) by lia.
  split_and!; [by apply base_pieces| |done|done|done].
  change ((1 mod 2 ^ 1) =? 1) with true. cbv iota. unfold is_u32, W32 in *.
  Z.to_euclidean_division_equations. lia.
Qed.

Lemma set_tss_reads type base lim dpl : is_u32 base → 0 ≤ lim < 2 ^ 20 →
  let r := seg_raw (set_tss type base lim dpl) in
  hw_base r = base ∧ hw_limit r = lim ∧ hw_dpl r = dpl mod 4 ∧ hw_present r ∧
  hw_kind r = (0, type mod 16).
Proof.
  intros Hb Hl r. destruct (seg_fields (set_tss type base lim dpl)) as (E0 & E1 & E2 & E3 & E4 & E5 & E6 & E7 & E8 & E9).
  unfold hw_base, hw_limit, hw_dpl, hw_present, hw_kind, r. rewrite E0, E1, E2, E3, E4, E5, E6, E7, E8, E9.
  unfold set_tss. cbn [lim_15_0 base_15_0 base_23_16 seg_type seg_s seg_dpl seg_p lim_19_16 g base_31_24].
  rewrite !bitf_idem by lia. rewrite !land_ffff, land_ff. unfold bitf. rewrite !Z.shiftr_div_pow2 by lia.
  rewrite !(Z.mod_mod _ (2 ^ 16)), !(Z.mod_mod _ (2 ^ 8)) by lia.
  split_and!; [by apply base_pieces| |done|done|done].
  change ((0 mod 2 ^ 1) =? 1) with false. cbv iota.
  Z.to_euclidean_division_equations. lia.
Qed.

Lemma set_gate_reads trap sel off dpl : is_u32 off →
  let r := gate_raw (set_gate trap sel off dpl) in
  hw_offset r = off ∧ hw_selector r = sel mod 2 ^ 16 ∧ hw_dpl r = dpl mod 4 ∧ hw_present r ∧
  hw_kind r = (0, if trap then STS_TG32 else STS_IG32).
Proof.
  intros Ho r. destruct (gate_fields (set_gate trap sel off dpl)) as (E0 & E1 & E2 & E3 & E4 & E5 & E6).
  unfold hw_offset, hw_selector, hw_dpl, hw_present, hw_kind, r. rewrite E0, E1, E2, E3, E4, E5, E6.
  unfold set_gate. cbn [off_15_0 gate_cs gate_type gate_s gate_dpl gate_p off_31_16].
  rewrite !bitf_idem by lia. rewrite land_ffff. unfold bitf. rewrite !Z.shiftr_div_pow2 by lia.
  rewrite !(Z.mod_mod _ (2 ^ 16)) by lia.
  split_and!; [by apply two_pieces|done|done|done|by destruct trap].
Qed.

(** What a selector loads from a table: the entry [sel / 8]. *)
Definition sel_entry (gdt : list seg_t) (sel : Z) : option Z := seg_raw <$> gdt !! Z.to_nat (sel / 8).

Ltac entry_reads := eexists; split; [reflexivity|];
  split_and!; first [assumption|etransitivity; [eassumption|reflexivity]].

(** The tables the kernel loads mean to the processor what they should: the four
    code and data selectors give present flat segments from 0 to 4 GB - 1, code or
    data, of the privilege their number carries; the TSS selector gives an available
    32-bit TSS at the processor's own TSS with its exact size; the table's limit holds
    exactly its entries; and each of the 256 gates enters the kernel code segment at
    that vector's entry point, as an interrupt gate (interrupts off) that user code
    may not raise, but for the system call, a trap gate (interrupts on) that it may. *)
Theorem descriptor_tables_correct tss gdt intrx addr :
  is_u32 tss → length gdt = NR_SEG → (∀ i, is_u32 (intrx i)) →
  (∀ sel, sel ∈ ([SEL_KCODE; SEL_KDATA; SEL_UCODE; SEL_UDATA] : list Z) → ∃ r,
     sel_entry (gdt_init tss gdt) sel = Some r ∧ hw_base r = 0 ∧ hw_limit r = W32 - 1 ∧
     hw_dpl r = Z.land sel 3 ∧ hw_present r ∧
     hw_kind r = (1, if bool_decide (sel ∈ ([SEL_KCODE; SEL_UCODE] : list Z)) then 0xA else 0x2)) ∧
  (∃ r, sel_entry (gdt_init tss gdt) SEL_TSS = Some r ∧ hw_base r = tss ∧ hw_limit r = SZ_TSS - 1 ∧
     hw_dpl r = DPL_KERN ∧ hw_present r ∧ hw_kind r = (0, 0x9)) ∧
  lgdt addr (8 * Z.of_nat NR_SEG) !! 0%nat = Some (8 * Z.of_nat NR_SEG - 1) ∧
  lidt addr (8 * Z.of_nat NR_INTR) !! 0%nat = Some (8 * Z.of_nat NR_INTR - 1) ∧
  ∀ i, (i < NR_INTR)%nat → ∃ x, idt_init intrx !! i = Some x ∧
    let r := gate_raw x in let sys := Z.of_nat i =? INTR_SYSCALL in
    hw_offset r = intrx i ∧ hw_selector r = SEL_KCODE ∧ hw_present r ∧
    hw_dpl r = (if sys then DPL_USER else DPL_KERN) ∧
    hw_kind r = (0, if sys then STS_TG32 else STS_IG32).
Proof.
  intros Ht Hg Hx. do 6 (destruct gdt as [|? gdt]; [done|]). destruct gdt; [|done].
  split_and!; [| |done|done|].
  - assert (is_u32 0 ∧ is_u32 0xffffffff) as [H0 Hl] by (unfold is_u32, W32; lia).
    intros sel Hs. unfold gdt_init. repeat (apply elem_of_cons in Hs as [->|Hs]); [| | | |by apply elem_of_nil in Hs].
    + destruct (set_seg_reads (Z.lor STA_X STA_R) 0 0xffffffff DPL_KERN H0 Hl) as (? & ? & ? & ? & ?). entry_reads.
    + destruct (set_seg_reads STA_W 0 0xffffffff DPL_KERN H0 Hl) as (? & ? & ? & ? & ?). entry_reads.
    + destruct (set_seg_reads (Z.lor STA_X STA_R) 0 0xffffffff DPL_USER H0 Hl) as (? & ? & ? & ? & ?). entry_reads.
    + destruct (set_seg_reads STA_W 0 0xffffffff DPL_USER H0 Hl) as (? & ? & ? & ? & ?). entry_reads.
  - destruct (set_tss_reads 0x9 tss (SZ_TSS - 1) DPL_KERN Ht) as (? & ? & ? & ? & ?); [done|].
    eexists. split; [done|]. done.
  - intros i Hi. unfold idt_init. destruct (decide (i = Z.to_nat INTR_SYSCALL)) as [->|Hn].
    + eexists. split; [apply list_lookup_insert_eq; by rewrite length_fmap, length_seq|].
      destruct (set_gate_reads true SEL_KCODE (intrx (Z.to_nat INTR_SYSCALL)) DPL_USER (Hx _)) as (? & ? & ? & ? & ?). done.
    + eexists. split.
      { rewrite list_lookup_insert_ne by done. rewrite list_lookup_fmap, lookup_seq_lt by done. done. }
      destruct (set_gate_reads false SEL_KCODE (intrx i) 0 (Hx _)) as (? & ? & ? & ? & ?).
      replace (Z.of_nat i =? INTR_SYSCALL) with false by (unfold INTR_SYSCALL in *; lia). done.
Qed.

(** A cleared table, and entry points sixteen bytes apart. *)
Definition ex_gdt : list seg_t := replicate NR_SEG null_seg.
Definition ex_intrx (i : nat) : Z := 0xC0100000 + 16 * Z.of_nat (i `mod` 256)%nat.

Lemma descriptor_tables_correct_witness : is_u32 0xC0123450 ∧ ∃ x, idt_init ex_intrx !! 128%nat = Some x ∧
  hw_offset (gate_raw x) = ex_intrx 128 ∧ hw_selector (gate_raw x) = SEL_KCODE ∧ hw_present (gate_raw x) ∧
  hw_dpl (gate_raw x) = DPL_USER ∧ hw_kind (gate_raw x) = (0, STS_TG32).
Proof.
  split; [unfold is_u32, W32; lia|].
  refine (proj2 (proj2 (proj2 (proj2 (descriptor_tables_correct 0xC0123450 ex_gdt ex_intrx 0xC0200000 _ _ _)))) 128%nat _).
  - unfold is_u32, W32. lia.
  - reflexivity.
  - intros i. unfold ex_intrx, is_u32, W32. pose proof (Nat.mod_upper_bound i 256 ltac:(lia)). lia.
  - unfold NR_INTR. lia.
Defined.
