(* ===== verification/Task.v ===== *)
(** * New tasks: arch/x86/src/task/task.c and [intr_user_init] of intr.c

    A task starts on a stack prepared by hand, which the last instructions of
    [context_switch] and of the interrupt exit unwind. The stacks are bytes of the
    memory of the running address space. *)
From S2P Require Import Prelude Cstring Words Desc.

(** [struct context_t], [struct task_t] *)
Record context_t := Context_t { c_edi : Z; c_esi : Z; c_ebx : Z; c_ebp : Z; c_esp : Z }.
Record task_t := Task { saddr : Z; ssize : Z; ncli : Z; context : context_t }.

Definition FL_IF : Z := 0x200.

Definition set_stack sa sz (t : task_t) := Task sa sz (ncli t) (context t).
Definition set_ncli n (t : task_t) := Task (saddr t) (ssize t) n (context t).
Definition set_sp esp ebp (t : task_t) := Task (saddr t) (ssize t) (ncli t)
  (Context_t (c_edi (context t)) (c_esi (context t)) (c_ebx (context t)) ebp esp).

(** The copy of the [nargs] words that follow [nargs] on the caller's stack. *)
Fixpoint put_args (sp : Z) (args : list Z) : M mem unit :=
  match args with
  | [] => ret tt
  | v :: args => wrw sp v ;;; put_args (add32 sp 4) args
  end.

Definition task_kern_init (task : task_t) (sa sz exe : Z) (args : list Z) : M mem (Z * task_t) :=
  let sp := sub32 (add32 sa sz) (mul32 4 (Z.of_nat (length args))) in
  put_args sp args ;;;
  let sp := sub32 sp 4 in
  wrw sp 0 ;;;
  let sp := sub32 sp 4 in
  wrw sp exe ;;;
  ret (E_OK, set_ncli 1 (set_sp sp (add32 sa sz) (set_stack sa sz task))).

(** [struct intr_regs_t]: its size and the offsets of the fields the code writes. *)
Definition SZ_REGS : Z := 76.
Definition R_EBP : Z := 8.
Definition R_GS : Z := 32.
Definition R_FS : Z := 36.
Definition R_ES : Z := 40.
Definition R_DS : Z := 44.
Definition R_EIP : Z := 56.
Definition R_CS : Z := 60.
Definition R_EFLAGS : Z := 64.
Definition R_ESP : Z := 68.
Definition R_SS : Z := 72.

Section code.
(** The address of [intr_ret] of int.S. *)
Context (intr_ret : Z).

Definition intr_user_init (ksp run usp ubp arga argsz : Z) : M mem Z :=
  assert_ (argsz mod 4 =? 0) ;;;
  let regs := sub32 ksp SZ_REGS in
  wrh (add32 regs R_CS) SEL_UCODE ;;;
  wrh (add32 regs R_SS) SEL_UDATA ;;;
  wrh (add32 regs R_GS) SEL_UDATA ;;;
  wrh (add32 regs R_FS) SEL_UDATA ;;;
  wrh (add32 regs R_ES) SEL_UDATA ;;;
  wrh (add32 regs R_DS) SEL_UDATA ;;;
  wrw (add32 regs R_EIP) run ;;;
  wrw (add32 regs R_EFLAGS) FL_IF ;;;
  memcpy (sub32 usp argsz) arga argsz ;;;
  wrw (add32 regs R_ESP) (sub32 (sub32 usp argsz) 4) ;;;
  wrw (add32 regs R_EBP) ubp ;;;
  let iret := sub32 regs 4 in
  wrw iret intr_ret ;;;
  ret iret.

Definition task_user_init (task : task_t) (ksa kss usa uss pre run arga argsz : Z) : M mem (Z * task_t) :=
  sp <- intr_user_init (add32 ksa kss) run (add32 usa uss) (add32 usa uss) arga argsz ;;
  let sp := sub32 sp 4 in
  wrw sp pre ;;;
  ret (E_OK, set_ncli 1 (set_sp sp (add32 ksa kss) (set_stack ksa kss task))).
End code.

Definition task_init (task : task_t) : Z * task_t := (E_OK, set_ncli 1 task).

(** ** What the machine does with the stack

    The [ret] that ends [context_switch]: the address it jumps to and the stack
    pointer it leaves. *)
Definition hw_ret (sp : Z) : M mem (Z * Z) := a <- rdw sp ;; ret (a, sp + 4).

(** int.S from [intr_ret] on: [popal], the four segment registers, eight bytes
    skipped, and [iret] to another privilege level. *)
Record user_regs := UserRegs {
  u_eip : Z; u_cs : Z; u_eflags : Z; u_esp : Z; u_ss : Z; u_ebp : Z; u_segs : list Z }.
Definition hw_intr_ret (sp : Z) : M mem user_regs :=
  ebp <- rdw (sp + 8) ;;
  gs <- rdh (sp + 32) ;; fs <- rdh (sp + 36) ;; es <- rdh (sp + 40) ;; ds <- rdh (sp + 44) ;;
  eip <- rdw (sp + 56) ;; cs <- rdh (sp + 60) ;; eflags <- rdw (sp + 64) ;;
  esp <- rdw (sp + 68) ;; ss <- rdh (sp + 72) ;;
  ret (UserRegs eip cs eflags esp ss ebp [ds; es; fs; gs]).

(** ** A kernel task *)
Lemma put_args_spec args : ∀ sp m, mapped m sp (4 * Z.of_nat (length args)) → 0 ≤ sp →
  sp + 4 * Z.of_nat (length args) < W32 →
  wp (put_args sp args) (λ _ m', only sp (4 * Z.of_nat (length args)) m m' ∧
    ∀ i v, args !! i = Some v → word m' (sp + 4 * Z.of_nat i) v) m.
Proof.
  induction args as [|v args IH]; intros sp m Hm Hs Hw; cbn [put_args length] in *.
  { apply wp_ret. split; [apply only_refl|done]. }
  apply wp_bind, wp_wrw; [intros x Hx; apply Hm; lia|lia|lia|]. intros m1 Hv Ho1.
  rewrite add32_small by lia. after_write Ho1.
  eapply wp_mono; [apply IH; [intros x Hx; apply Hm; lia|lia|lia]|].
  intros u m2 [Ho2 Hargs]. split; [eapply only_trans; [exact Ho1|exact Ho2|lia..]|].
  intros [|i] w Hi; simpl in Hi.
  - simplify_eq. after_write Ho2. by replace (sp + 4 * Z.of_nat 0) with sp by lia.
  - replace (sp + 4 * Z.of_nat (S i)) with (sp + 4 + 4 * Z.of_nat i) by lia. by apply Hargs.
Qed.

(** A kernel task starts at its routine with its arguments: after
    [task_kern_init], the [ret] of the first switch to the task jumps to [exe], and the
    stack there is that of a C call with exactly the arguments given and a NULL return
    address; it ends at the top of the task's stack, and no other byte has changed. *)
Theorem task_kern_init_correct m t sa sz exe args :
  let n := Z.of_nat (length args) in
  0 ≤ sa → 4 * (n + 2) ≤ sz → sa + sz < W32 → mapped m sa sz → is_u32 exe →
  wp (task_kern_init t sa sz exe args) (λ r m', fst r = E_OK ∧ saddr (snd r) = sa ∧ ssize (snd r) = sz ∧
    ncli (snd r) = 1 ∧ only (sa + sz - 4 * (n + 2)) (4 * (n + 2)) m m' ∧
    wp (hw_ret (c_esp (context (snd r)))) (λ e m2, m2 = m' ∧ fst e = exe ∧ word m' (snd e) 0 ∧
      (∀ i v, args !! i = Some v → word m' (snd e + 4 * (1 + Z.of_nat i)) v) ∧
      snd e + 4 * (1 + n) = sa + sz) m') m.
Proof.
  intros n Hsa Hsz Hw Hm He. unfold task_kern_init. fold n.
  rewrite (add32_small sa sz), mul32_small, sub32_small, sub32_small, sub32_small by lia.
  apply wp_bind. eapply wp_mono; [apply put_args_spec; fold n; [intros x Hx; apply Hm; lia|lia|lia]|].
  intros u m1 [Ho1 Hargs]. fold n in Ho1. after_write Ho1.
  apply wp_bind, wp_wrw; [intros x Hx; apply Hm; lia|lia|lia|]. intros m2 H0 Ho2. after_write Ho2.
  apply wp_bind, wp_wrw; [intros x Hx; apply Hm; lia|lia|lia|]. intros m3 Hx Ho3. after_write Ho3.
  apply wp_ret. cbn [fst snd saddr ssize ncli context set_ncli set_sp set_stack c_esp].
  split_and!; try done.
  - eapply only_seq; [|eapply only_wider; [exact Ho3|lia|lia]].
    eapply only_seq; eapply only_wider; [exact Ho1|lia|lia|exact Ho2|lia|lia].
  - unfold hw_ret. apply wp_bind, (wp_rdw _ _ exe); [done|done|lia|lia|]. apply wp_ret. cbn [fst snd].
    split_and!; [done|done| | |lia].
    + match goal with |- word _ ?a _ => replace a with (sa + sz - 4 * n - 4) by lia end. done.
    + intros i v Hi. pose proof (lookup_lt_Some _ _ _ Hi). specialize (Hargs i v Hi).
      match goal with |- word _ ?a _ => replace a with (sa + sz - 4 * n + 4 * Z.of_nat i) by lia end.
      after_write Ho2. after_write Ho3. done.
Qed.

(** ** A user task *)
Section user.
Context (intr_ret : Z).

(** Where the pieces of a new user task are, and that they do not overlap. *)
Record user_start (m : mem) (ksa kss usa uss arga : Z) (l : list Z) : Prop := {
  us_bytes : all_bytes m;
  us_kern : 0 ≤ ksa ∧ 84 ≤ kss ∧ ksa + kss < W32 ∧ mapped m ksa kss;
  us_user : 0 ≤ usa ∧ Z.of_nat (length l) + 4 ≤ uss ∧ usa + uss < W32 ∧ mapped m usa uss;
  us_args : holds m arga l ∧ 0 ≤ arga ∧ arga + Z.of_nat (length l) < W32 ∧ Z.of_nat (length l) mod 4 = 0;
  us_apart : (usa + uss ≤ ksa ∨ ksa + kss ≤ usa) ∧
    (arga + Z.of_nat (length l) ≤ ksa ∨ ksa + kss ≤ arga) ∧
    (arga + Z.of_nat (length l) ≤ usa ∨ usa + uss ≤ arga);
}.

Lemma intr_user_init_spec m ksa kss usa uss run ubp arga l :
  user_start m ksa kss usa uss arga l → is_u32 run → is_u32 ubp → is_u32 intr_ret →
  let regs := ksa + kss - SZ_REGS in let n := Z.of_nat (length l) in
  wp (intr_user_init intr_ret (ksa + kss) run (usa + uss) ubp arga n) (λ sp m',
    sp = regs - 4 ∧ word m' sp intr_ret ∧ holds m' (usa + uss - n) l ∧
    mapped m' ksa kss ∧
    half m' (regs + R_CS) SEL_UCODE ∧ half m' (regs + R_SS) SEL_UDATA ∧ half m' (regs + R_GS) SEL_UDATA ∧
    half m' (regs + R_FS) SEL_UDATA ∧ half m' (regs + R_ES) SEL_UDATA ∧ half m' (regs + R_DS) SEL_UDATA ∧
    word m' (regs + R_EIP) run ∧ word m' (regs + R_EFLAGS) FL_IF ∧
    word m' (regs + R_ESP) (usa + uss - n - 4) ∧ word m' (regs + R_EBP) ubp) m.
Proof.
  intros [Hb (K1 & K2 & K3 & Hk) (U1 & U2 & U3 & Hu) (Ha & A1 & A2 & A3) (D1 & D2 & D3)] Hrun Hubp Hir regs n.
  subst n. unfold intr_user_init. rewrite A3. unfold SZ_REGS, R_CS, R_SS, R_GS, R_FS, R_ES, R_DS, R_EIP, R_EFLAGS, R_ESP, R_EBP in *.
  eapply wp_step; [done|]. rewrite (sub32_small (ksa + kss)) by lia. fold regs.
  assert (0 ≤ regs ∧ regs = ksa + kss - 76) as [Hr0 Hr] by (unfold regs; lia). clearbody regs.
  rewrite !(add32_small regs), !(sub32_small (usa + uss)), (sub32_small (usa + uss - Z.of_nat (length l))), (sub32_small regs) by lia.
  apply wp_bind, wp_wrh; [intros x Hx; apply Hk; lia|lia|lia|]. intros m1 W1 O1. after_write O1.
  apply wp_bind, wp_wrh; [intros x Hx; apply Hk; lia|lia|lia|]. intros m2 W2 O2. after_write O2.
  apply wp_bind, wp_wrh; [intros x Hx; apply Hk; lia|lia|lia|]. intros m3 W3 O3. after_write O3.
  apply wp_bind, wp_wrh; [intros x Hx; apply Hk; lia|lia|lia|]. intros m4 W4 O4. after_write O4.
  apply wp_bind, wp_wrh; [intros x Hx; apply Hk; lia|lia|lia|]. intros m5 W5 O5. after_write O5.
  apply wp_bind, wp_wrh; [intros x Hx; apply Hk; lia|lia|lia|]. intros m6 W6 O6. after_write O6.
  apply wp_bind, wp_wrw; [intros x Hx; apply Hk; lia|lia|lia|]. intros m7 W7 O7. after_write O7.
  apply wp_bind, wp_wrw; [intros x Hx; apply Hk; lia|lia|lia|]. intros m8 W8 O8. after_write O8.
  apply wp_bind, wp_memcpy; [done|done|intros x Hx; apply Hu; lia|lia|lia|lia|lia|lia|].
  intros u m9 W9 O9. after_write O9.
  apply wp_bind, wp_wrw; [intros x Hx; apply Hk; lia|lia|lia|]. intros m10 W10 O10. after_write O10.
  apply wp_bind, wp_wrw; [intros x Hx; apply Hk; lia|lia|lia|]. intros m11 W11 O11. after_write O11.
  apply wp_bind, wp_wrw; [intros x Hx; apply Hk; lia|lia|lia|]. intros m12 W12 O12. after_write O12.
  apply wp_ret. by split_and!.
Qed.

(** A user task starts in user mode with its arguments: after [task_user_init],
    the [ret] of the first switch to it runs [pre], whose return runs the interrupt
    exit, which leaves kernel mode for [run] in the user code segment with user data
    segments, interrupts on, the frame pointer at the end of the user stack, and under
    the stack pointer a return address slot and then the argument bytes; the kernel
    stack is then empty. *)
Theorem task_user_init_correct m t ksa kss usa uss pre run arga l :
  user_start m ksa kss usa uss arga l → is_u32 pre → is_u32 run → is_u32 intr_ret →
  let n := Z.of_nat (length l) in
  wp (task_user_init intr_ret t ksa kss usa uss pre run arga n) (λ r m',
    fst r = E_OK ∧ saddr (snd r) = ksa ∧ ssize (snd r) = kss ∧ ncli (snd r) = 1 ∧
    wp (p <- hw_ret (c_esp (context (snd r))) ;; q <- hw_ret (snd p) ;; u <- hw_intr_ret (snd q) ;;
        ret (p, q, u)) (λ r m2, m2 = m' ∧ let '(p, q, u) := r in
      fst p = pre ∧ fst q = intr_ret ∧ snd q + SZ_REGS = ksa + kss ∧
      u = UserRegs run SEL_UCODE FL_IF (usa + uss - n - 4) SEL_UDATA (usa + uss)
            [SEL_UDATA; SEL_UDATA; SEL_UDATA; SEL_UDATA] ∧
      holds m' (u_esp u + 4) l) m') m.
Proof.
  intros HU Hpre Hrun Hir n. pose proof HU as [_ (K1 & K2 & K3 & _) (U1 & U2 & U3 & _) _ _].
  assert (is_u32 (usa + uss)) as Hub by (unfold is_u32; lia).
  unfold task_user_init. rewrite !add32_small by lia. apply wp_bind.
  eapply wp_mono; [by apply intr_user_init_spec|].
  intros sp m1 (-> & Wi & Wl & Hk & Wcs & Wss & Wgs & Wfs & Wes & Wds & Wip & Wfl & Wsp & Wbp).
  assert (0 ≤ ksa + kss - SZ_REGS - 8) as Hr by (unfold SZ_REGS; lia).
  assert (ksa + kss - SZ_REGS + 76 = ksa + kss) as Hr2 by (unfold SZ_REGS; lia).
  set (b := ksa + kss - SZ_REGS) in *. clearbody b.
  rewrite sub32_small by lia. apply wp_bind, wp_wrw; [intros x Hx; apply Hk; lia|lia|lia|].
  intros m2 Wp O. subst n.
  destruct HU as [_ _ _ _ (D1 & _ & _)].
  unfold R_CS, R_SS, R_GS, R_FS, R_ES, R_DS, R_EIP, R_EFLAGS, R_ESP, R_EBP in *. after_write O.
  apply wp_ret. cbn [fst snd saddr ssize ncli context set_ncli set_sp set_stack c_esp]. split_and!; try done.
  assert (0 ≤ usa + uss - Z.of_nat (length l) - 4 < W32) as Hesp by lia.
  unfold hw_ret, hw_intr_ret. apply wp_bind, wp_bind, (wp_rdw _ _ pre); [done|done|lia|lia|].
  apply wp_ret. cbn [fst snd]. replace (b - 4 - 4 + 4) with (b - 4) by lia.
  apply wp_bind, wp_bind, (wp_rdw _ _ intr_ret); [done|done|lia|lia|]. apply wp_ret. cbn [fst snd].
  replace (b - 4 + 4) with b by lia. apply wp_bind.
  apply wp_bind, (wp_rdw _ _ _ _ Wbp); [done|lia|lia|].
  do 4 (apply wp_bind; first [apply (wp_rdh _ _ _ _ Wgs)|apply (wp_rdh _ _ _ _ Wfs)|
    apply (wp_rdh _ _ _ _ Wes)|apply (wp_rdh _ _ _ _ Wds)]; [done|lia|lia|]).
  apply wp_bind, (wp_rdw _ _ _ _ Wip); [done|lia|lia|].
  apply wp_bind, (wp_rdh _ _ _ _ Wcs); [done|lia|lia|].
  apply wp_bind, (wp_rdw _ _ _ _ Wfl); [done|lia|lia|].
  apply wp_bind, (wp_rdw _ _ _ _ Wsp); [done|lia|lia|].
  apply wp_bind, (wp_rdh _ _ _ _ Wss); [done|lia|lia|].
  apply wp_ret, wp_ret. cbn [fst snd u_esp]. split_and!; try done.
  by replace (usa + uss - Z.of_nat (length l) - 4 + 4) with (usa + uss - Z.of_nat (length l)) by lia.
Qed.
End user.

Definition ex_task : task_t := Task 0 0 0 (Context_t 0 0 0 0 0).

Lemma task_kern_init_correct_witness :
  let m := ram 0x100 0x300 in
  wp (task_kern_init ex_task 0x100 0x80 0xC0105000 [7; 9]) (λ r m', fst r = E_OK ∧ saddr (snd r) = 0x100 ∧
    ssize (snd r) = 0x80 ∧ ncli (snd r) = 1 ∧ only (0x100 + 0x80 - 4 * (2 + 2)) (4 * (2 + 2)) m m' ∧
    wp (hw_ret (c_esp (context (snd r)))) (λ e m2, m2 = m' ∧ fst e = 0xC0105000 ∧ word m' (snd e) 0 ∧
      (∀ i v, ([7; 9] : list Z) !! i = Some v → word m' (snd e + 4 * (1 + Z.of_nat i)) v) ∧
      snd e + 4 * (1 + 2) = 0x100 + 0x80) m') m.
Proof.
  intros m. apply (task_kern_init_correct m ex_task 0x100 0x80 0xC0105000 [7; 9]).
  - lia.
  - simpl. lia.
  - unfold W32. lia.
  - apply ram_mapped; lia.
  - unfold is_u32, W32. lia.
Defined.

Lemma task_user_init_correct_witness :
  let m := ram 0x100 0x300 in let l := replicate 4 0 in
  wp (task_user_init 0xC0101000 ex_task 0x100 0x80 0x200 0x40 0xC0102000 0x8048000 0x300 4) (λ r m',
    fst r = E_OK ∧ saddr (snd r) = 0x100 ∧ ssize (snd r) = 0x80 ∧ ncli (snd r) = 1 ∧
    wp (p <- hw_ret (c_esp (context (snd r))) ;; q <- hw_ret (snd p) ;; u <- hw_intr_ret (snd q) ;;
        ret (p, q, u)) (λ r m2, m2 = m' ∧ let '(p, q, u) := r in
      fst p = 0xC0102000 ∧ fst q = 0xC0101000 ∧ snd q + SZ_REGS = 0x100 + 0x80 ∧
      u = UserRegs 0x8048000 SEL_UCODE FL_IF (0x200 + 0x40 - 4 - 4) SEL_UDATA (0x200 + 0x40)
            [SEL_UDATA; SEL_UDATA; SEL_UDATA; SEL_UDATA] ∧
      holds m' (u_esp u + 4) l) m') m.
Proof.
  intros m l.
  apply (task_user_init_correct 0xC0101000 m ex_task 0x100 0x80 0x200 0x40 0xC0102000 0x8048000 0x300 l).
  - split.
    + apply ram_bytes.
    + unfold W32. split_and!; try lia. apply ram_mapped; lia.
    + unfold W32. split_and!; try (simpl; lia). apply ram_mapped; lia.
    + unfold W32. split_and!; try (simpl; lia); [apply ram_holds; simpl; lia|done].
    + simpl. lia.
  - unfold is_u32, W32. lia.
  - unfold is_u32, W32. lia.
  - unfold is_u32, W32. lia.
Defined.
