(* ===== verification/Cpu.v ===== *)
(** * Processors and the interrupt flag: arch/x86/src/mp/cpu.c and intr.c

    The table of processors, which one is executing (its local APIC id), the task it
    runs, and the nesting of sections with interrupts off, counted per task. The state
    is what the executing processor sees; [tasks] are the [struct task_t] by address. *)
From S2P Require Import Prelude Cstring Words Desc Task.

Definition NR_CPU_MAX : nat := 8.

(** [struct cpu_t]: the fields of the task state segment the code writes; the
    descriptor table is in Desc. *)
Record cpu_t := Cpu { cpuid : Z; apicid : Z; task : Z; ss0 : Z; esp0 : Z; iomb : Z }.
Record machine := Mach {
  cpus : list cpu_t; ncpu : Z; tasks : gmap Z task_t; IF : bool; lapicid : Z }.

Section code.
Abbreviation M := (Prelude.M machine).
Implicit Types s : machine.

Definition set_cpus x s := Mach x (ncpu s) (tasks s) (IF s) (lapicid s).
Definition set_ncpu x s := Mach (cpus s) x (tasks s) (IF s) (lapicid s).
Definition set_tasks x s := Mach (cpus s) (ncpu s) x (IF s) (lapicid s).
Definition set_IF x s := Mach (cpus s) (ncpu s) (tasks s) x (lapicid s).

Definition cpu_at (i : Z) : M cpu_t :=
  s <- get ;; if (0 <=? i) then deref (cpus s !! Z.to_nat i) else fault.
Definition upd_cpu (i : Z) (f : cpu_t → cpu_t) : M unit :=
  c <- cpu_at i ;; modify (λ s, set_cpus (<[Z.to_nat i := f c]> (cpus s)) s).
Definition task_at (t : Z) : M task_t := s <- get ;; deref (tasks s !! t).
Definition upd_task (t : Z) (f : task_t → task_t) : M unit :=
  x <- task_at t ;; modify (λ s, set_tasks (<[t := f x]> (tasks s)) s).

(** The functions return the error code and the index of the entry. *)
Definition cpu_new : M (Z * option Z) :=
  s <- get ;;
  if Z.of_nat NR_CPU_MAX <=? ncpu s then ret (E_NOSLOT, None) else
  upd_cpu (ncpu s) (λ c, Cpu (ncpu s) (apicid c) (task c) (ss0 c) (esp0 c) (iomb c)) ;;;
  modify (set_ncpu (add32 (ncpu s) 1)) ;;;
  ret (E_OK, Some (ncpu s)).

Definition cpu_get (id : Z) : M (Z * option Z) :=
  s <- get ;; if ncpu s <=? id then ret (E_NOTFOUND, None) else ret (E_OK, Some id).

(** [cli], [sti] and the flag itself. *)
Definition intr_irq_state : M bool := gets IF.
Definition intr_irq_enable : M unit := modify (set_IF true).
Definition intr_irq_disable : M unit := modify (set_IF false).
(** [lapic[ID] >> 24] of the executing processor. *)
Definition lapic_id : M Z := gets lapicid.

(** A processor that is not in the table falls off the end of the function. *)
Definition cpu_id : M Z :=
  i <- intr_irq_state ;; assert_ (negb i) ;;;
  lapicid <- lapic_id ;;
  s <- get ;;
  loop (S (Z.to_nat (ncpu s))) (λ cpuid,
    if cpuid <? ncpu s then
      c <- cpu_at cpuid ;;
      if lapicid =? apicid c then ret (inr cpuid) else ret (inl (add32 cpuid 1))
    else fault) 0.

Definition cpu_get_task (cpuid : Z) : M Z := c <- cpu_at cpuid ;; ret (task c).

Definition cpu_set_task (cpuid t : Z) : M unit :=
  upd_cpu cpuid (λ c, Cpu (Cpu.cpuid c) (apicid c) t (ss0 c) (esp0 c) (iomb c)) ;;;
  upd_cpu cpuid (λ c, Cpu (Cpu.cpuid c) (apicid c) (task c) SEL_KDATA (esp0 c) (iomb c)) ;;;
  x <- task_at t ;;
  upd_cpu cpuid (λ c, Cpu (Cpu.cpuid c) (apicid c) (task c) (ss0 c) (add32 (saddr x) (ssize x)) (iomb c)) ;;;
  upd_cpu cpuid (λ c, Cpu (Cpu.cpuid c) (apicid c) (task c) (ss0 c) (esp0 c) 0xffff).

(** [cpu_get_task(cpu_id())] *)
Definition now_task : M Z := i <- cpu_id ;; cpu_get_task i.

Definition intr_irq_save : M unit :=
  intr_irq_disable ;;;
  t <- now_task ;; upd_task t (λ x, set_ncli (add32 (ncli x) 1) x).

Definition intr_irq_restore : M unit :=
  t <- now_task ;; x <- task_at t ;; assert_ (0 <? ncli x) ;;;
  t <- now_task ;; upd_task t (λ x, set_ncli (sub32 (ncli x) 1) x) ;;;
  t <- now_task ;; x <- task_at t ;;
  if ncli x =? 0 then intr_irq_enable else ret tt.

Definition cpu_now : M Z :=
  intr_irq_save ;;; i <- cpu_id ;; intr_irq_restore ;;; ret i.
End code.

(** ** Who is executing *)

(** The executing processor is entry [i], and it runs task [t]. *)
Record here (s : machine) (i : nat) (t : Z) : Prop := {
  h_cpu : ∃ c, cpus s !! i = Some c ∧ apicid c = lapicid s ∧ task c = t;
  h_first : ∀ j c, (j < i)%nat → cpus s !! j = Some c → apicid c ≠ lapicid s;
  h_in : Z.of_nat i < ncpu s < W32 ∧ (Z.to_nat (ncpu s) ≤ length (cpus s))%nat;
  h_task : is_Some (tasks s !! t);
}.
Definition ncli_of s (t : Z) : Z := default 0 (ncli <$> tasks s !! t).
Definition with_ncli (t n : Z) (b : bool) s : machine :=
  set_IF b (set_tasks (alter (set_ncli n) t (tasks s)) s).

Lemma run_cpu_id s i t : here s i t → IF s = false → cpu_id s = Ret (Z.of_nat i) s.
Proof.
  intros [(c & Hc & Ha & _) Hf [Hi Hlen] _] HI. unfold cpu_id, intr_irq_state, lapic_id, gets, bind, get.
  rewrite HI. cbn [negb assert_ ret].
  assert (∀ k f, (k ≤ i)%nat → (i - k < f)%nat → loop f (λ cpuid,
    if cpuid <? ncpu s then c <- cpu_at cpuid ;;
      if lapicid s =? apicid c then ret (inr cpuid) else ret (inl (add32 cpuid 1))
    else fault) (Z.of_nat k) s = Ret (Z.of_nat i) s) as H; [|by apply (H 0%nat); lia].
  intros k f. revert k. induction f as [|f IH]; intros k Hk Hlt; [lia|]. cbn [loop].
  unfold bind at 1. replace (Z.of_nat k <? ncpu s) with true by lia.
  unfold cpu_at, bind, get. replace (0 <=? Z.of_nat k) with true by lia. rewrite Nat2Z.id.
  destruct (lookup_lt_is_Some_2 (cpus s) k) as [d Hd]; [lia|]. rewrite Hd. cbn [deref ret].
  destruct (decide (k = i)) as [->|Hne].
  - simplify_eq. rewrite Ha, Z.eqb_refl. done.
  - assert (apicid d ≠ lapicid s) by (apply (Hf k); [lia|done]).
    replace (lapicid s =? apicid d) with false by lia. cbn [ret].
    rewrite add32_small by lia. replace (Z.of_nat k + 1) with (Z.of_nat (S k)) by lia. apply IH; lia.
Qed.

Lemma run_now_task s i t : here s i t → IF s = false → now_task s = Ret t s.
Proof.
  intros Hh HI. unfold now_task, bind. rewrite (run_cpu_id s i t) by done.
  destruct Hh as [(c & Hc & _ & Ht) _ _ _]. unfold cpu_get_task, cpu_at, bind, get.
  rewrite (proj2 (Z.leb_le 0 (Z.of_nat i)) (Nat2Z.is_nonneg i)), Nat2Z.id, Hc. cbn [deref ret]. by rewrite Ht.
Qed.

Lemma here_ncli s i t n b : here s i t → here (with_ncli t n b s) i t.
Proof.
  intros [H1 H2 H3 [x Hx]]. split; [done..|]. simpl. rewrite lookup_alter_eq, Hx. by eexists.
Qed.

Lemma run_upd_ncli s t x f : tasks s !! t = Some x →
  upd_task t (λ x, set_ncli (f (ncli x)) x) s = Ret tt (with_ncli t (f (ncli x)) (IF s) s).
Proof.
  intros Hx. unfold upd_task, task_at, bind, get. rewrite Hx. cbn [deref ret]. unfold modify, with_ncli, set_tasks, set_IF.
  simpl. do 2 f_equal. apply map_eq. intros q. destruct (decide (q = t)) as [->|Hq].
  - by rewrite lookup_insert_eq, lookup_alter_eq, Hx.
  - by rewrite lookup_insert_ne, lookup_alter_ne.
Qed.

Lemma run_irq_save s i t x : here s i t → tasks s !! t = Some x → is_u32 (ncli x + 1) →
  intr_irq_save s = Ret tt (with_ncli t (ncli x + 1) false s).
Proof.
  intros Hh Hx Hn. unfold intr_irq_save, intr_irq_disable, modify, bind at 1.
  assert (here (set_IF false s) i t) as Hh' by (destruct Hh; by split).
  unfold bind. rewrite (run_now_task _ i t Hh') by done.
  rewrite (run_upd_ncli (set_IF false s) t x (λ n, add32 n 1)) by done.
  unfold add32. by rewrite u32_small.
Qed.

Lemma with_ncli_twice t n m b c s : with_ncli t n b (with_ncli t m c s) = with_ncli t n b s.
Proof.
  unfold with_ncli, set_tasks, set_IF. simpl. f_equal. apply map_eq. intros q. destruct (decide (q = t)) as [->|Hq].
  - rewrite !lookup_alter_eq. by destruct (tasks s !! t).
  - by rewrite !lookup_alter_ne.
Qed.
Lemma with_ncli_same s i t x : here s i t → tasks s !! t = Some x → with_ncli t (ncli x) (IF s) s = s.
Proof.
  intros Hh Hx. destruct s. unfold with_ncli, set_tasks, set_IF. simpl in *. f_equal.
  apply map_eq. intros q. destruct (decide (q = t)) as [->|Hq].
  - rewrite lookup_alter_eq, Hx. by destruct x.
  - by rewrite lookup_alter_ne.
Qed.

Lemma run_irq_restore s i t x : here s i t → tasks s !! t = Some x → 0 < ncli x < W32 → IF s = false →
  intr_irq_restore s = Ret tt (with_ncli t (ncli x - 1) (ncli x =? 1) s).
Proof.
  intros Hh Hx Hn HI. unfold intr_irq_restore, bind. rewrite (run_now_task _ i t Hh HI).
  unfold task_at at 1, bind, get. rewrite Hx. cbn [deref ret]. replace (0 <? ncli x) with true by lia.
  cbn [assert_ ret]. rewrite (run_now_task _ i t Hh HI).
  rewrite (run_upd_ncli s t x (λ n, sub32 n 1)) by done. rewrite sub32_small by lia. rewrite HI.
  rewrite (run_now_task _ i t) by (done || by apply here_ncli). unfold task_at, bind, get.
  simpl. rewrite lookup_alter_eq, Hx. cbn [fmap option_fmap option_map deref ret].
  cbn [set_ncli ncli]. destruct (Z.eqb_spec (ncli x) 1) as [E|E].
  - replace (ncli x - 1 =? 0) with true by lia. done.
  - replace (ncli x - 1 =? 0) with false by lia. done.
Qed.

(** ** Nested sections *)
Inductive irq := Save | Restore.
Fixpoint irq_run (l : list irq) : Prelude.M machine unit :=
  match l with
  | [] => ret tt
  | Save :: l => intr_irq_save ;;; irq_run l
  | Restore :: l => intr_irq_restore ;;; irq_run l
  end.
(** The sections open after [l] when [n] were before; [None]: one too many was closed. *)
Fixpoint depth (n : Z) (l : list irq) : option Z :=
  match l with
  | [] => Some n
  | Save :: l => depth (n + 1) l
  | Restore :: l => if n =? 0 then None else depth (n - 1) l
  end.

(** Sections with interrupts off nest: from a state where interrupts are on exactly
    when the running task has no section open, any sequence of [intr_irq_save] and
    [intr_irq_restore] that never closes more sections than are open returns, the count
    is the number of open sections, and interrupts are on exactly when there is none.
    So a matched sequence leaves the state as it was, however deep it went. *)
Theorem irq_nesting s i t x l d :
  here s i t → tasks s !! t = Some x → 0 ≤ ncli x → IF s = (ncli x =? 0) →
  ncli x + Z.of_nat (length l) < W32 → depth (ncli x) l = Some d →
  irq_run l s = Ret tt (with_ncli t d (d =? 0) s) ∧ (d = ncli x → irq_run l s = Ret tt s).
Proof.
  intros Hh Hx Hn HI Hw Hd.
  assert (irq_run l s = Ret tt (with_ncli t d (d =? 0) s)) as Hr; [|split; [done|]].
  - revert s x Hh Hx Hn HI Hw Hd. induction l as [|[] l IH]; intros s x Hh Hx Hn HI Hw Hd; cbn [irq_run depth length] in *.
    + simplify_eq. rewrite <- HI. by rewrite (with_ncli_same s i t x).
    + unfold bind. rewrite (run_irq_save s i t x) by (done || unfold is_u32; lia).
      assert (tasks (with_ncli t (ncli x + 1) false s) !! t = Some (set_ncli (ncli x + 1) x)) as Hx'
        by (simpl; by rewrite lookup_alter_eq, Hx).
      rewrite (IH _ (set_ncli (ncli x + 1) x)); [by rewrite with_ncli_twice|by apply here_ncli|done|..]; cbn [set_ncli ncli with_ncli IF set_IF]; try lia.
      done.
    + destruct (Z.eqb_spec (ncli x) 0) as [E|E]; [done|].
      unfold bind. rewrite (run_irq_restore s i t x) by (done || lia).
      assert (tasks (with_ncli t (ncli x - 1) (ncli x =? 1) s) !! t = Some (set_ncli (ncli x - 1) x)) as Hx'
        by (simpl; by rewrite lookup_alter_eq, Hx).
      rewrite (IH _ (set_ncli (ncli x - 1) x)); [by rewrite with_ncli_twice|by apply here_ncli|done|..]; cbn [set_ncli ncli with_ncli IF set_IF]; try lia.
      done.
  - intros ->. rewrite Hr, <- HI. by rewrite (with_ncli_same s i t x).
Qed.

(** [cpu_now] names the executing processor and leaves everything as it was, in a
    section or out of one. *)
Lemma cpu_now_spec s i t x : here s i t → tasks s !! t = Some x → 0 ≤ ncli x → ncli x + 1 < W32 →
  IF s = (ncli x =? 0) → cpu_now s = Ret (Z.of_nat i) s.
Proof.
  intros Hh Hx Hn Hw HI. unfold cpu_now, bind. rewrite (run_irq_save s i t x) by (done || unfold is_u32; lia).
  rewrite (run_cpu_id _ i t) by (done || by apply here_ncli).
  assert (tasks (with_ncli t (ncli x + 1) false s) !! t = Some (set_ncli (ncli x + 1) x)) as Hx'
    by (simpl; by rewrite lookup_alter_eq, Hx).
  rewrite (run_irq_restore _ i t (set_ncli (ncli x + 1) x)); [|by apply here_ncli|done|simpl; lia|done].
  cbn [set_ncli ncli]. rewrite with_ncli_twice. replace (ncli x + 1 - 1) with (ncli x) by lia.
  replace (ncli x + 1 =? 1) with (IF s) by (rewrite HI; lia). by rewrite (with_ncli_same s i t x).
Qed.

(** The table hands out its entries in order, each with its index as number, and
    refuses when it is full. *)
Lemma cpu_new_spec s : length (cpus s) = NR_CPU_MAX → 0 ≤ ncpu s ≤ Z.of_nat NR_CPU_MAX →
  wp cpu_new (λ r s', match snd r with
    | None => r = (E_NOSLOT, None) ∧ s' = s ∧ ncpu s = Z.of_nat NR_CPU_MAX
    | Some i => fst r = E_OK ∧ i = ncpu s ∧ ncpu s' = i + 1 ∧
        cpuid <$> cpus s' !! Z.to_nat i = Some i ∧ ∀ j, j ≠ Z.to_nat i → cpus s' !! j = cpus s !! j
    end) s.
Proof.
  intros Hl Hn. unfold cpu_new. eapply wp_step; [done|]. destruct (Z.leb_spec (Z.of_nat NR_CPU_MAX) (ncpu s)) as [H|H].
  - apply wp_ret. cbn [snd]. split_and!; [done|done|lia].
  - destruct (lookup_lt_is_Some_2 (cpus s) (Z.to_nat (ncpu s))) as [c Hc]; [lia|].
    unfold upd_cpu, cpu_at. apply wp_bind, wp_bind, wp_bind. apply wp_get. replace (0 <=? ncpu s) with true by lia.
    apply wp_deref. exists c. split; [done|]. apply wp_modify. apply wp_bind, wp_modify, wp_ret. cbn [snd fst].
    split_and!; try done.
    + simpl. apply add32_small. unfold W32, NR_CPU_MAX in *. lia.
    + simpl. rewrite list_lookup_insert_eq; [done|]. by eapply lookup_lt_Some.
    + intros j Hj. simpl. by rewrite list_lookup_insert_ne.
Qed.

(** Two processors in the table; the second one executes task 0x5000, in no section. *)
Definition ex_mach : machine := Mach
  [Cpu 0 0x10 0x4000 0 0 0; Cpu 1 0x11 0x5000 0 0 0] 2
  (<[0x5000 := Task 0x9000 0x1000 0 (Context_t 0 0 0 0 0)]> ∅) true 0x11.

Lemma ex_mach_here : here ex_mach 1 0x5000.
Proof.
  split.
  - by eexists.
  - intros [|j] c Hj Hc; [|lia]. injection Hc as <-. unfold ex_mach. simpl. lia.
  - done.
  - by eexists.
Qed.

Lemma irq_nesting_witness :
  let l := [Save; Save; Restore; Save; Restore; Restore] in irq_run l ex_mach = Ret tt ex_mach.
Proof.
  intros l. refine (proj2 (irq_nesting ex_mach 1 0x5000 (Task 0x9000 0x1000 0 (Context_t 0 0 0 0 0)) l 0 _ _ _ _ _ _) _).
  - apply ex_mach_here.
  - reflexivity.
  - simpl. lia.
  - reflexivity.
  - simpl. unfold W32. lia.
  - reflexivity.
  - reflexivity.
Defined.
