(* ===== verification/Apic.v ===== *)
(** * Interrupt controllers: arch/x86/src/intr/ioapic.c and lapic.c

    The I/O APIC is a register file behind an index and a data window; the local APIC
    a register file whose command register sends interrupts to other processors. Port
    writes are the sequence of what was written where. *)
From S2P Require Import Prelude Cstring Words Machine.

(** ** The I/O APIC *)
Definition REG_ID : Z := 0x00.
Definition REG_VER : Z := 0x01.
Definition REG_TABLE : Z := 0x10.
Definition INT_DISABLED : Z := 0x00010000.

(** The index register and the registers it selects. *)
Record ioapic_t := IoApic { io_reg : Z; io_regs : gmap Z Z }.
Definition io_of (s : ioapic_t) (r : Z) : Z := default 0 (io_regs s !! r).

Definition ioapicread (reg : Z) : M ioapic_t Z :=
  modify (λ s, IoApic reg (io_regs s)) ;;; gets (λ s, io_of s (io_reg s)).
Definition ioapicwrite (reg data : Z) : M ioapic_t unit :=
  modify (λ s, IoApic reg (io_regs s)) ;;;
  modify (λ s, IoApic (io_reg s) (<[io_reg s := data]> (io_regs s))).

Definition init_body (maxintr i : Z) : M ioapic_t (Z + unit) :=
  if i <=? maxintr then
    ioapicwrite (REG_TABLE + 2 * i) (Z.lor INT_DISABLED (32 + i)) ;;;
    ioapicwrite (REG_TABLE + 2 * i + 1) 0 ;;;
    ret (inl (i + 1))
  else ret (inr tt).

Definition ioapic_init : M ioapic_t Z :=
  v <- ioapicread REG_VER ;;
  let maxintr := Z.land (Z.shiftr v 16) 0xFF in
  _ <- ioapicread REG_ID ;;
  loop (S (S (Z.to_nat maxintr))) (init_body maxintr) 0 ;;;
  ret 0.

Definition ioapic_enable (irq cpunum : Z) : M ioapic_t Z :=
  ioapicwrite (REG_TABLE + 2 * irq) (32 + irq) ;;;
  ioapicwrite (REG_TABLE + 2 * irq + 1) (u32 (Z.shiftl cpunum 24)) ;;;
  ret 0.

(** The redirection of a line: masked or not, the vector, the processor. *)
Definition line_masked s (i : Z) : bool := negb (Z.land (io_of s (REG_TABLE + 2 * i)) INT_DISABLED =? 0).
Definition line_vector s (i : Z) : Z := Z.land (io_of s (REG_TABLE + 2 * i)) 0xFF.
Definition line_cpu s (i : Z) : Z := Z.shiftr (io_of s (REG_TABLE + 2 * i + 1)) 24.

Lemma io_of_insert r regs i v j :
  io_of (IoApic r (<[i := v]> regs)) j = if decide (j = i) then v else default 0 (regs !! j).
Proof.
  unfold io_of. simpl. case_decide as H; [subst; by rewrite lookup_insert_eq|].
  by rewrite lookup_insert_ne by congruence.
Qed.

Lemma run_ioapicwrite r v s : ioapicwrite r v s = Ret tt (IoApic r (<[r := v]> (io_regs s))).
Proof. done. Qed.

Lemma ioapic_init_spec s : let n := Z.land (Z.shiftr (io_of s REG_VER) 16) 0xFF in
  wp ioapic_init (λ r s', r = 0 ∧ (∀ i, 0 ≤ i ≤ n →
      io_of s' (REG_TABLE + 2 * i) = Z.lor INT_DISABLED (32 + i) ∧ io_of s' (REG_TABLE + 2 * i + 1) = 0) ∧
    ∀ j, j < REG_TABLE ∨ REG_TABLE + 2 * n + 1 < j → io_of s' j = io_of s j) s.
Proof.
  intros n. unfold ioapic_init. eapply wp_step; [done|]. cbv zeta. cbn [io_reg].
  change (io_of (IoApic REG_VER (io_regs s)) REG_VER) with (io_of s REG_VER). fold n.
  eapply wp_step; [done|]. cbn [io_regs]. assert (0 ≤ n) as Hn by (unfold n; apply Z.land_nonneg; right; lia).
  apply wp_bind. eapply wp_mono.
  { apply (wp_loop (λ k i s', k = Z.to_nat (n + 1 - i) ∧ 0 ≤ i ≤ n + 1 ∧
      (∀ j, 0 ≤ j < i → io_of s' (REG_TABLE + 2 * j) = Z.lor INT_DISABLED (32 + j) ∧ io_of s' (REG_TABLE + 2 * j + 1) = 0) ∧
      ∀ j, j < REG_TABLE ∨ REG_TABLE + 2 * n + 1 < j → io_of s' j = io_of s j)
      (λ _ s', (∀ j, 0 ≤ j < n + 1 → io_of s' (REG_TABLE + 2 * j) = Z.lor INT_DISABLED (32 + j) ∧
         io_of s' (REG_TABLE + 2 * j + 1) = 0) ∧
      ∀ j, j < REG_TABLE ∨ REG_TABLE + 2 * n + 1 < j → io_of s' j = io_of s j)) with (n := Z.to_nat (n + 1)).
    - intros k i s' (-> & Hi & H1 & H2). unfold init_body. destruct (Z.leb_spec i n) as [H|H].
      + eapply wp_step; [apply run_ioapicwrite|]. eapply wp_step; [apply run_ioapicwrite|]. apply wp_ret.
        exists (Z.to_nat (n + 1 - (i + 1))). split; [lia|]. split; [done|]. split; [lia|]. cbn [io_regs]. split.
        * intros j Hj. rewrite !io_of_insert. unfold REG_TABLE in *.
          destruct (decide (j = i)) as [->|Hne].
          -- rewrite (decide_False (P := 16 + 2 * i = 16 + 2 * i + 1)) by lia. rewrite lookup_insert_eq.
             by rewrite decide_True.
          -- destruct (H1 j) as [E1 E2]; [lia|]. rewrite !decide_False by lia. rewrite !lookup_insert_ne by lia. done.
        * intros j Hj. rewrite io_of_insert. unfold REG_TABLE in *. rewrite decide_False by lia.
          rewrite lookup_insert_ne by lia. by apply H2.
      + apply wp_ret. split; [|done]. intros j Hj. apply H1. lia.
    - lia.
    - split; [f_equal; lia|]. split; [lia|]. split; [intros j Hj; lia|done]. }
  intros u s' [H1 H2]. apply wp_ret. split; [done|]. split; [|done]. intros i Hi. apply H1. lia.
Qed.

(** After [ioapic_init] every line of the controller is masked and stands for
    vector 32 + its number; [ioapic_enable] then unmasks exactly the one line, edge
    triggered, with that vector, to the processor named, and leaves every other line
    as it is. *)
Theorem ioapic_correct s irq cpunum :
  let n := Z.land (Z.shiftr (io_of s REG_VER) 16) 0xFF in
  n ≤ 0xDF → 0 ≤ irq ≤ n → 0 ≤ cpunum < 256 →
  wp (ioapic_init ;;; ioapic_enable irq cpunum) (λ r s', r = 0 ∧
    ∀ i, 0 ≤ i ≤ n → line_vector s' i = 32 + i ∧ line_masked s' i = negb (i =? irq) ∧
      line_cpu s' i = if i =? irq then cpunum else 0) s.
Proof.
  intros n Hn Hirq Hc. apply wp_bind. eapply wp_mono; [apply ioapic_init_spec|]. fold n.
  intros r s1 (_ & H1 & _). unfold ioapic_enable.
  eapply wp_step; [apply run_ioapicwrite|]. eapply wp_step; [apply run_ioapicwrite|]. apply wp_ret.
  split; [done|]. intros i Hi. destruct (H1 i Hi) as [E1 E2].
  unfold line_vector, line_masked, line_cpu. cbn [io_regs]. rewrite !io_of_insert. unfold REG_TABLE in *.
  destruct (Z.eqb_spec i irq) as [->|Hne].
  - rewrite (decide_False (P := 16 + 2 * irq = 16 + 2 * irq + 1)), (decide_True (P := 16 + 2 * irq + 1 = _)) by lia.
    rewrite lookup_insert_eq. change (default 0 (Some (32 + irq))) with (32 + irq). split_and!.
    + change 0xFF with (Z.ones 8). rewrite Z.land_ones by lia. apply Z.mod_small. lia.
    + rewrite Z.land_comm. change INT_DISABLED with (2 ^ 16).
      rewrite (land_low_zero (2 ^ 16) (32 + irq) 16); [done|lia|done|lia].
    + rewrite u32_small; [|unfold is_u32, W32; rewrite Z.shiftl_mul_pow2; lia].
      by rewrite Z.shiftr_shiftl_l, Z.shiftl_0_r by lia.
  - rewrite !decide_False by lia. rewrite !lookup_insert_ne by lia.
    unfold io_of in E1, E2. rewrite E1, E2. split_and!; [| |done].
    + change 0xFF with (Z.ones 8). rewrite Z.land_ones by lia.
      rewrite (lor_add INT_DISABLED (32 + i) 16) by (done || lia). unfold INT_DISABLED.
      replace (0x10000 + (32 + i)) with (32 + i + 256 * 2 ^ 8) by lia. rewrite Z.mod_add by lia.
      apply Z.mod_small. lia.
    + rewrite Z.land_comm, Z.land_lor_distr_r, Z.land_diag.
      destruct (Z.eqb_spec (Z.lor INT_DISABLED (Z.land INT_DISABLED (32 + i))) 0) as [E|_]; [|done].
      apply Z.lor_eq_0_iff in E as [E _]. done.
Qed.

Lemma ioapic_correct_witness :
  let s := IoApic 0 (<[REG_VER := 0x170011]> ∅) in
  wp (ioapic_init ;;; ioapic_enable 4 0) (λ r s', r = 0 ∧
    ∀ i, 0 ≤ i ≤ 0x17 → line_vector s' i = 32 + i ∧ line_masked s' i = negb (i =? 4) ∧
      line_cpu s' i = if i =? 4 then 0 else 0) s.
Proof.
  intros s. apply (ioapic_correct s 4 0).
  - vm_compute. discriminate.
  - vm_compute. split; discriminate.
  - lia.
Defined.
