(* ===== verification/Lapic.v ===== *)
(** * The local interrupt controller: arch/x86/src/intr/lapic.c

    A register file; a write to the low half of the command register sends the command
    to the processor its high half names. [busy] is how often the delivery status is
    still seen pending. [lapic_id] is in Cpu, as the number of the executing processor. *)
From S2P Require Import Prelude Cstring Words.

Definition LID : Z := 0x0020 / 4.
Definition VER : Z := 0x0030 / 4.
Definition TPR : Z := 0x0080 / 4.
Definition EOI : Z := 0x00B0 / 4.
Definition SVR : Z := 0x00F0 / 4.
Definition ENABLE : Z := 0x00000100.
Definition ESR : Z := 0x0280 / 4.
Definition ICRLO : Z := 0x0300 / 4.
Definition INIT : Z := 0x00000500.
Definition STARTUP : Z := 0x00000600.
Definition DELIVS : Z := 0x00001000.
Definition ASSERT : Z := 0x00004000.
Definition LEVEL : Z := 0x00008000.
Definition BCAST : Z := 0x00080000.
Definition ICRHI : Z := 0x0310 / 4.
Definition TIMER : Z := 0x0320 / 4.
Definition X1 : Z := 0x0000000B.
Definition PERIODIC : Z := 0x00020000.
Definition PCINT : Z := 0x0340 / 4.
Definition LINT0 : Z := 0x0350 / 4.
Definition LINT1 : Z := 0x0360 / 4.
Definition LERROR : Z := 0x0370 / 4.
Definition MASKED : Z := 0x00010000.
Definition TICR : Z := 0x0380 / 4.
Definition TDCR : Z := 0x03E0 / 4.
Definition CMOS_PORT : Z := 0x70.
Definition IO_PIC1 : Z := 0x20.
Definition IO_PIC2 : Z := 0xA0.
(** arch/x86/src/include/intr.h *)
Definition IRQ_BASE : Z := 32.
Definition IRQ_TIMER : Z := IRQ_BASE + 0.
Definition IRQ_ERROR : Z := IRQ_BASE + 19.
Definition IRQ_MAX : Z := IRQ_BASE + 31.
Definition LKERN_BASE : Z := 0xC0000000.

Record lapic_t := LApic {
  lregs : gmap Z Z; busy : nat; sent : list (Z * Z); ports : list (Z * Z); lmem : mem }.

Section code.
Abbreviation M := (Prelude.M lapic_t).
Implicit Types s : lapic_t.

Definition reg_of s (i : Z) : Z := default 0 (lregs s !! i).
Definition rd_reg (i : Z) : M Z := gets (λ s, reg_of s i).
Definition lapicw (index value : Z) : M unit :=
  modify (λ s, LApic (<[index := value]> (lregs s)) (busy s)
    (if index =? ICRLO then sent s ++ [(reg_of s ICRHI, value)] else sent s) (ports s) (lmem s)) ;;;
  _ <- rd_reg LID ;; ret tt.
Definition outb (v port : Z) : M unit :=
  modify (λ s, LApic (lregs s) (busy s) (sent s) (ports s ++ [(port, v)]) (lmem s)).
Definition on_lmem {B} (m : Prelude.M mem B) : M B :=
  zoom lmem (λ m s, LApic (lregs s) (busy s) (sent s) (ports s) m) m.

Definition lapic_eoi : M unit := lapicw EOI 0.

(** The test of the delivery status: pending [busy] times. *)
Definition delivs : M bool := s <- get ;;
  match busy s with
  | O => ret false
  | S n => put (LApic (lregs s) n (sent s) (ports s) (lmem s)) ;;; ret true
  end.

Definition disable_pic : M Z := outb 0xFF (IO_PIC1 + 1) ;;; outb 0xFF (IO_PIC2 + 1) ;;; ret E_OK.

(** The warm reset vector, the INIT commands and the two STARTUP commands. *)
Definition lapic_startap (apicid addr : Z) : M unit :=
  outb 0xF CMOS_PORT ;;;
  outb 0x0A (CMOS_PORT + 1) ;;;
  let wrv := Z.lor (Z.shiftl 0x40 4) 0x67 + LKERN_BASE in
  on_lmem (wrh wrv 0) ;;;
  on_lmem (wrh (wrv + 2) (Z.shiftr addr 4)) ;;;
  lapicw ICRHI (u32 (Z.shiftl apicid 24)) ;;;
  lapicw ICRLO (Z.lor (Z.lor INIT LEVEL) ASSERT) ;;;
  lapicw ICRLO (Z.lor INIT LEVEL) ;;;
  loop 3 (λ i, if i <? 2 then
      lapicw ICRHI (u32 (Z.shiftl apicid 24)) ;;;
      lapicw ICRLO (Z.lor STARTUP (Z.shiftr addr 12)) ;;;
      ret (inl (i + 1))
    else ret (inr tt)) 0.

(** The address [mp_init] found for the registers; 0 when it found none. *)
Context (lapic : Z).

Definition lapic_init : M Z :=
  if lapic =? 0 then ret E_FAULT else
  lapicw SVR (Z.lor ENABLE IRQ_MAX) ;;;
  lapicw TDCR X1 ;;;
  lapicw TIMER (Z.lor PERIODIC IRQ_TIMER) ;;;
  lapicw TICR 10000000 ;;;
  lapicw LINT0 MASKED ;;;
  lapicw LINT1 MASKED ;;;
  v <- rd_reg VER ;;
  (if 4 <=? Z.land (Z.shiftr v 16) 0xFF then lapicw PCINT MASKED else ret tt) ;;;
  lapicw LERROR IRQ_ERROR ;;;
  lapicw ESR 0 ;;;
  lapicw ESR 0 ;;;
  lapicw EOI 0 ;;;
  lapicw ICRHI 0 ;;;
  lapicw ICRLO (Z.lor (Z.lor BCAST INIT) LEVEL) ;;;
  s <- get ;;
  loop (S (busy s)) (λ _, d <- delivs ;; if d : bool then ret (inl tt) else ret (inr tt)) tt ;;;
  lapicw TPR 0 ;;;
  _ <- disable_pic ;;
  ret E_OK.
End code.

Lemma run_lapicw i v r b c p m : (i =? ICRLO) = false →
  lapicw i v (LApic r b c p m) = Ret tt (LApic (<[i := v]> r) b c p m).
Proof. intros Hi. unfold lapicw, modify, bind, rd_reg, gets. simpl. by rewrite Hi. Qed.
Lemma run_command v r b c p m hi : r !! ICRHI = Some hi →
  lapicw ICRLO v (LApic r b c p m) = Ret tt (LApic (<[ICRLO := v]> r) b (c ++ [(hi, v)]) p m).
Proof.
  intros Hi. unfold lapicw, modify, bind, rd_reg, gets, reg_of. cbn [lregs busy sent ports lmem].
  by rewrite Hi, Z.eqb_refl.
Qed.
Ltac lapic_step := eapply wp_step;
  [first [apply run_lapicw; reflexivity|apply run_command, lookup_insert_eq
    |apply run_command; rewrite lookup_insert_ne by (vm_compute; discriminate); apply lookup_insert_eq]|].

Ltac read_regs := unfold reg_of; cbn [lregs sent ports];
  repeat first [rewrite lookup_insert_eq|rewrite lookup_insert_ne by (vm_compute; discriminate)];
  cbv [default from_option id].

Lemma drain_spec n : ∀ s, busy s = n →
  loop (S n) (λ _ : unit, d <- delivs ;; if d : bool then ret (inl tt) else ret (inr tt)) tt s =
    Ret tt (LApic (lregs s) 0 (sent s) (ports s) (lmem s)).
Proof.
  induction n as [|n IH]; intros [r b c p m] Hb; simpl in Hb; subst b; [done|].
  change (loop (S n) (λ _ : unit, d <- delivs ;; if d : bool then ret (inl tt) else ret (inr tt)) tt
    (LApic r n c p m) = Ret tt (LApic r 0 c p m)). by rewrite IH.
Qed.

(** [lapic_init] ends once the delivery status clears; the controller is then enabled
    with the spurious vector, its timer periodic on vector 32, the local lines masked,
    every priority accepted, and both old controllers fully masked. *)
Lemma lapic_init_spec lapic s : lapic ≠ 0 →
  wp (lapic_init lapic) (λ err s', err = E_OK ∧
    reg_of s' SVR = 0x13F ∧ reg_of s' TIMER = 0x20020 ∧ reg_of s' TICR = 10000000 ∧ reg_of s' TDCR = X1 ∧
    reg_of s' LINT0 = MASKED ∧ reg_of s' LINT1 = MASKED ∧ reg_of s' LERROR = IRQ_ERROR ∧ reg_of s' TPR = 0 ∧
    sent s' = sent s ++ [(0, 0x88500)] ∧ ports s' = ports s ++ [(0x21, 0xFF); (0xA1, 0xFF)]) s.
Proof.
  intros Hl. unfold lapic_init. replace (lapic =? 0) with false by lia. destruct s as [r b c p m].
  do 6 lapic_step. eapply wp_step; [reflexivity|].
  match goal with |- context [if ?b then _ else _] => destruct b end.
  all: [> lapic_step | eapply wp_step; [reflexivity|] ].
  all: do 6 lapic_step; eapply wp_step; [reflexivity|].
  all: eapply wp_step; [apply drain_spec; reflexivity|]; cbn [lregs sent ports lmem].
  all: lapic_step; eapply wp_step; [reflexivity|]; apply wp_ret.
  all: split; [done|]; cbn [lregs busy sent ports lmem].
  all: split_and!; read_regs; first [reflexivity|rewrite <- app_assoc; reflexivity].
Qed.

(** The processor gets INIT, asserted and released, and two STARTUPs with the page of
    the entry code, all addressed to it; the warm reset vector points there too. *)
Lemma lapic_startap_spec s apicid addr : 0 ≤ apicid < 256 →
  mapped (lmem s) (Z.lor (Z.shiftl 0x40 4) 0x67 + LKERN_BASE) 4 →
  wp (lapic_startap apicid addr) (λ _ s', ∃ hi, Z.shiftr hi 24 = apicid ∧
    sent s' = sent s ++ [(hi, 0xC500); (hi, 0x8500);
      (hi, Z.lor STARTUP (Z.shiftr addr 12)); (hi, Z.lor STARTUP (Z.shiftr addr 12))] ∧
    half (lmem s') (0x467 + LKERN_BASE) 0 ∧ half (lmem s') (0x467 + LKERN_BASE + 2) (Z.shiftr addr 4)) s.
Proof.
  intros Ha Hm. change (Z.lor (Z.shiftl 0x40 4) 0x67 + LKERN_BASE) with (0x467 + LKERN_BASE) in Hm.
  destruct s as [r b c p m]. cbn [lmem sent] in *. unfold lapic_startap. change (Z.lor (Z.shiftl 0x40 4) 0x67 + LKERN_BASE) with (0x467 + LKERN_BASE).
  eapply wp_step; [done|]. eapply wp_step; [done|]. cbv zeta.
  unfold LKERN_BASE in *.
  apply wp_bind, wp_zoom. cbn [lmem].
  apply wp_wrh; [intros x Hx; apply Hm; lia|lia|unfold W32; lia|]. intros m1 W1 O1. after_write O1.
  apply wp_bind, wp_zoom. cbn [lmem].
  apply wp_wrh; [intros x Hx; apply Hm; lia|lia|unfold W32; lia|]. intros m2 W2 O2. after_write O2.
  cbn [lregs busy sent ports lmem]. do 3 lapic_step.
  cbn [loop]. change (0 <? 2) with true. apply wp_bind. do 2 lapic_step. apply wp_ret. cbv beta iota.
  change (0 + 1 <? 2) with true. apply wp_bind. do 2 lapic_step. apply wp_ret. cbv beta iota.
  change (0 + 1 + 1 <? 2) with false. apply wp_bind, wp_ret, wp_ret. cbn [sent lmem].
  exists (u32 (Z.shiftl apicid 24)). split.
  { rewrite u32_small by (unfold is_u32, W32; rewrite Z.shiftl_mul_pow2; lia).
    by rewrite Z.shiftr_shiftl_l, Z.shiftl_0_r by lia. }
  split; [|done]. rewrite <- !app_assoc. reflexivity.
Qed.
