(* ===== verification/Trap.v ===== *)
(** * Interrupts and system calls: arch/x86/src/intr/intr.c, kernel/syscall/syscall.c

    The table of interrupt routines and the table of system calls, and what the common
    entry does with them. A routine is the address of a C function; [kcall] is what the
    kernel's functions do when they are called with arguments. The arguments of a
    system call are words in the memory of the calling process. *)
From S2P Require Import Prelude Cstring Words Desc Task Cpu Apic Lapic.

Definition INTR_PGFAULT : Z := 14.
Definition INTR_TIMER : Z := 32.
Definition INTR_COM1 : Z := 36.
Definition NR_SYSCALL : Z := 64.

Record trap := Trap {
  tmach : machine; intr_table : list Z; islog : list bool; tio : ioapic_t; tlapic : lapic_t;
  syscalls : list Z; syscall_nparam : list Z; syscall_nolog : list Z; tmem : mem; klog : list Z }.

(** The part of [struct intr_regs_t] the code reads and writes. *)
Record intr_regs := Regs { intrno : Z; ierr : Z; ieip : Z; iesp : Z; ieax : Z }.

Section code.
Abbreviation M := (Prelude.M trap).
Implicit Types s : trap.

Definition set_mach x s := Trap x (intr_table s) (islog s) (tio s) (tlapic s) (syscalls s)
  (syscall_nparam s) (syscall_nolog s) (tmem s) (klog s).
Definition set_intr x s := Trap (tmach s) x (islog s) (tio s) (tlapic s) (syscalls s)
  (syscall_nparam s) (syscall_nolog s) (tmem s) (klog s).
Definition set_islog x s := Trap (tmach s) (intr_table s) x (tio s) (tlapic s) (syscalls s)
  (syscall_nparam s) (syscall_nolog s) (tmem s) (klog s).
Definition set_tio x s := Trap (tmach s) (intr_table s) (islog s) x (tlapic s) (syscalls s)
  (syscall_nparam s) (syscall_nolog s) (tmem s) (klog s).
Definition set_tlapic x s := Trap (tmach s) (intr_table s) (islog s) (tio s) x (syscalls s)
  (syscall_nparam s) (syscall_nolog s) (tmem s) (klog s).
Definition set_sys f n s := Trap (tmach s) (intr_table s) (islog s) (tio s) (tlapic s) f n
  (syscall_nolog s) (tmem s) (klog s).
Definition set_nolog x s := Trap (tmach s) (intr_table s) (islog s) (tio s) (tlapic s) (syscalls s)
  (syscall_nparam s) x (tmem s) (klog s).
Definition set_tmem x s := Trap (tmach s) (intr_table s) (islog s) (tio s) (tlapic s) (syscalls s)
  (syscall_nparam s) (syscall_nolog s) x (klog s).
Definition set_klog x s := Trap (tmach s) (intr_table s) (islog s) (tio s) (tlapic s) (syscalls s)
  (syscall_nparam s) (syscall_nolog s) (tmem s) x.

Definition on_mach {B} (m : Prelude.M machine B) : M B := zoom tmach set_mach m.
Definition on_io {B} (m : Prelude.M ioapic_t B) : M B := zoom tio set_tio m.
Definition on_lapic {B} (m : Prelude.M lapic_t B) : M B := zoom tlapic set_tlapic m.
Definition on_tmem {B} (m : Prelude.M mem B) : M B := zoom tmem set_tmem m.
(** [info(...)]: what is printed is the number of the event. *)
Definition info (n : Z) : M unit := modify (λ s, set_klog (klog s ++ [n]) s).

(** An element of a table; an index outside it is another object's memory. *)
Definition nth_of {B} (f : trap → list B) (i : Z) : M B :=
  s <- get ;; if 0 <=? i then deref (f s !! Z.to_nat i) else fault.

Definition intr_register (intrno hdl : Z) : M Z :=
  _ <- nth_of intr_table intrno ;;
  modify (λ s, set_intr (<[Z.to_nat intrno := hdl]> (intr_table s)) s) ;;;
  (if (32 <? intrno) && (intrno <? 48) then _ <- on_io (ioapic_enable (intrno - 32) 0) ;; ret tt else ret tt) ;;;
  ret E_OK.

Definition intr_unregister (intrno : Z) : M Z :=
  _ <- nth_of intr_table intrno ;;
  modify (λ s, set_intr (<[Z.to_nat intrno := 0]> (intr_table s)) s) ;;;
  ret E_OK.

(** The tables of [intr_init]; the gates are [Desc.idt_init]. *)
Definition intr_init : M Z :=
  modify (set_intr (replicate NR_INTR 0)) ;;;
  modify (set_islog (replicate NR_INTR true)) ;;;
  modify (λ s, set_islog (<[Z.to_nat INTR_TIMER := false]> (islog s)) s) ;;;
  modify (λ s, set_islog (<[Z.to_nat INTR_COM1 := false]> (islog s)) s) ;;;
  modify (λ s, set_islog (<[Z.to_nat INTR_SYSCALL := false]> (islog s)) s) ;;;
  ret E_OK.

Definition intr_end : M unit := on_lapic lapic_eoi ;;; on_mach intr_irq_restore.

Definition syscall_register (id func nparam : Z) : M Z :=
  if NR_SYSCALL <=? id then ret E_INVAL else
  modify (λ s, set_sys (<[Z.to_nat id := func]> (syscalls s)) (syscall_nparam s) s) ;;;
  modify (λ s, set_sys (syscalls s) (<[Z.to_nat id := nparam]> (syscall_nparam s)) s) ;;;
  ret E_OK.

Definition syscall_unregister (id : Z) : M Z :=
  if NR_SYSCALL <=? id then ret E_INVAL else
  modify (λ s, set_sys (<[Z.to_nat id := 0]> (syscalls s)) (syscall_nparam s) s) ;;;
  modify (λ s, set_sys (syscalls s) (<[Z.to_nat id := 0]> (syscall_nparam s)) s) ;;;
  ret E_OK.

(** Calling the function at an address with arguments; the address of [syscall_hdl]. *)
Context (kcall : Z → list Z → M Z) (SYSCALL_HDL : Z).

(** [args[i]]: every mention reads the caller's memory again. *)
Definition arg (args i : Z) : M Z := on_tmem (rdw (args + 4 * i)).
Fixpoint args_from (args i : Z) (n : nat) : M (list Z) :=
  match n with
  | O => ret []
  | S n => a <- arg args i ;; l <- args_from args (i + 1) n ;; ret (a :: l)
  end.

(** One of the five tests: the arity asked for, and the call. *)
Definition call_with (args : Z) (n : nat) : M Z :=
  no <- arg args 0 ;; f <- nth_of syscalls no ;; l <- args_from args 1 n ;; kcall f l.
Definition try_arity (args : Z) (n : nat) (k : M Z) : M Z :=
  no <- arg args 0 ;; p <- nth_of syscall_nparam no ;;
  if p =? Z.of_nat n then call_with args n else k.

(** With no function, or more than five parameters, the handler ends without a value. *)
Definition syscall_hdl (args : Z) : M Z :=
  no <- arg args 0 ;; assert_ (no <? NR_SYSCALL) ;;;
  no <- arg args 0 ;; q <- nth_of syscall_nolog no ;;
  (if q =? 0 then no <- arg args 0 ;; info no else ret tt) ;;;
  no <- arg args 0 ;; f <- nth_of syscalls no ;;
  if f =? 0 then fault else
  try_arity args 0 (try_arity args 1 (try_arity args 2 (try_arity args 3 (try_arity args 4
    (try_arity args 5 fault))))).

Definition syscall_init (nr_read nr_write : Z) : M Z :=
  intr_register INTR_SYSCALL SYSCALL_HDL ;;;
  modify (λ s, set_nolog (<[Z.to_nat nr_read := 1]> (syscall_nolog s)) s) ;;;
  modify (λ s, set_nolog (<[Z.to_nat nr_write := 1]> (syscall_nolog s)) s) ;;;
  ret E_OK.

Definition call_hdl (h a : Z) : M Z := if h =? SYSCALL_HDL then syscall_hdl a else kcall h [a].

Definition intr_enter : M unit :=
  i <- on_mach intr_irq_state ;; assert_ (negb i) ;;;
  t <- on_mach now_task ;; on_mach (upd_task t (λ x, set_ncli (add32 (ncli x) 1) x)).
Definition intr_leave : M unit :=
  i <- on_mach intr_irq_state ;; assert_ (negb i) ;;;
  t <- on_mach now_task ;; on_mach (upd_task t (λ x, set_ncli (sub32 (ncli x) 1) x)).
Definition log_intr (no : Z) : M unit :=
  b <- nth_of islog no ;; if b : bool then info no else ret tt.

(** Returns the registers as the exit path pops them. *)
Definition intr_hdl (r : intr_regs) : M intr_regs :=
  let no := intrno r in
  (if negb (no =? INTR_SYSCALL) then intr_enter else ret tt) ;;;
  assert_ ((no <? Z.of_nat NR_INTR) && (0 <? no)) ;;;
  log_intr no ;;;
  h <- nth_of intr_table no ;;
  r' <- (if h =? 0 then panic else
         if no =? INTR_SYSCALL then v <- call_hdl h (add32 (iesp r) 4) ;;
           ret (Regs no (ierr r) (ieip r) (iesp r) v)
         else if no =? INTR_PGFAULT then _ <- call_hdl h (ierr r) ;; ret r
         else _ <- call_hdl h 0 ;; ret r) ;;
  log_intr no ;;;
  (if negb (no =? INTR_SYSCALL) then intr_leave else ret tt) ;;;
  on_lapic lapic_eoi ;;;
  ret r'.
End code.
