(* ===== verification/TrapSpec.v ===== *)
(** * What interrupts and system calls do: theorems about Trap.v

    Every system call reaches the function registered for its number with exactly its
    parameters; an interrupt runs its routine with interrupts off, once, and leaves the
    nesting count as it was. *)
From S2P Require Import Prelude Cstring Words Desc Task Cpu Apic Lapic Trap.
From stdpp Require Import strings.
#[local] Open Scope Z_scope.

(** [enum SYS_CALL] *)
Inductive SYS_CALL :=
  | SYS_none | SYS_exec | SYS_fork | SYS_malloc | SYS_mfree | SYS_poweroff | SYS_proc_create
  | SYS_proc_exit | SYS_proc_info | SYS_proc_kill | SYS_srv_call | SYS_srv_called | SYS_srv_reply
  | SYS_srv_register | SYS_srv_unregister | SYS_srv_info | SYS_msg_send | SYS_msg_recieve
  | SYS_msg_read | SYS_msg_newbox | SYS_msg_newmsg | SYS_msg_delmsg | SYS_msg_delbox
  | SYS_thread_block | SYS_thread_create | SYS_thread_exit | SYS_thread_tid | SYS_thread_wake
  | SYS_write | SYS_read | SYS_log.
#[export] Instance sys_call_dec : EqDecision SYS_CALL.
Proof. solve_decision. Defined.
Definition all_calls : list SYS_CALL :=
  [SYS_none; SYS_exec; SYS_fork; SYS_malloc; SYS_mfree; SYS_poweroff; SYS_proc_create;
   SYS_proc_exit; SYS_proc_info; SYS_proc_kill; SYS_srv_call; SYS_srv_called; SYS_srv_reply;
   SYS_srv_register; SYS_srv_unregister; SYS_srv_info; SYS_msg_send; SYS_msg_recieve;
   SYS_msg_read; SYS_msg_newbox; SYS_msg_newmsg; SYS_msg_delmsg; SYS_msg_delbox;
   SYS_thread_block; SYS_thread_create; SYS_thread_exit; SYS_thread_tid; SYS_thread_wake;
   SYS_write; SYS_read; SYS_log].
(** The value C gives the constant: its place in the declaration. *)
Definition sysno (c : SYS_CALL) : Z := default 0 (Z.of_nat ∘ fst <$> list_find (λ d, d = c) all_calls).

Section boot.
(** The addresses of the kernel's functions. *)
Context (symbol : string → Z).
Abbreviation M := (Prelude.M trap).
Abbreviation reg c f n := (syscall_register (sysno c) (symbol f) n).

(** The registrations of the [*_init] functions, in the order [main] runs them. *)
Definition memory_register : M Z := intr_register INTR_PGFAULT (symbol "page_fault_hdl").
Definition um_register : M Z := reg SYS_malloc "umalloc_hdl" 2.
Definition schd_register : M Z := intr_register INTR_TIMER (symbol "schd_intr").
Definition thread_register : M Z :=
  reg SYS_thread_create "thread_sys_new" 3 ;;;
  reg SYS_thread_block "thread_sys_block" 1 ;;;
  reg SYS_thread_wake "thread_sys_wake" 1 ;;;
  reg SYS_thread_tid "thread_sys_tid" 1 ;;;
  reg SYS_thread_exit "thread_sys_exit" 0 ;;;
  schd_register.
Definition proc_register : M Z :=
  reg SYS_fork "proc_fork" 1 ;;;
  reg SYS_proc_create "proc_sys_create" 3 ;;;
  reg SYS_proc_exit "proc_sys_exit" 1 ;;;
  reg SYS_proc_info "proc_sys_info" 1 ;;;
  reg SYS_proc_kill "proc_sys_kill" 1.
Definition msg_register : M Z :=
  reg SYS_msg_newmsg "msg_newmsg" 3 ;;;
  reg SYS_msg_newbox "msg_newbox" 1 ;;;
  reg SYS_msg_send "msg_send" 2 ;;;
  reg SYS_msg_recieve "msg_recieve" 3 ;;;
  reg SYS_msg_read "msg_read" 4 ;;;
  reg SYS_msg_delmsg "msg_delmsg" 1 ;;;
  reg SYS_msg_delbox "msg_delbox" 1 ;;;
  ret E_OK.
Definition srv_register_calls : M Z :=
  reg SYS_srv_call "srv_sys_call" 3 ;;;
  reg SYS_srv_called "srv_sys_called" 2 ;;;
  reg SYS_srv_reply "srv_sys_reply" 1 ;;;
  reg SYS_srv_register "srv_sys_register" 2 ;;;
  reg SYS_srv_info "srv_sys_info" 1 ;;;
  ret E_OK.
Definition sysctrl_init : M Z := reg SYS_poweroff "sysctrl_shutdown" 0.
Definition tmp_register : M Z :=
  err <- reg SYS_write "tmp_write" 1 ;; if negb (err =? E_OK) then ret err else
  err <- reg SYS_read "tmp_read" 1 ;; if negb (err =? E_OK) then ret err else
  err <- reg SYS_log "tmp_log" 1 ;; if negb (err =? E_OK) then ret err else
  intr_register INTR_COM1 (symbol "com_intr").

Definition boot_register : M Z :=
  syscall_init (symbol "syscall_hdl") (sysno SYS_read) (sysno SYS_write) ;;;
  memory_register ;;; um_register ;;; thread_register ;;; proc_register ;;; msg_register ;;;
  srv_register_calls ;;; sysctrl_init ;;; tmp_register.

(** ** What the calls are: the reference *)
Definition call_table : list (SYS_CALL * string * Z) :=
  [(SYS_fork, "proc_fork", 1); (SYS_malloc, "umalloc_hdl", 2); (SYS_poweroff, "sysctrl_shutdown", 0);
   (SYS_proc_create, "proc_sys_create", 3); (SYS_proc_exit, "proc_sys_exit", 1);
   (SYS_proc_info, "proc_sys_info", 1); (SYS_proc_kill, "proc_sys_kill", 1);
   (SYS_srv_call, "srv_sys_call", 3); (SYS_srv_called, "srv_sys_called", 2);
   (SYS_srv_reply, "srv_sys_reply", 1); (SYS_srv_register, "srv_sys_register", 2);
   (SYS_srv_info, "srv_sys_info", 1); (SYS_msg_send, "msg_send", 2); (SYS_msg_recieve, "msg_recieve", 3);
   (SYS_msg_read, "msg_read", 4); (SYS_msg_newbox, "msg_newbox", 1); (SYS_msg_newmsg, "msg_newmsg", 3);
   (SYS_msg_delmsg, "msg_delmsg", 1); (SYS_msg_delbox, "msg_delbox", 1);
   (SYS_thread_block, "thread_sys_block", 1); (SYS_thread_create, "thread_sys_new", 3);
   (SYS_thread_exit, "thread_sys_exit", 0); (SYS_thread_tid, "thread_sys_tid", 1);
   (SYS_thread_wake, "thread_sys_wake", 1); (SYS_write, "tmp_write", 1); (SYS_read, "tmp_read", 1);
   (SYS_log, "tmp_log", 1)].
(** The function and arity of a number: 0 for one without. *)
Definition call_of (n : Z) : Z * Z :=
  default (0, 0) ((λ x, (symbol (snd (fst (snd x))), snd (snd x))) <$>
    list_find (λ x, sysno (fst (fst x)) = n) call_table).

Definition zero_tables (s : trap) : Prop :=
  intr_table s = replicate NR_INTR 0 ∧ syscalls s = replicate (Z.to_nat NR_SYSCALL) 0 ∧
  syscall_nparam s = replicate (Z.to_nat NR_SYSCALL) 0.
(** The tables say what the reference says. *)
Definition tables_ok (s : trap) : Prop :=
  syscalls s = (λ i, fst (call_of (Z.of_nat i))) <$> seq 0 (Z.to_nat NR_SYSCALL) ∧
  syscall_nparam s = (λ i, snd (call_of (Z.of_nat i))) <$> seq 0 (Z.to_nat NR_SYSCALL).

Lemma run_reg c f n mc it il io la sc np nl tm kl :
  reg c f n (Trap mc it il io la sc np nl tm kl) = Ret E_OK
    (Trap mc it il io la (<[Z.to_nat (sysno c) := symbol f]> sc) (<[Z.to_nat (sysno c) := n]> np) nl tm kl).
Proof. by destruct c. Qed.

Lemma run_intr_register n h mc it il io la sc np nl tm kl : 0 ≤ n → (Z.to_nat n < length it)%nat →
  ∃ io', intr_register n h (Trap mc it il io la sc np nl tm kl) = Ret E_OK
    (Trap mc (<[Z.to_nat n := h]> it) il io' la sc np nl tm kl).
Proof.
  intros Hn Hl. destruct (lookup_lt_is_Some_2 it (Z.to_nat n) Hl) as [x Hx].
  unfold intr_register, nth_of, bind, get. rewrite (proj2 (Z.leb_le 0 n) Hn). cbn [intr_table]. rewrite Hx.
  cbn [deref ret modify set_intr]. destruct (_ && _); by eexists.
Qed.

Lemma wp_intr_step {B} n h (k : Z → M B) Q mc it il io la sc np nl tm kl :
  (0 ≤ n ∧ (Z.to_nat n < length it)%nat) →
  (∀ io', wp (k E_OK) Q (Trap mc (<[Z.to_nat n := h]> it) il io' la sc np nl tm kl)) →
  wp (r <- intr_register n h ;; k r) Q (Trap mc it il io la sc np nl tm kl).
Proof.
  intros [Hn Hl] Hk. destruct (run_intr_register n h mc it il io la sc np nl tm kl Hn Hl) as [io' R].
  by eapply wp_step.
Qed.
Lemma wp_intr_last n h Q mc it il io la sc np nl tm kl :
  (0 ≤ n ∧ (Z.to_nat n < length it)%nat) →
  (∀ io', Q E_OK (Trap mc (<[Z.to_nat n := h]> it) il io' la sc np nl tm kl)) →
  wp (intr_register n h) Q (Trap mc it il io la sc np nl tm kl).
Proof. intros Hl Hk. apply wp_bind_ret. by apply wp_intr_step. Qed.
Lemma wp_reg_last c f n Q mc it il io la sc np nl tm kl :
  Q E_OK (Trap mc it il io la (<[Z.to_nat (sysno c) := symbol f]> sc) (<[Z.to_nat (sysno c) := n]> np) nl tm kl) →
  wp (reg c f n) Q (Trap mc it il io la sc np nl tm kl).
Proof. intros HQ. unfold wp. by rewrite run_reg. Qed.
Ltac reg_step := first [eapply wp_step; [apply run_reg|]|apply wp_reg_last].

Lemma boot_tables s : zero_tables s →
  wp boot_register (λ err s', err = E_OK ∧ tables_ok s' ∧ intr_table s' =
    <[Z.to_nat INTR_COM1 := symbol "com_intr"]> (<[Z.to_nat INTR_TIMER := symbol "schd_intr"]>
      (<[Z.to_nat INTR_PGFAULT := symbol "page_fault_hdl"]>
        (<[Z.to_nat INTR_SYSCALL := symbol "syscall_hdl"]> (replicate NR_INTR 0))))) s.
Proof.
  intros (Hi & Hs & Hp). destruct s as [mc it il io la sc np nl tm kl].
  cbn [intr_table syscalls syscall_nparam] in Hi, Hs, Hp.
  assert (length it = NR_INTR) as Hl by (by rewrite Hi, length_replicate). rewrite <- Hi. clear Hi.
  unfold boot_register, syscall_init, memory_register, um_register, thread_register, schd_register,
    proc_register, msg_register, srv_register_calls, sysctrl_init, tmp_register.
  assert (∀ n, 0 ≤ n < 256 → 0 ≤ n ∧ (Z.to_nat n < length it)%nat) as Hb by (unfold NR_INTR in *; lia).
  apply wp_bind. eapply wp_intr_step; [by apply Hb|]. intros io1.
  do 2 (eapply wp_step; [reflexivity|]). apply wp_ret. unfold set_nolog.
  cbn [tmach intr_table islog tio tlapic syscalls syscall_nparam syscall_nolog tmem klog].
  match goal with |- context [Trap _ _ _ _ _ _ _ ?x _ _] => set (nl1 := x) end. clearbody nl1.
  eapply wp_intr_step; [by rewrite length_insert; apply Hb|]. intros io2.
  reg_step.
  apply wp_bind. do 5 reg_step. eapply wp_intr_last; [by rewrite length_insert, length_insert; apply Hb|]. intros io3.
  apply wp_bind. do 5 reg_step. apply wp_bind. do 7 reg_step. apply wp_ret.
  apply wp_bind. do 5 reg_step. apply wp_ret.
  reg_step. do 3 (reg_step; cbn [negb Z.eqb E_OK]).
  eapply wp_intr_last; [by rewrite !length_insert; apply Hb|]. intros io4.
  split; [done|]. split; [|done]. rewrite Hs, Hp. by split.
Qed.

(** ** From the number to the function *)
Lemma call_of_arity n : 0 ≤ snd (call_of n) ≤ 5.
Proof.
  unfold call_of. destruct (list_find _ call_table) as [[i [[c f] k]]|] eqn:E; [|simpl; lia].
  apply list_find_Some in E as (E & _ & _). simpl.
  assert (Forall (λ x : SYS_CALL * string * Z, 0 ≤ snd x ≤ 5) call_table) as HF by (repeat constructor; simpl; lia).
  rewrite Forall_forall in HF. apply (HF (c, f, k)). by eapply list_elem_of_lookup_2.
Qed.

Section dispatch.
Context (kcall : Z → list Z → M Z) (SYSCALL_HDL : Z).

Definition logif (b : bool) (n : Z) (s : trap) : trap := if b then set_klog (klog s ++ [n]) s else s.

(** The arguments of a call: the number and five words, in the caller's memory. *)
Record args_at (s : trap) (a : Z) (l : list Z) : Prop := {
  aa_len : length l = 6%nat;
  aa_range : 0 ≤ a ∧ a + 24 ≤ W32;
  aa_u32 : ∀ i v, l !! i = Some v → is_u32 v;
  aa_word : ∀ i v, l !! i = Some v → word (tmem s) (a + 4 * Z.of_nat i) v;
}.

Lemma run_arg s a l i v : args_at s a l → l !! i = Some v → arg a (Z.of_nat i) s = Ret v s.
Proof.
  intros [Hl Ha Hu Hw] Hi. pose proof (lookup_lt_Some _ _ _ Hi).
  unfold arg, on_tmem, zoom. rewrite (run_rdw _ _ v); [by destruct s|by apply Hw|by eapply Hu|lia|lia].
Qed.

Lemma run_args_from s a l n : args_at s a l → ∀ i, (i + n ≤ 6)%nat →
  args_from a (Z.of_nat i) n s = Ret (take n (drop i l)) s.
Proof.
  intros Ha. induction n as [|n IH]; intros i Hn; [done|]. cbn [args_from].
  destruct (lookup_lt_is_Some_2 l i) as [v Hv]; [rewrite (aa_len _ _ _ Ha); lia|].
  unfold bind. rewrite (run_arg s a l i v Ha Hv).
  replace (Z.of_nat i + 1) with (Z.of_nat (S i)) by lia. rewrite IH by lia.
  unfold ret. by rewrite (drop_S _ _ _ Hv).
Qed.

Lemma run_nth {B} (f : trap → list B) s i x : 0 ≤ i → f s !! Z.to_nat i = Some x → nth_of f i s = Ret x s.
Proof. intros Hi Hx. unfold nth_of, bind, get. by rewrite (proj2 (Z.leb_le 0 i) Hi), Hx. Qed.

Lemma run_try s a l no n k : args_at s a l → l !! 0%nat = Some no → 0 ≤ no < NR_SYSCALL → tables_ok s → (n ≤ 5)%nat →
  try_arity kcall a n k s =
    if snd (call_of no) =? Z.of_nat n then kcall (fst (call_of no)) (take n (drop 1 l)) s else k s.
Proof.
  intros Ha Hno Hb [Ht1 Ht2] Hn. unfold try_arity, bind.
  change 0 with (Z.of_nat 0) at 1. rewrite (run_arg s a l 0 no Ha Hno).
  assert ((Z.to_nat no < Z.to_nat NR_SYSCALL)%nat) as Hlt by lia.
  rewrite (run_nth syscall_nparam s no (snd (call_of no))); [|lia|].
  2:{ rewrite Ht2, list_lookup_fmap, lookup_seq_lt by done. simpl. by rewrite Z2Nat.id by lia. }
  destruct (_ =? _); [|done]. unfold call_with, bind.
  change 0 with (Z.of_nat 0) at 1. rewrite (run_arg s a l 0 no Ha Hno).
  rewrite (run_nth syscalls s no (fst (call_of no))); [|lia|].
  2:{ rewrite Ht1, list_lookup_fmap, lookup_seq_lt by done. simpl. by rewrite Z2Nat.id by lia. }
  change 1 with (Z.of_nat 1) at 1. rewrite (run_args_from s a l n Ha 1) by lia. done.
Qed.

(** C27: A system call is the call of the function the reference table names for its
    number, with exactly the argument words the table gives it, in order: with the
    tables the kernel's initialisation leaves ([boot_tables]), [syscall_hdl] equals that
    dispatch. A number of 64 or more stops the kernel, and a number without a function
    ends without a value. *)
Theorem syscall_dispatch s a l no q :
  tables_ok s → args_at s a l → l !! 0%nat = Some no → syscall_nolog s !! Z.to_nat no = Some q ∨ NR_SYSCALL ≤ no →
  syscall_hdl kcall a s =
    if NR_SYSCALL <=? no then Panic
    else if fst (call_of no) =? 0 then Fault
    else kcall (fst (call_of no)) (take (Z.to_nat (snd (call_of no))) (drop 1 l)) (logif (q =? 0) no s).
Proof.
  intros Ht Ha Hno Hq. pose proof (aa_u32 _ _ _ Ha _ _ Hno) as [Hn0 _].
  unfold syscall_hdl, bind at 1. change 0 with (Z.of_nat 0) at 1. rewrite (run_arg s a l 0 no Ha Hno).
  destruct (Z.leb_spec NR_SYSCALL no) as [Hbig|Hsm].
  { unfold bind at 1. replace (no <? NR_SYSCALL) with false by lia. done. }
  destruct Hq as [Hq|?]; [|lia].
  unfold bind at 1. replace (no <? NR_SYSCALL) with true by lia. cbn [assert_ ret].
  unfold bind at 1. change 0 with (Z.of_nat 0) at 1. rewrite (run_arg s a l 0 no Ha Hno).
  unfold bind at 1. rewrite (run_nth syscall_nolog s no q Hn0 Hq).
  assert ((if q =? 0 then (no0 <- arg a 0 ;; info no0) else ret tt) s = Ret tt (logif (q =? 0) no s)) as Hlog.
  { unfold logif. destruct (q =? 0); [|done]. unfold bind. change 0 with (Z.of_nat 0) at 1.
    by rewrite (run_arg s a l 0 no Ha Hno). }
  unfold bind at 1. rewrite Hlog. set (s1 := logif (q =? 0) no s).
  assert (args_at s1 a l) as Ha1 by (unfold s1, logif; destruct (q =? 0); [by destruct Ha|done]).
  assert (tables_ok s1) as Ht1 by (unfold s1, logif; by destruct (q =? 0)).
  clearbody s1. clear Hlog.
  unfold bind at 1. change 0 with (Z.of_nat 0) at 1. rewrite (run_arg s1 a l 0 no Ha1 Hno).
  unfold bind at 1. rewrite (run_nth syscalls s1 no (fst (call_of no)) Hn0).
  2:{ rewrite (proj1 Ht1), list_lookup_fmap, lookup_seq_lt by (unfold NR_SYSCALL in *; lia). simpl. by rewrite Z2Nat.id. }
  destruct (fst (call_of no) =? 0); [done|].
  pose proof (call_of_arity no) as Har.
  do 6 (rewrite (run_try s1 a l no) by (done || lia)).
  assert (snd (call_of no) = 0 ∨ snd (call_of no) = 1 ∨ snd (call_of no) = 2 ∨ snd (call_of no) = 3 ∨
    snd (call_of no) = 4 ∨ snd (call_of no) = 5) as Hc by lia.
  destruct_or! Hc; by rewrite Hc.
Qed.

(** ** Interrupts *)
Definition with_mach (m : machine) (s : trap) : trap := set_mach m s.
Definition eoi_done (s : trap) : trap := set_tlapic (LApic (<[EOI := 0]> (lregs (tlapic s)))
  (busy (tlapic s)) (sent (tlapic s)) (ports (tlapic s)) (lmem (tlapic s))) s.

Lemma run_on_mach {B} (m : Prelude.M machine B) s v mc : m (tmach s) = Ret v mc → on_mach m s = Ret v (set_mach mc s).
Proof. intros Hm. unfold on_mach, zoom. by rewrite Hm. Qed.
Lemma set_mach_id s : set_mach (tmach s) s = s.
Proof. by destruct s. Qed.

Lemma run_enter s i t x : here (tmach s) i t → tasks (tmach s) !! t = Some x → IF (tmach s) = false →
  ncli x + 1 < W32 → 0 ≤ ncli x → intr_enter s = Ret tt (set_mach (with_ncli t (ncli x + 1) false (tmach s)) s).
Proof.
  intros Hh Hx HI Hw Hn. unfold intr_enter, bind at 1.
  rewrite (run_on_mach intr_irq_state s false (tmach s)) by (unfold intr_irq_state, gets; by rewrite HI).
  rewrite set_mach_id. unfold bind at 1. cbn [negb assert_ ret].
  unfold bind at 1. rewrite (run_on_mach _ s _ _ (run_now_task _ i t Hh HI)), set_mach_id.
  rewrite (run_on_mach _ s _ _ (run_upd_ncli _ t x (λ n, add32 n 1) Hx)).
  rewrite add32_small by lia. by rewrite HI.
Qed.
Lemma run_leave s i t x : here (tmach s) i t → tasks (tmach s) !! t = Some x → IF (tmach s) = false →
  0 < ncli x < W32 → intr_leave s = Ret tt (set_mach (with_ncli t (ncli x - 1) false (tmach s)) s).
Proof.
  intros Hh Hx HI Hn. unfold intr_leave, bind at 1.
  rewrite (run_on_mach intr_irq_state s false (tmach s)) by (unfold intr_irq_state, gets; by rewrite HI).
  rewrite set_mach_id. unfold bind at 1. cbn [negb assert_ ret].
  unfold bind at 1. rewrite (run_on_mach _ s _ _ (run_now_task _ i t Hh HI)), set_mach_id.
  rewrite (run_on_mach _ s _ _ (run_upd_ncli _ t x (λ n, sub32 n 1) Hx)).
  rewrite sub32_small by lia. by rewrite HI.
Qed.
Lemma run_log_intr s n b : 0 ≤ n → islog s !! Z.to_nat n = Some b → log_intr n s = Ret tt (logif b n s).
Proof.
  intros Hn Hb. unfold log_intr, bind. rewrite (run_nth islog s n b Hn Hb). by destruct b.
Qed.
Lemma run_eoi s : on_lapic lapic_eoi s = Ret tt (eoi_done s).
Proof. by destruct s as [mc it il io [r b c p m] sc np nl tm kl]. Qed.

(** The states in which the routine of an interrupt starts and the exit path runs. *)
Definition entered (b : bool) (no t n : Z) (s : trap) : trap :=
  logif b no (set_mach (with_ncli t n false (tmach s)) s).
Definition left_by (b : bool) (no t n : Z) (s : trap) : trap :=
  let s := logif b no s in eoi_done (set_mach (with_ncli t n false (tmach s)) s).
Definition routine_arg (r : intr_regs) : Z := if intrno r =? INTR_PGFAULT then ierr r else 0.

(** An interrupt or exception other than a system call, taken with interrupts off
    as its gate leaves them, counts one more section for the running task, runs the
    routine registered for its vector once, with the error code for a page fault and 0
    otherwise, and, when the routine comes back to that task with its section open and
    interrupts off (on whatever processor), closes the section, acknowledges the
    interrupt and returns the registers untouched. Without a routine it stops the
    kernel. A system call changes neither the count nor the flag, and what its handler
    returns is what the caller finds in eax. *)
Theorem intr_hdl_correct s r i t x h b :
  0 < intrno r < Z.of_nat NR_INTR → intr_table s !! Z.to_nat (intrno r) = Some h →
  islog s !! Z.to_nat (intrno r) = Some b → here (tmach s) i t → tasks (tmach s) !! t = Some x →
  0 ≤ ncli x → ncli x + 1 < W32 →
  (intrno r ≠ INTR_SYSCALL → IF (tmach s) = false →
    (h = 0 → intr_hdl kcall SYSCALL_HDL r s = Panic) ∧
    ∀ v s2 i2 x2, h ≠ 0 → h ≠ SYSCALL_HDL →
      kcall h [routine_arg r] (entered b (intrno r) t (ncli x + 1) s) = Ret v s2 →
      here (tmach s2) i2 t → tasks (tmach s2) !! t = Some x2 → IF (tmach s2) = false → 0 < ncli x2 < W32 →
      islog s2 !! Z.to_nat (intrno r) = Some b →
      intr_hdl kcall SYSCALL_HDL r s = Ret r (left_by b (intrno r) t (ncli x2 - 1) s2)) ∧
  (intrno r = INTR_SYSCALL → ∀ v s2, h = SYSCALL_HDL → h ≠ 0 →
    syscall_hdl kcall (add32 (iesp r) 4) (logif b (intrno r) s) = Ret v s2 →
    islog s2 !! Z.to_nat (intrno r) = Some b →
    intr_hdl kcall SYSCALL_HDL r s =
      Ret (Regs (intrno r) (ierr r) (ieip r) (iesp r) v) (eoi_done (logif b (intrno r) s2))).
Proof.
  intros Hno Hh Hb Hhere Hx Hn Hw.
  assert ((intrno r <? Z.of_nat NR_INTR) && (0 <? intrno r) = true) as Hr by lia.
  split.
  - intros Hs HI. unfold intr_hdl. cbv zeta. rewrite (proj2 (Z.eqb_neq _ _) Hs). cbn [negb].
    set (s1 := set_mach (with_ncli t (ncli x + 1) false (tmach s)) s).
    assert (intr_enter s = Ret tt s1) as He by (by apply (run_enter s i t x)).
    assert (log_intr (intrno r) s1 = Ret tt (entered b (intrno r) t (ncli x + 1) s)) as Hlog
      by (apply run_log_intr; [lia|done]).
    assert (nth_of intr_table (intrno r) (entered b (intrno r) t (ncli x + 1) s) =
      Ret h (entered b (intrno r) t (ncli x + 1) s)) as Hnth
      by (apply run_nth; [lia|unfold entered, logif; by destruct b]).
    match goal with |- (_ → ?hd ?st = _) ∧ _ => assert (hd st = (r' <-
      (if h =? 0 then panic else if intrno r =? INTR_PGFAULT
       then _ <- call_hdl kcall SYSCALL_HDL h (ierr r) ;; ret r
       else _ <- call_hdl kcall SYSCALL_HDL h 0 ;; ret r) ;;
      log_intr (intrno r) ;;; intr_leave ;;; on_lapic lapic_eoi ;;; ret r')
      (entered b (intrno r) t (ncli x + 1) s)) as -> end.
    { unfold bind at 1. rewrite He. unfold bind at 1. rewrite Hr. cbn [assert_ ret].
      unfold bind at 1. rewrite Hlog. unfold bind at 1. by rewrite Hnth. }
    split.
    + intros ->. rewrite Z.eqb_refl. done.
    + intros v s2 i2 x2 H0 Hsy Hk Hh2 Hx2 HI2 Hn2 Hb2. rewrite (proj2 (Z.eqb_neq h 0) H0).
      assert ((if intrno r =? INTR_PGFAULT then _ <- call_hdl kcall SYSCALL_HDL h (ierr r) ;; ret r
        else _ <- call_hdl kcall SYSCALL_HDL h 0 ;; ret r) (entered b (intrno r) t (ncli x + 1) s) = Ret r s2) as Hc.
      { unfold call_hdl. rewrite (proj2 (Z.eqb_neq h SYSCALL_HDL) Hsy). unfold routine_arg in Hk.
        destruct (_ =? INTR_PGFAULT); unfold bind; by rewrite Hk. }
      unfold bind at 1. rewrite Hc. unfold bind at 1. rewrite (run_log_intr s2 _ b) by (done || lia).
      set (s3 := logif b (intrno r) s2). assert (tmach s3 = tmach s2) as Hm by (unfold s3, logif; by destruct b).
      unfold bind at 1. rewrite (run_leave s3 i2 t x2) by (done || by rewrite Hm).
      unfold bind at 1. rewrite run_eoi. done.
  - intros Hs v s2 -> H0 Hc Hb2. unfold intr_hdl. cbv zeta. rewrite Hs, Z.eqb_refl. rewrite Hs in *. cbn [negb].
    unfold bind at 1. cbn [ret]. unfold bind at 1. rewrite Hr. cbn [assert_ ret].
    unfold bind at 1. rewrite (run_log_intr s _ b) by (done || lia).
    unfold bind at 1. rewrite (run_nth intr_table _ INTR_SYSCALL SYSCALL_HDL); [|lia|unfold logif; by destruct b].
    cbv beta. rewrite (proj2 (Z.eqb_neq SYSCALL_HDL 0) H0).
    unfold bind at 1. unfold bind at 1. unfold call_hdl at 1. rewrite Z.eqb_refl, Hc. cbn [ret].
    unfold bind at 1. rewrite (run_log_intr s2 _ b) by (done || lia).
    unfold bind at 1. cbn [ret]. unfold bind at 1. rewrite run_eoi. done.
Qed.
End dispatch.
End boot.

(** ** Concrete runs: [msg_read] with four arguments, and a timer interrupt *)
Definition ex_symbol (f : string) : Z := 0xC0100000 + 16 * Z.of_nat (String.length f).
Definition ex_kcall (f : Z) (l : list Z) : M trap Z := ret (f + foldr Z.add 0 l).
Definition ex_mem (a : Z) (l : list Z) : mem := list_to_map (imap (λ i b, (a + Z.of_nat i, b)) l).
Definition ex_args : list Z := [18; 3; 0x8000; 0; 5; 9].
Definition ex_trap : trap := Trap (set_IF false ex_mach)
  (<[32%nat := 0xC0100500]> (replicate NR_INTR 0)) (replicate NR_INTR false) (IoApic 0 ∅) (LApic ∅ 0 [] [] ∅)
  ((λ i, fst (call_of ex_symbol (Z.of_nat i))) <$> seq 0 (Z.to_nat NR_SYSCALL))
  ((λ i, snd (call_of ex_symbol (Z.of_nat i))) <$> seq 0 (Z.to_nat NR_SYSCALL))
  (replicate (Z.to_nat NR_SYSCALL) 0) (ex_mem 0x8000 (flat_map bytes4 ex_args)) [].

Lemma ex_args_at : args_at ex_trap 0x8000 ex_args.
Proof.
  split.
  - reflexivity.
  - unfold W32. lia.
  - intros i v Hi. apply list_elem_of_lookup_2 in Hi. unfold ex_args in Hi.
    repeat (apply elem_of_cons in Hi as [->|Hi]; [unfold is_u32, W32; lia|]). by apply elem_of_nil in Hi.
  - intros i v Hi j b Hj. do 6 (destruct i as [|i]; [injection Hi as <-;
      do 4 (destruct j as [|j]; [injection Hj as <-; reflexivity|]); done|]). done.
Qed.

Lemma syscall_dispatch_witness :
  syscall_hdl ex_kcall 0x8000 ex_trap =
    Ret (ex_symbol "msg_read" + (3 + (0x8000 + (0 + (5 + 0))))) (set_klog [18] ex_trap).
Proof.
  rewrite (syscall_dispatch ex_symbol ex_kcall ex_trap 0x8000 ex_args 18 0).
  - reflexivity.
  - split; reflexivity.
  - apply ex_args_at.
  - reflexivity.
  - left. reflexivity.
Defined.

Lemma intr_hdl_correct_witness :
  let r := Regs 32 7 0x8048000 0xBFFFF000 1 in
  intr_hdl ex_kcall 0xC0100800 r ex_trap =
    Ret r (left_by false 32 0x5000 0 (entered false 32 0x5000 1 ex_trap)).
Proof.
  intros r.
  assert (0 < 32 < Z.of_nat NR_INTR) as Hr by (unfold NR_INTR; lia).
  refine (proj2 (proj1 (intr_hdl_correct ex_kcall 0xC0100800 ex_trap r 1 0x5000
    (Task 0x9000 0x1000 0 (Context_t 0 0 0 0 0)) 0xC0100500 false Hr eq_refl eq_refl _ eq_refl _ _) _ eq_refl)
    0xC0100500 (entered false 32 0x5000 1 ex_trap) 1%nat (Task 0x9000 0x1000 1 (Context_t 0 0 0 0 0))
    _ _ eq_refl _ eq_refl eq_refl _ eq_refl).
  - destruct ex_mach_here. by split.
  - simpl. lia.
  - simpl. unfold W32. lia.
  - discriminate.
  - discriminate.
  - discriminate.
  - destruct ex_mach_here as [H1 H2 H3 H4]. split; [done|done|done|]. by eexists.
  - simpl. unfold W32. lia.
Defined.
