(* ===== verification/Meminit.v ===== *)
(** * Memory at boot: collect_mm_info_early of arch/x86/src/setup/setup.c, memory_init of kernel/memory/memory.c

    The boot loader's map of the memory becomes the range of free frames; [memory_init]
    hands it to the buddy system (Physmem), makes the slots for the structures of the
    kernel's ranges (Vslots), and starts the kernel's address space over both. *)
From S2P Require Import Prelude Machine Mmu RbtModel RbtTree RbtInsert RbtIter RbtProps RbtClient Ptb Slab Vm VmSpec VmFree Um Kmem.
From S2P Require DList Slot Vslots Pm PmSpec PmProps Page Physmem Trap TrapSpec.

(** ** The memory map *)
Record mmap_entry := MmapEntry {
  base_addr_low : Z; base_addr_high : Z; length_low : Z; length_high : Z; etype : Z }.
Record boot_arg := BootArg {
  free_pmm_start : Z; free_pmm_size : Z; free_kvm_start : Z; free_kvm_size : Z }.
Definition DEV_BASE : Z := 0xFE000000.
Definition CONFIG_NR_BOOT_PTE : Z := 1.

(** The range is kept in [boot_arg]: a later one takes the place of an earlier one. *)
Definition add_memory (addr size : Z) (b : boot_arg) : boot_arg :=
  BootArg addr size (free_kvm_start b) (free_kvm_size b).

Definition collect_body (kstart kend : Z) (e : mmap_entry) (b : boot_arg) : boot_arg :=
  let lim := add32 (base_addr_low e) (length_low e) in
  if etype e =? 1 then
    if (base_addr_low e <=? kstart) && (kend <=? lim) then
      let b := if negb (kstart =? base_addr_low e)
               then add_memory (base_addr_low e) (sub32 kstart (base_addr_low e)) b else b in
      if negb (kend =? lim) then add_memory kend (sub32 lim kend) b else b
    else if negb (base_addr_low e =? 0) then add_memory (base_addr_low e) (length_low e) b else b
  else b.

(** [l] are the entries of the map, in their order. *)
Definition collect_mm_info_early (kern_start kern_end : Z) (l : list mmap_entry) (b : boot_arg) : boot_arg :=
  let start := add32 KERN_BASE (CONFIG_NR_BOOT_PTE * 1024 * PAGE_SIZE) in
  fold_left (λ b e, collect_body (sub32 kern_start KERN_BASE) (sub32 kern_end KERN_BASE) e b) l
    (BootArg (free_pmm_start b) (free_pmm_size b) start (sub32 DEV_BASE start)).

(** ** [memory_init] *)
Definition pmm_start (b : boot_arg) : Z := ROUND_UP (free_pmm_start b) PAGE_SIZE.
Definition pmm_size (b : boot_arg) : Z :=
  sub32 (ROUND_DOWN (add32 (free_pmm_start b) (free_pmm_size b)) PAGE_SIZE) (pmm_start b).
Definition kvm_start (b : boot_arg) : Z := ROUND_UP (free_kvm_start b) PAGE_SIZE.
(** The end is computed from [free_pmm_start]. *)
Definition kvm_size (b : boot_arg) : Z :=
  sub32 (ROUND_DOWN (add32 (free_pmm_start b) (free_kvm_size b)) PAGE_SIZE) (kvm_start b).

(** [kvm_slot_alct] with the list nodes in its memory; [sm_live] are the slots handed
    out, which no code reads. *)
Record slot_mem := SlotMem { sm_heap : DList.lheap; sm_alct : Slot.slot_alct; sm_live : gset Z }.

(** [kvm_slot_alloc] and [kvm_slot_free] as [mm_ops] of the kernel's ranges. The interface
    has no outcome for a list that points outside memory: that is [E_FAULT] here, and
    [memory_init] is proved not to meet it. *)
#[export] Instance slot_mem_ops : MmOps slot_mem := {
  mm_alloc a := match Vslots.kvm_slot_alloc (sm_alct a) (sm_heap a) with
    | Ret (_, Some x) h => (inr x, SlotMem h (sm_alct a) ({[x]} ∪ sm_live a))
    | Ret (err, None) h => (inl err, SlotMem h (sm_alct a) (sm_live a))
    | _ => (inl E_FAULT, a)
    end;
  mm_free x a := match Vslots.kvm_slot_free (sm_alct a) x (sm_heap a) with
    | Ret err h => (err, SlotMem h (sm_alct a) (sm_live a ∖ {[x]}))
    | _ => (E_FAULT, a)
    end;
  mm_live := sm_live }.

(** The static state of memory.c, [pm_alct] in [pt_pages], [kvm_alct] in [k_vm] and
    [kvm_slot_alct] in its [vm_mm], with the table of interrupts. *)
Record boot := Boot { bt_slab : slab (kmem slot_mem Pm.page_alct_t); bt_trap : Trap.trap }.

Section code.
(** What new structures hold, the address of [page_fault_hdl], the directory in use, the
    addresses of [pm_slot], of the head of [kvm_slot_alct] and of [kvm_slot]. *)
Context (junk : Z) (junk_type : vp_type) (page_fault_hdl kern_pde pm_slot head kvm_slot : Z).
Abbreviation M := (Prelude.M boot).

Definition on_slab {B} (m : Prelude.M (slab (kmem slot_mem Pm.page_alct_t)) B) : M B :=
  zoom bt_slab (λ x s, Boot x (bt_trap s)) m.
Definition on_kmem {B} (m : Prelude.M (kmem slot_mem Pm.page_alct_t) B) : M B :=
  on_slab (zoom pages (λ x s, Slab (freep s) (slab_lock s) (cnts s) x) m).
Definition on_pm {B} (m : Prelude.M Pm.page_alct_t B) : M B :=
  on_kmem (on_ptb (zoom pt_pages (λ x t, PtbSt (pt_mmu t) (ptb_lock t) x) m)).
Definition on_slots {B} (m : Prelude.M slot_mem B) : M B :=
  on_kmem (on_vm (zoom vm_mm (λ x v, Vm (free_root v) (alloced_root v) (vnodes v) (vps v) (vm_lock v) x) m)).
Definition on_trap {B} (m : Prelude.M Trap.trap B) : M B := zoom bt_trap (λ x s, Boot (bt_slab s) x) m.

(** [slot_init] and [slot_insert] of the slots for [struct vpage_t]. *)
Definition kvm_slots_setup : Prelude.M slot_mem unit :=
  alct <- zoom sm_heap (λ h a, SlotMem h (sm_alct a) (sm_live a)) (Vslots.slots_setup head kvm_slot) ;;
  modify (λ a, SlotMem (sm_heap a) alct ∅).

(** [Physmem.pm_setup] is [pm_init] and, if it succeeds, [pm_insert]. *)
Definition memory_init (b : boot_arg) : M Z :=
  err <- on_pm (Physmem.pm_setup pm_slot (pmm_start b) (pmm_size b)) ;;
  if negb (err =? E_OK) then ret err else
  on_kmem (on_ptb (ptb_init kern_pde)) ;;;
  on_slots kvm_slots_setup ;;;
  on_kmem (on_vm vm_init) ;;;
  err <- on_kmem (on_vm (vm_insert junk junk_type (kvm_start b) (kvm_size b))) ;;
  if negb (err =? E_OK) then ret err else
  err <- on_slab slab_init ;;
  if negb (err =? E_OK) then ret err else
  on_trap (Trap.intr_register Trap.INTR_PGFAULT page_fault_hdl).
End code.

(** ** What the memory map becomes *)

(** All of the entry is below 4 GB: the code does not look at the high halves. *)
Definition low_entry (e : mmap_entry) : Prop :=
  base_addr_high e = 0 ∧ length_high e = 0 ∧
  0 ≤ base_addr_low e ∧ 0 ≤ length_low e ∧ base_addr_low e + length_low e < W32.
(** The image of the kernel is inside the entry or outside it. *)
Definition whole_image (ks ke : Z) (e : mmap_entry) : Prop :=
  (base_addr_low e ≤ ks ∧ ke ≤ base_addr_low e + length_low e) ∨
  ke ≤ base_addr_low e ∨ base_addr_low e + length_low e ≤ ks.
(** Memory that an entry reports as usable, without the kernel's. *)
Definition usable (ks ke : Z) (l : list mmap_entry) (a n : Z) : Prop := ∃ e, e ∈ l ∧ etype e = 1 ∧
  base_addr_low e ≤ a ∧ 0 ≤ n ∧ a + n ≤ base_addr_low e + length_low e ∧ (a + n ≤ ks ∨ ke ≤ a).

Lemma collect_body_spec ks ke l e b : e ∈ l → 0 ≤ ks < ke →
  (etype e = 1 → low_entry e ∧ whole_image ks ke e) →
  let b' := collect_body ks ke e b in
  (b' = b ∨ usable ks ke l (free_pmm_start b') (free_pmm_size b')) ∧
  free_kvm_start b' = free_kvm_start b ∧ free_kvm_size b' = free_kvm_size b.
Proof.
  intros He Hk Hlow. unfold collect_body. cbv zeta.
  destruct (Z.eqb_spec (etype e) 1) as [Ht|]; [|by split; [left|]].
  destruct (Hlow Ht) as [(_ & _ & H0 & H1 & Hw) Hi].
  assert (add32 (base_addr_low e) (length_low e) = base_addr_low e + length_low e) as -> by (apply u32_small; unfold is_u32; lia).
  assert (∀ a n, base_addr_low e ≤ a → 0 ≤ n → a + n ≤ base_addr_low e + length_low e → a + n ≤ ks ∨ ke ≤ a →
    usable ks ke l a n) as Hu by (intros a n ????; by exists e).
  destruct (Z.leb_spec (base_addr_low e) ks), (Z.leb_spec ke (base_addr_low e + length_low e)); cbn [andb].
  { assert (sub32 ks (base_addr_low e) = ks - base_addr_low e) as -> by (apply u32_small; unfold is_u32; lia).
    assert (sub32 (base_addr_low e + length_low e) ke = base_addr_low e + length_low e - ke) as ->
      by (apply u32_small; unfold is_u32; lia).
    destruct (ks =? base_addr_low e), (ke =? base_addr_low e + length_low e); cbn [negb]; (split; [|done]);
      first [by left|right; cbn [add_memory free_pmm_start free_pmm_size]; apply Hu; lia]. }
  all: destruct (negb _); (split; [|done]); [right; cbn [add_memory free_pmm_start free_pmm_size]|by left].
  all: unfold whole_image in Hi; apply Hu; lia.
Qed.

(** What is free is memory that an entry reports, and none of it is the kernel's; the
    kernel's addresses begin behind those of the boot tables. *)
Lemma collect_spec kern_start kern_end l b :
  let ks := sub32 kern_start KERN_BASE in let ke := sub32 kern_end KERN_BASE in
  let b' := collect_mm_info_early kern_start kern_end l b in
  0 ≤ ks < ke → Forall (λ e, etype e = 1 → low_entry e ∧ whole_image ks ke e) l →
  ((free_pmm_start b', free_pmm_size b') = (free_pmm_start b, free_pmm_size b) ∨
   usable ks ke l (free_pmm_start b') (free_pmm_size b')) ∧
  free_kvm_start b' = 0xC0400000 ∧ free_kvm_size b' = 0x3DC00000.
Proof.
  intros ks ke b' Hk Hl. subst b'. unfold collect_mm_info_early. fold ks ke.
  change (add32 KERN_BASE (CONFIG_NR_BOOT_PTE * 1024 * PAGE_SIZE)) with 0xC0400000.
  change (sub32 DEV_BASE 0xC0400000) with 0x3DC00000. set (b0 := BootArg _ _ _ _).
  assert (∀ l1 l2 b, l = l1 ++ l2 → 
    ((free_pmm_start b, free_pmm_size b) = (free_pmm_start b0, free_pmm_size b0) ∨ usable ks ke l (free_pmm_start b) (free_pmm_size b)) →
    free_kvm_start b = 0xC0400000 → free_kvm_size b = 0x3DC00000 →
    let b' := fold_left (λ b e, collect_body ks ke e b) l2 b in
    ((free_pmm_start b', free_pmm_size b') = (free_pmm_start b0, free_pmm_size b0) ∨
     usable ks ke l (free_pmm_start b') (free_pmm_size b')) ∧
    free_kvm_start b' = 0xC0400000 ∧ free_kvm_size b' = 0x3DC00000) as Hgo.
  { intros l1 l2. revert l1. induction l2 as [|e l2 IH]; intros l1 b1 El Hb Hs1 Hs2; [by split|]. cbn [fold_left].
    assert (e ∈ l) as He by (rewrite El; apply elem_of_app; right; left).
    rewrite Forall_forall in Hl.
    destruct (collect_body_spec ks ke l e b1 He Hk (Hl e He)) as (Hc & Hc1 & Hc2).
    apply (IH (l1 ++ [e])); [by rewrite El, <- app_assoc| |by rewrite Hc1|by rewrite Hc2].
    destruct Hc as [->|Hc]; [done|by right]. }
  apply (Hgo [] l b0); [done|by left|done|done].
Qed.

(** With the addresses the boot code passes, the range of kernel addresses runs past the
    end of the address space, whatever the machine's memory, unless it is all above
    0x82800000. *)
Lemma kvm_range_wraps b : free_kvm_start b = 0xC0400000 → free_kvm_size b = 0x3DC00000 →
  0 ≤ free_pmm_start b < 0x82800000 → W32 ≤ kvm_start b + kvm_size b.
Proof.
  intros Hs Hn Hp. unfold kvm_size, kvm_start. rewrite Hs, Hn. change (ROUND_UP 0xC0400000 PAGE_SIZE) with 0xC0400000.
  assert (W32 = 4294967296) as EW by done. change PAGE_SIZE with 4096.
  assert (add32 (free_pmm_start b) 0x3DC00000 = free_pmm_start b + 0x3DC00000) as -> by (apply u32_small; unfold is_u32; lia).
  rewrite round_down_eq by lia. set (x := free_pmm_start b + 0x3DC00000).
  pose proof (Z.mod_pos_bound x 4096 ltac:(lia)). assert (0x3DC00000 ≤ x) by (unfold x; lia).
  assert (x mod 4096 ≤ x) by (apply Z.mod_le; lia). unfold sub32, u32.
  rewrite <- (Z.mod_add (x - x mod 4096 - 0xC0400000) 1 W32) by lia.
  rewrite Z.mod_small; unfold x in *; lia.
Qed.

(** ** The parts of [memory_init] *)

(** The bytes of the whole pages in [a, a + n). *)
Definition in_pages (a n x : Z) : Prop :=
  ∃ k, a ≤ 4096 * k ∧ 4096 * k + 4096 ≤ a + n ∧ 4096 * k ≤ x < 4096 * k + 4096.

Lemma pmm_range b x0 : 0 ≤ free_pmm_start b → free_pmm_start b + free_pmm_size b < W32 →
  in_pages (free_pmm_start b) (free_pmm_size b) x0 →
  is_u32 (pmm_start b) ∧ pmm_start b mod PAGE_SIZE = 0 ∧ 0 < pmm_size b < W32 ∧ pmm_size b mod PAGE_SIZE = 0 ∧
  pmm_start b + pmm_size b ≤ W32 ∧
  ∀ x, pmm_start b ≤ x < pmm_start b + pmm_size b ↔ in_pages (free_pmm_start b) (free_pmm_size b) x.
Proof.
  intros Ha Hw (k0 & K1 & K2 & _). unfold pmm_size, pmm_start. set (a := free_pmm_start b) in *. set (n := free_pmm_size b) in *.
  assert (W32 = 4294967296 ∧ PAGE_SIZE = 4096) as [EW EP] by done. rewrite EP.
  destruct (round_up_spec a 4096) as [Hm Hu]; [lia..|]. set (S := ROUND_UP a 4096) in *.
  assert (add32 a n = a + n) as -> by (apply u32_small; unfold is_u32; lia).
  rewrite round_down_eq by lia. set (E := a + n - (a + n) mod 4096).
  pose proof (Z.mod_pos_bound (a + n) 4096 ltac:(lia)).
  assert (S = 4096 * (S / 4096)) as HS by (rewrite (Z.div_mod S 4096) at 1 by lia; lia).
  assert (E = 4096 * ((a + n) / 4096)) as HE by (unfold E; pose proof (Z.div_mod (a + n) 4096 ltac:(lia)); lia).
  set (i := S / 4096) in *. set (j := (a + n) / 4096) in *.
  assert (i ≤ k0 ∧ k0 + 1 ≤ j) as [Hi Hj] by lia.
  assert (sub32 E S = E - S) as -> by (apply u32_small; unfold is_u32; lia).
  split_and!; try (unfold is_u32; lia); try done.
  - rewrite HE, HS, <- Z.mul_sub_distr_l, Z.mul_comm. by apply Z.mod_mul.
  - intros x. split.
    + intros Hx. exists (x / 4096). pose proof (Z.div_mod x 4096 ltac:(lia)). pose proof (Z.mod_pos_bound x 4096 ltac:(lia)). lia.
    + intros (k & Hk1 & Hk2 & Hk). assert (i ≤ k ∧ k + 1 ≤ j) by lia. lia.
Qed.

Lemma kvm_range_aligned b : free_kvm_start b = 0xC0400000 →
  kvm_start b = 0xC0400000 ∧ kvm_size b mod 4096 = 0.
Proof.
  intros Hs. assert (kvm_start b = 0xC0400000) as Hk by (unfold kvm_start; rewrite Hs; done). split; [done|].
  unfold kvm_size. rewrite Hk. change PAGE_SIZE with 4096. rewrite round_down_eq by lia. unfold sub32, u32.
  rewrite Z.mod_mod_divide by (by exists 1048576).
  set (x := add32 _ _). rewrite Zminus_mod, (Zminus_mod x), Z.mod_mod, Z.sub_diag by lia. done.
Qed.

(** [pm_init] and [pm_insert] of static memory that is all zero. *)
Lemma pm_up pm_slot a n s : Physmem.pm_blank pm_slot s →
  is_u32 a → a mod PAGE_SIZE = 0 → 0 < n < W32 → n mod PAGE_SIZE = 0 → a + n ≤ W32 →
  wp (Physmem.pm_setup pm_slot a n) (λ err s', err = E_OK ∧ ∃ L t, PmProps.pm_ok L ∅ t s' ∧
    ∀ x, PmSpec.covers L (Pm.pages s') x ↔ a ≤ x < a + n) s.
Proof.
  intros [Hp Hm _] Ha Ham Hn Hnm Hw.
  assert (Physmem.SZ_PM_SLOT = 524288 ∧ Z.of_nat Pm.NR_BUDDY_ORDER * Slot.SZ_LIST_NODE = 168) as [E1 E2] by done.
  assert (W32 = 4294967296) as EW by done. unfold Physmem.pm_setup. apply wp_bind.
  eapply wp_mono; [apply PmProps.pm_init_correct; try lia|].
  - intros p Hin. split; [|by apply Hm]. apply Slot.elem_of_slots in Hin as (i & _ & ->). unfold NULL, Pm.SZ_PAGE. lia.
  - intros err s1. replace (Physmem.SZ_PM_SLOT <? _) with false by (symmetry; apply Z.ltb_ge; lia).
    intros (-> & Hok & Hno & Hsl). cbn [negb Z.eqb E_OK].
    eapply wp_mono; [apply (PmProps.pm_insert_spec ∅ ∅ E s1 a n Hok); try done|].
    + rewrite Hsl. unfold Slot.slots. rewrite length_fmap, length_seq. by vm_compute.
    + intros err s2 (-> & _ & L & Hok2 & _ & Hc). split; [done|]. exists L, E. split; [done|].
      intros x. rewrite Hc. split; [intros [Hx|Hx]; [by apply Hno in Hx|done]|by right].
Qed.

(** The slots are made, and there is one. *)
Lemma slots_up head kvm_slot (a : slot_mem) : Vslots.slots_blank head kvm_slot (sm_heap a) →
  wp (kvm_slots_setup head kvm_slot) (λ _ a', ∃ x a'', mm_alloc a' = (inr x, a'') ∧ x ≠ NULL ∧ x ∈ sm_live a'' ∧
    Vslots.pool_ok (sm_heap a'') (sm_alct a'') (sm_live a'')) a.
Proof.
  intros Hb. unfold kvm_slots_setup. apply wp_bind, wp_zoom.
  eapply wp_mono; [by apply Vslots.slots_setup_spec|]. intros alct h [Hok (y & l & Hy)]. apply wp_modify.
  cbn [mm_alloc slot_mem_ops sm_heap sm_alct sm_live].
  pose proof (Vslots.kvm_slot_alloc_spec h alct ∅ Hok) as Hal. unfold wp in Hal.
  unfold Vslots.kvm_slot_alloc, Slot.slot_alloc in *.
  pose proof (DList.list_isempty_spec _ _ _ Hy) as He. unfold wp in He. unfold bind at 1 in Hal. unfold bind at 1.
  destruct (DList.list_isempty _ _) as [e h1| | |]; [|done..]. destruct He as [-> ->]. rewrite bool_decide_false in Hal |- * by done.
  unfold bind in *. destruct (DList.list_pop_front _ _) as [x h2| | |]; [|done..]. cbn [ret fst snd] in *.
  destruct Hal as (_ & Hx & _ & Hp). exists x. eexists. split; [done|]. cbn [sm_heap sm_alct sm_live]. split_and!; [done|set_solver|done].
Qed.

(** The only range of an address space that had none: any pages, however many. *)
Definition one_free {A} `{MmOps A} (r : Z * Z) (v : vm A) : Prop :=
  vm_lock v = false ∧ ∃ tf, vm_okb true tf E v ∧ rng v <$> elems tf = [r].

Lemma rbt_insert_mm {A} (v : vm A) p :
  wlp (rbt_insert (@on_free A) p) (λ _ v', vm_mm v' = vm_mm v) v.
Proof.
  unfold rbt_insert. eapply wlp_step; [done|]. apply wlp_bind, wlp_zoom.
  eapply wlp_mono; [apply keeps_tree_insert|]. by intros b r _.
Qed.

Lemma first_range {A} `{MmOps A} junk junk_type (v : vm A) a n p m :
  free_root v = NULL → alloced_root v = NULL → vm_lock v = false → mm_alloc (vm_mm v) = (inr p, m) →
  p ≠ NULL → p ∈ mm_live m → a mod 4096 = 0 → n mod 4096 = 0 →
  wp (vm_insert junk junk_type a n) (λ err v', err = E_OK ∧ one_free (a, n) v' ∧ vm_mm v' = m) v.
Proof.
  intros Hf Hal Hlk Hmm Hp0 Hlive Ha Hn. unfold vm_insert. change PAGE_SIZE with 4096. rewrite Ha, Hn.
  apply wp_bind, wp_assert. split; [done|]. apply vm_wp_lock; [done|].
  unfold vpage_new, alloc_vp. apply wp_bind, wp_bind, wp_bind, wp_get. cbn [locked vm_mm]. rewrite Hmm.
  apply wp_bind, wp_put, wp_ret. eapply vp_get; [apply lookup_insert_eq|]. apply wp_bind, wp_modify, wp_ret.
  cbn [locked free_root alloced_root vnodes vps vm_lock vm_mm mx_size vtype map_page]. rewrite insert_insert_eq, Hf, Hal.
  set (v1 := Vm _ _ _ _ _ _).
  assert (vm_okb true E E v1) as Hok.
  { assert (∀ h, is_rbt E (Rbt NULL h)) as He.
    { intros h. split; [|split; [done|by exists 0%nat; constructor]].
      split; cbn [elems rep RbtTree.addr rbt_root rbt_nodes]; [done|done|constructor|set_solver|set_solver|done]. }
    split; first [apply He|by intros ? ?%elem_of_nil|by constructor]. }
  assert (loose E E v1 p) as Hl.
  { split_and!; [done|by intros ?%elem_of_nil| | |done]; unfold v1; cbn; rewrite lookup_insert_eq; by eexists. }
  assert (rng v1 p = (a, n)) as Hr by (unfold rng, addr_of, size_of, v1; cbn; by rewrite lookup_insert_eq).
  unfold vm_insert_free. apply wp_bind, wp_bind. eapply wp_mono.
  { apply wp_and_wlp; [eapply insert_free_spec; [exact Hok|exact Hl|by intros ? ?%elem_of_nil]|apply rbt_insert_mm]. }
  intros err s1 [(-> & tf & l1 & l2 & He & He1 & Hok1 & [Hlk1 Hsv]) Hm1].
  assert (elems tf = [p]) as Htf by (symmetry in He; apply app_eq_nil in He as [-> ->]; done).
  change (negb (E_OK =? E_OK)) with false. cbv iota. destruct (walk_P tf E s1 Hok1) as [HPR HPu].
  apply wp_bind. eapply wp_mono.
  { eapply (rbt_insert_update_spec free_rbt set_free set_free_id _ _ tf update (mx_only s1) HPR HPu);
      [apply mx_only_refl|rewrite Htf; left]. }
  intros ? s2 Hs2. cbn beta in Hs2. pose proof (mx_only_ok _ _ _ _ Hs2 Hok1) as Hok2.
  pose proof (proj1 (vo_free _ _ _ Hok2)) as HR. unfold vm_merge.
  eapply (wp_zoom_read _ _ set_free_id _ _ _ (λ k, (0 < k)%nat)); [apply wp_gets; split; [done|lia]|].
  intros [|fuel] Hfuel; [lia|]. cbn [loop].
  assert (wp (on_free (rbt_next p)) (λ t s', s' = s2 ∧ t = NULL) s2 ∧ wp (on_free (rbt_prev p)) (λ t s', s' = s2 ∧ t = NULL) s2) as [Hnx Hpv].
  { split; apply wp_zoom; (eapply wp_mono; [first [by apply (rbt_next_spec _ _ _ _ [] p [] HR)|by apply (rbt_prev_spec _ _ _ _ [] p [] HR)]|]);
      intros t x [-> ->]; by rewrite set_free_id. }
  assert (wp (merge_next_body p tt) (λ r s', r = inr false ∧ s' = s2) s2) as Hn1.
  { unfold merge_next_body. apply wp_bind. eapply wp_mono; [exact Hnx|]. intros ? ? [-> ->]. by apply wp_ret. }
  assert (wp (merge_prev_body p tt) (λ r s', r = inr false ∧ s' = s2) s2) as Hp1.
  { unfold merge_prev_body. apply wp_bind. eapply wp_mono; [exact Hpv|]. intros ? ? [-> ->]. by apply wp_ret. }
  apply wp_bind, wp_bind. eapply wp_mono; [exact Hn1|]. intros ? ? [-> ->]. apply wp_ret. cbv beta iota.
  apply wp_bind, wp_bind. eapply wp_mono; [exact Hp1|]. intros ? ? [-> ->]. apply wp_ret. cbv beta iota.
  apply wp_ret, wp_bind, wp_modify, wp_ret. split; [done|]. destruct Hs2 as (X1 & X2 & X3 & X4 & X5 & X6) eqn:EX.
  split; [|cbn [vm_mm]; rewrite X5, Hm1; done]. split; [done|]. exists tf. split; [by apply vm_ok_lock in Hok2 as [_ ?]|].
  rewrite Htf. cbn [fmap list_fmap]. f_equal. change (rng s2 p = (a, n)). rewrite <- Hr, (mx_only_rng _ _ _ Hs2). apply Hsv.
Qed.

(** ** The theorem *)

(** The memory map [l] and the image of the kernel give these arguments to [memory_init]:
    [boot_arg] is zero when the boot code starts. *)
Definition boot_args (kern_start kern_end : Z) (l : list mmap_entry) : boot_arg :=
  collect_mm_info_early kern_start kern_end l (BootArg 0 0 0 0).

(** C7: [memory_init] with the arguments that the boot code makes of the memory map, on
    static memory that is all zero: when every usable entry is below 4 GB and has all or
    nothing of the kernel's image, and the entry that was taken holds a whole page, it
    returns [E_OK] and the kernel's memory is up. The buddy system satisfies its invariant
    with nothing allocated and stands for exactly the bytes of the whole pages of that
    entry, all of them usable memory outside the kernel's image. The slots for
    [struct vpage_t] satisfy theirs. The address space of the kernel has one free range,
    from 0xC0400000, and nothing allocated; its size is what the code computes from
    [free_pmm_start], so that unless the memory begins at 0x82800000 or above, the range
    runs past the end of the address space. No page table is written, the slabs are empty,
    all locks are free, and the page fault handler is registered. *)
Theorem memory_init_correct junk junk_type page_fault_hdl kern_pde pm_slot head kvm_slot
    kern_start kern_end l (s : boot) :
  let ks := sub32 kern_start KERN_BASE in let ke := sub32 kern_end KERN_BASE in
  let b := boot_args kern_start kern_end l in let k := pages (bt_slab s) in
  0 ≤ ks < ke → Forall (λ e, etype e = 1 → low_entry e ∧ whole_image ks ke e) l →
  (∃ x, in_pages (free_pmm_start b) (free_pmm_size b) x) →
  Physmem.pm_blank pm_slot (pt_pages (k_ptb k)) → Vslots.slots_blank head kvm_slot (sm_heap (vm_mm (k_vm k))) →
  (14 < length (Trap.intr_table (bt_trap s)))%nat →
  wp (memory_init junk junk_type page_fault_hdl kern_pde pm_slot head kvm_slot b) (λ err s', err = E_OK ∧
    let k' := pages (bt_slab s') in let pm := pt_pages (k_ptb k') in let sm := vm_mm (k_vm k') in
    (∃ L t, PmProps.pm_ok L ∅ t pm ∧
       ∀ x, PmSpec.covers L (Pm.pages pm) x ↔ in_pages (free_pmm_start b) (free_pmm_size b) x) ∧
    usable ks ke l (free_pmm_start b) (free_pmm_size b) ∧
    Vslots.pool_ok (sm_heap sm) (sm_alct sm) (sm_live sm) ∧
    one_free (0xC0400000, kvm_size b) (k_vm k') ∧
    (free_pmm_start b < 0x82800000 → W32 ≤ 0xC0400000 + kvm_size b) ∧
    pt_mmu (k_ptb k') = pt_mmu (k_ptb k) ∧ ptb_lock (k_ptb k') = false ∧
    freep (bt_slab s') = NULLP ∧ slab_lock (bt_slab s') = false ∧
    bt_trap s' = Trap.set_intr (<[14%nat := page_fault_hdl]> (Trap.intr_table (bt_trap s))) (bt_trap s)) s.
Proof.
  intros ks ke b k Hk Hl [x0 Hx0] Hpm Hsl Ht.
  destruct (collect_spec kern_start kern_end l (BootArg 0 0 0 0) Hk Hl) as (Hu & Hb1 & Hb2). fold ks ke in Hu.
  change (collect_mm_info_early kern_start kern_end l (BootArg 0 0 0 0)) with b in Hu, Hb1, Hb2.
  assert (usable ks ke l (free_pmm_start b) (free_pmm_size b)) as Hus.
  { destruct Hu as [Hu|Hu]; [|done]. cbn in Hu. injection Hu as E1 E2. rewrite E1, E2 in Hx0.
    destruct Hx0 as (i & ? & ? & _). lia. }
  assert (0 ≤ free_pmm_start b ∧ free_pmm_start b + free_pmm_size b < W32) as [Hb3 Hb4].
  { destruct Hus as (e & He & Het & U1 & U2 & U3 & _). rewrite Forall_forall in Hl.
    destruct (Hl e He Het) as [(_ & _ & L1 & L2 & L3) _]. lia. }
  destruct (pmm_range b x0 Hb3 Hb4 Hx0) as (R1 & R2 & R3 & R4 & R5 & R6).
  destruct (kvm_range_aligned b Hb1) as [K1 K2].
  destruct s as [[f lk c [v t]] tr]. cbn [bt_slab pages bt_trap k_vm k_ptb] in *. subst k.
  unfold memory_init. apply wp_bind. unfold on_pm, on_kmem, on_slab, on_ptb. rewrite !wp_zoom.
  cbn [bt_slab pages k_ptb]. eapply wp_mono; [by apply pm_up|]. intros err pm1 (-> & L & tr1 & Hok & Hc).
  cbn [negb Z.eqb E_OK]. eapply wp_step; [done|].
  cbn [bt_slab pages bt_trap k_vm k_ptb pt_mmu pt_pages ptb_lock Slab.freep Slab.slab_lock cnts].
  apply wp_bind. unfold on_slots, on_kmem, on_slab, on_vm. rewrite !wp_zoom. cbn [bt_slab pages k_vm].
  eapply wp_mono; [by apply slots_up|]. intros _ sm (p & m & Hmm & Hp0 & Hplive & Hpool).
  eapply wp_step; [done|].
  cbn [bt_slab pages bt_trap k_vm k_ptb pt_mmu pt_pages ptb_lock Slab.freep Slab.slab_lock cnts].
  apply wp_bind. rewrite !wp_zoom. cbn [bt_slab pages k_vm]. rewrite K1.
  eapply wp_mono; [by apply (first_range junk junk_type _ _ _ p m)|]. intros err v' (-> & Hone & Hm).
  cbn [negb Z.eqb E_OK]. eapply wp_step; [done|]. cbn [negb Z.eqb E_OK].
  cbn [bt_slab pages bt_trap k_vm k_ptb pt_mmu pt_pages ptb_lock Slab.freep Slab.slab_lock cnts].
  apply wp_zoom. cbn [bt_trap]. unfold Trap.intr_register, Trap.nth_of.
  destruct (lookup_lt_is_Some_2 _ _ Ht) as [x Hx]. change (Z.to_nat Trap.INTR_PGFAULT) with 14%nat.
  apply wp_bind, wp_bind, wp_get. change (0 <=? Trap.INTR_PGFAULT) with true. cbv iota.
  apply wp_deref. exists x. split; [done|]. apply wp_bind, wp_modify, wp_bind.
  change ((32 <? Trap.INTR_PGFAULT) && (Trap.INTR_PGFAULT <? 48)) with false. cbv iota. apply wp_ret, wp_ret.
  cbn [bt_slab pages bt_trap k_vm k_ptb pt_mmu pt_pages ptb_lock Slab.freep Slab.slab_lock].
  split; [done|]. cbv zeta. rewrite Hm. split_and!; try done.
  - exists L, tr1. split; [done|]. intros y. by rewrite Hc, R6.
  - intros Hlow. rewrite <- K1. apply kvm_range_wraps; [done..|lia].
Qed.

(** 4 MB of memory at 0x100000 with a kernel image of 1 MB at its beginning, and static
    memory that is all zero. *)
Definition ex_map : list mmap_entry :=
  [MmapEntry 0 0 0x9F000 0 1; MmapEntry 0xF0000 0 0x10000 0 2; MmapEntry 0x100000 0 0x400800 0 1].
Definition ex_blank : Pm.page_alct_t := Pm.PageAlct []
  (list_to_map ((λ p, (p, Pm.Page 0 0 0 0 0 0 Pm.BUD_NOBUD Pm.BUD_FREE)) <$> Physmem.pm_slots 0x200000)) []
  (Rbt NULL (PmProps.ex_nodes (Physmem.pm_slots 0x200000))) false.
Definition ex_heap : DList.lheap :=
  list_to_map ((λ p, (p, DList.LNode 0 0)) <$> 0x2F0000 :: Vslots.kvm_slots 0x300000).
Definition ex_boot : boot := Boot (Slab 9 true ∅ (KMem
  (Vm 5 6 ∅ ∅ false (SlotMem ex_heap (Slot.SlotAlct 0 0) ∅)) (PtbSt ex_mmu true ex_blank))) TrapSpec.ex_trap.

Lemma ex_blank_ok : Physmem.pm_blank 0x200000 ex_blank.
Proof.
  split; [done|..].
  - intros p Hp. split; [by apply (PmProps.list_to_map_some (λ _, Pm.Page 0 0 0 0 0 0 Pm.BUD_NOBUD Pm.BUD_FREE))|].
    by apply (PmProps.list_to_map_some (λ _, RbtNode BLACK 0 0 0)).
  - intros p. unfold PmSpec.page_of, ex_blank. cbn [Pm.pages]. destruct (list_to_map _ !! p) as [x|] eqn:Hx; [|done].
    by apply elem_of_list_to_map_2, list_elem_of_fmap in Hx as (q & [= _ ->] & _).
Qed.
Lemma ex_slots_ok : Vslots.slots_blank 0x2F0000 0x300000 ex_heap.
Proof.
  assert (∀ x, x ∈ Vslots.kvm_slots 0x300000 → x ≠ 0x2F0000) as Hne.
  { intros x (i & _ & ->)%Slot.elem_of_slots. unfold Vslots.SZ_VPAGE. lia. }
  split; [split|done|].
  - apply (PmProps.list_to_map_some (λ _, DList.LNode 0 0)). left.
  - intros Hx. by apply (Hne _ Hx).
  - intros x Hx. apply (PmProps.list_to_map_some (λ _, DList.LNode 0 0)). by right.
Qed.

(** The whole pages behind the image are 0x200000 to 0x500000. *)
Lemma memory_init_correct_witness :
  wp (memory_init 7 UM_NOPM 0xC0100000 0x1000 0x200000 0x2F0000 0x300000 (boot_args 0xC0100000 0xC0200000 ex_map))
    (λ err s', err = E_OK ∧ one_free (0xC0400000, 0x7DA00000) (k_vm (pages (bt_slab s'))) ∧
      ∃ L, ∀ x, PmSpec.covers L (Pm.pages (pt_pages (k_ptb (pages (bt_slab s'))))) x ↔ in_pages 0x200000 0x300800 x) ex_boot.
Proof.
  assert (boot_args 0xC0100000 0xC0200000 ex_map = BootArg 0x200000 0x300800 0xC0400000 0x3DC00000) as Eb by by vm_compute.
  assert (Forall (λ e, etype e = 1 → low_entry e ∧ whole_image 0x100000 0x200000 e) ex_map) as Hl.
  { assert (W32 = 4294967296) as EW by done. unfold ex_map, low_entry, whole_image. rewrite EW.
    repeat (apply Forall_cons_2; [cbn [base_addr_low base_addr_high length_low length_high etype]; intros; lia|]). constructor. }
  assert (∃ x, in_pages 0x200000 0x300800 x) as Hx by (exists 0x200000, 512; lia).
  assert (14 < length (Trap.intr_table (bt_trap ex_boot)))%nat as Ht by (apply Nat.ltb_lt; by vm_compute).
  assert (sub32 0xC0100000 KERN_BASE = 0x100000 ∧ sub32 0xC0200000 KERN_BASE = 0x200000) as [E1 E2] by (split; reflexivity).
  assert (0 ≤ 0x100000 < 0x200000) as Hk by lia.
  assert (kvm_size (BootArg 0x200000 0x300800 0xC0400000 0x3DC00000) = 0x7DA00000) as E3 by by vm_compute.
  refine (wp_mono _ _ _ _ (memory_init_correct 7 UM_NOPM 0xC0100000 0x1000 0x200000 0x2F0000 0x300000
    0xC0100000 0xC0200000 ex_map ex_boot _ _ _ ex_blank_ok ex_slots_ok Ht) _).
  - rewrite E1, E2. exact Hk.
  - rewrite E1, E2. exact Hl.
  - rewrite Eb. exact Hx.
  - intros err s'. rewrite Eb, E3. intros (He & (L & t & _ & HL) & _ & _ & Hone & _).
    split; [exact He|]. split; [exact Hone|]. exists L. exact HL.
Defined.
