(* ===== verification/Mp.v ===== *)
(** * The processors of the machine: arch/x86/src/setup/mp.c

    The firmware leaves a table of processors somewhere in low memory. [mp_init] searches
    for the pointer to it, checks it and enters each processor in the table of Cpu. The
    memory is the kernel's, where physical address [a] is at [KERN_BASE + a]. A pointer to
    a result is the address of a local variable of [mp_init]; the results are returned
    beside the error code. *)
From S2P Require Import Prelude Machine Cstring Words Cpu.

Abbreviation len l := (Z.of_nat (length l)).

(** [struct mp], [struct mpconf], [struct mpproc] and [struct mpioapic]. *)
Definition SZ_MP : Z := 16.
Definition MP_PHYSADDR : Z := 4.
Definition SZ_MPCONF : Z := 44.
Definition CONF_LENGTH : Z := 4.
Definition CONF_VERSION : Z := 6.
Definition CONF_LAPICADDR : Z := 36.
Definition SZ_MPPROC : Z := 20.
Definition PROC_APICID : Z := 1.
Definition SZ_MPIOAPIC : Z := 8.
Definition MPPROC : Z := 0.
Definition MPBUS : Z := 1.
Definition MPIOAPIC : Z := 2.
Definition MPIOINTR : Z := 3.
Definition MPLINTR : Z := 4.

(** [lapic] is the variable of lapic.c. *)
Record mps := Mps { mp_mem : mem; mp_mach : machine; lapic : Z }.

Section code.
Abbreviation M := (Prelude.M mps).
Definition on_mp_mem {B} (c : Prelude.M mem B) : M B := zoom mp_mem (λ m s, Mps m (mp_mach s) (lapic s)) c.
Definition on_cpus {B} (c : Prelude.M machine B) : M B := zoom mp_mach (λ x s, Mps (mp_mem s) x (lapic s)) c.

Definition mp_sum_body (addr n : Z) (v : Z * Z) : Prelude.M mem (Z * Z + Z) :=
  let '(i, sum) := v in
  if i <? n then b <- rd (add32 addr i) ;; ret (inl (add32 i 1, (sum + b) mod 256)) else ret (inr sum).
(** [sum] *)
Definition sum_bytes (addr n : Z) : Prelude.M mem Z := loop (S (Z.to_nat n)) (mp_sum_body addr n) (0, 0).

(** Where the strings "_MP_" and "PCMP" are. *)
Context (s_mp s_pcmp : Z).
Definition search_body (bound p : Z) : Prelude.M mem (Z + Z * Z) :=
  if p <? bound then
    c <- memcmp p s_mp 4 ;;
    b <- (if c =? 0 then
            s <- sum_bytes p SZ_MP ;;
            if s =? 0 then a <- rdw (add32 p MP_PHYSADDR) ;; ret (negb (a =? 0)) else ret false
          else ret false) ;;
    if b : bool then ret (inr (E_OK, p)) else ret (inl (add32 p SZ_MP))
  else ret (inr (E_NOTFOUND, p)).
Definition _mpsearch (addr size : Z) : Prelude.M mem (Z * Z) :=
  let addr := add32 addr KERN_BASE in loop (S (Z.to_nat size)) (search_body (add32 addr size)) addr.

Definition BDA : Z := 0x400 + KERN_BASE.
Definition mpsearch : Prelude.M mem (Z * Z) :=
  h <- rd (add32 BDA 0x0F) ;; l <- rd (add32 BDA 0x0E) ;;
  let addr := Z.shiftl (Z.lor (Z.shiftl h 8) l) 4 in
  r <- (if negb (addr =? 0) then _mpsearch addr 1024 else ret (E_NOTFOUND, 0)) ;;
  if negb (addr =? 0) && (fst r =? E_OK) then ret r else
  h <- rd (add32 BDA 0x14) ;; l <- rd (add32 BDA 0x13) ;;
  let addr := Z.lor (Z.shiftl h 8) l * 1024 in
  r <- (if negb (addr =? 0) then _mpsearch (sub32 addr 1024) 1024 else ret (E_NOTFOUND, 0)) ;;
  if negb (addr =? 0) && (fst r =? E_OK) then ret r else
  _mpsearch 0xF0000 0x10000.

Definition mpconfig (mp : Z) : Prelude.M mem (Z * Z) :=
  a <- rdw (add32 mp MP_PHYSADDR) ;;
  let conf := add32 a KERN_BASE in
  c <- memcmp conf s_pcmp 4 ;;
  if negb (c =? 0) then ret (E_NOTFOUND, conf) else
  v <- rd (add32 conf CONF_VERSION) ;;
  if negb (v =? 1) && negb (v =? 4) then ret (E_FAULT, conf) else
  n <- rdh (add32 conf CONF_LENGTH) ;; s <- sum_bytes conf n ;;
  if negb (s =? 0) then ret (E_FAULT, conf) else ret (E_OK, conf).

(** A turn of the loop of [mp_init]: the address, the error code and [*num_cpu]. An entry of
    another type is not stepped over. *)
Definition entry_body (mpconf : Z) (v : Z * Z * Z) : M (Z * Z * Z + Z * Z) :=
  let '(addr, err, num_cpu) := v in
  n <- on_mp_mem (rdh (add32 mpconf CONF_LENGTH)) ;;
  if addr <? add32 mpconf n then
    type <- on_mp_mem (rd addr) ;;
    if type =? MPPROC then
      r <- on_cpus cpu_new ;;
      match r with
      | (err, Some cpu) =>
          id <- on_mp_mem (rd (add32 addr PROC_APICID)) ;;
          on_cpus (upd_cpu cpu (λ c, Cpu (cpuid c) id (task c) (ss0 c) (esp0 c) (iomb c))) ;;;
          ret (inl (add32 addr SZ_MPPROC, err, num_cpu + 1))
      | (err, None) => ret (inl (add32 addr SZ_MPPROC, err, num_cpu))
      end
    else if type =? MPIOAPIC then ret (inl (add32 addr SZ_MPIOAPIC, err, num_cpu))
    else if (type =? MPBUS) || (type =? MPIOINTR) || (type =? MPLINTR) then ret (inl (add32 addr 8, err, num_cpu))
    else ret (inl (addr, err, num_cpu))
  else ret (inr (err, num_cpu)).

(** The loop runs for ever or at most once per byte of the table. *)
Definition mp_init : M (Z * Z) :=
  r <- on_mp_mem mpsearch ;;
  if negb (fst r =? E_OK) then ret (fst r, 0) else
  r <- on_mp_mem (mpconfig (snd r)) ;;
  if negb (fst r =? E_OK) then ret (fst r, 0) else
  let mpconf := snd r in
  a <- on_mp_mem (rdw (add32 mpconf CONF_LAPICADDR)) ;;
  modify (λ s, Mps (mp_mem s) (mp_mach s) a) ;;;
  n <- on_mp_mem (rdh (add32 mpconf CONF_LENGTH)) ;;
  loop (S (Z.to_nat n)) (entry_body mpconf) (add32 mpconf SZ_MPCONF, E_OK, 0).
End code.

(** ** The pointer to the table *)
Definition total_of (l : list Z) : Z := foldr Z.add 0 l.
Definition bytes_at (m : mem) (p : Z) (n : nat) : list Z := (λ i, default 0 (m !! (p + Z.of_nat i))) <$> seq 0 n.
Definition MP_SIG : list Z := [95; 77; 80; 95].
Definition PC_SIG : list Z := [80; 67; 77; 80].
(** What the search looks for, on the bytes of a [struct mp]. *)
Definition is_mp (l : list Z) : bool :=
  bool_decide (take 4 l = MP_SIG) && (total_of l mod 256 =? 0) && negb (le (take 4 (drop 4 l)) =? 0).
Definition mp_here (m : mem) (p : Z) : bool := is_mp (bytes_at m p 16).
(** The addresses the search looks at, in order. *)
Definition area (a n : Z) : list Z := (λ i, KERN_BASE + a + 16 * Z.of_nat i) <$> seq 0 (Z.to_nat (n / 16)).
Definition places (b0E b0F b13 b14 : Z) : list Z :=
  let a1 := (b0F * 256 + b0E) * 16 in let a2 := (b14 * 256 + b13) * 1024 in
  (if a1 =? 0 then [] else area a1 1024) ++ (if a2 =? 0 then [] else area (a2 - 1024) 1024) ++ area 0xF0000 0x10000.

(** Memory as far as the search reads it. *)
Definition readable (m : mem) (p : Z) : Prop := mapped m p 16.
Fixpoint scannable (m : mem) (l : list Z) : Prop :=
  match l with [] => True | p :: l => readable m p ∧ (mp_here m p = false → scannable m l) end.
Fixpoint first_mp (m : mem) (l : list Z) : option Z :=
  match l with [] => None | p :: l => if mp_here m p then Some p else first_mp m l end.

Lemma first_mp_app m l1 l2 : first_mp m (l1 ++ l2) = match first_mp m l1 with Some p => Some p | None => first_mp m l2 end.
Proof. induction l1 as [|p l1 IH]; [done|]. cbn [app first_mp]. by destruct (mp_here m p). Qed.
Lemma scannable_app m l1 l2 : scannable m (l1 ++ l2) → scannable m l1 ∧ (first_mp m l1 = None → scannable m l2).
Proof.
  induction l1 as [|p l1 IH]; [done|]. cbn [app scannable first_mp]. intros [H1 H2]. destruct (mp_here m p).
  - split; [by split|done].
  - destruct (IH (H2 eq_refl)) as [H3 H4]. by split.
Qed.

Lemma bytes_at_holds m p n : mapped m p (Z.of_nat n) → holds m p (bytes_at m p n).
Proof.
  intros Hm i b Hi. unfold bytes_at in Hi. apply list_lookup_fmap_Some in Hi as (j & -> & [-> Hj]%lookup_seq).
  destruct (Hm (p + Z.of_nat i)) as [v Hv]; [lia|]. cbn [Nat.add]. by rewrite Hv.
Qed.
Lemma bytes_at_length m p n : length (bytes_at m p n) = n.
Proof. unfold bytes_at. by rewrite length_fmap, length_seq. Qed.
Lemma bytes_at_known m p l : holds m p l → bytes_at m p (length l) = l.
Proof.
  intros Hl. apply list_eq. intros i. unfold bytes_at. rewrite list_lookup_fmap. destruct (l !! i) as [b|] eqn:Hi.
  - pose proof (lookup_lt_Some _ _ _ Hi). rewrite lookup_seq_lt by done. cbn [Nat.add fmap option_fmap option_map]. by rewrite (Hl i b Hi).
  - apply lookup_ge_None in Hi. by rewrite lookup_seq_ge.
Qed.

Lemma total_of_app l1 l2 : total_of (l1 ++ l2) = total_of l1 + total_of l2.
Proof. induction l1 as [|x l1 IH]; [done|]. change (x + total_of (l1 ++ l2) = x + total_of l1 + total_of l2). lia. Qed.

Lemma sum_bytes_spec m a l : holds m a l → 0 < a → a + len l ≤ W32 →
  wp (sum_bytes a (len l)) (λ r m', m' = m ∧ r = total_of l mod 256) m.
Proof.
  intros Hl Ha Hw. assert (W32 = 4294967296) as EW by done. unfold sum_bytes. rewrite Nat2Z.id.
  apply (wp_loop (λ n v m', ∃ l1 l2, l = l1 ++ l2 ∧ n = length l2 ∧ m' = m ∧ v = (len l1, total_of l1 mod 256))) with (n := length l); [|lia|].
  - intros n v m' (l1 & l2 & -> & -> & -> & ->). rewrite length_app in *. unfold mp_sum_body. destruct l2 as [|b l2].
    + rewrite (proj2 (Z.ltb_ge _ _)) by (cbn [length]; lia). apply wp_ret. split; [done|]. by rewrite app_nil_r.
    + cbn [length] in *. rewrite (proj2 (Z.ltb_lt _ _)) by lia. apply holds_app in Hl as [_ Hl]. apply holds_cons in Hl as [Hb _].
      rewrite add32_small by lia. apply wp_bind, (wp_rd _ _ b); [done|]. apply wp_ret. exists (length l2). split; [lia|].
      exists (l1 ++ [b]), l2. rewrite <- app_assoc, length_app, total_of_app. split_and!; [done..|]. rewrite add32_small by (cbn [length]; lia).
      f_equal; [cbn [length]; lia|]. unfold total_of at 3. cbn [foldr]. by rewrite Zplus_mod_idemp_l, Z.add_0_r.
  - by exists [], l.
Qed.

Lemma wp_rdw_le m a l (Q : Z → mem → Prop) : holds m a l → length l = 4%nat → 0 ≤ a → a + 4 ≤ W32 → Q (le l) m → wp (rdw a) Q m.
Proof.
  intros Hl H4 Ha Hw HQ. unfold rdw. eapply wp_step; [|by apply wp_ret]. rewrite <- H4. apply fetch_spec; [done|done|by rewrite H4].
Qed.

(** [memcmp] with a string of four characters. *)
Lemma wp_sig {A} m a l s w (k : Z → M mem A) (Q : A → mem → Prop) : holds m a l → holds m s w → length l = length w → 0 ≤ a → a + len l ≤ W32 →
  0 ≤ s → s + len w ≤ W32 → (∀ c, (c =? 0) = bool_decide (l = w) → wp (k c) Q m) → wp (c <- memcmp a s (len w) ;; k c) Q m.
Proof.
  intros Hl Hs Hlen Ha Haw H0 Hsw HQ. apply wp_bind. rewrite <- Hlen. eapply wp_mono; [by apply (memcmp_spec m a s l w)|].
  intros c ? [-> Hc]. apply HQ. destruct Hc as [[-> ->]|(i & x & y & _ & Hx & Hy & Hr)]; [by rewrite bool_decide_true|].
  rewrite bool_decide_false; [destruct Hr as [[_ ->]|[_ ->]]; done|]. intros ->. destruct Hr as [[? _]|[? _]]; simplify_eq; lia.
Qed.

Section search.
Context (s_mp : Z) (m : mem).
Hypothesis Hsig : holds m s_mp MP_SIG ∧ 0 ≤ s_mp ∧ s_mp + 4 ≤ W32.

Lemma search_body_spec bound p : 0 < p → p < bound → bound + 16 ≤ W32 → readable m p →
  wp (search_body s_mp bound p) (λ r m', m' = m ∧ r = if mp_here m p then inr (E_OK, p) else inl (p + 16)) m.
Proof.
  intros H0 Hp Hw Hr. destruct Hsig as (S1 & S2 & S3). assert (W32 = 4294967296) as EW by done.
  pose proof (bytes_at_holds m p 16 Hr) as Hl. unfold mp_here. pose proof (bytes_at_length m p 16) as Hlen.
  set (l := bytes_at m p 16) in *. clearbody l.
  assert (∀ k n, (k + n ≤ 16)%nat → length (take n (drop k l)) = n) as Hn by (intros k n Hk; rewrite length_take, length_drop; lia).
  unfold search_body. rewrite (proj2 (Z.ltb_lt _ _)) by lia. change 4 with (len MP_SIG) at 1.
  pose proof (holds_sub m p l 0 4 Hl) as H4. rewrite Z.add_0_r in H4.
  eapply (wp_sig m p (take 4 (drop 0 l)) s_mp MP_SIG); [done|done|by rewrite Hn by lia|lia|rewrite Hn by lia; lia|done|done|].
  intros c Hc. rewrite drop_0 in Hc. apply wp_bind. unfold is_mp. rewrite <- Hc.
  apply (wp_mono _ (λ b m', m' = m ∧ b = (c =? 0) && (total_of l mod 256 =? 0) && negb (le (take 4 (drop 4 l)) =? 0))).
  - destruct (c =? 0); [|by apply wp_ret]. apply wp_bind. assert (SZ_MP = len l) as -> by by rewrite Hlen.
    eapply wp_mono; [apply (sum_bytes_spec m p l); [done|lia|lia]|]. intros sm ? [-> ->]. destruct (_ =? 0); [|by apply wp_ret].
    unfold MP_PHYSADDR. rewrite add32_small by lia. apply wp_bind.
    apply (wp_rdw_le m (p + Z.of_nat 4) (take 4 (drop 4 l))); [by apply holds_sub|by rewrite Hn by lia|lia|lia|by apply wp_ret].
  - intros b ? [-> ->]. destruct (_ && _); apply wp_ret; [done|]. unfold SZ_MP. by rewrite add32_small by lia.
Qed.

Lemma search_spec a n : 0 ≤ a → 0 ≤ n → n mod 16 = 0 → KERN_BASE + a + n + 16 ≤ W32 → scannable m (area a n) →
  wp (_mpsearch s_mp a n) (λ r m', m' = m ∧ match first_mp m (area a n) with Some p => r = (E_OK, p) | None => fst r = E_NOTFOUND end) m.
Proof.
  intros Ha Hn Hm Hw Hs. assert (KERN_BASE = 3221225472 ∧ W32 = 4294967296) as [EK EW] by done. unfold _mpsearch. cbv zeta.
  rewrite (add32_small a), add32_small by lia. rewrite (Z.add_comm a).
  assert (n = 16 * (n / 16)) as Hn16 by (Z.to_euclidean_division_equations; lia).
  set (N := Z.to_nat (n / 16)). set (f := λ i : nat, KERN_BASE + a + 16 * Z.of_nat i).
  apply (wp_loop (λ k p m', m' = m ∧ ∃ i, (i + k = N)%nat ∧ p = f i ∧ scannable m (f <$> seq i k) ∧
    first_mp m (area a n) = first_mp m (f <$> seq i k))) with (n := N); [|unfold N; lia|].
  - intros k p m' (-> & i & Hi & -> & Hsc & Hf). rewrite Hf. destruct k as [|k].
    + unfold search_body. rewrite (proj2 (Z.ltb_ge _ _)) by (unfold f, N in *; lia). by apply wp_ret.
    + cbn [seq fmap list_fmap scannable first_mp] in *. destruct Hsc as [Hr Hsc].
      eapply wp_mono; [apply search_body_spec; [unfold f; lia|unfold f, N in *; lia|lia|done]|].
      intros r ? [-> ->]. destruct (mp_here m (f i)); [done|]. exists k. split; [lia|]. split; [done|]. exists (S i).
      split_and!; [lia|unfold f; lia|by apply Hsc|done].
  - split; [done|]. exists 0%nat. split_and!; [lia|unfold f; lia|done|done].
Qed.

(** The search finds the first of all places. *)
Lemma mpsearch_spec b0E b0F b13 b14 :
  m !! (BDA + 0x0E) = Some b0E → m !! (BDA + 0x0F) = Some b0F → m !! (BDA + 0x13) = Some b13 → m !! (BDA + 0x14) = Some b14 →
  all_bytes m → scannable m (places b0E b0F b13 b14) →
  wp (mpsearch s_mp) (λ r m', m' = m ∧ match first_mp m (places b0E b0F b13 b14) with
    Some p => r = (E_OK, p) | None => fst r = E_NOTFOUND end) m.
Proof.
  intros H1 H2 H3 H4 Hb Hs. assert (KERN_BASE = 3221225472 ∧ W32 = 4294967296) as [EK EW] by done.
  assert (BDA = 3221226496) as EB by done.
  assert (∀ h l, 0 ≤ h < 256 → 0 ≤ l < 256 → Z.lor (Z.shiftl h 8) l = h * 256 + l) as Hor.
  { intros h l Hh Hl. rewrite Z.shiftl_mul_pow2 by lia. change (2 ^ 8) with 256. symmetry. apply Z.add_nocarry_lor.
    apply Z.bits_inj'. intros i Hi. rewrite Z.land_spec, Z.bits_0. change 256 with (2 ^ 8). destruct (decide (i < 8)).
    - rewrite Z.mul_pow2_bits_low by lia. done.
    - rewrite <- (Z.mod_small l (2 ^ 8)) by (change (2 ^ 8) with 256; lia). rewrite Z.mod_pow2_bits_high by lia. apply andb_false_r. }
  pose proof (Hb _ _ H1). pose proof (Hb _ _ H2). pose proof (Hb _ _ H3). pose proof (Hb _ _ H4).
  unfold mpsearch, places in *. cbv zeta in *. rewrite !(add32_small BDA) by lia.
  apply wp_bind, (wp_rd _ _ _ _ H2), wp_bind, (wp_rd _ _ _ _ H1). rewrite Hor, Z.shiftl_mul_pow2 by lia. change (2 ^ 4) with 16.
  set (a1 := (b0F * 256 + b0E) * 16) in *. set (a2 := (b14 * 256 + b13) * 1024) in *.
  apply scannable_app in Hs as [Hs1 Hs]. rewrite first_mp_app. apply wp_bind.
  apply (wp_mono _ (λ r m', m' = m ∧ match first_mp m (if a1 =? 0 then [] else area a1 1024) with
    Some p => r = (E_OK, p) ∧ a1 ≠ 0 | None => fst r = E_NOTFOUND end)).
  { destruct (Z.eqb_spec a1 0) as [|Hz]; cbn [negb]; [by apply wp_ret|]. eapply wp_mono; [apply search_spec; try done; unfold a1 in *; lia|].
    intros r ? [-> Hr]. split; [done|]. by destruct (first_mp m _). }
  intros r ? [-> Hr]. destruct (first_mp m (if a1 =? 0 then [] else area a1 1024)) as [p|].
  { destruct Hr as [-> Hz]. rewrite (proj2 (Z.eqb_neq a1 0)) by done. by apply wp_ret. }
  rewrite Hr. change (E_NOTFOUND =? E_OK) with false. rewrite andb_false_r. specialize (Hs eq_refl).
  apply wp_bind, (wp_rd _ _ _ _ H4), wp_bind, (wp_rd _ _ _ _ H3). rewrite Hor by lia. fold a2.
  apply scannable_app in Hs as [Hs2 Hs3]. rewrite first_mp_app. apply wp_bind.
  apply (wp_mono _ (λ r m', m' = m ∧ match first_mp m (if a2 =? 0 then [] else area (a2 - 1024) 1024) with
    Some p => r = (E_OK, p) ∧ a2 ≠ 0 | None => fst r = E_NOTFOUND end)).
  { destruct (Z.eqb_spec a2 0) as [|Hz]; cbn [negb]; [by apply wp_ret|]. rewrite sub32_small by (unfold a2 in *; lia).
    eapply wp_mono; [apply search_spec; try done; unfold a2 in *; lia|].
    intros r' ? [-> Hr']. split; [done|]. by destruct (first_mp m _). }
  intros r' ? [-> Hr']. destruct (first_mp m (if a2 =? 0 then [] else area (a2 - 1024) 1024)) as [p|].
  { destruct Hr' as [-> Hz]. rewrite (proj2 (Z.eqb_neq a2 0)) by done. by apply wp_ret. }
  specialize (Hs3 eq_refl).
  rewrite Hr'. change (E_NOTFOUND =? E_OK) with false. rewrite andb_false_r. apply (search_spec 0xF0000 0x10000); [lia|lia|reflexivity|lia|exact Hs3].
Qed.
End search.

(** ** The table *)
(** A processor, an interrupt controller, a bus or an interrupt. *)
Inductive mp_entry := EProc (id : Z) (rest : list Z) | EIoapic (rest : list Z) | EOther (type : Z) (rest : list Z).
Definition enc (e : mp_entry) : list Z :=
  match e with EProc id r => MPPROC :: id :: r | EIoapic r => MPIOAPIC :: r | EOther t r => t :: r end.
Definition entry_ok (e : mp_entry) : Prop :=
  match e with
  | EProc _ r => length r = 18%nat
  | EIoapic r => length r = 7%nat
  | EOther t r => (t = MPBUS ∨ t = MPIOINTR ∨ t = MPLINTR) ∧ length r = 7%nat
  end.
Definition procs (es : list mp_entry) : list Z := omap (λ e, match e with EProc id _ => Some id | _ => None end) es.

(** A table: signature, version, checksum, what the code does not read, the address of the
    local controllers, the entries. *)
Record mp_table := MpTable { mt_sig : list Z; mt_version : Z; mt_check : Z; mt_oem : list Z; mt_lapic : Z; mt_tail : list Z; mt_entries : list mp_entry }.
Definition mt_size (t : mp_table) : Z := 44 + len (concat (enc <$> mt_entries t)).
Definition table_bytes (t : mp_table) : list Z :=
  mt_sig t ++ bytes2 (mt_size t) ++ [mt_version t; mt_check t] ++ mt_oem t ++ bytes4 (mt_lapic t) ++ mt_tail t ++ concat (enc <$> mt_entries t).
Record table_ok (t : mp_table) : Prop := {
  to_sizes : length (mt_sig t) = 4%nat ∧ length (mt_oem t) = 28%nat ∧ length (mt_tail t) = 4%nat ∧ is_u32 (mt_lapic t) ∧ mt_size t < 2 ^ 16;
  to_entries : Forall entry_ok (mt_entries t);
}.
(** What the check of the header says. *)
Definition verdict (t : mp_table) : Z :=
  if bool_decide (mt_sig t = PC_SIG)
  then if ((mt_version t =? 1) || (mt_version t =? 4)) && (total_of (table_bytes t) mod 256 =? 0) then E_OK else E_FAULT
  else E_NOTFOUND.

Lemma table_len t : table_ok t → len (table_bytes t) = mt_size t.
Proof. intros [(H0 & H1 & H2 & _) _]. unfold table_bytes, mt_size. rewrite !length_app. cbn [length bytes2 bytes4]. rewrite H0, H1, H2. lia. Qed.

Section table.
Context (s_mp s_pcmp : Z) (m : mem) (conf : Z) (t : mp_table).
Hypothesis Hsig : holds m s_pcmp PC_SIG ∧ 0 ≤ s_pcmp ∧ s_pcmp + 4 ≤ W32.
Hypothesis Ht : table_ok t.
Hypothesis Hconf : holds m conf (table_bytes t) ∧ 0 < conf ∧ conf + mt_size t + 4 < W32.

(** The fields of the header. *)
Lemma table_fields : holds m conf (mt_sig t) ∧ half m (conf + 4) (mt_size t) ∧ m !! (conf + 6) = Some (mt_version t) ∧
  word m (conf + 36) (mt_lapic t) ∧ holds m (conf + 44) (concat (enc <$> mt_entries t)).
Proof.
  destruct Hconf as [H _], Ht as [(L0 & L1 & L2 & _) _]. unfold table_bytes in H.
  apply holds_app in H as [H1 H]. apply holds_app in H as [H2 H]. apply holds_app in H as [H3 H]. apply holds_app in H as [_ H].
  apply holds_app in H as [H4 H]. apply holds_app in H as [_ H5]. cbn [length bytes2 bytes4] in *. rewrite L0, L1, L2 in *.
  apply holds_cons in H3 as [H3 _].
  replace (conf + Z.of_nat 4 + Z.of_nat 2) with (conf + 6) in * by lia. replace (conf + 6 + Z.of_nat 2 + Z.of_nat 28) with (conf + 36) in * by lia.
  replace (conf + 36 + Z.of_nat 4 + Z.of_nat 4) with (conf + 44) in H5 by lia. done.
Qed.

Lemma mpconfig_spec p a : word m (p + 4) a → is_u32 a → add32 a KERN_BASE = conf → 0 ≤ p → p + 8 ≤ W32 →
  wp (mpconfig s_pcmp p) (λ r m', m' = m ∧ r = (verdict t, conf)) m.
Proof.
  intros Ha Hu Hc Hp Hw. destruct table_fields as (F1 & F2 & F3 & _), Hsig as (S1 & S2 & S3), Hconf as (C1 & C2 & C3).
  assert (W32 = 4294967296) as EW by done. pose proof (table_len t Ht) as Hlen. destruct Ht as [(L0 & _ & _ & _ & L3) _].
  assert (44 ≤ mt_size t < 2 ^ 16) as Hsz by (unfold mt_size in *; lia).
  unfold mpconfig, MP_PHYSADDR, CONF_VERSION, CONF_LENGTH. rewrite add32_small by lia. apply wp_bind.
  apply (wp_rdw _ _ a); [done|done|lia|lia|]. cbv zeta. rewrite Hc. change 4 with (len PC_SIG) at 1.
  eapply (wp_sig m conf (mt_sig t) s_pcmp PC_SIG); [done|done|done|lia|lia|done|done|].
  intros c Hc0. rewrite Hc0. unfold verdict. case_bool_decide; cbn [negb]; [|by apply wp_ret].
  rewrite !(add32_small conf) by lia. apply wp_bind, (wp_rd _ _ _ _ F3). rewrite <- negb_orb.
  destruct ((mt_version t =? 1) || (mt_version t =? 4)); cbn [negb andb]; [|by apply wp_ret].
  apply wp_bind, (wp_rdh _ _ (mt_size t)); [done|lia|lia|lia|]. apply wp_bind. rewrite <- Hlen.
  eapply wp_mono; [apply sum_bytes_spec; [done|lia|lia]|]. intros s ? [-> ->]. destruct (total_of (table_bytes t) mod 256 =? 0); by apply wp_ret.
Qed.
End table.

(** ** The processors *)
Definition NR : Z := Z.of_nat NR_CPU_MAX.
(** The ids are entered in order as far as there is room. *)
Record entered (x0 : machine) (ids : list Z) (x : machine) : Prop := {
  en_count : ncpu x = Z.min NR (ncpu x0 + len ids);
  en_len : length (cpus x) = NR_CPU_MAX;
  en_cpu : ∀ i id, ids !! i = Some id → ncpu x0 + Z.of_nat i < NR →
    ∃ c, cpus x !! Z.to_nat (ncpu x0 + Z.of_nat i) = Some c ∧ apicid c = id ∧ cpuid c = ncpu x0 + Z.of_nat i;
  en_old : ∀ j, Z.of_nat j < ncpu x0 → cpus x !! j = cpus x0 !! j;
  en_rest : tasks x = tasks x0 ∧ IF x = IF x0 ∧ lapicid x = lapicid x0;
}.

Lemma entered_nil x : length (cpus x) = NR_CPU_MAX → 0 ≤ ncpu x ≤ NR → entered x [] x.
Proof. intros Hl Hn. split; [cbn [length]; lia|done| |done|done]. intros i id Hi. by rewrite lookup_nil in Hi. Qed.

(** One more: the table is full, or the entry gets its number and then its id. *)
Lemma run_cpu_new x : length (cpus x) = NR_CPU_MAX → 0 ≤ ncpu x →
  (NR ≤ ncpu x ∧ cpu_new x = Ret (E_NOSLOT, None) x) ∨
  (ncpu x < NR ∧ ∃ x1, cpu_new x = Ret (E_OK, Some (ncpu x)) x1 ∧ ∀ id,
     ∃ x2, upd_cpu (ncpu x) (λ c, Cpu (cpuid c) id (task c) (ss0 c) (esp0 c) (iomb c)) x1 = Ret tt x2 ∧
     ∀ x0 ids, 0 ≤ ncpu x0 ≤ NR → entered x0 ids x → entered x0 (ids ++ [id]) x2).
Proof.
  intros Hl Hn. unfold cpu_new, bind at 1, get. fold NR. destruct (Z.leb_spec NR (ncpu x)) as [H|H]; [by left|right].
  destruct (lookup_lt_is_Some_2 (cpus x) (Z.to_nat (ncpu x))) as [c Hc]; [unfold NR in H; lia|].
  split; [done|]. unfold upd_cpu at 1, cpu_at, bind, get, modify, deref, ret. fold NR. cbv beta iota.
  rewrite (proj2 (Z.leb_gt NR (ncpu x))) by done. rewrite (proj2 (Z.leb_le 0 (ncpu x))) by done. cbv beta iota. rewrite Hc.
  eexists. split; [done|]. intros id. unfold upd_cpu, cpu_at, bind, get, modify, deref, ret. cbn [cpus set_ncpu set_cpus ncpu tasks IF lapicid].
  rewrite (proj2 (Z.leb_le 0 (ncpu x))) by done. rewrite list_lookup_insert_eq by (by eapply lookup_lt_Some).
  eexists. split; [done|]. intros x0 ids Hn0 [E1 E2 E3 E4 E5].
  split; cbn [cpus set_ncpu set_cpus ncpu tasks IF lapicid cpuid task ss0 esp0 iomb]; rewrite ?list_insert_insert_eq.
  - rewrite length_app. cbn [length]. rewrite add32_small by (assert (W32 = 4294967296 ∧ NR = 8) by done; lia). lia.
  - by rewrite length_insert.
  - intros i id' Hi Hlt. assert (ncpu x = ncpu x0 + len ids) as Hx by lia.
    destruct (decide (i = length ids)) as [->|Hne].
    + rewrite list_lookup_middle in Hi by done. injection Hi as <-. rewrite <- Hx. eexists.
      split; [apply list_lookup_insert_eq; by eapply lookup_lt_Some|done].
    + assert (i < length ids)%nat by (apply lookup_lt_Some in Hi; rewrite length_app in Hi; cbn [length] in Hi; lia).
      rewrite lookup_app_l in Hi by done. destruct (E3 i id' Hi Hlt) as (c' & Hc' & ?). exists c'. split; [|done].
      rewrite list_lookup_insert_ne; [done|]. lia.
  - intros j Hj. rewrite list_lookup_insert_ne by lia. by apply E4.
  - done.
Qed.

Lemma entered_full x0 ids id x : NR ≤ ncpu x → entered x0 ids x → entered x0 (ids ++ [id]) x.
Proof.
  intros Hn [E1 E2 E3 E4 E5]. split; [rewrite length_app; cbn [length]; lia|done| |done|done].
  intros i id' Hi Hlt. apply (E3 i id'); [|done]. rewrite lookup_app_l in Hi; [done|]. lia.
Qed.

Lemma enc_size e : entry_ok e → len (enc e) = match e with EProc _ _ => 20 | _ => 8 end.
Proof. destruct e; cbn [enc length]; [intros ->; lia|intros ->; lia|intros [_ ->]; lia]. Qed.

Section entries.
Context (m : mem) (conf : Z) (t : mp_table) (x0 : machine) (la : Z).
Hypothesis Ht : table_ok t.
Hypothesis Hconf : holds m conf (table_bytes t) ∧ 0 < conf ∧ conf + mt_size t + 4 < W32.
Hypothesis Hx0 : 0 ≤ ncpu x0 ≤ NR.
(** The error code and the count behind some processors. *)
Definition err_of (ids : list Z) : Z := if ncpu x0 + len ids <=? NR then E_OK else E_NOSLOT.
Definition count_of (ids : list Z) : Z := Z.min (len ids) (NR - ncpu x0).

Lemma entry_body_spec es1 e es2 x : mt_entries t = es1 ++ e :: es2 → entered x0 (procs es1) x →
  wp (entry_body conf (conf + 44 + len (concat (enc <$> es1)), err_of (procs es1), count_of (procs es1)))
    (λ r s', ∃ x', s' = Mps m x' la ∧ entered x0 (procs (es1 ++ [e])) x' ∧
       r = inl (conf + 44 + len (concat (enc <$> es1 ++ [e])), err_of (procs (es1 ++ [e])), count_of (procs (es1 ++ [e])))) (Mps m x la).
Proof.
  intros Hes Hx. destruct (table_fields m conf t Ht Hconf) as (_ & F2 & _ & _ & F5). destruct Hconf as (_ & C2 & C3), Ht as [(_ & _ & _ & _ & L3) He].
  rewrite Hes in He, F5. apply Forall_app in He as [_ [He _]%Forall_cons]. pose proof (enc_size e He) as Hsz.
  assert (mt_size t = 44 + len (concat (enc <$> es1)) + len (enc e) + len (concat (enc <$> es2))) as Hn.
  { unfold mt_size. rewrite Hes, fmap_app, concat_app, fmap_cons. cbn [concat]. rewrite !length_app. lia. }
  rewrite fmap_app, concat_app, fmap_cons in F5. cbn [concat] in F5. apply holds_app in F5 as [_ F5]. apply holds_app in F5 as [F5 _].
  assert (0 < len (enc e)) as Hpos by (destruct e; cbn; lia). assert (W32 = 4294967296 ∧ NR = 8) as [EW EN] by done.
  set (o := len (concat (enc <$> es1))) in *. rewrite fmap_app, concat_app, length_app. cbn [fmap list_fmap concat]. rewrite app_nil_r.
  rewrite Nat2Z.inj_add. fold o. unfold entry_body, CONF_LENGTH. rewrite (add32_small conf) by lia.
  apply wp_bind, wp_zoom, (wp_rdh _ _ (mt_size t)); [done|lia|lia|lia|]. rewrite (add32_small conf) by lia.
  rewrite (proj2 (Z.ltb_lt _ _)) by lia. apply wp_bind, wp_zoom. cbn [mp_mem mp_mach lapic].
  unfold procs. rewrite omap_app. fold (procs es1). unfold SZ_MPPROC, SZ_MPIOAPIC, PROC_APICID.
  destruct e as [id r|r|ty r]; cbn [enc] in *; pose proof F5 as [Hty Hr]%holds_cons; apply (wp_rd _ _ _ _ Hty); cbn [omap list_omap]; cbn [length] in Hsz, Hn |- *.
  - apply holds_cons in Hr as [Hid _]. change (MPPROC =? MPPROC) with true. cbv iota. apply wp_bind, wp_zoom. cbn [mp_mem mp_mach lapic].
    pose proof (en_count _ _ _ Hx) as Hc.
    destruct (run_cpu_new x (en_len _ _ _ Hx)) as [[Hfull Hrun]|(Hroom & x1 & Hrun & Hgo)]; [lia| |]; unfold wp at 1; rewrite Hrun.
    + apply wp_ret. exists x. split; [done|]. split; [by apply entered_full|]. rewrite add32_small by lia. unfold err_of, count_of.
      rewrite length_app. cbn [length]. rewrite (proj2 (Z.leb_gt _ _)) by lia. do 2 f_equal; [f_equal; lia|lia].
    + destruct (Hgo id) as (x2 & Hrun2 & Hent). cbv beta iota. apply wp_bind, wp_zoom. cbn [mp_mem mp_mach lapic]. rewrite (add32_small _ 1) by lia.
      apply (wp_rd _ _ _ _ Hid). apply wp_bind, wp_zoom. cbn [mp_mem mp_mach lapic]. unfold wp at 1. rewrite Hrun2. apply wp_ret.
      exists x2. split; [done|]. split; [by apply Hent|]. rewrite add32_small by lia. unfold err_of, count_of.
      rewrite length_app. cbn [length]. rewrite (proj2 (Z.leb_le _ _)) by lia. do 2 f_equal; [f_equal; lia|lia].
  - change (MPIOAPIC =? MPPROC) with false. change (MPIOAPIC =? MPIOAPIC) with true. cbv iota. apply wp_ret. exists x.
    rewrite app_nil_r, add32_small by lia. split_and!; [done|done|]. do 3 f_equal. lia.
  - destruct He as [Hk _]. assert (ty =? MPPROC = false ∧ ty =? MPIOAPIC = false ∧ (ty =? MPBUS) || (ty =? MPIOINTR) || (ty =? MPLINTR) = true) as (-> & -> & ->)
      by (by destruct Hk as [->|[->| ->]]).
    apply wp_ret. exists x. rewrite app_nil_r, add32_small by lia. split_and!; [done|done|]. do 3 f_equal. lia.
Qed.

(** The whole loop ends, at the end of the table. *)
Lemma entries_spec x : entered x0 [] x →
  wp (loop (S (Z.to_nat (mt_size t))) (entry_body conf) (conf + 44, E_OK, 0)) (λ r s', ∃ x', s' = Mps m x' la ∧
    entered x0 (procs (mt_entries t)) x' ∧ r = (err_of (procs (mt_entries t)), count_of (procs (mt_entries t)))) (Mps m x la).
Proof.
  intros Hx. assert (W32 = 4294967296 ∧ NR = 8) as [EW EN] by done.
  apply (wp_loop (λ n v s', ∃ es1 es2 x', mt_entries t = es1 ++ es2 ∧ n = length (concat (enc <$> es2)) ∧ s' = Mps m x' la ∧
    entered x0 (procs es1) x' ∧ v = (conf + 44 + len (concat (enc <$> es1)), err_of (procs es1), count_of (procs es1))))
    with (n := length (concat (enc <$> mt_entries t))).
  - intros n v s' (es1 & es2 & x' & Hes & -> & -> & Hx' & ->). destruct es2 as [|e es2].
    + destruct (table_fields m conf t Ht Hconf) as (_ & F2 & _). destruct Hconf as (_ & C2 & C3), Ht as [(_ & _ & _ & _ & L3) _].
      rewrite app_nil_r in Hes. subst es1. unfold entry_body, CONF_LENGTH. assert (44 ≤ mt_size t) by (unfold mt_size; lia). rewrite (add32_small conf) by lia.
      apply wp_bind, wp_zoom, (wp_rdh _ _ (mt_size t)); [done|lia|lia|lia|]. rewrite (add32_small conf) by lia.
      rewrite (proj2 (Z.ltb_ge _ _)) by (unfold mt_size; lia). apply wp_ret. by exists x'.
    + eapply wp_mono; [by eapply entry_body_spec|]. intros r s' (x2 & -> & Hx2 & ->). exists (length (concat (enc <$> es2))).
      split; [rewrite fmap_cons; cbn [concat]; rewrite length_app; destruct e; cbn [enc length]; lia|].
      exists (es1 ++ [e]), es2, x2. rewrite <- app_assoc. done.
  - unfold mt_size. lia.
  - exists [], (mt_entries t), x. split_and!; [done..|]. change (procs []) with (@nil Z). cbn [fmap list_fmap concat length]. unfold err_of, count_of. cbn [length].
    rewrite (proj2 (Z.leb_le _ _)) by lia. do 2 f_equal; lia.
Qed.
End entries.

(** The table a pointer at [p] points to. *)
Record points_to (m : mem) (p : Z) (t : mp_table) : Prop := {
  pt_addr : ∃ a, word m (p + MP_PHYSADDR) a ∧ is_u32 a ∧ holds m (add32 a KERN_BASE) (table_bytes t) ∧
    0 < add32 a KERN_BASE ∧ add32 a KERN_BASE + mt_size t + 4 < W32;
  pt_ok : table_ok t;
}.
Definition firmware (m : mem) (b0E b0F b13 b14 : Z) : Prop :=
  m !! (BDA + 0x0E) = Some b0E ∧ m !! (BDA + 0x0F) = Some b0F ∧ m !! (BDA + 0x13) = Some b13 ∧ m !! (BDA + 0x14) = Some b14 ∧
  all_bytes m ∧ scannable m (places b0E b0F b13 b14).

Lemma first_mp_in m l p : first_mp m l = Some p → p ∈ l.
Proof. induction l as [|q l IH]; [done|]. cbn [first_mp]. destruct (mp_here m q); [intros [= ->]; left|right; by apply IH]. Qed.
Lemma place_range b0E b0F b13 b14 p : 0 ≤ b0E < 256 → 0 ≤ b0F < 256 → 0 ≤ b13 < 256 → 0 ≤ b14 < 256 → p ∈ places b0E b0F b13 b14 →
  KERN_BASE ≤ p ∧ p + 16 ≤ W32.
Proof.
  intros H1 H2 H3 H4 Hp. assert (KERN_BASE = 3221225472 ∧ W32 = 4294967296) as [EK EW] by done.
  assert (∀ a n, 0 ≤ a → 0 ≤ n → KERN_BASE + a + n ≤ W32 → p ∈ area a n → KERN_BASE ≤ p ∧ p + 16 ≤ W32) as Har.
  { intros a n Ha Hn Hw (i & -> & Hi%elem_of_seq)%list_elem_of_fmap. Z.to_euclidean_division_equations. lia. }
  unfold places in Hp. cbv zeta in Hp. rewrite !elem_of_app in Hp. destruct Hp as [Hp|[Hp|Hp]].
  - destruct (Z.eqb_spec ((b0F * 256 + b0E) * 16) 0); [by apply elem_of_nil in Hp|]. eapply Har; [..|exact Hp]; lia.
  - destruct (Z.eqb_spec ((b14 * 256 + b13) * 1024) 0); [by apply elem_of_nil in Hp|]. eapply Har; [..|exact Hp]; lia.
  - eapply Har; [..|exact Hp]; lia.
Qed.

(** C28: The processors the firmware lists are the processors of the kernel. [mp_init]
    finds the first pointer to a table in the three places the code searches (the first KB
    of the extended BIOS data area, the last KB of base memory, the ROM from 0xF0000 on:
    the comment of [mpsearch] says from 0xE0000), or says E_NOTFOUND; it refuses a table
    with another signature, version or checksum and changes nothing then; from a good one
    it takes the address of the local controllers and exactly its processors, in the order
    of the table, each with its number and the id of its controller, until the kernel's
    table is full, which is an error. No memory is written. The table ([points_to],
    [table_ok]) is any whole one in memory, of any length, whose entries are of the five
    kinds the loop knows; for such a table it always ends (an entry of another kind is
    never left: [unknown_entry_hangs]). *)
Theorem mp_init_correct s_mp s_pcmp s b0E b0F b13 b14 t :
  holds (mp_mem s) s_mp MP_SIG ∧ 0 ≤ s_mp ∧ s_mp + 4 ≤ W32 → holds (mp_mem s) s_pcmp PC_SIG ∧ 0 ≤ s_pcmp ∧ s_pcmp + 4 ≤ W32 →
  firmware (mp_mem s) b0E b0F b13 b14 → length (cpus (mp_mach s)) = NR_CPU_MAX → 0 ≤ ncpu (mp_mach s) ≤ NR →
  (∀ p, first_mp (mp_mem s) (places b0E b0F b13 b14) = Some p → points_to (mp_mem s) p t) →
  wp (mp_init s_mp s_pcmp) (λ r s',
    let ids := procs (mt_entries t) in let x := mp_mach s in
    match first_mp (mp_mem s) (places b0E b0F b13 b14) with
    | None => r = (E_NOTFOUND, 0) ∧ s' = s
    | Some _ =>
        if verdict t =? E_OK
        then mp_mem s' = mp_mem s ∧ lapic s' = mt_lapic t ∧ entered x ids (mp_mach s') ∧
             r = (if ncpu x + len ids <=? NR then E_OK else E_NOSLOT, Z.min (len ids) (NR - ncpu x))
        else r = (verdict t, 0) ∧ s' = s
    end) s.
Proof.
  intros Hs1 Hs2 (B1 & B2 & B3 & B4 & Hb & Hsc) Hl Hn Hp. destruct s as [m x la]. cbn [mp_mem mp_mach] in *. cbv zeta.
  pose proof (Hb _ _ B1). pose proof (Hb _ _ B2). pose proof (Hb _ _ B3). pose proof (Hb _ _ B4).
  unfold mp_init. apply wp_bind, wp_zoom. eapply wp_mono; [by apply (mpsearch_spec s_mp m Hs1 b0E b0F b13 b14)|].
  intros r ? [-> Hr]. cbn [mp_mem mp_mach lapic]. destruct (first_mp m _) as [p|] eqn:Hf; [|rewrite Hr; by apply wp_ret].
  subst r. destruct (Hp p eq_refl) as [(a & A1 & A2 & A3 & A4 & A5) Ht]. unfold MP_PHYSADDR in A1.
  destruct (place_range b0E b0F b13 b14 p) as [P1 P2]; [done..|by eapply first_mp_in|].
  assert (W32 = 4294967296 ∧ KERN_BASE = 3221225472) as [EW EK] by done.
  cbn [fst snd]. change (E_OK =? E_OK) with true. cbn [negb].
  apply wp_bind, wp_zoom. eapply wp_mono; [eapply (mpconfig_spec s_pcmp m _ t Hs2 Ht (conj A3 (conj A4 A5)) p a); (done || lia)|].
  intros r ? [-> ->]. cbn [mp_mem mp_mach lapic fst snd]. destruct (Z.eqb_spec (verdict t) E_OK) as [Hv|Hv]; cbn [negb]; [|by apply wp_ret].
  set (conf := add32 a KERN_BASE) in *. destruct (table_fields m conf t Ht (conj A3 (conj A4 A5))) as (_ & F2 & _ & F4 & _).
  destruct Ht as [(T1 & T2 & T3 & T4 & T5) T6] eqn:E. assert (44 ≤ mt_size t) by (unfold mt_size; lia).
  unfold CONF_LAPICADDR, CONF_LENGTH, SZ_MPCONF. rewrite !(add32_small conf) by lia.
  apply wp_bind, wp_zoom, (wp_rdw _ _ (mt_lapic t)); [done|done|lia|lia|]. apply wp_bind, wp_modify. cbn [mp_mem mp_mach lapic].
  apply wp_bind, wp_zoom, (wp_rdh _ _ (mt_size t)); [done|lia|lia|lia|].
  eapply wp_mono; [apply (entries_spec m conf t x (mt_lapic t)); [by split|done|done|by apply entered_nil]|].
  intros r s' (x' & -> & Hx & ->). done.
Qed.

(** An entry of a kind the loop does not know is never left. *)
Lemma unknown_entry_hangs m x la conf n addr err k ty fuel : half m (add32 conf CONF_LENGTH) n → 0 ≤ n < 2 ^ 16 →
  0 ≤ add32 conf CONF_LENGTH → add32 conf CONF_LENGTH + 2 ≤ W32 → addr < add32 conf n → m !! addr = Some ty → 4 < ty →
  loop fuel (entry_body conf) (addr, err, k) (Mps m x la) = Hang.
Proof.
  intros Hh Hn H0 H2 Ha Hty Hbig. induction fuel as [|fuel IH]; [done|]. cbn [loop].
  assert (entry_body conf (addr, err, k) (Mps m x la) = Ret (inl (addr, err, k)) (Mps m x la)) as Hrun.
  { assert (wp (entry_body conf (addr, err, k)) (λ r s', r = inl (addr, err, k) ∧ s' = Mps m x la) (Mps m x la)) as Hw.
    { unfold entry_body. apply wp_bind, wp_zoom, (wp_rdh _ _ n); [done..|]. rewrite (proj2 (Z.ltb_lt _ _)) by done.
      apply wp_bind, wp_zoom. apply (wp_rd _ _ _ _ Hty). unfold MPPROC, MPIOAPIC, MPBUS, MPIOINTR, MPLINTR.
      assert (ty =? 0 = false ∧ ty =? 2 = false ∧ ty =? 1 = false ∧ ty =? 3 = false ∧ ty =? 4 = false) as (-> & -> & -> & -> & ->) by lia.
      by apply wp_ret. }
    unfold wp in Hw. destruct (entry_body _ _ _) as [r s'| | |]; [|done..]. by destruct Hw as [-> ->]. }
  unfold bind. rewrite Hrun. exact IH.
Qed.

(** Two processors, behind a pointer at the start of the first place. *)
Definition ex_mp_table : mp_table := MpTable PC_SIG 4 134 (replicate 28 0) 0xFEE00000 (replicate 4 0)
  [EProc 0 (replicate 18 0); EIoapic (replicate 7 0); EProc 1 (replicate 18 0); EOther MPBUS (replicate 7 0)].
Definition ex_mp_mem : mem :=
  place (KERN_BASE + 0x40E) [0xC0; 0x9F; 0; 0; 0; 0; 0] (place (KERN_BASE + 0x9FC00) (MP_SIG ++ bytes4 0x9FD00 ++ [1; 4; 154; 0; 0; 0; 0; 0])
    (place (KERN_BASE + 0x9FD00) (table_bytes ex_mp_table) (place (KERN_BASE + 0x200000) (MP_SIG ++ PC_SIG) ∅))).
Definition ex_mps : mps := Mps ex_mp_mem (Mach (replicate 8 (Cpu 0 0 0 0 0 0)) 0 ∅ false 0) 0.

Lemma ex_mp_places : places 0xC0 0x9F 0 0 = (KERN_BASE + 0x9FC00) :: tail (places 0xC0 0x9F 0 0).
Proof. by vm_compute. Qed.
Lemma ex_mp_here : mp_here ex_mp_mem (KERN_BASE + 0x9FC00) = true.
Proof. by vm_compute. Qed.
Lemma ex_mp_first : first_mp ex_mp_mem (places 0xC0 0x9F 0 0) = Some (KERN_BASE + 0x9FC00).
Proof. rewrite ex_mp_places. cbn [first_mp]. by rewrite ex_mp_here. Qed.
Lemma ex_mp_firmware : firmware ex_mp_mem 0xC0 0x9F 0 0.
Proof.
  unfold firmware. split_and!; [by vm_compute..| |].
  - unfold ex_mp_mem. repeat apply place_bytes; [..|by intros x b Hx]; by apply (bool_decide_eq_true_1 (Forall (λ b, 0 ≤ b < 256) _)); vm_compute.
  - rewrite ex_mp_places. cbn [scannable]. split; [|by rewrite ex_mp_here]. intros x Hx.
    assert (holds ex_mp_mem (KERN_BASE + 0x9FC00) (MP_SIG ++ bytes4 0x9FD00 ++ [1; 4; 154; 0; 0; 0; 0; 0])) as Hh by (apply holds_forallb; by vm_compute).
    destruct (lookup_lt_is_Some_2 (MP_SIG ++ bytes4 0x9FD00 ++ [1; 4; 154; 0; 0; 0; 0; 0]) (Z.to_nat (x - (KERN_BASE + 0x9FC00)))) as [b Hb].
    { change (length _) with 16%nat. lia. }
    exists b. rewrite <- (Hh _ _ Hb). f_equal. lia.
Qed.

Lemma mp_init_correct_witness : wp (mp_init (KERN_BASE + 0x200000) (KERN_BASE + 0x200004)) (λ r s',
  mp_mem s' = ex_mp_mem ∧ lapic s' = 0xFEE00000 ∧ entered (mp_mach ex_mps) [0; 1] (mp_mach s') ∧ r = (E_OK, 2)) ex_mps.
Proof.
  assert (W32 = 4294967296 ∧ KERN_BASE = 3221225472) as [EW EK] by done.
  pose proof (mp_init_correct (KERN_BASE + 0x200000) (KERN_BASE + 0x200004) ex_mps 0xC0 0x9F 0 0 ex_mp_table) as Hw.
  change (mp_mem ex_mps) with ex_mp_mem in Hw. rewrite ex_mp_first in Hw. cbv zeta in Hw.
  assert (verdict ex_mp_table =? E_OK = true) as Hv by by vm_compute. rewrite Hv in Hw. cbv iota in Hw.
  change (procs (mt_entries ex_mp_table)) with [0; 1] in Hw. apply Hw; clear Hw.
  - split; [apply holds_forallb; by vm_compute|lia].
  - split; [apply holds_forallb; by vm_compute|lia].
  - exact ex_mp_firmware.
  - done.
  - cbn. done.
  - intros p [= <-]. split.
    + exists 0x9FD00. split_and!; [apply holds_forallb; by vm_compute|done..|apply holds_forallb; by vm_compute|done|by vm_compute].
    + split; [split_and!; try done; by vm_compute|]. repeat constructor.
Defined.
