(* ===== verification/Tty.v ===== *)
(** * The terminal: arch/x86/src/drives/uart.c and kernel/tmp.c

    The serial port by its registers: the characters that have arrived, those sent,
    and how often the transmitter is still seen busy. [inb] and [outb] are what the port
    does. The interrupt puts the characters into the queue of Buf and echoes them; the
    system calls [SYS_read] and [SYS_write] are [tmp_read] and [tmp_write]. *)
From S2P Require Import Prelude Cstring Words Buf Log.

Definition COM1 : Z := 0x3f8.
Definition NEWLINE : Z := 10.
Definition RETURN : Z := 13.

(** The registers are keyed by the port and whether the divisor is unlocked. *)
Record uart := Uart {
  u_present : bool; u_rx : list Z; u_tx : list Z; u_busy : nat; u_regs : gmap (Z * bool) Z }.

Section port.
Abbreviation M := (Prelude.M uart).
Definition unlocked (u : uart) : bool := Z.testbit (default 0 (u_regs u !! (COM1 + 3, false))) 7.
Definition outb (v port : Z) : M unit := modify (λ u,
  if (port =? COM1) && negb (unlocked u)
  then Uart (u_present u) (u_rx u) (u_tx u ++ [v mod 256]) (u_busy u) (u_regs u)
  else Uart (u_present u) (u_rx u) (u_tx u) (u_busy u)
    (<[(port, unlocked u && negb (port =? COM1 + 3)) := v mod 256]> (u_regs u))).
Definition status (u : uart) : Z :=
  Z.lor (match u_rx u with [] => 0 | _ => 0x01 end) (if (u_busy u =? 0)%nat then 0x20 else 0).
Definition inb (port : Z) : M Z := u <- get ;;
  if negb (u_present u) then ret 0xFF
  else if port =? COM1 + 5 then
    put (Uart true (u_rx u) (u_tx u) (pred (u_busy u)) (u_regs u)) ;;; ret (status u)
  else if port =? COM1 then
    put (Uart true (tl (u_rx u)) (u_tx u) (u_busy u) (u_regs u)) ;;; ret (hd 0 (u_rx u))
  else ret 0.

Definition wait_body (i : Z) : M (Z + unit) :=
  if i <? 128 then
    st <- inb (COM1 + 5) ;;
    if Z.land st 0x20 =? 0 then ret (inl (i + 1)) else ret (inr tt)
  else ret (inr tt).
Definition uart_putc (c : Z) : M Z :=
  loop 129 wait_body 0 ;;; outb c COM1 ;;; ret E_OK.

Definition uart_getc : M (Z * option Z) :=
  st <- inb (COM1 + 5) ;;
  if Z.land st 0x01 =? 0 then ret (E_NOTFOUND, None) else
  c <- inb COM1 ;; ret (E_OK, Some c).

(** ESC [2J ESC [H *)
Definition CLEAR : list Z := [27; 91; 50; 74; 27; 91; 72].
(** [fall] is what is found where a result is missing. *)
Definition uart_init (fall : Z) : M Z :=
  outb 0 (COM1 + 2) ;;;
  outb 0x80 (COM1 + 3) ;;;
  outb (115200 / 9600) COM1 ;;;
  outb 0 (COM1 + 1) ;;;
  outb 0x03 (COM1 + 3) ;;;
  outb 0 (COM1 + 4) ;;;
  outb 0x01 (COM1 + 1) ;;;
  st <- inb (COM1 + 5) ;;
  if st =? 0xFF then ret E_FAULT else
  _ <- inb (COM1 + 2) ;; _ <- inb COM1 ;;
  fold_right (λ c m, _ <- uart_putc c ;; m) (ret fall) CLEAR.
End port.

Record tty := Tty { t_buf : buf; t_mem : mem; t_uart : uart; log_on : bool }.

Section code.
(** The thread that runs and what happens while it waits at the queue; where the string
    ["%s"] is. *)
Context (thread_now : Z) (others : Prelude.M buf unit) (fmt_s : Z).
Abbreviation M := (Prelude.M tty).
Implicit Types s : tty.

Definition on_buf {B} (m : Prelude.M buf B) : M B := zoom t_buf (λ x s, Tty x (t_mem s) (t_uart s) (log_on s)) m.
Definition on_mem {B} (m : Prelude.M mem B) : M B := zoom t_mem (λ x s, Tty (t_buf s) x (t_uart s) (log_on s)) m.
Definition on_uart {B} (m : Prelude.M uart B) : M B := zoom t_uart (λ x s, Tty (t_buf s) (t_mem s) x (log_on s)) m.
(** [printk] sends characters as [uart_putc] does. *)
Definition on_console {B} (m : Prelude.M console B) : M B :=
  zoom (λ s, Console (t_mem s) (u_tx (t_uart s)))
    (λ x s, Tty (t_buf s) (cmem x)
      (Uart (u_present (t_uart s)) (u_rx (t_uart s)) (out x) (u_busy (t_uart s)) (u_regs (t_uart s))) (log_on s)) m.

Definition tmp_write (p : Z) : M Z := on_console (printk fmt_s [p]) ;;; ret E_OK.

(** Each turn takes a character out of the queue. *)
Definition read_body (p : Z) : M (Z + unit) :=
  r <- on_buf (buf_read thread_now others) ;;
  if negb (fst r =? E_OK) then panic else
  if negb (snd r =? NEWLINE) then on_mem (wr p (snd r)) ;;; ret (inl (add32 p 1))
  else on_mem (wr p 0) ;;; ret (inr tt).
Definition tmp_read (fuel : nat) (p : Z) : M Z := loop fuel read_body p ;;; ret E_OK.

Definition com_body (_ : unit) : M (unit + unit) :=
  r <- on_uart uart_getc ;;
  match r with
  | (_, None) => ret (inr tt)
  | (_, Some c) =>
      let c := if c =? RETURN then NEWLINE else c in
      _ <- on_buf (buf_write thread_now others c) ;;
      _ <- on_uart (uart_putc c) ;; ret (inl tt)
  end.
(** As many turns as characters have arrived. *)
Definition com_intr : M Z :=
  s <- get ;; loop (S (length (u_rx (t_uart s)))) com_body tt ;;; ret E_OK.

Definition tmp_log (flag fall : Z) : M Z :=
  (if flag =? 0 then modify (λ s, Tty (t_buf s) (t_mem s) (t_uart s) false) else ret tt) ;;; ret fall.
End code.

(** ** The port *)
Definition line_up (u : uart) : Prop := u_present u = true ∧ unlocked u = false.
(** The same port with other characters and another delay. *)
Definition shows (rx tx : list Z) (u u' : uart) : Prop :=
  ∃ k, u' = Uart true rx tx k (u_regs u).

Lemma shows_up rx tx u u' : line_up u → shows rx tx u u' → line_up u'.
Proof. intros [_ H] [k ->]. done. Qed.
Lemma shows_trans rx tx rx' tx' u u1 u2 : shows rx tx u u1 → shows rx' tx' u1 u2 → shows rx' tx' u u2.
Proof. intros [k ->] [j ->]. by exists j. Qed.

Lemma wp_status u (Q : Z → uart → Prop) : line_up u →
  (∀ u', shows (u_rx u) (u_tx u) u u' → Q (status u) u') → wp (inb (COM1 + 5)) Q u.
Proof.
  intros [Hp _] HQ. unfold inb. apply wp_bind, wp_get. rewrite Hp. cbn [negb]. rewrite Z.eqb_refl.
  apply wp_bind, wp_put, wp_ret, HQ. by eexists.
Qed.

(** A character is sent even when the transmitter stays busy. *)
Lemma wp_uart_putc c u : line_up u →
  wp (uart_putc c) (λ r u', r = E_OK ∧ shows (u_rx u) (u_tx u ++ [c mod 256]) u u') u.
Proof.
  intros Hu. unfold uart_putc. apply wp_bind.
  eapply (wp_mono _ (λ _ u', shows (u_rx u) (u_tx u) u u')).
  2:{ intros _ u1 Hs. pose proof (shows_up _ _ _ _ Hu Hs) as [_ Hl]. destruct Hs as [k ->].
      apply wp_bind, wp_modify, wp_ret. cbn [u_rx u_tx u_busy u_regs u_present]. rewrite Hl. split; [done|by exists k]. }
  apply (wp_loop (λ n i u', n = Z.to_nat (128 - i) ∧ 0 ≤ i ∧ shows (u_rx u) (u_tx u) u u')) with (n := 128%nat); [|lia|].
  - intros n i u1 (-> & Hi & Hs). unfold wait_body. destruct (Z.ltb_spec i 128); [|by apply wp_ret].
    apply wp_bind, wp_status; [by eapply shows_up|]. intros u2 Hs2.
    assert (shows (u_rx u) (u_tx u) u u2) as Hs3.
    { destruct Hs as [k ->]. cbn [u_rx u_tx] in Hs2. eapply shows_trans; [by exists k|done]. }
    case_match; apply wp_ret; [|done]. eexists. split; [|by split_and!; [|lia|]]. lia.
  - split_and!; [done|done|]. exists (u_busy u). destruct u, Hu as [Hp _]. simpl in *. by subst.
Qed.

Lemma wp_uart_getc u : line_up u →
  wp (uart_getc) (λ r u', match u_rx u with
    | [] => r = (E_NOTFOUND, None) ∧ shows [] (u_tx u) u u'
    | c :: l => r = (E_OK, Some c) ∧ shows l (u_tx u) u u'
    end) u.
Proof.
  intros Hu. unfold uart_getc. apply wp_bind, wp_status; [done|]. intros u1 Hs. unfold status.
  destruct (u_rx u) as [|c l].
  - replace (Z.land _ 1) with 0 by (by case_match). by apply wp_ret.
  - replace (Z.land _ 1) with 1 by (by case_match). cbn [Z.eqb]. destruct Hs as [k ->].
    apply wp_bind. unfold inb. apply wp_bind, wp_get. cbn [u_present negb]. change (COM1 =? COM1 + 5) with false.
    change (COM1 =? COM1) with true. cbv iota. apply wp_bind, wp_put, wp_ret, wp_ret. split; [done|by exists k].
Qed.

(** 9600 baud, eight bits, no parity, an interrupt for every character, a clear screen;
    a character that had arrived is lost. *)
Lemma wp_out_reg v port (Q : unit → uart → Prop) u : port ≠ COM1 ∨ unlocked u = true →
  Q tt (Uart (u_present u) (u_rx u) (u_tx u) (u_busy u)
    (<[(port, unlocked u && negb (port =? COM1 + 3)) := v mod 256]> (u_regs u))) → wp (outb v port) Q u.
Proof.
  intros Hp HQ. unfold outb. apply wp_modify. destruct (Z.eqb_spec port COM1) as [->|]; [|done].
  destruct Hp as [?|Hl]; [done|]. rewrite Hl in HQ |- *. exact HQ.
Qed.
Lemma wp_print_all (fall : Z) l u : line_up u → Forall (λ c, 0 ≤ c < 256) l →
  wp (fold_right (λ c (m : M uart Z), _ <- uart_putc c ;; m) (ret fall) l) (λ r u', r = fall ∧ shows (u_rx u) (u_tx u ++ l) u u') u.
Proof.
  intros Hu Hl. revert u Hu. induction Hl as [|c l Hc Hl IH]; intros u Hu; cbn [fold_right].
  - apply wp_ret. rewrite app_nil_r. split; [done|]. exists (u_busy u). destruct u, Hu as [Hp _]. simpl in *. by subst.
  - apply wp_bind. eapply wp_mono; [by apply wp_uart_putc|]. intros r u1 [_ Hs].
    eapply wp_mono; [eapply IH, shows_up, Hs; done|]. intros r2 u2 [-> Hs2]. split; [done|].
    rewrite Z.mod_small in Hs by done. destruct Hs as [k ->], Hs2 as [j ->]. exists j. cbn. by rewrite <- app_assoc.
Qed.

Lemma uart_init_spec fall u : u_present u = true →
  wp (uart_init fall) (λ r u', r = fall ∧ line_up u' ∧ u_rx u' = tl (u_rx u) ∧ u_tx u' = u_tx u ++ CLEAR ∧
    u_regs u' !! (COM1, true) = Some 12 ∧ u_regs u' !! (COM1 + 3, false) = Some 3 ∧ u_regs u' !! (COM1 + 1, false) = Some 1) u.
Proof.
  intros Hp. destruct u as [pr rx tx k g]. cbn in Hp. subst pr. unfold uart_init.
  assert (∀ v g, g !! (COM1 + 3, false) = Some v → unlocked (Uart true rx tx k g) = Z.testbit v 7) as Hlk.
  { intros v g' Hg. unfold unlocked. cbn [u_regs]. by rewrite Hg. }
  do 2 (apply wp_bind, wp_out_reg; [by left|]; cbn [u_present u_rx u_tx u_busy u_regs]).
  change (COM1 + 3 =? COM1 + 3) with true. cbn [negb]. rewrite !andb_false_r. change (0x80 mod 256) with 0x80.
  match goal with |- context [Uart true rx tx k ?gg] => set (g2 := gg) end.
  assert (g2 !! (COM1 + 3, false) = Some 0x80) as H2 by apply lookup_insert_eq.
  do 2 (apply wp_bind, wp_out_reg; [first [by left|right; by apply (Hlk 0x80)]|]; cbn [u_present u_rx u_tx u_busy u_regs]).
  rewrite (Hlk 0x80 g2) by done. change (Z.testbit 0x80 7 && negb (COM1 =? COM1 + 3)) with true.
  change ((115200 / 9600) mod 256) with 12.
  apply wp_bind, wp_out_reg; [by left|]. cbn [u_present u_rx u_tx u_busy u_regs].
  change (COM1 + 3 =? COM1 + 3) with true. cbn [negb]. rewrite !andb_false_r. change (0x03 mod 256) with 3.
  match goal with |- context [Uart true rx tx k ?gg] => set (g5 := gg) end.
  assert (g5 !! (COM1 + 3, false) = Some 3) as H5 by apply lookup_insert_eq.
  assert (g5 !! (COM1, true) = Some 12) as H5'.
  { unfold g5. rewrite lookup_insert_ne by done. rewrite lookup_insert_ne by (destruct (unlocked _ && _); done).
    apply lookup_insert_eq. }
  do 2 (apply wp_bind, wp_out_reg; [by left|]; cbn [u_present u_rx u_tx u_busy u_regs]).
  rewrite (Hlk 3 g5) by done. change (Z.testbit 3 7) with false. cbn [andb].
  rewrite (Hlk 3) by (rewrite lookup_insert_ne by done; exact H5). change (Z.testbit 3 7) with false. cbn [andb].
  match goal with |- context [Uart true rx tx k ?gg] => set (g7 := gg) end.
  assert (g7 !! (COM1 + 3, false) = Some 3 ∧ g7 !! (COM1, true) = Some 12 ∧ g7 !! (COM1 + 1, false) = Some 1) as (R1 & R2 & R3).
  { unfold g7. rewrite !(lookup_insert_ne _ _ (COM1 + 3, false)), !(lookup_insert_ne _ _ (COM1, true)) by done.
    by rewrite lookup_insert_eq. }
  clearbody g7. clear H2 H5 H5' g2 g5 g.
  assert (∀ rx tx k, line_up (Uart true rx tx k g7)) as Hup.
  { intros rx' tx' k'. split; [done|]. unfold unlocked. cbn [u_regs]. by rewrite R1. }
  apply wp_bind, wp_status; [done|]. intros u1 [k1 ->]. cbn [u_rx u_tx u_regs].
  replace (_ =? 0xFF) with false by (unfold status; cbn [u_rx u_busy]; repeat case_match; done).
  apply wp_bind. unfold inb at 1. apply wp_bind, wp_get. cbn [u_present negb].
  change (COM1 + 2 =? COM1 + 5) with false. change (COM1 + 2 =? COM1) with false. cbv iota. apply wp_ret.
  apply wp_bind. unfold inb at 1. apply wp_bind, wp_get. cbn [u_present negb].
  change (COM1 =? COM1 + 5) with false. change (COM1 =? COM1) with true. cbv iota. apply wp_bind, wp_put, wp_ret.
  cbn [u_present u_rx u_tx u_busy u_regs].
  eapply wp_mono; [apply wp_print_all; [by apply Hup|repeat constructor; lia]|].
  intros r u2 [-> [k2 ->]]. cbn [u_rx u_tx u_regs]. split_and!; first [done|apply (proj2 (Hup _ _ _))].
Qed.

(** ** What arrives at the keyboard *)
Definition typed (l : list Z) : list Z := map (λ c, if c =? RETURN then NEWLINE else c) l.

Section spec.
Context (thread_now : Z) (others : M buf unit) (fmt_s : Z).

(** The queue holds [q], nobody uses it, and the port works. *)
Record idle (q : list Z) (s : tty) : Prop := {
  id_ring : ring q (t_buf s);
  id_free : readlock (t_buf s) = false ∧ writelock (t_buf s) = false;
  id_up : line_up (t_uart s);
}.

(** The interrupt queues every character that has arrived and echoes it. *)
Lemma com_intr_spec q s : idle q s → Forall (λ c, 0 ≤ c < 256) (u_rx (t_uart s)) →
  Z.of_nat (length q + length (u_rx (t_uart s))) ≤ size (t_buf s) →
  wp (com_intr thread_now others) (λ r s', r = E_OK ∧ idle (q ++ typed (u_rx (t_uart s))) s' ∧ t_mem s' = t_mem s ∧
    log_on s' = log_on s ∧ size (t_buf s') = size (t_buf s) ∧
    shows [] (u_tx (t_uart s) ++ typed (u_rx (t_uart s))) (t_uart s) (t_uart s')) s.
Proof.
  intros Hi Hc Hsz. unfold com_intr. apply wp_bind, wp_get, wp_bind.
  eapply (wp_mono _ (λ _ s', idle (q ++ typed (u_rx (t_uart s))) s' ∧ t_mem s' = t_mem s ∧
    log_on s' = log_on s ∧ size (t_buf s') = size (t_buf s) ∧
    shows [] (u_tx (t_uart s) ++ typed (u_rx (t_uart s))) (t_uart s) (t_uart s'))); [|intros _ s1 H; by apply wp_ret].
  apply (wp_loop (λ n _ s', ∃ l1 l2, u_rx (t_uart s) = l1 ++ l2 ∧ n = length l2 ∧ idle (q ++ typed l1) s' ∧
    t_mem s' = t_mem s ∧ log_on s' = log_on s ∧ size (t_buf s') = size (t_buf s) ∧
    shows l2 (u_tx (t_uart s) ++ typed l1) (t_uart s) (t_uart s'))) with (n := length (u_rx (t_uart s))); [|lia|].
  - intros n [] s1 (l1 & l2 & Hl & -> & [Hr [Hf1 Hf2] Hup] & Hm & Hlog & Hs & Hsh). unfold com_body.
    apply wp_bind, wp_zoom. eapply wp_mono; [by apply wp_uart_getc|]. intros r u1 Hg.
    assert (u_rx (t_uart s1) = l2 ∧ u_tx (t_uart s1) = u_tx (t_uart s) ++ typed l1 ∧
      u_regs (t_uart s1) = u_regs (t_uart s)) as (Hrx & Htx & Hrg) by (by destruct Hsh as [k ->]).
    rewrite Hrx, Htx in Hg. destruct l2 as [|c l2].
    + destruct Hg as [-> Hg]. apply wp_ret. rewrite app_nil_r in Hl. rewrite Hl.
      cbn [t_buf t_mem t_uart log_on]. split_and!; [|done..|].
      * split; [done|done|by eapply shows_up].
      * destruct Hg as [k ->]. exists k. by rewrite Hrg.
    + destruct Hg as [-> Hg]. cbv zeta. set (c' := if c =? RETURN then NEWLINE else c).
      rewrite Hl, length_app in Hsz. simpl in Hsz.
      apply wp_bind, wp_zoom. cbn [t_buf]. eapply wp_mono; [apply buf_write_spec; [done| |done]|].
      { rewrite length_app. unfold typed. rewrite length_map, Hs. lia. }
      intros r b1 [-> [B1 B2 [B3 B4] _ _]]. cbn [t_mem t_uart log_on].
      apply wp_bind, wp_zoom. cbn [t_uart].
      pose proof (shows_up _ _ _ _ Hup Hg) as Hup1.
      eapply wp_mono; [by apply wp_uart_putc|]. intros r u2 [_ Hp]. apply wp_ret. cbn [t_buf t_mem t_uart log_on].
      exists (length l2). split; [simpl; lia|]. exists (l1 ++ [c]), l2.
      assert (typed (l1 ++ [c]) = typed l1 ++ [c']) as Ht by apply map_app.
      assert (0 ≤ c' < 256) as Hc'.
      { rewrite Hl in Hc. apply Forall_app in Hc as [_ [Hc _]%Forall_cons]. unfold c', NEWLINE. case_match; lia. }
      rewrite Z.mod_small in Hp by done. rewrite Ht, !app_assoc.
      split_and!; [by rewrite Hl, <- app_assoc|done| |done|done|by rewrite B2| ].
      * split; cbn [t_buf t_uart]; [done|by rewrite B4|by eapply shows_up].
      * destruct Hg as [k ->]. cbn [u_rx u_tx u_regs] in Hp. destruct Hp as [j ->]. exists j. cbn [u_regs]. by rewrite Hrg.
  - exists [], (u_rx (t_uart s)). split_and!; try done.
    + by rewrite app_nil_r.
    + rewrite app_nil_r. exists (u_busy (t_uart s)). destruct Hi as [_ _ [Hp _]]. by destruct (t_uart s); simpl in *; subst.
Qed.

(** A reader gets the characters up to the end of the line. *)
Lemma tmp_read_spec fuel p line rest s : idle (line ++ NEWLINE :: rest) s → NEWLINE ∉ line →
  Forall (λ c, 0 ≤ c < 256) line → (length line < fuel)%nat →
  mapped (t_mem s) p (Z.of_nat (length line) + 1) → 0 ≤ p → p + Z.of_nat (length line) + 1 ≤ W32 →
  wp (tmp_read thread_now others fuel p) (λ r s', r = E_OK ∧ idle rest s' ∧ t_uart s' = t_uart s ∧
    holds (t_mem s') p (line ++ [0]) ∧ only p (Z.of_nat (length line) + 1) (t_mem s) (t_mem s')) s.
Proof.
  intros Hi Hn Hc Hfu Hm Hp Hw. unfold tmp_read. apply wp_bind.
  eapply (wp_mono _ (λ _ s', idle rest s' ∧ t_uart s' = t_uart s ∧
    holds (t_mem s') p (line ++ [0]) ∧ only p (Z.of_nat (length line) + 1) (t_mem s) (t_mem s')));
    [|intros _ s1 H; by apply wp_ret].
  apply (wp_loop (λ n a s', ∃ l1 l2, line = l1 ++ l2 ∧ n = length l2 ∧ a = p + Z.of_nat (length l1) ∧
    idle (l2 ++ NEWLINE :: rest) s' ∧ t_uart s' = t_uart s ∧ holds (t_mem s') p l1 ∧
    only p (Z.of_nat (length line) + 1) (t_mem s) (t_mem s'))) with (n := length line); [|done|].
  - intros n a s1 (l1 & l2 & -> & -> & -> & [Hr [Hf1 Hf2] Hup] & Hu & Hh & Ho). unfold read_body.
    rewrite length_app in *.
    assert (∃ c q, l2 ++ NEWLINE :: rest = c :: q) as (c & q & Hq) by (destruct l2; eauto).
    apply wp_bind, wp_zoom. rewrite Hq in Hr. eapply wp_mono; [by apply buf_read_spec|].
    intros r b1 [-> [B1 B2 [B3 B4] _ _]]. cbn [fst snd negb Z.eqb E_OK].
    assert (∀ v, 0 ≤ v < 256 → wp (on_mem (wr (p + Z.of_nat (length l1)) v))
      (λ _ s', idle q s' ∧ t_uart s' = t_uart s ∧ holds (t_mem s') p (l1 ++ [v]) ∧
         only p (Z.of_nat (length l1 + length l2) + 1) (t_mem s) (t_mem s'))
      (Tty b1 (t_mem s1) (t_uart s1) (log_on s1))) as Hwr.
    { intros v Hv. apply wp_zoom. cbn [t_mem]. apply wp_wr.
      - apply (only_mapped _ _ _ _ _ _ Ho Hm). lia.
      - cbn [t_buf t_mem t_uart log_on]. rewrite Z.mod_small by done. split_and!; [|done| |].
        + split; cbn [t_buf t_uart]; [done|by rewrite B4|done].
        + apply holds_app. split; [apply holds_wr; [done|lia]|]. apply holds_cons. split; [apply lookup_insert_eq|by intros ??].
        + eapply only_seq; [exact Ho|]. split.
          * intros x Hx. apply lookup_insert_ne. lia.
          * intros x Hx. destruct (decide (x = p + Z.of_nat (length l1))) as [->|].
            { rewrite lookup_insert_eq. by eexists. } { by rewrite lookup_insert_ne. }
          * intros Hb x w Hx. apply lookup_insert_Some in Hx as [[_ <-]|[_ Hx]]; [done|by eapply Hb]. }
    destruct l2 as [|c2 l2]; simpl in Hq; simplify_eq.
    + change (NEWLINE =? NEWLINE) with true. cbn [negb]. apply wp_bind. eapply wp_mono; [apply Hwr; lia|].
      intros _ s2 (I1 & I2 & I3 & I4). apply wp_ret. rewrite app_nil_r in *. by split_and!.
    + rewrite not_elem_of_app, not_elem_of_cons in Hn. destruct Hn as (_ & Hne & _).
      apply Forall_app in Hc as [_ [Hc _]%Forall_cons].
      rewrite (proj2 (Z.eqb_neq c NEWLINE)) by done. cbn [negb]. apply wp_bind. eapply wp_mono; [by apply Hwr|].
      intros _ s2 (I1 & I2 & I3 & I4). apply wp_ret. exists (length l2). split; [simpl; lia|].
      exists (l1 ++ [c]), l2. rewrite add32_small, !length_app by (simpl in *; lia).
      split_and!; [by rewrite <- app_assoc|done|simpl; lia|done|done|done|]. simpl in *. exact I4.
  - exists [], line. rewrite Z.add_0_r. split_and!; try done; try (by intros ??). all: by apply only_refl.
Qed.

Lemma tmp_write_spec p l s : cstr (t_mem s) fmt_s [37; 115] → cstr (t_mem s) p l → line_up (t_uart s) →
  wp (tmp_write fmt_s p) (λ r s', r = E_OK ∧ t_buf s' = t_buf s ∧ t_mem s' = t_mem s ∧
    shows (u_rx (t_uart s)) (u_tx (t_uart s) ++ l) (t_uart s) (t_uart s')) s.
Proof.
  intros Hf Hl [Hp _]. unfold tmp_write. apply wp_bind, wp_zoom.
  eapply wp_mono; [apply (printk_spec [Str p l] fmt_s); [done|by constructor]|].
  intros r c [_ ->]. apply wp_ret. cbn [t_buf t_mem t_uart cmem out flat_map item_text]. rewrite app_nil_r, Hp.
  split_and!; try done. by eexists.
Qed.
End spec.

(** C38: The terminal hands lines on. With room in the queue for the characters that have
    arrived (a full queue puts the interrupt to sleep), the interrupt of the serial port
    takes every one of them, a carriage return as the end of a line, echoes it and queues
    it. When the queue then holds a line, none of whose characters is a zero byte, a
    [SYS_read] whose buffer has room for it gets exactly the first line of the queue,
    terminated by a zero byte, with nothing before, after or beside it in memory written,
    and leaves the rest of the queue to the next; a [SYS_write] of what was read sends the
    same characters again. All of it ends, with every lock free. *)
Theorem tty_line t o fmt_s fuel q line rest p s :
  idle q s → Forall (λ c, 0 ≤ c < 256) (u_rx (t_uart s)) →
  Z.of_nat (length q + length (u_rx (t_uart s))) ≤ size (t_buf s) →
  q ++ typed (u_rx (t_uart s)) = line ++ NEWLINE :: rest → NEWLINE ∉ line → Forall (λ c, 0 < c < 256) line →
  (length line < fuel)%nat → mapped (t_mem s) p (Z.of_nat (length line) + 1) → 0 ≤ p →
  p + Z.of_nat (length line) + 1 ≤ W32 → cstr (t_mem s) fmt_s [37; 115] →
  fmt_s + 3 ≤ p ∨ p + Z.of_nat (length line) + 1 ≤ fmt_s →
  wp (com_intr t o ;;; tmp_read t o fuel p ;;; tmp_write fmt_s p) (λ r s', r = E_OK ∧ idle rest s' ∧
    holds (t_mem s') p (line ++ [0]) ∧ only p (Z.of_nat (length line) + 1) (t_mem s) (t_mem s') ∧
    u_rx (t_uart s') = [] ∧ u_tx (t_uart s') = u_tx (t_uart s) ++ typed (u_rx (t_uart s)) ++ line) s.
Proof.
  intros Hi Hc Hsz Hq Hn Hl Hfu Hm Hp Hw Hf Hd.
  apply wp_bind. eapply wp_mono; [by apply com_intr_spec|]. intros _ s1 (_ & I1 & M1 & _ & _ & U1). rewrite Hq in I1.
  assert (u_rx (t_uart s1) = [] ∧ u_tx (t_uart s1) = u_tx (t_uart s) ++ typed (u_rx (t_uart s))) as [R1 T1]
    by (by destruct U1 as [k ->]).
  apply wp_bind. eapply wp_mono; [eapply tmp_read_spec; try done|].
  { eapply Forall_impl; [exact Hl|]. simpl. lia. } { by rewrite M1. }
  intros _ s2 (_ & I2 & U2 & H2 & O2). rewrite M1 in O2.
  assert (cstr (t_mem s2) fmt_s [37; 115]) as Hf2.
  { destruct Hf as [F1 F2 F3]. split; [|done|done]. eapply only_holds; [exact O2|exact F1|]. simpl. lia. }
  eapply wp_mono; [apply (tmp_write_spec fmt_s p line); [done|by split; [|done|lia]|by destruct I2]|].
  intros r s3 (-> & B3 & M3 & U3). rewrite M3. destruct U3 as [k U3]. rewrite U3, U2. cbn [u_rx u_tx].
  split_and!; try done; [|by rewrite T1, app_assoc].
  destruct I2 as [J1 J2 J3]. split; rewrite ?B3; try done. rewrite U3. destruct J3 as [_ J3]. by split.
Qed.

(** "hi", return, at an idle terminal. *)
Definition ex_tty : tty := Tty (Buf ∅ 16 16 false false 0 0 0 0 [])
  (<[0x1000 := 37]> (<[0x1001 := 115]> (<[0x1002 := 0]> (ram 0x2000 8)))) (Uart true [104; 105; 13] [] 3 ∅) true.

Lemma tty_line_witness :
  wp (com_intr 7 hang ;;; tmp_read 7 hang 3 0x2000 ;;; tmp_write 0x1000 0x2000) (λ r s', r = E_OK ∧ idle [] s' ∧
    holds (t_mem s') 0x2000 [104; 105; 0] ∧ only 0x2000 3 (t_mem ex_tty) (t_mem s') ∧
    u_rx (t_uart s') = [] ∧ u_tx (t_uart s') = [104; 105; 10; 104; 105]) ex_tty.
Proof.
  apply (tty_line 7 hang 0x1000 3 [] [104; 105] [] 0x2000 ex_tty).
  - split; [split; cbn; first [lia|split; lia|done]|done|done].
  - cbn. repeat constructor; lia.
  - cbn. lia.
  - done.
  - unfold NEWLINE. set_solver.
  - repeat constructor; lia.
  - simpl. lia.
  - intros x Hx. cbn [t_mem ex_tty length] in *. rewrite !lookup_insert_ne by lia. exists 0. apply ram_lookup. lia.
  - lia.
  - by vm_compute.
  - split; [by apply holds_forallb; vm_compute|repeat constructor; lia|by vm_compute].
  - left. lia.
Defined.
