(* ===== verification/Printf.v ===== *)
(** * Console output of user programs: usr/lib/stdio.c

    [printf] builds its text in an array of 100 bytes on the stack and passes it to
    [SYS_write], which prints it (tmp_write of Tty). [buf] is where the array is; what is
    behind it on the stack is memory like any other. The digit buffer [_s\[15\]] is a
    list, as in Log. *)
From S2P Require Import Prelude Cstring Words Log.

Definition SZ_BUF : Z := 100.

Section code.
(** Where the kernel's string ["%s"] is, and the array. *)
Context (fmt_s buf : Z).
Abbreviation M := (Prelude.M console).

Definition puts (s : Z) : M Z := printk fmt_s [s] ;;; ret E_OK.

(** [for (--_p; _p >= _s; --_p) s\[p++\] = *_p] *)
Definition copy_body (s : Z) (ds : list Z) (jp : Z * Z) : M (Z * Z + Z) :=
  let '(j, p) := jp in
  if 0 <=? j then
    c <- deref (ds !! Z.to_nat j) ;; on_mem (wr (add32 s p) c) ;;; ret (inl (j - 1, p + 1))
  else ret (inr p).
Definition copy_back (s : Z) (ds : list Z) (p : Z) : M Z :=
  loop (S (length ds)) (copy_body s ds) (Z.of_nat (length ds) - 1, p).

Definition itoa (s x redix : Z) : M Z :=
  if x =? 0 then on_mem (wr s 48) ;;; ret 1 else
  r <- (if x <? 0 then on_mem (wr s 45) ;;; ret (1, s32 (- x)) else ret (0, x)) ;;
  ds <- digits_loop (snd r) redix ;; copy_back s ds (fst r).
Definition uitoa (s x redix : Z) : M Z :=
  if x =? 0 then on_mem (wr s 48) ;;; ret 1 else
  ds <- digits_loop x redix ;; copy_back s ds 0.

(** One turn of the loop over the format: where it is, the arguments left and [p]. *)
Definition printf_body (st : Z * list Z * Z) : M (Z * list Z * Z + Z) :=
  let '(fmt, args, p) := st in
  c <- on_mem (rd fmt) ;;
  if c =? 0 then ret (inr p) else
  if negb (c =? 37) then on_mem (wr (add32 buf p) c) ;;; ret (inl (add32 fmt 1, args, p + 1)) else
  let fmt := add32 fmt 1 in
  c <- on_mem (rd fmt) ;;
  r <- (if c =? 100 then a <- va_arg args ;; n <- itoa (add32 buf p) (s32 a.1) 10 ;; ret (a.2, p + n)
        else if c =? 120 then a <- va_arg args ;; n <- itoa (add32 buf p) (s32 a.1) 16 ;; ret (a.2, p + n)
        else if c =? 112 then a <- va_arg args ;; n <- uitoa (add32 buf p) (u32 a.1) 16 ;; ret (a.2, p + n)
        else if c =? 99 then a <- va_arg args ;; on_mem (wr (add32 buf p) a.1) ;;; ret (a.2, p + 1)
        else if c =? 115 then
          a <- va_arg args ;; n <- on_mem (strlen a.1) ;; on_mem (strcpy (add32 buf p) a.1 n) ;;;
          n <- on_mem (strlen a.1) ;; ret (a.2, p + n)
        else if c =? 37 then on_mem (wr (add32 buf p) 37) ;;; ret (args, p + 1)
        else ret (args, p)) ;;
  ret (inl (add32 fmt 1, fst r, snd r)).

(** [printf] up to [puts]. *)
Definition format (fmt : Z) (args : list Z) : M Z :=
  on_mem (memset buf 0 SZ_BUF) ;;;
  m <- gets cmem ;; loop (S (size m)) printf_body (fmt, args, 0).
Definition printf (fmt : Z) (args : list Z) : M Z :=
  format fmt args ;;; _ <- puts buf ;; ret 0.
End code.

(** ** The text in the array *)
Section spec.
Context (fmt_s buf : Z).
Implicit Types s : console.

(** [t] has been written, [m0] was the memory before and [N] bytes may change. *)
Record written (N : Z) (m0 : mem) (o : list Z) (t : list Z) s : Prop := {
  w_text : holds (cmem s) buf t;
  w_zero : ∀ x, buf + Z.of_nat (length t) ≤ x < buf + SZ_BUF → cmem s !! x = Some 0;
  w_only : only buf N m0 (cmem s);
  w_out : out s = o;
}.

Context (N : Z) (m0 : mem) (o : list Z).
Hypothesis Hroom : mapped m0 buf N ∧ 0 ≤ buf ∧ buf + N < W32 ∧ all_bytes m0.

Lemma put_byte t c s (Q : unit → console → Prop) : written N m0 o t s → 0 ≤ c < 256 →
  Z.of_nat (length t) < N → (∀ s', written N m0 o (t ++ [c]) s' → Q tt s') →
  wp (on_mem (wr (buf + Z.of_nat (length t)) c)) Q s.
Proof.
  destruct Hroom as (Hm & Hb & Hw & _). intros [W1 W2 W3 W4] Hc Hl HQ. apply wp_zoom, wp_wr.
  { apply (only_mapped _ _ _ _ _ _ W3 Hm). lia. }
  apply HQ. rewrite Z.mod_small by done. split; cbn [cmem out].
  - apply holds_app. split; [apply holds_wr; [done|lia]|]. apply holds_cons. split; [apply lookup_insert_eq|by intros ??].
  - intros x. rewrite length_app. cbn [length]. intros Hx. rewrite lookup_insert_ne by lia. apply W2. lia.
  - eapply only_seq; [exact W3|]. split.
    + intros x Hx. apply lookup_insert_ne. lia.
    + intros x Hx. destruct (decide (x = buf + Z.of_nat (length t))) as [->|].
      { rewrite lookup_insert_eq. by eexists. } { by rewrite lookup_insert_ne. }
    + intros Hbs x w Hx. apply lookup_insert_Some in Hx as [[_ <-]|[_ Hx]]; [done|by eapply Hbs].
  - done.
Qed.

Lemma buf_at (t : list Z) p : p = Z.of_nat (length t) → Z.of_nat (length t) ≤ N → add32 buf p = buf + Z.of_nat (length t).
Proof. intros -> ?. apply add32_small. destruct Hroom as (_ & ? & ? & _). lia. Qed.

(** The digits, most significant first, behind [l1] characters of this number. *)
Lemma wp_copy_back ds t l1 s : written N m0 o (t ++ l1) s → Forall (λ c, 0 ≤ c < 256) ds →
  Z.of_nat (length t + length l1 + length ds) ≤ N →
  wp (copy_back (add32 buf (Z.of_nat (length t))) ds (Z.of_nat (length l1))) (λ n s',
    n = Z.of_nat (length (l1 ++ reverse ds)) ∧ written N m0 o (t ++ l1 ++ reverse ds) s') s.
Proof.
  intros Hw Hd Hl. unfold copy_back.
  apply (wp_loop (λ n '(j, p) s', j = Z.of_nat n - 1 ∧ (n ≤ length ds)%nat ∧
    p = Z.of_nat (length (l1 ++ reverse (drop n ds))) ∧ written N m0 o (t ++ l1 ++ reverse (drop n ds)) s'))
    with (n := length ds); [|lia|].
  - intros n [j p] s1 (-> & Hn & -> & Hs). unfold copy_body. case_match eqn:E.
    + destruct n as [|n]; [done|]. replace (Z.of_nat (S n) - 1) with (Z.of_nat n) by lia. rewrite Nat2Z.id.
      destruct (lookup_lt_is_Some_2 ds n) as [c Hc]; [lia|]. apply wp_bind, wp_deref. exists c. split; [done|].
      assert (length (drop (S n) ds) = length ds - S n)%nat as Hdl by apply length_drop.
      assert (add32 (add32 buf (Z.of_nat (length t))) (Z.of_nat (length (l1 ++ reverse (drop (S n) ds))))
        = buf + Z.of_nat (length (t ++ l1 ++ reverse (drop (S n) ds)))) as ->.
      { destruct Hroom as (_ & ? & ? & _). rewrite (buf_at t) by (done || lia). rewrite !length_app, length_reverse, Hdl.
        rewrite add32_small by lia. lia. }
      apply wp_bind, put_byte; [done|by rewrite Forall_lookup in Hd; eapply Hd| |].
      { rewrite !length_app, length_reverse, Hdl. lia. }
      intros s2 Hs2. apply wp_ret. exists n. split; [lia|]. rewrite (drop_S _ _ _ Hc), reverse_cons.
      rewrite !app_assoc in *. split_and!; [done|lia|rewrite !length_app; simpl; lia|done].
    + destruct n; [|rewrite Z.leb_gt in E; lia]. rewrite drop_0 in *. by apply wp_ret.
  - split_and!; [done|lia|rewrite drop_all, reverse_nil, app_nil_r; done|by rewrite drop_all, reverse_nil, app_nil_r].
Qed.

Lemma wp_digits x base s (Q : list Z → console → Prop) : 8 ≤ base ≤ 16 → is_u32 x →
  Q (map digit_char (digits 15 base x)) s → wp (digits_loop x base) Q s.
Proof. intros Hb Hx HQ. eapply wp_mono; [by apply digits_loop_spec|]. by intros ? ? [-> ->]. Qed.

Lemma digit_chars base x : 2 ≤ base ≤ 16 → is_u32 x → Forall (λ c, 0 ≤ c < 256) (map digit_char (digits 15 base x)).
Proof.
  intros Hb Hx. apply Forall_map. eapply Forall_impl; [apply digits_range; [lia|unfold is_u32 in Hx; lia]|].
  intros d Hd. pose proof (digit_char_inv d Hd). lia.
Qed.

Lemma numeral_pos base x : x ≠ 0 → numeral base x = reverse (map digit_char (digits 15 base x)).
Proof. intros Hx. unfold numeral. by rewrite (proj2 (Z.eqb_neq _ _)). Qed.

(** What a number conversion appends. *)
Definition appends (t l : list Z) (n : Z) s : Prop := n = Z.of_nat (length l) ∧ written N m0 o (t ++ l) s.

Lemma wp_uitoa base x t s : written N m0 o t s → 8 ≤ base ≤ 16 → is_u32 x →
  Z.of_nat (length t + length (numeral base x)) ≤ N →
  wp (uitoa (add32 buf (Z.of_nat (length t))) x base) (appends t (numeral base x)) s.
Proof.
  intros Hw Hb Hx Hl. unfold uitoa. destruct (Z.eqb_spec x 0) as [->|Hx0].
  - change (numeral base 0) with [48] in *. cbn [length] in Hl. rewrite (buf_at t) by (done || lia).
    apply wp_bind, put_byte; [done|lia|lia|]. intros s1 H1. by apply wp_ret.
  - rewrite (numeral_pos _ _ Hx0) in *. rewrite length_reverse in Hl. apply wp_bind, wp_digits; [done..|].
    eapply wp_mono; [apply (wp_copy_back _ t []); [by rewrite app_nil_r|apply digit_chars; [lia|done]|cbn [length]; lia]|].
    intros n s1 [-> H1]. done.
Qed.

Lemma wp_itoa base x t s : written N m0 o t s → 8 ≤ base ≤ 16 → - 2 ^ 31 < x < 2 ^ 31 →
  Z.of_nat (length t + length (int_text base x)) ≤ N →
  wp (itoa (add32 buf (Z.of_nat (length t))) x base) (appends t (int_text base x)) s.
Proof.
  intros Hw Hb Hx Hl. unfold itoa, int_text in *. destruct (Z.eqb_spec x 0) as [->|Hx0].
  { change (numeral base 0) with [48] in *. change (0 <? 0) with false in *. cbv iota in *. cbn [length] in Hl. rewrite (buf_at t) by (done || lia).
    apply wp_bind, put_byte; [done|lia|lia|]. intros s1 H1. by apply wp_ret. }
  apply wp_bind. destruct (Z.ltb_spec x 0).
  - rewrite numeral_pos in * by lia. cbn [length] in Hl. rewrite length_reverse in Hl.
    assert (is_u32 (- x)) by (unfold is_u32, W32; lia).
    rewrite (buf_at t) at 1 by (done || lia). apply wp_bind, put_byte; [done|lia|lia|]. intros s1 H1. apply wp_ret.
    cbn [fst snd]. rewrite s32_small by lia. apply wp_bind, wp_digits; [done..|].
    eapply wp_mono; [apply (wp_copy_back _ t [45]); [done|apply digit_chars; [lia|done]|cbn [length]; lia]|].
    intros n s2 [-> H2]. done.
  - rewrite numeral_pos in * by lia. rewrite length_reverse in Hl. assert (is_u32 x) by (unfold is_u32, W32; lia).
    apply wp_ret. cbn [fst snd]. apply wp_bind, wp_digits; [done..|].
    eapply wp_mono; [apply (wp_copy_back _ t []); [by rewrite app_nil_r|apply digit_chars; [lia|done]|cbn [length]; lia]|].
    intros n s2 [-> H2]. done.
Qed.

(** A string outside what [printf] may write keeps its bytes. *)
Lemma cstr_written p l t s : cstr m0 p l → p + Z.of_nat (length l) + 1 ≤ buf ∨ buf + N ≤ p → written N m0 o t s →
  cstr (cmem s) p l.
Proof.
  intros [C1 C2 C3] Hd Hw. split; [|done|done]. eapply only_holds; [apply Hw|exact C1|]. rewrite length_app. simpl. lia.
Qed.

Lemma wp_string {B} p l t (k : Z → M console B) s (Q : B → console → Prop) : written N m0 o t s → cstr m0 p l →
  p + Z.of_nat (length l) + 1 ≤ buf ∨ buf + N ≤ p → Z.of_nat (length t + length l) ≤ N → SZ_BUF ≤ N →
  (∀ s', written N m0 o (t ++ l) s' → wp (k (Z.of_nat (length l))) Q s') →
  wp (n <- on_mem (strlen p) ;; on_mem (strcpy (add32 buf (Z.of_nat (length t))) p n) ;;; n <- on_mem (strlen p) ;; k n) Q s.
Proof.
  intros Hw Hc Hd Hl HN HQ. destruct Hroom as (Hm & Hb & Hbw & Hby). pose proof (cstr_written _ _ _ _ Hc Hd Hw) as Hc1.
  pose proof (cs_range _ _ _ Hc) as Hr.
  apply wp_bind, wp_zoom. eapply wp_mono; [by apply strlen_spec|]. intros n m [-> ->].
  replace (Console (cmem s) (out s)) with s by by destruct s.
  rewrite (buf_at t) by (done || lia). destruct Hw as [W1 W2 W3 W4].
  apply wp_bind, wp_zoom. change strcpy with memcpy. apply wp_memcpy; try lia.
  - destruct Hc1 as [C1 _ _]. by apply holds_app in C1 as [C1 _].
  - by apply W3.
  - intros x Hx. apply (only_mapped _ _ _ _ _ _ W3 Hm). lia.
  - intros [] m1 Hh Ho. assert (written N m0 o (t ++ l) (Console m1 (out s))) as Hw1.
    { split; cbn [cmem out].
      - apply holds_app. split; [|done]. eapply only_holds; [exact Ho|exact W1|]. lia.
      - intros x. rewrite length_app. intros Hx. rewrite (on_frame _ _ _ _ Ho) by lia. apply W2. lia.
      - eapply only_seq; [exact W3|]. eapply only_wider; [exact Ho|lia|lia].
      - done. }
    apply wp_bind, wp_zoom. eapply wp_mono; [apply strlen_spec; by apply (cstr_written _ _ _ _ Hc Hd Hw1)|].
    intros n m [-> ->]. by apply HQ.
Qed.

(** ** Formats *)
Definition apart (p : Z) (l : list Z) : Prop := p + Z.of_nat (length l) + 1 ≤ buf ∨ buf + N ≤ p.
(** The conversions for which the user's [printf] prints what the kernel's [printk] does.
    Not [%o], which only [printk] knows: [printf] copies it and leaves the argument. Not
    the least integer, whose negation is itself, and not [%c] of 0, which ends the text. *)
Definition conv_ok (i : item) : Prop :=
  match i with
  | Lit c => c ≠ 37
  | Oct _ => False
  | Dec x | Hex x => - 2 ^ 31 < x < 2 ^ 31
  | Ptr x => is_u32 x
  | Chr x => 0 < x < 256
  | Str p l => cstr m0 p l ∧ apart p l
  | Percent => True
  | Other c => c ∉ [37; 99; 100; 112; 115; 120]
  end.

Definition turned (fmt : Z) (args t : list Z) (r : Z * list Z * Z + Z) s : Prop :=
  r = inl (fmt, args, Z.of_nat (length t)) ∧ written N m0 o t s.

Lemma wp_number {B} (f : M console Z) (a : B) t l s (Q : B * Z → console → Prop) : wp f (appends t l) s →
  (∀ s', written N m0 o (t ++ l) s' → Q (a, Z.of_nat (length (t ++ l))) s') →
  wp (n <- f ;; ret (a, Z.of_nat (length t) + n)) Q s.
Proof.
  intros Hf HQ. apply wp_bind. eapply wp_mono; [exact Hf|]. intros n s1 [-> H1]. apply wp_ret.
  rewrite <- Nat2Z.inj_add, <- length_app. by apply HQ.
Qed.

Lemma printf_body_spec i fmt args rest t s : written N m0 o t s → SZ_BUF ≤ N →
  cstr m0 fmt (item_fmt i ++ rest) → apart fmt (item_fmt i ++ rest) → conv_ok i →
  Z.of_nat (length t + length (item_text i)) ≤ N →
  wp (printf_body buf (fmt, item_args i ++ args, Z.of_nat (length t)))
    (turned (fmt + Z.of_nat (length (item_fmt i))) args (t ++ item_text i)) s.
Proof.
  intros Hw HN Hf Ha Hok Hl. pose proof (cstr_written _ _ _ _ Hf Ha Hw) as Hf1. unfold printf_body.
  assert ((∃ c, i = Lit c) ∨ ∃ c, item_fmt i = [37; c]) as [[c ->]|[c Hi]] by (destruct i; simpl; eauto).
  - destruct (cstr_head _ _ _ _ Hf1) as (Hp & Hc & _ & Hadd). simpl in Hok, Hl.
    eapply wp_bind, wp_on_mem_rd; [done|]. rewrite !(proj2 (Z.eqb_neq _ _)) by lia. cbn [negb].
    rewrite (buf_at t) by (done || lia). apply wp_bind, put_byte; [done|lia|lia|]. intros s1 H1. apply wp_ret.
    rewrite Hadd. split; [|done]. cbn [item_fmt item_text item_args app length]. rewrite length_app. simpl. do 3 f_equal; lia.
  - rewrite Hi in Hf1. destruct (cstr_head _ _ _ _ Hf1) as (Hp & Hc & Ht & Hadd).
    destruct (cstr_head _ _ _ _ Ht) as (Hp' & Hc' & _ & Hadd').
    eapply wp_bind, wp_on_mem_rd; [done|]. cbn [Z.eqb Pos.eqb negb].
    eapply wp_bind, wp_on_mem_rd; [done|]. rewrite Hi, Hadd', Hadd. cbn [length].
    replace (fmt + Z.of_nat 2) with (fmt + 1 + 1) by lia. apply wp_bind.
    apply (wp_mono _ (λ r s', r = (args, Z.of_nat (length (t ++ item_text i))) ∧ written N m0 o (t ++ item_text i) s')).
    2:{ intros r s1 [-> H1]. apply wp_ret. by split. }
    assert (∀ v, 0 ≤ v < 256 → Z.of_nat (length t) < N → wp (on_mem (wr (add32 buf (Z.of_nat (length t))) v) ;;;
      ret (args, Z.of_nat (length t) + 1)) (λ r s', r = (args, Z.of_nat (length (t ++ [v]))) ∧ written N m0 o (t ++ [v]) s') s) as Hbyte.
    { intros v Hv Hv2. rewrite (buf_at t) by (done || lia). apply wp_bind, put_byte; [done..|]. intros s1 H1. apply wp_ret.
      split; [|done]. rewrite length_app. simpl. f_equal. lia. }
    destruct i; simpl in Hi; simplify_eq; simpl in Hok; cbn [item_args item_text app] in *;
      try (rewrite !not_elem_of_cons in Hok; destruct_and! Hok); conv_step; cbn [length] in Hl; try done.
    all: try (apply (Hbyte 37); lia).
    all: try (apply wp_bind; cbn [va_arg]; apply wp_ret; cbn [fst snd];
      rewrite ?s32_u32, ?u32_idem, ?(u32_small x) by (done || lia)).
    all: try (eapply wp_number; [first [apply wp_itoa|apply wp_uitoa]; (done || lia)|by intros s1 H1]).
    all: try (apply Hbyte; lia).
    + destruct Hok as [Hcs Hap]. apply (wp_string _ _ _ _ _ _ Hw Hcs Hap Hl HN). intros s1 H1. apply wp_ret.
      split; [|done]. f_equal. rewrite length_app. lia.
    + apply wp_ret. by rewrite app_nil_r.
Qed.

Lemma format_spec items fmt s : s = Console m0 o → SZ_BUF ≤ N →
  cstr m0 fmt (flat_map item_fmt items) → apart fmt (flat_map item_fmt items) → Forall conv_ok items →
  Z.of_nat (length (flat_map item_text items)) ≤ N →
  wp (format buf fmt (flat_map item_args items))
    (λ n s', n = Z.of_nat (length (flat_map item_text items)) ∧ written N m0 o (flat_map item_text items) s') s.
Proof.
  intros Hs0 HN Hf Ha Hok Hl. subst s. destruct Hroom as (Hm & Hb & Hbw & Hby). unfold format.
  apply wp_bind, wp_zoom. eapply wp_mono; [apply memset_spec; try (unfold SZ_BUF in *; lia)|].
  { intros x Hx. apply Hm. unfold SZ_BUF in *. lia. }
  intros u m1 Hz. cbn [cmem out] in *.
  assert (written N m0 o [] (Console m1 o)) as H0.
  { split; cbn [cmem out length]; [by intros ??| |eapply only_wider; [|apply Z.le_refl|]|done].
    - intros x Hx. rewrite (Hz x), decide_True by lia. done.
    - eapply filled_only; [exact Hz|]. intros j _. exists 0. split; [done|lia].
    - lia. }
  apply wp_bind, wp_gets. pose proof (cstr_fuel _ _ _ (cstr_written _ _ _ _ Hf Ha H0)) as Hfu. cbn [cmem] in Hfu.
  apply (wp_loop (λ n '(q, args, p) s', ∃ i1 i2, items = i1 ++ i2 ∧ n = length i2 ∧ args = flat_map item_args i2 ∧
    q = fmt + Z.of_nat (length (flat_map item_fmt i1)) ∧ p = Z.of_nat (length (flat_map item_text i1)) ∧
    written N m0 o (flat_map item_text i1) s')) with (n := length items).
  - intros n [[q args] p] s1 (i1 & i2 & -> & -> & -> & -> & -> & Hs). rewrite !flat_map_app in *.
    pose proof (cstr_app _ _ _ _ Hf) as Hf2.
    assert (apart (fmt + Z.of_nat (length (flat_map item_fmt i1))) (flat_map item_fmt i2)) as Ha2
      by (unfold apart in *; rewrite length_app in Ha; lia).
    destruct i2 as [|i i2]; cbn [flat_map] in *.
    + pose proof (cstr_end _ _ (cstr_written _ _ _ _ Hf2 Ha2 Hs)) as He. unfold printf_body.
      eapply wp_bind, wp_on_mem_rd; [exact He|]. apply wp_ret. rewrite app_nil_r. by split.
    + apply Forall_app in Hok as [_ [Hi _]%Forall_cons]. rewrite !length_app in Hl.
      eapply wp_mono; [apply (printf_body_spec i _ _ (flat_map item_fmt i2)); try done; lia|].
      intros r s2 [-> H2]. exists (length i2). split; [simpl; lia|]. exists (i1 ++ [i]), i2.
      rewrite !flat_map_app. cbn [flat_map]. rewrite !app_nil_r.
      split_and!; [by rewrite <- app_assoc|done|done|rewrite length_app; lia|done|done].
  - eapply Nat.le_lt_trans; [|exact Hfu]. clear. induction items as [|i items IH]; simpl; [lia|].
    rewrite length_app. pose proof (item_fmt_length i). lia.
  - exists [], items. split_and!; try done. simpl. lia.
Qed.
End spec.

(** The text has no zero byte. *)
Lemma text_chars buf N m items : Forall (conv_ok buf N m) items → Forall (λ c, 0 < c < 256) (flat_map item_fmt items) →
  Forall (λ c, 0 < c < 256) (flat_map item_text items).
Proof.
  assert (∀ b x, 8 ≤ b ≤ 16 → is_u32 x → Forall (λ c, 0 < c < 256) (numeral b x)) as Hnum.
  { intros b x Hb Hx. eapply Forall_impl; [by apply numeral_chars|]. simpl. lia. }
  assert (∀ b x, 8 ≤ b ≤ 16 → - 2 ^ 31 < x < 2 ^ 31 → Forall (λ c, 0 < c < 256) (int_text b x)) as Hint.
  { intros b x Hb Hx. unfold int_text. case_match; [constructor; [lia|]|]; apply Hnum; unfold is_u32, W32; lia. }
  intros Hok Hf. induction Hok as [|i items Hi _ IH]; [done|]. cbn [flat_map] in *. apply Forall_app in Hf as [Hf1 Hf2].
  apply Forall_app. split; [|by apply IH].
  destruct i; simpl in Hi; cbn [item_text item_fmt] in *; try done; try (by constructor; [lia|constructor]);
    try (first [apply Hint|apply Hnum]; (done || lia)).
  destruct Hi as [[_ Hc _] _]. exact Hc.
Qed.

(** C39: [printf] of a user program prints what the kernel's [printk] prints for the
    conversions of %d, %x, %p, %c, %s and %% ([conv_ok]: numbers above INT_MIN, characters
    other than 0, strings outside the array; %o is not among them, which printk prints in
    octal and printf neither converts nor takes the argument of), and it is built inside
    its array of 100 bytes: a text of at most 99 characters is printed whole, and no other
    byte of memory changes. A longer text is written behind the array over whatever the
    stack holds there, byte for byte: nothing looks at the end. *)
Theorem printf_correct fmt_s buf items fmt s :
  let text := flat_map item_text items in
  let N := SZ_BUF `max` Z.of_nat (length text) in
  mapped (cmem s) buf N → 0 ≤ buf → buf + N < W32 → all_bytes (cmem s) →
  cstr (cmem s) fmt (flat_map item_fmt items) → apart buf N fmt (flat_map item_fmt items) →
  Forall (conv_ok buf N (cmem s)) items → cstr (cmem s) fmt_s [37; 115] → apart buf N fmt_s [37; 115] →
  if Z.of_nat (length text) <? SZ_BUF
  then wp (printf fmt_s buf fmt (flat_map item_args items)) (λ r s', r = 0 ∧ out s' = out s ++ text ∧
    only buf SZ_BUF (cmem s) (cmem s')) s
  else wp (format buf fmt (flat_map item_args items)) (λ n s', n = Z.of_nat (length text) ∧ out s' = out s ∧
    holds (cmem s') buf text ∧ only buf (Z.of_nat (length text)) (cmem s) (cmem s')) s.
Proof.
  intros text N Hm Hb Hw Hby Hf Ha Hok Hs Has.
  assert (wp (format buf fmt (flat_map item_args items)) (λ n s', n = Z.of_nat (length text) ∧
    written buf N (cmem s) (out s) text s') s) as Hfo.
  { assert (SZ_BUF ≤ N ∧ Z.of_nat (length text) ≤ N) as [? ?] by (unfold N; lia).
    apply format_spec; first [done|by destruct s]. }
  destruct (Z.ltb_spec (Z.of_nat (length text)) SZ_BUF).
  - unfold printf. apply wp_bind. eapply wp_mono; [exact Hfo|]. intros n s1 [_ Hwr].
    pose proof (cstr_written _ _ _ _ _ _ _ _ Hs Has Hwr) as Hs1. destruct Hwr as [W1 W2 W3 W4].
    assert (cstr (cmem s1) buf text) as Ht.
    { split; [|apply (text_chars _ _ _ _ Hok), Hf|lia]. apply holds_app. split; [done|]. apply holds_cons. split; [|by intros ??]. apply W2. lia. }
    unfold puts. apply wp_bind, wp_bind. eapply wp_mono; [apply (printk_spec [Str buf text] fmt_s); [done|by constructor]|].
    intros r s2 [_ ->]. apply wp_ret, wp_ret. cbn [cmem out flat_map item_text]. rewrite app_nil_r, W4.
    split_and!; [done|done|]. eapply only_wider; [exact W3|lia|unfold N; lia].
  - eapply wp_mono; [exact Hfo|]. intros n s1 [-> [W1 W2 W3 W4]]. split_and!; try done.
    eapply only_wider; [exact W3|lia|unfold N; lia].
Qed.

Lemma bytes_insert m a v : all_bytes m → 0 ≤ v < 256 → all_bytes (<[a := v]> m).
Proof. intros Hm Hv x b Hb. apply lookup_insert_Some in Hb as [[_ <-]|[_ Hb]]; [done|by eapply Hm]. Qed.

(** [printf("%d%s", -7, "ab")] with the array at 0x1000. *)
Definition ex_printf_items : list item := [Dec (-7); Str 0x10a0 [97; 98]].
Definition ex_printf : console := Console (<[0x1080 := 37]> (<[0x1081 := 115]> (<[0x1090 := 37]> (<[0x1091 := 100]>
  (<[0x1092 := 37]> (<[0x1093 := 115]> (<[0x10a0 := 97]> (<[0x10a1 := 98]> (ram 0x1000 256))))))))) [].

#[local] Ltac ex_cstr := split; [apply holds_forallb; by vm_compute|cbn [flat_map item_fmt ex_printf_items app];
  repeat (constructor; [lia|]); constructor|by vm_compute].
Lemma printf_correct_witness :
  wp (printf 0x1080 0x1000 0x1090 [u32 (-7); 0x10a0]) (λ r s', r = 0 ∧ out s' = [45; 55; 97; 98] ∧
    only 0x1000 SZ_BUF (cmem ex_printf) (cmem s')) ex_printf.
Proof.
  assert (∀ x, 0x1000 ≤ x < 0x1064 → cmem ex_printf !! x = Some 0) as Hlow.
  { intros x Hx. cbn [cmem ex_printf]. rewrite !lookup_insert_ne by lia. apply ram_lookup. lia. }
  pose proof (printf_correct 0x1080 0x1000 ex_printf_items 0x1090 ex_printf) as Hw.
  change (flat_map item_text ex_printf_items) with [45; 55; 97; 98] in Hw. cbv zeta in Hw.
  change (SZ_BUF `max` Z.of_nat (length [45; 55; 97; 98])) with 100 in Hw.
  change (Z.of_nat (length [45; 55; 97; 98]) <? SZ_BUF) with true in Hw. cbv iota in Hw. apply Hw; clear Hw.
  - intros x Hx. exists 0. apply Hlow. lia.
  - lia.
  - done.
  - cbn [cmem ex_printf]. do 8 (apply bytes_insert; [|lia]). apply ram_bytes.
  - ex_cstr.
  - right. lia.
  - constructor; [simpl; lia|]. constructor; [|constructor]. split; [|right; simpl; lia].
    ex_cstr.
  - ex_cstr.
  - right. lia.
Defined.
