(* ===== verification/Elf.v ===== *)
(** * Loading a program image: lib/elf.c

    The header and the program headers are little-endian words of the image in memory;
    each program header asks for a run of cleared bytes whose start is copied from the
    image. *)
From S2P Require Import Prelude Cstring Words.

Definition ELF_MAGIC : Z := 0x464C457F.

(** Offsets in [struct elf_header_t] and [struct elfprog_t], and the size of the latter. *)
Definition H_MAGIC : Z := 0.
Definition H_PHOFF : Z := 28.
Definition H_PHNUM : Z := 44.
Definition P_OFF : Z := 4.
Definition P_PADDR : Z := 12.
Definition P_FILESZ : Z := 16.
Definition P_MEMSZ : Z := 20.
Definition SZ_PROG : Z := 32.

(** [entry] is not written. *)
Definition elf_read (elf : Z) : M mem Z :=
  magic <- rdw (add32 elf H_MAGIC) ;;
  if negb (magic =? ELF_MAGIC) then ret E_FAILE else
  _ <- rdw (add32 elf H_PHOFF) ;;
  ret E_OK.

(** One turn of the loop: [phnum] and the fields are read from the image each time. *)
Definition load_body (elf addr : Z) (ip : Z * Z) : M mem (Z * Z + unit) :=
  let '(i, prog) := ip in
  phnum <- rdh (add32 elf H_PHNUM) ;;
  if i <? phnum then
    paddr <- rdw (add32 prog P_PADDR) ;; memsz <- rdw (add32 prog P_MEMSZ) ;;
    memset (add32 addr paddr) 0 memsz ;;;
    paddr <- rdw (add32 prog P_PADDR) ;; off <- rdw (add32 prog P_OFF) ;;
    filesz <- rdw (add32 prog P_FILESZ) ;;
    memcpy (add32 addr paddr) (add32 elf off) filesz ;;;
    ret (inl (i + 1, add32 prog SZ_PROG))
  else ret (inr tt).

(** [phnum] has 16 bits. *)
Definition elf_load (elf addr : Z) : M mem Z :=
  magic <- rdw (add32 elf H_MAGIC) ;; assert_ (magic =? ELF_MAGIC) ;;;
  phoff <- rdw (add32 elf H_PHOFF) ;;
  loop (S (Z.to_nat (2 ^ 16))) (load_body elf addr) (0, add32 elf phoff) ;;;
  ret E_OK.

(** ** What an image says *)
Record segment := Segment { g_off : Z; g_paddr : Z; g_filesz : Z; g_memsz : Z }.

(** The bytes at [p] describe the segment. *)
Definition prog_at (m : mem) (p : Z) (g : segment) : Prop :=
  word m (p + P_OFF) (g_off g) ∧ word m (p + P_PADDR) (g_paddr g) ∧
  word m (p + P_FILESZ) (g_filesz g) ∧ word m (p + P_MEMSZ) (g_memsz g).

(** An image of [n] bytes at [elf] with segments [gs], to be loaded at [addr] outside
    the image; the segments do not overlap in memory. *)
Record image (m : mem) (elf n phoff addr : Z) (gs : list segment) : Prop := {
  im_range : 0 ≤ elf ∧ elf + n < W32 ∧ 48 ≤ n ∧ mapped m elf n ∧ all_bytes m ∧ 0 ≤ addr;
  im_head : word m (elf + H_MAGIC) ELF_MAGIC ∧ word m (elf + H_PHOFF) phoff ∧
    half m (elf + H_PHNUM) (Z.of_nat (length gs));
  im_table : 0 ≤ phoff ∧ phoff + SZ_PROG * Z.of_nat (length gs) ≤ n ∧ Z.of_nat (length gs) < 2 ^ 16 ∧
    ∀ i g, gs !! i = Some g → prog_at m (elf + phoff + SZ_PROG * Z.of_nat i) g;
  im_segs : ∀ g, g ∈ gs → 0 ≤ g_off g ∧ 0 ≤ g_filesz g ≤ g_memsz g ∧ g_off g + g_filesz g ≤ n ∧
    0 ≤ g_paddr g ∧ addr + g_paddr g + g_memsz g < W32 ∧ mapped m (addr + g_paddr g) (g_memsz g) ∧
    (addr + g_paddr g + g_memsz g ≤ elf ∨ elf + n ≤ addr + g_paddr g);
  im_apart : ∀ i j g h, gs !! i = Some g → gs !! j = Some h → i ≠ j →
    g_paddr g + g_memsz g ≤ g_paddr h ∨ g_paddr h + g_memsz h ≤ g_paddr g;
}.

(** Byte [k] of a loaded segment. *)
Definition seg_byte (m : mem) (elf : Z) (g : segment) (k : Z) : option Z :=
  if k <? g_filesz g then m !! (elf + g_off g + k) else Some 0.
Definition in_seg (addr : Z) (g : segment) (x : Z) : Prop :=
  addr + g_paddr g ≤ x < addr + g_paddr g + g_memsz g.

(** The first [i] segments are loaded, and nothing else has changed. *)
Definition loaded (m : mem) (elf addr : Z) (gs : list segment) (i : nat) (m' : mem) : Prop :=
  (∀ j g x, (j < i)%nat → gs !! j = Some g → in_seg addr g x →
     m' !! x = seg_byte m elf g (x - (addr + g_paddr g))) ∧
  (∀ x, (∀ j g, (j < i)%nat → gs !! j = Some g → ¬ in_seg addr g x) → m' !! x = m !! x).

(** What stays true of the memory while the image [m] is being loaded. *)
Record sound (m : mem) (elf n addr : Z) (gs : list segment) (m' : mem) : Prop := {
  so_image : ∀ x, elf ≤ x < elf + n → m' !! x = m !! x;
  so_segs : ∀ g, g ∈ gs → mapped m' (addr + g_paddr g) (g_memsz g);
  so_bytes : all_bytes m';
}.

Lemma sound_start m elf n phoff addr gs : image m elf n phoff addr gs → sound m elf n addr gs m.
Proof. intros [(_ & _ & _ & _ & ? & _) _ _ Hs _]. split; [done| |done]. intros g Hg. apply (Hs g Hg). Qed.

(** A run of bytes written into a segment. *)
Lemma sound_fill m elf n phoff addr gs g k f m1 m2 : image m elf n phoff addr gs → g ∈ gs →
  sound m elf n addr gs m1 → filled (addr + g_paddr g) k f m1 m2 → 0 ≤ k ≤ g_memsz g →
  (∀ j, 0 ≤ j < k → ∃ b, f j = Some b ∧ 0 ≤ b < 256) → sound m elf n addr gs m2.
Proof.
  intros [_ _ _ Hs _] Hg [H1 H2 H3] Hf Hk Hb. destruct (Hs g Hg) as (_ & _ & _ & _ & _ & _ & Hd). split.
  - intros x Hx. rewrite (filled_out _ _ _ _ _ _ Hf) by lia. by apply H1.
  - intros h Hh x Hx. rewrite (Hf x). case_decide; [|by apply (H2 h)].
    destruct (Hb (x - (addr + g_paddr g))) as (b & -> & _); [lia|by eexists].
  - intros x b. rewrite (Hf x). case_decide; [|apply H3].
    destruct (Hb (x - (addr + g_paddr g))) as (b' & -> & ?); [lia|]. by intros [= <-].
Qed.

(** What lies in the image is read from it unchanged. *)
Lemma sound_holds m elf n addr gs m1 a l : sound m elf n addr gs m1 → holds m a l →
  elf ≤ a → a + Z.of_nat (length l) ≤ elf + n → holds m1 a l.
Proof.
  intros [H1 _ _] Hl Ha Hn k b Hk. pose proof (lookup_lt_Some _ _ _ Hk). rewrite H1 by lia. by apply Hl.
Qed.

(** One segment: cleared, then its file part copied over it. *)
Lemma loaded_step m elf n phoff addr gs i g m1 m2 m3 : image m elf n phoff addr gs → gs !! i = Some g →
  loaded m elf addr gs i m1 → sound m elf n addr gs m2 →
  filled (addr + g_paddr g) (g_memsz g) (λ _, Some 0) m1 m2 →
  filled (addr + g_paddr g) (g_filesz g) (λ k, m2 !! (elf + g_off g + k)) m2 m3 →
  loaded m elf addr gs (S i) m3.
Proof.
  intros [_ _ _ Hsegs Hap] Hi [HL1 HL2] [Him _ _] Hf2 Hf3.
  destruct (Hsegs g) as (S1 & S2 & S3 & S4 & S5 & S6 & S7); [by eapply list_elem_of_lookup_2|].
  set (d := addr + g_paddr g) in *. split.
  - intros j h x Hlt Hj Hin. destruct (decide (j = i)) as [->|Hne].
    + simplify_eq. unfold in_seg in Hin. fold d in Hin |- *. rewrite (Hf3 x). unfold seg_byte.
      destruct (Z.ltb_spec (x - d) (g_filesz g)).
      * rewrite decide_True by lia. apply Him. lia.
      * rewrite decide_False by lia. rewrite (Hf2 x), decide_True by lia. done.
    + assert (x < d ∨ d + g_memsz g ≤ x) as Hx.
      { unfold in_seg in Hin. unfold d. destruct (Hap j i h g Hj Hi Hne); lia. }
      rewrite (filled_out _ _ _ _ _ _ Hf3), (filled_out _ _ _ _ _ _ Hf2) by lia. apply (HL1 j h); (done || lia).
  - intros x Hx. assert (¬ in_seg addr g x) as Hn by (apply (Hx i); (done || lia)). unfold in_seg in Hn. fold d in Hn.
    rewrite (filled_out _ _ _ _ _ _ Hf3), (filled_out _ _ _ _ _ _ Hf2) by lia.
    apply HL2. intros j h Hlt. apply Hx. lia.
Qed.

Lemma load_turn m elf n phoff addr gs i m1 : image m elf n phoff addr gs → (i ≤ length gs)%nat →
  loaded m elf addr gs i m1 → sound m elf n addr gs m1 →
  wp (load_body elf addr (Z.of_nat i, elf + phoff + SZ_PROG * Z.of_nat i)) (λ r m2, match r with
    | inl v => v = (Z.of_nat (S i), elf + phoff + SZ_PROG * Z.of_nat (S i)) ∧ (i < length gs)%nat ∧
        loaded m elf addr gs (S i) m2 ∧ sound m elf n addr gs m2
    | inr _ => m2 = m1 ∧ i = length gs
    end) m1.
Proof.
  intros HI Hi HL Hso. pose proof HI as [(R1 & R2 & R3 & R4 & R5 & R6) (_ & _ & Hnum) (T1 & T2 & T3 & T4) Hsegs _].
  unfold SZ_PROG, H_PHNUM in *. unfold load_body, H_PHNUM, SZ_PROG. rewrite add32_small by lia.
  apply wp_bind, (wp_rdh _ _ (Z.of_nat (length gs))); [|lia..|].
  { eapply sound_holds; [exact Hso|exact Hnum|lia|cbn [length bytes2]; lia]. }
  destruct (Z.ltb_spec (Z.of_nat i) (Z.of_nat (length gs))) as [Hlt|Hge]; [|apply wp_ret; split; [done|lia]].
  destruct (lookup_lt_is_Some_2 gs i) as [g Hg]; [lia|]. destruct (T4 i g Hg) as (P1 & P2 & P3 & P4).
  assert (g ∈ gs) as Hin by by eapply list_elem_of_lookup_2.
  destruct (Hsegs g Hin) as (S1 & S2 & S3 & S4 & S5 & S6 & S7).
  unfold P_OFF, P_PADDR, P_FILESZ, P_MEMSZ in *.
  set (p := elf + phoff + 32 * Z.of_nat i) in *.
  assert (elf ≤ p ∧ p + 32 ≤ elf + n) as [Hp1 Hp2] by (unfold p; lia). rewrite !(add32_small p) by lia.
  assert (∀ m' o v (Q : Z → mem → Prop), sound m elf n addr gs m' → word m (p + o) v → 0 ≤ o → o + 4 ≤ 32 → 0 ≤ v < W32 →
    Q v m' → wp (rdw (p + o)) Q m') as Hrd.
  { intros m' o v Q Hs Hv Ho1 Ho2 Hu HQ. apply (wp_rdw _ _ v); [|done|lia|lia|done].
    eapply sound_holds; [exact Hs|exact Hv|lia|cbn [length bytes4]; lia]. }
  apply wp_bind, (Hrd _ _ (g_paddr g)); [done|done|lia..|]. apply wp_bind, (Hrd _ _ (g_memsz g)); [done|done|lia..|].
  rewrite (add32_small addr) by lia. apply wp_bind.
  eapply wp_mono; [apply memset_spec; [lia..|by apply (so_segs _ _ _ _ _ _ Hso)]|]. intros [] m2 Hf2.
  assert (sound m elf n addr gs m2) as Hso2.
  { eapply sound_fill; [done|exact Hin|exact Hso|exact Hf2|lia|]. intros j _. exists 0. split; [done|lia]. }
  apply wp_bind, (Hrd _ _ (g_paddr g)); [done|done|lia..|]. apply wp_bind, (Hrd _ _ (g_off g)); [done|done|lia..|].
  apply wp_bind, (Hrd _ _ (g_filesz g)); [done|done|lia..|]. rewrite !add32_small by lia. apply wp_bind.
  assert (∀ x, elf ≤ x < elf + n → is_Some (m2 !! x)) as Him.
  { intros x Hx. rewrite (so_image _ _ _ _ _ _ Hso2) by lia. by apply R4. }
  eapply wp_mono; [apply memcpy_spec; [lia..|apply Hso2| | |lia]|].
  { intros x Hx. apply (so_segs _ _ _ _ _ _ Hso2 g Hin). lia. }
  { intros x Hx. apply Him. lia. }
  intros u m3 Hf3. apply wp_ret. split; [f_equal; lia|]. split; [lia|]. split.
  - by eapply (loaded_step m elf n phoff addr gs i g m1 m2 m3).
  - eapply sound_fill; [done|exact Hin|exact Hso2|exact Hf3|lia|].
    intros j Hj. destruct (Him (elf + g_off g + j)) as [b Hb]; [lia|]. exists b. split; [done|]. by eapply Hso2.
Qed.

(** C31: elf_load copies every segment of a well-formed image to its place, fills the rest of
    the segment with zeros, changes no other byte of memory, and returns. *)
Theorem elf_load_correct m elf n phoff addr gs : image m elf n phoff addr gs →
  wp (elf_load elf addr) (λ e m', e = E_OK ∧ loaded m elf addr gs (length gs) m') m.
Proof.
  intros HI. pose proof HI as [(R1 & R2 & R3 & R4 & R5 & R6) (Hmag & Hoff & Hnum) (T1 & T2 & T3 & T4) _ _].
  unfold elf_load, SZ_PROG, H_MAGIC, H_PHOFF in *. rewrite !(add32_small elf) by lia.
  apply wp_bind, (wp_rdw _ _ ELF_MAGIC); [done|split; done|lia..|]. apply wp_bind, wp_assert. split; [done|].
  apply wp_bind, (wp_rdw _ _ phoff); [done|unfold is_u32; lia|lia..|]. rewrite add32_small by lia. apply wp_bind.
  apply (wp_loop (λ k v m1, ∃ i, (k = length gs - i)%nat ∧ (i ≤ length gs)%nat ∧
    v = (Z.of_nat i, elf + phoff + SZ_PROG * Z.of_nat i) ∧ loaded m elf addr gs i m1 ∧ sound m elf n addr gs m1))
    with (n := length gs).
  - intros k v m1 (i & -> & Hi & -> & HL & Hso). eapply wp_mono; [by apply (load_turn m elf n phoff addr gs i m1)|].
    intros [v|[]] m2.
    + intros (-> & Hlt & HL2 & Hso2). exists (length gs - S i)%nat. split; [lia|]. exists (S i). split_and!; (done || lia).
    + intros [-> ->]. apply wp_ret. done.
  - lia.
  - exists 0%nat. split_and!; [lia|lia|unfold SZ_PROG; f_equal; lia| |by eapply sound_start].
    split; [intros; lia|done].
Qed.

(** A program of one segment: three bytes of text and five cleared ones. *)
Definition ex_seg : segment := Segment 80 4 3 8.
Definition ex_elf : list Z :=
  bytes4 ELF_MAGIC ++ replicate 24 0 ++ bytes4 48 ++ replicate 12 0 ++ bytes2 1 ++ replicate 2 0 ++
  bytes4 1 ++ bytes4 80 ++ bytes4 0 ++ bytes4 4 ++ bytes4 3 ++ bytes4 8 ++ replicate 8 0 ++ [144; 144; 195].

Definition ex_elf_mem : mem := place 1000 ex_elf (ram 2000 16).

Lemma ex_at k l : take (length l) (drop k ex_elf) = l → holds ex_elf_mem (1000 + Z.of_nat k) l.
Proof. apply place_holds. Qed.

Lemma ex_image : image ex_elf_mem 1000 83 48 2000 [ex_seg].
Proof.
  split.
  - split_and!; [done..| | |done].
    + intros x Hx. replace x with (1000 + Z.of_nat (Z.to_nat (x - 1000))) by lia.
      destruct (lookup_lt_is_Some_2 ex_elf (Z.to_nat (x - 1000))) as [b Hb].
      { change (length ex_elf) with 83%nat. lia. }
      exists b. by apply place_in.
    + apply place_bytes; [repeat constructor; done|apply ram_bytes].
  - split_and!; [exact (ex_at 0 (bytes4 ELF_MAGIC) eq_refl)|exact (ex_at 28 (bytes4 48) eq_refl)|exact (ex_at 44 (bytes2 1) eq_refl)].
  - split_and!; [done..|]. intros [|i] g [= <-].
    split_and!; [exact (ex_at 52 (bytes4 80) eq_refl)|exact (ex_at 60 (bytes4 4) eq_refl)|
      exact (ex_at 64 (bytes4 3) eq_refl)|exact (ex_at 68 (bytes4 8) eq_refl)].
  - intros g ->%list_elem_of_singleton. cbn [ex_seg g_off g_paddr g_filesz g_memsz].
    split_and!; [done..| |right; done]. apply place_mapped, ram_mapped; lia.
  - intros i j g h Hi Hj Hne. exfalso. apply lookup_lt_Some in Hi, Hj. simpl in *. lia.
Qed.

Lemma elf_load_correct_witness : image ex_elf_mem 1000 83 48 2000 [ex_seg] ∧
  wp (elf_load 1000 2000) (λ e m', e = E_OK ∧ loaded ex_elf_mem 1000 2000 [ex_seg] 1 m') ex_elf_mem.
Proof.
  split; [exact ex_image|]. apply (elf_load_correct ex_elf_mem 1000 83 48 2000 [ex_seg]). exact ex_image.
Defined.
