(* ===== verification/Blocks.v ===== *)
(** * Heaps whose blocks are bytes of memory

    What a client that writes into its blocks relies on of [kmalloc] and, in user
    space, of [malloc]: a block is bytes that the heap still had and does not have any
    more. *)
From S2P Require Import Prelude Machine Kmalloc Cstring Words.

Class HeapBytes (A : Type) `{Kmalloc A} := {
  (** The bytes the heap has not handed out. *)
  km_free : A → Z → Prop;
}.

Class HeapBytesLaws (A : Type) `{HeapBytes A} := {
  heap_ok : ∀ sz a p a', kmalloc sz a = (inr p, a') → 0 ≤ sz →
    p + sz < W32 ∧ (∀ x, p ≤ x < p + sz → km_free a x) ∧
    ∀ x, km_free a' x → km_free a x ∧ ¬ (p ≤ x < p + sz);
  heap_err : ∀ sz a e a', kmalloc sz a = (inl e, a') → ∀ x, km_free a' x → km_free a x;
  heap_err_code : ∀ sz a e a', kmalloc sz a = (inl e, a') → e ≠ E_OK;
}.

(** The whole heap is mapped. *)
Definition heap_mapped {A} `{HeapBytes A} (h : A) (m : mem) : Prop := ∀ x, km_free h x → is_Some (m !! x).
(** Bytes the heap does not have. *)
Definition outside {A} `{HeapBytes A} (h : A) (a n : Z) : Prop := ∀ x, a ≤ x < a + n → ¬ km_free h x.
(** From one state to a later one: only bytes the heap had have changed, and it has
    got none back. *)
Record heap_step {A} `{HeapBytes A} (h : A) (m : mem) (h' : A) (m' : mem) : Prop := {
  hs_same : ∀ x, ¬ km_free h x → m' !! x = m !! x;
  hs_free : ∀ x, km_free h' x → km_free h x;
  hs_mapped : ∀ x, is_Some (m !! x) → is_Some (m' !! x);
  hs_bytes : all_bytes m → all_bytes m';
}.

Section heap.
Context {A : Type} `{HeapBytesLaws A}.
Implicit Types (h : A) (m : mem).

Lemma heap_step_refl h m : heap_step h m h m.
Proof. by split. Qed.
Lemma heap_step_trans h1 m1 h2 m2 h3 m3 : heap_step h1 m1 h2 m2 → heap_step h2 m2 h3 m3 → heap_step h1 m1 h3 m3.
Proof.
  intros [A1 A2 A3 A4] [B1 B2 B3 B4]. split; [|by auto|by auto|by auto].
  intros x Hx. rewrite B1 by (by intros ?%A2). by apply A1.
Qed.
Lemma heap_step_outside h m h' m' a n : heap_step h m h' m' → outside h a n → outside h' a n.
Proof. intros Hs Ho x Hx Hf. by apply (Ho x), (hs_free _ _ _ _ Hs). Qed.
Lemma heap_step_holds h m h' m' a l : heap_step h m h' m' → outside h a (Z.of_nat (length l)) → holds m a l → holds m' a l.
Proof.
  intros Hs Ho Hl i b Hi. rewrite (hs_same _ _ _ _ Hs); [by apply Hl|]. apply Ho.
  apply lookup_lt_Some in Hi. lia.
Qed.
Lemma heap_step_cstr h m h' m' a l : heap_step h m h' m' → outside h a (Z.of_nat (length l) + 1) → cstr m a l → cstr m' a l.
Proof.
  intros Hs Ho [G1 G2 G3]. split; [|done|done]. eapply heap_step_holds; [exact Hs| |done].
  rewrite length_app. simpl. by replace (Z.of_nat (length l + 1)) with (Z.of_nat (length l) + 1) by lia.
Qed.
Lemma heap_step_mapped h m h' m' : heap_step h m h' m' → heap_mapped h m → heap_mapped h' m'.
Proof. intros Hs Hm x Hx. by apply (hs_mapped _ _ _ _ Hs), Hm, (hs_free _ _ _ _ Hs). Qed.

(** A block, and writing inside it. *)
Lemma heap_alloc sz h p h' m : kmalloc sz h = (inr p, h') → 0 ≤ sz → heap_mapped h m →
  mapped m p sz ∧ outside h' p sz ∧ p + sz < W32 ∧ heap_step h m h' m.
Proof.
  intros Hk Hsz Hm. destruct (heap_ok _ _ _ _ Hk Hsz) as (G1 & G2 & G3). split_and!; [|intros x Hx Hf; by destruct (G3 x Hf)|done|].
  - intros x Hx. by apply Hm, G2.
  - split; [done| |done|done]. intros x Hx. by apply G3.
Qed.
Lemma heap_refused sz h e h' m : kmalloc sz h = (inl e, h') → heap_step h m h' m.
Proof. intros Hk. split; [done| |done|done]. by eapply heap_err. Qed.

(** Writes inside a block just handed out are steps seen from before. *)
Lemma heap_write sz h p h' m m' a n : kmalloc sz h = (inr p, h') → 0 ≤ sz → only a n m m' → p ≤ a → a + n ≤ p + sz →
  heap_step h m h' m'.
Proof.
  intros Hk Hsz Ho Ha Hn. destruct (heap_ok _ _ _ _ Hk Hsz) as (G1 & G2 & G3). split.
  - intros x Hx. apply (on_frame _ _ _ _ Ho). destruct (decide (a ≤ x < a + n)); [|lia]. exfalso. apply Hx, G2. lia.
  - intros x Hx. by apply G3.
  - apply (on_mapped _ _ _ _ Ho).
  - apply (on_bytes _ _ _ _ Ho).
Qed.
End heap.

(** The smallest implementation: an arena from which blocks are cut one after the
    other. *)
Record arena := Arena { ar_next : Z; ar_end : Z; ar_live : gset Z }.

#[export] Instance arena_kmalloc : Kmalloc arena := {
  kmalloc sz a :=
    if (0 <? sz) && (0 <? ar_next a) && (ar_next a + sz <=? ar_end a) && (ar_end a <? W32) &&
       bool_decide (set_Forall (λ q, q < ar_next a) (ar_live a))
    then (inr (ar_next a), Arena (ar_next a + sz) (ar_end a) ({[ar_next a]} ∪ ar_live a))
    else (inl E_NOMEM, a);
  km_live := ar_live;
}.

#[export] Instance arena_laws : KmallocLaws arena.
Proof.
  split.
  - intros sz a p a'. cbn [kmalloc arena_kmalloc km_live]. destruct (_ && _) eqn:E; [|done]. intros Heq. simplify_eq.
    rewrite !andb_true_iff, bool_decide_eq_true in E. destruct E as ((((E1 & E2) & E3) & E4) & E5).
    split_and!; [lia|lia| |done]. intros Hin. specialize (E5 _ Hin). simpl in E5. lia.
  - intros sz a e a'. cbn [kmalloc arena_kmalloc km_live]. destruct (_ && _) eqn:E; [done|]. intros Heq. by simplify_eq.
Qed.

#[export] Instance arena_bytes : HeapBytes arena := { km_free a x := ar_next a ≤ x < ar_end a }.

#[export] Instance arena_bytes_laws : HeapBytesLaws arena.
Proof.
  split.
  - intros sz a p a'. cbn [kmalloc arena_kmalloc km_free arena_bytes]. destruct (_ && _) eqn:E; [|done]. intros Heq. simplify_eq.
    rewrite !andb_true_iff in E. intros Hsz. cbn [ar_next ar_end]. split_and!; [lia|lia|]. intros x Hx. lia.
  - intros sz a e a'. cbn [kmalloc arena_kmalloc km_free arena_bytes]. destruct (_ && _) eqn:E; [done|]. intros Heq. by simplify_eq.
  - intros sz a e a'. cbn [kmalloc arena_kmalloc]. destruct (_ && _) eqn:E; [done|]. intros Heq. by simplify_eq.
Qed.

(** ** Address spaces: the user part of memory belongs to a process *)
Definition mix (u cur : mem) : mem :=
  filter (λ '(a, _), KERN_BASE ≤ a) cur ∪ filter (λ '(a, _), a < KERN_BASE) u.

Lemma mix_kern u cur x : KERN_BASE ≤ x → mix u cur !! x = cur !! x.
Proof.
  intros Hx. unfold mix. rewrite lookup_union_l.
  2:{ apply map_lookup_filter_None. right. intros v _ Hv. lia. }
  destruct (cur !! x) as [v|] eqn:E.
  - apply map_lookup_filter_Some. by split.
  - apply map_lookup_filter_None. by left.
Qed.
Lemma mix_user u cur x : x < KERN_BASE → mix u cur !! x = u !! x.
Proof.
  intros Hx. unfold mix. rewrite lookup_union_r.
  2:{ apply map_lookup_filter_None. right. intros v _ Hv. lia. }
  destruct (u !! x) as [v|] eqn:E.
  - apply map_lookup_filter_Some. by split.
  - apply map_lookup_filter_None. by left.
Qed.
Lemma mix_bytes u cur : all_bytes u → all_bytes cur → all_bytes (mix u cur).
Proof.
  intros Hu Hc x b Hx. destruct (decide (x < KERN_BASE)); [rewrite mix_user in Hx by done|rewrite mix_kern in Hx by lia]; eauto.
Qed.
Lemma mix_holds_user u cur a l : holds u a l → a + Z.of_nat (length l) ≤ KERN_BASE → holds (mix u cur) a l.
Proof. intros Hl Ha i b Hi. pose proof (lookup_lt_Some _ _ _ Hi). rewrite mix_user by lia. by apply Hl. Qed.
