(* ===== verification/Args.v ===== *)
(** * The arguments of a new process: the argument block of kernel/proc/proc.c

    [proc_create_from_mm] copies the argument and environment strings of its caller into
    blocks of the kernel heap, under a block that lists them; the first thread of the new
    process copies that block to the argument page of its own address space and moves
    every string into the user heap. *)
From S2P Require Import Prelude Machine Kmalloc Cstring Words Blocks.

(** Memory and the heap the running code allocates from. *)
Record hmem (K : Type) := Hmem { hm_mem : mem; hm_heap : K }.
Arguments Hmem {K}.
Arguments hm_mem {K}.
Arguments hm_heap {K}.

Definition SZ_ARGS : Z := PAGE_SIZE.
Definition args_s : Z := KERN_BASE - PAGE_SIZE.

Section code.
Context {K : Type} `{Kmalloc K}.
Abbreviation M := (Prelude.M (hmem K)).

Definition in_mem {B} (m : Prelude.M mem B) : M B := zoom hm_mem (λ x s, Hmem x (hm_heap s)) m.
Definition alloc (sz : Z) : M (Z + Z) := s <- get ;;
  let '(r, k) := kmalloc sz (hm_heap s) in put (Hmem (hm_mem s) k) ;;; ret r.
(** [kmalloc((void * )d, sz)]. *)
Definition alloc_to (d sz : Z) : M Z :=
  r <- alloc sz ;;
  match r with inl e => ret e | inr p => in_mem (wrw d p) ;;; ret E_OK end.

(** [&v\[i\]] *)
Definition elt (v i : Z) : Z := add32 v (mul32 4 i).

(** A turn of the loop over [argv]; [Some]: the error it returns with. *)
Definition argv_body (args argv : Z) : M (Z + option Z) :=
  p <- in_mem (rdw argv) ;;
  if p =? 0 then ret (inr None) else
  p <- in_mem (rdw argv) ;; n <- in_mem (strlen p) ;; c <- in_mem (rdw args) ;;
  err <- alloc_to (elt (add32 args 4) c) (add32 n 1) ;;
  if negb (err =? E_OK) then ret (inr (Some err)) else
  c <- in_mem (rdw args) ;; d <- in_mem (rdw (elt (add32 args 4) c)) ;;
  p <- in_mem (rdw argv) ;; n <- in_mem (strlen p) ;;
  in_mem (strcpy d p (add32 n 1)) ;;;
  c <- in_mem (rdw args) ;; in_mem (wrw args (add32 c 1)) ;;;
  ret (inl (add32 argv 4)).

(** A turn of the loop over [envp]. *)
Definition envp_body (_envp : Z) (v : Z * Z) : M (Z * Z + option Z) :=
  let '(i, envp) := v in
  p <- in_mem (rdw envp) ;;
  if p =? 0 then ret (inr None) else
  p <- in_mem (rdw envp) ;; n <- in_mem (strlen p) ;;
  err <- alloc_to (elt _envp i) (add32 n 1) ;;
  in_mem (wrw (elt _envp (add32 i 1)) 0) ;;;
  if negb (err =? E_OK) then ret (inr (Some err)) else
  d <- in_mem (rdw (elt _envp i)) ;; p <- in_mem (rdw envp) ;; n <- in_mem (strlen p) ;;
  in_mem (strcpy d p (add32 n 1)) ;;;
  ret (inl (add32 i 1, add32 envp 4)).

(** A pointer that advances through mapped memory takes fewer turns than the memory
    has bytes. *)
Definition turns : M nat := gets (λ s, S (size (hm_mem s))).

(** [proc_create_from_mm] between [proc_new] and the new thread: the block, or the
    error it returns with. *)
Definition args_pack (argv envp : Z) : M (Z + Z) :=
  r <- alloc SZ_ARGS ;;
  match r with
  | inl err => ret (inl err)
  | inr args =>
      in_mem (wrw args 0) ;;;
      in_mem (wrw (elt (add32 args 4) 0) 0) ;;;
      fuel <- turns ;;
      r <- (if argv =? 0 then ret None else loop fuel (argv_body args) argv) ;;
      match r with
      | Some err => ret (inl err)
      | None =>
          c <- in_mem (rdw args) ;;
          let _envp := add32 args (mul32 4 (add32 1 c)) in
          in_mem (wrw (elt _envp 0) 0) ;;;
          r <- (if envp =? 0 then ret None else loop fuel (envp_body _envp) (0, envp)) ;;
          match r with Some err => ret (inl err) | None => ret (inr args) end
      end
  end.

(** The string whose pointer is at [a] moves to a block of this heap. *)
Definition move_arg (a : Z) : M Z :=
  p <- in_mem (rdw a) ;; n <- in_mem (strlen p) ;;
  r <- alloc (add32 n 1) ;;
  match r with
  | inl err => ret err
  | inr s =>
      p <- in_mem (rdw a) ;; n <- in_mem (strlen p) ;;
      in_mem (memcpy s p (add32 n 1)) ;;;
      in_mem (wrw a s) ;;; ret E_OK
  end.

Definition move_argv_body (i : Z) : M (Z + option Z) :=
  c <- in_mem (rdw args_s) ;;
  if i <? s32 c then
    err <- move_arg (elt (add32 args_s 4) i) ;;
    if negb (err =? E_OK) then ret (inr (Some err)) else ret (inl (i + 1))
  else ret (inr None).

Definition move_envp_body (envp : Z) : M (Z + option Z) :=
  p <- in_mem (rdw envp) ;;
  if p =? 0 then ret (inr None) else
  err <- move_arg envp ;;
  if negb (err =? E_OK) then ret (inr (Some err)) else ret (inl (add32 envp 4)).

(** [inner_setup_uthread_from_mm_thread] between [elf_load] and the new thread. *)
Definition args_unpack (args : Z) : M Z :=
  in_mem (memcpy args_s args SZ_ARGS) ;;;
  c <- in_mem (rdw args_s) ;;
  let envp := add32 args_s (mul32 4 (add32 1 c)) in
  fuel <- turns ;;
  r <- loop fuel move_argv_body 0 ;;
  match r with
  | Some err => ret err
  | None =>
      r <- loop fuel move_envp_body envp ;;
      match r with Some err => ret err | None => ret E_OK end
  end.
End code.

(** ** Vectors of strings *)
Abbreviation len l := (Z.of_nat (length l)).

(** A string none of whose bytes satisfies [P]. *)
Record str_at (P : Z → Prop) (m : mem) (p : Z) (s : list Z) : Prop := {
  sa_pos : 0 < p ∧ p + len s + 1 < W32;
  sa_str : cstr m p s;
  sa_out : ∀ x, p ≤ x ≤ p + len s → ¬ P x;
}.

(** The words from [a] on point to the strings [l]; a [vec] ends with NULL. *)
Definition ptrs (P : Z → Prop) (m : mem) (a : Z) (l : list (list Z)) : Prop :=
  ∀ i s, l !! i = Some s → ∃ p, word m (a + 4 * Z.of_nat i) p ∧ str_at P m p s.
Definition vec (P : Z → Prop) (m : mem) (a : Z) (l : list (list Z)) : Prop :=
  ptrs P m a l ∧ word m (a + 4 * len l) 0.

(** [m'] is [m] outside [P] and outside the range. *)
Definition off (P : Z → Prop) (a n : Z) (m m' : mem) : Prop :=
  ∀ x, ¬ P x → x < a ∨ a + n ≤ x → m' !! x = m !! x.

Lemma str_keep P P' m m' p s : str_at P m p s → (∀ x, ¬ P x → m' !! x = m !! x) → (∀ x, P' x → P x) → str_at P' m' p s.
Proof.
  intros [H1 [C1 C2 C3] H3] Hm Hp. split; [done| |].
  - split; [|done|done]. intros i b Hi. pose proof (lookup_lt_Some _ _ _ Hi) as Hl. rewrite length_app in Hl. simpl in Hl.
    rewrite Hm; [by apply C1|]. apply H3. lia.
  - intros x Hx Hpx. by apply (H3 x Hx), Hp.
Qed.
Lemma word_keep m m' a v : word m a v → (∀ x, a ≤ x < a + 4 → m' !! x = m !! x) → word m' a v.
Proof. intros Hw Hm i b Hi. pose proof (lookup_lt_Some _ _ _ Hi) as Hl. simpl in Hl. rewrite Hm by lia. by apply Hw. Qed.
Lemma ptrs_keep P P' m m' a l : ptrs P m a l → (∀ x, ¬ P x → m' !! x = m !! x) →
  (∀ x, a ≤ x < a + 4 * len l → m' !! x = m !! x) → (∀ x, P' x → P x) → ptrs P' m' a l.
Proof.
  intros Hv Hm Ha Hp i s Hi. destruct (Hv i s Hi) as (p & Hw & Hs). pose proof (lookup_lt_Some _ _ _ Hi).
  exists p. split; [|by eapply str_keep]. eapply word_keep; [done|]. intros x Hx. apply Ha. lia.
Qed.
Lemma vec_keep P P' m m' a l : vec P m a l → (∀ x, ¬ P x → m' !! x = m !! x) →
  (∀ x, a ≤ x < a + 4 * len l + 4 → m' !! x = m !! x) → (∀ x, P' x → P x) → vec P' m' a l.
Proof.
  intros [Hp Hw] Hm Ha HP. split; [eapply ptrs_keep; [done..| |done]; intros x Hx; apply Ha; lia|].
  eapply word_keep; [done|]. intros x Hx. apply Ha. lia.
Qed.
Lemma ptrs_nil P m a : ptrs P m a [].
Proof. intros i s Hi. by rewrite lookup_nil in Hi. Qed.
Lemma ptrs_cons P m a s l : ptrs P m a (s :: l) ↔ (∃ p, word m a p ∧ str_at P m p s) ∧ ptrs P m (a + 4) l.
Proof.
  split.
  - intros Hv. split.
    + destruct (Hv O s eq_refl) as (p & Hw & Hs). exists p. by rewrite Z.add_0_r in Hw.
    + intros i t Hi. destruct (Hv (S i) t Hi) as (p & Hw & Hs). exists p.
      by replace (a + 4 + 4 * Z.of_nat i) with (a + 4 * Z.of_nat (S i)) by lia.
  - intros [(p & Hw & Hs) Hv] [|i] t Hi; simpl in Hi.
    + simplify_eq. exists p. by rewrite Z.add_0_r.
    + destruct (Hv i t Hi) as (q & Hq & Ht). exists q.
      by replace (a + 4 * Z.of_nat (S i)) with (a + 4 + 4 * Z.of_nat i) by lia.
Qed.
Lemma ptrs_app P m a l1 l2 : ptrs P m a (l1 ++ l2) ↔ ptrs P m a l1 ∧ ptrs P m (a + 4 * len l1) l2.
Proof.
  revert a. induction l1 as [|s l1 IH]; intros a; cbn [app length].
  - replace (a + 4 * Z.of_nat 0) with a by lia. split; [split; [apply ptrs_nil|done]|by intros [_ ?]].
  - rewrite !ptrs_cons, IH. replace (a + 4 + 4 * len l1) with (a + 4 * Z.of_nat (S (length l1))) by lia. tauto.
Qed.
Lemma ptrs_snoc P m a l s p : ptrs P m a l → word m (a + 4 * len l) p → str_at P m p s → ptrs P m a (l ++ [s]).
Proof. intros Hv Hw Hs. apply ptrs_app. split; [done|]. apply ptrs_cons. split; [by eauto|apply ptrs_nil]. Qed.
Lemma vec_cons P m a s l : vec P m a (s :: l) ↔ (∃ p, word m a p ∧ str_at P m p s) ∧ vec P m (a + 4) l.
Proof.
  unfold vec. rewrite ptrs_cons. cbn [length].
  replace (a + 4 + 4 * len l) with (a + 4 * Z.of_nat (S (length l))) by lia. tauto.
Qed.
Lemma elt_eq v i : 0 ≤ i → 0 ≤ v → v + 4 * i < W32 → elt v i = v + 4 * i.
Proof. intros Hi Hv Hw. unfold elt. rewrite mul32_small, add32_small by lia. done. Qed.

Section heap.
Context {K : Type} `{HeapBytesLaws K}.
Implicit Types (h : K) (m : mem).

Lemma wp_hmem {B} (c : Prelude.M mem B) Q (s : hmem K) :
  wp (in_mem c) Q s ↔ wp c (λ r m', Q r (Hmem m' (hm_heap s))) (hm_mem s).
Proof. exact (wp_zoom _ _ c Q s). Qed.

(** What an operation keeps that writes only into its heap and the bytes [P]. *)
Record grow (P : Z → Prop) h m h' m' : Prop := {
  gr_off : ∀ x, ¬ km_free h x → ¬ P x → m' !! x = m !! x;
  gr_free : ∀ x, km_free h' x → km_free h x;
  gr_map : ∀ x, is_Some (m !! x) → is_Some (m' !! x);
  gr_byt : all_bytes m → all_bytes m';
}.

Lemma grow_refl P h m : grow P h m h m.
Proof. by split. Qed.
Lemma grow_trans P h1 m1 h2 m2 h3 m3 : grow P h1 m1 h2 m2 → grow P h2 m2 h3 m3 → grow P h1 m1 h3 m3.
Proof.
  intros [A1 A2 A3 A4] [B1 B2 B3 B4]. split; [|by auto|by auto|by auto].
  intros x Hx HP. rewrite B1 by (done || by intros ?%A2). by apply A1.
Qed.
Lemma grow_weaken (P P' : Z → Prop) h m h' m' : grow P h m h' m' → (∀ x, P x → P' x) → grow P' h m h' m'.
Proof. intros [A1 A2 A3 A4] HP. split; [|done..]. intros x Hx Hn. apply A1; [done|]. by intros ?%HP. Qed.
Lemma grow_only (P : Z → Prop) h m m' a n : only a n m m' → (∀ x, a ≤ x < a + n → km_free h x ∨ P x) → grow P h m h m'.
Proof.
  intros Ho HP. split; [|done|apply (on_mapped _ _ _ _ Ho)|apply (on_bytes _ _ _ _ Ho)].
  intros x Hx Hn. apply (on_frame _ _ _ _ Ho). destruct (decide (a ≤ x < a + n)) as [Hi|]; [|lia]. destruct (HP x Hi); done.
Qed.
Lemma grow_heap P h m h' m' : grow P h m h' m' → heap_mapped h m → heap_mapped h' m'.
Proof. intros Hg Hm x Hx. by apply (gr_map _ _ _ _ _ Hg), Hm, (gr_free _ _ _ _ _ Hg). Qed.
Lemma grow_mapped P h m h' m' a n : grow P h m h' m' → mapped m a n → mapped m' a n.
Proof. intros Hg Hm x Hx. by apply (gr_map _ _ _ _ _ Hg), Hm. Qed.
Lemma grow_outside P h m h' m' a n : grow P h m h' m' → outside h a n → outside h' a n.
Proof. intros Hg Ho x Hx Hf. by apply (Ho x), (gr_free _ _ _ _ _ Hg). Qed.

Lemma wp_alloc sz (Q : Z + Z → hmem K → Prop) h m : 0 ≤ sz → heap_mapped h m →
  (∀ e h', e ≠ E_OK → grow (λ _, False) h m h' m → Q (inl e) (Hmem m h')) →
  (∀ p h', mapped m p sz → outside h' p sz → p + sz < W32 → (∀ x, p ≤ x < p + sz → km_free h x) →
     grow (λ _, False) h m h' m → Q (inr p) (Hmem m h')) → wp (alloc sz) Q (Hmem m h).
Proof.
  intros Hsz Hm He Hp. unfold alloc, wp, bind, get, put, ret. cbn [hm_heap hm_mem].
  destruct (kmalloc sz h) as [[e|p] h'] eqn:Hk.
  - apply He; [by eapply heap_err_code|]. split; [done| |done|done]. by eapply heap_err.
  - destruct (heap_ok _ _ _ _ Hk Hsz) as (G1 & G2 & G3). apply Hp.
    + intros x Hx. by apply Hm, G2.
    + intros x Hx Hf. by destruct (G3 x Hf).
    + done.
    + done.
    + split; [done| |done|done]. intros x Hx. by apply G3.
Qed.

(** The copy of a string into a block, as [strcpy] and as [memcpy]. *)
Lemma wp_copy m d p s (Q : unit → mem → Prop) : cstr m p s → all_bytes m → mapped m d (len s + 1) →
  0 < d → d + len s + 1 < W32 → p + len s + 1 < W32 → d + len s + 1 ≤ p ∨ p + len s + 1 ≤ d →
  (∀ m', cstr m' d s → only d (len s + 1) m m' → Q tt m') →
  wp (strcpy d p (add32 (len s) 1)) Q m ∧ wp (memcpy d p (add32 (len s) 1)) Q m.
Proof.
  intros Hs Hb Hm Hd Hw Hpw Hap HQ. pose proof (cs_range _ _ _ Hs) as Hr.
  assert (len (s ++ [0]) = len s + 1) as Hl by (rewrite length_app; simpl; lia).
  rewrite add32_small by lia. rewrite <- Hl.
  enough (wp (memcpy d p (len (s ++ [0]))) Q m) as He by by split.
  apply wp_memcpy; rewrite ?Hl; try lia; try done; [apply Hs|].
  intros [] m' Hh Ho. apply HQ; [|done]. split; [done|apply Hs|lia].
Qed.

(** ** Packing: one string *)

(** The argument block: bytes of its own, which the heap does not have. *)
Record block args h m : Prop := {
  bl_range : 0 < args ∧ args + SZ_ARGS < W32;
  bl_map : mapped m args SZ_ARGS;
  bl_out : outside h args SZ_ARGS;
  bl_heap : heap_mapped h m;
  bl_pos : ∀ x, km_free h x → 0 < x;
  bl_bytes : all_bytes m;
}.
Definition in_block args x : Prop := args ≤ x < args + SZ_ARGS.
(** The bytes packing may write. *)
Definition wr_set args h x : Prop := km_free h x ∨ in_block args x.
(** What a string copied since the heap was [hb] has none of. *)
Definition not_new args hb h x : Prop := wr_set args h x ∨ ¬ km_free hb x.

Lemma block_grow P args h m h' m' : block args h m → grow P h m h' m' → block args h' m'.
Proof.
  intros [H1' H2 H3 H4 H5 H6] Hg. split; [done|by eapply grow_mapped|by eapply grow_outside|by eapply grow_heap| |by apply (gr_byt _ _ _ _ _ Hg)].
  intros x Hx. by apply H5, (gr_free _ _ _ _ _ Hg).
Qed.

(** A string copied to a new block, whose address goes to the word [a] of the block;
    the part common to the two loops. *)
Lemma wp_alloc_to args a sz (Q : Z → hmem K → Prop) h m : block args h m → 0 < sz → args ≤ a → a + 4 ≤ args + SZ_ARGS →
  (∀ e h', e ≠ E_OK → grow (λ _, False) h m h' m → Q e (Hmem m h')) →
  (∀ d h' m', word m' a d → 0 < d → d + sz < W32 → mapped m' d sz → outside h' d sz → (∀ x, d ≤ x < d + sz → km_free h x) →
     only a 4 m m' → grow (λ _, False) h m h' m → Q E_OK (Hmem m' h')) →
  wp (alloc_to a sz) Q (Hmem m h).
Proof.
  intros HB Hsz Ha Hb He Hd. pose proof (bl_range _ _ _ HB). unfold alloc_to. apply wp_bind, wp_alloc; [lia|apply HB| |].
  - intros e h' Hne Hg. apply wp_ret. by apply He.
  - intros d h' Hm Ho Hw Hf Hg. apply wp_bind, wp_hmem. cbn [hm_mem hm_heap].
    apply wp_wrw; [intros x Hx; apply (bl_map _ _ _ HB); lia|lia|lia|]. intros m' Hwd Ho'.
    apply wp_ret, (Hd d h' m'); try done.
    + apply (bl_pos _ _ _ HB), Hf. lia.
    + by eapply only_mapped.
Qed.
End heap.

Ltac rd_step Hw := apply wp_bind, wp_hmem; cbn [hm_mem hm_heap]; eapply (wp_rdw _ _ _ _ Hw);
  [unfold is_u32; lia|lia|lia|].
Ltac len_step Hs := apply wp_bind, wp_hmem; cbn [hm_mem hm_heap];
  eapply wp_mono; [apply (strlen_spec _ _ _ Hs)|]; intros ? ? [-> ->].
Ltac holds_step Ho Hw := eapply only_holds; [exact Ho|exact Hw|rewrite ?length_app; cbn [length bytes4]; lia].

Section pack.
Context {K : Type} `{HeapBytesLaws K}.
Implicit Types (h : K) (m : mem).

Lemma ranges_apart (P : Z → Prop) a n b k : (∀ x, a ≤ x < a + n → P x) → (∀ x, b ≤ x < b + k → ¬ P x) →
  0 < n → 0 < k → a + n ≤ b ∨ b + k ≤ a.
Proof.
  intros Ha Hb Hn Hk. destruct (decide (a + n ≤ b)); [by left|]. destruct (decide (b + k ≤ a)); [by right|].
  exfalso. apply (Hb (Z.max a b)); [lia|]. apply Ha. lia.
Qed.

(** The string at the head of a vector the packing does not write, and a new block. *)
Record head_ok args h q p (s : list Z) : Prop := {
  hd_block : (q + 4 ≤ args ∨ args + SZ_ARGS ≤ q) ∧ (p + len s + 1 ≤ args ∨ args + SZ_ARGS ≤ p);
  hd_new : ∀ d n, 0 < n → (∀ x, d ≤ x < d + n → km_free h x) →
    (d + n ≤ q ∨ q + 4 ≤ d) ∧ (d + n ≤ p ∨ p + len s + 1 ≤ d) ∧ (d + n ≤ args ∨ args + SZ_ARGS ≤ d);
}.
Lemma vec_head args q s l h m : block args h m → vec (wr_set args h) m q (s :: l) →
  (∀ x, q ≤ x < q + 4 * len (s :: l) + 4 → ¬ wr_set args h x) →
  ∃ p, word m q p ∧ str_at (wr_set args h) m p s ∧ head_ok args h q p s.
Proof.
  intros HB [(p & Hp & Hs) _]%vec_cons Hq. exists p. split_and!; [done|done|]. cbn [length] in Hq.
  assert (∀ x, p ≤ x < p + (len s + 1) → ¬ wr_set args h x) as Hpo by (intros x Hx; apply (sa_out _ _ _ _ Hs); lia).
  assert (∀ x, q ≤ x < q + 4 → ¬ wr_set args h x) as Hq4 by (intros x Hx; apply Hq; lia).
  assert (∀ x, args ≤ x < args + SZ_ARGS → wr_set args h x) as Hba by (intros x Hx; by right). split.
  - destruct (ranges_apart _ _ _ _ _ Hba Hq4 eq_refl ltac:(lia)), (ranges_apart _ _ _ _ _ Hba Hpo eq_refl ltac:(lia)); lia.
  - intros d n Hn Hd.
    assert (∀ x, d ≤ x < d + n → wr_set args h x) as Hdw by (intros x Hx; left; by apply Hd).
    pose proof (ranges_apart _ _ _ _ _ Hdw Hq4 Hn ltac:(lia)). pose proof (ranges_apart _ _ _ _ _ Hdw Hpo Hn ltac:(lia)).
    pose proof (ranges_apart _ _ _ _ _ Hd (bl_out _ _ _ HB) Hn eq_refl). lia.
Qed.

Lemma argv_turn args q l c h m : block args h m → word m args c → 0 ≤ c → 4 * c + 8 ≤ SZ_ARGS →
  vec (wr_set args h) m q l → 0 < q → q + 4 * len l + 4 < W32 →
  (∀ x, q ≤ x < q + 4 * len l + 4 → ¬ wr_set args h x) →
  let slot := args + 4 + 4 * c in
  wp (argv_body args q) (λ r σ,
    grow (λ x, args ≤ x < args + 4 ∨ slot ≤ x < slot + 4) h m (hm_heap σ) (hm_mem σ) ∧
    match r with
    | inl q' => q' = q + 4 ∧ ∃ s l', l = s :: l' ∧ word (hm_mem σ) args (c + 1) ∧
        ∃ d, word (hm_mem σ) slot d ∧ str_at (not_new args h (hm_heap σ)) (hm_mem σ) d s
    | inr None => l = [] ∧ σ = Hmem m h
    | inr (Some e) => e ≠ E_OK
    end) (Hmem m h).
Proof.
  intros HB Hc Hc0 Hcb Hv Hq Hqw Hqo slot. pose proof (bl_range _ _ _ HB) as Hr. change SZ_ARGS with 4096 in *.
  unfold argv_body. destruct l as [|s l].
  { destruct Hv as [_ H0']. rewrite Z.add_0_r in H0'. rd_step H0'. apply wp_ret. split; [apply grow_refl|done]. }
  destruct (vec_head _ _ _ _ _ _ HB Hv Hqo) as (p & Hp & [[Hp0 Hpw] Hs _] & [[Hqa Hpa] Hnew]). change SZ_ARGS with 4096 in *.
  cbn [length] in Hqw. clear Hqo Hv.
  rd_step Hp. destruct (Z.eqb_spec p 0); [lia|]. rd_step Hp. len_step Hs. rd_step Hc.
  rewrite (add32_small args 4), elt_eq by lia. fold slot.
  assert (args ≤ slot ∧ slot + 4 ≤ args + 4096 ∧ args + 4 ≤ slot) as Hslot by (unfold slot; lia).
  rewrite (add32_small (len s) 1) by lia. apply wp_bind, (wp_alloc_to args); [done|lia|lia|change SZ_ARGS with 4096; lia| |].
  { intros e h' Hne Hg. destruct (Z.eqb_spec e E_OK); [done|]. apply wp_ret. split; [by eapply grow_weaken|done]. }
  intros d h' m1 Hd Hd0 Hdw Hdm Hdo Hdf Ho1 Hg1. cbn [negb Z.eqb E_OK].
  destruct (Hnew d (len s + 1) ltac:(lia) Hdf) as (Hdq & Hdp & Hda). clear Hnew.
  assert (all_bytes m1) as Hby by (apply (on_bytes _ _ _ _ Ho1), HB).
  assert (cstr m1 p s) as Hs1 by (destruct Hs as [S1 S2 S3]; split; [holds_step Ho1 S1|done|done]).
  assert (word m1 q p) as Hp1 by holds_step Ho1 Hp.
  assert (word m1 args c) as Hc1 by holds_step Ho1 Hc.
  rd_step Hc1. rewrite elt_eq by lia. fold slot. rd_step Hd. rd_step Hp1. len_step Hs1.
  apply wp_bind, wp_hmem. cbn [hm_mem hm_heap]. apply wp_copy; [done|done|done|lia..|]. intros m2 Hs2 Ho2.
  assert (word m2 args c) as Hc2 by holds_step Ho2 Hc1.
  rd_step Hc2. apply wp_bind, wp_hmem. cbn [hm_mem hm_heap]. rewrite (add32_small c 1) by lia.
  apply wp_wrw; [intros x Hx; apply (on_mapped _ _ _ _ Ho2), (on_mapped _ _ _ _ Ho1), (bl_map _ _ _ HB); change SZ_ARGS with 4096; lia|lia|lia|].
  intros m3 Hc3 Ho3. apply wp_ret. cbn [hm_mem hm_heap]. split.
  - eapply grow_trans; [eapply grow_only; [exact Ho1|intros x Hx; by right; right]|].
    eapply grow_trans; [eapply grow_only; [exact Ho2|intros x Hx; left; apply Hdf; lia]|].
    eapply grow_trans; [eapply grow_only; [exact Ho3|intros x Hx; by right; left]|].
    destruct Hg1 as [_ Hfr _ _]. by split.
  - rewrite (add32_small q 4) by lia. split; [done|]. exists s, l. split_and!; [done|done|]. exists d. split.
    + assert (word m2 slot d) as Hd2 by holds_step Ho2 Hd. holds_step Ho3 Hd2.
    + split; [lia| |].
      * destruct Hs2 as [S1 S2 S3]. split; [holds_step Ho3 S1|done|done].
      * intros x Hx [[Hf|Hf]|Hf]; [apply (Hdo x); [lia|done]| |apply Hf, Hdf; lia]. unfold in_block, SZ_ARGS, PAGE_SIZE in Hf. lia.
Qed.

(** The same for the environment, whose end is kept after each pointer. *)
Lemma envp_turn args ev q l i h m : block args h m → args < ev → 0 ≤ i → (l ≠ [] → ev + 4 * i + 8 ≤ args + SZ_ARGS) →
  vec (wr_set args h) m q l → 0 < q → q + 4 * len l + 4 < W32 →
  (∀ x, q ≤ x < q + 4 * len l + 4 → ¬ wr_set args h x) →
  let slot := ev + 4 * i in
  wp (envp_body ev (i, q)) (λ r σ, grow (λ x, slot ≤ x < slot + 8) h m (hm_heap σ) (hm_mem σ) ∧
    match r with
    | inl (i', q') => i' = i + 1 ∧ q' = q + 4 ∧ ∃ s l', l = s :: l' ∧ word (hm_mem σ) (slot + 4) 0 ∧
        ∃ d, word (hm_mem σ) slot d ∧ str_at (not_new args h (hm_heap σ)) (hm_mem σ) d s
    | inr None => l = [] ∧ σ = Hmem m h
    | inr (Some e) => e ≠ E_OK ∧ l ≠ []
    end) (Hmem m h).
Proof.
  intros HB Hev Hi Hib Hv Hq Hqw Hqo slot. pose proof (bl_range _ _ _ HB) as Hr. change SZ_ARGS with 4096 in *.
  unfold envp_body. destruct l as [|s l].
  { destruct Hv as [_ H0']. rewrite Z.add_0_r in H0'. rd_step H0'. apply wp_ret. split; [apply grow_refl|done]. }
  destruct (vec_head _ _ _ _ _ _ HB Hv Hqo) as (p & Hp & [[Hp0 Hpw] Hs _] & [[Hqa Hpa] Hnew]). change SZ_ARGS with 4096 in *.
  cbn [length] in Hqw. clear Hqo Hv. specialize (Hib ltac:(done)).
  rd_step Hp. destruct (Z.eqb_spec p 0); [lia|]. rd_step Hp. len_step Hs.
  rewrite (add32_small i 1), !elt_eq by lia. fold slot. replace (ev + 4 * (i + 1)) with (slot + 4) by (unfold slot; lia).
  assert (args ≤ slot ∧ slot + 8 ≤ args + 4096) as Hslot by (unfold slot; lia). clearbody slot.
  rewrite (add32_small (len s) 1) by lia. apply wp_bind, (wp_alloc_to args); [done|lia|lia|change SZ_ARGS with 4096; lia| |].
  { intros e h' Hne Hg. apply wp_bind, wp_hmem. cbn [hm_mem hm_heap].
    apply wp_wrw; [intros x Hx; apply (bl_map _ _ _ HB); change SZ_ARGS with 4096; lia|lia|lia|]. intros m1 _ Ho1.
    destruct (Z.eqb_spec e E_OK); [done|]. apply wp_ret. split; [|done].
    eapply grow_trans; [by eapply grow_weaken|]. eapply grow_only; [exact Ho1|]. intros x Hx. right. lia. }
  intros d h' m1 Hd Hd0 Hdw Hdm Hdo Hdf Ho1 Hg1.
  destruct (Hnew d (len s + 1) ltac:(lia) Hdf) as (Hdq & Hdp & Hda). clear Hnew.
  assert (all_bytes m1) as Hby by (apply (on_bytes _ _ _ _ Ho1), HB).
  assert (cstr m1 p s) as Hs1 by (destruct Hs as [S1 S2 S3]; split; [holds_step Ho1 S1|done|done]).
  assert (word m1 q p) as Hp1 by holds_step Ho1 Hp.
  apply wp_bind, wp_hmem. cbn [hm_mem hm_heap].
  apply wp_wrw; [intros x Hx; apply (on_mapped _ _ _ _ Ho1), (bl_map _ _ _ HB); change SZ_ARGS with 4096; lia|lia|lia|].
  intros m2 H02 Ho2. cbn [negb Z.eqb E_OK].
  assert (word m2 slot d) as Hd2 by holds_step Ho2 Hd.
  assert (cstr m2 p s) as Hs2 by (destruct Hs1 as [S1 S2 S3]; split; [holds_step Ho2 S1|done|done]).
  assert (word m2 q p) as Hp2 by holds_step Ho2 Hp1.
  rd_step Hd2. rd_step Hp2. len_step Hs2. apply wp_bind, wp_hmem. cbn [hm_mem hm_heap].
  apply wp_copy; [done|by apply (on_bytes _ _ _ _ Ho2)|by eapply only_mapped|lia..|]. intros m3 Hs3 Ho3. apply wp_ret. cbn [hm_mem hm_heap]. split.
  - eapply grow_trans; [eapply grow_only; [exact Ho1|intros x Hx; right; lia]|].
    eapply grow_trans; [eapply grow_only; [exact Ho2|intros x Hx; right; lia]|].
    eapply grow_trans; [eapply grow_only; [exact Ho3|intros x Hx; left; apply Hdf; lia]|].
    destruct Hg1 as [_ Hfr _ _]. by split.
  - rewrite (add32_small q 4) by lia. split_and!; [done|done|]. exists s, l. split_and!; [done|holds_step Ho3 H02|]. exists d. split.
    + holds_step Ho3 Hd2.
    + split; [lia|done|]. intros x Hx [[Hf|Hf]|Hf]; [apply (Hdo x); [lia|done]| |apply Hf, Hdf; lia]. unfold in_block, SZ_ARGS, PAGE_SIZE in Hf. lia.
Qed.

(** ** Packing: the loops *)
Lemma grow_wr args h m h' m' x : grow (in_block args) h m h' m' → wr_set args h' x → wr_set args h x.
Proof. intros Hg [Hx|Hx]; [left; by apply (gr_free _ _ _ _ _ Hg)|by right]. Qed.
(** What the caller holds stays. *)
Lemma vec_grow args a l h m h' m' : vec (wr_set args h) m a l → grow (in_block args) h m h' m' →
  (∀ x, a ≤ x < a + 4 * len l + 4 → ¬ wr_set args h x) → vec (wr_set args h') m' a l.
Proof.
  intros Hv Hg Ha.
  assert (∀ x, ¬ wr_set args h x → m' !! x = m !! x) as Hs by (intros x Hx; apply (gr_off _ _ _ _ _ Hg); intros Hf; apply Hx; [by left|by right]).
  eapply vec_keep; [exact Hv|done| |intros x; by apply (grow_wr _ _ _ _ _ _ Hg)]. intros x Hx. by apply Hs, Ha.
Qed.
(** What is packed stays while later words of the block are written. *)
Lemma ptrs_grow args hb (P : Z → Prop) a l h m h' m' : ptrs (not_new args hb h) m a l → block args h m → grow P h m h' m' →
  (∀ x, P x → in_block args x ∧ (x < a ∨ a + 4 * len l ≤ x)) → (∀ x, a ≤ x < a + 4 * len l → in_block args x) →
  ptrs (not_new args hb h') m' a l.
Proof.
  intros Hv HB Hg HP Ha. eapply ptrs_keep; [exact Hv| | |].
  - intros x Hx. apply (gr_off _ _ _ _ _ Hg); intros Hf; apply Hx; left; [by left|right; by apply HP].
  - intros x Hx. apply (gr_off _ _ _ _ _ Hg); [intros Hf; by apply (bl_out _ _ _ HB x (Ha x Hx))|].
    intros Hf. apply HP in Hf as [_ ?]. lia.
  - intros x [[Hx|Hx]|Hx]; [left; left; by apply (gr_free _ _ _ _ _ Hg)|left; by right|by right].
Qed.
Lemma str_new args hb h h' m p s : str_at (not_new args h h') m p s → (∀ x, km_free h x → km_free hb x) → str_at (not_new args hb h') m p s.
Proof. intros Hs Hf. eapply str_keep; [exact Hs|done|]. intros x [Hx|Hx]; [by left|right]. intros Hn. by apply Hx, Hf. Qed.

Section loops.
Context (args : Z) (hb h0 : K) (m0 : mem) (HB : block args h0 m0) (Hb0 : ∀ x, km_free h0 x → km_free hb x).

(** A vector of the caller, or none. *)
Record arg_vec (m : mem) (h : K) (a : Z) (l : list (list Z)) : Prop := {
  av_null : a = 0 → l = [];
  av_vec : a ≠ 0 → vec (wr_set args h) m a l ∧ 0 < a ∧ a + 4 * len l + 4 < W32 ∧
    ∀ x, a ≤ x < a + 4 * len l + 4 → ¬ wr_set args h x;
}.
Lemma arg_vec_grow m h m' h' a l : arg_vec m h a l → grow (in_block args) h m h' m' → arg_vec m' h' a l.
Proof using Type.
  intros [H1' H2] Hg. split; [done|]. intros Ha. destruct (H2 Ha) as (G1 & G2 & G3 & G4).
  split_and!; [by eapply vec_grow|done|done|]. intros x Hx Hf. by apply (G4 x Hx), (grow_wr _ _ _ _ _ _ Hg).
Qed.

Lemma argv_loop fuel av argv : (length av < fuel)%nat → argv ≠ 0 → arg_vec m0 h0 argv av → word m0 args 0 →
  4 * len av + 8 ≤ SZ_ARGS →
  wp (loop fuel (argv_body args) argv) (λ r σ, grow (in_block args) h0 m0 (hm_heap σ) (hm_mem σ) ∧
    match r with
    | None => word (hm_mem σ) args (len av) ∧ ptrs (not_new args hb (hm_heap σ)) (hm_mem σ) (args + 4) av
    | Some e => e ≠ E_OK
    end) (Hmem m0 h0).
Proof using HB Hb0 H1.
  intros Hf Ha0 Hav Hc0 Hlen. destruct (av_vec _ _ _ _ Hav Ha0) as (Hv & Ha & Haw & Hao).
  pose proof (bl_range _ _ _ HB) as Hr. change SZ_ARGS with 4096 in *.
  apply (wp_loop (λ n q σ, ∃ l1 l2, av = l1 ++ l2 ∧ q = argv + 4 * len l1 ∧ n = length l2 ∧
    grow (in_block args) h0 m0 (hm_heap σ) (hm_mem σ) ∧ word (hm_mem σ) args (len l1) ∧
    ptrs (not_new args hb (hm_heap σ)) (hm_mem σ) (args + 4) l1)) with (n := length av); [|done|].
  2:{ exists [], av. cbn [hm_mem hm_heap length]. split_and!; [done|lia|done|apply grow_refl|done|apply ptrs_nil]. }
  intros n q [m h] (l1 & l2 & Hl & -> & -> & Hg & Hc & Hps). cbn [hm_mem hm_heap] in *.
  assert (len av = len l1 + len l2) as Hll by (rewrite Hl, length_app; lia).
  pose proof (block_grow _ _ _ _ _ _ HB Hg) as HB1.
  assert (vec (wr_set args h) m (argv + 4 * len l1) l2) as Hv1.
  { pose proof (vec_grow _ _ _ _ _ _ _ Hv Hg Hao) as [Hp He]. rewrite Hl in Hp. apply ptrs_app in Hp as [_ Hp].
    split; [done|]. by replace (argv + 4 * len l1 + 4 * len l2) with (argv + 4 * len av) by lia. }
  eapply wp_mono; [apply (argv_turn args _ l2 (len l1) h m HB1 Hc ltac:(lia) ltac:(change SZ_ARGS with 4096; lia) Hv1 ltac:(lia) ltac:(lia))|].
  { intros x Hx Hf'. apply (Hao x); [lia|]. by apply (grow_wr _ _ _ _ _ _ Hg). }
  intros r [m' h'] [Hg' Hr']. cbn [hm_mem hm_heap] in *.
  assert (grow (in_block args) h m h' m') as Hg2.
  { eapply grow_weaken; [exact Hg'|]. intros x Hx. cbv beta in Hx. unfold in_block, SZ_ARGS, PAGE_SIZE. lia. }
  pose proof (grow_trans _ _ _ _ _ _ _ Hg Hg2) as Hg3.
  destruct r as [q'|[e|]].
  - destruct Hr' as (-> & s & l' & -> & Hc' & d & Hd & Hs). exists (length l').
    split; [cbn [length]; lia|]. exists (l1 ++ [s]), l'. cbn [length] in *. rewrite length_app. cbn [length].
    split_and!; [by rewrite <- app_assoc|lia|done|done|by replace (Z.of_nat (length l1 + 1)) with (len l1 + 1) by lia|].
    eapply ptrs_snoc; [|exact Hd|by apply (str_new _ _ _ _ _ _ _ Hs); intros x Hx; apply Hb0, (gr_free _ _ _ _ _ Hg)].
    eapply (ptrs_grow _ _ _ _ _ h m h' m'); [done|done|exact Hg'| |]; intros x Hx; cbv beta in Hx; unfold in_block, SZ_ARGS, PAGE_SIZE; lia.
  - done.
  - destruct Hr' as [-> [= -> ->]]. rewrite app_nil_r in Hl. by subst l1.
Qed.

Lemma envp_loop fuel av ev envp : (length ev < fuel)%nat → envp ≠ 0 → arg_vec m0 h0 envp ev →
  word m0 args (len av) → ptrs (not_new args hb h0) m0 (args + 4) av → let _envp := args + 4 + 4 * len av in
  word m0 _envp 0 → 4 * (len av + len ev) + 8 ≤ SZ_ARGS →
  wp (loop fuel (envp_body _envp) (0, envp)) (λ r σ, grow (in_block args) h0 m0 (hm_heap σ) (hm_mem σ) ∧
    match r with
    | None => word (hm_mem σ) args (len av) ∧ vec (not_new args hb (hm_heap σ)) (hm_mem σ) (args + 4) (av ++ ev)
    | Some e => e ≠ E_OK
    end) (Hmem m0 h0).
Proof using HB Hb0 H1.
  intros Hf Ha0 Hev Hc0 Hps0 _envp Hz Hlen. destruct (av_vec _ _ _ _ Hev Ha0) as (Hv & Ha & Haw & Hao).
  pose proof (bl_range _ _ _ HB) as Hr. change SZ_ARGS with 4096 in *.
  apply (wp_loop (λ n iq σ, ∃ l1 l2, ev = l1 ++ l2 ∧ iq = (len l1, envp + 4 * len l1) ∧ n = length l2 ∧
    grow (in_block args) h0 m0 (hm_heap σ) (hm_mem σ) ∧ word (hm_mem σ) args (len av) ∧
    vec (not_new args hb (hm_heap σ)) (hm_mem σ) (args + 4) (av ++ l1))) with (n := length ev); [|done|].
  2:{ exists [], ev. cbn [hm_mem hm_heap length]. rewrite app_nil_r.
      split_and!; [done|do 2 f_equal; lia|done|apply grow_refl|done|by split]. }
  intros n iq [m h] (l1 & l2 & Hl & -> & -> & Hg & Hc & [Hps Hzz]). cbn [hm_mem hm_heap] in *.
  assert (len ev = len l1 + len l2) as Hll by (rewrite Hl, length_app; lia).
  pose proof (block_grow _ _ _ _ _ _ HB Hg) as HB1. rewrite length_app, Nat2Z.inj_add in Hzz.
  assert (vec (wr_set args h) m (envp + 4 * len l1) l2) as Hv1.
  { pose proof (vec_grow _ _ _ _ _ _ _ Hv Hg Hao) as [Hp He]. rewrite Hl in Hp. apply ptrs_app in Hp as [_ Hp].
    split; [done|]. by replace (envp + 4 * len l1 + 4 * len l2) with (envp + 4 * len ev) by lia. }
  eapply wp_mono.
  { apply (envp_turn args _envp _ l2 (len l1) h m HB1); [unfold _envp; lia|lia| |exact Hv1|lia|lia|].
    - intros Hne. destruct l2; [done|]. cbn [length] in *. unfold _envp. change SZ_ARGS with 4096. lia.
    - intros x Hx Hf'. apply (Hao x); [lia|]. by apply (grow_wr _ _ _ _ _ _ Hg). }
  intros r [m' h'] [Hg' Hr']. cbn [hm_mem hm_heap] in *. destruct l2 as [|s0 l2].
  { destruct r as [[i' q']|[e|]]; [by destruct Hr' as (_ & _ & ? & ? & ? & _)| |].
    - by destruct Hr'.
    - destruct Hr' as [_ [= -> ->]]. rewrite app_nil_r in Hl. subst l1. split_and!; [done|done|].
      split; [done|]. by rewrite length_app, Nat2Z.inj_add. }
  cbn [length] in Hll. assert (grow (in_block args) h m h' m') as Hg2.
  { eapply grow_weaken; [exact Hg'|]. intros x Hx. cbv beta in Hx. unfold in_block, SZ_ARGS, PAGE_SIZE, _envp in *. lia. }
  pose proof (grow_trans _ _ _ _ _ _ _ Hg Hg2) as Hg3.
  destruct r as [[i' q']|[e|]]; [|by destruct Hr'|by destruct Hr'].
  destruct Hr' as (-> & -> & s & l' & [= <- <-] & Hz' & d & Hd & Hs). exists (length l2).
  split; [cbn [length]; lia|]. exists (l1 ++ [s0]), l2. rewrite length_app. cbn [length].
  split_and!; [by rewrite <- app_assoc|f_equal; lia|done|done| |].
  - eapply word_keep; [exact Hc|]. intros x Hx. apply (gr_off _ _ _ _ _ Hg'); [|unfold _envp; lia].
    intros Hf'. apply (bl_out _ _ _ HB1 x); [|done]. change SZ_ARGS with 4096. lia.
  - rewrite app_assoc. split; [|by rewrite !length_app; cbn [length]; replace (args + 4 + 4 * Z.of_nat (length av + length l1 + 1)) with (_envp + 4 * len l1 + 4) by (unfold _envp; lia)].
    eapply ptrs_snoc; [|rewrite length_app, Nat2Z.inj_add; replace (args + 4 + 4 * (len av + len l1)) with (_envp + 4 * len l1) by (unfold _envp; lia); exact Hd|by apply (str_new _ _ _ _ _ _ _ Hs); intros x Hx; apply Hb0, (gr_free _ _ _ _ _ Hg)].
    eapply (ptrs_grow _ _ _ _ _ h m h' m'); [exact Hps|done|exact Hg'| |]; intros x Hx; cbv beta in Hx; rewrite ?length_app, ?Nat2Z.inj_add in *; unfold in_block, SZ_ARGS, PAGE_SIZE, _envp in *; lia.
Qed.
End loops.

(** ** Packing *)
Lemma mapped_size m a n : mapped m a n → (Z.to_nat n ≤ size m)%nat.
Proof.
  intros Hm. assert (∀ k : nat, (k ≤ Z.to_nat n)%nat → ∃ l, length l = k ∧ holds m a l) as Hl.
  { induction k as [|k IH]; intros Hk; [exists []; split; [done|]; intros i b Hi; by rewrite lookup_nil in Hi|].
    destruct IH as (l & Hl & Hh); [lia|]. destruct (Hm (a + Z.of_nat k)) as [b Hb]; [lia|].
    exists (l ++ [b]). rewrite length_app. split; [simpl; lia|]. apply holds_app. split; [done|]. rewrite Hl.
    intros [|i] c Hc; simpl in Hc; simplify_eq. by rewrite Z.add_0_r. }
  destruct (Hl (Z.to_nat n) (le_n _)) as (l & <- & Hh). by apply holds_size in Hh.
Qed.
Lemma ptrs_size P m a l : ptrs P m a l → (length l ≤ size m)%nat.
Proof.
  intros Hp. assert (mapped m a (4 * len l)) as Hm; [|apply mapped_size in Hm; lia].
  intros x Hx. destruct (lookup_lt_is_Some_2 l (Z.to_nat ((x - a) / 4))) as [s Hs].
  { Z.to_euclidean_division_equations. lia. }
  destruct (Hp _ _ Hs) as (p & Hw & _). rewrite Z2Nat.id in Hw by (Z.to_euclidean_division_equations; lia).
  destruct (lookup_lt_is_Some_2 (bytes4 p) (Z.to_nat ((x - a) mod 4))) as [b Hb].
  { cbn [length bytes4]. Z.to_euclidean_division_equations. lia. }
  exists b. rewrite <- (Hw _ _ Hb). f_equal. Z.to_euclidean_division_equations. lia.
Qed.

(** What the caller passes: a vector, or NULL for none, that is not heap memory. *)
Record given m h (a : Z) (l : list (list Z)) : Prop := {
  gv_null : a = 0 → l = [];
  gv_vec : a ≠ 0 → vec (km_free h) m a l ∧ 0 < a ∧ a + 4 * len l + 4 < W32 ∧
    ∀ x, a ≤ x < a + 4 * len l + 4 → ¬ km_free h x;
}.
Lemma given_arg args m h h' a l : given m h a l → (∀ x, wr_set args h' x → km_free h x) → arg_vec args m h' a l.
Proof.
  intros [G1 G2] Hs. split; [done|]. intros Ha. destruct (G2 Ha) as (G3 & G4 & G5 & G6). split_and!; [|done|done|].
  - by eapply vec_keep; [exact G3|..].
  - intros x Hx Hf. by apply (G6 x Hx), Hs.
Qed.
Lemma given_size m h a l : given m h a l → (length l ≤ size m)%nat.
Proof.
  intros [G1 G2]. destruct (decide (a = 0)) as [->|Ha]; [rewrite G1 by done; simpl; lia|].
  destruct (G2 Ha) as ([G3 _] & _). by eapply ptrs_size.
Qed.

(** The block as the new process finds it. *)
Record packed args hb (av ev : list (list Z)) h m : Prop := {
  pk_new : ∀ x, in_block args x → km_free hb x;
  pk_block : block args h m;
  pk_argc : word m args (len av);
  pk_vec : vec (not_new args hb h) m (args + 4) (av ++ ev);
}.

Lemma arg_vec_only args m m' h a l k n : arg_vec args m h a l → only k n m m' → (∀ x, k ≤ x < k + n → in_block args x) →
  arg_vec args m' h a l.
Proof.
  intros Hv Ho Hk. eapply arg_vec_grow; [exact Hv|]. eapply grow_only; [exact Ho|]. intros x Hx. right. by apply Hk.
Qed.

Lemma args_pack_spec argv envp av ev h m : heap_mapped h m → all_bytes m → (∀ x, km_free h x → 0 < x) →
  given m h argv av → given m h envp ev → 4 * (len av + len ev) + 8 ≤ SZ_ARGS →
  wp (args_pack argv envp) (λ r σ, grow (λ _, False) h m (hm_heap σ) (hm_mem σ) ∧
    match r with inl e => e ≠ E_OK | inr args => packed args h av ev (hm_heap σ) (hm_mem σ) end) (Hmem m h).
Proof.
  intros Hm Hb Hpos Hav Hev Hlen. unfold args_pack. apply wp_bind, wp_alloc; [done|done| |].
  { intros e h' He Hg. by apply wp_ret. }
  intros args h1 Hmap Hout Hw Hfree Hg. assert (0 < args) as Ha0 by (apply Hpos, Hfree; change SZ_ARGS with 4096; lia).
  assert (∀ x, wr_set args h1 x → km_free h x) as Hwr.
  { intros x [Hx|Hx]; [by apply (gr_free _ _ _ _ _ Hg)|by apply Hfree]. }
  assert (∀ h' m', grow (in_block args) h1 m h' m' → grow (λ _, False) h m h' m') as Habs.
  { intros h' m' [A1 A2 A3 A4]. split; [|by intros x ?%A2%(gr_free _ _ _ _ _ Hg)|done|done].
    intros x Hx _. apply A1; intros Hf; apply Hx, Hwr; [by left|by right]. }
  pose proof (given_arg _ _ _ _ _ _ Hav Hwr) as Hav0. pose proof (given_arg _ _ _ _ _ _ Hev Hwr) as Hev0.
  pose proof (given_size _ _ _ _ Hav) as Hsa. pose proof (given_size _ _ _ _ Hev) as Hse. clear Hav Hev.
  assert (block args h1 m) as HB0.
  { split; [done|done|done|by eapply grow_heap| |done]. intros x Hx. by apply Hpos, Hwr; left. }
  change SZ_ARGS with 4096 in *.
  assert (∀ x, args ≤ x < args + 4096 → in_block args x) as Hin by done.
  apply wp_bind, wp_hmem. cbn [hm_mem hm_heap].
  apply wp_wrw; [intros x Hx; apply Hmap; lia|lia|lia|]. intros m1 Hc1 Ho1.
  assert (grow (in_block args) h1 m h1 m1) as Hg1 by (eapply grow_only; [exact Ho1|intros x Hx; right; apply Hin; lia]).
  apply wp_bind, wp_hmem. cbn [hm_mem hm_heap]. rewrite (add32_small args 4), elt_eq by lia.
  replace (args + 4 + 4 * 0) with (args + 4) by lia.
  apply wp_wrw; [intros x Hx; apply (on_mapped _ _ _ _ Ho1), Hmap; lia|lia|lia|]. intros m2 _ Ho2.
  assert (grow (in_block args) h1 m h1 m2) as Hg2.
  { eapply grow_trans; [exact Hg1|]. eapply grow_only; [exact Ho2|intros x Hx; right; apply Hin; lia]. }
  assert (word m2 args 0) as Hc2 by holds_step Ho2 Hc1.
  pose proof (block_grow _ _ _ _ _ _ HB0 Hg2) as HB2.
  pose proof (arg_vec_grow _ _ _ _ _ _ _ Hav0 Hg2) as Hav2.
  unfold turns. apply wp_bind, wp_gets. cbn [hm_mem].
  assert (size m ≤ size m2)%nat as Hsz.
  { rewrite <- !size_dom. apply subseteq_size. intros x. rewrite !elem_of_dom. apply (gr_map _ _ _ _ _ Hg2). }
  apply wp_bind. eapply (wp_mono _ (λ r σ, grow (in_block args) h1 m2 (hm_heap σ) (hm_mem σ) ∧
    match r with
    | None => word (hm_mem σ) args (len av) ∧ ptrs (not_new args h (hm_heap σ)) (hm_mem σ) (args + 4) av
    | Some e => e ≠ E_OK end)).
  { destruct (Z.eqb_spec argv 0) as [->|Hne].
    - apply wp_ret. cbn [hm_mem hm_heap]. rewrite (av_null _ _ _ _ _ Hav2 eq_refl) in *. split; [apply grow_refl|]. split; [done|apply ptrs_nil].
    - apply (argv_loop _ h); try done; try by intros x Hx; apply Hwr; left. all: change SZ_ARGS with 4096; lia. }
  intros r [m3 h3] [Hg3 Hr]. cbn [hm_mem hm_heap] in *. pose proof (grow_trans _ _ _ _ _ _ _ Hg2 Hg3) as Hg13.
  destruct r as [e|]; [apply wp_ret; split; [by apply Habs|done]|]. destruct Hr as [Hc3 Hp3].
  pose proof (block_grow _ _ _ _ _ _ HB2 Hg3) as HB3. pose proof (bl_map _ _ _ HB3) as Hmap3. change SZ_ARGS with 4096 in *.
  rd_step Hc3. rewrite (add32_small 1), mul32_small, add32_small, elt_eq by lia.
  replace (args + 4 * (1 + len av) + 4 * 0) with (args + 4 + 4 * len av) by lia.
  replace (args + 4 * (1 + len av)) with (args + 4 + 4 * len av) by lia.
  apply wp_bind, wp_hmem. cbn [hm_mem hm_heap].
  apply wp_wrw; [intros x Hx; apply Hmap3; lia|lia|lia|]. intros m4 Hz4 Ho4.
  assert (grow (λ x, args + 4 + 4 * len av ≤ x < args + 4 + 4 * len av + 4) h3 m3 h3 m4) as Hg4.
  { eapply grow_only; [exact Ho4|]. intros x Hx. by right. }
  assert (ptrs (not_new args h h3) m4 (args + 4) av) as Hp4.
  { eapply ptrs_grow; [exact Hp3|exact HB3|exact Hg4| |]; intros x Hx; cbv beta in Hx; unfold in_block, SZ_ARGS, PAGE_SIZE; lia. }
  assert (word m4 args (len av)) as Hc4 by holds_step Ho4 Hc3.
  assert (grow (in_block args) h1 m h3 m4) as Hg14.
  { eapply grow_trans; [exact Hg13|]. eapply grow_weaken; [exact Hg4|]. intros x Hx. cbv beta in Hx. apply Hin. lia. }
  pose proof (block_grow _ _ _ _ _ _ HB0 Hg14) as HB4. pose proof (arg_vec_grow _ _ _ _ _ _ _ Hev0 Hg14) as Hev4.
  apply wp_bind. eapply (wp_mono _ (λ r σ, grow (in_block args) h3 m4 (hm_heap σ) (hm_mem σ) ∧
    match r with
    | None => word (hm_mem σ) args (len av) ∧ vec (not_new args h (hm_heap σ)) (hm_mem σ) (args + 4) (av ++ ev)
    | Some e => e ≠ E_OK end)).
  { destruct (Z.eqb_spec envp 0) as [->|Hne].
    - apply wp_ret. cbn [hm_mem hm_heap]. rewrite (av_null _ _ _ _ _ Hev4 eq_refl), app_nil_r. split; [apply grow_refl|]. split; [done|by split].
    - apply (envp_loop _ h); try done; try (by intros x Hx; apply Hwr; left; apply (gr_free _ _ _ _ _ Hg14)). all: change SZ_ARGS with 4096; lia. }
  intros r [m5 h5] [Hg5 Hr]. cbn [hm_mem hm_heap] in *. pose proof (grow_trans _ _ _ _ _ _ _ Hg14 Hg5) as Hg15.
  destruct r as [e|]; apply wp_ret; (split; [by apply Habs|]); [done|]. destruct Hr as [Hc5 Hv5].
  split; [done|by eapply block_grow|done|done].
Qed.
End pack.

(** ** Unpacking *)
Section unpack.
Context {U : Type} `{HeapBytesLaws U}.
Implicit Types (h : U) (m : mem).
Context (args : Z) (av ev : list (list Z)) (h0 : U) (m0 : mem).
Let l : list (list Z) := av ++ ev.

(** The block of the kernel and the new process's page, heap and memory. *)
Record unpackable : Prop := {
  up_page : block args_s h0 m0;
  up_block : mapped m0 args SZ_ARGS ∧ 0 < args ∧ args + SZ_ARGS < W32;
  up_apart : ∀ x, in_block args x → ¬ wr_set args_s h0 x;
  up_argc : word m0 args (len av);
  up_vec : vec (wr_set args_s h0) m0 (args + 4) l;
  up_room : 4 * (len av + len ev) + 8 ≤ SZ_ARGS;
}.

(** The first [i] strings have moved. *)
Record unpacked (i : nat) h m : Prop := {
  un_grow : grow (in_block args_s) h0 m0 h m;
  un_argc : word m args_s (len av);
  un_done : ptrs (not_new args_s h0 h) m (args_s + 4) (take i l);
  un_rest : vec (wr_set args_s h0) m (args_s + 4 + 4 * Z.of_nat i) (drop i l);
}.

Lemma move_step i s h m : unpackable → unpacked i h m → l !! i = Some s →
  wp (move_arg (args_s + 4 + 4 * Z.of_nat i)) (λ err σ, grow (in_block args_s) h0 m0 (hm_heap σ) (hm_mem σ) ∧
    (err = E_OK → unpacked (S i) (hm_heap σ) (hm_mem σ))) (Hmem m h).
Proof using H1.
  intros HU [Hg Hc Hd Hr] Hi. pose proof (block_grow _ _ _ _ _ _ (up_page HU) Hg) as HB.
  pose proof (up_room HU) as Hroom. change SZ_ARGS with 4096 in Hroom.
  pose proof (lookup_lt_Some _ _ _ Hi) as Hil. unfold l in Hil. rewrite length_app in Hil.
  rewrite (drop_S _ _ _ Hi) in Hr. apply vec_cons in Hr as [(p & Hp & [[Hp0 Hpw] Hs Hpo]) Hr].
  set (a := args_s + 4 + 4 * Z.of_nat i) in *.
  assert (args_s + 4 ≤ a ∧ a + 8 ≤ args_s + 4096) as Ha by (unfold a; lia).
  change args_s with 0xBFFFF000 in Ha. assert (W32 = 4294967296) as HW by done. unfold move_arg. rd_step Hp. len_step Hs.
  rewrite (add32_small (len s) 1) by lia. apply wp_bind, wp_alloc; [lia|apply HB| |].
  { intros e h' He Hg'. apply wp_ret. split; [|done]. eapply grow_trans; [exact Hg|by eapply grow_weaken]. }
  intros d h' Hdm Hdo Hdw Hdf Hg1. rd_step Hp. len_step Hs.
  assert (∀ x, d ≤ x < d + (len s + 1) → km_free h0 x) as Hdf0 by (intros x Hx; by apply (gr_free _ _ _ _ _ Hg), Hdf).
  assert (0 < d) as Hd0 by (apply (bl_pos _ _ _ HB), Hdf; lia).
  assert (∀ x, p ≤ x < p + (len s + 1) → ¬ wr_set args_s h0 x) as Hpo' by (intros x Hx; apply Hpo; lia).
  assert (∀ x, d ≤ x < d + (len s + 1) → wr_set args_s h0 x) as Hdw' by (intros x Hx; left; by apply Hdf0).
  pose proof (ranges_apart _ _ _ _ _ Hdw' Hpo' ltac:(lia) ltac:(lia)) as Hdp.
  pose proof (ranges_apart _ _ _ _ _ Hdf (bl_out _ _ _ HB) ltac:(lia) eq_refl) as Hda. change SZ_ARGS with 4096 in Hda.
  change args_s with 0xBFFFF000 in Hda.
  apply wp_bind, wp_hmem. cbn [hm_mem hm_heap]. apply wp_copy; [done|apply HB|done|lia..|]. intros m1 Hs1 Ho1.
  apply wp_bind, wp_hmem. cbn [hm_mem hm_heap].
  apply wp_wrw; [intros x Hx; apply (on_mapped _ _ _ _ Ho1), (bl_map _ _ _ HB); change SZ_ARGS with 4096; change args_s with 0xBFFFF000; lia|lia|lia|].
  intros m2 Hd2 Ho2. apply wp_ret. cbn [hm_mem hm_heap].
  assert (grow (λ x, a ≤ x < a + 4) h m h' m2) as Hg2.
  { eapply grow_trans; [eapply grow_only; [exact Ho1|intros x Hx; left; apply Hdf; lia]|].
    eapply grow_trans; [eapply grow_only; [exact Ho2|intros x Hx; by right]|]. destruct Hg1 as [_ Hfr _ _]. by split. }
  assert (grow (in_block args_s) h0 m0 h' m2) as Hg02.
  { eapply grow_trans; [exact Hg|]. eapply grow_weaken; [exact Hg2|]. intros x Hx. cbv beta in Hx.
    unfold in_block. change args_s with 0xBFFFF000. change SZ_ARGS with 4096. lia. }
  assert (∀ x, in_block args_s x → x < a ∨ a + 4 ≤ x → m2 !! x = m !! x) as Hpage.
  { intros x Hx Hxa. apply (gr_off _ _ _ _ _ Hg2); [|lia]. intros Hf. by apply (bl_out _ _ _ HB x). }
  split; [done|]. intros _. unfold in_block in Hpage. change SZ_ARGS with 4096 in Hpage. change args_s with 0xBFFFF000 in *. split; change args_s with 0xBFFFF000.
  - done.
  - eapply word_keep; [exact Hc|]. intros x Hx. apply Hpage; lia.
  - rewrite (take_S_r _ _ _ Hi). assert (length (take i l) = i) as Hti by (rewrite length_take; unfold l; rewrite length_app; lia).
    eapply ptrs_snoc.
    + eapply ptrs_keep; [exact Hd| | |].
      * intros x Hx. apply (gr_off _ _ _ _ _ Hg2); [intros Hf; apply Hx; left; by left|]. intros Hxa. apply Hx. left. right.
        unfold in_block. change SZ_ARGS with 4096. change args_s with 0xBFFFF000. lia.
      * intros x Hx. rewrite Hti in Hx. apply Hpage; unfold a in *; lia.
      * intros x [[Hx|Hx]|Hx]; [left; left; by apply (gr_free _ _ _ _ _ Hg1)|left; by right|by right].
    + rewrite Hti. exact Hd2.
    + split; [lia| |].
      * destruct Hs1 as [S1 S2 S3]. split; [holds_step Ho2 S1|done|done].
      * intros x Hx [[Hf|Hf]|Hf]; [by apply (Hdo x); [lia|]| |by apply Hf, Hdf0; lia].
        unfold in_block in Hf. change SZ_ARGS with 4096 in Hf. change args_s with 0xBFFFF000 in Hf. lia.
  - replace (0xBFFFF000 + 4 + 4 * Z.of_nat (S i)) with (a + 4) by (unfold a; lia).
    eapply vec_keep; [exact Hr| | |done].
    + intros x Hx. apply (gr_off _ _ _ _ _ Hg2); [intros Hf; apply Hx; left; by apply (gr_free _ _ _ _ _ Hg)|].
      intros Hxa. apply Hx. right. unfold in_block. change SZ_ARGS with 4096. change args_s with 0xBFFFF000. lia.
    + intros x Hx. rewrite length_drop in Hx. unfold l in Hx. rewrite length_app in Hx. apply Hpage; unfold a in *; lia.
Qed.

Lemma argv_moves i fuel h m : unpackable → unpacked i h m → (i ≤ length av)%nat → (length av < fuel + i)%nat →
  wp (loop fuel move_argv_body (Z.of_nat i)) (λ r σ, grow (in_block args_s) h0 m0 (hm_heap σ) (hm_mem σ) ∧
    match r with None => unpacked (length av) (hm_heap σ) (hm_mem σ) | Some e => e ≠ E_OK end) (Hmem m h).
Proof using H1.
  intros HU. revert i h m. induction fuel as [|fuel IH]; intros i h m Hun Hi Hf; [lia|]. cbn [loop].
  pose proof (up_room HU) as Hroom. change SZ_ARGS with 4096 in Hroom. assert (W32 = 4294967296) as HW by done.
  pose proof (un_argc _ _ _ Hun) as Hc. unfold move_argv_body at 1. apply wp_bind.
  apply wp_bind, wp_hmem. cbn [hm_mem hm_heap]. apply (wp_rdw _ _ _ _ Hc); [unfold is_u32; lia|done|done|].
  rewrite s32_small by lia. destruct (Z.ltb_spec (Z.of_nat i) (len av)) as [Hlt|Hge].
  - destruct (lookup_lt_is_Some_2 l i) as [s Hs]; [unfold l; rewrite length_app; lia|].
    rewrite (add32_small args_s 4), elt_eq by (change args_s with 0xBFFFF000; lia).
    apply wp_bind. eapply wp_mono; [by apply (move_step i s)|]. intros e [m' h'] [Hg He]. cbn [hm_mem hm_heap] in *.
    destruct (Z.eqb_spec e E_OK) as [->|Hne]; apply wp_ret; [|by apply wp_ret].
    replace (Z.of_nat i + 1) with (Z.of_nat (S i)) by lia. apply IH; [by apply He|lia|lia].
  - apply wp_ret, wp_ret. cbn [hm_mem hm_heap]. replace (length av) with i by lia. split; [apply Hun|done].
Qed.

Lemma envp_moves i fuel h m : unpackable → unpacked i h m → (i ≤ length l)%nat → (length l < fuel + i)%nat →
  wp (loop fuel move_envp_body (args_s + 4 + 4 * Z.of_nat i)) (λ r σ, grow (in_block args_s) h0 m0 (hm_heap σ) (hm_mem σ) ∧
    match r with None => unpacked (length l) (hm_heap σ) (hm_mem σ) | Some e => e ≠ E_OK end) (Hmem m h).
Proof using H1.
  intros HU. revert i h m. induction fuel as [|fuel IH]; intros i h m Hun Hi Hf; [lia|]. cbn [loop].
  pose proof (up_room HU) as Hroom. change SZ_ARGS with 4096 in Hroom. assert (W32 = 4294967296) as HW by done.
  assert (len l = len av + len ev) as Hll by (unfold l; rewrite length_app; lia).
  assert (is_u32 (args_s + 4 + 4 * Z.of_nat i) ∧ args_s + 4 + 4 * Z.of_nat i + 4 < W32 ∧ 0 ≤ args_s + 4 + 4 * Z.of_nat i) as (Ha & Hb & Hc).
  { unfold is_u32. change args_s with 0xBFFFF000. lia. }
  pose proof (un_rest _ _ _ Hun) as Hr. unfold move_envp_body at 1. apply wp_bind.
  destruct (l !! i) as [s|] eqn:Hs.
  - pose proof (lookup_lt_Some _ _ _ Hs). rewrite (drop_S _ _ _ Hs) in Hr. apply vec_cons in Hr as [(p & Hp & [[Hp0 Hpw] _ _]) _].
    apply wp_bind, wp_hmem. cbn [hm_mem hm_heap]. apply (wp_rdw _ _ _ _ Hp); [unfold is_u32; lia|done|lia|].
    destruct (Z.eqb_spec p 0); [lia|].
    apply wp_bind. eapply wp_mono; [by apply (move_step i s)|]. intros e [m' h'] [Hg He]. cbn [hm_mem hm_heap] in *.
    destruct (Z.eqb_spec e E_OK) as [->|Hne]; apply wp_ret; [|by apply wp_ret].
    rewrite (add32_small (args_s + 4 + 4 * Z.of_nat i) 4) by lia.
    replace (args_s + 4 + 4 * Z.of_nat i + 4) with (args_s + 4 + 4 * Z.of_nat (S i)) by lia. apply IH; [by apply He|lia|lia].
  - apply lookup_ge_None in Hs. rewrite drop_ge in Hr by done. destruct Hr as [_ Hz]. cbn [length] in Hz. rewrite Z.add_0_r in Hz.
    apply wp_bind, wp_hmem. cbn [hm_mem hm_heap]. apply (wp_rdw _ _ _ _ Hz); [done|done|lia|].
    apply wp_ret, wp_ret. cbn [hm_mem hm_heap]. replace (length l) with i by lia. split; [apply Hun|done].
Qed.

(** The copy of the block. *)
Lemma copied_word m1 k v : filled args_s SZ_ARGS (λ j, m0 !! (args + j)) m0 m1 → word m0 (args + k) v → 0 ≤ k → k + 4 ≤ SZ_ARGS →
  word m1 (args_s + k) v.
Proof using Type.
  intros Hf Hw Hk Hk4 i b Hi. pose proof (lookup_lt_Some _ _ _ Hi) as Hl. cbn [length bytes4] in Hl.
  rewrite (Hf _), decide_True by lia. rewrite <- (Hw _ _ Hi). f_equal. lia.
Qed.

Lemma unpacked_start m1 : unpackable → filled args_s SZ_ARGS (λ j, m0 !! (args + j)) m0 m1 → unpacked 0 h0 m1.
Proof using Type.
  intros HU Hf. pose proof (up_room HU) as Hroom. pose proof (up_block HU) as (Hbm & _ & _).
  assert (∀ x, ¬ wr_set args_s h0 x → m1 !! x = m0 !! x) as Hs.
  { intros x Hx. apply (filled_out _ _ _ _ _ _ Hf). destruct (decide (args_s ≤ x < args_s + SZ_ARGS)) as [Hi|]; [|lia].
    exfalso. apply Hx. by right. }
  assert (only args_s SZ_ARGS m0 m1) as Ho.
  { eapply filled_only; [exact Hf|]. intros j Hj. destruct (Hbm (args + j)) as [b Hb]; [lia|]. exists b. split; [done|].
    by eapply (bl_bytes _ _ _ (up_page HU)). }
  split.
  - eapply grow_only; [exact Ho|]. intros x Hx. by right.
  - rewrite <- (Z.add_0_r args_s). apply copied_word; [done| |lia|done]. rewrite Z.add_0_r. apply HU.
  - intros i s Hi. by rewrite take_0, lookup_nil in Hi.
  - rewrite Z.add_0_r. destruct (up_vec HU) as [Hp Hz].
    assert (len l = len av + len ev) as Hll by (unfold l; rewrite length_app; lia). change (drop 0 l) with l. split.
    + intros i s Hi. destruct (Hp i s Hi) as (p & Hw & Hstr). pose proof (lookup_lt_Some _ _ _ Hi). exists p. split.
      * rewrite <- Z.add_assoc. apply copied_word; [done| |lia|lia]. by rewrite Z.add_assoc.
      * by eapply str_keep.
    + rewrite <- Z.add_assoc. apply copied_word; [done| |lia|lia]. by rewrite Z.add_assoc.
Qed.

Lemma args_unpack_spec : unpackable → wp (args_unpack args) (λ err σ, grow (in_block args_s) h0 m0 (hm_heap σ) (hm_mem σ) ∧
  (err = E_OK → unpacked (length l) (hm_heap σ) (hm_mem σ))) (Hmem m0 h0).
Proof using H1.
  intros HU. destruct (up_block HU) as (Hbm & Hb0 & Hbw). pose proof (up_page HU) as HB. assert (W32 = 4294967296) as HW by done.
  pose proof (up_room HU) as Hroom. change SZ_ARGS with 4096 in Hroom.
  assert (∀ x, args ≤ x < args + SZ_ARGS → ¬ in_block args_s x) as Hap.
  { intros x Hx Hf. apply (up_apart HU x Hx). by right. }
  pose proof (ranges_apart _ _ _ _ _ (λ x (Hx : args_s ≤ x < args_s + SZ_ARGS), Hx : in_block args_s x) Hap eq_refl eq_refl) as Hd.
  unfold args_unpack. apply wp_bind, wp_hmem. cbn [hm_mem hm_heap]. change SZ_ARGS with 4096 in *.
  eapply wp_mono; [apply (memcpy_spec m0 args_s args 4096); try lia|].
  { done. } { done. } { apply HB. } { apply HB. } { done. }
  intros [] m1 Hf. pose proof (unpacked_start m1 HU Hf) as H0'. pose proof (un_argc _ _ _ H0') as Hc.
  apply wp_bind, wp_hmem. cbn [hm_mem hm_heap]. apply (wp_rdw _ _ _ _ Hc); [unfold is_u32; lia|done|done|].
  unfold turns. apply wp_bind, wp_gets. cbn [hm_mem].
  assert (length l ≤ size m1)%nat as Hsz by (eapply ptrs_size, (un_rest _ _ _ H0')).
  pose proof Hsz as Hsz'. unfold l in Hsz'. rewrite length_app in Hsz'.
  apply wp_bind. change 0 with (Z.of_nat 0). eapply wp_mono; [apply argv_moves; [done|done|lia|lia]|].
  intros [e|] [m2 h2] [Hg2 Hr2]; cbn [hm_mem hm_heap] in *; [by apply wp_ret|].
  rewrite (add32_small 1), mul32_small, add32_small by (change args_s with 0xBFFFF000; lia).
  replace (args_s + 4 * (1 + len av)) with (args_s + 4 + 4 * len av) by lia.
  apply wp_bind. eapply wp_mono; [apply envp_moves; [done|exact Hr2|unfold l; rewrite length_app; lia|lia]|].
  intros [e|] [m3 h3] [Hg3 Hr3]; cbn [hm_mem hm_heap] in *; by apply wp_ret.
Qed.
End unpack.

(** ** From the caller's strings to the new process's *)

(** The memory of a new process: its heap and its argument page. *)
Record new_space {U : Type} `{HeapBytes U} (hu : U) (u : mem) : Prop := {
  ns_low : ∀ x, km_free hu x → 0 < x < args_s;
  ns_heap : heap_mapped hu u;
  ns_page : mapped u args_s SZ_ARGS;
  ns_bytes : all_bytes u;
}.

Lemma packed_unpackable {K U} `{HeapBytesLaws K} {KU : Kmalloc U} {HU : HeapBytes U} {LU : HeapBytesLaws U}
    args av ev (h h' : K) m' (hu : U) u m2 : packed args h av ev h' m' → (∀ x, km_free h x → KERN_BASE ≤ x) →
  4 * (len av + len ev) + 8 ≤ SZ_ARGS → new_space hu u → all_bytes m2 →
  (∀ x, KERN_BASE ≤ x → ¬ km_free h' x → m2 !! x = m' !! x) → unpackable args av ev hu (mix u m2).
Proof.
  intros [P1 P2 P3 P4] Hk Hlen [N1 N2 N3 N4] Hb2 Hm2.
  assert (args_s + SZ_ARGS = KERN_BASE ∧ 0 < args_s ∧ KERN_BASE < W32) as (Ek & E0 & Ew) by done.
  assert (∀ x, in_block args x → KERN_BASE ≤ x ∧ mix u m2 !! x = m' !! x) as Hin.
  { intros x Hx. assert (KERN_BASE ≤ x) by (by apply Hk, P1). split; [done|]. rewrite mix_kern by done. apply Hm2; [done|].
    intros Hf. by apply (bl_out _ _ _ P2 x). }
  assert (∀ x, wr_set args_s hu x → x < KERN_BASE) as Hlow.
  { intros x [Hx|Hx]; [apply N1 in Hx; lia|unfold in_block in Hx; lia]. }
  split.
  - split; [lia| | | | |by apply mix_bytes].
    + intros x Hx. rewrite mix_user by lia. by apply N3.
    + intros x Hx Hf. apply N1 in Hf. lia.
    + intros x Hx. rewrite mix_user by (apply N1 in Hx; lia). by apply N2.
    + intros x Hx. by apply N1.
  - split; [|apply P2]. intros x Hx. destruct (Hin x Hx) as [_ ->]. by apply (bl_map _ _ _ P2).
  - intros x Hx Hf. apply Hlow in Hf. apply Hin in Hx as [? _]. lia.
  - eapply word_keep; [exact P3|]. intros x Hx. apply Hin. unfold in_block, SZ_ARGS, PAGE_SIZE. lia.
  - assert (∀ x, ¬ not_new args h h' x → KERN_BASE ≤ x) as Hnn.
    { intros x Hx. destruct (decide (KERN_BASE ≤ x)); [done|]. exfalso. apply Hx. right. intros Hf. by apply Hk in Hf. }
    eapply vec_keep; [exact P4| | |].
    + intros x Hx. rewrite mix_kern by (by apply Hnn). apply Hm2; [by apply Hnn|]. intros Hf. apply Hx. left. by left.
    + intros x Hx. apply Hin. rewrite length_app in Hx. unfold in_block, SZ_ARGS, PAGE_SIZE in *. lia.
    + intros x Hx%Hlow. right. intros Hf%Hk. lia.
  - done.
Qed.


(** A caller with one argument and one environment string; a heap of two pages. *)
Definition ex_arg_bytes : list Z :=
  bytes4 0x2010 ++ bytes4 0 ++ bytes4 0x2014 ++ bytes4 0 ++ [108; 0; 0; 0; 65; 0; 0; 0].
Definition ex_caller : mem := place 0x2000 ex_arg_bytes (ram 0xC1000000 (Z.to_nat 8192)).
Definition ex_arena : arena := Arena 0xC1000000 0xC1002000 ∅.

Lemma ex_caller_bytes : all_bytes ex_caller.
Proof. apply place_bytes; [repeat (constructor; [by vm_compute|]); constructor|apply ram_bytes]. Qed.
Lemma ex_caller_holds k l' : take (length l') (drop k ex_arg_bytes) = l' → holds ex_caller (0x2000 + Z.of_nat k) l'.
Proof. apply place_holds. Qed.
Lemma given_one m a p b : word m a p → word m (a + 4) 0 → holds m p [b; 0] → 0 < b < 256 → 0 < a → a + 8 < 0xC1000000 →
  0 < p → p + 2 < 0xC1000000 → given m ex_arena a [[b]].
Proof.
  intros Hw Hz Hs Hb Ha Haw Hp Hpw. assert (W32 = 4294967296) as HW by done.
  assert (∀ x, x < 0xC1000000 → ¬ km_free ex_arena x) as Hlow.
  { intros x Hx Hf. cbn [km_free arena_bytes ex_arena ar_next ar_end] in Hf. lia. }
  split; [lia|]. intros _. split; [|split; [done|split; [cbn [length]; lia|cbn [length]; intros x Hx; apply Hlow; lia]]]. split.
  - apply ptrs_cons. split; [|apply ptrs_nil]. exists p. split; [done|]. split; [cbn [length]; lia| |].
    + split; [exact Hs|by apply Forall_singleton|cbn [length]; lia].
    + cbn [length]. intros x Hx. apply Hlow. lia.
  - done.
Qed.


(** Both copies succeed there, and the new process reads its argument and its
    environment. *)
Definition ex_arrives : option (Z * Z * Z) :=
  match args_pack 0x2000 0x2008 (Hmem ex_caller ex_arena) with
  | Ret (inr args) σ =>
      match (err <- args_unpack args ;; p <- in_mem (rdw (args_s + 4)) ;; a <- in_mem (rd p) ;;
             p <- in_mem (rdw (args_s + 8)) ;; b <- in_mem (rd p) ;; ret (err, a, b))
          (Hmem (mix (ram 0x1000 64 ∪ ram args_s (Z.to_nat 4096)) (hm_mem σ)) (Arena 0x1000 0x1040 ∅)) with
      | Ret r _ => Some r
      | _ => None end
  | _ => None end.
Example ex_args_arrive : ex_arrives = Some (E_OK, 108, 65).
Proof. by vm_compute. Qed.
