(* ===== verification/Thread.v ===== *)
(** * Threads: kernel/proc/thread/thread.c

    A thread is a [struct thread_t] from the kernel heap with a kernel stack; the
    scheduler (Schd) keeps its state, here are the fields it does not use. The new thread
    starts in [thread_enclosure], which calls the routine it was made for, or, for a user
    thread, in [pre]. Memory is what the running processor sees. *)
From S2P Require Import Prelude Machine Mmu Ptb Kmalloc IdxAlct IdMap DList Cstring Words Blocks Args Desc Task Schd.

Definition SZ_THREAD : Z := 96.
Definition KERN_STACK_SIZE : Z := 8 * PAGE_SIZE.
Definition DFT_STK_SZ : Z := PAGE_SIZE * 1024.

Record thread_x := ThreadX {
  tid : Z; ks_addr : Z; ks_size : Z; wake_sig : Z; t_task : task_t; t_proc : Z }.

(** [struct proc_t]; the name is in memory, at the address of the structure plus 4, the
    user heap and the node [proc_ln] in maps of their own. *)
Record proc_t := Proc {
  pid : Z; p_pde : Z; thread_ls : list Z; wait_t : Z; exit_state : Z }.

Record sys (A K U P : Type) := Sys {
  s_hm : hmem K; s_tids : A; s_pids : A; s_ths : gmap Z thread_x; s_procs : gmap Z proc_t;
  s_sch : schd_t; s_ln : lheap; s_ums : gmap Z U; s_pt : ptb_st P }.
Arguments Sys {A K U P}.
Arguments s_hm {A K U P}.
Arguments s_tids {A K U P}.
Arguments s_pids {A K U P}.
Arguments s_ths {A K U P}.
Arguments s_procs {A K U P}.
Arguments s_sch {A K U P}.
Arguments s_ln {A K U P}.
Arguments s_ums {A K U P}.
Arguments s_pt {A K U P}.

(** Addresses fixed when the kernel is linked: the structure of process 0, the head of
    the list of processes and [proc_create_dft_attr]; [thread_enclosure], [pre], [intr_ret]
    and [inner_setup_uthread_from_mm_thread]. *)
Record image_t := Image {
  proc_0 : Z; proc_ls : Z; dft_attr : Z; enclosure : Z; pre_start : Z; intr_ret : Z; inner_start : Z }.

Section code.
Context {A K U P : Type} `{IdMap A} `{Kmalloc K} {KU : Kmalloc U} `{PageAlloc P}.
(** The processor that runs, the link addresses, and what a fresh structure holds. *)
Context (cpu : Z) (img : image_t) (junk : Z) (junk_task : task_t).
Abbreviation st := (sys A K U P).
Abbreviation M := (Prelude.M st).
Implicit Types s : st.

Definition set_hm x s : st := Sys x (s_tids s) (s_pids s) (s_ths s) (s_procs s) (s_sch s) (s_ln s) (s_ums s) (s_pt s).
Definition set_tids x s : st := Sys (s_hm s) x (s_pids s) (s_ths s) (s_procs s) (s_sch s) (s_ln s) (s_ums s) (s_pt s).
Definition set_pids x s : st := Sys (s_hm s) (s_tids s) x (s_ths s) (s_procs s) (s_sch s) (s_ln s) (s_ums s) (s_pt s).
Definition set_ths x s : st := Sys (s_hm s) (s_tids s) (s_pids s) x (s_procs s) (s_sch s) (s_ln s) (s_ums s) (s_pt s).
Definition set_procs x s : st := Sys (s_hm s) (s_tids s) (s_pids s) (s_ths s) x (s_sch s) (s_ln s) (s_ums s) (s_pt s).
Definition set_sch x s : st := Sys (s_hm s) (s_tids s) (s_pids s) (s_ths s) (s_procs s) x (s_ln s) (s_ums s) (s_pt s).
Definition set_ln x s : st := Sys (s_hm s) (s_tids s) (s_pids s) (s_ths s) (s_procs s) (s_sch s) x (s_ums s) (s_pt s).
Definition set_ums x s : st := Sys (s_hm s) (s_tids s) (s_pids s) (s_ths s) (s_procs s) (s_sch s) (s_ln s) x (s_pt s).
Definition set_pt x s : st := Sys (s_hm s) (s_tids s) (s_pids s) (s_ths s) (s_procs s) (s_sch s) (s_ln s) (s_ums s) x.

Definition on_hm {B} (m : Prelude.M (hmem K) B) : M B := zoom s_hm set_hm m.
Definition on_mem {B} (m : Prelude.M mem B) : M B := on_hm (in_mem m).
Definition on_tids {B} (m : Prelude.M A B) : M B := zoom s_tids set_tids m.
Definition on_pids {B} (m : Prelude.M A B) : M B := zoom s_pids set_pids m.
Definition on_sch {B} (m : Prelude.M schd_t B) : M B := zoom s_sch set_sch m.
Definition on_ln {B} (m : Prelude.M lheap B) : M B := zoom s_ln set_ln m.
Definition on_pt {B} (m : Prelude.M (ptb_st P) B) : M B := zoom s_pt set_pt m.

Definition th_at (t : Z) : M thread_x := s <- get ;; deref (s_ths s !! t).
Definition upd_th (t : Z) (f : thread_x → thread_x) : M unit :=
  x <- th_at t ;; modify (λ s, set_ths (<[t := f x]> (s_ths s)) s).
Definition proc_at (p : Z) : M proc_t := s <- get ;; deref (s_procs s !! p).
Definition upd_proc (p : Z) (f : proc_t → proc_t) : M unit :=
  x <- proc_at p ;; modify (λ s, set_procs (<[p := f x]> (s_procs s)) s).

Definition th_tid i (x : thread_x) := ThreadX i (ks_addr x) (ks_size x) (wake_sig x) (t_task x) (t_proc x).
Definition th_stack a n (x : thread_x) := ThreadX (tid x) a n (wake_sig x) (t_task x) (t_proc x).
Definition th_task k (x : thread_x) := ThreadX (tid x) (ks_addr x) (ks_size x) (wake_sig x) k (t_proc x).
Definition th_proc p (x : thread_x) := ThreadX (tid x) (ks_addr x) (ks_size x) (wake_sig x) (t_task x) p.
Definition pr_threads l (x : proc_t) := Proc (pid x) (p_pde x) l (wait_t x) (exit_state x).

Definition thread_now : M Z := on_sch (Schd.thread_now cpu).
Definition proc_now : M Z := t <- thread_now ;; x <- th_at t ;; ret (t_proc x).
Definition thread_id : M Z := t <- thread_now ;; x <- th_at t ;; ret (tid x).

(** [kmalloc], and [umalloc] on the heap of a process. *)
Definition kalloc (sz : Z) : M (Z + Z) := on_hm (alloc sz).
Definition ualloc (p sz : Z) : M (Z + Z) :=
  s <- get ;; u <- deref (s_ums s !! p) ;;
  let '(r, u) := kmalloc sz u in
  modify (λ s, set_ums (<[p := u]> (s_ums s)) s) ;;; ret r.

Definition thread_new : M (Z * option Z) :=
  r <- kalloc SZ_THREAD ;;
  match r with
  | inl err => ret (err, None)
  | inr t =>
      modify (λ s, set_ths (<[t := ThreadX junk junk junk 0 junk_task 0]> (s_ths s)) s) ;;;
      on_sch (set_thread t (Schd.Thread junk UNSCHDED junk)) ;;;
      r <- on_tids (id_new t) ;;
      match r with
      | (err, Some i) => upd_th t (th_tid i) ;;; ret (err, Some t)
      | (err, None) => ret (err, None)
      end
  end.

(** [thread->proc = proc; list_push_back(&proc->thread_ls, &thread->proc_ln)]; the
    scheduler finds the page directory through the process. *)
Definition join (t proc : Z) : M unit :=
  upd_th t (th_proc proc) ;;;
  p <- proc_at proc ;;
  on_sch (x <- thread_at t ;; set_thread t (Schd.Thread (cpuid x) (t_state x) (p_pde p))) ;;;
  upd_proc proc (pr_threads (thread_ls p ++ [t])).

(** [args] are the [nargs] values that follow [nargs]; with more than five the task is
    left as it is. *)
Definition thread_kern_new (proc exe : Z) (args : list Z) : M (Z * option Z) :=
  let proc := if proc =? 0 then proc_0 img else proc in
  r <- thread_new ;;
  match r with
  | (err, None) => ret (err, None)
  | (_, Some t) =>
      r <- kalloc KERN_STACK_SIZE ;;
      match r with
      | inl err => ret (err, None)
      | inr stack =>
          upd_th t (th_stack stack KERN_STACK_SIZE) ;;;
          x <- th_at t ;;
          (if Z.of_nat (length args) <=? 5 then
             r <- on_mem (task_kern_init (t_task x) stack KERN_STACK_SIZE (enclosure img)
                            (exe :: Z.of_nat (length args) :: args)) ;;
             upd_th t (th_task (snd r))
           else ret tt) ;;;
          join t proc ;;;
          _ <- on_sch (schd_run t) ;;
          ret (E_OK, Some t)
      end
  end.

Definition thread_user_new (proc routine ustk_sz arga argsz : Z) : M (Z * option Z) :=
  r <- thread_new ;;
  match r with
  | (err, None) => ret (err, None)
  | (_, Some t) =>
      p0 <- proc_at (proc_0 img) ;; p <- proc_at proc ;;
      on_pt (on_mmu (mmu_sync_kern_space (p_pde p0) (p_pde p) t SZ_THREAD)) ;;;
      r <- kalloc KERN_STACK_SIZE ;;
      match r with
      | inl err => ret (err, None)
      | inr kstack =>
          upd_th t (th_stack kstack KERN_STACK_SIZE) ;;;
          on_pt (on_mmu (mmu_sync_kern_space (p_pde p0) (p_pde p) kstack KERN_STACK_SIZE)) ;;;
          r <- ualloc proc ustk_sz ;;
          match r with
          | inl err => ret (err, None)
          | inr ustk_a =>
              x <- th_at t ;;
              r <- on_mem (task_user_init (intr_ret img) (t_task x) kstack KERN_STACK_SIZE ustk_a ustk_sz
                             (pre_start img) routine arga argsz) ;;
              upd_th t (th_task (snd r)) ;;;
              join t proc ;;;
              _ <- on_sch (schd_run t) ;;
              ret (E_OK, Some t)
          end
      end
  end.

(** [intr_end()], and what the kernel's functions do. *)
Context (intr_end : M unit) (kcall : Z → list Z → M Z).

Definition pre : M unit := on_sch spin_unlock ;;; intr_end.

(** The words that follow [nargs] on the stack of the new thread. *)
Fixpoint stack_words (a : Z) (n : nat) : Prelude.M mem (list Z) :=
  match n with
  | O => ret []
  | S n => v <- rdw a ;; l <- stack_words (add32 a 4) n ;; ret (v :: l)
  end.

(** [sp] is the stack pointer at the entry: a return address, then the arguments. The
    thread ends in the scheduler's loop; with more than five arguments nothing is
    called. The stack is read where the source reads it, one call per arity. *)
Definition thread_enclosure (sp : Z) : M unit :=
  on_sch spin_unlock ;;; intr_end ;;;
  nargs <- on_mem (rdw (add32 sp 8)) ;;
  (if nargs <=? 5 then
     args <- on_mem (stack_words (add32 sp 12) (Z.to_nat nargs)) ;;
     func <- on_mem (rdw (add32 sp 4)) ;;
     err <- kcall func args ;; ret tt
   else ret tt) ;;;
  now <- thread_now ;;
  r <- on_sch (schd_kill cpu now) ;;
  match r with None => ret tt | Some _ => hang end.

Definition thread_free (t : Z) : M Z := ret E_OK.

(** [attr] is the address of a [struct thread_attr_t] in the caller's memory; the tests
    for NULL guard only the stack size. The new thread's address goes to [*tid]. *)
Definition A_STK_SZ : Z := 4.
Definition A_ARGA : Z := 8.
Definition A_ARGSZ : Z := 12.
Definition thread_sys_new (tidp routine attr : Z) : M Z :=
  ustk_sz <- (if attr =? 0 then ret DFT_STK_SZ else
              z <- on_mem (rdw (add32 attr A_STK_SZ)) ;;
              ret (if z =? 0 then DFT_STK_SZ else z)) ;;
  proc <- proc_now ;;
  arga <- on_mem (rdw (add32 attr A_ARGA)) ;; argsz <- on_mem (rdw (add32 attr A_ARGSZ)) ;;
  r <- thread_user_new proc routine ustk_sz arga argsz ;;
  match r with
  | (err, Some t) => (if tidp =? 0 then ret tt else on_mem (wrw tidp t)) ;;; ret err
  | (err, None) => ret err
  end.

(** One word of the stack of a forked thread. *)
Definition reloc (old size new v : Z) : Z :=
  if (old <=? v) && (v <? add32 old size) then add32 (sub32 v old) new else v.
Definition fork_body (old size new i : Z) : Prelude.M mem (Z + unit) :=
  if i <? KERN_STACK_SIZE / 4 then
    v <- rdw (add32 old (4 * i)) ;;
    wrw (add32 new (4 * i)) (reloc old size new v) ;;;
    ret (inl (i + 1))
  else ret (inr tt).
Definition fork_stack (old size new : Z) : Prelude.M mem unit :=
  loop (S (Z.to_nat (KERN_STACK_SIZE / 4))) (fork_body old size new) 0.

(** The state, the number and the context of the new structure are left as they come. *)
Definition thread_fork (junk_state : T_STATE) (t proc : Z) : M (Z * option Z) :=
  r <- kalloc SZ_THREAD ;;
  match r with
  | inl err => ret (err, None)
  | inr n =>
      modify (λ s, set_ths (<[n := ThreadX junk junk junk junk junk_task junk]> (s_ths s)) s) ;;;
      on_sch (set_thread n (Schd.Thread junk junk_state junk)) ;;;
      x <- th_at t ;;
      r <- kalloc (ks_size x) ;;
      match r with
      | inl err => ret (err, None)
      | inr stack =>
          upd_th n (th_stack stack (ks_size x)) ;;;
          upd_th n (λ y, th_task (set_stack stack (ks_size x) (t_task y)) y) ;;;
          on_mem (fork_stack (ks_addr x) (ks_size x) stack) ;;;
          join n proc ;;;
          ret (E_OK, Some n)
      end
  end.

Definition thread_sys_exit : M unit :=
  now <- thread_now ;;
  r <- on_sch (schd_kill cpu now) ;;
  match r with None => ret tt | Some _ => panic end.

(** A thread is named by its address, which the caller chooses. [None]: the caller
    blocks, and the call returns E_OK when it runs again. *)
Definition thread_sys_block (t : Z) : M (option Z) :=
  x <- th_at t ;; p <- proc_now ;;
  if negb (t_proc x =? p) then ret (Some E_INVAL) else
  on_sch (schd_block cpu t (ret tt)) ;;; ret None.
Definition thread_sys_tid (tidp : Z) : M Z :=
  t <- thread_now ;; on_mem (wrw tidp t) ;;; ret E_OK.
Definition thread_sys_wake (t : Z) : M Z :=
  x <- th_at t ;; p <- proc_now ;;
  if negb (t_proc x =? p) then ret E_INVAL else on_sch (schd_run t).
End code.
