(* ===== verification/Proc.v ===== *)
(** * Processes: kernel/proc/proc.c

    Creating a process from a program in memory, its end, and the system calls on
    processes. A process has a page directory (Ptb), a user heap, a list of threads, and a
    node in the list of processes; its argument block is that of Args. What waits is split
    where the calling thread leaves the processor: [others] is what runs until it returns. *)
From S2P Require Import Prelude Machine Mmu Ptb Kmalloc IdxAlct IdMap DList Cstring Words Blocks Args Desc Task Schd Elf Thread.

Definition SZ_PROC : Z := 196.
Definition PROC_NAME_MAX_LEN : Z := 32.
(** [name] in [struct proc_t] and in [struct proc_info_t]. *)
Definition P_NAME : Z := 4.
Definition SZ_PINFO : Z := 36.

Section code.
Context {A K U P : Type} `{IdMap A} `{Kmalloc K} {KU : Kmalloc U} `{PageAlloc P}.
Context (cpu : Z) (img : image_t) (junk : Z) (junk_task : task_t).
(** What [um_init] makes of a new [struct um_t], or its error. *)
Context (um_new : Z + U).
Abbreviation st := (sys A K U P).
Abbreviation M := (Prelude.M st).
Implicit Types s : st.

Definition pr_pid i (x : proc_t) := Proc i (p_pde x) (thread_ls x) (wait_t x) (exit_state x).
Definition pr_pde d (x : proc_t) := Proc (pid x) d (thread_ls x) (wait_t x) (exit_state x).
Definition pr_wait w (x : proc_t) := Proc (pid x) (p_pde x) (thread_ls x) w (exit_state x).
Definition pr_exit e (x : proc_t) := Proc (pid x) (p_pde x) (thread_ls x) (wait_t x) e.

(** "kernal process" *)
Definition p0_name : list Z := [107; 101; 114; 110; 97; 108; 32; 112; 114; 111; 99; 101; 115; 115; 0].
Definition p0_init : M Z :=
  on_mem (store (add32 (proc_0 img) P_NAME) p0_name) ;;;
  upd_proc (proc_0 img) (pr_pid 0) ;;;
  upd_proc (proc_0 img) (pr_threads []) ;;;
  r <- on_pids (id_new (proc_0 img)) ;;
  match r with
  | (err, Some i) => upd_proc (proc_0 img) (pr_pid i) ;;; ret err
  | (err, None) => ret err
  end.

Definition proc_new (name : Z) : M (Z * option Z) :=
  r <- kalloc SZ_PROC ;;
  match r with
  | inl err => ret (err, None)
  | inr p =>
      modify (λ s, set_procs (<[p := Proc junk junk [] junk junk]> (s_procs s)) s) ;;;
      modify (λ s, set_ln (<[p := LNode junk junk]> (s_ln s)) s) ;;;
      on_mem (memset (add32 p P_NAME) 0 PROC_NAME_MAX_LEN) ;;;
      n <- on_mem (strlen_s name PROC_NAME_MAX_LEN) ;;
      on_mem (strcpy (add32 p P_NAME) name n) ;;;
      p0 <- proc_at (proc_0 img) ;;
      r <- on_pt (ptb_setup (p_pde p0)) ;;
      match r with
      | (err, None) => ret (err, None)
      | (_, Some pde) =>
          upd_proc p (pr_pde pde) ;;;
          match um_new with
          | inl err => ret (err, None)
          | inr u =>
              modify (λ s, set_ums (<[p := u]> (s_ums s)) s) ;;;
              r <- on_pids (id_new p) ;;
              match r with
              | (err, None) => ret (err, None)
              | (err, Some i) =>
                  upd_proc p (pr_pid i) ;;;
                  upd_proc p (pr_wait 0) ;;;
                  on_ln (list_push_back (proc_ls img) p) ;;;
                  ret (err, Some p)
              end
          end
      end
  end.

(** What runs with the user heap of a process. *)
Definition on_um {B} (p : Z) (m : Prelude.M (hmem U) B) : M B :=
  s <- get ;; u <- deref (s_ums s !! p) ;;
  zoom (λ s, Hmem (hm_mem (s_hm s)) u)
    (λ x s, set_ums (<[p := hm_heap x]> (s_ums s)) (set_hm (Hmem (hm_mem x) (hm_heap (s_hm s))) s)) m.

(** The first thread of a process, in kernel mode. *)
Definition inner_setup_uthread_from_mm_thread (start size args : Z) : M Z :=
  let size := ROUND_UP size PAGE_SIZE in
  proc <- proc_now cpu ;;
  r <- ualloc proc size ;;
  assert_ (match r with inr exea => exea =? 0 | inl _ => false end) ;;;
  err <- on_mem (elf_read start) ;;
  assert_ (err =? E_OK) ;;;
  _ <- on_mem (elf_load start 0) ;;
  err <- on_um proc (args_unpack args) ;;
  if negb (err =? E_OK) then ret err else
  proc <- proc_now cpu ;;
  r <- thread_user_new img junk junk_task proc 0 DFT_STK_SZ 0 0 ;;
  assert_ (fst r =? E_OK) ;;;
  ret 0.

(** [wait] is the thread to wake when the process ends, or NULL; [others] runs while the
    caller is blocked. *)
Definition proc_create_from_mm (others : M unit) (name exea exes argv envp wait res : Z) : M Z :=
  n <- on_mem (strlen_s name PROC_NAME_MAX_LEN) ;;
  if n =? PROC_NAME_MAX_LEN then ret E_TOOLONG else
  r <- proc_new name ;;
  match r with
  | (err, None) => ret err
  | (_, Some proc) =>
      r <- on_hm (args_pack argv envp) ;;
      match r with
      | inl err => ret err
      | inr args =>
          (if wait =? 0 then ret tt else
             upd_proc proc (pr_exit res) ;;; upd_proc proc (pr_wait wait)) ;;;
          r <- thread_kern_new img junk junk_task proc (inner_start img) [exea; exes; args] ;;
          (if wait =? 0 then ret tt else
             now <- thread_now cpu ;;
             on_sch (schd_block cpu now (ret tt)) ;;; others) ;;;
          ret (fst r)
      end
  end.

(** [struct proc_create_attr_t] *)
Definition A_ARGV : Z := 32.
Definition A_ENVP : Z := 36.
Definition A_WAIT : Z := 40.

(** [srv_kern_call("fssrv/read", &replyee, path, strlen(path) + 1)]: its result, and
    [err], [cache] and [sz\[0\]] of the answer; [stk] is where [res_err] is. *)
Definition proc_sys_create (srv_read : Z → Z → M (Z * (Z * Z * Z))) (others : M unit) (stk path attr res : Z) : M Z :=
  n <- on_mem (strlen path) ;;
  r <- srv_read path (add32 n 1) ;;
  let '(err, (rerr, cache, sz0)) := r in
  if negb (err =? E_OK) then ret err else
  if negb (rerr =? E_OK) then ret rerr else
  let attr := if attr =? 0 then dft_attr img else attr in
  iswait <- on_mem (rdw (add32 attr A_WAIT)) ;;
  argv <- on_mem (rdw (add32 attr A_ARGV)) ;; envp <- on_mem (rdw (add32 attr A_ENVP)) ;;
  if negb (iswait =? 0) then
    on_mem (wrw stk E_OK) ;;;
    now <- thread_now cpu ;;
    err <- proc_create_from_mm others attr cache sz0 argv envp now stk ;;
    e <- on_mem (rdw stk) ;; on_mem (wrw res e) ;;;
    ret err
  else proc_create_from_mm others attr cache sz0 argv envp 0 0.

(** The loops of [proc_sys_exit] and [proc_sys_kill] over [thread_ls]; no thread is taken
    out of that list while they run. *)
Fixpoint kill_each (skip : Z → bool) (l : list Z) : M unit :=
  match l with
  | [] => ret tt
  | t :: l =>
      (if skip t then ret tt else
       th <- on_sch (thread_at t) ;;
       if bool_decide (t_state th = KILLED) then ret tt else
       _ <- on_sch (schd_kill cpu t) ;; ret tt) ;;;
      kill_each skip l
  end.

(** It does not return. *)
Definition proc_sys_exit (err : Z) : M unit :=
  proc <- proc_now cpu ;; p <- proc_at proc ;; now <- thread_now cpu ;;
  kill_each (λ t, t =? now) (thread_ls p) ;;;
  (if wait_t p =? 0 then ret tt else
     on_mem (wrw (exit_state p) err) ;;;
     _ <- on_sch (schd_run (wait_t p)) ;; ret tt) ;;;
  on_ln (DList.list_delete proc) ;;;
  now <- thread_now cpu ;;
  r <- on_sch (schd_kill cpu now) ;;
  match r with None => ret tt | Some _ => panic end.

(** The entries: [pid], then [name]. *)
Fixpoint info_fill (info : Z) (l : list Z) : M unit :=
  match l with
  | [] => on_mem (wrw info 0)
  | p :: l =>
      x <- proc_at p ;;
      on_mem (wrw info (pid x)) ;;;
      on_mem (memcpy (add32 info P_NAME) (add32 p P_NAME) PROC_NAME_MAX_LEN) ;;;
      info_fill (add32 info SZ_PINFO) l
  end.
Definition proc_sys_info (infop : Z) : M Z :=
  l <- on_ln (list_rep (proc_ls img)) ;;
  proc <- proc_now cpu ;;
  r <- ualloc proc (mul32 SZ_PINFO (Z.of_nat (length l) + 1)) ;;
  match r with
  | inl err => ret err
  | inr info =>
      l <- on_ln (list_rep (proc_ls img)) ;;
      info_fill info l ;;;
      on_mem (wrw infop info) ;;; ret E_OK
  end.

Definition proc_sys_kill (i : Z) : M Z :=
  now <- proc_now cpu ;; x <- proc_at now ;;
  if pid x =? i then ret E_INVAL else
  r <- on_pids (id_find i) ;;
  match r with
  | (err, None) => ret err
  | (err, Some proc) =>
      p <- proc_at proc ;;
      kill_each (λ _, false) (thread_ls p) ;;;
      on_ln (DList.list_delete proc) ;;;
      ret err
  end.

Definition proc_id : M Z := p <- proc_now cpu ;; x <- proc_at p ;; ret (pid x).
Definition proc_switch (p : Z) : M Z :=
  x <- proc_at p ;; on_sch (Schd.proc_switch cpu (p_pde x)) ;;; ret E_OK.

(** [um_fork] on the user heaps of the two processes (Um), the name [bug] and what the
    state of a fresh thread holds. Nothing looks at the value the function ends without. *)
Fixpoint fork_each (junk_state : T_STATE) (pn : Z) (l : list Z) : M unit :=
  match l with
  | [] => ret tt
  | t :: l =>
      r <- thread_fork junk junk_task junk_state t pn ;;
      assert_ (fst r =? E_OK) ;;;
      fork_each junk_state pn l
  end.
Fixpoint run_each (l : list Z) : M unit :=
  match l with
  | [] => ret tt
  | t :: l => _ <- on_sch (schd_run t) ;; run_each l
  end.
Definition do_fork (um_fork : Z → Z → M Z) (bug : Z) (junk_state : T_STATE) (po : Z) : M unit :=
  r <- proc_new bug ;;
  assert_ (fst r =? E_OK) ;;;
  pn <- deref (snd r) ;;
  p0 <- proc_at (proc_0 img) ;;
  r <- on_pt (ptb_fork (p_pde p0)) ;;
  assert_ (fst r =? E_OK) ;;;
  pde <- deref (snd r) ;; upd_proc pn (pr_pde pde) ;;;
  p <- proc_at po ;;
  fork_each junk_state pn (thread_ls p) ;;;
  _ <- um_fork po pn ;;
  p <- proc_at pn ;;
  run_each (thread_ls p) ;;;
  _ <- on_sch (schd_wake 555) ;; ret tt.
(** [fork_start] is the address of [do_fork]. *)
Definition proc_fork (fork_start resp : Z) : M Z :=
  p <- proc_now cpu ;;
  _ <- thread_kern_new img junk junk_task (proc_0 img) fork_start [p] ;;
  now <- thread_now cpu ;;
  _ <- on_sch (schd_sleep now 555) ;;
  p <- proc_now cpu ;; on_mem (wrw resp p) ;;; ret E_OK.

(** The two programs that are part of the kernel's image: name, start and size;
    [ids] and [tids] are what [idx_aclt_init] makes of the two index allocators. The
    system calls are registered by [proc_register] and [thread_register] of Trap. *)
Definition proc_init (ids tids : A) (programs : list (Z * Z * Z)) : M Z :=
  modify (set_pids ids) ;;;
  on_ln (list_init (proc_ls img)) ;;;
  err <- p0_init ;;
  assert_ (err =? E_OK) ;;;
  modify (set_tids tids) ;;;
  on_sch schd_init ;;;
  fold_right (λ '(name, start, size) m,
      err <- proc_create_from_mm (ret tt) name start size 0 0 0 0 ;;
      assert_ (err =? E_OK) ;;; m) (ret E_OK) programs.
End code.
