(* ===== verification/ProcSpec.v ===== *)
(** * The end of a process: proc_sys_exit and proc_sys_kill

    What the two leave of the threads, the run queue, the waiting creator and the list of
    processes, and when they stop the kernel. *)
From S2P Require Import Prelude Machine Mmu Ptb Kmalloc IdxAlct IdMap DList Cstring Words Blocks Args Desc Task Schd Thread Proc.

(** ** Killing the threads of a list *)
Definition condemned (skip : Z → bool) (l : list Z) (t : Z) : Prop := t ∈ l ∧ skip t = false.
#[export] Instance condemned_dec skip l t : Decision (condemned skip l t).
Proof. unfold condemned. apply _. Defined.

(** [schd_kill] returns on the thread, or it is not called. *)
Definition stoppable (sc : schd_t) (skip : Z → bool) (t : Z) : bool :=
  skip t || match threads sc !! t with
            | Some th => bool_decide (t_state th = RUNNABEL) || bool_decide (t_state th = KILLED)
            | None => false
            end.

Record killed (skip : Z → bool) (l : list Z) (sc sc' : schd_t) : Prop := {
  kd_inv : schd_inv sc';
  kd_cur : cur sc' = cur sc ∧ cr3 sc' = cr3 sc;
  kd_threads : ∀ t, threads sc' !! t =
    if decide (condemned skip l t) then (λ th, with_state th KILLED) <$> threads sc !! t else threads sc !! t;
  kd_queue : runnable sc' = filter (λ t, ¬ condemned skip l t) (runnable sc);
}.

Lemma filter_all {B} (P : B → Prop) `{∀ x, Decision (P x)} (l : list B) : (∀ x, x ∈ l → P x) → filter P l = l.
Proof.
  induction l as [|x l IH]; intros Hl; [done|]. rewrite filter_cons_True by (apply Hl; by left).
  f_equal. apply IH. intros y Hy. apply Hl. by right.
Qed.

Lemma killed_nil skip sc : schd_inv sc → killed skip [] sc sc.
Proof.
  intros HI. split; [done|done| |].
  - intros t. rewrite decide_False; [done|]. intros [Ht _]. by apply not_elem_of_nil in Ht.
  - symmetry. apply filter_all. intros t _ [Ht _]. by apply not_elem_of_nil in Ht.
Qed.

(** One more thread: skipped, or already dead, or taken out of the queue. *)
Lemma killed_skip skip t l sc sc' : skip t = true → killed skip l sc sc' → killed skip (t :: l) sc sc'.
Proof.
  intros Hs [K1 K2 K3 K4]. assert (∀ u, condemned skip (t :: l) u ↔ condemned skip l u) as He.
  { intros u. unfold condemned. rewrite elem_of_cons. split; [|tauto]. intros [[->|Hu] Hsk]; [congruence|done]. }
  split; [done|done| |].
  - intros u. rewrite K3. by apply decide_ext.
  - rewrite K4. apply list_filter_iff. intros u. by rewrite He.
Qed.

Lemma killed_cons skip t l sc sc1 sc' : skip t = false → killed skip [t] sc sc1 → killed skip l sc1 sc' →
  killed skip (t :: l) sc sc'.
Proof.
  intros Hs [A1 [A2 A3] A4 A5] [B1 [B2 B3] B4 B5].
  assert (∀ u, condemned skip (t :: l) u ↔ condemned skip [t] u ∨ condemned skip l u) as He.
  { intros u. unfold condemned. rewrite !elem_of_cons, elem_of_nil. tauto. }
  split; [done|by rewrite B2, B3| |].
  - intros u. rewrite B4, A4. destruct (decide (condemned skip l u)) as [H1|H1], (decide (condemned skip [t] u)) as [H2|H2].
    + rewrite decide_True by (apply He; by left). by destruct (threads sc !! u).
    + rewrite decide_True by (apply He; by right). done.
    + rewrite decide_True by (apply He; by left). done.
    + rewrite decide_False; [done|]. by intros [?|?]%He.
  - rewrite B5, A5, list_filter_filter. apply list_filter_iff. intros u. rewrite He. tauto.
Qed.

Lemma killed_stoppable skip t (l : list Z) sc sc1 : killed skip [t] sc sc1 → stoppable sc skip t = true →
  ∀ u, u ∈ l → stoppable sc1 skip u = stoppable sc skip u.
Proof.
  intros Hk Ht u _. unfold stoppable in *. rewrite (kd_threads _ _ _ _ Hk).
  destruct (decide (condemned skip [t] u)) as [[->%list_elem_of_singleton Hs]|Hn]; [|done].
  rewrite Hs in *. simpl in *. destruct (threads sc !! t); [|done]. simpl. by rewrite Ht.
Qed.

Section kill.
Context {A K U P : Type} `{IdMap A} `{Kmalloc K} {KU : Kmalloc U} `{PageAlloc P}.
Context (cpu : Z).
Abbreviation st := (sys A K U P).
Implicit Types s : st.

Lemma kill_one skip t now s : schd_inv (s_sch s) → cur (s_sch s) !! cpu = Some (Some now) → skip t = false → t ≠ now →
  is_Some (threads (s_sch s) !! t) →
  if stoppable (s_sch s) skip t
  then ∃ sc', killed skip [t] (s_sch s) sc' ∧ (th <- on_sch (thread_at t) ;;
        if bool_decide (t_state th = KILLED) then ret tt else _ <- on_sch (schd_kill cpu t) ;; ret tt) s = Ret tt (set_sch sc' s)
  else (th <- on_sch (thread_at t) ;;
        if bool_decide (t_state th = KILLED) then ret tt else _ <- on_sch (schd_kill cpu t) ;; ret tt) s = Panic.
Proof.
  intros HI Hc Hs Hne [th Ht]. unfold stoppable. rewrite Hs, Ht. simpl.
  assert ((th0 <- on_sch (thread_at t) ;; if bool_decide (t_state th0 = KILLED) then ret tt else _ <- on_sch (schd_kill cpu t) ;; ret tt) s
    = (if bool_decide (t_state th = KILLED) then ret tt else _ <- on_sch (schd_kill cpu t) ;; ret tt) s) as ->.
  { unfold on_sch, zoom, bind, thread_at, bind, get, deref. rewrite Ht. simpl. by destruct s. }
  assert (∀ u, condemned skip [t] u ↔ u = t) as Hone.
  { intros u. unfold condemned. rewrite list_elem_of_singleton. split; [tauto|by intros ->]. }
  destruct (bool_decide_reflect (t_state th = KILLED)) as [Ek|Ek].
  { rewrite orb_true_r. exists (s_sch s). split; [|by destruct s]. split; [done|done| |].
    - intros u. destruct (decide (condemned skip [t] u)) as [->%Hone|]; [|done]. rewrite Ht. destruct th; simpl in *. by subst.
    - symmetry. apply filter_all. intros u Hu ->%Hone. apply (si_queue _ HI) in Hu as (y & ? & ?). congruence. }
  rewrite orb_false_r. unfold on_sch, zoom, bind. rewrite run_schd_kill by done. unfold kill_result. rewrite Ht, Hc.
  destruct (t_state th) eqn:Es; simpl; try done.
  - eexists. split; [|done]. split; [by apply inv_kill_queued|done| |].
    + intros u. cbn [threads]. destruct (decide (u = t)) as [->|Hu].
      * rewrite lookup_insert_eq, decide_True by (by apply Hone). by rewrite Ht.
      * rewrite lookup_insert_ne, decide_False; [done|by intros ?%Hone|done].
    + cbn [runnable]. apply list_filter_iff. intros u. by rewrite Hone.
  - destruct (Z.eqb_spec t now); done.
Qed.

Lemma kill_each_spec skip l now : ∀ s, schd_inv (s_sch s) → cur (s_sch s) !! cpu = Some (Some now) →
  (∀ t, t ∈ l → skip t = false → t ≠ now ∧ is_Some (threads (s_sch s) !! t)) →
  if forallb (stoppable (s_sch s) skip) l
  then ∃ sc', killed skip l (s_sch s) sc' ∧ kill_each cpu skip l s = Ret tt (set_sch sc' s)
  else kill_each cpu skip l s = Panic.
Proof.
  induction l as [|t l IH]; intros s HI Hc Hl; cbn [forallb kill_each].
  { exists (s_sch s). split; [by apply killed_nil|by destruct s]. }
  destruct (skip t) eqn:Hs.
  - unfold stoppable at 1. rewrite Hs. simpl. specialize (IH s HI Hc).
    assert (∀ u, u ∈ l → skip u = false → u ≠ now ∧ is_Some (threads (s_sch s) !! u)) as Hl' by (intros u Hu; apply Hl; by right).
    specialize (IH Hl'). unfold bind, ret. destruct (forallb _ l); [|done].
    destruct IH as (sc' & Hk & He). exists sc'. split; [by apply killed_skip|done].
  - destruct (Hl t ltac:(left) Hs) as [Hne Hsome]. pose proof (kill_one skip t now s HI Hc Hs Hne Hsome) as H1'.
    destruct (stoppable (s_sch s) skip t) eqn:Hst; simpl; [|by unfold bind at 1; rewrite H1'].
    destruct H1' as (sc1 & Hk1 & He1).
    assert (forallb (stoppable (s_sch s) skip) l = forallb (stoppable sc1 skip) l) as ->.
    { pose proof (killed_stoppable _ _ l _ _ Hk1 Hst) as Hsame. clear -Hsame. induction l as [|u l IH]; [done|]. simpl.
      rewrite Hsame by left. f_equal. apply IH. intros v Hv. apply Hsame. by right. }
    specialize (IH (set_sch sc1 s)). cbn [s_sch set_sch] in IH.
    assert (∀ u, u ∈ l → skip u = false → u ≠ now ∧ is_Some (threads sc1 !! u)) as Hl1.
    { intros u Hu Hsu. destruct (Hl u ltac:(by right) Hsu) as [Hun Hus]. split; [done|].
      rewrite (kd_threads _ _ _ _ Hk1). case_decide; [by apply fmap_is_Some|done]. }
    specialize (IH (kd_inv _ _ _ _ Hk1)). rewrite (proj1 (kd_cur _ _ _ _ Hk1)) in IH. specialize (IH Hc Hl1).
    destruct (forallb (stoppable sc1 skip) l).
    + destruct IH as (sc' & Hk & He). exists sc'. split; [by eapply killed_cons|]. unfold bind at 1. rewrite He1. by rewrite He.
    + unfold bind at 1. by rewrite He1.
Qed.
End kill.

(** ** proc_sys_exit *)
Lemma filter_ext_in {B} (P1 P2 : B → Prop) `{∀ x, Decision (P1 x), ∀ x, Decision (P2 x)} (l : list B) :
  (∀ x, x ∈ l → P1 x ↔ P2 x) → filter P1 l = filter P2 l.
Proof.
  induction l as [|x l IH]; intros Hl; [done|]. pose proof (Hl x ltac:(left)) as Hx.
  rewrite !filter_cons, IH by (intros y Hy; apply Hl; by right). repeat case_decide; tauto.
Qed.

(** The creator that waits can be made runnable. *)
Definition wakeable (sc : schd_t) (w : Z) : bool :=
  (w =? 0) || match threads sc !! w with
              | Some th => bool_decide (t_state th = UNSCHDED) || bool_decide (t_state th = BLOCKED)
              | None => false
              end.

Section exits.
Context {A K U P : Type} `{IdMap A} `{Kmalloc K} {KU : Kmalloc U} `{PageAlloc P}.
Context (cpu : Z) (img : image_t).
Abbreviation st := (sys A K U P).
Implicit Types s : st.

(** Process [proc] with the list [p] of threads, in its place in the list of processes;
    thread [now] runs here. *)
Record lives s (now proc : Z) (p : proc_t) (l1 l2 : list Z) : Prop := {
  lv_sched : schd_inv (s_sch s);
  lv_now : cur (s_sch s) !! cpu = Some (Some now);
  lv_proc : s_procs s !! proc = Some p;
  lv_threads : ∀ t, t ∈ thread_ls p → is_Some (threads (s_sch s) !! t);
  lv_list : dlist (s_ln s) (proc_ls img) (l1 ++ proc :: l2);
}.

(** Who waits for its end, if anybody, and where it wants the result. *)
Record awaited s (now : Z) (p : proc_t) : Prop := {
  aw_other : wait_t p ≠ now ∧ (wait_t p ∉ thread_ls p) ∧ is_Some (threads (s_sch s) !! wait_t p);
  aw_place : mapped (hm_mem (s_hm s)) (exit_state p) 4 ∧ 0 ≤ exit_state p ∧ exit_state p + 4 ≤ W32;
}.

Definition result_kept s (p : proc_t) (err : Z) s' : Prop :=
  if wait_t p =? 0 then hm_mem (s_hm s') = hm_mem (s_hm s)
  else word (hm_mem (s_hm s')) (exit_state p) err ∧ only (exit_state p) 4 (hm_mem (s_hm s)) (hm_mem (s_hm s')).

(** What [proc_sys_exit] leaves of the threads. *)
Definition fate (now : Z) (p : proc_t) (sc : schd_t) (t : Z) : option thread_t :=
  if decide (t ∈ now :: thread_ls p) then (λ th, with_state th KILLED) <$> threads sc !! t
  else if decide (wait_t p ≠ 0 ∧ t = wait_t p) then (λ th, with_state th RUNNABEL) <$> threads sc !! t
  else threads sc !! t.

Lemma run_on_sch {B} (m : M schd_t B) s a sc : m (s_sch s) = Ret a sc → on_sch m s = Ret a (set_sch sc s).
Proof. intros Hm. unfold on_sch, zoom. by rewrite Hm. Qed.
Lemma run_thread_now s now : cur (s_sch s) !! cpu = Some (Some now) → thread_now cpu s = Ret now s.
Proof. intros Hc. unfold thread_now, on_sch, zoom, Schd.thread_now, bind, get, deref. rewrite Hc. by destruct s. Qed.
Lemma run_proc_now s now x : cur (s_sch s) !! cpu = Some (Some now) → s_ths s !! now = Some x → proc_now cpu s = Ret (t_proc x) s.
Proof.
  intros Hc Hx. unfold proc_now. rewrite (run_bind _ _ _ _ _ (run_thread_now _ _ Hc)).
  unfold th_at, bind, get, deref. by rewrite Hx.
Qed.
Lemma run_proc_at s p x : s_procs s !! p = Some x → proc_at p s = Ret x s.
Proof. intros Hp. unfold proc_at, bind, get, deref. by rewrite Hp. Qed.
Lemma run_store s a v : mapped (hm_mem (s_hm s)) a 4 → 0 ≤ a → a + 4 ≤ W32 → ∃ m',
  on_mem (wrw a v) s = Ret tt (set_hm (Hmem m' (hm_heap (s_hm s))) s) ∧ word m' a v ∧ only a 4 (hm_mem (s_hm s)) m'.
Proof.
  intros Hm Ha Hw. destruct (store_only (hm_mem (s_hm s)) a (bytes4 v)) as (m' & Hs & Hh & Ho); [done|done|done|apply bytes4_ok|].
  exists m'. split; [|done]. unfold on_mem, on_hm, in_mem, zoom. unfold wrw. by rewrite Hs.
Qed.
Lemma run_unlist s l1 x l2 hd : dlist (s_ln s) hd (l1 ++ x :: l2) → ∃ ln', dlist ln' hd (l1 ++ l2) ∧
  on_ln (DList.list_delete x) s = Ret tt (set_ln ln' s).
Proof.
  intros Hd. pose proof (list_delete_spec _ _ _ _ _ Hd) as Hw. unfold wp in Hw. unfold on_ln, zoom.
  destruct (DList.list_delete x (s_ln s)) as [[] ln'| | |]; try done. exists ln'. by split; [apply Hw|].
Qed.

(** The last step: the thread that runs here dies. *)
Lemma run_kill_self s now : schd_inv (s_sch s) → cur (s_sch s) !! cpu = Some (Some now) → ∃ th,
  threads (s_sch s) !! now = Some th ∧ t_state th = RUNNING ∧
  schd_inv (off cpu now th KILLED (runnable (s_sch s)) (s_sch s)) ∧
  on_sch (schd_kill cpu now) s = Ret None (set_sch (off cpu now th KILLED (runnable (s_sch s)) (s_sch s)) s).
Proof.
  intros HI Hc. pose proof Hc as (th & Ht & Hs & Hcp)%(si_cur _ HI). exists th. split_and!; [done|done| |].
  - apply inv_off; auto.
  - apply run_on_sch. rewrite run_schd_kill by done. unfold kill_result. by rewrite Ht, Hs, Hc, Z.eqb_refl.
Qed.

Definition wake_waiter (p : proc_t) (err : Z) : M st unit :=
  if wait_t p =? 0 then ret tt else
  on_mem (wrw (exit_state p) err) ;;; _ <- on_sch (schd_run (wait_t p)) ;; ret tt.

Record woken s (p : proc_t) err s' : Prop := {
  wk_inv : schd_inv (s_sch s');
  wk_cur : cur (s_sch s') = cur (s_sch s);
  wk_threads : ∀ t, threads (s_sch s') !! t = if decide (wait_t p ≠ 0 ∧ t = wait_t p)
    then (λ th, with_state th RUNNABEL) <$> threads (s_sch s) !! t else threads (s_sch s) !! t;
  wk_queue : runnable (s_sch s') = runnable (s_sch s) ++ (if wait_t p =? 0 then [] else [wait_t p]);
  wk_result : result_kept s p err s';
  wk_ln : s_ln s' = s_ln s;
}.

Lemma run_wake s p err now : schd_inv (s_sch s) → (wait_t p ≠ 0 → awaited s now p) →
  if wakeable (s_sch s) (wait_t p) then ∃ s', wake_waiter p err s = Ret tt s' ∧ woken s p err s'
  else wake_waiter p err s = Panic.
Proof using Type.
  intros HI Haw. unfold wakeable, wake_waiter. destruct (Z.eqb_spec (wait_t p) 0) as [H0'|Hne]; simpl.
  { exists s. split; [done|]. split; [done|done| | | |done].
    - intros t. rewrite decide_False; [done|]. by intros [? _].
    - rewrite H0'. by rewrite app_nil_r.
    - unfold result_kept. by rewrite H0'. }
  destruct (Haw Hne) as [(_ & _ & th & Ht) (A1 & A2 & A3)].
  destruct (run_store s (exit_state p) err A1 A2 A3) as (m' & Hr & Hw & Ho). rewrite (run_bind _ _ _ _ _ Hr).
  set (s1 := set_hm _ s). rewrite Ht.
  assert (schd_run (wait_t p) (s_sch s1) = run_result (wait_t p) (s_sch s)) as Hrun by by apply run_schd_run.
  unfold run_result in Hrun. rewrite Ht in Hrun.
  destruct (bool_decide (t_state th = UNSCHDED) || bool_decide (t_state th = BLOCKED)) eqn:Hb.
  - rewrite (run_bind _ _ _ _ _ (run_on_sch _ _ _ _ Hrun)). eexists. split; [done|].
    assert (t_state th = UNSCHDED ∨ t_state th = BLOCKED) as Hst.
    { apply orb_true_iff in Hb as [Hb|Hb]; apply bool_decide_eq_true in Hb; [by left|by right]. }
    split; cbn [s_sch s_ln s_hm set_sch s1 set_hm].
    + by apply inv_queued.
    + done.
    + intros t. cbn [threads queued]. destruct (decide (wait_t p ≠ 0 ∧ t = wait_t p)) as [[_ ->]|Hn].
      * by rewrite lookup_insert_eq, Ht.
      * rewrite lookup_insert_ne; [done|]. intros <-. tauto.
    + cbn [runnable queued]. by destruct (Z.eqb_spec (wait_t p) 0).
    + unfold result_kept. by destruct (Z.eqb_spec (wait_t p) 0).
    + done.
  - apply run_panic. unfold on_sch, zoom. by rewrite Hrun.
Qed.

(** C36: [proc_sys_exit] ends the process it is called in and nothing else: every
    other thread of the process leaves the run queue and is KILLED, a creator that
    waits finds the exit code where it asked for it and becomes RUNNABEL as the last of
    the queue, the process leaves the list of processes, the calling thread is KILLED and
    its processor is back in its scheduler loop; no thread of another process changes.
    This is so exactly when each of the other threads is RUNNABEL or dead already and the
    waiting creator has blocked: with a thread of the process blocked or running on
    another processor, or a creator that has not blocked yet, the kernel stops. *)
Theorem proc_exit_correct s now x p l1 l2 err :
  lives s now (t_proc x) p l1 l2 → s_ths s !! now = Some x → (wait_t p ≠ 0 → awaited s now p) →
  if forallb (stoppable (s_sch s) (λ t, t =? now)) (thread_ls p) && wakeable (s_sch s) (wait_t p)
  then wp (proc_sys_exit cpu err) (λ _ s', schd_inv (s_sch s') ∧ cur (s_sch s') = <[cpu := None]> (cur (s_sch s)) ∧
    (∀ t, threads (s_sch s') !! t = fate now p (s_sch s) t) ∧
    runnable (s_sch s') = filter (λ t, t ∉ thread_ls p) (runnable (s_sch s)) ++ (if wait_t p =? 0 then [] else [wait_t p]) ∧
    result_kept s p err s' ∧ dlist (s_ln s') (proc_ls img) (l1 ++ l2)) s
  else proc_sys_exit cpu err s = Panic.
Proof.
  intros [HI Hc Hp Hls Hln] Hx Haw. unfold proc_sys_exit, wp.
  rewrite (run_bind _ _ _ _ _ (run_proc_now _ _ _ Hc Hx)), (run_bind _ _ _ _ _ (run_proc_at _ _ _ Hp)),
    (run_bind _ _ _ _ _ (run_thread_now _ _ Hc)). fold (wake_waiter p err).
  pose proof (kill_each_spec cpu (λ t, t =? now) (thread_ls p) now s HI Hc) as Hk.
  destruct (forallb _ (thread_ls p)); simpl.
  2:{ apply run_panic, Hk. intros t Ht Hs. split; [lia|by apply Hls]. }
  destruct Hk as (sc1 & Hk & Hr); [intros t Ht Hs; split; [lia|by apply Hls]|]. rewrite (run_bind _ _ _ _ _ Hr). clear Hr.
  destruct Hk as [K1 [K2 _] K3 K4].
  assert (∀ t, condemned (λ t, t =? now) (thread_ls p) t ↔ t ∈ thread_ls p ∧ t ≠ now) as Hcon.
  { intros t. unfold condemned. by rewrite Z.eqb_neq. }
  assert (wait_t p ≠ 0 → threads sc1 !! wait_t p = threads (s_sch s) !! wait_t p) as Hwt.
  { intros Hne. destruct (Haw Hne) as [(_ & ? & _) _]. rewrite K3, decide_False; [done|]. by intros [? _]%Hcon. }
  assert (wakeable (s_sch s) (wait_t p) = wakeable sc1 (wait_t p)) as ->.
  { unfold wakeable. destruct (Z.eqb_spec (wait_t p) 0); [done|]. by rewrite Hwt. }
  pose proof (run_wake (set_sch sc1 s) p err now K1) as Hwk. cbn [s_sch set_sch] in Hwk.
  assert (wait_t p ≠ 0 → awaited (set_sch sc1 s) now p) as Haw1.
  { intros Hne. destruct (Haw Hne) as [(A1 & A2 & A3) A4]. split; [|done]. split_and!; [done|done|]. cbn [s_sch set_sch].
    by rewrite Hwt. }
  specialize (Hwk Haw1). destruct (wakeable sc1 (wait_t p)); [|by apply run_panic].
  destruct Hwk as (s2 & Hr & [W1 W2 W3 W4 W5 W6]). rewrite (run_bind _ _ _ _ _ Hr). clear Hr. cbn [s_sch set_sch s_ln] in *.
  destruct (run_unlist s2 l1 (t_proc x) l2 (proc_ls img)) as (ln' & Hln' & Hr); [by rewrite W6|].
  rewrite (run_bind _ _ _ _ _ Hr). clear Hr. set (s3 := set_ln ln' s2).
  assert (cur (s_sch s3) !! cpu = Some (Some now)) as Hc3 by (unfold s3; cbn [s_sch set_ln]; by rewrite W2, K2).
  rewrite (run_bind _ _ _ _ _ (run_thread_now s3 now Hc3)).
  destruct (run_kill_self s3 now W1 Hc3) as (th & Ht & Hst & HI4 & Hr). rewrite (run_bind _ _ _ _ _ Hr). clear Hr.
  unfold ret. cbn [s_sch set_sch s_ln set_ln s3] in *. split_and!; [done| | | | |done].
  - cbn [cur off]. by rewrite W2, K2.
  - intros t. cbn [threads off]. unfold fate. destruct (decide (t = now)) as [->|Hne].
    + rewrite lookup_insert_eq, decide_True by left. rewrite W3, decide_False in Ht.
      2:{ intros [Hw0 Hnw]. destruct (Haw Hw0) as [(? & _) _]. congruence. }
      rewrite K3, decide_False in Ht by (by intros [_ ?]%Hcon). by rewrite Ht.
    + rewrite lookup_insert_ne, W3, K3 by done.
      destruct (decide (t ∈ now :: thread_ls p)) as [[?|Hin]%elem_of_cons|Hnin]; [done| |].
      * rewrite (decide_False (P := wait_t p ≠ 0 ∧ t = wait_t p)), decide_True by
          (try (by apply Hcon); intros [Hw0 ->]; by destruct (Haw Hw0) as [(_ & ? & _) _]). done.
      * rewrite (decide_False (P := condemned _ _ _)); [done|]. intros [? _]%Hcon. apply Hnin. by right.
  - cbn [runnable off]. rewrite W4, K4. f_equal. apply filter_ext_in. intros t Hin. rewrite Hcon.
    apply (si_queue _ HI) in Hin as (y & Hy & Hry). split; [|tauto]. intros Hn Hin. apply Hn. split; [done|]. intros ->.
    apply (si_cur _ HI) in Hc as (z & ? & ? & _). congruence.
  - unfold result_kept in *. cbn [s_hm set_sch set_ln]. done.
Qed.

(** C37: [proc_sys_kill], called by a running thread of a process: the number of the
    caller's process is refused and an unknown one not found, and nothing changes. When the
    number leads to a process that lives, that is one in its place in the list of processes
    and whose threads all exist ([lives]), and the caller is none of its threads, every
    thread of the process is KILLED and leaves the run queue, the process leaves the list,
    and the caller goes on with no other thread changed; but with a thread of the process
    blocked, not started or running on another processor the kernel stops. (Process 0 is in
    no list, and a process that has ended keeps its number: for these the code unlinks a
    node that is not in the list.) *)
Theorem proc_kill_correct `{!IdMapLaws A} s now x p0 i ids :
  schd_inv (s_sch s) → cur (s_sch s) !! cpu = Some (Some now) → s_ths s !! now = Some x →
  s_procs s !! t_proc x = Some p0 → id_rep (s_pids s) ids →
  (pid p0 = i → proc_sys_kill cpu i s = Ret E_INVAL s) ∧
  (pid p0 ≠ i → ids !! i = None → proc_sys_kill cpu i s = Ret E_NOTFOUND s) ∧
  (∀ proc p l1 l2, pid p0 ≠ i → ids !! i = Some proc → lives s now proc p l1 l2 → now ∉ thread_ls p →
    if forallb (stoppable (s_sch s) (λ _, false)) (thread_ls p)
    then wp (proc_sys_kill cpu i) (λ r s', r = E_OK ∧ schd_inv (s_sch s') ∧ cur (s_sch s') = cur (s_sch s) ∧
      (∀ t, threads (s_sch s') !! t = if decide (t ∈ thread_ls p)
         then (λ th, with_state th KILLED) <$> threads (s_sch s) !! t else threads (s_sch s) !! t) ∧
      runnable (s_sch s') = filter (λ t, t ∉ thread_ls p) (runnable (s_sch s)) ∧
      s_hm s' = s_hm s ∧ dlist (s_ln s') (proc_ls img) (l1 ++ l2)) s
    else proc_sys_kill cpu i s = Panic).
Proof.
  intros HI Hc Hx Hp0 Hids. unfold proc_sys_kill, wp.
  rewrite (run_bind _ _ _ _ _ (run_proc_now _ _ _ Hc Hx)), (run_bind _ _ _ _ _ (run_proc_at _ _ _ Hp0)).
  assert (∃ r, on_pids (id_find i) s = Ret r s ∧
    r = match ids !! i with Some p => (E_OK, Some p) | None => (E_NOTFOUND, None) end) as (r & Hr & Er).
  { pose proof (id_find_ok (s_pids s) ids i Hids) as Hf. unfold wp in Hf. unfold on_pids, zoom.
    destruct (id_find i (s_pids s)) as [r a| | |]; try done. destruct Hf as [-> Hf]. exists r. split; [by destruct s|done]. }
  split; [|split].
  - intros Hi. by destruct (Z.eqb_spec (pid p0) i).
  - intros Hne Hi. destruct (Z.eqb_spec (pid p0) i); [done|]. rewrite (run_bind _ _ _ _ _ Hr), Er, Hi. done.
  - intros proc p l1 l2 Hne Hi [_ _ Hp Hls Hln] Hnow. destruct (Z.eqb_spec (pid p0) i); [done|].
    rewrite (run_bind _ _ _ _ _ Hr), Er, Hi, (run_bind _ _ _ _ _ (run_proc_at _ _ _ Hp)).
    assert (∀ t, t ∈ thread_ls p → false = false → t ≠ now ∧ is_Some (threads (s_sch s) !! t)) as Hl.
    { intros t Ht _. split; [by intros ->|by apply Hls]. }
    pose proof (kill_each_spec cpu (λ _, false) (thread_ls p) now s HI Hc Hl) as Hk.
    destruct (forallb _ (thread_ls p)); [|by apply run_panic].
    destruct Hk as (sc1 & [K1 [K2 _] K3 K4] & Hk). rewrite (run_bind _ _ _ _ _ Hk).
    destruct (run_unlist (set_sch sc1 s) l1 proc l2 (proc_ls img) Hln) as (ln' & Hln' & Hd). rewrite (run_bind _ _ _ _ _ Hd).
    unfold ret. cbn [s_sch s_ln s_hm set_sch set_ln].
    assert (∀ t, condemned (λ _, false) (thread_ls p) t ↔ t ∈ thread_ls p) as Hcon by (intros t; unfold condemned; tauto).
    split_and!; [done|done|done| | |done|done].
    + intros t. rewrite K3. by apply decide_ext.
    + rewrite K4. apply list_filter_iff. intros t. by rewrite Hcon.
Qed.
End exits.

(** ** A concrete system

    Process 1000 has the threads 16, which runs, and 24, which is ready; thread 32 of
    process 2000 waits for it. *)
Definition ex_boot : list sev :=
  [ENew 16 0x5000; ENew 24 0x5000; ENew 32 0x6000; ERun 32; ESched 0; EBlock 0; ERun 16; ERun 24; ESched 0].
Definition ex_sch : schd_t := match srun ex_boot (schd_start [0]) with Ret _ s => s | _ => schd_start [] end.
Lemma ex_sch_inv : schd_inv ex_sch.
Proof.
  pose proof (srun_inv ex_boot _ (start_inv [0])) as Hi. unfold wlp in Hi.
  unfold ex_sch. destruct (srun ex_boot (schd_start [0])); [done|apply start_inv..].
Qed.

Definition ex_img : image_t := Image 0 8 0 0 0 0 0.
Definition ex_thread (i p : Z) : thread_x := ThreadX i 0 0 0 ex_task p.
Definition ex_proc : proc_t := Proc 5 0x5000 [16; 24] 32 0x300.
Definition ex_pids : idx_alct bump :=
  match idx_alct_new 0 7 1000 (idx_empty 8) with Ret _ a => a | _ => idx_empty 8 end.
Definition ex_sys : sys (idx_alct bump) arena arena frames :=
  Sys (Hmem (ram 0x300 8) (Arena 0 0 ∅)) (idx_empty 8) ex_pids
    {[16 := ex_thread 1 1000; 24 := ex_thread 2 1000; 32 := ex_thread 3 2000]}
    {[1000 := ex_proc; 2000 := Proc 6 0x6000 [32] 0 0]} ex_sch
    {[8 := LNode 2000 1000; 1000 := LNode 8 2000; 2000 := LNode 1000 8]} ∅
    (PtbSt (Mmu ∅ false false 0 0) false (Frames [] ∅)).

Lemma ex_lives : lives 0 ex_img ex_sys 16 1000 ex_proc [] [2000].
Proof.
  split; [exact ex_sch_inv|by vm_compute|done| |].
  - intros t Ht. apply (bool_decide_unpack _). cbn [thread_ls ex_proc] in Ht.
    apply elem_of_cons in Ht as [->|Ht]; [by vm_compute|]. apply list_elem_of_singleton in Ht as ->. by vm_compute.
  - split; [|apply (bool_decide_unpack _); by vm_compute]. repeat split; by eexists.
Qed.
Lemma ex_awaited : awaited ex_sys 16 ex_proc.
Proof.
  split; [split_and!|split_and!].
  - done.
  - apply (bool_decide_unpack _). by vm_compute.
  - apply (bool_decide_unpack _). by vm_compute.
  - apply ram_mapped; simpl; lia.
  - done.
  - done.
Qed.

Lemma proc_exit_correct_witness :
  wp (proc_sys_exit 0 7) (λ _ s', schd_inv (s_sch s') ∧ cur (s_sch s') = <[0 := None]> (cur (s_sch ex_sys)) ∧
    (∀ t, threads (s_sch s') !! t = fate 16 ex_proc (s_sch ex_sys) t) ∧
    runnable (s_sch s') = filter (λ t, t ∉ thread_ls ex_proc) (runnable (s_sch ex_sys)) ++
      (if wait_t ex_proc =? 0 then [] else [wait_t ex_proc]) ∧
    result_kept ex_sys ex_proc 7 s' ∧ dlist (s_ln s') (proc_ls ex_img) ([] ++ [2000])) ex_sys.
Proof.
  pose proof (proc_exit_correct 0 ex_img ex_sys 16 (ex_thread 1 1000) ex_proc [] [2000] 7 ex_lives eq_refl (λ _, ex_awaited)) as Hw.
  assert (forallb (stoppable (s_sch ex_sys) (λ t, t =? 16)) (thread_ls ex_proc) && wakeable (s_sch ex_sys) (wait_t ex_proc) = true)
    as Hok by by vm_compute.
  rewrite Hok in Hw. exact Hw.
Defined.

(** The creator reads the exit code, and the process is gone. *)
Definition ex_after_exit : option (Z * list Z * list Z) :=
  match proc_sys_exit 0 7 ex_sys with
  | Ret _ s' => match (v <- on_mem (rdw 0x300) ;; l <- on_ln (list_rep 8) ;; ret (v, runnable (s_sch s'), l)) s' with
                | Ret r _ => Some r | _ => None end
  | _ => None
  end.
Example ex_exit : ex_after_exit = Some (7, [32], [2000]).
Proof. by vm_compute. Qed.

(** Seen from thread 32 of process 2000, when it runs and 16 and 24 are ready. *)
Definition ex_boot2 : list sev :=
  [ENew 16 0x5000; ENew 24 0x5000; ENew 32 0x6000; ERun 32; ERun 16; ERun 24; ESched 0].
Definition ex_sch2 : schd_t := match srun ex_boot2 (schd_start [0]) with Ret _ s => s | _ => schd_start [] end.
Lemma ex_sch2_inv : schd_inv ex_sch2.
Proof.
  pose proof (srun_inv ex_boot2 _ (start_inv [0])) as Hi. unfold wlp in Hi.
  unfold ex_sch2. destruct (srun ex_boot2 (schd_start [0])); [done|apply start_inv..].
Qed.
Definition ex_sys2 : sys (idx_alct bump) arena arena frames := set_sch ex_sch2 ex_sys.
Definition ex_pid : Z := match idx_alct_new 0 7 1000 (idx_empty 8) with Ret (_, Some i) _ => i | _ => 0 end.
Lemma ex_pids_rep : id_rep ex_pids {[ex_pid := 1000]}.
Proof.
  pose proof (id_new_ok (idx_empty 8) ∅ 1000 (idx_empty_represents 8)) as Hi. unfold wlp in Hi. cbn [id_new bump_id_map idx_id_map] in Hi.
  unfold ex_pids, ex_pid. destruct (idx_alct_new 0 7 1000 (idx_empty 8)) as [[e [i|]] a| | |] eqn:E; [|by vm_compute in E..].
  destruct Hi as (_ & _ & Hi). by rewrite insert_empty in Hi.
Qed.
Lemma ex_lives2 : lives 0 ex_img ex_sys2 32 1000 ex_proc [] [2000].
Proof.
  split; [exact ex_sch2_inv|by vm_compute|done| |apply ex_lives].
  intros t Ht. apply (bool_decide_unpack _). cbn [thread_ls ex_proc] in Ht.
  apply elem_of_cons in Ht as [->|Ht]; [by vm_compute|]. apply list_elem_of_singleton in Ht as ->. by vm_compute.
Qed.

Lemma proc_kill_correct_witness :
  proc_sys_kill 0 6 ex_sys2 = Ret E_INVAL ex_sys2 ∧
  wp (proc_sys_kill 0 ex_pid) (λ r s', r = E_OK ∧ schd_inv (s_sch s') ∧ cur (s_sch s') = cur (s_sch ex_sys2) ∧
    (∀ t, threads (s_sch s') !! t = if decide (t ∈ thread_ls ex_proc)
       then (λ th, with_state th KILLED) <$> threads (s_sch ex_sys2) !! t else threads (s_sch ex_sys2) !! t) ∧
    runnable (s_sch s') = filter (λ t, t ∉ thread_ls ex_proc) (runnable (s_sch ex_sys2)) ∧
    s_hm s' = s_hm ex_sys2 ∧ dlist (s_ln s') (proc_ls ex_img) ([] ++ [2000])) ex_sys2.
Proof.
  split.
  - apply (proc_kill_correct 0 ex_img ex_sys2 32 (ex_thread 3 2000) (Proc 6 0x6000 [32] 0 0) 6 {[ex_pid := 1000]}
      ex_sch2_inv ltac:(by vm_compute) eq_refl eq_refl ex_pids_rep). done.
  - assert (pid (Proc 6 0x6000 [32] 0 0) ≠ ex_pid) as Hne by (by vm_compute).
    pose proof (proj2 (proj2 (proc_kill_correct 0 ex_img ex_sys2 32 (ex_thread 3 2000) (Proc 6 0x6000 [32] 0 0) ex_pid
      {[ex_pid := 1000]} ex_sch2_inv ltac:(by vm_compute) eq_refl eq_refl ex_pids_rep)) 1000 ex_proc [] [2000] Hne
      (lookup_singleton_eq ex_pid 1000) ex_lives2 ltac:(apply (bool_decide_unpack _); by vm_compute)) as Hw.
    assert (forallb (stoppable (s_sch ex_sys2) (λ _, false)) (thread_ls ex_proc) = true) as Hok by by vm_compute.
    rewrite Hok in Hw. exact Hw.
Defined.
