(* ===== verification/ThreadSpec.v ===== *)
(** * Starting a thread

    [thread_kern_new] and the first steps of the thread it makes, composed with the
    prepared stack of Task and the scheduler's queue. *)
From S2P Require Import Prelude Machine Mmu Ptb Kmalloc IdxAlct IdMap DList Cstring Words Blocks Args Desc Task Schd Thread Proc ProcSpec.

(** ** Reading a stack that has not changed *)
Lemma fetch_S a n m : 0 ≤ a < W32 → fetch a (S n) m =
  match m !! a with Some v => match fetch (a + 1) n m with Ret l m' => Ret (v :: l) m' | Panic => Panic | Fault => Fault | Hang => Hang end
  | None => Fault end.
Proof.
  intros Ha. cbn [fetch]. rewrite u32_small by done. unfold rd, bind, get, deref, ret. by destruct (m !! a).
Qed.
Lemma fetch_agree n : ∀ a m1 m2 l, fetch a n m1 = Ret l m1 → 0 ≤ a → a + Z.of_nat n ≤ W32 →
  (∀ x, a ≤ x < a + Z.of_nat n → m2 !! x = m1 !! x) → fetch a n m2 = Ret l m2.
Proof.
  induction n as [|n IH]; intros a m1 m2 l Hr Ha Hw Hm; [cbn [fetch] in *; unfold ret in *; by simplify_eq|].
  rewrite fetch_S in Hr |- * by lia. rewrite Hm by lia. destruct (m1 !! a) as [b|]; [|done].
  destruct (fetch (a + 1) n m1) as [l1 m1'| | |] eqn:Hf; try done. simplify_eq.
  rewrite (IH (a + 1) m1 m2 l1); [done|done|lia|lia|]. intros x Hx. apply Hm. lia.
Qed.
Lemma rdw_agree a m1 m2 v : rdw a m1 = Ret v m1 → 0 ≤ a → a + 4 ≤ W32 → (∀ x, a ≤ x < a + 4 → m2 !! x = m1 !! x) →
  rdw a m2 = Ret v m2.
Proof.
  intros Hr Ha Hw Hm. unfold rdw, bind in *. destruct (fetch a 4 m1) as [l m1'| | |] eqn:Hf; try done. unfold ret in Hr. simplify_eq.
  by rewrite (fetch_agree 4 a m1 m2 l).
Qed.

Lemma run_stack_words m l : ∀ a, (∀ i v, l !! i = Some v → word m (a + 4 * Z.of_nat i) v) → Forall is_u32 l → 0 ≤ a →
  a + 4 * Z.of_nat (length l) < W32 → stack_words a (length l) m = Ret l m.
Proof.
  induction l as [|v l IH]; intros a Hl Hu Ha Hw; [done|]. cbn [stack_words length] in *. apply Forall_cons in Hu as [Hv Hu].
  assert (word m a v) as Hwa by (rewrite <- (Z.add_0_r a); by apply (Hl O v)).
  rewrite (run_bind _ _ _ _ _ (run_rdw m a v Hwa Hv Ha ltac:(lia))), add32_small by lia.
  erewrite run_bind; [done|]. apply IH; [|done|lia|lia]. intros i w Hi. replace (a + 4 + 4 * Z.of_nat i) with (a + 4 * Z.of_nat (S i)) by lia.
  by apply Hl.
Qed.

(** A thread that has not been queued does not matter to the invariant. *)
Lemma inv_unschded t c pde sc : schd_inv sc → (∀ th, threads sc !! t = Some th → t_state th = UNSCHDED) →
  schd_inv (Schd (s_lock sc) (runnable sc) (sleeping sc) (<[t := Schd.Thread c UNSCHDED pde]> (threads sc)) (cur sc) (cr3 sc)).
Proof.
  intros [Hl Hnd Hq Ha Hc Hp Hsl] Ht. split; simpl; try done.
  - intros u. rewrite Hq. destruct (decide (u = t)) as [->|Hu]; [|by rewrite lookup_insert_ne].
    rewrite lookup_insert_eq. split; intros (y & Hy & Hr); [|by simplify_eq/=]. specialize (Ht y Hy). congruence.
  - intros d u. rewrite Hc. destruct (decide (u = t)) as [->|Hu]; [|by rewrite lookup_insert_ne].
    rewrite lookup_insert_eq. split; intros (y & Hy & Hr & _); [|by simplify_eq/=]. specialize (Ht y Hy). congruence.
  - intros d u y Hcu. destruct (decide (u = t)) as [->|Hu]; [|rewrite lookup_insert_ne by done; by apply Hp].
    apply Hc in Hcu as (z & Hz & Hr & _). specialize (Ht z Hz). congruence.
  - intros u y. destruct (decide (u = t)) as [->|Hu]; [|rewrite lookup_insert_ne by done; by apply Hsl].
    rewrite lookup_insert_eq. by intros [= <-].
Qed.

Section spawn.
Context {A K U P : Type} {IA : IdMap A} {IL : IdMapLaws A} {HK : Kmalloc K} {HKL : KmallocLaws K} {HB : HeapBytes K} {HBL : HeapBytesLaws K}.
Context {KU : Kmalloc U} {PA : PageAlloc P}.
Context (img : image_t) (junk : Z) (junk_task : task_t).
Abbreviation st := (sys A K U P).
Implicit Types s : st.

(** What [thread_new] leaves: the structure and the number, or an error. *)
Definition with_thread (t : Z) (x : thread_x) (th : Schd.thread_t) s : st :=
  set_sch (Schd (s_lock (s_sch s)) (runnable (s_sch s)) (sleeping (s_sch s)) (<[t := th]> (threads (s_sch s))) (cur (s_sch s)) (cr3 (s_sch s)))
    (set_ths (<[t := x]> (s_ths s)) s).
Record newborn s (t : Z) s' : Prop := {
  nb_fresh : t ∉ km_live (hm_heap (s_hm s));
  nb_eq : ∃ h a i, kmalloc SZ_THREAD (hm_heap (s_hm s)) = (inr t, h) ∧
    s' = with_thread t (ThreadX i junk junk 0 junk_task 0) (Schd.Thread junk UNSCHDED junk)
           (set_tids a (set_hm (Hmem (hm_mem (s_hm s)) h) s));
}.

(** The numbers do not run out of mutexes or fuel. *)
Definition ids_answer s : Prop := ∀ t h, kmalloc SZ_THREAD (hm_heap (s_hm s)) = (inr t, h) →
  ∃ r a, id_new t (s_tids s) = Ret r a.

Lemma wp_thread_new s ids : id_rep (s_tids s) ids → ids_answer s →
  wp (thread_new junk junk_task) (λ r s', match r with
    | (err, Some t) => err = E_OK ∧ newborn s t s'
    | (err, None) => err ≠ E_OK ∧ s_procs s' = s_procs s ∧ hm_mem (s_hm s') = hm_mem (s_hm s) ∧
        (s_sch s' = s_sch s ∨ ∃ t, (t ∉ km_live (hm_heap (s_hm s))) ∧ s_sch s' = s_sch (with_thread t (ThreadX 0 0 0 0 junk_task 0) (Schd.Thread junk UNSCHDED junk) s))
    end) s.
Proof using IL HKL.
  intros Hids Hans. unfold thread_new. apply wp_bind. unfold kalloc, on_hm, alloc. apply wp_zoom.
  apply wp_bind, wp_get. destruct (kmalloc SZ_THREAD (hm_heap (s_hm s))) as [[e|t] h] eqn:Hk.
  { apply wp_bind, wp_put, wp_ret, wp_ret. destruct (kmalloc_err _ _ _ _ Hk) as [He _]. split_and!; [done|done|done|by left]. }
  apply wp_bind, wp_put, wp_ret. apply wp_bind, wp_modify. apply wp_bind. unfold on_sch. apply wp_zoom. unfold set_thread. apply wp_modify.
  destruct (kmalloc_ok _ _ _ _ Hk) as (_ & Hf & _). destruct (Hans t h Hk) as (r & a & Hr).
  apply wp_bind. unfold on_tids. apply wp_zoom. unfold wp at 1. cbn [s_tids set_sch set_ths set_hm]. rewrite Hr.
  pose proof (id_new_ok (s_tids s) ids t Hids) as Hi. unfold wlp in Hi. rewrite Hr in Hi. destruct r as [e [i|]]; cbn [fst snd] in Hi.
  - destruct Hi as (-> & _ & _). apply wp_bind. unfold upd_th, th_at. apply wp_bind, wp_bind, wp_get.
    cbn [s_ths set_tids set_sch set_ths]. rewrite lookup_insert_eq. apply wp_deref. eexists. split; [done|]. apply wp_modify, wp_ret.
    split; [done|]. split; [done|]. exists h, a, i. split; [done|]. unfold with_thread, th_tid. cbn. by rewrite insert_insert_eq.
  - destruct Hi as [He _]. apply wp_ret. split_and!; [done|done|done|]. right. exists t. by split.
Qed.

(** The new thread, whenever and wherever it is first run with its stack as it was left:
    the switch jumps to [thread_enclosure], which makes the call it was made for. *)
Definition thread_end (cpu : Z) : M st unit :=
  now <- thread_now cpu ;; r <- on_sch (schd_kill cpu now) ;; match r with None => ret tt | Some _ => hang end.
Definition starts (exe : Z) (args : list Z) (x : thread_x) (m : mem) : Prop :=
  ∀ cpu (intr_end : M st unit) (kcall : Z → list Z → M st Z) s2 s3,
  (∀ a, ks_addr x ≤ a < ks_addr x + ks_size x → hm_mem (s_hm s2) !! a = m !! a) →
  (on_sch spin_unlock ;;; intr_end) s2 = Ret tt s3 → hm_mem (s_hm s3) = hm_mem (s_hm s2) →
  ∃ sp, hw_ret (c_esp (context (t_task x))) (hm_mem (s_hm s2)) = Ret (enclosure img, sp) (hm_mem (s_hm s2)) ∧
    thread_enclosure cpu intr_end kcall sp s2 = (_ <- kcall exe args ;; thread_end cpu) s3.

Lemma run_on_mem {B} (c : M mem B) s r : c (hm_mem (s_hm s)) = Ret r (hm_mem (s_hm s)) → on_mem c s = Ret r s.
Proof. intros Hc. unfold on_mem, on_hm, in_mem, zoom. rewrite Hc. by destruct s as [[] ? ? ? ? ? ? ? ?]. Qed.

Lemma kern_stack_starts m t x stack exe args : 0 ≤ stack → stack + KERN_STACK_SIZE < W32 → mapped m stack KERN_STACK_SIZE →
  is_u32 (enclosure img) → is_u32 exe → Forall is_u32 args → (length args ≤ 5)%nat →
  ks_addr x = stack → ks_size x = KERN_STACK_SIZE →
  wp (task_kern_init t stack KERN_STACK_SIZE (enclosure img) (exe :: Z.of_nat (length args) :: args)) (λ r m',
    starts exe args (th_task (snd r) x) m') m.
Proof using Type.
  intros Hs0 Hsw Hm Henc Hexe Hargs Hlen Hxa Hxs. change KERN_STACK_SIZE with 32768 in *.
  set (n := Z.of_nat (length args)) in *. set (l := exe :: n :: args).
  assert (Z.of_nat (length l) = n + 2) as Hll by (unfold l; cbn [length]; lia).
  eapply wp_mono; [apply (task_kern_init_correct m t stack 32768 (enclosure img) l); rewrite ?Hll; (done || lia)|].
  intros [e k] m' (_ & _ & _ & _ & _ & Hret). cbn [snd] in *. unfold starts. cbn [ks_addr ks_size t_task th_task]. rewrite Hxa, Hxs.
  intros cpu ie kc s2 s3 Hag H23 Hm3. set (esp := c_esp (context k)) in *. unfold wp, hw_ret in Hret.
  destruct ((a <- rdw esp ;; ret (a, esp + 4)) m') as [[ra sp] m''| | |] eqn:Hr; try done. cbn [fst snd] in Hret.
  destruct Hret as (-> & -> & _ & Hw & Htop). unfold bind in Hr. destruct (rdw esp m') as [v m3| | |] eqn:Hrd; try done.
  unfold ret in Hr. simplify_eq. rewrite Hll in Htop.
  assert (∀ i v, l !! i = Some v → word (hm_mem (s_hm s3)) (esp + 4 + 4 * (1 + Z.of_nat i)) v) as Hw3.
  { intros i v Hi. pose proof (lookup_lt_Some _ _ _ Hi) as Hil. eapply word_keep; [by apply Hw|]. intros y Hy. rewrite Hm3. apply Hag. lia. }
  exists (esp + 4). split.
  { unfold hw_ret. erewrite run_bind; [done|]. eapply rdw_agree; [exact Hrd|lia|lia|]. intros y Hy. apply Hag. lia. }
  unfold thread_enclosure.
  assert (∀ B (k' : M st B), (on_sch spin_unlock ;;; ie ;;; k') s2 = k' s3) as Hpre.
  { intros B k'. unfold bind in *. destruct (on_sch spin_unlock s2); try done. by destruct (ie s); simplify_eq. }
  rewrite Hpre. clear Hpre. rewrite !add32_small by lia.
  assert (word (hm_mem (s_hm s3)) (esp + 4 + 8) n) as Hwn by exact (Hw3 1%nat n eq_refl).
  assert (word (hm_mem (s_hm s3)) (esp + 4 + 4) exe) as Hwe by exact (Hw3 0%nat exe eq_refl).
  rewrite (run_bind _ _ _ _ _ (run_on_mem _ _ _ (run_rdw _ _ _ Hwn ltac:(unfold is_u32, W32; lia) ltac:(lia) ltac:(lia)))).
  destruct (Z.leb_spec n 5); [|lia].
  assert (stack_words (esp + 4 + 12) (Z.to_nat n) (hm_mem (s_hm s3)) = Ret args (hm_mem (s_hm s3))) as Hargs3.
  { unfold n. rewrite Nat2Z.id. apply run_stack_words; [|done|lia|fold n; lia]. intros i v Hi.
    replace (esp + 4 + 12 + 4 * Z.of_nat i) with (esp + 4 + 4 * (1 + Z.of_nat (S (S i)))) by lia. by apply Hw3. }
  unfold bind at 1. rewrite (run_bind _ _ _ _ _ (run_on_mem _ _ _ Hargs3)).
  rewrite (run_bind _ _ _ _ _ (run_on_mem _ _ _ (run_rdw _ _ _ Hwe Hexe ltac:(lia) ltac:(lia)))).
  unfold thread_end, bind, ret. by destruct (kc exe args s3).
Qed.

Lemma wp_th_at s t x (Q : thread_x → st → Prop) : s_ths s !! t = Some x → Q x s → wp (th_at t) Q s.
Proof. intros Hx HQ. unfold th_at. apply wp_bind, wp_get, wp_deref. by exists x. Qed.
Lemma wp_upd_th s t x f (Q : unit → st → Prop) : s_ths s !! t = Some x → Q tt (set_ths (<[t := f x]> (s_ths s)) s) → wp (upd_th t f) Q s.
Proof. intros Hx HQ. unfold upd_th. apply wp_bind, (wp_th_at _ _ x); [done|]. by apply wp_modify. Qed.
Lemma wp_proc_at s p x (Q : proc_t → st → Prop) : s_procs s !! p = Some x → Q x s → wp (proc_at p) Q s.
Proof. intros Hx HQ. unfold proc_at. apply wp_bind, wp_get, wp_deref. by exists x. Qed.
Lemma wp_upd_proc s p x f (Q : unit → st → Prop) : s_procs s !! p = Some x → Q tt (set_procs (<[p := f x]> (s_procs s)) s) → wp (upd_proc p f) Q s.
Proof. intros Hx HQ. unfold upd_proc. apply wp_bind, (wp_proc_at _ _ x); [done|]. by apply wp_modify. Qed.

(** [join], for a thread the scheduler has not seen yet. *)
Lemma wp_join s t x th pr p (Q : unit → st → Prop) : s_ths s !! t = Some x → threads (s_sch s) !! t = Some th → s_procs s !! pr = Some p →
  Q tt (set_procs (<[pr := pr_threads (thread_ls p ++ [t]) p]> (s_procs s))
    (set_sch (Schd (s_lock (s_sch s)) (runnable (s_sch s)) (sleeping (s_sch s)) (<[t := Schd.Thread (cpuid th) (t_state th) (p_pde p)]> (threads (s_sch s)))
       (cur (s_sch s)) (cr3 (s_sch s))) (set_ths (<[t := th_proc pr x]> (s_ths s)) s))) → wp (join t pr) Q s.
Proof.
  intros Hx Ht Hp HQ. unfold join. apply wp_bind, (wp_upd_th _ _ x); [done|]. apply wp_bind, (wp_proc_at _ _ p); [done|].
  apply wp_bind. unfold on_sch. apply wp_zoom. unfold thread_at. apply wp_bind, wp_bind, wp_get, wp_deref. exists th.
  split; [done|]. unfold set_thread. apply wp_modify. by apply (wp_upd_proc _ _ p).
Qed.

(** The kernel's view when a thread is made. *)
Record can_spawn s (pr : Z) (p : proc_t) (ids : gmap Z Z) : Prop := {
  cs_sched : schd_inv (s_sch s);
  cs_proc : s_procs s !! pr = Some p;
  cs_heap : heap_mapped (hm_heap (s_hm s)) (hm_mem (s_hm s));
  cs_live : ∀ t, is_Some (threads (s_sch s) !! t) → t ∈ km_live (hm_heap (s_hm s));
  cs_ids : id_rep (s_tids s) ids;
  cs_answer : ids_answer s;
}.

(** C35: [thread_kern_new] makes one new thread that will do what it was asked to:
    its structure is at an address no thread has, it is RUNNABEL as the last of the queue
    and the last of the threads of its process, with the process's page directory, and no
    other thread changes; the first processor that runs it, while its stack is as it was
    left, jumps to [thread_enclosure], which calls the routine with exactly the arguments
    given, in order, and then kills the thread. When it returns an error instead, the queue
    and the processes are as before. It always returns, in a consistent system
    ([can_spawn]) whose heap reports a lack of memory by an error ([Kmalloc]; the kernel's
    own heap stops there instead, for a block the size of a stack) and where the allocation
    of the thread's number does not stop ([ids_answer]: it can, when the sums of the index
    allocator are wrong). *)
Theorem thread_kern_new_correct s proc exe args p ids :
  let pr := if proc =? 0 then proc_0 img else proc in
  can_spawn s pr p ids → is_u32 (enclosure img) → is_u32 exe → Forall is_u32 args → (length args ≤ 5)%nat →
  wp (thread_kern_new img junk junk_task proc exe args) (λ r s', schd_inv (s_sch s') ∧ match r with
    | (err, Some t) => err = E_OK ∧ threads (s_sch s) !! t = None ∧
        s_sch s' = queued t (Schd.Thread junk UNSCHDED (p_pde p)) (s_sch s) ∧
        s_procs s' = <[pr := pr_threads (thread_ls p ++ [t]) p]> (s_procs s) ∧
        ∃ x, s_ths s' !! t = Some x ∧ t_proc x = pr ∧ starts exe args x (hm_mem (s_hm s'))
    | (err, None) => err ≠ E_OK ∧ s_procs s' = s_procs s ∧ runnable (s_sch s') = runnable (s_sch s) ∧ cur (s_sch s') = cur (s_sch s)
    end) s.
Proof.
  intros pr [HI Hp Hheap Hlive Hids Hans] Henc Hexe Hargs Hlen. unfold thread_kern_new. fold pr.
  assert (∀ t c pde, t ∉ km_live (hm_heap (s_hm s)) → threads (s_sch s) !! t = None ∧
    schd_inv (Schd (s_lock (s_sch s)) (runnable (s_sch s)) (sleeping (s_sch s)) (<[t := Schd.Thread c UNSCHDED pde]> (threads (s_sch s)))
      (cur (s_sch s)) (cr3 (s_sch s)))) as Hnew.
  { intros t c pde Hn. assert (threads (s_sch s) !! t = None) as Ht by (apply eq_None_not_Some; by intros ?%Hlive). split; [done|].
    apply inv_unschded; [done|]. intros th Hth. congruence. }
  apply wp_bind. eapply wp_mono; [by apply (wp_thread_new s ids)|]. intros [err [t|]] s1.
  2:{ intros (He & Hpr & _ & Hsch). apply wp_ret. destruct Hsch as [-> |(t & Hf & ->)]; [done|].
      destruct (Hnew t junk junk Hf) as [_ HI1]. done. }
  intros (-> & Hf & h & a & i & Hk & ->). destruct (Hnew t junk junk Hf) as [Ht HI1].
  destruct (kmalloc_ok _ _ _ _ Hk) as (Ht0 & _ & _).
  assert (heap_mapped h (hm_mem (s_hm s))) as Hheap1.
  { intros y Hy. apply Hheap. destruct (heap_ok _ _ _ _ Hk ltac:(done)) as (_ & _ & G). by apply G. }
  apply wp_bind. unfold kalloc, on_hm, alloc. apply wp_zoom. apply wp_bind, wp_get. cbn [s_hm with_thread set_sch set_ths set_tids set_hm hm_heap hm_mem].
  destruct (kmalloc KERN_STACK_SIZE h) as [[e|stack] h2] eqn:Hk2; apply wp_bind, wp_put, wp_ret.
  { apply wp_ret. destruct (kmalloc_err _ _ _ _ Hk2) as [He _]. done. }
  destruct (heap_ok _ _ _ _ Hk2 ltac:(done)) as (Hsw & Hsf & _). destruct (kmalloc_ok _ _ _ _ Hk2) as (Hs0 & _ & _).
  apply wp_bind. eapply wp_upd_th; [apply lookup_insert_eq|]. apply wp_bind. eapply wp_th_at; [apply lookup_insert_eq|].
  replace (Z.of_nat (length args) <=? 5) with true by (symmetry; apply Z.leb_le; lia).
  apply wp_bind, wp_bind. unfold on_mem, on_hm, in_mem. apply wp_zoom, wp_zoom.
  match goal with |- context [th_stack stack KERN_STACK_SIZE ?x0] => set (x1 := th_stack stack KERN_STACK_SIZE x0) end.
  eapply wp_mono; [apply (kern_stack_starts _ (t_task x1) x1 stack exe args); try done|].
  { lia. } { intros y Hy. cbn [s_hm set_ths set_hm hm_mem]. by apply Hheap1, Hsf. }
  intros [e k] m' Hst. cbn [snd] in Hst. eapply wp_upd_th; [apply lookup_insert_eq|].
  apply wp_bind. eapply wp_join; [apply lookup_insert_eq|apply lookup_insert_eq|exact Hp|].
  apply wp_bind. unfold on_sch. apply wp_zoom. unfold wp at 1.
  cbn [s_sch set_procs set_sch set_ths set_hm set_tids with_thread s_lock runnable sleeping threads cur cr3 cpuid t_state].
  rewrite insert_insert_eq.
  destruct (Hnew t junk (p_pde p) Hf) as [_ HI2]. rewrite run_schd_run by done. unfold run_result. cbn [threads]. rewrite lookup_insert_eq.
  cbn [t_state]. rewrite bool_decide_eq_true_2 by done. cbn [orb]. apply wp_ret. cbn [s_sch set_sch].
  split.
  - apply inv_queued; [done|apply lookup_insert_eq|by left].
  - split_and!; [done|done| |done|].
    + unfold queued. cbn [s_sch threads runnable sleeping cur cr3]. by rewrite insert_insert_eq.
    + eexists. split; [apply lookup_insert_eq|]. split; [done|]. exact Hst.
Qed.
End spawn.

(** A kernel with process 0 and a heap of nine pages and a bit. *)
Definition ex_spawn_img : image_t := Image 1000 8 0 0xC0101000 0 0 0.
Definition ex_spawn : sys (idx_alct bump) arena arena frames :=
  Sys (Hmem (ram 0xC1000000 (Z.to_nat 36864)) (Arena 0xC1000000 0xC1009000 ∅)) (idx_empty 8) (idx_empty 8)
    ∅ {[1000 := Proc 0 0x1000 [] 0 0]} (schd_start [0]) {[8 := LNode 8 8]} ∅
    (PtbSt (Mmu ∅ false false 0 0) false (Frames [] ∅)).

Lemma ex_can_spawn : can_spawn ex_spawn 1000 (Proc 0 0x1000 [] 0 0) ∅.
Proof.
  split.
  - apply start_inv.
  - done.
  - intros x Hx. cbn [s_hm ex_spawn hm_heap km_free arena_bytes ar_next ar_end] in Hx. cbn [s_hm ex_spawn hm_mem].
    exists 0. apply ram_lookup. rewrite Z2Nat.id; lia.
  - intros t [x Hx]. change (threads (s_sch ex_spawn)) with (∅ : gmap Z Schd.thread_t) in Hx. by rewrite lookup_empty in Hx.
  - apply idx_empty_represents.
  - intros t h Hk. cbn [s_hm ex_spawn hm_heap] in Hk.
    assert (t = 0xC1000000) as -> by (vm_compute in Hk; by simplify_eq).
    destruct (id_new 0xC1000000 (idx_empty 8)) as [r a| | |] eqn:E; [by exists r, a|by vm_compute in E..].
Qed.

Lemma thread_kern_new_correct_witness :
  wp (thread_kern_new ex_spawn_img 7 ex_task 0 0xC0102000 [5; 6]) (λ r s', schd_inv (s_sch s') ∧ match r with
    | (err, Some t) => err = E_OK ∧ threads (s_sch ex_spawn) !! t = None ∧
        s_sch s' = queued t (Schd.Thread 7 UNSCHDED 0x1000) (s_sch ex_spawn) ∧
        s_procs s' = <[1000 := pr_threads ([] ++ [t]) (Proc 0 0x1000 [] 0 0)]> (s_procs ex_spawn) ∧
        ∃ x, s_ths s' !! t = Some x ∧ t_proc x = 1000 ∧ starts (A := idx_alct bump) (K := arena) (U := arena) (P := frames) ex_spawn_img 0xC0102000 [5; 6] x (hm_mem (s_hm s'))
    | (err, None) => err ≠ E_OK ∧ s_procs s' = s_procs ex_spawn ∧ runnable (s_sch s') = runnable (s_sch ex_spawn) ∧
        cur (s_sch s') = cur (s_sch ex_spawn)
    end) ex_spawn.
Proof.
  refine (thread_kern_new_correct ex_spawn_img 7 ex_task ex_spawn 0 0xC0102000 [5; 6] (Proc 0 0x1000 [] 0 0) ∅ ex_can_spawn _ _ _ _).
  - unfold is_u32, W32. cbn. lia.
  - unfold is_u32, W32. lia.
  - repeat (constructor; [unfold is_u32, W32; lia|]). constructor.
  - simpl. lia.
Defined.
