(* ===== verification/Shell.v ===== *)
(** * The shell: usr/shell

    A line from the terminal ([gets] is the system call SYS_read, [tmp_read] of Tty) is
    cut at its blanks into the words of a command, in place, with an array of pointers
    beside it. The first word names a program, the others are its arguments. Strings and
    arrays are bytes of the process; [cmd], [args] and the other names are where its stack
    has them. *)
From S2P Require Import Prelude Machine Cstring Words Buf Log Blocks Args Tty.
From S2P Require Printf Proc.

Definition BLANK : Z := 32.

Section code.
Context (thread_now : Z) (others : Prelude.M buf unit).
Abbreviation M := (Prelude.M tty).
Definition gets (fuel : nat) (p : Z) : M Z := tmp_read thread_now others fuel p.

(** A turn of the loop of [get_cmd]: the position and the number of words so far. *)
Definition split_body (cmd args n : Z) (v : Z * Z) : Prelude.M mem (Z * Z + Z) :=
  let '(i, p) := v in
  if i <=? n then
    c <- rd (add32 cmd i) ;; (if c =? BLANK then wr (add32 cmd i) 0 else ret tt) ;;;
    c <- rd (add32 cmd (i - 1)) ;;
    d <- (if c =? 0 then rd (add32 cmd i) else ret 0) ;;
    if negb (d =? 0) then wrw (elt args p) (add32 cmd i) ;;; ret (inl (i + 1, p + 1))
    else ret (inl (i + 1, p))
  else ret (inr p).

(** [get_cmd] behind [gets]. *)
Definition split (cmd args : Z) : Prelude.M mem unit :=
  n <- strlen (add32 cmd 1) ;;
  p <- loop (S (S (Z.to_nat n))) (split_body cmd args (s32 n)) (1, 0) ;;
  wrw (elt args p) 0.
Definition get_cmd (fuel : nat) (cmd args : Z) : M unit :=
  Tty.on_mem (wr cmd 0) ;;;
  err <- gets fuel (add32 cmd 1) ;;
  assert_ (err =? E_OK) ;;;
  Tty.on_mem (split cmd args).

(** Where the program's strings ["/bin/"] and [".elf"] are. *)
Context (s_bin s_elf : Z).
Definition get_elf_path (parse path : Z) : Prelude.M mem unit :=
  n <- strlen s_bin ;; memcpy path s_bin n ;;;
  n <- strlen s_bin ;; p <- rdw parse ;; k <- strlen p ;; memcpy (add32 path n) p k ;;;
  n <- strlen s_bin ;; p <- rdw parse ;; k <- strlen p ;; e <- strlen s_elf ;;
  memcpy (add32 (add32 path n) k) s_elf e ;;;
  n <- strlen s_bin ;; p <- rdw parse ;; k <- strlen p ;; e <- strlen s_elf ;;
  wr (add32 (add32 (add32 path n) k) e) 0.

(** The attributes of a new process up to the call that makes it; [launch] with the
    name and the path as well. *)
Definition fill_attr (parse argv pwd attr envp iswait : Z) : Prelude.M mem unit :=
  p <- rdw parse ;; n <- strlen p ;; strcpy attr p (add32 n 1) ;;;
  wrw (add32 attr Proc.A_ARGV) argv ;;;
  wrw (elt envp 0) pwd ;;; wrw (elt envp 1) 0 ;;;
  wrw (add32 attr Proc.A_ENVP) envp ;;;
  wrw (add32 attr Proc.A_WAIT) iswait.
Definition launch (parse pwd path attr envp iswait : Z) : Prelude.M mem unit :=
  get_elf_path parse path ;;;
  fill_attr parse (add32 parse 4) pwd attr envp iswait.

(** The system calls; what [printf] needs, and the formats; [strerror] of
    usr/lib/error.c; where the names of the inner commands are. *)
Context (malloc : Z → M (Z + Z)) (find : Z → Z → M (Z * Z)) (proc_create : Z → Z → Z → M Z).
Context (fmt_s pbuf f_prompt f_pwd f_cd f_fail f_error : Z) (strerror : Z → Z) (s_cd s_pwd s_amp : Z).
Definition say (fmt : Z) (l : list Z) : M unit := Tty.on_console (Printf.printf fmt_s pbuf fmt l) ;;; ret tt.

Definition SLASH : Z := 47.
(** [name] with a slash at its end. *)
Definition slashed (parse : Z) : M (Z + Z) :=
  name <- Tty.on_mem (rdw (elt parse 1)) ;; n <- Tty.on_mem (strlen name) ;;
  c <- Tty.on_mem (rd (add32 name (sub32 n 1))) ;;
  if negb (c =? SLASH) then
    r <- malloc (add32 n 2) ;;
    match r with
    | inl err => ret (inl err)
    | inr name =>
        Tty.on_mem (p <- rdw (elt parse 1) ;; n <- strlen p ;; memcpy name p n ;;;
          wr (add32 name n) SLASH ;;; wr (add32 name (add32 n 1)) 0) ;;;
        ret (inr name)
    end
  else ret (inr name).
(** And with the working directory before it, if it is relative. *)
Definition absolute (name pwd : Z) : M (Z + Z) :=
  c <- Tty.on_mem (rd name) ;;
  if negb (c =? SLASH) then
    k <- Tty.on_mem (strlen pwd) ;; n <- Tty.on_mem (strlen name) ;;
    r <- malloc (add32 (add32 k n) 1) ;;
    match r with
    | inl err => ret (inl err)
    | inr s =>
        Tty.on_mem (memcpy s pwd k ;;; memcpy (add32 s k) name n ;;; wr (add32 s (add32 k n)) 0) ;;;
        ret (inr s)
    end
  else ret (inr name).
Definition cmd_cd (parse pwd : Z) : M Z :=
  p <- Tty.on_mem (rdw (elt parse 1)) ;;
  q <- (if p =? 0 then ret 1 else Tty.on_mem (rdw (elt parse 2))) ;;
  if negb (q =? 0) then ret E_INVAL else
  r <- slashed parse ;;
  match r with
  | inl err => ret err
  | inr name =>
      r <- absolute name pwd ;;
      match r with
      | inl err => ret err
      | inr s =>
          n <- Tty.on_mem (strlen s) ;; r <- find s (add32 n 1) ;;
          let '(err, rerr) := r in
          if negb (err =? E_OK) then ret err else if negb (rerr =? E_OK) then ret rerr else
          Tty.on_mem (c <- rd name ;; k <- (if negb (c =? SLASH) then strlen pwd else ret 0) ;;
            n <- strlen name ;; memcpy (add32 pwd k) name (add32 n 1)) ;;;
          ret err
      end
  end.

Definition cmd_pwd (parse pwd : Z) : M Z :=
  p <- Tty.on_mem (rdw (elt parse 1)) ;;
  if negb (p =? 0) then ret E_INVAL else say f_pwd [pwd] ;;; ret E_OK.

(** With a stack frame of its own. *)
Definition cmd_back (path attr envp res parse pwd : Z) : M Z :=
  Tty.on_mem (get_elf_path (elt parse 1) path ;;; fill_attr (elt parse 1) (elt parse 2) pwd attr envp 0) ;;;
  err <- proc_create path attr res ;;
  if negb (err =? E_OK) then ret err else Tty.on_mem (rdw res).

Definition is_cmd (parse name : Z) : M bool :=
  p <- Tty.on_mem (rdw parse) ;; r <- Tty.on_mem (strcmp p name) ;; ret (r =? 0).
Definition inner_cmd (b_path b_attr b_envp b_res parse pwd : Z) : M Z :=
  b <- is_cmd parse s_cd ;;
  if b : bool then
    err <- cmd_cd parse pwd ;; (if negb (err =? E_OK) then say f_cd [strerror err] else ret tt) ;;; ret E_OK
  else b <- is_cmd parse s_pwd ;;
  if b : bool then
    err <- cmd_pwd parse pwd ;; (if negb (err =? E_OK) then say f_cd [strerror err] else ret tt) ;;; ret E_OK
  else b <- is_cmd parse s_amp ;;
  if b : bool then cmd_back b_path b_attr b_envp b_res parse pwd else ret E_NOTFOUND.

(** A turn of [main] up to [proc_create]: [E_OK], the command was one of the shell's. *)
Definition command (fuel : nat) (b_path b_attr b_envp b_res cmd parse pwd path attr envp : Z) : M Z :=
  get_cmd fuel cmd parse ;;;
  err <- inner_cmd b_path b_attr b_envp b_res parse pwd ;;
  if err =? E_OK then ret E_OK else
  (if negb (err =? E_NOTFOUND) then say f_fail [strerror err] else ret tt) ;;;
  Tty.on_mem (launch parse pwd path attr envp 1) ;;; ret err.
Definition main_turn (fuel : nat) (b_path b_attr b_envp b_res cmd parse pwd path attr envp res : Z) : M unit :=
  say f_prompt [pwd] ;;;
  err <- command fuel b_path b_attr b_envp b_res cmd parse pwd path attr envp ;;
  if err =? E_OK then ret tt else
  err <- proc_create path attr res ;;
  (if negb (err =? E_OK) then say f_fail [strerror err] else ret tt) ;;;
  e <- Tty.on_mem (rdw res) ;;
  if negb (e =? E_OK) then say f_error [strerror e] else ret tt.
End code.

(** ** Words *)
Definition word_char (c : Z) : Prop := c ≠ BLANK.
#[export] Instance word_char_dec c : Decision (word_char c).
Proof. unfold word_char. apply _. Defined.

(** The characters up to the first blank. *)
Fixpoint first_word (l : list Z) : list Z :=
  match l with c :: l => if decide (word_char c) then c :: first_word l else [] | [] => [] end.
(** The words and where they begin; [sep]: a word may begin here. *)
Fixpoint words_at (sep : bool) (i : Z) (l : list Z) : list (Z * list Z) :=
  match l with
  | [] => []
  | c :: l' =>
      if decide (word_char c)
      then (if sep then [(i, first_word l)] else []) ++ words_at false (i + 1) l'
      else words_at true (i + 1) l'
  end.
Definition words (l : list Z) : list (list Z) := (words_at true 1 l).*2.
(** What the line becomes. *)
Definition blanked (l : list Z) : list Z := (λ c, if c =? BLANK then 0 else c) <$> l.

Lemma first_word_cut l : ∃ r, l = first_word l ++ r ∧ (r = [] ∨ ∃ r', r = BLANK :: r') ∧ Forall word_char (first_word l).
Proof.
  induction l as [|c l (r & Hl & Hr & Hf)]; [by exists []; split_and!; [|left|constructor]|]. cbn [first_word].
  destruct (decide (word_char c)) as [Hc|Hc].
  - exists r. split_and!; [by rewrite Hl at 1|done|by constructor].
  - exists (c :: l). split_and!; [done| |constructor]. right. exists l. unfold word_char in Hc. by destruct (decide (c = BLANK)) as [->|].
Qed.

Lemma words_at_spec sep i l o w : (o, w) ∈ words_at sep i l →
  ∃ l1 r, l = l1 ++ w ++ r ∧ o = i + len l1 ∧ (r = [] ∨ ∃ r', r = BLANK :: r') ∧ Forall word_char w ∧ w ≠ [].
Proof.
  revert sep i. induction l as [|c l IH]; intros sep i; cbn [words_at]; [by intros ?%elem_of_nil|].
  assert (∀ sep', (o, w) ∈ words_at sep' (i + 1) l → ∃ l1 r, c :: l = l1 ++ w ++ r ∧ o = i + len l1 ∧
    (r = [] ∨ ∃ r', r = BLANK :: r') ∧ Forall word_char w ∧ w ≠ []) as Hnext.
  { intros sep' (l1 & r & -> & -> & Hr)%IH. exists (c :: l1), r. split; [done|]. split; [cbn [length]; lia|done]. }
  destruct (decide (word_char c)) as [Hc|Hc]; [|apply Hnext]. rewrite elem_of_app. intros [Hin|Hin]; [|by eapply Hnext].
  destruct sep; [|by apply elem_of_nil in Hin]. apply list_elem_of_singleton in Hin as [= -> ->].
  destruct (first_word_cut (c :: l)) as (r & Hl & Hr & Hf). exists [], r. split_and!; [done|cbn; lia|done|done|].
  cbn [first_word]. by rewrite decide_True.
Qed.

(** ** Writes to some bytes only *)
Record confined (P : Z → Prop) (m m' : mem) : Prop := {
  cf_frame : ∀ x, ¬ P x → m' !! x = m !! x;
  cf_mapped : ∀ x, is_Some (m !! x) → is_Some (m' !! x);
  cf_bytes : all_bytes m → all_bytes m';
}.
Lemma confined_refl P m : confined P m m.
Proof. by split. Qed.
Lemma confined_trans P m1 m2 m3 : confined P m1 m2 → confined P m2 m3 → confined P m1 m3.
Proof. intros [A1 A2 A3] [B1 B2 B3]. split; [|by auto|by auto]. intros x Hx. by rewrite B1, A1. Qed.
Lemma confined_only (P : Z → Prop) a n m m' : only a n m m' → (∀ x, a ≤ x < a + n → P x) → confined P m m'.
Proof.
  intros [O1 O2 O3] HP. split; [|done|done]. intros x Hx. apply O1.
  destruct (decide (x < a ∨ a + n ≤ x)); [done|]. exfalso. apply Hx, HP. lia.
Qed.
Lemma confined_holds P m m' a l : confined P m m' → holds m a l → (∀ x, a ≤ x < a + len l → ¬ P x) → holds m' a l.
Proof.
  intros [C1 _ _] Hl HP i b Hi. pose proof (lookup_lt_Some _ _ _ Hi). rewrite C1 by (apply HP; lia). by apply Hl.
Qed.
Lemma wp_put_byte m a v (Q : unit → mem → Prop) : is_Some (m !! a) → 0 ≤ v < 256 →
  (∀ m', m' !! a = Some v → only a 1 m m' → Q tt m') → wp (wr a v) Q m.
Proof.
  intros Hm Hv HQ. apply wp_wr; [done|]. rewrite Z.mod_small by done. apply HQ; [apply lookup_insert_eq|]. split.
  - intros x Hx. apply lookup_insert_ne. lia.
  - intros x Hx. destruct (decide (x = a)) as [->|]; [rewrite lookup_insert_eq; by eexists|by rewrite lookup_insert_ne].
  - intros Hb x w Hx. apply lookup_insert_Some in Hx as [[_ <-]|[_ Hx]]; [done|by eapply Hb].
Qed.

(** ** The line is cut *)
Section cut.
Context (cmd args : Z) (l : list Z) (m0 : mem) (P : Z → Prop).
Let N := len (words l).
(** The bytes [get_cmd] writes. *)
Definition line_area (x : Z) : Prop := cmd ≤ x < cmd + len l + 2.
Definition args_area (x : Z) : Prop := args ≤ x < args + 4 * N + 4.
Hypothesis Hchars : Forall (λ c, 0 < c < 256) l.
Hypothesis Hcmd : 0 < cmd ∧ cmd + len l + 2 ≤ KERN_BASE ∧ len l < 2 ^ 31.
Hypothesis Hargs : 0 < args ∧ args + 4 * N + 4 < W32 ∧ mapped m0 args (4 * N + 4).
Hypothesis Hapart : cmd + len l + 2 ≤ args ∨ args + 4 * N + 4 ≤ cmd.
Hypothesis HP : ∀ x, line_area x → ¬ P x.

Definition sep_of (l1 : list Z) : bool := match last l1 with Some c => bool_decide (c = BLANK) | None => true end.

Record cut_at (l1 l2 : list Z) (os : list Z) (m : mem) : Prop := {
  ct_line : holds m cmd (0 :: blanked l1 ++ l2 ++ [0]);
  ct_ptrs : ∀ k o, os !! k = Some o → word m (args + 4 * Z.of_nat k) (cmd + o);
  ct_conf : confined (λ x, line_area x ∨ args_area x) m0 m;
  ct_words : os ++ (words_at (sep_of l1) (1 + len l1) l2).*1 = (words_at true 1 l).*1;
}.

Lemma ct_room l1 l2 os m : cut_at l1 l2 os m → len os ≤ N.
Proof.
  intros [_ _ _ H]. apply (f_equal length) in H. rewrite length_app, !length_fmap in H.
  unfold N, words. rewrite length_fmap. lia.
Qed.

Lemma blanked_app l1 l2 : blanked (l1 ++ l2) = blanked l1 ++ blanked l2.
Proof. apply fmap_app. Qed.
Lemma blanked_len l1 : length (blanked l1) = length l1.
Proof. apply length_fmap. Qed.

(** The byte before the rest is 0 exactly where a word may begin. *)
Lemma prev_byte m l1 r : Forall (λ c, 0 < c < 256) l1 → holds m cmd (0 :: blanked l1 ++ r) →
  ∃ b, m !! (cmd + len l1) = Some b ∧ (b =? 0) = sep_of l1.
Proof.
  intros Hl Hh. destruct l1 as [|c l1 _] using rev_ind.
  - exists 0. split; [|done]. apply holds_cons in Hh as [Hh _]. by rewrite Z.add_0_r.
  - rewrite blanked_app in Hh. apply holds_cons in Hh as [_ Hh]. rewrite <- app_assoc in Hh. apply holds_app in Hh as [_ Hh].
    cbn [blanked fmap list_fmap app] in Hh. apply holds_cons in Hh as [Hh _]. rewrite blanked_len in Hh.
    exists (if c =? BLANK then 0 else c). rewrite length_app. cbn [length].
    replace (cmd + Z.of_nat (length l1 + 1)) with (cmd + 1 + len l1) by lia. split; [exact Hh|].
    unfold sep_of. rewrite last_snoc. apply Forall_app in Hl as [_ [Hc _]%Forall_cons].
    destruct (Z.eqb_spec c BLANK) as [->|Hne]; [done|]. rewrite bool_decide_false by done. lia.
Qed.

Lemma ct_step l1 c l2 os m : l = l1 ++ c :: l2 → cut_at l1 (c :: l2) os m →
  wp (split_body cmd args (len l) (1 + len l1, len os)) (λ r m', ∃ os', cut_at (l1 ++ [c]) l2 os' m' ∧
    r = inl (1 + len (l1 ++ [c]), len os')) m.
Proof.
  intros Hl Hct. pose proof (ct_room _ _ _ _ Hct) as Hroom. destruct Hct as [H1 H2 H3 H4].
  assert (len l = len l1 + 1 + len l2) as Hlen by (rewrite Hl, length_app; cbn [length]; lia).
  assert (W32 = 4294967296 ∧ KERN_BASE = 0xC0000000) as [EW EK] by done.
  assert (Forall (λ c, 0 < c < 256) l1 ∧ 0 < c < 256) as [Hl1 Hc].
  { rewrite Hl in Hchars. apply Forall_app in Hchars as [? [? _]%Forall_cons]. done. }
  destruct (prev_byte m l1 ((c :: l2) ++ [0]) Hl1 H1) as (b & Hb & Hbs).
  assert (holds m (cmd + (1 + len l1)) (c :: l2 ++ [0])) as Hhere.
  { apply holds_cons in H1 as [_ H1]. apply holds_app in H1 as [_ H1]. rewrite blanked_len in H1.
    by replace (cmd + (1 + len l1)) with (cmd + 1 + len l1) by lia. }
  apply holds_cons in Hhere as [Hc0 Hrest].
  unfold split_body. rewrite (proj2 (Z.leb_le (1 + len l1) (len l))) by lia.
  assert (add32 cmd (1 + len l1) = cmd + (1 + len l1)) as E1 by (apply add32_small; lia).
  assert (add32 cmd (1 + len l1 - 1) = cmd + len l1) as E2 by (replace (1 + len l1 - 1) with (len l1) by lia; apply add32_small; lia).
  rewrite E1, E2. apply wp_bind, (wp_rd _ _ _ _ Hc0), wp_bind.
  apply (wp_mono _ (λ _ m', holds m' cmd (0 :: blanked (l1 ++ [c]) ++ l2 ++ [0]) ∧ m' !! (cmd + len l1) = Some b ∧
    m' !! (cmd + (1 + len l1)) = Some (if c =? BLANK then 0 else c) ∧
    (∀ k o, os !! k = Some o → word m' (args + 4 * Z.of_nat k) (cmd + o)) ∧ confined (λ x, line_area x ∨ args_area x) m0 m')).
  { destruct (Z.eqb_spec c BLANK) as [->|Hne].
    - apply wp_put_byte; [by eexists|lia|]. intros m1 Hm1 Ho1.
      assert (∀ a l', holds m a l' → a + len l' ≤ cmd + (1 + len l1) ∨ cmd + (1 + len l1) + 1 ≤ a → holds m1 a l') as Hk
        by (intros a l' Hh Hd; by eapply only_holds).
      split_and!; [|by rewrite (on_frame _ _ _ _ Ho1) by lia|done| |].
      + rewrite blanked_app, <- app_assoc. rewrite app_comm_cons in H1 |- *. apply holds_app in H1 as [H1 _].
        apply holds_app. split; [apply Hk; [done|]; cbn [length]; rewrite blanked_len; lia|].
        cbn [length]. rewrite blanked_len. apply holds_cons. split; [by replace (cmd + _) with (cmd + (1 + len l1)) by lia|].
        replace (cmd + Z.of_nat (S (length l1)) + 1) with (cmd + (1 + len l1) + 1) by lia. apply Hk; [done|lia].
      + intros k o Hk'. apply Hk; [by apply H2|]. apply lookup_lt_Some in Hk'. cbn [length bytes4]. lia.
      + eapply confined_trans; [exact H3|]. eapply confined_only; [exact Ho1|]. intros x Hx. left. unfold line_area. lia.
    - apply wp_ret. split_and!; [|done|done|done|done]. rewrite blanked_app, <- app_assoc.
      cbn [blanked fmap list_fmap app] in *. by rewrite (proj2 (Z.eqb_neq c BLANK)). }
  intros _ m1 (K1 & K2 & K3 & K4 & K5). apply wp_bind, (wp_rd _ _ _ _ K2), wp_bind. rewrite Hbs.
  assert (1 + len (l1 ++ [c]) = 1 + len l1 + 1) as Enext by (rewrite length_app; cbn [length]; lia).
  assert (sep_of (l1 ++ [c]) = bool_decide (c = BLANK)) as Esep by (unfold sep_of; by rewrite last_snoc).
  cbn [words_at] in H4.
  apply (wp_mono _ (λ d m', m' = m1 ∧ (d =? 0) = negb (sep_of l1 && negb (c =? BLANK)))).
  { destruct (sep_of l1); [|by apply wp_ret]. apply (wp_rd _ _ _ _ K3). split; [done|].
    destruct (Z.eqb_spec c BLANK); [done|]. cbn. lia. }
  intros d m2 [-> ->]. rewrite negb_involutive. unfold word_char in H4. destruct (Z.eqb_spec c BLANK) as [->|Hne].
  { rewrite andb_false_r. apply wp_ret. exists os. split; [|by rewrite Enext]. split; [done..|].
    rewrite Esep, bool_decide_true by done. rewrite decide_False in H4 by tauto. by rewrite Enext. }
  rewrite decide_True in H4 by done. rewrite andb_true_r. destruct (sep_of l1) eqn:Hs; cbn [app] in H4.
  2:{ apply wp_ret. exists os. split; [|by rewrite Enext]. split; [done..|].
      rewrite Esep, bool_decide_false by done. by rewrite Enext. }
  assert (len os + 1 ≤ N) as Hroom2.
  { apply (f_equal length) in H4. rewrite length_app, !length_fmap in H4. cbn [length fmap list_fmap] in H4.
    unfold N, words. rewrite length_fmap. lia. }
  assert (elt args (len os) = args + 4 * len os) as ->.
  { unfold elt. rewrite mul32_small, add32_small by lia. done. }
  apply wp_bind, wp_wrw; [|lia|lia|].
  { intros x Hx. apply (cf_mapped _ _ _ K5), Hargs. lia. }
  intros m2 Hw Ho. apply wp_ret. exists (os ++ [1 + len l1]). rewrite Enext. split.
  2:{ rewrite length_app. cbn [length]. do 3 f_equal. lia. }
  split.
  - eapply only_holds; [exact Ho|exact K1|]. cbn [length]. rewrite !length_app, blanked_len, !length_app. cbn [length]. lia.
  - intros k o [Hk|[Hk Hk']]%lookup_app_Some.
    + pose proof (lookup_lt_Some _ _ _ Hk). eapply only_holds; [exact Ho|by apply K4|]. cbn [length bytes4]. lia.
    + destruct (k - length os)%nat as [|j] eqn:Ek; cbn in Hk'; [|by destruct j]. simplify_eq.
      by replace (Z.of_nat k) with (len os) by lia.
  - eapply confined_trans; [exact K5|]. eapply confined_only; [exact Ho|]. intros x Hx. right. unfold args_area. lia.
  - rewrite Esep, bool_decide_false by done. rewrite Enext, <- app_assoc. exact H4.
Qed.

(** The string at the start of a word ends with it. *)
Lemma word_str m o w : holds m cmd (0 :: blanked l ++ [0]) → (o, w) ∈ words_at true 1 l →
  str_at P m (cmd + o) w.
Proof.
  intros Hm Hin. apply words_at_spec in Hin as (l1 & r & Hl & -> & Hr & Hw & Hne).
  assert (len l = len l1 + len w + len r) as Hlen by (rewrite Hl, !length_app; lia).
  assert (blanked w = w) as Hbw.
  { unfold blanked. clear - Hw. induction Hw as [|c w Hc _ IH]; [done|]. cbn. rewrite IH.
    by rewrite (proj2 (Z.eqb_neq c BLANK)) by done. }
  assert (W32 = 4294967296 ∧ KERN_BASE = 0xC0000000) as [EW EK] by done. split; [lia|split|intros x Hx; apply HP; unfold line_area; lia].
  - apply holds_cons in Hm as [_ Hm]. rewrite Hl, !blanked_app, Hbw in Hm. rewrite <- !app_assoc in Hm.
    apply holds_app in Hm as [_ Hm]. rewrite blanked_len in Hm.
    replace (cmd + (1 + len l1)) with (cmd + 1 + len l1) by lia.
    destruct Hr as [->|[r' ->]]; [done|]. apply holds_app in Hm as [Hm Hr]. apply holds_app. split; [done|].
    change (blanked (BLANK :: r')) with (0 :: blanked r') in Hr. apply holds_cons in Hr as [Hr _].
    apply holds_cons. split; [done|by intros ??].
  - rewrite Hl in Hchars. apply Forall_app in Hchars as [_ [? _]%Forall_app]. done.
  - lia.
Qed.

Lemma split_spec : holds m0 cmd (0 :: l ++ [0]) → wp (split cmd args) (λ _ m', vec P m' args (words l) ∧
  confined (λ x, line_area x ∨ args_area x) m0 m') m0.
Proof.
  intros Hm. assert (W32 = 4294967296 ∧ KERN_BASE = 0xC0000000) as [EW EK] by done. unfold split.
  assert (add32 cmd 1 = cmd + 1) as -> by (apply add32_small; lia).
  assert (cstr m0 (cmd + 1) l) as Hcs by (split; [by apply holds_cons in Hm as [_ Hm]|done|lia]).
  apply wp_bind. eapply wp_mono; [by apply strlen_spec|]. intros ? ? [-> ->]. rewrite s32_small by lia.
  apply wp_bind, (wp_mono _ (λ p m', ∃ os, p = len os ∧ cut_at l [] os m')).
  - apply (wp_loop (λ n v m', ∃ l1 l2 os, l = l1 ++ l2 ∧ n = length l2 ∧ v = (1 + len l1, len os) ∧ cut_at l1 l2 os m'))
      with (n := length l); [|lia|].
    + intros n v m (l1 & l2 & os & Hl & -> & -> & Hct). destruct l2 as [|c l2].
      * rewrite app_nil_r in Hl. subst l1. unfold split_body. rewrite (proj2 (Z.leb_gt (1 + len l) (len l))) by lia.
        apply wp_ret. by exists os.
      * eapply wp_mono; [by eapply ct_step|]. intros r m' (os' & Hct' & ->). exists (length l2). split; [cbn; lia|].
        exists (l1 ++ [c]), l2, os'. split; [by rewrite <- app_assoc|done].
    + by exists [], l, [].
  - intros p m (os & -> & [C1 C2 C3 C4]). cbn [words_at] in C4. rewrite fmap_nil, app_nil_r in C4.
    assert (len os = N) as Hos by (rewrite C4; unfold N, words; by rewrite !length_fmap).
    assert (elt args (len os) = args + 4 * len os) as -> by (unfold elt; rewrite mul32_small, add32_small by lia; done).
    change ([] ++ [0]) with [0] in C1.
    apply wp_wrw; [|lia|lia|]; [intros x Hx; apply (cf_mapped _ _ _ C3), Hargs; lia|]. intros m' Hw Ho.
    assert (holds m' cmd (0 :: blanked l ++ [0])) as Hline.
    { eapply only_holds; [exact Ho|exact C1|]. cbn [length]. rewrite length_app, blanked_len. cbn [length]. lia. }
    split; [split|].
    + intros i w Hi. unfold words in Hi. apply list_lookup_fmap_Some in Hi as ([o w'] & -> & Ho').
      assert (os !! i = Some o) as Hoi by (rewrite C4; apply list_lookup_fmap_Some; by exists (o, w')).
      exists (cmd + o). split; [|by eapply word_str, list_elem_of_lookup_2].
      eapply only_holds; [exact Ho|by apply C2|]. apply lookup_lt_Some in Hoi. cbn [length bytes4]. lia.
    + change (len (words l)) with N. by rewrite <- Hos.
    + eapply confined_trans; [exact C3|]. eapply confined_only; [exact Ho|]. intros x Hx. right. unfold args_area. lia.
Qed.
End cut.

(** ** Lines made of words *)
Fixpoint spaced (ws : list (list Z)) : list Z :=
  match ws with [] => [] | [w] => w | w :: ws => w ++ BLANK :: spaced ws end.
Definition is_word (w : list Z) : Prop := w ≠ [] ∧ Forall word_char w.

Lemma words_at_shift sep i j l : (words_at sep i l).*2 = (words_at sep j l).*2.
Proof.
  revert sep i j. induction l as [|c l IH]; intros sep i j; [done|]. cbn [words_at].
  destruct (decide (word_char c)); [|apply IH]. rewrite !fmap_app, (IH false (i + 1) (j + 1)). by destruct sep.
Qed.
Lemma words_at_rest i w r : Forall word_char w → words_at false i (w ++ r) = words_at false (i + len w) r.
Proof.
  intros Hw. revert i. induction Hw as [|c w Hc _ IH]; intros i; [by rewrite Z.add_0_r|]. cbn [app words_at].
  rewrite decide_True by done. cbn [app]. rewrite IH. f_equal. cbn [length]. lia.
Qed.
Lemma first_word_app w r : Forall word_char w → (r = [] ∨ ∃ r', r = BLANK :: r') → first_word (w ++ r) = w.
Proof.
  intros Hw Hr. induction Hw as [|c w Hc _ IH]; cbn [app first_word].
  - destruct Hr as [->|[r' ->]]; [done|]. cbn [first_word]. by rewrite decide_False by (intros H; by apply H).
  - by rewrite decide_True, IH.
Qed.
(** [words] undoes [spaced]. *)
Lemma words_spaced ws : Forall is_word ws → words (spaced ws) = ws.
Proof.
  unfold words. intros Hw. generalize 1. induction Hw as [|w ws [Hne Hw] _ IH]; intros i; [done|].
  assert (∀ r, (r = [] ∨ ∃ r', r = BLANK :: r') → (words_at true i (w ++ r)).*2 = w :: (words_at false (i + len w) r).*2) as Hgo.
  { intros r Hr. destruct w as [|c w]; [done|]. apply Forall_cons in Hw as [Hc Hw']. cbn [app words_at].
    rewrite decide_True by done. rewrite words_at_rest by done.
    change (c :: w ++ r) with ((c :: w) ++ r). rewrite first_word_app by first [done|by constructor].
    cbn [app fmap list_fmap snd]. do 2 f_equal. cbn [length]. f_equal. lia. }
  destruct ws as [|w2 ws]; cbn [spaced].
  - rewrite <- (app_nil_r w) at 1. rewrite Hgo by by left. done.
  - rewrite Hgo by (right; by eexists). f_equal. cbn [words_at]. rewrite decide_False by (intros H; by apply H).
    rewrite (words_at_shift _ _ i). apply IH.
Qed.
Lemma words_ok l : Forall is_word (words l).
Proof.
  apply Forall_forall. intros w ([o w'] & -> & Hin)%list_elem_of_fmap. apply words_at_spec in Hin as (_ & _ & _ & _ & _ & ? & ?). done.
Qed.

(** ** The path and the attributes *)
Definition BIN : list Z := [47; 98; 105; 110; 47].
Definition ELF : list Z := [46; 101; 108; 102].
Definition apart2 (a n b k : Z) : Prop := a + n ≤ b ∨ b + k ≤ a.

Lemma cstr_only a n m m' p l : only a n m m' → cstr m p l → apart2 a n p (len l + 1) → cstr m' p l.
Proof.
  intros Ho [C1 C2 C3] Ha. split; [|done|done]. eapply only_holds; [exact Ho|exact C1|].
  rewrite length_app. cbn [length]. unfold apart2 in Ha. lia.
Qed.

Section path.
Context (s_bin s_elf parse path p : Z) (w : list Z) (m : mem).
Let K := len w + 10.
Hypothesis Hbin : cstr m s_bin BIN ∧ 0 ≤ s_bin ∧ apart2 path K s_bin 6.
Hypothesis Helf : cstr m s_elf ELF ∧ 0 ≤ s_elf ∧ apart2 path K s_elf 5.
Hypothesis Hw : cstr m p w ∧ 0 ≤ p ∧ apart2 path K p (len w + 1).
Hypothesis Hp : word m parse p ∧ 0 ≤ parse ∧ parse + 4 ≤ W32 ∧ apart2 path K parse 4.
Hypothesis Hpath : mapped m path K ∧ 0 ≤ path ∧ path + K < W32 ∧ all_bytes m.

(** What is read stays while the path is written. *)
Lemma path_reads m1 : only path K m m1 → cstr m1 s_bin BIN ∧ cstr m1 s_elf ELF ∧ cstr m1 p w ∧ word m1 parse p.
Proof.
  intros Ho. destruct Hbin as (? & ? & ?), Helf as (? & ? & ?), Hw as (? & ? & ?), Hp as (? & ? & ? & Ha).
  split_and!; try (eapply cstr_only; [exact Ho|done|]; done).
  eapply only_holds; [exact Ho|done|]. unfold apart2 in Ha. cbn [length bytes4]. lia.
Qed.

Lemma get_elf_path_spec : wp (get_elf_path s_bin s_elf parse path)
  (λ _ m', cstr m' path (BIN ++ w ++ ELF) ∧ only path K m m') m.
Proof.
  destruct Hpath as (Hm & Hp0 & Hpw & Hb). pose proof Hbin as (HB & HB0 & HBa). pose proof Helf as (HE & HE0 & HEa).
  pose proof Hw as (HW & HW0 & HWa). pose proof Hp as (HP & HP0 & HPw & HPa).
  unfold apart2 in *. pose proof (cs_range _ _ _ HB). pose proof (cs_range _ _ _ HE). pose proof (cs_range _ _ _ HW) as Hrw.
  assert (W32 = 4294967296) as EW by done. assert (is_u32 p) as Hpu by (unfold is_u32; lia).
  assert (len BIN = 5 ∧ len ELF = 4) as [L1 L2] by done.
  assert (∀ m1 {B} (k : Z → M mem B) Q, only path K m m1 → wp (k 5) Q m1 → wp (n <- strlen s_bin ;; k n) Q m1) as Rbin.
  { intros m1 B k Q Ho HQ. apply wp_bind. eapply wp_mono; [apply strlen_spec, (path_reads _ Ho)|]. by intros ? ? [-> ->]. }
  assert (∀ m1 {B} (k : Z → M mem B) Q, only path K m m1 → wp (k 4) Q m1 → wp (n <- strlen s_elf ;; k n) Q m1) as Relf.
  { intros m1 B k Q Ho HQ. apply wp_bind. eapply wp_mono; [apply strlen_spec, (path_reads _ Ho)|]. by intros ? ? [-> ->]. }
  assert (∀ m1 {B} (k : Z → Z → M mem B) Q, only path K m m1 → wp (k p (len w)) Q m1 →
    wp (q <- rdw parse ;; n <- strlen q ;; k q n) Q m1) as Rw.
  { intros m1 B k Q Ho HQ. apply wp_bind. apply (wp_rdw _ _ p); [apply (path_reads _ Ho)|done|done|done|].
    apply wp_bind. eapply wp_mono; [apply strlen_spec, (path_reads _ Ho)|]. by intros ? ? [-> ->]. }
  unfold get_elf_path. apply Rbin; [apply only_refl|]. apply wp_bind. rewrite <- L1 at 1.
  assert (∀ m1 a s l (Q : unit → mem → Prop), only path K m m1 → holds m1 s l → 0 ≤ s → s + len l < W32 →
    path ≤ a → a + len l ≤ path + K → (a + len l ≤ s ∨ s + len l ≤ a) →
    (∀ u m2, holds m2 a l → only a (len l) m1 m2 → only path K m m2 → Q u m2) → wp (memcpy a s (len l)) Q m1) as Cp.
  { intros m1 a s l Q Ho Hl Hs Hsw Ha Haw Hap HQ. apply wp_memcpy; try done; try lia.
    - by apply (on_bytes _ _ _ _ Ho).
    - intros x Hx. apply (only_mapped _ _ _ _ _ _ Ho Hm). lia.
    - intros u m2 Hh Ho2. apply HQ; [done|done|]. eapply only_seq; [exact Ho|]. eapply only_wider; [exact Ho2|lia|lia]. }
  assert (∀ m1 s l, cstr m1 s l → holds m1 s l) as Hcs by (intros m1 s l [Hh _ _]; by apply holds_app in Hh as [Hh _]).
  apply (Cp m); [apply only_refl|by apply Hcs|lia|lia|lia|unfold K in *; lia|unfold K in *; lia|]. intros _ m1 H1 _ O1.
  apply Rbin; [done|]. apply Rw; [done|]. assert (add32 path 5 = path + 5) as E5 by (apply add32_small; unfold K in *; lia).
  rewrite E5. apply wp_bind. destruct (path_reads _ O1) as (_ & _ & W1 & _).
  apply (Cp m1); [done|by apply Hcs|lia|lia|lia|unfold K in *; lia|unfold K in *; lia|]. intros _ m2 H2 O2' O2.
  apply Rbin; [done|]. apply Rw; [done|]. apply Relf; [done|].
  assert (add32 (add32 path 5) (len w) = path + 5 + len w) as E6 by (rewrite E5; apply add32_small; unfold K in *; lia).
  rewrite E6. apply wp_bind. rewrite <- L2 at 1. destruct (path_reads _ O2) as (_ & X2 & _).
  apply (Cp m2); [done|by apply Hcs|lia|lia|lia|unfold K in *; lia|unfold K in *; lia|]. intros _ m3 H3 O3' O3.
  apply Rbin; [done|]. apply Rw; [done|]. apply Relf; [done|].
  rewrite E6, add32_small by (unfold K in *; lia).
  apply wp_put_byte; [apply (only_mapped _ _ _ _ _ _ O3 Hm); unfold K in *; lia|lia|]. intros m4 H4 O4.
  split.
  2:{ eapply only_seq; [exact O3|]. eapply only_wider; [exact O4|lia|unfold K in *; lia]. }
  split.
  - rewrite <- !app_assoc. apply holds_app. split.
    { eapply only_holds; [exact O4| |left; lia]. eapply only_holds; [exact O3'| |left; lia].
      eapply only_holds; [exact O2'|exact H1|left; lia]. }
    rewrite L1. apply holds_app. split.
    { eapply only_holds; [exact O4| |left; lia]. eapply only_holds; [exact O3'|exact H2|left; lia]. }
    apply holds_app. split; [eapply only_holds; [exact O4|exact H3|left; lia]|].
    apply holds_cons. split; [|by intros ??]. rewrite L2. exact H4.
  - apply Forall_app. split; [repeat (constructor; [lia|]); constructor|]. apply Forall_app.
    split; [by destruct HW|repeat (constructor; [lia|]); constructor].
  - rewrite !length_app. unfold K in *. cbn [length BIN ELF]. lia.
Qed.
End path.

Section attr.
Context (parse argv pwd attr envp wait p : Z) (w : list Z) (m : mem).
Hypothesis Hw : cstr m p w ∧ 0 ≤ p ∧ p + len w + 1 < W32 ∧ apart2 attr 44 p (len w + 1).
Hypothesis Hp : word m parse p ∧ 0 ≤ parse ∧ parse + 4 ≤ W32.
Hypothesis Hattr : mapped m attr 44 ∧ 0 ≤ attr ∧ attr + 44 < W32 ∧ len w + 1 ≤ 32.
Hypothesis Henvp : mapped m envp 8 ∧ 0 ≤ envp ∧ envp + 8 < W32 ∧ apart2 attr 44 envp 8.
Hypothesis Hvals : is_u32 argv ∧ is_u32 pwd ∧ is_u32 wait ∧ all_bytes m.
Definition attr_area (x : Z) : Prop := attr ≤ x < attr + 44 ∨ envp ≤ x < envp + 8.

Record filled_attr (m' : mem) : Prop := {
  fa_name : cstr m' attr w;
  fa_argv : word m' (attr + Proc.A_ARGV) argv;
  fa_envp : word m' (attr + Proc.A_ENVP) envp ∧ word m' envp pwd ∧ word m' (envp + 4) 0;
  fa_wait : word m' (attr + Proc.A_WAIT) wait;
  fa_only : confined attr_area m m';
}.

Lemma fill_attr_spec : wp (fill_attr parse argv pwd attr envp wait) (λ _ m', filled_attr m') m.
Proof.
  destruct Hw as (HW & Hp0 & HWw & HWa). destruct Hp as (HP & HP0 & HPw). destruct Hattr as (Hm & Ha & Haw & Hlw).
  destruct Henvp as (He & He0 & Hew & Hea). destruct Hvals as (V1 & V2 & V3 & Hb). unfold apart2 in *.
  pose proof HW as [HWh HWc HWr]. assert (W32 = 4294967296) as EW by done.
  unfold fill_attr, Proc.A_ARGV, Proc.A_ENVP, Proc.A_WAIT. apply wp_bind, (wp_rdw _ _ p); [done|unfold is_u32; lia|done|done|].
  apply wp_bind. eapply wp_mono; [by apply strlen_spec|]. intros ? ? [-> ->]. apply wp_bind. change strcpy with memcpy.
  rewrite (add32_small (len w) 1) by lia. assert (len w + 1 = len (w ++ [0])) as -> by (rewrite length_app; cbn [length]; lia).
  assert (len (w ++ [0]) = len w + 1) as Ew by (rewrite length_app; cbn [length]; lia).
  apply wp_memcpy; rewrite ?Ew; try done; try lia; [intros x Hx; apply Hm; lia|]. intros _ m1 H1 O1.
  assert (∀ x, elt envp x = add32 envp (mul32 4 x)) as Eelt by done. rewrite !Eelt.
  change (mul32 4 0) with 0. change (mul32 4 1) with 4.
  rewrite !(add32_small attr), !(add32_small envp), Z.add_0_r by lia.
  assert (confined attr_area m m1) as C1 by (eapply confined_only; [exact O1|]; intros x Hx; left; lia).
  (* one of the five stores *)
  assert (∀ m2 a v (Q : unit → mem → Prop), confined attr_area m m2 → (∀ x, a ≤ x < a + 4 → attr_area x) → 0 ≤ a → a + 4 ≤ W32 →
    (∀ m3, word m3 a v → only a 4 m2 m3 → confined attr_area m m3 → Q tt m3) → wp (wrw a v) Q m2) as St.
  { intros m2 a v Q C2 Hin Ha0 Haw' HQ. apply wp_wrw; [|done|done|].
    - intros x Hx. apply (cf_mapped _ _ _ C2). destruct (Hin x Hx); [apply Hm|apply He]; lia.
    - intros m3 Hw3 O3. apply HQ; [done|done|]. eapply confined_trans; [exact C2|]. by eapply confined_only. }
  assert (∀ b n m2 m3 a v, only b n m2 m3 → word m2 a v → a + 4 ≤ b ∨ b + n ≤ a → word m3 a v) as Hk.
  { intros b n m2 m3 a v O Hv Hd. eapply only_holds; [exact O|exact Hv|]. cbn [length bytes4]. lia. }
  apply wp_bind; eapply St; [done|by intros; left; lia|lia|lia|]. intros m2 W2 O2 C2.
  apply wp_bind; eapply St; [done|by intros; right; lia|lia|lia|]. intros m3 W3 O3 C3.
  apply wp_bind; eapply St; [done|by intros; right; lia|lia|lia|]. intros m4 W4 O4 C4.
  apply wp_bind; eapply St; [done|by intros; left; lia|lia|lia|]. intros m5 W5 O5 C5.
  eapply St; [done|by intros; left; lia|lia|lia|]. intros m6 W6 O6 C6.
  split; unfold Proc.A_ARGV, Proc.A_ENVP, Proc.A_WAIT.
  - split; [|done|lia].
    do 5 (eapply only_holds; [eassumption| |rewrite Ew; lia]). exact H1.
  - eapply Hk; [exact O6| |lia]. eapply Hk; [exact O5| |lia]. eapply Hk; [exact O4| |lia]. eapply Hk; [exact O3|exact W2|lia].
  - split; [eapply Hk; [exact O6|exact W5|lia]|]. split.
    + eapply Hk; [exact O6| |lia]. eapply Hk; [exact O5| |lia]. eapply Hk; [exact O4|exact W3|lia].
    + eapply Hk; [exact O6| |lia]. eapply Hk; [exact O5|exact W4|lia].
  - exact W6.
  - exact C6.
Qed.
End attr.

(** ** From the terminal to the new process *)
Fixpoint apart_from (a : Z * Z) (l : list (Z * Z)) : Prop :=
  match l with [] => True | b :: l => apart2 (fst a) (snd a) (fst b) (snd b) ∧ apart_from a l end.
Fixpoint all_apart (l : list (Z * Z)) : Prop :=
  match l with [] => True | a :: l => apart_from a l ∧ all_apart l end.

(** The arrays of [main], with their sizes. *)
Definition arrays (cmd parse path attr envp : Z) : list (Z * Z) :=
  [(cmd, 256); (parse, 128); (path, 128); (attr, 44); (envp, 128)].
Definition in_arrays (fr : list (Z * Z)) (x : Z) : Prop := ∃ a, a ∈ fr ∧ fst a ≤ x < fst a + snd a.
Definition frame_ok (fr : list (Z * Z)) (m : mem) : Prop :=
  all_apart fr ∧ Forall (λ a, 0 < fst a ∧ fst a + snd a ≤ KERN_BASE ∧ mapped m (fst a) (snd a)) fr.
(** A string that is not in the arrays. *)
Record constant (fr : list (Z * Z)) (m : mem) (p : Z) (l : list Z) : Prop := {
  cn_str : cstr m p l;
  cn_pos : 0 < p ∧ p + len l + 1 ≤ KERN_BASE;
  cn_out : ∀ a, a ∈ fr → apart2 (fst a) (snd a) p (len l + 1);
}.

Lemma constant_conf P fr m m' p l : constant fr m p l → confined P m m' → (∀ x, P x → in_arrays fr x) → constant fr m' p l.
Proof.
  intros [[C1 C2 C3] Hp Ho] Hc HP. split; [|done|done]. split; [|done|done].
  eapply confined_holds; [done|done|]. intros x Hx (a & Ha & Hin)%HP. rewrite length_app in Hx. cbn [length] in Hx.
  specialize (Ho a Ha). unfold apart2 in Ho. lia.
Qed.

Definition CD : list Z := [99; 100].
Definition PWD : list Z := [112; 119; 100].
Definition AMP : list Z := [38].

Section command.
Context (thread_now : Z) (others : M buf unit).
Context (s_bin s_elf : Z) (malloc : Z → M tty (Z + Z)) (find : Z → Z → M tty (Z * Z)) (proc_create : Z → Z → Z → M tty Z).
Context (fmt_s pbuf f_prompt f_pwd f_cd f_fail f_error : Z) (strerror : Z → Z) (s_cd s_pwd s_amp : Z).
Context (cmd parse path attr envp : Z).
Let fr := arrays cmd parse path attr envp.

Lemma in_fr i x a n : fr !! i = Some (a, n) → a ≤ x < a + n → in_arrays fr x.
Proof. intros Hi Hx. exists (a, n). split; [by eapply list_elem_of_lookup_2|done]. Qed.

(** The line is read and cut. *)
Lemma get_cmd_spec fuel line rest s : idle (line ++ NEWLINE :: rest) s → NEWLINE ∉ line →
  Forall (λ c, 0 < c < 256) line → (length line < fuel)%nat → len line + 2 ≤ 256 → len (words line) + 1 ≤ 32 →
  frame_ok fr (t_mem s) →
  wp (get_cmd thread_now others fuel cmd parse) (λ _ s', idle rest s' ∧ t_uart s' = t_uart s ∧
    vec (λ x, ¬ (cmd ≤ x < cmd + 256)) (t_mem s') parse (words line) ∧
    confined (λ x, line_area cmd line x ∨ args_area parse line x) (t_mem s) (t_mem s')) s.
Proof.
  intros Hi Hn Hc Hfu Hl Hws [Hap Hm]. unfold get_cmd. assert (W32 = 4294967296 ∧ KERN_BASE = 0xC0000000) as [EW EK] by done.
  unfold fr, arrays in Hap, Hm. cbn [all_apart apart_from fst snd] in Hap. rewrite !Forall_cons in Hm. cbn [fst snd] in Hm.
  destruct Hap as ((A1 & _) & _). destruct Hm as ((B1 & B2 & B3) & (B4 & B5 & B6) & _). unfold apart2 in A1.
  apply wp_bind, wp_zoom, wp_put_byte; [apply B3; lia|lia|]. intros m1 Hm1 O1.
  assert (add32 cmd 1 = cmd + 1) as -> by (apply add32_small; lia). unfold gets. apply wp_bind.
  eapply wp_mono; [eapply (tmp_read_spec thread_now others fuel (cmd + 1) line rest); try done|].
  - destruct Hi as [I1 I2 I3]. by split.
  - eapply Forall_impl; [exact Hc|]. cbn. lia.
  - intros x Hx. apply (on_mapped _ _ _ _ O1), B3. lia.
  - lia.
  - lia.
  - intros err s2 (-> & I2 & U2 & H2 & O2). cbn [t_mem t_uart] in *. apply wp_bind, wp_assert. split; [done|].
    apply wp_zoom. assert (holds (t_mem s2) cmd (0 :: line ++ [0])) as Hline.
    { apply holds_cons. split; [|done]. rewrite (on_frame _ _ _ _ O2) by lia. done. }
    assert (confined (line_area cmd line) (t_mem s) (t_mem s2)) as C2.
    { eapply confined_trans; eapply confined_only; [exact O1| |exact O2|]; intros x Hx; unfold line_area; lia. }
    eapply wp_mono; [apply (split_spec cmd parse line (t_mem s2) (λ x, ¬ (cmd ≤ x < cmd + 256)) Hc); [lia| |lia| |done]|].
    + split_and!; [lia|lia|]. intros x Hx. apply (cf_mapped _ _ _ C2), B6. lia.
    + unfold line_area. intros x Hx Hno. apply Hno. lia.
    + intros _ m3 [Hv C3]. cbn [t_mem t_uart t_buf]. split_and!; [by destruct I2|done|done|].
      eapply confined_trans; [|exact C3]. destruct C2 as [X1 X2 X3]. split; [|done|done].
      intros x Hx. apply X1. tauto.
Qed.

Lemma is_cmd_spec p w name l fc s : word (t_mem s) parse p → is_u32 p → 0 ≤ parse → parse + 4 ≤ W32 → cstr (t_mem s) p w →
  constant fc (t_mem s) name l → w ≠ l → wp (is_cmd parse name) (λ b s', b = false ∧ s' = s) s.
Proof.
  intros Hp Hpu H0 H4 Hw [Hl _ _] Hne. unfold is_cmd. apply wp_bind, wp_zoom, (wp_rdw _ _ p); [done..|].
  apply wp_bind, wp_zoom. eapply wp_mono; [by apply strcmp_spec|]. intros r m [-> ->]. apply wp_ret.
  assert (lex w l ≠ Eq) as Hx by (intros Hx; apply Hne, lex_eq; [apply Hw|apply Hl|done]). cbn [t_mem]. split; [by destruct (lex w l)|by destruct s].
Qed.

(** The strings of the program. *)
Record strings (m : mem) : Prop := {
  st_bin : constant fr m s_bin BIN; st_elf : constant fr m s_elf ELF;
  st_cd : constant fr m s_cd CD; st_pwd : constant fr m s_pwd PWD; st_amp : constant fr m s_amp AMP;
}.

(** What [proc_create] finds: the path, the name, the arguments and the environment. *)
Record launched (w : list Z) (ws : list (list Z)) (pwd : Z) (m : mem) : Prop := {
  la_path : cstr m path (BIN ++ w ++ ELF);
  la_name : cstr m attr w;
  la_argv : word m (attr + Proc.A_ARGV) (parse + 4);
  la_args : vec (λ x, KERN_BASE ≤ x) m (parse + 4) ws;
  la_envp : word m (attr + Proc.A_ENVP) envp;
  la_env : word m envp pwd ∧ word m (envp + 4) 0;
  la_wait : word m (attr + Proc.A_WAIT) 1;
}.

Lemma launch_spec w ws pwd pt m : frame_ok fr m → all_bytes m →
  vec (λ x, ¬ (cmd ≤ x < cmd + 256)) m parse (w :: ws) → len ws + 2 ≤ 32 → len w + 1 ≤ 32 → strings m → constant fr m pwd pt →
  wp (launch s_bin s_elf parse pwd path attr envp 1) (λ _ m', launched w ws pwd m' ∧ confined (in_arrays fr) m m') m.
Proof.
  intros [Hap Hm] Hb Hv Hws Hw [[K1 K2 K3] [L1 L2 L3] _ _ _] [_ Hpw _].
  assert (W32 = 4294967296 ∧ KERN_BASE = 0xC0000000) as [EW EK] by done.
  pose proof (K3 (path, 128) ltac:(set_solver)) as Kp. pose proof (L3 (path, 128) ltac:(set_solver)) as Lp.
  unfold fr, arrays in Hap, Hm. cbn [all_apart apart_from fst snd] in Hap. rewrite !Forall_cons in Hm. cbn [fst snd] in Hm, Kp, Lp.
  destruct Hap as ((_ & A1 & A2 & A3 & _) & (A4 & A5 & A6 & _) & (A7 & A8 & _) & (A9 & _) & _).
  destruct Hm as ((B1 & B2 & _) & (B3 & B4 & _) & (B5 & B6 & B7) & (B8 & B9 & B10) & (B11 & B12 & B13) & _).
  pose proof Hv as [(p & Hp & Hstr) Hrest]%vec_cons. pose proof Hstr as [S1 S2 S3].
  assert (∀ x, p ≤ x ≤ p + len w → cmd ≤ x < cmd + 256) as Hin.
  { intros x Hx. destruct (decide (cmd ≤ x < cmd + 256)) as [?|Hno]; [done|]. by destruct (S3 x Hx). }
  assert (cmd ≤ p ∧ p + len w < cmd + 256) as Hpr by (split; [apply Hin; lia|apply (Hin (p + len w)); lia]).
  unfold apart2 in *. cbn [len length BIN ELF] in Kp, Lp.
  assert (∀ k, 0 ≤ k ≤ 128 → mapped m path k ∧ path + k < W32) as Hpk by (intros k Hk; split; [intros x Hx; apply B7; lia|lia]).
  unfold launch. apply wp_bind. eapply wp_mono.
  { apply (get_elf_path_spec s_bin s_elf parse path p w m); unfold apart2.
    - split_and!; [done|lia|lia].
    - split_and!; [done|lia|lia].
    - split_and!; [done|lia|lia].
    - split_and!; [done|lia|lia|lia].
    - destruct (Hpk (len w + 10)); [lia|]. split_and!; [done|lia|done|done]. }
  intros _ m1 [Hpath O1].
  assert (confined (in_arrays fr) m m1) as C1.
  { eapply confined_only; [exact O1|]. intros x Hx. apply (in_fr 2 x path 128); [done|lia]. }
  assert (add32 parse 4 = parse + 4) as -> by (apply add32_small; lia).
  eapply wp_mono.
  { apply (fill_attr_spec parse (parse + 4) pwd attr envp 1 p w m1); unfold apart2.
    - split_and!; [eapply cstr_only; [exact O1|done|unfold apart2; lia]|lia|lia|lia].
    - split_and!; [eapply only_holds; [exact O1|exact Hp|cbn [length bytes4]; lia]|lia|lia].
    - split_and!; [intros x Hx; apply (cf_mapped _ _ _ C1), B10; lia|lia|lia|lia].
    - split_and!; [intros x Hx; apply (cf_mapped _ _ _ C1), B13; lia|lia|lia|lia].
    - unfold is_u32. split_and!; try lia. by apply (cf_bytes _ _ _ C1). }
  intros _ m2 [F1 F2 (F3 & F4 & F5) F6 C2].
  assert (confined (in_arrays fr) m1 m2) as C2'.
  { destruct C2 as [X1 X2 X3]. split; [|done|done]. intros x Hx. apply X1. intros [?|?]; apply Hx.
    - apply (in_fr 3 x attr 44); [done|lia].
    - apply (in_fr 4 x envp 128); [done|lia]. }
  split; [|by eapply confined_trans]. split; try done.
  - destruct Hpath as [P1 P2 P3]. split; [|done|done]. eapply confined_holds; [exact C2|exact P1|].
    rewrite !length_app. cbn [length BIN ELF]. unfold attr_area. lia.
  - rewrite vec_cons in Hv. destruct Hv as [_ Hv]. eapply vec_keep; [exact Hv|..].
    + intros x Hx. assert (cmd ≤ x < cmd + 256) as Hx' by (destruct (decide (cmd ≤ x < cmd + 256)); [done|by destruct Hx]).
      rewrite (cf_frame _ _ _ C2) by (unfold attr_area; lia). apply (on_frame _ _ _ _ O1). lia.
    + intros x Hx. rewrite (cf_frame _ _ _ C2) by (unfold attr_area; lia). apply (on_frame _ _ _ _ O1). lia.
    + cbn beta. clear - B2. intros x Hx. lia.
Qed.

Abbreviation cmd_of := (command thread_now others s_bin s_elf malloc find proc_create fmt_s pbuf f_pwd f_cd f_fail strerror s_cd s_pwd s_amp).

Lemma strings_conf P m m' : strings m → confined P m m' → (∀ x, P x → in_arrays fr x) → strings m'.
Proof. intros [H1 H2 H3 H4 H5] Hc HP. split; eapply constant_conf; eassumption. Qed.

Lemma frame_conf P m m' : frame_ok fr m → confined P m m' → frame_ok fr m'.
Proof.
  intros [Ha Hm] Hc. split; [done|]. eapply Forall_impl; [exact Hm|]. intros a (H1 & H2 & H3). split_and!; [done|done|].
  intros x Hx. by apply (cf_mapped _ _ _ Hc), H3.
Qed.

Lemma command_spec fuel b1 b2 b3 b4 line rest w ws pwd pt s :
  idle (line ++ NEWLINE :: rest) s → NEWLINE ∉ line → Forall (λ c, 0 < c < 256) line → (length line < fuel)%nat →
  words line = w :: ws → w ≠ CD → w ≠ PWD → w ≠ AMP → len line + 2 ≤ 256 → len ws + 2 ≤ 32 → len w + 1 ≤ 32 →
  frame_ok fr (t_mem s) → all_bytes (t_mem s) → strings (t_mem s) → constant fr (t_mem s) pwd pt →
  wp (cmd_of fuel b1 b2 b3 b4 cmd parse pwd path attr envp) (λ err s', err = E_NOTFOUND ∧ idle rest s' ∧
    t_uart s' = t_uart s ∧ launched w ws pwd (t_mem s') ∧ confined (in_arrays fr) (t_mem s) (t_mem s')) s.
Proof.
  intros Hi Hn Hc Hfu Hws N1 N2 N3 Hl Hk Hw Hfr Hb Hst Hpt. unfold command. apply wp_bind.
  assert (len (words line) = len ws + 1) as Hlen by (rewrite Hws; cbn [length]; lia).
  eapply wp_mono; [apply (get_cmd_spec fuel line rest s); try done; lia|]. intros _ s1 (I1 & U1 & V1 & C1). rewrite Hws in V1.
  assert (∀ x, line_area cmd line x ∨ args_area parse line x → in_arrays fr x) as Hin.
  { unfold line_area, args_area. rewrite Hlen. intros x [Hx|Hx]; [apply (in_fr 0 x cmd 256)|apply (in_fr 1 x parse 128)]; (done || lia). }
  assert (confined (in_arrays fr) (t_mem s) (t_mem s1)) as C1'.
  { destruct C1 as [X1 X2 X3]. split; [|done|done]. intros x Hx. apply X1. intros Hx'. by apply Hx, Hin. }
  pose proof (frame_conf _ _ _ Hfr C1') as F1. pose proof (strings_conf _ _ _ Hst C1' (λ x H, H)) as S1.
  pose proof (constant_conf _ _ _ _ _ _ Hpt C1' (λ x H, H)) as P1.
  pose proof V1 as [(p & Hp & [[Q1 Q2] Q3 _]) _]%vec_cons.
  assert (is_u32 p ∧ 0 ≤ parse ∧ parse + 4 ≤ W32) as (Hpu & Hp0 & Hp4).
  { destruct F1 as [_ Hm]. unfold fr, arrays in Hm. rewrite !Forall_cons in Hm. cbn [fst snd] in Hm. assert (KERN_BASE < W32) by done.
    unfold is_u32. lia. }
  assert (∀ name l {B} (k : bool → M tty B) Q, constant fr (t_mem s1) name l → w ≠ l → wp (k false) Q s1 →
    wp (b <- is_cmd parse name ;; k b) Q s1) as Hcmd.
  { intros name l B k Q Hname Hne HQ. apply wp_bind. eapply wp_mono; [by eapply (is_cmd_spec p w name l fr)|]. by intros ? ? [-> ->]. }
  apply wp_bind, (wp_mono _ (λ err s', err = E_NOTFOUND ∧ s' = s1)).
  { unfold inner_cmd. destruct S1. do 3 (eapply Hcmd; [eassumption|assumption|]). by apply wp_ret. }
  intros err s2 [-> ->]. change (E_NOTFOUND =? E_OK) with false. change (E_NOTFOUND =? E_NOTFOUND) with true. cbn [negb].
  apply wp_bind, wp_ret, wp_bind, wp_zoom. eapply wp_mono.
  { apply (launch_spec w ws pwd pt); try done. by apply (cf_bytes _ _ _ C1'). }
  intros _ m [HL C2]. apply wp_ret. cbn [t_mem t_uart t_buf]. split_and!; [done| |done|done|by eapply confined_trans].
  destruct I1 as [J1 J2 J3]. by split.
Qed.
End command.

(** C40: What is typed is what runs. A line of the terminal whose first word is not a
    command of the shell's own leaves, for [SYS_proc_create], the path "/bin/<word>.elf",
    the word as the name, exactly the other words, in order, as the arguments and the
    working directory as the environment, each as the NULL-terminated array of strings
    that the kernel's [proc_create] copies; the rest of the queue is left alone and no
    byte outside the shell's arrays is written. The words of a line are what spaces put
    between them say, for any number of words that fit the arrays. *)
Theorem shell_command t o s_bin s_elf malloc find proc_create fmt_s pbuf f_pwd f_cd f_fail strerror s_cd s_pwd s_amp
    cmd parse path attr envp fuel b1 b2 b3 b4 line rest w ws pwd pt s :
  let fr := arrays cmd parse path attr envp in
  idle (line ++ NEWLINE :: rest) s → NEWLINE ∉ line → Forall (λ c, 0 < c < 256) line → (length line < fuel)%nat →
  words line = w :: ws → w ∉ [CD; PWD; AMP] → len line + 2 ≤ 256 → len ws + 2 ≤ 32 → len w + 1 ≤ 32 →
  frame_ok fr (t_mem s) → all_bytes (t_mem s) → strings s_bin s_elf s_cd s_pwd s_amp cmd parse path attr envp (t_mem s) →
  constant fr (t_mem s) pwd pt →
  wp (command t o s_bin s_elf malloc find proc_create fmt_s pbuf f_pwd f_cd f_fail strerror s_cd s_pwd s_amp
        fuel b1 b2 b3 b4 cmd parse pwd path attr envp)
    (λ err s', err = E_NOTFOUND ∧ idle rest s' ∧ t_uart s' = t_uart s ∧
      confined (in_arrays fr) (t_mem s) (t_mem s') ∧ let m := t_mem s' in
      cstr m path (BIN ++ w ++ ELF) ∧ cstr m attr w ∧ word m (attr + Proc.A_WAIT) 1 ∧
      word m (attr + Proc.A_ARGV) (parse + 4) ∧ word m (attr + Proc.A_ENVP) envp ∧
      ∀ K (HK : Kmalloc.Kmalloc K) (HB : HeapBytes K) (h : K), (∀ x, km_free h x → KERN_BASE ≤ x) →
        given m h (parse + 4) ws ∧ given m h envp [pt]) s ∧
  ∀ us, Forall is_word us → words (spaced us) = us.
Proof.
  intros fr Hi Hn Hc Hfu Hws Hnot Hl Hk Hw Hfr Hb Hst Hpt. split; [|apply words_spaced].
  rewrite !not_elem_of_cons in Hnot. destruct Hnot as (N1 & N2 & N3 & _).
  eapply wp_mono; [by eapply command_spec|]. intros err s' (-> & I & U & [L1 L2 L3 L4 L5 [L6 L7] L8] & C).
  split_and!; try done. cbv zeta. split_and!; try done. intros K HK0 HB0 h Hh.
  pose proof (constant_conf _ _ _ _ _ _ Hpt C (λ x H, H)) as [P1 P2 P3].
  pose proof (frame_conf _ _ _ _ _ _ _ _ Hfr C) as [_ Hm].
  unfold fr, arrays in Hm. rewrite !Forall_cons in Hm. cbn [fst snd] in Hm.
  destruct Hm as (_ & (B1 & B2 & _) & _ & _ & (B3 & B4 & _) & _). assert (KERN_BASE < W32) as HK by done.
  assert (vec (km_free h) (t_mem s') (parse + 4) ws) as Hv.
  { eapply vec_keep; [exact L4|done|done|]. intros x Hx. by apply Hh. }
  split; split; try lia; intros _; split_and!; try lia; try done.
  - intros x Hx Hf%Hh. lia.
  - split; [|by cbn [length]; rewrite Z.mul_1_r].
    apply ptrs_cons. split; [|apply ptrs_nil]. exists pwd. split; [done|]. split; [lia|done|]. intros x Hx Hf%Hh. lia.
  - cbn [length]. lia.
  - cbn [length]. intros x Hx Hf%Hh. lia.
Qed.

(** "ls a" at a terminal where more has been typed. *)
Definition ex_strings : list Z := BIN ++ [0] ++ ELF ++ [0] ++ CD ++ [0] ++ PWD ++ [0] ++ AMP ++ [0; SLASH; 0].
Definition ex_shell : tty := Tty (Buf (list_to_map (zip (seqZ 0 7) [108; 115; 32; 97; 10; 112; 10])) 16 9 false false 0 7 0 7 [])
  (place 0x2000 ex_strings (ram 0x3000 1024)) (Uart true [] [] 3 ∅) true.
Definition ex_arrays : list (Z * Z) := arrays 0x3000 0x3100 0x3180 0x3200 0x3280.
Lemma ex_shell_frame : frame_ok ex_arrays (t_mem ex_shell).
Proof.
  split; [cbn [all_apart apart_from ex_arrays arrays fst snd]; unfold apart2; split_and!; (done || left; lia)|].
  unfold ex_arrays, arrays. assert (KERN_BASE = 3221225472) as EK by done.
  repeat (apply Forall_cons; split; [cbn [fst snd]; split_and!; [lia|lia|]|]); [..|by apply Forall_nil];
    apply place_mapped, ram_mapped; lia.
Qed.
Lemma ex_shell_bytes : all_bytes (t_mem ex_shell).
Proof. apply place_bytes; [repeat constructor; done|apply ram_bytes]. Qed.
Lemma ex_constant k l : take (length (l ++ [0])) (drop k ex_strings) = l ++ [0] → Forall (λ c, 0 < c < 256) l → (k + length l < 64)%nat →
  constant ex_arrays (t_mem ex_shell) (0x2000 + Z.of_nat k) l.
Proof.
  intros Hl Hc Hk. assert (KERN_BASE = 3221225472 ∧ W32 = 4294967296) as [EK EW] by done. split; [split; [by apply place_holds|done|lia]|lia|].
  intros [a n] Ha. unfold apart2. unfold ex_arrays, arrays in Ha. rewrite !elem_of_cons in Ha. cbn [fst snd].
  destruct Ha as [[= -> ->]|[[= -> ->]|[[= -> ->]|[[= -> ->]|[[= -> ->]|Ha]]]]]; [right; lia..|by apply elem_of_nil in Ha].
Qed.

Lemma shell_command_witness :
  wp (command 7 hang 0x2000 0x2006 (λ _, ret (inl E_INVAL)) (λ _ _, ret (E_INVAL, E_OK)) (λ _ _ _, ret E_OK)
        0 0 0 0 0 (λ _, 0) 0x200B 0x200E 0x2012 9 0 0 0 0 0x3000 0x3100 0x2014 0x3180 0x3200 0x3280)
    (λ err s', err = E_NOTFOUND ∧ idle [112; NEWLINE] s' ∧ t_uart s' = t_uart ex_shell ∧
      confined (in_arrays ex_arrays) (t_mem ex_shell) (t_mem s') ∧ let m := t_mem s' in
      cstr m 0x3180 (BIN ++ [108; 115] ++ ELF) ∧ cstr m 0x3200 [108; 115] ∧ word m (0x3200 + Proc.A_WAIT) 1 ∧
      word m (0x3200 + Proc.A_ARGV) (0x3100 + 4) ∧ word m (0x3200 + Proc.A_ENVP) 0x3280 ∧
      ∀ K (HK : Kmalloc.Kmalloc K) (HB : HeapBytes K) (h : K), (∀ x, km_free h x → KERN_BASE ≤ x) →
        given m h (0x3100 + 4) [[97]] ∧ given m h 0x3280 [[SLASH]]) ex_shell.
Proof.
  refine (proj1 (shell_command 7 hang 0x2000 0x2006 _ _ _ 0 0 0 0 0 (λ _, 0) 0x200B 0x200E 0x2012 0x3000 0x3100 0x3180 0x3200 0x3280
    9 0 0 0 0 [108; 115; 32; 97] [112; NEWLINE] [108; 115] [[97]] 0x2014 [SLASH] ex_shell _ _ _ _ _ _ _ _ _ _ _ _ _)).
  - split; [split; cbn [size freesz b e t_buf ex_shell length app]; first [lia|split; lia|done|idtac]|done|done].
    by intros [|[|[|[|[|[|[|]]]]]]] c [= <-].
  - unfold NEWLINE. set_solver.
  - repeat constructor; lia.
  - cbn. lia.
  - by vm_compute.
  - unfold CD, PWD, AMP. set_solver.
  - cbn. lia.
  - cbn. lia.
  - cbn. lia.
  - apply ex_shell_frame.
  - apply ex_shell_bytes.
  - split.
    + apply (ex_constant 0 BIN); [by vm_compute|repeat constructor; lia|cbn; lia].
    + apply (ex_constant 6 ELF); [by vm_compute|repeat constructor; lia|cbn; lia].
    + apply (ex_constant 11 CD); [by vm_compute|repeat constructor; lia|cbn; lia].
    + apply (ex_constant 14 PWD); [by vm_compute|repeat constructor; lia|cbn; lia].
    + apply (ex_constant 18 AMP); [by vm_compute|repeat constructor; lia|cbn; lia].
  - apply (ex_constant 20 [SLASH]); [by vm_compute|repeat constructor; lia|cbn; lia].
Defined.
