(* ===== verification/Names.v ===== *)
(** * Red-black trees ordered by name

    kernel/srv/srv.c and usr/fssrv/file.c keep their structures in red-black trees
    ordered by the names the structures hold, with the same three functions. The
    names are bytes of memory, compared by [strcmp]; the tree and the memory are the
    two halves of the state. *)
From S2P Require Import Prelude RbtModel RbtTree RbtInsert RbtIter RbtSearch RbtProps Cstring.
From stdpp Require Import sorting.
#[local] Open Scope Z_scope.

Record ntree := NTree { nt_mem : mem; nt_rbt : rbt }.

Section code.
(** The offset of the name in a structure. *)
Context (off : Z).
Abbreviation M := (M ntree).

Definition on_mem {B} (m : Prelude.M mem B) : M B := zoom nt_mem (λ x s, NTree x (nt_rbt s)) m.
Definition on_rbt {B} (m : Prelude.M rbt B) : M B := zoom nt_rbt (λ x s, NTree (nt_mem s) x) m.

(** [_rbt_insert]: the descent with the name at [key]. *)
Definition descend_body (key : Z) (pk : Z * link) : M (Z * link + (Z * link + Z)) :=
  let '(parent, k) := pk in
  cur <- on_rbt (link_read k) ;;
  if cur =? NULL then ret (inr (inl (parent, k))) else
  ans <- on_mem (strcmp key (add32 cur off)) ;;
  if ans =? -1 then ret (inl (cur, LinkL cur))
  else if ans =? 1 then ret (inl (cur, LinkR cur))
  else ret (inr (inr cur)).

Definition _rbt_insert (x : Z) : M Z :=
  fuel <- on_rbt heap_fuel ;;
  r <- loop fuel (descend_body (add32 x off)) (NULL, LinkRoot) ;;
  match r with
  | inl (parent, k) => on_rbt (rb_link_node x parent k) ;;; ret E_OK
  | inr _ => ret E_EXIST
  end.

Definition rbt_insert (x : Z) : M Z :=
  err <- _rbt_insert x ;;
  if negb (err =? E_OK) then ret err else
  on_rbt (rbt_insert_color x) ;;; ret err.

Definition find_body (key n : Z) : M (Z + option Z) :=
  if n =? NULL then ret (inr None) else
  ans <- on_mem (strcmp key (add32 n off)) ;;
  if ans =? -1 then l <- on_rbt (get_l n) ;; ret (inl l)
  else if ans =? 1 then r <- on_rbt (get_r n) ;; ret (inl r)
  else ret (inr (Some n)).

(** The error code is E_NOTFOUND when there is no result. *)
Definition rbt_find (key : Z) : M (Z * option Z) :=
  fuel <- on_rbt heap_fuel ;;
  root <- on_rbt get_root ;;
  o <- loop fuel (find_body key) root ;;
  ret (match o with Some p => (E_OK, Some p) | None => (E_NOTFOUND, None) end).
End code.

(** ** Sequences in the order of their names *)
Section sorted.
Context (nm : Z → list Z).
Definition names_sorted (es : list Z) : Prop := StronglySorted (λ x y, lex (nm x) (nm y) = Lt) es.
Definition name_cmp (l : list Z) (q : Z) : comparison := lex l (nm q).

Lemma names_sorted_app l1 l2 : names_sorted (l1 ++ l2) ↔ names_sorted l1 ∧ names_sorted l2 ∧
  ∀ x y, x ∈ l1 → y ∈ l2 → lex (nm x) (nm y) = Lt.
Proof.
  unfold names_sorted. rewrite StronglySorted_app. tauto.
Qed.
Lemma names_sorted_cons x l : names_sorted (x :: l) ↔ (∀ y, y ∈ l → lex (nm x) (nm y) = Lt) ∧ names_sorted l.
Proof. unfold names_sorted. rewrite StronglySorted_cons, Forall_forall. tauto. Qed.

Lemma lex_flip l1 l2 : lex l1 l2 = Gt ↔ lex l2 l1 = Lt.
Proof. rewrite (lex_antisym l1 l2). destruct (lex l1 l2); naive_solver. Qed.

Lemma names_sorted_cut es l : names_sorted es → (∀ p, p ∈ es → Forall (λ b, 0 < b < 256) (nm p)) →
  Forall (λ b, 0 < b < 256) l → ∃ l1 m l2, cut (name_cmp l) es l1 m l2.
Proof.
  intros Hs Hch Hl. induction es as [|x es IH]; [by exists [], [], []|].
  apply names_sorted_cons in Hs as [Hx Hs].
  destruct IH as (l1 & m & l2 & [He Hlo Hm Hhi]); [done|intros; apply Hch; by right|].
  assert (name_cmp l x ≠ Gt → Forall (λ q, name_cmp l q = Lt) es) as Hup.
  { intros Hc. apply Forall_forall. intros y Hy. unfold name_cmp in *. specialize (Hx y Hy).
    destruct (lex l (nm x)) eqn:E; [|by eapply lex_trans|done].
    apply lex_eq in E as ->; [done|done|apply Hch; left]. }
  destruct (name_cmp l x) eqn:E.
  - exists [], [x], es. split; [done|done|by repeat constructor|by apply Hup].
  - exists [], [], (x :: es). split; [done|done|done|]. constructor; [done|by apply Hup].
  - exists (x :: l1), m, l2. split; [by rewrite He|by constructor|done|done].
Qed.

Lemma cut_insert_names es l l1 l2 x : names_sorted es → cut (name_cmp l) es l1 [] l2 → nm x = l →
  names_sorted (l1 ++ x :: l2).
Proof.
  intros Hs [-> Hlo _ Hhi] Hx. simpl in Hs. apply names_sorted_app in Hs as (H1 & H2 & H3).
  rewrite Forall_forall in Hlo, Hhi. unfold name_cmp in *. subst l.
  assert (∀ y, y ∈ l1 → lex (nm y) (nm x) = Lt) as Hlo' by (intros y Hy; by apply lex_flip, Hlo).
  apply names_sorted_app. split_and!; [done| |].
  - apply names_sorted_cons. split; [|done]. intros y Hy. by apply Hhi.
  - intros y z Hy [->|Hz]%elem_of_cons; [by apply Hlo'|by apply H3].
Qed.

Lemma names_sorted_delete l1 x l2 : names_sorted (l1 ++ x :: l2) → names_sorted (l1 ++ l2).
Proof.
  rewrite !names_sorted_app, names_sorted_cons. intros (H1 & (H2 & H3) & H4).
  split_and!; [done|done|]. intros y z Hy Hz. apply H4; [done|by right].
Qed.

(** A name occurs at most once. *)
Lemma names_sorted_inj es x y : names_sorted es → x ∈ es → y ∈ es → nm x = nm y → x = y.
Proof.
  intros Hs Hx Hy He. induction es as [|z es IH]; [by apply elem_of_nil in Hx|].
  apply names_sorted_cons in Hs as [Hz Hs].
  apply elem_of_cons in Hx as [->|Hx], Hy as [->|Hy]; [done| | |by apply IH].
  - specialize (Hz y Hy). by rewrite He, lex_refl in Hz.
  - specialize (Hz x Hx). by rewrite He, lex_refl in Hz.
Qed.
End sorted.

Lemma names_sorted_ext nm1 nm2 es : (∀ x, x ∈ es → nm1 x = nm2 x) → names_sorted nm1 es → names_sorted nm2 es.
Proof.
  induction es as [|x es IH]; intros Hk; [constructor|]. rewrite !names_sorted_cons. intros [H1 H2]. split.
  - intros y Hy. rewrite <- !Hk by (done || by constructor). by apply H1.
  - apply IH; [|done]. intros y Hy. apply Hk. by right.
Qed.

(** ** The loops compare as the pure search does *)

(** The children of a node of the tree are nodes of the tree. *)
Lemma rep_closed h f t q : rep h f t → q ∈ elems t → ∃ n, h !! q = Some n ∧
  (n_l n = NULL ∨ n_l n ∈ elems t) ∧ (n_r n = NULL ∨ n_r n ∈ elems t).
Proof.
  assert (∀ u, addr u = NULL ∨ addr u ∈ elems u) as Ha.
  { intros [|? l ? ?]; [by left|right]. simpl. apply elem_of_app. right. left. }
  revert f. induction t as [|c l IHl a r IHr]; intros f; simpl; [by intros _ ?%elem_of_nil|].
  intros (Hn & Hl & Hr). rewrite elem_of_app, elem_of_cons. setoid_rewrite elem_of_app. setoid_rewrite elem_of_cons.
  intros [Hq|[->|Hq]].
  - destruct (IHl _ Hl Hq) as (n & ? & ? & ?). exists n. tauto.
  - eexists. split; [exact Hn|]. simpl. destruct (Ha l), (Ha r); tauto.
  - destruct (IHr _ Hr Hq) as (n & ? & ? & ?). exists n. tauto.
Qed.

(** A loop whose turns are those of a loop on the tree alone that does not change it. *)
Lemma loop_on_rbt {V A} (I : V → Prop) (b1 : V → M ntree (V + A)) (b2 : V → M rbt (V + A)) m t :
  (∀ v, I v → b1 v (NTree m t) = on_rbt (b2 v) (NTree m t) ∧
     wlp (b2 v) (λ r t', t' = t ∧ match r with inl v' => I v' | inr _ => True end) t) →
  ∀ fuel v, I v → loop fuel b1 v (NTree m t) = on_rbt (loop fuel b2 v) (NTree m t).
Proof.
  intros Hb fuel. induction fuel as [|fuel IH]; intros v Hv; [done|]. cbn [loop].
  destruct (Hb v Hv) as [He Hw]. unfold bind at 1. rewrite He. unfold on_rbt, zoom, bind, wlp in *.
  cbn [nt_rbt nt_mem] in *. destruct (b2 v t) as [[v'|a] t'| | |]; try done.
  - destruct Hw as [-> Hv']. by rewrite IH.
Qed.

Lemma node_here h0 X t s q : R h0 X t s → q ∈ elems t → ∃ n, rbt_nodes s !! q = Some n ∧
  (n_l n = NULL ∨ n_l n ∈ elems t) ∧ (n_r n = NULL ∨ n_r n ∈ elems t).
Proof. intros HR. apply (rep_closed _ NULL), (R_rep _ _ _ _ HR). Qed.

Lemma root_here h0 X t s : R h0 X t s → rbt_root s = NULL ∨ rbt_root s ∈ elems t.
Proof.
  intros HR. rewrite (R_root _ _ _ _ HR). destruct t as [|c a x b]; [by left|right].
  cbn [addr elems]. apply elem_of_app. right. left.
Qed.

Section sim.
Context (off : Z) (nm : Z → list Z) (m : mem) (s : rbt) (h0 : nodes) (X : list Z) (t : tree).
Context (key : Z) (l : list Z).
Context (HR : R h0 X t s) (Hkey : cstr m key l).
Context (Hnm : ∀ p, p ∈ elems t → cstr m (add32 p off) (nm p)).

Lemma strcmp_here {B} p (k : Z → M ntree B) : p ∈ elems t →
  bind (on_mem (strcmp key (add32 p off))) k (NTree m s) = k (cmp_int (name_cmp nm l p)) (NTree m s).
Proof using Hkey Hnm.
  intros Hp. pose proof (strcmp_spec m key (add32 p off) l (nm p) Hkey (Hnm p Hp)) as Hw.
  unfold bind, on_mem, zoom. cbn [nt_mem nt_rbt]. unfold wp in Hw.
  destruct (strcmp key (add32 p off) m); [|done..]. by destruct Hw as [-> ->].
Qed.

Lemma find_loop_sim fuel n : n = NULL ∨ n ∈ elems t →
  loop fuel (find_body off key) n (NTree m s) = on_rbt (loop fuel (RbtModel.find_body (name_cmp nm l)) n) (NTree m s).
Proof using All.
  apply (loop_on_rbt (λ n, n = NULL ∨ n ∈ elems t)). clear n. intros n [->|Hn]; [done|].
  assert (n ≠ NULL) as Hne by (intros ->; by apply (R_null _ _ _ _ HR)).
  destruct (node_here _ _ _ _ n HR Hn) as (x & Hx & Hl & Hr).
  unfold find_body, RbtModel.find_body. rewrite (eqb_ne _ _ Hne), strcmp_here by done.
  unfold on_rbt, zoom, get_l, get_r, RbtModel.rd, bind, get, ret, wlp. cbn [nt_mem nt_rbt].
  destruct (name_cmp nm l n); cbn; rewrite ?Hx; done.
Qed.

Lemma descend_loop_sim fuel pk :
  match snd pk with LinkRoot => True | LinkL a | LinkR a => a ∈ elems t end →
  loop fuel (descend_body off key) pk (NTree m s) =
  on_rbt (loop fuel (RbtModel.descend_body (name_cmp nm l)) pk) (NTree m s).
Proof using All.
  apply (loop_on_rbt (λ pk, match snd pk with LinkRoot => True | LinkL a | LinkR a => a ∈ elems t end)).
  clear pk. intros [parent k] Hk. cbn [snd] in Hk.
  assert (∃ c, link_read k s = Ret c s ∧ (c = NULL ∨ c ∈ elems t)) as (c & Hc & Hin).
  { destruct k as [|a|a]; cbn.
    - exists (rbt_root s). split; [done|by eapply root_here].
    - destruct (node_here _ _ _ _ a HR Hk) as (x & Hx & ? & _). exists (n_l x).
      unfold get_l, RbtModel.rd, bind, get, deref. by rewrite Hx.
    - destruct (node_here _ _ _ _ a HR Hk) as (x & Hx & _ & ?). exists (n_r x).
      unfold get_r, RbtModel.rd, bind, get, deref. by rewrite Hx. }
  unfold descend_body, RbtModel.descend_body, on_rbt, zoom, wlp. unfold bind at 1 3 4. cbn [nt_mem nt_rbt].
  rewrite Hc. cbn [nt_mem nt_rbt]. destruct Hin as [->|Hin]; [done|].
  assert (c ≠ NULL) as Hne by (intros ->; by apply (R_null _ _ _ _ HR)). rewrite (eqb_ne _ _ Hne), strcmp_here by done.
  by destruct (name_cmp nm l c).
Qed.
End sim.

(** ** The three functions on a tree of distinct names *)
Section spec.
Context (off : Z) (nm : Z → list Z) (h0 : nodes) (X : list Z) (t : tree) (u : mem) (r : rbt).
Context (HR : R h0 X t r).
Context (Hnm : ∀ p, p ∈ elems t → cstr u (add32 p off) (nm p)) (Hs : names_sorted nm (elems t)).

Lemma cut_here l : Forall (λ b, 0 < b < 256) l → ∃ l1 m l2, cut (name_cmp nm l) (elems t) l1 m l2.
Proof using Hnm Hs.
  intros Hl. apply names_sorted_cut; [done| |done]. intros p Hp. by apply (cs_chars _ _ _ (Hnm p Hp)).
Qed.

Lemma cut_mid_name l l1 m l2 p : Forall (λ b, 0 < b < 256) l → cut (name_cmp nm l) (elems t) l1 m l2 →
  p ∈ m → p ∈ elems t ∧ nm p = l.
Proof using Hnm.
  intros Hl [He _ Hm _] Hp. assert (p ∈ elems t) as Hin by (rewrite He, !elem_of_app; tauto). split; [done|].
  rewrite Forall_forall in Hm. symmetry. apply lex_eq; [done|apply (cs_chars _ _ _ (Hnm p Hin))|by apply Hm].
Qed.

Lemma cut_no_name l l1 l2 p : cut (name_cmp nm l) (elems t) l1 [] l2 → p ∈ elems t → nm p ≠ l.
Proof using Type.
  intros [He Hlo _ Hhi] Hp <-. rewrite Forall_forall in Hlo, Hhi. rewrite He in Hp. simpl in Hp.
  apply elem_of_app in Hp as [Hp|Hp]; [apply Hlo in Hp|apply Hhi in Hp]; unfold name_cmp in Hp;
    by rewrite lex_refl in Hp.
Qed.

Lemma name_find_spec key l : cstr u key l →
  wp (rbt_find off key) (λ res s', s' = NTree u r ∧ match snd res with
    | Some p => fst res = E_OK ∧ p ∈ elems t ∧ nm p = l
    | None => fst res = E_NOTFOUND ∧ ∀ p, p ∈ elems t → nm p ≠ l
    end) (NTree u r).
Proof using All.
  intros Hk. destruct (cut_here l (cs_chars _ _ _ Hk)) as (l1 & m & l2 & Hc).
  pose proof (bst_find_spec _ _ _ _ _ _ _ _ HR Hc) as Hf. cbn [nt_mem nt_rbt] in *.
  unfold wp, bst_find, heap_fuel, get_root, gets, bind in Hf.
  unfold wp, rbt_find, heap_fuel, get_root, gets, bind, on_rbt at 1 2, zoom. cbn [nt_mem nt_rbt].
  rewrite (find_loop_sim off nm u r h0 X t key l HR Hk Hnm) by by eapply root_here.
  unfold on_rbt, zoom. cbn [nt_mem nt_rbt]. destruct (loop _ _ _ r) as [[p|] r'| | |]; [| |done..];
    destruct Hf as [-> Hf]; (split; [done|]); cbn [fst snd].
  - split; [done|]. by eapply cut_mid_name; [apply Hk|exact Hc|].
  - subst m. split; [done|]. intros p. by eapply cut_no_name.
Qed.

Lemma name_insert_spec x l : rbtree t → cstr u (add32 x off) l → nm x = l → is_fresh x t r →
  wp (rbt_insert off x) (λ err s', nt_mem s' = u ∧
    if err =? E_OK then
      (∀ p, p ∈ elems t → nm p ≠ l) ∧ ∃ t' l1 l2, R h0 (x :: X) t' (nt_rbt s') ∧ rbtree t' ∧
        elems t = l1 ++ l2 ∧ elems t' = l1 ++ x :: l2 ∧ names_sorted nm (elems t')
    else err = E_EXIST ∧ s' = NTree u r ∧ ∃ p, p ∈ elems t ∧ nm p = l) (NTree u r).
Proof using All.
  intros Hrb Hk Hx Hf. destruct (cut_here l (cs_chars _ _ _ Hk)) as (l1 & m & l2 & Hc).
  pose proof (tree_insert_spec _ _ _ _ _ _ _ x _ HR Hrb Hc Hf) as Hi. cbn [nt_mem nt_rbt] in *.
  unfold wp, tree_insert, bst_link, descend, heap_fuel, gets, bind in Hi.
  unfold wp, rbt_insert, _rbt_insert, heap_fuel, gets, bind, on_rbt at 1, zoom. cbn [nt_mem nt_rbt].
  rewrite (descend_loop_sim off nm u r h0 X t (add32 x off) l HR Hk Hnm) by done.
  unfold on_rbt at 1, zoom. cbn [nt_mem nt_rbt]. destruct (loop _ _ _ r) as [[[par k]|q] r'| | |]; [| |done..].
  - unfold on_rbt, zoom, ret in *. cbn [nt_mem nt_rbt]. destruct (rb_link_node x par k r') as [[] r2| | |]; [|done..].
    cbn [nt_mem nt_rbt negb E_OK Z.eqb]. destruct (rbt_insert_color x r2) as [[] r3| | |]; [|done..]. cbn [nt_mem nt_rbt].
    split; [done|]. destruct m as [|p m]; [|by destruct Hi]. destruct Hi as (_ & t' & HR' & Hrb' & He). split.
    + intros p. by eapply cut_no_name.
    + exists t', l1, l2. split_and!; try done; [by apply (cut_eq _ _ _ _ _ Hc)|]. rewrite He. by eapply cut_insert_names.
  - unfold ret. cbn. split; [done|]. destruct m as [|p m]; [by destruct Hi|]. destruct Hi as [_ ->].
    split; [done|]. split; [done|]. exists p. eapply cut_mid_name; [apply Hk|exact Hc|left].
Qed.
End spec.
