(* ===== verification/Fs.v ===== *)
(** * The files of the file service: usr/fssrv/file.c

    Every file is a [struct file_t] from [malloc]; a directory has a red-black tree of
    the files in it, by name. A path is cut into its components by [path_cut]; the name
    of a directory ends with its slash. The names are bytes of memory; the tree nodes
    of all files are in one heap, and each directory's tree is its root in that heap.
    The other fields of the structures are a record per address. *)
From S2P Require Import Prelude Kmalloc RbtModel RbtTree Cstring Words Blocks Names.

Inductive TYPE := FILE_ENTITY | FILE_DIR.
#[export] Instance type_dec : EqDecision TYPE.
Proof. solve_decision. Defined.

(** [struct file_t]; [name] is in memory and [fa_rbt_node] in the heap of nodes.
    [state] is never used. *)
Record file_t := File { f_type : TYPE; f_data : Z; f_size : Z; f_sub : Z; f_ffile : Z }.

Definition OFF_NAME : Z := 8.
Definition SZ_FILE : Z := 72.
Definition FILE_MAX_NAME_LEN : Z := 32.
Definition SLASH : Z := 47.

Record fs (H : Type) := Fs {
  f_mem : mem; f_heap : H; f_files : gmap Z file_t; f_nodes : nodes; root_file : Z }.
Arguments Fs {H}.
Arguments f_mem {H}.
Arguments f_heap {H}.
Arguments f_files {H}.
Arguments f_nodes {H}.
Arguments root_file {H}.

Section code.
Context {H : Type} `{Kmalloc H}.
(** [path_cut] ends without a return statement, which leaves its result undefined: [fall t]
    is what its callers find where the result would be, with the string at [t]. The
    theorems that follow a path assume that this is [t]. A fresh structure holds [junk]. *)
Context (fall : Z → Z) (junk : Z).
Abbreviation M := (Prelude.M (fs H)).
Implicit Types s : fs H.

Definition set_mem x s : fs H := Fs x (f_heap s) (f_files s) (f_nodes s) (root_file s).
Definition set_heap x s : fs H := Fs (f_mem s) x (f_files s) (f_nodes s) (root_file s).
Definition set_files x s : fs H := Fs (f_mem s) (f_heap s) x (f_nodes s) (root_file s).
Definition set_nodes x s : fs H := Fs (f_mem s) (f_heap s) (f_files s) x (root_file s).
Definition set_root_file x s : fs H := Fs (f_mem s) (f_heap s) (f_files s) (f_nodes s) x.

Definition in_mem {B} (m : Prelude.M mem B) : M B := zoom f_mem set_mem m.
Definition malloc (sz : Z) : M (Z + Z) := s <- get ;;
  let '(r, h) := kmalloc sz (f_heap s) in put (set_heap h s) ;;; ret r.
Definition file_at (p : Z) : M file_t := s <- get ;; deref (f_files s !! p).
Definition upd (p : Z) (f : file_t → file_t) : M unit :=
  x <- file_at p ;; modify (λ s, set_files (<[p := f x]> (f_files s)) s).
Definition fl_type v (x : file_t) := File v (f_data x) (f_size x) (f_sub x) (f_ffile x).
Definition fl_data v (x : file_t) := File (f_type x) v (f_size x) (f_sub x) (f_ffile x).
Definition fl_size v (x : file_t) := File (f_type x) (f_data x) v (f_sub x) (f_ffile x).
Definition fl_sub v (x : file_t) := File (f_type x) (f_data x) (f_size x) v (f_ffile x).

(** Code that works on [&file->subfile_rbt] and the names. *)
Definition on_sub {B} (p : Z) (c : Prelude.M ntree B) : M B :=
  x <- file_at p ;; s <- get ;;
  match c (NTree (f_mem s) (Rbt (f_sub x) (f_nodes s))) with
  | Ret b nt =>
      put (Fs (nt_mem nt) (f_heap s) (<[p := fl_sub (rbt_root (nt_rbt nt)) x]> (f_files s))
        (rbt_nodes (nt_rbt nt)) (root_file s)) ;;; ret b
  | Panic => panic | Fault => fault | Hang => hang
  end.

(** [name\[strlen(name) - 1\]] *)
Definition last_char (name : Z) : M Z := in_mem (n <- strlen name ;; rd (add32 name (sub32 n 1))).

Definition count_body (name : Z) (it : Z * Z) : M (Z * Z + Z) :=
  let '(i, tmplen) := it in
  n <- in_mem (strlen name) ;;
  if i <? n then
    b <- in_mem (rd (add32 name i)) ;;
    ret (inl (i + 1, if b =? SLASH then add32 tmplen 1 else tmplen))
  else ret (inr tmplen).

Definition cut_body (name t : Z) (ip : Z * Z) : M (Z * Z + Z) :=
  let '(i, p) := ip in
  n <- in_mem (strlen name) ;;
  if i <? n then
    b <- in_mem (rd (add32 name i)) ;; in_mem (wr (add32 t p) b) ;;;
    b <- in_mem (rd (add32 name i)) ;;
    if b =? SLASH then in_mem (wr (add32 t (p + 1)) 0) ;;; ret (inl (i + 1, p + 2))
    else ret (inl (i + 1, p + 1))
  else ret (inr p).

(** The loops go round once for each character. *)
Definition path_cut (name : Z) : M Z :=
  n <- in_mem (strlen name) ;; c <- last_char name ;;
  tmplen <- loop (S (Z.to_nat n)) (count_body name) (1, add32 n (if c =? SLASH then 0 else 1)) ;;
  r <- malloc tmplen ;;
  match r with
  | inl _ => panic
  | inr t =>
      p <- loop (S (Z.to_nat n)) (cut_body name t) (1, 0) ;;
      c <- last_char name ;;
      p <- (if negb (c =? SLASH) then in_mem (wr (add32 t p) 0) ;;; ret (p + 1) else ret p) ;;
      in_mem (wr (add32 t p) 0) ;;;
      assert_ (p + 1 =? tmplen) ;;;
      ret (fall t)
  end.

Definition file_new (name : Z) (ty : TYPE) (addr size : Z) : M (Z * option Z) :=
  r <- malloc SZ_FILE ;;
  match r with
  | inl err => ret (err, None)
  | inr p =>
      modify (λ s, set_nodes (<[p := RbtNode BLACK junk junk junk]> (f_nodes s))
        (set_files (<[p := File FILE_ENTITY junk junk junk junk]> (f_files s)) s)) ;;;
      upd p (fl_sub NULL) ;;;
      in_mem (memset (add32 p OFF_NAME) 0 FILE_MAX_NAME_LEN) ;;;
      n <- in_mem (strlen name) ;;
      in_mem (strcpy (add32 p OFF_NAME) name n) ;;;
      upd p (fl_data addr) ;;; upd p (fl_size size) ;;; upd p (fl_type ty) ;;;
      ret (E_OK, Some p)
  end.

(** The loop of [file_find] over the components at [name + p]; the result is the error
    code and [file]. *)
Definition find_step (name : Z) (fp : Z * Z) : M (Z * Z + (Z * option Z)) :=
  let '(file, p) := fp in
  b <- in_mem (rd (add32 name p)) ;;
  if b =? 0 then ret (inr (E_OK, Some file)) else
  r <- on_sub file (rbt_find OFF_NAME (add32 name p)) ;;
  match r with
  | (err, None) => ret (inr (err, None))
  | (_, Some file) => n <- in_mem (strlen (add32 name p)) ;; ret (inl (file, add32 p (add32 n 1)))
  end.

(** Each component is at least one byte of memory. *)
Definition file_find (name : Z) : M (Z * option Z) :=
  b <- in_mem (rd name) ;;
  if negb (b =? SLASH) then ret (E_INVAL, None) else
  s <- get ;; name <- path_cut name ;;
  m <- in_mem get ;;
  loop (S (size m)) (find_step name) (root_file s, 0).

Definition create_step (ty : TYPE) (addr size name : Z) (fp : Z * Z) : M (Z * Z + Z) :=
  let '(file, p) := fp in
  b <- in_mem (rd (add32 name p)) ;;
  if b =? 0 then ret (inr E_OK) else
  r <- on_sub file (rbt_find OFF_NAME (add32 name p)) ;;
  r <- match r with
       | (_, Some file) => ret (inl file)
       | (_, None) =>
           n <- in_mem (strlen (add32 name p)) ;;
           b <- in_mem (rd (add32 name (add32 (add32 p n) 1))) ;;
           r <- (if negb (b =? 0) then file_new (add32 name p) FILE_DIR NULL NULL
                 else file_new (add32 name p) ty addr size) ;;
           match r with
           | (err, None) => ret (inr err)
           | (_, Some tmpfile) =>
               err <- on_sub file (rbt_insert OFF_NAME tmpfile) ;;
               assert_ (err =? E_OK) ;;;
               r <- on_sub file (rbt_find OFF_NAME (add32 name p)) ;;
               assert_ (fst r =? E_OK) ;;;
               file <- deref (snd r) ;;
               assert_ (file =? tmpfile) ;;;
               ret (inl file)
           end
       end ;;
  match r with
  | inr err => ret (inr err)
  | inl file => n <- in_mem (strlen (add32 name p)) ;; ret (inl (file, add32 p (add32 n 1)))
  end.

Definition file_create (name addr sz : Z) : M Z :=
  b <- in_mem (rd name) ;;
  if negb (b =? SLASH) then ret E_INVAL else
  c <- last_char name ;;
  let ty := if c =? SLASH then FILE_DIR else FILE_ENTITY in
  name <- path_cut name ;;
  s <- get ;;
  loop (S (size (f_mem s))) (create_step ty addr sz name) (root_file s, 0).

Definition file_read (name : Z) : M (Z * option (Z * Z)) :=
  r <- file_find name ;;
  match r with
  | (err, None) => ret (err, None)
  | (err, Some file) => x <- file_at file ;; ret (err, Some (f_data x, f_size x))
  end.

Definition file_write (name addr size : Z) : M Z :=
  r <- file_find name ;;
  match r with
  | (err, None) => ret err
  | (err, Some file) => upd file (fl_data addr) ;;; upd file (fl_size size) ;;; ret err
  end.

(** The nodes of the files in a directory, as [rbt_first] and [rbt_next] give them. *)
Definition subfiles (file : Z) : M (list Z) := on_sub file (on_rbt rbt_rep_list).

Fixpoint names_len (l : list Z) (len : Z) : M Z :=
  match l with
  | [] => ret len
  | q :: l => n <- in_mem (strlen (add32 q OFF_NAME)) ;; names_len l (add32 len (add32 n 1))
  end.
Fixpoint names_copy (cache : Z) (l : list Z) (offset : Z) : M unit :=
  match l with
  | [] => ret tt
  | q :: l =>
      n <- in_mem (strlen (add32 q OFF_NAME)) ;;
      in_mem (strcpy (add32 cache offset) (add32 q OFF_NAME) (add32 n 1)) ;;;
      n <- in_mem (strlen (add32 q OFF_NAME)) ;; names_copy cache l (add32 offset (add32 n 1))
  end.

Definition file_subfile (name : Z) : M (Z * option (Z * Z)) :=
  r <- file_find name ;;
  match r with
  | (err, None) => ret (err, None)
  | (_, Some file) =>
      x <- file_at file ;;
      if bool_decide (f_type x ≠ FILE_DIR) then ret (E_INVAL, None) else
      l <- subfiles file ;; len <- names_len l 0 ;;
      if len =? 0 then ret (E_NOTFOUND, None) else
      r <- malloc len ;;
      match r with
      | inl err => ret (err, None)
      | inr cache => l <- subfiles file ;; names_copy cache l 0 ;;; ret (E_OK, Some (cache, len))
      end
  end.

(** [rbt_delete(&file->ffile->subfile_rbt, &file->fa_rbt_node)] *)
Definition unlink (file : Z) : M unit :=
  x <- file_at file ;; on_sub (f_ffile x) (on_rbt (rbt_delete file)).

(** The recursion goes down the files, of which there are finitely many. *)
Fixpoint _file_delete (fuel : nat) (file : Z) : M unit :=
  match fuel with
  | O => hang
  | S fuel =>
      x <- file_at file ;;
      if bool_decide (f_type x = FILE_ENTITY) then unlink file else
      s <- get ;;
      loop (S (size (f_nodes s))) (λ _ : unit,
        node <- on_sub file (on_rbt rbt_first) ;;
        if node =? NULL then ret (inr tt) else _file_delete fuel node ;;; ret (inl tt)) tt ;;;
      unlink file
  end.

Definition file_delete (path : Z) : M Z :=
  r <- file_find path ;;
  match r with
  | (err, None) => ret err
  | (err, Some file) => s <- get ;; _file_delete (S (size (f_files s))) file ;;; ret err
  end.

(** [init]: the root is not reached through a tree, its name is a slash. *)
Definition init_root (name : Z) : M Z :=
  r <- file_new name FILE_DIR NULL NULL ;;
  match r with
  | (err, None) => ret err
  | (err, Some p) => modify (set_root_file p) ;;; ret err
  end.
End code.
