(* ===== verification/FsPath.v ===== *)
(** * Paths of the file service: theorems about [path_cut] and [file_new] of Fs.v *)
From S2P Require Import Prelude Kmalloc RbtModel RbtTree Cstring Words Blocks Names Fs.

(** The components of a path without its first slash: the name of a directory keeps
    its slash. *)
Fixpoint pieces (l : list Z) : list (list Z) :=
  match l with
  | [] => []
  | b :: l => if b =? SLASH then [b] :: pieces l else
      match pieces l with [] => [[b]] | w :: ws => (b :: w) :: ws end
  end.

(** Zero-terminated components, and an empty one at the end. *)
Definition strings (ws : list (list Z)) : list Z := concat ((λ w, w ++ [0]) <$> ws) ++ [0].

(** What the copying loop emits. *)
Definition emit (l : list Z) : list Z := flat_map (λ b, if b =? SLASH then [b; 0] else [b]) l.
Definition ends (l : list Z) : bool := match last l with Some b => b =? SLASH | None => false end.
Definition cut_len (l : list Z) : Z := Z.of_nat (length (strings (pieces l))).

Example pieces_path : pieces [97; 47; 98; 99; 47; 100] = [[97; 47]; [98; 99; 47]; [100]].
Proof. reflexivity. Qed.

Lemma ends_cons b c l : ends (b :: c :: l) = ends (c :: l).
Proof. done. Qed.

Lemma strings_pieces l : strings (pieces l) = emit l ++ (if ends (SLASH :: l) then [] else [0]) ++ [0].
Proof.
  unfold strings. induction l as [|b l IH]; [done|]. rewrite ends_cons. cbn [pieces emit flat_map].
  destruct (Z.eqb_spec b SLASH) as [->|Hb].
  - cbn [fmap list_fmap concat app]. by rewrite IH.
  - destruct l as [|c l].
    + cbn. by rewrite (proj2 (Z.eqb_neq b SLASH) Hb).
    + rewrite ends_cons in IH |- *. change (flat_map _ (c :: l)) with (emit (c :: l)). rewrite <- (assoc_L app).
      assert (∃ w ws, pieces (c :: l) = w :: ws) as (w & ws & Hw).
      { cbn [pieces]. destruct (c =? SLASH); [by eexists _, _|]. destruct (pieces l); by eexists _, _. }
      rewrite Hw in IH |- *. cbn [fmap list_fmap concat app] in IH |- *. by rewrite IH.
Qed.

Lemma pieces_nonempty l w : w ∈ pieces l → w ≠ [].
Proof.
  revert w. induction l as [|b l IH]; intros w; cbn [pieces]; [by intros ?%elem_of_nil|].
  destruct (b =? SLASH); [|destruct (pieces l) as [|w' ws] eqn:E].
  - intros [->|Hw]%elem_of_cons; [done|by apply IH].
  - by intros ->%list_elem_of_singleton.
  - intros [->|Hw]%elem_of_cons; [done|]. apply IH. by right.
Qed.

Lemma pieces_chars l w : Forall (λ b, 0 < b < 256) l → w ∈ pieces l → Forall (λ b, 0 < b < 256) w.
Proof.
  intros Hl. revert w. induction Hl as [|b l Hb Hl IH]; intros w; cbn [pieces]; [by intros ?%elem_of_nil|].
  destruct (b =? SLASH); [|destruct (pieces l) as [|w' ws] eqn:E].
  - intros [->|Hw]%elem_of_cons; [by apply Forall_singleton|by apply IH].
  - intros ->%list_elem_of_singleton. by apply Forall_singleton.
  - intros [->|Hw]%elem_of_cons; [apply Forall_cons; split; [done|apply IH; left]|]. apply IH. by right.
Qed.

Lemma emit_length l : (length l ≤ length (emit l) ≤ 2 * length l)%nat.
Proof. induction l as [|b l IH]; [done|]. unfold emit in *. simpl. rewrite length_app. destruct (b =? SLASH); simpl; lia. Qed.

Lemma emit_snoc l b : emit (l ++ [b]) = emit l ++ (if b =? SLASH then [b; 0] else [b]).
Proof. unfold emit. rewrite flat_map_app. simpl. by rewrite app_nil_r. Qed.

(** One more byte behind those written at [t]. *)
Lemma wp_append m m2 t n x v (Q : unit → mem → Prop) : mapped m t n → all_bytes m → 0 ≤ t → t + n < W32 →
  only t n m m2 → holds m2 t x → Z.of_nat (length x) < n → 0 ≤ v < 256 →
  (∀ m3, only t n m m3 → holds m3 t (x ++ [v]) → Q tt m3) → wp (wr (add32 t (Z.of_nat (length x))) v) Q m2.
Proof.
  intros Hm Hby Ht Hw Ho2 Hx Hl Hv HQ. rewrite add32_small by lia. apply wp_wr.
  { apply (only_mapped _ _ _ _ _ _ Ho2 Hm). lia. }
  rewrite Z.mod_small by lia. apply HQ.
  - split.
    + intros y Hy. rewrite lookup_insert_ne by lia. by apply Ho2.
    + intros y Hy. destruct (decide (y = t + Z.of_nat (length x))) as [->|Hne]; [rewrite lookup_insert_eq; by eexists|].
      rewrite lookup_insert_ne by done. by apply Ho2.
    + intros _ y c. destruct (decide (y = t + Z.of_nat (length x))) as [->|Hne].
      * rewrite lookup_insert_eq. by intros [= <-].
      * rewrite lookup_insert_ne by done. by apply (on_bytes _ _ _ _ Ho2 Hby).
  - apply holds_app. split; [apply holds_wr; [done|lia]|]. apply holds_cons. split; [apply lookup_insert_eq|].
    intros y c Hy. by rewrite lookup_nil in Hy.
Qed.

Section rules.
Context {H : Type} {HM : Kmalloc H} {HK : KmallocLaws H} {HB : HeapBytes H} {HBL : HeapBytesLaws H}.
Context (fall : Z → Z) (junk : Z).
Implicit Types (m : mem) (h : H).

Lemma wp_in_mem {B} (c : M mem B) Q m h F N rt :
  wp c (λ a m', Q a (Fs m' h F N rt)) m → wp (in_mem c) Q (Fs m h F N rt).
Proof. unfold in_mem. by rewrite wp_zoom. Qed.

Lemma wp_strlen name l Q m h F N rt : cstr m name l → Q (Z.of_nat (length l)) (Fs m h F N rt) →
  wp (in_mem (strlen name)) Q (Fs m h F N rt).
Proof.
  intros Hs HQ. apply wp_in_mem. eapply wp_mono; [by apply strlen_spec|]. by intros ?? [-> ->].
Qed.

Lemma wp_read a b Q m h F N rt : m !! a = Some b → Q b (Fs m h F N rt) → wp (in_mem (rd a)) Q (Fs m h F N rt).
Proof. intros Hs HQ. by apply wp_in_mem, (wp_rd _ _ b). Qed.

Lemma wp_last_char name l Q m h F N rt : cstr m name (SLASH :: l) →
  (∀ c, (c =? SLASH) = ends (SLASH :: l) → Q c (Fs m h F N rt)) → wp (last_char name) Q (Fs m h F N rt).
Proof.
  intros Hs HQ. unfold last_char. apply wp_in_mem, wp_bind. eapply wp_mono; [by apply strlen_spec|].
  intros ? m' [-> ->]. destruct (last (SLASH :: l)) as [c|] eqn:E; [|by apply last_None in E].
  pose proof (cs_range _ _ _ Hs) as Hr. cbn [length] in Hr |- *.
  destruct (cstr_byte _ _ _ (Z.of_nat (S (length l)) - 1) Hs) as (b & Hb & Hm & _); [cbn [length]; lia|].
  rewrite sub32_small by lia. apply (wp_rd _ _ b); [done|]. apply HQ. unfold ends. rewrite E.
  rewrite last_lookup in E. rewrite lookup_app_l in Hb by (cbn [length]; lia).
  replace (Z.to_nat (Z.of_nat (S (length l)) - 1)) with (pred (length (SLASH :: l))) in Hb by (cbn [length]; lia).
  congruence.
Qed.

(** The count of the first loop. *)
Lemma count_spec name l m h F N rt z : cstr m name (SLASH :: l) → 0 ≤ z → z + Z.of_nat (length l) < W32 →
  wp (loop (S (Z.to_nat (Z.of_nat (length (SLASH :: l))))) (count_body name) (1, z)) (λ r s', s' = Fs m h F N rt ∧
    r = z + Z.of_nat (length (emit l)) - Z.of_nat (length l)) (Fs m h F N rt).
Proof.
  intros Hs Hz Hw. pose proof (cs_range _ _ _ Hs) as Hr. cbn [length] in Hr.
  apply (wp_loop (λ k v s', s' = Fs m h F N rt ∧ ∃ i, (k = length l - i)%nat ∧ (i ≤ length l)%nat ∧
    v = (1 + Z.of_nat i, z + Z.of_nat (length (emit (take i l))) - Z.of_nat i))) with (n := length l).
  - intros k v s' (-> & i & -> & Hi & ->). unfold count_body. apply wp_bind, (wp_strlen _ _ _ _ _ _ _ _ Hs). cbn [length].
    destruct (Z.ltb_spec (1 + Z.of_nat i) (Z.of_nat (S (length l)))) as [Hlt|Hge].
    + destruct (lookup_lt_is_Some_2 l i) as [b Hb]; [lia|]. apply wp_bind, (wp_read _ b).
      { destruct (cstr_byte _ _ _ (1 + Z.of_nat i) Hs) as (b' & Hb' & Hm & _); [cbn [length]; lia|]. rewrite Hm, <- Hb'.
        rewrite lookup_app_l by (cbn [length]; lia). by replace (Z.to_nat (1 + Z.of_nat i)) with (S i) by lia. }
      apply wp_ret. exists (length l - S i)%nat. split; [lia|]. split; [done|]. exists (S i). split_and!; [lia|lia|].
      rewrite (take_S_r _ _ _ Hb). rewrite emit_snoc, length_app.
      pose proof (emit_length (take i l)) as He. rewrite length_take in He.
      destruct (b =? SLASH); cbn [length]; f_equal; rewrite ?add32_small by lia; lia.
    + apply wp_ret. split; [done|]. replace i with (length l) by lia. rewrite firstn_all. lia.
  - cbn [length]. lia.
  - split; [done|]. exists 0%nat. split_and!; [lia|lia|]. rewrite take_0. f_equal; change (length (emit [])) with 0%nat; lia.
Qed.

(** The copy: the second loop writes what [emit] says into the block. *)
Lemma copy_spec name l t n m h F N rt : cstr m name (SLASH :: l) → all_bytes m → mapped m t n → 0 ≤ t → t + n < W32 →
  Z.of_nat (length (emit l)) ≤ n → t + n ≤ name ∨ name + Z.of_nat (length l) + 2 ≤ t →
  wp (loop (S (Z.to_nat (Z.of_nat (length (SLASH :: l))))) (cut_body name t) (1, 0)) (λ r s', ∃ m', s' = Fs m' h F N rt ∧
    r = Z.of_nat (length (emit l)) ∧ only t n m m' ∧ holds m' t (emit l)) (Fs m h F N rt).
Proof.
  intros Hs Hby Hm Ht Hw Hn Hd. pose proof (cs_range _ _ _ Hs) as Hr. cbn [length] in Hr.
  apply (wp_loop (λ k v s', ∃ i m', s' = Fs m' h F N rt ∧ (k = length l - i)%nat ∧ (i ≤ length l)%nat ∧
    v = (1 + Z.of_nat i, Z.of_nat (length (emit (take i l)))) ∧ only t n m m' ∧ holds m' t (emit (take i l)))) with (n := length l).
  - intros k v s' (i & m' & -> & -> & Hi & -> & Ho & Hh). unfold cut_body.
    assert (∀ m2, only t n m m2 → cstr m2 name (SLASH :: l)) as Hname.
    { intros m2 Ho2. split; [|apply Hs|apply Hs]. eapply only_holds; [exact Ho2|apply Hs|]. rewrite length_app. cbn [length]. lia. }
    apply wp_bind, (wp_strlen _ _ _ _ _ _ _ _ (Hname _ Ho)). cbn [length].
    destruct (Z.ltb_spec (1 + Z.of_nat i) (Z.of_nat (S (length l)))) as [Hlt|Hge].
    2:{ apply wp_ret. exists m'. replace i with (length l) in Hh |- * by lia. by rewrite firstn_all in Hh |- *. }
    destruct (lookup_lt_is_Some_2 l i) as [b Hb]; [lia|].
    assert (∀ m2, only t n m m2 → m2 !! add32 name (1 + Z.of_nat i) = Some b) as Hread.
    { intros m2 Ho2. destruct (cstr_byte _ _ _ (1 + Z.of_nat i) (Hname _ Ho2)) as (b' & Hb' & Hm2 & _); [cbn [length]; lia|].
      rewrite Hm2, <- Hb'. rewrite lookup_app_l by (cbn [length]; lia). by replace (Z.to_nat (1 + Z.of_nat i)) with (S i) by lia. }
    assert (0 ≤ b < 256) as Hb256 by exact (Hby _ _ (Hread m (only_refl _ _ _))).
    apply wp_bind, (wp_read _ b); [by apply Hread|].
    set (p := Z.of_nat (length (emit (take i l)))) in *.
    assert (p + (if b =? SLASH then 2 else 1) ≤ n) as Hp.
    { assert (length (emit (take (S i) l)) ≤ length (emit l))%nat as Hle.
      { rewrite <- (take_drop (S i) l) at 2. unfold emit. rewrite flat_map_app, length_app. lia. }
      rewrite (take_S_r _ _ _ Hb), emit_snoc, length_app in Hle. unfold p. destruct (b =? SLASH); cbn [length] in Hle; lia. }
    apply wp_bind, wp_in_mem, (wp_append m m' t n); [done..|fold p; destruct (b =? SLASH); lia|done|]. intros m2 Ho2 Hh2.
    apply wp_bind, (wp_read _ b); [by apply Hread|].
    assert ((1 + Z.of_nat i) + 1 = 1 + Z.of_nat (S i)) as -> by lia.
    destruct (b =? SLASH) eqn:Hsl.
    + assert (p + 1 = Z.of_nat (length (emit (take i l) ++ [b]))) as -> by (rewrite length_app; cbn [length]; lia).
      apply wp_bind, wp_in_mem, (wp_append m m2 t n); [done..|rewrite length_app; cbn [length]; lia|lia|]. intros m3 Ho3 Hh3. apply wp_ret.
      exists (length l - S i)%nat. split; [lia|]. exists (S i), m3. split_and!; [done|lia|lia| |done|].
      * rewrite (take_S_r _ _ _ Hb), emit_snoc, Hsl, length_app. cbn [length]. f_equal. lia.
      * rewrite (take_S_r _ _ _ Hb), emit_snoc, Hsl. by rewrite <- (assoc_L app) in Hh3.
    + apply wp_ret. exists (length l - S i)%nat. split; [lia|]. exists (S i), m2. split_and!; [done|lia|lia| |done|].
      * rewrite (take_S_r _ _ _ Hb), emit_snoc, Hsl, length_app. cbn [length]. f_equal. lia.
      * by rewrite (take_S_r _ _ _ Hb), emit_snoc, Hsl.
  - cbn [length]. lia.
  - exists 0%nat, m. split_and!; [done|lia|lia|done|apply only_refl|]. intros i b Hi. by rewrite take_0 in Hi.
Qed.

Lemma run_malloc sz m h F N rt : malloc sz (Fs m h F N rt) = Ret (fst (kmalloc sz h)) (Fs m (snd (kmalloc sz h)) F N rt).
Proof. unfold malloc, bind, get. cbn [f_heap]. by destruct (kmalloc sz h). Qed.

(** [path_cut] when its block is there: the components of the path, each terminated,
    and an empty one. *)
Lemma path_cut_spec name l t m h h' F N rt : cstr m name (SLASH :: l) → 2 * Z.of_nat (length l) + 3 < W32 →
  all_bytes m → heap_mapped h m → outside h name (Z.of_nat (length l) + 2) → kmalloc (cut_len l) h = (inr t, h') →
  wp (path_cut fall name) (λ r s', ∃ m', s' = Fs m' h' F N rt ∧ r = fall t ∧ only t (cut_len l) m m' ∧
    holds m' t (strings (pieces l))) (Fs m h F N rt).
Proof.
  intros Hs Hl Hby Hmap Hout Hk. pose proof (cs_range _ _ _ Hs) as Hr. cbn [length] in Hr.
  assert (1 ≤ cut_len l) as Hc1 by (unfold cut_len, strings; rewrite length_app; cbn [length]; lia).
  assert (0 ≤ cut_len l) as Hc0 by lia.
  destruct (kmalloc_ok _ _ _ _ Hk) as ([Ht _] & _). destruct (heap_alloc _ _ _ _ m Hk Hc0 Hmap) as (Hm & _ & Hw & _).
  assert (t + cut_len l ≤ name ∨ name + Z.of_nat (length l) + 2 ≤ t) as Hd.
  { destruct (heap_ok _ _ _ _ Hk Hc0) as (_ & Hfr & _). destruct (decide (name < t + cut_len l ∧ t < name + Z.of_nat (length l) + 2)); [|lia].
    exfalso. apply (Hout (Z.max name t)); [lia|]. apply Hfr. lia. }
  pose proof (emit_length l) as He. pose proof (strings_pieces l) as Hsp.
  set (e := ends (SLASH :: l)) in *.
  assert (cut_len l = Z.of_nat (length (emit l)) + (if e then 0 else 1) + 1) as Hcut.
  { unfold cut_len. rewrite Hsp, !length_app. destruct e; cbn [length]; lia. }
  unfold path_cut. apply wp_bind, (wp_strlen _ _ _ _ _ _ _ _ Hs), wp_bind, (wp_last_char _ _ _ _ _ _ _ _ Hs).
  intros c Hc. rewrite Hc. fold e.
  assert (add32 (Z.of_nat (length (SLASH :: l))) (if e then 0 else 1) = Z.of_nat (S (length l)) + (if e then 0 else 1)) as ->.
  { cbn [length]. apply add32_small. destruct e; lia. }
  apply wp_bind. eapply wp_mono; [apply (count_spec name l); [done|destruct e; lia..]|].
  intros z s' [-> ->]. eapply wp_step; [apply run_malloc|].
  assert (Z.of_nat (S (length l)) + (if e then 0 else 1) + Z.of_nat (length (emit l)) - Z.of_nat (length l) = cut_len l) as -> by lia.
  rewrite Hk. cbn [fst snd]. apply wp_bind. eapply wp_mono; [apply (copy_spec name l t (cut_len l)); (done || destruct e; lia)|].
  intros p s' (m' & -> & -> & Ho & Hh). apply wp_bind, (wp_last_char _ l).
  { split; [|apply Hs|apply Hs]. eapply only_holds; [exact Ho|apply Hs|]. rewrite length_app. cbn [length]. lia. }
  intros c' Hc'. rewrite Hc'. fold e. apply wp_bind. destruct e; cbn [negb].
  - apply wp_ret, wp_bind, wp_in_mem, (wp_append m m' t (cut_len l)); [done|done|lia|done|done|done|lia|done|]. intros m3 Ho3 Hh3.
    apply wp_bind, wp_assert. split; [lia|]. apply wp_ret. exists m3. by rewrite Hsp.
  - apply wp_bind, wp_in_mem, (wp_append m m' t (cut_len l)); [done|done|lia|done|done|done|lia|done|]. intros m3 Ho3 Hh3.
    apply wp_ret. assert (Z.of_nat (length (emit l)) + 1 = Z.of_nat (length (emit l ++ [0]))) as -> by (rewrite length_app; cbn [length]; lia).
    apply wp_bind, wp_in_mem, (wp_append m m3 t (cut_len l)); [done|done|lia|done|done|done|rewrite length_app; cbn [length]; lia|done|]. intros m4 Ho4 Hh4.
    apply wp_bind, wp_assert. split; [apply Z.eqb_eq; rewrite Hcut, length_app; cbn [length]; lia|]. apply wp_ret. exists m4. rewrite Hsp.
    by rewrite <- (assoc_L app) in Hh4.
Qed.

Lemma run_upd_file p f x m h F N rt : F !! p = Some x → upd p f (Fs m h F N rt) = Ret tt (Fs m h (<[p := f x]> F) N rt).
Proof. intros Hx. unfold upd, file_at, bind, get, deref. cbn [f_files]. by rewrite Hx. Qed.

Lemma file_new_spec name w ty addr sz p m h h' F N rt : cstr m name w → Z.of_nat (length w) < FILE_MAX_NAME_LEN →
  all_bytes m → heap_mapped h m → outside h name (Z.of_nat (length w) + 1) → kmalloc SZ_FILE h = (inr p, h') →
  wp (file_new junk name ty addr sz) (λ r s', r = (E_OK, Some p) ∧ ∃ m', s' = Fs m' h'
      (<[p := File ty addr sz NULL junk]> F) (<[p := RbtNode BLACK junk junk junk]> N) rt ∧
    only p SZ_FILE m m' ∧ cstr m' (add32 p OFF_NAME) w) (Fs m h F N rt).
Proof.
  intros Hs Hw Hby Hmap Hout Hk. destruct (kmalloc_ok _ _ _ _ Hk) as ([Hp _] & _).
  destruct (heap_alloc _ _ _ _ m Hk ltac:(done) Hmap) as (Hm & _ & Hpw & _).
  assert (p + SZ_FILE ≤ name ∨ name + Z.of_nat (length w) + 1 ≤ p) as Hd.
  { destruct (heap_ok _ _ _ _ Hk ltac:(done)) as (_ & Hfr & _). unfold SZ_FILE in *.
    destruct (decide (name < p + 72 ∧ p < name + Z.of_nat (length w) + 1)); [|lia].
    exfalso. apply (Hout (Z.max name p)); [lia|]. apply Hfr. lia. }
  unfold file_new. eapply wp_step; [apply run_malloc|]. rewrite Hk. cbn [fst snd]. eapply wp_step; [done|].
  cbn [set_nodes set_files f_mem f_heap f_files f_nodes root_file].
  eapply wp_step; [apply run_upd_file, lookup_insert_eq|]. pose proof (clear_then_name m (add32 p OFF_NAME) name w FILE_MAX_NAME_LEN Hs) as Hn2.
  unfold OFF_NAME, FILE_MAX_NAME_LEN, SZ_FILE in *. rewrite add32_small in * by lia.
  specialize (Hn2 Hw Hby ltac:(intros x Hx; apply Hm; lia) ltac:(lia) ltac:(lia) ltac:(lia)). apply wp_bind, wp_in_mem.
  eapply wp_mono; [exact Hn2|]. intros [] m1 [Hs1 Hn3]. apply wp_bind, (wp_strlen _ _ _ _ _ _ _ _ Hs1).
  apply wp_bind, wp_in_mem. eapply wp_mono; [exact Hn3|]. intros [] m2 [Ho2 Hc2].
  do 3 (eapply wp_step; [apply run_upd_file, lookup_insert_eq|]). apply wp_ret. split; [done|]. exists m2.
  split; [|split; [eapply only_wider; [exact Ho2|lia..]|done]]. unfold set_nodes, set_files. cbn [f_mem f_heap f_files f_nodes root_file]. by rewrite !insert_insert_eq.
Qed.
End rules.
