(* ===== verification/FsTree.v ===== *)
(** * The tree of files: the invariant of Fs.v, looking up and adding *)
From S2P Require Import Prelude Kmalloc RbtModel RbtTree RbtInsert RbtDelete RbtIter RbtSearch Cstring Words Blocks Names Fs FsPath.

(** [kids p] is the tree of the directory [p] and [nm q] the name of [q]; [child] is the
    file of a name in a directory and [walk] follows a path. *)
Section walk.
Context (kids : Z → tree) (nm : Z → list Z).
Definition child (p : Z) (w : list Z) : option Z := head (filter (λ q, nm q = w) (elems (kids p))).
Fixpoint walk (p : Z) (ws : list (list Z)) : option Z :=
  match ws with [] => Some p | w :: ws => q ← child p w; walk q ws end.

Lemma child_some p w q : child p w = Some q → q ∈ elems (kids p) ∧ nm q = w.
Proof.
  unfold child. intros Hh. apply head_Some in Hh as [l Hl].
  assert (q ∈ filter (λ q, nm q = w) (elems (kids p))) as Hq by (rewrite Hl; left).
  apply list_elem_of_filter in Hq. tauto.
Qed.
Lemma child_none p w q : child p w = None → q ∈ elems (kids p) → nm q ≠ w.
Proof.
  unfold child. intros Hh Hq Hn. apply head_None in Hh.
  assert (q ∈ filter (λ q, nm q = w) (elems (kids p))) as Hin by (by apply list_elem_of_filter).
  rewrite Hh in Hin. by apply elem_of_nil in Hin.
Qed.
Lemma child_name p q : names_sorted nm (elems (kids p)) → q ∈ elems (kids p) → child p (nm q) = Some q.
Proof.
  intros Hs Hq. destruct (child p (nm q)) as [q'|] eqn:E.
  - apply child_some in E as [Hq' Hn]. f_equal. by eapply names_sorted_inj.
  - by destruct (child_none _ _ _ E Hq).
Qed.
Lemma walk_app p v1 v2 : walk p (v1 ++ v2) = q ← walk p v1; walk q v2.
Proof. revert p. induction v1 as [|w v1 IH]; intros p; [done|]. simpl. destruct (child p w); simpl; [apply IH|done]. Qed.
Lemma walk_snoc p v w : walk p (v ++ [w]) = q ← walk p v; child q w.
Proof. rewrite walk_app. destruct (walk p v) as [q|]; [|done]. simpl. by destruct (child q w). Qed.
End walk.

Section tree.
Context {H : Type} {HM : Kmalloc H} {HK : KmallocLaws H} {HB : HeapBytes H} {HBL : HeapBytesLaws H}.
Context (fall : Z → Z) (junk : Z).
Implicit Types (m : mem) (h : H) (F : gmap Z file_t) (N : nodes) (kids : Z → tree) (nm : Z → list Z).

(** Directories are red-black trees of distinct names; every file but the root is in one
    directory at most; the names are outside the free memory. *)
Record fs_ok kids nm (s : fs H) : Prop := {
  fo_mem : heap_mapped (f_heap s) (f_mem s) ∧ all_bytes (f_mem s);
  fo_dir : ∀ p x, f_files s !! p = Some x → p ∈ km_live (f_heap s) ∧ rbtree (kids p) ∧ names_sorted nm (elems (kids p)) ∧
    R (f_nodes s) (elems (kids p)) (kids p) (Rbt (f_sub x) (f_nodes s));
  fo_kid : ∀ p q, is_Some (f_files s !! p) → q ∈ elems (kids p) → is_Some (f_files s !! q) ∧
    cstr (f_mem s) (add32 q OFF_NAME) (nm q) ∧ outside (f_heap s) (add32 q OFF_NAME) (Z.of_nat (length (nm q)) + 1) ∧ add32 q OFF_NAME + Z.of_nat (length (nm q)) + 1 < W32;
  fo_one : ∀ p p' q, is_Some (f_files s !! p) → is_Some (f_files s !! p') → q ∈ elems (kids p) → q ∈ elems (kids p') → p = p';
  fo_root : is_Some (f_files s !! root_file s) ∧ ∀ p, is_Some (f_files s !! p) → root_file s ∉ elems (kids p);
}.

(** What a path leads to: the kind of the file and its contents. *)
Definition entry kids nm (s : fs H) (v : list (list Z)) : option (TYPE * Z * Z) :=
  p ← walk kids nm (root_file s) v; x ← f_files s !! p; Some (f_type x, f_data x, f_size x).

Lemma walk_file kids nm s v p : fs_ok kids nm s → ∀ r, is_Some (f_files s !! r) → walk kids nm r v = Some p → is_Some (f_files s !! p).
Proof.
  intros Hok. induction v as [|w v IH]; intros r Hr Hw; [by injection Hw as <-|].
  simpl in Hw. apply bind_Some in Hw as (q & Hq & Hw). apply child_some in Hq as [Hq _].
  apply (IH q); [|done]. by apply (fo_kid _ _ _ Hok r q).
Qed.

(** A file has one path. *)
Lemma walk_inj kids nm s v1 v2 p : fs_ok kids nm s → walk kids nm (root_file s) v1 = Some p →
  walk kids nm (root_file s) v2 = Some p → v1 = v2.
Proof.
  intros Hok. destruct (fo_root _ _ _ Hok) as [Hroot Hno]. revert v2 p.
  induction v1 as [|w1 v1 IH] using rev_ind; intros v2 p; destruct v2 as [|w2 v2 _] using rev_ind; rewrite ?walk_snoc; try done.
  - intros [= <-]. intros (q & Hq & Hc)%bind_Some. apply child_some in Hc as [Hc _]. exfalso.
    apply (Hno q); [|done]. by eapply walk_file.
  - intros (q & Hq & Hc)%bind_Some [= <-]. apply child_some in Hc as [Hc _]. exfalso.
    apply (Hno q); [|done]. by eapply walk_file.
  - intros (q1 & Hq1 & Hc1)%bind_Some (q2 & Hq2 & Hc2)%bind_Some.
    apply child_some in Hc1 as [Hc1 <-], Hc2 as [Hc2 <-].
    assert (q1 = q2) as -> by (eapply (fo_one _ _ _ Hok); [by eapply walk_file..|exact Hc1|exact Hc2]).
    by rewrite (IH v2 q2).
Qed.

(** The heap moves on, the tree stays. *)
Lemma fs_ok_step kids nm m h F N rt m' h' : fs_ok kids nm (Fs m h F N rt) → heap_step h m h' m' → km_live h ⊆ km_live h' →
  fs_ok kids nm (Fs m' h' F N rt).
Proof.
  intros [[O1 O1'] O2 O3 O4 O5] Hs Hl. cbn [f_mem f_heap f_files f_nodes root_file] in *. split; cbn [f_mem f_heap f_files f_nodes root_file].
  - split; [by eapply heap_step_mapped|by apply (hs_bytes _ _ _ _ Hs)].
  - intros p x Hp. destruct (O2 p x Hp) as [Hlv Hr]. split; [by apply Hl|done].
  - intros p q Hp Hq. destruct (O3 p q Hp Hq) as (? & ? & ? & ?). split_and!; [done|by eapply heap_step_cstr|by eapply heap_step_outside|done].
  - done.
  - done.
Qed.

(** Looking up a name in a directory. *)
Lemma on_sub_find kids nm s p key w : fs_ok kids nm s → is_Some (f_files s !! p) → cstr (f_mem s) key w →
  on_sub p (rbt_find OFF_NAME key) s = Ret (match child kids nm p w with Some q => (E_OK, Some q) | None => (E_NOTFOUND, None) end) s.
Proof.
  intros Hok [x Hx] Hk. destruct s as [m h F N rt]. cbn [f_mem f_heap f_files f_nodes root_file] in *.
  destruct (fo_dir _ _ _ Hok p x Hx) as (_ & _ & Hs & HR). cbn [f_nodes] in HR.
  assert (∀ q, q ∈ elems (kids p) → cstr m (add32 q OFF_NAME) (nm q)) as Hnm.
  { intros q Hq. by apply (fo_kid _ _ _ Hok p q). }
  pose proof (name_find_spec OFF_NAME nm _ _ _ m _ HR Hnm Hs key w Hk) as Hf. unfold wp in Hf.
  unfold on_sub, file_at, bind, get, deref. cbn [f_files f_mem f_nodes f_heap root_file]. rewrite Hx. unfold ret at 1.
  destruct (rbt_find _ _ _) as [r nt| | |]; [|done..]. destruct Hf as [-> Hf]. unfold put, ret. cbn [nt_mem nt_rbt rbt_root rbt_nodes].
  f_equal.
  - destruct (child kids nm p w) as [q|] eqn:E, r as [e [q'|]]; cbn [fst snd] in Hf.
    + destruct Hf as (-> & Hq & Hn). subst w. rewrite (child_name _ _ _ _ Hs Hq) in E. by simplify_eq.
    + destruct Hf as [_ Hf]. apply child_some in E as [E1 E2]. by destruct (Hf q E1).
    + destruct Hf as (_ & Hq & Hn). by destruct (child_none _ _ _ _ _ E Hq).
    + by destruct Hf as [-> _].
  - f_equal. apply insert_id. rewrite Hx. by destruct x.
Qed.

(** ** Following a path *)
Lemma strings_cons w ws : strings (w :: ws) = w ++ [0] ++ strings ws.
Proof. unfold strings. cbn [fmap list_fmap concat]. by rewrite <- !(assoc_L app). Qed.
Lemma strings_long ws : (length ws < length (strings ws))%nat.
Proof. induction ws as [|w ws IH]; [unfold strings; simpl; lia|]. rewrite strings_cons, !length_app. simpl. lia. Qed.

(** The components are not empty and are made of characters. *)
Definition proper (ws : list (list Z)) : Prop := Forall (λ w, w ≠ [] ∧ Forall (λ b, 0 < b < 256) w) ws.

Lemma proper_pieces l : Forall (λ b, 0 < b < 256) l → proper (pieces l).
Proof.
  intros Hl. apply Forall_forall. intros w Hw. split; [by eapply pieces_nonempty|by eapply pieces_chars].
Qed.

(** The component string at [name + p]: its first byte, and itself. *)
Lemma strings_at m a w ws : holds m a (strings (w :: ws)) → proper (w :: ws) → 0 ≤ a →
  a + Z.of_nat (length (strings (w :: ws))) < W32 →
  cstr m a w ∧ holds m (a + Z.of_nat (length w) + 1) (strings ws) ∧ ∃ b, m !! a = Some b ∧ b ≠ 0.
Proof.
  intros Hh [[Hne Hch] Hp]%Forall_cons Ha Hw. rewrite strings_cons in Hh. rewrite strings_cons, !length_app in Hw.
  rewrite (assoc_L app) in Hh. apply holds_app in Hh as [H1 H2]. rewrite length_app in H2. cbn [length] in *.
  split_and!.
  - split; [done|done|lia].
  - replace (a + Z.of_nat (length w) + 1) with (a + Z.of_nat (length w + 1)) by lia. exact H2.
  - destruct w as [|b w]; [done|]. exists b. apply holds_app in H1 as [H1 _]. apply holds_cons in H1 as [H1 _].
    apply Forall_cons in Hch as [Hb _]. split; [done|lia].
Qed.
Lemma strings_end m a : holds m a (strings []) → m !! a = Some 0.
Proof. intros Hh. by apply holds_cons in Hh as [? _]. Qed.

Lemma run_read a b (s : fs H) : f_mem s !! a = Some b → in_mem (rd a) s = Ret b s.
Proof.
  intros Hb. destruct s as [m h F N rt]. unfold in_mem, zoom, rd, bind, get, deref. cbn [f_mem] in *. by rewrite Hb.
Qed.
Lemma run_strlen a w (s : fs H) : cstr (f_mem s) a w → in_mem (strlen a) s = Ret (Z.of_nat (length w)) s.
Proof.
  intros Hc. destruct s as [m h F N rt]. pose proof (strlen_spec m a w Hc) as Hl. unfold wp in Hl.
  unfold in_mem, zoom. cbn [f_mem] in *. destruct (strlen a m); [|done..]. by destruct Hl as [-> ->].
Qed.

Lemma find_walk kids nm t ws s : fs_ok kids nm s → proper ws → ∀ fuel f p, (length ws < fuel)%nat →
  is_Some (f_files s !! f) → 0 ≤ t → 0 ≤ p → holds (f_mem s) (t + p) (strings ws) → t + p + Z.of_nat (length (strings ws)) < W32 →
  loop fuel (find_step t) (f, p) s =
    Ret (match walk kids nm f ws with Some q => (E_OK, Some q) | None => (E_NOTFOUND, None) end) s.
Proof.
  intros Hok. induction ws as [|w ws IH]; intros Hp fuel f p Hfu Hf Ht Hp0 Hh Hw; (destruct fuel as [|fuel]; [simpl in Hfu; lia|]).
  - apply strings_end in Hh. cbn [loop]. unfold find_step at 1. rewrite add32_small by lia.
    unfold bind at 1 2. by rewrite (run_read _ _ _ Hh).
  - destruct (strings_at _ _ _ _ Hh Hp ltac:(lia) Hw) as (Hc & Hrest & b & Hb & Hb0).
    apply Forall_cons in Hp as [_ Hp]. rewrite strings_cons, !length_app in Hw. cbn [length] in Hw.
    cbn [loop]. unfold find_step at 1. rewrite add32_small by lia.
    unfold bind at 1 2. rewrite (run_read _ _ _ Hb), (proj2 (Z.eqb_neq b 0) Hb0). unfold bind at 1.
    rewrite (on_sub_find kids nm s f (t + p) w Hok Hf Hc). cbn [walk]. destruct (child kids nm f w) as [q|] eqn:Hq; [|done].
    unfold bind at 1. rewrite (run_strlen _ _ _ Hc). unfold ret at 1. rewrite !add32_small by (rewrite ?add32_small by lia; lia). rewrite IH.
    + done.
    + done.
    + simpl in Hfu. lia.
    + apply child_some in Hq as [Hq _]. by apply (fo_kid _ _ _ Hok f q).
    + done.
    + lia.
    + replace (t + (p + (Z.of_nat (length w) + 1))) with (t + p + Z.of_nat (length w) + 1) by lia. exact Hrest.
    + lia.
Qed.

(** After [path_cut]: the invariant again, and the components in memory. *)
Lemma cut_ok kids nm name l t s h' : fs_ok kids nm s → cstr (f_mem s) name (SLASH :: l) → 2 * Z.of_nat (length l) + 3 < W32 →
  outside (f_heap s) name (Z.of_nat (length l) + 2) → kmalloc (cut_len l) (f_heap s) = (inr t, h') →
  wp (path_cut fall name) (λ r s', r = fall t ∧ fs_ok kids nm s' ∧ f_heap s' = h' ∧ f_files s' = f_files s ∧
    root_file s' = root_file s ∧ f_nodes s' = f_nodes s ∧ heap_step (f_heap s) (f_mem s) h' (f_mem s') ∧
    holds (f_mem s') t (strings (pieces l)) ∧ outside h' t (cut_len l) ∧ 0 < t ∧ t + cut_len l < W32) s.
Proof.
  intros Hok Hs Hl Hout Hk. destruct s as [m h F N rt]. cbn [f_mem f_heap f_files root_file] in *.
  destruct (fo_mem _ _ _ Hok) as [Hmap Hby]. cbn [f_mem f_heap] in Hmap, Hby.
  assert (0 ≤ cut_len l) as Hc0 by (unfold cut_len; lia).
  destruct (kmalloc_ok _ _ _ _ Hk) as ([Ht _] & _ & Hlive). destruct (heap_alloc _ _ _ _ m Hk Hc0 Hmap) as (_ & Ho' & Hw & _).
  eapply wp_mono; [by apply (path_cut_spec fall name l t m h h')|]. intros r s' (m' & -> & -> & Ho & Hh).
  assert (heap_step h m h' m') as Hst by (eapply heap_write; [exact Hk|done|exact Ho|lia|lia]).
  cbn [f_mem f_heap f_files f_nodes root_file]. split_and!; try done. eapply fs_ok_step; [exact Hok|done|set_solver].
Qed.

(** [file_find] follows the components of the path. *)
Lemma file_find_spec kids nm name l t s h' : fs_ok kids nm s → cstr (f_mem s) name (SLASH :: l) → 2 * Z.of_nat (length l) + 3 < W32 →
  outside (f_heap s) name (Z.of_nat (length l) + 2) → kmalloc (cut_len l) (f_heap s) = (inr t, h') → fall t = t →
  wp (file_find fall name) (λ r s', fs_ok kids nm s' ∧ f_files s' = f_files s ∧ root_file s' = root_file s ∧
    heap_step (f_heap s) (f_mem s) (f_heap s') (f_mem s') ∧ f_heap s' = h' ∧
    r = match walk kids nm (root_file s) (pieces l) with Some q => (E_OK, Some q) | None => (E_NOTFOUND, None) end) s.
Proof.
  intros Hok Hs Hl Hout Hk Hfall. unfold file_find.
  assert (in_mem (rd name) s = Ret SLASH s) as Hrd.
  { apply run_read. pose proof (cs_holds _ _ _ Hs) as Hh. by apply holds_cons in Hh as [Hh _]. }
  eapply wp_step; [exact Hrd|]. cbn [Z.eqb SLASH Pos.eqb negb]. eapply wp_step; [done|]. apply wp_bind.
  eapply wp_mono; [by apply (cut_ok kids nm name l t s h')|].
  intros r s' (-> & Hok' & Hh' & HF & Hrt & _ & Hst & Hstr & _ & Ht & Hw). rewrite Hfall.
  assert (in_mem get s' = Ret (f_mem s') s') as Hget by by destruct s'.
  eapply wp_step; [exact Hget|]. unfold wp. unfold cut_len in Hw.
  rewrite (find_walk kids nm t (pieces l) s' Hok').
  - split_and!; [done|done|done|by rewrite Hh'|done|done].
  - apply proper_pieces. pose proof (cs_chars _ _ _ Hs) as Hc. by apply Forall_cons in Hc as [_ ?].
  - pose proof (strings_long (pieces l)). pose proof (holds_size _ _ _ Hstr). lia.
  - rewrite <- Hrt. apply (fo_root _ _ _ Hok').
  - lia.
  - lia.
  - by rewrite Z.add_0_r.
  - lia.
Qed.
End tree.
