(* ===== verification/FsSpec.v ===== *)
(** * Creating files: theorems about [file_create] of Fs.v *)
From stdpp Require Import functions.
From S2P Require Import Prelude Kmalloc RbtModel RbtTree RbtInsert RbtDelete RbtIter RbtSearch Cstring Words Blocks Names Fs FsPath FsTree.

Section create.
Context {H : Type} {HM : Kmalloc H} {HK : KmallocLaws H} {HB : HeapBytes H} {HBL : HeapBytesLaws H}.
Context (junk : Z).
Implicit Types (m : mem) (h : H) (F : gmap Z file_t) (N : nodes) (kids : Z → tree) (nm : Z → list Z).

Lemma child_iff kids nm p w q : names_sorted nm (elems (kids p)) → child kids nm p w = Some q ↔ q ∈ elems (kids p) ∧ nm q = w.
Proof. intros Hs. split; [apply child_some|]. intros [Hq <-]. by apply child_name. Qed.

(** ** A new file [q] of name [w] in the directory [f] *)
Section added.
Context (kids : Z → tree) (nm : Z → list Z) (m : mem) (h : H) (F : gmap Z file_t) (N : nodes) (rt f q : Z) (x y : file_t).
Context (w : list Z) (t' : tree) (l1 l2 : list Z) (N' : nodes) (root' : Z).
Record added : Prop := {
  ad_ok : fs_ok kids nm (Fs m h F N rt);
  ad_f : F !! f = Some x;
  ad_q : F !! q = None ∧ q ≠ NULL ∧ q ∈ km_live h;
  ad_name : cstr m (add32 q OFF_NAME) w ∧ outside h (add32 q OFF_NAME) (Z.of_nat (length w) + 1) ∧ add32 q OFF_NAME + Z.of_nat (length w) + 1 < W32;
  ad_elems : elems (kids f) = l1 ++ l2 ∧ elems t' = l1 ++ q :: l2 ∧ rbtree t';
  ad_none : child kids nm f w = None;
  ad_sub : f_sub y = NULL;
  ad_tree : R N (q :: elems (kids f)) t' (Rbt root' N');
  ad_sort : names_sorted (<[q := w]> nm) (elems t');
}.
Context (HA : added).
Ltac facts := pose proof HA as [Hok Hf (Hq & Hq0 & Hlive) (Hname & Hout & Hqw) (Hel & Hel' & Hrb) Hno Hy HR Hsort].
Abbreviation kids' := (<[f := t']> (<[q := E]> kids)).
Abbreviation nm' := (<[q := w]> nm).
Abbreviation F' := (<[f := fl_sub root' x]> (<[q := y]> F)).

Lemma q_not_f : q ≠ f.
Proof. facts. intros ->. congruence. Qed.
Lemma old_ne p : is_Some (F !! p) → p ≠ q.
Proof. facts. intros [z Hz] ->. congruence. Qed.
Lemma old_kid_ne p z : is_Some (F !! p) → z ∈ elems (kids p) → z ≠ q.
Proof. facts. intros Hp Hz. apply old_ne. by apply (fo_kid _ _ _ Hok p z). Qed.
Lemma dom' p : is_Some (F' !! p) → p = q ∨ is_Some (F !! p).
Proof.
  facts. intros Hp. destruct (decide (p = f)) as [->|Hpf]; [right; by eexists|]. rewrite lookup_insert_ne in Hp by done.
  destruct (decide (p = q)) as [->|Hpq]; [by left|right]. by rewrite lookup_insert_ne in Hp.
Qed.
Lemma in_dom' p : p = q ∨ is_Some (F !! p) → is_Some (F' !! p).
Proof.
  facts. intros Hp. destruct (decide (p = f)) as [->|Hpf]; [rewrite lookup_insert_eq; by eexists|]. rewrite lookup_insert_ne by done.
  destruct (decide (p = q)) as [->|Hpq]; [rewrite lookup_insert_eq; by eexists|]. rewrite lookup_insert_ne by done. by destruct Hp.
Qed.
Lemma kid' p z : is_Some (F' !! p) → z ∈ elems (kids' p) → (p = f ∧ z = q) ∨ (is_Some (F !! p) ∧ z ∈ elems (kids p) ∧ z ≠ q).
Proof.
  facts. intros Hp Hz. destruct (decide (p = f)) as [->|Hpf].
  - rewrite fn_lookup_insert, Hel', elem_of_app, elem_of_cons in Hz. destruct (decide (z = q)) as [->|Hzq]; [by left|right].
    split; [by eexists|]. rewrite Hel, elem_of_app. tauto.
  - rewrite fn_lookup_insert_ne in Hz by done. apply dom' in Hp as [->|Hp].
    + rewrite fn_lookup_insert in Hz. by apply elem_of_nil in Hz.
    + rewrite fn_lookup_insert_ne in Hz by (intros ->; by apply (old_ne _ Hp)). right. split_and!; [done..|by eapply old_kid_ne].
Qed.

Lemma add_ok : fs_ok kids' nm' (Fs m h F' N' rt).
Proof.
  facts. pose proof q_not_f as Hqf. pose proof Hok as [O1 O2 O3 O4 O5]. cbn [f_mem f_heap f_files f_nodes root_file] in *.
  assert (∀ z, z ≠ q → z ∉ elems (kids f) → N' !! z = N !! z) as Hfr.
  { intros z Hz1 Hz2. apply (R_frame _ _ _ _ HR z). by apply not_elem_of_cons. }
  split; cbn [f_mem f_heap f_files f_nodes root_file].
  - done.
  - intros p z Hp. destruct (decide (p = f)) as [->|Hpf].
    + rewrite lookup_insert_eq in Hp. injection Hp as <-. destruct (O2 f x Hf) as (Hlv & _). rewrite fn_lookup_insert.
      split_and!; [done..|]. exact (R_weaken _ _ _ _ HR).
    + rewrite lookup_insert_ne in Hp by done. rewrite (fn_lookup_insert_ne _ f p) by done. destruct (decide (p = q)) as [->|Hpq].
      * rewrite lookup_insert_eq in Hp. injection Hp as <-. rewrite fn_lookup_insert, Hy. split; [done|]. split; [split; [done|by exists 0%nat; constructor]|].
        split; [constructor|]. split; cbn [elems rep RbtTree.addr rbt_root rbt_nodes]; [done|done|constructor|by apply not_elem_of_nil|done|done].
      * rewrite lookup_insert_ne in Hp by done. rewrite fn_lookup_insert_ne by done. destruct (O2 p z Hp) as (Hlv & Hrbp & Hsp & HRp).
        assert (is_Some (F !! p)) as Hsome by by eexists. split_and!; [done..| |].
        -- eapply names_sorted_ext; [|exact Hsp]. intros k Hk. rewrite fn_lookup_insert_ne; [done|]. intros ->. by apply (old_kid_ne p k).
        -- eapply R_ext; [|exact HRp]. intros k Hk. apply Hfr; [by eapply old_kid_ne|]. intros Hkf. apply Hpf.
           apply (O4 p f k); [done|by eexists|done|done].
  - intros p z Hp Hz. destruct (kid' p z Hp Hz) as [[-> ->]|(Hp' & Hz' & Hne)].
    + split; [apply in_dom'; by left|]. by rewrite fn_lookup_insert.
    + rewrite fn_lookup_insert_ne by done. destruct (O3 p z Hp' Hz') as [? ?]. split; [apply in_dom'; by right|done].
  - intros p p' z Hp Hp' Hz Hz'. destruct (kid' p z Hp Hz) as [[-> ->]|(Hp1 & Hz1 & Hne)], (kid' p' _ Hp' Hz') as [[-> ?]|(Hp2 & Hz2 & Hne2)]; try done.
    by apply (O4 p p' z).
  - split; [apply in_dom'; right; apply O5|]. intros p Hp Hz. destruct (kid' p rt Hp Hz) as [[-> ->]|(Hp1 & Hz1 & Hne)].
    + by apply (old_ne q); [apply O5|].
    + by apply (proj2 O5 p).
Qed.

Lemma child_add p u : is_Some (F !! p) → child kids' nm' p u = if decide (p = f ∧ u = w) then Some q else child kids nm p u.
Proof.
  facts. intros Hp. pose proof add_ok as Hok'. destruct Hp as [z Hz]. assert (is_Some (F' !! p)) as [z' Hz'] by (apply in_dom'; right; by eexists).
  assert (is_Some (F !! p)) as Hp by by eexists. assert (is_Some (F' !! p)) as Hp' by by eexists.
  destruct (fo_dir _ _ _ Hok p z Hz) as (_ & _ & Hs & _). destruct (fo_dir _ _ _ Hok' p z' Hz') as (_ & _ & Hs' & _).
  apply option_eq. intros k. rewrite (child_iff kids' nm') by done. split.
  - intros [Hk Hn]. destruct (kid' p k Hp' Hk) as [[-> ->]|(_ & Hk' & Hne)].
    + rewrite fn_lookup_insert in Hn. by rewrite decide_True.
    + rewrite fn_lookup_insert_ne in Hn by done. rewrite decide_False; [by apply child_iff|]. intros [-> ->]. by apply (child_none _ _ _ _ _ Hno Hk').
  - case_decide as Hd.
    + destruct Hd as [-> ->]. intros [= <-]. rewrite !fn_lookup_insert. split; [|done]. rewrite Hel', elem_of_app. right. left.
    + intros Hk. apply child_some in Hk as [Hk Hn]. assert (k ≠ q) as Hkq by (by eapply old_kid_ne). rewrite (fn_lookup_insert_ne nm) by done. split; [|done].
      destruct (decide (p = f)) as [->|Hpf].
      * rewrite fn_lookup_insert, Hel', elem_of_app, elem_of_cons. rewrite Hel, elem_of_app in Hk. tauto.
      * rewrite fn_lookup_insert_ne by done. rewrite fn_lookup_insert_ne; [done|]. intros ->. by apply (old_ne p).
Qed.

Lemma child_new u : child kids' nm' q u = None.
Proof.
  facts. unfold child. rewrite fn_lookup_insert_ne by (symmetry; apply q_not_f). by rewrite fn_lookup_insert.
Qed.
(** The paths: the new one, and those there were. *)
Lemma walk_add pre v : walk kids nm rt pre = Some f →
  walk kids' nm' rt v = match walk kids nm rt v with Some z => Some z | None => if decide (v = pre ++ [w]) then Some q else None end.
Proof.
  facts. intros Hpre. destruct (fo_root _ _ _ Hok) as [Hroot _]. cbn [f_files root_file] in Hroot.
  induction v as [|u1 u IH] using rev_ind; [done|]. rewrite !walk_snoc, IH. destruct (walk kids nm rt u) as [z|] eqn:Hu.
  - cbn [mbind option_bind]. rewrite child_add by (by eapply (walk_file kids nm (Fs m h F N rt))).
    destruct (decide (z = f ∧ u1 = w)) as [[-> ->]|Hd].
    + rewrite Hno, decide_True; [done|]. f_equal. by apply (walk_inj kids nm (Fs m h F N rt) u pre f).
    + destruct (child kids nm z u1); [done|]. rewrite decide_False; [done|]. intros [-> ->]%app_inj_tail.
      apply Hd. split; [congruence|done].
  - cbn [mbind option_bind]. rewrite (decide_False (P := u ++ [u1] = pre ++ [w])); [|intros [-> ->]%app_inj_tail; congruence].
    destruct (decide (u = pre ++ [w])) as [->|]; [|done]. apply child_new.
Qed.

Lemma entry_add pre v : walk kids nm rt pre = Some f →
  entry kids' nm' (Fs m h F' N' rt) v = match entry kids nm (Fs m h F N rt) v with
    | Some e => Some e
    | None => if decide (v = pre ++ [w]) then Some (f_type y, f_data y, f_size y) else None
    end.
Proof.
  facts. intros Hpre. unfold entry. cbn [root_file f_files]. rewrite (walk_add pre v Hpre).
  destruct (fo_root _ _ _ Hok) as [Hroot _]. cbn [f_files root_file] in Hroot.
  destruct (walk kids nm rt v) as [z|] eqn:Hv; cbn [mbind option_bind].
  - destruct (walk_file kids nm _ v z Hok rt Hroot Hv) as [e He]. cbn [f_files] in He. rewrite He. cbn [mbind option_bind].
    destruct (decide (z = f)) as [->|Hzf].
    + rewrite lookup_insert_eq. cbn. by simplify_eq.
    + rewrite lookup_insert_ne by done. rewrite lookup_insert_ne by (intros ->; congruence). by rewrite He.
  - destruct (decide (v = pre ++ [w])); [|done]. cbn [mbind option_bind]. pose proof q_not_f.
    rewrite lookup_insert_ne by done. by rewrite lookup_insert_eq.
Qed.
End added.

(** Inserting a fresh file into a directory that has no file of its name. *)
Lemma on_sub_insert kids nm m h F N rt f x q y w : fs_ok kids nm (Fs m h F N rt) → F !! f = Some x → F !! q = None → q ≠ NULL →
  q ∈ km_live h → cstr m (add32 q OFF_NAME) w → outside h (add32 q OFF_NAME) (Z.of_nat (length w) + 1) →
  add32 q OFF_NAME + Z.of_nat (length w) + 1 < W32 → child kids nm f w = None → f_sub y = NULL →
  wp (on_sub f (rbt_insert OFF_NAME q)) (λ e s', e = E_OK ∧ ∃ t' l1 l2 N' root',
    s' = Fs m h (<[f := fl_sub root' x]> (<[q := y]> F)) N' rt ∧ added kids nm m h F N rt f q x y w t' l1 l2 N' root')
    (Fs m h (<[q := y]> F) (<[q := RbtNode BLACK junk junk junk]> N) rt).
Proof.
  intros Hok Hf Hq Hq0 Hlive Hname Hout Hqw Hno Hy. assert (q ≠ f) as Hqf by (intros ->; congruence).
  assert (∀ z, z ∈ elems (kids f) → z ≠ q) as Hne.
  { intros z Hz ->. destruct (fo_kid _ _ _ Hok f q) as [[e He] _]; [by eexists|done|]. cbn [f_files] in He. congruence. }
  destruct (fo_dir _ _ _ Hok f x Hf) as (_ & Hrb & Hs & HR). cbn [f_nodes] in HR.
  set (N1 := <[q := RbtNode BLACK junk junk junk]> N).
  assert (R N (q :: elems (kids f)) (kids f) (Rbt (f_sub x) N1)) as HR1.
  { destruct HR as [G1 G2 G3 G4 G5 G6]. split; cbn [rbt_nodes] in *; [done| |done|done|set_solver|].
    - eapply rep_ext; [|exact G2]. intros z Hz. unfold N1. rewrite lookup_insert_ne; [done|]. intros ->. by apply (Hne z).
    - intros z Hz%not_elem_of_cons. unfold N1. rewrite lookup_insert_ne; [done|]. intros ->. by destruct Hz. }
  assert (names_sorted (<[q := w]> nm) (elems (kids f))) as Hs1.
  { eapply names_sorted_ext; [|exact Hs]. intros z Hz. rewrite fn_lookup_insert_ne; [done|]. intros ->. by apply (Hne z). }
  assert (∀ z, z ∈ elems (kids f) → cstr m (add32 z OFF_NAME) ((<[q := w]> nm) z)) as Hc1.
  { intros z Hz. rewrite fn_lookup_insert_ne by (intros ->; by apply (Hne z)). apply (fo_kid _ _ _ Hok f z); [by eexists|done]. }
  pose proof (name_insert_spec OFF_NAME (<[q := w]> nm) N (q :: elems (kids f)) (kids f) m (Rbt (f_sub x) N1) HR1 Hc1 Hs1 q w Hrb Hname) as Hi.
  specialize (Hi (fn_lookup_insert _ _ _)). unfold wp in Hi |- *. unfold on_sub, file_at, bind, get, deref.
  cbn [f_files f_mem f_nodes f_heap root_file]. rewrite lookup_insert_ne, Hf by done. unfold ret at 1. fold N1.
  assert (is_fresh q (kids f) (Rbt (f_sub x) N1)) as Hfresh.
  { split; [done|]. split; [by intros ?%Hne|]. cbn [rbt_nodes]. unfold N1. rewrite lookup_insert_eq. by eexists. }
  specialize (Hi Hfresh). destruct (rbt_insert OFF_NAME q _) as [e [m' [root' N']]| | |]; [|done..].
  unfold put, ret. cbn [nt_mem nt_rbt rbt_root rbt_nodes f_heap f_files root_file] in *. destruct Hi as [-> Hi].
  destruct (Z.eqb_spec e E_OK) as [->|_].
  - destruct Hi as (_ & t' & l1 & l2 & HR' & Hrb' & Hel & Hel' & Hsort). split; [done|]. exists t', l1, l2, N', root'.
    split; [done|]. split; try done. destruct HR' as [G1 G2 G3 G4 G5 G6]. split; [done..|set_solver|].
    intros z Hz. apply G6. set_solver.
  - destruct Hi as (_ & _ & p & Hp & Hn). exfalso. rewrite fn_lookup_insert_ne in Hn by (intros ->; by apply (Hne p)).
    by apply (child_none _ _ _ _ _ Hno Hp).
Qed.

(** ** One component of the path *)
Definition made (ty : TYPE) (a z : Z) (ws : list (list Z)) : TYPE * Z * Z :=
  match ws with [] => (ty, a, z) | _ => (FILE_DIR, NULL, NULL) end.

Lemma next_byte m a ws : holds m a (strings ws) → proper ws → ∃ b, m !! a = Some b ∧ (b = 0 ↔ ws = []).
Proof.
  destruct ws as [|[|b w] ws]; intros Hh Hp.
  - exists 0. split; [by apply strings_end|done].
  - by apply Forall_cons in Hp as [[? _] _].
  - exists b. rewrite strings_cons in Hh. apply holds_cons in Hh as [Hh _]. split; [done|].
    apply Forall_cons in Hp as [[_ [Hb _]%Forall_cons] _]. split; [lia|done].
Qed.

(** [file_new] and the insertion of the new file. *)
Lemma new_child_spec kids nm s t f w ty a z : fs_ok kids nm s → is_Some (f_files s !! f) → cstr (f_mem s) t w →
  outside (f_heap s) t (Z.of_nat (length w) + 1) → Z.of_nat (length w) < FILE_MAX_NAME_LEN → child kids nm f w = None →
  wp (r <- file_new junk t ty a z ;; match r with
      | (err, None) => ret (inr err)
      | (_, Some tmpfile) =>
          err <- on_sub f (rbt_insert OFF_NAME tmpfile) ;; assert_ (err =? E_OK) ;;;
          r <- on_sub f (rbt_find OFF_NAME t) ;; assert_ (fst r =? E_OK) ;;;
          file <- deref (snd r) ;; assert_ (file =? tmpfile) ;;; ret (inl file)
      end) (λ r s', heap_step (f_heap s) (f_mem s) (f_heap s') (f_mem s') ∧ root_file s' = root_file s ∧ match r with
    | inl q => ∃ kids' nm', fs_ok kids' nm' s' ∧ ∀ pre, walk kids nm (root_file s) pre = Some f →
        walk kids' nm' (root_file s) (pre ++ [w]) = Some q ∧ ∀ v, entry kids' nm' s' v = match entry kids nm s v with
          | Some e => Some e | None => if decide (v = pre ++ [w]) then Some (ty, a, z) else None end
    | inr e => e ≠ E_OK ∧ fs_ok kids nm s' ∧ ∀ v, entry kids nm s' v = entry kids nm s v
    end) s.
Proof.
  intros Hok [x Hx] Hc Hout Hw Hno. destruct s as [m h F N rt]. cbn [f_mem f_heap f_files f_nodes root_file] in *.
  destruct (fo_mem _ _ _ Hok) as [Hmap Hby]. cbn [f_mem f_heap] in Hmap, Hby.
  destruct (kmalloc SZ_FILE h) as [[e|q] h'] eqn:Hk.
  { destruct (kmalloc_err _ _ _ _ Hk) as [He Hl]. eapply wp_step.
    { unfold file_new, bind at 1. rewrite run_malloc, Hk. done. }
    apply wp_ret. cbn [f_mem f_heap f_files f_nodes root_file]. pose proof (heap_refused _ _ _ _ m Hk) as Hst.
    split_and!; [done..| |done]. eapply fs_ok_step; [done|done|cbn [snd]; by rewrite Hl]. }
  destruct (kmalloc_ok _ _ _ _ Hk) as ([Hq0 _] & Hql & Hlive). apply wp_bind.
  eapply wp_mono; [by apply (file_new_spec junk t w ty a z q m h h')|]. intros r s' (-> & m' & -> & Ho & Hc').
  assert (heap_step h m h' m') as Hst by (eapply heap_write; [exact Hk|done|exact Ho|lia|lia]).
  assert (fs_ok kids nm (Fs m' h' F N rt)) as Hok' by (eapply fs_ok_step; [done|done|set_solver]).
  destruct (heap_alloc _ _ _ _ m Hk ltac:(done) Hmap) as (_ & Ho' & Hqw & _). unfold SZ_FILE, FILE_MAX_NAME_LEN in *.
  assert (F !! q = None) as HqF.
  { destruct (F !! q) eqn:E; [|done]. exfalso. apply Hql. by apply (fo_dir _ _ _ Hok q _ E). }
  assert (outside h' (add32 q OFF_NAME) (Z.of_nat (length w) + 1)) as Hout'.
  { unfold OFF_NAME. rewrite add32_small by lia. intros y Hy. apply Ho'. lia. }
  apply wp_bind. eapply wp_mono; [apply (on_sub_insert kids nm m' h' F N rt f x q _ w); try done; [unfold NULL; lia|set_solver|unfold OFF_NAME; rewrite add32_small by lia; lia]|].
  intros e s' (-> & t' & l1 & l2 & N' & root' & -> & Had). apply wp_bind, wp_assert. split; [done|].
  pose proof (add_ok _ _ _ _ _ _ _ _ _ _ _ _ _ _ _ _ _ Had) as Hok2.
  assert (cstr m' t w) as Hct by (eapply heap_step_cstr; [exact Hst|done|done]).
  eapply wp_step; [apply (on_sub_find _ _ _ f t w Hok2); [cbn [f_files]; rewrite lookup_insert_eq; by eexists|done]|].
  rewrite (child_add _ _ _ _ _ _ _ _ _ _ _ _ _ _ _ _ _ Had) by by eexists. rewrite decide_True by done. cbn [fst snd].
  apply wp_bind, wp_assert. split; [done|]. eapply wp_step; [done|]. apply wp_bind, wp_assert. split; [apply Z.eqb_refl|].
  apply wp_ret. cbn [f_mem f_heap root_file]. split; [done|]. split; [done|]. eexists _, _. split; [exact Hok2|].
  intros pre Hpre. split.
  - rewrite (walk_add _ _ _ _ _ _ _ _ _ _ _ _ _ _ _ _ _ Had pre _ Hpre). rewrite walk_snoc, Hpre. cbn [mbind option_bind].
    by rewrite Hno, decide_True.
  - intros v. by rewrite (entry_add _ _ _ _ _ _ _ _ _ _ _ _ _ _ _ _ _ Had pre v Hpre).
Qed.

Lemma create_step_spec kids nm s t f p w ws pre ty a z : fs_ok kids nm s → walk kids nm (root_file s) pre = Some f →
  proper (w :: ws) → Z.of_nat (length w) < FILE_MAX_NAME_LEN → 0 ≤ t → 0 ≤ p →
  holds (f_mem s) (t + p) (strings (w :: ws)) → outside (f_heap s) (t + p) (Z.of_nat (length (strings (w :: ws)))) →
  t + p + Z.of_nat (length (strings (w :: ws))) < W32 →
  wp (create_step junk ty a z t (f, p)) (λ r s', heap_step (f_heap s) (f_mem s) (f_heap s') (f_mem s') ∧ root_file s' = root_file s ∧
    match r with
    | inl (f', p') => p' = p + Z.of_nat (length w) + 1 ∧ ∃ kids' nm', fs_ok kids' nm' s' ∧
        walk kids' nm' (root_file s) (pre ++ [w]) = Some f' ∧ ∀ v, entry kids' nm' s' v = match entry kids nm s v with
          | Some e => Some e | None => if decide (v = pre ++ [w]) then Some (made ty a z ws) else None end
    | inr e => e ≠ E_OK ∧ fs_ok kids nm s' ∧ ∀ v, entry kids nm s' v = entry kids nm s v
    end) s.
Proof.
  intros Hok Hpre Hp Hlen Ht Hp0 Hh Hout Hw.
  destruct (strings_at _ _ _ _ Hh Hp ltac:(lia) Hw) as (Hc & Hrest & b & Hb & Hb0).
  pose proof Hp as [_ Hps]%Forall_cons. rewrite strings_cons, !length_app in Hw, Hout. cbn [length] in Hw, Hout.
  assert (is_Some (f_files s !! f)) as Hf by (eapply walk_file; [done|apply (fo_root _ _ _ Hok)|done]).
  assert (outside (f_heap s) (t + p) (Z.of_nat (length w) + 1)) as Hout1 by (intros y Hy; apply Hout; lia).
  unfold create_step. rewrite !(add32_small t p) by lia. eapply wp_step; [by apply run_read|]. rewrite (proj2 (Z.eqb_neq b 0) Hb0).
  eapply wp_step; [by apply (on_sub_find kids nm s f (t + p) w)|]. destruct (child kids nm f w) as [q|] eqn:Hq.
  - eapply wp_step; [done|]. eapply wp_step; [by apply run_strlen|]. apply wp_ret.
    rewrite !add32_small by (rewrite ?add32_small by lia; lia).
    assert (walk kids nm (root_file s) (pre ++ [w]) = Some q) as Hwq by (rewrite walk_snoc, Hpre; done).
    split; [apply heap_step_refl|]. split; [done|]. split; [lia|]. exists kids, nm. split; [done|]. split; [done|].
    intros v. destruct (entry kids nm s v) eqn:He; [done|]. destruct (decide (v = pre ++ [w])) as [->|]; [|done].
    exfalso. unfold entry in He. rewrite Hwq in He. cbn [mbind option_bind] in He.
    destruct (walk_file kids nm s _ q Hok (root_file s) (proj1 (fo_root _ _ _ Hok)) Hwq) as [x Hx]. by rewrite Hx in He.
  - destruct (next_byte _ _ _ Hrest Hps) as (b2 & Hb2 & Hb2').
    apply wp_bind. eapply wp_step; [by apply run_strlen|]. rewrite (add32_small p (Z.of_nat (length w))) by lia. rewrite (add32_small (p + Z.of_nat (length w)) 1) by lia. rewrite (add32_small t) by lia.
    eapply wp_step; [apply run_read; rewrite <- Hb2; f_equal; lia|].
    assert (∃ ty' a' z', (if negb (b2 =? 0) then file_new junk (t + p) FILE_DIR NULL NULL else file_new junk (t + p) ty a z) =
      file_new junk (t + p) ty' a' z' ∧ made ty a z ws = (ty', a', z')) as (ty' & a' & z' & -> & ->).
    { destruct ws as [|w2 ws].
      - rewrite (proj2 Hb2' eq_refl). by exists ty, a, z.
      - destruct (Z.eqb_spec b2 0) as [->|_]; [by pose proof (proj1 Hb2' eq_refl)|]. by exists FILE_DIR, NULL, NULL. }
    eapply wp_mono; [by apply (new_child_spec kids nm s (t + p) f w ty' a' z')|].
    intros [q|e] s' (Hst & Hrt & Hres); [|by apply wp_ret]. destruct Hres as (kids' & nm' & Hok' & Hres).
    destruct (Hres pre Hpre) as [Hwq Hent]. eapply wp_step; [apply run_strlen; by eapply heap_step_cstr|]. apply wp_ret.
    rewrite !add32_small by (rewrite ?add32_small by lia; lia). split; [done|]. split; [done|]. split; [lia|].
    exists kids', nm'. done.
Qed.

(** What creating a file adds: the components of its path that there were not. *)
Definition added_entry (ty : TYPE) (a z : Z) (ws : list (list Z)) (k : nat) (v : list (list Z)) : option (TYPE * Z * Z) :=
  if decide (v `prefix_of` take k ws) then Some (if decide (v = ws) then (ty, a, z) else (FILE_DIR, NULL, NULL)) else None.

Lemma create_loop ty a z t all : ∀ ws fuel kids nm s f p pre, all = pre ++ ws → (length ws < fuel)%nat → fs_ok kids nm s →
  walk kids nm (root_file s) pre = Some f → proper ws → Forall (λ w, Z.of_nat (length w) < FILE_MAX_NAME_LEN) ws → 0 ≤ t → 0 ≤ p →
  holds (f_mem s) (t + p) (strings ws) → outside (f_heap s) (t + p) (Z.of_nat (length (strings ws))) →
  t + p + Z.of_nat (length (strings ws)) < W32 →
  wp (loop fuel (create_step junk ty a z t) (f, p)) (λ err s', root_file s' = root_file s ∧
    heap_step (f_heap s) (f_mem s) (f_heap s') (f_mem s') ∧ ∃ kids' nm' k, fs_ok kids' nm' s' ∧
    (err = E_OK ∧ k = length all ∨ err ≠ E_OK ∧ (length pre ≤ k < length all)%nat) ∧
    ∀ v, entry kids' nm' s' v = match entry kids nm s v with Some e => Some e | None => added_entry ty a z all k v end) s.
Proof.
  assert (∀ kids nm s pre f k v, fs_ok kids nm s → walk kids nm (root_file s) pre = Some f → all `prefix_of` all → k = length pre →
    pre `prefix_of` all → entry kids nm s v = match entry kids nm s v with Some e => Some e | None => added_entry ty a z all k v end) as Hdone.
  { intros kids nm s pre f k v Hok Hpre _ -> [ws ->]. destruct (entry kids nm s v) eqn:He; [done|]. unfold added_entry.
    rewrite decide_False; [done|]. rewrite take_app_length. intros [u ->]. rewrite walk_app in Hpre.
    apply bind_Some in Hpre as (y & Hy & _). unfold entry in He. rewrite Hy in He. cbn [mbind option_bind] in He.
    destruct (walk_file kids nm s _ y Hok _ (proj1 (fo_root _ _ _ Hok)) Hy) as [x Hx]. by rewrite Hx in He. }
  induction ws as [|w ws IH]; intros fuel kids nm s f p pre Hall Hfu Hok Hpre Hp Hl Ht Hp0 Hh Hout Hw;
    (destruct fuel as [|fuel]; [simpl in Hfu; lia|]); cbn [loop].
  - unfold create_step at 1. rewrite add32_small by lia. apply wp_bind. eapply wp_step; [by apply run_read, strings_end|].
    apply wp_ret, wp_ret. split; [done|]. split; [apply heap_step_refl|]. exists kids, nm, (length all). split; [done|].
    split; [by left|]. intros v. rewrite app_nil_r in Hall. subst pre. by eapply Hdone.
  - pose proof Hl as [Hlw Hlws]%Forall_cons. pose proof Hp as [Hpw Hpws]%Forall_cons.
    destruct (strings_at _ _ _ _ Hh Hp ltac:(lia) Hw) as (_ & Hrest & _).
    apply wp_bind. eapply wp_mono; [by apply (create_step_spec kids nm s t f p w ws pre ty a z)|].
    rewrite strings_cons, !length_app in Hw, Hout. cbn [length] in Hw, Hout.
    intros [[f' p']|e] s' (Hst & Hrt & Hres).
    + destruct Hres as (-> & kids' & nm' & Hok' & Hpre' & Hent).
      eapply wp_mono; [apply (IH fuel kids' nm' s' f' _ (pre ++ [w])); try done|].
      * by rewrite <- (assoc_L app).
      * simpl in Hfu. lia.
      * by rewrite Hrt.
      * lia.
      * replace (t + (p + Z.of_nat (length w) + 1)) with (t + p + Z.of_nat (length w) + 1) by lia.
        eapply heap_step_holds; [exact Hst| |done]. intros y Hy. apply Hout. lia.
      * eapply heap_step_outside; [exact Hst|]. intros y Hy. apply Hout. lia.
      * lia.
      * intros err s2 (Hrt2 & Hst2 & kids2 & nm2 & k & Hok2 & Hk & Hent2). split; [congruence|]. split; [by eapply heap_step_trans|].
        exists kids2, nm2, k. split; [done|]. rewrite length_app in Hk. cbn [length] in Hk. split; [destruct Hk as [?|[? ?]]; [by left|right; split; [done|lia]]|].
        intros v. rewrite Hent2, Hent. destruct (entry kids nm s v); [done|]. destruct (decide (v = pre ++ [w])) as [->|]; [|done].
        unfold added_entry, made. assert ((pre ++ [w]) `prefix_of` take k all) as Hpk.
        { rewrite Hall. exists (take (k - length (pre ++ [w])) ws). rewrite (cons_middle w pre ws), (assoc_L app), take_app_ge; [done|].
          rewrite length_app. cbn [length]. subst all. rewrite length_app in Hk. cbn [length] in Hk. destruct Hk as [[_ ->]|[_ ?]]; lia. }
        rewrite decide_True by done. destruct ws as [|w2 ws].
        -- by rewrite decide_True.
        -- rewrite decide_False; [done|]. rewrite Hall. intros Heq. apply (f_equal length) in Heq. rewrite !length_app in Heq. simpl in Heq. lia.
    + destruct Hres as (He & Hok' & Hent). apply wp_ret. split; [done|]. split; [done|]. exists kids, nm, (length pre). split; [done|].
      split; [right; split; [done|]; rewrite Hall, length_app; simpl; lia|]. intros v. rewrite Hent. eapply Hdone; try done.
      exists (w :: ws). done.
Qed.
End create.
