(* ===== verification/FsProps.v ===== *)
(** * What the file service promises: creating, finding, reading and writing files

    The theorems about the whole functions of usr/fssrv/file.c, on paths in memory. *)
From stdpp Require Import functions.
From S2P Require Import Prelude Kmalloc RbtModel RbtTree RbtInsert RbtDelete RbtIter RbtSearch Cstring Words Blocks Names Fs FsPath FsTree FsSpec.

Section props.
Context {H : Type} {HM : Kmalloc H} {HK : KmallocLaws H} {HB : HeapBytes H} {HBL : HeapBytesLaws H}.
Context (fall : Z → Z) (junk : Z).
Implicit Types (s : fs H) (kids : Z → tree) (nm : Z → list Z).

(** A path [/l] at [name] outside the heap, for whose copy there is room at [t]. *)
Record path_at s (name : Z) (l : list Z) (t : Z) (h' : H) : Prop := {
  pt_str : cstr (f_mem s) name (SLASH :: l);
  pt_len : 2 * Z.of_nat (length l) + 3 < W32;
  pt_out : outside (f_heap s) name (Z.of_nat (length l) + 2);
  pt_room : kmalloc (cut_len l) (f_heap s) = (inr t, h');
  pt_fall : fall t = t;
}.

(** C29: [file_create] of a path makes every component of the path that does not exist, the
    last one with the given contents and as a directory when the path ends with a slash,
    the others as empty directories; every path there was leads to what it led to and no
    other path comes to exist; when the heap is exhausted on the way it returns the error
    and exactly the first components exist; the trees stay ordered red-black trees. This
    is for a path that starts with a slash and whose components are shorter than 32
    characters, with room in the heap for the copy [path_cut] makes (without it an
    assertion stops the service), and, since [path_cut] has no return statement, on a
    compiler for which its caller finds the address of the copy ([fall t = t] in
    [path_at]). *)
Theorem file_create_correct kids nm s name l t h' a z :
  fs_ok kids nm s → path_at s name l t h' → Forall (λ w, Z.of_nat (length w) < FILE_MAX_NAME_LEN) (pieces l) →
  wp (file_create fall junk name a z) (λ err s', root_file s' = root_file s ∧
    heap_step (f_heap s) (f_mem s) (f_heap s') (f_mem s') ∧ ∃ kids' nm' k, fs_ok kids' nm' s' ∧
    (err = E_OK ∧ k = length (pieces l) ∨ err ≠ E_OK ∧ (k < length (pieces l))%nat) ∧
    ∀ v, entry kids' nm' s' v = match entry kids nm s v with
      | Some e => Some e
      | None => added_entry (if ends (SLASH :: l) then FILE_DIR else FILE_ENTITY) a z (pieces l) k v
      end) s.
Proof.
  intros Hok [Hs Hl Hout Hk Hfall] Hns. unfold file_create.
  eapply wp_step; [apply run_read; pose proof (cs_holds _ _ _ Hs) as Hh; by apply holds_cons in Hh as [Hh _]|].
  cbn [Z.eqb SLASH Pos.eqb negb]. apply wp_bind. destruct s as [m h F N rt].
  apply (wp_last_char name l); [done|]. intros c ->. apply wp_bind.
  eapply wp_mono; [by apply (cut_ok fall kids nm name l t)|].
  intros r s' (-> & Hok' & Hh' & HF & Hrt & HN & Hst & Hstr & Ho' & Ht & Hw). rewrite Hfall. eapply wp_step; [done|].
  cbn [root_file f_files f_heap f_mem f_nodes] in *. rewrite <- Hrt, <- Hh' in *. unfold cut_len in *.
  eapply wp_mono; [apply (create_loop junk _ a z t (pieces l) (pieces l) _ kids nm s' (root_file s') 0 []); try done|].
  - pose proof (strings_long (pieces l)). pose proof (holds_size _ _ _ Hstr). lia.
  - apply proper_pieces. pose proof (cs_chars _ _ _ Hs) as Hc. by apply Forall_cons in Hc as [_ ?].
  - lia.
  - by rewrite Z.add_0_r.
  - by rewrite Z.add_0_r.
  - lia.
  - intros err s2 (Hrt2 & Hst2 & kids' & nm' & k & Hok2 & Hk2 & Hent). split; [congruence|]. split; [by eapply heap_step_trans|].
    exists kids', nm', k. split; [done|]. split; [destruct Hk2 as [?|[? ?]]; [by left|right; split; [done|lia]]|].
    intros v. rewrite Hent. unfold entry. cbn [root_file f_files]. by rewrite Hrt, HF.
Qed.

Lemma find_here kids nm s name l t h' : fs_ok kids nm s → path_at s name l t h' →
  wp (file_find fall name) (λ r s', fs_ok kids nm s' ∧ f_files s' = f_files s ∧ root_file s' = root_file s ∧
    (heap_step (f_heap s) (f_mem s) (f_heap s') (f_mem s') ∧ f_heap s' = h') ∧
    match r with
    | (err, Some q) => err = E_OK ∧ walk kids nm (root_file s) (pieces l) = Some q ∧ ∃ x, f_files s !! q = Some x ∧
        entry kids nm s (pieces l) = Some (f_type x, f_data x, f_size x)
    | (err, None) => err = E_NOTFOUND ∧ entry kids nm s (pieces l) = None
    end) s.
Proof.
  intros Hok [Hs Hl Hout Hk Hfall]. eapply wp_mono; [by apply (file_find_spec fall kids nm name l t)|].
  intros r s' (Hok' & HF & Hrt & Hst & Hh & ->). split_and!; [done..|]. unfold entry.
  destruct (walk kids nm (root_file s) (pieces l)) as [q|] eqn:Hq; [|done]. cbn [mbind option_bind].
  destruct (walk_file kids nm s _ q Hok _ (proj1 (fo_root _ _ _ Hok)) Hq) as [x Hx]. split_and!; [done..|].
  exists x. by rewrite Hx.
Qed.

(** The state after a function that finds a file: the heap has given one block. *)
Record after_find kids nm s h' s' : Prop := {
  af_ok : fs_ok kids nm s';
  af_root : root_file s' = root_file s;
  af_step : heap_step (f_heap s) (f_mem s) (f_heap s') (f_mem s') ∧ f_heap s' = h';
  af_files : ∀ p, is_Some (f_files s' !! p) ↔ is_Some (f_files s !! p);
}.

Lemma file_read_spec kids nm s name l t h' : fs_ok kids nm s → path_at s name l t h' →
  wp (file_read fall name) (λ r s', after_find kids nm s h' s' ∧ (∀ v, entry kids nm s' v = entry kids nm s v) ∧
    r = match entry kids nm s (pieces l) with Some (_, d, z) => (E_OK, Some (d, z)) | None => (E_NOTFOUND, None) end) s.
Proof.
  intros Hok Hp. unfold file_read. apply wp_bind. eapply wp_mono; [by apply (find_here kids nm s name l t h')|].
  intros [err [q|]] s' (Hok' & HF & Hrt & Hst & Hres); cbn beta iota in Hres;
    (assert (after_find kids nm s h' s') by (split; rewrite ?HF; done)).
  - destruct Hres as (-> & _ & x & Hx & ->). apply wp_bind, wp_bind, wp_get, wp_deref. exists x. rewrite HF. split; [done|].
    apply wp_ret. split; [done|]. split; [|done]. intros v. unfold entry. by rewrite HF, Hrt.
  - destruct Hres as [-> ->]. apply wp_ret. split; [done|]. split; [|done]. intros v. unfold entry. by rewrite HF, Hrt.
Qed.

(** Reading a path gives the contents of the file it leads to, and E_NOTFOUND when
    it leads nowhere; no file changes. *)
Theorem file_read_correct kids nm s name l t h' : fs_ok kids nm s → path_at s name l t h' →
  wp (file_read fall name) (λ r s', fs_ok kids nm s' ∧ (∀ v, entry kids nm s' v = entry kids nm s v) ∧
    r = match entry kids nm s (pieces l) with Some (_, d, z) => (E_OK, Some (d, z)) | None => (E_NOTFOUND, None) end) s.
Proof. intros Hok Hp. eapply wp_mono; [by eapply file_read_spec|]. by intros r s' ([? _ _ _] & ? & ?). Qed.

(** Only the contents of a file change. *)
Lemma fs_ok_contents kids nm m h F N rt q x x' : fs_ok kids nm (Fs m h F N rt) → F !! q = Some x → f_sub x' = f_sub x →
  fs_ok kids nm (Fs m h (<[q := x']> F) N rt).
Proof.
  intros [O1 O2 O3 O4 O5] Hq Hsub. cbn [f_mem f_heap f_files f_nodes root_file] in *.
  assert (∀ p, is_Some ((<[q := x']> F) !! p) ↔ is_Some (F !! p)) as Hdom.
  { intros p. destruct (decide (p = q)) as [->|Hpq]; [rewrite lookup_insert_eq, Hq; split; by eexists|by rewrite lookup_insert_ne]. }
  split; cbn [f_mem f_heap f_files f_nodes root_file]; [done| | | |].
  - intros p y. destruct (decide (p = q)) as [->|Hpq].
    + rewrite lookup_insert_eq. intros [= <-]. rewrite Hsub. by apply O2.
    + rewrite lookup_insert_ne by done. apply O2.
  - intros p y. rewrite !Hdom. apply O3.
  - intros p p' y. rewrite !Hdom. apply O4.
  - rewrite Hdom. split; [apply O5|]. intros p. rewrite Hdom. apply O5.
Qed.

(** New contents under the path [ws], the old ones elsewhere. *)
Definition overwritten (ws : list (list Z)) (a z : Z) (v : list (list Z)) (o : option (TYPE * Z * Z)) : option (TYPE * Z * Z) :=
  if decide (v = ws) then (λ e, (e.1.1, a, z)) <$> o else o.

Lemma file_write_spec kids nm s name l t h' a z : fs_ok kids nm s → path_at s name l t h' →
  wp (file_write fall name a z) (λ err s', after_find kids nm s h' s' ∧
    err = match entry kids nm s (pieces l) with Some _ => E_OK | None => E_NOTFOUND end ∧
    ∀ v, entry kids nm s' v = overwritten (pieces l) a z v (entry kids nm s v)) s.
Proof.
  intros Hok Hp. unfold file_write, overwritten. apply wp_bind. eapply wp_mono; [by apply (find_here kids nm s name l t h')|].
  intros [err [q|]] s' (Hok' & HF & Hrt & Hst & Hres); cbn beta iota in Hres.
  - destruct Hres as (-> & Hq & x & Hx & Hent). destruct s' as [m1 h1 F1 N1 rt1]. cbn [f_files root_file f_heap f_mem] in *. subst F1.
    eapply wp_step; [by apply run_upd_file|]. eapply wp_step; [apply run_upd_file, lookup_insert_eq|]. apply wp_ret.
    rewrite insert_insert_eq. split.
    { split; [eapply fs_ok_contents; [exact Hok'|exact Hx|done]|done|done|]. intros p. cbn [f_files].
      destruct (decide (p = q)) as [->|Hpq]; [rewrite lookup_insert_eq, Hx; split; by eexists|by rewrite lookup_insert_ne]. } rewrite Hent. split; [done|]. intros v.
    unfold entry in *. cbn [f_files root_file]. rewrite Hrt. destruct (walk kids nm (root_file s) v) as [p|] eqn:Hv; cbn [mbind option_bind].
    + destruct (decide (v = pieces l)) as [->|Hne].
      * rewrite Hq in Hv. injection Hv as <-. rewrite lookup_insert_eq, Hx. done.
      * rewrite lookup_insert_ne; [done|]. intros ->. apply Hne. eapply walk_inj; [exact Hok|exact Hv|exact Hq].
    + by destruct (decide (v = pieces l)).
  - destruct Hres as [-> Hent]. apply wp_ret. split; [split; rewrite ?HF; done|]. rewrite Hent. split; [done|]. intros v.
    replace (entry kids nm s' v) with (entry kids nm s v) by (unfold entry; by rewrite HF, Hrt).
    destruct (decide (v = pieces l)) as [->|]; [by rewrite Hent|done].
Qed.

(** Writing replaces the contents of the file a path leads to, keeps its kind, and
    changes what no other path leads to; a path that leads nowhere is refused. *)
Theorem file_write_correct kids nm s name l t h' a z : fs_ok kids nm s → path_at s name l t h' →
  wp (file_write fall name a z) (λ err s', fs_ok kids nm s' ∧
    err = match entry kids nm s (pieces l) with Some _ => E_OK | None => E_NOTFOUND end ∧
    ∀ v, entry kids nm s' v = overwritten (pieces l) a z v (entry kids nm s v)) s.
Proof. intros Hok Hp. eapply wp_mono; [by eapply file_write_spec|]. by intros err s' ([? _ _ _] & ? & ?). Qed.

(** ** Listing a directory *)
Lemma run_subfiles kids nm s p : fs_ok kids nm s → is_Some (f_files s !! p) → subfiles p s = Ret (elems (kids p)) s.
Proof.
  intros Hok [x Hx]. destruct s as [m h F N rt]. cbn [f_files] in Hx.
  destruct (fo_dir _ _ _ Hok p x Hx) as (_ & _ & _ & HR). cbn [f_nodes] in HR.
  pose proof (rbt_rep_spec _ _ _ _ HR) as Hw. unfold wp in Hw.
  unfold subfiles, on_sub, file_at, bind, get, deref, on_rbt, zoom. cbn [f_files f_mem f_nodes f_heap root_file nt_rbt nt_mem].
  rewrite Hx. unfold ret at 1. cbn [nt_rbt nt_mem]. destruct (rbt_rep_list _) as [l r| | |]; [|done..]. destruct Hw as [-> ->].
  unfold put, ret. cbn [nt_rbt nt_mem rbt_root rbt_nodes]. do 2 f_equal. apply insert_id. rewrite Hx. by destruct x.
Qed.

Definition names_bytes (nm : Z → list Z) (l : list Z) : list Z := concat ((λ q, nm q ++ [0]) <$> l).

Lemma names_bytes_cons nm q l : names_bytes nm (q :: l) = (nm q ++ [0]) ++ names_bytes nm l.
Proof. done. Qed.

Lemma run_names_len nm s l : (∀ q, q ∈ l → cstr (f_mem s) (add32 q OFF_NAME) (nm q)) → ∀ o, 0 ≤ o →
  o + Z.of_nat (length (names_bytes nm l)) < W32 → names_len l o s = Ret (o + Z.of_nat (length (names_bytes nm l))) s.
Proof.
  induction l as [|q l IH]; intros Hc o Ho Hw; [by rewrite Z.add_0_r|].
  rewrite names_bytes_cons, !length_app in *. cbn [length] in *. cbn [names_len]. unfold bind.
  rewrite (run_strlen _ (nm q)) by (apply Hc; left). rewrite (add32_small _ 1), add32_small by lia.
  rewrite IH; [f_equal; lia|intros; apply Hc; by right|lia|lia].
Qed.

Lemma names_copy_spec nm cache n m h F N rt : 0 ≤ cache → cache + n < W32 → mapped m cache n → all_bytes m → ∀ l pre m1,
  (∀ q, q ∈ l → cstr m (add32 q OFF_NAME) (nm q) ∧ (add32 q OFF_NAME + Z.of_nat (length (nm q)) + 1 ≤ cache ∨ cache + n ≤ add32 q OFF_NAME) ∧
    add32 q OFF_NAME + Z.of_nat (length (nm q)) + 1 < W32) →
  Z.of_nat (length pre) + Z.of_nat (length (names_bytes nm l)) ≤ n → only cache n m m1 → holds m1 cache pre →
  wp (names_copy cache l (Z.of_nat (length pre))) (λ _ s', ∃ m', s' = Fs m' h F N rt ∧ only cache n m m' ∧
    holds m' cache (pre ++ names_bytes nm l)) (Fs m1 h F N rt).
Proof.
  intros Hc0 Hcw Hm Hby l. induction l as [|q l IH]; intros pre m1 Hq Hn Ho Hh.
  - apply wp_ret. exists m1. by rewrite app_nil_r.
  - rewrite names_bytes_cons, !length_app in Hn. cbn [length] in Hn.
    destruct (Hq q) as (Hcq & Hd & Hqw); [left|]. pose proof (cs_range _ _ _ Hcq) as Hr.
    assert (∀ m2, only cache n m m2 → cstr m2 (add32 q OFF_NAME) (nm q)) as Hcs.
    { intros m2 Ho2. split; [|apply Hcq|apply Hcq]. eapply only_holds; [exact Ho2|apply Hcq|]. rewrite length_app. cbn [length]. lia. }
    cbn [names_copy]. apply wp_bind, (wp_strlen _ (nm q)); [by apply Hcs|].
    rewrite (add32_small _ 1), (add32_small cache) by lia. apply wp_bind, wp_in_mem.
    replace (Z.of_nat (length (nm q)) + 1) with (Z.of_nat (length (nm q ++ [0]))) by (rewrite length_app; cbn [length]; lia).
    apply (wp_memcpy m1 (cache + Z.of_nat (length pre)) (add32 q OFF_NAME) (nm q ++ [0]));
      rewrite ?length_app; cbn [length]; try lia; [apply (Hcs m1 Ho)|by apply (on_bytes _ _ _ _ Ho)|..].
    { intros x Hx. apply (on_mapped _ _ _ _ Ho), Hm. lia. }
    intros u m2 Hh2 Ho2. assert (only cache n m m2) as Ho3 by (eapply only_trans; [exact Ho|exact Ho2|lia..]).
    apply wp_bind, (wp_strlen _ (nm q)); [by apply Hcs|]. rewrite (add32_small _ 1), add32_small by lia.
    replace (Z.of_nat (length pre) + (Z.of_nat (length (nm q)) + 1)) with (Z.of_nat (length (pre ++ nm q ++ [0])))
      by (rewrite !length_app; cbn [length]; lia).
    eapply wp_mono; [apply (IH (pre ++ nm q ++ [0]) m2)|].
    + intros y Hy. apply Hq. by right.
    + rewrite !length_app. cbn [length]. lia.
    + done.
    + apply holds_app. split; [|done]. eapply only_holds; [exact Ho2|exact Hh|lia].
    + intros v s' (m' & -> & Ho' & Hh'). exists m'. rewrite names_bytes_cons. by rewrite <- (assoc_L app) in Hh'.
Qed.

(** A directory whose names together fit the address space. *)
Definition listing kids nm (q : Z) : list Z := names_bytes nm (elems (kids q)).

(** [file_subfile] of a path: nothing there or an empty directory is E_NOTFOUND, a file
    that is not a directory E_INVAL; otherwise, unless the heap refuses the block, the
    result is a new block with the names of exactly the files of the directory, each
    terminated, in strictly increasing order, and its length; no file changes. *)
Theorem file_subfile_correct kids nm s name l t h' : fs_ok kids nm s → path_at s name l t h' →
  (∀ q, walk kids nm (root_file s) (pieces l) = Some q → Z.of_nat (length (listing kids nm q)) < W32) →
  wp (file_subfile fall name) (λ r s', fs_ok kids nm s' ∧ (∀ v, entry kids nm s' v = entry kids nm s v) ∧
    match entry kids nm s (pieces l), r with
    | None, _ => r = (E_NOTFOUND, None)
    | Some (ty, _, _), (err, None) => err = (if decide (ty = FILE_ENTITY) then E_INVAL else err) ∧ err ≠ E_OK
    | Some (ty, _, _), (err, Some (a, z)) => err = E_OK ∧ ty = FILE_DIR ∧ ∃ ws, ws ≠ [] ∧ Sorted.StronglySorted (λ u v, lex u v = Lt) ws ∧
        (∀ w, w ∈ ws ↔ is_Some (entry kids nm s (pieces l ++ [w]))) ∧
        holds (f_mem s') a (concat ((λ w, w ++ [0]) <$> ws)) ∧ z = Z.of_nat (length (concat ((λ w, w ++ [0]) <$> ws)))
    end) s.
Proof.
  intros Hok Hp Hsz. unfold file_subfile. apply wp_bind. eapply wp_mono; [by apply (find_here kids nm s name l t h')|].
  intros [err [q|]] s' (Hok' & HF & Hrt & _ & Hres); cbn beta iota in Hres.
  2:{ destruct Hres as [-> ->]. apply wp_ret. split; [done|]. split; [|done]. intros v. unfold entry. by rewrite HF, Hrt. }
  destruct Hres as (-> & Hq & x & Hx & ->). specialize (Hsz q Hq). apply wp_bind, wp_bind, wp_get, wp_deref. exists x. rewrite HF. split; [done|].
  assert (∀ v, entry kids nm s' v = entry kids nm s v) as Hent by (intros v; unfold entry; by rewrite HF, Hrt).
  assert (is_Some (f_files s' !! q)) as Hqs by (rewrite HF; by eexists).
  case_bool_decide as Hty.
  { apply wp_ret. split_and!; [done|done| |done]. rewrite decide_True; [done|]. by destruct (f_type x). }
  assert (f_type x = FILE_DIR) as Hdir by (by destruct (f_type x); [destruct Hty|]). rewrite Hdir.
  eapply wp_step; [by apply (run_subfiles kids nm)|]. destruct s' as [m h1 F N rt]. cbn [f_mem f_heap f_files f_nodes root_file] in *.
  assert (∀ y, y ∈ elems (kids q) → cstr m (add32 y OFF_NAME) (nm y) ∧ outside h1 (add32 y OFF_NAME) (Z.of_nat (length (nm y)) + 1) ∧
    add32 y OFF_NAME + Z.of_nat (length (nm y)) + 1 < W32) as Hkid.
  { intros y Hy. by apply (fo_kid _ _ _ Hok' q y). }
  eapply wp_step; [apply (run_names_len nm (Fs m h1 F N rt) _ (λ y Hy, proj1 (Hkid y Hy))); [lia|exact Hsz]|].
  rewrite Z.add_0_l. fold (listing kids nm q). destruct (Z.eqb_spec (Z.of_nat (length (listing kids nm q))) 0) as [H0|H0]; [by apply wp_ret|].
  destruct (kmalloc (Z.of_nat (length (listing kids nm q))) h1) as [[e|cache] h2] eqn:Hk.
  { eapply wp_step; [apply run_malloc|]. rewrite Hk. cbn [fst snd]. destruct (kmalloc_err _ _ _ _ Hk) as [He Hl].
    apply wp_ret. split_and!; [eapply fs_ok_step; [done|by eapply heap_refused|by rewrite Hl]|done|done|done]. }
  eapply wp_step; [apply run_malloc|]. rewrite Hk. cbn [fst snd].
  destruct (fo_mem _ _ _ Hok') as [Hmap Hby]. cbn [f_mem f_heap] in Hmap, Hby.
  set (n := Z.of_nat (length (listing kids nm q))) in *.
  destruct (kmalloc_ok _ _ _ _ Hk) as ([Hc0 _] & _ & Hlive). destruct (heap_alloc _ _ _ _ m Hk ltac:(lia) Hmap) as (Hm & _ & Hcw & Hst).
  assert (fs_ok kids nm (Fs m h2 F N rt)) as Hok2 by (eapply fs_ok_step; [exact Hok'|done|cbn [snd]; set_solver]).
  eapply wp_step; [by apply (run_subfiles kids nm)|]. apply wp_bind.
  eapply wp_mono; [apply (names_copy_spec nm cache n m h2 F N rt ltac:(lia) Hcw Hm Hby (elems (kids q)) [] m)|].
  - intros y Hy. destruct (Hkid y Hy) as (H1 & H2 & H3). split_and!; [done| |done]. destruct (heap_ok _ _ _ _ Hk ltac:(lia)) as (_ & Hfr & _).
    set (b := add32 y OFF_NAME) in *. destruct (decide (b + Z.of_nat (length (nm y)) + 1 ≤ cache ∨ cache + n ≤ b)); [done|].
    exfalso. apply (H2 (Z.max b cache)); [lia|]. apply Hfr. lia.
  - cbn [length]. fold (listing kids nm q). unfold n. lia.
  - apply only_refl.
  - intros i y Hy. by rewrite lookup_nil in Hy.
  - intros _ s' (m' & -> & Ho & Hh). cbn [app] in Hh. apply wp_ret. split.
    { eapply fs_ok_step; [exact Hok'|eapply heap_write; [exact Hk|lia|exact Ho|lia|lia]|cbn [snd]; set_solver]. }
    split; [exact Hent|]. split; [done|]. split; [done|]. destruct (fo_dir _ _ _ Hok' q x) as (_ & _ & Hs & _).
    { cbn [f_files]. by rewrite HF. }
    exists (nm <$> elems (kids q)). rewrite <- list_fmap_compose. split_and!; [| | |exact Hh|done].
    + intros He%fmap_nil_inv. apply H0. unfold n, listing. by rewrite He.
    + clear -Hs. unfold names_sorted in Hs. induction Hs as [|y l Hl IH Hy]; [constructor|]. cbn [fmap list_fmap]. constructor; [done|].
      by apply Forall_fmap.
    + intros w. unfold entry. rewrite walk_snoc, Hq. cbn [mbind option_bind]. rewrite list_elem_of_fmap. split.
      * intros (y & -> & Hy). rewrite (child_name _ _ _ _ Hs Hy). cbn [mbind option_bind].
        destruct (fo_kid _ _ _ Hok' q y Hqs Hy) as ([e He] & _). cbn [f_files] in He. rewrite HF in He. rewrite He. by eexists.
      * intros [e He]. apply bind_Some in He as (y & Hy & _). apply child_some in Hy as [Hy <-]. by exists y.
Qed.
End props.

Section start.
Context {H : Type} {HM : Kmalloc H} {HK : KmallocLaws H} {HB : HeapBytes H} {HBL : HeapBytesLaws H}.
Context (junk : Z).

(** A file service with its root only. *)
Lemma fs_ok_root m (h : H) N rt d z j : heap_mapped h m → all_bytes m → rt ∈ km_live h →
  fs_ok (λ _, E) (λ _, []) (Fs m h {[rt := File FILE_DIR d z NULL j]} N rt).
Proof.
  intros Hm Hb Hl. split; cbn [f_mem f_heap f_files f_nodes root_file elems].
  - done.
  - intros p x [<- <-]%lookup_singleton_Some. split; [done|]. split; [split; [done|by exists 0%nat; constructor]|].
    split; [constructor|]. split; cbn [elems rep RbtTree.addr rbt_root rbt_nodes f_sub]; [done|done|constructor|by apply not_elem_of_nil|done|done].
  - by intros p q _ ?%elem_of_nil.
  - by intros p p' q _ _ ?%elem_of_nil.
  - split; [rewrite lookup_singleton_eq; by eexists|]. intros p _. apply not_elem_of_nil.
Qed.

(** At the start of the service the root is the only file: an empty directory. *)
Theorem init_root_correct m (h : H) N rt name p h' : heap_mapped h m → all_bytes m → cstr m name [SLASH] →
  outside h name 2 → kmalloc SZ_FILE h = (inr p, h') →
  wp (init_root junk name) (λ e s', e = E_OK ∧ root_file s' = p ∧ ∃ kids nm, fs_ok kids nm s' ∧
    ∀ v, entry kids nm s' v = match v with [] => Some (FILE_DIR, NULL, NULL) | _ => None end) (Fs m h ∅ N rt).
Proof.
  intros Hm Hb Hc Ho Hk. unfold init_root. apply wp_bind.
  eapply wp_mono; [by apply (file_new_spec junk name [SLASH] FILE_DIR NULL NULL p m h h')|].
  intros r s' (-> & m' & -> & Hon & _). eapply wp_step; [done|]. apply wp_ret. split; [done|]. split; [done|].
  unfold set_root_file. cbn [f_mem f_heap f_files f_nodes root_file].
  assert (heap_step h m h' m') as Hst by (eapply heap_write; [exact Hk|done|exact Hon|lia|lia]).
  destruct (kmalloc_ok _ _ _ _ Hk) as (_ & _ & Hlive).
  exists (λ _, E), (λ _, []). split.
  - apply fs_ok_root; [by eapply heap_step_mapped|by apply (hs_bytes _ _ _ _ Hst)|set_solver].
  - intros [|w v]; [|done]. unfold entry. cbn [walk mbind option_bind root_file f_files]. by rewrite lookup_insert_eq.
Qed.
End start.

(** ** Concrete runs: the paths /a/b and / at 100 and 105, a heap of 1000 bytes at 1000,
    the root at 900. *)
Definition ex_paths : mem := place 100 [47; 97; 47; 98; 0; 47; 0] (ram 1000 1000).
Definition ex_arena : arena := Arena 1000 2000 {[900]}.
Definition ex_fs : fs arena := Fs ex_paths ex_arena {[900 := File FILE_DIR 0 0 NULL 7]} {[900 := RbtNode BLACK 7 7 7]} 900.

Lemma ex_mapped : heap_mapped ex_arena ex_paths ∧ all_bytes ex_paths.
Proof.
  split.
  - intros x Hx. cbn in Hx. apply (place_mapped 100 _ _ 1000 1000); [|lia]. apply ram_mapped; lia.
  - apply place_bytes; [repeat constructor; lia|apply ram_bytes].
Qed.
Lemma ex_fs_ok : fs_ok (λ _, E) (λ _, []) ex_fs.
Proof. apply fs_ok_root; [apply ex_mapped..|unfold ex_arena; cbn [km_live arena_kmalloc ar_live]; set_solver]. Qed.
Lemma ex_cstr a l : (a = 100 ∧ l = [47; 97; 47; 98]) ∨ (a = 105 ∧ l = [47]) → cstr ex_paths a l.
Proof.
  intros [[-> ->]|[-> ->]]; (split; [|repeat constructor; lia|unfold W32; simpl; lia]).
  - by apply (place_holds 100 [47; 97; 47; 98; 0; 47; 0] _ 0 [47; 97; 47; 98; 0]).
  - by apply (place_holds 100 [47; 97; 47; 98; 0; 47; 0] _ 5 [47; 0]).
Qed.
Lemma ex_path l t a h : (a = 100 ∧ l = [97; 47; 98]) ∨ (a = 105 ∧ l = []) → kmalloc (cut_len l) ex_arena = (inr t, h) →
  path_at (λ x, x) ex_fs a l t h.
Proof.
  intros Hl Hk. split; [|destruct Hl as [[_ ->]|[_ ->]]; done| |exact Hk|done].
  - cbn [ex_fs f_mem]. apply ex_cstr. destruct Hl as [[-> ->]|[-> ->]]; [by left|by right].
  - intros x Hx Hf. cbn in Hf. destruct Hl as [[-> ->]|[-> ->]]; simpl in Hx; lia.
Qed.

(** Creating /a/b with contents 5 of size 6, reading it, listing the root. *)
Lemma ex_fs_run : match file_create (λ x, x) 7 100 5 6 ex_fs with
  | Ret e s => e = E_OK ∧ match file_read (λ x, x) 100 s, file_subfile (λ x, x) 105 s with
      | Ret r _, Ret (e2, Some (a, z)) s2 => r = (E_OK, Some (5, 6)) ∧ e2 = E_OK ∧ z = 3 ∧
          f_mem s2 !! a = Some 97 ∧ f_mem s2 !! (a + 1) = Some 47 ∧ f_mem s2 !! (a + 2) = Some 0
      | _, _ => False end
  | _ => False end.
Proof. vm_compute. by split_and!. Qed.

Definition ex_cut : arena := snd (kmalloc 6 ex_arena).
Definition ex_cut1 : arena := snd (kmalloc 1 ex_arena).

Lemma file_create_correct_witness : path_at (λ x, x) ex_fs 100 [97; 47; 98] 1000 ex_cut ∧
  wp (file_create (λ x, x) 7 100 5 6) (λ err s', root_file s' = 900 ∧
    heap_step ex_arena ex_paths (f_heap s') (f_mem s') ∧ ∃ kids' nm' k, fs_ok kids' nm' s' ∧
    (err = E_OK ∧ k = 2%nat ∨ err ≠ E_OK ∧ (k < 2)%nat) ∧
    ∀ v, entry kids' nm' s' v = match entry (λ _, E) (λ _, []) ex_fs v with
      | Some e => Some e | None => added_entry FILE_ENTITY 5 6 [[97; 47]; [98]] k v end) ex_fs.
Proof.
  assert (path_at (λ x, x) ex_fs 100 [97; 47; 98] 1000 ex_cut) as Hp by (apply ex_path; [by left|reflexivity]).
  split; [exact Hp|].
  apply (file_create_correct (λ x, x) 7 (λ _, E) (λ _, []) ex_fs 100 [97; 47; 98] 1000 ex_cut 5 6); [exact ex_fs_ok|exact Hp|].
  repeat constructor.
Defined.

Lemma ex_root_path : path_at (λ x, x) ex_fs 105 [] 1000 ex_cut1.
Proof. apply ex_path; [by right|reflexivity]. Qed.

Lemma file_read_correct_witness : entry (λ _, E) (λ _, []) ex_fs [] = Some (FILE_DIR, 0, 0) ∧
  wp (file_read (λ x, x) 105) (λ r s', fs_ok (λ _, E) (λ _, []) s' ∧
    (∀ v, entry (λ _, E) (λ _, []) s' v = entry (λ _, E) (λ _, []) ex_fs v) ∧ r = (E_OK, Some (0, 0))) ex_fs.
Proof.
  split; [reflexivity|].
  apply (file_read_correct (λ x, x) (λ _, E) (λ _, []) ex_fs 105 [] 1000 ex_cut1); [exact ex_fs_ok|exact ex_root_path].
Defined.

Lemma file_write_correct_witness : entry (λ _, E) (λ _, []) ex_fs (pieces []) = Some (FILE_DIR, 0, 0) ∧
  wp (file_write (λ x, x) 105 5 6) (λ err s', fs_ok (λ _, E) (λ _, []) s' ∧
    err = match entry (λ _, E) (λ _, []) ex_fs (pieces []) with Some _ => E_OK | None => E_NOTFOUND end ∧
    ∀ v, entry (λ _, E) (λ _, []) s' v = overwritten (pieces []) 5 6 v (entry (λ _, E) (λ _, []) ex_fs v)) ex_fs.
Proof.
  split; [reflexivity|].
  exact (file_write_correct (λ x, x) (λ _, E) (λ _, []) ex_fs 105 [] 1000 ex_cut1 5 6 ex_fs_ok ex_root_path).
Defined.

(** A root with one file, "b", at 950. *)
Definition ex_mem1 : mem := place 958 [98; 0] ex_paths.
Definition ex_kids (p : Z) : tree := if p =? 900 then T BLACK E 950 E else E.
Definition ex_name (p : Z) : list Z := if p =? 950 then [98] else [].
Definition ex_fs1 : fs arena := Fs ex_mem1 (Arena 1000 2000 {[900; 950]})
  {[900 := File FILE_DIR 0 0 950 7; 950 := File FILE_ENTITY 5 6 NULL 7]} {[950 := RbtNode BLACK 0 0 0]} 900.

Lemma ex_fs1_ok : fs_ok ex_kids ex_name ex_fs1.
Proof.
  assert (∀ p x, f_files ex_fs1 !! p = Some x → (p = 900 ∧ x = File FILE_DIR 0 0 950 7) ∨ (p = 950 ∧ x = File FILE_ENTITY 5 6 NULL 7)) as Hf.
  { intros p x Hp. cbn [ex_fs1 f_files] in Hp. apply lookup_insert_Some in Hp as [[<- <-]|[_ [<- <-]%lookup_singleton_Some]]; tauto. }
  split.
  - split; [|apply place_bytes; [repeat constructor; lia|apply ex_mapped]].
    intros x Hx. apply (place_mapped 958 _ _ 1000 1000); [intros y Hy; apply ex_mapped; exact Hy|cbn in Hx; lia].
  - intros p x [[-> ->]|[-> ->]]%Hf; (split; [unfold ex_fs1; cbn [f_heap km_live arena_kmalloc ar_live]; set_solver|]).
    + split; [split; [done|exists 1%nat; repeat constructor]|]. split; [repeat constructor|].
      split; cbn [ex_kids Z.eqb Pos.eqb elems rep RbtTree.addr rbt_root rbt_nodes f_sub app]; [done| |apply NoDup_singleton|by intros ?%list_elem_of_singleton|done|done].
      by split_and!.
    + split; [split; [done|exists 0%nat; constructor]|]. split; [constructor|].
      split; cbn [ex_kids Z.eqb Pos.eqb elems rep RbtTree.addr rbt_root rbt_nodes f_sub app]; [done|done|constructor|by apply not_elem_of_nil|done|done].
  - intros p q [x [[-> ->]|[-> ->]]%Hf]; [|by intros ?%elem_of_nil]. intros ->%list_elem_of_singleton. split; [by eexists|].
    change (ex_name 950) with [98]. change (add32 950 OFF_NAME) with 958. split; [split; [by apply (place_holds 958 [98; 0] _ 0 [98; 0])|by apply Forall_singleton|unfold W32; simpl; lia]|]. split; [|done].
    intros y Hy Hfr. cbn in Hfr. simpl in Hy. lia.
  - intros p p' q [x [[-> ->]|[-> ->]]%Hf] [x' [[-> ->]|[-> ->]]%Hf]; try done; intros H1 H2; by apply elem_of_nil in H1 || apply elem_of_nil in H2.
  - split; [by eexists|]. intros p [x [[-> ->]|[-> ->]]%Hf]; [by intros ?%list_elem_of_singleton|by intros ?%elem_of_nil].
Qed.

Lemma file_subfile_correct_witness : wp (file_subfile (λ x, x) 105) (λ r s', fs_ok ex_kids ex_name s' ∧
    (∀ v, entry ex_kids ex_name s' v = entry ex_kids ex_name ex_fs1 v) ∧
    match Some (FILE_DIR, 0, 0), r with
    | None, _ => r = (E_NOTFOUND, None)
    | Some (ty, _, _), (err, None) => err = (if decide (ty = FILE_ENTITY) then E_INVAL else err) ∧ err ≠ E_OK
    | Some (ty, _, _), (err, Some (a, z)) => err = E_OK ∧ ty = FILE_DIR ∧ ∃ ws, ws ≠ [] ∧ Sorted.StronglySorted (λ u v, lex u v = Lt) ws ∧
        (∀ w, w ∈ ws ↔ is_Some (entry ex_kids ex_name ex_fs1 ([] ++ [w]))) ∧
        holds (f_mem s') a (concat ((λ w, w ++ [0]) <$> ws)) ∧ z = Z.of_nat (length (concat ((λ w, w ++ [0]) <$> ws)))
    end) ex_fs1.
Proof.
  apply (file_subfile_correct (λ x, x) ex_kids ex_name ex_fs1 105 [] 1000 (snd (kmalloc 1 (Arena 1000 2000 {[900; 950]})))).
  - exact ex_fs1_ok.
  - split; [|done| |reflexivity|done].
    + split; [|repeat constructor; lia|unfold W32; simpl; lia]. intros [|[|i]] b Hi; [injection Hi as <-; reflexivity..|done].
    + intros x Hx Hf. cbn in Hf. simpl in Hx. lia.
  - intros q [= <-]. done.
Defined.

Lemma init_root_correct_witness : wp (init_root 7 105) (λ e s', e = E_OK ∧ root_file s' = 1000 ∧ ∃ kids nm, fs_ok kids nm s' ∧
    ∀ v, entry kids nm s' v = match v with [] => Some (FILE_DIR, NULL, NULL) | _ => None end) (Fs ex_paths ex_arena ∅ ∅ 0).
Proof.
  apply (init_root_correct 7 ex_paths ex_arena ∅ 0 105 1000 (snd (kmalloc 72 ex_arena))); [apply ex_mapped..| | |reflexivity].
  - apply ex_cstr. by right.
  - intros x Hx Hf. cbn in Hf. lia.
Defined.
