(* ===== verification/Srv.v ===== *)
(** * Services: kernel/srv/srv.c

    A process registers a service under a name; others call it by that name with up to
    ten arguments, given by address and size. A call is a message to the box of the
    service, holding the number of the box its answer goes to, the sizes of the arguments
    and their bytes; the answer is a message of the same shape. The registry is a
    red-black tree ordered by name (Names); messages and boxes are those of Msg, with all
    the memory the code accesses as [umem]: the blocks of the kernel heap, the kernel
    stack and the user memory of the running process. *)
From S2P Require Import Prelude Kmalloc IdxAlct IdMap RbtModel RbtTree Cstring Words Blocks Names Msg.

(** [struct srv_t]: [name] is in memory, at the address of the structure, and [rbt_node]
    in the heap of nodes. *)
Record srv_t := SrvT { sv_owner : Z; sv_boxid : Z; sv_nparam : Z }.
Definition MAX_CALL_PARAM : Z := 10.
Definition MAX_SRV_NAME_LEN : Z := 32.
Definition SZ_SRV : Z := 60.

(** Offsets of the fields of the structures that are copied as bytes. *)
Module srv_call_t.
Definition retboxid : Z := 0.
Definition arg_sz : Z := 4.
Definition sz (i : Z) : Z := 8 + 4 * i.
Definition size : Z := 48.
End srv_call_t.
Module srv_callee_t.
Definition sid : Z := 0.
Definition arg_sz : Z := 8.
Definition sz (i : Z) : Z := 12 + 4 * i.
Definition cache : Z := 52.
End srv_callee_t.
Module srv_replyer_t.
Definition err : Z := 0.
Definition sid : Z := 4.
Definition narg : Z := 8.
Definition sz (i : Z) : Z := 12 + 4 * i.
Definition ad (i : Z) : Z := 52 + 4 * i.
End srv_replyer_t.
Module srv_reply_t.
Definition err : Z := 0.
Definition narg : Z := 4.
Definition sz (i : Z) : Z := 8 + 4 * i.
Definition size : Z := 48.
End srv_reply_t.
Module srv_replyee_t.
Definition err : Z := 0.
Definition narg : Z := 4.
Definition sz (i : Z) : Z := 8 + 4 * i.
Definition cache : Z := 48.
End srv_replyee_t.

(** ** Building and measuring the messages, on memory alone *)

(** The sum of [n] words, the i-th of which is at [at_ i], from [acc]. *)
Definition sum_body (at_ : Z → Z) (n : Z) (v : Z * Z) : M mem (Z * Z + Z) :=
  let '(i, acc) := v in
  if i <? n then sz <- rdw (at_ i) ;; ret (inl (i + 1, add32 acc sz)) else ret (inr acc).
Definition sum_words (at_ : Z → Z) (n acc : Z) : M mem Z :=
  loop (S (Z.to_nat n)) (sum_body at_ n) (0, acc).

(** [param\[i * 2\]] and [param\[i * 2 + 1\]]. *)
Definition par_ad (param i : Z) : Z := add32 param (8 * i).
Definition par_sz (param i : Z) : Z := add32 param (8 * i + 4).

(** The loop of [srv_call] over the arguments; the result is [offset]. *)
Definition call_body (param msgcache n : Z) (v : Z * Z) : M mem (Z * Z + Z) :=
  let '(i, offset) := v in
  if i <? n then
    z <- rdw (par_sz param i) ;; wrw (add32 msgcache (srv_call_t.sz i)) z ;;;
    z <- rdw (par_sz param i) ;;
    t <- rdw (add32 msgcache srv_call_t.arg_sz) ;;
    wrw (add32 msgcache srv_call_t.arg_sz) (add32 t z) ;;;
    a <- rdw (par_ad param i) ;; z <- rdw (par_sz param i) ;;
    memcpy (add32 msgcache offset) a z ;;;
    z <- rdw (par_sz param i) ;;
    ret (inl (i + 1, add32 offset z))
  else ret (inr offset).
Definition call_pack (param msgcache n : Z) : M mem Z :=
  wrw (add32 msgcache srv_call_t.arg_sz) 0 ;;;
  loop (S (Z.to_nat n)) (call_body param msgcache n) (0, srv_call_t.size).

(** The loop of [srv_reply], and the stores after it. *)
Definition reply_body (replyer reply n : Z) (v : Z * Z) : M mem (Z * Z + Z) :=
  let '(i, offset) := v in
  if i <? n then
    a <- rdw (add32 replyer (srv_replyer_t.ad i)) ;;
    z <- rdw (add32 replyer (srv_replyer_t.sz i)) ;;
    memcpy (add32 reply offset) a z ;;;
    z <- rdw (add32 replyer (srv_replyer_t.sz i)) ;;
    ret (inl (i + 1, add32 offset z))
  else ret (inr offset).
Definition reply_pack (replyer reply : Z) : M mem unit :=
  n <- rdw (add32 replyer srv_replyer_t.narg) ;;
  loop (S (Z.to_nat n)) (reply_body replyer reply n) (0, srv_reply_t.size) ;;;
  e <- rdw (add32 replyer srv_replyer_t.err) ;; wrw (add32 reply srv_reply_t.err) e ;;;
  n <- rdw (add32 replyer srv_replyer_t.narg) ;; wrw (add32 reply srv_reply_t.narg) n ;;;
  memcpy (add32 reply (srv_reply_t.sz 0)) (add32 replyer (srv_replyer_t.sz 0)) (4 * MAX_CALL_PARAM).

(** The registry [SRV], its structures, and the user heap of each process. The lock is
    its counter: the number of readers, or -1. *)
Record srvs (A K U : Type) := Srvs {
  sv_ipc : ipc A K; srv_rbt : rbt; sv_tab : gmap Z srv_t; rbt_rwlock : Z; sv_ums : gmap Z U }.
Arguments Srvs {A K U}.
Arguments sv_ipc {A K U}.
Arguments srv_rbt {A K U}.
Arguments sv_tab {A K U}.
Arguments rbt_rwlock {A K U}.
Arguments sv_ums {A K U}.

Section code.
Context {A K U : Type} `{IdMap A} `{Kmalloc K} {HU : Kmalloc U}.
(** The running thread and its process, the words a fresh block holds, and the address of
    the structure the running function has on its stack. *)
Context (thread_now proc_now : Z) (junk stk : Z).
Abbreviation st := (srvs A K U).
Abbreviation M := (Prelude.M st).
Implicit Types s : st.

Definition set_ipc x s : st := Srvs x (srv_rbt s) (sv_tab s) (rbt_rwlock s) (sv_ums s).
Definition set_reg x s : st := Srvs (sv_ipc s) x (sv_tab s) (rbt_rwlock s) (sv_ums s).
Definition set_tab x s : st := Srvs (sv_ipc s) (srv_rbt s) x (rbt_rwlock s) (sv_ums s).
Definition set_rwlock x s : st := Srvs (sv_ipc s) (srv_rbt s) (sv_tab s) x (sv_ums s).
Definition set_ums x s : st := Srvs (sv_ipc s) (srv_rbt s) (sv_tab s) (rbt_rwlock s) x.

Definition in_ipc {B} (m : Prelude.M (ipc A K) B) : M B := zoom sv_ipc set_ipc m.
Definition in_mem {B} (m : Prelude.M mem B) : M B := in_ipc (Msg.on_mem m).
Definition on_reg {B} (m : Prelude.M ntree B) : M B :=
  zoom (λ s, NTree (umem (sv_ipc s)) (srv_rbt s))
    (λ nt s, set_reg (nt_rbt nt) (set_ipc (set_umem (nt_mem nt) (sv_ipc s)) s)) m.
Definition srv_at (p : Z) : M srv_t := s <- get ;; deref (sv_tab s !! p).
Definition upd_srv (p : Z) (f : srv_t → srv_t) : M unit :=
  x <- srv_at p ;; modify (λ s, set_tab (<[p := f x]> (sv_tab s)) s).

Definition spin_write_lock : M unit := s <- get ;;
  if rbt_rwlock s =? 0 then put (set_rwlock (-1) s) else hang.
Definition spin_write_unlock : M unit := s <- get ;; assert_ (rbt_rwlock s =? -1) ;;; put (set_rwlock 0 s).
Definition spin_read_lock : M unit := s <- get ;;
  if rbt_rwlock s =? -1 then hang else put (set_rwlock (rbt_rwlock s + 1) s).
Definition spin_read_unlock : M unit := s <- get ;;
  assert_ (0 <? rbt_rwlock s) ;;; put (set_rwlock (rbt_rwlock s - 1) s).

(** [kmalloc], and [umalloc(&proc_now()->um, ..)]. *)
Definition kalloc (sz : Z) : M (Z + Z) := in_ipc (Msg.alloc sz).
Definition umalloc (sz : Z) : M (Z + Z) := s <- get ;; u <- deref (sv_ums s !! proc_now) ;;
  let '(r, u) := kmalloc sz u in put (set_ums (<[proc_now := u]> (sv_ums s)) s) ;;; ret r.

Definition find (name : Z) : M (Z * option Z) := on_reg (Names.rbt_find 0 name).

(** [strcpy] copies the bytes it is told to and no terminator, into cleared memory. *)
Definition srv_sys_register (name nparam : Z) : M Z :=
  n <- in_mem (strlen_s name MAX_SRV_NAME_LEN) ;;
  if n =? MAX_SRV_NAME_LEN then ret E_INVAL else
  if MAX_CALL_PARAM <? nparam then ret E_INVAL else
  spin_write_lock ;;;
  r <- find name ;;
  if negb (fst r =? E_NOTFOUND) then ret E_EXIST else
  r <- kalloc SZ_SRV ;;
  match r with
  | inl err => ret err
  | inr srv =>
      modify (λ s, set_tab (<[srv := SrvT junk junk junk]> (sv_tab s))
        (set_reg (Rbt (rbt_root (srv_rbt s))
          (<[srv := RbtNode BLACK junk junk junk]> (rbt_nodes (srv_rbt s)))) s)) ;;;
      in_mem (memset srv 0 MAX_SRV_NAME_LEN) ;;;
      n <- in_mem (strlen name) ;; in_mem (strcpy srv name n) ;;;
      r <- in_ipc (msg_newbox thread_now proc_now junk) ;;
      match r with
      | (err, None) => ret err
      | (_, Some boxid) =>
          upd_srv srv (λ x, SrvT (sv_owner x) boxid (sv_nparam x)) ;;;
          upd_srv srv (λ x, SrvT proc_now (sv_boxid x) (sv_nparam x)) ;;;
          upd_srv srv (λ x, SrvT (sv_owner x) (sv_boxid x) nparam) ;;;
          err <- on_reg (Names.rbt_insert 0 srv) ;;
          spin_write_unlock ;;;
          assert_ (err =? E_OK) ;;; ret E_OK
      end
  end.

(** [srv_call] up to [msg_send]: the error, or the box the answer will come to. *)
Definition srv_call_send (name param : Z) : M (Z + Z) :=
  r <- find name ;;
  match r with
  | (err, None) => ret (inl err)
  | (_, Some srv) =>
      x <- srv_at srv ;;
      msgsz <- in_mem (sum_words (par_sz param) (sv_nparam x) srv_call_t.size) ;;
      r <- kalloc msgsz ;;
      match r with
      | inl err => ret (inl err)
      | inr msgcache =>
          offset <- in_mem (call_pack param msgcache (sv_nparam x)) ;;
          assert_ (offset =? msgsz) ;;;
          r <- in_ipc (msg_newbox thread_now proc_now junk) ;;
          match r with
          | (err, None) => ret (inl err)
          | (_, Some retboxid) =>
              in_mem (wrw (add32 msgcache srv_call_t.retboxid) retboxid) ;;;
              r <- in_ipc (msg_newmsg thread_now proc_now junk msgcache msgsz) ;;
              match r with
              | (err, None) => ret (inl err)
              | (_, Some msgid) =>
                  x <- srv_at srv ;;
                  err <- in_ipc (msg_send thread_now proc_now (sv_boxid x) msgid) ;;
                  if negb (err =? E_OK) then ret (inl err) else ret (inr retboxid)
              end
          end
      end
  end.
(** [struct srv_info_t] has the name of the service, then the number and the name of the
    process, which start [struct proc_t] too. The lock stays taken when there is no
    memory. *)
Definition SZ_INFO : Z := 68.
Fixpoint info_fill (info now : Z) (ps : list Z) : M Z :=
  match ps with
  | [] => ret now
  | p :: ps =>
      x <- srv_at p ;;
      in_mem (
        memcpy (add32 info (mul32 now SZ_INFO)) p MAX_SRV_NAME_LEN ;;;
        memcpy (add32 info (mul32 now SZ_INFO + 36)) (add32 (sv_owner x) 4) 32 ;;;
        pid <- rdw (sv_owner x) ;; wrw (add32 info (mul32 now SZ_INFO + 32)) pid) ;;;
      info_fill info (now + 1) ps
  end.
Definition srv_sys_info (info : Z) : M Z :=
  spin_read_lock ;;;
  ps <- on_reg (Names.on_rbt rbt_rep_list) ;;
  r <- umalloc (mul32 (1 + Z.of_nat (length ps)) SZ_INFO) ;;
  match r with
  | inl err => ret err
  | inr _info =>
      ps <- on_reg (Names.on_rbt rbt_rep_list) ;;
      now <- info_fill _info 0 ps ;;
      in_mem (wrw (add32 _info (mul32 now SZ_INFO + 32)) 0) ;;;
      spin_read_unlock ;;;
      in_mem (wrw info _info) ;;;
      ret E_OK
  end.

(** What the other threads do while this one is BLOCKED. *)
Context (others : M unit).
Definition recieve (boxid is_block : Z) : M (Z * option Z) :=
  r <- in_ipc (recieve_enter thread_now proc_now boxid is_block) ;;
  match r with
  | inl out => ret out
  | inr (box, waits) =>
      (if waits : bool then others else ret tt) ;;; in_ipc (recieve_leave thread_now proc_now box waits)
  end.

(** The lines from [msg_read] on: the answer goes into [replyee], its bytes into a block
    of the process or of the kernel. *)
Definition srv_call_read (retmsgid replyee iskern : Z) : M Z :=
  err <- in_ipc (msg_read thread_now proc_now retmsgid stk 0 srv_reply_t.size) ;;
  if negb (err =? E_OK) then ret err else
  narg <- in_mem (rdw (add32 stk srv_reply_t.narg)) ;;
  sz <- in_mem (sum_words (λ i, add32 stk (srv_reply_t.sz i)) narg 0) ;;
  err <- (if 0 <? sz then
      r <- (if negb (iskern =? 0) then kalloc sz else umalloc sz) ;;
      match r with
      | inl err => ret err
      | inr a =>
          in_mem (wrw (add32 replyee srv_replyee_t.cache) a) ;;;
          cache <- in_mem (rdw (add32 replyee srv_replyee_t.cache)) ;;
          in_ipc (msg_read thread_now proc_now retmsgid cache srv_reply_t.size sz)
      end
    else ret E_OK) ;;
  if negb (err =? E_OK) then ret err else
  in_mem (
    e <- rdw (add32 stk srv_reply_t.err) ;; wrw (add32 replyee srv_replyee_t.err) e ;;;
    n <- rdw (add32 stk srv_reply_t.narg) ;; wrw (add32 replyee srv_replyee_t.narg) n ;;;
    memcpy (add32 replyee (srv_replyee_t.sz 0)) (add32 stk (srv_reply_t.sz 0)) (4 * MAX_CALL_PARAM)) ;;;
  ret err.

Definition srv_call_wait (retboxid replyee iskern : Z) : M Z :=
  r <- recieve retboxid 1 ;;
  match r with
  | (_, Some retmsgid) => srv_call_read retmsgid replyee iskern
  | (_, None) => panic
  end.

Definition srv_call (name param replyee iskern : Z) : M Z :=
  r <- srv_call_send name param ;;
  match r with
  | inl err => ret err
  | inr retboxid => srv_call_wait retboxid replyee iskern
  end.
Definition srv_sys_call (name param replyee : Z) : M Z := srv_call name param replyee 0.
(** The arguments are the words after [replyee] on the caller's stack. *)
Definition srv_kern_call (name replyee_at replyee : Z) : M Z :=
  srv_call name (add32 replyee_at 4) replyee 1.

Definition srv_called (name srvcalled : Z) : M Z :=
  spin_read_lock ;;; r <- find name ;; spin_read_unlock ;;;
  match r with
  | (err, None) => ret err
  | (_, Some srv) =>
      x <- srv_at srv ;;
      if negb (sv_owner x =? proc_now) then ret E_INVAL else
      r <- recieve (sv_boxid x) 1 ;;
      match r with
      | (_, None) => panic
      | (_, Some msg_id) =>
          r <- in_ipc (msg_size thread_now proc_now msg_id) ;;
          match r with
          | (_, None) => panic
          | (_, Some msg_sz) =>
              assert_ (srv_call_t.size <=? msg_sz) ;;;
              err <- in_ipc (msg_read thread_now proc_now msg_id stk 0 srv_call_t.size) ;;
              assert_ (err =? E_OK) ;;;
              sz <- in_mem (rdw (add32 stk srv_call_t.arg_sz)) ;;
              err <- (if 0 <? sz then
                  r <- umalloc sz ;;
                  match r with
                  | inl err => ret err
                  | inr a =>
                      in_mem (wrw (add32 srvcalled srv_callee_t.cache) a) ;;;
                      cache <- in_mem (rdw (add32 srvcalled srv_callee_t.cache)) ;;
                      sz <- in_mem (rdw (add32 stk srv_call_t.arg_sz)) ;;
                      err <- in_ipc (msg_read thread_now proc_now msg_id cache srv_call_t.size sz) ;;
                      assert_ (err =? E_OK) ;;; ret err
                  end
                else ret err) ;;
              if negb (err =? E_OK) then ret err else
              in_mem (
                memcpy (add32 srvcalled (srv_callee_t.sz 0)) (add32 stk (srv_call_t.sz 0)) (4 * MAX_CALL_PARAM) ;;;
                b <- rdw (add32 stk srv_call_t.retboxid) ;; wrw (add32 srvcalled srv_callee_t.sid) b ;;;
                z <- rdw (add32 stk srv_call_t.arg_sz) ;; wrw (add32 srvcalled srv_callee_t.arg_sz) z) ;;;
              ret err
          end
      end
  end.
Definition srv_sys_called (name srvcalled : Z) : M Z := srv_called name srvcalled.

Definition srv_reply (replyer : Z) : M Z :=
  narg <- in_mem (rdw (add32 replyer srv_replyer_t.narg)) ;;
  sz <- in_mem (sum_words (λ i, add32 replyer (srv_replyer_t.sz i)) narg srv_reply_t.size) ;;
  r <- kalloc sz ;;
  match r with
  | inl err => ret err
  | inr reply =>
      in_mem (reply_pack replyer reply) ;;;
      r <- in_ipc (msg_newmsg thread_now proc_now junk reply sz) ;;
      match r with
      | (err, None) => ret err
      | (_, Some msg) =>
          sid <- in_mem (rdw (add32 replyer srv_replyer_t.sid)) ;;
          in_ipc (msg_send thread_now proc_now sid msg)
      end
  end.
Definition srv_sys_reply (replyer : Z) : M Z := srv_reply replyer.
End code.
