(* ===== verification/SrvPack.v ===== *)
(** * The bytes of service messages: the loops of Srv.v over the arguments *)
From S2P Require Import Prelude Cstring Words Srv.

Abbreviation len l := (Z.of_nat (length l)).
Definition total (args : list (list Z)) : Z := len (concat args).

Lemma total_app l1 l2 : total (l1 ++ l2) = total l1 + total l2.
Proof. unfold total. rewrite concat_app, length_app. lia. Qed.
Lemma total_take_S args i l : args !! i = Some l → total (take (S i) args) = total (take i args) + len l.
Proof. intros Hi. rewrite (take_S_r _ _ _ Hi), total_app. unfold total. simpl. by rewrite app_nil_r. Qed.
Lemma total_take args i : 0 ≤ total (take i args) ≤ total args.
Proof. rewrite <- (take_drop i args) at 3. rewrite total_app. unfold total. lia. Qed.
Lemma total_elem args i l : args !! i = Some l → total (take i args) + len l ≤ total args.
Proof. intros Hi. rewrite <- (total_take_S _ _ _ Hi). apply total_take. Qed.

(** An argument [l] at [a], described by the words at [pa] and [pz], away from the bytes
    [bad]. *)
Record arg_at (m : mem) (bad : Z → Prop) (pa pz a : Z) (l : list Z) : Prop := {
  aa_ptr : word m pa a;
  aa_size : word m pz (len l);
  aa_bytes : holds m a l;
  aa_pa : 0 ≤ pa ∧ pa + 4 ≤ W32;
  aa_pz : 0 ≤ pz ∧ pz + 4 ≤ W32;
  aa_a : 0 ≤ a ∧ a + len l < W32;
  aa_clear : ∀ x, bad x → ¬ (pa ≤ x < pa + 4) ∧ ¬ (pz ≤ x < pz + 4) ∧ ¬ (a ≤ x < a + len l);
}.
Definition args_at m bad (adr siz : Z → Z) (args : list (list Z)) : Prop :=
  ∀ i l, args !! i = Some l → ∃ a, arg_at m bad (adr (Z.of_nat i)) (siz (Z.of_nat i)) a l.

(** Bytes and words away from what is written. *)
Lemma only_holds_at a n m m' b l : only a n m m' → holds m b l →
  (∀ x, a ≤ x < a + n → ¬ (b ≤ x < b + len l)) → holds m' b l.
Proof.
  intros Ho Hl Hc i x Hi. pose proof (lookup_lt_Some _ _ _ Hi).
  rewrite (on_frame _ _ _ _ Ho); [by apply Hl|].
  destruct (decide (a ≤ b + Z.of_nat i < a + n)) as [Hin|]; [|lia]. exfalso. apply (Hc _ Hin). lia.
Qed.

Lemma arg_at_only m m' bad pa pz a l b n : arg_at m bad pa pz a l → only b n m m' →
  (∀ x, b ≤ x < b + n → bad x) → arg_at m' bad pa pz a l.
Proof.
  intros [H1 H2 H3 H4 H5 H6 H7] Ho Hb.
  assert (∀ c k, (∀ x, bad x → ¬ (c ≤ x < c + len k)) → holds m c k → holds m' c k) as Hk.
  { intros c k Hc Hh. eapply only_holds_at; [done|done|]. intros x Hx. by apply Hc, Hb. }
  split; try done; apply Hk; try done; intros x Hx; destruct (H7 x Hx) as (? & ? & ?); cbn [length bytes4]; lia.
Qed.
Lemma args_at_only m m' bad adr siz args b n : args_at m bad adr siz args → only b n m m' →
  (∀ x, b ≤ x < b + n → bad x) → args_at m' bad adr siz args.
Proof. intros Ha Ho Hb i l Hi. destruct (Ha i l Hi) as [a ?]. exists a. by eapply arg_at_only. Qed.

(** The sizes alone. *)
Definition sizes_at (m : mem) (siz : Z → Z) (args : list (list Z)) : Prop :=
  ∀ i l, args !! i = Some l → word m (siz (Z.of_nat i)) (len l) ∧ 0 ≤ siz (Z.of_nat i) ∧ siz (Z.of_nat i) + 4 ≤ W32.
Lemma args_sizes m bad adr siz args : args_at m bad adr siz args → sizes_at m siz args.
Proof. intros Ha i l Hi. destruct (Ha i l Hi) as (a & [_ H2 _ _ H5 _ _]). by destruct H5. Qed.

Lemma sum_words_spec m siz args acc : sizes_at m siz args → 0 ≤ acc → acc + total args < W32 →
  wp (sum_words siz (len args) acc) (λ r m', m' = m ∧ r = acc + total args) m.
Proof.
  intros Ha Hacc Hw. unfold sum_words. rewrite Nat2Z.id.
  apply (wp_loop (λ k v m', m' = m ∧ ∃ i, (i ≤ length args)%nat ∧ k = (length args - i)%nat ∧
    v = (Z.of_nat i, acc + total (take i args)))) with (n := length args); [|lia|].
  2:{ split; [done|]. exists 0%nat. split_and!; [lia|lia|]. unfold total. simpl. f_equal. lia. }
  intros k v m' (-> & i & Hi & -> & ->). unfold sum_body. case_match eqn:E.
  - destruct (lookup_lt_is_Some_2 args i) as [l Hl]; [lia|]. destruct (Ha i l Hl) as (H2 & H4 & H5).
    pose proof (total_elem _ _ _ Hl). pose proof (total_take args i).
    apply wp_bind. eapply wp_rdw; [exact H2|unfold is_u32; lia|lia|lia|]. apply wp_ret.
    exists (length args - S i)%nat. split; [lia|]. split; [done|]. exists (S i). split_and!; [lia|lia|].
    rewrite (total_take_S _ _ _ Hl), add32_small by lia. f_equal; lia.
  - apply wp_ret. split; [done|]. assert (i = length args) as -> by lia. by rewrite firstn_all.
Qed.

(** [memcpy] of an argument into the block. *)
Lemma wp_copy_arg m bad pa pz a l d (Q : unit → mem → Prop) : arg_at m bad pa pz a l → all_bytes m →
  mapped m d (len l) → 0 ≤ d → d + len l < W32 → (∀ x, d ≤ x < d + len l → bad x) →
  (∀ u m', holds m' d l → only d (len l) m m' → Q u m') → wp (memcpy d a (len l)) Q m.
Proof.
  intros [H1 H2 H3 H4 H5 H6 H7] Hb Hm Hd Hdw Hbad HQ. apply wp_memcpy; try done; try lia.
  destruct (decide (d ≤ a)) as [|Hda]; [by left|right]. destruct (decide (len l = 0)); [lia|].
  destruct (decide (a + len l ≤ d)) as [|Hx]; [done|]. destruct (H7 d) as (_ & _ & Hc); [apply Hbad; lia|lia].
Qed.

Lemma only_len a n m m' l : holds m' a l → only a n m m' → n = len l → only a (len l) m m'.
Proof. by intros _ Ho <-. Qed.

(** What the loop of [srv_call] has written after [i] arguments. *)
Record call_inv (m0 : mem) (bad : Z → Prop) adr siz args (mc : Z) (i : nat) (m : mem) : Prop := {
  ci_args : args_at m bad adr siz args;
  ci_only : only mc (48 + total args) m0 m;
  ci_mapped : mapped m mc (48 + total args);
  ci_bytes : all_bytes m;
  ci_total : word m (mc + 4) (total (take i args));
  ci_sizes : ∀ j l, (j < i)%nat → args !! j = Some l → word m (mc + 8 + 4 * Z.of_nat j) (len l);
  ci_data : holds m (mc + 48) (concat (take i args));
}.

Section call.
Context (m0 : mem) (bad : Z → Prop) (param : Z) (args : list (list Z)) (mc : Z).
Context (Hmc : 0 ≤ mc ∧ mc + 48 + total args < W32) (Hbad : ∀ x, mc ≤ x < mc + 48 + total args → bad x).
Context (Hn : (length args ≤ 10)%nat).
Abbreviation J := (call_inv m0 bad (par_ad param) (par_sz param) args mc).

Lemma call_inv_write i m m' a n : J i m → only a n m m' → mc ≤ a → a + n ≤ mc + 48 + total args →
  args_at m' bad (par_ad param) (par_sz param) args ∧ only mc (48 + total args) m0 m' ∧
  mapped m' mc (48 + total args) ∧ all_bytes m'.
Proof using All.
  intros [G1 G2 G3 G4 G5 G6 G7] Ho Ha Hw. split_and!.
  - eapply args_at_only; [done|done|]. intros x Hx. apply Hbad. lia.
  - eapply only_trans; [exact G2|exact Ho|lia..].
  - by eapply only_mapped.
  - by apply (on_bytes _ _ _ _ Ho).
Qed.

Lemma call_step i l m (Q : (Z * Z + Z) → mem → Prop) : J i m → args !! i = Some l →
  (∀ m', J (S i) m' → Q (inl (Z.of_nat (S i), 48 + total (take (S i) args))) m') →
  wp (call_body param mc (len args) (Z.of_nat i, 48 + total (take i args))) Q m.
Proof using All.
  intros HJ Hl HQ. pose proof HJ as [G1 G2 G3 G4 G5 G6 G7].
  pose proof (lookup_lt_Some _ _ _ Hl) as Hi. pose proof (total_elem _ _ _ Hl) as Hte. pose proof (total_take args i) as Htt.
  destruct (G1 i l Hl) as (a & Ha). unfold call_body. rewrite (proj2 (Z.ltb_lt _ _)) by lia.
  unfold srv_call_t.sz, srv_call_t.arg_sz.
  apply wp_bind. eapply wp_rdw; [apply Ha|unfold is_u32; lia|apply Ha|apply Ha|].
  apply wp_bind. rewrite (add32_small mc (8 + 4 * Z.of_nat i)) by lia. apply wp_wrw; [intros x Hx; apply G3; lia|lia|lia|].
  intros m1 Hw1 Ho1. pose proof (call_inv_write _ _ _ _ _ HJ Ho1 ltac:(lia) ltac:(lia)) as (K1 & K2 & K3 & K4).
  assert (∀ m' b n, only b n m1 m' → mc ≤ b → b + n ≤ mc + 48 + total args →
    arg_at m' bad (par_ad param (Z.of_nat i)) (par_sz param (Z.of_nat i)) a l) as Ha'.
  { intros m' b n Ho Hb1 Hb2. eapply arg_at_only; [eapply arg_at_only; [exact Ha|exact Ho1|]|exact Ho|]; intros x Hx; apply Hbad; lia. }
  pose proof (Ha' m1 mc 0 (only_refl _ _ _) ltac:(lia) ltac:(lia)) as Ha1.
  apply wp_bind. eapply wp_rdw; [apply Ha1|unfold is_u32; lia|apply Ha1|apply Ha1|].
  rewrite (add32_small mc 4) by lia.
  apply (only_holds _ _ _ _ _ _ Ho1) in G5; [|cbn [length bytes4]; lia].
  apply wp_bind. eapply wp_rdw; [exact G5|unfold is_u32; lia|lia|lia|].
  rewrite add32_small by lia.
  apply wp_bind, wp_wrw; [intros x Hx; apply K3; lia|lia|lia|]. intros m2 Hw2 Ho2.
  pose proof (Ha' m2 _ _ Ho2 ltac:(lia) ltac:(lia)) as Ha2.
  apply wp_bind. eapply wp_rdw; [apply Ha2| |apply Ha2|apply Ha2|].
  { destruct (aa_a _ _ _ _ _ _ Ha). unfold is_u32. lia. }
  apply wp_bind. eapply wp_rdw; [apply Ha2|unfold is_u32; lia|apply Ha2|apply Ha2|].
  rewrite (add32_small mc) by lia.
  apply wp_bind. eapply (wp_copy_arg _ _ _ _ _ _ _ _ Ha2); [by apply (on_bytes _ _ _ _ Ho2)| |lia|lia| |].
  { eapply only_mapped; [exact Ho2|]. intros x Hx. apply K3. lia. }
  { intros x Hx. apply Hbad. lia. }
  intros _ m3 Hh3 Ho3.
  assert (only mc (48 + total args) m1 m3) as Ho13 by (eapply only_trans; [exact Ho2|exact Ho3|lia..]).
  pose proof (Ha' m3 _ _ Ho13 ltac:(lia) ltac:(lia)) as Ha3.
  apply wp_bind. eapply wp_rdw; [apply Ha3|unfold is_u32; lia|apply Ha3|apply Ha3|].
  apply wp_ret. rewrite add32_small by lia.
  replace (Z.of_nat i + 1) with (Z.of_nat (S i)) by lia. pose proof (total_take_S _ _ _ Hl) as Hts.
  replace (48 + total (take i args) + len l) with (48 + total (take (S i) args)) by lia. apply HQ.
  split.
  - eapply args_at_only; [exact K1|exact Ho13|]. intros x Hx. apply Hbad. lia.
  - by eapply only_seq.
  - by eapply only_mapped.
  - by apply (on_bytes _ _ _ _ Ho13).
  - rewrite Hts. eapply only_holds; [exact Ho3|exact Hw2|cbn [length bytes4]; lia].
  - intros j k Hj Hk. pose proof (lookup_lt_Some _ _ _ Hk).
    eapply only_holds; [exact Ho3| |cbn [length bytes4]; lia]. eapply only_holds; [exact Ho2| |cbn [length bytes4]; lia].
    destruct (decide (j = i)) as [->|]; [replace (mc + 8 + 4 * Z.of_nat i) with (mc + (8 + 4 * Z.of_nat i)) by lia; by simplify_eq|].
    eapply only_holds; [exact Ho1|apply G6; [lia|done]|cbn [length bytes4]; lia].
  - rewrite (take_S_r _ _ _ Hl), concat_app. simpl. rewrite app_nil_r. apply holds_app.
    assert (len (concat (take i args)) = total (take i args)) as Hlen by done.
    split; [|replace (mc + 48 + len (concat (take i args))) with (mc + (48 + total (take i args))) by lia; done].
    eapply only_holds; [exact Ho3| |lia]. eapply only_holds; [exact Ho2| |lia].
    eapply only_holds; [exact Ho1|exact G7|lia].
Qed.

Lemma call_pack_spec : args_at m0 bad (par_ad param) (par_sz param) args →
  mapped m0 mc (48 + total args) → all_bytes m0 →
  wp (call_pack param mc (len args)) (λ r m', r = 48 + total args ∧ J (length args) m') m0.
Proof using All.
  intros Ha Hm Hb. assert (0 ≤ total args) by (unfold total; lia). unfold call_pack, srv_call_t.arg_sz, srv_call_t.size.
  rewrite (add32_small mc 4) by lia. apply wp_bind, wp_wrw; [intros x Hx; apply Hm; lia|lia|lia|].
  intros m1 Hw Ho. rewrite Nat2Z.id.
  apply (wp_loop (λ k v m', ∃ i, (i ≤ length args)%nat ∧ k = (length args - i)%nat ∧
    v = (Z.of_nat i, 48 + total (take i args)) ∧ J i m')) with (n := length args); [|lia|].
  - intros k v m' (i & Hi & -> & -> & HJ). destruct (decide (i < length args)%nat) as [Hlt|].
    + destruct (lookup_lt_is_Some_2 args i Hlt) as [l Hl]. eapply call_step; [done|done|]. intros m2 HJ2.
      exists (length args - S i)%nat. split; [lia|]. exists (S i). split_and!; [lia|lia|done|done].
    + assert (i = length args) as -> by lia. unfold call_body. rewrite Z.ltb_irrefl. apply wp_ret.
      rewrite firstn_all. by split.
  - exists 0%nat. split_and!; [lia|lia|done|]. split; cbn [take concat].
    + eapply args_at_only; [exact Ha|exact Ho|]. intros x Hx. apply Hbad. lia.
    + eapply only_wider; [exact Ho|lia..].
    + by eapply only_mapped.
    + by apply (on_bytes _ _ _ _ Ho).
    + done.
    + lia.
    + intros i x Hi. simpl in Hi. by rewrite lookup_nil in Hi.
Qed.
End call.

(** A structure [srv_replyer_t] at [rp]: the answer [e] and [args] to the call [sid]. Its
    ten size words are the bytes [szs], of which the first are the sizes of [args]. *)
Record replyer_at (m : mem) (bad : Z → Prop) (rp e sid : Z) (args : list (list Z)) (szs : list Z) : Prop := {
  ra_err : word m rp e;
  ra_sid : word m (rp + 4) sid;
  ra_narg : word m (rp + 8) (len args);
  ra_szs : holds m (rp + 12) szs;
  ra_args : args_at m bad (λ i, add32 rp (srv_replyer_t.ad i)) (λ i, add32 rp (srv_replyer_t.sz i)) args;
  ra_len : length szs = 40%nat ∧ (length args ≤ 10)%nat;
  ra_u32 : is_u32 e ∧ is_u32 sid ∧ 0 ≤ rp ∧ rp + 92 < W32;
  ra_clear : ∀ x, bad x → ¬ (rp ≤ x < rp + 92);
}.

Lemma replyer_at_only m m' bad rp e sid args szs b n : replyer_at m bad rp e sid args szs → only b n m m' →
  (∀ x, b ≤ x < b + n → bad x) → replyer_at m' bad rp e sid args szs.
Proof.
  intros [G1 G2 G3 G4 G5 G6 G7 G8] Ho Hb.
  assert (∀ c l, holds m c l → rp ≤ c → c + len l ≤ rp + 92 → holds m' c l) as Hk.
  { intros c l Hh Hc Hl. eapply only_holds_at; [done|done|]. intros x Hx Hx'. apply (G8 x); [by apply Hb|lia]. }
  split; try done; try (apply Hk; [done|cbn [length bytes4]; lia..]). by eapply args_at_only.
Qed.

(** What a message with an answer holds. *)
Record reply_block (m : mem) (mr e : Z) (args : list (list Z)) (szs : list Z) : Prop := {
  rb_err : word m mr e;
  rb_narg : word m (mr + 4) (len args);
  rb_szs : holds m (mr + 8) szs;
  rb_data : holds m (mr + 48) (concat args);
}.

Section reply.
Context (bad : Z → Prop) (rp e sid : Z) (args : list (list Z)) (szs : list Z) (mr : Z).
Context (Hmr : 0 ≤ mr ∧ mr + 48 + total args < W32) (Hbad : ∀ x, mr ≤ x < mr + 48 + total args → bad x).

Lemma reply_loop_spec m : replyer_at m bad rp e sid args szs → mapped m mr (48 + total args) → all_bytes m →
  wp (loop (S (length args)) (reply_body rp mr (len args)) (0, 48)) (λ _ m', only (mr + 48) (total args) m m' ∧
    holds m' (mr + 48) (concat args)) m.
Proof using All.
  intros HR Hm Hb. pose proof (ra_u32 _ _ _ _ _ _ _ HR) as (_ & _ & Hrp & Hrpw). destruct (ra_len _ _ _ _ _ _ _ HR) as [_ Hn].
  assert (0 ≤ total args) by (unfold total; lia).
  apply (wp_loop (λ k v m', ∃ i, (i ≤ length args)%nat ∧ k = (length args - i)%nat ∧
    v = (Z.of_nat i, 48 + total (take i args)) ∧ only (mr + 48) (total args) m m' ∧
    holds m' (mr + 48) (concat (take i args)))) with (n := length args); [|lia|].
  2:{ exists 0%nat. split_and!; [lia|lia|done|apply only_refl|]. intros i x Hi. simpl in Hi. by rewrite lookup_nil in Hi. }
  intros k v m1 (i & Hi & -> & -> & Ho & Hh). unfold reply_body. destruct (decide (i < length args)%nat) as [Hlt|].
  2:{ assert (i = length args) as -> by lia. rewrite Z.ltb_irrefl. apply wp_ret. by rewrite firstn_all in Hh. }
  destruct (lookup_lt_is_Some_2 args i Hlt) as [l Hl]. rewrite (proj2 (Z.ltb_lt _ _)) by lia.
  pose proof (total_elem _ _ _ Hl) as Hte. pose proof (total_take args i) as Htt. pose proof (total_take_S _ _ _ Hl) as Hts.
  assert (replyer_at m1 bad rp e sid args szs) as HR1.
  { eapply replyer_at_only; [exact HR|exact Ho|]. intros x Hx. apply Hbad. lia. }
  destruct (ra_args _ _ _ _ _ _ _ HR1 i l Hl) as (a & Ha). unfold srv_replyer_t.ad, srv_replyer_t.sz in *.
  apply wp_bind. eapply wp_rdw; [apply Ha| |apply Ha|apply Ha|].
  { destruct (aa_a _ _ _ _ _ _ Ha). unfold is_u32. lia. }
  apply wp_bind. eapply wp_rdw; [apply Ha|unfold is_u32; lia|apply Ha|apply Ha|].
  rewrite (add32_small mr) by lia.
  apply wp_bind. eapply (wp_copy_arg _ _ _ _ _ _ _ _ Ha); [by apply (on_bytes _ _ _ _ Ho)| |lia|lia| |].
  { eapply only_mapped; [exact Ho|]. intros x Hx. apply Hm. lia. }
  { intros x Hx. apply Hbad. lia. }
  intros _ m2 Hh2 Ho2.
  assert (arg_at m2 bad (add32 rp (52 + 4 * Z.of_nat i)) (add32 rp (12 + 4 * Z.of_nat i)) a l) as Ha2.
  { eapply arg_at_only; [exact Ha|exact Ho2|]. intros x Hx. apply Hbad. lia. }
  apply wp_bind. eapply wp_rdw; [apply Ha2|unfold is_u32; lia|apply Ha2|apply Ha2|].
  apply wp_ret. rewrite add32_small by lia. exists (length args - S i)%nat. split; [lia|]. exists (S i).
  split_and!; [lia|lia|f_equal; lia|eapply only_trans; [exact Ho|exact Ho2|lia..]|].
  rewrite (take_S_r _ _ _ Hl), concat_app. simpl. rewrite app_nil_r. apply holds_app.
  assert (len (concat (take i args)) = total (take i args)) as Hlen by done.
  split; [|replace (mr + 48 + len (concat (take i args))) with (mr + (48 + total (take i args))) by lia; done].
  eapply only_holds; [exact Ho2|exact Hh|lia].
Qed.

Lemma reply_pack_spec m : replyer_at m bad rp e sid args szs → mapped m mr (48 + total args) → all_bytes m →
  wp (reply_pack rp mr) (λ _ m', reply_block m' mr e args szs ∧ only mr (48 + total args) m m') m.
Proof using All.
  intros HR Hm Hb. pose proof (ra_u32 _ _ _ _ _ _ _ HR) as (He & Hsid & Hrp & Hrpw). destruct (ra_len _ _ _ _ _ _ _ HR) as [Hl40 Hn].
  assert (0 ≤ total args) by (unfold total; lia).
  assert (∀ m', only mr (48 + total args) m m' → replyer_at m' bad rp e sid args szs) as HR'.
  { intros m' Ho. eapply replyer_at_only; [exact HR|exact Ho|]. intros x Hx. apply Hbad. lia. }
  unfold reply_pack, srv_replyer_t.narg, srv_replyer_t.err, srv_replyer_t.sz, srv_reply_t.err, srv_reply_t.narg, srv_reply_t.sz, srv_reply_t.size, MAX_CALL_PARAM.
  rewrite (add32_small rp 8), (add32_small rp 0), (add32_small mr 0), (add32_small mr 4), (add32_small mr (8 + 4 * 0)), (add32_small rp (12 + 4 * 0)) by lia.
  rewrite ?Z.mul_0_r, ?Z.add_0_r. change (4 * 10) with 40. change (8 + 4 * 0) with 8. change (12 + 4 * 0) with 12.
  apply wp_bind. eapply wp_rdw; [apply HR|unfold is_u32, W32; lia|lia|lia|].
  rewrite Nat2Z.id. apply wp_bind. eapply wp_mono; [by apply reply_loop_spec|]. intros _ m1 [Ho1 Hh1].
  assert (only mr (48 + total args) m m1) as Hw1 by (eapply only_wider; [exact Ho1|lia..]).
  apply wp_bind. eapply wp_rdw; [apply (HR' _ Hw1)|done|lia|lia|].
  apply wp_bind, wp_wrw; [intros x Hx; apply (only_mapped _ _ _ _ _ _ Hw1 Hm); lia|lia|lia|]. intros m2 He2 Ho2.
  assert (only mr (48 + total args) m m2) as Hw2 by (eapply only_seq; [exact Hw1|eapply only_wider; [exact Ho2|lia..]]).
  apply wp_bind. eapply wp_rdw; [apply (HR' _ Hw2)|unfold is_u32, W32; lia|lia|lia|].
  apply wp_bind, wp_wrw; [intros x Hx; apply (only_mapped _ _ _ _ _ _ Hw2 Hm); lia|lia|lia|]. intros m3 Hn3 Ho3.
  assert (only mr (48 + total args) m m3) as Hw3 by (eapply only_seq; [exact Hw2|eapply only_wider; [exact Ho3|lia..]]).
  pose proof (HR' _ Hw3) as HR3. replace 40 with (len szs) by (rewrite Hl40; done).
  apply wp_memcpy; [apply HR3|by apply (on_bytes _ _ _ _ Hw3)| |lia|lia|rewrite Hl40; lia|rewrite Hl40; lia| |].
  { intros x Hx. apply (only_mapped _ _ _ _ _ _ Hw3 Hm). lia. }
  { destruct (decide (mr + 8 ≤ rp + 12)); [by left|right]. destruct (decide (rp + 12 + len szs ≤ mr + 8)); [done|].
    exfalso. apply (ra_clear _ _ _ _ _ _ _ HR (mr + 8)); [apply Hbad|]; lia. }
  intros _ m4 Hs4 Ho4. rewrite Hl40 in Ho4. split.
  - split.
    + eapply only_holds; [exact Ho4| |cbn [length bytes4]; lia]. eapply only_holds; [exact Ho3|exact He2|cbn [length bytes4]; lia].
    + eapply only_holds; [exact Ho4|exact Hn3|cbn [length bytes4]; lia].
    + done.
    + eapply only_holds; [exact Ho4| |lia]. eapply only_holds; [exact Ho3| |lia]. eapply only_holds; [exact Ho2|exact Hh1|lia].
  - eapply only_seq; [exact Hw3|eapply only_wider; [exact Ho4|lia..]].
Qed.
End reply.
