(* ===== verification/SrvSpec.v ===== *)
(** * What services rely on: the invariant of Srv.v and its frame

    The registry is a red-black tree of the names of its structures, outside what the
    kernel heap still has to give, over consistent message tables. Operations on messages
    only take from the kernel heap and leave the memory alone, except [msg_read]. *)
From S2P Require Import Prelude Kmalloc IdxAlct IdMap RbtModel RbtTree RbtIter RbtSearch RbtInsert Cstring Words Blocks Names Msg MsgSpec Srv SrvPack.

Lemma wlp_and {S B} (c : M S B) P Q s : wlp c P s → wlp c Q s → wlp c (λ a s', P a s' ∧ Q a s') s.
Proof. unfold wlp. by destruct (c s). Qed.

(** ** Memory changed only where [P] allows it *)
Record touched (P : Z → Prop) (m m' : mem) : Prop := {
  to_frame : ∀ x, ¬ P x → m' !! x = m !! x;
  to_mapped : ∀ x, is_Some (m !! x) → is_Some (m' !! x);
  to_bytes : all_bytes m → all_bytes m';
}.
Definition span (a n : Z) : Z → Prop := λ x, a ≤ x < a + n.

Lemma touched_refl P m : touched P m m.
Proof. by split. Qed.
Lemma touched_trans P m1 m2 m3 : touched P m1 m2 → touched P m2 m3 → touched P m1 m3.
Proof. intros [A1 A2 A3] [B1 B2 B3]. split; [|by auto..]. intros x Hx. by rewrite B1, A1. Qed.
Lemma touched_mono P Q m m' : touched P m m' → (∀ x, P x → Q x) → touched Q m m'.
Proof. intros [A1 A2 A3] Hpq. split; [|done|done]. intros x Hx. apply A1. by intros ?%Hpq. Qed.
Lemma touched_only P a n m m' : only a n m m' → (∀ x, span a n x → P x) → touched P m m'.
Proof.
  intros [A1 A2 A3] Hp. split; [|done|done]. intros x Hx. apply A1.
  destruct (decide (a ≤ x < a + n)); [|lia]. by destruct (Hx (Hp x ltac:(done))).
Qed.
Lemma touched_holds P m m' a l : touched P m m' → holds m a l → (∀ x, span a (len l) x → ¬ P x) → holds m' a l.
Proof.
  intros Ht Hl Hp i b Hi. pose proof (lookup_lt_Some _ _ _ Hi). rewrite (to_frame _ _ _ Ht); [by apply Hl|].
  apply Hp. unfold span. lia.
Qed.
Lemma touched_map P m m' a n : touched P m m' → mapped m a n → mapped m' a n.
Proof. intros Ht Hm x Hx. by apply (to_mapped _ _ _ Ht), Hm. Qed.
Lemma touched_cstr P m m' a l : touched P m m' → cstr m a l → (∀ x, span a (len l + 1) x → ¬ P x) → cstr m' a l.
Proof.
  intros Ht [G1 G2 G3] Hp. split; [|done|done]. eapply touched_holds; [done|done|].
  intros x Hx. apply Hp. unfold span in *. rewrite length_app in Hx. simpl in Hx. lia.
Qed.
Lemma touched_args P m m' bad adr siz args : touched P m m' → args_at m bad adr siz args → (∀ x, P x → bad x) →
  args_at m' bad adr siz args.
Proof.
  intros Ht Ha Hp i l Hi. destruct (Ha i l Hi) as (a & [G1 G2 G3 G4 G5 G6 G7]). exists a.
  split; try done; (eapply touched_holds; [done|done|]); intros x Hx Hx'; destruct (G7 x (Hp x Hx')) as (? & ? & ?);
    unfold span in Hx; cbn [length bytes4] in Hx; lia.
Qed.

(** ** Operations on messages leave the memory alone *)
Section quiet.
Context {A K : Type} `{IdMapLaws A} `{KmallocLaws K} {HB : HeapBytes K} {HBL : HeapBytesLaws K}.
Context (th pr junk : Z).
Abbreviation st := (ipc A K).

Record quiet_step (s s' : st) : Prop := {
  qs_umem : umem s' = umem s;
  qs_free : ∀ x, km_free (kheap s') x → km_free (kheap s) x;
  qs_live : km_live (kheap s) ⊆ km_live (kheap s');
}.
Definition quiet {B} (c : M st B) : Prop := ∀ s, wlp c (λ _ s', quiet_step s s') s.

Lemma quiet_step_refl s : quiet_step s s.
Proof. by split. Qed.
Lemma quiet_step_trans s1 s2 s3 : quiet_step s1 s2 → quiet_step s2 s3 → quiet_step s1 s3.
Proof. intros [A1 A2 A3] [B1 B2 B3]. split; [by rewrite B1|by auto|set_solver]. Qed.
Lemma quiet_bind {B C} (c : M st B) (k : B → M st C) : quiet c → (∀ b, quiet (k b)) → quiet (bind c k).
Proof.
  intros Hc Hk s. apply wlp_bind. eapply wlp_mono; [apply Hc|]. intros b s' Hs. cbn beta.
  eapply wlp_mono; [apply Hk|]. intros c' s''. by apply quiet_step_trans.
Qed.
Lemma quiet_ro {B} (c : M st B) : read_only c → quiet c.
Proof. intros Hc s. eapply wlp_mono; [apply Hc|]. intros b s' ->. apply quiet_step_refl. Qed.
Lemma quiet_modify (f : st → st) : (∀ s, quiet_step s (f s)) → quiet (modify f).
Proof. intros Hf s. apply Hf. Qed.
Lemma quiet_msg_alct {B} (c : M A B) : quiet (on_msg_alct c).
Proof. intros s. apply wlp_zoom, wlp_always. by split. Qed.
Lemma quiet_box_alct {B} (c : M A B) : quiet (on_box_alct c).
Proof. intros s. apply wlp_zoom, wlp_always. by split. Qed.
Lemma quiet_alloc sz : 0 ≤ sz → quiet (alloc sz).
Proof.
  intros Hsz s. unfold alloc, wlp, bind, get. destruct (kmalloc sz (kheap s)) as [[e|p] k] eqn:E; simpl.
  - destruct (kmalloc_err _ _ _ _ E) as [_ Hk]. split; [done|by eapply heap_err|]. simpl. by rewrite Hk.
  - destruct (heap_ok _ _ _ _ E Hsz) as (_ & _ & Hf). destruct (kmalloc_ok _ _ _ _ E) as (_ & _ & Hl).
    split; [done|intros x Hx; by apply Hf|]. simpl. rewrite Hl. set_solver.
Qed.
Lemma quiet_fetch a n : quiet (Msg.on_mem (fetch a n)).
Proof.
  intros s. apply wlp_zoom. eapply wlp_mono; [apply fetch_wlp|]. intros l m [-> _]. by split.
Qed.
Lemma quiet_upd_msg p f : quiet (upd_msg p f).
Proof. apply quiet_bind; [apply quiet_ro; unfold msg_at; ro_solve|]. intros m. apply quiet_modify. by split. Qed.
Lemma quiet_upd_box p f : quiet (upd_box p f).
Proof. apply quiet_bind; [apply quiet_ro; unfold box_at; ro_solve|]. intros m. apply quiet_modify. by split. Qed.
Lemma quiet_schd_run t : quiet (Msg.schd_run t).
Proof. unfold Msg.schd_run. case_match; [apply quiet_ro, ro_fault|]. apply quiet_modify. by split. Qed.

Ltac quiet_go := repeat first
  [ apply quiet_alloc; unfold SZ_MSG, SZ_BOX; lia | apply quiet_msg_alct | apply quiet_box_alct | apply quiet_fetch
  | apply quiet_upd_msg | apply quiet_upd_box | apply quiet_schd_run
  | apply quiet_modify; by split
  | apply quiet_ro; (apply ro_ret || apply ro_get || apply ro_assert || apply ro_deref || apply ro_panic || apply ro_fault || apply ro_hang)
  | apply quiet_bind; [|intros] | case_match ].

Lemma quiet_newbox : quiet (msg_newbox th pr junk).
Proof. unfold msg_newbox, lock_box, unlock_box, take_lock, drop_lock, box_at, kmfree. quiet_go. Qed.
Lemma quiet_newmsg a n : 0 ≤ n → quiet (msg_newmsg th pr junk a n).
Proof. intros Hn. unfold msg_newmsg, lock_msg, unlock_msg, take_lock, drop_lock, msg_at, kmfree. quiet_go. Qed.
Lemma quiet_send b i : quiet (msg_send th pr b i).
Proof. unfold msg_send, send_locked, lock_msg, unlock_msg, lock_box, unlock_box, take_lock, drop_lock, msg_at, box_at. quiet_go. Qed.
End quiet.

(** ** The registry *)
Section reg.
Context {A K U : Type} {IA : IdMap A} {IL : IdMapLaws A} {HM : Kmalloc K} {HK : KmallocLaws K}.
Context {HB : HeapBytes K} {HBL : HeapBytesLaws K} {UM : Kmalloc U} {UK : KmallocLaws U} {UB : HeapBytes U} {UBL : HeapBytesLaws U}.
Context (th pr junk stk : Z).
Abbreviation st := (srvs A K U).
Implicit Types (s : st) (I : ipc A K) (nm : Z → list Z) (t : tree).

(** The bytes of the names. *)
Definition named nm t (x : Z) : Prop := ∃ p, p ∈ elems t ∧ span p (len (nm p) + 1) x.

Record srv_ok nm t (mm bm : gmap Z Z) s : Prop := {
  so_ipc : ipc_ok mm bm (sv_ipc s);
  so_mem : heap_mapped (kheap (sv_ipc s)) (umem (sv_ipc s)) ∧ all_bytes (umem (sv_ipc s));
  so_tree : R (rbt_nodes (srv_rbt s)) (elems t) t (srv_rbt s) ∧ rbtree t ∧ names_sorted nm (elems t);
  so_srv : ∀ p, p ∈ elems t → p ∈ km_live (kheap (sv_ipc s)) ∧ cstr (umem (sv_ipc s)) p (nm p) ∧
    (∃ x, sv_tab s !! p = Some x ∧ 0 ≤ sv_nparam x ≤ MAX_CALL_PARAM);
  so_names : ∀ x, named nm t x → ¬ km_free (kheap (sv_ipc s)) x;
}.

Lemma srv_ok_step nm t mm bm s mm' bm' I' lk um P : srv_ok nm t mm bm s → ipc_ok mm' bm' I' →
  (∀ x, km_free (kheap I') x → km_free (kheap (sv_ipc s)) x) → km_live (kheap (sv_ipc s)) ⊆ km_live (kheap I') →
  touched P (umem (sv_ipc s)) (umem I') → (∀ x, P x → ¬ named nm t x) →
  srv_ok nm t mm' bm' (Srvs I' (srv_rbt s) (sv_tab s) lk um).
Proof.
  intros [G1 [G2 G2'] G3 G4 G5] Hok Hf Hl Ht Hp. split; cbn [sv_ipc srv_rbt sv_tab]; try done.
  - split; [intros x Hx; by apply (to_mapped _ _ _ Ht), G2, Hf|by apply (to_bytes _ _ _ Ht)].
  - intros p Hin. destruct (G4 p Hin) as (? & ? & ?). split_and!; [set_solver| |done].
    eapply touched_cstr; [exact Ht|done|]. intros x Hx Hpx. apply (Hp x Hpx). by exists p.
  - intros x Hx Hfx. apply (G5 x Hx). by apply Hf.
Qed.

Lemma srv_ok_quiet nm t mm bm s mm' bm' I' lk um : srv_ok nm t mm bm s → ipc_ok mm' bm' I' →
  quiet_step (sv_ipc s) I' → srv_ok nm t mm' bm' (Srvs I' (srv_rbt s) (sv_tab s) lk um).
Proof.
  intros Hs Hok [Q1 Q2 Q3]. apply (srv_ok_step nm t mm bm s _ _ _ _ _ (λ _, False)); try done.
  rewrite Q1. apply touched_refl.
Qed.

Lemma kmalloc_quiet mm bm I sz r k : ipc_ok mm bm I → 0 ≤ sz → kmalloc sz (kheap I) = (r, k) →
  ipc_ok mm bm (set_kheap k I) ∧ quiet_step I (set_kheap k I).
Proof.
  intros [I1 I2 I3] Hsz Hk. destruct r as [e|p].
  - destruct (kmalloc_err _ _ _ _ Hk) as [_ Hl]. split; [split; [done|done|]; cbn [kheap set_kheap]; by rewrite Hl|].
    split; [done| |]; cbn [kheap set_kheap]; [by eapply heap_err|by rewrite Hl].
  - destruct (kmalloc_ok _ _ _ _ Hk) as (Hp & Hn & Hl). destruct (heap_ok _ _ _ _ Hk Hsz) as (_ & _ & Hf). split.
    + split; [done|done|]. cbn [kheap set_kheap]. eapply inv_mono; [exact I3|set_solver|].
      rewrite Hl. intros q [->%elem_of_singleton|Hq]%elem_of_union; [done|by apply (inv_addr _ _ _ _ _ _ I3)].
    + split; [done| |]; cbn [kheap set_kheap]; [intros x Hx; by apply Hf|set_solver].
Qed.
Lemma srv_ok_kmalloc nm t mm bm s sz r k lk um : srv_ok nm t mm bm s → 0 ≤ sz → kmalloc sz (kheap (sv_ipc s)) = (r, k) →
  srv_ok nm t mm bm (Srvs (set_kheap k (sv_ipc s)) (srv_rbt s) (sv_tab s) lk um).
Proof.
  intros Hok Hsz Hk. destruct (kmalloc_quiet mm bm _ _ _ _ (so_ipc _ _ _ _ _ Hok) Hsz Hk). by eapply srv_ok_quiet.
Qed.

(** Running the parts. *)
Lemma wp_in_buffers {B} (c : Prelude.M mem B) (Q : B → st → Prop) s :
  wp c (λ a u, Q a (set_ipc (set_umem u (sv_ipc s)) s)) (umem (sv_ipc s)) → wp (in_mem c) Q s.
Proof. intros Hc. unfold in_mem, in_ipc, Msg.on_mem. by apply wp_zoom, wp_zoom. Qed.
Lemma wlp_in_mem {B} (c : Prelude.M mem B) (Q : B → st → Prop) s :
  wp c (λ a u, Q a (set_ipc (set_umem u (sv_ipc s)) s)) (umem (sv_ipc s)) → wlp (in_mem c) Q s.
Proof. intros Hc. by apply wp_wlp, wp_in_buffers. Qed.
Lemma wlp_kalloc sz (Q : Z + Z → st → Prop) s :
  (∀ e k, kmalloc sz (kheap (sv_ipc s)) = (inl e, k) → Q (inl e) (set_ipc (set_kheap k (sv_ipc s)) s)) →
  (∀ p k, kmalloc sz (kheap (sv_ipc s)) = (inr p, k) → Q (inr p) (set_ipc (set_kheap k (sv_ipc s)) s)) →
  wp (kalloc sz) Q s.
Proof.
  intros He Hp. unfold kalloc, in_ipc. apply wp_zoom. unfold alloc, wp, bind, get.
  destruct (kmalloc sz (kheap (sv_ipc s))) as [[e|p] k]; simpl; auto.
Qed.

Lemma wlp_in_ipc {B} (c : Prelude.M (ipc A K) B) (Q : B → st → Prop) s :
  wlp c (λ a I, Q a (set_ipc I s)) (sv_ipc s) → wlp (in_ipc c) Q s.
Proof. intros Hc. unfold in_ipc. by apply wlp_zoom. Qed.
Lemma wlp_newbox mm bm s (Q : Z * option Z → st → Prop) : ipc_ok mm bm (sv_ipc s) →
  (∀ r I, newbox_post pr mm bm (sv_ipc s) r I → quiet_step (sv_ipc s) I → Q r (set_ipc I s)) →
  wlp (in_ipc (msg_newbox th pr junk)) Q s.
Proof.
  intros Hok HQ. apply wlp_in_ipc. eapply wlp_mono; [apply wlp_and; [by apply wlp_msg_newbox|apply quiet_newbox]|].
  intros r I [Hr Hq]. by apply HQ.
Qed.

Lemma set_same s : set_reg (srv_rbt s) (set_ipc (set_umem (umem (sv_ipc s)) (sv_ipc s)) s) = s.
Proof. by destruct s as [[] ? ? ? ?]. Qed.

Lemma set_mem_same s u : u = umem (sv_ipc s) → set_ipc (set_umem u (sv_ipc s)) s = s.
Proof. intros ->. by destruct s as [[] ? ? ? ?]. Qed.

Lemma live_addr nm t mm bm s p : srv_ok nm t mm bm s → p ∈ elems t → 0 < p < W32.
Proof.
  intros Hok Hp. apply (inv_addr _ _ _ _ _ _ (ok_inv _ _ _ (so_ipc _ _ _ _ _ Hok))). by apply (so_srv _ _ _ _ _ Hok).
Qed.
Lemma add32_0 p : 0 < p < W32 → add32 p 0 = p.
Proof. intros Hp. rewrite add32_small; lia. Qed.
Lemma reg_names nm t mm bm s : srv_ok nm t mm bm s → ∀ p, p ∈ elems t → cstr (umem (sv_ipc s)) (add32 p 0) (nm p).
Proof. intros Hok p Hp. rewrite (add32_0 _ (live_addr _ _ _ _ _ _ Hok Hp)). by apply (so_srv _ _ _ _ _ Hok). Qed.

Lemma wp_find nm t mm bm s name l : srv_ok nm t mm bm s → cstr (umem (sv_ipc s)) name l →
  wp (find name) (λ r s', s' = s ∧ match snd r with
    | Some p => fst r = E_OK ∧ p ∈ elems t ∧ nm p = l
    | None => fst r = E_NOTFOUND ∧ ∀ p, p ∈ elems t → nm p ≠ l
    end) s.
Proof.
  intros Hok Hn. destruct (so_tree _ _ _ _ _ Hok) as (HR & _ & Hs). unfold find, on_reg. apply wp_zoom.
  eapply wp_mono; [eapply (name_find_spec 0 nm _ _ _ _ _ HR (reg_names _ _ _ _ _ Hok) Hs name l Hn)|].
  intros r nt [-> Hr]. split; [apply set_same|done].
Qed.
End reg.
