(* ===== verification/SrvMsg.v ===== *)
(** * The messages of calls and answers: their layout, and Srv.v's use of Msg.v *)
From S2P Require Import Prelude Kmalloc IdxAlct IdMap RbtModel RbtTree RbtIter Cstring Words Blocks Names Msg MsgSpec Srv SrvPack SrvSpec.

(** ** Layout: two words, ten size words, the bytes of the arguments *)
Definition packed (h1 h2 : Z) (args : list (list Z)) (szs : list Z) : list Z :=
  bytes4 h1 ++ bytes4 h2 ++ szs ++ concat args.
(** The first of the size words are the sizes of the arguments. *)
Definition sized (szs : list Z) (args : list (list Z)) : Prop :=
  length szs = 40%nat ∧ ∀ i l, args !! i = Some l → take 4 (drop (4 * i) szs) = bytes4 (len l).

Lemma len_packed h1 h2 args szs : length szs = 40%nat → len (packed h1 h2 args szs) = 48 + total args.
Proof. intros Hs. unfold packed, total. rewrite !length_app, Hs. simpl. lia. Qed.
Lemma packed_head h1 h2 args szs : length szs = 40%nat →
  take 48 (packed h1 h2 args szs) = bytes4 h1 ++ bytes4 h2 ++ szs.
Proof.
  intros Hs. unfold packed. rewrite !(assoc_L app). apply take_app_length'. rewrite !length_app, Hs. done.
Qed.
Lemma packed_data h1 h2 args szs : length szs = 40%nat → drop 48 (packed h1 h2 args szs) = concat args.
Proof.
  intros Hs. unfold packed. rewrite !(assoc_L app). apply drop_app_length'. rewrite !length_app, Hs. done.
Qed.

Lemma holds_inj m a l1 l2 : holds m a l1 → holds m a l2 → length l1 = length l2 → l1 = l2.
Proof.
  intros H1 H2 Hl. apply list_eq_same_length with (length l1); [done|done|]. intros i x y Hi Hx Hy.
  specialize (H1 _ _ Hx). specialize (H2 _ _ Hy). congruence.
Qed.
Lemma mapped_holds m a (n : nat) : mapped m a (Z.of_nat n) → ∃ l, length l = n ∧ holds m a l.
Proof.
  revert a. induction n as [|n IH]; intros a Hm; [exists []; split; [done|by intros i x ?]|].
  destruct (Hm a ltac:(lia)) as [v Hv]. destruct (IH (a + 1)) as (l & Hl & Hh); [intros x Hx; apply Hm; lia|].
  exists (v :: l). split; [simpl; lia|]. by apply holds_cons.
Qed.
Lemma holds_bytes m a l : all_bytes m → holds m a l → Forall (λ b, 0 ≤ b < 256) l.
Proof. intros Hb Hl. apply Forall_lookup. intros i x Hx. by apply (Hb (a + Z.of_nat i)), Hl. Qed.

(** Sizes in a block and as words of memory. *)
Lemma sized_words m a szs args : holds m a szs → sized szs args →
  ∀ i l, args !! i = Some l → word m (a + 4 * Z.of_nat i) (len l).
Proof.
  intros Hh [_ Hs] i l Hi. unfold word. rewrite <- (Hs _ _ Hi).
  replace (a + 4 * Z.of_nat i) with (a + Z.of_nat (4 * i)) by lia. by apply holds_sub.
Qed.
Lemma words_sized m a szs args : holds m a szs → length szs = 40%nat → (length args ≤ 10)%nat →
  (∀ i l, args !! i = Some l → word m (a + 4 * Z.of_nat i) (len l)) → sized szs args.
Proof.
  intros Hh Hl Hn Hw. split; [done|]. intros i l Hi. pose proof (lookup_lt_Some _ _ _ Hi).
  apply (holds_inj m (a + Z.of_nat (4 * i))); [by apply holds_sub| |].
  - replace (a + Z.of_nat (4 * i)) with (a + 4 * Z.of_nat i) by lia. by apply Hw.
  - rewrite length_take, length_drop, Hl. change (length (bytes4 (len l))) with 4%nat. lia.
Qed.

(** The block of a call. *)
Lemma call_block m0 bad param args mc rb m : call_inv m0 bad (par_ad param) (par_sz param) args mc (length args) m →
  word m mc rb → (length args ≤ 10)%nat →
  ∃ szs, sized szs args ∧ holds m mc (packed rb (total args) args szs).
Proof.
  intros [G1 G2 G3 G4 G5 G6 G7] Hw Hn. assert (0 ≤ total args) by (unfold total; lia).
  destruct (mapped_holds m (mc + 8) 40) as (szs & Hl & Hh); [intros x Hx; apply G3; lia|].
  rewrite firstn_all in G5, G7. exists szs. split.
  - eapply words_sized; [exact Hh|done|done|]. intros i l Hi. apply G6; [by eapply lookup_lt_Some|done].
  - unfold packed. apply holds_app. split; [done|]. cbn [length bytes4]. change (Z.of_nat 4) with 4.
    apply holds_app. split; [done|]. cbn [length bytes4]. replace (mc + 4 + Z.of_nat 4) with (mc + 8) by lia.
    apply holds_app. split; [done|]. rewrite Hl. by replace (mc + 8 + Z.of_nat 40) with (mc + 48) by lia.
Qed.

(** The block of an answer. *)
Lemma reply_block_holds m mr e args szs : length szs = 40%nat → reply_block m mr e args szs →
  holds m mr (packed e (len args) args szs).
Proof.
  intros Hl [G1 G2 G3 G4]. unfold packed. apply holds_app. split; [done|]. cbn [length bytes4]. change (Z.of_nat 4) with 4.
  apply holds_app. split; [done|]. cbn [length bytes4]. replace (mr + 4 + Z.of_nat 4) with (mr + 8) by lia.
  apply holds_app. split; [done|]. rewrite Hl. by replace (mr + 8 + Z.of_nat 40) with (mr + 48) by lia.
Qed.

(** The header, copied to a structure at [a]. *)
Lemma packed_header m a h1 h2 szs : holds m a (bytes4 h1 ++ bytes4 h2 ++ szs) →
  word m a h1 ∧ word m (a + 4) h2 ∧ holds m (a + 8) szs.
Proof.
  intros Hh. apply holds_app in Hh as [H1 Hh]. apply holds_app in Hh as [H2 H3]. cbn [length bytes4] in *.
  change (Z.of_nat 4) with 4 in *. split_and!; [done|done|]. by replace (a + 8) with (a + 4 + 4) by lia.
Qed.

(** ** The operations of Msg.v, run by Srv.v *)
Section ops.
Context {A K U : Type} {IA : IdMap A} {IL : IdMapLaws A} {HM : Kmalloc K} {HK : KmallocLaws K}.
Context {HB : HeapBytes K} {HBL : HeapBytesLaws K} {UM : Kmalloc U} {UK : KmallocLaws U} {UB : HeapBytes U} {UBL : HeapBytesLaws U}.
Context (th pr junk : Z).
Abbreviation st := (srvs A K U).
Implicit Types (s : st) (I : ipc A K).

(** A message of this process with the bytes [bl], received or sent. *)
Definition message (mm : gmap Z Z) I (i : Z) (x : MSG_STATE) (o : Z) (bl : list Z) : Prop :=
  ∃ q m, mm !! i = Some q ∧ msgs I !! q = Some m ∧ m_state m = x ∧ m_owner m = o ∧ m_id m = i ∧
    blocks I !! m_addr m = Some bl ∧ m_size m = len bl ∧ Forall (λ b, 0 ≤ b < 256) bl.

Lemma wp_msg_read mm bm s i bl cache off sz (Q : Z → st → Prop) : ipc_ok mm bm (sv_ipc s) →
  message mm (sv_ipc s) i MSG_RECIEVED pr bl → 0 ≤ off → 0 ≤ sz → off + sz ≤ len bl → len bl < W32 →
  mapped (umem (sv_ipc s)) cache sz → 0 ≤ cache → cache + sz ≤ W32 →
  (∀ u, holds u cache (take (Z.to_nat sz) (drop (Z.to_nat off) bl)) → only cache sz (umem (sv_ipc s)) u →
    Q E_OK (set_ipc (set_umem u (sv_ipc s)) s)) →
  wp (in_ipc (msg_read th pr i cache off sz)) Q s.
Proof.
  intros Hok (q & m & Hi & Hq & Hst & Ho & _ & Hbl & Hsz & Hby) Hoff Hsz0 Hle Hw Hm Hc Hcw HQ.
  unfold in_ipc. apply wp_zoom. unfold wp. rewrite (run_msg_read _ _ _ _ _ _ _ _ _ Hok). unfold read_result.
  rewrite Hi, Hq. unfold readable. rewrite Ho, Z.eqb_refl, bool_decide_eq_true_2 by done.
  rewrite add32_small by lia. rewrite Hsz, (proj2 (Z.leb_le _ _)) by lia. cbn [andb negb]. rewrite Hbl.
  rewrite (proj2 (Z.ltb_ge _ _)) by lia.
  assert (len (take (Z.to_nat sz) (drop (Z.to_nat off) bl)) = sz) as Hl.
  { rewrite length_take, length_drop. lia. }
  destruct (store_only (umem (sv_ipc s)) cache (take (Z.to_nat sz) (drop (Z.to_nat off) bl))) as (u & Hs & Hh & Ho1);
    [by rewrite Hl|done|by rewrite Hl|by apply Forall_take, Forall_drop|].
  rewrite Hs. rewrite Hl in Ho1. by apply HQ.
Qed.

Lemma wlp_newmsg mm bm s a l (Q : Z * option Z → st → Prop) : ipc_ok mm bm (sv_ipc s) →
  holds (umem (sv_ipc s)) a l → all_bytes (umem (sv_ipc s)) → 0 ≤ a → a + len l ≤ W32 →
  (∀ e I, e ≠ E_OK → ipc_ok mm bm I → quiet_step (sv_ipc s) I → Q (e, None) (set_ipc I s)) →
  (∀ i p I, mm !! i = None → ipc_ok (<[i := p]> mm) bm I → boxes I = boxes (sv_ipc s) →
     message (<[i := p]> mm) I i MSG_UNSEND pr l → quiet_step (sv_ipc s) I → Q (E_OK, Some i) (set_ipc I s)) →
  wlp (in_ipc (msg_newmsg th pr junk a (len l))) Q s.
Proof.
  intros Hok Hl Hby Ha Haw He Hs. apply wlp_in_ipc. eapply wlp_mono.
  { apply wlp_and; [apply (wlp_msg_newmsg _ _ _ _ _ _ _ _ Hok); lia|apply quiet_newmsg; lia]. }
  intros [e [i|]] I [Hr Hq]; unfold newmsg_post in Hr; cbn [fst snd] in Hr.
  - destruct Hr as (Hbx & _ & -> & Hi & p & d & l' & Hok' & Hp & Hd & Hf). rewrite Nat2Z.id, (fetch_spec _ _ _ Hl Ha Haw) in Hf.
    injection Hf as <-. eapply Hs; try done. exists p, (Msg i MSG_UNSEND d (len l) pr None).
    rewrite lookup_insert_eq. split_and!; try done. by eapply holds_bytes.
  - destruct Hr as (_ & _ & He' & Hok'). by apply He.
Qed.

(** A box of the process [o]: its state, the thread that waits, the messages in it. *)
Definition box (bm : gmap Z Z) I (bi o : Z) (x : BOX_STATE) (w : Z) (ls : list Z) : Prop :=
  ∃ p b, bm !! bi = Some p ∧ boxes I !! p = Some b ∧ b_owner b = o ∧ b_state b = x ∧ blk_thread b = w ∧ msg_ls b = ls.

(** Nothing but the message [i] and the box [bi] has changed. *)
Record ipc_frame (mm bm : gmap Z Z) (i bi : Z) I I' : Prop := {
  if_blocks : blocks I' = blocks I;
  if_msgs : ∀ q, mm !! i ≠ Some q → msgs I' !! q = msgs I !! q;
  if_boxes : ∀ p, bm !! bi ≠ Some p → boxes I' !! p = boxes I !! p;
}.

Lemma box_frame mm bm i bi I I' bj o x w ls : ipc_ok mm bm I → ipc_frame mm bm i bi I I' → bj ≠ bi →
  box bm I bj o x w ls → box bm I' bj o x w ls.
Proof.
  intros Hok Hf Hne (p & b & Hp & Hb & Hr). exists p, b. split_and!; [done| |apply Hr..].
  rewrite (if_boxes _ _ _ _ _ _ Hf); [done|]. intros Hp'. by apply Hne, (inv_box_inj _ _ p (ok_inv _ _ _ Hok)).
Qed.
Lemma box_same bm I I' bj o x w ls : boxes I' = boxes I → box bm I bj o x w ls → box bm I' bj o x w ls.
Proof. intros He (p & b & Hr). exists p, b. by rewrite He. Qed.
Lemma box_new bm I I' rb rp y bj o x w ls : boxes I' = <[rp := y]> (boxes I) → boxes I !! rp = None → bm !! rb = None →
  box bm I bj o x w ls → box (<[rb := rp]> bm) I' bj o x w ls.
Proof.
  intros He Hrp Hrb (p & b & Hp & Hb & Hr). exists p, b. rewrite lookup_insert_ne by congruence.
  rewrite He, lookup_insert_ne by congruence. done.
Qed.

Lemma wp_send mm bm s i bl bi o x w ls q (Q : Z → st → Prop) : ipc_ok mm bm (sv_ipc s) →
  message mm (sv_ipc s) i MSG_UNSEND pr bl → mm !! i = Some q → box bm (sv_ipc s) bi o x w ls → (x = BOX_RCV_BLK → w ≠ 0) →
  (∀ I, ipc_ok mm bm I → message mm I i MSG_SENDED pr bl →
     box bm I bi o x (if bool_decide (x = BOX_RCV_BLK) then 0 else w) (ls ++ [q]) →
     ipc_frame mm bm i bi (sv_ipc s) I → quiet_step (sv_ipc s) I → Q E_OK (set_ipc I s)) →
  wp (in_ipc (msg_send th pr bi i)) Q s.
Proof.
  intros Hok (q' & m & Hi & Hq & Hst & Ho & Hid & Hbl & Hsz & Hby) Hi' (p & b & Hp & Hb & Hbo & Hbs & Hbw & Hls) Hw HQ. simplify_eq.
  unfold in_ipc. apply wp_zoom. unfold wp. rewrite (run_msg_send _ _ _ _ _ _ _ Hok). unfold send_result.
  rewrite Hi, Hp, Hq, Hb, Z.eqb_refl, bool_decide_eq_true_2 by done. cbn [andb negb].
  assert (bool_decide (b_state b = BOX_RCV_BLK) && (blk_thread b =? 0) = false) as ->.
  { case_bool_decide as E; [|done]. specialize (Hw E). simpl. by apply Z.eqb_neq. }
  pose proof (ok_sent _ _ _ _ _ _ _ _ _ Hok Hi Hp Hq Hb Hst) as Hok'.
  apply HQ; [done| | | |].
  - exists q', (ms_state MSG_SENDED m). unfold sent. cbn [set_woken set_msgs set_boxes msgs blocks];
      rewrite lookup_insert_eq; by split_and!.
  - eexists p, _. split; [done|]. split; [unfold sent; cbn [set_woken set_msgs set_boxes boxes]; apply lookup_insert_eq|].
    by split_and!.
  - split.
    + done.
    + intros r Hr. unfold sent. cbn [set_woken set_msgs set_boxes msgs]; by rewrite lookup_insert_ne by congruence.
    + intros r Hr. unfold sent. cbn [set_woken set_msgs set_boxes boxes]; by rewrite lookup_insert_ne by congruence.
  - by split.
Qed.

(** Taking the oldest message out of a box. *)
Lemma taken_spec mm bm I i o bl bi x w q ls p b : ipc_ok mm bm I → message mm I i MSG_SENDED o bl → mm !! i = Some q →
  bm !! bi = Some p → boxes I !! p = Some b → b_owner b = pr → b_state b = x → blk_thread b = w → msg_ls b = q :: ls →
  ∃ I', recv_rest pr p I = Ret (E_OK, Some i) I' ∧ ipc_ok mm bm I' ∧ message mm I' i MSG_RECIEVED pr bl ∧
    box bm I' bi pr BOX_RCVABLE w ls ∧ ipc_frame mm bm i bi I I' ∧ quiet_step I I'.
Proof.
  intros Hok (q' & m & Hi & Hq & Hst & Ho & Hid & Hbl & Hsz & Hby) Hi' Hp Hb Hbo Hbs Hbw Hls. simplify_eq.
  destruct (inv_box _ _ _ _ _ _ (ok_inv _ _ _ Hok) _ _ Hp) as (b' & ? & _ & _ & Hn & _). simplify_eq.
  exists (taken (b_owner b) q' p m b ls I). split_and!.
  - unfold recv_rest. rewrite Hb, Hls, Hq, Hn, Hls. done.
  - by eapply ok_taken.
  - eexists q', _. unfold taken. cbn [set_msgs set_boxes msgs blocks]. rewrite lookup_insert_eq. by split_and!.
  - eexists p, _. split; [done|]. split; [apply lookup_insert_eq|]. by split_and!.
  - split; [done| |]; intros r Hr; unfold taken; cbn [set_msgs set_boxes msgs boxes]; by rewrite lookup_insert_ne by congruence.
  - by split.
Qed.

Lemma wp_recieve others mm bm s i o bl bi w q ls (Q : Z * option Z → st → Prop) : ipc_ok mm bm (sv_ipc s) →
  message mm (sv_ipc s) i MSG_SENDED o bl → mm !! i = Some q → box bm (sv_ipc s) bi pr BOX_RCVABLE w (q :: ls) →
  (∀ I, ipc_ok mm bm I → message mm I i MSG_RECIEVED pr bl → box bm I bi pr BOX_RCVABLE w ls →
     ipc_frame mm bm i bi (sv_ipc s) I → quiet_step (sv_ipc s) I → Q (E_OK, Some i) (set_ipc I s)) →
  wp (recieve th pr others bi 1) Q s.
Proof.
  intros Hok Hm Hi (p & b & Hp & Hb & Hbo & Hbs & Hbw & Hls) HQ. destruct s as [I rt tab lk um]. cbn [sv_ipc] in *.
  destruct (inv_box _ _ _ _ _ _ (ok_inv _ _ _ Hok) _ _ Hp) as (b' & Hb' & _ & _ & Hn & _).
  rewrite Hb in Hb'. injection Hb' as <-.
  destruct (taken_spec mm bm I i o bl bi _ w q ls p b Hok Hm Hi Hp Hb Hbo Hbs Hbw Hls) as (I' & Hr & H1 & H2 & H3 & H4 & H5).
  unfold recieve. eapply wp_step.
  { unfold in_ipc, zoom. cbn [sv_ipc]. rewrite (run_recieve_enter _ _ _ _ _ _ _ Hok). unfold enter_result.
    rewrite Hp, Hb, Hbo, Z.eqb_refl, bool_decide_eq_false_2 by (by rewrite Hbs). cbn [negb].
    rewrite Hn, Hls. cbn [length]. rewrite (proj2 (Z.eqb_neq _ _)) by lia. reflexivity. }
  cbv beta iota. eapply wp_step; [done|]. unfold in_ipc, wp, zoom. cbn [sv_ipc set_ipc].
  rewrite (run_recieve_locked _ _ _ _ _ _ _ _ Hok Hp Hb Hbs), Hr. by apply HQ.
Qed.

(** Waiting at an empty box: before and after the others run. *)
Lemma recieve_waits mm bm s bi p b : ipc_ok mm bm (sv_ipc s) → bm !! bi = Some p → boxes (sv_ipc s) !! p = Some b →
  b_owner b = pr → b_state b = BOX_RCVABLE → msg_ls b = [] →
  in_ipc (recieve_enter th pr bi 1) s = Ret (inr (p, true)) (set_ipc (waiting th p b (sv_ipc s)) s) ∧
  ipc_ok mm bm (waiting th p b (sv_ipc s)) ∧ box bm (waiting th p b (sv_ipc s)) bi pr BOX_RCV_BLK th [].
Proof.
  intros Hok Hp Hb Hbo Hbs Hls.
  destruct (inv_box _ _ _ _ _ _ (ok_inv _ _ _ Hok) _ _ Hp) as (b' & Hb' & _ & _ & Hn & _).
  rewrite Hb in Hb'. injection Hb' as <-. split_and!.
  - unfold in_ipc, zoom. rewrite (run_recieve_enter _ _ _ _ _ _ _ Hok). unfold enter_result.
    rewrite Hp, Hb, Hbo, Z.eqb_refl, bool_decide_eq_false_2 by (by rewrite Hbs). cbn [negb].
    rewrite Hn, Hls. done.
  - by eapply ok_waiting.
  - eexists p, _. split; [done|]. split; [apply lookup_insert_eq|]. by split_and!.
Qed.

Lemma wp_recieve_woken mm bm s bi x w q ls i o bl p b (Q : Z * option Z → st → Prop) : ipc_ok mm bm (sv_ipc s) →
  message mm (sv_ipc s) i MSG_SENDED o bl → mm !! i = Some q → bm !! bi = Some p → boxes (sv_ipc s) !! p = Some b →
  b_owner b = pr → b_state b = x → blk_thread b = w → msg_ls b = q :: ls →
  (∀ I, ipc_ok mm bm I → message mm I i MSG_RECIEVED pr bl → quiet_step (sv_ipc s) I → Q (E_OK, Some i) (set_ipc I s)) →
  wp (in_ipc (recieve_leave th pr p true)) Q s.
Proof.
  intros Hok Hm Hi Hp Hb Hbo Hbs Hbw Hls HQ.
  destruct (taken_spec mm bm _ i o bl bi x w q ls p b Hok Hm Hi Hp Hb Hbo Hbs Hbw Hls) as (I' & Hr & H1 & H2 & H3 & H4 & H5).
  unfold in_ipc. apply wp_zoom. unfold wp. rewrite (run_recieve_woken _ _ _ _ _ _ _ Hok Hp), Hr. by apply HQ.
Qed.

(** The next number the allocator of the boxes gives fits in a word. *)
Definition next_id_u32 I : Prop :=
  ∀ p, wlp (id_new p) (λ r _, match snd r with Some i => is_u32 i | None => True end) (box_alct I).

Lemma newbox_u32 I : next_id_u32 I →
  wlp (msg_newbox th pr junk) (λ r _, match snd r with Some i => is_u32 i | None => True end) I.
Proof.
  intros Hn. unfold msg_newbox. unfold alloc, wlp, bind at 1 2, get. destruct (kmalloc SZ_BOX (kheap I)) as [[e|p] k]; [done|].
  cbv beta iota. unfold put, ret at 1. unfold modify, bind at 1.
  match goal with |- match ?c ?x with _ => _ end => change (wlp c (λ r _, match snd r with Some i => is_u32 i | None => True end) x) end.
  apply wlp_bind. eapply wlp_step; [apply run_lock_box; [apply lookup_insert_eq|done]|].
  apply wlp_bind, wlp_zoom. eapply wlp_mono; [apply Hn|]. intros [e [i|]] a Hi; cbn [snd] in Hi.
  - repeat (apply wlp_bind, wlp_always; intros). by apply wlp_ret.
  - apply wlp_bind, wlp_always. intros. by apply wlp_ret.
Qed.

Lemma wlp_newbox_u32 mm bm s (Q : Z * option Z → st → Prop) : ipc_ok mm bm (sv_ipc s) → next_id_u32 (sv_ipc s) →
  (∀ r I, newbox_post pr mm bm (sv_ipc s) r I → quiet_step (sv_ipc s) I →
     match snd r with Some i => is_u32 i | None => True end → Q r (set_ipc I s)) →
  wlp (in_ipc (msg_newbox th pr junk)) Q s.
Proof.
  intros Hok Hn HQ. apply wlp_in_ipc. eapply wlp_mono.
  { apply wlp_and; [apply wlp_and; [by apply wlp_msg_newbox|apply quiet_newbox]|by apply newbox_u32]. }
  intros r I [[Hr Hq] Hi]. by apply HQ.
Qed.
End ops.
