(* ===== verification/SrvUser.v ===== *)
(** * The answering side in user space: usr/lib/srv.c *)
From S2P Require Import Prelude Machine Cstring Words Srv SrvPack SrvMsg.

(** The stores of [srv_reply] of usr/lib/srv.c into the structure it has got from
    [malloc]; [arg] is the address of the first of the pairs of words after [narg]. *)
Definition fill_body (replyer arg narg : Z) (i : Z) : M mem (Z + unit) :=
  if i <? narg then
    a <- rdw (par_ad arg i) ;; wrw (add32 replyer (srv_replyer_t.ad i)) a ;;;
    z <- rdw (par_sz arg i) ;; wrw (add32 replyer (srv_replyer_t.sz i)) z ;;;
    ret (inl (i + 1))
  else ret (inr tt).
Definition reply_fill (replyer sid err narg arg : Z) : M mem unit :=
  wrw (add32 replyer srv_replyer_t.narg) narg ;;;
  wrw (add32 replyer srv_replyer_t.err) err ;;;
  wrw (add32 replyer srv_replyer_t.sid) sid ;;;
  loop (S (Z.to_nat narg)) (fill_body replyer arg narg) 0.

Section fill.
Context (bad : Z → Prop) (m0 : mem) (rp e sid arg : Z) (args : list (list Z)).
Context (Hrp : 0 ≤ rp ∧ rp + 92 < W32) (Hn : (length args ≤ 10)%nat) (Hu : is_u32 e ∧ is_u32 sid).
Context (Hbad : ∀ x, bad x → ¬ (rp ≤ x < rp + 92)).
Abbreviation bad' := (λ x, bad x ∨ rp ≤ x < rp + 92).

Record filled_to (i : nat) (m : mem) : Prop := {
  ft_args : args_at m bad' (par_ad arg) (par_sz arg) args;
  ft_only : only rp 92 m0 m;
  ft_head : word m rp e ∧ word m (rp + 4) sid ∧ word m (rp + 8) (len args);
  ft_pairs : ∀ j l, (j < i)%nat → args !! j = Some l → ∃ a, word m (rp + 52 + 4 * Z.of_nat j) a ∧
    word m (rp + 12 + 4 * Z.of_nat j) (len l) ∧ holds m a l ∧ 0 ≤ a ∧ a + len l < W32 ∧
    ∀ x, bad' x → ¬ (a ≤ x < a + len l);
}.

(** A store into the arrays of the structure. *)
Lemma fill_store i m v a : filled_to i m → mapped m0 rp 92 → rp + 12 ≤ a → a + 4 ≤ rp + 92 →
  (∀ j, (j < i)%nat → (rp + 12 + 4 * Z.of_nat j + 4 ≤ a ∨ a + 4 ≤ rp + 12 + 4 * Z.of_nat j) ∧
     (rp + 52 + 4 * Z.of_nat j + 4 ≤ a ∨ a + 4 ≤ rp + 52 + 4 * Z.of_nat j)) →
  wp (wrw a v) (λ _ m', filled_to i m' ∧ word m' a v ∧ only a 4 m m') m.
Proof using All.
  intros [G1 G2 (G3 & G4 & G5) G6] Hm Ha1 Ha2 Hd.
  apply wp_wrw; [intros x Hx; apply (only_mapped _ _ _ _ _ _ G2 Hm); lia|lia|lia|]. intros m' Hw Ho.
  split; [|done]. split.
  - eapply args_at_only; [exact G1|exact Ho|]. intros x Hx. right. lia.
  - eapply only_trans; [exact G2|exact Ho|lia..].
  - split_and!; (eapply only_holds; [exact Ho|done|cbn [length bytes4]; lia]).
  - intros j l Hj Hl. destruct (G6 j l Hj Hl) as (b & W1 & W2 & W3 & W4 & W5 & W6). destruct (Hd j Hj). exists b.
    split_and!; [| | |done|done|done].
    + eapply only_holds; [exact Ho|done|cbn [length bytes4]; lia].
    + eapply only_holds; [exact Ho|done|cbn [length bytes4]; lia].
    + eapply only_holds_at; [exact Ho|done|]. intros x Hx. apply W6. right. lia.
Qed.

Lemma fill_step i l m (Q : Z + unit → mem → Prop) : filled_to i m → mapped m0 rp 92 → args !! i = Some l →
  (∀ m', filled_to (S i) m' → Q (inl (Z.of_nat (S i))) m') → wp (fill_body rp arg (len args) (Z.of_nat i)) Q m.
Proof using All.
  intros HF Hm Hl HQ. pose proof (lookup_lt_Some _ _ _ Hl) as Hi. unfold fill_body. rewrite (proj2 (Z.ltb_lt _ _)) by lia.
  destruct (ft_args _ _ HF i l Hl) as (a & Ha). pose proof (aa_a _ _ _ _ _ _ Ha) as [Ha1 Ha2].
  unfold srv_replyer_t.ad, srv_replyer_t.sz. rewrite (add32_small rp (52 + 4 * Z.of_nat i)), (add32_small rp (12 + 4 * Z.of_nat i)) by lia.
  apply wp_bind. eapply wp_rdw; [apply Ha|unfold is_u32; lia|apply Ha|apply Ha|].
  apply wp_bind. eapply wp_mono; [apply (fill_store i m a (rp + (52 + 4 * Z.of_nat i)) HF Hm); [lia|lia|intros j Hj; lia]|].
  intros [] m1 (HF1 & Hw1 & Ho1).
  assert (arg_at m1 bad' (par_ad arg (Z.of_nat i)) (par_sz arg (Z.of_nat i)) a l) as Ha'.
  { eapply arg_at_only; [exact Ha|exact Ho1|]. intros x Hx. right. lia. }
  apply wp_bind. eapply wp_rdw; [apply Ha'|unfold is_u32; lia|apply Ha'|apply Ha'|].
  apply wp_bind. eapply wp_mono; [apply (fill_store i m1 (len l) (rp + (12 + 4 * Z.of_nat i)) HF1 Hm); [lia|lia|intros j Hj; lia]|].
  intros [] m2 (HF2 & Hw2 & Ho2). apply wp_ret. replace (Z.of_nat i + 1) with (Z.of_nat (S i)) by lia. apply HQ.
  destruct HF2 as [G1 G2 G3 G4]. split; [done|done|done|]. intros j k Hj Hk.
  destruct (decide (j = i)) as [->|]; [|by apply G4; [lia|]]. assert (k = l) as -> by congruence. exists a.
  replace (rp + 52 + 4 * Z.of_nat i) with (rp + (52 + 4 * Z.of_nat i)) by lia.
  replace (rp + 12 + 4 * Z.of_nat i) with (rp + (12 + 4 * Z.of_nat i)) by lia. split_and!; [|done| |done|done|].
  - eapply only_holds; [exact Ho2|exact Hw1|cbn [length bytes4]; lia].
  - eapply only_holds_at; [exact Ho2|apply Ha'|]. intros x Hx. apply (aa_clear _ _ _ _ _ _ Ha). right. lia.
  - intros x Hx. by apply (aa_clear _ _ _ _ _ _ Ha).
Qed.

Lemma reply_fill_spec : args_at m0 bad' (par_ad arg) (par_sz arg) args → mapped m0 rp 92 →
  wp (reply_fill rp sid e (len args) arg) (λ _ m', only rp 92 m0 m' ∧ ∃ szs, replyer_at m' bad rp e sid args szs) m0.
Proof using All.
  intros Ha Hm. unfold reply_fill, srv_replyer_t.narg, srv_replyer_t.err, srv_replyer_t.sid.
  rewrite (add32_small rp 8), (add32_small rp 0), (add32_small rp 4), Z.add_0_r by lia.
  apply wp_bind, wp_wrw; [intros x Hx; apply Hm; lia|lia|lia|]. intros m1 Hw1 Ho1.
  apply wp_bind, wp_wrw; [intros x Hx; apply (only_mapped _ _ _ _ _ _ Ho1 Hm); lia|lia|lia|]. intros m2 Hw2 Ho2.
  pose proof (only_mapped _ _ _ _ _ _ Ho2 (only_mapped _ _ _ _ _ _ Ho1 Hm)) as Hm2.
  apply wp_bind, wp_wrw; [intros x Hx; apply Hm2; lia|lia|lia|]. intros m3 Hw3 Ho3.
  assert (only rp 92 m0 m3) as Ho.
  { eapply only_seq; [eapply only_wider; [exact Ho1|lia..]|eapply only_seq; [eapply only_wider; [exact Ho2|lia..]|eapply only_wider; [exact Ho3|lia..]]]. }
  rewrite Nat2Z.id.
  apply (wp_loop (λ k v m', ∃ i, (i ≤ length args)%nat ∧ k = (length args - i)%nat ∧ v = Z.of_nat i ∧ filled_to i m')) with (n := length args); [|lia|].
  - intros k v m' (i & Hi & -> & -> & HF). destruct (decide (i < length args)%nat) as [Hlt|].
    + destruct (lookup_lt_is_Some_2 args i Hlt) as [l Hl]. eapply fill_step; [exact HF|done|exact Hl|]. intros m'' HF'.
      exists (length args - S i)%nat. split; [lia|]. exists (S i). split_and!; [lia|done..].
    + assert (i = length args) as -> by lia. unfold fill_body. rewrite Z.ltb_irrefl. apply wp_ret.
      destruct HF as [G1 G2 (G3 & G4 & G5) G6]. split; [done|].
      destruct (mapped_holds m' (rp + 12) 40) as (szs & Hsz & Hh).
      { intros x Hx. apply (only_mapped _ _ _ _ _ _ G2 Hm). lia. }
      exists szs. split; try done; [|tauto]. intros i l Hl. pose proof (lookup_lt_Some _ _ _ Hl).
      destruct (G6 i l ltac:(lia) Hl) as (a & W1 & W2 & W3 & W4 & W5 & W6). exists a. unfold srv_replyer_t.ad, srv_replyer_t.sz.
      rewrite !add32_small by lia. rewrite !Z.add_assoc. split; try done; try lia. intros x Hx.
      split_and!; [intros Hx'; apply (Hbad x Hx); lia|intros Hx'; apply (Hbad x Hx); lia|]. apply W6. by left.
  - exists 0%nat. split_and!; [lia|lia|done|]. split; [|done| |lia].
    + eapply args_at_only; [exact Ha|exact Ho|]. intros x Hx. by right.
    + split_and!; [|done|]; (eapply only_holds; [exact Ho3| |cbn [length bytes4]; lia]); [done|].
      eapply only_holds; [exact Ho2|exact Hw1|cbn [length bytes4]; lia].
Qed.
End fill.
