(* ===== verification/FsSrv.v ===== *)
(** * The services of the file server: usr/fssrv/service.c and usr/fssrv/init.c

    A handler runs in a thread of its own: it takes the request that [srv_called] has put
    at [args] (usr/include/srv.h), calls the file system, and answers with [srv_reply] of
    usr/lib/srv.c, whose arguments are pushed on the thread's stack at [arg]. The system
    calls that give something away are events, each with the memory the kernel sees then:
    what the kernel makes of the structure it is given is [Srv.srv_reply]. *)
From S2P Require Import Prelude Machine Kmalloc RbtModel RbtTree Cstring Words Blocks Names Srv SrvPack SrvMsg SrvUser Fs FsPath FsTree FsSpec FsProps.

Inductive event := Reply (rp : Z) (m : mem) | Exit.
Record service (H : Type) := Service { v_fs : fs H; v_calls : list event }.
Arguments Service {H}.
Arguments v_fs {H}.
Arguments v_calls {H}.

Section code.
Context {H : Type} `{Kmalloc H}.
(** As in Fs; what SYS_srv_reply returns. *)
Context (fall : Z → Z) (junk : Z) (answer : Z → mem → Z).
Abbreviation M := (Prelude.M (service H)).

Definition set_fs (x : fs H) (s : service H) : service H := Service x (v_calls s).
Definition on_fs {B} (c : Prelude.M (fs H) B) : M B := zoom v_fs set_fs c.
Definition on_bytes {B} (c : Prelude.M mem B) : M B := on_fs (Fs.in_mem c).
Definition sys_srv_reply (rp : Z) : M Z := s <- get ;;
  put (Service (v_fs s) (v_calls s ++ [Reply rp (f_mem (v_fs s))])) ;;; ret (answer rp (f_mem (v_fs s))).
Definition thread_exit : M unit := modify (λ s, Service (v_fs s) (v_calls s ++ [Exit])).

(** Pairs of words on the stack. *)
Fixpoint push (arg : Z) (l : list (Z * Z)) : Prelude.M mem unit :=
  match l with
  | [] => ret tt
  | (a, z) :: l => wrw arg a ;;; wrw (add32 arg 4) z ;;; push (add32 arg 8) l
  end.
Definition SZ_REPLYER : Z := 92.
Definition srv_reply (arg sid err : Z) (l : list (Z * Z)) : M Z :=
  on_bytes (push arg l) ;;;
  r <- on_fs (malloc SZ_REPLYER) ;;
  match r with
  | inl err => ret err
  | inr rp => on_bytes (reply_fill rp sid err (len l) arg) ;;; sys_srv_reply rp
  end.

Definition callee_sid (args : Z) : M Z := on_bytes (rdw (add32 args srv_callee_t.sid)).
Definition callee_sz (args i : Z) : M Z := on_bytes (rdw (add32 args (srv_callee_t.sz i))).
Definition callee_cache (args : Z) : M Z := on_bytes (rdw (add32 args srv_callee_t.cache)).
(** The end of a handler: the results are replied if there is no error. *)
Definition finish (arg args err : Z) (o : option (Z * Z)) : M unit :=
  (if err =? E_OK then
     x <- deref o ;; sid <- callee_sid args ;; srv_reply arg sid err [x]
   else sid <- callee_sid args ;; srv_reply arg sid err []) ;;;
  thread_exit.
Definition done_with (arg args err : Z) : M unit :=
  (sid <- callee_sid args ;; srv_reply arg sid err []) ;;; thread_exit.

Definition service_read_hdl (arg args : Z) : M unit :=
  path <- callee_cache args ;; r <- on_fs (file_read fall path) ;; finish arg args (fst r) (snd r).
Definition service_write_hdl (arg args : Z) : M unit :=
  path <- callee_cache args ;; c <- callee_cache args ;; n <- callee_sz args 0 ;; z <- callee_sz args 1 ;;
  err <- on_fs (file_write fall path (add32 c n) z) ;; done_with arg args err.
Definition service_create_hdl (arg args : Z) : M unit :=
  path <- callee_cache args ;; err <- on_fs (file_create fall junk path NULL NULL) ;; done_with arg args err.
Definition service_delete_hdl (arg args : Z) : M unit :=
  path <- callee_cache args ;; err <- on_fs (file_delete fall path) ;; done_with arg args err.
Definition service_subfile_hdl (arg args : Z) : M unit :=
  path <- callee_cache args ;; r <- on_fs (file_subfile fall path) ;; finish arg args (fst r) (snd r).
Definition service_find_hdl (arg args : Z) : M unit :=
  path <- callee_cache args ;; r <- on_fs (file_find fall path) ;; done_with arg args (fst r).

(** The other system calls; where the string "fssrv/" is. *)
Context (srv_called : Z → Z → M Z) (thread_create : Z → list Z → M Z) (s_fssrv : Z).
Definition SZ_CALLEE : Z := 56.
(** [service_listen] before its loop. *)
Definition service_name (subsrv : Z) : M Z :=
  n <- on_bytes (strlen s_fssrv) ;; k <- on_bytes (strlen subsrv) ;;
  r <- on_fs (malloc (add32 (add32 n k) 1)) ;;
  match r with
  | inl _ => panic
  | inr service =>
      on_bytes (n <- strlen s_fssrv ;; strcpy service s_fssrv n ;;;
        n <- strlen s_fssrv ;; k <- strlen subsrv ;; strcpy (add32 service n) subsrv k ;;;
        n <- strlen s_fssrv ;; k <- strlen subsrv ;; wr (add32 (add32 service n) k) 0) ;;;
      ret service
  end.
(** A turn of its loop: the request at [called] is copied for a thread of its own. *)
Definition listen_turn (service routine called : Z) : M unit :=
  err <- srv_called service called ;;
  if negb (err =? E_OK) then panic else
  r <- on_fs (malloc SZ_CALLEE) ;;
  match r with
  | inl _ => panic
  | inr callee =>
      on_bytes (memcpy callee called SZ_CALLEE) ;;;
      err <- thread_create routine [callee] ;;
      if err =? E_OK then ret tt else panic
  end.
(** The names of the services and the routines of their threads, in order. *)
Definition service_enable (service_listen : Z) (l : list (Z * Z)) : M unit :=
  foldr (λ x rest, err <- thread_create service_listen [fst x; snd x] ;; if negb (err =? E_OK) then panic else rest) thread_exit l.

(** init.c: the image between [start] and [finish]. *)
Definition SZ_INIT_FILE : Z := 36.
Definition load_file_body (image_end : Z) (file : Z) : M (Z + unit) :=
  if file <? image_end then
    z <- on_bytes (rdw (add32 file 32)) ;;
    on_fs (file_create fall junk file (add32 file SZ_INIT_FILE) z) ;;;
    on_fs (file_find fall file) ;;;
    z <- on_bytes (rdw (add32 file 32)) ;; ret (inl (add32 (add32 file z) SZ_INIT_FILE))
  else ret (inr tt).
Definition load_file (fuel : nat) (image image_end : Z) : M unit := loop fuel (load_file_body image_end) image.
Context (srv_register : Z → Z → M Z).
Definition init (fuel : nat) (names : list (Z * Z)) (root image image_end : Z) : M Z :=
  foldr (λ x rest, srv_register (fst x) (snd x) ;;; rest) (ret 0) names ;;;
  on_fs (init_root junk root) ;;;
  load_file fuel image image_end ;;;
  ret 0.
End code.

(** ** What a client sees *)
Fixpoint fits {H} `{Kmalloc H} (l : list Z) (h : H) : Prop :=
  match l with [] => True | z :: l => match kmalloc z h with (inr _, h') => fits l h' | (inl _, _) => False end end.

(** [m] at a heap [h], later: only the heap's bytes and the stacks' have changed. *)
Record serv_step {H} `{HeapBytes H} (stack : Z → Prop) (h : H) (m : mem) (h' : H) (m' : mem) : Prop := {
  ss_same : ∀ x, ¬ km_free h x → ¬ stack x → m' !! x = m !! x;
  ss_free : ∀ x, km_free h' x → km_free h x;
  ss_mapped : ∀ x, is_Some (m !! x) → is_Some (m' !! x);
  ss_bytes : all_bytes m → all_bytes m';
}.

Section spec.
Context {H : Type} {HM : Kmalloc H} {HK : KmallocLaws H} {HB : HeapBytes H} {HBL : HeapBytesLaws H}.
Context (fall : Z → Z) (junk : Z) (answer : Z → mem → Z) (stack : Z → Prop).
Implicit Types (σ : fs H) (s : service H) (kids : Z → tree) (nm : Z → list Z).
Abbreviation apart a n := (∀ x, a ≤ x < a + n → ¬ stack x).
Abbreviation step := (serv_step stack).

Lemma serv_step_refl h m : step h m h m.
Proof. by split. Qed.
Lemma serv_step_trans h1 m1 h2 m2 h3 m3 : step h1 m1 h2 m2 → step h2 m2 h3 m3 → step h1 m1 h3 m3.
Proof.
  intros [A1 A2 A3 A4] [B1 B2 B3 B4]. split; [|by auto|by auto|by auto].
  intros x Hx Hs. rewrite B1 by (try done; by intros ?%A2). by apply A1.
Qed.
Lemma heap_serv_step h m h' m' : heap_step h m h' m' → step h m h' m'.
Proof. intros [A1 A2 A3 A4]. split; auto. Qed.
Lemma stack_serv_step h m m' a n : only a n m m' → (∀ x, a ≤ x < a + n → stack x) → step h m h m'.
Proof.
  intros [A1 A2 A3] Hs. split; [|done|done|done]. intros x _ Hx. apply A1.
  destruct (decide (a ≤ x < a + n)) as [Hin|]; [by destruct Hx; apply Hs|lia].
Qed.
Lemma serv_step_holds h m h' m' a l : step h m h' m' → outside h a (len l) → apart a (len l) → holds m a l → holds m' a l.
Proof.
  intros Hs Ho Ha Hl i b Hi. pose proof (lookup_lt_Some _ _ _ Hi).
  rewrite (ss_same _ _ _ _ _ Hs); [by apply Hl|apply Ho; lia|apply Ha; lia].
Qed.
Lemma serv_step_outside h m h' m' a n : step h m h' m' → outside h a n → outside h' a n.
Proof. intros Hs Ho x Hx Hf. by apply (Ho x), (ss_free _ _ _ _ _ Hs). Qed.

(** The state between two handlers. *)
Record served kids nm σ : Prop := {
  sd_ok : fs_ok kids nm σ;
  sd_stack : (∀ x, stack x → is_Some (f_mem σ !! x) ∧ 0 ≤ x < KERN_BASE ∧ ¬ km_free (f_heap σ) x);
  sd_heap : ∀ x, km_free (f_heap σ) x → x < KERN_BASE;
  sd_names : ∀ p q, is_Some (f_files σ !! p) → q ∈ elems (kids p) → apart (add32 q OFF_NAME) (len (nm q) + 1);
}.

Lemma served_step kids nm m h F N rt m' h' : served kids nm (Fs m h F N rt) → step h m h' m' → (km_live h ⊆ km_live h') →
  served kids nm (Fs m' h' F N rt).
Proof.
  intros [[O1 O2 O3 O4 O5] S1 S2 S3] Hs Hl. cbn [f_mem f_heap f_files f_nodes root_file] in *. split; cbn [f_mem f_heap f_files f_nodes root_file]; [split; cbn [f_mem f_heap f_files f_nodes root_file]| | |].
  - destruct O1 as [Hm Hb]. split; [|by apply (ss_bytes _ _ _ _ _ Hs)]. intros x Hx. apply (ss_mapped _ _ _ _ _ Hs), Hm. by apply (ss_free _ _ _ _ _ Hs).
  - intros p x Hp. destruct (O2 p x Hp) as (? & ?). split; [by apply Hl|done].
  - intros p q Hp Hq. destruct (O3 p q Hp Hq) as (? & [C1 C2 C3] & Ho & ?). split; [done|]. split; [|split; [by eapply serv_step_outside|done]].
    assert (len (nm q ++ [0]) = len (nm q) + 1) as Hlen by (rewrite length_app; cbn [length]; lia).
    split; [|done|done]. eapply serv_step_holds; [exact Hs|by rewrite Hlen|rewrite Hlen; by apply (S3 p)|exact C1].
  - done.
  - done.
  - intros x Hx. destruct (S1 x Hx) as (? & ? & Hf). split_and!; [by apply (ss_mapped _ _ _ _ _ Hs)|lia..|]. intros Hx'. by apply Hf, (ss_free _ _ _ _ _ Hs).
  - intros x Hx. by apply S2, (ss_free _ _ _ _ _ Hs).
  - done.
Qed.

(** The results of a reply: nothing, or the bytes [d] at [a]. *)
Definition pair_of (o : option (Z * list Z)) : list (Z * Z) := match o with Some (a, d) => [(a, len d)] | None => [] end.
Definition part_of (o : option (Z * list Z)) : list (list Z) := match o with Some (_, d) => [d] | None => [] end.
Abbreviation high := (λ x, KERN_BASE ≤ x).

Lemma push_spec m arg o : mapped m arg 8 → 0 ≤ arg → arg + 8 ≤ KERN_BASE →
  wp (push arg (pair_of o)) (λ _ m1, only arg 8 m m1 ∧
    ∀ a d, o = Some (a, d) → word m1 arg a ∧ word m1 (arg + 4) (len d)) m.
Proof.
  intros Hm H0 H8. assert (KERN_BASE < W32) as HKB by done. destruct o as [[a d]|]; cbn [pair_of push].
  2:{ apply wp_ret. split; [apply only_refl|done]. }
  rewrite add32_small by lia. apply wp_bind, wp_wrw; [intros x Hx; apply Hm; lia|lia|lia|]. intros m1 W1 O1.
  apply wp_bind, wp_wrw; [intros x Hx; apply (on_mapped _ _ _ _ O1), Hm; lia|lia|lia|]. intros m2 W2 O2. apply wp_ret. split.
  - eapply only_seq; eapply only_wider; [exact O1|lia|lia|exact O2|lia|lia].
  - intros a' d' [= <- <-]. split; [|done]. eapply only_holds; [exact O2|exact W1|cbn [length bytes4]; lia].
Qed.

Lemma srv_reply_spec kids nm arg sid e o m h F N rt calls h' rp : served kids nm (Fs m h F N rt) →
  (∀ x, arg ≤ x < arg + 8 → stack x) → is_u32 e → is_u32 sid →
  (∀ a d, o = Some (a, d) → holds m a d ∧ outside h a (len d) ∧ apart a (len d) ∧ 0 ≤ a ∧ a + len d ≤ KERN_BASE) →
  kmalloc SZ_REPLYER h = (inr rp, h') →
  wp (srv_reply answer arg sid e (pair_of o)) (λ _ s', ∃ m' szs, s' = Service (Fs m' h' F N rt) (calls ++ [Reply rp m']) ∧
    served kids nm (Fs m' h' F N rt) ∧ step h m h' m' ∧ replyer_at m' high rp e sid (part_of o) szs)
    (Service (Fs m h F N rt) calls).
Proof.
  intros Hsd Harg He Hsid Ho Hk. assert (KERN_BASE < W32) as HKB by done. pose proof (sd_stack _ _ _ Hsd) as Hst. cbn [f_mem f_heap] in Hst.
  destruct (Hst arg) as (_ & Ha0 & _); [apply Harg; lia|]. destruct (Hst (arg + 7)) as (_ & Ha7 & _); [apply Harg; lia|].
  destruct (fo_mem _ _ _ (sd_ok _ _ _ Hsd)) as [Hmap Hby]. cbn [f_mem f_heap] in Hmap, Hby.
  unfold srv_reply, on_bytes, on_fs. apply wp_bind, wp_zoom, wp_in_mem. cbn [v_fs].
  eapply wp_mono; [apply push_spec; [intros x Hx; by apply Hst, Harg|lia|lia]|]. intros _ m1 [O1 Hp].
  unfold set_fs. cbn [v_fs v_calls f_heap f_files f_nodes root_file].
  assert (step h m h m1) as S1 by (by eapply stack_serv_step).
  apply wp_bind, wp_zoom. unfold wp at 1. cbn [v_fs]. rewrite run_malloc. cbn [f_heap f_mem f_files f_nodes root_file v_fs]. rewrite Hk. cbn [fst snd].
  assert (heap_mapped h m1) as Hmap1 by (intros x Hx; by apply (ss_mapped _ _ _ _ _ S1), Hmap).
  destruct (heap_alloc SZ_REPLYER h rp h' m1 Hk ltac:(done) Hmap1) as (Hrm & Hro & Hrw & _). destruct (kmalloc_ok _ _ _ _ Hk) as ([Hr0 _] & _ & Hlive).
  destruct (heap_ok _ _ _ _ Hk ltac:(done)) as (_ & Hrf & _). unfold SZ_REPLYER in *.
  assert (∀ x, rp ≤ x < rp + 92 → x < KERN_BASE ∧ ¬ (arg ≤ x < arg + 8)) as Hrk.
  { intros x Hx. pose proof (Hrf x Hx) as Hf. split; [by apply (sd_heap _ _ _ Hsd)|]. intros Hx'. by apply (Hst x (Harg x Hx')). }
  apply wp_bind, wp_zoom, wp_in_mem. unfold set_fs, set_heap. cbn [v_fs v_calls f_mem f_heap f_files f_nodes root_file].
  assert (len (pair_of o) = len (part_of o)) as -> by (by destruct o as [[a d]|]).
  eapply wp_mono.
  { apply (reply_fill_spec high m1 rp e sid arg (part_of o)); [lia|by destruct o as [[a d]|]; simpl; lia|done|intros x Hx Hx'; destruct (Hrk x Hx'); lia| |done].
    intros i l Hi. destruct o as [[a d]|]; [|done]. destruct i as [|i]; [|done]. injection Hi as <-. exists a.
    destruct (Ho a d eq_refl) as (D1 & D2 & D3 & D4 & D5). destruct (Hp a d eq_refl) as [P1 P2].
    unfold par_ad, par_sz. change (8 * Z.of_nat 0) with 0. rewrite !add32_small, Z.add_0_r by lia. rewrite Z.add_0_l.
    split; try done; try lia.
    - eapply only_holds_at; [exact O1|exact D1|]. intros x Hx Hx'. by apply (D3 x Hx'), Harg.
    - intros x [Hx|Hx]; [lia|]. destruct (Hrk x Hx) as [_ Hna]. split_and!; [lia|lia|]. intros Hx'. by apply (D2 x Hx'), Hrf. }
  intros _ m2 (O2 & szs & Hr). unfold sys_srv_reply. apply wp_bind, wp_get, wp_bind, wp_put, wp_ret. cbn [v_fs v_calls f_mem f_heap f_files f_nodes root_file].
  exists m2, szs. split; [done|].
  assert (step h m h' m2) as S2.
  { eapply serv_step_trans; [exact S1|]. apply heap_serv_step. eapply (heap_write 92); [exact Hk|done|exact O2|lia|lia]. }
  split_and!; [|done|done]. eapply served_step; [exact Hsd|exact S2|]. set_solver.
Qed.

(** A request at [args], as [srv_called] leaves it: its parts one after the other. *)
Record request m (h : H) (args sid b : Z) (parts : list (list Z)) : Prop := {
  rq_sid : word m args sid ∧ is_u32 sid;
  rq_cache : word m (args + 52) b;
  rq_sizes : ∀ i l, parts !! i = Some l → (i < 10)%nat ∧ word m (args + 12 + 4 * Z.of_nat i) (len l);
  rq_data : holds m b (concat parts);
  rq_place : 0 ≤ args ∧ args + 56 ≤ KERN_BASE ∧ 0 ≤ b ∧ b + total parts ≤ KERN_BASE;
  rq_out : outside h args 56 ∧ outside h b (total parts);
  rq_apart : apart args 56 ∧ apart b (total parts);
}.

Lemma request_step m h m' h' args sid b parts : request m h args sid b parts → step h m h' m' → request m' h' args sid b parts.
Proof.
  intros [[R1 R1'] R2 R3 R4 R5 [R6 R7] [R8 R9]] Hs.
  assert (∀ o v, 0 ≤ o → o + 4 ≤ 56 → word m (args + o) v → word m' (args + o) v) as Hw.
  { intros o v H1 H2. apply serv_step_holds with h h'; [done|intros x Hx; apply R6|intros x Hx; apply R8]; cbn [length bytes4] in Hx; lia. }
  split; [|apply Hw; [lia|lia|done]| | |done| |done].
  - split; [|done]. pose proof (Hw 0 sid) as H0. rewrite Z.add_0_r in H0. apply H0; (done || lia).
  - intros i l Hi. destruct (R3 i l Hi). split; [done|]. rewrite <- Z.add_assoc. apply Hw; [lia|lia|]. by rewrite Z.add_assoc.
  - by eapply serv_step_holds.
  - split; by eapply serv_step_outside.
Qed.

(** Reading a field of it. *)
Lemma wp_field {B} off v args (k : Z → M (service H) B) Q s : word (f_mem (v_fs s)) (args + off) v → is_u32 v → 0 ≤ args → 0 ≤ off →
  args + off + 4 ≤ KERN_BASE → wp (k v) Q s → wp (x <- on_bytes (rdw (add32 args off)) ;; k x) Q s.
Proof.
  intros Hw Hv H0 H1 H2 HQ. assert (KERN_BASE < W32) by done. rewrite add32_small by lia. unfold on_bytes, on_fs. destruct s as [[m h F N rt] cs].
  apply wp_bind, wp_zoom, wp_in_mem. eapply wp_rdw; [exact Hw|done|lia|lia|exact HQ].
Qed.

Lemma request_path σ args sid b l parts t h' : request (f_mem σ) (f_heap σ) args sid b ((SLASH :: l ++ [0]) :: parts) →
  Forall (λ c, 0 < c < 256) l → 2 * len l + 3 < W32 → kmalloc (cut_len l) (f_heap σ) = (inr t, h') → fall t = t →
  path_at fall σ b l t h'.
Proof.
  intros [R1 R2 R3 R4 R5 R6 R7] Hl Hlen Hk Hf. assert (KERN_BASE < W32) by done.
  cbn [concat] in R4. apply holds_app in R4 as [R4 _].
  unfold total in *. cbn [concat] in *. rewrite length_app in *. cbn [length app] in *. rewrite length_app in *. cbn [length] in *.
  split; [|done| |done|done].
  - split; [exact R4|constructor; [done|done]|cbn [length]; lia].
  - intros x Hx. apply R6. lia.
Qed.

Lemma served_after kids nm σ h' σ' : served kids nm σ → after_find kids nm σ h' σ' → served kids nm σ' ∧ step (f_heap σ) (f_mem σ) h' (f_mem σ').
Proof.
  intros [_ S1 S2 S3] [A1 A2 [A3 <-] A4]. split; [|by apply heap_serv_step]. split; [done| | |].
  - intros x Hx. destruct (S1 x Hx) as (? & ? & Hf). split_and!; [by apply (hs_mapped _ _ _ _ A3)|lia..|].
    intros Hx'. by apply Hf, (hs_free _ _ _ _ A3).
  - intros x Hx. by apply S2, (hs_free _ _ _ _ A3).
  - intros p q Hp. by apply S3, A4.
Qed.

(** What a handler leaves: one reply, of [e] and [res], and the end of its thread. *)
Record handled kids nm s h' sid e (res : list (list Z)) s' : Prop := {
  hd_calls : ∃ rp m szs, v_calls s' = v_calls s ++ [Reply rp m; Exit] ∧ replyer_at m high rp e sid res szs;
  hd_served : served kids nm (v_fs s');
  hd_step : step (f_heap (v_fs s)) (f_mem (v_fs s)) (f_heap (v_fs s')) (f_mem (v_fs s')) ∧ f_heap (v_fs s') = h';
}.

(** The reply and the end of the thread. *)
Lemma reply_tail kids nm arg args sid b parts e o s s0 h1 h2 rp : served kids nm (v_fs s) → (∀ x, arg ≤ x < arg + 8 → stack x) → is_u32 e →
  request (f_mem (v_fs s)) (f_heap (v_fs s)) args sid b parts →
  (∀ a d, o = Some (a, d) → holds (f_mem (v_fs s)) a d ∧ outside (f_heap (v_fs s)) a (len d) ∧ apart a (len d) ∧ 0 ≤ a ∧ a + len d ≤ KERN_BASE) →
  f_heap (v_fs s) = h1 → kmalloc SZ_REPLYER h1 = (inr rp, h2) → v_calls s = v_calls s0 →
  step (f_heap (v_fs s0)) (f_mem (v_fs s0)) (f_heap (v_fs s)) (f_mem (v_fs s)) →
  wp (sid <- callee_sid args ;; srv_reply answer arg sid e (pair_of o)) (λ _ s1, wp thread_exit (λ _ s',
    handled kids nm s0 h2 sid e (part_of o) s' ∧ f_files (v_fs s') = f_files (v_fs s) ∧ root_file (v_fs s') = root_file (v_fs s)) s1) s.
Proof.
  intros Hsd Harg He Hrq Ho <- Hk Hc Hs0. destruct (rq_place _ _ _ _ _ _ Hrq) as (P1 & P2 & _). destruct (rq_sid _ _ _ _ _ _ Hrq) as [W1 W2].
  unfold callee_sid. eapply wp_field; [by rewrite Z.add_0_r|done|done|done|unfold srv_callee_t.sid; lia|].
  destruct s as [[m h F N rt] cs]. cbn [v_fs v_calls f_mem f_heap f_files f_nodes root_file] in *. subst cs.
  eapply wp_mono; [by apply (srv_reply_spec kids nm arg sid e o m h F N rt (v_calls s0) h2 rp)|].
  intros _ s1 (m' & szs & -> & S1 & S2 & Hr). apply wp_modify. cbn [v_fs v_calls f_mem f_heap f_files f_nodes root_file]. split; [|done].
  split; cbn [v_fs v_calls f_mem f_heap]; [|done|].
  - exists rp, m', szs. split; [by rewrite <- app_assoc|done].
  - split; [|done]. by eapply serv_step_trans.
Qed.

Abbreviation found kids nm s l := (bool_decide (is_Some (entry kids nm (v_fs s) (pieces l)))).
Abbreviation code b := (if b then E_OK else E_NOTFOUND).

Lemma wp_on_fs {A B} (c : Prelude.M (fs H) A) (k : A → M (service H) B) (Q : B → service H → Prop) s :
  wp c (λ a σ, wp (k a) Q (Service σ (v_calls s))) (v_fs s) → wp (a <- on_fs c ;; k a) Q s.
Proof. intros Hc. by apply wp_bind, wp_zoom. Qed.

Section handlers.
Context (arg args sid b : Z) (l : list Z) (kids : Z → tree) (nm : Z → list Z) (s : service H) (t rp : Z) (h1 h2 : H).
Hypothesis Hsd : served kids nm (v_fs s).
Hypothesis Harg : ∀ x, arg ≤ x < arg + 8 → stack x.
Hypothesis Hl : Forall (λ c, 0 < c < 256) l ∧ 2 * len l + 3 < W32.
Hypothesis Hk1 : kmalloc (cut_len l) (f_heap (v_fs s)) = (inr t, h1).
Hypothesis Hk2 : kmalloc SZ_REPLYER h1 = (inr rp, h2).
Hypothesis Hfall : fall t = t.

(** Writing keeps the address of the bytes of the request. *)
Lemma write_hdl_spec d : request (f_mem (v_fs s)) (f_heap (v_fs s)) args sid b [SLASH :: l ++ [0]; d] →
  wp (service_write_hdl fall answer arg args) (λ _ s', handled kids nm s h2 sid (code (found kids nm s l)) [] s' ∧
    ∀ v, entry kids nm (v_fs s') v = overwritten (pieces l) (b + (len l + 2)) (len d) v (entry kids nm (v_fs s) v)) s.
Proof.
  intros Hrq. assert (KERN_BASE < W32) as HKB by done. pose proof (rq_place _ _ _ _ _ _ Hrq) as (P1 & P2 & P3 & P4).
  destruct (rq_sizes _ _ _ _ _ _ Hrq 0 _ eq_refl) as [_ W0]. destruct (rq_sizes _ _ _ _ _ _ Hrq 1 _ eq_refl) as [_ W1].
  assert (len (SLASH :: l ++ [0]) = len l + 2) as L0 by (cbn [length]; rewrite length_app; cbn [length]; lia). rewrite L0 in W0.
  assert (total [SLASH :: l ++ [0]; d] = len l + 2 + len d) as Htot by (unfold total; cbn [concat]; rewrite app_nil_r, length_app, Nat2Z.inj_add, L0; done).
  rewrite Htot in P4. assert (∀ x, 0 ≤ x ≤ KERN_BASE → is_u32 x) as Hu by (unfold is_u32; intros; lia).
  unfold service_write_hdl, callee_cache, callee_sz, srv_callee_t.cache, srv_callee_t.sz.
  do 2 (eapply wp_field; [apply Hrq|apply Hu; lia|done|done|lia|]).
  eapply wp_field; [by rewrite Z.add_assoc|apply Hu; lia|done|done|lia|].
  eapply wp_field; [by rewrite Z.add_assoc|apply Hu; lia|done|done|lia|].
  rewrite add32_small by lia. apply wp_on_fs. eapply wp_mono.
  { eapply file_write_spec; [apply Hsd|eapply request_path; [exact Hrq|apply Hl|apply Hl|exact Hk1|exact Hfall]]. }
  intros err σ (Ha & -> & He). destruct (served_after _ _ _ _ _ Hsd Ha) as [Hsd' Hst]. pose proof (af_step _ _ _ _ _ Ha) as [_ <-].
  unfold done_with. assert (∀ e : option (TYPE * Z * Z), match e with Some _ => E_OK | None => E_NOTFOUND end = code (bool_decide (is_Some e))) as Hcode.
  { intros e. destruct e as [x|]; [by rewrite bool_decide_true by by eexists|by rewrite bool_decide_false by by intros []]. }
  rewrite Hcode.
  apply wp_bind. eapply wp_mono.
  { eapply (reply_tail kids nm arg args sid b _ (code (found kids nm s l)) None (Service σ (v_calls s)) s);
      [exact Hsd'|done|by case_bool_decide|by eapply request_step|done|done|exact Hk2|done|exact Hst]. }
  intros ? s1 Hw. eapply wp_mono; [exact Hw|]. cbn [v_fs]. intros _ s' (Hh & Hf & Hr). split; [done|].
  intros v. rewrite <- He. unfold entry. by rewrite Hf, Hr.
Qed.

(** Reading answers with the bytes that are at the address now. *)
Lemma read_hdl_spec d : request (f_mem (v_fs s)) (f_heap (v_fs s)) args sid b [SLASH :: l ++ [0]] →
  (∀ ty a z, entry kids nm (v_fs s) (pieces l) = Some (ty, a, z) → z = len d ∧ holds (f_mem (v_fs s)) a d ∧
     outside (f_heap (v_fs s)) a z ∧ apart a z ∧ 0 ≤ a ∧ a + z ≤ KERN_BASE) →
  wp (service_read_hdl fall answer arg args) (λ _ s', handled kids nm s h2 sid (code (found kids nm s l)) (if found kids nm s l then [d] else []) s' ∧
    ∀ v, entry kids nm (v_fs s') v = entry kids nm (v_fs s) v) s.
Proof.
  intros Hrq Hd. assert (KERN_BASE < W32) as HKB by done. pose proof (rq_place _ _ _ _ _ _ Hrq) as (P1 & P2 & P3 & P4).
  unfold service_read_hdl, callee_cache, srv_callee_t.cache.
  eapply wp_field; [apply Hrq|unfold is_u32, total in *; lia|done|done|lia|].
  apply wp_on_fs. eapply wp_mono; [eapply file_read_spec; [apply Hsd|eapply request_path; [exact Hrq|apply Hl|apply Hl|exact Hk1|exact Hfall]]|].
  intros r σ (Ha & He & ->). destruct (served_after _ _ _ _ _ Hsd Ha) as [Hsd' Hst]. pose proof (af_step _ _ _ _ _ Ha) as [_ <-].
  unfold finish. apply wp_bind.
  pose proof (λ e o He Ho, reply_tail kids nm arg args sid b _ e o (Service σ (v_calls s)) s _ h2 rp Hsd' Harg He (request_step _ _ _ _ _ _ _ _ Hrq Hst) Ho
    eq_refl Hk2 eq_refl Hst) as Htail.
  destruct (entry kids nm (v_fs s) (pieces l)) as [[[ty a] z]|]; cbn [fst snd].
  - rewrite bool_decide_true by by eexists. destruct (Hd ty a z eq_refl) as (-> & D1 & D2 & D3 & D4). apply wp_bind, wp_deref.
    exists (a, len d). split; [done|]. eapply wp_mono; [apply (Htail E_OK (Some (a, d))); [done|]|].
    + intros a' d' [= <- <-]. split_and!; [by eapply serv_step_holds|by eapply serv_step_outside|done|apply D4|apply D4].
    + intros ? s1 Hw. eapply wp_mono; [exact Hw|]. cbn [v_fs]. intros _ s' (Hh & Hf & Hr). split; [done|].
      intros v. rewrite <- He. unfold entry. by rewrite Hf, Hr.
  - rewrite bool_decide_false by by intros []. cbn [Z.eqb]. eapply wp_mono; [apply (Htail E_NOTFOUND None); done|].
    intros ? s1 Hw. eapply wp_mono; [exact Hw|]. cbn [v_fs]. intros _ s' (Hh & Hf & Hr). split; [done|].
    intros v. rewrite <- He. unfold entry. by rewrite Hf, Hr.
Qed.
End handlers.
End spec.

(** C30: What is written through the service is read through it. A request of
    "fssrv/write" with a path and bytes, and one of "fssrv/read" with the same path, are
    each answered by exactly one SYS_srv_reply, for the request that was made, before the
    thread ends: when the path leads to a file the first says E_OK, and the second says
    E_OK with exactly the bytes of the first request, which are still where the kernel put
    them; else both say E_NOTFOUND and nothing more. What the other paths lead to is not
    changed, and the tree of files is in order. This is for two requests that have arrived
    whole ([request]), with room in the service's heap for the four blocks the handlers ask
    for ([fits]; without it the reply is not what is said here), and, since [path_cut] has
    no return statement, on a compiler for which its caller finds the address of the copy
    ([fall t = t]). *)
Theorem file_service_round_trip {H : Type} {HM : Kmalloc H} {HK : KmallocLaws H} {HB : HeapBytes H} {HBL : HeapBytesLaws H}
    fall answer stack kids nm (s : service H) arg1 c1 sid1 b1 arg2 c2 sid2 b2 l d :
  served stack kids nm (v_fs s) → (∀ x, arg1 ≤ x < arg1 + 8 ∨ arg2 ≤ x < arg2 + 8 → stack x) →
  request stack (f_mem (v_fs s)) (f_heap (v_fs s)) c1 sid1 b1 [SLASH :: l ++ [0]; d] →
  request stack (f_mem (v_fs s)) (f_heap (v_fs s)) c2 sid2 b2 [SLASH :: l ++ [0]] →
  Forall (λ c, 0 < c < 256) l → 2 * len l + 3 < W32 →
  fits [cut_len l; SZ_REPLYER; cut_len l; SZ_REPLYER] (f_heap (v_fs s)) → (∀ t, fall t = t) →
  wp (service_write_hdl fall answer arg1 c1 ;;; service_read_hdl fall answer arg2 c2) (λ _ s',
    (∃ rp1 m1 szs1 rp2 m2 szs2, v_calls s' = v_calls s ++ [Reply rp1 m1; Exit; Reply rp2 m2; Exit] ∧
      if bool_decide (is_Some (entry kids nm (v_fs s) (pieces l)))
      then replyer_at m1 (λ x, KERN_BASE ≤ x) rp1 E_OK sid1 [] szs1 ∧ replyer_at m2 (λ x, KERN_BASE ≤ x) rp2 E_OK sid2 [d] szs2
      else replyer_at m1 (λ x, KERN_BASE ≤ x) rp1 E_NOTFOUND sid1 [] szs1 ∧ replyer_at m2 (λ x, KERN_BASE ≤ x) rp2 E_NOTFOUND sid2 [] szs2) ∧
    served stack kids nm (v_fs s') ∧ ∀ v, v ≠ pieces l → entry kids nm (v_fs s') v = entry kids nm (v_fs s) v) s.
Proof.
  intros Hsd Hst Hr1 Hr2 Hl Hlen Hfit Hfall. cbn [fits] in Hfit.
  destruct (kmalloc (cut_len l) (f_heap (v_fs s))) as [[|t1] h1] eqn:K1; [done|]. destruct (kmalloc SZ_REPLYER h1) as [[|q1] h2] eqn:K2; [done|].
  destruct (kmalloc (cut_len l) h2) as [[|t2] h3] eqn:K3; [done|]. destruct (kmalloc SZ_REPLYER h3) as [[|q2] h4] eqn:K4; [done|].
  apply wp_bind. eapply wp_mono; [eapply write_hdl_spec with (d := d); try done; intros x Hx; apply Hst; by left|].
  intros _ s1 [[(rp1 & m1 & szs1 & C1 & Y1) Hsd1 [Hs1 Hh1]] He1].
  assert (entry kids nm (v_fs s1) (pieces l) = (λ e : TYPE * Z * Z, (e.1.1, b1 + (len l + 2), len d)) <$> entry kids nm (v_fs s) (pieces l)) as Hent.
  { rewrite He1. unfold overwritten. by rewrite decide_True. }
  assert (bool_decide (is_Some (entry kids nm (v_fs s1) (pieces l))) = bool_decide (is_Some (entry kids nm (v_fs s) (pieces l)))) as Heq.
  { apply bool_decide_ext. rewrite Hent. apply fmap_is_Some. }
  eapply wp_mono; [eapply (read_hdl_spec fall answer stack arg2 c2 sid2 b2 l kids nm s1 t2 q2 h3 h4) with (d := d); try done|].
  - intros x Hx. apply Hst. by right.
  - by rewrite Hh1.
  - by eapply request_step.
  - intros ty a z. rewrite Hent. intros (e & _ & [= -> -> ->])%fmap_Some. pose proof (request_step _ _ _ _ _ _ _ _ _ Hr1 Hs1) as Hr1'.
    destruct Hr1' as [_ _ _ R4 R5 [_ R6] [_ R7]]. unfold total in *. cbn [concat] in *. rewrite app_nil_r in *. apply holds_app in R4 as [_ R4].
    assert (len (SLASH :: l ++ [0]) = len l + 2) as L0 by (cbn [length]; rewrite length_app; cbn [length]; lia).
    rewrite length_app, Nat2Z.inj_add, L0 in *. split_and!; [done|done|intros x Hx; apply R6; lia|intros x Hx; apply R7; lia|lia|lia].
  - rewrite Heq. intros _ s' [[(rp2 & m2 & szs2 & C2 & Y2) Hsd2 _] He2]. split_and!; [|done|].
    + exists rp1, m1, szs1, rp2, m2, szs2. split; [by rewrite C2, C1, <- app_assoc|]. by case_bool_decide.
    + intros v Hv. rewrite He2, He1. unfold overwritten. by rewrite decide_False.
Qed.

(** ** The file "b" of FsProps, written and read *)
Definition ex_requests : list Z :=
  (bytes4 11 ++ replicate 8 0 ++ bytes4 3 ++ bytes4 2 ++ replicate 32 0 ++ bytes4 0x1090) ++ replicate 8 0 ++
  (bytes4 12 ++ replicate 8 0 ++ bytes4 3 ++ replicate 36 0 ++ bytes4 0x1095) ++ replicate 8 0 ++
  replicate 16 0 ++ [47; 98; 0; 7; 8] ++ [47; 98; 0].
Definition ex_service : service arena := Service (set_mem (place 0x1000 ex_requests ex_mem1) ex_fs1) [].
Definition ex_stacks (x : Z) : Prop := 0x1080 ≤ x < 0x1090.

Lemma ex_request_at k l : take (length l) (drop k ex_requests) = l → holds (f_mem (v_fs ex_service)) (0x1000 + Z.of_nat k) l.
Proof. apply place_holds. Qed.
Lemma ex_request k a sid b parts : take 4 (drop k ex_requests) = bytes4 sid → is_u32 sid → take 4 (drop (k + 52) ex_requests) = bytes4 b →
  (∀ i l, parts !! i = Some l → (i < 10)%nat ∧ take 4 (drop (k + 12 + 4 * i) ex_requests) = bytes4 (len l)) →
  take (length (concat parts)) (drop a ex_requests) = concat parts → b = 0x1000 + Z.of_nat a →
  (k + 56 ≤ 128)%nat → (144 ≤ a)%nat → (a + length (concat parts) ≤ 200)%nat →
  request ex_stacks (f_mem (v_fs ex_service)) (f_heap (v_fs ex_service)) (0x1000 + Z.of_nat k) sid b parts.
Proof.
  intros Hsid Hu Hc Hsz Hd -> Hk Ha Hl. assert (KERN_BASE = 3221225472) as HKB by done.
  assert (∀ x, 0x1000 ≤ x → ¬ km_free (f_heap (v_fs ex_service)) x) as Hout by (intros x Hx Hf; cbn in Hf; lia).
  split.
  - split; [by apply ex_request_at|done].
  - rewrite <- Z.add_assoc. change 52 with (Z.of_nat 52). rewrite <- Nat2Z.inj_add. by apply ex_request_at.
  - intros i l Hi. destruct (Hsz i l Hi) as [H1 H2]. split; [done|].
    replace (0x1000 + Z.of_nat k + 12 + 4 * Z.of_nat i) with (0x1000 + Z.of_nat (k + 12 + 4 * i)) by lia. by apply ex_request_at.
  - by apply ex_request_at.
  - unfold total. clear - Hk Ha Hl HKB. lia.
  - split; intros x Hx; apply Hout; unfold total in *; clear - Hk Ha Hl Hx; lia.
  - unfold ex_stacks. split; intros x Hx; unfold total in *; clear - Hk Ha Hl Hx; lia.
Qed.

Lemma ex_served : served ex_stacks ex_kids ex_name (v_fs ex_service).
Proof.
  pose proof ex_fs1_ok as [[O1 O1'] O2 O3 O4 O5]. assert (KERN_BASE = 3221225472) as HKB by done.
  assert (∀ p q, is_Some (f_files ex_fs1 !! p) → q ∈ elems (ex_kids p) → q = 950) as Hq.
  { intros p q _ Hin. unfold ex_kids in Hin. destruct (p =? 900); [by apply list_elem_of_singleton in Hin|by apply elem_of_nil in Hin]. }
  assert (∀ x, x < 0x1000 → f_mem (v_fs ex_service) !! x = f_mem ex_fs1 !! x) as Hlow.
  { intros x Hx. cbn [ex_service v_fs set_mem f_mem]. unfold place at 1. apply lookup_union_r, not_elem_of_list_to_map_1.
    intros ([a v] & -> & Hin)%list_elem_of_fmap. apply elem_of_lookup_imap in Hin as (i & c & [= -> ->] & _). cbn [fst] in Hx. lia. }
  split; [split| | |]; cbn [ex_service v_fs set_mem f_heap f_files f_nodes root_file].
  - split.
    + intros x Hx. by apply place_mapped with x 1; [intros y Hy; replace y with x by lia; apply O1|lia].
    + apply place_bytes; [|done]. by apply (bool_decide_eq_true_1 (Forall _ ex_requests)).
  - exact O2.
  - intros p q Hp Hin. destruct (O3 p q Hp Hin) as (? & [C1 C2 C3] & ? & ?). split_and!; [done| |done|done]. split; [|done|done].
    assert (q = 950) as -> by exact (Hq p q Hp Hin). intros i c Hi. pose proof (lookup_lt_Some _ _ _ Hi) as Hlt. change (f_mem _) with (f_mem (v_fs ex_service)).
    rewrite Hlow; [by apply C1|]. change (add32 950 OFF_NAME) with 958. change (length (ex_name 950 ++ [0])) with 2%nat in Hlt. lia.
  - exact O4.
  - exact O5.
  - intros x Hx. unfold ex_stacks in Hx. split; [|split; [lia|intros Hf; cbn in Hf; lia]].
    exists 0. pose proof (ex_request_at 128 (replicate 16 0) eq_refl (Z.to_nat (x - 0x1080)) 0) as H16.
    replace (0x1000 + Z.of_nat 128 + Z.of_nat (Z.to_nat (x - 0x1080))) with x in H16 by lia. apply H16, lookup_replicate. split; [done|lia].
  - intros x Hx. cbn in Hx. lia.
  - intros p q Hp Hin x Hx Hs. rewrite (Hq p q Hp Hin) in Hx. unfold ex_stacks in Hs. change (add32 950 OFF_NAME) with 958 in Hx. cbn [ex_name Z.eqb Pos.eqb length] in Hx. lia.
Qed.

Lemma file_service_round_trip_witness :
  wp (service_write_hdl (λ x, x) (λ _ _, E_OK) 0x1080 0x1000 ;;; service_read_hdl (λ x, x) (λ _ _, E_OK) 0x1088 0x1040) (λ _ s',
    (∃ rp1 m1 szs1 rp2 m2 szs2, v_calls s' = [Reply rp1 m1; Exit; Reply rp2 m2; Exit] ∧
      (replyer_at m1 (λ x, KERN_BASE ≤ x) rp1 E_OK 11 [] szs1 ∧ replyer_at m2 (λ x, KERN_BASE ≤ x) rp2 E_OK 12 [[7; 8]] szs2)) ∧
    served ex_stacks ex_kids ex_name (v_fs s') ∧
    ∀ v, v ≠ [[98]] → entry ex_kids ex_name (v_fs s') v = entry ex_kids ex_name ex_fs1 v) ex_service.
Proof.
  pose proof (file_service_round_trip (λ x, x) (λ _ _, E_OK) ex_stacks ex_kids ex_name ex_service 0x1080 0x1000 11 0x1090 0x1088 0x1040 12 0x1095
    [98] [7; 8]) as Hw.
  change (pieces [98]) with [[98]] in Hw. change (entry ex_kids ex_name (v_fs ex_service) [[98]]) with (Some (FILE_ENTITY, 5, 6)) in Hw.
  change (bool_decide (is_Some (Some (FILE_ENTITY, 5, 6)))) with true in Hw. cbv iota in Hw. apply Hw; clear Hw.
  - exact ex_served.
  - unfold ex_stacks. lia.
  - apply (ex_request 0 144 11 0x1090); [done..| |done|done|simpl; lia|simpl; lia|simpl; lia].
    intros [|[|i]] l Hl; [injection Hl as <-..|done]; split; (lia || done).
  - apply (ex_request 64 149 12 0x1095); [done..| |done|done|simpl; lia|simpl; lia|simpl; lia].
    intros [|i] l Hl; [injection Hl as <-|done]; split; (lia || done).
  - repeat constructor; lia.
  - done.
  - by vm_compute.
  - done.
Defined.
