(* ===== verification/SrvReg.v ===== *)
(** * Registering a service: [srv_sys_register] of Srv.v *)
From stdpp Require Import functions.
From S2P Require Import Prelude Kmalloc IdxAlct IdMap RbtModel RbtTree RbtIter RbtSearch RbtInsert Cstring Words Blocks Names Msg MsgSpec Srv SrvPack SrvSpec.

Section register.
Context {A K U : Type} {IA : IdMap A} {IL : IdMapLaws A} {HM : Kmalloc K} {HK : KmallocLaws K}.
Context {HB : HeapBytes K} {HBL : HeapBytesLaws K} {UM : Kmalloc U} {UK : KmallocLaws U} {UB : HeapBytes U} {UBL : HeapBytesLaws U}.
Context (th pr junk : Z).
Abbreviation st := (srvs A K U).
Implicit Types (s : st) (I : ipc A K) (nm : Z → list Z) (t : tree).

(** The messages, what they hold, their numbers and who has been woken. *)
Definition mail I : gmap Z msg_t * gmap Z (list Z) * A * list Z := (msgs I, blocks I, msg_alct I, woken I).
Definition mail_kept {B} (c : M (ipc A K) B) : Prop := ∀ I, wlp c (λ _ I', mail I' = mail I) I.

Lemma mail_bind {B C} (c : M (ipc A K) B) (k : B → M (ipc A K) C) :
  mail_kept c → (∀ b, mail_kept (k b)) → mail_kept (bind c k).
Proof.
  intros Hc Hk I. apply wlp_bind. eapply wlp_mono; [apply Hc|]. intros b I' <-. apply Hk.
Qed.
Lemma mail_ro {B} (c : M (ipc A K) B) : read_only c → mail_kept c.
Proof. intros Hc I. eapply wlp_mono; [apply Hc|]. by intros b I' ->. Qed.
Lemma mail_modify (f : ipc A K → ipc A K) : (∀ I, mail (f I) = mail I) → mail_kept (modify f).
Proof. intros Hf I. apply Hf. Qed.
Lemma mail_upd_box p f : mail_kept (upd_box p f).
Proof. apply mail_bind; [apply mail_ro; unfold box_at; ro_solve|]. intros b. by apply mail_modify. Qed.
Lemma mail_alloc n : mail_kept (alloc n).
Proof. intros I. unfold alloc, wlp, bind, get. by destruct (kmalloc n (kheap I)). Qed.
Lemma mail_box_alct {B} (c : M A B) : mail_kept (on_box_alct c).
Proof. intros I. apply wlp_zoom, wlp_always. done. Qed.
(** A new box leaves them alone. *)
Lemma mail_newbox : mail_kept (msg_newbox th pr junk).
Proof.
  unfold msg_newbox, lock_box, unlock_box, take_lock, drop_lock, box_at, kmfree.
  repeat first [apply mail_alloc|apply mail_box_alct|apply mail_upd_box|apply mail_modify; done
    |apply mail_ro; (apply ro_ret || apply ro_get || apply ro_assert || apply ro_deref || apply ro_panic || apply ro_fault || apply ro_hang)
    |apply mail_bind; [|intros]|case_match].
Qed.
Lemma wlp_newbox_mail mm bm s (Q : Z * option Z → st → Prop) : ipc_ok mm bm (sv_ipc s) →
  (∀ r I, newbox_post pr mm bm (sv_ipc s) r I → quiet_step (sv_ipc s) I → mail I = mail (sv_ipc s) → Q r (set_ipc I s)) →
  wlp (in_ipc (msg_newbox th pr junk)) Q s.
Proof.
  intros Hok HQ. apply wlp_in_ipc. eapply wlp_mono.
  { apply wlp_and; [apply wlp_and; [by apply wlp_msg_newbox|apply quiet_newbox]|apply mail_newbox]. }
  intros r I [[Hr Hq] Hm]. by apply HQ.
Qed.

(** The service [srv] of name [l] with the new box [rb] has been added. *)
Record registered nm t mm bm s (l : list Z) (nparam srv rb : Z) (t' : tree) s' : Prop := {
  rg_new : (srv ∉ elems t) ∧ bm !! rb = None ∧ sv_tab s' = <[srv := SrvT pr rb nparam]> (sv_tab s);
  rg_tree : ∃ l1 l2, elems t = l1 ++ l2 ∧ elems t' = l1 ++ srv :: l2;
  rg_box : ∃ bp, srv_ok (<[srv := l]> nm) t' mm (<[rb := bp]> bm) s' ∧
    boxes (sv_ipc s') = <[bp := Box rb BOX_RCVABLE 0 pr 0 None []]> (boxes (sv_ipc s));
  rg_rest : rbt_rwlock s' = 0 ∧ sv_ums s' = sv_ums s;
  rg_mail : mail (sv_ipc s') = mail (sv_ipc s);
  rg_mem : touched (km_free (kheap (sv_ipc s))) (umem (sv_ipc s)) (umem (sv_ipc s'));
}.

(** The tree of the registry when a node has been put at an address outside it. *)
Lemma reg_fresh nm t srv n r N : R N (elems t) t (Rbt r N) → srv ∉ elems t → names_sorted nm (elems t) →
  R (<[srv := n]> N) (elems t) t (Rbt r (<[srv := n]> N)) ∧ ∀ l, names_sorted (<[srv := l]> nm) (elems t).
Proof.
  intros HR Hn Hs. split.
  - eapply R_ext; [|exact HR]. intros x Hx. rewrite lookup_insert_ne; [done|]. by intros ->.
  - intros l. eapply names_sorted_ext; [|exact Hs]. intros x Hx. rewrite fn_lookup_insert_ne; [done|]. by intros ->.
Qed.

(** [rbt_insert] on the registry, the node being new. *)
Lemma wp_reg_insert nm t mm bm s srv l : srv_ok nm t mm bm s → srv ∉ elems t → (∀ p, p ∈ elems t → nm p ≠ l) →
  cstr (umem (sv_ipc s)) (add32 srv 0) l → srv ≠ NULL → ∀ n tab lk um,
  wp (on_reg (Names.rbt_insert 0 srv)) (λ err s', err = E_OK ∧ ∃ rt' t' l1 l2,
    s' = Srvs (sv_ipc s) rt' tab lk um ∧ R (rbt_nodes rt') (elems t') t' rt' ∧ rbtree t' ∧
    elems t = l1 ++ l2 ∧ elems t' = l1 ++ srv :: l2 ∧ names_sorted (<[srv := l]> nm) (elems t'))
    (Srvs (sv_ipc s) (Rbt (rbt_root (srv_rbt s)) (<[srv := n]> (rbt_nodes (srv_rbt s)))) tab lk um).
Proof.
  intros Hok Hnin Hno Hc Hnull n tab lk um. destruct (so_tree _ _ _ _ _ Hok) as (HR & Hrb & Hs).
  destruct (reg_fresh nm t srv n (rbt_root (srv_rbt s)) (rbt_nodes (srv_rbt s))) as [HR1 Hs1]; [by destruct (srv_rbt s)|done|done|].
  unfold on_reg. apply wp_zoom. cbn [sv_ipc srv_rbt].
  assert (∀ p, p ∈ elems t → cstr (umem (sv_ipc s)) (add32 p 0) ((<[srv := l]> nm) p)) as Hnm.
  { intros p Hp. rewrite fn_lookup_insert_ne; [by eapply reg_names|]. by intros ->. }
  assert (R (<[srv := n]> (rbt_nodes (srv_rbt s))) (srv :: elems t) t (Rbt (rbt_root (srv_rbt s)) (<[srv := n]> (rbt_nodes (srv_rbt s))))) as HR2.
  { destruct HR1 as [G1 G2 G3 G4 G5 G6]. split; [done..|set_solver|done]. }
  eapply wp_mono.
  { eapply (name_insert_spec 0 (<[srv := l]> nm) _ _ _ _ _ HR2 Hnm (Hs1 l) srv l Hrb Hc (fn_lookup_insert _ _ _)).
    split; [done|]. split; [done|]. cbn [rbt_nodes]. rewrite lookup_insert_eq. by eexists. }
  intros err [u rt'] [Hu Hr]. cbn [nt_mem nt_rbt] in *. subst u. destruct (Z.eqb_spec err E_OK) as [->|_].
  - destruct Hr as (_ & t' & l1 & l2 & HR' & Hrb' & He & He' & Hs'). split; [done|]. exists rt', t', l1, l2.
    split; [unfold set_reg, set_ipc; cbn [sv_ipc srv_rbt sv_tab rbt_rwlock sv_ums]; by destruct (sv_ipc s)|].
    split_and!; try done. by eapply R_weaken.
  - destruct Hr as (_ & _ & p & Hp & Hn). exfalso. rewrite fn_lookup_insert_ne in Hn by (by intros ->). by apply (Hno p).
Qed.

(** The new service is part of the registry. *)
Lemma srv_ok_add nm t mm bm s I tab rt' t' l1 l2 srv l x lk (um : gmap Z U) : srv_ok nm t mm bm s → ipc_ok mm bm I →
  quiet_step (sv_ipc s) I → srv ∉ elems t → elems t = l1 ++ l2 → elems t' = l1 ++ srv :: l2 →
  R (rbt_nodes rt') (elems t') t' rt' → rbtree t' → names_sorted (<[srv := l]> nm) (elems t') →
  tab = <[srv := x]> (sv_tab s) → 0 ≤ sv_nparam x ≤ MAX_CALL_PARAM → srv ∈ km_live (kheap I) →
  cstr (umem I) srv l → (∀ y, span srv (len l + 1) y → ¬ km_free (kheap I) y) →
  srv_ok (<[srv := l]> nm) t' mm bm (Srvs I rt' tab lk um).
Proof.
  intros Hok HI Hq Hn He He' HR Hrb Hs -> Hx Hlive Hc Hsp.
  pose proof (srv_ok_quiet nm t mm bm s mm bm I lk um Hok HI Hq) as [G1 G2 G3 G4 G5]. cbn [sv_ipc srv_rbt sv_tab] in *.
  assert (∀ p, p ∈ elems t' → p = srv ∨ (p ≠ srv ∧ p ∈ elems t)) as Hin.
  { intros p. rewrite He', He, elem_of_app, elem_of_cons, elem_of_app.
    destruct (decide (p = srv)); [by left|]. tauto. }
  split; cbn [sv_ipc srv_rbt sv_tab]; try done.
  - intros p [->|[Hp Hpt]]%Hin; rewrite ?fn_lookup_insert, ?lookup_insert_eq, ?fn_lookup_insert_ne, ?lookup_insert_ne by done.
    + split_and!; [done..|]. by exists x.
    + by apply G4.
  - intros y (p & [->|[Hp Hpt]]%Hin & Hy).
    + rewrite fn_lookup_insert in Hy. by apply Hsp.
    + rewrite fn_lookup_insert_ne in Hy by done. apply G5. by exists p.
Qed.

(** A structure that is not in the tree does not matter. *)
Lemma srv_ok_junk nm t mm bm s srv x n : srv_ok nm t mm bm s → srv ∉ elems t →
  srv_ok nm t mm bm (set_tab (<[srv := x]> (sv_tab s))
    (set_reg (Rbt (rbt_root (srv_rbt s)) (<[srv := n]> (rbt_nodes (srv_rbt s)))) s)).
Proof.
  intros [G1 G2 (HR & Hrb & Hs) G4 G5] Hn. split; cbn [set_tab set_reg sv_ipc srv_rbt sv_tab rbt_nodes]; try done.
  - split; [|done]. apply (R_ext (rbt_nodes (srv_rbt s))); [|by destruct (srv_rbt s)]. intros y Hy. rewrite lookup_insert_ne; [done|]. by intros ->.
  - intros p Hp. destruct (G4 p Hp) as (? & ? & y & ? & ?). split_and!; [done..|]. exists y.
    rewrite lookup_insert_ne; [done|]. by intros ->.
Qed.

(** What a registration leaves that is neither refused nor of a name that is taken. *)
Definition register_result nm t mm bm s (l : list Z) (nparam : Z) (err : Z) s' : Prop :=
  if err =? E_OK then ∃ srv rb t', registered nm t mm bm s l nparam srv rb t' s'
  else rbt_rwlock s' = -1 ∧ srv_ok nm t mm bm s'.

Lemma srv_register_spec nm t mm bm s name l nparam : srv_ok nm t mm bm s → cstr (umem (sv_ipc s)) name l →
  (∀ x, span name (len l + 1) x → ¬ km_free (kheap (sv_ipc s)) x) → 0 ≤ nparam → rbt_rwlock s = 0 →
  ¬ (MAX_SRV_NAME_LEN ≤ len l ∨ MAX_CALL_PARAM < nparam) → ¬ Exists (λ p, nm p = l) (elems t) →
  wlp (srv_sys_register th pr junk name nparam) (register_result nm t mm bm s l nparam) s.
Proof.
  intros Hok Hname Hsp Hnp Hlk Hbig Htak. destruct s as [I rt tab lk um]. cbn [sv_ipc rbt_rwlock] in *. subst lk.
  unfold register_result, srv_sys_register. apply wlp_bind, wlp_in_mem.
  eapply wp_mono; [apply (strlen_s_spec _ _ _ _ Hname); done|]. intros n u [Hu ->]. rewrite set_mem_same by exact Hu. clear u Hu.
  unfold MAX_SRV_NAME_LEN in *.
  assert (len l < 32 ∧ nparam ≤ MAX_CALL_PARAM) as [Hl32 Hn10] by lia.
  rewrite (proj2 (Z.eqb_neq _ _)), (proj2 (Z.ltb_ge _ _)) by lia.
  eapply wlp_step; [done|]. set (s1 := Srvs I rt tab (-1) um). change (set_rwlock (-1) (Srvs I rt tab 0 um)) with s1.
  assert (srv_ok nm t mm bm s1) as Hok1.
  { apply (srv_ok_quiet _ _ _ _ _ mm bm I (-1) um Hok (so_ipc _ _ _ _ _ Hok)). by split. }
  apply wlp_bind, wp_wlp. eapply wp_mono; [apply (wp_find _ _ _ _ _ name l Hok1 Hname)|].
  intros [e [p|]] s' [-> Hf]; cbn [fst snd] in Hf.
  { destruct Hf as (-> & Hp & Hn). destruct Htak. apply Exists_exists. by exists p. }
  destruct Hf as [-> Hno].
  cbn [fst negb]. rewrite Z.eqb_refl. cbn [negb].
  destruct (so_mem _ _ _ _ _ Hok1) as [Hhm Hby]. cbn [s1 sv_ipc] in Hhm, Hby.
  apply wlp_bind, wp_wlp, wlp_kalloc; cbn [s1 sv_ipc].
  { intros e k Hk. destruct (kmalloc_err _ _ _ _ Hk) as [He _]. apply wlp_ret. rewrite (proj2 (Z.eqb_neq _ _)) by done.
    split; [done|]. by apply (srv_ok_kmalloc nm t mm bm s1 SZ_SRV (inl e) k). }
  intros srv k Hk. destruct (kmalloc_ok _ _ _ _ Hk) as (Hsrv & Hfresh & Hlive).
  pose proof (srv_ok_kmalloc nm t mm bm s1 SZ_SRV (inr srv) k (-1) um Hok1 ltac:(done) Hk) as Hok2.
  assert (srv ∉ elems t) as Hnin by (intros Hp; by apply Hfresh, (so_srv _ _ _ _ _ Hok1)).
  destruct (heap_alloc _ _ _ _ (umem I) Hk ltac:(done) Hhm) as (Hmap & Hout & Hw & _). unfold SZ_SRV in *.
  destruct (heap_ok _ _ _ _ Hk ltac:(done)) as (_ & Hfree & Hsub).
  eapply wlp_step; [done|].
  pose proof (srv_ok_junk nm t mm bm _ srv (SrvT junk junk junk) (RbtNode BLACK junk junk junk) Hok2 Hnin) as Hok3.
  cbn [set_tab set_reg set_ipc srv_rbt sv_tab sv_ipc rbt_rwlock sv_ums s1] in Hok3 |- *.
  match type of Hok3 with srv_ok _ _ _ _ ?x => set (s3 := x) in * end.
  assert (32 + srv ≤ name ∨ name + len l + 1 ≤ srv) as Hd.
  { destruct (decide (name < srv + 32 ∧ srv < name + len l + 1)); [|lia].
    exfalso. apply (Hsp (Z.max name srv)); [unfold span; lia|]. apply Hfree. lia. }
  pose proof (clear_then_name (umem I) srv name l 32 Hname Hl32 Hby ltac:(intros x Hx; apply Hmap; lia) ltac:(lia) ltac:(lia) ltac:(lia)) as Hnm.
  apply wlp_bind, wlp_in_mem. eapply wp_mono; [exact Hnm|]. intros [] m1 [Hc1 Hnm2]. cbn [sv_ipc set_ipc s3].
  apply wlp_bind, wlp_in_mem. eapply wp_mono; [by apply strlen_spec|]. intros n u [Hu ->]. rewrite set_mem_same by exact Hu. clear u Hu.
  apply wlp_bind, wlp_in_mem. eapply wp_mono; [exact Hnm2|]. clear Hnm Hnm2. intros [] m2 [Ho2 Hc2].
  match goal with |- wlp _ _ ?x => change x with (Srvs (set_umem m2 (set_kheap k I)) (srv_rbt s3) (sv_tab s3) (-1) um) end.
  set (I4 := set_umem m2 (set_kheap k I)).
  assert (srv_ok nm t mm bm (Srvs I4 (srv_rbt s3) (sv_tab s3) (-1) um)) as Hok4.
  { apply (srv_ok_step nm t mm bm s3 mm bm I4 (-1) um (span srv 32) Hok3); try done.
    - destruct (so_ipc _ _ _ _ _ Hok3) as [J1 J2 J3]. by split.
    - by eapply touched_only.
    - intros x Hx Hnx. apply (so_names _ _ _ _ _ Hok1 x Hnx). apply Hfree. unfold span in Hx. lia. }
  apply wlp_bind, (wlp_newbox_mail mm bm); [apply (so_ipc _ _ _ _ _ Hok4)|]. cbn [sv_ipc].
  intros [e [rb|]] I5 Hb5 Hq5 Hmail; unfold newbox_post in Hb5; cbn [fst snd] in Hb5.
  2:{ destruct Hb5 as (He & HI5 & _). apply wlp_ret. rewrite (proj2 (Z.eqb_neq _ _)) by done. split; [done|].
      by apply (srv_ok_quiet nm t mm bm _ mm bm I5 (-1) um Hok4). }
  destruct Hb5 as (-> & Hrb & bp & HI5 & Hbx & _).
  do 3 (eapply wlp_step; [unfold upd_srv, srv_at, bind, get, deref; cbn [sv_tab set_ipc set_tab s3]; rewrite lookup_insert_eq; reflexivity|]).
  cbn [set_ipc set_tab sv_ipc srv_rbt sv_tab rbt_rwlock sv_ums sv_owner sv_boxid sv_nparam].
  rewrite !insert_insert_eq.
  destruct Hq5 as [Q1 Q2 Q3]. cbn [I4 umem kheap set_umem set_kheap] in Q1, Q2, Q3.
  assert (touched (span srv 32) (umem I) (umem I5)) as Ht5 by (rewrite Q1; by eapply touched_only).
  assert (srv_ok nm t mm (<[rb := bp]> bm) (Srvs I5 rt tab (-1) um)) as Hok5.
  { apply (srv_ok_step nm t mm bm s1 _ _ I5 (-1) um (span srv 32) Hok1 HI5); cbn [s1 sv_ipc].
    - intros x Hx. by apply Hsub, Q2.
    - set_solver.
    - done.
    - intros x Hx Hnx. apply (so_names _ _ _ _ _ Hok1 x Hnx). apply Hfree. unfold span in Hx. lia. }
  assert (cstr (umem I5) srv l) as Hc5 by by rewrite Q1.
  apply wlp_bind, wp_wlp. eapply wp_mono.
  { apply (wp_reg_insert nm t mm _ _ srv l Hok5 Hnin Hno); [cbn [sv_ipc]; by rewrite add32_0|unfold NULL; lia]. }
  intros err s' (-> & rt' & t' & l1 & l2 & -> & HR' & Hrb' & He & He' & Hs').
  unfold spin_write_unlock. eapply wlp_step; [done|]. eapply wlp_step; [done|]. apply wlp_ret.
  cbn [Z.eqb E_OK]. exists srv, rb, t'. split; cbn [sv_ipc sv_tab rbt_rwlock sv_ums set_rwlock].
  - by split.
  - by exists l1, l2.
  - exists bp. split; [|exact Hbx].
    eapply (srv_ok_add nm t mm _ _ I5 _ _ t' l1 l2 srv l); [exact Hok5|exact HI5|apply quiet_step_refl|done..| |set_solver|done|].
    + cbn [sv_nparam]. lia.
    + intros y Hy Hfy. apply (Hout y); [unfold span in Hy; lia|by apply Q2].
  - done.
  - exact Hmail.
  - eapply touched_mono; [exact Ht5|]. intros x Hx. apply Hfree. unfold span in Hx. lia.
Qed.

(** C33: [srv_sys_register] of a name in memory outside the kernel's heap, with the registry
    unlocked. A name of 32 characters or more and more than ten parameters are refused with
    nothing changed; a name that is taken gives E_EXIST, changes nothing else, and leaves
    the registry write-locked for good; both always end. Otherwise the kernel may stop,
    where the number of the new box is allocated; when the call returns E_OK the service is
    inserted in the order of the names, with a new box that the caller owns, every other
    service and box, every message and what the messages hold, and every byte of memory
    outside the kernel's heap are as they were, and the lock is free; when it returns an
    error the registry is as it was but write-locked for good. *)
Theorem srv_register_correct nm t mm bm s name l nparam : srv_ok nm t mm bm s → cstr (umem (sv_ipc s)) name l →
  (∀ x, span name (len l + 1) x → ¬ km_free (kheap (sv_ipc s)) x) → 0 ≤ nparam → rbt_rwlock s = 0 →
  let c := srv_sys_register th pr junk name nparam in
  if bool_decide (MAX_SRV_NAME_LEN ≤ len l ∨ MAX_CALL_PARAM < nparam) then wp c (λ err s', err = E_INVAL ∧ s' = s) s
  else if bool_decide (Exists (λ p, nm p = l) (elems t)) then wp c (λ err s', err = E_EXIST ∧ s' = set_rwlock (-1) s) s
  else wlp c (register_result nm t mm bm s l nparam) s.
Proof.
  intros Hok Hname Hsp Hnp Hlk c. case_bool_decide as Hbig; [|case_bool_decide as Htak; [|by apply srv_register_spec]]; subst c.
  - unfold srv_sys_register. apply wp_bind, wp_in_buffers. eapply wp_mono; [apply (strlen_s_spec _ _ _ _ Hname); done|].
    intros n u [Hu ->]. rewrite set_mem_same by exact Hu. unfold MAX_SRV_NAME_LEN in *.
    destruct (Z.min 32 (len l) =? 32) eqn:E; [done|]. rewrite (proj2 (Z.ltb_lt _ _)) by (unfold MAX_CALL_PARAM in *; lia). done.
  - destruct s as [I rt tab lk um]. cbn [sv_ipc rbt_rwlock] in *. subst lk. unfold srv_sys_register.
    apply wp_bind, wp_in_buffers. eapply wp_mono; [apply (strlen_s_spec _ _ _ _ Hname); done|].
    intros n u [Hu ->]. rewrite set_mem_same by exact Hu. unfold MAX_SRV_NAME_LEN in *.
    rewrite (proj2 (Z.eqb_neq _ _)), (proj2 (Z.ltb_ge _ _)) by lia. eapply wp_step; [done|].
    set (s1 := Srvs I rt tab (-1) um). change (set_rwlock (-1) (Srvs I rt tab 0 um)) with s1.
    assert (srv_ok nm t mm bm s1) as Hok1.
    { apply (srv_ok_quiet _ _ _ _ _ mm bm I (-1) um Hok (so_ipc _ _ _ _ _ Hok)). by split. }
    apply wp_bind. eapply wp_mono; [apply (wp_find _ _ _ _ _ name l Hok1 Hname)|].
    intros [e [p|]] s' [-> Hf]; cbn [fst snd] in Hf.
    + destruct Hf as (-> & _). done.
    + destruct Hf as [_ Hno]. apply Exists_exists in Htak as (p & Hp & Hn). by destruct (Hno p Hp).
Qed.
End register.
