(* ===== verification/SrvCall.v ===== *)
(** * Calling a service: theorems about the handlers of Srv.v, one by one *)
From S2P Require Import Prelude Kmalloc IdxAlct IdMap RbtModel RbtTree RbtIter Cstring Words Blocks Names Msg MsgSpec Srv SrvPack SrvSpec SrvMsg.

Section handlers.
Context {A K U : Type} {IA : IdMap A} {IL : IdMapLaws A} {HM : Kmalloc K} {HK : KmallocLaws K}.
Context {HB : HeapBytes K} {HBL : HeapBytesLaws K} {UM : Kmalloc U} {UK : KmallocLaws U} {UB : HeapBytes U} {UBL : HeapBytesLaws U}.
Context (th pr junk stk : Z).
Abbreviation st := (srvs A K U).
Implicit Types (s : st) (I : ipc A K) (nm : Z → list Z) (t : tree).

(** The service of name [l]: its structure, box and owner. *)
Definition service nm t s (l : list Z) (p : Z) (x : srv_t) : Prop :=
  p ∈ elems t ∧ nm p = l ∧ sv_tab s !! p = Some x.

Lemma find_service nm t mm bm s name l p x : srv_ok nm t mm bm s → cstr (umem (sv_ipc s)) name l → service nm t s l p x →
  find name s = Ret (E_OK, Some p) s.
Proof.
  intros Hok Hn (Hp & Hl & Hx). pose proof (wp_find _ _ _ _ _ _ _ Hok Hn) as Hf. unfold wp in Hf.
  destruct (find name s) as [[e [q|]] s'| | |]; [| |done..]; cbn [fst snd] in Hf; destruct Hf as (-> & -> & Hf).
  - destruct Hf as [Hq Hql]. do 3 f_equal. destruct (so_tree _ _ _ _ _ Hok) as (_ & _ & Hs).
    apply (names_sorted_inj nm (elems t)); congruence.
  - by destruct (Hf p Hp).
Qed.

(** What [srv_call] has done when it starts to wait: the request is in the box of the
    service, and a new box of the caller is empty. *)
Record requested nm t s (args : list (list Z)) (x : srv_t) (o : Z) (bx : BOX_STATE) (w : Z) (ls : list Z) (rb : Z) s' : Prop := {
  rq_ok : ∃ mm' bm' i q rp b szs, srv_ok nm t mm' bm' s' ∧
    message mm' (sv_ipc s') i MSG_SENDED pr (packed rb (total args) args szs) ∧ mm' !! i = Some q ∧ sized szs args ∧
    box bm' (sv_ipc s') (sv_boxid x) o bx (if bool_decide (bx = BOX_RCV_BLK) then 0 else w) (ls ++ [q]) ∧
    bm' !! rb = Some rp ∧ boxes (sv_ipc s') !! rp = Some b ∧ b_owner b = pr ∧ b_state b = BOX_RCVABLE ∧ msg_ls b = [];
  rq_id : is_u32 rb ∧ rb ≠ sv_boxid x;
  rq_same : sv_tab s' = sv_tab s ∧ srv_rbt s' = srv_rbt s ∧ rbt_rwlock s' = rbt_rwlock s ∧ sv_ums s' = sv_ums s;
  rq_mem : touched (km_free (kheap (sv_ipc s))) (umem (sv_ipc s)) (umem (sv_ipc s')) ∧
    ∀ y, km_free (kheap (sv_ipc s')) y → km_free (kheap (sv_ipc s)) y;
}.

Lemma wlp_srv_call_send nm t mm bm s name param args l p x o bx w ls : srv_ok nm t mm bm s → cstr (umem (sv_ipc s)) name l →
  service nm t s l p x → sv_nparam x = len args → 48 + total args < W32 →
  args_at (umem (sv_ipc s)) (km_free (kheap (sv_ipc s))) (par_ad param) (par_sz param) args →
  box bm (sv_ipc s) (sv_boxid x) o bx w ls → (bx = BOX_RCV_BLK → w ≠ 0) → next_id_u32 (sv_ipc s) →
  wlp (srv_call_send th pr junk name param) (λ r s', match r with
    | inl err => err ≠ E_OK
    | inr rb => requested nm t s args x o bx w ls rb s'
    end) s.
Proof.
  intros Hok Hname Hsv Hnp Htot Hargs Hbox Hw Hid. assert (0 ≤ total args) as Ht0 by (unfold total; lia).
  pose proof Hsv as (Hp & Hl & Hx). destruct (so_srv _ _ _ _ _ Hok p Hp) as (_ & _ & x' & Hx' & Hn10).
  assert (x' = x) as -> by congruence. unfold MAX_CALL_PARAM in Hn10. destruct (so_mem _ _ _ _ _ Hok) as [Hhm Hby].
  unfold srv_call_send. eapply wlp_step; [by eapply find_service|]. cbv beta iota.
  assert (srv_at p s = Ret x s) as Hat by (unfold srv_at, bind, get, deref; by rewrite Hx).
  eapply wlp_step; [exact Hat|]. rewrite Hnp. apply wlp_bind, wlp_in_mem.
  eapply wp_mono; [apply (sum_words_spec _ _ _ 48 (args_sizes _ _ _ _ _ Hargs)); lia|]. intros n u [Hu ->]. rewrite set_mem_same by exact Hu. clear u Hu.
  apply wlp_bind, wp_wlp, wlp_kalloc.
  { intros e k Hk. destruct (kmalloc_err _ _ _ _ Hk) as [He _]. by apply wlp_ret. }
  intros mc k Hk. destruct (kmalloc_ok _ _ _ _ Hk) as (Hmc & _ & _).
  destruct (heap_alloc _ _ _ _ (umem (sv_ipc s)) Hk ltac:(lia) Hhm) as (Hmap & Hout & Hmw & _).
  destruct (heap_ok _ _ _ _ Hk ltac:(lia)) as (_ & Hfree & Hsub).
  assert (∀ y, span mc (48 + total args) y → ¬ named nm t y) as Hnn.
  { intros y Hy Hny. apply (so_names _ _ _ _ _ Hok y Hny). apply Hfree. unfold span in Hy. lia. }
  apply wlp_bind, wlp_in_mem. cbn [sv_ipc set_ipc umem set_kheap].
  eapply wp_mono; [apply (call_pack_spec (umem (sv_ipc s)) (km_free (kheap (sv_ipc s))) param args mc); [lia| |lia|done|done|done]|].
  { intros y Hy. apply Hfree. lia. }
  intros r u1 [-> HJ]. eapply wlp_step; [unfold assert_; by rewrite Z.eqb_refl|].
  pose proof (ci_only _ _ _ _ _ _ _ _ HJ) as Ho1.
  set (s1 := Srvs (set_umem u1 (set_kheap k (sv_ipc s))) (srv_rbt s) (sv_tab s) (rbt_rwlock s) (sv_ums s)).
  assert (srv_ok nm t mm bm s1) as Hok1.
  { pose proof (srv_ok_kmalloc nm t mm bm s (48 + total args) (inr mc) k (rbt_rwlock s) (sv_ums s) Hok ltac:(lia) Hk) as Hok0.
    apply (srv_ok_step nm t mm bm _ mm bm (set_umem u1 (set_kheap k (sv_ipc s))) (rbt_rwlock s) (sv_ums s) (span mc (48 + total args)) Hok0); try done.
    - destruct (so_ipc _ _ _ _ _ Hok0). by split.
    - by eapply touched_only. }
  change (wlp (bind ?c ?kk) ?Q _) with (wlp (bind c kk) Q s1).
  apply wlp_bind, (wlp_newbox_u32 th pr junk mm bm); [apply (so_ipc _ _ _ _ _ Hok1)|done|].
  intros [e [rb|]] I2 Hb2 Hq2 Hrb32; unfold newbox_post in Hb2; cbn [fst snd] in Hb2, Hrb32.
  2:{ destruct Hb2 as (He & _). by apply wlp_ret. }
  destruct Hb2 as (-> & Hrbn & rp & HI2 & Hbx & Hrpn). destruct Hq2 as [Q1 Q2 Q3].
  assert (∀ y, km_free (kheap I2) y → km_free (kheap (sv_ipc s)) y) as Hfr2 by (intros y Hy; by apply Hsub, Q2).
  assert (mapped (umem I2) mc (48 + total args)) as Hmap2.
  { rewrite Q1. by eapply ci_mapped. }
  assert (all_bytes (umem I2)) as Hby2 by (rewrite Q1; by eapply ci_bytes).
  cbv beta iota. apply wlp_bind, wlp_in_mem. cbn [sv_ipc set_ipc]. unfold srv_call_t.retboxid. rewrite (add32_small mc 0), Z.add_0_r by lia.
  apply wp_wrw; [intros y Hy; apply Hmap2; lia|lia|lia|]. intros u3 Hw3 Ho3.
  assert (∃ szs, sized szs args ∧ holds u3 mc (packed rb (total args) args szs)) as (szs & Hszs & Hhold).
  { apply (call_block u1 (km_free (kheap (sv_ipc s))) param args mc rb u3); [|done|lia].
    destruct HJ as [J1 J2 J3 J4 J5 J6 J7]. rewrite Q1 in Ho3. cbn [s1 sv_ipc umem set_umem] in Ho3.
    split.
    - eapply args_at_only; [exact J1|exact Ho3|]. intros y Hy. apply Hfree. lia.
    - eapply only_wider; [exact Ho3|lia..].
    - by eapply only_mapped.
    - by apply (on_bytes _ _ _ _ Ho3).
    - eapply only_holds; [exact Ho3|exact J5|cbn [length bytes4]; lia].
    - intros j k' Hj Hk'. eapply only_holds; [exact Ho3|by apply J6|cbn [length bytes4]; lia].
    - eapply only_holds; [exact Ho3|exact J7|lia]. }
  set (s3 := set_ipc (set_umem u3 I2) s1).
  assert (srv_ok nm t mm (<[rb := rp]> bm) s3) as Hok3.
  { apply (srv_ok_step nm t mm bm s1 mm (<[rb := rp]> bm) (set_umem u3 I2) _ _ (span mc (48 + total args)) Hok1); try done.
    - by destruct HI2.
    - rewrite <- Q1. eapply touched_only; [exact Ho3|]. intros y Hy. unfold span in *. lia. }
  change (wlp (bind ?c ?kk) ?Q _) with (wlp (bind c kk) Q s3).
  pose proof (len_packed rb (total args) args szs (proj1 Hszs)) as Hlen. rewrite <- Hlen.
  apply wlp_bind, (wlp_newmsg th pr junk mm (<[rb := rp]> bm) s3 mc _); [apply (so_ipc _ _ _ _ _ Hok3)|done| |lia|lia| |].
  { apply (on_bytes _ _ _ _ Ho3). done. }
  { intros e I4 He _ _. by apply wlp_ret. }
  intros i q I4 Hi HI4 Hbx4 Hmsg4 Hq4. cbv beta iota.
  eapply wlp_step; [unfold srv_at, bind, get, deref; cbn [sv_tab set_ipc s3 s1]; rewrite Hx; reflexivity|].
  assert (box (<[rb := rp]> bm) I4 (sv_boxid x) o bx w ls) as Hbox4.
  { eapply box_same; [exact Hbx4|]. eapply (box_new bm (sv_ipc s) _ rb rp); [exact Hbx|done|done|exact Hbox]. }
  assert (rb ≠ sv_boxid x) as Hne.
  { intros ->. destruct Hbox as (? & ? & Hbm & _). congruence. }
  apply wlp_bind, wp_wlp. eapply (wp_send th pr (<[i := q]> mm) (<[rb := rp]> bm)); [exact HI4|exact Hmsg4|apply lookup_insert_eq|exact Hbox4|exact Hw|].
  intros I5 HI5 Hmsg5 Hbox5 Hfr5 Hq5. apply wlp_ret. split.
  - exists (<[i := q]> mm), (<[rb := rp]> bm), i, q, rp, (Box rb BOX_RCVABLE 0 pr 0 None []), szs.
    split_and!; try done; [|apply lookup_insert_eq|apply lookup_insert_eq|].
    + apply (srv_ok_quiet nm t mm _ s3 _ _ I5 _ _ Hok3 HI5). by eapply quiet_step_trans.
    + cbn [sv_ipc set_ipc]. rewrite (if_boxes _ _ _ _ _ _ Hfr5); [cbn [sv_ipc set_ipc]; rewrite Hbx4; cbn [s3 s1 set_ipc sv_ipc set_umem boxes]; rewrite Hbx; apply lookup_insert_eq|].
      intros Hc. apply Hne. eapply (inv_box_inj _ _ rp (ok_inv _ _ _ HI4)); [apply lookup_insert_eq|done].
  - by split.
  - done.
  - destruct Hq4 as [R1 R2 R3], Hq5 as [S1 S2 S3]. cbn [sv_ipc set_ipc s3 s1 umem set_umem kheap set_kheap] in *. split.
    + rewrite S1, R1. eapply touched_trans; [|eapply touched_only; [exact Ho3|intros y Hy; apply Hfree; unfold span in Hy; lia]].
      rewrite Q1. eapply touched_only; [exact Ho1|]. intros y Hy. apply Hfree. unfold span in Hy. lia.
    + intros y Hy. by apply Hfr2, R2, S2.
Qed.

(** ** Taking a message apart *)

(** The structure on the stack, the [n] bytes at [a] for the result, and the heap of the
    process do not overlap. *)
Record frame_ok (m : mem) (Uh : U) (a n : Z) : Prop := {
  fr_stk : mapped m stk 48 ∧ 0 ≤ stk ∧ stk + 48 < W32;
  fr_buf : mapped m a n ∧ 0 ≤ a ∧ a + n < W32;
  fr_dis : stk + 48 ≤ a ∨ a + n ≤ stk;
  fr_heap : heap_mapped Uh m ∧ outside Uh stk 48 ∧ outside Uh a n;
}.
Definition owned (Uh : U) (a n : Z) : Z → Prop := λ x, span stk 48 x ∨ span a n x ∨ km_free Uh x.

Lemma frame_touched P m m' Uh a n : frame_ok m Uh a n → touched P m m' → frame_ok m' Uh a n.
Proof.
  intros [(G1 & G2) (G3 & G4) G5 (G6 & G7)] Ht.
  split; [split; [by eapply touched_map|done]|split; [by eapply touched_map|done]|done|].
  split; [|done]. intros x Hx. by apply (to_mapped _ _ _ Ht), G6.
Qed.

Lemma frame_mapped m m' Uh a n : (∀ x, is_Some (m !! x) → is_Some (m' !! x)) → frame_ok m Uh a n → frame_ok m' Uh a n.
Proof.
  intros Hm [(G1 & G2) (G3 & G4) G5 (G6 & G7)].
  split; [split; [intros x Hx; by apply Hm, G1|done]|split; [intros x Hx; by apply Hm, G3|done]|done|].
  split; [|done]. intros x Hx. by apply Hm, G6.
Qed.

Lemma wp_umalloc sz s Uh (Q : Z + Z → st → Prop) : sv_ums s !! pr = Some Uh →
  (∀ e u, kmalloc sz Uh = (inl e, u) → Q (inl e) (set_ums (<[pr := u]> (sv_ums s)) s)) →
  (∀ a u, kmalloc sz Uh = (inr a, u) → Q (inr a) (set_ums (<[pr := u]> (sv_ums s)) s)) →
  wp (umalloc pr sz) Q s.
Proof.
  intros Hu He Ha. unfold umalloc, wp, bind, get, deref. rewrite Hu. unfold ret at 1.
  destruct (kmalloc sz Uh) as [[e|a] u]; simpl; auto.
Qed.

(** The end of [srv_called]: the sizes, the number of the box to answer to, the total. *)
Lemma called_tail m Uh callee rb tot szs : frame_ok m Uh callee 56 → all_bytes m → length szs = 40%nat → is_u32 rb → is_u32 tot →
  holds m stk (bytes4 rb ++ bytes4 tot ++ szs) →
  wp (memcpy (add32 callee (srv_callee_t.sz 0)) (add32 stk (srv_call_t.sz 0)) (4 * MAX_CALL_PARAM) ;;;
      b <- rdw (add32 stk srv_call_t.retboxid) ;; wrw (add32 callee srv_callee_t.sid) b ;;;
      z <- rdw (add32 stk srv_call_t.arg_sz) ;; wrw (add32 callee srv_callee_t.arg_sz) z)
    (λ _ m', word m' callee rb ∧ word m' (callee + 8) tot ∧ holds m' (callee + 12) szs ∧ only callee 52 m m') m.
Proof.
  intros [(G1 & G2 & G3) (G4 & G5 & G6) G7 _] Hby Hl Hrb Htot Hh. apply packed_header in Hh as (H1 & H2 & H3).
  unfold srv_callee_t.sz, srv_call_t.sz, srv_call_t.retboxid, srv_callee_t.sid, srv_call_t.arg_sz, srv_callee_t.arg_sz, MAX_CALL_PARAM.
  change (12 + 4 * 0) with 12. change (8 + 4 * 0) with 8. change (4 * 10) with 40.
  rewrite (add32_small callee 12), (add32_small stk 8), (add32_small stk 0), (add32_small callee 0), (add32_small stk 4), (add32_small callee 8) by lia.
  rewrite !Z.add_0_r. replace 40 with (len szs) by (rewrite Hl; done).
  apply wp_bind, wp_memcpy; [done|done| |lia|lia|rewrite Hl; lia|rewrite Hl; lia|rewrite Hl; lia|].
  { intros x Hx. apply G4. lia. }
  intros _ m1 Hs1 Ho1. rewrite Hl in Ho1.
  apply (only_holds _ _ _ _ _ _ Ho1) in H1; [|cbn [length bytes4]; lia]. apply (only_holds _ _ _ _ _ _ Ho1) in H2; [|cbn [length bytes4]; lia].
  apply wp_bind. eapply wp_rdw; [exact H1|done|lia|lia|].
  apply wp_bind, wp_wrw; [intros x Hx; apply (only_mapped _ _ _ _ _ _ Ho1 G4); lia|lia|lia|]. intros m2 Hw2 Ho2.
  apply (only_holds _ _ _ _ _ _ Ho2) in H2; [|cbn [length bytes4]; lia]. apply (only_holds _ _ _ _ _ _ Ho2) in Hs1; [|rewrite Hl; lia].
  apply wp_bind. eapply wp_rdw; [exact H2|done|lia|lia|].
  apply wp_wrw; [intros x Hx; apply (only_mapped _ _ _ _ _ _ Ho2 (only_mapped _ _ _ _ _ _ Ho1 G4)); lia|lia|lia|]. intros m3 Hw3 Ho3.
  split_and!; [|done| |].
  - eapply only_holds; [exact Ho3|exact Hw2|cbn [length bytes4]; lia].
  - eapply only_holds; [exact Ho3|exact Hs1|rewrite Hl; lia].
  - eapply only_seq; [eapply only_wider; [exact Ho1|lia..]|eapply only_seq; [eapply only_wider; [exact Ho2|lia..]|eapply only_wider; [exact Ho3|lia..]]].
Qed.

(** The end of [srv_call]: the error, the number of results, their sizes. *)
Lemma wait_tail m Uh rp e n szs : frame_ok m Uh rp 52 → all_bytes m → length szs = 40%nat → is_u32 e → is_u32 n →
  holds m stk (bytes4 e ++ bytes4 n ++ szs) →
  wp (e <- rdw (add32 stk srv_reply_t.err) ;; wrw (add32 rp srv_replyee_t.err) e ;;;
      n <- rdw (add32 stk srv_reply_t.narg) ;; wrw (add32 rp srv_replyee_t.narg) n ;;;
      memcpy (add32 rp (srv_replyee_t.sz 0)) (add32 stk (srv_reply_t.sz 0)) (4 * MAX_CALL_PARAM))
    (λ _ m', word m' rp e ∧ word m' (rp + 4) n ∧ holds m' (rp + 8) szs ∧ only rp 48 m m') m.
Proof.
  intros [(G1 & G2 & G3) (G4 & G5 & G6) G7 _] Hby Hl He Hn Hh. apply packed_header in Hh as (H1 & H2 & H3).
  unfold srv_reply_t.sz, srv_replyee_t.sz, srv_reply_t.err, srv_replyee_t.err, srv_reply_t.narg, srv_replyee_t.narg, MAX_CALL_PARAM.
  change (8 + 4 * 0) with 8. change (4 * 10) with 40.
  rewrite (add32_small rp 8), (add32_small stk 8), (add32_small stk 0), (add32_small rp 0), (add32_small stk 4), (add32_small rp 4) by lia.
  rewrite !Z.add_0_r. replace 40 with (len szs) by (rewrite Hl; done).
  apply wp_bind. eapply wp_rdw; [exact H1|done|lia|lia|].
  apply wp_bind, wp_wrw; [intros x Hx; apply G4; lia|lia|lia|]. intros m1 Hw1 Ho1.
  apply (only_holds _ _ _ _ _ _ Ho1) in H2; [|cbn [length bytes4]; lia]. apply (only_holds _ _ _ _ _ _ Ho1) in H3; [|rewrite Hl; lia].
  apply wp_bind. eapply wp_rdw; [exact H2|done|lia|lia|].
  apply wp_bind, wp_wrw; [intros x Hx; apply (only_mapped _ _ _ _ _ _ Ho1 G4); lia|lia|lia|]. intros m2 Hw2 Ho2.
  apply (only_holds _ _ _ _ _ _ Ho2) in H3; [|rewrite Hl; lia].
  apply wp_memcpy; [done|by apply (on_bytes _ _ _ _ Ho2), (on_bytes _ _ _ _ Ho1)| |lia|lia|rewrite Hl; lia|rewrite Hl; lia|rewrite Hl; lia|].
  { intros x Hx. apply (only_mapped _ _ _ _ _ _ Ho2 (only_mapped _ _ _ _ _ _ Ho1 G4)). lia. }
  intros _ m3 Hs3 Ho3. rewrite Hl in Ho3. split_and!; [| |done|].
  - eapply only_holds; [exact Ho3| |cbn [length bytes4]; lia]. eapply only_holds; [exact Ho2|exact Hw1|cbn [length bytes4]; lia].
  - eapply only_holds; [exact Ho3|exact Hw2|cbn [length bytes4]; lia].
  - eapply only_seq; [eapply only_wider; [exact Ho1|lia..]|eapply only_seq; [eapply only_wider; [exact Ho2|lia..]|eapply only_wider; [exact Ho3|lia..]]].
Qed.

Lemma run_size mm bm s i bl : ipc_ok mm bm (sv_ipc s) → message mm (sv_ipc s) i MSG_RECIEVED pr bl →
  in_ipc (msg_size th pr i) s = Ret (E_OK, Some (len bl)) s.
Proof.
  intros Hok (q & m & Hi & Hq & Hst & Ho & _ & _ & Hsz & _). unfold in_ipc, zoom.
  rewrite (run_msg_size _ _ _ _ _ _ Hok). unfold size_result, readable. rewrite Hi, Hq, Ho, Z.eqb_refl, bool_decide_eq_true_2 by done.
  cbn [andb]. rewrite Hsz. by destruct s.
Qed.

(** The arguments, in a block that the heap [Uh] of the process had and [Uh'] has not,
    whose address is at [at_]; no block when they are empty. *)
Definition placed (m : mem) (Uh Uh' : U) (at_ : Z) (args : list (list Z)) : Prop :=
  total args = 0 ∨ ∃ c, word m at_ c ∧ is_u32 c ∧ holds m c (concat args) ∧ outside Uh' c (total args) ∧ c + total args < W32 ∧
    ∀ y, span c (total args) y → km_free Uh y.

Record callee_has (m : mem) (Uh Uh' : U) (callee rb : Z) (args : list (list Z)) (szs : list Z) : Prop := {
  ch_sid : word m callee rb;
  ch_total : word m (callee + 8) (total args);
  ch_sizes : holds m (callee + 12) szs;
  ch_cache : placed m Uh Uh' (callee + 52) args;
}.

(** What a handler that reads a message leaves: everything but its message, its box, its
    stack, its buffer and its heap as it was. *)
Record reads nm t mm bm s (i bi : Z) (Uh : U) (a n : Z) (Uh' : U) s' : Prop := {
  rd_ok : srv_ok nm t mm bm s';
  rd_same : srv_rbt s' = srv_rbt s ∧ sv_tab s' = sv_tab s ∧ rbt_rwlock s' = rbt_rwlock s;
  rd_ums : sv_ums s' !! pr = Some Uh' ∧ ∀ o, o ≠ pr → sv_ums s' !! o = sv_ums s !! o;
  rd_frame : ipc_frame mm bm i bi (sv_ipc s) (sv_ipc s');
  rd_mem : touched (owned Uh a n) (umem (sv_ipc s)) (umem (sv_ipc s'));
  rd_heap : (∀ y, km_free (kheap (sv_ipc s')) y → km_free (kheap (sv_ipc s)) y) ∧ ∀ y, km_free Uh' y → km_free Uh y;
}.

(** Storing the address of a block just got, and reading the data of the message into it. *)
Lemma wp_cache s Uh a n at_ sz c Uh' : 0 < sz → frame_ok (umem (sv_ipc s)) Uh a n → a ≤ at_ → at_ + 4 ≤ a + n → kmalloc sz Uh = (inr c, Uh') →
  wp (in_mem (wrw at_ c) ;;; in_mem (rdw at_)) (λ r s', r = c ∧ ∃ u, s' = set_ipc (set_umem u (sv_ipc s)) s ∧
    only at_ 4 (umem (sv_ipc s)) u ∧ word u at_ c ∧ is_u32 c ∧ mapped u c sz ∧ outside Uh' c sz ∧ c + sz < W32 ∧
    (∀ y, span c sz y → km_free Uh y) ∧ ∀ y, km_free Uh' y → km_free Uh y) s.
Proof.
  intros Hsz [_ (G1 & G2 & G3) _ (G4 & _)] Ha1 Ha2 Hk.
  destruct (heap_alloc _ _ _ _ (umem (sv_ipc s)) Hk ltac:(lia) G4) as (K1 & K2 & K3 & _).
  destruct (heap_ok _ _ _ _ Hk ltac:(lia)) as (_ & K4 & K5). destruct (kmalloc_ok _ _ _ _ Hk) as (K6 & _ & _).
  apply wp_bind, wp_in_buffers, wp_wrw; [intros x Hx; apply G1; lia|lia|lia|]. intros u Hu Ho.
  apply wp_in_buffers. cbn [sv_ipc set_ipc umem set_umem]. eapply wp_rdw; [exact Hu|unfold is_u32; lia|lia|lia|].
  split; [done|]. exists u. split_and!; try done; try (unfold is_u32; lia).
  - by eapply only_mapped.
  - intros y Hy. by apply K5.
Qed.

Definition called_post nm t mm bm s (i bi w : Z) (ls : list Z) (Uh : U) (callee rb : Z) args szs (err : Z) s' : Prop :=
  ∃ Uh', reads nm t mm bm s i bi Uh callee 56 Uh' s' ∧ box bm (sv_ipc s') bi pr BOX_RCVABLE w ls ∧
    if err =? E_OK then callee_has (umem (sv_ipc s')) Uh Uh' callee rb args szs else True.

(** They stay when the rest of the buffer is written. *)
Lemma placed_only m m' Uh Uh' a n k args : placed m Uh Uh' (a + k) args → only a k m m' → frame_ok m Uh a n → k + 4 ≤ n →
  placed m' Uh Uh' (a + k) args.
Proof.
  intros [Hz|(c & H1 & H2 & H3 & H4 & H5 & H6)] Ho [_ _ _ (_ & _ & Hout)] Hk; [by left|right].
  exists c. split_and!; try done.
  - eapply only_holds; [exact Ho|exact H1|cbn [length bytes4]; lia].
  - eapply only_holds_at; [exact Ho|exact H3|]. intros x Hx Hx'. apply (Hout x); [lia|]. by apply H6.
Qed.

Lemma reads_intro nm t mm bm s I1 i bi Uh a n u um' Uh' : srv_ok nm t mm bm s → (∀ y, owned Uh a n y → ¬ named nm t y) →
  ipc_ok mm bm I1 → quiet_step (sv_ipc s) I1 → ipc_frame mm bm i bi (sv_ipc s) I1 →
  touched (owned Uh a n) (umem (sv_ipc s)) u → um' !! pr = Some Uh' → (∀ o, o ≠ pr → um' !! o = sv_ums s !! o) →
  (∀ y, km_free Uh' y → km_free Uh y) →
  reads nm t mm bm s i bi Uh a n Uh' (Srvs (set_umem u I1) (srv_rbt s) (sv_tab s) (rbt_rwlock s) um').
Proof.
  intros Hok Hnn HI1 [Q1 Q2 Q3] Hf1 Ht Hum Hums Hsub. split; try done.
  - apply (srv_ok_step nm t mm bm s mm bm (set_umem u I1) _ _ (owned Uh a n) Hok); try done. by destruct HI1.
  - by destruct Hf1.
Qed.

Lemma called_finish nm t mm bm s I1 i bi w ls Uh callee rb args szs u um' Uh' :
  srv_ok nm t mm bm s → (∀ y, owned Uh callee 56 y → ¬ named nm t y) → frame_ok (umem (sv_ipc s)) Uh callee 56 →
  ipc_ok mm bm I1 → quiet_step (sv_ipc s) I1 → ipc_frame mm bm i bi (sv_ipc s) I1 → box bm I1 bi pr BOX_RCVABLE w ls →
  is_u32 rb → 48 + total args < W32 → sized szs args →
  touched (owned Uh callee 56) (umem (sv_ipc s)) u → holds u stk (bytes4 rb ++ bytes4 (total args) ++ szs) →
  um' !! pr = Some Uh' → (∀ o, o ≠ pr → um' !! o = sv_ums s !! o) → (∀ y, km_free Uh' y → km_free Uh y) →
  placed u Uh Uh' (callee + 52) args →
  wp (in_mem (memcpy (add32 callee (srv_callee_t.sz 0)) (add32 stk (srv_call_t.sz 0)) (4 * MAX_CALL_PARAM) ;;;
      b <- rdw (add32 stk srv_call_t.retboxid) ;; wrw (add32 callee srv_callee_t.sid) b ;;;
      z <- rdw (add32 stk srv_call_t.arg_sz) ;; wrw (add32 callee srv_callee_t.arg_sz) z) ;;; ret E_OK)
    (called_post nm t mm bm s i bi w ls Uh callee rb args szs)
    (Srvs (set_umem u I1) (srv_rbt s) (sv_tab s) (rbt_rwlock s) um').
Proof.
  intros Hok Hnn Hfr HI1 Hq1 Hf1 Hb1 Hrb Htot Hszs Ht Hh Hum Hums Hsub Hpl. assert (0 ≤ total args) by (unfold total; lia).
  pose proof (frame_touched _ _ _ _ _ _ Hfr Ht) as Hfr'. destruct (so_mem _ _ _ _ _ Hok) as [_ Hby].
  apply wp_bind, wp_in_buffers. cbn [sv_ipc umem set_umem].
  eapply wp_mono; [eapply (called_tail u Uh callee rb (total args) szs Hfr'); [by apply (to_bytes _ _ _ Ht)|apply Hszs|done|unfold is_u32; lia|done]|].
  intros [] u' (Hw1 & Hw2 & Hw3 & Ho). apply wp_ret. exists Uh'.
  assert (touched (owned Uh callee 56) (umem (sv_ipc s)) u') as Ht'.
  { eapply touched_trans; [exact Ht|]. eapply touched_only; [exact Ho|]. intros y Hy. right; left. unfold span in *. lia. }
  split; [by apply (reads_intro nm t mm bm s I1)|]. split; [exact Hb1|].
  cbn [Z.eqb E_OK]. split; [done|done|done|]. by eapply placed_only.
Qed.

Lemma wp_srv_called nm t mm bm s others name l p x Uh callee i q o w ls rb args szs :
  srv_ok nm t mm bm s → cstr (umem (sv_ipc s)) name l → service nm t s l p x → sv_owner x = pr → 0 ≤ rbt_rwlock s →
  sv_ums s !! pr = Some Uh → frame_ok (umem (sv_ipc s)) Uh callee 56 → (∀ y, owned Uh callee 56 y → ¬ named nm t y) →
  message mm (sv_ipc s) i MSG_SENDED o (packed rb (total args) args szs) → sized szs args → mm !! i = Some q →
  box bm (sv_ipc s) (sv_boxid x) pr BOX_RCVABLE w (q :: ls) → is_u32 rb → 48 + total args < W32 →
  wp (srv_called th pr stk others name callee) (called_post nm t mm bm s i (sv_boxid x) w ls Uh callee rb args szs) s.
Proof.
  intros Hok Hname Hsv Hown Hlk Hums Hfr Hnn Hmsg Hszs Hi Hbox Hrb Htot. assert (0 ≤ total args) as Ht0 by (unfold total; lia).
  pose proof Hsv as (Hp & Hl & Hx). pose proof (len_packed rb (total args) args szs (proj1 Hszs)) as Hlen.
  destruct s as [I rt tab lk um]. cbn [sv_ipc rbt_rwlock sv_ums sv_tab] in *.
  unfold srv_called, spin_read_lock. eapply wp_step.
  { unfold bind, get. cbn [rbt_rwlock]. rewrite (proj2 (Z.eqb_neq _ _)) by lia. reflexivity. }
  set (s1 := set_rwlock (lk + 1) _).
  assert (srv_ok nm t mm bm s1) as Hok1.
  { apply (srv_ok_quiet _ _ _ _ _ mm bm I (lk + 1) um Hok (so_ipc _ _ _ _ _ Hok)). by split. }
  eapply wp_step; [by eapply (find_service nm t mm bm s1)|].
  eapply wp_step; [unfold spin_read_unlock, bind, get, assert_; cbn [rbt_rwlock s1 set_rwlock]; rewrite (proj2 (Z.ltb_lt _ _)) by lia; reflexivity|].
  cbv beta iota. match goal with |- wp _ _ ?x => change x with (Srvs I rt tab (lk + 1 - 1) um) end. rewrite Z.add_simpl_r.
  eapply wp_step; [unfold srv_at, bind, get, deref; cbn [sv_tab]; rewrite Hx; reflexivity|].
  rewrite Hown, Z.eqb_refl. cbn [negb]. clear s1 Hok1.
  set (s := Srvs I rt tab lk um) in *.
  apply wp_bind. eapply (wp_recieve th pr others mm bm s i o _ _ w q ls); [apply (so_ipc _ _ _ _ _ Hok)|done|done|done|].
  intros I1 HI1 Hm1 Hb1 Hf1 Hq1. cbv beta iota.
  set (s2 := set_ipc I1 s).
  assert (srv_ok nm t mm bm s2) as Hok2 by (by apply (srv_ok_quiet _ _ _ _ _ mm bm I1 lk um Hok)).
  eapply wp_step; [by eapply (run_size mm bm s2)|]. cbv beta iota.
  eapply wp_step; [unfold assert_, srv_call_t.size; rewrite Hlen, (proj2 (Z.leb_le _ _)) by lia; reflexivity|].
  assert (umem I1 = umem I) as Hum1 by apply Hq1.
  pose proof Hfr as [(F1 & F2 & F3) (F4 & F5 & F6) F7 (F8 & F9 & F10)].
  apply wp_bind. eapply (wp_msg_read th pr mm bm s2 i); [apply (so_ipc _ _ _ _ _ Hok2)|exact Hm1|lia|unfold srv_call_t.size; lia|
    unfold srv_call_t.size; lia|lia|cbn [s2 sv_ipc set_ipc]; by rewrite Hum1|lia|unfold srv_call_t.size; lia|].
  intros u3 Hh3 Ho3. change (Z.to_nat srv_call_t.size) with 48%nat in Hh3. change (Z.to_nat 0) with 0%nat in Hh3.
  rewrite drop_0, packed_head in Hh3 by apply Hszs. unfold srv_call_t.size in Ho3. cbn [s2 sv_ipc set_ipc] in Ho3. rewrite Hum1 in Ho3.
  eapply wp_step; [done|].
  assert (touched (owned Uh callee 56) (umem I) u3) as Ht3.
  { eapply touched_only; [exact Ho3|]. intros y Hy. by left. }
  pose proof (frame_touched _ _ _ _ _ _ Hfr Ht3) as Hfr3. pose proof (packed_header _ _ _ _ _ Hh3) as (_ & Hw3 & _).
  match goal with |- wp _ _ ?x => change x with (Srvs (set_umem u3 I1) rt tab lk um) end.
  assert (∀ {B} (k : Z → M st B) v u um' Q, word u (stk + 4) v → is_u32 v →
    wp (k v) Q (Srvs (set_umem u I1) rt tab lk um') →
    wp (bind (in_mem (rdw (add32 stk srv_call_t.arg_sz))) k) Q (Srvs (set_umem u I1) rt tab lk um')) as Hrd.
  { intros B k v u um' Q Hw Hv Hk. unfold srv_call_t.arg_sz. rewrite add32_small by lia.
    apply wp_bind, wp_in_buffers. by eapply wp_rdw; [exact Hw| |lia|lia|]. }
  apply (Hrd _ _ _ _ _ _ Hw3); [unfold is_u32; lia|].
  destruct (Z.ltb_spec 0 (total args)) as [Hpos|Hz].
  2:{ eapply wp_step; [reflexivity|]. cbn [negb E_OK Z.eqb].
      eapply (called_finish nm t mm bm s I1 i (sv_boxid x) w ls Uh callee rb args szs u3 um Uh); try done. left. lia. }
  apply wp_bind, wp_bind. eapply wp_umalloc; [exact Hums| |]; cbn [sv_ums set_ums sv_ipc srv_rbt sv_tab rbt_rwlock].
  { intros e u4 Hk. destruct (kmalloc_err _ _ _ _ Hk) as [He _]. apply wp_ret. rewrite (proj2 (Z.eqb_neq _ _)) by done.
    apply wp_ret. exists u4. rewrite (proj2 (Z.eqb_neq _ _)) by done. split; [|done].
    apply (reads_intro nm t mm bm s I1); try done; [apply lookup_insert_eq|intros ? ?; by rewrite lookup_insert_ne|by eapply heap_err]. }
  intros c u4 Hk. cbv beta iota.
  match goal with |- wp _ _ ?x => change x with (Srvs (set_umem u3 I1) rt tab lk (<[pr := u4]> um)) end.
  assert (callee + 52 = add32 callee srv_callee_t.cache) as Hat by (unfold srv_callee_t.cache; by rewrite add32_small by lia).
  pose proof (wp_cache (Srvs (set_umem u3 I1) rt tab lk (<[pr := u4]> um)) Uh callee 56 (callee + 52) (total args) c u4 Hpos Hfr3 ltac:(lia) ltac:(lia) Hk) as Hc.
  rewrite <- Hat. rewrite wp_bind in Hc. apply wp_bind. eapply wp_mono; [exact Hc|]. clear Hc. intros [] s4 Hc.
  apply wp_bind. eapply wp_mono; [exact Hc|]. clear Hc. intros r s5 (-> & u5 & -> & Ho5 & Hw5 & Hc32 & Hcm & Hco & Hcw & Hcf & Hcs).
  cbn [set_ipc sv_ipc srv_rbt sv_tab rbt_rwlock sv_ums umem set_umem] in *.
  match goal with |- wp _ _ ?x => change x with (Srvs (set_umem u5 I1) rt tab lk (<[pr := u4]> um)) end.
  apply (only_holds _ _ _ _ _ _ Ho5) in Hw3; [|cbn [length bytes4]; lia].
  apply (Hrd _ _ _ _ _ _ Hw3); [unfold is_u32; lia|].
  assert (ipc_ok mm bm (set_umem u5 I1)) as HI5 by by destruct HI1.
  apply wp_bind. eapply (wp_msg_read th pr mm bm _ i (packed rb (total args) args szs)); [exact HI5|exact Hm1|done|lia|
    unfold srv_call_t.size; lia|lia|exact Hcm|unfold is_u32 in Hc32; lia|lia|].
  cbn [set_ipc sv_ipc srv_rbt sv_tab rbt_rwlock sv_ums umem set_umem].
  intros u6 Hh6 Ho6. change (Z.to_nat srv_call_t.size) with 48%nat in Hh6. rewrite packed_data in Hh6 by apply Hszs.
  rewrite firstn_all2 in Hh6 by (unfold total; lia).
  eapply wp_step; [done|]. apply wp_ret. cbn [negb E_OK Z.eqb].
  match goal with |- wp _ _ ?x => change x with (Srvs (set_umem u6 I1) rt tab lk (<[pr := u4]> um)) end.
  assert (∀ a l, holds u3 a l → (∀ y, span a (len l) y → ¬ span (callee + 52) 4 y ∧ ¬ km_free Uh y) → holds u6 a l) as Hkeep.
  { intros a h Hh Hd. eapply only_holds_at; [exact Ho6| |intros y Hy Hy'; destruct (Hd y Hy') as [_ Hn]; by apply Hn, Hcf].
    eapply only_holds_at; [exact Ho5|exact Hh|]. intros y Hy Hy'. by destruct (Hd y Hy'). }
  eapply (called_finish nm t mm bm s I1 i (sv_boxid x) w ls Uh callee rb args szs u6 _ u4); try done.
  - eapply touched_trans; [exact Ht3|]. eapply touched_trans; [eapply touched_only; [exact Ho5|]|eapply touched_only; [exact Ho6|]].
    + intros y Hy. right; left. unfold span in *. lia.
    + intros y Hy. right; right. by apply Hcf.
  - apply Hkeep; [done|]. rewrite !length_app, (proj1 Hszs). intros y Hy. unfold span in *. cbn [length bytes4] in Hy.
    split; [lia|]. apply F9. lia.
  - apply lookup_insert_eq.
  - intros ? ?. by rewrite lookup_insert_ne.
  - right. exists c. split_and!; try done. eapply only_holds_at; [exact Ho6|exact Hw5|].
    intros y Hy Hy'. apply (F10 y); [cbn [length bytes4] in Hy'; lia|by apply Hcf].
Qed.

(** ** Answering *)
Record replied nm t bm s (sid o : Z) (x : BOX_STATE) (w : Z) (ls : list Z) (e : Z) args szs s' : Prop := {
  rp_sent : ∃ mm i q, srv_ok nm t mm bm s' ∧ message mm (sv_ipc s') i MSG_SENDED pr (packed e (len args) args szs) ∧
    mm !! i = Some q ∧ box bm (sv_ipc s') sid o x (if bool_decide (x = BOX_RCV_BLK) then 0 else w) (ls ++ [q]);
  rp_same : sv_tab s' = sv_tab s ∧ srv_rbt s' = srv_rbt s ∧ rbt_rwlock s' = rbt_rwlock s ∧ sv_ums s' = sv_ums s;
  rp_mem : touched (km_free (kheap (sv_ipc s))) (umem (sv_ipc s)) (umem (sv_ipc s')) ∧
    ∀ y, km_free (kheap (sv_ipc s')) y → km_free (kheap (sv_ipc s)) y;
}.

Lemma replyer_sized m bad rp e sid args szs : replyer_at m bad rp e sid args szs → sized szs args.
Proof.
  intros [G1 G2 G3 G4 G5 [G6 G6'] (_ & _ & G7 & G8) _]. apply (words_sized m (rp + 12)); [done|done|done|].
  intros i l Hi. destruct (G5 i l Hi) as (a & Ha). pose proof (lookup_lt_Some _ _ _ Hi). unfold srv_replyer_t.sz in Ha.
  pose proof (aa_size _ _ _ _ _ _ Ha) as Hz. rewrite add32_small in Hz by lia.
  by replace (rp + 12 + 4 * Z.of_nat i) with (rp + (12 + 4 * Z.of_nat i)) by lia.
Qed.

Lemma wlp_srv_reply nm t mm bm s rp e sid args szs o x w ls : srv_ok nm t mm bm s →
  replyer_at (umem (sv_ipc s)) (km_free (kheap (sv_ipc s))) rp e sid args szs → 48 + total args < W32 →
  box bm (sv_ipc s) sid o x w ls → (x = BOX_RCV_BLK → w ≠ 0) →
  wlp (srv_reply th pr junk rp) (λ err s', err = E_OK → replied nm t bm s sid o x w ls e args szs s') s.
Proof.
  intros Hok Hra Htot Hbox Hw. pose proof (replyer_sized _ _ _ _ _ _ _ Hra) as Hszs.
  pose proof (ra_u32 _ _ _ _ _ _ _ Hra) as (He & Hsid & Hrp & Hrpw). pose proof (ra_len _ _ _ _ _ _ _ Hra) as [Hl40 Hn].
  assert (0 ≤ total args) as Ht0 by (unfold total; lia). destruct (so_mem _ _ _ _ _ Hok) as [Hhm Hby].
  unfold srv_reply, srv_replyer_t.narg, srv_replyer_t.sid, srv_reply_t.size. rewrite (add32_small rp 8), (add32_small rp 4) by lia.
  apply wlp_bind, wlp_in_mem. eapply wp_rdw; [apply Hra|unfold is_u32, W32; lia|lia|lia|]. rewrite set_mem_same by done.
  apply wlp_bind, wlp_in_mem. eapply wp_mono; [apply (sum_words_spec _ _ _ 48 (args_sizes _ _ _ _ _ (ra_args _ _ _ _ _ _ _ Hra))); lia|].
  intros n u [Hu ->]. rewrite set_mem_same by exact Hu. clear u Hu.
  apply wlp_bind, wp_wlp, wlp_kalloc.
  { intros e' k Hk. destruct (kmalloc_err _ _ _ _ Hk) as [He' _]. by apply wlp_ret. }
  intros mr k Hk. destruct (kmalloc_ok _ _ _ _ Hk) as (Hmr & _ & _).
  destruct (heap_alloc _ _ _ _ (umem (sv_ipc s)) Hk ltac:(lia) Hhm) as (Hmap & Hout & Hmw & _).
  destruct (heap_ok _ _ _ _ Hk ltac:(lia)) as (_ & Hfree & Hsub).
  assert (∀ y, span mr (48 + total args) y → ¬ named nm t y) as Hnn.
  { intros y Hy Hny. apply (so_names _ _ _ _ _ Hok y Hny). apply Hfree. unfold span in Hy. lia. }
  apply wlp_bind, wlp_in_mem. cbn [sv_ipc set_ipc umem set_kheap].
  eapply wp_mono; [apply (reply_pack_spec (km_free (kheap (sv_ipc s))) rp e sid args szs mr); [lia| |done|done|done]|].
  { intros y Hy. apply Hfree. lia. }
  intros [] u1 [HB1 Ho1].
  set (s1 := Srvs (set_umem u1 (set_kheap k (sv_ipc s))) (srv_rbt s) (sv_tab s) (rbt_rwlock s) (sv_ums s)).
  assert (srv_ok nm t mm bm s1) as Hok1.
  { pose proof (srv_ok_kmalloc nm t mm bm s (48 + total args) (inr mr) k (rbt_rwlock s) (sv_ums s) Hok ltac:(lia) Hk) as Hok0.
    apply (srv_ok_step nm t mm bm _ mm bm (set_umem u1 (set_kheap k (sv_ipc s))) (rbt_rwlock s) (sv_ums s) (span mr (48 + total args)) Hok0); try done.
    - destruct (so_ipc _ _ _ _ _ Hok0). by split.
    - by eapply touched_only. }
  change (wlp (bind ?c ?kk) ?Q _) with (wlp (bind c kk) Q s1).
  pose proof (len_packed e (len args) args szs Hl40) as Hlen. rewrite <- Hlen.
  apply wlp_bind, (wlp_newmsg th pr junk mm bm s1 mr _); [apply (so_ipc _ _ _ _ _ Hok1)|by apply reply_block_holds| |lia|lia| |].
  { by apply (on_bytes _ _ _ _ Ho1). }
  { intros e' I4 He' _ _. by apply wlp_ret. }
  intros i q I4 Hi HI4 Hbx4 Hmsg4 Hq4. cbv beta iota.
  assert (replyer_at (umem I4) (km_free (kheap (sv_ipc s))) rp e sid args szs) as Hra4.
  { destruct Hq4 as [-> _ _]. eapply replyer_at_only; [exact Hra|exact Ho1|]. intros y Hy. apply Hfree. lia. }
  apply wlp_bind, wlp_in_mem. cbn [sv_ipc set_ipc]. eapply wp_rdw; [apply Hra4|done|lia|lia|].
  change (wlp ?c ?Q (set_ipc (set_umem (umem I4) I4) ?z)) with (wlp c Q (set_ipc (set_umem (umem (sv_ipc (set_ipc I4 z))) (sv_ipc (set_ipc I4 z))) (set_ipc I4 z))).
  rewrite set_mem_same by done.
  apply wp_wlp. eapply (wp_send th pr (<[i := q]> mm) bm); [exact HI4|exact Hmsg4|apply lookup_insert_eq|eapply box_same; [exact Hbx4|exact Hbox]|exact Hw|].
  intros I5 HI5 Hmsg5 Hbox5 Hfr5 Hq5 _. split.
  - exists (<[i := q]> mm), i, q. split_and!; [|exact Hmsg5|apply lookup_insert_eq|exact Hbox5].
    apply (srv_ok_quiet nm t mm _ s1 _ _ I5 _ _ Hok1 HI5). by eapply quiet_step_trans.
  - done.
  - destruct Hq4 as [R1 R2 R3], Hq5 as [S1 S2 S3]. cbn [sv_ipc set_ipc s1 umem set_umem kheap set_kheap] in *. split.
    + rewrite S1, R1. eapply touched_only; [exact Ho1|]. intros y Hy. apply Hfree. unfold span in Hy. lia.
    + intros y Hy. by apply Hsub, R2, S2.
Qed.

(** ** Reading the answer *)
Record replyee_has (m : mem) (Uh Uh' : U) (rp e : Z) (args : list (list Z)) (szs : list Z) : Prop := {
  re_err : word m rp e;
  re_narg : word m (rp + 4) (len args);
  re_sizes : holds m (rp + 8) szs;
  re_cache : placed m Uh Uh' (rp + 48) args;
}.

Definition read_post nm t mm bm s (i bi : Z) (Uh : U) (rp e : Z) args szs (err : Z) s' : Prop :=
  ∃ Uh', reads nm t mm bm s i bi Uh rp 52 Uh' s' ∧
    if err =? E_OK then replyee_has (umem (sv_ipc s')) Uh Uh' rp e args szs else True.

Lemma ipc_frame_refl mm bm i bi I : ipc_frame mm bm i bi I I.
Proof. by split. Qed.

Lemma read_finish nm t mm bm s i bi Uh rp e args szs u um' Uh' :
  srv_ok nm t mm bm s → (∀ y, owned Uh rp 52 y → ¬ named nm t y) → frame_ok (umem (sv_ipc s)) Uh rp 52 →
  is_u32 e → (length args ≤ 10)%nat → sized szs args →
  touched (owned Uh rp 52) (umem (sv_ipc s)) u → holds u stk (bytes4 e ++ bytes4 (len args) ++ szs) →
  um' !! pr = Some Uh' → (∀ o, o ≠ pr → um' !! o = sv_ums s !! o) → (∀ y, km_free Uh' y → km_free Uh y) →
  placed u Uh Uh' (rp + 48) args →
  wp (in_mem (e <- rdw (add32 stk srv_reply_t.err) ;; wrw (add32 rp srv_replyee_t.err) e ;;;
      n <- rdw (add32 stk srv_reply_t.narg) ;; wrw (add32 rp srv_replyee_t.narg) n ;;;
      memcpy (add32 rp (srv_replyee_t.sz 0)) (add32 stk (srv_reply_t.sz 0)) (4 * MAX_CALL_PARAM)) ;;; ret E_OK)
    (read_post nm t mm bm s i bi Uh rp e args szs)
    (Srvs (set_umem u (sv_ipc s)) (srv_rbt s) (sv_tab s) (rbt_rwlock s) um').
Proof.
  intros Hok Hnn Hfr He Hn Hszs Ht Hh Hum Hums Hsub Hpl.
  pose proof (frame_touched _ _ _ _ _ _ Hfr Ht) as Hfr'. destruct (so_mem _ _ _ _ _ Hok) as [_ Hby].
  apply wp_bind, wp_in_buffers. cbn [sv_ipc umem set_umem].
  eapply wp_mono; [eapply (wait_tail u Uh rp e (len args) szs Hfr'); [by apply (to_bytes _ _ _ Ht)|apply Hszs|done|unfold is_u32, W32; lia|done]|].
  intros [] u' (Hw1 & Hw2 & Hw3 & Ho). apply wp_ret. exists Uh'.
  assert (touched (owned Uh rp 52) (umem (sv_ipc s)) u') as Ht'.
  { eapply touched_trans; [exact Ht|]. eapply touched_only; [exact Ho|]. intros y Hy. right; left. unfold span in *. lia. }
  split; [apply (reads_intro nm t mm bm s (sv_ipc s)); try done; apply Hok|].
  cbn [Z.eqb E_OK]. split; [done|done|done|]. by eapply placed_only.
Qed.

Lemma wp_srv_call_read nm t mm bm s i bi o Uh rp e args szs : srv_ok nm t mm bm s → sv_ums s !! pr = Some Uh →
  frame_ok (umem (sv_ipc s)) Uh rp 52 → (∀ y, owned Uh rp 52 y → ¬ named nm t y) → o = pr →
  message mm (sv_ipc s) i MSG_RECIEVED o (packed e (len args) args szs) → sized szs args → is_u32 e → (length args ≤ 10)%nat →
  48 + total args < W32 →
  wp (srv_call_read th pr stk i rp 0) (read_post nm t mm bm s i bi Uh rp e args szs) s.
Proof.
  intros Hok Hums Hfr Hnn -> Hm Hszs He Hn Htot. assert (0 ≤ total args) as Ht0 by (unfold total; lia).
  pose proof (len_packed e (len args) args szs (proj1 Hszs)) as Hlen.
  pose proof Hfr as [(F1 & F2 & F3) (F4 & F5 & F6) F7 (F8 & F9 & F10)].
  unfold srv_call_read, srv_reply_t.size. assert (add32 stk srv_reply_t.narg = stk + 4) as Hn4 by (apply add32_small; lia).
  apply wp_bind. eapply (wp_msg_read th pr mm bm s i); [apply (so_ipc _ _ _ _ _ Hok)|exact Hm|lia|lia|lia|lia|done|lia|lia|].
  intros u3 Hh3 Ho3. change (Z.to_nat 48) with 48%nat in Hh3. change (Z.to_nat 0) with 0%nat in Hh3.
  rewrite drop_0, packed_head in Hh3 by apply Hszs. cbn [negb E_OK Z.eqb].
  assert (touched (owned Uh rp 52) (umem (sv_ipc s)) u3) as Ht3.
  { eapply touched_only; [exact Ho3|]. intros y Hy. by left. }
  pose proof (frame_touched _ _ _ _ _ _ Hfr Ht3) as Hfr3. pose proof (packed_header _ _ _ _ _ Hh3) as (_ & Hw3 & Hz3).
  apply wp_bind, wp_in_buffers. cbn [sv_ipc set_ipc umem set_umem]. eapply wp_rdw; [rewrite Hn4; exact Hw3|unfold is_u32, W32; lia|lia|lia|].
  apply wp_bind, wp_in_buffers. cbn [sv_ipc set_ipc umem set_umem]. eapply wp_mono.
  { apply (sum_words_spec _ (λ i, add32 stk (srv_reply_t.sz i)) args 0); [|lia|lia]. intros j l Hj. unfold srv_reply_t.sz.
    pose proof (lookup_lt_Some _ _ _ Hj). rewrite add32_small by lia. split; [|lia].
    replace (stk + (8 + 4 * Z.of_nat j)) with (stk + 8 + 4 * Z.of_nat j) by lia. by eapply sized_words. }
  intros n u [-> ->]. rewrite Z.add_0_l.
  match goal with |- wp _ _ ?x => change x with (Srvs (set_umem u3 (sv_ipc s)) (srv_rbt s) (sv_tab s) (rbt_rwlock s) (sv_ums s)) end.
  destruct (Z.ltb_spec 0 (total args)) as [Hpos|Hz].
  2:{ eapply wp_step; [reflexivity|]. cbn [negb E_OK Z.eqb].
      eapply (read_finish nm t mm bm s i bi Uh rp e args szs u3 (sv_ums s) Uh); try done. left. lia. }
  cbn [negb Z.eqb]. apply wp_bind, wp_bind. eapply wp_umalloc; [exact Hums| |]; cbn [sv_ums set_ums sv_ipc srv_rbt sv_tab rbt_rwlock].
  { intros e' u4 Hk. destruct (kmalloc_err _ _ _ _ Hk) as [He' _]. apply wp_ret. rewrite (proj2 (Z.eqb_neq _ _)) by done.
    apply wp_ret. exists u4. rewrite (proj2 (Z.eqb_neq _ _)) by done. split; [|done].
    apply (reads_intro nm t mm bm s (sv_ipc s)); try done; [apply Hok|apply lookup_insert_eq|intros ? ?; by rewrite lookup_insert_ne|by eapply heap_err]. }
  intros c u4 Hk. cbv beta iota.
  match goal with |- wp _ _ ?x => change x with (Srvs (set_umem u3 (sv_ipc s)) (srv_rbt s) (sv_tab s) (rbt_rwlock s) (<[pr := u4]> (sv_ums s))) end.
  assert (rp + 48 = add32 rp srv_replyee_t.cache) as Hat by (unfold srv_replyee_t.cache; by rewrite add32_small by lia).
  pose proof (wp_cache (Srvs (set_umem u3 (sv_ipc s)) (srv_rbt s) (sv_tab s) (rbt_rwlock s) (<[pr := u4]> (sv_ums s))) Uh rp 52 (rp + 48) (total args) c u4 Hpos Hfr3 ltac:(lia) ltac:(lia) Hk) as Hc.
  rewrite <- Hat. rewrite wp_bind in Hc. apply wp_bind. eapply wp_mono; [exact Hc|]. clear Hc. intros [] s4 Hc.
  apply wp_bind. eapply wp_mono; [exact Hc|]. clear Hc. intros r s5 (-> & u5 & -> & Ho5 & Hw5 & Hc32 & Hcm & Hco & Hcw & Hcf & Hcs).
  cbn [set_ipc sv_ipc srv_rbt sv_tab rbt_rwlock sv_ums umem set_umem] in *.
  assert (ipc_ok mm bm (set_umem u5 (sv_ipc s))) as HI5 by by destruct (so_ipc _ _ _ _ _ Hok).
  eapply (wp_msg_read th pr mm bm _ i (packed e (len args) args szs)); [exact HI5|exact Hm|lia|lia|lia|lia|exact Hcm|unfold is_u32 in Hc32; lia|lia|].
  cbn [set_ipc sv_ipc srv_rbt sv_tab rbt_rwlock sv_ums umem set_umem].
  intros u6 Hh6 Ho6. change (Z.to_nat 48) with 48%nat in Hh6. rewrite packed_data in Hh6 by apply Hszs.
  rewrite firstn_all2 in Hh6 by (unfold total; lia). cbn [negb E_OK Z.eqb].
  match goal with |- wp _ _ ?x => change x with (Srvs (set_umem u6 (sv_ipc s)) (srv_rbt s) (sv_tab s) (rbt_rwlock s) (<[pr := u4]> (sv_ums s))) end.
  eapply (read_finish nm t mm bm s i bi Uh rp e args szs u6 _ u4); try done.
  - eapply touched_trans; [exact Ht3|]. eapply touched_trans; [eapply touched_only; [exact Ho5|]|eapply touched_only; [exact Ho6|]].
    + intros y Hy. right; left. unfold span in *. lia.
    + intros y Hy. right; right. by apply Hcf.
  - eapply only_holds_at; [exact Ho6| |].
    + eapply only_holds_at; [exact Ho5|exact Hh3|]. rewrite !length_app, (proj1 Hszs). cbn [length bytes4]. lia.
    + intros y Hy Hy'. rewrite !length_app, (proj1 Hszs) in Hy'. cbn [length bytes4] in Hy'. apply (F9 y); [lia|by apply Hcf].
  - apply lookup_insert_eq.
  - intros ? ?. by rewrite lookup_insert_ne.
  - right. exists c. split_and!; try done. eapply only_holds_at; [exact Ho6|exact Hw5|].
    intros y Hy Hy'. apply (F10 y); [cbn [length bytes4] in Hy'; lia|by apply Hcf].
Qed.
End handlers.
