(* ===== verification/SrvRpc.v ===== *)
(** * A call of a service, from the client's arguments to the client's results

    The handlers of Srv.v composed: [srv_call] in one process, [srv_called] and
    [srv_reply] in another, which has its own user memory and shares the kernel's. *)
From S2P Require Import Prelude Machine Kmalloc IdxAlct IdMap RbtModel RbtTree RbtIter Cstring Words Blocks Names Msg MsgSpec Srv SrvPack SrvSpec SrvMsg SrvCall.

Section rpc.
Context {A K U : Type} {IA : IdMap A} {IL : IdMapLaws A} {HM : Kmalloc K} {HK : KmallocLaws K}.
Context {HB : HeapBytes K} {HBL : HeapBytesLaws K} {UM : Kmalloc U} {UK : KmallocLaws U} {UB : HeapBytes U} {UBL : HeapBytesLaws U}.
Context (junk : Z).
Abbreviation st := (srvs A K U).
Implicit Types (s : st) (I : ipc A K) (nm : Z → list Z) (t : tree).

(** Running with another process's memory. *)
Definition switch (u : mem) : M st unit :=
  modify (λ s, set_ipc (set_umem (mix u (umem (sv_ipc s))) (sv_ipc s)) s).

(** The server's turn: it takes the request, works in its own memory, and answers from the
    structure at [rp]. When it cannot, the client is never run again. *)
Definition server (th2 pr2 stk2 : Z) (others : M st unit) (u2 : mem) (name callee rp : Z) (work : M mem unit) : M st unit :=
  s <- get ;; switch u2 ;;;
  err <- srv_called th2 pr2 stk2 others name callee ;;
  if negb (err =? E_OK) then hang else
  in_mem work ;;;
  err <- srv_reply th2 pr2 junk rp ;;
  if negb (err =? E_OK) then hang else switch (umem (sv_ipc s)).

(** The memory of the kernel is above KERN_BASE. *)
Record kernel_high nm t s : Prop := {
  kh_heap : ∀ x, km_free (kheap (sv_ipc s)) x → KERN_BASE ≤ x;
  kh_names : ∀ x, named nm t x → KERN_BASE ≤ x;
}.

(** [work] answers [args] with [e] and [res], in the memory [u2] of the server with the
    request in it. *)
Definition answers (stk2 callee rp : Z) (u2 : mem) (Uh2 : U) (args res : list (list Z)) (e : Z) (work : M mem unit) : Prop :=
  ∀ m Uh' rb szs, (∀ x, x < KERN_BASE → ¬ owned stk2 Uh2 callee 56 x → m !! x = u2 !! x) →
    (∀ x, x < KERN_BASE → is_Some (u2 !! x) → is_Some (m !! x)) → all_bytes m →
    callee_has m Uh2 Uh' callee rb args szs → (∀ y, km_free Uh' y → km_free Uh2 y) → sized szs args → is_u32 rb →
    wp work (λ _ m', touched (λ x, x < KERN_BASE) m m' ∧ ∃ szs', replyer_at m' (λ x, KERN_BASE ≤ x) rp e rb res szs') m.

Lemma srv_ok_switch nm t mm bm s u : srv_ok nm t mm bm s → kernel_high nm t s → all_bytes u →
  srv_ok nm t mm bm (set_ipc (set_umem (mix u (umem (sv_ipc s))) (sv_ipc s)) s).
Proof.
  intros [G1 [G2 G2'] G3 G4 G5] [H1 H2] Hu. split; cbn [sv_ipc set_ipc srv_rbt sv_tab umem set_umem kheap]; try done.
  - by destruct G1.
  - split; [intros x Hx; rewrite mix_kern by (by apply H1); by apply G2|by apply mix_bytes].
  - intros p Hp. destruct (G4 p Hp) as (? & [C1 C2 C3] & ?). split_and!; [done| |done]. split; [|done|done].
    intros i b Hi. rewrite mix_kern; [by apply C1|]. apply H2. exists p. split; [done|]. unfold span.
    pose proof (lookup_lt_Some _ _ _ Hi) as Hlt. rewrite length_app in Hlt. simpl in Hlt. lia.
Qed.

Lemma replyer_at_bad m (bad bad' : Z → Prop) rp e sid args szs : replyer_at m bad rp e sid args szs → (∀ x, bad' x → bad x) →
  replyer_at m bad' rp e sid args szs.
Proof.
  intros [G1 G2 G3 G4 G5 G6 G7 G8] Hb. split; try done.
  - intros i l Hi. destruct (G5 i l Hi) as (a & [K1 K2 K3 K4 K5 K6 K7]). exists a. split; try done. intros x Hx. by apply K7, Hb.
  - intros x Hx. by apply G8, Hb.
Qed.

(** What the client finds when it runs again. *)
Record answered nm t (bm : gmap Z Z) s (pr1 pr2 rb e : Z) (res : list (list Z)) s' : Prop := {
  an_sent : ∃ mm i q szs, srv_ok nm t mm bm s' ∧ message mm (sv_ipc s') i MSG_SENDED pr2 (packed e (len res) res szs) ∧
    mm !! i = Some q ∧ sized szs res ∧ box bm (sv_ipc s') rb pr1 BOX_RCV_BLK 0 [q];
  an_res : is_u32 e ∧ (length res ≤ 10)%nat;
  an_ums : sv_ums s' !! pr1 = sv_ums s !! pr1 ∧ sv_tab s' = sv_tab s;
  an_user : ∀ x, x < KERN_BASE → umem (sv_ipc s') !! x = umem (sv_ipc s) !! x;
  an_mapped : ∀ x, is_Some (umem (sv_ipc s) !! x) → is_Some (umem (sv_ipc s') !! x);
}.

Lemma wlp_server nm t mm bm s th1 pr1 th2 pr2 stk2 others u2 name l p x Uh2 callee rp work i q w ls rb args szs e res :
  srv_ok nm t mm bm s → kernel_high nm t s → all_bytes u2 → cstr u2 name l → name + len l + 1 ≤ KERN_BASE → service nm t s l p x →
  sv_owner x = pr2 → 0 ≤ rbt_rwlock s → sv_ums s !! pr2 = Some Uh2 → pr1 ≠ pr2 → th1 ≠ 0 →
  frame_ok stk2 (mix u2 (umem (sv_ipc s))) Uh2 callee 56 → (∀ y, owned stk2 Uh2 callee 56 y → ¬ named nm t y) →
  message mm (sv_ipc s) i MSG_SENDED pr1 (packed rb (total args) args szs) → sized szs args → mm !! i = Some q →
  box bm (sv_ipc s) (sv_boxid x) pr2 BOX_RCVABLE w (q :: ls) → box bm (sv_ipc s) rb pr1 BOX_RCV_BLK th1 [] → rb ≠ sv_boxid x →
  is_u32 rb → 48 + total args < W32 → 48 + total res < W32 → answers stk2 callee rp u2 Uh2 args res e work →
  wlp (server th2 pr2 stk2 others u2 name callee rp work) (λ _ s', answered nm t bm s pr1 pr2 rb e res s') s.
Proof.
  intros Hok Hkh Hu2 Hname Hnk Hsv Hown Hlk Hums Hpr Hth1 Hfr Hnn Hmsg Hszs Hi Hbox Hrbox Hne Hrb Htot Htot2 Hwork.
  unfold server. eapply wlp_step; [done|]. eapply wlp_step; [done|].
  set (s1 := set_ipc (set_umem (mix u2 (umem (sv_ipc s))) (sv_ipc s)) s).
  assert (srv_ok nm t mm bm s1) as Hok1 by by apply srv_ok_switch.
  assert (cstr (umem (sv_ipc s1)) name l) as Hname1.
  { destruct Hname as [C1 C2 C3]. split; [|done|done]. apply mix_holds_user; [done|]. rewrite length_app. simpl. lia. }
  apply wlp_bind, wp_wlp. eapply wp_mono.
  { eapply (wp_srv_called th2 pr2 stk2 nm t mm bm s1 others name l p x Uh2 callee i q pr1 w ls rb args szs); try done. }
  intros err s2 (Uh' & Hrd & _ & Hch). destruct (err =? E_OK); cbn [negb]; [|done].
  destruct Hrd as [R1 (R2a & R2b & R2c) (R3a & R3b) R4 R5 (R6 & R7)]. cbn [s1 sv_ipc set_ipc umem set_umem kheap sv_ums srv_rbt sv_tab rbt_rwlock] in *.
  assert (kernel_high nm t s2) as Hkh2.
  { destruct Hkh as [K1 K2]. split; [intros y Hy; by apply K1, R6|done]. }
  apply wlp_bind, wlp_in_mem. eapply wp_mono.
  { apply (Hwork _ Uh' rb szs); try done.
    - intros y Hy Hno. rewrite (to_frame _ _ _ R5) by done. by apply mix_user.
    - intros y Hy Hm. apply (to_mapped _ _ _ R5). by rewrite mix_user.
    - apply (to_bytes _ _ _ R5). apply mix_bytes; [done|]. apply Hok. }
  intros [] u3 (Ht3 & szs' & Hra).
  set (s3 := set_ipc (set_umem u3 (sv_ipc s2)) s2).
  assert (srv_ok nm t mm bm s3) as Hok3.
  { apply (srv_ok_step nm t mm bm s2 mm bm (set_umem u3 (sv_ipc s2)) _ _ (λ y, y < KERN_BASE) R1); try done.
    - by destruct (so_ipc _ _ _ _ _ R1).
    - intros y Hy Hny. apply Hkh in Hny. lia. }
  assert (box bm (sv_ipc s3) rb pr1 BOX_RCV_BLK th1 []) as Hrbox3.
  { apply (box_same bm (sv_ipc s2)); [done|]. eapply box_frame; [|exact R4|done|exact Hrbox].
    exact (so_ipc _ _ _ _ _ Hok1). }
  apply wlp_bind. eapply wlp_mono.
  { eapply (wlp_srv_reply th2 pr2 junk nm t mm bm s3 rp e rb res szs' pr1 BOX_RCV_BLK th1 []); try done.
    eapply replyer_at_bad; [exact Hra|]. intros y Hy. by apply Hkh2. }
  intros err' s4 Hr. destruct (Z.eqb_spec err' E_OK) as [->|]; cbn [negb]; [|done]. destruct (Hr eq_refl) as [(mm' & i' & q' & Hok4 & Hm4 & Hi4 & Hb4) (S1 & S2 & S3 & S4) (S5 & S6)].
  clear Hr. unfold switch, wlp, modify.
  assert (kernel_high nm t s4) as Hkh4.
  { destruct Hkh2 as [K1 K2]. split; [intros y Hy; by apply K1, S6|done]. }
  split; cbn [sv_ipc set_ipc umem set_umem sv_ums].
  - exists mm', i', q', szs'. split_and!; [|done|done|by eapply replyer_sized|].
    + apply srv_ok_switch; [done|done|]. apply Hok.
    + by rewrite bool_decide_eq_true_2 in Hb4.
  - split; [apply Hra|apply Hra].
  - rewrite S4. split; [by apply R3b|]. cbn [sv_tab set_ipc]. by rewrite S1.
  - intros y Hy. by rewrite mix_user.
  - intros y Hy. destruct (decide (y < KERN_BASE)); [by rewrite mix_user|]. rewrite mix_kern by lia.
    apply (to_mapped _ _ _ S5). cbn [s3 sv_ipc set_ipc umem set_umem]. apply (to_mapped _ _ _ Ht3), (to_mapped _ _ _ R5). by rewrite mix_kern by lia.
Qed.

(** The client [th1] of the process [pr1] with the arguments [args] at [param], and the
    server [th2] of [pr2] with memory [u2]: the service is registered, its box is empty,
    and buffers, stacks and heaps do not overlap. *)
Record rpc_setup nm t (mm bm : gmap Z Z) s (th1 pr1 stk1 pr2 stk2 : Z) (u2 : mem) (name1 name2 : Z) (l : list Z) (p : Z) (x : srv_t)
    (Uh1 Uh2 : U) (param replyee callee : Z) (args : list (list Z)) : Prop := {
  st_ok : srv_ok nm t mm bm s ∧ kernel_high nm t s ∧ 0 ≤ rbt_rwlock s ∧ next_id_u32 (sv_ipc s);
  st_names : cstr (umem (sv_ipc s)) name1 l ∧ cstr u2 name2 l ∧ name2 + len l + 1 ≤ KERN_BASE ∧ all_bytes u2;
  st_service : service nm t s l p x ∧ sv_owner x = pr2 ∧ sv_nparam x = len args ∧
    box bm (sv_ipc s) (sv_boxid x) pr2 BOX_RCVABLE 0 [];
  st_procs : pr1 ≠ pr2 ∧ th1 ≠ 0 ∧ sv_ums s !! pr1 = Some Uh1 ∧ sv_ums s !! pr2 = Some Uh2;
  st_args : args_at (umem (sv_ipc s)) (km_free (kheap (sv_ipc s))) (par_ad param) (par_sz param) args ∧ 48 + total args < W32;
  st_client : frame_ok stk1 (umem (sv_ipc s)) Uh1 replyee 52 ∧ ∀ y, owned stk1 Uh1 replyee 52 y → ¬ named nm t y;
  st_server : frame_ok stk2 (mix u2 (umem (sv_ipc s))) Uh2 callee 56 ∧ ∀ y, owned stk2 Uh2 callee 56 y → ¬ named nm t y;
}.

(** C32: A call of a service is a function call between processes: when a client calls a
    registered service with arguments [args], the server takes the request with
    [srv_called] and answers with [srv_reply], and its code between the two answers [args]
    with [e] and [res], then [srv_call], when it returns E_OK, has put the error [e], the
    number and sizes of the results and their bytes, in a block of the client's own heap,
    into [replyee]; the arguments and results are copied between the address spaces, and
    the registry is as it was. *)
Theorem srv_rpc_correct nm t mm bm s th1 pr1 stk1 th2 pr2 stk2 others u2 name1 name2 l p x Uh1 Uh2 param replyee callee rp work args e res :
  rpc_setup nm t mm bm s th1 pr1 stk1 pr2 stk2 u2 name1 name2 l p x Uh1 Uh2 param replyee callee args →
  48 + total res < W32 → answers stk2 callee rp u2 Uh2 args res e work →
  wlp (srv_call th1 pr1 junk stk1 (server th2 pr2 stk2 others u2 name2 callee rp work) name1 param replyee 0)
    (λ err s', err = E_OK → ∃ Uh' szs mm' bm', replyee_has (umem (sv_ipc s')) Uh1 Uh' replyee e res szs ∧ sized szs res ∧
      sv_ums s' !! pr1 = Some Uh' ∧ srv_ok nm t mm' bm' s' ∧ sv_tab s' = sv_tab s) s.
Proof.
  intros [(Hok & Hkh & Hlk & Hid) (Hn1 & Hn2 & Hnk & Hu2) (Hsv & Hown & Hnp & Hbox) (Hpr & Hth1 & Hum1 & Hum2) (Hargs & Htot) (Hfr1 & Hnn1) (Hfr2 & Hnn2)] Htot2 Hwork.
  unfold srv_call. apply wlp_bind. eapply wlp_mono.
  { eapply (wlp_srv_call_send th1 pr1 junk nm t mm bm s name1 param args l p x); try done. }
  intros [err|rb] s1 Hrq; [by apply wlp_ret|].
  destruct Hrq as [(mm' & bm' & i & q & rp' & b & szs & Hok1 & Hmsg1 & Hi1 & Hszs & Hbox1 & Hrp & Hb & Hbo & Hbs & Hls) (Hrb & Hne) (T1 & T2 & T3 & T4) (T5 & T6)].
  cbn [app bool_decide] in Hbox1.
  destruct (recieve_waits th1 pr1 mm' bm' s1 rb rp' b (so_ipc _ _ _ _ _ Hok1) Hrp Hb Hbo Hbs Hls) as (Hrun & HI2 & Hwbox).
  set (s2 := set_ipc (waiting th1 rp' b (sv_ipc s1)) s1) in *.
  assert (ipc_frame mm' bm' i rb (sv_ipc s1) (sv_ipc s2)) as Hfw.
  { split; [done|done|]. intros r Hr. cbn [s2 sv_ipc set_ipc waiting set_boxes boxes]. apply lookup_insert_ne. congruence. }
  assert (srv_ok nm t mm' bm' s2) as Hok2.
  { apply (srv_ok_quiet nm t mm' bm' s1 _ _ _ (rbt_rwlock s1) (sv_ums s1) Hok1 HI2). by split. }
  unfold srv_call_wait, recieve. apply wlp_bind. eapply wlp_step; [exact Hrun|]. cbv beta iota.
  assert (∀ y, is_Some (umem (sv_ipc s) !! y) → is_Some (umem (sv_ipc s2) !! y)) as Hmapped by apply (to_mapped _ _ _ T5).
  apply wlp_bind. eapply wlp_mono.
  { eapply (wlp_server nm t mm' bm' s2 th1 pr1 th2 pr2 stk2 others u2 name2 l p x Uh2 callee rp work i q 0 [] rb args szs e res); try done.
    - split; [intros y Hy; by apply Hkh, T6|apply Hkh].
    - destruct Hsv as (V1 & V2 & V3). split_and!; [done|done|]. cbn [s2 sv_tab set_ipc]. by rewrite T1.
    - cbn [s2 rbt_rwlock set_ipc]. by rewrite T3.
    - cbn [s2 sv_ums set_ipc]. by rewrite T4.
    - eapply frame_mapped; [|exact Hfr2]. intros y. destruct (decide (y < KERN_BASE)); [by rewrite !mix_user|].
      rewrite !mix_kern by lia. apply Hmapped.
    - exact (box_frame mm' bm' i rb _ _ _ _ _ _ _ (so_ipc _ _ _ _ _ Hok1) Hfw (not_eq_sym Hne) Hbox1). }
  intros [] s3 [(mm3 & i3 & q3 & szs3 & Hok3 & Hmsg3 & Hi3 & Hszs3 & Hbox3) (He & Hres) (Hums3 & Htab3) Huser Hmap3].
  destruct Hbox3 as (rp3 & b3 & Hrp3 & Hb3 & Hb3o & Hb3s & Hb3w & Hb3l). assert (rp3 = rp') as -> by congruence.
  eapply wp_wlp, (wp_recieve_woken th1 pr1 mm3 bm' s3 rb _ _ q3 [] i3); [apply (so_ipc _ _ _ _ _ Hok3)|done..|].
  intros I4 HI4 Hmsg4 Hq4. cbv beta iota.
  set (s4 := set_ipc I4 s3).
  assert (srv_ok nm t mm3 bm' s4) as Hok4 by (by apply (srv_ok_quiet nm t mm3 bm' s3 _ _ I4 _ _ Hok3)).
  eapply wlp_mono; [eapply wp_wlp, (wp_srv_call_read th1 pr1 stk1 nm t mm3 bm' s4 i3 rb pr1 Uh1 replyee e res szs3); try done|].
  - cbn [s4 sv_ums set_ipc]. rewrite Hums3. cbn [s2 sv_ums set_ipc]. by rewrite T4.
  - cbn [s4 sv_ipc set_ipc]. destruct Hq4 as [-> _ _]. eapply frame_mapped; [|exact Hfr1]. intros y Hy. by apply Hmap3, Hmapped.
  - intros err s5 (Uh' & Hrd & Hhas) ->. cbn [E_OK Z.eqb] in Hhas. destruct Hrd as [R1 (R2a & R2b & R2c) (R3a & R3b) R4 R5 R6].
    exists Uh', szs3, mm3, bm'. split_and!; try done. rewrite R2b. cbn [s4 sv_tab set_ipc]. rewrite Htab3. cbn [s2 sv_tab set_ipc]. by rewrite T1.
Qed.
End rpc.
