(* ===== verification/SrvTrip.v ===== *)
(** * A service that echoes its argument: the theorems about services on a concrete run

    Process 200 registers the service "db", process 100 calls it with two bytes. The
    kernel's memory starts at KERN_BASE: the stacks of the two threads, then the heap. *)
From stdpp Require Import functions.
From S2P Require Import Prelude Machine Kmalloc IdxAlct IdMap RbtModel RbtTree RbtIter Cstring Words Blocks Names Msg MsgSpec Srv SrvPack SrvSpec SrvMsg SrvReg SrvCall SrvUser SrvRpc.

(** The server's code between [srv_called] and the system call of [srv_reply]: it passes
    the block and the size it has got, through the words at [arg]. *)
Definition echo (callee rp arg : Z) : M mem unit :=
  sid <- rdw callee ;; c <- rdw (callee + 52) ;; z <- rdw (callee + 12) ;;
  wrw arg c ;;; wrw (arg + 4) z ;;; reply_fill rp sid 0 1 arg.

Lemma echo_answers stk callee rp arg u (Uh : arena) l : 0 ≤ rp → rp + 92 ≤ KERN_BASE → 0 ≤ arg → arg + 8 ≤ KERN_BASE →
  0 ≤ callee → callee + 56 ≤ KERN_BASE → (arg + 8 ≤ rp ∨ rp + 92 ≤ arg) → (arg + 8 ≤ callee ∨ callee + 56 ≤ arg) →
  (rp + 92 ≤ callee ∨ callee + 56 ≤ rp) → ar_end Uh ≤ KERN_BASE → outside Uh rp 92 → outside Uh arg 8 → mapped u rp 92 → mapped u arg 8 →
  0 < len l → answers stk callee rp u Uh [l] [l] 0 (echo callee rp arg).
Proof.
  intros H1 H2 H3 H4 H5 H6 H7 H8 H9 H10 H11 H12 H13 H14 Hl m Uh' rb szs Hsame Hmap Hby [C1 C2 C3 C4] Hsub Hsz Hrb.
  assert (KERN_BASE < W32) as HK by done.
  assert (total [l] = len l) as Htot by (unfold total; simpl; by rewrite app_nil_r).
  destruct C4 as [Hz|(c & K1 & K2 & K3 & K4 & K5 & K6)]; [lia|]. rewrite Htot in *. cbn [concat] in K3. rewrite app_nil_r in K3.
  pose proof (sized_words m (callee + 12) szs [l] C3 Hsz 0 l eq_refl) as Hw. rewrite Z.mul_0_r, Z.add_0_r in Hw.
  assert (∀ y, span c (len l) y → 0 ≤ y < KERN_BASE ∧ ¬ (rp ≤ y < rp + 92) ∧ ¬ (arg ≤ y < arg + 8)) as Hcy.
  { intros y Hy. pose proof (K6 y Hy) as Hf. split; [unfold km_free, arena_bytes in Hf; unfold is_u32, span in *; lia|].
    split; intros Hx; [by apply (H11 y)|by apply (H12 y)]. }
  assert (c + len l ≤ KERN_BASE) as Hck by (destruct (Hcy (c + len l - 1)); [unfold span; lia|lia]).
  unfold is_u32 in *. unfold echo.
  apply wp_bind. eapply wp_rdw; [exact C1|done|lia|lia|].
  apply wp_bind. eapply wp_rdw; [exact K1|done|lia|lia|].
  apply wp_bind. eapply wp_rdw; [exact Hw|unfold is_u32; lia|lia|lia|].
  apply wp_bind, wp_wrw; [intros x Hx; apply Hmap; [lia|apply H14; lia]|lia|lia|]. intros m1 W1 O1.
  apply wp_bind, wp_wrw; [intros x Hx; apply (on_mapped _ _ _ _ O1), Hmap; [lia|apply H14; lia]|lia|lia|]. intros m2 W2 O2.
  assert (only arg 8 m m2) as O by (eapply only_seq; [eapply only_wider; [exact O1|lia..]|eapply only_wider; [exact O2|lia..]]).
  eapply wp_mono.
  { apply (reply_fill_spec (λ x, KERN_BASE ≤ x) m2 rp 0 rb arg [l]); [lia|simpl; lia|done|intros x Hx; lia| |].
    - intros i k Hi. destruct i as [|i]; [|done]. injection Hi as <-. exists c. unfold par_ad, par_sz. rewrite !add32_small by lia.
      change (8 * Z.of_nat 0) with 0. rewrite Z.add_0_r. split; try done; try lia.
      + eapply only_holds; [exact O2|exact W1|cbn [length bytes4]; lia].
      + eapply only_holds_at; [exact O|exact K3|]. intros x Hx Hx'. by destruct (Hcy x Hx') as (_ & _ & ?).
      + intros x [Hx|Hx]; (split_and!; [lia|lia|]); intros Hx'; destruct (Hcy x Hx') as (? & ? & ?); [lia|done].
    - intros x Hx. apply (on_mapped _ _ _ _ O), Hmap; [lia|]. apply H13. lia. }
  intros [] m3 (O3 & szs' & Hr). split; [|by exists szs'].
  eapply touched_trans; [eapply touched_only; [exact O|]|eapply touched_only; [exact O3|]]; intros x Hx; unfold span in Hx; lia.
Qed.

(** ** Memory *)
Definition KB : Z := KERN_BASE.
Definition ex_kmem : mem := ram KB 2048.
(** The server: its name at 0x2000, [srvcalled] at 0x2040, [replyer] at 0x2100, two words
    for the arguments of [srv_reply] at 0x2180. *)
Definition ex_smem : mem := place 0x2000 [100; 98; 0] (ram 0x2000 0x400).
(** The client: the name at 0x1000, the pair of words at 0x1010, the argument at 0x1020,
    [replyee] at 0x1040. *)
Definition ex_cmem : mem :=
  place 0x1000 ([100; 98; 0] ++ replicate 13 0 ++ bytes4 0x1020 ++ bytes4 2 ++ replicate 8 0 ++ [5; 6]) (ram 0x1000 0x400).

Definition ex_sv0 : srvs (idx_alct bump) arena arena :=
  Srvs (Ipc ∅ ∅ ∅ (idx_empty 9) (idx_empty 9) (Arena (KB + 0x400) (KB + 0x800) ∅) (mix ex_smem ex_kmem) []) (Rbt NULL ∅) ∅ 0
    {[100 := Arena 0x1200 0x1300 ∅; 200 := Arena 0x2200 0x2300 ∅]}.
Definition state_of {S A} (d : S) (o : outcome S A) : S := match o with Ret _ s => s | _ => d end.
Definition value_of {S A} (o : outcome S A) : option A := match o with Ret a _ => Some a | _ => None end.
Definition ex_register : M (srvs (idx_alct bump) arena arena) Z := srv_sys_register 2 200 7 0x2000 1.
Definition ex_sv1 : srvs (idx_alct bump) arena arena :=
  state_of ex_sv0 (ex_register ex_sv0).
(** The client's memory comes in place of the server's, and the client runs. *)
Definition client (s : srvs (idx_alct bump) arena arena) : srvs (idx_alct bump) arena arena :=
  set_ipc (set_umem (mix ex_cmem (umem (sv_ipc s))) (sv_ipc s)) s.
Definition ex_sv2 : srvs (idx_alct bump) arena arena := client ex_sv1.
Definition ex_server : M (srvs (idx_alct bump) arena arena) unit :=
  server 7 2 200 (KB + 0x100) (ret tt) ex_smem 0x2000 0x2040 0x2100 (echo 0x2040 0x2100 0x2180).
Definition ex_call : M (srvs (idx_alct bump) arena arena) Z :=
  srv_call 1 100 7 (KB + 0x200) ex_server 0x1000 0x1010 0x1040 0.
Definition ex_sv3 : srvs (idx_alct bump) arena arena := state_of ex_sv2 (ex_call ex_sv2).

Lemma wlp_run {S A} (c : M S A) Q s a s' : wlp c Q s → c s = Ret a s' → Q a s'.
Proof. intros Hq Hc. unfold wlp in Hq. by rewrite Hc in Hq. Qed.

(** ** The registration *)
Lemma mapped_mix_user u k a n : mapped u a n → a + n ≤ KERN_BASE → mapped (mix u k) a n.
Proof. intros Hm Hk x Hx. rewrite mix_user by lia. by apply Hm. Qed.
Lemma mapped_mix_kern u k a n : mapped k a n → KERN_BASE ≤ a → mapped (mix u k) a n.
Proof. intros Hm Hk x Hx. rewrite mix_kern by lia. by apply Hm. Qed.

Lemma ex_smem_bytes : all_bytes ex_smem.
Proof. apply place_bytes; [repeat constructor; lia|apply ram_bytes]. Qed.
Lemma ex_smem_mapped a n : 0x2000 ≤ a → a + n ≤ 0x2400 → mapped ex_smem a n.
Proof. intros H1 H2. apply place_mapped, ram_mapped; simpl; lia. Qed.
Lemma ex_smem_name : cstr ex_smem 0x2000 [100; 98].
Proof. split; [exact (place_holds 0x2000 [100; 98; 0] _ 0 [100; 98; 0] eq_refl)|by repeat constructor|done]. Qed.
Lemma ex_cmem_bytes : all_bytes ex_cmem.
Proof. apply place_bytes; [apply (bool_decide_unpack _); by vm_compute|apply ram_bytes]. Qed.
Lemma ex_cmem_mapped a n : 0x1000 ≤ a → a + n ≤ 0x1400 → mapped ex_cmem a n.
Proof. intros H1 H2. apply place_mapped, ram_mapped; simpl; lia. Qed.

Lemma ex_sv0_ok : srv_ok (λ _, []) E ∅ ∅ ex_sv0.
Proof.
  split; cbn [sv_ipc srv_rbt sv_tab ex_sv0].
  - apply (ok_empty (idx_empty 9) (idx_empty 9)); [apply idx_empty_represents..|]. intros p Hp. by apply elem_of_empty in Hp.
  - split; [|apply mix_bytes; [apply ex_smem_bytes|apply ram_bytes]]. intros x Hx. cbn [kheap umem] in *.
    unfold km_free, arena_bytes in Hx. cbn [ar_next ar_end] in Hx. rewrite mix_kern by (unfold KB in Hx; lia).
    unfold ex_kmem. rewrite ram_lookup; [by eexists|]. unfold KB in *. simpl. lia.
  - split_and!; [|split; [done|by exists 0%nat; constructor]|constructor].
    split; cbn [elems rep RbtTree.addr rbt_root rbt_nodes]; [done|done|constructor|by apply not_elem_of_nil|done|done].
  - intros p Hp. by apply elem_of_nil in Hp.
  - intros x (p & Hp & _). by apply elem_of_nil in Hp.
Qed.

Lemma ex_sv1_run : ex_register ex_sv0 = Ret E_OK ex_sv1.
Proof.
  assert (value_of (ex_register ex_sv0) = Some E_OK) as He by by vm_compute.
  unfold ex_sv1. destruct (ex_register ex_sv0) as [e s| | |]; [|done..]. by injection He as ->.
Qed.

Lemma ex_name_there : cstr (umem (sv_ipc ex_sv0)) 0x2000 [100; 98] ∧
  ∀ x, span 0x2000 (Z.of_nat (length [100; 98]) + 1) x → ¬ km_free (kheap (sv_ipc ex_sv0)) x.
Proof.
  split.
  - destruct ex_smem_name as [C1 C2 C3]. split; [|done|done]. by apply mix_holds_user.
  - intros x Hx Hf; unfold span in Hx; unfold km_free, arena_bytes in Hf; cbn in Hx, Hf; unfold KB, KERN_BASE in Hf; lia.
Qed.
Lemma ex_registered : ∃ srv rb t', registered 200 (λ _, []) E ∅ ∅ ex_sv0 [100; 98] 1 srv rb t' ex_sv1.
Proof.
  destruct ex_name_there as [Hn Hsp].
  assert (¬ (MAX_SRV_NAME_LEN ≤ Z.of_nat (length [100; 98]) ∨ MAX_CALL_PARAM < 1)) as H1 by (unfold MAX_SRV_NAME_LEN, MAX_CALL_PARAM; simpl; lia).
  assert (¬ Exists (λ p : Z, (λ _, []) p = [100; 98]) (elems E)) as H2 by (cbn [elems]; by intros ?%Exists_nil).
  pose proof (srv_register_spec 2 200 7 (λ _, []) E ∅ ∅ ex_sv0 0x2000 [100; 98] 1 ex_sv0_ok Hn Hsp ltac:(lia) eq_refl H1 H2) as Hr.
  exact (wlp_run ex_register _ ex_sv0 _ _ Hr ex_sv1_run).
Qed.

Lemma srv_register_correct_witness : ∃ srv rb t',
  ex_register ex_sv0 = Ret E_OK ex_sv1 ∧
  registered 200 (λ _, []) E ∅ ∅ ex_sv0 [100; 98] 1 srv rb t' ex_sv1.
Proof.
  destruct ex_name_there as [Hn Hsp].
  pose proof (srv_register_correct 2 200 7 (λ _, []) E ∅ ∅ ex_sv0 0x2000 [100; 98] 1 ex_sv0_ok Hn Hsp ltac:(lia) eq_refl) as Hr.
  cbv zeta in Hr. rewrite bool_decide_eq_false_2 in Hr by (unfold MAX_SRV_NAME_LEN, MAX_CALL_PARAM; simpl; lia).
  rewrite bool_decide_eq_false_2 in Hr by (cbn [elems]; by intros ?%Exists_nil).
  destruct (wlp_run ex_register _ ex_sv0 _ _ Hr ex_sv1_run) as (srv & rb & t' & Hreg).
  exists srv, rb, t'. split; [apply ex_sv1_run|done].
Defined.

(** ** The call *)
Lemma ex_sv1_facts : rbt_rwlock ex_sv1 = 0 ∧ ar_next (kheap (sv_ipc ex_sv1)) = KB + 0x470 ∧ ar_end (kheap (sv_ipc ex_sv1)) = KB + 0x800 ∧
  bool_decide (is_Some (sv_tab ex_sv1 !! (KB + 0x400))) = true.
Proof. by vm_compute. Qed.
Lemma ex_next_id : next_id_u32 (sv_ipc ex_sv2).
Proof. intros p. vm_compute. done. Qed.

Lemma ex_setup_from s1 p t rb : registered 200 (λ _, []) E ∅ ∅ ex_sv0 [100; 98] 1 p rb t s1 →
  ar_next (kheap (sv_ipc s1)) = KB + 0x470 → ar_end (kheap (sv_ipc s1)) = KB + 0x800 →
  is_Some (sv_tab s1 !! (KB + 0x400)) → next_id_u32 (sv_ipc (client s1)) →
  ∃ bp, rpc_setup (<[p := [100; 98]]> (λ _, [])) t ∅ {[rb := bp]} (client s1) 1 100 (KB + 0x200) 200 (KB + 0x100)
  ex_smem 0x1000 0x2000 [100; 98] p (SrvT 200 rb 1) (Arena 0x1200 0x1300 ∅) (Arena 0x2200 0x2300 ∅) 0x1010 0x1040 0x2040 [[5; 6]].
Proof.
  assert (KB = 0xC0000000 ∧ KERN_BASE = 0xC0000000 ∧ W32 = 0x100000000) as (HKB & HKN & HW) by done.
  intros [(Hn & _ & Htab) (l1 & l2 & He & He') (bp & Hok & Hbox) (Hlk & Hums) _ Hmem] Hnext Hend Hat Hid.
  assert (p = KB + 0x400) as Hp.
  { rewrite Htab in Hat. cbn [sv_tab ex_sv0] in Hat. apply lookup_insert_is_Some in Hat as [?|[_ Hat]]; [done|].
    rewrite lookup_empty in Hat. by destruct Hat. }
  assert (elems t = [p]) as Het by (cbn [elems] in He; symmetry in He; apply app_nil in He as [-> ->]; exact He').
  assert (∀ x, named (<[p := [100; 98]]> (λ _, [])) t x → KB + 0x400 ≤ x < KB + 0x403) as Hnamed.
  { intros x (q & Hq & Hx). rewrite Het in Hq. apply list_elem_of_singleton in Hq as ->. rewrite fn_lookup_insert in Hx.
    unfold span in Hx. cbn [length] in Hx. lia. }
  assert (∀ x, km_free (kheap (sv_ipc s1)) x → KB + 0x470 ≤ x < KB + 0x800) as Hfree.
  { intros x Hx. unfold km_free, arena_bytes in Hx. lia. }
  assert (∀ a n, KB ≤ a → a + n ≤ KB + 0x800 → mapped (umem (sv_ipc s1)) a n) as Hkm.
  { intros a n H1 H2 x Hx. apply (to_mapped _ _ _ Hmem). cbn [sv_ipc ex_sv0 umem]. rewrite mix_kern by lia.
    unfold ex_kmem. rewrite ram_lookup; [by eexists|]. simpl. lia. }
  assert (kernel_high (<[p := [100; 98]]> (λ _, [])) t s1) as Hkh.
  { split; [intros x Hx%Hfree; lia|intros x Hx%Hnamed; lia]. }
  assert (∀ k l, take (length l) (drop k ([100; 98; 0] ++ replicate 13 0 ++ bytes4 0x1020 ++ bytes4 2 ++ replicate 8 0 ++ [5; 6])) = l →
    (k + length l <? 100)%nat = true → holds (umem (sv_ipc (client s1))) (0x1000 + Z.of_nat k) l) as Hcm.
  { intros k l Hl Hb. apply mix_holds_user; [by apply place_holds|]. apply Nat.ltb_lt in Hb. lia. }
  assert (∀ a n, 0x1000 ≤ a → a + n ≤ 0x1400 → mapped (umem (sv_ipc (client s1))) a n) as Hcmap.
  { intros a n H1 H2. apply mapped_mix_user; [by apply ex_cmem_mapped|lia]. }
  assert (∀ a n, KB ≤ a → a + n ≤ KB + 0x800 → mapped (umem (sv_ipc (client s1))) a n) as Hkm2.
  { intros a n H1 H2. apply mapped_mix_kern; [by apply Hkm|lia]. }
  exists bp. split.
  - refine (conj _ (conj _ (conj _ Hid))).
    + exact (srv_ok_switch _ _ _ _ s1 ex_cmem Hok Hkh ex_cmem_bytes).
    + split; apply Hkh.
    + unfold client. cbn [rbt_rwlock set_ipc]. rewrite Hlk. lia.
  - refine (conj _ (conj ex_smem_name (conj _ ex_smem_bytes))); [|rewrite HKN; simpl; lia].
    split; [exact (Hcm 0%nat [100; 98; 0] eq_refl eq_refl)|by repeat constructor|done].
  - refine (conj (conj _ (conj (fn_lookup_insert _ _ _) _)) (conj eq_refl (conj eq_refl _))); [rewrite Het; by left| |].
    + unfold client. cbn [sv_tab set_ipc]. rewrite Htab. apply lookup_insert_eq.
    + eexists bp, _. split; [apply lookup_singleton_eq|]. unfold client. cbn [sv_ipc set_ipc set_umem boxes]. rewrite Hbox.
      split; [apply lookup_insert_eq|done].
  - refine (conj _ (conj _ (conj _ _))); [done|done|unfold client; cbn [sv_ums set_ipc]; rewrite Hums; done..].
  - split; [|done]. intros i l Hi. destruct i as [|i]; [|done]. injection Hi as <-. exists 0x1020.
    unfold par_ad, par_sz. rewrite !add32_small by lia. change (8 * Z.of_nat 0) with 0.
    split; [exact (Hcm 16%nat (bytes4 0x1020) eq_refl eq_refl)|exact (Hcm 20%nat (bytes4 2) eq_refl eq_refl)|
      exact (Hcm 32%nat [5; 6] eq_refl eq_refl)|lia|lia|simpl; lia|].
    intros x Hx. assert (KB + 0x470 ≤ x) by (by apply Hfree). simpl. lia.
  - split; [split|].
    + split; [apply Hkm2; lia|lia].
    + split; [apply Hcmap; lia|lia].
    + lia.
    + split_and!; [intros x Hx; apply (Hcmap x 1); unfold km_free, arena_bytes in Hx; cbn [ar_next ar_end] in Hx; lia|..];
        intros x Hx Hf; unfold km_free, arena_bytes in Hf; cbn [ar_next ar_end] in Hf; lia.
    + intros y Hy Hny%Hnamed. unfold owned, span, km_free, arena_bytes in Hy. cbn [ar_next ar_end] in Hy. lia.
  - split; [split|].
    + split; [|lia]. apply mapped_mix_kern; [apply Hkm2; lia|lia].
    + split; [|lia]. apply mapped_mix_user; [apply ex_smem_mapped; lia|lia].
    + lia.
    + split_and!; [intros x Hx; apply (mapped_mix_user ex_smem _ x 1); unfold km_free, arena_bytes in Hx; cbn [ar_next ar_end] in Hx;
        [apply ex_smem_mapped; lia|lia..]|..];
        intros x Hx Hf; unfold km_free, arena_bytes in Hf; cbn [ar_next ar_end] in Hf; lia.
    + intros y Hy Hny%Hnamed. unfold owned, span, km_free, arena_bytes in Hy. cbn [ar_next ar_end] in Hy. lia.
Qed.

Lemma ex_call_run : ex_call ex_sv2 = Ret E_OK ex_sv3.
Proof.
  assert (value_of (ex_call ex_sv2) = Some E_OK) as He by by vm_compute.
  unfold ex_sv3. destruct (ex_call ex_sv2) as [e s| | |]; [|done..]. by injection He as ->.
Qed.

Lemma ex_echo_answers : answers (KB + 0x100) 0x2040 0x2100 ex_smem (Arena 0x2200 0x2300 ∅) [[5; 6]] [[5; 6]] 0 (echo 0x2040 0x2100 0x2180).
Proof.
  assert (KERN_BASE = 0xC0000000) as HKN by done.
  apply echo_answers; try lia; try (cbn [ar_end]; lia); try (by left; lia); try (by right; lia).
  - intros x Hx Hf. unfold km_free, arena_bytes in Hf. cbn [ar_next ar_end] in Hf. lia.
  - intros x Hx Hf. unfold km_free, arena_bytes in Hf. cbn [ar_next ar_end] in Hf. lia.
  - apply ex_smem_mapped; lia.
  - apply ex_smem_mapped; lia.
  - done.
Qed.

Lemma srv_rpc_correct_witness : ∃ Uh szs, ex_call ex_sv2 = Ret E_OK ex_sv3 ∧
  replyee_has (umem (sv_ipc ex_sv3)) (Arena 0x1200 0x1300 ∅) Uh 0x1040 0 [[5; 6]] szs ∧ sized szs [[5; 6]].
Proof.
  destruct ex_registered as (p & rb & t & Hreg). destruct ex_sv1_facts as (_ & Hnext & Hend & Hat).
  destruct (ex_setup_from ex_sv1 p t rb Hreg Hnext Hend (bool_decide_eq_true_1 _ Hat) ex_next_id) as (bp & Hs).
  pose proof (srv_rpc_correct 7 _ _ _ _ _ 1 100 (KB + 0x200) 2 200 (KB + 0x100) (ret tt) ex_smem 0x1000 0x2000 _ _ _ _ _ 0x1010 0x1040 0x2040 0x2100
    (echo 0x2040 0x2100 0x2180) [[5; 6]] 0 [[5; 6]] Hs ltac:(done) ex_echo_answers) as Hw.
  destruct (wlp_run ex_call _ ex_sv2 _ _ Hw ex_call_run eq_refl) as (Uh & szs & mm' & bm' & H1 & H2 & _).
  exists Uh, szs. split; [exact ex_call_run|]. by split.
Defined.
